(* ===== verification/_CoqProject ===== *)
-Q . S2P
Prelude.v
PyDecimal.v
Money.v
Ledger.v
LedgerDomain.v
Redis.v
DistLock.v
Uow.v
OutboxRelay.v
Fraud.v
LedgerTransfer.v
Reconciliation.v
CircuitBreaker.v
Bulkhead.v
Backoff.v
Fallback.v
HashMap.v
SlidingWindow.v
SearchAlgos.v
Bloom.v
AccessControl.v
Idempotency.v
PriorityQueue.v
Jobs.v
Identifiers.v
Trie.v
UserRepo.v
EventBus.v
Cache.v
UserService.v
UserSchemas.v
RateLimiter.v
Errors.v
Commerce.v
WriteBehind.v
Kafka.v
Dlq.v
Routing.v
Sanitize.v
Leaderboard.v
Auth.v
Guards.v
UserApi.v
Cursor.v
Catalog.v
PyAst.v
Linter.v
SecurityAudit.v
Ssrf.v
Notifications.v
Rounding.v
Resilience.v
Search.v
Amqp.v
QueryPlan.v
Partition.v
Sql.v
SqlUserRepo.v
SqlLedgerRepo.v
SqlStores.v
SqlUow.v
Lifecycle.v
LedgerApi.v
Profiling.v
Redaction.v
Json.v
Dashboard.v
Tasks.v
DatabaseAdmin.v
