(* ===== verification/Prelude.v ===== *)
(** * Verification of the FastAPI clean-architecture backend

    The program under [src/app] is a FastAPI service in layers: routers call
    services, services call repositories through a unit of work, and [core] holds
    value objects, resilience primitives, data structures, guards and transports.
    Its largest parts are a double-entry ledger ([LedgerDomainService],
    [LedgerTransferService] with fraud screening, idempotency keys in Redis,
    distributed locks, unit of work and outbox, [LedgerReconciliationService], two
    outbox relays) and user management ([UserService] over an in-memory repository,
    a Redis cache with probabilistic refresh, a Bloom filter and a search trie, behind
    authentication, permission and rate-limit guards).  Around them are a shop with
    stock and orders, background jobs, event streaming with dead letters, documents
    with attribute-based access, leaderboards, view counters, a catalog with search and
    cursor pagination, partitioned audit logs, and tools that inspect the code and the
    running process.  The repositories exist twice, in memory and over SQLAlchemy.

    ** Conventions

    Python code becomes functions of [result A] (a value or an exception, [exc]) or
    of the state-and-exception monad [M S A], in which writes made before an
    exception stay, as in Python.  [Decimal] is modelled with its 28-digit context
    and half-even rounding (PyDecimal.v); dictionaries are insertion-ordered
    association lists or [gmap]s when order is not observed; UUIDs are integers;
    clocks, random draws, generated identifiers and tokens are arguments; times are
    integers in microseconds (milliseconds in Identifiers.v) and floats that are not
    times are rationals.  Strings are ASCII, but for phone numbers (UserSchemas.v).  Services outside the repository are
    classes with laws ([RedisServer], [CacheRedis], [FraudStore], [SortedSets],
    [RedisTtl], [Jwt], [CursorText], [SqlEngine], [AuditDb], [NetLib], [Cipher]) or
    parameters (the Kafka acknowledgement, SHA digests, serialization, pydantic's email
    syntax), each with a concrete instance used by the witnesses.  Where objects are
    shared and updated in place (users, queues of the broker) the model has a heap of
    them.  Database tables of the SQLAlchemy repositories are lists of rows with the
    constraints their columns declare, lengths included; a query without a total ORDER BY
    may return equal rows in any order, which is an argument ([plan]); a transaction works
    on its own copy.  Redis commands of the locks and of transfers may raise, before or
    after their effect ([fault]).  Concurrent code is a sequence of atomic steps in any
    order.

    ** Files and the code they model

    - Prelude.v: the monad, tactics and hint databases ([py], [pym], [pysum]),
      dictionaries, stable sorting, string operations, half-even rounding.
    - PyDecimal.v: Python [Decimal]: comparison, context rounding, [quantize].
    - Money.v: [core/money.py] and [services/fx_conversion_service.py].
    - Ledger.v: [schemas/ledger.py] and [repositories/ledger_repository.py]: the
      repository protocol as the class [LedgerRepo] with laws, the in-memory
      repository as its instance [InMemoryLedgerRepository].
    - LedgerDomain.v: [services/ledger_domain_service.py] over any [LedgerRepo].
    - Redis.v: the class [RedisServer], a reference server, and commands that fail.
    - DistLock.v: [core/distributed_lock.py] and [core/dsa/distributed_lock.py].
    - Uow.v: [repositories/outbox_repository.py],
      [repositories/reconciliation_repository.py], [schemas/ledger_events.py] and
      the in-memory unit of work of [core/unit_of_work.py] ([with_uow]) over stores
      whose entities are replaced, never changed.
    - OutboxRelay.v: [services/ledger_outbox_relay_service.py] and
      [services/outbox_relay_service.py].
    - Fraud.v: [services/fraud_detection_service.py], Redis and in-memory branches.
    - LedgerTransfer.v: [services/ledger_transfer_service.py] on top of all of these.
    - Reconciliation.v: [services/ledger_reconciliation_service.py].
    - CircuitBreaker.v, Bulkhead.v, Backoff.v, Fallback.v: [core/resilience].
    - HashMap.v, SlidingWindow.v, SearchAlgos.v, Bloom.v, PriorityQueue.v:
      [core/dsa].
    - AccessControl.v: [core/permissions.py], [core/abac.py], the ABAC guard of
      [core/dependencies.py] and the document service, repository and endpoints.
    - Idempotency.v: [core/idempotency.py], [services/payment_service.py] and the
      endpoint of [routers/payment_router.py].
    - Identifiers.v: [core/identifiers.py].
    - Trie.v: [core/dsa/trie.py].
    - UserRepo.v: [repositories/user_repository.py] (in memory) over a heap of user
      objects, with the snapshots of [core/unit_of_work.py].
    - EventBus.v: [core/events.py], [core/event_bus.py], [events/handlers.py].
    - Cache.v: [services/cache_service.py] and [core/dsa/xfetch.py].
    - UserService.v: [services/user_service.py] and [repositories/post_repository.py]
      on top of the four files above and Bloom.v and SearchAlgos.v.
    - UserSchemas.v: the validators of [schemas/user.py].
    - RateLimiter.v: [services/rate_limiter_service.py], concurrent pipelines and script.
    - Errors.v: [core/exceptions.py], [core/exception_handlers.py], [schemas/error.py].
    - Auth.v: tokens of [core/security.py] and [services/auth_service.py].
    - Guards.v: the dependencies of [core/dependencies.py].
    - UserApi.v: the endpoints of [routers/user_router.py] with their guards.
    - Commerce.v: [repositories/product_repository.py], [repositories/order_repository.py],
      [services/inventory_service.py], [services/order_service.py] and their routers.
    - WriteBehind.v: [services/analytics_service.py].
    - Jobs.v: [services/job_service.py] and [routers/job_router.py].
    - Kafka.v: [core/kafka.py], [core/kafka_consumer.py] (the in-memory broker),
      [services/kafka_producer_service.py], [services/kafka_consumer_service.py].
    - Dlq.v: [services/dlq_service.py] and [routers/dlq_router.py].
    - Routing.v: [core/routing_session.py].
    - Sanitize.v: [core/sanitization.py].
    - Leaderboard.v: [services/leaderboard_service.py] and its router.
    - Cursor.v, Catalog.v: [core/pagination/cursor.py],
      [repositories/catalog_repository.py] and the endpoints of
      [routers/catalog_router.py].
    - PyAst.v, Linter.v, SecurityAudit.v: [core/architecture_linter.py] and
      [services/security_audit_service.py] over Python syntax trees.
    - Ssrf.v: [core/ssrf_protection.py], [core/encryption.py], the image endpoint of
      [routers/security_router.py].
    - Notifications.v: [services/notification_service.py].
    - Rounding.v, Resilience.v: Python's [round], and the payment, report, third-party
      and recommendation services over the resilience primitives, with their endpoints.
    - Search.v: [services/search_service.py] and [routers/search_router.py].
    - Amqp.v: [core/rabbitmq.py], [core/rabbitmq_topology.py],
      [services/message_broker_service.py], [routers/broker_router.py].
    - QueryPlan.v: [services/query_plan_service.py].
    - Partition.v: [services/partition_service.py] and [routers/partition_router.py].
    - Sql.v: what the persistent repositories share: scalar queries, windows, column
      widths, keyed tables, row orders, sessions of calls.
    - SqlUserRepo.v, SqlLedgerRepo.v, SqlStores.v: the SQLAlchemy repositories of users
      and posts, the ledger, and products, orders, outbox and reconciliation batches,
      over the tables of [models].
    - SqlUow.v: [SqlAlchemyUnitOfWork] of [core/unit_of_work.py], and the in-memory one
      with its shallow snapshots of shared objects.
    - Lifecycle.v: [core/lifecycle.py], [core/middleware.py], [core/metrics.py] (labels
      and request metrics), the health probes, request sessions and pools, and the
      order of start-up and shutdown in [main.py].
    - LedgerApi.v: the endpoints of [routers/ledger_router.py] over the services above.
    - Profiling.v: [services/profiling_service.py] and [routers/profiling_router.py].
    - Redaction.v: the log scrubbing of [core/logging.py].
    - Json.v, Dashboard.v: JSON documents, [services/dashboard_service.py].
    - Tasks.v: [services/task_service.py], [services/arq_service.py],
      [services/schedule_service.py], [tasks] and the schedule of [core/celery_app.py].
    - DatabaseAdmin.v: [services/database_admin_service.py].

    ** What the theorems show

    - Ledger: as long as amounts stay within the 28 digits of [Decimal] (beyond them see
      [oversized_entry_accepted]), every operation of the domain service and every transfer
      keeps the posting log append-only and the trial balance zero.  Entries either raise
      and change nothing or post exactly the intended legs; so do transfers, together with
      their outbox event, but for a failure of Redis after the commit, which is reported
      although the transfer is posted ([committed_but_reported_failed]).  Balances follow
      the account's normal side; retried transfers replay for 24 hours and are never
      posted twice.  [same_currency_balances] also shows that a
      same-currency transfer between accounts of opposite normal sides lowers the
      destination balance.
    - Money and FX: exactness or exception, one half-even rounding.
    - Locks: mutual exclusion while leases last, whatever commands fail, release on every path, bounded
      waiting, no deadlock for ordered acquisition.
    - Outbox: at-least-once relaying of the oldest events with exact marking; loss of order after a failed
      send, loss after three failures and the interference of the two relays.
    - Reconciliation, fraud rules, idempotent charging (sequential and for every
      interleaving of Redis commands), and what happens after a failed record.
    - Resilience: state invariants of breaker and bulkhead over all interleavings,
      bounds of backoff, outcome of retrying, degradation order of the fallback.
    - Data structures: the hash map refines a dictionary and its probing terminates
      for non-negative hashes (and diverges for a negative one), window limits,
      search equals its specification, no false negatives, priority-queue order.
    - Access control: the decision table of the policies lifted to the endpoints,
      and that the tenant is taken from a request header.
    - Identifiers: layout, timestamp round trips, order and its limit.
    - Users: index and uniqueness invariants of the repository, optimistic locking,
      coherence of repository, cache and Bloom filter over the sequences of service
      calls listed at [user_service_coherent], outcome of each operation on every branch, atomicity with the first post;
      and where the code falls short: rollback of shared objects, stale trie words,
      explicit nulls.
    - Requests: handled one after the other, a refresh token is accepted at most once; guards admit exactly whom
      they say, guarded endpoints change nothing for others (with the endpoints that
      have no guard as examples), window limits under every interleaving up to the
      clock tolerance of the clients, bucket limits, validated payloads, one envelope for every error.
    - Shop, views, jobs: stock and views are conserved, orders and events are stored
      together, a worker pass runs due jobs in order.
    - Messaging: at-least-once consumption over all interleavings, draining, order per
      key, isolation of poison messages, redrive.
    - Routing, file names, leaderboards: no write on the replica and reads of one's own
      writes, safe names, consistent ranks.
    - Catalog and search: cursors round-trip, keyset pages neither repeat nor lose rows
      of a changing table, full text exactly when a product has every stem.
    - Code inspection: the cycle search reports a cycle exactly when there is one, the
      rules flag exactly what they describe.  Outbound URLs are accepted exactly when
      every resolved address is outside the forbidden ranges, credentials or not.
    - Composed resilience: after five failures the gateway is left alone for the recovery
      time; then one failure cuts it off again and two successes close the breaker.
    - AMQP: the broker service answers like one list of messages per queue under the
      AMQP routing rules; pruned partitions are those a query cannot meet; the report of
      a query plan covers every node.
    - Persistence: each SQLAlchemy repository answers every session of calls like its
      in-memory counterpart as long as callers meet the obligations stated with it
      (uniqueness, column widths, known keys), up to the order the queries leave open, with
      an example for each way in which they differ; keys and foreign keys stay consistent
      whatever callers do; a unit-of-work block publishes exactly the work before its
      last commit and closes its session unless closing fails; the in-memory unit of work
      ends alike on blocks that commit and change no stored object in place.
    - Ledger interface: no sequence of HTTP requests with amounts below 10^24 unbalances
      the books ([oversized_entry_unbalances]), and a request that raises, other than by
      Redis, leaves every store as it was.
    - Process: the counters of requests under way are exact for every interleaving but for
      requests lost before their [try] ([lost_request_blocks_drain]), the drain is bounded, paths that differ in identifiers share one metric label; the
      load generator ends after a known number of steps with every request counted, and
      its percentiles are in order.
    - Operations: log output hides the values of sensitive keys and nothing else, the
      dashboard
      validator accepts exactly what its rules describe, statements that fail are rolled
      back once, one pool of the task queue is open at a time, the reaper reports what it
      terminated.

    ** Fuel and bounds

    [acquire_fuel] allows one round per 25 ms of timeout and two more, which suffices
    since every sleep lasts at least 25 ms ([acquire_terminates]).  Hash map probing
    takes fuel and returns [None] without it; [hashmap_refines_dict] gives results
    for all sufficient fuel and states how much is sufficient.  Binary search, the
    two-pointer scan, heap sifting and retry loops have fuel equal to the length,
    the position or the number of attempts; the cycle search one more than the modules.
    The rounds of [wait_for_drain] are bounded by [rounds_left], since every sleep but
    the last lasts a full interval ([drain_is_bounded]); the walk over a query plan has
    fuel equal to the nodes of the tree; a benchmark takes three steps a request and one
    a worker ([benchmark_completes]).  Everything else is structural.

    ** Not modelled

    Migrations, connections to live Kafka and RabbitMQ brokers, the inside of the Celery
    and ARQ queues, HTTP framework wiring, the set-up of log handlers, tracing,
    settings, rendering of metrics, floating-point rounding of
    times and scores, password hashing, the JWT library and the field cipher.  The
    database of the persistent repositories keeps exact decimals as PostgreSQL does;
    isolation between concurrent transactions is outside their model. *)

From Stdlib Require Export Ascii.
From stdpp Require Export base tactics numbers list gmap strings sorting.

#[global] Set Default Goal Selector "!".

Declare Scope py_scope.
Delimit Scope py_scope with py.

(** ** Exceptions

    One constructor per exception class that a modelled operation can raise.
    The first group are the domain exceptions of [app/core/exceptions.py], the
    second group are the exceptions of Python itself and of pydantic; an
    exception raised by a caller's own callback is [CallerException]. *)

Inductive exc : Type :=
  (* domain *)
  | EntityNotFoundException
  | EntityConflictException
  | ServiceUnavailableException
  | CircuitBreakerOpenException
  | BulkheadFullException
  | ValidationException
  | UnbalancedJournalEntryException
  | LedgerAccountNotFoundException
  | InactiveLedgerAccountException
  | DuplicateReferenceException
  | InsufficientFundsException
  | SelfTransferNotAllowedException
  | CurrencyMismatchException
  | InvalidFXRateException
  | LockAcquisitionTimeoutException
  | DistributedLockConflictException
  | ConcurrentTransferInProgressException
  | FraudDetectedException
  | DocumentNotFoundException
  | UserNotFoundException
  | UserAlreadyExistsException
  | OptimisticLockException
  | PlayerNotFoundException
  | ProductNotFoundException
  | OrderNotFoundException
  | InsufficientStockException
  | AuthenticationException
  | AuthorizationException
  | BusinessRuleViolationException
  | SecurityViolationException
  | SSRFSecurityException
  | PathTraversalException
  | EncryptionTamperingException
  | ReadOnlyReplicaMutationException
  | UnsafeQueryExecutionException
  | InvalidCursorException
  | DatabaseQueryTimeoutException
  | ConnectionPoolExhaustedException
  | BaseDomainException
  | HTTPException (status_code : Z)
  (* Python and pydantic *)
  | PyTypeError
  | PyAttributeError
  | PyValueError
  | PyKeyError
  | PyIndexError
  | PyTimeoutError
  | PyRuntimeError
  | PyZeroDivisionError
  | PyInvalidOperation
  | PyOverflowError
  | PySyntaxError
  | IntegrityError
  | SQLAlchemyError
  | PydanticValidationError
  | RedisError
  | CallerException (tag : nat).

#[global] Instance exc_eq_dec : EqDecision exc.
Proof. solve_decision. Defined.

(** ** Results and the state-and-exception monad

    [result A] is the outcome of a Python call.  [M S A] is a call that reads
    and writes a mutable store [S]: as in Python, the writes performed before
    an exception is raised stay in the store. *)

Inductive result (A : Type) : Type :=
  | Ok (a : A)
  | Raise (e : exc).
Arguments Ok {A} a.
Arguments Raise {A} e.

#[global] Instance result_eq_dec `{EqDecision A} : EqDecision (result A).
Proof. solve_decision. Defined.

Definition is_ok {A} (r : result A) : bool :=
  match r with Ok _ => true | Raise _ => false end.

Definition rbind {A B} (m : result A) (k : A → result B) : result B :=
  match m with Ok a => k a | Raise e => Raise e end.

Definition M (S A : Type) : Type := S → result A * S.

Definition ret {S A} (a : A) : M S A := λ s, (Ok a, s).
Definition raise {S A} (e : exc) : M S A := λ s, (Raise e, s).
Definition bind {S A B} (m : M S A) (k : A → M S B) : M S B :=
  λ s, match m s with
       | (Ok a, s') => k a s'
       | (Raise e, s') => (Raise e, s')
       end.
Definition gets {S A} (f : S → A) : M S A := λ s, (Ok (f s), s).
Definition modify {S} (f : S → S) : M S () := λ s, (Ok (), f s).
Definition lift_result {S A} (r : result A) : M S A := λ s, (r, s).

(** [try: m except Exception as e: h e] *)
Definition try_except {S A} (m : M S A) (h : exc → M S A) : M S A :=
  λ s, match m s with
       | (Ok a, s') => (Ok a, s')
       | (Raise e, s') => h e s'
       end.

(** A call on one part of a pair of states. *)
Definition lift_l {S T A} (m : M S A) : M (S * T) A :=
  λ s, let '(r, s1) := m s.1 in (r, (s1, s.2)).
Definition lift_r {S T A} (m : M T A) : M (S * T) A :=
  λ s, let '(r, t1) := m s.2 in (r, (s.1, t1)).

(** [try: m finally: f], for a clean-up that does not raise. *)
Definition finally {S A B} (m : M S A) (f : M S B) : M S A :=
  λ s, let '(r, s1) := m s in
       match f s1 with
       | (Ok _, s2) => (r, s2)
       | (Raise e, s2) => (Raise e, s2)
       end.

(** [if c: raise e] *)
Definition raise_if {S} (c : bool) (e : exc) : M S () :=
  if c then raise e else ret ().

Notation "'let!' x ':=' m 'in' k" := (bind m (λ x, k))
  (at level 10, x name, m at level 200, k at level 200) : py_scope.
Notation "'let!' ' p ':=' m 'in' k" := (bind m (λ x, match x with p => k end))
  (at level 10, p pattern, m at level 200, k at level 200) : py_scope.
Notation "m ';;;' k" := (bind m (λ _, k))
  (at level 199, right associativity) : py_scope.
Notation "'let?' x ':=' m 'in' k" := (rbind m (λ x, k))
  (at level 10, x name, m at level 200, k at level 200) : py_scope.
Notation "'let?' ' p ':=' m 'in' k" := (rbind m (λ x, match x with p => k end))
  (at level 10, p pattern, m at level 200, k at level 200) : py_scope.

(** [py_step] runs one bind of a hypothesis about a monadic computation. *)
Lemma bind_ok {S A B} (m : M S A) (k : A → M S B) s b s' :
  bind m k s = (Ok b, s') → ∃ a s1, m s = (Ok a, s1) ∧ k a s1 = (Ok b, s').
Proof. unfold bind. destruct (m s) as [[a|e] s1]; naive_solver. Qed.

Lemma bind_raise {S A B} (m : M S A) (k : A → M S B) s e s' :
  bind m k s = (Raise e, s') →
  m s = (Raise e, s') ∨ ∃ a s1, m s = (Ok a, s1) ∧ k a s1 = (Raise e, s').
Proof. unfold bind. destruct (m s) as [[a|e'] s1]; naive_solver. Qed.

Lemma bind_ret_eq {S A B} (m : M S A) (k : A → M S B) s a s1 :
  m s = (Ok a, s1) → bind m k s = k a s1.
Proof. unfold bind. by intros ->. Qed.

Lemma bind_raise_eq {S A B} (m : M S A) (k : A → M S B) s e s1 :
  m s = (Raise e, s1) → bind m k s = (Raise e, s1).
Proof. unfold bind. by intros ->. Qed.

Lemma rbind_ok {A B} (m : result A) (k : A → result B) b :
  rbind m k = Ok b ↔ ∃ a, m = Ok a ∧ k a = Ok b.
Proof. destruct m; naive_solver. Qed.

Lemma raise_if_ok {S} (c : bool) e (s : S) a s' :
  raise_if c e s = (Ok a, s') ↔ c = false ∧ s' = s.
Proof. unfold raise_if, raise, ret. destruct a, c; naive_solver. Qed.

(** Equations for running a computation one bind at a time ([autorewrite with pym]). *)
Lemma bind_ret_run {S A B} (a : A) (k : A → M S B) s : bind (ret a) k s = k a s.
Proof. done. Qed.
Lemma bind_gets_run {S A B} (f : S → A) (k : A → M S B) s : bind (gets f) k s = k (f s) s.
Proof. done. Qed.
Lemma bind_modify_run {S B} (f : S → S) (k : () → M S B) s : bind (modify f) k s = k () (f s).
Proof. done. Qed.
Lemma bind_raise_if_run {S B} c e (k : () → M S B) s :
  bind (raise_if c e) k s = if c then (Raise e, s) else k () s.
Proof. by destruct c. Qed.
Lemma bind_lift_run {S A B} (r : result A) (k : A → M S B) s :
  bind (lift_result r) k s = match r with Ok a => k a s | Raise e => (Raise e, s) end.
Proof. by destruct r. Qed.
Lemma bind_bind_run {S A B C} (m : M S A) (k : A → M S B) (k' : B → M S C) s :
  bind (bind m k) k' s = bind m (λ a, bind (k a) k') s.
Proof. unfold bind. by destruct (m s) as [[a|e] s']. Qed.

Create Rewrite HintDb pym.
#[export] Hint Rewrite @bind_ret_run @bind_gets_run @bind_modify_run @bind_raise_if_run
  @bind_lift_run @bind_bind_run : pym.

(** A computation that only reads leaves the store as it was. *)
Definition reads_only {S A} (m : M S A) : Prop := ∀ s, (m s).2 = s.

Lemma reads_only_bind {S A B} (m : M S A) (k : A → M S B) :
  reads_only m → (∀ a, reads_only (k a)) → reads_only (bind m k).
Proof.
  intros Hm Hk s. unfold bind. specialize (Hm s).
  destruct (m s) as [[a|e] s1]; simpl in *; subst; [apply Hk|done].
Qed.

Lemma reads_only_ret {S A} (a : A) : reads_only (S:=S) (ret a).
Proof. done. Qed.
Lemma reads_only_raise {S A} e : reads_only (S:=S) (A:=A) (raise e).
Proof. done. Qed.
Lemma reads_only_gets {S A} (f : S → A) : reads_only (gets f).
Proof. done. Qed.
Lemma reads_only_lift {S A} (r : result A) : reads_only (S:=S) (lift_result r).
Proof. done. Qed.
Lemma reads_only_raise_if {S} c e : reads_only (S:=S) (raise_if c e).
Proof. by destruct c. Qed.

Create HintDb py discriminated.
#[export] Hint Resolve reads_only_bind reads_only_ret reads_only_raise
  reads_only_gets reads_only_lift reads_only_raise_if : py.

(** Case analysis on the next [match]/[if] scrutinee of a hypothesis. *)
Ltac case_hyp H :=
  match type of H with
  | context [match ?x with _ => _ end] => destruct x eqn:?; simplify_eq/=
  end.

(** Invert a successful monadic run, one bind at a time. *)
Ltac inv_ok H :=
  repeat match type of H with
  | bind _ _ _ = (Ok _, _) =>
      let a := fresh "v" in let s1 := fresh "s" in
      let H1 := fresh "Hrun" in
      apply bind_ok in H as (a & s1 & H1 & H)
  end.

Lemma bool_decide_false_iff (P : Prop) `{Decision P} : bool_decide P = false ↔ ¬ P.
Proof. apply bool_decide_eq_false. Qed.

(** ** Integers *)

(** [rhe n d]: [n / d] rounded to the nearest integer, ties to even
    (Python's ROUND_HALF_EVEN), for a positive divisor. *)
Definition rhe (n d : Z) : Z :=
  let q := (n / d)%Z in
  let r := (n mod d)%Z in
  if (2 * r <? d)%Z then q
  else if (d <? 2 * r)%Z then (q + 1)%Z
  else if Z.even q then q else (q + 1)%Z.

Lemma rhe_error n d : (0 < d)%Z → (2 * Z.abs (rhe n d * d - n) ≤ d)%Z.
Proof.
  intros Hd. unfold rhe.
  pose proof (Z.div_mod n d ltac:(lia)) as Hn.
  pose proof (Z.mod_pos_bound n d Hd).
  destruct (2 * (n mod d) <? d)%Z eqn:?; [nia|].
  destruct (d <? 2 * (n mod d))%Z eqn:?; [nia|].
  destruct (Z.even (n / d)); nia.
Qed.

Lemma rhe_tie_even n d : (0 < d)%Z → (2 * Z.abs (rhe n d * d - n) = d)%Z → Z.even (rhe n d) = true.
Proof.
  intros Hd. unfold rhe.
  pose proof (Z.div_mod n d ltac:(lia)) as Hn.
  pose proof (Z.mod_pos_bound n d Hd).
  destruct (2 * (n mod d) <? d)%Z eqn:?; [nia|].
  destruct (d <? 2 * (n mod d))%Z eqn:?; [nia|].
  destruct (Z.even (n / d)) eqn:Hev; [done|].
  intros _. rewrite Z.add_1_r, Z.even_succ, <-Z.negb_even. by rewrite Hev.
Qed.

Lemma rhe_exact k d : (0 < d)%Z → rhe (k * d) d = k.
Proof.
  intros Hd. unfold rhe. rewrite Z.div_mul, Z_mod_mult by lia.
  by replace (2 * 0 <? d)%Z with true by (symmetry; apply Z.ltb_lt; lia).
Qed.

Lemma rhe_1 n : rhe n 1 = n.
Proof. rewrite <-(Z.mul_1_r n) at 1. by apply rhe_exact. Qed.

Lemma rhe_mono n m d : (0 < d)%Z → (n ≤ m)%Z → (rhe n d ≤ rhe m d)%Z.
Proof.
  intros Hd Hnm.
  destruct (decide (rhe n d ≤ rhe m d)%Z) as [|Hlt]; [done|exfalso].
  pose proof (rhe_error n d Hd). pose proof (rhe_error m d Hd).
  (* both are within half a unit, so the only conflict is a shared tie *)
  assert (rhe n d = rhe m d + 1)%Z by nia.
  assert (n = m)%Z by nia. subst. lia.
Qed.

Lemma rhe_opp n d : (0 < d)%Z → rhe (- n) d = (- rhe n d)%Z.
Proof.
  intros Hd. unfold rhe.
  pose proof (Z.div_mod n d ltac:(lia)) as Hn.
  pose proof (Z.mod_pos_bound n d Hd) as Hr.
  set (q := (n / d)%Z) in *. set (r := (n mod d)%Z) in *.
  destruct (decide (r = 0)%Z) as [Hr0|Hr0].
  - assert (- n = (- q) * d)%Z as E by lia.
    rewrite E, Z.div_mul, Z_mod_mult, Hr0 by lia.
    by replace (2 * 0 <? d)%Z with true by (symmetry; apply Z.ltb_lt; lia).
  - assert ((- n) / d = - q - 1)%Z as Eq.
    { symmetry; apply Z.div_unique with (d - r)%Z; lia. }
    assert ((- n) mod d = d - r)%Z as Er.
    { symmetry; apply Z.mod_unique with (- q - 1)%Z; lia. }
    rewrite Eq, Er.
    destruct (2 * (d - r) <? d)%Z eqn:?, (2 * r <? d)%Z eqn:?,
             (d <? 2 * (d - r))%Z eqn:?, (d <? 2 * r)%Z eqn:?; try lia.
    rewrite Z.sub_1_r, Z.even_pred, Z.odd_opp, <-Z.negb_even.
    destruct (Z.even q); simpl; lia.
Qed.

(** Packing bit fields. *)
Section BitFields.
Local Open Scope Z_scope.
Lemma lor_shiftl a b n : 0 <= n -> 0 <= b < 2 ^ n -> Z.lor (Z.shiftl a n) b = a * 2 ^ n + b.
Proof.
  intros Hn Hb. rewrite <-Z.shiftl_mul_pow2 by done. rewrite <-Z.add_lor_land.
  replace (Z.land (Z.shiftl a n) b) with 0; [lia|]. symmetry. apply Z.bits_inj'. intros m Hm.
  rewrite Z.land_spec, Z.bits_0. destruct (Z.lt_ge_cases m n) as [H|H].
  - by rewrite Z.shiftl_spec_low.
  - destruct (decide (b = 0)) as [->|]; [by rewrite Z.bits_0, andb_false_r|].
    rewrite (Z.bits_above_log2 b m), andb_false_r; [done|lia|].
    apply Z.lt_le_trans with n; [apply Z.log2_lt_pow2; lia|done].
Qed.
Lemma land_ones_mod a n : 0 <= n -> Z.land a (2 ^ n - 1) = a mod 2 ^ n.
Proof. intros Hn. rewrite <-Z.land_ones by done. by rewrite Z.ones_equiv, Z.sub_1_r. Qed.
End BitFields.

(** ** Lists *)

Definition Zsum (l : list Z) : Z := foldr Z.add 0%Z l.

Lemma Zsum_app l1 l2 : Zsum (l1 ++ l2) = (Zsum l1 + Zsum l2)%Z.
Proof. induction l1; simpl; [done|]. unfold Zsum in *; simpl. lia. Qed.

Lemma Zsum_Permutation l1 l2 : l1 ≡ₚ l2 → Zsum l1 = Zsum l2.
Proof. unfold Zsum. induction 1; simpl in *; lia. Qed.

Create Rewrite HintDb pysum.
#[export] Hint Rewrite Zsum_app : pysum.

Lemma filter_all {A} (P : A → Prop) `{∀ x, Decision (P x)} (l : list A) :
  Forall P l → filter P l = l.
Proof. induction 1; [done|]. rewrite filter_cons_True; congruence. Qed.

Lemma filter_none {A} (P : A → Prop) `{∀ x, Decision (P x)} (l : list A) :
  Forall (λ x, ¬ P x) l → filter P l = [].
Proof. induction 1; [done|]. by rewrite filter_cons_False. Qed.

Lemma StronglySorted_take {A} (R : A → A → Prop) n l : StronglySorted R l → StronglySorted R (take n l).
Proof. intros H. revert n. induction H; intros [|n]; simpl; constructor; [auto|by apply Forall_take]. Qed.

Lemma StronglySorted_impl {A} (R R' : A → A → Prop) l :
  (∀ x y, R x y → R' x y) → StronglySorted R l → StronglySorted R' l.
Proof. intros Hi. induction 1; constructor; [done|]. eapply Forall_impl; [done|]. eauto. Qed.

Lemma list_elem_of_concat {A} (x : A) (L : list (list A)) : x ∈ concat L ↔ ∃ l, l ∈ L ∧ x ∈ l.
Proof. rewrite list_elem_of_In, in_concat. by setoid_rewrite list_elem_of_In. Qed.

(** Two different positions of a list, and two elements of a permutation of it. *)
Lemma pair_at {A} (l : list A) i j x y : (i < j)%nat → l !! i = Some x → l !! j = Some y →
  ∃ rest, l ≡ₚ x :: y :: rest.
Proof.
  intros Hij Hx Hy. pose proof (take_drop_middle l i x Hx) as E.
  assert (drop (S i) l !! (j - S i)%nat = Some y) as Hy'.
  { rewrite lookup_drop. replace (S i + (j - S i))%nat with j by lia. done. }
  pose proof (take_drop_middle _ _ _ Hy') as E'.
  exists (take i l ++ take (j - S i) (drop (S i) l) ++ drop (S (j - S i)) (drop (S i) l)).
  rewrite <-E at 1. rewrite <-E' at 1. solve_Permutation.
Qed.

Lemma pair_positions {A} (l : list A) x y rest : l ≡ₚ x :: y :: rest →
  ∃ i j, (i < j)%nat ∧ ((l !! i = Some x ∧ l !! j = Some y) ∨ (l !! i = Some y ∧ l !! j = Some x)).
Proof.
  intros Hp. assert (x ∈ l) as Hx by (rewrite Hp; left).
  apply list_elem_of_split in Hx as (l1 & l2 & ->).
  assert (l1 ++ l2 ≡ₚ y :: rest) as Hp'. { apply (Permutation_cons_inv (a := x)). by rewrite Permutation_middle. }
  assert (y ∈ l1 ++ l2) as [Hy|Hy]%elem_of_app by (rewrite Hp'; left).
  - apply list_elem_of_lookup in Hy as (i & Hi). exists i, (length l1). split; [by eapply lookup_lt_Some|].
    right. split; [by apply lookup_app_l_Some|]. rewrite lookup_app_r by lia. by rewrite Nat.sub_diag.
  - apply list_elem_of_lookup in Hy as (i & Hi). exists (length l1), (length l1 + S i)%nat. split; [lia|].
    left. split; [rewrite lookup_app_r by lia; by rewrite Nat.sub_diag|]. rewrite lookup_app_r by lia.
    replace (length l1 + S i - length l1)%nat with (S i) by lia. done.
Qed.

Lemma Forall_filter {A} (P Q : A → Prop) `{∀ x, Decision (Q x)} (l : list A) :
  Forall P l → Forall P (filter Q l).
Proof. rewrite !Forall_forall. intros Hl x [_ Hx]%list_elem_of_filter. auto. Qed.

(** ** Python strings (ASCII)

    [str.strip], [str.upper] and [str.lower] on ASCII text.  The whitespace
    set is the ASCII part of [str.isspace]. *)

Definition is_space (c : ascii) : bool :=
  let n := nat_of_ascii c in
  ((9 <=? n) && (n <=? 13) || (28 <=? n) && (n <=? 32))%nat.

Definition is_upper (c : ascii) : bool :=
  let n := nat_of_ascii c in ((65 <=? n) && (n <=? 90))%nat.
Definition is_lower (c : ascii) : bool :=
  let n := nat_of_ascii c in ((97 <=? n) && (n <=? 122))%nat.

Definition upper_ascii (c : ascii) : ascii :=
  if is_lower c then ascii_of_nat (nat_of_ascii c - 32) else c.
Definition lower_ascii (c : ascii) : ascii :=
  if is_upper c then ascii_of_nat (nat_of_ascii c + 32) else c.

Definition chars : string → list ascii := String.list_ascii_of_string.
Definition of_chars : list ascii → string := String.string_of_list_ascii.

Definition py_upper (s : string) : string := of_chars (upper_ascii <$> chars s).
Definition py_lower (s : string) : string := of_chars (lower_ascii <$> chars s).

Fixpoint lstrip_chars (l : list ascii) : list ascii :=
  match l with
  | [] => []
  | c :: l' => if is_space c then lstrip_chars l' else l
  end.
Definition strip_chars (l : list ascii) : list ascii :=
  rev (lstrip_chars (rev (lstrip_chars l))).
Definition py_strip (s : string) : string := of_chars (strip_chars (chars s)).

(** [str.startswith] and substring membership. *)
Fixpoint starts_with (p s : list ascii) : bool :=
  match p, s with
  | [], _ => true
  | a :: p', b :: s' => bool_decide (a = b) && starts_with p' s'
  | _, _ => false
  end.
Definition py_startswith (s p : string) : bool := starts_with (chars p) (chars s).

Fixpoint has_substring (p s : list ascii) : bool :=
  starts_with p s || match s with [] => false | _ :: s' => has_substring p s' end.
Definition py_in (p s : string) : bool := has_substring (chars p) (chars s).

Lemma string_length_app s1 s2 : (String.length (s1 +:+ s2) = String.length s1 + String.length s2)%nat.
Proof. induction s1 as [|c s1 IH]; [done|]. simpl. by rewrite IH. Qed.

Example py_strip_ex : py_strip "  usd " = "usd".
Proof. reflexivity. Qed.
Example py_upper_ex : py_upper "uSd-1" = "USD-1".
Proof. reflexivity. Qed.
Example py_in_ex : py_in "PROC" "a PROCESS" = true.
Proof. reflexivity. Qed.

(** [s.split(c)] for one character. *)
Fixpoint split_on (c : ascii) (l : list ascii) : list (list ascii) :=
  match l with
  | [] => [[]]
  | d :: l' => if decide (d = c) then [] :: split_on c l'
               else match split_on c l' with w :: ws => (d :: w) :: ws | [] => [[d]] end
  end.
Definition py_split (c : ascii) (s : string) : list string := of_chars <$> split_on c (chars s).

(** [\w] of ASCII text and [re.findall(r"\w+", s)]. *)
Definition is_word_char (c : ascii) : bool :=
  let n := nat_of_ascii c in
  (is_upper c || is_lower c || ((48 <=? n) && (n <=? 57))%nat || bool_decide (c = "_"%char)).
Fixpoint find_words (l : list ascii) : list (list ascii) :=
  match l with
  | [] => []
  | c :: l' =>
      let words := find_words l' in
      if is_word_char c then
        match l', words with
        | d :: _, w :: ws => if is_word_char d then (c :: w) :: ws else [c] :: words
        | _, _ => [c] :: words
        end
      else words
  end.

Lemma chars_of_chars l : chars (of_chars l) = l.
Proof. apply String.list_ascii_of_string_of_list_ascii. Qed.
Lemma of_chars_chars s : of_chars (chars s) = s.
Proof. apply String.string_of_list_ascii_of_string. Qed.
Lemma chars_app a b : chars (a +:+ b) = chars a ++ chars b.
Proof. induction a as [|c a IH]; [done|exact (f_equal (cons c) IH)]. Qed.
Lemma length_chars s : String.length s = length (chars s).
Proof. induction s as [|c s IH]; cbn; [done|]. by rewrite IH. Qed.
Lemma length_of_chars l : String.length (of_chars l) = length l.
Proof. by rewrite length_chars, chars_of_chars. Qed.

Lemma find_words_start c l : is_word_char c = true → find_words (c :: l) ≠ [].
Proof. intros Hc. cbn. rewrite Hc. destruct l as [|d l]; [done|]. by destruct (find_words (d :: l)), (is_word_char d). Qed.
Lemma find_words_cons2 x y l : find_words (x :: y :: l) =
  if is_word_char x then match find_words (y :: l) with
                         | w :: ws => if is_word_char y then (x :: w) :: ws else [x] :: find_words (y :: l)
                         | [] => [x] :: find_words (y :: l)
                         end
  else find_words (y :: l).
Proof. done. Qed.
Lemma find_words_sep a c b : is_word_char c = false → find_words (a ++ c :: b) = find_words a ++ find_words b.
Proof.
  intros Hc. induction a as [|x a IH]; [cbn; by rewrite Hc|].
  destruct a as [|y a]; [cbn; rewrite Hc; by destruct (is_word_char x), (find_words b)|].
  cbn [app] in *. rewrite !find_words_cons2, IH. destruct (is_word_char x); [|done]. destruct (is_word_char y) eqn:Ey.
  - pose proof (find_words_start y a Ey). by destruct (find_words (y :: a)).
  - by destruct (find_words (y :: a)), (find_words b).
Qed.
Lemma find_words_word w : w ≠ [] → forallb is_word_char w = true → find_words w = [w].
Proof.
  induction w as [|c w IH]; [done|]. intros _. cbn [forallb]. rewrite andb_true_iff. intros [Hc Hw].
  destruct w as [|d w]; [cbn; by rewrite Hc|]. rewrite find_words_cons2, (IH ltac:(done) Hw), Hc.
  cbn [forallb] in Hw. by apply andb_true_iff in Hw as [-> _].
Qed.
(** A word between two boundaries is found. *)
Lemma find_words_middle a w b : w ≠ [] → forallb is_word_char w = true →
  (∀ c, last a = Some c → is_word_char c = false) → (∀ c, head b = Some c → is_word_char c = false) →
  w ∈ find_words (a ++ w ++ b).
Proof.
  intros Hne Hw Ha Hb. assert (w ∈ find_words (w ++ b)) as Hin.
  { destruct b as [|c b]; [rewrite app_nil_r, find_words_word by done; left|].
    rewrite find_words_sep, find_words_word by auto. left. }
  destruct a as [|c a _] using rev_ind; [done|]. rewrite <-app_assoc. cbn [app]. rewrite find_words_sep by (apply Ha, last_snoc).
  apply elem_of_app. by right.
Qed.

(** SQL [LIKE], ignoring the case of letters: [%] is any run of characters and [_] any
    one character. *)
Fixpoint like (p s : list ascii) : bool :=
  match p with
  | [] => bool_decide (s = [])
  | c :: p' =>
      if decide (c = "%"%char) then
        (fix any (s : list ascii) := like p' s || match s with [] => false | _ :: s' => any s' end) s
      else match s with
           | [] => false
           | d :: s' => (bool_decide (c = "_"%char) || bool_decide (lower_ascii c = lower_ascii d)) && like p' s'
           end
  end.

Lemma like_any s : like ["%"%char] s = true.
Proof. induction s; [done|]. cbn in *. by rewrite orb_comm. Qed.
Lemma like_prefix p s : "%"%char ∉ p -> "_"%char ∉ p ->
  like (p ++ ["%"%char]) s = starts_with (lower_ascii <$> p) (lower_ascii <$> s).
Proof.
  revert s. induction p as [|c p IH]; intros s Hp Hu; [apply like_any|]. apply not_elem_of_cons in Hp as [? Hp].
  apply not_elem_of_cons in Hu as [? Hu]. cbn [app like]. rewrite decide_False by done.
  destruct s as [|d s]; [done|]. cbn [fmap list_fmap starts_with]. rewrite (bool_decide_eq_false_2 (c = _)) by done. cbn. by rewrite IH.
Qed.
(** The LIKE pattern of a tag without wildcards is substring search ignoring case. *)
Lemma like_contains p s : "%"%char ∉ p -> "_"%char ∉ p ->
  like ("%"%char :: p ++ ["%"%char]) s = has_substring (lower_ascii <$> p) (lower_ascii <$> s).
Proof.
  intros Hp Hu. cbn [like]. rewrite decide_True by done. induction s as [|d s IH]; cbn [fmap list_fmap has_substring].
  - by rewrite like_prefix.
  - rewrite like_prefix by done. f_equal. exact IH.
Qed.

Lemma lstrip_fixed l : head l = None ∨ (∃ c, head l = Some c ∧ is_space c = false) →
  lstrip_chars l = l.
Proof. destruct l as [|c l]; simpl; [done|]. intros [|(?&[= <-]&->)]; done. Qed.

Lemma lstrip_suffix l : exists p, l = p ++ lstrip_chars l.
Proof.
  induction l as [|c l [p Hp]]; [by exists []|]. cbn. destruct (is_space c); [|by exists []]. exists (c :: p). cbn. by rewrite <-Hp.
Qed.
Lemma lstrip_idemp l : lstrip_chars (lstrip_chars l) = lstrip_chars l.
Proof. induction l as [|c l IH]; [done|]. cbn. destruct (is_space c) eqn:E; [done|]. cbn. by rewrite E. Qed.
Lemma lstrip_prefix a b : lstrip_chars (a ++ b) = a ++ b -> a <> [] -> lstrip_chars a = a.
Proof.
  destruct a as [|c a]; [done|]. cbn. destruct (is_space c) eqn:E; [|done]. intros H _.
  destruct (lstrip_suffix (a ++ b)) as [p Hp]. rewrite H in Hp.
  apply (f_equal length) in Hp. cbn in Hp. rewrite !length_app in Hp. cbn in Hp. rewrite length_app in Hp. lia.
Qed.
Lemma strip_chars_idemp l : strip_chars (strip_chars l) = strip_chars l.
Proof.
  unfold strip_chars at 1. set (a := lstrip_chars l). assert (lstrip_chars a = a) as Ha by apply lstrip_idemp.
  assert (strip_chars l = rev (lstrip_chars (rev a))) as Es by done. rewrite Es.
  assert (lstrip_chars (rev (lstrip_chars (rev a))) = rev (lstrip_chars (rev a))) as H1.
  { destruct (lstrip_chars (rev a)) as [|c b] eqn:E; [done|]. rewrite <-E.
    destruct (lstrip_suffix (rev a)) as [p Hp]. apply (lstrip_prefix _ (rev p)).
    - rewrite <-rev_app_distr, <-Hp, rev_involutive. done.
    - rewrite E. intros Hn. apply (f_equal length) in Hn. rewrite length_rev in Hn. done. }
  rewrite H1, rev_involutive, lstrip_idemp. done.
Qed.
Lemma strip_fixed s : Forall (fun c => is_space c = false) (chars s) -> py_strip s = s.
Proof.
  assert (forall k, Forall (fun c => is_space c = false) k -> lstrip_chars k = k) as Hl by (intros k Hk; destruct Hk as [|c k Hc _]; cbn; [done|by rewrite Hc]).
  intros H. unfold py_strip, strip_chars. rewrite (Hl _ H), Hl by by apply Forall_rev. rewrite rev_involutive. apply of_chars_chars.
Qed.
Lemma py_strip_idemp s : py_strip (py_strip s) = py_strip s.
Proof. unfold py_strip. by rewrite chars_of_chars, strip_chars_idemp. Qed.

Lemma strip_sub l c : c ∈ strip_chars l -> c ∈ l.
Proof.
  unfold strip_chars. destruct (lstrip_suffix l) as [a Ha], (lstrip_suffix (rev (lstrip_chars l))) as [b Hb].
  rewrite list_elem_of_In, <-in_rev, <-list_elem_of_In. intros Hc. rewrite Ha. apply elem_of_app. right.
  rewrite list_elem_of_In, in_rev, <-list_elem_of_In, Hb. by apply elem_of_app; right.
Qed.

(** ** Python dictionaries

    An insertion-ordered dictionary as an association list: assigning an
    existing key keeps its position, a new key goes to the end. *)

Section Dict.
Context {K V : Type} `{EqDecision K}.

Fixpoint dict_get (d : list (K * V)) (k : K) : option V :=
  match d with
  | [] => None
  | (k', v) :: d' => if decide (k' = k) then Some v else dict_get d' k
  end.

Fixpoint dict_set (d : list (K * V)) (k : K) (v : V) : list (K * V) :=
  match d with
  | [] => [(k, v)]
  | (k', v') :: d' => if decide (k' = k) then (k', v) :: d' else (k', v') :: dict_set d' k v
  end.

Fixpoint dict_del (d : list (K * V)) (k : K) : list (K * V) :=
  match d with
  | [] => []
  | (k', v') :: d' => if decide (k' = k) then d' else (k', v') :: dict_del d' k
  end.

Lemma dict_get_set_eq d k v : dict_get (dict_set d k v) k = Some v.
Proof. induction d as [|[k' v'] d IH]; simpl; repeat (case_decide; simpl); congruence. Qed.

Lemma dict_get_set_ne d k k' v : k ≠ k' → dict_get (dict_set d k v) k' = dict_get d k'.
Proof. intros. induction d as [|[k'' v''] d IH]; simpl; repeat (case_decide; simpl); congruence. Qed.

Lemma dict_get_set d k k' v :
  dict_get (dict_set d k v) k' = if decide (k = k') then Some v else dict_get d k'.
Proof. case_decide; subst; [apply dict_get_set_eq|by apply dict_get_set_ne]. Qed.

Lemma dict_get_None d k : dict_get d k = None ↔ k ∉ d.*1.
Proof.
  induction d as [|[k' v'] d IH]; simpl; [set_solver|].
  case_decide; subst; [set_solver|]. rewrite IH. set_solver.
Qed.

Lemma dict_get_elem d k v : dict_get d k = Some v → (k, v) ∈ d.
Proof. induction d as [|[k' v'] d IH]; simpl; [done|]. case_decide; [|set_solver]. intros [= ->]. subst. set_solver. Qed.

Lemma dict_elem_get d k v : NoDup d.*1 → (k, v) ∈ d → dict_get d k = Some v.
Proof.
  induction d as [|[k' v'] d IH]; simpl; [set_solver|].
  intros [Hk Hnd]%NoDup_cons [[= <- <-]|Hin]%elem_of_cons; case_decide; try done; [|auto].
  subst. exfalso. apply Hk. apply list_elem_of_fmap. by exists (k, v).
Qed.

Lemma dict_set_keys_in d k v : k ∈ d.*1 → (dict_set d k v).*1 = d.*1.
Proof.
  induction d as [|[k' v'] d IH]; simpl; [set_solver|].
  case_decide; simpl; [done|]. intros [->|?]%elem_of_cons; [done|]. f_equal. by apply IH.
Qed.

Lemma dict_set_keys_new d k v : k ∉ d.*1 → dict_set d k v = d ++ [(k, v)].
Proof.
  induction d as [|[k' v'] d IH]; simpl; [done|]. intros Hk.
  case_decide; [set_solver|]. rewrite IH; set_solver.
Qed.

Lemma dict_set_NoDup d k v : NoDup d.*1 → NoDup (dict_set d k v).*1.
Proof.
  intros Hnd. destruct (decide (k ∈ d.*1)).
  - by rewrite dict_set_keys_in.
  - rewrite dict_set_keys_new, fmap_app by done. apply NoDup_app. split; [done|].
    split; [set_solver|]. apply NoDup_singleton.
Qed.

Lemma dict_set_Forall (P : K * V → Prop) d k v : Forall P d → P (k, v) → Forall P (dict_set d k v).
Proof.
  intros Hd Hv. induction Hd as [|[k' v'] d Hp Hd IH]; simpl; [by repeat constructor|].
  case_decide; subst; constructor; auto.
Qed.

Lemma dict_del_keys d k : (dict_del d k).*1 ⊆ d.*1.
Proof. induction d as [|[k' v'] d IH]; simpl; [done|]. case_decide; set_solver. Qed.

Lemma dict_del_NoDup d k : NoDup d.*1 → NoDup (dict_del d k).*1.
Proof.
  induction d as [|[k' v'] d IH]; simpl; [done|]. intros [Hk Hnd]%NoDup_cons.
  case_decide; [done|]. simpl. apply NoDup_cons. split; [|auto].
  intros ?. apply Hk. by apply (dict_del_keys d k).
Qed.

Lemma dict_del_length d k v : dict_get d k = Some v → (length (dict_del d k) = length d - 1)%nat.
Proof.
  induction d as [|[k' v'] d IH]; [done|]. simpl. case_decide; [simpl; lia|]. intros Hg. simpl. rewrite IH by done.
  destruct d; [done|simpl; lia].
Qed.

Lemma dict_get_del d k k' : NoDup d.*1 →
  dict_get (dict_del d k) k' = if decide (k = k') then None else dict_get d k'.
Proof.
  induction d as [|[k'' v''] d IH]; simpl; [by intros; case_decide|].
  intros [Hk Hnd]%NoDup_cons. destruct (decide (k'' = k)) as [->|]; simpl.
  - case_decide; [subst; by apply dict_get_None|done].
  - destruct (decide (k'' = k')) as [->|]; [by rewrite decide_False|]. by rewrite IH.
Qed.

End Dict.

(** ** Stable sorting ([list.sort] with a key)

    [leb x y] is [key x <= key y]; equal keys keep their order. *)

Section Sort.
Context {A : Type} (leb : A → A → bool).

Fixpoint sort_insert (x : A) (l : list A) : list A :=
  match l with
  | [] => [x]
  | y :: l' => if leb x y then x :: l else y :: sort_insert x l'
  end.

Definition stable_sort (l : list A) : list A := foldr sort_insert [] l.

Lemma sort_insert_perm x l : sort_insert x l ≡ₚ x :: l.
Proof. induction l as [|y l IH]; simpl; [done|]. destruct (leb x y); [done|]. rewrite IH. constructor. Qed.

Lemma stable_sort_perm l : stable_sort l ≡ₚ l.
Proof. induction l as [|x l IH]; simpl; [done|]. by rewrite sort_insert_perm, IH. Qed.

Context (leb_total : ∀ x y, leb x y = true ∨ leb y x = true).
Context (leb_trans : ∀ x y z, leb x y = true → leb y z = true → leb x z = true).

Lemma sort_insert_sorted x l :
  StronglySorted (λ a b, leb a b = true) l → StronglySorted (λ a b, leb a b = true) (sort_insert x l).
Proof.
  induction 1 as [|y l Hs IH Hall]; simpl; [by repeat constructor|].
  destruct (leb x y) eqn:Hxy.
  - constructor; [by constructor|]. constructor; [done|].
    eapply Forall_impl; [exact Hall|]. eauto.
  - constructor; [done|]. rewrite sort_insert_perm. constructor; [|done].
    destruct (leb_total x y); congruence.
Qed.

Lemma stable_sort_sorted l : StronglySorted (λ a b, leb a b = true) (stable_sort l).
Proof. induction l; simpl; [constructor|]. by apply sort_insert_sorted. Qed.

End Sort.

(** Python's [l[lo:hi]] for non-negative bounds. *)
Definition py_slice {A} (l : list A) (lo hi : nat) : list A := drop lo (take hi l).

(** Python's [l[lo:hi]] for any integers: negative bounds count from the end, and
    both are clipped to the list. *)
Definition py_bound (len i : Z) : nat :=
  Z.to_nat (if (i <? 0)%Z then Z.max (i + len) 0 else Z.min i len).
Definition py_slicez {A} (l : list A) (lo hi : Z) : list A :=
  let len := Z.of_nat (length l) in py_slice l (py_bound len lo) (py_bound len hi).

Lemma py_slicez_nonneg {A} (l : list A) lo hi : (0 ≤ lo)%Z → (0 ≤ hi)%Z →
  py_slicez l lo hi = py_slice l (Z.to_nat lo) (Z.to_nat hi).
Proof.
  intros Hlo Hhi. unfold py_slicez, py_slice, py_bound.
  replace (lo <? 0)%Z with false by (symmetry; apply Z.ltb_ge; lia).
  replace (hi <? 0)%Z with false by (symmetry; apply Z.ltb_ge; lia).
  rewrite !Z2Nat.inj_min, Nat2Z.id.
  destruct (decide (Z.to_nat hi ≤ length l)%nat).
  - rewrite (Nat.min_l (Z.to_nat hi)) by done. destruct (decide (Z.to_nat lo ≤ length l)%nat).
    + by rewrite Nat.min_l.
    + rewrite Nat.min_r by lia. rewrite !drop_ge; [done| |]; rewrite length_take; lia.
  - rewrite (Nat.min_r (Z.to_nat hi)) by lia. rewrite !(take_ge l) by lia.
    destruct (decide (Z.to_nat lo ≤ length l)%nat); [by rewrite Nat.min_l|].
    rewrite Nat.min_r by lia. by rewrite !drop_ge by lia.
Qed.

(** ** Order of Python strings: lexicographic by character code *)

Fixpoint chars_leb (a b : list ascii) : bool :=
  match a, b with
  | [], _ => true
  | _ :: _, [] => false
  | x :: a', y :: b' =>
      let nx := nat_of_ascii x in let ny := nat_of_ascii y in
      if (nx <? ny)%nat then true else if (ny <? nx)%nat then false else chars_leb a' b'
  end.
Definition str_leb (s t : string) : bool := chars_leb (chars s) (chars t).

Lemma nat_of_ascii_inj a b : nat_of_ascii a = nat_of_ascii b → a = b.
Proof. intros H. rewrite <-(ascii_nat_embedding a), <-(ascii_nat_embedding b). by rewrite H. Qed.

Lemma chars_leb_total a b : chars_leb a b = true ∨ chars_leb b a = true.
Proof.
  revert b. induction a as [|x a IH]; intros [|y b]; simpl; auto.
  destruct (Nat.ltb_spec (nat_of_ascii x) (nat_of_ascii y)); [auto|].
  destruct (Nat.ltb_spec (nat_of_ascii y) (nat_of_ascii x)); auto.
Qed.

Lemma chars_leb_trans a b c : chars_leb a b = true → chars_leb b c = true → chars_leb a c = true.
Proof.
  revert b c. induction a as [|x a IH]; intros [|y b] [|z c]; simpl; try done.
  destruct (Nat.ltb_spec (nat_of_ascii x) (nat_of_ascii y)),
    (Nat.ltb_spec (nat_of_ascii y) (nat_of_ascii z)),
    (Nat.ltb_spec (nat_of_ascii x) (nat_of_ascii z)),
    (Nat.ltb_spec (nat_of_ascii y) (nat_of_ascii x)),
    (Nat.ltb_spec (nat_of_ascii z) (nat_of_ascii y)),
    (Nat.ltb_spec (nat_of_ascii z) (nat_of_ascii x)); try done; try lia; eauto.
Qed.

Lemma chars_leb_antisym a b : chars_leb a b = true → chars_leb b a = true → a = b.
Proof.
  revert b. induction a as [|x a IH]; intros [|y b]; simpl; try done.
  destruct (Nat.ltb_spec (nat_of_ascii x) (nat_of_ascii y)),
    (Nat.ltb_spec (nat_of_ascii y) (nat_of_ascii x)); try done; try lia.
  intros ? ?. f_equal; [apply nat_of_ascii_inj; lia|auto].
Qed.

Lemma str_leb_total s t : str_leb s t = true ∨ str_leb t s = true.
Proof. apply chars_leb_total. Qed.
Lemma str_leb_trans s t u : str_leb s t = true → str_leb t u = true → str_leb s u = true.
Proof. apply chars_leb_trans. Qed.
Lemma str_leb_antisym s t : str_leb s t = true → str_leb t s = true → s = t.
Proof.
  intros H1 H2. rewrite <-(of_chars_chars s), <-(of_chars_chars t). f_equal.
  by apply chars_leb_antisym.
Qed.

(** Strict order, as [s < t]. *)
Definition str_lt (s t : string) : Prop := str_leb s t = true ∧ s ≠ t.
Lemma str_lt_trans s t u : str_lt s t → str_lt t u → str_lt s u.
Proof.
  intros [H1 N1] [H2 N2]. split; [by eapply str_leb_trans|]. intros ->.
  apply N1. by apply str_leb_antisym.
Qed.
Lemma str_lt_irrefl s : ¬ str_lt s s.
Proof. by intros []. Qed.
