(* ===== verification/PyDecimal.v ===== *)
(** Python's [decimal.Decimal] under the default context, as far as the ledger
    uses it: finite numbers [coef * 10^exp], arithmetic rounded to the 28
    significant digits of the context with ROUND_HALF_EVEN, [quantize] to four
    places with its [InvalidOperation], exact comparison, and a coarser
    equality [==] (same number, maybe another exponent) with the [Proper]
    instances that let the components rewrite with it.

    Not modelled: NaN, infinities, the sign of zero (none of them changes a
    comparison of finite numbers) and the exponent limits of the context. *)

From S2P Require Import Prelude.

Local Open Scope Z_scope.

Declare Scope dec_scope.
Delimit Scope dec_scope with dec.

Record decimal : Type := mkDec { coef : Z; dexp : Z }.

#[global] Instance decimal_eq_dec : EqDecision decimal.
Proof. solve_decision. Defined.

(** Number of decimal digits of [|z|] (zero has one). *)
Fixpoint ndigits_fuel (fuel : nat) (z : Z) : Z :=
  match fuel with
  | O => 1
  | S f => if z <? 10 then 1 else 1 + ndigits_fuel f (z / 10)
  end.
Definition ndigits (z : Z) : Z := ndigits_fuel (Z.to_nat (Z.log2 (Z.abs z)) + 1) (Z.abs z).

Definition prec : Z := 28.

(** The coefficient [d] has at a smaller (or equal) exponent [e]. *)
Definition align (d : decimal) (e : Z) : Z := coef d * 10 ^ (dexp d - e).

(** Rounding to the context precision: [Decimal._fix].  The second test is the
    carry into a 29th digit. *)
Definition dfix (d : decimal) : decimal :=
  if ndigits (coef d) <=? prec then d
  else
    let k := ndigits (coef d) - prec in
    let c := rhe (coef d) (10 ^ k) in
    if ndigits c <=? prec then mkDec c (dexp d + k)
    else mkDec (rhe c 10) (dexp d + k + 1).

Definition dadd_exact (a b : decimal) : decimal :=
  let e := Z.min (dexp a) (dexp b) in mkDec (align a e + align b e) e.
Definition dneg_exact (a : decimal) : decimal := mkDec (- coef a) (dexp a).

Definition dadd (a b : decimal) : decimal := dfix (dadd_exact a b).
Definition dsub (a b : decimal) : decimal := dfix (dadd_exact a (dneg_exact b)).
Definition dmul (a b : decimal) : decimal := dfix (mkDec (coef a * coef b) (dexp a + dexp b)).
Definition dneg (a : decimal) : decimal := dfix (dneg_exact a).
Definition dabs (a : decimal) : decimal := dfix (mkDec (Z.abs (coef a)) (dexp a)).

(** Division, following [Decimal.__truediv__]: enough digits for a correctly
    rounded quotient, with a sticky digit when the division is inexact. *)
Definition ddiv (a b : decimal) : result decimal :=
  if coef b =? 0 then Raise PyZeroDivisionError
  else if coef a =? 0 then Ok (mkDec 0 (dexp a - dexp b))
  else
    let shift := ndigits (coef b) - ndigits (coef a) + prec + 1 in
    let e := dexp a - dexp b - shift in
    let ca := Z.abs (coef a) in
    let cb := Z.abs (coef b) in
    let sgn := Z.sgn (coef a) * Z.sgn (coef b) in
    let n := if 0 <=? shift then ca * 10 ^ shift else ca in
    let d := if 0 <=? shift then cb else cb * 10 ^ (- shift) in
    let q := n / d in
    let r := n mod d in
    let q' := if (negb (r =? 0)) && (q mod 5 =? 0) then q + 1 else q in
    Ok (dfix (mkDec (sgn * q') e)).

(** Comparisons are exact. *)
Definition dcompare (a b : decimal) : comparison :=
  let e := Z.min (dexp a) (dexp b) in align a e ?= align b e.
Definition deqb (a b : decimal) : bool := match dcompare a b with Eq => true | _ => false end.
Definition dltb (a b : decimal) : bool := match dcompare a b with Lt => true | _ => false end.
Definition dleb (a b : decimal) : bool := match dcompare a b with Gt => false | _ => true end.

(** [d.quantize(Decimal("0.0001"), rounding=ROUND_HALF_EVEN)] *)
Definition quantize4 (d : decimal) : result decimal :=
  let c := if -4 <=? dexp d then coef d * 10 ^ (dexp d + 4)
           else rhe (coef d) (10 ^ (-4 - dexp d)) in
  if ndigits c <=? prec then Ok (mkDec c (-4)) else Raise PyInvalidOperation.

(** A literal with four places: [d4 15000] is [Decimal("1.5000")]. *)
Definition d4 (c : Z) : decimal := mkDec c (-4).
Definition d0 : decimal := d4 0.

Definition dsum (l : list decimal) (start : decimal) : decimal := foldl dadd start l.

(** ** Same number: equality of values *)

Definition deq (a b : decimal) : Prop := deqb a b = true.
Infix "==" := deq (at level 70) : dec_scope.
Notation "a <=? b" := (dleb a b) : dec_scope.
Notation "a <? b" := (dltb a b) : dec_scope.

(** ** Digits *)

Lemma ndigits_fuel_spec f z : 0 <= z -> z < 2 ^ Z.of_nat f ->
  1 <= ndigits_fuel f z /\ z < 10 ^ ndigits_fuel f z /\ (z = 0 \/ 10 ^ (ndigits_fuel f z - 1) <= z).
Proof.
  revert z. induction f as [|f IH]; intros z Hz Hlt; cbn [ndigits_fuel].
  - change (2 ^ Z.of_nat 0) with 1 in Hlt. rewrite Z.pow_1_r. lia.
  - rewrite Nat2Z.inj_succ, Z.pow_succ_r in Hlt by lia.
    destruct (Z.ltb_spec z 10) as [|Hge].
    { change (10 ^ (1 - 1)) with 1. rewrite Z.pow_1_r. lia. }
    pose proof (Z.div_mod z 10 ltac:(lia)). pose proof (Z.mod_pos_bound z 10 ltac:(lia)).
    destruct (IH (z / 10)) as (H1 & H2 & H3); [lia..|].
    set (n := ndigits_fuel f (z / 10)) in *.
    replace (10 ^ (1 + n)) with (10 * 10 ^ n) by (rewrite Z.pow_add_r; lia).
    replace (1 + n - 1) with (1 + (n - 1)) by lia.
    rewrite Z.pow_add_r by lia. change (10 ^ 1) with 10. nia.
Qed.

Lemma ndigits_spec z :
  1 <= ndigits z /\ Z.abs z < 10 ^ ndigits z /\ (z = 0 \/ 10 ^ (ndigits z - 1) <= Z.abs z).
Proof.
  unfold ndigits.
  destruct (ndigits_fuel_spec (Z.to_nat (Z.log2 (Z.abs z)) + 1) (Z.abs z)) as (?&?&?); [lia| |].
  - rewrite Nat2Z.inj_add, Z2Nat.id by apply Z.log2_nonneg.
    destruct (decide (Z.abs z = 0)) as [->|]; [done|].
    apply Z.log2_spec. lia.
  - repeat split; [done..|lia].
Qed.

Lemma ndigits_le z n : 1 <= n -> ndigits z <= n <-> Z.abs z < 10 ^ n.
Proof.
  intros Hn. destruct (ndigits_spec z) as (H1 & H2 & H3). split; intros H.
  - apply Z.lt_le_trans with (10 ^ ndigits z); [done|]. apply Z.pow_le_mono_r; lia.
  - destruct H3 as [->|H3]; [vm_compute (ndigits 0); lia|].
    apply Z.lt_succ_r. apply (Z.pow_lt_mono_r_iff 10); [lia..|].
    apply Z.le_lt_trans with (10 * Z.abs z).
    + replace (ndigits z) with (1 + (ndigits z - 1)) by lia.
      rewrite Z.pow_add_r by lia. change (10 ^ 1) with 10. lia.
    + rewrite Z.pow_succ_r by lia. lia.
Qed.

Lemma ndigits_prec z : (ndigits z <=? prec) = true <-> Z.abs z < 10 ^ 28.
Proof. unfold prec. rewrite Z.leb_le. apply ndigits_le. lia. Qed.

(** ** Values *)

Lemma pow10_pos n : 0 <= n -> 0 < 10 ^ n.
Proof. intros. apply Z.pow_pos_nonneg; lia. Qed.

Lemma align_lower d e e' : e' <= e -> e <= dexp d -> align d e' = align d e * 10 ^ (e - e').
Proof.
  intros. unfold align. rewrite <-Z.mul_assoc, <-Z.pow_add_r by lia. do 2 f_equal. lia.
Qed.

Lemma dcompare_at a b e : e <= dexp a -> e <= dexp b -> dcompare a b = (align a e ?= align b e).
Proof.
  intros Ha Hb. unfold dcompare. set (m := Z.min (dexp a) (dexp b)).
  rewrite (align_lower a m e), (align_lower b m e) by lia.
  apply Zmult_compare_compat_r. pose proof (pow10_pos (m - e)). lia.
Qed.

Lemma deq_at a b e : e <= dexp a -> e <= dexp b -> deq a b <-> align a e = align b e.
Proof.
  intros. unfold deq, deqb. rewrite (dcompare_at a b e) by done.
  destruct (Z.compare_spec (align a e) (align b e)); naive_solver lia.
Qed.

Lemma dltb_at a b e : e <= dexp a -> e <= dexp b -> dltb a b = (align a e <? align b e).
Proof. intros. unfold dltb, Z.ltb. by rewrite (dcompare_at a b e). Qed.

Lemma dleb_at a b e : e <= dexp a -> e <= dexp b -> dleb a b = (align a e <=? align b e).
Proof. intros. unfold dleb, Z.leb. by rewrite (dcompare_at a b e). Qed.

#[global] Instance deq_equiv : Equivalence deq.
Proof.
  split.
  - intros a. by apply (deq_at a a (dexp a)).
  - intros a b. rewrite !(deq_at _ _ (Z.min (dexp a) (dexp b))) by lia. done.
  - intros a b c. set (e := Z.min (dexp a) (Z.min (dexp b) (dexp c))).
    rewrite !(deq_at _ _ e) by lia. congruence.
Qed.

(** Comparisons respect the value equality. *)
#[global] Instance dcompare_proper : Proper (deq ==> deq ==> eq) dcompare.
Proof.
  intros a a' Ha b b' Hb.
  set (e := Z.min (Z.min (dexp a) (dexp a')) (Z.min (dexp b) (dexp b'))).
  rewrite (deq_at a a' e) in Ha by lia. rewrite (deq_at b b' e) in Hb by lia.
  rewrite !(dcompare_at _ _ e) by lia. congruence.
Qed.
#[global] Instance deqb_proper : Proper (deq ==> deq ==> eq) deqb.
Proof. intros a a' Ha b b' Hb. unfold deqb. by rewrite Ha, Hb. Qed.
#[global] Instance dltb_proper : Proper (deq ==> deq ==> eq) dltb.
Proof. intros a a' Ha b b' Hb. unfold dltb. by rewrite Ha, Hb. Qed.
#[global] Instance dleb_proper : Proper (deq ==> deq ==> eq) dleb.
Proof. intros a a' Ha b b' Hb. unfold dleb. by rewrite Ha, Hb. Qed.

Lemma deq_of_not_lt a b : dltb a b = false -> dltb b a = false -> deq a b.
Proof.
  set (e := Z.min (dexp a) (dexp b)). rewrite !(dltb_at _ _ e), (deq_at _ _ e) by lia.
  intros ?%Z.ltb_ge ?%Z.ltb_ge. lia.
Qed.

Lemma align_dadd_exact a b e : e <= dexp a -> e <= dexp b ->
  align (dadd_exact a b) e = align a e + align b e.
Proof.
  intros. unfold dadd_exact. set (m := Z.min (dexp a) (dexp b)).
  rewrite (align_lower a m e), (align_lower b m e) by lia. unfold align at 1. simpl. ring.
Qed.

#[global] Instance dadd_exact_proper : Proper (deq ==> deq ==> deq) dadd_exact.
Proof.
  intros a a' Ha b b' Hb.
  set (e := Z.min (Z.min (dexp a) (dexp a')) (Z.min (dexp b) (dexp b'))).
  rewrite (deq_at a a' e) in Ha by lia. rewrite (deq_at b b' e) in Hb by lia.
  rewrite (deq_at _ _ e) by (simpl; lia).
  rewrite !align_dadd_exact by lia. congruence.
Qed.

Lemma align_dneg_exact a e : align (dneg_exact a) e = - align a e.
Proof. unfold align. simpl. ring. Qed.

#[global] Instance dneg_exact_proper : Proper (deq ==> deq) dneg_exact.
Proof.
  intros a a' Ha. set (e := Z.min (dexp a) (dexp a')).
  rewrite (deq_at a a' e) in Ha by lia. rewrite (deq_at _ _ e) by (simpl; lia).
  rewrite !align_dneg_exact. congruence.
Qed.

(** ** Fixed-point view

    Every ledger amount has at most four decimal places: [d == d4 x] says that
    [d] is the number [x / 10^4].  The lemmas below move each operation to the
    integers [x]; additions are exact while the result has at most 28 digits,
    that is [Z.abs x < 10^28] ([fits x]). *)

Definition fits (x : Z) : Prop := Z.abs x < 10 ^ 28.

Lemma align_d4 x e : align (d4 x) e = x * 10 ^ (-4 - e).
Proof. done. Qed.

Lemma d4_inj x y : deq (d4 x) (d4 y) <-> x = y.
Proof. rewrite (deq_at _ _ (-4)) by (simpl; lia). unfold align. simpl. lia. Qed.

Lemma d4_leb x y : dleb (d4 x) (d4 y) = (x <=? y).
Proof. rewrite (dleb_at _ _ (-4)) by (simpl; lia). unfold align. simpl. by rewrite !Z.mul_1_r. Qed.
Lemma d4_ltb x y : dltb (d4 x) (d4 y) = (x <? y).
Proof. rewrite (dltb_at _ _ (-4)) by (simpl; lia). unfold align. simpl. by rewrite !Z.mul_1_r. Qed.
Lemma d4_eqb x y : deqb (d4 x) (d4 y) = (x =? y).
Proof.
  unfold deqb. rewrite (dcompare_at _ _ (-4)) by (simpl; lia). unfold align. simpl.
  rewrite !Z.mul_1_r. by destruct (Z.compare_spec x y), (Z.eqb_spec x y); try lia.
Qed.

(** A value with at most 28 significant digits is left alone by the context. *)
Lemma dfix_exact d m k : 0 <= k -> coef d = m * 10 ^ k -> Z.abs m < 10 ^ 28 -> deq (dfix d) d.
Proof.
  intros Hk Hc Hm. unfold dfix.
  destruct (ndigits (coef d) <=? prec) eqn:Hn; [done|].
  apply Z.leb_gt in Hn. unfold prec in *.
  set (j := ndigits (coef d) - 28) in *.
  destruct (ndigits_spec (coef d)) as (_ & _ & [H0|Hlo]).
  { rewrite H0 in Hn. vm_compute in Hn. done. }
  assert (j <= k).
  { apply Z.lt_succ_r, (Z.pow_lt_mono_r_iff 10); [lia..|].
    apply (Z.mul_lt_mono_pos_r (10 ^ 27)); [lia|].
    replace (10 ^ j * 10 ^ 27) with (10 ^ (ndigits (coef d) - 1)) by
      (rewrite <-Z.pow_add_r by lia; f_equal; lia).
    eapply Z.le_lt_trans; [exact Hlo|]. rewrite Hc, Z.abs_mul.
    rewrite (Z.abs_eq (10 ^ k)) by (pose proof (pow10_pos k); lia).
    rewrite Z.pow_succ_r by lia.
    assert (10 * 10 ^ k * 10 ^ 27 = 10 ^ 28 * 10 ^ k) as ->.
    { replace (10 ^ 28) with (10 * 10 ^ 27) by reflexivity. lia. }
    apply Z.mul_lt_mono_pos_r; [by apply pow10_pos|done]. }
  assert (coef d = (m * 10 ^ (k - j)) * 10 ^ j) as Hc'.
  { rewrite Hc, <-Z.mul_assoc, <-Z.pow_add_r by lia. do 2 f_equal. lia. }
  assert (rhe (coef d) (10 ^ j) = m * 10 ^ (k - j)) as Hr.
  { rewrite Hc'. apply rhe_exact, pow10_pos. lia. }
  destruct (ndigits_spec (coef d)) as (_ & Hhi & _).
  assert ((ndigits (m * 10 ^ (k - j)) <=? 28) = true) as Hd.
  { apply ndigits_prec.
    assert (Z.abs (coef d) = Z.abs (m * 10 ^ (k - j)) * 10 ^ j) as Ha.
    { rewrite Hc', Z.abs_mul at 1. f_equal. pose proof (pow10_pos j). lia. }
    rewrite Ha in Hhi at 1.
    apply (Z.mul_lt_mono_pos_r (10 ^ j)); [apply pow10_pos; lia|].
    eapply Z.lt_le_trans; [exact Hhi|]. rewrite <-Z.pow_add_r by lia. apply Z.pow_le_mono_r; lia. }
  rewrite Hr, Hd. apply (deq_at _ _ (dexp d)); [simpl; lia..|].
  unfold align. simpl.
  replace (dexp d + j - dexp d) with j by lia. replace (dexp d - dexp d) with 0 by lia.
  rewrite <-Hc'. ring.
Qed.

(** Rounding to the precision never turns a number into zero, so comparing a
    difference with zero is exact. *)
Lemma rhe_zero z k : 0 <= k -> 10 ^ k <= Z.abs z -> rhe z (10 ^ k) <> 0.
Proof. intros Hk Hz E. pose proof (pow10_pos k Hk). pose proof (rhe_error z (10 ^ k)). rewrite E in *. lia. Qed.

Lemma deqb_zero d : deqb d d0 = (coef d =? 0).
Proof.
  destruct d as [c e]. cbn [coef]. destruct (Z.eqb_spec c 0) as [->|Hc].
  - change (deq (mkDec 0 e) d0). apply (deq_at _ _ (Z.min e (-4))); unfold align; simpl; lia.
  - apply not_true_iff_false. intros H. change (deq (mkDec c e) d0) in H.
    rewrite (deq_at _ _ (Z.min e (-4))) in H by (simpl; lia). unfold align in H. simpl in H.
    pose proof (pow10_pos (e - Z.min e (-4))). nia.
Qed.

Lemma dfix_zero d : deqb (dfix d) d0 = (coef d =? 0).
Proof.
  unfold dfix. destruct (Z.leb_spec (ndigits (coef d)) prec) as [_|Hn]; [apply deqb_zero|].
  pose proof (ndigits_spec (coef d)) as Hd. unfold prec in *. set (n := ndigits (coef d)) in *.
  assert (coef d <> 0) as Hnz by (intros E; unfold n in Hn; rewrite E in Hn; vm_compute in Hn; discriminate).
  assert (10 ^ (n - 28) <= Z.abs (coef d)) as Hbig.
  { etrans; [apply (Z.pow_le_mono_r 10 (n - 28) (n - 1)); lia|]. lia. }
  rewrite (proj2 (Z.eqb_neq (coef d) 0) Hnz).
  destruct (Z.leb_spec (ndigits (rhe (coef d) (10 ^ (n - 28)))) 28) as [_|Hc]; rewrite deqb_zero; apply Z.eqb_neq; cbn [coef].
  - apply rhe_zero; lia.
  - change 10 with (10 ^ 1) at 2. apply rhe_zero; [lia|].
    apply Z.nlt_ge. intros Hlt. assert (ndigits (rhe (coef d) (10 ^ (n - 28))) <= 28); [|lia].
    apply ndigits_le; [lia|]. etrans; [exact Hlt|]. done.
Qed.

Lemma dabs_dsub_zero a b : deqb (dabs (dsub a b)) d0 = deqb a b.
Proof.
  unfold dabs. rewrite dfix_zero. cbn [coef].
  assert ((Z.abs (coef (dsub a b)) =? 0) = (coef (dsub a b) =? 0)) as -> by (apply eq_true_iff_eq; rewrite !Z.eqb_eq; lia).
  rewrite <-deqb_zero. unfold dsub. rewrite dfix_zero. unfold dadd_exact. cbn [coef].
  rewrite align_dneg_exact. change (dexp (dneg_exact b)) with (dexp b). unfold deqb. rewrite (dcompare_at a b (Z.min (dexp a) (dexp b))) by lia.
  destruct (Z.compare_spec (align a (Z.min (dexp a) (dexp b))) (align b (Z.min (dexp a) (dexp b)))) as [E|E|E];
    [apply Z.eqb_eq|apply Z.eqb_neq|apply Z.eqb_neq]; lia.
Qed.

Lemma dfix_d4 d x : deq d (d4 x) -> fits x -> deq (dfix d) (d4 x).
Proof.
  intros Hd Hx. etrans; [|exact Hd]. unfold fits in Hx.
  destruct (Z.le_gt_cases (-4) (dexp d)) as [He|He].
  - rewrite (deq_at _ _ (-4)) in Hd by (simpl; lia). unfold align in Hd. simpl in Hd.
    rewrite Z.mul_1_r in Hd.
    apply (dfix_exact d (coef d) 0); [lia|ring|].
    eapply Z.le_lt_trans; [|exact Hx]. rewrite <-Hd, Z.abs_mul.
    pose proof (pow10_pos (dexp d - -4)). nia.
  - rewrite (deq_at _ _ (dexp d)) in Hd by (simpl; lia). unfold align in Hd. simpl in Hd.
    replace (dexp d - dexp d) with 0 in Hd by lia. rewrite Z.mul_1_r in Hd.
    apply (dfix_exact d x (-4 - dexp d)); [lia|done|done].
Qed.

Lemma dadd_exact_d4 x y : dadd_exact (d4 x) (d4 y) = d4 (x + y).
Proof.
  unfold dadd_exact, align, d4. cbn [coef dexp]. change (Z.min (-4) (-4)) with (-4).
  change (10 ^ (-4 - -4)) with 1. f_equal; lia.
Qed.

Lemma dadd_d4 a b x y : deq a (d4 x) -> deq b (d4 y) -> fits (x + y) -> deq (dadd a b) (d4 (x + y)).
Proof.
  intros Ha Hb Hf. unfold dadd. apply dfix_d4; [|done]. rewrite Ha, Hb.
  apply (deq_at _ _ (-4)); [simpl; lia..|].
  rewrite align_dadd_exact by (simpl; lia). unfold align. simpl. lia.
Qed.

Lemma dsub_d4 a b x y : deq a (d4 x) -> deq b (d4 y) -> fits (x - y) -> deq (dsub a b) (d4 (x - y)).
Proof.
  intros Ha Hb Hf. unfold dsub. apply dfix_d4; [|done]. rewrite Ha, Hb.
  apply (deq_at _ _ (-4)); [simpl; lia..|].
  rewrite align_dadd_exact by (simpl; lia). unfold align. simpl. lia.
Qed.

Lemma dabs_d4 a x : deq a (d4 x) -> fits x -> deq (dabs a) (d4 (Z.abs x)).
Proof.
  intros Ha Hf. unfold dabs. apply dfix_d4; [|unfold fits in *; lia].
  set (e := Z.min (dexp a) (-4)).
  rewrite (deq_at a (d4 x) e) in Ha by (simpl; lia). rewrite (deq_at _ _ e) by (simpl; lia).
  unfold align in *. simpl in *.
  pose proof (pow10_pos (dexp a - e)). pose proof (pow10_pos (-4 - e)).
  rewrite <-(Z.abs_eq (10 ^ (dexp a - e))), <-Z.abs_mul, Ha, Z.abs_mul by lia.
  rewrite (Z.abs_eq (10 ^ (-4 - e))) by lia. done.
Qed.

Lemma dneg_d4 a x : deq a (d4 x) -> fits x -> deq (dneg a) (d4 (- x)).
Proof.
  intros Ha Hf. unfold dneg. apply dfix_d4; [|unfold fits in *; lia]. rewrite Ha.
  apply (deq_at _ _ (-4)); [simpl; lia..|]. unfold align. simpl. lia.
Qed.

(** ** Quantization *)

(** The integer that [quantize4] rounds to. *)
Definition scaled4 (d : decimal) : Z :=
  if -4 <=? dexp d then coef d * 10 ^ (dexp d + 4) else rhe (coef d) (10 ^ (-4 - dexp d)).

Lemma quantize4_spec d :
  quantize4 d = if ndigits (scaled4 d) <=? prec then Ok (d4 (scaled4 d)) else Raise PyInvalidOperation.
Proof. done. Qed.

Lemma quantize4_ok d r : quantize4 d = Ok r <-> r = d4 (scaled4 d) /\ fits (scaled4 d).
Proof.
  rewrite quantize4_spec. unfold fits. rewrite <-ndigits_prec.
  destruct (ndigits (scaled4 d) <=? prec); naive_solver.
Qed.

Lemma scaled4_d4 d x : deq d (d4 x) -> scaled4 d = x.
Proof.
  intros Hd. unfold scaled4. destruct (Z.leb_spec (-4) (dexp d)) as [He|He].
  - rewrite (deq_at _ _ (-4)) in Hd by (simpl; lia). unfold align in Hd. simpl in Hd.
    replace (dexp d + 4) with (dexp d - -4) by lia. lia.
  - rewrite (deq_at _ _ (dexp d)) in Hd by (simpl; lia). unfold align in Hd. simpl in Hd.
    replace (dexp d - dexp d) with 0 in Hd by lia. rewrite Z.mul_1_r in Hd. rewrite Hd.
    apply rhe_exact, pow10_pos. lia.
Qed.

Lemma quantize4_d4 d x : deq d (d4 x) -> fits x -> quantize4 d = Ok (d4 x).
Proof. intros Hd Hf. apply quantize4_ok. by rewrite (scaled4_d4 d x). Qed.

(** [has_4_places d]: pydantic's [decimal_places=4] on the value of [d]. *)
Definition has_4_places (d : decimal) : bool := deqb d (d4 (scaled4 d)).

Lemma has_4_places_d4 d : has_4_places d = true <-> exists x, deq d (d4 x).
Proof.
  unfold has_4_places. split; [intros H; by eexists|].
  intros [x Hx]. by rewrite (scaled4_d4 d x).
Qed.

Lemma scaled4_pos d : deqb d (d4 (scaled4 d)) = true -> dltb d0 d = (0 <? scaled4 d).
Proof. intros H. change (deq d (d4 (scaled4 d))) in H. rewrite H at 1. apply d4_ltb. Qed.

(** Rounding to four places moves a number by at most half of the last place. *)
Lemma scaled4_error d e : e <= dexp d -> e <= -5 ->
  2 * Z.abs (align (d4 (scaled4 d)) e - align d e) <= 10 ^ (-4 - e).
Proof.
  intros He He'. unfold scaled4. destruct (Z.leb_spec (-4) (dexp d)) as [Hd|Hd].
  - assert (align (d4 (coef d * 10 ^ (dexp d + 4))) e = align d e) as ->.
    { unfold align. simpl. rewrite <-Z.mul_assoc, <-Z.pow_add_r by lia. do 2 f_equal. lia. }
    rewrite Z.sub_diag. pose proof (pow10_pos (-4 - e)). lia.
  - pose proof (rhe_error (coef d) (10 ^ (-4 - dexp d)) ltac:(apply pow10_pos; lia)) as Hr.
    assert (10 ^ (-4 - e) = 10 ^ (-4 - dexp d) * 10 ^ (dexp d - e)) as E.
    { rewrite <-Z.pow_add_r by lia. f_equal. lia. }
    unfold align. simpl. rewrite E.
    replace (rhe (coef d) (10 ^ (-4 - dexp d)) * (10 ^ (-4 - dexp d) * 10 ^ (dexp d - e)) - coef d * 10 ^ (dexp d - e))
      with ((rhe (coef d) (10 ^ (-4 - dexp d)) * 10 ^ (-4 - dexp d) - coef d) * 10 ^ (dexp d - e)) by ring.
    rewrite Z.abs_mul, (Z.abs_eq (10 ^ (dexp d - e))) by (pose proof (pow10_pos (dexp d - e)); lia).
    pose proof (pow10_pos (dexp d - e) ltac:(lia)). nia.
Qed.

Lemma scaled4_tie_even d e : e <= dexp d -> e <= -5 ->
  2 * Z.abs (align (d4 (scaled4 d)) e - align d e) = 10 ^ (-4 - e) -> Z.even (scaled4 d) = true.
Proof.
  intros He He'. unfold scaled4. destruct (Z.leb_spec (-4) (dexp d)) as [Hd|Hd].
  - assert (align (d4 (coef d * 10 ^ (dexp d + 4))) e = align d e) as ->.
    { unfold align. simpl. rewrite <-Z.mul_assoc, <-Z.pow_add_r by lia. do 2 f_equal. lia. }
    rewrite Z.sub_diag. pose proof (pow10_pos (-4 - e)). lia.
  - assert (10 ^ (-4 - e) = 10 ^ (-4 - dexp d) * 10 ^ (dexp d - e)) as E.
    { rewrite <-Z.pow_add_r by lia. f_equal. lia. }
    pose proof (pow10_pos (dexp d - e) ltac:(lia)) as Hp.
    set (c := rhe (coef d) (10 ^ (-4 - dexp d))). unfold align. simpl. rewrite E.
    replace (c * (10 ^ (-4 - dexp d) * 10 ^ (dexp d - e)) - coef d * 10 ^ (dexp d - e))
      with ((c * 10 ^ (-4 - dexp d) - coef d) * 10 ^ (dexp d - e)) by ring.
    rewrite Z.abs_mul, (Z.abs_eq (10 ^ (dexp d - e))), Z.mul_assoc by lia.
    intros ?%Z.mul_reg_r; [|lia]. apply rhe_tie_even; [apply pow10_pos; lia|done].
Qed.

(** ** Sums *)

Lemma dsum_d4 l zs a x :
  Forall2 (fun d z => deq d (d4 z)) l zs -> Forall (fun z => 0 <= z) zs -> deq a (d4 x) -> 0 <= x ->
  fits (x + Zsum zs) -> deq (dsum l a) (d4 (x + Zsum zs)).
Proof.
  unfold dsum. intros Hl. revert a x. induction Hl as [|d z l zs Hd Hl IH]; intros a x Hz Ha Hx Hf; simpl.
  - by rewrite Z.add_0_r.
  - inversion Hz; subst. unfold Zsum in *. simpl in *.
    rewrite Z.add_assoc in Hf |- *. apply IH; [done| |lia|done].
    apply dadd_d4; [done..|]. unfold fits in *.
    assert (0 <= foldr Z.add 0 zs). { clear -H2. induction H2; simpl; lia. }
    lia.
Qed.
