(* ===== verification/Money.v ===== *)
(** The [Money] value object of [app/core/money.py] and the FX conversion
    engine of [app/services/fx_conversion_service.py].

    A [money] is what a constructed [Money] holds after [__post_init__]; the
    constructor, the arithmetic operators and the comparisons return a [result]
    with the exception the code raises.  The theorems: every operation returns
    a quantized amount in a three-letter currency, addition is exact or raises,
    and a conversion is the exact product rounded half-even to four places. *)

From S2P Require Import Prelude PyDecimal.

Local Open Scope Z_scope.
Local Open Scope py_scope.

(** The Python values the constructor and the scalar operators distinguish.
    [NStr] covers plain decimal literals; [NOther] is any other object. *)
Inductive pynum : Type :=
  | NDec (d : decimal)
  | NInt (z : Z)
  | NStr (s : string)
  | NFloat
  | NOther.

Record money : Type := mkMoney { amount : decimal; currency : string }.

#[global] Instance money_eq_dec : EqDecision money.
Proof. solve_decision. Defined.

(** *** [Decimal(str)] for literals [[+-]ddd[.ddd]] *)

Definition digit_of (c : ascii) : option Z :=
  let n := Z.of_nat (nat_of_ascii c) in
  if (48 <=? n) && (n <=? 57) then Some (n - 48) else None.

(** [acc] is the coefficient so far, [places] the digits after the point (or
    [None] before one), [seen] whether a digit was read. *)
Fixpoint parse_digits (l : list ascii) (acc : Z) (places : option Z) (seen : bool) : option decimal :=
  match l with
  | [] => if seen then Some (mkDec acc (- default 0 places)) else None
  | c :: l' =>
      match digit_of c with
      | Some v => parse_digits l' (10 * acc + v) (Z.succ <$> places) true
      | None =>
          if bool_decide (c = "."%char) && bool_decide (places = None)
          then parse_digits l' acc (Some 0) seen else None
      end
  end.

Definition decimal_of_string (s : string) : option decimal :=
  match strip_chars (chars s) with
  | "-"%char :: l => (fun d => mkDec (- coef d) (dexp d)) <$> parse_digits l 0 None false
  | "+"%char :: l => parse_digits l 0 None false
  | l => parse_digits l 0 None false
  end.

(** [re.compile(r"^[A-Z]{3}$").match] on a stripped string. *)
Definition iso_4217 (s : string) : bool :=
  bool_decide (String.length s = 3%nat) && forallb is_upper (chars s).

(** [Decimal(str(x))] for what is not a float. *)
Definition to_decimal (a : pynum) : option decimal :=
  match a with
  | NDec d => Some d
  | NInt z => Some (mkDec z 0)
  | NStr s => decimal_of_string s
  | NFloat | NOther => None
  end.

(** [Money.__post_init__] *)
Definition money_post_init (a : pynum) (cur : string) : result money :=
  match a with
  | NFloat => Raise PyTypeError
  | _ =>
    let clean := py_upper (py_strip cur) in
    if negb (iso_4217 clean) then Raise PyValueError
    else match to_decimal a with
         | None => Raise PyTypeError
         | Some raw => let? q := quantize4 raw in Ok (mkMoney q clean)
         end
  end.

(** [__add__], [__sub__] on two [Money] values. *)
Definition money_add (m n : money) : result money :=
  if negb (bool_decide (currency m = currency n)) then Raise CurrencyMismatchException
  else money_post_init (NDec (dadd (amount m) (amount n))) (currency m).

Definition money_sub (m n : money) : result money :=
  if negb (bool_decide (currency m = currency n)) then Raise CurrencyMismatchException
  else money_post_init (NDec (dsub (amount m) (amount n))) (currency m).

(** [__mul__] / [__rmul__] by a scalar.  An object that is not a number makes
    Python raise [TypeError] after [NotImplemented]. *)
Definition money_mul (m : money) (f : pynum) : result money :=
  match f with
  | NFloat | NOther => Raise PyTypeError
  | _ => match to_decimal f with
         | None => Raise PyInvalidOperation
         | Some d => money_post_init (NDec (dmul (amount m) d)) (currency m)
         end
  end.

(** [__truediv__] by a scalar. *)
Definition money_truediv (m : money) (f : pynum) : result money :=
  match f with
  | NFloat | NOther => Raise PyTypeError
  | _ => match to_decimal f with
         | None => Raise PyInvalidOperation
         | Some d =>
             if deqb d (mkDec 0 0) then Raise PyZeroDivisionError
             else let? q := ddiv (amount m) d in
                  let? r := quantize4 q in
                  money_post_init (NDec r) (currency m)
         end
  end.

Definition money_neg (m : money) : result money := money_post_init (NDec (dneg (amount m))) (currency m).
Definition money_pos (m : money) : money := m.
Definition money_abs (m : money) : result money := money_post_init (NDec (dabs (amount m))) (currency m).

Definition money_eq (m n : money) : bool :=
  bool_decide (currency m = currency n) && deqb (amount m) (amount n).

(** [_assert_same_currency] followed by the comparison of the amounts. *)
Definition money_cmp (test : decimal -> decimal -> bool) (m n : money) : result bool :=
  if negb (bool_decide (currency m = currency n)) then Raise CurrencyMismatchException
  else Ok (test (amount m) (amount n)).
Definition money_lt : money -> money -> result bool := money_cmp dltb.
Definition money_le : money -> money -> result bool := money_cmp dleb.
Definition money_gt : money -> money -> result bool := money_cmp (fun a b => dltb b a).
Definition money_ge : money -> money -> result bool := money_cmp (fun a b => dleb b a).

Definition is_zero (m : money) : bool := deqb (amount m) d0.
Definition is_positive (m : money) : bool := dltb d0 (amount m).
Definition is_negative (m : money) : bool := dltb (amount m) d0.

(** *** Well-formed money: what every constructor returns *)

Definition wf_money (m : money) : Prop :=
  (exists x, amount m = d4 x /\ fits x) /\ iso_4217 (currency m) = true.

Lemma post_init_ok a cur m : money_post_init a cur = Ok m <->
  exists raw, to_decimal a = Some raw /\ iso_4217 (py_upper (py_strip cur)) = true /\
    fits (scaled4 raw) /\ m = mkMoney (d4 (scaled4 raw)) (py_upper (py_strip cur)).
Proof.
  unfold money_post_init. destruct (to_decimal a) as [raw|] eqn:Ha; destruct a; simplify_eq/=;
    destruct (iso_4217 (py_upper (py_strip cur))) eqn:?; simpl; try naive_solver.
  all: rewrite rbind_ok; setoid_rewrite quantize4_ok; naive_solver.
Qed.

Lemma post_init_wf a cur m : money_post_init a cur = Ok m -> wf_money m.
Proof. intros (raw & ? & ? & ? & ->)%post_init_ok. split; simpl; eauto. Qed.

(** A valid code is left alone by [strip().upper()]. *)
Lemma upper_ascii_fixed c : is_upper c = true -> upper_ascii c = c /\ is_space c = false.
Proof. intros H. destruct c as [[] [] [] [] [] [] [] []]; vm_compute in H; vm_compute; split; congruence. Qed.

Lemma upper_all_fixed l : forallb is_upper l = true -> (upper_ascii <$> l) = l.
Proof.
  induction l as [|c l IH]; [done|]. rewrite fmap_cons. simpl.
  intros [H1 H2]%andb_true_iff. rewrite IH by done. f_equal. by apply upper_ascii_fixed.
Qed.

Lemma strip_all_fixed l : forallb is_upper l = true -> strip_chars l = l.
Proof.
  intros H. rewrite forallb_forall in H.
  assert (forall k, (forall c, In c k -> is_upper c = true) -> lstrip_chars k = k) as Hl.
  { intros [|c k] Hk; [done|]. simpl. destruct (upper_ascii_fixed c) as [_ ->]; [|done].
    apply Hk. by left. }
  unfold strip_chars. rewrite (Hl l) by done. rewrite Hl; [apply rev_involutive|].
  intros c Hc. apply H. by apply in_rev.
Qed.

Lemma iso_clean s : iso_4217 s = true -> py_upper (py_strip s) = s.
Proof.
  unfold iso_4217. intros [_ H]%andb_true_iff.
  unfold py_upper, py_strip. rewrite chars_of_chars, strip_all_fixed by done.
  rewrite upper_all_fixed by done. apply of_chars_chars.
Qed.

(** Constructing from an exact four-place amount. *)
Lemma post_init_exact d x cur : deq d (d4 x) -> fits x -> iso_4217 cur = true ->
  money_post_init (NDec d) cur = Ok (mkMoney (d4 x) cur).
Proof.
  intros Hd Hx Hc. apply post_init_ok. exists d. rewrite iso_clean by done.
  rewrite (scaled4_d4 d x) by done. done.
Qed.

(** Beyond 28 digits the sum no longer quantizes: the context rounds it to a
    coarser exponent and [quantize] refuses the missing digits. *)
Lemma quantize4_overflow z : ~ fits z -> quantize4 (dfix (d4 z)) = Raise PyInvalidOperation.
Proof.
  intros Hz. rewrite quantize4_spec.
  destruct (ndigits _ <=? prec) eqn:Hn; [exfalso; apply Hz|done].
  revert Hn. rewrite ndigits_prec. unfold dfix. simpl.
  destruct (ndigits z <=? prec) eqn:Hnz; [by apply ndigits_prec in Hnz|].
  apply Z.leb_gt in Hnz. unfold prec in *.
  set (k := ndigits z - 28) in *.
  assert (1 <= k) as Hk by lia.
  destruct (ndigits_spec z) as (_ & _ & [->|Hlo]); [vm_compute in Hnz; done|].
  assert (10 ^ 27 <= Z.abs (rhe z (10 ^ k))) as Hc.
  { assert (10 ^ (ndigits z - 1) = 10 ^ 27 * 10 ^ k) as E
      by (rewrite <-Z.pow_add_r by lia; f_equal; lia).
    pose proof (pow10_pos k ltac:(lia)).
    pose proof (rhe_mono (10 ^ 27 * 10 ^ k) (Z.abs z) (10 ^ k) ltac:(lia) ltac:(lia)) as Hm.
    rewrite rhe_exact in Hm by lia.
    destruct (Z.abs_eq_or_opp z) as [Ea|Ea]; rewrite Ea in Hm; [|rewrite rhe_opp in Hm]; lia. }
  set (c := rhe z (10 ^ k)) in *.
  assert (10 ^ 27 * 10 ^ k >= 10 ^ 28).
  { pose proof (Z.pow_le_mono_r 10 1 k ltac:(lia) ltac:(lia)) as Hp. change (10 ^ 1) with 10 in Hp. lia. }
  destruct (ndigits c <=? 28) eqn:Hcn; unfold scaled4; simpl.
  - destruct (Z.leb_spec (-4) (-4 + k)); [|lia]. replace (-4 + k + 4) with k by lia.
    rewrite Z.abs_mul, (Z.abs_eq (10 ^ k)) by (pose proof (pow10_pos k); lia).
    pose proof (pow10_pos k). nia.
  - apply Z.leb_gt in Hcn. destruct (Z.leb_spec (-4) (-4 + k + 1)); [|lia].
    replace (-4 + k + 1 + 4) with (k + 1) by lia.
    assert (10 ^ 28 <= Z.abs c) as Hc'.
    { destruct (Z.le_gt_cases (10 ^ 28) (Z.abs c)) as [|Hlt]; [done|].
      apply (ndigits_le c 28) in Hlt; lia. }
    assert (10 ^ 27 <= Z.abs (rhe c 10)) as Hc2.
    { pose proof (rhe_mono (10 ^ 27 * 10) (Z.abs c) 10 ltac:(lia) ltac:(lia)) as Hm.
      rewrite rhe_exact in Hm by lia.
      destruct (Z.abs_eq_or_opp c) as [Ea|Ea]; rewrite Ea in Hm; [|rewrite rhe_opp in Hm]; lia. }
    rewrite Z.abs_mul, (Z.abs_eq (10 ^ (k + 1))), Z.pow_add_r
      by (pose proof (pow10_pos (k + 1)); lia). change (10 ^ 1) with 10.
    pose proof (pow10_pos k). nia.
Qed.

(** ** Properties of [Money] *)

(** Every [Money] operation that returns gives a well-formed value: the
    amount is quantized to four places within the 28 digits of the context, the
    currency is a three-letter code, and the operators keep the currency of the
    receiver. *)
Theorem money_ops_wf (m : money) (Hm : wf_money m) :
  (forall a c r, money_post_init a c = Ok r -> wf_money r) /\
  (forall n r, money_add m n = Ok r \/ money_sub m n = Ok r -> wf_money r /\ currency r = currency m) /\
  (forall f r, money_mul m f = Ok r \/ money_truediv m f = Ok r -> wf_money r /\ currency r = currency m) /\
  (forall r, money_neg m = Ok r \/ money_abs m = Ok r -> wf_money r /\ currency r = currency m).
Proof.
  assert (forall a r, money_post_init a (currency m) = Ok r -> wf_money r /\ currency r = currency m) as Hk.
  { intros a r Hr. split; [by eapply post_init_wf|]. apply post_init_ok in Hr as (?&?&?&?&->).
    simpl. apply iso_clean, Hm. }
  split; [eauto using post_init_wf|].
  unfold money_add, money_sub, money_mul, money_truediv, money_neg, money_abs.
  split; [|split].
  - intros n r. destruct (bool_decide (currency m = currency n)); cbn [negb]; intros [Hr|Hr]; by eauto.
  - intros f r Hr. destruct f as [d|z|t| |]; [..|by destruct Hr|by destruct Hr].
    all: destruct (to_decimal _) as [d'|]; [|by destruct Hr].
    all: destruct Hr as [Hr|Hr]; [eauto|]; destruct (deqb d' (mkDec 0 0)); [done|].
    all: apply rbind_ok in Hr as (q & _ & Hr); apply rbind_ok in Hr as (q' & _ & Hr); eauto.
  - intros r [Hr|Hr]; eauto.
Qed.

Lemma money_ops_wf_witness :
  money_add (mkMoney (d4 15000) "USD") (mkMoney (d4 25000) "USD") = Ok (mkMoney (d4 40000) "USD") /\
  wf_money (mkMoney (d4 40000) "USD").
Proof.
  assert (H : wf_money (mkMoney (d4 15000) "USD")).
  { split; [exists 15000; split; [reflexivity|reflexivity]|reflexivity]. }
  assert (E : money_add (mkMoney (d4 15000) "USD") (mkMoney (d4 25000) "USD") = Ok (mkMoney (d4 40000) "USD"))
    by (vm_compute; reflexivity).
  split; [exact E|].
  destruct (money_ops_wf _ H) as (_ & Ha & _). exact (proj1 (Ha _ _ (or_introl E))).
Defined.

(** The sum (or difference) of two quantized amounts as [Money] builds it. *)
Lemma post_init_dfix z cur : iso_4217 cur = true ->
  money_post_init (NDec (dfix (d4 z))) cur =
  if bool_decide (fits z) then Ok (mkMoney (d4 z) cur) else Raise PyInvalidOperation.
Proof.
  intros Hc. case_bool_decide as Hz.
  - apply post_init_exact; [by apply dfix_d4|done..].
  - unfold money_post_init. rewrite iso_clean, Hc by done. simpl.
    by rewrite quantize4_overflow.
Qed.

(** Adding or subtracting two well-formed amounts of one currency is exact
    to the last place, or raises [InvalidOperation] when the result needs more
    than 28 digits: no rounding happens silently.  Two different currencies
    always raise [CurrencyMismatchException]. *)
Theorem money_add_sub_exact (x y : Z) (c c' : string)
  (Hx : fits x) (Hy : fits y) (Hc : iso_4217 c = true) :
  money_add (mkMoney (d4 x) c) (mkMoney (d4 y) c') =
    (if negb (bool_decide (c = c')) then Raise CurrencyMismatchException
     else if bool_decide (fits (x + y)) then Ok (mkMoney (d4 (x + y)) c) else Raise PyInvalidOperation) /\
  money_sub (mkMoney (d4 x) c) (mkMoney (d4 y) c') =
    (if negb (bool_decide (c = c')) then Raise CurrencyMismatchException
     else if bool_decide (fits (x - y)) then Ok (mkMoney (d4 (x - y)) c) else Raise PyInvalidOperation).
Proof.
  unfold money_add, money_sub, dadd, dsub. cbn [amount currency].
  case_bool_decide; cbn [negb]; [|done]. subst c'.
  change (dneg_exact (d4 y)) with (d4 (- y)). rewrite !dadd_exact_d4, Z.add_opp_r.
  by split; apply post_init_dfix.
Qed.

Lemma money_add_sub_exact_witness :
  money_add (mkMoney (d4 15000) "USD") (mkMoney (d4 5) "EUR") = Raise CurrencyMismatchException /\
  money_add (mkMoney (d4 15000) "USD") (mkMoney (d4 5) "USD") = Ok (mkMoney (d4 15005) "USD").
Proof.
  split.
  - destruct (money_add_sub_exact 15000 5 "USD" "EUR") as [H _]; [reflexivity..|].
    rewrite H. reflexivity.
  - destruct (money_add_sub_exact 15000 5 "USD" "USD") as [H _]; [reflexivity..|].
    rewrite H. reflexivity.
Defined.

(** The constructor rounds to four places by banker's rounding: the stored
    amount is within half of [0.0001] of the given one (at any common exponent
    [e]), an exact tie goes to the even last digit, and an amount that already
    has four places is stored unchanged. *)
Theorem money_bankers_rounding (d : decimal) (cur : string) (m : money)
  (Hm : money_post_init (NDec d) cur = Ok m) :
  exists x, amount m = d4 x /\
    (forall e, e <= dexp d -> e <= -5 ->
       2 * Z.abs (align (d4 x) e - align d e) <= 10 ^ (-4 - e) /\
       (2 * Z.abs (align (d4 x) e - align d e) = 10 ^ (-4 - e) -> Z.even x = true)) /\
    (has_4_places d = true -> deq (amount m) d).
Proof.
  apply post_init_ok in Hm as (raw & [= <-] & _ & _ & ->). simpl. exists (scaled4 d).
  split; [done|]. split; [|by intros ?; symmetry].
  intros e He1 He2. split; [by apply scaled4_error|]. by apply scaled4_tie_even.
Qed.

Lemma money_bankers_rounding_witness :
  exists x, amount (mkMoney (d4 10002) "USD") = d4 x /\
    2 * Z.abs (align (d4 x) (-5) - align (mkDec 100025 (-5)) (-5)) <= 10.
Proof.
  destruct (money_bankers_rounding (mkDec 100025 (-5)) " usd" (mkMoney (d4 10002) "USD")) as (x & Hx & He & _).
  - vm_compute; reflexivity.
  - exists x. split; [exact Hx|]. exact (proj1 (He (-5) ltac:(simpl; lia) ltac:(lia))).
Defined.

(** ** FX conversion: [app/services/fx_conversion_service.py] *)

Definition DEFAULT_SIMULATION_RATES : gmap string decimal :=
  list_to_map [
    ("USD_BDT", d4 1205000); ("BDT_USD", d4 83);
    ("USD_EUR", d4 9200);    ("EUR_USD", d4 10870);
    ("USD_GBP", d4 7850);    ("GBP_USD", d4 12739);
    ("EUR_BDT", d4 1309000); ("BDT_EUR", d4 76) ].

Record fx_service : Type := mkFx { rates : gmap string decimal }.

(** [FXConversionService.__init__]: an absent or empty table falls back. *)
Definition fx_init (reference_rates : option (gmap string decimal)) : fx_service :=
  match reference_rates with
  | Some r => mkFx (if bool_decide (r = ∅) then DEFAULT_SIMULATION_RATES else r)
  | None => mkFx DEFAULT_SIMULATION_RATES
  end.

(** [FXConversionService.convert] *)
Definition fx_convert (m : money) (target_currency : string) (exchange_rate : pynum)
  : result (money * decimal) :=
  match exchange_rate with
  | NFloat => Raise PyTypeError
  | _ =>
    match to_decimal exchange_rate with
    | None => Raise InvalidFXRateException
    | Some rate =>
        if dleb rate d0 then Raise InvalidFXRateException
        else
          let clean_target := py_upper (py_strip target_currency) in
          if negb (iso_4217 clean_target) then Raise PyValueError
          else if bool_decide (currency m = clean_target) then Ok (m, d4 10000)
          else
            let converted_raw := dmul (amount m) rate in
            let? converted_amount := quantize4 converted_raw in
            let? converted_money := money_post_init (NDec converted_amount) clean_target in
            Ok (converted_money, rate)
    end
  end.

Definition fx_get_supported_rates (f : fx_service) : gmap string decimal := rates f.

(** [FXConversionService.get_rate] *)
Definition fx_get_rate (f : fx_service) (source_currency target_currency : string) : option decimal :=
  let src := py_upper (py_strip source_currency) in
  let tgt := py_upper (py_strip target_currency) in
  if bool_decide (src = tgt) then Some (d4 10000)
  else rates f !! (src +:+ "_" +:+ tgt).

Lemma fx_convert_dec m tgt r :
  fx_convert m tgt (NDec r) =
  if dleb r d0 then Raise InvalidFXRateException
  else if negb (iso_4217 (py_upper (py_strip tgt))) then Raise PyValueError
  else if bool_decide (currency m = py_upper (py_strip tgt)) then Ok (m, d4 10000)
  else let? q := quantize4 (dmul (amount m) r) in
       let? c := money_post_init (NDec q) (py_upper (py_strip tgt)) in Ok (c, r).
Proof. done. Qed.

(** What a successful conversion returns, whatever the rate's representation. *)
Lemma fx_convert_ok m tgt r c rate :
  fx_convert m tgt (NDec r) = Ok (c, rate) ->
  dltb d0 r = true /\
  (currency m = py_upper (py_strip tgt) /\ c = m /\ rate = d4 10000 \/
   currency m <> py_upper (py_strip tgt) /\ rate = r /\
   currency c = py_upper (py_strip tgt) /\ iso_4217 (currency c) = true /\
   fits (scaled4 (dmul (amount m) r)) /\ amount c = d4 (scaled4 (dmul (amount m) r))).
Proof.
  rewrite fx_convert_dec. destruct (dleb r d0) eqn:Hr; [done|].
  assert (dltb d0 r = true) as Hpos.
  { rewrite (dleb_at _ _ (Z.min (dexp r) (dexp d0))) in Hr by lia.
    rewrite (dltb_at _ _ (Z.min (dexp r) (dexp d0))) by lia. apply Z.ltb_lt. lia. }
  intros H. split; [done|]. revert H.
  destruct (iso_4217 _) eqn:Hiso; cbn [negb]; [|done].
  case_bool_decide as Hcur; [intros [= <- <-]; by left|].
  intros (q & Hq & H)%rbind_ok. apply rbind_ok in H as (c' & Hc & [= <- <-]).
  apply quantize4_ok in Hq as [-> Hf].
  rewrite (post_init_exact _ (scaled4 (dmul (amount m) r))) in Hc by done.
  simplify_eq. right. done.
Qed.

(** A conversion to another currency at a positive rate [r = rc * 10^re]
    returns the exact product [x * r] rounded half-even to four places, in the
    target currency and with the rate applied, as long as the product has at
    most 28 digits; the result differs from the exact product by at most half
    of the last place.  A conversion within one currency returns the money
    unchanged at rate 1. *)
Theorem fx_convert_rounds_exact_product (x rc re : Z) (cur tgt : string)
  (Hcur : iso_4217 cur = true) (Htgt : iso_4217 tgt = true)
  (Hpos : 0 < rc) (Hre : -20 <= re <= 0) (Hfit : Z.abs (x * rc) < 10 ^ 28) :
  fx_convert (mkMoney (d4 x) cur) tgt (NDec (mkDec rc re)) =
    (if bool_decide (cur = tgt) then Ok (mkMoney (d4 x) cur, d4 10000)
     else Ok (mkMoney (d4 (rhe (x * rc) (10 ^ (- re)))) tgt, mkDec rc re)) /\
  2 * Z.abs (rhe (x * rc) (10 ^ (- re)) * 10 ^ (- re) - x * rc) <= 10 ^ (- re).
Proof.
  split; [|apply rhe_error, pow10_pos; lia].
  rewrite fx_convert_dec, iso_clean, Htgt by done. cbn [negb currency amount].
  assert (dleb (mkDec rc re) d0 = false) as ->.
  { rewrite (dleb_at _ _ (Z.min re (-4))) by (simpl; lia). unfold align. simpl.
    pose proof (pow10_pos (re - Z.min re (-4)) ltac:(lia)). apply Z.leb_gt. nia. }
  case_bool_decide; [done|].
  assert (dmul (d4 x) (mkDec rc re) = mkDec (x * rc) (-4 + re)) as ->.
  { unfold dmul, dfix. cbn [coef dexp d4]. by rewrite (proj2 (ndigits_prec _) Hfit). }
  assert (scaled4 (mkDec (x * rc) (-4 + re)) = rhe (x * rc) (10 ^ (- re))) as Es.
  { unfold scaled4. cbn [coef dexp]. destruct (Z.leb_spec (-4) (-4 + re)).
    - assert (re = 0) as -> by lia. change (10 ^ (-4 + 0 + 4)) with 1. change (10 ^ (- 0)) with 1.
      by rewrite rhe_1, Z.mul_1_r.
    - do 2 f_equal. lia. }
  assert (fits (rhe (x * rc) (10 ^ (- re)))) as Hf.
  { unfold fits. pose proof (rhe_error (x * rc) (10 ^ (- re)) (pow10_pos (- re) ltac:(lia))).
    pose proof (pow10_pos (- re) ltac:(lia)).
    destruct (decide (re = 0)) as [->|Hre0]; [change (10 ^ (- 0)) with 1 in *; by rewrite rhe_1|].
    assert (10 <= 10 ^ (- re)) as H10.
    { change 10 with (10 ^ 1) at 1. apply Z.pow_le_mono_r; lia. }
    set (B := 10 ^ 28) in *. assert (10 <= B) by (unfold B; lia). nia. }
  rewrite quantize4_spec, Es, (proj2 (ndigits_prec _) Hf). cbn [rbind].
  by rewrite (post_init_exact _ (rhe (x * rc) (10 ^ (- re)))).
Qed.

Lemma fx_convert_rounds_exact_product_witness :
  fx_convert (mkMoney (d4 1000000) "USD") "BDT" (NDec (d4 1205000)) =
  Ok (mkMoney (d4 120500000) "BDT", d4 1205000).
Proof.
  destruct (fx_convert_rounds_exact_product 1000000 1205000 (-4) "USD" "BDT") as [H _];
    [reflexivity|reflexivity|lia|lia|reflexivity|].
  exact (eq_trans H eq_refl).
Defined.
