(* ===== verification/Ledger.v ===== *)
(** The double-entry ledger's data and its repository.

    Data: the enums and DTOs of [app/schemas/ledger.py] and the entities of
    [app/repositories/ledger_repository.py].  [LedgerRepo] is the contract of
    [LedgerRepositoryProtocol]: the operations the services call and the laws
    they rely on; [InMemoryLedgerRepository] is an instance.  The services
    (LedgerDomain, LedgerTransfer, Reconciliation) are proved against the class.

    Identifiers drawn from [generate_uuidv7()] and instants drawn from
    [datetime.now(UTC)] are arguments: a UUID is its 128-bit integer, an instant
    an integer number of microseconds. *)

From S2P Require Import Prelude PyDecimal.

Local Open Scope Z_scope.

(** ** Schemas *)

Inductive AccountType : Type := ASSET | LIABILITY | EQUITY | REVENUE | EXPENSE.
Inductive PostingDirection : Type := DEBIT | CREDIT.

#[global] Instance AccountType_eq_dec : EqDecision AccountType.
Proof. solve_decision. Defined.
#[global] Instance PostingDirection_eq_dec : EqDecision PostingDirection.
Proof. solve_decision. Defined.

(** [account_type in (AccountType.ASSET, AccountType.EXPENSE)] *)
Definition debit_normal (t : AccountType) : bool :=
  match t with ASSET | EXPENSE => true | _ => false end.

Record PostingCreateDTO : Type := mkPosting {
  p_account_id : Z;
  p_amount : decimal;
  p_direction : PostingDirection
}.

(** Construction of a [PostingCreateDTO]: pydantic checks [gt=0] and
    [decimal_places=4]. *)
Definition posting_dto (account_id : Z) (amount : decimal) (direction : PostingDirection)
  : result PostingCreateDTO :=
  if dltb d0 amount && has_4_places amount
  then Ok (mkPosting account_id amount direction)
  else Raise PydanticValidationError.

Record LedgerAccountEntity : Type := mkAccount {
  acc_id : Z;
  account_number : string;
  acc_name : string;
  account_type : AccountType;
  acc_currency : string;
  is_active : bool;
  acc_created_at : Z
}.

Record JournalPostingEntity : Type := mkPostingEntity {
  jp_id : Z;
  jp_journal_entry_id : Z;
  jp_account_id : Z;
  jp_amount : decimal;
  jp_direction : PostingDirection;
  jp_created_at : Z
}.

Record JournalEntryEntity : Type := mkEntry {
  je_id : Z;
  je_reference_id : string;
  je_description : string;
  je_posted_at : Z;
  je_postings : list JournalPostingEntity;
  je_is_flagged : bool
}.

#[global] Instance LedgerAccountEntity_eq_dec : EqDecision LedgerAccountEntity.
Proof. solve_decision. Defined.
#[global] Instance JournalPostingEntity_eq_dec : EqDecision JournalPostingEntity.
Proof. solve_decision. Defined.
#[global] Instance JournalEntryEntity_eq_dec : EqDecision JournalEntryEntity.
Proof. solve_decision. Defined.

(** ** Totals of posting legs *)

(** [sum((p.amount for p in postings if p.direction == dir), Decimal("0.0000"))] *)
Definition dto_total (dir : PostingDirection) (ps : list PostingCreateDTO) : decimal :=
  dsum (p_amount <$> filter (fun p => p_direction p = dir) ps) d0.

(** The accumulation of debits and credits of one account over stored legs. *)
Definition posting_total (dir : PostingDirection) (a : Z) (ps : list JournalPostingEntity) : decimal :=
  dsum (jp_amount <$> filter (fun p => jp_direction p = dir) (filter (fun p => jp_account_id p = a) ps)) d0.

(** Exact integer totals, in units of 0.0001. *)
Definition units (dir : PostingDirection) (ps : list PostingCreateDTO) : Z :=
  Zsum ((fun p => scaled4 (p_amount p)) <$> filter (fun p => p_direction p = dir) ps).
Definition acct_units (dir : PostingDirection) (a : Z) (ps : list JournalPostingEntity) : Z :=
  Zsum ((fun p => scaled4 (jp_amount p)) <$>
        filter (fun p => jp_direction p = dir) (filter (fun p => jp_account_id p = a) ps)).
Definition all_units (dir : PostingDirection) (ps : list JournalPostingEntity) : Z :=
  Zsum ((fun p => scaled4 (jp_amount p)) <$> filter (fun p => jp_direction p = dir) ps).

(** The trial balance of the whole ledger. *)
Definition trial_balance (ps : list JournalPostingEntity) : Z :=
  all_units DEBIT ps - all_units CREDIT ps.

(** A leg that passed the DTO validation. *)
Definition valid_amount (d : decimal) : Prop := dltb d0 d = true /\ has_4_places d = true.
Definition valid_dto (p : PostingCreateDTO) : Prop := valid_amount (p_amount p).
Definition valid_posting (p : JournalPostingEntity) : Prop := valid_amount (jp_amount p).

Lemma posting_dto_ok a d dir p :
  posting_dto a d dir = Ok p <-> p = mkPosting a d dir /\ valid_amount d.
Proof.
  unfold posting_dto, valid_amount. destruct (dltb d0 d), (has_4_places d); naive_solver.
Qed.

Lemma valid_amount_d4 d : valid_amount d -> deq d (d4 (scaled4 d)) /\ 0 < scaled4 d.
Proof. intros [H1 H2]. split; [done|]. rewrite scaled4_pos in H1 by done. by apply Z.ltb_lt. Qed.

Lemma valid_amount_of_d4 d x : deq d (d4 x) -> 0 < x -> valid_amount d.
Proof.
  intros Hd Hx. split; [|by apply has_4_places_d4; exists x].
  rewrite Hd. unfold d0. rewrite d4_ltb. by apply Z.ltb_lt.
Qed.

Lemma dsum_valid l :
  Forall valid_amount l -> fits (Zsum (scaled4 <$> l)) -> deq (dsum l d0) (d4 (Zsum (scaled4 <$> l))).
Proof.
  intros Hv Hf. change (Zsum (scaled4 <$> l)) with (0 + Zsum (scaled4 <$> l)).
  apply dsum_d4; [| |done|done|done].
  - clear Hf. induction Hv; simpl; constructor; [by apply valid_amount_d4|done].
  - clear Hf. induction Hv; simpl; constructor; [|done]. pose proof (valid_amount_d4 x). intuition lia.
Qed.

Lemma Zsum_scaled_nonneg l : Forall valid_amount l -> 0 <= Zsum (scaled4 <$> l).
Proof.
  induction 1 as [|d l Hd _ IH]; [done|]. rewrite fmap_cons.
  pose proof (valid_amount_d4 d Hd). unfold Zsum in *. cbn [foldr]. lia.
Qed.

Lemma dto_total_units dir ps :
  Forall valid_dto ps -> fits (units dir ps) -> deq (dto_total dir ps) (d4 (units dir ps)).
Proof.
  intros Hv. unfold units, dto_total.
  rewrite (list_fmap_compose p_amount scaled4). apply dsum_valid.
  apply Forall_fmap. eapply Forall_impl; [by apply Forall_filter|]. done.
Qed.

Lemma posting_total_units dir a ps :
  Forall valid_posting ps -> fits (acct_units dir a ps) ->
  deq (posting_total dir a ps) (d4 (acct_units dir a ps)).
Proof.
  intros Hv. unfold acct_units, posting_total.
  rewrite (list_fmap_compose jp_amount scaled4). apply dsum_valid.
  apply Forall_fmap. eapply Forall_impl; [by apply Forall_filter, Forall_filter|]. done.
Qed.

(** What one leg adds to a side, and the totals leg by leg. *)
Definition side (dir : PostingDirection) (p : PostingCreateDTO) : Z :=
  match p_direction p, dir with DEBIT, DEBIT | CREDIT, CREDIT => scaled4 (p_amount p) | _, _ => 0 end.

Lemma units_cons dir p ps : units dir (p :: ps) = side dir p + units dir ps.
Proof. unfold units, side. rewrite filter_cons. by destruct (p_direction p), dir. Qed.

Lemma units_nil dir : units dir [] = 0.
Proof. done. Qed.

Lemma units_acct_cons dir a p ps :
  units dir (filter (fun p => p_account_id p = a) (p :: ps)) =
  (if decide (p_account_id p = a) then side dir p else 0) + units dir (filter (fun p => p_account_id p = a) ps).
Proof. rewrite filter_cons. case_decide; [apply units_cons|done]. Qed.

Lemma acct_units_app dir a l1 l2 :
  acct_units dir a (l1 ++ l2) = acct_units dir a l1 + acct_units dir a l2.
Proof. unfold acct_units. by rewrite !filter_app, fmap_app, Zsum_app. Qed.

Lemma all_units_app dir l1 l2 : all_units dir (l1 ++ l2) = all_units dir l1 + all_units dir l2.
Proof. unfold all_units. by rewrite filter_app, fmap_app, Zsum_app. Qed.

Lemma trial_balance_app l1 l2 : trial_balance (l1 ++ l2) = trial_balance l1 + trial_balance l2.
Proof. unfold trial_balance. rewrite !all_units_app. lia. Qed.

Lemma acct_units_nonneg dir a ps : Forall valid_posting ps -> 0 <= acct_units dir a ps.
Proof.
  intros Hv. unfold acct_units. rewrite (list_fmap_compose jp_amount scaled4).
  apply Zsum_scaled_nonneg, Forall_fmap.
  eapply Forall_impl; [by apply Forall_filter, Forall_filter|]. done.
Qed.

(** ** Materialization of posting legs

    The loop of [create_journal_entry]: leg [i] gets the [i]-th generated id. *)
Definition materialize (entry_uuid now : Z) (posting_ids : nat -> Z) (ps : list PostingCreateDTO)
  : list JournalPostingEntity :=
  imap (fun i p => mkPostingEntity (posting_ids i) entry_uuid (p_account_id p) (p_amount p) (p_direction p) now) ps.

Lemma materialize_filter dir u now ids ps :
  jp_amount <$> filter (fun p => jp_direction p = dir) (materialize u now ids ps) =
  p_amount <$> filter (fun p => p_direction p = dir) ps.
Proof.
  unfold materialize. revert ids. induction ps as [|p ps IH]; intros ids; [done|].
  rewrite imap_cons. rewrite !filter_cons. cbn [jp_direction].
  destruct (decide (p_direction p = dir)); rewrite ?fmap_cons.
  - cbn [jp_amount]. f_equal. apply (IH (fun i => ids (S i))).
  - apply (IH (fun i => ids (S i))).
Qed.

Lemma materialize_units dir u now ids ps :
  all_units dir (materialize u now ids ps) = units dir ps.
Proof.
  unfold all_units, units.
  rewrite (list_fmap_compose jp_amount scaled4), materialize_filter.
  by rewrite <-(list_fmap_compose p_amount scaled4).
Qed.

Lemma materialize_valid u now ids ps : Forall valid_dto ps -> Forall valid_posting (materialize u now ids ps).
Proof.
  unfold materialize. intros Hv. revert ids.
  induction Hv as [|p ps Hp _ IH]; intros ids; [constructor|].
  rewrite imap_cons. constructor; [done|]. apply (IH (fun i => ids (S i))).
Qed.

Lemma materialize_acct_units dir a u now ids ps :
  acct_units dir a (materialize u now ids ps) = units dir (filter (fun p => p_account_id p = a) ps).
Proof.
  unfold materialize, acct_units, units. revert ids.
  induction ps as [|p ps IH]; intros ids; [done|].
  rewrite imap_cons, (filter_cons _ _ ps), (filter_cons _ (mkPostingEntity _ _ _ _ _ _)). cbn [jp_account_id].
  destruct (decide (p_account_id p = a)); [|apply (IH (fun i => ids (S i)))].
  rewrite !filter_cons. cbn [jp_direction].
  destruct (decide (p_direction p = dir)); rewrite ?fmap_cons; [|apply (IH (fun i => ids (S i)))].
  cbn [jp_amount]. unfold Zsum. cbn [foldr]. f_equal. apply (IH (fun i => ids (S i))).
Qed.

(** ** The repository contract: [LedgerRepositoryProtocol]

    [all_postings] and [knows_id] are the specification's view of a repository:
    the append-only log of legs and the identifiers already used as a primary
    key.  The laws on creation assume the generated id is new, which is what
    [generate_uuidv7()] is for. *)

Class LedgerRepo (R : Type) : Type := {
  get_account_by_id : R -> Z -> option LedgerAccountEntity;
  get_account_by_number : R -> string -> option LedgerAccountEntity;
  get_journal_entry_by_reference : R -> string -> option JournalEntryEntity;
  get_journal_entry_by_id : R -> Z -> option JournalEntryEntity;
  get_journal_entries_by_references : R -> list string -> list JournalEntryEntity;
  get_postings_by_account_id : R -> Z -> list JournalPostingEntity;
  get_account_balance_aggregates : R -> Z -> decimal * decimal;
  create_account : Z -> Z -> string -> string -> AccountType -> string -> R -> LedgerAccountEntity * R;
  create_journal_entry : Z -> Z -> (nat -> Z) -> string -> string -> list PostingCreateDTO -> bool ->
    R -> JournalEntryEntity * R;

  all_postings : R -> list JournalPostingEntity;
  knows_id : R -> Z -> bool;

  law_aggregates r a :
    get_account_balance_aggregates r a =
    (posting_total DEBIT a (all_postings r), posting_total CREDIT a (all_postings r));
  law_references r refs :
    get_journal_entries_by_references r refs = omap (get_journal_entry_by_reference r) refs;

  law_create_account u now num name ty cur r :
    let '(acc, r') := create_account u now num name ty cur r in
    acc = mkAccount u num name ty (py_upper cur) true now /\
    all_postings r' = all_postings r /\
    get_account_by_id r' u = Some acc /\
    (forall u', u' <> u -> get_account_by_id r' u' = get_account_by_id r u') /\
    get_account_by_number r' num = Some acc /\
    (knows_id r u = false ->
      (forall num', num' <> num -> get_account_by_number r' num' = get_account_by_number r num') /\
      (forall u', knows_id r' u' = true -> u' = u \/ knows_id r u' = true)) /\
    (forall ref, get_journal_entry_by_reference r' ref = get_journal_entry_by_reference r ref);

  law_create_journal_entry u now ids ref desc ps flagged r :
    let '(e, r') := create_journal_entry u now ids ref desc ps flagged r in
    e = mkEntry u ref desc now (materialize u now ids ps) flagged /\
    all_postings r' = all_postings r ++ materialize u now ids ps /\
    (forall a, get_account_by_id r' a = get_account_by_id r a) /\
    (forall num, get_account_by_number r' num = get_account_by_number r num) /\
    get_journal_entry_by_reference r' ref = Some e /\
    get_journal_entry_by_id r' u = Some e /\
    (knows_id r u = false ->
      (forall ref', ref' <> ref -> get_journal_entry_by_reference r' ref' = get_journal_entry_by_reference r ref') /\
      (forall u', u' <> u -> get_journal_entry_by_id r' u' = get_journal_entry_by_id r u') /\
      (forall u', knows_id r' u' = true -> u' = u \/ knows_id r u' = true))
}.

(** ** [InMemoryLedgerRepository] *)

Record ledger_repo : Type := mkLedgerRepo {
  accounts : gmap Z LedgerAccountEntity;
  accounts_by_number : gmap string Z;
  entries : gmap Z JournalEntryEntity;
  entries_by_ref : gmap string Z;
  postings : list JournalPostingEntity
}.

Definition mem_empty : ledger_repo := mkLedgerRepo ∅ ∅ ∅ ∅ [].

Definition mem_create_account (account_uuid now : Z) (num name : string) (ty : AccountType) (cur : string)
  (r : ledger_repo) : LedgerAccountEntity * ledger_repo :=
  let entity := mkAccount account_uuid num name ty (py_upper cur) true now in
  (entity,
   mkLedgerRepo (<[account_uuid := entity]> (accounts r)) (<[num := account_uuid]> (accounts_by_number r))
     (entries r) (entries_by_ref r) (postings r)).

Definition mem_get_account_by_id (r : ledger_repo) (a : Z) : option LedgerAccountEntity := accounts r !! a.

Definition mem_get_account_by_number (r : ledger_repo) (num : string) : option LedgerAccountEntity :=
  match accounts_by_number r !! num with
  | Some a => accounts r !! a
  | None => None
  end.

Definition mem_get_journal_entry_by_reference (r : ledger_repo) (ref : string) : option JournalEntryEntity :=
  match entries_by_ref r !! ref with
  | Some e => entries r !! e
  | None => None
  end.

Fixpoint mem_get_journal_entries_by_references (r : ledger_repo) (refs : list string) : list JournalEntryEntity :=
  match refs with
  | [] => []
  | ref :: refs' =>
      match entries_by_ref r !! ref with
      | Some e =>
          match entries r !! e with
          | Some entry => entry :: mem_get_journal_entries_by_references r refs'
          | None => mem_get_journal_entries_by_references r refs'
          end
      | None => mem_get_journal_entries_by_references r refs'
      end
  end.

Definition mem_get_journal_entry_by_id (r : ledger_repo) (e : Z) : option JournalEntryEntity := entries r !! e.

Definition mem_create_journal_entry (entry_uuid now : Z) (posting_ids : nat -> Z) (ref desc : string)
  (ps : list PostingCreateDTO) (is_flagged : bool) (r : ledger_repo) : JournalEntryEntity * ledger_repo :=
  let posting_entities := materialize entry_uuid now posting_ids ps in
  let entry_entity := mkEntry entry_uuid ref desc now posting_entities is_flagged in
  (entry_entity,
   mkLedgerRepo (accounts r) (accounts_by_number r)
     (<[entry_uuid := entry_entity]> (entries r)) (<[ref := entry_uuid]> (entries_by_ref r))
     (postings r ++ posting_entities)).

Definition mem_get_postings_by_account_id (r : ledger_repo) (a : Z) : list JournalPostingEntity :=
  filter (fun p => jp_account_id p = a) (postings r).

(** One iteration of the loop of [get_account_balance_aggregates]. *)
Definition aggregate_step (a : Z) (acc : decimal * decimal) (p : JournalPostingEntity) : decimal * decimal :=
  let '(total_debits, total_credits) := acc in
  if bool_decide (jp_account_id p = a) then
    match jp_direction p with
    | DEBIT => (dadd total_debits (jp_amount p), total_credits)
    | CREDIT => (total_debits, dadd total_credits (jp_amount p))
    end
  else acc.

Definition mem_get_account_balance_aggregates (r : ledger_repo) (a : Z) : decimal * decimal :=
  foldl (aggregate_step a) (d0, d0) (postings r).

Definition mem_knows_id (r : ledger_repo) (u : Z) : bool :=
  bool_decide (is_Some (accounts r !! u)) || bool_decide (is_Some (entries r !! u))
  || existsb (fun kv => bool_decide (snd kv = u)) (map_to_list (accounts_by_number r))
  || existsb (fun kv => bool_decide (snd kv = u)) (map_to_list (entries_by_ref r)).

Lemma aggregates_split a ps dd cc :
  foldl (aggregate_step a) (dd, cc) ps =
  (dsum (jp_amount <$> filter (fun p => jp_direction p = DEBIT) (filter (fun p => jp_account_id p = a) ps)) dd,
   dsum (jp_amount <$> filter (fun p => jp_direction p = CREDIT) (filter (fun p => jp_account_id p = a) ps)) cc).
Proof.
  revert dd cc. induction ps as [|p ps IH]; intros dd cc; [done|].
  rewrite (filter_cons _ _ ps). cbn [foldl]. unfold aggregate_step at 2.
  rewrite bool_decide_decide. destruct (decide (jp_account_id p = a)); [|apply IH].
  rewrite !filter_cons. destruct (jp_direction p); simpl; by rewrite IH.
Qed.

Lemma knows_id_index {V} (f : gmap string Z) (u : Z) (r : gmap Z V) :
  existsb (fun kv => bool_decide (snd kv = u)) (map_to_list f) = true <-> exists k, f !! k = Some u.
Proof.
  rewrite existsb_exists. split.
  - intros ([k v] & Hin & Hb). apply bool_decide_eq_true in Hb. simpl in Hb. subst v.
    exists k. by apply elem_of_map_to_list, list_elem_of_In.
  - intros [k Hk]. exists (k, u). split; [|by apply bool_decide_eq_true].
    by apply list_elem_of_In, elem_of_map_to_list.
Qed.

Lemma mem_knows_id_spec r u : mem_knows_id r u = true <->
  is_Some (accounts r !! u) \/ is_Some (entries r !! u) \/
  (exists k, accounts_by_number r !! k = Some u) \/ (exists k, entries_by_ref r !! k = Some u).
Proof.
  unfold mem_knows_id. rewrite !orb_true_iff, !bool_decide_eq_true.
  rewrite !(knows_id_index _ _ (accounts r)). tauto.
Qed.

Lemma mem_knows_id_false r u : mem_knows_id r u = false ->
  accounts r !! u = None /\ entries r !! u = None /\
  (forall k, accounts_by_number r !! k <> Some u) /\ (forall k, entries_by_ref r !! k <> Some u).
Proof.
  intros H. assert (~ mem_knows_id r u = true) as Hn by congruence.
  rewrite mem_knows_id_spec in Hn. rewrite !eq_None_not_Some. naive_solver.
Qed.

(** The in-memory repository keeps its indexes pointing at stored entities, and
    an account number or reference always names the entity filed under it. *)
Record mem_wf (r : ledger_repo) : Prop := {
  wf_acc_key u acc : accounts r !! u = Some acc -> acc_id acc = u;
  wf_num num u : accounts_by_number r !! num = Some u ->
    exists acc, accounts r !! u = Some acc /\ account_number acc = num;
  wf_entry_key u e : entries r !! u = Some e -> je_id e = u /\ entries_by_ref r !! je_reference_id e = Some u;
  wf_ref ref u : entries_by_ref r !! ref = Some u ->
    exists e, entries r !! u = Some e /\ je_reference_id e = ref;
  wf_log p : p ∈ postings r <-> exists u e, entries r !! u = Some e /\ p ∈ je_postings e
}.

Lemma mem_wf_empty : mem_wf mem_empty.
Proof. split; simpl; intros; simplify_map_eq; set_solver. Qed.

Lemma mem_wf_create_account u now num name ty cur r :
  mem_wf r -> mem_knows_id r u = false -> accounts_by_number r !! num = None ->
  mem_wf (mem_create_account u now num name ty cur r).2.
Proof.
  intros [W1 W2 W3 W4 W5] (Ha & _ & Hn & _)%mem_knows_id_false Hnum.
  split; simpl; try done.
  - intros u' acc. rewrite lookup_insert. case_decide; naive_solver.
  - intros num' u'. rewrite lookup_insert. case_decide as E.
    + intros [= <-]. rewrite lookup_insert_eq. naive_solver.
    + intros H. destruct (W2 _ _ H) as (acc & H1 & H2).
      exists acc. rewrite lookup_insert_ne by (intros <-; by eapply Hn). done.
Qed.

Lemma mem_wf_create_journal_entry u now ids ref desc ps fl r :
  mem_wf r -> mem_knows_id r u = false -> entries_by_ref r !! ref = None ->
  mem_wf (mem_create_journal_entry u now ids ref desc ps fl r).2.
Proof.
  intros [W1 W2 W3 W4 W5] (_ & He & _ & Hr)%mem_knows_id_false Href.
  split; simpl; try done.
  - intros u' e. rewrite lookup_insert. case_decide as E.
    + subst u'. intros [= <-]. simpl. by rewrite lookup_insert_eq.
    + intros H. destruct (W3 _ _ H) as [H1 H2]. split; [done|].
      rewrite lookup_insert_ne; [done|]. intros Heq. rewrite <-Heq in H2. congruence.
  - intros ref' u'. rewrite lookup_insert. case_decide as E.
    + intros [= <-]. rewrite lookup_insert_eq. naive_solver.
    + intros H. destruct (W4 _ _ H) as (e & H1 & H2).
      exists e. rewrite lookup_insert_ne by (intros <-; by eapply Hr). done.
  - intros p. rewrite elem_of_app, W5. split.
    + intros [(u' & e & H1 & H2)|H].
      * exists u', e. rewrite lookup_insert_ne by (intros ->; congruence). done.
      * eexists u, _. by rewrite lookup_insert_eq.
    + intros (u' & e & H & Hp). rewrite lookup_insert in H. case_decide; naive_solver.
Qed.

Lemma mem_law_create_account u now num name ty cur r :
  let '(acc, r') := mem_create_account u now num name ty cur r in
  acc = mkAccount u num name ty (py_upper cur) true now /\
  postings r' = postings r /\
  mem_get_account_by_id r' u = Some acc /\
  (forall u', u' <> u -> mem_get_account_by_id r' u' = mem_get_account_by_id r u') /\
  mem_get_account_by_number r' num = Some acc /\
  (mem_knows_id r u = false ->
    (forall num', num' <> num -> mem_get_account_by_number r' num' = mem_get_account_by_number r num') /\
    (forall u', mem_knows_id r' u' = true -> u' = u \/ mem_knows_id r u' = true)) /\
  (forall ref, mem_get_journal_entry_by_reference r' ref = mem_get_journal_entry_by_reference r ref).
Proof.
  simpl. unfold mem_get_account_by_id, mem_get_account_by_number. simpl.
  split; [done|]. split; [done|]. split; [by rewrite lookup_insert_eq|].
  split; [intros; by rewrite lookup_insert_ne|].
  split; [by rewrite !lookup_insert_eq|]. split; [|done].
  intros Hk. split.
  - intros num' Hne. rewrite lookup_insert_ne by done.
    destruct (accounts_by_number r !! num') as [u'|] eqn:E; [|done].
    rewrite lookup_insert_ne; [done|]. intros <-.
    by destruct (mem_knows_id_false _ _ Hk) as (_ & _ & Hn & _); eapply Hn.
  - intros u'. rewrite !mem_knows_id_spec. simpl. rewrite lookup_insert.
    intros [H|[H|[[k H]|H]]]; [case_decide; naive_solver|naive_solver| |naive_solver].
    rewrite lookup_insert in H. case_decide; naive_solver.
Qed.

Lemma mem_law_create_journal_entry u now ids ref desc ps flagged r :
  let '(e, r') := mem_create_journal_entry u now ids ref desc ps flagged r in
  e = mkEntry u ref desc now (materialize u now ids ps) flagged /\
  postings r' = postings r ++ materialize u now ids ps /\
  (forall a, mem_get_account_by_id r' a = mem_get_account_by_id r a) /\
  (forall num, mem_get_account_by_number r' num = mem_get_account_by_number r num) /\
  mem_get_journal_entry_by_reference r' ref = Some e /\
  mem_get_journal_entry_by_id r' u = Some e /\
  (mem_knows_id r u = false ->
    (forall ref', ref' <> ref ->
       mem_get_journal_entry_by_reference r' ref' = mem_get_journal_entry_by_reference r ref') /\
    (forall u', u' <> u -> mem_get_journal_entry_by_id r' u' = mem_get_journal_entry_by_id r u') /\
    (forall u', mem_knows_id r' u' = true -> u' = u \/ mem_knows_id r u' = true)).
Proof.
  simpl. unfold mem_get_journal_entry_by_reference, mem_get_journal_entry_by_id. simpl.
  do 4 (split; [done|]). split; [by rewrite !lookup_insert_eq|]. split; [by rewrite lookup_insert_eq|].
  intros Hk. split; [|split].
  - intros ref' Hne. rewrite lookup_insert_ne by done.
    destruct (entries_by_ref r !! ref') as [u'|] eqn:E; [|done].
    rewrite lookup_insert_ne; [done|]. intros <-.
    by destruct (mem_knows_id_false _ _ Hk) as (_ & _ & _ & Hn); eapply Hn.
  - intros u' Hne. by rewrite lookup_insert_ne.
  - intros u'. rewrite !mem_knows_id_spec. simpl. rewrite lookup_insert.
    intros [H|[H|[H|[k H]]]]; [naive_solver|case_decide; naive_solver|naive_solver|].
    rewrite lookup_insert in H. case_decide; naive_solver.
Qed.

Lemma mem_law_references r refs :
  mem_get_journal_entries_by_references r refs = omap (mem_get_journal_entry_by_reference r) refs.
Proof.
  induction refs as [|ref refs IH]; [done|]. simpl. unfold mem_get_journal_entry_by_reference at 1.
  destruct (entries_by_ref r !! ref) as [u|]; [|done]. by destruct (entries r !! u); rewrite IH.
Qed.

#[global] Instance InMemoryLedgerRepository : LedgerRepo ledger_repo := {|
  get_account_by_id := mem_get_account_by_id;
  get_account_by_number := mem_get_account_by_number;
  get_journal_entry_by_reference := mem_get_journal_entry_by_reference;
  get_journal_entry_by_id := mem_get_journal_entry_by_id;
  get_journal_entries_by_references := mem_get_journal_entries_by_references;
  get_postings_by_account_id := mem_get_postings_by_account_id;
  get_account_balance_aggregates := mem_get_account_balance_aggregates;
  create_account := mem_create_account;
  create_journal_entry := mem_create_journal_entry;
  all_postings := postings;
  knows_id := mem_knows_id;
  law_aggregates r a := aggregates_split a (postings r) d0 d0;
  law_references := mem_law_references;
  law_create_account := mem_law_create_account;
  law_create_journal_entry := mem_law_create_journal_entry
|}.

(** The in-memory ledger repository keeps its five structures consistent
    under both of its mutations (with a new id and an unused number or
    reference): every index entry leads to the entity filed under it, every
    entry is found under its own reference, and the posting log holds exactly
    the legs of the stored entries. *)
Theorem mem_repo_invariant (r : ledger_repo) (u now : Z) (Hwf : mem_wf r) (Hid : mem_knows_id r u = false) :
  (forall num name ty cur, accounts_by_number r !! num = None ->
     mem_wf (mem_create_account u now num name ty cur r).2) /\
  (forall ids ref desc ps fl, entries_by_ref r !! ref = None ->
     mem_wf (mem_create_journal_entry u now ids ref desc ps fl r).2).
Proof. split; intros; [by apply mem_wf_create_account|by apply mem_wf_create_journal_entry]. Qed.

Lemma mem_repo_invariant_witness :
  mem_wf (mem_create_account 7 0 "ACC-1" "Cash" ASSET "usd" mem_empty).2.
Proof.
  apply (mem_repo_invariant mem_empty 7 0); [exact mem_wf_empty|reflexivity|reflexivity].
Defined.
