(* ===== verification/LedgerDomain.v ===== *)
(** [LedgerDomainService] of [app/services/ledger_domain_service.py], over any
    repository that satisfies the [LedgerRepo] contract.

    The service's store is the repository and the position in the stream of
    generated ids and clock readings ([uuid_at], [now_at] stand for what
    [generate_uuidv7()] and [datetime.now(UTC)] return, call by call).  The
    theorems give the behaviour of [record_journal_entry] on every branch, the
    preservation of the trial balance over any run of the service, and the
    balance formula of [get_account_balance]. *)

From S2P Require Import Prelude PyDecimal Ledger.

Local Open Scope Z_scope.
Local Open Scope py_scope.

(** ** DTOs *)

Record LedgerAccountCreate : Type := mkAccountCreate {
  lac_number : string; lac_name : string; lac_type : AccountType; lac_currency : string }.

(** The length constraints declared on [LedgerAccountCreate]. *)
Definition account_create_valid (d : LedgerAccountCreate) : bool :=
  ((1 <=? String.length (lac_number d)) && (String.length (lac_number d) <=? 64)
   && (1 <=? String.length (lac_name d)) && (String.length (lac_name d) <=? 128)
   && (String.length (lac_currency d) =? 3))%nat.

Record JournalEntryCreateDTO : Type := mkEntryCreate {
  jec_reference_id : string; jec_description : string; jec_postings : list PostingCreateDTO }.

(** The constraints declared on [JournalEntryCreateDTO] and its legs. *)
Definition entry_create_valid (d : JournalEntryCreateDTO) : Prop :=
  (1 <= String.length (jec_reference_id d) <= 128)%nat /\
  (1 <= String.length (jec_description d) <= 255)%nat /\
  (2 <= length (jec_postings d))%nat /\ Forall valid_dto (jec_postings d).

Record LedgerAccountResponse : Type := mkAccountResponse {
  lar_id : Z; lar_number : string; lar_name : string; lar_type : AccountType;
  lar_currency : string; lar_is_active : bool; lar_created_at : Z }.

Record PostingResponseDTO : Type := mkPostingResponse {
  pr_id : Z; pr_journal_entry_id : Z; pr_account_id : Z; pr_amount : decimal;
  pr_direction : PostingDirection; pr_created_at : Z }.

Record JournalEntryResponseDTO : Type := mkEntryResponse {
  jr_id : Z; jr_reference_id : string; jr_description : string; jr_posted_at : Z;
  jr_postings : list PostingResponseDTO; jr_is_flagged : bool }.

Record AccountBalanceResponse : Type := mkBalance {
  ab_account_id : Z; ab_number : string; ab_name : string; ab_type : AccountType; ab_currency : string;
  ab_total_debits : decimal; ab_total_credits : decimal; ab_balance : decimal; ab_normal : PostingDirection }.

Definition to_account_response (e : LedgerAccountEntity) : LedgerAccountResponse :=
  mkAccountResponse (acc_id e) (account_number e) (acc_name e) (account_type e)
    (acc_currency e) (is_active e) (acc_created_at e).

(** [_to_entry_response] leaves [is_flagged] at the DTO's default. *)
Definition to_entry_response (e : JournalEntryEntity) : JournalEntryResponseDTO :=
  mkEntryResponse (je_id e) (je_reference_id e) (je_description e) (je_posted_at e)
    ((fun p => mkPostingResponse (jp_id p) (jp_journal_entry_id p) (jp_account_id p)
                 (jp_amount p) (jp_direction p) (jp_created_at p)) <$> je_postings e)
    false.

Section Service.
Context {R : Type} {Repo : LedgerRepo R}.
Variables (uuid_at now_at : nat -> Z).

Record dstate : Type := mkDState { d_repo : R; d_tick : nat }.

(** ** Operations *)

Definition ds_create_account (dto : LedgerAccountCreate) : M dstate LedgerAccountResponse := fun s =>
  match get_account_by_number (d_repo s) (lac_number dto) with
  | Some _ => (Raise EntityConflictException, s)
  | None =>
      let '(entity, repo') :=
        create_account (uuid_at (d_tick s)) (now_at (d_tick s)) (lac_number dto) (lac_name dto)
          (lac_type dto) (lac_currency dto) (d_repo s) in
      (Ok (to_account_response entity), mkDState repo' (S (d_tick s)))
  end.

Definition ds_get_account (account_id : Z) : M dstate LedgerAccountResponse := fun s =>
  match get_account_by_id (d_repo s) account_id with
  | None => (Raise LedgerAccountNotFoundException, s)
  | Some e => (Ok (to_account_response e), s)
  end.

Definition ds_get_journal_entry (entry_id : Z) : M dstate JournalEntryResponseDTO := fun s =>
  match get_journal_entry_by_id (d_repo s) entry_id with
  | None => (Raise EntityNotFoundException, s)
  | Some e => (Ok (to_entry_response e), s)
  end.

(** Step 3: the loop that rejects a non-positive leg and adds up both sides. *)
Fixpoint aggregate_legs (ps : list PostingCreateDTO) (total_debits total_credits : decimal)
  : result (decimal * decimal) :=
  match ps with
  | [] => Ok (total_debits, total_credits)
  | p :: ps' =>
      if dleb (p_amount p) d0 then Raise UnbalancedJournalEntryException
      else match p_direction p with
           | DEBIT => aggregate_legs ps' (dadd total_debits (p_amount p)) total_credits
           | CREDIT => aggregate_legs ps' total_debits (dadd total_credits (p_amount p))
           end
  end.

(** Step 5: every distinct account must exist and be active. *)
Fixpoint check_accounts (repo : R) (ps : list PostingCreateDTO) (seen : gset Z) : result () :=
  match ps with
  | [] => Ok ()
  | p :: ps' =>
      if bool_decide (p_account_id p ∈ seen) then check_accounts repo ps' seen
      else match get_account_by_id repo (p_account_id p) with
           | None => Raise LedgerAccountNotFoundException
           | Some account =>
               if is_active account then check_accounts repo ps' ({[p_account_id p]} ∪ seen)
               else Raise InactiveLedgerAccountException
           end
  end.

(** Step 6: the repository call, with the ids it draws. *)
Definition post_entry (ref desc : string) (ps : list PostingCreateDTO) : M dstate JournalEntryEntity := fun s =>
  let t := d_tick s in
  let '(e, repo') :=
    create_journal_entry (uuid_at t) (now_at t) (fun i => uuid_at (t + 1 + i)%nat) ref desc ps false (d_repo s) in
  (Ok e, mkDState repo' (t + 1 + length ps)).

Definition record_journal_entry (dto : JournalEntryCreateDTO) : M dstate JournalEntryResponseDTO :=
  let! existing := gets (fun s => get_journal_entry_by_reference (d_repo s) (jec_reference_id dto)) in
  raise_if (bool_decide (is_Some existing)) DuplicateReferenceException ;;;
  raise_if (length (jec_postings dto) <? 2)%nat UnbalancedJournalEntryException ;;;
  let! totals := lift_result (aggregate_legs (jec_postings dto) d0 d0) in
  raise_if (negb (deqb totals.1 totals.2)) UnbalancedJournalEntryException ;;;
  (let! repo := gets d_repo in lift_result (check_accounts repo (jec_postings dto) ∅)) ;;;
  let! e := post_entry (jec_reference_id dto) (jec_description dto) (jec_postings dto) in
  ret (to_entry_response e).

Definition ds_get_account_balance (account_id : Z) : M dstate AccountBalanceResponse := fun s =>
  match get_account_by_id (d_repo s) account_id with
  | None => (Raise LedgerAccountNotFoundException, s)
  | Some account =>
      let '(total_debits, total_credits) := get_account_balance_aggregates (d_repo s) account_id in
      let '(balance, normal) :=
        if debit_normal (account_type account) then (dsub total_debits total_credits, DEBIT)
        else (dsub total_credits total_debits, CREDIT) in
      (Ok (mkBalance (acc_id account) (account_number account) (acc_name account) (account_type account)
             (acc_currency account) total_debits total_credits balance normal), s)
  end.

(** ** The loops against their specifications *)

Lemma aggregate_legs_spec ps dd cc :
  Forall valid_dto ps ->
  aggregate_legs ps dd cc =
  Ok (dsum (p_amount <$> filter (fun p => p_direction p = DEBIT) ps) dd,
      dsum (p_amount <$> filter (fun p => p_direction p = CREDIT) ps) cc).
Proof.
  intros Hv. revert dd cc. induction Hv as [|p ps Hp _ IH]; intros dd cc; [done|].
  cbn [aggregate_legs]. destruct (valid_amount_d4 _ Hp) as [Hd Hpos].
  assert (dleb (p_amount p) d0 = false) as ->.
  { rewrite Hd. unfold d0. rewrite d4_leb. apply Z.leb_gt. done. }
  rewrite !filter_cons. destruct (p_direction p); simpl; apply IH.
Qed.

(** What is wrong with an account, if anything. *)
Definition account_fault (repo : R) (a : Z) : option exc :=
  match get_account_by_id repo a with
  | None => Some LedgerAccountNotFoundException
  | Some acc => if is_active acc then None else Some InactiveLedgerAccountException
  end.

(** Skipping accounts already seen changes nothing: the result is the fault of
    the first faulty leg. *)
Lemma check_accounts_spec repo ps seen :
  (forall a, a ∈ seen -> account_fault repo a = None) ->
  check_accounts repo ps seen =
  match head (omap (fun p => account_fault repo (p_account_id p)) ps) with
  | Some e => Raise e
  | None => Ok ()
  end.
Proof.
  revert seen. induction ps as [|p ps IH]; intros seen Hseen; [done|].
  cbn [check_accounts]. simpl omap. case_bool_decide as Hin.
  - rewrite (Hseen _ Hin). by apply IH.
  - unfold account_fault at 1. destruct (get_account_by_id repo (p_account_id p)) as [acc|] eqn:E; [|done].
    destruct (is_active acc) eqn:Ea; [|done]. apply IH.
    intros a [->%elem_of_singleton|]%elem_of_union; [|auto].
    unfold account_fault. by rewrite E, Ea.
Qed.

(** The service as a decision list, for a validated payload whose totals stay
    within the precision of the decimal context. *)
Lemma record_journal_entry_eq dto s :
  entry_create_valid dto ->
  fits (units DEBIT (jec_postings dto)) -> fits (units CREDIT (jec_postings dto)) ->
  record_journal_entry dto s =
  match get_journal_entry_by_reference (d_repo s) (jec_reference_id dto) with
  | Some _ => (Raise DuplicateReferenceException, s)
  | None =>
      if negb (units DEBIT (jec_postings dto) =? units CREDIT (jec_postings dto))
      then (Raise UnbalancedJournalEntryException, s)
      else match head (omap (fun p => account_fault (d_repo s) (p_account_id p)) (jec_postings dto)) with
           | Some e => (Raise e, s)
           | None => bind (post_entry (jec_reference_id dto) (jec_description dto) (jec_postings dto))
                       (fun e => ret (to_entry_response e)) s
           end
  end.
Proof.
  intros (_ & _ & Hlen & Hv) HfD HfC. unfold record_journal_entry.
  autorewrite with pym. destruct (get_journal_entry_by_reference _ _) as [e|]; [done|].
  rewrite bool_decide_eq_false_2 by (by intros []).
  destruct (Nat.ltb_spec (length (jec_postings dto)) 2); [lia|].
  rewrite aggregate_legs_spec by done. autorewrite with pym. cbn [fst snd].
  fold (dto_total DEBIT (jec_postings dto)) (dto_total CREDIT (jec_postings dto)).
  pose proof (dto_total_units DEBIT _ Hv HfD) as HD. pose proof (dto_total_units CREDIT _ Hv HfC) as HC.
  assert (deqb (dto_total DEBIT (jec_postings dto)) (dto_total CREDIT (jec_postings dto)) =
    (units DEBIT (jec_postings dto) =? units CREDIT (jec_postings dto))) as -> by (rewrite HD, HC; apply d4_eqb).
  destruct (units DEBIT (jec_postings dto) =? units CREDIT (jec_postings dto)); [|done]. cbn [negb].
  rewrite check_accounts_spec by set_solver. by destruct (head _).
Qed.

Lemma post_entry_eq ref desc ps s e s' :
  post_entry ref desc ps s = (Ok e, s') ->
  let t := d_tick s in
  e = mkEntry (uuid_at t) ref desc (now_at t)
        (materialize (uuid_at t) (now_at t) (fun i => uuid_at (t + 1 + i)%nat) ps) false /\
  all_postings (d_repo s') = all_postings (d_repo s) ++ je_postings e /\
  d_tick s' = (t + 1 + length ps)%nat /\
  (forall a, get_account_by_id (d_repo s') a = get_account_by_id (d_repo s) a) /\
  get_journal_entry_by_reference (d_repo s') ref = Some e /\
  get_journal_entry_by_id (d_repo s') (uuid_at t) = Some e.
Proof.
  unfold post_entry. pose proof (law_create_journal_entry (uuid_at (d_tick s)) (now_at (d_tick s))
    (fun i => uuid_at (d_tick s + 1 + i)%nat) ref desc ps false (d_repo s)) as L.
  destruct (create_journal_entry _ _ _ _ _ _ _ _) as [e' r'].
  destruct L as (-> & Hp & Ha & _ & Hr & Hi & _). intros [= <- <-]. by simpl.
Qed.

End Service.
Arguments mkDState {R} _ _.
Arguments d_repo {R} _.
Arguments d_tick {R} _.

(** ** Properties *)

Section Properties.
Context {R : Type} {Repo : LedgerRepo R}.
Variables (uuid_at now_at : nat -> Z).

(** The stored entry of a payload recorded at generator position [t]. *)
Definition posted (dto : JournalEntryCreateDTO) (t : nat) : JournalEntryEntity :=
  mkEntry (uuid_at t) (jec_reference_id dto) (jec_description dto) (now_at t)
    (materialize (uuid_at t) (now_at t) (fun i => uuid_at (t + 1 + i)%nat) (jec_postings dto)) false.

(** C5: [record_journal_entry] on a validated payload whose debits and whose credits
    stay below 10^28 units of 0.0001 (the 28 digits of the decimal context; beyond them
    see [oversized_entry_accepted]) either raises, for the first failing check in the
    documented order (duplicate reference, debits not equal to credits, first missing or
    inactive account), and leaves the ledger exactly as it was; or all checks hold and it appends precisely the given
    legs to the log, files the entry under its reference, and keeps the trial
    balance of the ledger. *)
Theorem record_journal_entry_correct (dto : JournalEntryCreateDTO) (s : dstate (R:=R))
  (Hv : entry_create_valid dto)
  (HfD : fits (units DEBIT (jec_postings dto))) (HfC : fits (units CREDIT (jec_postings dto))) :
  let ps := jec_postings dto in
  let known := get_journal_entry_by_reference (d_repo s) (jec_reference_id dto) in
  let fault := head (omap (fun p => account_fault (d_repo s) (p_account_id p)) ps) in
  let e := posted dto (d_tick s) in
  match record_journal_entry uuid_at now_at dto s with
  | (Raise x, s') =>
      s' = s /\
      (is_Some known /\ x = DuplicateReferenceException \/
       known = None /\ units DEBIT ps <> units CREDIT ps /\ x = UnbalancedJournalEntryException \/
       known = None /\ units DEBIT ps = units CREDIT ps /\ fault = Some x)
  | (Ok r, s') =>
      known = None /\ units DEBIT ps = units CREDIT ps /\ fault = None /\
      r = to_entry_response e /\
      all_postings (d_repo s') = all_postings (d_repo s) ++ je_postings e /\
      get_journal_entry_by_reference (d_repo s') (jec_reference_id dto) = Some e /\
      trial_balance (all_postings (d_repo s')) = trial_balance (all_postings (d_repo s))
  end.
Proof.
  intros ps known fault e. rewrite record_journal_entry_eq by done. fold ps known fault.
  destruct known as [k|] eqn:Hk; [split; [done|left; eauto]|].
  destruct (Z.eqb_spec (units DEBIT ps) (units CREDIT ps)) as [Hu|Hu]; cbn [negb];
    [|split; [done|right; left; auto]].
  destruct fault as [x|] eqn:Hf; [split; [done|right; right; auto]|].
  destruct (post_entry uuid_at now_at (jec_reference_id dto) (jec_description dto) (jec_postings dto) s) as [[e'|x] s'] eqn:Hp.
  2: { unfold post_entry in Hp. by destruct (create_journal_entry _ _ _ _ _ _ _ _). }
  fold ps in Hp. rewrite (bind_ret_eq _ _ _ _ _ Hp). cbn.
  apply post_entry_eq in Hp as (-> & Hlog & _ & _ & Href & _).
  rewrite Hlog, trial_balance_app. do 5 (split; [done|]). split; [exact Href|].
  unfold trial_balance at 2. cbn [je_postings]. rewrite !materialize_units. fold ps. lia.
Qed.

(** Runs of the service: any sequence of its calls, failing ones included. *)
Inductive ds_cmd : Type :=
  | CmdCreateAccount (dto : LedgerAccountCreate)
  | CmdRecord (dto : JournalEntryCreateDTO)
  | CmdGetAccount (a : Z)
  | CmdGetEntry (e : Z)
  | CmdGetBalance (a : Z).

Definition ds_exec (s : dstate (R:=R)) (c : ds_cmd) : dstate :=
  match c with
  | CmdCreateAccount dto => (ds_create_account uuid_at now_at dto s).2
  | CmdRecord dto => (record_journal_entry uuid_at now_at dto s).2
  | CmdGetAccount a => (ds_get_account a s).2
  | CmdGetEntry e => (ds_get_journal_entry e s).2
  | CmdGetBalance a => (ds_get_account_balance a s).2
  end.

(** Payloads as pydantic lets them in, with totals below 10^24. *)
Definition ds_cmd_ok (c : ds_cmd) : Prop :=
  match c with
  | CmdRecord dto => entry_create_valid dto /\
      fits (units DEBIT (jec_postings dto)) /\ fits (units CREDIT (jec_postings dto))
  | _ => True
  end.

Lemma ds_exec_log s c : ds_cmd_ok c ->
  exists legs, all_postings (d_repo (ds_exec s c)) = all_postings (d_repo s) ++ legs /\
    Forall valid_posting legs /\ trial_balance legs = 0.
Proof.
  destruct c as [dto|dto|a|e|a]; simpl; intros Hok.
  - exists []. rewrite app_nil_r. split; [|done]. unfold ds_create_account.
    destruct (get_account_by_number _ _); [done|].
    pose proof (law_create_account (uuid_at (d_tick s)) (now_at (d_tick s)) (lac_number dto) (lac_name dto)
      (lac_type dto) (lac_currency dto) (d_repo s)) as L.
    destruct (create_account _ _ _ _ _ _ _). simpl. tauto.
  - destruct Hok as (Hv & HD & HC). rewrite record_journal_entry_eq by done.
    destruct (get_journal_entry_by_reference _ _); [exists []; by rewrite app_nil_r|].
    destruct (Z.eqb_spec (units DEBIT (jec_postings dto)) (units CREDIT (jec_postings dto))) as [Hu|Hu];
      cbn [negb]; [|exists []; by rewrite app_nil_r].
    destruct (head _); [exists []; by rewrite app_nil_r|].
    destruct (post_entry uuid_at now_at (jec_reference_id dto) (jec_description dto) (jec_postings dto) s) as [[e'|x] s'] eqn:Hp.
    2: { unfold post_entry in Hp. by destruct (create_journal_entry _ _ _ _ _ _ _ _). }
    rewrite (bind_ret_eq _ _ _ _ _ Hp). apply post_entry_eq in Hp as (-> & Hlog & _).
    eexists. split; [exact Hlog|]. cbn [je_postings]. split; [apply materialize_valid; apply Hv|].
    unfold trial_balance. rewrite !materialize_units. lia.
  - exists []. rewrite app_nil_r. unfold ds_get_account. by destruct (get_account_by_id _ _).
  - exists []. rewrite app_nil_r. unfold ds_get_journal_entry. by destruct (get_journal_entry_by_id _ _).
  - exists []. rewrite app_nil_r. unfold ds_get_account_balance. destruct (get_account_by_id _ _); [|done].
    destruct (get_account_balance_aggregates _ _). by destruct (debit_normal _).
Qed.

(** Over any sequence of service calls, succeeding or failing, the log of
    postings only grows at its end, every leg in it stays valid, and a ledger
    whose trial balance is zero (total debits equal total credits to the last
    place) keeps it at zero. *)
Theorem ledger_trial_balance_invariant (cmds : list ds_cmd) (s : dstate (R:=R))
  (Hok : Forall ds_cmd_ok cmds)
  (Hval : Forall valid_posting (all_postings (d_repo s)))
  (Htb : trial_balance (all_postings (d_repo s)) = 0) :
  let s' := foldl ds_exec s cmds in
  all_postings (d_repo s) `prefix_of` all_postings (d_repo s') /\
  Forall valid_posting (all_postings (d_repo s')) /\
  trial_balance (all_postings (d_repo s')) = 0.
Proof.
  revert s Hval Htb. induction Hok as [|c cmds Hc _ IH]; intros s Hval Htb; [done|].
  destruct (ds_exec_log s c Hc) as (legs & Hlog & Hv & Ht). cbn [foldl].
  destruct (IH (ds_exec s c)) as (Hpre & Hval' & Htb').
  - rewrite Hlog. by apply Forall_app.
  - rewrite Hlog, trial_balance_app. lia.
  - split; [|done]. etrans; [|exact Hpre]. rewrite Hlog. by exists legs.
Qed.

(** [get_account_balance] reports, for an existing account, the exact totals
    of its debit and credit legs and their difference in the direction of the
    account's normal balance: debits minus credits for ASSET and EXPENSE,
    credits minus debits for the other three types.  It changes nothing. *)
Theorem account_balance_formula (a : Z) (s : dstate (R:=R)) (acc : LedgerAccountEntity)
  (Hacc : get_account_by_id (d_repo s) a = Some acc)
  (Hval : Forall valid_posting (all_postings (d_repo s)))
  (HfD : fits (acct_units DEBIT a (all_postings (d_repo s))))
  (HfC : fits (acct_units CREDIT a (all_postings (d_repo s)))) :
  let D := acct_units DEBIT a (all_postings (d_repo s)) in
  let C := acct_units CREDIT a (all_postings (d_repo s)) in
  exists b, ds_get_account_balance a s = (Ok b, s) /\
    deq (ab_total_debits b) (d4 D) /\ deq (ab_total_credits b) (d4 C) /\
    match account_type acc with
    | ASSET | EXPENSE => ab_normal b = DEBIT /\ deq (ab_balance b) (d4 (D - C))
    | LIABILITY | EQUITY | REVENUE => ab_normal b = CREDIT /\ deq (ab_balance b) (d4 (C - D))
    end.
Proof.
  intros D C. unfold ds_get_account_balance. rewrite Hacc, law_aggregates.
  pose proof (posting_total_units DEBIT a _ Hval HfD) as HD. fold D in HD.
  pose proof (posting_total_units CREDIT a _ Hval HfC) as HC. fold C in HC.
  assert (0 <= D) by by apply acct_units_nonneg. assert (0 <= C) by by apply acct_units_nonneg.
  fold D in HfD. fold C in HfC. unfold fits in *.
  destruct (account_type acc); simpl; eexists; (split; [done|]); simpl; (split; [done|]); (split; [done|]);
    (split; [done|]); apply dsub_d4; try done; unfold fits; lia.
Qed.

(** A journal entry stored with [is_flagged = True] (as flagged transfers
    are) is reported by [get_journal_entry] with [is_flagged = False], with all
    its other fields and legs intact. *)
Theorem get_journal_entry_loses_flag (id : Z) (s : dstate (R:=R)) (e : JournalEntryEntity)
  (He : get_journal_entry_by_id (d_repo s) id = Some e) (Hflag : je_is_flagged e = true) :
  exists r, ds_get_journal_entry id s = (Ok r, s) /\
    jr_is_flagged r = false /\
    jr_id r = je_id e /\ jr_reference_id r = je_reference_id e /\ jr_description r = je_description e /\
    (pr_id <$> jr_postings r) = (jp_id <$> je_postings e) /\
    (pr_amount <$> jr_postings r) = (jp_amount <$> je_postings e) /\
    (pr_direction <$> jr_postings r) = (jp_direction <$> je_postings e).
Proof.
  unfold ds_get_journal_entry. rewrite He. eexists. split; [done|].
  simpl. rewrite <-!list_fmap_compose. done.
Qed.

End Properties.

(** ** Witnesses *)

(** A two-account ledger and a balanced two-leg payload. *)
Definition ex_uuid (n : nat) : Z := 100 + Z.of_nat n.
Definition ex_now (n : nat) : Z := Z.of_nat n.
Definition ex_repo : ledger_repo :=
  (mem_create_account 2 0 "ACC-2" "Revenue" REVENUE "USD"
    (mem_create_account 1 0 "ACC-1" "Cash" ASSET "USD" mem_empty).2).2.
Definition ex_dto : JournalEntryCreateDTO :=
  mkEntryCreate "ref-1" "sale" [mkPosting 1 (d4 125000) DEBIT; mkPosting 2 (d4 125000) CREDIT].
Definition ex_state : dstate := mkDState ex_repo 0.

Lemma ex_dto_valid : entry_create_valid ex_dto.
Proof. repeat split; simpl; try lia. repeat constructor. Defined.

(** Beyond 28 digits the sum of the credits is rounded, and an entry that is one unit off
    passes the zero-sum check. *)
Example oversized_entry_accepted :
  let dto := mkEntryCreate "huge" "huge"
    [mkPosting 1 (d4 (10 ^ 28)) DEBIT; mkPosting 2 (d4 (10 ^ 28)) CREDIT; mkPosting 2 (d4 1) CREDIT] in
  let '(r, s') := record_journal_entry ex_uuid ex_now dto ex_state in
  is_ok r = true /\ trial_balance (all_postings (d_repo s')) = -1.
Proof. vm_compute. repeat split. Qed.

Lemma record_journal_entry_correct_witness :
  exists r s', record_journal_entry ex_uuid ex_now ex_dto ex_state = (Ok r, s') /\
    trial_balance (all_postings (d_repo s')) = 0.
Proof.
  assert (T := record_journal_entry_correct ex_uuid ex_now ex_dto ex_state ex_dto_valid eq_refl eq_refl).
  eexists _, _. split; [vm_compute; reflexivity|].
  exact (proj2 (proj2 (proj2 (proj2 (proj2 (proj2 T)))))).
Defined.

Lemma ledger_trial_balance_invariant_witness :
  let s' := foldl (ds_exec ex_uuid ex_now) ex_state
    [CmdRecord ex_dto; CmdRecord ex_dto; CmdGetBalance 1] in
  length (all_postings (d_repo s')) = 2%nat /\ trial_balance (all_postings (d_repo s')) = 0.
Proof.
  split; [vm_compute; reflexivity|].
  apply (ledger_trial_balance_invariant ex_uuid ex_now [CmdRecord ex_dto; CmdRecord ex_dto; CmdGetBalance 1] ex_state).
  - repeat constructor; try exact ex_dto_valid; reflexivity.
  - constructor.
  - reflexivity.
Defined.

Lemma account_balance_formula_witness :
  exists b, ds_get_account_balance 1 ex_state = (Ok b, ex_state) /\ ab_normal b = DEBIT.
Proof.
  destruct (account_balance_formula 1 ex_state (mkAccount 1 "ACC-1" "Cash" ASSET "USD" true 0))
    as (b & H & _ & _ & Hn & _); [reflexivity|constructor|reflexivity|reflexivity|].
  exists b. split; [exact H|exact Hn].
Defined.

Lemma get_journal_entry_loses_flag_witness :
  let e := mkEntry 9 "r" "d" 0 [] true in
  exists r, ds_get_journal_entry 9 (mkDState (mkLedgerRepo ∅ ∅ {[9 := e]} ∅ []) 0)
    = (Ok r, mkDState (mkLedgerRepo ∅ ∅ {[9 := e]} ∅ []) 0) /\ jr_is_flagged r = false.
Proof.
  intros e.
  destruct (get_journal_entry_loses_flag 9 (mkDState (mkLedgerRepo ∅ ∅ {[9 := e]} ∅ []) 0) e)
    as (r & H & Hf & _); [reflexivity|reflexivity|].
  exists r. split; [exact H|exact Hf].
Defined.
