(* ===== verification/Redis.v ===== *)
(** What the code relies on of the Redis server, as a class.

    Redis is a service outside the repository: [RedisServer] lists the commands
    the modelled code sends (GET, SET with a TTL, SET NX, DEL on string keys) and
    their documented behaviour, with time in microseconds passed to each command;
    a key set at [now] with a time to live [ttl] exists until [now + ttl].
    [redis_ref] is a reference instance, so that every theorem about a client of
    the class can be run on a concrete server. *)

From S2P Require Import Prelude.

Local Open Scope Z_scope.

(** A command may fail with an exception: because it never reached the server, or
    because only its reply was lost. *)
Inductive fault : Type := NotDone | DoneNoReply.

(** The answer a client gets, if any, and the server after a command whose effect is
    [run]. *)
Definition faulty {A RD} (f : option fault) (run : A * RD) (rd : RD) : option A * RD :=
  match f with
  | None => (Some run.1, run.2)
  | Some NotDone => (None, rd)
  | Some DoneNoReply => (None, run.2)
  end.

Class RedisServer (RD V : Type) : Type := {
  r_get : Z -> string -> RD -> option V;
  r_set : Z -> string -> V -> Z -> RD -> RD;
  r_setnx : Z -> string -> V -> Z -> RD -> bool * RD;
  r_del : Z -> string -> RD -> RD;

  law_get_set now now' k k' v ttl rd : now <= now' -> 0 < ttl ->
    r_get now' k' (r_set now k v ttl rd) =
    if decide (k = k') then (if now' <? now + ttl then Some v else None) else r_get now' k' rd;
  law_setnx now k v ttl rd :
    r_setnx now k v ttl rd =
    match r_get now k rd with Some _ => (false, rd) | None => (true, r_set now k v ttl rd) end;
  law_get_del now now' k k' rd : now <= now' ->
    r_get now' k' (r_del now k rd) = if decide (k = k') then None else r_get now' k' rd;
  law_get_later now now' k v rd : now <= now' -> r_get now' k rd = Some v -> r_get now k rd = Some v
}.

(** ** A reference server: each key holds its value and its deadline. *)

Section Ref.
Context {V : Type}.

Definition ref_get (now : Z) (k : string) (m : gmap string (V * Z)) : option V :=
  match m !! k with
  | Some (v, deadline) => if now <? deadline then Some v else None
  | None => None
  end.
Definition ref_set (now : Z) (k : string) (v : V) (ttl : Z) (m : gmap string (V * Z)) : gmap string (V * Z) :=
  <[k := (v, now + ttl)]> m.
Definition ref_setnx (now : Z) (k : string) (v : V) (ttl : Z) (m : gmap string (V * Z))
  : bool * gmap string (V * Z) :=
  match ref_get now k m with Some _ => (false, m) | None => (true, ref_set now k v ttl m) end.
Definition ref_del (now : Z) (k : string) (m : gmap string (V * Z)) : gmap string (V * Z) := delete k m.

#[global] Program Instance redis_ref : RedisServer (gmap string (V * Z)) V := {|
  r_get := ref_get; r_set := ref_set; r_setnx := ref_setnx; r_del := ref_del |}.
Next Obligation.
  intros now now' k k' v ttl rd _ _. unfold ref_get, ref_set. rewrite lookup_insert. by case_decide.
Qed.
Next Obligation. done. Qed.
Next Obligation. intros now now' k k' rd _. unfold ref_get, ref_del. rewrite lookup_delete. by case_decide. Qed.
Next Obligation.
  intros now now' k v rd Hle. unfold ref_get. destruct (rd !! k) as [[w d]|]; [|done].
  destruct (Z.ltb_spec now' d), (Z.ltb_spec now d); try done; lia.
Qed.

End Ref.
