(* ===== verification/DistLock.v ===== *)
(** The two Redis locks: [AsyncDistributedLock] of [app/core/distributed_lock.py]
    and [DistributedLock] of [app/core/dsa/distributed_lock.py], over any
    [RedisServer].

    One [SET NX PX] or one run of the release script is atomic on the server;
    between two attempts of the retry loop other clients may do anything to the
    server ([others]), and any command may raise ([set_fails], [eval_fails]), with or
    without its effect.  Time is in microseconds.  The theorems: the retry loop
    ends within its timeout, at most one client holds an unexpired lock in any
    interleaving, every lock taken by [acquire_multiple] is given back whatever
    the body does, and its sorted order excludes circular waiting. *)

From S2P Require Import Prelude Redis.

Local Open Scope Z_scope.
Local Open Scope py_scope.

(** [_lock_key] *)
Definition lock_key (resource_key : string) : string :=
  if py_startswith resource_key "lock:" then resource_key else "lock:" +:+ resource_key.

Section Lock.
Context {RD : Type} {Srv : RedisServer RD string}.

(** [_RELEASE_LUA_SCRIPT]: GET, compare, DEL; 1 when the key was deleted. *)
Definition release_script (now : Z) (key token : string) (rd : RD) : Z * RD :=
  if bool_decide (r_get now key rd = Some token) then (1, r_del now key rd) else (0, rd).

(** ** [AsyncDistributedLock]

    [mono n], [jitter n], [token_at n] and [others n] are the clock reading, the
    random jitter, the generated token and the other clients' effect at the
    [n]-th step of this client. *)
Variables (mono : nat -> Z) (jitter : nat -> Z) (token_at : nat -> string) (others : nat -> RD -> RD).
(** Which commands on a key raise at that step. *)
Variables (set_fails eval_fails : nat -> string -> option fault).

Record lstate : Type := mkL { l_rd : RD; l_n : nat }.

(** [release]: an exception of the script is logged and counts as not released. *)
Definition lock_release (resource_key token : string) : M lstate bool := fun s =>
  let key := lock_key resource_key in
  let '(res, rd') := faulty (eval_fails (l_n s) key) (release_script (mono (l_n s)) key token (l_rd s)) (l_rd s) in
  (Ok (match res with Some r => r =? 1 | None => false end), mkL rd' (l_n s)).

(** How long the loop sleeps before its next attempt. *)
Definition sleep_duration (retry_delay jit remaining : Z) : Z := Z.min (retry_delay + jit) remaining.

(** The local variables of [acquire]. *)
Record attempt : Type := mkAttempt { at_key : string; at_token : string; at_ttl : Z; at_deadline : Z; at_delay : Z }.

Definition acquire_start (resource_key token : string) (ttl_seconds acquire_timeout now : Z) : attempt :=
  mkAttempt (lock_key resource_key) token (Z.max 100 (ttl_seconds * 1000) * 1000) (now + acquire_timeout) 20000.

(** One round of the [while True] loop up to its sleep. *)
Inductive round : Type := Acquired (token : string) | TimedOut | RedisRaised | Sleep (next : attempt).

Definition acquire_round (f : option fault) (a : attempt) (now : Z) (rd : RD) : round * RD :=
  let '(acquired, rd') := faulty f (r_setnx now (at_key a) (at_token a) (at_ttl a) rd) rd in
  (match acquired with
   | None => RedisRaised
   | Some true => Acquired (at_token a)
   | Some false =>
       let remaining := at_deadline a - now in
       if remaining <=? 0 then TimedOut
       else Sleep (mkAttempt (at_key a) (at_token a) (at_ttl a) (at_deadline a) (Z.min (at_delay a * 3 / 2) 200000))
   end, rd').

(** The loop of [acquire].  Running out of fuel is the outcome [PyRuntimeError], which
    [acquire_terminates] excludes. *)
Fixpoint acquire_loop (fuel : nat) (a : attempt) : M lstate string := fun s =>
  match fuel with
  | O => (Raise PyRuntimeError, s)
  | S fuel' =>
      let '(r, rd') := acquire_round (set_fails (l_n s) (at_key a)) a (mono (l_n s)) (l_rd s) in
      match r with
      | Acquired token => (Ok token, mkL rd' (l_n s))
      | TimedOut => (Raise LockAcquisitionTimeoutException, mkL rd' (l_n s))
      | RedisRaised => (Raise RedisError, mkL rd' (l_n s))
      | Sleep a' =>
          (* asyncio.sleep(sleep_duration ...) : the other clients run *)
          acquire_loop fuel' a' (mkL (others (l_n s) rd') (S (l_n s)))
      end
  end.

(** Attempts that fit in the timeout: the shortest sleep is 25 ms. *)
Definition acquire_fuel (acquire_timeout : Z) : nat := Z.to_nat (acquire_timeout / 25000) + 2.

Definition lock_acquire (resource_key : string) (ttl_seconds acquire_timeout : Z) : M lstate string := fun s =>
  acquire_loop (acquire_fuel acquire_timeout)
    (acquire_start resource_key (token_at (l_n s)) ttl_seconds acquire_timeout (mono (l_n s))) s.

(** [sorted(set(resource_keys))] *)
Definition unique_sorted (keys : list string) : list string := stable_sort str_leb (remove_dups keys).

(** The acquisition loop of [acquire_multiple]: the locks taken so far, most
    recent first, and the exception that stopped it, if any. *)
Fixpoint acquire_all (keys : list string) (ttl timeout : Z) (acc : list (string * string)) (s : lstate)
  : list (string * string) * option exc * lstate :=
  match keys with
  | [] => (acc, None, s)
  | k :: keys' =>
      match lock_acquire k ttl timeout s with
      | (Ok token, s') => acquire_all keys' ttl timeout ((k, token) :: acc) s'
      | (Raise e, s') => (acc, Some e, s')
      end
  end.

(** [for r_key, token in reversed(acquired_locks): await self.release(...)] *)
Fixpoint release_all (acquired_rev : list (string * string)) (s : lstate) : lstate :=
  match acquired_rev with
  | [] => s
  | (k, token) :: l => release_all l (lock_release k token s).2
  end.

(** [acquire_multiple] around a body that runs in a larger state [S], of which
    [lget]/[lset] give the lock client's part. *)
Definition acquire_multiple {S A} (lget : S -> lstate) (lset : S -> lstate -> S)
  (resource_keys : list string) (ttl timeout : Z) (body : list (string * string) -> M S A) : M S A := fun s =>
  let '(acquired, failure, l1) := acquire_all (unique_sorted resource_keys) ttl timeout [] (lget s) in
  let s1 := lset s l1 in
  match failure with
  | Some e => (Raise e, lset s1 (release_all acquired (lget s1)))
  | None =>
      match body (rev acquired) s1 with
      | (Ok a, s2) => (Ok a, lset s2 (release_all acquired (lget s2)))
      | (Raise e, s2) => (Raise e, lset s2 (release_all acquired (lget s2)))
      end
  end.

(** [lock]: acquire one lock around a body, releasing it in [finally]. *)
Definition with_lock {A} (resource_key : string) (ttl timeout : Z) (body : string -> M lstate A) : M lstate A := fun s =>
  match lock_acquire resource_key ttl timeout s with
  | (Raise e, s1) => (Raise e, s1)
  | (Ok token, s1) =>
      let '(r, s2) := body token s1 in
      (r, (lock_release resource_key token s2).2)
  end.

(** ** [DistributedLock]: one non-blocking attempt, state in the object *)

Record dlock : Type := mkDlock { dl_name : string; dl_ttl_ms : Z; dl_token : option string; dl_acquired : bool }.

Definition dlock_init (name : string) (ttl_ms : Z) : dlock := mkDlock name (Z.max 1 ttl_ms) None false.
Definition dlock_key (d : dlock) : string := "lock:" +:+ dl_name d.

Definition dlock_acquire (now : Z) (tok : string) (d : dlock) (rd : RD) : bool * dlock * RD :=
  let '(ok, rd') := r_setnx now (dlock_key d) tok (dl_ttl_ms d * 1000) rd in
  (ok, mkDlock (dl_name d) (dl_ttl_ms d) (if ok then Some tok else None) ok, rd').

Definition dlock_release (now : Z) (d : dlock) (rd : RD) : bool * dlock * RD :=
  match dl_acquired d, dl_token d with
  | true, Some tok =>
      let '(res, rd') := release_script now (dlock_key d) tok rd in
      (res =? 1, mkDlock (dl_name d) (dl_ttl_ms d) None false, rd')
  | _, _ => (false, d, rd)
  end.

(** ** Lemmas *)

Lemma release_script_get now now' k tok k' rd v :
  now <= now' -> r_get now' k' (release_script now k tok rd).2 = Some v ->
  r_get now' k' rd = Some v /\ (k' = k -> v <> tok).
Proof.
  intros Hle. unfold release_script. case_bool_decide as Hown; cbn [snd].
  - rewrite law_get_del by done. case_decide; [done|]. split; [done|]. congruence.
  - intros Hget. split; [done|]. intros -> ->. apply Hown. by eapply law_get_later.
Qed.

(** The retry delay stays between its initial value and its cap. *)
Lemma retry_delay_bounds d : 20000 <= d <= 200000 -> 20000 <= Z.min (d * 3 / 2) 200000 <= 200000.
Proof. intros. assert (d <= d * 3 / 2) by (apply Z.div_le_lower_bound; lia). lia. Qed.

(** The only exceptions of the acquisition loop. *)
Lemma acquire_loop_error fuel a s e s' :
  acquire_loop fuel a s = (Raise e, s') -> e = LockAcquisitionTimeoutException \/ e = RedisError \/ e = PyRuntimeError.
Proof.
  revert a s. induction fuel as [|f IH]; intros a s; cbn [acquire_loop]; [naive_solver|].
  destruct (acquire_round _ a _ _) as [[| | |a'] rd']; naive_solver.
Qed.

Lemma acquire_all_error keys ttl timeout acc s acc' e s' :
  acquire_all keys ttl timeout acc s = (acc', Some e, s') -> e <> UnbalancedJournalEntryException.
Proof.
  revert acc s. induction keys as [|k keys IH]; intros acc s; cbn [acquire_all]; [done|].
  destruct (lock_acquire k ttl timeout s) as [[t|x] s1] eqn:E; [apply IH|]. intros [= _ <- _].
  apply acquire_loop_error in E as [->|[->| ->]]; done.
Qed.

Section Termination.
(** Sleeping lasts at least as long as asked, and the jitter is drawn from
    [uniform(0.005, 0.025)]. *)
Hypothesis sleeps : forall n deadline delay, 20000 <= delay <= 200000 -> 0 < deadline - mono n ->
  mono n + sleep_duration delay (jitter n) (deadline - mono n) <= mono (S n).
Hypothesis jitter_range : forall n, 5000 <= jitter n <= 25000.

Lemma acquire_loop_terminates fuel a s :
  20000 <= at_delay a <= 200000 -> at_deadline a - mono (l_n s) <= 25000 * (Z.of_nat fuel - 1) -> (0 < fuel)%nat ->
  match (acquire_loop fuel a s).1 with
  | Ok t => t = at_token a
  | Raise e => e = LockAcquisitionTimeoutException \/ e = RedisError /\ exists n, set_fails n (at_key a) <> None
  end.
Proof.
  revert a s. induction fuel as [|f IH]; intros a s Hd Hfuel Hpos; [lia|]. cbn [acquire_loop]. unfold acquire_round.
  destruct (set_fails (l_n s) (at_key a)) as [f'|] eqn:Hf.
  { destruct f'; cbn; right; (split; [done|]); exists (l_n s); by rewrite Hf. }
  cbn [faulty]. destruct (r_setnx _ _ _ _ _) as [[] rd']; [done|]. cbn [fst snd].
  destruct (Z.leb_spec (at_deadline a - mono (l_n s)) 0) as [|Hrem]; [by left|].
  pose proof (sleeps (l_n s) (at_deadline a) (at_delay a) Hd Hrem) as Hs. unfold sleep_duration in Hs.
  pose proof (jitter_range (l_n s)).
  destruct f as [|f]; [lia|].
  apply (IH (mkAttempt (at_key a) (at_token a) (at_ttl a) (at_deadline a) _)); cbn; [by apply retry_delay_bounds|lia|lia].
Qed.
End Termination.

End Lock.
Arguments mkL {RD} _ _.
Arguments l_rd {RD} _.
Arguments l_n {RD} _.

(** ** Properties *)

(** [acquire] always ends, within its timeout: it returns the token it
    generated or raises, [LockAcquisitionTimeoutException] unless a command itself
    failed.  The clock only has to advance by the time slept, whatever other clients do
    to the server. *)
Theorem acquire_terminates {RD} {Srv : RedisServer RD string}
  (mono jitter : nat -> Z) (token_at : nat -> string) (others : nat -> RD -> RD) (set_fails : nat -> string -> option fault)
  (Hsleep : forall n deadline delay, 20000 <= delay <= 200000 -> 0 < deadline - mono n ->
     mono n + sleep_duration delay (jitter n) (deadline - mono n) <= mono (S n))
  (Hjit : forall n, 5000 <= jitter n <= 25000)
  (resource : string) (ttl timeout : Z) (s : lstate) (Hto : 0 <= timeout) :
  match (lock_acquire mono token_at others set_fails resource ttl timeout s).1 with
  | Ok t => t = token_at (l_n s)
  | Raise e => e = LockAcquisitionTimeoutException \/ e = RedisError /\ exists n, set_fails n (lock_key resource) <> None
  end.
Proof.
  unfold lock_acquire.
  apply (acquire_loop_terminates mono jitter others set_fails Hsleep Hjit _ (acquire_start _ _ _ _ _)); cbn; [lia| |].
  - unfold acquire_fuel. pose proof (Z.div_mod timeout 25000 ltac:(lia)).
    pose proof (Z.mod_pos_bound timeout 25000 ltac:(lia)).
    assert (0 <= timeout / 25000) by (apply Z.div_pos; lia). lia.
  - unfold acquire_fuel. lia.
Qed.

Lemma acquire_terminates_witness :
  let mono n := 25000 * Z.of_nat n * 100 in
  let run := (lock_acquire (RD:=gmap string (string * Z)) mono (fun _ => "tok") (fun _ rd => rd) (fun _ _ => None) "account:1" 10 3000000
     (mkL {["lock:account:1" := ("other", 10 ^ 12)]} 0)).1 in
  match run with
  | Ok t => t = "tok"
  | Raise e => e = LockAcquisitionTimeoutException \/ e = RedisError /\ exists n : nat, (fun (_ : nat) (_ : string) => @None fault) n "lock:account:1" <> None
  end /\ run = Raise LockAcquisitionTimeoutException.
Proof.
  intros mono run. split; [|vm_compute; reflexivity].
  apply (acquire_terminates (RD:=gmap string (string * Z)) mono (fun _ => 5000) (fun _ => "tok") (fun _ rd => rd) (fun _ _ => None)); [|lia|lia].
  intros n dl d Hd Hp. unfold sleep_duration, mono. lia.
Defined.

Section Releases.
Context {RD : Type} {Srv : RedisServer RD string} (mono : nat -> Z) (token_at : nat -> string) (others : nat -> RD -> RD)
  (set_fails eval_fails : nat -> string -> option fault).
(** The release script runs. *)
Hypothesis scripts_run : forall n k, eval_fails n k = None.

(** Every lock taken is released: after [acquire_multiple], whatever the body
    did and however it ended, no key holds a token this call acquired. *)
Lemma release_all_clears l (s : lstate (RD:=RD)) now k tok :
  mono (l_n s) <= now ->
  (k, tok) ∈ l \/ r_get now (lock_key k) (l_rd s) <> Some tok ->
  r_get now (lock_key k) (l_rd (release_all mono eval_fails l s)) <> Some tok.
Proof.
  revert s. induction l as [|[k' tok'] l IH]; intros s Hle; [set_solver|]. cbn [release_all].
  intros H. unfold lock_release. rewrite scripts_run. cbn [faulty].
  apply IH; [done|]. cbn [l_rd snd].
  destruct H as [[[= <- <-]|?]%elem_of_cons|Hn]; [right|by left|right].
  - intros [_ Hg]%release_script_get; [|done]. by apply Hg.
  - intros [Hg _]%release_script_get; [|done]. done.
Qed.

Lemma release_all_n l (s : lstate (RD:=RD)) : l_n (release_all mono eval_fails l s) = l_n s.
Proof.
  revert s. induction l as [|[k t] l IH]; intros s; [done|]. cbn [release_all]. rewrite IH.
  unfold lock_release. by destruct (faulty _ _ _).
Qed.

(** [acquire_multiple] gives back every lock it took, on every path: the
    body returned, the body raised (whatever it did to the server), or a later
    acquisition timed out or failed.  After it, no lock key holds a token of this call. *)
Theorem acquire_multiple_releases {S A}
  (lget : S -> lstate) (lset : S -> lstate -> S) (Hlens : forall s l, lget (lset s l) = l)
  (keys : list string) (ttl timeout : Z) (body : list (string * string) -> M S A) (s : S) :
  let '(acquired, failure, l1) :=
    acquire_all mono token_at others set_fails (unique_sorted keys) ttl timeout [] (lget s) in
  let '(res, s') := acquire_multiple mono token_at others set_fails eval_fails lget lset keys ttl timeout body s in
  (forall k tok now, (k, tok) ∈ acquired -> mono (l_n (lget s')) <= now ->
     r_get now (lock_key k) (l_rd (lget s')) <> Some tok) /\
  match failure with
  | Some e => res = Raise e
  | None => res = (body (rev acquired) (lset s l1)).1
  end.
Proof.
  unfold acquire_multiple.
  destruct (acquire_all mono token_at others set_fails (unique_sorted keys) ttl timeout [] (lget s)) as [[acq [e|]] l1].
  - split; [|done]. intros k tok now Hin. rewrite !Hlens, release_all_n. intros Hle.
    apply release_all_clears; auto.
  - destruct (body (rev acq) (lset s l1)) as [[a|e] s2]; (split; [|done]); intros k tok now Hin;
      rewrite Hlens, release_all_n; intros Hle; apply release_all_clears; auto.
Qed.
End Releases.

Lemma acquire_multiple_releases_witness :
  let run := acquire_multiple (RD:=gmap string (string * Z)) (fun _ => 7) (fun _ => "tok") (fun _ rd => rd)
    (fun _ _ => None) (fun _ _ => None) (fun s => s) (fun _ l => l) ["account:2"; "account:1"] 10 3000000 (fun _ => raise (A:=()) PyValueError)
    (mkL ∅ 0) in
  run.1 = Raise PyValueError /\ r_get 7 (lock_key "account:1") (l_rd run.2) <> Some "tok".
Proof.
  pose proof (acquire_multiple_releases (RD:=gmap string (string * Z)) (fun _ => 7) (fun _ => "tok") (fun _ rd => rd)
    (fun _ _ => None) (fun _ _ => None) (fun _ _ => eq_refl) (A:=()) (fun s => s) (fun _ l => l)
    (fun _ _ => eq_refl) ["account:2"; "account:1"] 10 3000000 (fun _ => raise PyValueError) (mkL ∅ 0)) as [H1 H2].
  split; [exact H2|]. apply (H1 "account:1" "tok" 7); [|reflexivity].
  apply list_elem_of_In. vm_compute. right. left. reflexivity.
Defined.

(** A script that does not run leaves the lock to its lease. *)
Example failed_release_keeps_lock :
  let run := acquire_multiple (RD:=gmap string (string * Z)) (fun _ => 7) (fun _ => "tok") (fun _ rd => rd)
    (fun _ _ => None) (fun _ _ => Some NotDone) (fun s => s) (fun _ l => l) ["account:1"] 10 3000000 (fun _ => ret ()) (mkL ∅ 0) in
  run.1 = Ok () /\ r_get 7 (lock_key "account:1") (l_rd run.2) = Some "tok".
Proof. vm_compute. done. Qed.

(** ** Ordered acquisition *)

Lemma unique_sorted_strict keys : StronglySorted str_lt (unique_sorted keys).
Proof.
  unfold unique_sorted.
  pose proof (stable_sort_sorted str_leb str_leb_total str_leb_trans (remove_dups keys)) as Hs.
  assert (NoDup (stable_sort str_leb (remove_dups keys))) as Hnd.
  { rewrite stable_sort_perm. apply NoDup_remove_dups. }
  induction Hs as [|x l Hs IH Hall]; [constructor|]. apply NoDup_cons in Hnd as [Hx Hnd].
  constructor; [auto|]. rewrite Forall_forall in Hall |- *. intros y Hy. split; [auto|]. by intros ->.
Qed.

Lemma unique_sorted_elem keys k : k ∈ unique_sorted keys <-> k ∈ keys.
Proof. unfold unique_sorted. rewrite stable_sort_perm. apply elem_of_remove_dups. Qed.

(** A client in the middle of [acquire_multiple]: it holds a prefix of its
    sorted keys and waits for the next one. *)
Definition mid_acquire (keys held : list string) (waiting : string) : Prop :=
  exists rest, unique_sorted keys = held ++ waiting :: rest.

Lemma mid_acquire_lt keys held waiting h : mid_acquire keys held waiting -> h ∈ held -> str_lt h waiting.
Proof.
  intros [rest Hk] Hin. pose proof (unique_sorted_strict keys) as Hs. rewrite Hk in Hs.
  clear Hk. induction held as [|x held IH]; [set_solver|]. simpl in Hs. inversion Hs as [|?? Hs' Hall]; subst.
  apply elem_of_cons in Hin as [->|Hin]; [|auto]. rewrite Forall_forall in Hall. apply Hall. set_solver.
Qed.

(** [w0] waits for a key held by the first client of the chain, each client
    waits for a key of the next. *)
Fixpoint wait_chain (w0 : string) (l : list (list string * list string * string)) : Prop :=
  match l with
  | [] => True
  | (keys, held, w) :: l' => mid_acquire keys held w /\ w0 ∈ held /\ wait_chain w l'
  end.

Lemma wait_chain_lt w0 l last : wait_chain w0 l -> (exists k h, (k, h, last) ∈ l) -> str_lt w0 last.
Proof.
  revert w0. induction l as [|[[keys held] w] l IH]; intros w0; [set_solver|].
  intros (Hm & Hin & Hch) (k & h & Hl). pose proof (mid_acquire_lt _ _ _ _ Hm Hin) as Hlt.
  apply elem_of_cons in Hl as [[= -> -> ->]|Hl]; [done|].
  eapply str_lt_trans; [exact Hlt|]. eapply IH; eauto.
Qed.

(** Locking in sorted order excludes deadlock: [acquire_multiple] takes each
    distinct key once, in strictly increasing order, and no chain of clients in
    the middle of [acquire_multiple], each waiting for a lock the next one holds,
    can close into a cycle. *)
Theorem acquire_order_no_deadlock (keys : list string) :
  StronglySorted str_lt (unique_sorted keys) /\
  (forall k, k ∈ unique_sorted keys <-> k ∈ keys) /\
  (forall (w0 : string) (chain : list (list string * list string * string)),
     wait_chain w0 chain -> ~ exists ks held, (ks, held, w0) ∈ chain).
Proof.
  split; [apply unique_sorted_strict|]. split; [apply unique_sorted_elem|].
  intros w0 chain Hc Hcycle. by apply (str_lt_irrefl w0), (wait_chain_lt w0 chain w0).
Qed.

(** ** Mutual exclusion in every interleaving *)

Section Mutex.
Context {RD : Type} {Srv : RedisServer RD string}.

(** A lock that a client believes it holds, and a client inside [acquire]. *)
Record hold : Type := mkHold { h_client : nat; h_resource : string; h_token : string; h_deadline : Z }.
Record trying : Type := mkTrying { t_client : nat; t_resource : string; t_attempt : attempt }.

Record lsys : Type := mkSys { y_now : Z; y_rd : RD; y_held : list hold; y_trying : list trying }.

Definition tokens (y : lsys) : list string := (h_token <$> y_held y) ++ ((fun t => at_token (t_attempt t)) <$> y_trying y).

(** What a round of [acquire] makes of the client. *)
Definition after_round (now : Z) (t : trying) (r : round) : list hold * list trying :=
  match r with
  | Acquired token => ([mkHold (t_client t) (t_resource t) token (now + at_ttl (t_attempt t))], [])
  | TimedOut | RedisRaised => ([], [])
  | Sleep a => ([], [mkTrying (t_client t) (t_resource t) a])
  end.

(** One atomic event: time passes; a client enters [acquire] with a fresh token
    ([uuid4]); a client inside it runs one round of the loop; a client runs [release]
    for a lock it holds, expired or not.  Every command may raise, before or after its
    effect. *)
Inductive lock_step : lsys -> lsys -> Prop :=
  | step_tick now d rd held try : 0 <= d -> lock_step (mkSys now rd held try) (mkSys (now + d) rd held try)
  | step_enter now rd held try c res tok ttl timeout : tok ∉ tokens (mkSys now rd held try) ->
      lock_step (mkSys now rd held try) (mkSys now rd held (mkTrying c res (acquire_start res tok ttl timeout now) :: try))
  | step_round now rd held try1 t try2 f r rd' :
      acquire_round f (t_attempt t) now rd = (r, rd') ->
      lock_step (mkSys now rd held (try1 ++ t :: try2))
        (mkSys now rd' ((after_round now t r).1 ++ held) ((after_round now t r).2 ++ try1 ++ try2))
  | step_release now rd held1 h held2 try (eval_fails : nat -> string -> option fault) n :
      lock_step (mkSys now rd (held1 ++ h :: held2) try)
        (mkSys now (l_rd (lock_release (fun _ => now) eval_fails (h_resource h) (h_token h) (mkL rd n)).2) (held1 ++ held2) try).

Inductive lock_reach : lsys -> Prop :=
  | reach_init now rd : lock_reach (mkSys now rd [] [])
  | reach_step y y' : lock_reach y -> lock_step y y' -> lock_reach y'.

(** Until its deadline a held lock is what the server stores, attempts aim at the key of
    their resource for a positive time, and tokens are distinct. *)
Definition stored (now : Z) (rd : RD) (h : hold) : Prop := forall now', now <= now' -> now' < h_deadline h ->
  r_get now' (lock_key (h_resource h)) rd = Some (h_token h).
Definition aims (t : trying) : Prop := at_key (t_attempt t) = lock_key (t_resource t) /\ 0 < at_ttl (t_attempt t).
Definition lock_inv (y : lsys) : Prop :=
  Forall (stored (y_now y) (y_rd y)) (y_held y) /\ Forall aims (y_trying y) /\ NoDup (tokens y).

(** A command leaves the locks of others alone. *)
Lemma stored_setnx now k tok ttl rd h : 0 < ttl -> stored now rd h ->
  stored now (r_setnx now k tok ttl rd).2 h.
Proof.
  intros Httl Hh now' H1 H2. rewrite law_setnx. destruct (r_get now k rd) eqn:Hget; cbn; [by apply Hh|].
  rewrite law_get_set by done. case_decide as E; [|by apply Hh]. rewrite E, (Hh now) in Hget by lia. done.
Qed.

Lemma stored_release now k tok rd h : h_token h <> tok -> stored now rd h -> stored now (release_script now k tok rd).2 h.
Proof.
  intros Hne Hh now' H1 H2. unfold release_script. case_bool_decide as Hown; cbn [snd]; [|by apply Hh].
  rewrite law_get_del by done. case_decide as E; [|by apply Hh]. rewrite E, (Hh now) in Hown by lia. congruence.
Qed.

Lemma faulty_keeps {A} (P : RD -> Prop) f (run : A * RD) rd : P rd -> P run.2 -> P (faulty f run rd).2.
Proof. by destruct f as [[]|]. Qed.

Lemma round_inv now t f rd r rd' held : aims t -> acquire_round f (t_attempt t) now rd = (r, rd') ->
  Forall (stored now rd) held ->
  Forall (stored now rd') ((after_round now t r).1 ++ held) /\ Forall aims (after_round now t r).2 /\
  let left := (h_token <$> (after_round now t r).1) ++ ((fun t => at_token (t_attempt t)) <$> (after_round now t r).2) in
  left = [] \/ left = [at_token (t_attempt t)].
Proof.
  intros [Hk Httl] Hr Hst. unfold acquire_round in Hr.
  assert (forall h, stored now rd h -> stored now (faulty f (r_setnx now (at_key (t_attempt t)) (at_token (t_attempt t)) (at_ttl (t_attempt t)) rd) rd).2 h) as Hkeep.
  { intros h Hh. apply (faulty_keeps (fun rd => stored now rd h)); [done|]. apply stored_setnx; auto. }
  destruct (faulty f _ rd) as [acq rd1] eqn:Hf. cbn in Hkeep. injection Hr as <- <-.
  assert (Forall (stored now rd1) held) as Hst' by (eapply Forall_impl; [exact Hst|done]).
  destruct acq as [[]|]; [|destruct (_ <=? 0)|]; cbn; split_and!; auto; try (by repeat constructor).
  constructor; [|done]. intros now' H1 H2. cbn in *. destruct f as [[]|]; try discriminate.
  cbn in Hf. rewrite law_setnx in Hf. destruct (r_get now (at_key (t_attempt t)) rd); [discriminate|]. injection Hf as <-. cbn.
  rewrite Hk, law_get_set, decide_True by done. by destruct (Z.ltb_spec now' (now + at_ttl (t_attempt t))); [|lia].
Qed.

Lemma lock_reach_inv y : lock_reach y -> lock_inv y.
Proof.
  induction 1 as [|y y' _ (Hst & Haim & Hnd) Hstep]; [split; [|split]; constructor|].
  destruct Hstep as [now d rd held try Hd|now rd held try c res tok ttl timeout Hfresh
    |now rd held try1 t try2 f r rd' Hr|now rd held1 h held2 try ef n]; unfold lock_inv, tokens in *; cbn [y_now y_rd y_held y_trying] in *.
  - split; [|done]. eapply Forall_impl; [exact Hst|]. intros h Hh now' H1 H2. apply Hh; lia.
  - split; [done|]. split; [constructor; [split; cbn; [done|lia]|done]|]. cbn.
    rewrite <-Permutation_middle. by constructor.
  - apply Forall_app in Haim as [Ha1 [Ht Ha2]%Forall_cons].
    destruct (round_inv now t f rd r rd' held Ht Hr Hst) as (H1 & H2 & H3). split; [done|].
    split; [by rewrite !Forall_app|]. clear -H3 Hnd.
    rewrite fmap_app, fmap_cons in Hnd. rewrite !fmap_app.
    set (tk := fun t => at_token (t_attempt t)) in *. set (hs := h_token <$> (after_round now t r).1) in *.
    set (ts := tk <$> (after_round now t r).2) in *. rewrite <-Permutation_middle, (Permutation_app_comm _ (_ :: _)) in Hnd.
    assert ((hs ++ (h_token <$> held)) ++ ts ++ (tk <$> try1) ++ (tk <$> try2) ≡ₚ
      (hs ++ ts) ++ ((tk <$> try1) ++ (tk <$> try2)) ++ (h_token <$> held)) as ->.
    { rewrite <-!app_assoc. apply Permutation_app_head. rewrite (Permutation_app_comm (h_token <$> held)), <-!app_assoc. done. }
    destruct H3 as [-> | ->]; [by apply NoDup_cons in Hnd as [_ ?]|done].
  - apply Forall_app in Hst as [H1 [Hh H2]%Forall_cons].
    rewrite fmap_app, fmap_cons, <-app_assoc in Hnd. cbn in Hnd. rewrite <-Permutation_middle, app_assoc, <-fmap_app in Hnd.
    apply NoDup_cons in Hnd as [Hnotin Hnd]. split; [|done].
    assert (Forall (fun x => h_token x <> h_token h) (held1 ++ held2)) as Hne.
    { apply Forall_forall. intros x Hx E. apply Hnotin, elem_of_app. left. rewrite <-E. by apply list_elem_of_fmap_2. }
    assert (Forall (stored now rd) (held1 ++ held2)) as Hall by by apply Forall_app.
    rewrite Forall_forall in Hne, Hall |- *. intros x Hx. unfold lock_release. cbn.
    apply (faulty_keeps (fun rd => stored now rd x)) with (f := ef n (lock_key (h_resource h)))
      (run := release_script now (lock_key (h_resource h)) (h_token h) rd) (rd := rd) in Hall as Hk; [|done|by apply stored_release; auto].
    by destruct (faulty _ _ _).
Qed.

(** C18: mutual exclusion.  In every state reachable by any interleaving of rounds of
    [acquire], calls of [release] and passing time, with commands that raise before or
    after their effect, two unexpired locks on the same resource are one and the same,
    so at most one client holds it; and releasing a lock never removes another client's
    unexpired lock. *)
Theorem lock_mutual_exclusion (y : lsys) (h1 h2 : hold) (Hr : lock_reach y)
  (H1 : h1 ∈ y_held y) (H2 : h2 ∈ y_held y)
  (Hkey : lock_key (h_resource h1) = lock_key (h_resource h2))
  (Hlive1 : y_now y < h_deadline h1) (Hlive2 : y_now y < h_deadline h2) :
  h1 = h2 /\
  (forall h eval_fails n, h ∈ y_held y -> h_token h <> h_token h1 ->
     r_get (y_now y) (lock_key (h_resource h1))
       (l_rd (lock_release (fun _ => y_now y) eval_fails (h_resource h) (h_token h) (mkL (y_rd y) n)).2) = Some (h_token h1)).
Proof.
  destruct (lock_reach_inv y Hr) as (Hst & _ & Hnd). rewrite Forall_forall in Hst.
  apply NoDup_app in Hnd as [Hnd _].
  pose proof (Hst h1 H1 (y_now y) ltac:(lia) Hlive1) as G1.
  pose proof (Hst h2 H2 (y_now y) ltac:(lia) Hlive2) as G2.
  assert (h_token h1 = h_token h2) as Ht by congruence. split.
  - apply list_elem_of_lookup in H1 as [i Hi], H2 as [j Hj].
    assert (i = j) as <-; [|congruence].
    apply (NoDup_lookup _ _ _ (h_token h1) Hnd); rewrite list_lookup_fmap, ?Hi, ?Hj; simpl; congruence.
  - intros h ef n Hh Hne. unfold lock_release. cbn.
    pose proof (stored_release (y_now y) (lock_key (h_resource h)) (h_token h) (y_rd y) h1 (not_eq_sym Hne) (Hst h1 H1)
      (y_now y) ltac:(lia) Hlive1) as G. destruct (ef n (lock_key (h_resource h))) as [[]|]; done.
Qed.
End Mutex.

(** Two clients after one lock: the first gets it, the second sleeps, the lease of the
    first expires, the second gets it, and only its lock is live. *)
Lemma lock_mutual_exclusion_witness :
  exists y : lsys (RD:=gmap string (string * Z)),
    lock_reach y /\ y_held y = [mkHold 1 "a" "t2" 300000; mkHold 0 "a" "t1" 100000] /\
    (forall h, h ∈ y_held y -> y_now y < h_deadline h -> h = mkHold 1 "a" "t2" 300000).
Proof.
  set (a1 := acquire_start "a" "t1" 0 1000000 0). set (a2 := acquire_start "a" "t2" 0 1000000 0).
  set (a2' := mkAttempt "lock:a" "t2" 100000 1000000 30000).
  assert (Hr : lock_reach (RD:=gmap string (string * Z)) (mkSys 200000 (ref_set 200000 "lock:a" "t2" 100000 (ref_set 0 "lock:a" "t1" 100000 ∅))
    [mkHold 1 "a" "t2" 300000; mkHold 0 "a" "t1" 100000] [])).
  { set (rd1 := ref_set 0 "lock:a" "t1" 100000 ∅).
    pose proof (reach_init (RD:=gmap string (string * Z)) 0 ∅) as R0.
    pose proof (reach_step _ _ R0 (step_enter 0 ∅ [] [] 0 "a" "t1" 0 1000000 ltac:(cbn; set_solver))) as R1.
    pose proof (reach_step _ _ R1 (step_enter 0 ∅ [] [mkTrying 0 "a" a1] 1 "a" "t2" 0 1000000 ltac:(cbn; set_solver))) as R2.
    pose proof (reach_step _ _ R2 (step_round 0 ∅ [] [mkTrying 1 "a" a2] (mkTrying 0 "a" a1) [] None (Acquired "t1") rd1 eq_refl)) as R3.
    pose proof (reach_step _ _ R3 (step_round 0 rd1 [mkHold 0 "a" "t1" 100000] [] (mkTrying 1 "a" a2) [] None (Sleep a2') rd1 eq_refl)) as R4.
    pose proof (reach_step _ _ R4 (step_tick 0 200000 rd1 [mkHold 0 "a" "t1" 100000] [mkTrying 1 "a" a2'] ltac:(lia))) as R5.
    exact (reach_step _ _ R5 (step_round 200000 rd1 [mkHold 0 "a" "t1" 100000] [] (mkTrying 1 "a" a2') [] None (Acquired "t2") _ eq_refl)). }
  eexists. split; [exact Hr|]. split; [reflexivity|].
  intros h Hh Hlive. assert (lock_key (h_resource h) = "lock:a") as Hk.
  { cbn [y_held] in Hh. by apply elem_of_cons in Hh as [->|[->|[]%elem_of_nil]%elem_of_cons]. }
  destruct (lock_mutual_exclusion _ h (mkHold 1 "a" "t2" 300000) Hr) as [E _]; [exact Hh|by left|exact Hk|exact Hlive|reflexivity|exact E].
Defined.
