(* ===== verification/Uow.v ===== *)
(** The outbox and reconciliation repositories and the in-memory unit of work
    ([app/repositories/outbox_repository.py],
    [app/repositories/reconciliation_repository.py], [app/core/unit_of_work.py],
    [app/models/outbox.py], [app/schemas/ledger_events.py]).

    [uow] holds the live stores of all seven repositories and the snapshot taken
    on entry.  The ledger store is any [LedgerRepo]; users, posts, products and
    orders appear as one opaque component [X], since the unit of work only copies
    their stores.  The snapshots are shallow copies of the dictionaries; since these
    repositories put new entities in place of old ones and never change one, a copy of the
    dictionary is a copy of its contents.  (The users, whose entities are shared and changed
    in place, are in [SqlUow].)  [with_uow] is [async with self.uow: body]. *)

From S2P Require Import Prelude PyDecimal Ledger.

Local Open Scope Z_scope.
Local Open Scope py_scope.

(** ** Outbox *)

(** [LedgerTransferCompletedEvent]: the payload of the ledger's outbox events.
    Amounts are the numbers printed with four places. *)
Record LedgerTransferCompletedEvent : Type := mkTransferEvent {
  ev_event_id : Z;
  ev_event_type : string;
  ev_reference_id : string;
  ev_source_account_id : Z;
  ev_destination_account_id : Z;
  ev_amount : decimal;
  ev_currency : string;
  ev_fee_amount : decimal;
  ev_posted_at : Z;
  ev_partition_key : Z
}.

(** [LedgerTransferCompletedEvent.create]; [f"{amount:.4f}"] rounds half-even. *)
Definition transfer_event_create (event_id : Z) (reference_id : string) (src dst : Z) (amount : decimal)
  (currency : string) (fee_amount : decimal) (posted_at : Z) : LedgerTransferCompletedEvent :=
  mkTransferEvent event_id "ledger.transfer.completed.v1" reference_id src dst (d4 (scaled4 amount))
    (py_upper currency) (d4 (scaled4 fee_amount)) posted_at src.

Inductive outbox_status : Type := PENDING | PUBLISHED | PROCESSED | FAILED.
#[global] Instance outbox_status_eq_dec : EqDecision outbox_status.
Proof. solve_decision. Defined.

(** [OutboxEventEntity]; [aggregate_id] is the partition key. *)
Record OutboxEvent : Type := mkOutboxEvent {
  ob_id : Z;
  ob_event_type : string;
  ob_aggregate_type : string;
  ob_aggregate_id : Z;
  ob_payload : LedgerTransferCompletedEvent;
  ob_status : outbox_status;
  ob_retry_count : Z;
  ob_created_at : Z;
  ob_published_at : option Z
}.

Definition outbox_repo : Type := list (Z * OutboxEvent).

(** [InMemoryOutboxRepository.create] *)
Definition ob_create (e : OutboxEvent) (r : outbox_repo) : outbox_repo := dict_set r (ob_id e) e.

(** [record_event] *)
Definition ob_record_event (eid now : Z) (event_type aggregate_type : string) (aggregate_id : Z)
  (payload : LedgerTransferCompletedEvent) (r : outbox_repo) : OutboxEvent * outbox_repo :=
  let entity := mkOutboxEvent eid event_type aggregate_type aggregate_id payload PENDING 0 now None in
  (entity, dict_set r eid entity).

Definition created_leb (a b : OutboxEvent) : bool := ob_created_at a <=? ob_created_at b.

(** [get_pending_events] *)
Definition ob_get_pending_events (batch_size : nat) (r : outbox_repo) : list OutboxEvent :=
  take batch_size (stable_sort created_leb (filter (fun e => ob_status e = PENDING) (r.*2))).

(** [mark_published] *)
Definition ob_mark_published (event_id : Z) (status : outbox_status) (now : Z) (r : outbox_repo)
  : option OutboxEvent * outbox_repo :=
  match dict_get r event_id with
  | None => (None, r)
  | Some e =>
      let updated := mkOutboxEvent (ob_id e) (ob_event_type e) (ob_aggregate_type e) (ob_aggregate_id e)
        (ob_payload e) status (ob_retry_count e) (ob_created_at e) (Some now) in
      (Some updated, dict_set r event_id updated)
  end.

(** [mark_failed] *)
Definition ob_mark_failed (event_id max_retries : Z) (r : outbox_repo) : option OutboxEvent * outbox_repo :=
  match dict_get r event_id with
  | None => (None, r)
  | Some e =>
      let new_retries := ob_retry_count e + 1 in
      let new_status := if max_retries <=? new_retries then FAILED else PENDING in
      let updated := mkOutboxEvent (ob_id e) (ob_event_type e) (ob_aggregate_type e) (ob_aggregate_id e)
        (ob_payload e) new_status new_retries (ob_created_at e) (ob_published_at e) in
      (Some updated, dict_set r event_id updated)
  end.

Definition ob_get_by_id (event_id : Z) (r : outbox_repo) : option OutboxEvent := dict_get r event_id.

(** [list_recent_events]: newest first; [reverse=True] keeps ties in order. *)
Definition ob_list_recent_events (limit : nat) (r : outbox_repo) : list OutboxEvent :=
  take limit (stable_sort (fun a b => ob_created_at b <=? ob_created_at a) (r.*2)).

(** ** Reconciliation repository *)

Inductive DiscrepancyType : Type := MATCHED | MISSING_IN_LEDGER | MISSING_IN_GATEWAY | AMOUNT_MISMATCH.
Inductive ResolutionStatus : Type := UNRESOLVED | AUTO_COMPENSATED | MANUAL_REVIEW | RESOLVED.
#[global] Instance DiscrepancyType_eq_dec : EqDecision DiscrepancyType.
Proof. solve_decision. Defined.
#[global] Instance ResolutionStatus_eq_dec : EqDecision ResolutionStatus.
Proof. solve_decision. Defined.

Record ReconciliationItem : Type := mkRecItem {
  ri_id : Z;
  ri_batch_id : Z;
  ri_reference_id : string;
  ri_external_amount : decimal;
  ri_internal_amount : option decimal;
  ri_discrepancy_type : DiscrepancyType;
  ri_resolution_status : ResolutionStatus;
  ri_compensating_id : option Z
}.

Record ReconciliationBatch : Type := mkRecBatch {
  rb_id : Z;
  rb_batch_reference : string;
  rb_gateway_name : string;
  rb_total_records : nat;
  rb_matched_records : nat;
  rb_discrepancy_records : nat;
  rb_status : string;
  rb_created_at : Z;
  rb_items : list ReconciliationItem
}.

Record recon_repo : Type := mkReconRepo {
  rc_batches : gmap Z ReconciliationBatch;
  rc_by_reference : gmap string Z
}.

(** [InMemoryReconciliationRepository.create_batch] *)
Definition rc_create_batch (b_id ts : Z) (batch_reference gateway_name : string)
  (total matched discrepancy : nat) (status : string) (items : list ReconciliationItem) (r : recon_repo)
  : ReconciliationBatch * recon_repo :=
  let materialized_items :=
    (fun i => mkRecItem (ri_id i) b_id (ri_reference_id i) (ri_external_amount i) (ri_internal_amount i)
                (ri_discrepancy_type i) (ri_resolution_status i) (ri_compensating_id i)) <$> items in
  let batch := mkRecBatch b_id batch_reference gateway_name total matched discrepancy status ts materialized_items in
  (batch, mkReconRepo (<[b_id := batch]> (rc_batches r)) (<[batch_reference := b_id]> (rc_by_reference r))).

Definition rc_get_batch_by_id (r : recon_repo) (b : Z) : option ReconciliationBatch := rc_batches r !! b.

Definition rc_get_batch_by_reference (r : recon_repo) (ref : string) : option ReconciliationBatch :=
  match rc_by_reference r !! ref with
  | None => None
  | Some b => rc_batches r !! b
  end.

(** ** [InMemoryUnitOfWork] *)

Section UnitOfWork.
Context {L X : Type}.

Record stores : Type := mkStores {
  st_ledger : L;
  st_outbox : outbox_repo;
  st_recon : recon_repo;
  st_other : X
}.

(** The live stores and the entry snapshot ([None] when cleared). *)
Record uow : Type := mkUow { u_live : stores; u_snapshot : option stores }.

Definition uow_aenter (u : uow) : uow := mkUow (u_live u) (Some (u_live u)).
Definition uow_clear_snapshots (u : uow) : uow := mkUow (u_live u) None.
Definition uow_commit (u : uow) : uow := uow_clear_snapshots u.
Definition uow_rollback (u : uow) : uow := mkUow (default (u_live u) (u_snapshot u)) (u_snapshot u).
Definition uow_aexit (raised : bool) (u : uow) : uow :=
  uow_clear_snapshots (if raised then uow_rollback u else u).

(** [async with self.uow: body], for a state that contains a unit of work. *)
Definition with_uow {S A} (get : S -> uow) (set : S -> uow -> S) (body : M S A) : M S A := fun s =>
  match body (set s (uow_aenter (get s))) with
  | (Ok a, s') => (Ok a, set s' (uow_aexit false (get s')))
  | (Raise e, s') => (Raise e, set s' (uow_aexit true (get s')))
  end.

Lemma uow_rollback_restores u live' :
  u_live (uow_aexit true (mkUow live' (u_snapshot (uow_aenter u)))) = u_live u.
Proof. done. Qed.

Lemma uow_commit_keeps u : u_live (uow_aexit true (uow_commit u)) = u_live u.
Proof. done. Qed.
End UnitOfWork.
Arguments stores : clear implicits.
Arguments uow : clear implicits.
