(* ===== verification/OutboxRelay.v ===== *)
(** The outbox relays: [app/services/ledger_outbox_relay_service.py] (ledger events
    to Kafka) and [app/services/outbox_relay_service.py] (the general relay).  Both
    poll the same outbox repository inside a unit of work.

    Kafka is outside the repository: [ack n] says whether the [n]-th message handed
    to [send_and_wait] is acknowledged or the call raises, and [rl_log] lists the
    acknowledged messages with their topic and key.  Payload serialization of the
    all-string event payload does not fail, and the message value is the payload. *)

From S2P Require Import Prelude PyDecimal Ledger Uow.

Local Open Scope Z_scope.
Local Open Scope py_scope.

(** The topic chosen by [LedgerOutboxRelayService.publish_pending_events]. *)
Definition ledger_topic (e : OutboxEvent) : string :=
  if negb (bool_decide (ob_aggregate_type e = "")) && py_in "." (ob_aggregate_type e)
  then ob_aggregate_type e else "ledger.transfers.v1".

(** [OutboxRelayService._resolve_topic] *)
Definition resolve_topic (e : OutboxEvent) : string :=
  if decide (ob_aggregate_type e = "order") then "orders.events"
  else if decide (ob_aggregate_type e = "payment") then "payments.events"
  else ob_aggregate_type e +:+ "s.events".

Definition message : Type := (string * Z * LedgerTransferCompletedEvent)%type.

Section Relay.
Context {L X : Type}.
Variables (ack : nat -> bool) (now : nat -> Z).

Record rstate : Type := mkRl { rl_uow : uow L X; rl_log : list message; rl_sends : nat }.

Definition rl_outbox (s : rstate) : outbox_repo := st_outbox (u_live (rl_uow s)).
Definition rl_set_uow (s : rstate) (u : uow L X) : rstate := mkRl u (rl_log s) (rl_sends s).
Definition rl_set_outbox (s : rstate) (o : outbox_repo) : rstate :=
  let u := rl_uow s in
  rl_set_uow s (mkUow (mkStores (st_ledger (u_live u)) o (st_recon (u_live u)) (st_other (u_live u))) (u_snapshot u)).

(** [producer.send_and_wait(topic, key, value)] *)
Definition send_and_wait (m : message) : M rstate () := fun s =>
  if ack (rl_sends s) then (Ok (), mkRl (rl_uow s) (rl_log s ++ [m]) (S (rl_sends s)))
  else (Raise ServiceUnavailableException, mkRl (rl_uow s) (rl_log s) (S (rl_sends s))).

(** The [try] block of the loop body: send, then mark; [except]: mark failed.  The
    result tells whether the event was counted as dispatched. *)
Definition dispatch (topic_of : OutboxEvent -> string) (status : outbox_status) (e : OutboxEvent) : M rstate bool :=
  try_except
    (send_and_wait (topic_of e, ob_aggregate_id e, ob_payload e);;;
     modify (fun s => rl_set_outbox s (ob_mark_published (ob_id e) status (now (rl_sends s)) (rl_outbox s)).2);;;
     ret true)
    (fun _ => modify (fun s => rl_set_outbox s (ob_mark_failed (ob_id e) 3 (rl_outbox s)).2);;; ret false).

(** The loop, counting dispatched and failed events. *)
Fixpoint dispatch_all (topic_of : OutboxEvent -> string) (status : outbox_status) (es : list OutboxEvent)
  (sent failed : nat) : M rstate (nat * nat) :=
  match es with
  | [] => ret (sent, failed)
  | e :: es' =>
      let! ok := dispatch topic_of status e in
      if ok : bool then dispatch_all topic_of status es' (S sent) failed
      else dispatch_all topic_of status es' sent (S failed)
  end.

Definition rl_commit : M rstate () := modify (fun s => rl_set_uow s (uow_commit (rl_uow s))).

(** [LedgerOutboxRelayService.publish_pending_events] *)
Definition publish_pending_events (batch_size : nat) : M rstate nat :=
  with_uow rl_uow rl_set_uow (
    let! pending := gets (fun s => ob_get_pending_events batch_size (rl_outbox s)) in
    match pending with
    | [] => ret 0%nat
    | _ =>
        let! counts := dispatch_all ledger_topic PROCESSED pending 0 0 in
        rl_commit;;; ret counts.1
    end).

(** [OutboxRelayService.poll_and_publish_pending_events]: polled, published and
    failed counts. *)
Definition poll_and_publish_pending_events (batch_size : nat) : M rstate (nat * nat * nat) :=
  with_uow rl_uow rl_set_uow (
    let! pending := gets (fun s => ob_get_pending_events batch_size (rl_outbox s)) in
    match pending with
    | [] => ret (0, 0, 0)%nat
    | _ =>
        let! counts := dispatch_all resolve_topic PUBLISHED pending 0 0 in
        rl_commit;;; ret (length pending, counts.1, counts.2)
    end).

(** [get_pending_audit_events] *)
Definition get_pending_audit_events (limit : nat) : M rstate (list OutboxEvent) :=
  with_uow rl_uow rl_set_uow (gets (fun s => ob_get_pending_events limit (rl_outbox s))).
End Relay.
Arguments rstate : clear implicits.

(** ** What a relay run does *)

(** Events sit under their own identifier, once. *)
Definition ob_wf (o : outbox_repo) : Prop := NoDup o.*1 /\ Forall (fun p => ob_id p.2 = p.1) o.

Definition marked_done (status : outbox_status) (t : Z) (e : OutboxEvent) : OutboxEvent :=
  mkOutboxEvent (ob_id e) (ob_event_type e) (ob_aggregate_type e) (ob_aggregate_id e) (ob_payload e) status
    (ob_retry_count e) (ob_created_at e) (Some t).
Definition marked_failed (e : OutboxEvent) : OutboxEvent :=
  mkOutboxEvent (ob_id e) (ob_event_type e) (ob_aggregate_type e) (ob_aggregate_id e) (ob_payload e)
    (if 3 <=? ob_retry_count e + 1 then FAILED else PENDING) (ob_retry_count e + 1) (ob_created_at e) (ob_published_at e).

Lemma ob_wf_get o id e : ob_wf o -> dict_get o id = Some e -> ob_id e = id.
Proof. intros [_ Hf] He%dict_get_elem. rewrite Forall_forall in Hf. exact (Hf _ He). Qed.

Lemma ob_wf_set o id e : ob_wf o -> ob_id e = id -> ob_wf (dict_set o id e).
Proof. intros [Hn Hf] He. split; [by apply dict_set_NoDup|]. by apply dict_set_Forall. Qed.

Lemma pending_stored b o e : ob_wf o -> e ∈ ob_get_pending_events b o -> dict_get o (ob_id e) = Some e /\ ob_status e = PENDING.
Proof.
  intros [Hn Hf] He. unfold ob_get_pending_events in He.
  apply (subseteq_take b) in He. rewrite stable_sort_perm, list_elem_of_filter, list_elem_of_fmap in He.
  destruct He as (Hst & [id e'] & -> & Hin). split; [|done]. rewrite Forall_forall in Hf.
  pose proof (Hf _ Hin) as Hid. cbn in Hid |- *. rewrite Hid. by apply dict_elem_get.
Qed.

Lemma NoDup_filter_ids o : NoDup o.*1 -> Forall (fun p => ob_id p.2 = p.1) o ->
  NoDup (ob_id <$> filter (fun e => ob_status e = PENDING) o.*2).
Proof.
  intros Hn Hf. induction o as [|[id e] o IH]; [constructor|].
  apply Forall_cons in Hf as [He Hf]. apply NoDup_cons in Hn as [Hni Hn]. cbn in He.
  change (((id, e) :: o).*2) with (e :: o.*2).
  rewrite filter_cons. case_decide; [|by apply IH]. rewrite fmap_cons. apply NoDup_cons. split; [|by apply IH].
  intros (e' & Heq & He')%list_elem_of_fmap. apply list_elem_of_filter in He' as [_ ([id' e''] & -> & Hin)%list_elem_of_fmap].
  apply Hni, list_elem_of_fmap. exists (id', e''). split; [|done]. rewrite Forall_forall in Hf.
  specialize (Hf _ Hin). cbn in *. congruence.
Qed.

Lemma pending_NoDup b o : ob_wf o -> NoDup (ob_id <$> ob_get_pending_events b o).
Proof.
  intros [Hn Hf]. unfold ob_get_pending_events. rewrite fmap_take. eapply sublist_NoDup; [|apply sublist_take].
  rewrite stable_sort_perm. by apply NoDup_filter_ids.
Qed.

Section Runs.
Context {L X : Type}.
Variables (ack : nat -> bool) (now : nat -> Z).
Implicit Types (s : rstate L X) (e : OutboxEvent).

(** The events of a batch whose sends, numbered from [n], are acknowledged. *)
Fixpoint acked (n : nat) (es : list OutboxEvent) : list OutboxEvent :=
  match es with
  | [] => []
  | e :: es' => if ack n then e :: acked (S n) es' else acked (S n) es'
  end.

Definition settled (status : outbox_status) (n : nat) (e : OutboxEvent) : OutboxEvent :=
  if ack n then marked_done status (now (S n)) e else marked_failed e.

Definition msg (topic_of : OutboxEvent -> string) (e : OutboxEvent) : message := (topic_of e, ob_aggregate_id e, ob_payload e).

(** The effect of the loop over [es] on the state. *)
Record relayed (topic_of : OutboxEvent -> string) (status : outbox_status) (es : list OutboxEvent) (s s' : rstate L X)
  : Prop := {
  rd_log : rl_log s' = rl_log s ++ (msg topic_of <$> acked (rl_sends s) es);
  rd_sends : rl_sends s' = (rl_sends s + length es)%nat;
  rd_batch i e : es !! i = Some e -> dict_get (rl_outbox s') (ob_id e) = Some (settled status (rl_sends s + i) e);
  rd_rest id : id ∉ ob_id <$> es -> dict_get (rl_outbox s') id = dict_get (rl_outbox s) id;
  rd_wf : ob_wf (rl_outbox s');
  rd_ledger : st_ledger (u_live (rl_uow s')) = st_ledger (u_live (rl_uow s));
  rd_recon : st_recon (u_live (rl_uow s')) = st_recon (u_live (rl_uow s));
  rd_other : st_other (u_live (rl_uow s')) = st_other (u_live (rl_uow s))
}.

Lemma dispatch_run topic_of status e s :
  ob_wf (rl_outbox s) -> dict_get (rl_outbox s) (ob_id e) = Some e ->
  dispatch ack now topic_of status e s =
  (Ok (ack (rl_sends s)),
   rl_set_outbox (mkRl (rl_uow s) (rl_log s ++ (if ack (rl_sends s) then [msg topic_of e] else [])) (S (rl_sends s)))
     (dict_set (rl_outbox s) (ob_id e) (settled status (rl_sends s) e))).
Proof.
  intros Hwf He. unfold dispatch, try_except, send_and_wait, settled, bind, modify, ret.
  destruct (ack (rl_sends s)); cbn -[rl_set_outbox];
    unfold ob_mark_published, ob_mark_failed; change (rl_outbox (mkRl (rl_uow s) ?l ?n)) with (rl_outbox s);
    rewrite He; [done|by rewrite app_nil_r].
Qed.

Lemma dispatch_all_run topic_of status es sent failed s :
  ob_wf (rl_outbox s) -> NoDup (ob_id <$> es) -> (forall e, e ∈ es -> dict_get (rl_outbox s) (ob_id e) = Some e) ->
  exists s', dispatch_all ack now topic_of status es sent failed s =
    (Ok (sent + length (acked (rl_sends s) es), failed + (length es - length (acked (rl_sends s) es)))%nat, s') /\
    (length (acked (rl_sends s) es) <= length es)%nat /\ relayed topic_of status es s s'.
Proof.
  revert sent failed s. induction es as [|e es IH]; intros sent failed s Hwf Hnd Hin.
  { exists s. cbn. rewrite !Nat.add_0_r. split; [done|]. split; [done|]. constructor; try done; cbn; by rewrite ?app_nil_r, ?Nat.add_0_r. }
  apply NoDup_cons in Hnd as [Hne Hnd].
  assert (dict_get (rl_outbox s) (ob_id e) = Some e) as He by (apply Hin; set_solver).
  set (s1 := rl_set_outbox (mkRl (rl_uow s) (rl_log s ++ (if ack (rl_sends s) then [msg topic_of e] else []))
    (S (rl_sends s))) (dict_set (rl_outbox s) (ob_id e) (settled status (rl_sends s) e))).
  assert (rl_outbox s1 = dict_set (rl_outbox s) (ob_id e) (settled status (rl_sends s) e)) as Ho1 by done.
  assert (ob_wf (rl_outbox s1)) as Hwf1.
  { rewrite Ho1. apply ob_wf_set; [done|]. unfold settled. by destruct (ack _). }
  destruct (IH (if ack (rl_sends s) then S sent else sent) (if ack (rl_sends s) then failed else S failed) s1 Hwf1 Hnd)
    as (s' & Hrun & Hle & R).
  { intros e' He'. rewrite Ho1, dict_get_set_ne; [apply Hin; set_solver|]. intros Heq. apply Hne. rewrite Heq. set_solver. }
  exists s'. change (rl_sends s1) with (S (rl_sends s)) in *. split.
  { cbn [dispatch_all]. unfold bind. rewrite dispatch_run by done. fold s1. cbn [acked].
    destruct (ack (rl_sends s)); rewrite Hrun; cbn [length]; do 3 f_equal; lia. }
  split; [cbn; destruct (ack _); cbn; lia|]. destruct R as [Rl Rs Rb Rr Rw Rg Rc Rx].
  constructor; try done.
  - rewrite Rl. cbn. change (rl_sends s1) with (S (rl_sends s)). destruct (ack (rl_sends s)); cbn; by rewrite <-app_assoc.
  - rewrite Rs. change (rl_sends s1) with (S (rl_sends s)). cbn. lia.
  - intros [|i] e' Hi; cbn in Hi.
    + injection Hi as <-. rewrite Rr by done. rewrite Ho1, dict_get_set_eq, Nat.add_0_r. done.
    + rewrite (Rb i e' Hi). change (rl_sends s1) with (S (rl_sends s)). do 2 f_equal. lia.
  - intros id Hid. cbn in Hid. rewrite Rr, Ho1, dict_get_set_ne by set_solver. done.
Qed.

(** A run of either relay: everything of the loop, nothing else. *)
Lemma relay_run topic_of status batch s : ob_wf (rl_outbox s) ->
  let pend := ob_get_pending_events batch (rl_outbox s) in
  exists s1, dispatch_all ack now topic_of status pend 0 0 (rl_set_uow s (uow_aenter (rl_uow s))) =
    (Ok (length (acked (rl_sends s) pend), length pend - length (acked (rl_sends s) pend))%nat, s1) /\
  relayed topic_of status pend s s1.
Proof.
  intros Hwf pend.
  destruct (dispatch_all_run topic_of status pend 0 0 (rl_set_uow s (uow_aenter (rl_uow s)))) as (s1 & Hrun & _ & R);
    [done|by apply pending_NoDup|intros e He; by eapply pending_stored|].
  exists s1. split; [exact Hrun|]. destruct R. by constructor.
Qed.

Lemma publish_run batch s : ob_wf (rl_outbox s) ->
  let pend := ob_get_pending_events batch (rl_outbox s) in
  exists s', publish_pending_events ack now batch s = (Ok (length (acked (rl_sends s) pend)), s') /\
    relayed ledger_topic PROCESSED pend s s' /\ u_snapshot (rl_uow s') = None.
Proof.
  intros Hwf pend. destruct (relay_run ledger_topic PROCESSED batch s Hwf) as (s1 & Hrun & R). fold pend in Hrun, R.
  unfold publish_pending_events, with_uow. rewrite bind_gets_run. change (rl_outbox (rl_set_uow s _)) with (rl_outbox s).
  fold pend. destruct pend as [|e es].
  { eexists. split; [done|]. split; [|done]. constructor; try done; cbn; by rewrite ?app_nil_r, ?Nat.add_0_r. }
  rewrite (bind_ret_eq _ _ _ _ _ Hrun). cbn -[acked]. eexists. split; [done|]. split; [|done].
  destruct R. by constructor.
Qed.

Lemma poll_run batch s : ob_wf (rl_outbox s) ->
  let pend := ob_get_pending_events batch (rl_outbox s) in
  exists s', poll_and_publish_pending_events ack now batch s =
    (Ok (length pend, length (acked (rl_sends s) pend), length pend - length (acked (rl_sends s) pend))%nat, s') /\
    relayed resolve_topic PUBLISHED pend s s'.
Proof.
  intros Hwf pend. destruct (relay_run resolve_topic PUBLISHED batch s Hwf) as (s1 & Hrun & R). fold pend in Hrun, R.
  unfold poll_and_publish_pending_events, with_uow. rewrite bind_gets_run.
  change (rl_outbox (rl_set_uow s _)) with (rl_outbox s).
  fold pend. destruct pend as [|e es].
  { eexists. split; [done|]. constructor; try done; cbn; by rewrite ?app_nil_r, ?Nat.add_0_r. }
  rewrite (bind_ret_eq _ _ _ _ _ Hrun). cbn -[acked]. eexists. split; [done|]. destruct R. by constructor.
Qed.
End Runs.

Definition pending_count (o : outbox_repo) : nat := length (filter (fun e => ob_status e = PENDING) o.*2).

Lemma stored_pending b o id e : dict_get o id = Some e -> ob_status e = PENDING -> (pending_count o <= b)%nat ->
  e ∈ ob_get_pending_events b o.
Proof.
  intros He%dict_get_elem Hp Hb. unfold ob_get_pending_events. rewrite take_ge.
  - rewrite stable_sort_perm, list_elem_of_filter, list_elem_of_fmap. split; [done|]. by exists (id, e).
  - by rewrite stable_sort_perm.
Qed.

Lemma created_leb_total a b : created_leb a b = true \/ created_leb b a = true.
Proof. unfold created_leb. lia. Qed.
Lemma created_leb_trans a b c : created_leb a b = true -> created_leb b c = true -> created_leb a c = true.
Proof. unfold created_leb. lia. Qed.

(** The batch: its size, and that it holds the oldest. *)
Lemma pending_length batch o : length (ob_get_pending_events batch o) = Nat.min batch (pending_count o).
Proof. unfold ob_get_pending_events, pending_count. by rewrite length_take, stable_sort_perm. Qed.

Lemma pending_ids batch o : ob_wf o -> NoDup (ob_id <$> ob_get_pending_events batch o).
Proof.
  intros [Hnd Hid]. unfold ob_get_pending_events. rewrite fmap_take.
  apply (sublist_NoDup _ (ob_id <$> stable_sort created_leb (filter (fun e => ob_status e = PENDING) o.*2)));
    [|apply sublist_take]. rewrite stable_sort_perm. by apply NoDup_filter_ids.
Qed.

Lemma pending_oldest batch o id e e' : dict_get o id = Some e' -> ob_status e' = PENDING ->
  e' ∉ ob_get_pending_events batch o -> e ∈ ob_get_pending_events batch o -> ob_created_at e <= ob_created_at e'.
Proof.
  unfold ob_get_pending_events. intros Hg Hp. set (l := stable_sort _ _).
  assert (e' ∈ l) as Hin.
  { unfold l. rewrite stable_sort_perm. apply list_elem_of_filter. split; [done|]. apply list_elem_of_fmap.
    exists (id, e'). split; [done|]. by apply dict_get_elem. }
  assert (StronglySorted (fun a b => created_leb a b = true) l) as Hs by (apply stable_sort_sorted; [exact created_leb_total|exact created_leb_trans]).
  clearbody l. rewrite <-(take_drop batch l) in Hin, Hs. intros Hout He. apply elem_of_app in Hin as [Hin|Hin]; [done|].
  pose proof (StronglySorted_app_1_elem_of _ _ _ e e' Hs He Hin) as H. unfold created_leb in H. lia.
Qed.

(** C21: at-least-once relaying of ledger events.  A run never raises.  It takes the
    oldest pending events, each once and oldest first, as many as there are up to the
    batch size (none that is left out is older than one that is taken), and hands each to the
    broker with the partition key and the payload of the event; the
    acknowledged ones, in that order, are what the broker log gains and what the
    returned count counts.  An event becomes PROCESSED exactly when its own message
    was acknowledged; otherwise its retry count goes up by one and it stays
    PENDING until the third failure, which makes it FAILED.  Events outside the
    batch, the ledger and all other stores are not touched. *)
Theorem relay_at_least_once {L X} (ack : nat -> bool) (now : nat -> Z) (batch : nat) (s : rstate L X)
  (Hwf : ob_wf (rl_outbox s)) :
  let n := rl_sends s in
  let pend := ob_get_pending_events batch (rl_outbox s) in
  let '(res, s') := publish_pending_events ack now batch s in
  StronglySorted (fun a b => ob_created_at a <= ob_created_at b) pend /\
  (forall e, e ∈ pend -> ob_status e = PENDING /\ dict_get (rl_outbox s) (ob_id e) = Some e) /\
  length pend = Nat.min batch (pending_count (rl_outbox s)) /\ NoDup (ob_id <$> pend) /\
  (forall id e', dict_get (rl_outbox s) id = Some e' -> ob_status e' = PENDING -> e' ∉ pend ->
     forall e, e ∈ pend -> ob_created_at e <= ob_created_at e') /\
  res = Ok (length (acked ack n pend)) /\
  rl_log s' = rl_log s ++ ((fun e => (ledger_topic e, ob_aggregate_id e, ob_payload e)) <$> acked ack n pend) /\
  (forall i e, pend !! i = Some e -> dict_get (rl_outbox s') (ob_id e) =
     Some (if ack (n + i)%nat then marked_done PROCESSED (now (S (n + i))) e else marked_failed e)) /\
  (forall id, id ∉ ob_id <$> pend -> dict_get (rl_outbox s') id = dict_get (rl_outbox s) id) /\
  ob_wf (rl_outbox s') /\
  st_ledger (u_live (rl_uow s')) = st_ledger (u_live (rl_uow s)) /\
  st_recon (u_live (rl_uow s')) = st_recon (u_live (rl_uow s)) /\
  st_other (u_live (rl_uow s')) = st_other (u_live (rl_uow s)).
Proof.
  cbv zeta. destruct (publish_run ack now batch s Hwf) as (s' & -> & R & _).
  split. { apply StronglySorted_take. eapply (StronglySorted_impl (fun a b => created_leb a b = true)).
    - unfold created_leb. intros; lia.
    - apply stable_sort_sorted; [exact created_leb_total|exact created_leb_trans]. }
  split. { intros e He. apply and_comm. by eapply pending_stored. }
  split. { apply pending_length. }
  split. { by apply pending_ids. }
  split. { intros id e' He' Hp Hout e He. by eapply pending_oldest. }
  split; [done|]. destruct R. repeat split; auto; apply rd_wf0.
Qed.

Definition ex_event (id ref : Z) (created : Z) : OutboxEvent :=
  mkOutboxEvent id "ledger.transfer.completed.v1" "ledger.transfers.v1" 7
    (mkTransferEvent id "ledger.transfer.completed.v1" "r" 7 8 (d4 (ref * 10000)) "USD" (d4 0) created 7) PENDING 0 created None.
Definition ex_relay (o : outbox_repo) : rstate () () :=
  mkRl (mkUow (mkStores () o (mkReconRepo ∅ ∅) ()) None) [] 0.

Lemma ex_relay_wf : ob_wf (rl_outbox (ex_relay [(1, ex_event 1 10 100); (2, ex_event 2 20 200)])).
Proof. split; [|by repeat constructor]. apply NoDup_cons. split; [set_solver|]. apply NoDup_singleton. Qed.

Lemma relay_at_least_once_witness :
  let run := publish_pending_events (fun n => (n =? 0)%nat) (fun n => Z.of_nat n) 50
    (ex_relay [(1, ex_event 1 10 100); (2, ex_event 2 20 200)]) in
  run.1 = Ok 1%nat /\ ob_wf (rl_outbox run.2) /\
  (ob_status <$> dict_get (rl_outbox run.2) 1) = Some PROCESSED /\ (ob_status <$> dict_get (rl_outbox run.2) 2) = Some PENDING.
Proof.
  pose proof (relay_at_least_once (fun n => (n =? 0)%nat) (fun n => Z.of_nat n) 50 _ ex_relay_wf) as H.
  destruct (publish_pending_events _ _ _ _) as [res s'] eqn:E.
  destruct H as (_ & _ & _ & _ & _ & -> & _ & Hb & _ & Hwf & _).
  split; [vm_compute; reflexivity|]. split; [exact Hwf|].
  pose proof (Hb 0%nat _ eq_refl) as H1. pose proof (Hb 1%nat _ eq_refl) as H2. cbn in H1, H2 |- *.
  rewrite H1, H2. split; reflexivity.
Defined.

(** ** Order and loss *)

Lemma pending_two e1 e2 b :
  ob_status e1 = PENDING -> ob_created_at e1 < ob_created_at e2 -> (2 <= b)%nat ->
  ob_get_pending_events b [(ob_id e1, e1); (ob_id e2, e2)] =
  if decide (ob_status e2 = PENDING) then [e1; e2] else [e1].
Proof.
  intros H1 Hc Hb. unfold ob_get_pending_events. change ([(ob_id e1, e1); (ob_id e2, e2)].*2) with [e1; e2].
  rewrite !filter_cons, filter_nil, (decide_True (P:=ob_status e1 = PENDING)) by done.
  destruct (decide (ob_status e2 = PENDING)); cbn.
  - unfold created_leb. rewrite (proj2 (Z.leb_le _ _)) by lia. by rewrite take_ge.
  - rewrite take_ge; [done|]. cbn. lia.
Qed.

(** When [x] is the only pending event. *)
Lemma pending_unique b o x : ob_wf o -> (1 <= b)%nat -> dict_get o (ob_id x) = Some x -> ob_status x = PENDING ->
  (forall id e, dict_get o id = Some e -> ob_status e = PENDING -> e = x) -> ob_get_pending_events b o = [x].
Proof.
  intros Hwf Hb Hx Hp Hu.
  assert (Forall (fun e => e = x) (ob_get_pending_events b o)) as Hall.
  { apply Forall_forall. intros e He. destruct (pending_stored _ _ _ Hwf He). eauto. }
  assert (ob_get_pending_events b o <> []) as Hne.
  { unfold ob_get_pending_events. intros Hnil. apply take_nil_inv in Hnil as [|Hnil]; [lia|].
    assert (x ∈ filter (fun e => ob_status e = PENDING) o.*2) as Hin.
    { apply list_elem_of_filter. split; [done|]. apply list_elem_of_fmap. exists (ob_id x, x). split; [done|]. by apply dict_get_elem. }
    rewrite <-(stable_sort_perm created_leb), Hnil in Hin. set_solver. }
  pose proof (pending_NoDup b o Hwf) as Hnd.
  destruct (ob_get_pending_events b o) as [|e [|e' es]]; [done|by apply Forall_cons in Hall as [-> _]|].
  apply Forall_cons in Hall as [-> [-> _]%Forall_cons]. apply NoDup_cons in Hnd as [Hnd _]. set_solver.
Qed.

(** One failed send reorders the events of an account.  With two pending
    events of the same account, if the broker refuses the first one once and
    accepts everything after, two relay runs leave the later event before the
    earlier one in the same topic under the same key. *)
Theorem relay_breaks_fifo {L X} (ack : nat -> bool) (now : nat -> Z) (b : nat) (e1 e2 : OutboxEvent) (s : rstate L X)
  (Ho : rl_outbox s = [(ob_id e1, e1); (ob_id e2, e2)]) (Hid : ob_id e1 <> ob_id e2)
  (Hp : ob_status e1 = PENDING /\ ob_status e2 = PENDING) (Hr : ob_retry_count e1 = 0)
  (Hkey : ob_aggregate_id e1 = ob_aggregate_id e2 /\ ob_aggregate_type e1 = ob_aggregate_type e2)
  (Hc : ob_created_at e1 < ob_created_at e2) (Hb : (2 <= b)%nat) (Hack : forall n, ack n = negb (n =? rl_sends s)%nat) :
  let s1 := (publish_pending_events ack now b s).2 in
  let s2 := (publish_pending_events ack now b s1).2 in
  rl_log s2 = rl_log s ++ [(ledger_topic e1, ob_aggregate_id e1, ob_payload e2);
                           (ledger_topic e1, ob_aggregate_id e1, ob_payload e1)].
Proof.
  destruct Hp as [Hp1 Hp2], Hkey as [Hk Ht]. cbv zeta.
  assert (ob_wf (rl_outbox s)) as Hwf.
  { rewrite Ho. split; [|by repeat constructor]. apply NoDup_cons. split; [set_solver|]. apply NoDup_singleton. }
  destruct (publish_run ack now b s Hwf) as (s1 & -> & R1 & _). cbn [snd].
  rewrite Ho, pending_two, decide_True in R1 by done.
  set (n := rl_sends s) in *.
  assert (ack n = false) as A0 by (rewrite Hack; fold n; by rewrite Nat.eqb_refl).
  assert (forall m, ack (S (n + m)) = true) as A1.
  { intros m. rewrite Hack. fold n. destruct (Nat.eqb_spec (S (n + m)) n); [lia|done]. }
  destruct R1 as [L1 S1 B1 F1 W1 _ _ _].
  fold n in L1, S1. cbn [acked length] in L1, S1. rewrite A0, <-(Nat.add_0_r n), A1 in L1. cbn in L1.
  pose proof (B1 0%nat e1 eq_refl) as G1. pose proof (B1 1%nat e2 eq_refl) as G2. unfold settled in G1, G2.
  fold n in G1, G2. rewrite Nat.add_0_r, A0 in G1. rewrite Nat.add_comm in G2. cbn [Nat.add] in G2.
  rewrite <-(Nat.add_0_r n), A1 in G2.
  assert (ob_get_pending_events b (rl_outbox s1) = [marked_failed e1]) as P1.
  { apply pending_unique; [done|lia|done|unfold marked_failed; by rewrite Hr|].
    intros id e He Hpe. destruct (decide (id = ob_id e1)) as [->|N1]; [congruence|].
    destruct (decide (id = ob_id e2)) as [->|N2]; [rewrite G2 in He; by injection He as <-|].
    rewrite F1, Ho in He by set_solver. cbn in He. by repeat case_decide. }
  destruct (publish_run ack now b s1 W1) as (s2 & -> & R2 & _). cbn [snd]. rewrite P1 in R2.
  destruct R2 as [L2 _ _ _ _ _ _ _]. rewrite L2, L1, S1. fold n. cbn [acked].
  rewrite Nat.add_succ_r, A1. cbn. rewrite <-app_assoc. cbn. unfold msg, ledger_topic. cbn. by rewrite Hk, Ht.
Qed.

Lemma relay_breaks_fifo_witness :
  let ack n := negb (n =? 0)%nat in
  let s1 := (publish_pending_events ack Z.of_nat 50 (ex_relay [(1, ex_event 1 10 100); (2, ex_event 2 20 200)])).2 in
  let s2 := (publish_pending_events ack Z.of_nat 50 s1).2 in
  rl_log s2 = [("ledger.transfers.v1", 7, ob_payload (ex_event 2 20 200)); ("ledger.transfers.v1", 7, ob_payload (ex_event 1 10 100))].
Proof.
  apply (relay_breaks_fifo (fun n => negb (n =? 0)%nat) Z.of_nat 50 (ex_event 1 10 100) (ex_event 2 20 200)
    (ex_relay [(1, ex_event 1 10 100); (2, ex_event 2 20 200)])); try done; cbn; lia.
Defined.

Lemma acked_all (ack : nat -> bool) n es : (forall m, ack m = true) -> acked ack n es = es.
Proof. intros Ha. revert n. induction es as [|e es IH]; intros n; cbn; [done|]. by rewrite Ha, IH. Qed.

Lemma pending_none b o : ob_wf o -> (forall id e, dict_get o id = Some e -> ob_status e <> PENDING) -> ob_get_pending_events b o = [].
Proof.
  intros Hwf Hn. destruct (ob_get_pending_events b o) as [|e es] eqn:E; [done|]. exfalso.
  destruct (pending_stored b o e Hwf) as [Hs Hp]; [rewrite E; set_solver|]. exact (Hn _ _ Hs Hp).
Qed.

(** The general relay takes the ledger's events.  Both relays poll the same
    outbox without a filter.  When the general relay runs first, every ledger
    event is acknowledged under the topic "ledger.transfers.v1s.events" and marked
    PUBLISHED, and the ledger relay that runs next relays nothing: its topic
    "ledger.transfers.v1" receives none of them. *)
Theorem general_relay_takes_ledger_events {L X} (ack : nat -> bool) (now : nat -> Z) (b b2 : nat) (s : rstate L X)
  (Hwf : ob_wf (rl_outbox s)) (Hack : forall n, ack n = true) (Hb : (pending_count (rl_outbox s) <= b)%nat)
  (Hty : forall id e, dict_get (rl_outbox s) id = Some e -> ob_aggregate_type e = "ledger.transfers.v1") :
  let s1 := (poll_and_publish_pending_events ack now b s).2 in
  let '(res, s2) := publish_pending_events ack now b2 s1 in
  res = Ok 0%nat /\
  rl_log s2 = rl_log s ++ ((fun e => ("ledger.transfers.v1s.events", ob_aggregate_id e, ob_payload e)) <$>
    ob_get_pending_events b (rl_outbox s)).
Proof.
  destruct (poll_run ack now b s Hwf) as (s1 & -> & R1). cbn [snd]. destruct R1 as [L1 _ B1 F1 W1 _ _ _].
  rewrite acked_all in L1 by done.
  assert (ob_get_pending_events b2 (rl_outbox s1) = []) as P1.
  { apply pending_none; [done|]. intros id e He Hp.
    destruct (decide (id ∈ ob_id <$> ob_get_pending_events b (rl_outbox s))) as [Hin|Hout].
    - apply list_elem_of_fmap in Hin as (e0 & -> & [i Hi]%list_elem_of_lookup_1).
      rewrite (B1 _ _ Hi) in He. unfold settled in He. rewrite Hack in He. by injection He as <-.
    - rewrite F1 in He by done. apply Hout. apply list_elem_of_fmap. exists e.
      split; [symmetry; exact (ob_wf_get _ _ _ Hwf He)|]. by eapply stored_pending. }
  destruct (publish_run ack now b2 s1 W1) as (s2 & -> & R2 & _). rewrite P1 in *. split; [done|].
  destruct R2 as [L2 _ _ _ _ _ _ _]. rewrite L2, L1. cbn. rewrite app_nil_r. f_equal.
  apply list_fmap_ext. intros i e Hi. apply list_elem_of_lookup_2, pending_stored in Hi as [Hs _]; [|done].
  unfold msg, resolve_topic. by rewrite (Hty _ _ Hs).
Qed.

Lemma general_relay_takes_ledger_events_witness :
  let s1 := (poll_and_publish_pending_events (fun _ => true) Z.of_nat 50
    (ex_relay [(1, ex_event 1 10 100); (2, ex_event 2 20 200)])).2 in
  (publish_pending_events (fun _ => true) Z.of_nat 50 s1).1 = Ok 0%nat.
Proof.
  pose proof (general_relay_takes_ledger_events (fun _ => true) Z.of_nat 50 50 _ ex_relay_wf) as H. cbv zeta in H |- *.
  destruct (publish_pending_events _ _ _ _) as [res s2] in H |- *. apply H; [done|vm_compute; lia|].
  intros id e. cbn. repeat case_decide; intros Hg; simplify_eq; reflexivity.
Defined.

(** An event that the broker refuses three times is FAILED and is not sent again,
    although the broker would accept it. *)
Theorem relay_gives_up {L X} (ack : nat -> bool) (now : nat -> Z) (b : nat) (e : OutboxEvent) (s : rstate L X)
  (Ho : rl_outbox s = [(ob_id e, e)]) (Hp : ob_status e = PENDING) (Hr : ob_retry_count e = 0) (Hb : (1 <= b)%nat)
  (Hack : forall n, ack n = (rl_sends s + 3 <=? n)%nat) :
  let run s := (publish_pending_events ack now b s).2 in
  rl_log (run (run (run (run s)))) = rl_log s /\
  ob_status <$> dict_get (rl_outbox (run (run (run (run s))))) (ob_id e) = Some FAILED.
Proof.
  cbv zeta.
  (* one refused run over a single pending event *)
  assert (forall k x (s0 : rstate L X), ob_wf (rl_outbox s0) -> (forall id y, dict_get (rl_outbox s0) id = Some y -> id = ob_id x) ->
    dict_get (rl_outbox s0) (ob_id x) = Some x -> ob_status x = PENDING -> rl_sends s0 = (rl_sends s + k)%nat -> (k < 3)%nat ->
    let s' := (publish_pending_events ack now b s0).2 in
    ob_wf (rl_outbox s') /\ (forall id y, dict_get (rl_outbox s') id = Some y -> id = ob_id x) /\
    dict_get (rl_outbox s') (ob_id x) = Some (marked_failed x) /\ rl_sends s' = (rl_sends s + S k)%nat /\ rl_log s' = rl_log s0) as Step.
  { intros k x s0 Hwf Hu Hx Hpx Hn Hk. cbv zeta.
    assert (ob_get_pending_events b (rl_outbox s0) = [x]) as P.
    { apply pending_unique; try done. intros id y Hy _. rewrite (Hu _ _ Hy) in Hy. congruence. }
    destruct (publish_run ack now b s0 Hwf) as (s' & -> & R & _). cbn [snd]. rewrite P in R.
    assert (ack (rl_sends s0) = false) as A. { rewrite Hack, Hn. apply Nat.leb_gt. lia. }
    destruct R as [L1 S1 B1 F1 W1 _ _ _]. specialize (B1 0%nat x eq_refl). unfold settled in B1.
    rewrite Nat.add_0_r, A in B1. cbn in L1. rewrite A in L1. cbn in L1. rewrite app_nil_r in L1. split; [done|].
    split; [|split; [done|split; [rewrite S1, Hn; cbn; lia|done]]].
    intros id y Hy. destruct (decide (id = ob_id x)) as [->|]; [done|]. rewrite F1 in Hy by set_solver. eauto. }
  destruct (Step 0%nat e s) as (W1 & U1 & G1 & S1 & L1); try done; try lia.
  { rewrite Ho. split; [apply NoDup_singleton|by repeat constructor]. }
  { rewrite Ho. intros id y. cbn. case_decide; [done|done]. }
  { rewrite Ho. cbn. by rewrite decide_True. }
  destruct (Step 1%nat (marked_failed e) (publish_pending_events ack now b s).2) as (W2 & U2 & G2 & S2 & L2); try done; try lia.
  { unfold marked_failed. cbn. by rewrite Hr. }
  destruct (Step 2%nat (marked_failed (marked_failed e)) (publish_pending_events ack now b (publish_pending_events ack now b s).2).2)
    as (W3 & U3 & G3 & S3 & L3); try done; try lia.
  { unfold marked_failed. cbn. by rewrite Hr. }
  set (s3 := (publish_pending_events ack now b (publish_pending_events ack now b (publish_pending_events ack now b s).2).2).2) in *.
  assert (ob_status (marked_failed (marked_failed (marked_failed e))) = FAILED) as Hf by (unfold marked_failed; cbn; by rewrite Hr).
  assert (ob_get_pending_events b (rl_outbox s3) = []) as P.
  { apply pending_none; [done|]. intros id y Hy Hpy. rewrite (U3 _ _ Hy) in Hy. cbn in Hy, G3. congruence. }
  destruct (publish_run ack now b s3 W3) as (s4 & -> & R & _). cbn [snd]. rewrite P in R. destruct R as [L4 _ _ F4 _ _ _ _].
  split; [rewrite L4; cbn; rewrite app_nil_r; congruence|]. rewrite F4 by set_solver. cbn in G3. rewrite G3. exact (f_equal Some Hf).
Qed.

Lemma relay_gives_up_witness :
  let run s := (publish_pending_events (fun n => (3 <=? n)%nat) Z.of_nat 50 s).2 in
  rl_log (run (run (run (run (ex_relay [(1, ex_event 1 10 100)]))))) = [].
Proof.
  apply (relay_gives_up (fun n => (3 <=? n)%nat) Z.of_nat 50 (ex_event 1 10 100) (ex_relay [(1, ex_event 1 10 100)]));
    try done; cbn; lia.
Defined.
