(* ===== verification/Fraud.v ===== *)
(** The fraud and velocity engine of [app/services/fraud_detection_service.py].

    The service keeps the in-memory velocity log and blacklist, and uses Redis
    when a client was injected.  [redis : option RD] is that client's server;
    [up] says whether Redis answers at the moment of the call (an exception of
    the client makes the code fall back to memory).  [FraudStore] states what is
    relied on of the sorted sets and of the blacklist set.  A sorted-set member
    ["{amount}:{hex}"] is the pair of its amount and its nonce. *)

From S2P Require Import Prelude PyDecimal.

Local Open Scope Z_scope.

(** Sorted sets and sets of the Redis server, times in microseconds. *)
Class FraudStore (RD : Type) : Type := {
  z_members : Z -> Z -> RD -> list (Z * (decimal * Z));
  z_add : Z -> Z -> Z -> (decimal * Z) -> Z -> RD -> RD;
  z_remrangebyscore : Z -> Z -> Z -> RD -> RD;
  s_add : Z -> RD -> RD;
  s_rem : Z -> RD -> RD;
  s_ismember : Z -> RD -> bool;

  law_z_add now now' k score m ttl rd : now <= now' -> now' < now + ttl ->
    m ∉ (z_members now k rd).*2 ->
    z_members now' k (z_add now k score m ttl rd) ≡ₚ (score, m) :: z_members now k rd;
  law_z_rem now k hi rd :
    z_members now k (z_remrangebyscore now k hi rd) = filter (fun p => hi < p.1) (z_members now k rd);
  law_z_rem_blacklist now k hi rd a : s_ismember a (z_remrangebyscore now k hi rd) = s_ismember a rd;
  law_s_add a b rd : s_ismember a (s_add b rd) = if decide (a = b) then true else s_ismember a rd;
  law_s_rem a b rd : s_ismember a (s_rem b rd) = if decide (a = b) then false else s_ismember a rd
}.

Definition DEFAULT_VELOCITY_WINDOW_SECONDS : Z := 300.
Definition DEFAULT_VELOCITY_TTL_SECONDS : Z := 600.
Definition BURST_COUNT_THRESHOLD : Z := 3.
Definition BURST_VOLUME_THRESHOLD : decimal := d4 1000000000.
Definition SPIKE_AMOUNT_THRESHOLD : decimal := d4 500000000.

Inductive decision : Type := APPROVED | FLAGGED_FOR_REVIEW | REJECTED.
Inductive rule : Type :=
  | DESTINATION_ACCOUNT_BLACKLISTED | VELOCITY_BURST_EXCEEDED | VELOCITY_VOLUME_EXCEEDED | HIGH_VALUE_SPIKE.
#[global] Instance decision_eq_dec : EqDecision decision.
Proof. solve_decision. Defined.
#[global] Instance rule_eq_dec : EqDecision rule.
Proof. solve_decision. Defined.

Record FraudAssessmentResult : Type := mkAssessment {
  risk_score : Z; fa_decision : decision; violated_rules : list rule }.

Section Service.
Context {RD : Type} {FS : FraudStore RD}.

Record fraud_service : Type := mkFraud {
  f_redis : option RD;
  f_velocity : gmap Z (list (Z * decimal));
  f_blacklist : gset Z
}.

Definition usec (seconds : Z) : Z := seconds * 1000000.

(** [is_account_blacklisted] *)
Definition is_account_blacklisted (up : bool) (account_id : Z) (f : fraud_service) : bool :=
  if bool_decide (account_id ∈ f_blacklist f) then true
  else match f_redis f with
       | Some rd => if up then s_ismember account_id rd else false
       | None => false
       end.

(** The in-memory branch of [get_account_velocity]. *)
Definition memory_velocity (account_id window_start : Z) (f : fraud_service) : Z * decimal * fraud_service :=
  match f_velocity f !! account_id with
  | None => (0, d0, f)
  | Some log =>
      let active := filter (fun e => window_start <= e.1) log in
      (Z.of_nat (length active), dsum (active.*2) d0,
       mkFraud (f_redis f) (<[account_id := active]> (f_velocity f)) (f_blacklist f))
  end.

(** [get_account_velocity] *)
Definition get_account_velocity (up : bool) (now account_id lookback_seconds : Z) (f : fraud_service)
  : Z * decimal * fraud_service :=
  let window_start := now - usec lookback_seconds in
  match f_redis f with
  | Some rd =>
      if up then
        let rd' := z_remrangebyscore now account_id window_start rd in
        let raw := z_members now account_id rd' in
        (Z.of_nat (length raw), dsum ((fun e => e.2.1) <$> raw) d0,
         mkFraud (Some rd') (f_velocity f) (f_blacklist f))
      else memory_velocity account_id window_start f
  | None => memory_velocity account_id window_start f
  end.

(** [record_successful_transfer] *)
Definition record_successful_transfer (up : bool) (now nonce source_account_id : Z) (amount : decimal)
  (f : fraud_service) : fraud_service :=
  let memory := mkFraud (f_redis f)
    (<[source_account_id := default [] (f_velocity f !! source_account_id) ++ [(now, amount)]]> (f_velocity f))
    (f_blacklist f) in
  match f_redis f with
  | Some rd =>
      if up then mkFraud (Some (z_add now source_account_id now (amount, nonce) (usec DEFAULT_VELOCITY_TTL_SECONDS) rd))
                   (f_velocity f) (f_blacklist f)
      else memory
  | None => memory
  end.

(** [blacklist_account] and [unblacklist_account] *)
Definition blacklist_account (up : bool) (account_id : Z) (f : fraud_service) : fraud_service :=
  mkFraud (match f_redis f with Some rd => Some (if up then s_add account_id rd else rd) | None => None end)
    (f_velocity f) ({[account_id]} ∪ f_blacklist f).
Definition unblacklist_account (up : bool) (account_id : Z) (f : fraud_service) : fraud_service :=
  mkFraud (match f_redis f with Some rd => Some (if up then s_rem account_id rd else rd) | None => None end)
    (f_velocity f) (f_blacklist f ∖ {[account_id]}).

(** The scoring of [evaluate_transfer], from what the two queries returned. *)
Definition score_transfer (is_blacklisted : bool) (window_count : Z) (window_volume amount : decimal)
  : FraudAssessmentResult :=
  let '(score, rules) := if is_blacklisted then (100, [DESTINATION_ACCOUNT_BLACKLISTED]) else (0, []) in
  let projected_volume := dadd window_volume amount in
  let has_count_burst := BURST_COUNT_THRESHOLD <=? window_count in
  let has_volume_burst := dltb BURST_VOLUME_THRESHOLD projected_volume in
  let '(score, rules) :=
    if has_count_burst then (score + 40, rules ++ [VELOCITY_BURST_EXCEEDED]) else (score, rules) in
  let '(score, rules) :=
    if has_volume_burst then
      if negb (bool_decide (VELOCITY_BURST_EXCEEDED ∈ rules)) then (score + 40, rules ++ [VELOCITY_BURST_EXCEEDED])
      else (score + 40, rules ++ [VELOCITY_VOLUME_EXCEEDED])
    else (score, rules) in
  let '(score, rules) :=
    if dleb SPIKE_AMOUNT_THRESHOLD amount then (score + 30, rules ++ [HIGH_VALUE_SPIKE]) else (score, rules) in
  let dec := if 70 <=? score then REJECTED else if 30 <=? score then FLAGGED_FOR_REVIEW else APPROVED in
  mkAssessment score dec rules.

(** [evaluate_transfer] *)
Definition evaluate_transfer (up : bool) (now source_account_id destination_account_id : Z) (amount : decimal)
  (f : fraud_service) : FraudAssessmentResult * fraud_service :=
  let is_blacklisted := is_account_blacklisted up destination_account_id f in
  let '(window_count, window_volume, f') :=
    get_account_velocity up now source_account_id DEFAULT_VELOCITY_WINDOW_SECONDS f in
  (score_transfer is_blacklisted window_count window_volume amount, f').

(** ** The score as a sum of rule weights *)

Definition b2z (w : Z) (b : bool) : Z := if b then w else 0.

Lemma score_transfer_spec bl cnt vol amt :
  let v := BURST_COUNT_THRESHOLD <=? cnt in
  let w := dltb BURST_VOLUME_THRESHOLD (dadd vol amt) in
  let h := dleb SPIKE_AMOUNT_THRESHOLD amt in
  let r := score_transfer bl cnt vol amt in
  risk_score r = b2z 100 bl + b2z 40 v + b2z 40 w + b2z 30 h /\
  (DESTINATION_ACCOUNT_BLACKLISTED ∈ violated_rules r <-> bl = true) /\
  (VELOCITY_BURST_EXCEEDED ∈ violated_rules r <-> v || w = true) /\
  (VELOCITY_VOLUME_EXCEEDED ∈ violated_rules r <-> v && w = true) /\
  (HIGH_VALUE_SPIKE ∈ violated_rules r <-> h = true) /\
  fa_decision r = (if 70 <=? risk_score r then REJECTED
                   else if 30 <=? risk_score r then FLAGGED_FOR_REVIEW else APPROVED).
Proof.
  intros v w h r. subst r. unfold score_transfer. fold v w h.
  destruct bl, v, w, h; cbn [app];
    repeat match goal with |- context [bool_decide ?P] => let c := eval vm_compute in (bool_decide P) in
      change (bool_decide P) with c end;
    cbn; split_and!; try done; set_solver.
Qed.

End Service.
Arguments fraud_service : clear implicits.

(** ** A reference store *)

Record ref_fraud : Type := mkRefFraud {
  rf_zsets : gmap Z (list (Z * (decimal * Z)) * Z);
  rf_set : gset Z
}.

Definition ref_z_members (now k : Z) (rd : ref_fraud) : list (Z * (decimal * Z)) :=
  match rf_zsets rd !! k with
  | Some (l, deadline) => if now <? deadline then l else []
  | None => []
  end.

Definition ref_z_add (now k score : Z) (m : decimal * Z) (ttl : Z) (rd : ref_fraud) : ref_fraud :=
  mkRefFraud (<[k := ((score, m) :: ref_z_members now k rd, now + ttl)]> (rf_zsets rd)) (rf_set rd).
Definition ref_z_rem (now k hi : Z) (rd : ref_fraud) : ref_fraud :=
  mkRefFraud
    (match rf_zsets rd !! k with
     | Some (l, dl) => <[k := (filter (fun p => hi < p.1) l, dl)]> (rf_zsets rd)
     | None => rf_zsets rd end) (rf_set rd).

#[global] Program Instance fraud_ref : FraudStore ref_fraud := {|
  z_members := ref_z_members;
  z_add := ref_z_add;
  z_remrangebyscore := ref_z_rem;
  s_add a rd := mkRefFraud (rf_zsets rd) ({[a]} ∪ rf_set rd);
  s_rem a rd := mkRefFraud (rf_zsets rd) (rf_set rd ∖ {[a]});
  s_ismember a rd := bool_decide (a ∈ rf_set rd)
|}.
Next Obligation.
  intros now now' k score m ttl rd Hle Hlt _. unfold ref_z_members at 1, ref_z_add. cbn [rf_zsets].
  rewrite lookup_insert_eq. by destruct (Z.ltb_spec now' (now + ttl)); [|lia].
Qed.
Next Obligation.
  intros now k hi rd. unfold ref_z_members, ref_z_rem. cbn [rf_zsets].
  destruct (rf_zsets rd !! k) as [[l dl]|] eqn:E; [rewrite lookup_insert_eq|by rewrite E].
  by destruct (now <? dl).
Qed.
Next Obligation. done. Qed.
Next Obligation. intros a b rd. cbn [rf_set]. case_decide; [apply bool_decide_eq_true|apply bool_decide_ext]; set_solver. Qed.
Next Obligation. intros a b rd. cbn [rf_set]. case_decide; [apply bool_decide_eq_false|apply bool_decide_ext]; set_solver. Qed.

(** ** Properties *)

(** The risk score is the sum of the violated rules' weights (blacklist 100,
    count burst 40, volume burst 40, spike 30), the decision is the threshold
    policy on it (>= 70 rejected, >= 30 flagged), every rule code is reported
    exactly when its condition holds, and screening leaves the blacklist alone.
    In particular a transfer to a blacklisted account is rejected. *)
Theorem fraud_policy {RD} {FS : FraudStore RD} (up : bool) (now src dst : Z) (amount : decimal)
  (f : fraud_service RD) :
  let '(cnt, vol, f1) := get_account_velocity up now src DEFAULT_VELOCITY_WINDOW_SECONDS f in
  let bl := is_account_blacklisted up dst f in
  let v := BURST_COUNT_THRESHOLD <=? cnt in
  let w := dltb BURST_VOLUME_THRESHOLD (dadd vol amount) in
  let h := dleb SPIKE_AMOUNT_THRESHOLD amount in
  let '(r, f') := evaluate_transfer up now src dst amount f in
  risk_score r = b2z 100 bl + b2z 40 v + b2z 40 w + b2z 30 h /\
  (fa_decision r = REJECTED <-> 70 <= risk_score r) /\
  (fa_decision r = APPROVED <-> risk_score r < 30) /\
  (DESTINATION_ACCOUNT_BLACKLISTED ∈ violated_rules r <-> bl = true) /\
  (VELOCITY_BURST_EXCEEDED ∈ violated_rules r <-> v || w = true) /\
  (HIGH_VALUE_SPIKE ∈ violated_rules r <-> h = true) /\
  (bl = true -> fa_decision r = REJECTED) /\
  (forall b, is_account_blacklisted up b f' = is_account_blacklisted up b f).
Proof.
  unfold evaluate_transfer.
  destruct (get_account_velocity up now src DEFAULT_VELOCITY_WINDOW_SECONDS f) as [[cnt vol] f1] eqn:Hv.
  destruct (score_transfer_spec (is_account_blacklisted up dst f) cnt vol amount) as (Hs & H1 & H2 & _ & H4 & H5).
  split; [exact Hs|]. split_and!; [| |exact H1|exact H2|exact H4| |].
  - rewrite H5. generalize (risk_score (score_transfer (is_account_blacklisted up dst f) cnt vol amount)).
    intros sc. destruct (Z.leb_spec 70 sc), (Z.leb_spec 30 sc); split; intros; done || lia.
  - rewrite H5. generalize (risk_score (score_transfer (is_account_blacklisted up dst f) cnt vol amount)).
    intros sc. destruct (Z.leb_spec 70 sc), (Z.leb_spec 30 sc); split; intros; done || lia.
  - intros Hb. rewrite H5, Hs, Hb. unfold b2z.
    by destruct (_ <=? cnt), (dltb _ _), (dleb _ _).
  - intros b. unfold get_account_velocity, memory_velocity in Hv. unfold is_account_blacklisted.
    destruct (f_redis f) as [rd|] eqn:Hr; [destruct up|].
    + injection Hv as _ _ <-. cbn [f_blacklist f_redis]. by rewrite law_z_rem_blacklist.
    + destruct (f_velocity f !! src); injection Hv as _ _ <-; cbn [f_blacklist f_redis]; by rewrite ?Hr.
    + destruct (f_velocity f !! src); injection Hv as _ _ <-; cbn [f_blacklist f_redis]; by rewrite ?Hr.
Qed.

Lemma fraud_policy_witness :
  fa_decision (evaluate_transfer true 0 1 9 (d4 10000)
    (blacklist_account true 9 (mkFraud (Some (mkRefFraud ∅ ∅)) ∅ ∅))).1 = REJECTED.
Proof.
  pose proof (fraud_policy true 0 1 9 (d4 10000)
    (blacklist_account true 9 (mkFraud (Some (mkRefFraud ∅ ∅)) ∅ ∅))) as (_ & _ & _ & _ & _ & _ & H & _).
  apply H. vm_compute. reflexivity.
Defined.

(** The transfers of one account that the velocity window still sees. *)
Definition memory_window {RD} (now src : Z) (f : fraud_service RD) : list (Z * decimal) :=
  filter (fun e => now - usec DEFAULT_VELOCITY_WINDOW_SECONDS <= e.1) (default [] (f_velocity f !! src)).

(** Velocity accounting of the in-memory engine.  Recording a transfer at
    [t] and then evaluating at a later [now] counts it exactly while
    [t >= now - 300 s]: the window count is one more than without it, and zero
    more afterwards; other accounts are unaffected. *)
Theorem velocity_window_counts {RD} {FS : FraudStore RD} (f : fraud_service RD) (t now nonce src other : Z) (amount : decimal)
  (Hno : f_redis f = None) (Hne : other <> src) :
  let f1 := record_successful_transfer true t nonce src amount f in
  (get_account_velocity true now src 300 f1).1.1 =
    Z.of_nat (length (memory_window now src f)) +
    (if bool_decide (now - usec 300 <= t) then 1 else 0) /\
  (get_account_velocity true now other 300 f1).1 = (get_account_velocity true now other 300 f).1.
Proof.
  unfold record_successful_transfer, get_account_velocity, memory_velocity, memory_window. rewrite Hno.
  cbn [f_redis f_velocity]. rewrite lookup_insert_eq, lookup_insert_ne by done. cbn [fst]. split.
  - rewrite filter_app, length_app, Nat2Z.inj_add. f_equal.
    change DEFAULT_VELOCITY_WINDOW_SECONDS with 300. rewrite filter_cons. cbn [fst].
    rewrite bool_decide_decide. by destruct (decide _).
  - by destruct (f_velocity f !! other).
Qed.

Lemma velocity_window_counts_witness :
  let f := mkFraud (RD:=ref_fraud) None ∅ ∅ in
  (get_account_velocity true 100000000 1 300
     (record_successful_transfer true 0 0 1 (d4 5) f)).1.1 = 1.
Proof.
  intros f. refine (eq_trans (proj1 (velocity_window_counts f 0 100000000 0 1 2 (d4 5) eq_refl _)) _); [lia|].
  reflexivity.
Defined.

(** Velocity accounting of the Redis engine.  A transfer recorded at [t] is
    counted at a later [now] (before the key's 600 s expiry) exactly while
    [t > now - 300 s], next to the earlier entries with a score in that window:
    the window is open at its start, where the in-memory engine's is closed. *)
Theorem velocity_window_counts_redis {RD} {FS : FraudStore RD} (f : fraud_service RD) (rd : RD)
  (t now nonce src : Z) (amount : decimal)
  (Hr : f_redis f = Some rd) (Hle : t <= now) (Httl : now < t + usec 600)
  (Hnew : (amount, nonce) ∉ (z_members t src rd).*2) :
  (get_account_velocity true now src 300 (record_successful_transfer true t nonce src amount f)).1.1 =
    Z.of_nat (length (filter (fun e => now - usec 300 < e.1) (z_members t src rd))) +
    (if bool_decide (now - usec 300 < t) then 1 else 0).
Proof.
  unfold record_successful_transfer, get_account_velocity. rewrite Hr. cbn [f_redis fst].
  rewrite law_z_rem, law_z_add by done. rewrite filter_cons. cbn [fst].
  rewrite bool_decide_decide. destruct (decide (now - usec 300 < t)); cbn [length]; lia.
Qed.

Lemma velocity_window_counts_redis_witness :
  let f := mkFraud (Some (mkRefFraud ∅ ∅)) ∅ ∅ in
  (get_account_velocity true 300000000 1 300 (record_successful_transfer true 0 5 1 (d4 7) f)).1.1 = 0.
Proof.
  intros f. refine (eq_trans (velocity_window_counts_redis f (mkRefFraud ∅ ∅) 0 300000000 5 1 (d4 7) eq_refl _ _ _) _);
    [lia|unfold usec; lia|apply not_elem_of_nil|reflexivity].
Defined.
