(* ===== verification/LedgerTransfer.v ===== *)
(** [LedgerTransferService] of [app/services/ledger_transfer_service.py]: the
    atomic money transfer, with its in-flight idempotency record in Redis, fraud
    screening, sorted account locks, unit of work and transactional outbox.

    The store [world] is the unit of work, the optional Redis servers (one per
    key space: idempotency records, locks) and the fraud engine; [tick] is the
    position in the streams of generated ids and clock readings.  A stored
    idempotency value is its decoded JSON: the members ["status"] and ["data"];
    serialization of the response is the parameter [dump]/[validate] (pydantic's
    [model_dump]/[model_validate]).  Every Redis command may raise, with or without its
    effect: [idem_fails] for those of the idempotency record, [lock_set_fails] and
    [lock_eval_fails] for those of the locks; the fraud engine has its own fallback
    ([redis_up]). *)

From S2P Require Import Prelude PyDecimal Money Ledger Redis DistLock Uow Fraud.

Local Open Scope Z_scope.
Local Open Scope py_scope.

(** ** Text of a UUID: [str(uuid)] *)

Definition hex_digit (n : Z) : ascii := ascii_of_nat (Z.to_nat (if n <? 10 then 48 + n else 87 + n)).
Definition hex_field (u hi lo : Z) : list ascii :=
  (fun i => hex_digit (Z.land (Z.shiftr u (4 * (hi - Z.of_nat i))) 15)) <$> seq 0 (Z.to_nat (hi - lo + 1)).
Definition uuid_str (u : Z) : string :=
  of_chars (hex_field u 31 24 ++ ["-"%char] ++ hex_field u 23 20 ++ ["-"%char] ++ hex_field u 19 16
            ++ ["-"%char] ++ hex_field u 15 12 ++ ["-"%char] ++ hex_field u 11 0).

Example uuid_str_ex : uuid_str (0x0190aa00000070008000000000000abc) = "0190aa00-0000-7000-8000-000000000abc".
Proof. reflexivity. Qed.

(** ** DTOs *)

(** The arguments of [transfer_funds] ([FundTransferRequestDTO]). *)
Record transfer_request : Type := mkTransfer {
  source_account_id : Z;
  destination_account_id : Z;
  t_amount : decimal;
  t_reference_id : string;
  t_description : string;
  fee_amount : decimal;
  fee_account_id : option Z;
  exchange_rate : option decimal
}.

Record FundTransferResponseDTO : Type := mkResponse {
  journal_entry_id : Z;
  resp_reference_id : string;
  transferred_amount : decimal;
  fee_deducted : decimal;
  source_new_balance : decimal;
  destination_new_balance : decimal;
  posted_at : Z;
  source_currency : string;
  destination_currency : string;
  resp_exchange_rate : option decimal;
  destination_amount : option decimal;
  resp_is_flagged : bool
}.

(** What the idempotency key holds: a JSON object with its ["status"] and
    ["data"] members, or text that is not JSON.  [mentions] says whether the
    text contains ["PROCESSING"]. *)
Inductive idem_val (D : Type) : Type :=
  | IvObject (status : option string) (data : option D)
  | IvCorrupt (mentions : bool).
Arguments IvObject {D} _ _.
Arguments IvCorrupt {D} _.

(** The commands of [transfer_funds] on the idempotency key: the first GET, the SET NX
    of the claim, the SET of the completed record, and the GET and DEL of the
    clean-up. *)
Inductive idem_cmd : Type := CmdGet | CmdClaim | CmdComplete | CmdCleanGet | CmdCleanDel.

Section Service.
Context {L X : Type} {Repo : LedgerRepo L}.
Context {D RI RL RF : Type} {Srv : RedisServer RI (idem_val D)} {LSrv : RedisServer RL string} {FS : FraudStore RF}.
(** Serialization of the response, and whether its text mentions PROCESSING. *)
Variables (dump : FundTransferResponseDTO -> D) (validate : D -> option FundTransferResponseDTO)
  (data_mentions : D -> bool).
(** Generated ids, wall clock (microseconds), the lock client's environment and
    whether Redis answers the fraud engine. *)
Variables (uuid_at clock : nat -> Z) (mono : nat -> Z) (token_at : nat -> string) (others : nat -> RL -> RL)
  (redis_up : nat -> bool).
(** Which Redis commands raise. *)
Variables (idem_fails : idem_cmd -> nat -> option fault) (lock_set_fails lock_eval_fails : nat -> string -> option fault).

Record world : Type := mkWorld {
  w_uow : uow L X;
  w_idem : option RI;
  w_lock : option (lstate (RD:=RL));
  w_fraud : fraud_service RF;
  w_tick : nat
}.

Definition set_uow (w : world) (u : uow L X) : world := mkWorld u (w_idem w) (w_lock w) (w_fraud w) (w_tick w).
Definition w_ledger (w : world) : L := st_ledger (u_live (w_uow w)).
Definition w_outbox (w : world) : outbox_repo := st_outbox (u_live (w_uow w)).

(** Replace the live ledger and advance the id stream. *)
Definition set_ledger (w : world) (l : L) (draws : nat) : world :=
  let u := w_uow w in let st := u_live u in
  mkWorld (mkUow (mkStores l (st_outbox st) (st_recon st) (st_other st)) (u_snapshot u))
    (w_idem w) (w_lock w) (w_fraud w) (w_tick w + draws).
Definition set_outbox (w : world) (o : outbox_repo) (draws : nat) : world :=
  let u := w_uow w in let st := u_live u in
  mkWorld (mkUow (mkStores (st_ledger st) o (st_recon st) (st_other st)) (u_snapshot u))
    (w_idem w) (w_lock w) (w_fraud w) (w_tick w + draws).

(** [self.uow.ledger.create_account(...)] with the id it generates. *)
Definition do_create_account (num name : string) (ty : AccountType) (cur : string) : M world LedgerAccountEntity :=
  fun w =>
  let '(acc, l') := create_account (uuid_at (w_tick w)) (clock (w_tick w)) num name ty cur (w_ledger w) in
  (Ok acc, set_ledger w l' 1).

(** [_get_or_create_treasury_fx_account] *)
Definition get_or_create_treasury_fx_account (currency : string) : M world LedgerAccountEntity :=
  let clean_curr := py_upper (py_strip currency) in
  let acc_number := "TREASURY-FX-" +:+ clean_curr in
  let! existing := gets (fun w => get_account_by_number (w_ledger w) acc_number) in
  match existing with
  | Some acc => ret acc
  | None => do_create_account acc_number ("Treasury FX Clearing (" +:+ clean_curr +:+ ")") LIABILITY clean_curr
  end.

(** Load an account and require it to exist and be active. *)
Definition load_active (a : Z) : M world LedgerAccountEntity :=
  let! acc := gets (fun w => get_account_by_id (w_ledger w) a) in
  match acc with
  | None => raise LedgerAccountNotFoundException
  | Some acc => if is_active acc then ret acc else raise InactiveLedgerAccountException
  end.

(** The fee leg is charged when [fee_amount > 0 and fee_account_id is not None]. *)
Definition charged_fee (req : transfer_request) : option Z :=
  if dltb d0 (fee_amount req) then fee_account_id req else None.

(** Currency check and FX conversion: the amount credited and the rate. *)
Definition fx_step (req : transfer_request) (source_acc dest_acc : LedgerAccountEntity)
  : result (decimal * option decimal) :=
  if bool_decide (acc_currency source_acc = acc_currency dest_acc) then Ok (t_amount req, None)
  else match exchange_rate req with
       | None => Raise InvalidFXRateException
       | Some rate =>
           if dleb rate d0 then Raise InvalidFXRateException
           else let? source_money := money_post_init (NDec (t_amount req)) (acc_currency source_acc) in
                let? '(target_money, applied) := fx_convert source_money (acc_currency dest_acc) (NDec rate) in
                Ok (amount target_money, Some applied)
       end.

(** Balance of an account in the direction of its normal side. *)
Definition normal_balance (ty : AccountType) (debits credits : decimal) : decimal :=
  if debit_normal ty then dsub debits credits else dsub credits debits.

Definition account_balance (l : L) (acc_type : AccountType) (a : Z) : decimal :=
  let '(debits, credits) := get_account_balance_aggregates l a in normal_balance acc_type debits credits.

Definition opposite (d : PostingDirection) : PostingDirection := match d with DEBIT => CREDIT | CREDIT => DEBIT end.

(** Direction that takes money out of an account of this type. *)
Definition out_dir (ty : AccountType) : PostingDirection := if debit_normal ty then CREDIT else DEBIT.

Definition leg : Type := (Z * decimal * PostingDirection)%type.

(** The legs of a single-currency transfer (2 or 3). *)
Definition single_currency_legs (req : transfer_request) (total_required : decimal) (src_type : AccountType) : list leg :=
  if debit_normal src_type then
    [(source_account_id req, total_required, CREDIT); (destination_account_id req, t_amount req, DEBIT)]
    ++ match charged_fee req with Some f => [(f, fee_amount req, DEBIT)] | None => [] end
  else
    [(source_account_id req, total_required, DEBIT); (destination_account_id req, t_amount req, CREDIT)]
    ++ match charged_fee req with Some f => [(f, fee_amount req, CREDIT)] | None => [] end.

(** The legs of a cross-currency transfer through the treasury accounts (4 or 5). *)
Definition cross_currency_legs (req : transfer_request) (total_required dest_amount : decimal)
  (src_type dest_type : AccountType) (source_fx dest_fx : Z) : list leg :=
  (if debit_normal src_type then
     [(source_account_id req, total_required, CREDIT); (source_fx, t_amount req, DEBIT)]
   else
     [(source_account_id req, total_required, DEBIT); (source_fx, t_amount req, CREDIT)])
  ++ (if debit_normal dest_type then
        [(dest_fx, dest_amount, CREDIT); (destination_account_id req, dest_amount, DEBIT)]
      else
        [(dest_fx, dest_amount, DEBIT); (destination_account_id req, dest_amount, CREDIT)])
  ++ match charged_fee req with
     | Some f => [(f, fee_amount req, if debit_normal src_type then DEBIT else CREDIT)]
     | None => []
     end.

(** [postings.append(PostingCreateDTO(...))] for each leg, validated in order. *)
Fixpoint build_postings (legs : list leg) : result (list PostingCreateDTO) :=
  match legs with
  | [] => Ok []
  | (a, amt, dir) :: legs' =>
      let? p := posting_dto a amt dir in
      let? ps := build_postings legs' in
      Ok (p :: ps)
  end.

(** [self.uow.ledger.create_journal_entry(...)] with the ids it generates. *)
Definition do_create_entry (ref desc : string) (ps : list PostingCreateDTO) (is_flagged : bool)
  : M world JournalEntryEntity := fun w =>
  let t := w_tick w in
  let '(e, l') := create_journal_entry (uuid_at t) (clock t) (fun i => uuid_at (t + 1 + i)%nat) ref desc ps
                    is_flagged (w_ledger w) in
  (Ok e, set_ledger w l' (1 + length ps)).

(** The outbox event, stored in the same unit of work. *)
Definition do_outbox (req : transfer_request) (currency : string) (entry_posted_at : Z) : M world () := fun w =>
  let t := w_tick w in
  let event := transfer_event_create (uuid_at t) (t_reference_id req) (source_account_id req)
    (destination_account_id req) (t_amount req) currency (fee_amount req) entry_posted_at in
  let outbox_event := mkOutboxEvent (uuid_at (t + 1)%nat) "ledger.transfer.completed.v1" "ledger.transfers.v1"
    (source_account_id req) event PENDING 0 (clock t) None in
  (Ok (), set_outbox w (ob_create outbox_event (w_outbox w)) 2).

Definition do_commit : M world () := modify (fun w => set_uow w (uow_commit (w_uow w))).

(** The legs of the transfer; a cross-currency transfer first resolves (and may
    provision) the two treasury accounts. *)
Definition transfer_legs (req : transfer_request) (total_required dest_amount : decimal)
  (source_acc dest_acc : LedgerAccountEntity) : M world (list leg) :=
  if bool_decide (acc_currency source_acc = acc_currency dest_acc)
  then ret (single_currency_legs req total_required (account_type source_acc))
  else
    let! source_fx := get_or_create_treasury_fx_account (acc_currency source_acc) in
    let! dest_fx := get_or_create_treasury_fx_account (acc_currency dest_acc) in
    ret (cross_currency_legs req total_required dest_amount (account_type source_acc) (account_type dest_acc)
           (acc_id source_fx) (acc_id dest_fx)).

(** The checks before any posting is built: reference, accounts, FX, funds. *)
Definition transfer_checks (req : transfer_request) (total_required : decimal)
  : M world (LedgerAccountEntity * LedgerAccountEntity * (decimal * option decimal)) :=
  let! existing := gets (fun w => get_journal_entry_by_reference (w_ledger w) (t_reference_id req)) in
  raise_if (bool_decide (is_Some existing)) DuplicateReferenceException ;;;
  let! source_acc := load_active (source_account_id req) in
  let! dest_acc := load_active (destination_account_id req) in
  match charged_fee req with
  | Some f => load_active f ;;; ret ()
  | None => ret ()
  end ;;;
  let! fx := lift_result (fx_step req source_acc dest_acc) in
  let! current_balance := gets (fun w => account_balance (w_ledger w) (account_type source_acc) (source_account_id req)) in
  raise_if (dltb current_balance total_required) InsufficientFundsException ;;;
  ret (source_acc, dest_acc, fx).

(** Posting construction, zero-sum assertion, persistence and commit. *)
Definition transfer_post (req : transfer_request) (total_required : decimal) (is_flagged : bool)
  (source_acc dest_acc : LedgerAccountEntity) (dest_amount : decimal) : M world JournalEntryEntity :=
  let! legs := transfer_legs req total_required dest_amount source_acc dest_acc in
  let! postings := lift_result (build_postings legs) in
  raise_if (negb (deqb (dto_total DEBIT postings) (dto_total CREDIT postings))) UnbalancedJournalEntryException ;;;
  let! entry := do_create_entry (t_reference_id req) (t_description req) postings is_flagged in
  do_outbox req (acc_currency source_acc) (je_posted_at entry) ;;;
  do_commit ;;;
  ret entry.

(** [_execute_transfer_in_uow] *)
Definition execute_transfer_in_uow (req : transfer_request) (total_required : decimal) (is_flagged : bool)
  : M world FundTransferResponseDTO :=
  let! checked := transfer_checks req total_required in
  let '(source_acc, dest_acc, (dest_amount, applied_rate)) := checked in
  let! entry := transfer_post req total_required is_flagged source_acc dest_acc dest_amount in
  let! source_new := gets (fun w => account_balance (w_ledger w) (account_type source_acc) (source_account_id req)) in
  let! dest_new := gets (fun w => account_balance (w_ledger w) (account_type dest_acc) (destination_account_id req)) in
  ret (mkResponse (je_id entry) (je_reference_id entry) (t_amount req) (fee_amount req) source_new dest_new
         (je_posted_at entry) (acc_currency source_acc) (acc_currency dest_acc) applied_rate (Some dest_amount)
         (je_is_flagged entry)).

(** ** [transfer_funds] *)

Definition idempotency_key (req : transfer_request) : string := "idempotency:" +:+ t_reference_id req.

Definition set_idem (w : world) (r : RI) : world := mkWorld (w_uow w) (Some r) (w_lock w) (w_fraud w) (w_tick w).

Definition text_mentions_processing (v : idem_val D) : bool :=
  match v with
  | IvObject st data =>
      match st with Some t => py_in "PROCESSING" t | None => false end
      || match data with Some d => data_mentions d | None => false end
  | IvCorrupt m => m
  end.

(** Step 2: [Some] is a cached response to return at once; on [None] the key was
    claimed as PROCESSING when Redis is configured. *)
Definition idempotency_gate (req : transfer_request) : M world (option FundTransferResponseDTO) := fun w =>
  match w_idem w with
  | None => (Ok None, w)
  | Some rd =>
      let now := clock (w_tick w) in
      let key := idempotency_key req in
      let claim : result (option FundTransferResponseDTO) * world :=
        let '(acquired, rd') := faulty (idem_fails CmdClaim (w_tick w))
                                  (r_setnx now key (IvObject (Some "PROCESSING") None) (60 * 1000000) rd) rd in
        (match acquired with
         | Some true => Ok None
         | Some false => Raise ConcurrentTransferInProgressException
         | None => Raise RedisError
         end, set_idem w rd') in
      match idem_fails CmdGet (w_tick w) with
      | Some _ => (Raise RedisError, w)
      | None =>
          match r_get now key rd with
          | None | Some (IvCorrupt _) => claim
          | Some (IvObject st data) =>
              if bool_decide (st = Some "PROCESSING") then (Raise ConcurrentTransferInProgressException, w)
              else if bool_decide (st = Some "COMPLETED") then
                match data with
                | None => claim
                | Some d => match validate d with
                            | Some resp => (Ok (Some resp), w)
                            | None => (Raise PydanticValidationError, w)
                            end
                end
              else claim
          end
      end
  end.

Definition account_lock_keys (req : transfer_request) : list string :=
  ["account:" +:+ uuid_str (source_account_id req); "account:" +:+ uuid_str (destination_account_id req)]
  ++ match fee_account_id req with Some f => ["account:" +:+ uuid_str f] | None => [] end.

(** [async with lock_ctx]: the sorted locks, or nothing without a lock manager. *)
Definition lock_ctx {A} (keys : list string) (body : M world A) : M world A := fun w =>
  match w_lock w with
  | None => body w
  | Some l0 =>
      acquire_multiple mono token_at others lock_set_fails lock_eval_fails
        (fun w => default l0 (w_lock w))
        (fun w l => mkWorld (w_uow w) (w_idem w) (Some l) (w_fraud w) (w_tick w))
        keys 10 3000000 (fun _ => body) w
  end.

(** [redis.set(idempotency_key, COMPLETED, ex=86400)], after the commit. *)
Definition record_completed (req : transfer_request) (response : FundTransferResponseDTO) : M world () := fun w =>
  match w_idem w with
  | Some rd =>
      let '(done, rd') := faulty (idem_fails CmdComplete (w_tick w))
        ((), r_set (clock (w_tick w)) (idempotency_key req) (IvObject (Some "COMPLETED") (Some (dump response))) (86400 * 1000000) rd) rd in
      (match done with Some _ => Ok () | None => Raise RedisError end, set_idem w rd')
  | None => (Ok (), w)
  end.

(** The body of the [try] block. *)
Definition guarded_transfer (req : transfer_request) : M world FundTransferResponseDTO := fun w =>
  let '(assessment, f') :=
    evaluate_transfer (redis_up (w_tick w)) (clock (w_tick w)) (source_account_id req) (destination_account_id req)
      (t_amount req) (w_fraud w) in
  let w1 := mkWorld (w_uow w) (w_idem w) (w_lock w) f' (w_tick w) in
  (raise_if (bool_decide (fa_decision assessment = REJECTED)) FraudDetectedException ;;;
   let is_flagged := bool_decide (fa_decision assessment = FLAGGED_FOR_REVIEW) in
   let! response :=
     lock_ctx (account_lock_keys req)
       (with_uow w_uow set_uow
          (execute_transfer_in_uow req (dadd (t_amount req) (fee_amount req)) is_flagged)) in
   modify (fun w => mkWorld (w_uow w) (w_idem w) (w_lock w)
     (record_successful_transfer (redis_up (w_tick w)) (clock (w_tick w)) (uuid_at (w_tick w))
        (source_account_id req) (t_amount req) (w_fraud w)) (S (w_tick w))) ;;;
   record_completed req response ;;;
   ret response) w1.

(** The [except Exception] clause: drop the in-flight record, re-raise; an exception
    of the clean-up itself is only logged. *)
Definition cleanup_in_flight (req : transfer_request) (e : exc) : M world FundTransferResponseDTO := fun w =>
  (Raise e,
   match w_idem w with
   | Some rd =>
       let now := clock (w_tick w) in
       match idem_fails CmdCleanGet (w_tick w) with
       | Some _ => w
       | None =>
           match r_get now (idempotency_key req) rd with
           | Some v => if text_mentions_processing v
                       then set_idem w (faulty (idem_fails CmdCleanDel (w_tick w)) ((), r_del now (idempotency_key req) rd) rd).2
                       else w
           | None => w
           end
       end
   | None => w
   end).

Definition transfer_funds (req : transfer_request) : M world FundTransferResponseDTO :=
  raise_if (bool_decide (source_account_id req = destination_account_id req)) SelfTransferNotAllowedException ;;;
  raise_if (dleb (t_amount req) d0) ValidationException ;;;
  raise_if (dltb (fee_amount req) d0) ValidationException ;;;
  raise_if (dltb d0 (fee_amount req) && bool_decide (fee_account_id req = None)) ValidationException ;;;
  raise_if (bool_decide (fee_account_id req = Some (source_account_id req))
            || bool_decide (fee_account_id req = Some (destination_account_id req))) ValidationException ;;;
  let! cached := idempotency_gate req in
  match cached with
  | Some response => ret response
  | None => try_except (guarded_transfer req) (cleanup_in_flight req)
  end.


(** ** What each phase does to the store *)

(** A phase that only grew the ledger's accounts and drew ids. *)
Record ledger_frame (w w' : world) : Prop := {
  lf_snapshot : u_snapshot (w_uow w') = u_snapshot (w_uow w);
  lf_outbox : st_outbox (u_live (w_uow w')) = st_outbox (u_live (w_uow w));
  lf_recon : st_recon (u_live (w_uow w')) = st_recon (u_live (w_uow w));
  lf_other : st_other (u_live (w_uow w')) = st_other (u_live (w_uow w));
  lf_log : all_postings (w_ledger w') = all_postings (w_ledger w);
  lf_ref : forall ref, get_journal_entry_by_reference (w_ledger w') ref =
                       get_journal_entry_by_reference (w_ledger w) ref;
  lf_idem : w_idem w' = w_idem w;
  lf_lock : w_lock w' = w_lock w;
  lf_fraud : w_fraud w' = w_fraud w;
  lf_tick : (w_tick w <= w_tick w')%nat
}.

#[local] Instance ledger_frame_preorder : PreOrder ledger_frame.
Proof.
  split; [by split|]. intros w1 w2 w3 [] [].
  split; try (etrans; eassumption); try congruence; intros ref; etrans; eauto.
Qed.

Lemma treasury_run cur w :
  exists acc w', get_or_create_treasury_fx_account cur w = (Ok acc, w') /\ ledger_frame w w'.
Proof.
  unfold get_or_create_treasury_fx_account. autorewrite with pym.
  destruct (get_account_by_number _ _) as [acc|] eqn:E; [by exists acc, w|].
  unfold do_create_account. set (u := uuid_at _). set (now := clock _). set (num := _ +:+ _).
  set (nm := _ +:+ _). set (c := py_upper _).
  pose proof (law_create_account u now num nm LIABILITY c (w_ledger w)) as Hl.
  destruct (create_account u now num nm LIABILITY c (w_ledger w)) as [acc l'].
  destruct Hl as (-> & Hlog & _ & _ & _ & _ & Href).
  eexists _, _. split; [done|]. split; try done. cbn. lia.
Qed.

Lemma load_active_run a w :
  load_active a w =
  (match get_account_by_id (w_ledger w) a with
   | None => Raise LedgerAccountNotFoundException
   | Some acc => if is_active acc then Ok acc else Raise InactiveLedgerAccountException
   end, w).
Proof.
  unfold load_active. autorewrite with pym. destruct (get_account_by_id _ _) as [acc|]; [|done].
  by destruct (is_active acc).
Qed.

Lemma load_active_ok a w acc w' :
  load_active a w = (Ok acc, w') -> w' = w /\ get_account_by_id (w_ledger w) a = Some acc /\ is_active acc = true.
Proof.
  rewrite load_active_run. destruct (get_account_by_id _ _) as [acc'|]; [|done].
  destruct (is_active acc') eqn:E; [|done]. by intros [= -> <-].
Qed.

Lemma load_active_reads_only a : reads_only (load_active a).
Proof. intros w. by rewrite load_active_run. Qed.
#[local] Hint Resolve load_active_reads_only : py.

(** The checks read and never write. *)
Lemma transfer_checks_reads_only req total : reads_only (transfer_checks req total).
Proof.
  unfold transfer_checks.
  repeat first [apply load_active_reads_only | apply reads_only_bind; [|intros ?]]; auto with py.
  destruct (charged_fee req); auto with py.
Qed.

(** What has been established when the checks pass. *)
Definition checks_passed (req : transfer_request) (total : decimal) (l : L)
  (s d : LedgerAccountEntity) (fx : decimal * option decimal) : Prop :=
  get_journal_entry_by_reference l (t_reference_id req) = None /\
  get_account_by_id l (source_account_id req) = Some s /\ is_active s = true /\
  get_account_by_id l (destination_account_id req) = Some d /\ is_active d = true /\
  (forall f, charged_fee req = Some f ->
     exists a, get_account_by_id l f = Some a /\ is_active a = true) /\
  fx_step req s d = Ok fx /\
  dltb (account_balance l (account_type s) (source_account_id req)) total = false.

Lemma quantize4_error q x : quantize4 q = Raise x -> x = PyInvalidOperation.
Proof. rewrite quantize4_spec. destruct (_ <=? _); naive_solver. Qed.

Lemma post_init_error a cur x : money_post_init (NDec a) cur = Raise x -> x = PyValueError \/ x = PyInvalidOperation.
Proof.
  unfold money_post_init. cbn [to_decimal]. destruct (negb _); [naive_solver|].
  destruct (quantize4 a) eqn:E; [done|]. apply quantize4_error in E as ->. naive_solver.
Qed.

Lemma fx_step_error req s d x : fx_step req s d = Raise x -> x <> UnbalancedJournalEntryException.
Proof.
  unfold fx_step. case_bool_decide; [done|]. destruct (exchange_rate req) as [rate|]; [|by intros [= <-]].
  destruct (dleb rate d0) eqn:El; [by intros [= <-]|].
  destruct (money_post_init _ (acc_currency s)) as [m|e] eqn:Em; cbn [rbind].
  2: { apply post_init_error in Em as [->| ->]; by intros [= <-]. }
  rewrite fx_convert_dec, El. destruct (negb (iso_4217 (py_upper (py_strip (acc_currency d))))); [by intros [= <-]|].
  case_bool_decide; [done|].
  destruct (quantize4 _) eqn:Eq; cbn [rbind]; [|apply quantize4_error in Eq as ->; by intros [= <-]].
  destruct (money_post_init _ (py_upper (py_strip (acc_currency d)))) eqn:E2; cbn [rbind]; [by intros [=]|]. apply post_init_error in E2 as [->| ->]; by intros [= <-].
Qed.

Lemma transfer_checks_error req total w x w' :
  transfer_checks req total w = (Raise x, w') -> x <> UnbalancedJournalEntryException.
Proof.
  assert (forall a w x w', load_active a w = (Raise x, w') -> x <> UnbalancedJournalEntryException) as Hload.
  { intros a w0 x0 w0'. rewrite load_active_run. destruct (get_account_by_id _ _) as [acc|]; [|naive_solver].
    destruct (is_active acc); naive_solver. }
  unfold transfer_checks. autorewrite with pym. case_bool_decide as Href; [naive_solver|].
  intros [H|(s & w1 & _ & H)]%bind_raise; [eauto|]. apply bind_raise in H as [H|(d & w2 & _ & H)]; [eauto|].
  apply bind_raise in H as [H|(fx & w3 & _ & H)].
  { destruct (charged_fee req); [|done]. apply bind_raise in H as [H|(? & ? & _ & ?)]; [eauto|done]. }
  autorewrite with pym in H. destruct (fx_step req s d) eqn:E; autorewrite with pym in H.
  - destruct (dltb _ total); naive_solver.
  - injection H as -> <-. by eapply fx_step_error.
Qed.

Lemma transfer_checks_ok req total w s d fx w' :
  transfer_checks req total w = (Ok (s, d, fx), w') -> w' = w /\ checks_passed req total (w_ledger w) s d fx.
Proof.
  intros H. pose proof (transfer_checks_reads_only req total w) as Hro. rewrite H in Hro. cbn in Hro. subst w'.
  split; [done|]. unfold transfer_checks in H. autorewrite with pym in H.
  destruct (get_journal_entry_by_reference _ _) eqn:Eref; [done|]. rewrite bool_decide_eq_false_2 in H by (by intros []).
  apply bind_ok in H as (s1 & w1 & Hs & H). apply load_active_ok in Hs as (-> & Hs & Has).
  apply bind_ok in H as (d1 & w1 & Hd & H). apply load_active_ok in Hd as (-> & Hd & Had).
  apply bind_ok in H as ([] & w1 & Hfee & H).
  assert (w1 = w /\ forall f, charged_fee req = Some f ->
     exists a, get_account_by_id (w_ledger w) f = Some a /\ is_active a = true) as [-> Hf].
  { destruct (charged_fee req) as [f|].
    - apply bind_ok in Hfee as (a & w2 & Ha & [= <-]). apply load_active_ok in Ha as (-> & Ha).
      split; [done|]. intros ? [= <-]. eauto.
    - by injection Hfee as <-. }
  autorewrite with pym in H. destruct (fx_step req s1 d1) as [fx1|] eqn:Efx; [|done].
  autorewrite with pym in H. destruct (dltb _ total) eqn:Ebal; [done|]. injection H as -> -> ->. done.
Qed.

Definition mk_leg (l : leg) : PostingCreateDTO := let '(a, amt, dir) := l in mkPosting a amt dir.

Lemma build_postings_ok legs ps : build_postings legs = Ok ps -> ps = mk_leg <$> legs /\ Forall valid_dto ps.
Proof.
  revert ps. induction legs as [|[[a amt] dir] legs IH]; intros ps; cbn [build_postings]; [by intros [= <-]|].
  rewrite rbind_ok. intros (p & [-> Hv]%posting_dto_ok & H). apply rbind_ok in H as (ps' & Hps & [= <-]).
  destruct (IH _ Hps) as [-> Hv']. split; [done|]. by constructor.
Qed.

Lemma build_postings_error legs e : build_postings legs = Raise e -> e = PydanticValidationError.
Proof.
  induction legs as [|[[a amt] dir] legs IH]; cbn [build_postings]; [done|].
  unfold posting_dto. destruct (_ && _); [|naive_solver]. simpl.
  destruct (build_postings legs); naive_solver.
Qed.

(** The total charged to the source, exactly. *)
Definition charge (req : transfer_request) : Z := scaled4 (t_amount req) + scaled4 (fee_amount req).

(** A request that passed the fee checks of [transfer_funds]. *)
Definition fee_ok (req : transfer_request) : Prop :=
  dltb (fee_amount req) d0 = false /\ (dltb d0 (fee_amount req) = true -> fee_account_id req <> None).

Lemma fee_cases req : fee_ok req ->
  (exists f, charged_fee req = Some f /\ fee_account_id req = Some f) \/
  charged_fee req = None /\ deq (fee_amount req) d0.
Proof.
  intros [Hneg Hacc]. unfold charged_fee. destruct (dltb d0 (fee_amount req)) eqn:E.
  - destruct (fee_account_id req) as [f|]; [eauto|]. by destruct (Hacc eq_refl).
  - right. split; [done|]. by apply deq_of_not_lt.
Qed.

Lemma charge_exact req : fee_ok req -> valid_amount (t_amount req) ->
  (forall f, charged_fee req = Some f -> valid_amount (fee_amount req)) -> fits (charge req) ->
  deq (dadd (t_amount req) (fee_amount req)) (d4 (charge req)).
Proof.
  intros Hfee Ha Hf Hfit. apply dadd_d4; [by apply valid_amount_d4| |done].
  destruct (fee_cases req Hfee) as [(f & Hc & _)|[_ Hz]]; [by apply valid_amount_d4, (Hf f)|].
  by rewrite (scaled4_d4 _ _ Hz), Hz.
Qed.

(** Both sides of the single-currency legs are the charge; both sides of the
    cross-currency legs are the charge plus the converted amount. *)
Lemma single_units req total ty dir : fee_ok req -> scaled4 total = charge req ->
  units dir (mk_leg <$> single_currency_legs req total ty) = charge req.
Proof.
  intros Hfee Ht. unfold single_currency_legs, charge in *.
  destruct (fee_cases req Hfee) as [(f & -> & _)|[-> Hz]];
    [|rewrite (scaled4_d4 _ _ Hz) in *];
    destruct (debit_normal ty), dir; cbn [fmap list_fmap app]; rewrite !units_cons, units_nil; cbn; lia.
Qed.

Lemma cross_units req total damt ty ty' f1 f2 dir : fee_ok req -> scaled4 total = charge req ->
  units dir (mk_leg <$> cross_currency_legs req total damt ty ty' f1 f2) = charge req + scaled4 damt.
Proof.
  intros Hfee Ht. unfold cross_currency_legs, charge in *.
  destruct (fee_cases req Hfee) as [(f & -> & _)|[-> Hz]];
    [|rewrite (scaled4_d4 _ _ Hz) in *];
    destruct (debit_normal ty), (debit_normal ty'), dir; cbn [fmap list_fmap app];
    rewrite !units_cons, units_nil; cbn; lia.
Qed.

(** The legs a transfer between accounts [s] and [d] may produce. *)
Definition legs_of (req : transfer_request) (total damt : decimal) (s d : LedgerAccountEntity) (legs : list leg) : Prop :=
  if bool_decide (acc_currency s = acc_currency d)
  then legs = single_currency_legs req total (account_type s)
  else exists f1 f2, legs = cross_currency_legs req total damt (account_type s) (account_type d) f1 f2.

(** Validated legs carry valid amounts. *)
Lemma legs_valid req total damt s d legs : legs_of req total damt s d legs ->
  Forall valid_dto (mk_leg <$> legs) ->
  valid_amount (t_amount req) /\ (forall f, charged_fee req = Some f -> valid_amount (fee_amount req)).
Proof.
  unfold legs_of, single_currency_legs, cross_currency_legs, valid_dto.
  case_bool_decide; [intros ->|intros (f1 & f2 & ->)]; destruct (debit_normal (account_type s)),
    (debit_normal (account_type d)), (charged_fee req); rewrite ?Forall_fmap, ?Forall_app, ?Forall_cons; cbn;
    naive_solver.
Qed.

Lemma transfer_legs_run req total damt s d w :
  exists legs w', transfer_legs req total damt s d w = (Ok legs, w') /\ ledger_frame w w' /\
    legs_of req total damt s d legs.
Proof.
  unfold transfer_legs, legs_of. case_bool_decide as E; [by exists (single_currency_legs req total (account_type s)), w|].
  destruct (treasury_run (acc_currency s) w) as (a1 & w1 & R1 & F1).
  rewrite (bind_ret_eq _ _ _ _ _ R1).
  destruct (treasury_run (acc_currency d) w1) as (a2 & w2 & R2 & F2).
  rewrite (bind_ret_eq _ _ _ _ _ R2). eexists _, w2. split; [done|]. split; [by etrans|]. eauto.
Qed.

(** Everything but the unit of work and the id stream is untouched. *)
Record only_uow (w w' : world) : Prop := {
  ou_idem : w_idem w' = w_idem w;
  ou_lock : w_lock w' = w_lock w;
  ou_fraud : w_fraud w' = w_fraud w;
  ou_tick : (w_tick w <= w_tick w')%nat
}.

Lemma ledger_frame_only_uow w w' : ledger_frame w w' -> only_uow w w'.
Proof. by intros []. Qed.

(** The outbox event of a transfer. *)
Definition transfer_event (req : transfer_request) (cur : string) (posted : Z) (ev : OutboxEvent) : Prop :=
  ob_status ev = PENDING /\ ob_retry_count ev = 0 /\ ob_published_at ev = None /\
  ob_aggregate_id ev = source_account_id req /\ ob_event_type ev = "ledger.transfer.completed.v1" /\
  ev_reference_id (ob_payload ev) = t_reference_id req /\
  ev_source_account_id (ob_payload ev) = source_account_id req /\
  ev_destination_account_id (ob_payload ev) = destination_account_id req /\
  ev_amount (ob_payload ev) = d4 (scaled4 (t_amount req)) /\
  ev_fee_amount (ob_payload ev) = d4 (scaled4 (fee_amount req)) /\
  ev_currency (ob_payload ev) = py_upper cur /\
  ev_posted_at (ob_payload ev) = posted /\ ev_partition_key (ob_payload ev) = source_account_id req.

(** The effect of a posted transfer on the stores: one journal entry with the
    given legs and one pending outbox event, nothing else. *)
Record posted_effect (req : transfer_request) (flag : bool) (cur : string) (ps : list PostingCreateDTO)
  (e : JournalEntryEntity) (st st' : stores L X) : Prop := {
  pe_entry : exists u now ids, e = mkEntry u (t_reference_id req) (t_description req) now (materialize u now ids ps) flag;
  pe_log : all_postings (st_ledger st') = all_postings (st_ledger st) ++ je_postings e;
  pe_filed : get_journal_entry_by_reference (st_ledger st') (t_reference_id req) = Some e;
  pe_outbox : exists ev, st_outbox st' = ob_create ev (st_outbox st) /\ transfer_event req cur (je_posted_at e) ev;
  pe_recon : st_recon st' = st_recon st;
  pe_other : st_other st' = st_other st
}.

Lemma transfer_post_run req total flag s d damt w :
  let '(r, w') := transfer_post req total flag s d damt w in
  only_uow w w' /\
  match r with
  | Raise x =>
      u_snapshot (w_uow w') = u_snapshot (w_uow w) /\
      (x = PydanticValidationError \/
       x = UnbalancedJournalEntryException /\
       exists legs, legs_of req total damt s d legs /\ Forall valid_dto (mk_leg <$> legs) /\
         deqb (dto_total DEBIT (mk_leg <$> legs)) (dto_total CREDIT (mk_leg <$> legs)) = false)
  | Ok e =>
      u_snapshot (w_uow w') = None /\
      exists legs, legs_of req total damt s d legs /\ Forall valid_dto (mk_leg <$> legs) /\
        deqb (dto_total DEBIT (mk_leg <$> legs)) (dto_total CREDIT (mk_leg <$> legs)) = true /\
        posted_effect req flag (acc_currency s) (mk_leg <$> legs) e (u_live (w_uow w)) (u_live (w_uow w'))
  end.
Proof.
  unfold transfer_post.
  destruct (transfer_legs_run req total damt s d w) as (legs & w1 & R1 & F & Hlegs).
  rewrite (bind_ret_eq _ _ _ _ _ R1). pose proof (ledger_frame_only_uow _ _ F) as O. autorewrite with pym.
  destruct (build_postings legs) as [ps|x] eqn:Hb.
  2: { apply build_postings_error in Hb as ->. split; [done|]. split; [apply F|by left]. }
  apply build_postings_ok in Hb as [-> Hv]. autorewrite with pym. set (ps := mk_leg <$> legs) in *.
  destruct (deqb (dto_total DEBIT ps) (dto_total CREDIT ps)) eqn:Hz; cbn [negb].
  2: { split; [done|]. split; [apply F|]. right. split; [done|]. by exists legs. }
  unfold bind at 1, do_create_entry. set (ids := fun i => uuid_at _).
  pose proof (law_create_journal_entry (uuid_at (w_tick w1)) (clock (w_tick w1)) ids (t_reference_id req)
    (t_description req) ps flag (w_ledger w1)) as Hl.
  destruct (create_journal_entry _ _ _ _ _ _ _ _) as [e l']. destruct Hl as (He & Hlog & _ & _ & Href & _).
  cbn. destruct O as [O1 O2 O3 O4]. split; [by split; cbn; try done; lia|]. split; [done|].
  exists legs. do 3 (split; [done|]). destruct F as [F1 F2 F3 F4 F5 F6 _ _ _ _]. unfold w_ledger in *.
  split; cbn; try done.
  - eauto.
  - by rewrite Hlog, He, F5.
  - match goal with |- context [dict_set _ _ ?ev] => exists ev end. rewrite F2. by repeat split.
Qed.

(** The response built after the commit. *)
Definition response_of (req : transfer_request) (s d : LedgerAccountEntity) (fx : decimal * option decimal)
  (e : JournalEntryEntity) (l' : L) (r : FundTransferResponseDTO) : Prop :=
  r = mkResponse (je_id e) (t_reference_id req) (t_amount req) (fee_amount req)
        (account_balance l' (account_type s) (source_account_id req))
        (account_balance l' (account_type d) (destination_account_id req))
        (je_posted_at e) (acc_currency s) (acc_currency d) fx.2 (Some fx.1) (je_is_flagged e).

(** What a successful execution establishes. *)
Definition executed (req : transfer_request) (flag : bool) (st st' : stores L X)
  (r : FundTransferResponseDTO) : Prop :=
  let total := dadd (t_amount req) (fee_amount req) in
  exists s d fx legs e,
    checks_passed req total (st_ledger st) s d fx /\
    legs_of req total fx.1 s d legs /\ Forall valid_dto (mk_leg <$> legs) /\
    deqb (dto_total DEBIT (mk_leg <$> legs)) (dto_total CREDIT (mk_leg <$> legs)) = true /\
    posted_effect req flag (acc_currency s) (mk_leg <$> legs) e st st' /\
    response_of req s d fx e (st_ledger st') r.

(** A leg set the zero-sum assertion would refuse. *)
Definition imbalanced (req : transfer_request) (l : L) : Prop :=
  let total := dadd (t_amount req) (fee_amount req) in
  exists s d fx legs,
    checks_passed req total l s d fx /\ legs_of req total fx.1 s d legs /\ Forall valid_dto (mk_leg <$> legs) /\
    deqb (dto_total DEBIT (mk_leg <$> legs)) (dto_total CREDIT (mk_leg <$> legs)) = false.

Lemma execute_run req flag w :
  let '(r, w') := execute_transfer_in_uow req (dadd (t_amount req) (fee_amount req)) flag w in
  only_uow w w' /\
  match r with
  | Raise x =>
      u_snapshot (w_uow w') = u_snapshot (w_uow w) /\
      (x = UnbalancedJournalEntryException -> imbalanced req (w_ledger w))
  | Ok resp => u_snapshot (w_uow w') = None /\ executed req flag (u_live (w_uow w)) (u_live (w_uow w')) resp
  end.
Proof.
  set (total := dadd _ _). unfold execute_transfer_in_uow.
  destruct (transfer_checks req total w) as [[[[s d] fx]|x] w1] eqn:Hc.
  2: { rewrite (bind_raise_eq _ _ _ _ _ Hc). pose proof (transfer_checks_reads_only req total w) as Hro.
       rewrite Hc in Hro. cbn in Hro. subst w1. do 2 (split; [done|]). by intros ?%(transfer_checks_error _ _ _ _ _ Hc). }
  rewrite (bind_ret_eq _ _ _ _ _ Hc). apply transfer_checks_ok in Hc as [-> Hc]. destruct fx as [damt rate].
  pose proof (transfer_post_run req total flag s d damt w) as Hp.
  destruct (transfer_post req total flag s d damt w) as [[e|x] w1] eqn:Ep.
  2: { rewrite (bind_raise_eq _ _ _ _ _ Ep). destruct Hp as (? & ? & Hx). do 2 (split; [done|]).
       intros ->. destruct Hx as [|(_ & legs & ?)]; [done|]. by exists s, d, (damt, rate), legs. }
  rewrite (bind_ret_eq _ _ _ _ _ Ep). autorewrite with pym.
  destruct Hp as (Ho & Hsnap & legs & H1 & H2 & H3 & H4). split; [done|]. split; [done|].
  exists s, d, (damt, rate), legs, e. do 5 (split; [done|]).
  destruct (pe_entry _ _ _ _ _ _ _ H4) as (u & now & ids & ->). done.
Qed.

(** Only the lock client moved. *)
Definition same_but_lock (w w' : world) : Prop :=
  w_uow w' = w_uow w /\ w_idem w' = w_idem w /\ w_fraud w' = w_fraud w /\ w_tick w' = w_tick w.

Lemma lock_ctx_run {A} keys (body : M world A) w :
  exists w1, same_but_lock w w1 /\
    ((exists e, lock_ctx keys body w = (Raise e, w1) /\ e <> UnbalancedJournalEntryException) \/
     exists w2, lock_ctx keys body w = ((body w1).1, w2) /\ same_but_lock (body w1).2 w2).
Proof.
  unfold lock_ctx. destruct (w_lock w) as [l0|].
  2: { exists w. split; [done|]. right. exists (body w).2. split; [by destruct (body w)|done]. }
  unfold acquire_multiple. destruct (acquire_all _ _ _ _ _ _ _ _) as [[acq [e|]] l1] eqn:Ha.
  - eexists. split; [|left; exists e; split; [done|]]; [done|]. by eapply acquire_all_error.
  - set (w1 := mkWorld _ _ _ _ _). exists w1. split; [done|]. right.
    destruct (body w1) as [[a|e] w2]; eexists; by split.
Qed.

Lemma uow_execute_run req flag w :
  let '(r, w') := with_uow w_uow set_uow
    (execute_transfer_in_uow req (dadd (t_amount req) (fee_amount req)) flag) w in
  only_uow w w' /\
  match r with
  | Raise x =>
      u_live (w_uow w') = u_live (w_uow w) /\
      (x = UnbalancedJournalEntryException -> imbalanced req (w_ledger w))
  | Ok resp => executed req flag (u_live (w_uow w)) (u_live (w_uow w')) resp
  end.
Proof.
  unfold with_uow. set (w0 := set_uow w _). pose proof (execute_run req flag w0) as H.
  destruct (execute_transfer_in_uow req _ flag w0) as [[r|x] w'].
  - destruct H as ([] & _ & H). done.
  - destruct H as ([] & H & Hx). split; [done|]. split; [|done]. cbn. unfold uow_rollback. by rewrite H.
Qed.

(** The completed record as the server has it after the command. *)
Definition completed_idem (req : transfer_request) (resp : FundTransferResponseDTO) (f : option fault) (now : Z) (rd : RI) : RI :=
  (faulty f ((), r_set now (idempotency_key req) (IvObject (Some "COMPLETED") (Some (dump resp))) (86400 * 1000000) rd) rd).2.

Lemma record_completed_run req resp w :
  record_completed req resp w =
    (match w_idem w, idem_fails CmdComplete (w_tick w) with Some _, Some _ => Raise RedisError | _, _ => Ok () end,
     mkWorld (w_uow w) (completed_idem req resp (idem_fails CmdComplete (w_tick w)) (clock (w_tick w)) <$> w_idem w) (w_lock w) (w_fraud w) (w_tick w)).
Proof.
  unfold record_completed, completed_idem. destruct w as [u [rd|] l f t]; cbn; [|done].
  by destruct (idem_fails CmdComplete t) as [[]|].
Qed.

(** The [try] block: nothing, or the whole transfer; the completed record is the last
    thing written, and when that command fails the transfer is already committed. *)
Lemma guarded_run req w :
  let '(r, w') := guarded_transfer req w in
  (w_tick w <= w_tick w')%nat /\
  ((exists x, r = Raise x /\ u_live (w_uow w') = u_live (w_uow w) /\ w_idem w' = w_idem w /\
      (x = UnbalancedJournalEntryException -> imbalanced req (w_ledger w))) \/
   exists flag resp, executed req flag (u_live (w_uow w)) (u_live (w_uow w')) resp /\
     w_idem w' = completed_idem req resp (idem_fails CmdComplete (w_tick w')) (clock (w_tick w')) <$> w_idem w /\
     r = match w_idem w, idem_fails CmdComplete (w_tick w') with Some _, Some _ => Raise RedisError | _, _ => Ok resp end).
Proof.
  unfold guarded_transfer. destruct (evaluate_transfer _ _ _ _ _ _) as [asmt f'].
  set (w1 := mkWorld _ _ _ _ _). autorewrite with pym.
  destruct (bool_decide (fa_decision asmt = REJECTED)); [split; [done|]; left; by eexists|].
  set (flag := bool_decide _).
  destruct (lock_ctx_run (account_lock_keys req) (with_uow w_uow set_uow
    (execute_transfer_in_uow req (dadd (t_amount req) (fee_amount req)) flag)) w1)
    as (w2 & (U & I & _ & T) & [(e & E & Hne)|(w4 & E & (U' & I' & _ & T'))]).
  { rewrite (bind_raise_eq _ _ _ _ _ E), U, I, T. split; [done|]. left. by eexists. }
  pose proof (uow_execute_run req flag w2) as H.
  destruct (with_uow _ _ _ w2) as [[r|x] w3]; cbn in E, U', I', T', H.
  - rewrite (bind_ret_eq _ _ _ _ _ E). autorewrite with pym. unfold bind. rewrite record_completed_run. cbn.
    destruct H as ([I3 _ _ T3] & H). rewrite U in H. cbn in H. rewrite I', I3, I. cbn.
    assert (forall b : bool, (w_tick w <= S (w_tick w4))%nat) as Hle by (cbn in *; lia).
    destruct (w_idem w) as [rd|], (idem_fails CmdComplete (S (w_tick w4))) eqn:Hf; cbn; rewrite ?Hf; (split; [exact (Hle true)|]); right; exists flag, r; rewrite U'; done.
  - rewrite (bind_raise_eq _ _ _ _ _ E). destruct H as ([I3 _ _ T3] & H & Hx).
    unfold w_ledger in *. rewrite U', I', T', H, I3, I. rewrite U in Hx |- *. cbn in *. split; [lia|]. left. by eexists.
Qed.

(** The pre-flight checks of [transfer_funds]. *)
Definition preflight_ok (req : transfer_request) : Prop :=
  source_account_id req <> destination_account_id req /\ dleb (t_amount req) d0 = false /\ fee_ok req /\
  fee_account_id req <> Some (source_account_id req) /\ fee_account_id req <> Some (destination_account_id req).

Lemma preflight_cases req w :
  (exists x, transfer_funds req w = (Raise x, w) /\ x <> UnbalancedJournalEntryException) \/
  preflight_ok req /\
  transfer_funds req w =
    match idempotency_gate req w with
    | (Ok (Some response), w') => (Ok response, w')
    | (Ok None, w') => try_except (guarded_transfer req) (cleanup_in_flight req) w'
    | (Raise e, w') => (Raise e, w')
    end.
Proof.
  unfold transfer_funds. autorewrite with pym.
  case_bool_decide as H1; [left; eauto|]. destruct (dleb (t_amount req) d0) eqn:H2; [left; eauto|].
  destruct (dltb (fee_amount req) d0) eqn:H3; [left; eauto|].
  destruct (dltb d0 (fee_amount req)) eqn:H4; case_bool_decide as H5; cbn [andb]; try (left; by eauto);
    (case_bool_decide as H6; [left; by eauto|]); (case_bool_decide as H7; [left; by eauto|]);
    (right; split; [repeat split; first [done|congruence]|]); cbn [orb]; unfold bind;
    by destruct (idempotency_gate req w) as [[[]|] ?].
Qed.

(** The record the gate looks at. *)
Definition idem_record (req : transfer_request) (w : world) : option (idem_val D) :=
  match w_idem w with Some rd => r_get (clock (w_tick w)) (idempotency_key req) rd | None => None end.

(** The claim written by the gate when the key is free. *)
Definition claim_idem (req : transfer_request) (w : world) : option RI :=
  (fun rd => r_set (clock (w_tick w)) (idempotency_key req) (IvObject (Some "PROCESSING") None) (60 * 1000000) rd)
  <$> w_idem w.

Definition claimed (req : transfer_request) (w : world) : world :=
  mkWorld (w_uow w) (claim_idem req w) (w_lock w) (w_fraud w) (w_tick w).

Lemma gate_run req w :
  match idempotency_gate req w with
  | (Ok None, w') => w' = claimed req w /\ idem_record req w = None
  | (Ok (Some resp), w') => w' = w /\ exists d,
      idem_record req w = Some (IvObject (Some "COMPLETED") (Some d)) /\ validate d = Some resp
  | (Raise x, w') => x <> UnbalancedJournalEntryException /\
      (w' = w \/ w' = claimed req w /\ idem_record req w = None /\ idem_fails CmdClaim (w_tick w) <> None)
  end.
Proof.
  unfold idempotency_gate, idem_record, claim_idem, claimed. destruct w as [u [rd|] l f t]; cbn; [|done].
  destruct (idem_fails CmdGet t); [split; [done|by left]|]. rewrite law_setnx.
  destruct (r_get (clock t) (idempotency_key req) rd) as [[st data|m]|] eqn:Hg.
  - case_bool_decide as Hp; [split; [done|by left]|].
    case_bool_decide as Hc; [|by destruct (idem_fails CmdClaim t) as [[]|]; cbn; (split; [done|by left])].
    subst st. destruct data as [d|]; [|by destruct (idem_fails CmdClaim t) as [[]|]; cbn; (split; [done|by left])].
    destruct (validate d) eqn:Hv; [eauto|split; [done|by left]].
  - by destruct (idem_fails CmdClaim t) as [[]|]; cbn; (split; [done|by left]).
  - destruct (idem_fails CmdClaim t) as [[]|]; cbn; [split; [done|by left]|split; [done|by right]|done].
Qed.

(** Everything [transfer_funds] can end in: a check before any effect or a claim whose
    reply was lost; a replay; a failed attempt that is cleaned up; or an executed
    transfer, whose completed record was written or not. *)
Lemma transfer_cases req w :
  let '(r, w') := transfer_funds req w in
  (exists x, r = Raise x /\ x <> UnbalancedJournalEntryException /\
     (w' = w \/ w' = claimed req w /\ idem_record req w = None /\ idem_fails CmdClaim (w_tick w) <> None)) \/
  (exists resp d, r = Ok resp /\ w' = w /\ idem_record req w = Some (IvObject (Some "COMPLETED") (Some d)) /\ validate d = Some resp) \/
  (idem_record req w = None /\ preflight_ok req /\ exists w1, (w_tick w <= w_tick w1)%nat /\
    ((exists x, r = Raise x /\ u_live (w_uow w1) = u_live (w_uow w) /\ w_idem w1 = claim_idem req w /\
        (x = UnbalancedJournalEntryException -> imbalanced req (w_ledger w)) /\ w' = (cleanup_in_flight req x w1).2) \/
     exists flag resp, executed req flag (u_live (w_uow w)) (u_live (w_uow w1)) resp /\
       w_idem w1 = completed_idem req resp (idem_fails CmdComplete (w_tick w1)) (clock (w_tick w1)) <$> claim_idem req w /\
       match w_idem w, idem_fails CmdComplete (w_tick w1) with
       | Some _, Some _ => r = Raise RedisError /\ w' = (cleanup_in_flight req RedisError w1).2
       | _, _ => r = Ok resp /\ w' = w1
       end)).
Proof.
  destruct (preflight_cases req w) as [(x & -> & Hne)|[Hpre ->]]; [left; exists x; by auto|].
  pose proof (gate_run req w) as Hg. destruct (idempotency_gate req w) as [[[resp|]|x] w0].
  - destruct Hg as [-> (d & Hd)]. right. left. by exists resp, d.
  - destruct Hg as [-> Hnone]. unfold try_except.
    pose proof (guarded_run req (claimed req w)) as H. destruct (guarded_transfer req (claimed req w)) as [r w1].
    destruct H as [Ht [(x & -> & Hlive & Hidem & Hub)|(flag & resp & Hex & Hidem & ->)]].
    + right. right. do 2 (split; [done|]). exists w1. split; [exact Ht|]. left. exists x. by rewrite Hlive.
    + cbn [w_idem claimed] in *. destruct (w_idem w) as [rd|] eqn:Hw; unfold claim_idem in *; rewrite Hw in *; cbn [fmap option_fmap option_map] in *;
        destruct (idem_fails CmdComplete (w_tick w1)) eqn:Hf; right; right; (do 2 (split; [done|])); exists w1; (split; [exact Ht|]);
        right; exists flag, resp; rewrite ?Hf; done.
  - destruct Hg as [Hne Hw]. left. exists x. by auto.
Qed.

Lemma cleanup_uow req x w : w_uow (cleanup_in_flight req x w).2 = w_uow w /\ w_tick (cleanup_in_flight req x w).2 = w_tick w.
Proof. unfold cleanup_in_flight. cbn. by repeat case_match. Qed.

(** Exact balance of an account in its normal direction. *)
Definition bal_units (ty : AccountType) (a : Z) (log : list JournalPostingEntity) : Z :=
  if debit_normal ty then acct_units DEBIT a log - acct_units CREDIT a log
  else acct_units CREDIT a log - acct_units DEBIT a log.

Definition acct_fits (a : Z) (log : list JournalPostingEntity) : Prop :=
  fits (acct_units DEBIT a log) /\ fits (acct_units CREDIT a log).

Lemma account_balance_exact (l : L) ty a :
  Forall valid_posting (all_postings l) -> acct_fits a (all_postings l) ->
  deq (account_balance l ty a) (d4 (bal_units ty a (all_postings l))).
Proof.
  intros Hv [HD HC]. unfold account_balance, normal_balance, bal_units. rewrite law_aggregates.
  pose proof (posting_total_units DEBIT a _ Hv HD) as ED. pose proof (posting_total_units CREDIT a _ Hv HC) as EC.
  pose proof (acct_units_nonneg DEBIT a _ Hv). pose proof (acct_units_nonneg CREDIT a _ Hv).
  unfold fits in *. destruct (debit_normal ty); apply dsub_d4; try done; unfold fits; lia.
Qed.

(** The amounts of the request and of the conversion stay within the decimal
    context's precision. *)
Definition amounts_fit (req : transfer_request) (l : L) : Prop :=
  fits (charge req) /\ 0 <= scaled4 (t_amount req) /\
  forall s d damt rate, get_account_by_id l (source_account_id req) = Some s ->
    get_account_by_id l (destination_account_id req) = Some d ->
    fx_step req s d = Ok (damt, rate) -> fits (charge req + scaled4 damt).

Lemma legs_total req s d fx l legs :
  preflight_ok req -> amounts_fit req l ->
  checks_passed req (dadd (t_amount req) (fee_amount req)) l s d fx ->
  legs_of req (dadd (t_amount req) (fee_amount req)) fx.1 s d legs -> Forall valid_dto (mk_leg <$> legs) ->
  deq (dadd (t_amount req) (fee_amount req)) (d4 (charge req)) /\
  exists u, fits u /\ units DEBIT (mk_leg <$> legs) = u /\ units CREDIT (mk_leg <$> legs) = u.
Proof.
  intros (_ & _ & Hfee & _) (Hf & _ & Hfx) (_ & Hs & _ & Hd & _ & _ & Hstep & _) Hlegs Hv.
  destruct (legs_valid _ _ _ _ _ _ Hlegs Hv) as [Ha Hfv].
  pose proof (charge_exact req Hfee Ha Hfv Hf) as Hq. split; [done|]. apply scaled4_d4 in Hq as Ht.
  destruct fx as [damt rate]. unfold legs_of in Hlegs. case_bool_decide.
  - subst legs. exists (charge req). rewrite !single_units by done. done.
  - destruct Hlegs as (f1 & f2 & ->). exists (charge req + scaled4 damt). rewrite !cross_units by done.
    split; [by eapply Hfx|done].
Qed.

(** A posted transfer adds valid, balanced legs to the end of the log and one event
    to the outbox. *)
Lemma executed_balanced req flag st st' resp : preflight_ok req -> amounts_fit req (st_ledger st) ->
  executed req flag st st' resp ->
  (exists legs, all_postings (st_ledger st') = all_postings (st_ledger st) ++ legs /\
    Forall valid_posting legs /\ trial_balance legs = 0) /\
  exists ev, st_outbox st' = ob_create ev (st_outbox st).
Proof.
  intros Hpre Hfit (s & d & fx & legs & e & Hc & Hl & Hv & _ & Hp & _). split.
  - exists (je_postings e). split; [apply Hp|].
    destruct (legs_total _ _ _ _ _ _ Hpre Hfit Hc Hl Hv) as (_ & u & _ & HD & HC).
    destruct (pe_entry _ _ _ _ _ _ _ Hp) as (u0 & now & ids & ->). cbn [je_postings].
    split; [by apply materialize_valid|]. unfold trial_balance. rewrite !materialize_units. lia.
  - destruct (pe_outbox _ _ _ _ _ _ _ Hp) as (ev & Hev & _). by exists ev.
Qed.

(** ** Properties *)

(** The commands that clear an in-flight record go through. *)
Definition cleanup_works : Prop := forall t, idem_fails CmdCleanGet t = None /\ idem_fails CmdCleanDel t = None.

(** What is left under the key after the clean-up: no in-flight record of this call, at
    most the completed one. *)
Lemma cleanup_clears req x w w1 v now rd' (Hclock : forall m n, (m <= n)%nat -> clock m <= clock n) :
  cleanup_works -> (w_tick w <= w_tick w1)%nat -> w_idem (cleanup_in_flight req x w1).2 = Some rd' -> clock (w_tick w1) <= now ->
  r_get now (idempotency_key req) rd' = Some v ->
  (w_idem w1 = claim_idem req w -> False) /\
  (forall resp f, w_idem w1 = completed_idem req resp f (clock (w_tick w1)) <$> claim_idem req w ->
     v = IvObject (Some "COMPLETED") (Some (dump resp))).
Proof.
  intros Hcl Ht Hrd' Hnow Hget. destruct (Hcl (w_tick w1)) as [Hg Hd]. pose proof (Hclock _ _ Ht) as Hle.
  assert (forall rd1, w_idem w1 = Some rd1 ->
    exists v1, r_get (clock (w_tick w1)) (idempotency_key req) rd1 = Some v1 /\ text_mentions_processing v1 = false /\
      r_get now (idempotency_key req) rd1 = Some v) as Hkept.
  { intros rd1 E. unfold cleanup_in_flight in Hrd'. cbn in Hrd'. rewrite E, Hg, Hd in Hrd'. cbn in Hrd'.
    destruct (r_get (clock (w_tick w1)) (idempotency_key req) rd1) as [v1|] eqn:E1; [|rewrite E in Hrd'; injection Hrd' as <-;
      by rewrite (law_get_later _ _ _ _ _ Hnow Hget) in E1].
    destruct (text_mentions_processing v1) eqn:Hm; cbn in Hrd'.
    - injection Hrd' as <-. rewrite law_get_del, decide_True in Hget by done. done.
    - rewrite E in Hrd'. injection Hrd' as <-. by exists v1. }
  unfold claim_idem. split.
  - intros Hi. destruct (w_idem w) as [rd|]; cbn in Hi.
    + destruct (Hkept _ Hi) as (v1 & E1 & Hm & _). rewrite law_get_set, decide_True in E1 by (done || lia).
      destruct (_ <? _); [injection E1 as <-; done|done].
    + unfold cleanup_in_flight in Hrd'. cbn in Hrd'. rewrite Hi in Hrd'. congruence.
  - intros resp f Hi. destruct (w_idem w) as [rd|]; cbn in Hi.
    + destruct (Hkept _ Hi) as (v1 & E1 & Hm & Hv). unfold completed_idem in *.
      assert (forall (c : bool), r_get now (idempotency_key req) (r_set (clock (w_tick w)) (idempotency_key req) (IvObject (Some "PROCESSING") None) (60 * 1000000) rd) = Some v ->
        r_get (clock (w_tick w1)) (idempotency_key req) (r_set (clock (w_tick w)) (idempotency_key req) (IvObject (Some "PROCESSING") None) (60 * 1000000) rd) = Some v1 -> False) as Hno.
      { intros _ _ E. rewrite law_get_set, decide_True in E by (done || lia). destruct (_ <? _); [injection E as <-; done|done]. }
      destruct f as [[]|]; cbn in *; [exfalso; exact (Hno true Hv E1)| |];
        rewrite law_get_set, decide_True in Hv by (done || lia); destruct (_ <? _); congruence.
    + unfold cleanup_in_flight in Hrd'. cbn in Hrd'. rewrite Hi in Hrd'. congruence.
Qed.

(** C2: a transfer is all or nothing, and once it is committed only the idempotency
    record can still fail.  When [transfer_funds] raises, either every store of the unit
    of work (ledger, outbox, reconciliation and the rest) is what it was, and an
    in-flight claim this call made is gone, so the reference can be retried at once; or
    the transfer was executed and committed, the exception is that of the Redis command
    that records its completion, and no in-flight record is left (both unless the
    clean-up commands fail too, or the claim's own reply was lost).  When it returns,
    either it replayed the completed record of an earlier call and changed nothing, or
    it was executed: the checks held in the ledger before the call, one journal entry
    with the transfer's legs is filed under the reference, and one PENDING event keyed
    by the source account is in the outbox. *)
Theorem transfer_all_or_nothing (req : transfer_request) (w : world)
  (Hclock : forall m n, (m <= n)%nat -> clock m <= clock n) :
  let '(r, w') := transfer_funds req w in
  let cleared (may_stay : idem_val D -> Prop) :=
    idem_record req w = None -> idem_fails CmdClaim (w_tick w) = None -> cleanup_works -> forall rd', w_idem w' = Some rd' ->
    forall now v, clock (w_tick w') <= now -> r_get now (idempotency_key req) rd' = Some v -> may_stay v in
  match r with
  | Raise x =>
      u_live (w_uow w') = u_live (w_uow w) /\ cleared (fun _ => False) \/
      exists flag resp, executed req flag (u_live (w_uow w)) (u_live (w_uow w')) resp /\
        x = RedisError /\ idem_fails CmdComplete (w_tick w') <> None /\
        cleared (fun v => v = IvObject (Some "COMPLETED") (Some (dump resp)))
  | Ok resp =>
      (w' = w /\ exists d, idem_record req w = Some (IvObject (Some "COMPLETED") (Some d)) /\ validate d = Some resp) \/
      exists flag, executed req flag (u_live (w_uow w)) (u_live (w_uow w')) resp
  end.
Proof.
  pose proof (transfer_cases req w) as H. destruct (transfer_funds req w) as [r w'].
  destruct H as [(x & -> & _ & Hw)|[(resp & d & -> & -> & Hd)|(Hnone & _ & w1 & Ht & [(x & -> & Hl & Hi & _ & ->)|(flag & resp & Hex & Hi & Hr)])]].
  - left. split; [by destruct Hw as [->|[-> _]]|]. intros Hnone Hcl _ rd' Hrd' now v Hnow Hget.
    destruct Hw as [->|(_ & _ & Hf)]; [|done]. unfold idem_record in Hnone. rewrite Hrd' in Hnone.
    by rewrite (law_get_later _ _ _ _ _ Hnow Hget) in Hnone.
  - left. by eauto.
  - destruct (cleanup_uow req x w1) as [-> Htick]. left. split; [done|]. intros _ _ Hcl rd' Hrd' now v Hnow Hget. rewrite Htick in Hnow.
    exact (proj1 (cleanup_clears req x w w1 v now rd' Hclock Hcl Ht Hrd' Hnow Hget) Hi).
  - destruct (cleanup_uow req RedisError w1) as [Hu Htick].
    destruct (w_idem w) eqn:Hw, (idem_fails CmdComplete (w_tick w1)) eqn:Hf; destruct Hr as [-> ->]; try (right; by exists flag).
    right. exists flag, resp. rewrite Hu, Htick. split; [done|]. split; [done|]. split; [by rewrite Hf|].
    intros _ _ Hcl rd' Hrd' now v Hnow Hget. rewrite <-Hf in Hi.
    exact (proj2 (cleanup_clears req RedisError w w1 v now rd' Hclock Hcl Ht Hrd' Hnow Hget) resp _ Hi).
Qed.

(** What the stores are after a transfer, in one alternative. *)
Lemma transfer_stores req w :
  u_live (w_uow (transfer_funds req w).2) = u_live (w_uow w) \/
  preflight_ok req /\ exists flag resp, executed req flag (u_live (w_uow w)) (u_live (w_uow (transfer_funds req w).2)) resp.
Proof.
  pose proof (transfer_cases req w) as H. destruct (transfer_funds req w) as [r w']. cbn.
  destruct H as [(x & _ & _ & Hw)|[(resp & d & _ & -> & _)|(_ & Hpre & w1 & _ & [(x & _ & Hl & _ & _ & ->)|(flag & resp & Hex & _ & Hr)])]].
  - left. by destruct Hw as [->|[-> _]].
  - by left.
  - left. by destruct (cleanup_uow req x w1) as [-> _].
  - right. split; [done|]. exists flag, resp. destruct (cleanup_uow req RedisError w1) as [Hu _].
    destruct (w_idem w), (idem_fails CmdComplete (w_tick w1)); destruct Hr as [_ ->]; rewrite ?Hu; done.
Qed.

(** C1: a transfer keeps the books balanced.  Whatever its outcome, as long as the
    amounts stay within the 28 digits of the decimal context, the log of postings only
    grows at its end, by valid legs (positive amounts of four places) whose debits and
    credits are equal, so the trial balance is what it was; and the zero-sum assertion
    never fires, for any single- or cross-currency branch, with or without a fee. *)
Theorem transfer_keeps_trial_balance (req : transfer_request) (w : world)
  (Hfit : amounts_fit req (w_ledger w)) :
  let '(r, w') := transfer_funds req w in
  (exists legs, all_postings (w_ledger w') = all_postings (w_ledger w) ++ legs /\
     Forall valid_posting legs /\ trial_balance legs = 0) /\
  trial_balance (all_postings (w_ledger w')) = trial_balance (all_postings (w_ledger w)) /\
  r <> Raise UnbalancedJournalEntryException.
Proof.
  pose proof (transfer_stores req w) as Hst. pose proof (transfer_cases req w) as H.
  destruct (transfer_funds req w) as [r w']; unfold w_ledger in *. cbn in Hst.
  assert (exists legs, all_postings (st_ledger (u_live (w_uow w'))) = all_postings (st_ledger (u_live (w_uow w))) ++ legs /\
     Forall valid_posting legs /\ trial_balance legs = 0) as Hlegs.
  { destruct Hst as [->|(Hpre & flag & resp & Hex)]; [exists []; by rewrite app_nil_r|].
    exact (proj1 (executed_balanced _ _ _ _ _ Hpre Hfit Hex)). }
  split; [done|]. split; [destruct Hlegs as (legs & -> & _ & Hb); rewrite trial_balance_app; lia|]. intros ->.
  destruct H as [(x & [= <-] & Hne & _)|[(resp & d & [=] & _)|(_ & Hpre & w1 & _ & [(x & [= <-] & _ & _ & Hx & _)|(flag & resp & _ & _ & Hr)])]];
    [done| |by destruct (w_idem w), (idem_fails CmdComplete (w_tick w1)); destruct Hr as [[=] _]].
  destruct (Hx eq_refl) as (s & d & fx & legs & Hc & Hl & Hv & Hne).
  destruct (legs_total _ _ _ _ _ _ Hpre Hfit Hc Hl Hv) as (_ & u & Hfu & HD & HC).
  assert (deqb (dto_total DEBIT (mk_leg <$> legs)) (dto_total CREDIT (mk_leg <$> legs)) = true) as E; [|congruence].
  change (deq (dto_total DEBIT (mk_leg <$> legs)) (dto_total CREDIT (mk_leg <$> legs))).
  rewrite !dto_total_units by (rewrite ?HD, ?HC; done). by rewrite HD, HC.
Qed.

(** The effect of the single-currency legs on one account. *)
Lemma single_acct_units req total ty a dir :
  preflight_ok req -> scaled4 total = charge req ->
  units dir (filter (fun p => p_account_id p = a) (mk_leg <$> single_currency_legs req total ty)) =
  let out := if debit_normal ty then CREDIT else DEBIT in
  if decide (a = source_account_id req) then (if decide (dir = out) then charge req else 0)
  else if decide (a = destination_account_id req) then (if decide (dir = out) then 0 else scaled4 (t_amount req))
  else if decide (charged_fee req = Some a) then (if decide (dir = out) then 0 else scaled4 (fee_amount req))
  else 0.
Proof.
  intros (Hne & _ & Hfee & Hf1 & Hf2) Ht.
  destruct (fee_cases req Hfee) as [(f & Hc & Hacc)|[Hc Hz]]; rewrite Hc; unfold single_currency_legs; rewrite Hc;
    destruct (debit_normal ty), dir; cbn [fmap list_fmap app mk_leg];
    rewrite !units_acct_cons; cbn; repeat case_decide; simplify_eq; try lia; try congruence.
Qed.

(** The balance of account [a] after the legs [ps] were appended. *)
Lemma bal_units_app ty a log u now ids ps :
  bal_units ty a (log ++ materialize u now ids ps) =
  bal_units ty a log +
  let leg dir := units dir (filter (fun p => p_account_id p = a) ps) in
  if debit_normal ty then leg DEBIT - leg CREDIT else leg CREDIT - leg DEBIT.
Proof. unfold bal_units. rewrite !acct_units_app, !materialize_acct_units. destruct (debit_normal ty); lia. Qed.

(** A success under a free key is an executed transfer whose completed record, when there
    is a Redis, has been written. *)
Lemma fresh_success req w w' r :
  transfer_funds req w = (Ok r, w') -> idem_record req w = None ->
  preflight_ok req /\ (exists flag, executed req flag (u_live (w_uow w)) (u_live (w_uow w')) r) /\
  w_idem w' = completed_idem req r None (clock (w_tick w')) <$> claim_idem req w.
Proof.
  intros Hrun Hnew. pose proof (transfer_cases req w) as H. rewrite Hrun in H.
  destruct H as [(x & [=] & _)|[(resp & d & _ & _ & Hx & _)|(_ & Hpre & w1 & _ & [(x & [=] & _)|(flag & resp & Hex & Hi & Hr)])]];
    [by rewrite Hnew in Hx|].
  unfold claim_idem in *. destruct (w_idem w) as [rd|], (idem_fails CmdComplete (w_tick w1)); destruct Hr as [[=] ->]; subst resp;
    (split; [done|]); split; eauto.
Qed.

(** What a fresh successful same-currency transfer leaves in the log. *)
Lemma same_currency_posted req w w' r s d :
  transfer_funds req w = (Ok r, w') -> idem_record req w = None ->
  get_account_by_id (w_ledger w) (source_account_id req) = Some s ->
  get_account_by_id (w_ledger w) (destination_account_id req) = Some d ->
  acc_currency s = acc_currency d -> amounts_fit req (w_ledger w) ->
  let total := dadd (t_amount req) (fee_amount req) in
  let ps := mk_leg <$> single_currency_legs req total (account_type s) in
  preflight_ok req /\ deq total (d4 (charge req)) /\ Forall valid_dto ps /\
  dltb (account_balance (w_ledger w) (account_type s) (source_account_id req)) total = false /\
  (exists u now ids, all_postings (w_ledger w') = all_postings (w_ledger w) ++ materialize u now ids ps) /\
  source_new_balance r = account_balance (w_ledger w') (account_type s) (source_account_id req) /\
  destination_new_balance r = account_balance (w_ledger w') (account_type d) (destination_account_id req).
Proof.
  intros Hrun Hnew Hs Hd Hcur Hfit.
  destruct (fresh_success _ _ _ _ Hrun Hnew) as (Hpre & (flag & s' & d' & fx & legs & e & Hc & Hl & Hv & _ & Hp & Hresp) & _).
  destruct (legs_total _ _ _ _ _ _ Hpre Hfit Hc Hl Hv) as (Htot & _).
  destruct Hc as (_ & Hs' & _ & Hd' & _ & _ & _ & Hbal).
  unfold w_ledger in *. rewrite Hs in Hs'. rewrite Hd in Hd'. simplify_eq.
  unfold legs_of in Hl. rewrite bool_decide_eq_true_2 in Hl by done. subst legs.
  pose proof (pe_log _ _ _ _ _ _ _ Hp) as Hlog. destruct (pe_entry _ _ _ _ _ _ _ Hp) as (u & now & ids & He).
  rewrite He in Hlog. cbn [je_postings] in Hlog. rewrite Hresp. do 4 (split; [done|]). by eauto 6.
Qed.

(** The balances of a same-currency transfer.  The source pays exactly the
    amount plus the fee and its balance does not go below zero; the reported new
    balances are the exact ones; no account other than source, destination and
    fee account moves.  The destination's balance rises by the amount only when
    both accounts have the same normal side: between accounts of opposite normal
    sides it falls by the amount, since the leg's direction is chosen from the
    source's type alone. *)
Theorem same_currency_balances (req : transfer_request) (w w' : world) (r : FundTransferResponseDTO)
  (s d : LedgerAccountEntity)
  (Hrun : transfer_funds req w = (Ok r, w')) (Hnew : idem_record req w = None)
  (Hs : get_account_by_id (w_ledger w) (source_account_id req) = Some s)
  (Hd : get_account_by_id (w_ledger w) (destination_account_id req) = Some d)
  (Hcur : acc_currency s = acc_currency d) (Hfit : amounts_fit req (w_ledger w))
  (Hval : Forall valid_posting (all_postings (w_ledger w)))
  (Hroom : forall a, a = source_account_id req \/ a = destination_account_id req ->
     acct_fits a (all_postings (w_ledger w)) /\ acct_fits a (all_postings (w_ledger w'))) :
  let log := all_postings (w_ledger w) in
  let src_bal := bal_units (account_type s) (source_account_id req) log in
  let dst_bal := bal_units (account_type d) (destination_account_id req) log in
  let same_side := bool_decide (debit_normal (account_type s) = debit_normal (account_type d)) in
  0 <= src_bal - charge req /\
  deq (source_new_balance r) (d4 (src_bal - charge req)) /\
  deq (destination_new_balance r)
    (d4 (if same_side then dst_bal + scaled4 (t_amount req) else dst_bal - scaled4 (t_amount req))) /\
  (forall a dir, a <> source_account_id req -> a <> destination_account_id req -> charged_fee req <> Some a ->
     acct_units dir a (all_postings (w_ledger w')) = acct_units dir a log).
Proof.
  intros log src_bal dst_bal same_side.
  destruct (same_currency_posted _ _ _ _ _ _ Hrun Hnew Hs Hd Hcur Hfit)
    as (Hpre & Ht & Hv & Hbal & (u & now & ids & Hlog) & -> & ->). apply scaled4_d4 in Ht as Htot.
  assert (Forall valid_posting (all_postings (w_ledger w'))) as Hval'.
  { rewrite Hlog. apply Forall_app. split; [done|by apply materialize_valid]. }
  destruct (Hroom (source_account_id req)) as [Hr1 Hr1'], (Hroom (destination_account_id req)) as [_ Hr2']; [by auto..|].
  assert (charge req <= src_bal) as Hle.
  { rewrite (account_balance_exact _ _ _ Hval Hr1), Ht, d4_ltb in Hbal. by apply Z.ltb_ge in Hbal. }
  split; [lia|]. split; [|split].
  - rewrite (account_balance_exact _ _ _ Hval' Hr1'). apply d4_inj. rewrite Hlog, bal_units_app. cbv beta zeta.
    rewrite !single_acct_units by done. cbv zeta. rewrite !decide_True by done. fold log src_bal.
    destruct (debit_normal (account_type s)); repeat case_decide; done || lia.
  - rewrite (account_balance_exact _ _ _ Hval' Hr2'). apply d4_inj. rewrite Hlog, bal_units_app. cbv beta zeta.
    rewrite !single_acct_units by done. cbv zeta. fold log dst_bal. destruct Hpre as (Hne & _).
    rewrite !(decide_False (P := destination_account_id req = source_account_id req)), !decide_True by done.
    unfold same_side. destruct (debit_normal (account_type s)), (debit_normal (account_type d)); repeat case_decide;
      case_bool_decide; done || lia.
  - intros a dir H1 H2 H3. rewrite Hlog, acct_units_app, materialize_acct_units, single_acct_units by done. cbv zeta.
    rewrite !decide_False by done. fold log. lia.
Qed.

Lemma preflight_run req w : preflight_ok req ->
  transfer_funds req w =
    match idempotency_gate req w with
    | (Ok (Some response), w') => (Ok response, w')
    | (Ok None, w') => try_except (guarded_transfer req) (cleanup_in_flight req) w'
    | (Raise e, w') => (Raise e, w')
    end.
Proof.
  intros (H1 & H2 & [H3 H4] & H5 & H6). unfold transfer_funds. autorewrite with pym.
  rewrite H2, H3, (bool_decide_eq_false_2 (source_account_id req = _)) by done.
  rewrite (bool_decide_eq_false_2 (_ = Some (source_account_id req))) by done.
  rewrite (bool_decide_eq_false_2 (_ = Some (destination_account_id req))) by done.
  assert (dltb d0 (fee_amount req) && bool_decide (fee_account_id req = None) = false) as ->.
  { destruct (dltb d0 (fee_amount req)); [|done]. rewrite bool_decide_eq_false_2 by auto. done. }
  cbn [orb]. unfold bind. by destruct (idempotency_gate req w) as [[[]|] ?].
Qed.

(** What a live record makes of a request whose lookup goes through. *)
Lemma gate_processing req w data : idem_fails CmdGet (w_tick w) = None ->
  idem_record req w = Some (IvObject (Some "PROCESSING") data) ->
  idempotency_gate req w = (Raise ConcurrentTransferInProgressException, w).
Proof. intros Hg. unfold idem_record, idempotency_gate. destruct (w_idem w) as [rd|]; [|done]. rewrite Hg. by intros ->. Qed.

Lemma gate_completed req w d r : idem_fails CmdGet (w_tick w) = None ->
  idem_record req w = Some (IvObject (Some "COMPLETED") (Some d)) ->
  validate d = Some r -> idempotency_gate req w = (Ok (Some r), w).
Proof. intros Hg. unfold idem_record, idempotency_gate. destruct (w_idem w) as [rd|]; [|done]. rewrite Hg. by intros -> ->. Qed.

(** A reference that is filed in the ledger is never executed again. *)
Lemma filed_not_executed req w flag st' r :
  get_journal_entry_by_reference (w_ledger w) (t_reference_id req) <> None ->
  executed req flag (u_live (w_uow w)) st' r -> False.
Proof. intros Hf (s & d & fx & legs & e & (Hnone & _) & _). by apply Hf. Qed.

Lemma filed_request req w : get_journal_entry_by_reference (w_ledger w) (t_reference_id req) <> None ->
  let '(r, w') := transfer_funds req w in
  u_live (w_uow w') = u_live (w_uow w) /\
  match r with
  | Ok resp => w' = w /\ exists d, idem_record req w = Some (IvObject (Some "COMPLETED") (Some d)) /\ validate d = Some resp
  | Raise _ => True
  end.
Proof.
  intros Hf. pose proof (transfer_stores req w) as Hst. pose proof (transfer_cases req w) as H.
  destruct (transfer_funds req w) as [r w']. cbn in Hst.
  split; [destruct Hst as [Hst|(_ & flag & resp & Hex)]; [done|by destruct (filed_not_executed _ _ _ _ _ Hf Hex)]|].
  destruct H as [(x & -> & _)|[(resp & d & -> & -> & Hd)|(_ & _ & w1 & _ & [(x & -> & _)|(flag & resp & Hex & _)])]];
    [done|by eauto|done|by destruct (filed_not_executed _ _ _ _ _ Hf Hex)].
Qed.

End Service.

(** ** Witnesses

    Two ASSET accounts and one LIABILITY account in USD, a euro account, and a
    deposit of 100.0000 on account 1; Redis holds its responses as they are. *)

Definition ex_ledger : ledger_repo :=
  (mem_create_journal_entry 50 0 (fun i => 60 + Z.of_nat i) "dep" "deposit"
    [mkPosting 1 (d4 1000000) DEBIT; mkPosting 3 (d4 1000000) CREDIT] false
    (mem_create_account 4 0 "ACC-4" "Euro cash" ASSET "EUR"
      (mem_create_account 3 0 "ACC-3" "Deposits" LIABILITY "USD"
        (mem_create_account 2 0 "ACC-2" "Savings" ASSET "USD"
          (mem_create_account 1 0 "ACC-1" "Cash" ASSET "USD" mem_empty).2).2).2).2).2.

Definition ex_world_t : Type :=
  world (L:=ledger_repo) (X:=()) (RI:=gmap string (idem_val FundTransferResponseDTO * Z))
    (RL:=gmap string (string * Z)) (RF:=ref_fraud).
Definition ex_world : ex_world_t :=
  mkWorld (mkUow (mkStores ex_ledger [] (mkReconRepo ∅ ∅) ()) None) (Some ∅) (Some (mkL ∅ 0))
    (mkFraud None ∅ ∅) 0.

Definition ex_run (req : transfer_request) : M ex_world_t FundTransferResponseDTO :=
  transfer_funds (D:=FundTransferResponseDTO) id Some (fun _ => false) (fun n => 1000 + Z.of_nat n)
    (fun n => 1000 * Z.of_nat n) (fun n => 1000 * Z.of_nat n) (fun _ => "tok") (fun _ rd => rd) (fun _ => true) (fun _ _ => None) (fun _ _ => None) (fun _ _ => None) req.

Definition ex_req (dst : Z) (amt : Z) : transfer_request :=
  mkTransfer 1 dst (d4 amt) "ref-1" "rent" d0 None None.
Definition ex_fx_req : transfer_request :=
  mkTransfer 1 4 (d4 200000) "ref-2" "euros" (d4 10000) (Some 3) (Some (mkDec 92 (-2))).

Example ex_ok : is_ok (ex_run (ex_req 2 300000) ex_world).1 = true.
Proof. vm_compute. reflexivity. Qed.
Example ex_fx_ok : is_ok (ex_run ex_fx_req ex_world).1 = true.
Proof. vm_compute. reflexivity. Qed.
Example ex_poor : (ex_run (ex_req 2 2000000) ex_world).1 = Raise InsufficientFundsException.
Proof. vm_compute. reflexivity. Qed.


(** The same service while Redis refuses the write of the completed record: the transfer
    is committed and the caller gets the error; a retry finds the reference filed. *)
Definition complete_fails (c : idem_cmd) (_ : nat) : option fault := match c with CmdComplete => Some NotDone | _ => None end.
Definition ex_run_faulty (req : transfer_request) : M ex_world_t FundTransferResponseDTO :=
  transfer_funds (D:=FundTransferResponseDTO) id Some (fun _ => false) (fun n => 1000 + Z.of_nat n)
    (fun n => 1000 * Z.of_nat n) (fun n => 1000 * Z.of_nat n) (fun _ => "tok") (fun _ rd => rd) (fun _ => true)
    complete_fails (fun _ _ => None) (fun _ _ => None) req.

Example committed_but_reported_failed :
  let '(r, w') := ex_run_faulty (ex_req 2 300000) ex_world in
  r = Raise RedisError /\ length (all_postings (w_ledger w')) = 4%nat /\
  (ex_run_faulty (ex_req 2 300000) w').1 = Raise DuplicateReferenceException.
Proof. vm_compute. repeat split. Qed.

Lemma transfer_all_or_nothing_witness :
  ((ex_run (ex_req 2 2000000) ex_world).1 = Raise InsufficientFundsException /\
   u_live (w_uow (ex_run (ex_req 2 2000000) ex_world).2) = u_live (w_uow ex_world)) /\
  exists flag resp, executed (ex_req 2 300000) flag (u_live (w_uow ex_world))
    (u_live (w_uow (ex_run_faulty (ex_req 2 300000) ex_world).2)) resp.
Proof.
  split; [split; [vm_compute; reflexivity|]|].
  - pose proof (transfer_all_or_nothing (D:=FundTransferResponseDTO) id Some (fun _ => false) (fun n => 1000 + Z.of_nat n)
      (fun n => 1000 * Z.of_nat n) (fun n => 1000 * Z.of_nat n) (fun _ => "tok") (fun _ rd => rd) (fun _ => true)
      (fun _ _ => None) (fun _ _ => None) (fun _ _ => None) (ex_req 2 2000000) ex_world ltac:(intros; cbv beta; lia)) as T.
    fold (ex_run (ex_req 2 2000000)) in T.
    assert (E : (ex_run (ex_req 2 2000000) ex_world).1 = Raise InsufficientFundsException) by (vm_compute; reflexivity).
    destruct (ex_run (ex_req 2 2000000) ex_world) as [r w']. cbn in E. subst r.
    destruct T as [[T _]|(flag & resp & _ & [=] & _)]. exact T.
  - pose proof (transfer_all_or_nothing (D:=FundTransferResponseDTO) id Some (fun _ => false) (fun n => 1000 + Z.of_nat n)
      (fun n => 1000 * Z.of_nat n) (fun n => 1000 * Z.of_nat n) (fun _ => "tok") (fun _ rd => rd) (fun _ => true)
      complete_fails (fun _ _ => None) (fun _ _ => None) (ex_req 2 300000) ex_world ltac:(intros; cbv beta; lia)) as T.
    fold (ex_run_faulty (ex_req 2 300000)) in T.
    assert (E : (ex_run_faulty (ex_req 2 300000) ex_world).1 = Raise RedisError /\
      length (all_postings (w_ledger (ex_run_faulty (ex_req 2 300000) ex_world).2)) = 4%nat) by (vm_compute; split; reflexivity).
    destruct (ex_run_faulty (ex_req 2 300000) ex_world) as [r w']. cbn in E. destruct E as [-> E].
    destruct T as [[T _]|(flag & resp & T & _)]; [|by exists flag, resp].
    exfalso. unfold w_ledger in E. rewrite T in E. vm_compute in E. discriminate E.
Defined.

Lemma ex_amounts_fit req : req = ex_req 2 300000 \/ req = ex_fx_req -> amounts_fit req (w_ledger ex_world).
Proof.
  intros [->| ->]; (split; [reflexivity|]); (split; [vm_compute; discriminate|]);
    intros s d damt rate [= <-] [= <-]; [intros [= <- <-]; reflexivity|].
  intros H. vm_compute in H. injection H as <- <-. reflexivity.
Qed.

Lemma transfer_keeps_trial_balance_witness :
  is_ok (ex_run ex_fx_req ex_world).1 = true /\
  trial_balance (all_postings (w_ledger (ex_run ex_fx_req ex_world).2)) = 0.
Proof.
  split; [vm_compute; reflexivity|].
  pose proof (transfer_keeps_trial_balance (D:=FundTransferResponseDTO) id Some (fun _ => false)
    (fun n => 1000 + Z.of_nat n) (fun n => 1000 * Z.of_nat n) (fun n => 1000 * Z.of_nat n) (fun _ => "tok")
    (fun _ rd => rd) (fun _ => true) (fun _ _ => None) (fun _ _ => None) (fun _ _ => None) ex_fx_req ex_world (ex_amounts_fit _ (or_intror eq_refl))) as T.
  fold (ex_run ex_fx_req) in T.
  destruct (ex_run ex_fx_req ex_world) as [r w']. exact (proj1 (proj2 T)).
Defined.

(** The response of the 30.0000 transfer from account 1 to account 2. *)
Definition ex_response : FundTransferResponseDTO :=
  match (ex_run (ex_req 2 300000) ex_world).1 with
  | Ok r => r
  | Raise _ => mkResponse 0 "" d0 d0 d0 d0 0 "" "" None None false
  end.

Lemma same_currency_balances_witness :
  deq (source_new_balance ex_response) (d4 700000) /\ deq (destination_new_balance ex_response) (d4 300000).
Proof.
  destruct (same_currency_balances (D:=FundTransferResponseDTO) id Some (fun _ => false)
    (fun n => 1000 + Z.of_nat n) (fun n => 1000 * Z.of_nat n) (fun n => 1000 * Z.of_nat n) (fun _ => "tok")
    (fun _ rd => rd) (fun _ => true) (fun _ _ => None) (fun _ _ => None) (fun _ _ => None) (ex_req 2 300000) ex_world (ex_run (ex_req 2 300000) ex_world).2 ex_response
    (mkAccount 1 "ACC-1" "Cash" ASSET "USD" true 0) (mkAccount 2 "ACC-2" "Savings" ASSET "USD" true 0))
    as (_ & H1 & H2 & _).
  - vm_compute. reflexivity.
  - reflexivity.
  - reflexivity.
  - reflexivity.
  - reflexivity.
  - apply ex_amounts_fit. by left.
  - repeat constructor.
  - intros a [-> | ->]; repeat split; vm_compute; reflexivity.
  - split; [exact H1|exact H2].
Defined.

