(* ===== verification/Reconciliation.v ===== *)
(** [LedgerReconciliationService] of
    [app/services/ledger_reconciliation_service.py]: an external settlement feed
    is matched against the ledger inside one unit of work, and items missing from
    the ledger are compensated by new two-leg entries.

    The store is the unit of work and the position in the streams of generated
    ids ([uuid_at]), clock readings and the eight hex digits of [uuid4().hex[:8]]
    ([hex_at]).  The theorems: what a run does to ledger and batch store on every
    outcome, the classification of each item, and that an item settled again
    under a new batch reference is compensated again. *)

From S2P Require Import Prelude PyDecimal Ledger Uow.

Local Open Scope Z_scope.
Local Open Scope py_scope.

(** [SettlementItemDTO] *)
Record SettlementItemDTO : Type := mkItem {
  si_reference_id : string;
  si_amount : decimal;
  si_currency : string
}.

(** [ReconciliationSummaryDTO]: the batch and the number of compensations. *)
Record ReconciliationSummaryDTO : Type := mkSummary {
  sm_batch_id : Z;
  sm_batch_reference : string;
  sm_gateway_name : string;
  sm_total_records : nat;
  sm_matched_records : nat;
  sm_discrepancy_records : nat;
  sm_auto_compensated_records : nat;
  sm_status : string;
  sm_created_at : Z;
  sm_items : list ReconciliationItem
}.

(** [_to_summary_dto] *)
Definition to_summary_dto (b : ReconciliationBatch) (auto_compensated : nat) : ReconciliationSummaryDTO :=
  mkSummary (rb_id b) (rb_batch_reference b) (rb_gateway_name b) (rb_total_records b) (rb_matched_records b)
    (rb_discrepancy_records b) auto_compensated (rb_status b) (rb_created_at b) (rb_items b).

(** [_extract_internal_amount] *)
Definition extract_internal_amount (entry : JournalEntryEntity) (external_target : decimal) : decimal :=
  let debit_amounts := jp_amount <$> filter (fun p => jp_direction p = DEBIT) (je_postings entry) in
  match debit_amounts with
  | [] => d0
  | _ =>
      if existsb (fun a => deqb external_target a) debit_amounts then external_target
      else match debit_amounts with
           | [a] => a
           | _ => dsum debit_amounts d0
           end
  end.

Section Service.
Context {L X : Type} {Repo : LedgerRepo L}.
Variables (uuid_at clock : nat -> Z) (hex_at : nat -> string).

Record rstate : Type := mkR { rs_uow : uow L X; rs_tick : nat }.

Definition rs_ledger (s : rstate) : L := st_ledger (u_live (rs_uow s)).
Definition rs_recon (s : rstate) : recon_repo := st_recon (u_live (rs_uow s)).
Definition rset_uow (s : rstate) (u : uow L X) : rstate := mkR u (rs_tick s).
Definition rset_ledger (s : rstate) (l : L) (draws : nat) : rstate :=
  let u := rs_uow s in let st := u_live u in
  mkR (mkUow (mkStores l (st_outbox st) (st_recon st) (st_other st)) (u_snapshot u)) (rs_tick s + draws).
Definition rset_recon (s : rstate) (rc : recon_repo) (draws : nat) : rstate :=
  let u := rs_uow s in let st := u_live u in
  mkR (mkUow (mkStores (st_ledger st) (st_outbox st) rc (st_other st)) (u_snapshot u)) (rs_tick s + draws).

(** [_get_or_create_account] *)
Definition get_or_create_account (num name : string) (ty : AccountType) (cur : string)
  : M rstate LedgerAccountEntity := fun s =>
  match get_account_by_number (rs_ledger s) num with
  | Some acc => (Ok acc, s)
  | None =>
      let '(acc, l') := create_account (uuid_at (rs_tick s)) (clock (rs_tick s)) num name ty cur (rs_ledger s) in
      (Ok acc, rset_ledger s l' 1)
  end.

(** The repository call of [_create_compensating_entry]. *)
Definition create_comp_entry (ref desc : string) (ps : list PostingCreateDTO) : M rstate JournalEntryEntity := fun s =>
  let t := rs_tick s in
  let '(e, l') := create_journal_entry (uuid_at t) (clock t) (fun i => uuid_at (t + 1 + i)%nat) ref desc ps
                    false (rs_ledger s) in
  (Ok e, rset_ledger s l' (1 + length ps)).

(** [_create_compensating_entry] *)
Definition create_compensating_entry (gateway_name reference_id : string) (amount : decimal) (currency : string)
  : M rstate JournalEntryEntity :=
  let clean_currency := py_upper (py_strip currency) in
  let clean_gateway := py_upper (py_strip gateway_name) in
  let! user_acc := get_or_create_account ("SETTLEMENT-USER-" +:+ clean_currency)
    ("User Settlement Clearing (" +:+ clean_currency +:+ ")") ASSET clean_currency in
  let! gateway_acc := get_or_create_account ("GATEWAY-CLEARING-" +:+ clean_gateway +:+ "-" +:+ clean_currency)
    (clean_gateway +:+ " Gateway Clearing (" +:+ clean_currency +:+ ")") LIABILITY clean_currency in
  let! p1 := lift_result (posting_dto (acc_id user_acc) amount DEBIT) in
  let! p2 := lift_result (posting_dto (acc_id gateway_acc) amount CREDIT) in
  let! hex := gets (fun s => hex_at (rs_tick s)) in
  create_comp_entry ("comp-" +:+ reference_id +:+ "-" +:+ hex)
    ("Automated drift recovery compensating entry for external " +:+ clean_gateway +:+ " settlement " +:+ reference_id)
    [p1; p2].

(** The running counts and items of the matching loop. *)
Record racc : Type := mkAcc { a_matched : nat; a_discrepancy : nat; a_auto : nat; a_items : list ReconciliationItem }.

(** The [{entry.reference_id: entry ...}] index. *)
Definition entries_by_ref (l : L) (items : list SettlementItemDTO) : list (string * JournalEntryEntity) :=
  foldl (fun d e => dict_set d (je_reference_id e) e) []
    (get_journal_entries_by_references l (si_reference_id <$> items)).

(** [uuid.uuid4()] twice for the new item. *)
Definition append_item (item : SettlementItemDTO) (int_amount : option decimal) (ty : DiscrepancyType)
  (st : ResolutionStatus) (comp : option Z) (acc : racc) : M rstate racc := fun s =>
  let t := rs_tick s in
  (Ok (mkAcc (a_matched acc) (a_discrepancy acc) (a_auto acc)
         (a_items acc ++ [mkRecItem (uuid_at t) (uuid_at (S t)) (si_reference_id item) (si_amount item)
                            int_amount ty st comp])),
   mkR (rs_uow s) (2 + t)).

(** One iteration of the loop. *)
Definition reconcile_item (index : list (string * JournalEntryEntity)) (gateway_name : string) (auto_compensate : bool)
  (item : SettlementItemDTO) (acc : racc) : M rstate racc :=
  match dict_get index (si_reference_id item) with
  | Some internal_entry =>
      let int_amount := extract_internal_amount internal_entry (si_amount item) in
      let diff := dabs (dsub (si_amount item) int_amount) in
      if deqb diff d0
      then append_item item (Some int_amount) MATCHED RESOLVED None
             (mkAcc (S (a_matched acc)) (a_discrepancy acc) (a_auto acc) (a_items acc))
      else append_item item (Some int_amount) AMOUNT_MISMATCH MANUAL_REVIEW None
             (mkAcc (a_matched acc) (S (a_discrepancy acc)) (a_auto acc) (a_items acc))
  | None =>
      if auto_compensate then
        let! e := create_compensating_entry gateway_name (si_reference_id item) (si_amount item) (si_currency item) in
        append_item item None MISSING_IN_LEDGER AUTO_COMPENSATED (Some (je_id e))
          (mkAcc (a_matched acc) (S (a_discrepancy acc)) (S (a_auto acc)) (a_items acc))
      else append_item item None MISSING_IN_LEDGER UNRESOLVED None
             (mkAcc (a_matched acc) (S (a_discrepancy acc)) (a_auto acc) (a_items acc))
  end.

Fixpoint reconcile_items (index : list (string * JournalEntryEntity)) (gateway_name : string) (auto_compensate : bool)
  (items : list SettlementItemDTO) (acc : racc) : M rstate racc :=
  match items with
  | [] => ret acc
  | item :: items' =>
      let! acc' := reconcile_item index gateway_name auto_compensate item acc in
      reconcile_items index gateway_name auto_compensate items' acc'
  end.

(** [self.uow.reconciliation.create_batch(...)] *)
Definition create_batch (batch_reference gateway_name : string) (total : nat) (acc : racc)
  : M rstate ReconciliationBatch := fun s =>
  let t := rs_tick s in
  let '(b, rc') := rc_create_batch (uuid_at t) (clock t) batch_reference (py_upper (py_strip gateway_name)) total
                     (a_matched acc) (a_discrepancy acc) "COMPLETED" (a_items acc) (rs_recon s) in
  (Ok b, rset_recon s rc' 1).

(** The body of [reconcile_settlement_feed]'s [async with self.uow]. *)
Definition reconcile_body (batch_reference gateway_name : string) (items : list SettlementItemDTO)
  (auto_compensate : bool) : M rstate ReconciliationSummaryDTO :=
  let! existing_batch := gets (fun s => rc_get_batch_by_reference (rs_recon s) batch_reference) in
  raise_if (bool_decide (is_Some existing_batch)) DuplicateReferenceException ;;;
  let! index := gets (fun s => entries_by_ref (rs_ledger s) items) in
  let! acc := reconcile_items index gateway_name auto_compensate items (mkAcc 0 0 0 []) in
  let! created := create_batch batch_reference gateway_name (length items) acc in
  modify (fun s => rset_uow s (uow_commit (rs_uow s))) ;;;
  ret (to_summary_dto created (a_auto acc)).

Definition reconcile_settlement_feed (batch_reference gateway_name : string) (items : list SettlementItemDTO)
  (auto_compensate : bool) : M rstate ReconciliationSummaryDTO :=
  with_uow rs_uow rset_uow (reconcile_body batch_reference gateway_name items auto_compensate).

(** [get_reconciliation_batch] *)
Definition get_reconciliation_batch (batch_id : Z) : M rstate (option ReconciliationSummaryDTO) :=
  with_uow rs_uow rset_uow
    (gets (fun s =>
       match rc_get_batch_by_id (rs_recon s) batch_id with
       | None => None
       | Some b =>
           Some (to_summary_dto b (length (filter (fun i => ri_resolution_status i = AUTO_COMPENSATED) (rb_items b))))
       end)).

(** ** What a run does to the store *)

(** The ledger's log only grew, by [legs]: valid and balanced. *)
Record grows (legs : list JournalPostingEntity) (s s' : rstate) : Prop := {
  g_snapshot : u_snapshot (rs_uow s') = u_snapshot (rs_uow s);
  g_outbox : st_outbox (u_live (rs_uow s')) = st_outbox (u_live (rs_uow s));
  g_recon : rs_recon s' = rs_recon s;
  g_other : st_other (u_live (rs_uow s')) = st_other (u_live (rs_uow s));
  g_log : all_postings (rs_ledger s') = all_postings (rs_ledger s) ++ legs;
  g_valid : Forall valid_posting legs;
  g_balanced : trial_balance legs = 0
}.

Lemma grows_refl s : grows [] s s.
Proof. split; try done. by rewrite app_nil_r. Qed.

Lemma grows_trans l1 l2 s1 s2 s3 : grows l1 s1 s2 -> grows l2 s2 s3 -> grows (l1 ++ l2) s1 s3.
Proof.
  intros [] []. split; try congruence.
  - rewrite app_assoc. congruence.
  - by apply Forall_app.
  - rewrite trial_balance_app. lia.
Qed.

Lemma grows_tick legs s s' n : grows legs s s' -> grows legs s (mkR (rs_uow s') n).
Proof. by intros []. Qed.

Lemma get_or_create_account_run num name ty cur s :
  exists acc s', get_or_create_account num name ty cur s = (Ok acc, s') /\ grows [] s s'.
Proof.
  unfold get_or_create_account. destruct (get_account_by_number _ _) as [acc|].
  { exists acc, s. split; [done|apply grows_refl]. }
  pose proof (law_create_account (uuid_at (rs_tick s)) (clock (rs_tick s)) num name ty cur (rs_ledger s)) as Hl.
  destruct (create_account _ _ _ _ _ _ _) as [acc l']. destruct Hl as (_ & Hlog & _).
  eexists _, _. split; [done|]. split; try done. cbn. by rewrite app_nil_r.
Qed.

(** A compensating entry is two valid balanced legs of the item's amount. *)
Lemma compensating_run gw ref amt cur s :
  let '(r, s') := create_compensating_entry gw ref amt cur s in
  match r with
  | Ok e => valid_amount amt /\ length (je_postings e) = 2%nat /\ grows (je_postings e) s s'
  | Raise x => ~ valid_amount amt /\ grows [] s s'
  end.
Proof.
  unfold create_compensating_entry.
  match goal with |- context [bind (get_or_create_account ?n ?m ?t ?c)] =>
    destruct (get_or_create_account_run n m t c s) as (a1 & s1 & R1 & G1) end.
  rewrite (bind_ret_eq _ _ _ _ _ R1).
  match goal with |- context [bind (get_or_create_account ?n ?m ?t ?c)] =>
    destruct (get_or_create_account_run n m t c s1) as (a2 & s2 & R2 & G2) end.
  rewrite (bind_ret_eq _ _ _ _ _ R2). autorewrite with pym.
  pose proof (grows_trans _ _ _ _ _ G1 G2) as G. cbn [app] in G. unfold posting_dto.
  destruct (dltb d0 amt && has_4_places amt) eqn:Hv.
  2: { split; [|done]. intros [H1 H2]. by rewrite H1, H2 in Hv. }
  apply andb_true_iff in Hv as [Hv1 Hv2]. autorewrite with pym. unfold create_comp_entry.
  set (ps := [_; _]). set (ids := fun i => _). set (ref' := _ +:+ _). set (desc := _ +:+ _).
  pose proof (law_create_journal_entry (uuid_at (rs_tick s2)) (clock (rs_tick s2)) ids ref' desc ps false (rs_ledger s2)) as Hl.
  destruct (create_journal_entry _ _ _ _ _ _ _ _) as [e l']. destruct Hl as (-> & Hlog & _).
  split; [done|]. split; [done|]. destruct G as [G3 G4 G5 G6 G7 _ _]. split; cbn [je_postings]; try done.
  - unfold rs_ledger in *. cbn. rewrite Hlog, G7, app_nil_r. done.
  - apply materialize_valid. by repeat constructor.
  - unfold trial_balance. rewrite !materialize_units. unfold ps. rewrite !units_cons, !units_nil. cbn. lia.
Qed.

(** The outcome of one item, given what the ledger held under its reference. *)
Definition classified (lookup : string -> option JournalEntryEntity) (auto : bool) (item : SettlementItemDTO)
  (it : ReconciliationItem) : Prop :=
  ri_reference_id it = si_reference_id item /\ ri_external_amount it = si_amount item /\
  match lookup (si_reference_id item) with
  | Some e =>
      let internal := extract_internal_amount e (si_amount item) in
      ri_internal_amount it = Some internal /\ ri_compensating_id it = None /\
      if deqb (si_amount item) internal
      then ri_discrepancy_type it = MATCHED /\ ri_resolution_status it = RESOLVED
      else ri_discrepancy_type it = AMOUNT_MISMATCH /\ ri_resolution_status it = MANUAL_REVIEW
  | None =>
      ri_internal_amount it = None /\ ri_discrepancy_type it = MISSING_IN_LEDGER /\
      if auto then ri_resolution_status it = AUTO_COMPENSATED /\ is_Some (ri_compensating_id it)
      else ri_resolution_status it = UNRESOLVED /\ ri_compensating_id it = None
  end.

(** The counters of the loop agree with its items. *)
Definition counts_ok (acc : racc) : Prop :=
  a_matched acc = length (filter (fun i => ri_discrepancy_type i = MATCHED) (a_items acc)) /\
  (a_matched acc + a_discrepancy acc = length (a_items acc))%nat /\
  a_auto acc = length (filter (fun i => ri_resolution_status i = AUTO_COMPENSATED) (a_items acc)).

Lemma reconcile_item_run index gw auto item acc s :
  counts_ok acc ->
  let '(r, s') := reconcile_item index gw auto item acc s in
  match r with
  | Ok acc' => counts_ok acc' /\ exists it legs,
      a_items acc' = a_items acc ++ [it] /\ classified (dict_get index) auto item it /\ grows legs s s' /\
      length legs = (2 * (a_auto acc' - a_auto acc))%nat /\ (a_auto acc <= a_auto acc')%nat
  | Raise x => exists legs, grows legs s s'
  end.
Proof.
  intros (H1 & H2 & H3). unfold reconcile_item, classified.
  assert (forall m d a it, counts_ok (mkAcc m d a (a_items acc ++ [it])) <->
    (m = a_matched acc + length (filter (fun i => ri_discrepancy_type i = MATCHED) [it]) /\
     m + d = length (a_items acc) + 1 /\
     a = a_auto acc + length (filter (fun i => ri_resolution_status i = AUTO_COMPENSATED) [it]))%nat) as Hc.
  { intros m d a it. unfold counts_ok. cbn. rewrite !filter_app, !length_app, H1, H3. done. }
  destruct (dict_get index (si_reference_id item)) as [e|].
  - rewrite dabs_dsub_zero. destruct (deqb (si_amount item) _) eqn:Ed; cbn;
      (split; [apply Hc; rewrite !filter_cons, !filter_nil; cbn; repeat case_decide; simplify_eq/=; lia|]); eexists _, []; (split; [done|]); cbn;
      (split; [done|]); (split; [apply grows_tick, grows_refl|lia]).
  - destruct auto.
    + pose proof (compensating_run gw (si_reference_id item) (si_amount item) (si_currency item) s) as Hr.
      destruct (create_compensating_entry _ _ _ _ s) as [[e|x] s1] eqn:E.
      * rewrite (bind_ret_eq _ _ _ _ _ E). destruct Hr as (_ & Hlen & G). cbn.
        split; [apply Hc; rewrite !filter_cons, !filter_nil; cbn; repeat case_decide; simplify_eq/=; lia|]. eexists _, _. split; [done|]. cbn.
        split; [by eauto 10|]. split; [by apply grows_tick|lia].
      * rewrite (bind_raise_eq _ _ _ _ _ E). destruct Hr as (_ & G). by eexists.
    + cbn. split; [apply Hc; rewrite !filter_cons, !filter_nil; cbn; repeat case_decide; simplify_eq/=; lia|]. eexists _, []. split; [done|]. cbn.
      split; [done|]. split; [apply grows_tick, grows_refl|lia].
Qed.

Lemma reconcile_items_run index gw auto items acc s :
  counts_ok acc ->
  let '(r, s') := reconcile_items index gw auto items acc s in
  match r with
  | Ok acc' => counts_ok acc' /\ exists its legs,
      a_items acc' = a_items acc ++ its /\ Forall2 (classified (dict_get index) auto) items its /\ grows legs s s' /\
      length legs = (2 * (a_auto acc' - a_auto acc))%nat /\ (a_auto acc <= a_auto acc')%nat
  | Raise x => u_snapshot (rs_uow s') = u_snapshot (rs_uow s)
  end.
Proof.
  revert acc s. induction items as [|item items IH]; intros acc s Hacc; cbn [reconcile_items].
  - split; [done|]. exists [], []. rewrite app_nil_r. split; [done|]. split; [constructor|].
    split; [apply grows_refl|]. cbn. lia.
  - pose proof (reconcile_item_run index gw auto item acc s Hacc) as H1.
    destruct (reconcile_item index gw auto item acc s) as [[acc1|x] s1] eqn:E1.
    2: { rewrite (bind_raise_eq _ _ _ _ _ E1). destruct H1 as [legs []]. done. }
    rewrite (bind_ret_eq _ _ _ _ _ E1). destruct H1 as (Hacc1 & it & legs1 & Hi1 & Hcl & G1 & Hl1 & Hle1).
    specialize (IH acc1 s1 Hacc1). destruct (reconcile_items index gw auto items acc1 s1) as [[acc2|x] s2].
    + destruct IH as (Hacc2 & its & legs2 & Hi2 & Hcls & G2 & Hl2 & Hle2). split; [done|].
      exists (it :: its), (legs1 ++ legs2). rewrite Hi2, Hi1, <-app_assoc. split; [done|].
      split; [by constructor|]. split; [by eapply grows_trans|]. rewrite length_app. lia.
    + rewrite IH. apply G1.
Qed.

(** The index built by the code is the ledger's own lookup. *)
Lemma index_lookup (l : L) items ref :
  (forall ref e, get_journal_entry_by_reference l ref = Some e -> je_reference_id e = ref) ->
  ref ∈ (si_reference_id <$> items) ->
  dict_get (entries_by_ref l items) ref = get_journal_entry_by_reference l ref.
Proof.
  intros Hfiled Hin. unfold entries_by_ref. rewrite law_references.
  set (refs := si_reference_id <$> items) in *. clearbody refs.
  enough (forall d, (ref ∈ refs \/ dict_get d ref = get_journal_entry_by_reference l ref) ->
    (dict_get d ref = None \/ dict_get d ref = get_journal_entry_by_reference l ref) ->
    dict_get (foldl (fun d e => dict_set d (je_reference_id e) e) d
      (omap (get_journal_entry_by_reference l) refs)) ref = get_journal_entry_by_reference l ref) as H
    by (apply H; auto).
  clear Hin. induction refs as [|r refs IH]; intros d [Hin|Hd] Hok; try (set_solver || done).
  - cbn. destruct (get_journal_entry_by_reference l r) as [e|] eqn:E.
    + pose proof (Hfiled _ _ E) as Hr. cbn. apply IH; rewrite dict_get_set; case_decide; subst;
        rewrite ?E; auto. apply elem_of_cons in Hin as [->|]; [congruence|by left].
    + apply IH; [|done]. apply elem_of_cons in Hin as [->|]; [|by left]. right. rewrite E in Hok |- *. by destruct Hok.
  - cbn. destruct (get_journal_entry_by_reference l r) as [e|] eqn:E; cbn; apply IH; auto;
      rewrite dict_get_set; case_decide; auto; subst; rewrite <-(Hfiled _ _ E) in E; auto.
Qed.

(** Persisting a batch rewrites the items' batch id and nothing the counters look at. *)
Lemma rebatch_length {K} `{EqDecision K} (key : ReconciliationItem -> K) (k : K) b (items : list ReconciliationItem) :
  (forall i, key (mkRecItem (ri_id i) b (ri_reference_id i) (ri_external_amount i) (ri_internal_amount i)
                (ri_discrepancy_type i) (ri_resolution_status i) (ri_compensating_id i)) = key i) ->
  length (filter (fun i => key i = k)
    ((fun i => mkRecItem (ri_id i) b (ri_reference_id i) (ri_external_amount i) (ri_internal_amount i)
                (ri_discrepancy_type i) (ri_resolution_status i) (ri_compensating_id i)) <$> items)) =
  length (filter (fun i => key i = k) items).
Proof.
  intros Hkey. induction items as [|i items IH]; [done|]. rewrite fmap_cons, !filter_cons, Hkey.
  destruct (decide (key i = k)); cbn; by rewrite IH.
Qed.

Lemma Forall2_impl_elem {A B} (P Q : A -> B -> Prop) l k :
  Forall2 P l k -> (forall x y, x ∈ l -> P x y -> Q x y) -> Forall2 Q l k.
Proof.
  induction 1 as [|x y l k Hxy _ IH]; intros HPQ; constructor; [apply HPQ; [left|done]|].
  apply IH. intros x' y' Hin. apply HPQ. by right.
Qed.

(** What any run does to the stores: nothing when it raises, and otherwise valid,
    balanced legs at the end of the log, with the outbox left alone. *)
Lemma reconcile_stores batch_ref gw items auto s :
  let '(r, s') := reconcile_settlement_feed batch_ref gw items auto s in
  match r with
  | Raise _ => u_live (rs_uow s') = u_live (rs_uow s)
  | Ok _ => (exists legs, all_postings (rs_ledger s') = all_postings (rs_ledger s) ++ legs /\
      Forall valid_posting legs /\ trial_balance legs = 0) /\
      st_outbox (u_live (rs_uow s')) = st_outbox (u_live (rs_uow s))
  end.
Proof.
  unfold reconcile_settlement_feed, with_uow. set (s0 := rset_uow s _). unfold reconcile_body. autorewrite with pym.
  change (rs_recon s0) with (rs_recon s). change (rs_ledger s0) with (rs_ledger s).
  destruct (rc_get_batch_by_reference (rs_recon s) batch_ref) as [b|]; [done|].
  rewrite bool_decide_eq_false_2 by (by intros []).
  pose proof (reconcile_items_run (entries_by_ref (rs_ledger s) items) gw auto items (mkAcc 0 0 0 []) s0) as H.
  destruct (reconcile_items _ gw auto items _ s0) as [[acc|x] s1] eqn:E.
  - rewrite (bind_ret_eq _ _ _ _ _ E). destruct H as (_ & its & legs & _ & _ & [] & _); [done|].
    cbn. split; [by exists legs|done].
  - rewrite (bind_raise_eq _ _ _ _ _ E). cbn. unfold uow_rollback. by rewrite H.
Qed.

(** C22: reconciliation of a settlement feed.  On any exception (a batch reference
    already processed, an amount a posting refuses) every store is unchanged.  On
    success every item is classified by the exact comparison with the ledger
    entry under its reference, matched and discrepant records add up to the
    total, the log of postings keeps its history and gains exactly two legs per
    compensated item, valid and balanced, the other stores are untouched, and
    [get_reconciliation_batch] reads back the very summary that was returned. *)
Theorem reconcile_correct (batch_ref gw : string) (items : list SettlementItemDTO) (auto : bool) (s : rstate)
  (Hfiled : forall ref e, get_journal_entry_by_reference (rs_ledger s) ref = Some e -> je_reference_id e = ref) :
  let '(r, s') := reconcile_settlement_feed batch_ref gw items auto s in
  match r with
  | Raise x => u_live (rs_uow s') = u_live (rs_uow s) /\
      (is_Some (rc_get_batch_by_reference (rs_recon s) batch_ref) -> x = DuplicateReferenceException)
  | Ok sm =>
      rc_get_batch_by_reference (rs_recon s) batch_ref = None /\
      sm_total_records sm = length items /\
      (sm_matched_records sm + sm_discrepancy_records sm = length items)%nat /\
      sm_matched_records sm = length (filter (fun i => ri_discrepancy_type i = MATCHED) (sm_items sm)) /\
      Forall2 (classified (get_journal_entry_by_reference (rs_ledger s)) auto) items (sm_items sm) /\
      (exists legs, all_postings (rs_ledger s') = all_postings (rs_ledger s) ++ legs /\ Forall valid_posting legs /\
         trial_balance legs = 0 /\ length legs = (2 * sm_auto_compensated_records sm)%nat) /\
      st_outbox (u_live (rs_uow s')) = st_outbox (u_live (rs_uow s)) /\
      st_other (u_live (rs_uow s')) = st_other (u_live (rs_uow s)) /\
      get_reconciliation_batch (sm_batch_id sm) s' = (Ok (Some sm), s')
  end.
Proof.
  unfold reconcile_settlement_feed, with_uow. set (s0 := rset_uow s _). unfold reconcile_body. autorewrite with pym.
  change (rs_recon s0) with (rs_recon s). change (rs_ledger s0) with (rs_ledger s).
  destruct (rc_get_batch_by_reference (rs_recon s) batch_ref) as [b|] eqn:Hb; [done|].
  rewrite bool_decide_eq_false_2 by (by intros []).
  pose proof (reconcile_items_run (entries_by_ref (rs_ledger s) items) gw auto items (mkAcc 0 0 0 []) s0) as H.
  destruct (reconcile_items _ gw auto items _ s0) as [[acc|x] s1] eqn:E.
  2: { rewrite (bind_raise_eq _ _ _ _ _ E). cbn. unfold uow_rollback. rewrite H by done. split; [done|by intros []]. }
  rewrite (bind_ret_eq _ _ _ _ _ E). destruct H as ((Hc1 & Hc2 & Hc3) & its & legs & Hits & Hcl & G & Hlen & _); [done|].
  cbn [a_items app] in Hits. rewrite <-Hits in Hcl. clear Hits its. cbn [a_auto] in Hlen. rewrite Nat.sub_0_r in Hlen.
  pose proof (Forall2_length _ _ _ Hcl) as Hn.
  destruct G as [_ G1 _ G2 G3 G4 G5]. cbn. split; [done|]. split; [done|].
  split; [lia|]. split; [by rewrite rebatch_length by done|]. split.
  { apply Forall2_fmap_r. eapply (Forall2_impl_elem _ _ _ _ Hcl). intros item it Hin [? [? Hl]]. split; [done|]. split; [done|].
    rewrite <-index_lookup with (items := items); [exact Hl|done|]. by apply list_elem_of_fmap_2. }
  split; [exists legs; by auto|]. split; [done|]. split; [done|].
  unfold get_reconciliation_batch, with_uow, rc_get_batch_by_id. cbn.
  rewrite lookup_insert_eq. unfold to_summary_dto. cbn. by rewrite rebatch_length, <-Hc3.
Qed.

(** ** Settling the same item again *)

(** The ids still to be drawn are new to the ledger. *)
Definition fresh_ids (s : rstate) : Prop :=
  forall n, (rs_tick s <= n)%nat -> knows_id (rs_ledger s) (uuid_at n) = false.

Lemma get_or_create_account_fresh num name ty cur s acc s' :
  (forall m n, uuid_at m = uuid_at n -> m = n) -> fresh_ids s ->
  get_or_create_account num name ty cur s = (Ok acc, s') ->
  fresh_ids s' /\ forall ref, get_journal_entry_by_reference (rs_ledger s') ref =
                              get_journal_entry_by_reference (rs_ledger s) ref.
Proof.
  intros Hinj Hfresh. unfold get_or_create_account. destruct (get_account_by_number _ _); [by intros [= -> <-]|].
  pose proof (law_create_account (uuid_at (rs_tick s)) (clock (rs_tick s)) num name ty cur (rs_ledger s)) as Hl.
  destruct (create_account _ _ _ _ _ _ _) as [acc' l']. destruct Hl as (_ & _ & _ & _ & _ & Hk & Href).
  intros [= -> <-]. split; [|exact Href]. destruct (Hk (Hfresh _ (le_n _))) as [_ Hknow].
  intros n Hn. cbn in *. destruct (knows_id l' (uuid_at n)) eqn:E; [|done].
  apply Hknow in E as [E%Hinj|E]; [lia|]. rewrite Hfresh in E by lia. done.
Qed.

Lemma comp_ref_ne ref hex : "comp-" +:+ ref +:+ "-" +:+ hex <> ref.
Proof.
  intros E. apply (f_equal String.length) in E. cbn in E. rewrite !string_length_app in E. cbn in E. lia.
Qed.

(** Compensating a reference leaves it as it was: the entry is filed elsewhere. *)
Lemma compensating_missing gw ref amt cur s e s' :
  (forall m n, uuid_at m = uuid_at n -> m = n) -> fresh_ids s ->
  create_compensating_entry gw ref amt cur s = (Ok e, s') ->
  fresh_ids s' /\
  get_journal_entry_by_reference (rs_ledger s') ref = get_journal_entry_by_reference (rs_ledger s) ref.
Proof.
  intros Hinj Hfresh H. unfold create_compensating_entry in H.
  apply bind_ok in H as (a1 & s1 & R1 & H). apply get_or_create_account_fresh in R1 as [F1 E1]; [|done..].
  apply bind_ok in H as (a2 & s2 & R2 & H). apply get_or_create_account_fresh in R2 as [F2 E2]; [|done..].
  apply bind_ok in H as (p1 & s3 & R3 & H). apply bind_ok in H as (p2 & s4 & R4 & H).
  injection R3 as _ <-. injection R4 as _ <-. autorewrite with pym in H. unfold create_comp_entry in H.
  set (ids := fun i => uuid_at (rs_tick s2 + 1 + i)) in H. set (ref' := "comp-" +:+ _) in H. set (desc := _ +:+ _ +:+ _) in H.
  pose proof (law_create_journal_entry (uuid_at (rs_tick s2)) (clock (rs_tick s2)) ids ref' desc [p1; p2] false
    (rs_ledger s2)) as Hl.
  destruct (create_journal_entry _ _ _ _ _ _ _ _) as [e' l']. injection H as -> <-.
  destruct Hl as (_ & _ & _ & _ & _ & _ & Hk). destruct (Hk (F2 _ (le_n _))) as (Hrefs & _ & Hknow).
  split.
  { intros n Hn. cbn in *. destruct (knows_id l' (uuid_at n)) eqn:E; [|done].
    apply Hknow in E as [E%Hinj|E]; [lia|]. rewrite F2 in E by lia. done. }
  rewrite <-E1, <-E2. unfold rs_ledger at 1. cbn. apply Hrefs. apply not_eq_sym, comp_ref_ne.
Qed.

(** A one-item feed whose reference the ledger does not know. *)
Lemma reconcile_missing_item batch gw ref amt cur s :
  (forall m n, uuid_at m = uuid_at n -> m = n) -> fresh_ids s ->
  valid_amount amt -> get_journal_entry_by_reference (rs_ledger s) ref = None ->
  rc_by_reference (rs_recon s) !! batch = None ->
  exists sm s', reconcile_settlement_feed batch gw [mkItem ref amt cur] true s = (Ok sm, s') /\
    sm_auto_compensated_records sm = 1%nat /\
    length (all_postings (rs_ledger s')) = (length (all_postings (rs_ledger s)) + 2)%nat /\
    get_journal_entry_by_reference (rs_ledger s') ref = None /\ fresh_ids s' /\
    (forall b, b <> batch -> rc_by_reference (rs_recon s') !! b = rc_by_reference (rs_recon s) !! b).
Proof.
  intros Hinj Hfresh Hv Hmiss Hb. unfold reconcile_settlement_feed, with_uow. set (s0 := rset_uow s _).
  unfold reconcile_body. autorewrite with pym. change (rs_recon s0) with (rs_recon s). change (rs_ledger s0) with (rs_ledger s).
  unfold rc_get_batch_by_reference. rewrite Hb, bool_decide_eq_false_2 by (by intros []).
  unfold entries_by_ref. rewrite law_references. cbn [fmap list_fmap si_reference_id omap list_omap]. rewrite Hmiss.
  cbn [foldl reconcile_items]. unfold reconcile_item at 1. cbn [dict_get si_reference_id si_amount si_currency].
  pose proof (compensating_run gw ref amt cur s0) as Hr. pose proof (compensating_missing gw ref amt cur s0) as Hm.
  destruct (create_compensating_entry gw ref amt cur s0) as [[e|x] s1] eqn:E; [|by destruct Hr as [Hnv _]].
  autorewrite with pym. rewrite (bind_ret_eq _ _ _ _ _ E). destruct Hr as (_ & Hlen & [_ _ Hrc _ Hlog _ _]).
  destruct (Hm e s1) as [Hf Hsame]; [done..|].
  eexists _, _. split; [reflexivity|]. cbn. split; [done|]. unfold rs_ledger, rs_recon in *. cbn in *.
  split; [by rewrite Hlog, length_app, Hlen|]. split; [by rewrite Hsame|].
  split; [intros n Hn; apply Hf; cbn in *; lia|]. intros b Hne. by rewrite lookup_insert_ne, Hrc by done.
Qed.

(** A settlement item that is missing from the ledger is compensated each
    time it is fed in: a second feed that carries the same reference under a new
    batch reference compensates it again, because the compensating entry of the
    first run is filed under its own reference and the lookup by the item's
    reference still finds nothing.  Two runs leave four legs for one item. *)
Theorem resettled_item_compensated_again (b1 b2 gw ref cur : string) (amt : decimal) (s : rstate)
  (Hinj : forall m n, uuid_at m = uuid_at n -> m = n) (Hfresh : fresh_ids s)
  (Hv : valid_amount amt) (Hmiss : get_journal_entry_by_reference (rs_ledger s) ref = None)
  (Hb : b1 <> b2) (Hb1 : rc_by_reference (rs_recon s) !! b1 = None) (Hb2 : rc_by_reference (rs_recon s) !! b2 = None) :
  exists sm1 s1 sm2 s2,
    reconcile_settlement_feed b1 gw [mkItem ref amt cur] true s = (Ok sm1, s1) /\
    reconcile_settlement_feed b2 gw [mkItem ref amt cur] true s1 = (Ok sm2, s2) /\
    sm_auto_compensated_records sm1 = 1%nat /\ sm_auto_compensated_records sm2 = 1%nat /\
    length (all_postings (rs_ledger s2)) = (length (all_postings (rs_ledger s)) + 4)%nat.
Proof.
  destruct (reconcile_missing_item b1 gw ref amt cur s) as (sm1 & s1 & R1 & A1 & L1 & M1 & F1 & B1); [done..|].
  destruct (reconcile_missing_item b2 gw ref amt cur s1) as (sm2 & s2 & R2 & A2 & L2 & _); try done.
  - by rewrite B1.
  - exists sm1, s1, sm2, s2. repeat split; try done. lia.
Qed.
End Service.

(** ** Witnesses *)

Definition ex_uuid (n : nat) : Z := 1000 + Z.of_nat n.
Definition ex_clock (n : nat) : Z := Z.of_nat n.
Definition ex_hex (n : nat) : string := "0a1b2c3d".

(** A ledger that knows the reference [dep] with 100.0000, and nothing else. *)
Definition ex_rec_state : rstate (L:=ledger_repo) (X:=()) :=
  mkR (mkUow (mkStores
    (mem_create_journal_entry 50 0 (fun i => 60 + Z.of_nat i) "dep" "deposit"
       [mkPosting 1 (d4 1000000) DEBIT; mkPosting 3 (d4 1000000) CREDIT] false mem_empty).2
    [] (mkReconRepo ∅ ∅) ()) None) 0.
Definition ex_feed : list SettlementItemDTO :=
  [mkItem "dep" (mkDec 100 0) "USD"; mkItem "dep" (d4 5) "USD"; mkItem "lost" (d4 70000) "usd"].

Lemma reconcile_correct_witness :
  let run := reconcile_settlement_feed ex_uuid ex_clock ex_hex "batch-1" "stripe" ex_feed true ex_rec_state in
  match run.1 with
  | Ok sm => sm_matched_records sm = 1%nat /\ sm_discrepancy_records sm = 2%nat /\
             get_reconciliation_batch (sm_batch_id sm) run.2 = (Ok (Some sm), run.2)
  | Raise _ => False
  end.
Proof.
  assert (Hf : forall ref e, get_journal_entry_by_reference (rs_ledger ex_rec_state) ref = Some e -> je_reference_id e = ref).
  { intros ref e. cbn. unfold mem_get_journal_entry_by_reference. cbn.
    destruct (decide (ref = "dep")) as [->|Hne]; [vm_compute; by intros [= <-]|].
    rewrite lookup_insert_ne by done. by rewrite lookup_empty. }
  pose proof (reconcile_correct ex_uuid ex_clock ex_hex "batch-1" "stripe" ex_feed true ex_rec_state Hf) as T.
  assert (E : match (reconcile_settlement_feed ex_uuid ex_clock ex_hex "batch-1" "stripe" ex_feed true ex_rec_state).1 with
    | Ok sm => sm_matched_records sm = 1%nat /\ sm_discrepancy_records sm = 2%nat | Raise _ => False end)
    by (vm_compute; split; reflexivity).
  destruct (reconcile_settlement_feed _ _ _ _ _ _ _ _) as [[sm|x] s']; [|done]. cbn in E |- *.
  destruct E as [E1 E2]. split; [exact E1|]. split; [exact E2|].
  exact (proj2 (proj2 (proj2 (proj2 (proj2 (proj2 (proj2 (proj2 T)))))))).
Defined.

Lemma resettled_item_compensated_again_witness :
  exists sm1 s1 sm2 s2,
    reconcile_settlement_feed ex_uuid ex_clock ex_hex "batch-1" "stripe" [mkItem "lost" (d4 70000) "USD"] true
      (mkR (mkUow (mkStores mem_empty [] (mkReconRepo ∅ ∅) ()) None) 0) = (Ok sm1, s1) /\
    reconcile_settlement_feed ex_uuid ex_clock ex_hex "batch-2" "stripe" [mkItem "lost" (d4 70000) "USD"] true s1
      = (Ok sm2, s2) /\ length (all_postings (rs_ledger s2)) = 4%nat.
Proof.
  destruct (resettled_item_compensated_again ex_uuid ex_clock ex_hex "batch-1" "batch-2" "stripe" "lost" "USD" (d4 70000)
    (mkR (mkUow (mkStores mem_empty [] (mkReconRepo ∅ ∅) ()) None) 0)) as (sm1 & s1 & sm2 & s2 & R1 & R2 & _ & _ & Hl).
  - unfold ex_uuid. intros m n. lia.
  - intros n _. reflexivity.
  - by split.
  - reflexivity.
  - discriminate.
  - reflexivity.
  - reflexivity.
  - exists sm1, s1, sm2, s2. split; [exact R1|]. split; [exact R2|exact Hl].
Defined.
