(* ===== verification/CircuitBreaker.v ===== *)
(** [CircuitBreaker] of [app/core/resilience/circuit_breaker.py].

    Each method body runs without awaiting, so one call of a method is one atomic
    event; the awaited downstream call of [execute_async] lies between
    [before_call] and [on_success]/[on_failure] and other calls' events may come
    in between.  [cb_step] is that interleaving; time (the [time_provider]) is an
    integer number of microseconds, and never goes back. *)

From S2P Require Import Prelude.

Local Open Scope Z_scope.
Local Open Scope py_scope.

Inductive CircuitState : Type := CLOSED | OPEN | HALF_OPEN.
#[global] Instance CircuitState_eq_dec : EqDecision CircuitState.
Proof. solve_decision. Defined.

Record cb_config : Type := mkConfig {
  failure_threshold : Z;
  recovery_timeout : Z;
  half_open_success_threshold : Z
}.

Record cb : Type := mkCb {
  c_state : CircuitState;
  c_failures : Z;
  c_successes : Z;
  c_changed : Z;
  c_last_failure : option Z;
  c_total_calls : Z;
  c_total_successes : Z;
  c_total_failures : Z;
  c_short_circuits : Z
}.

(** [__init__]: the checks of the configuration, then the initial state. *)
Definition cb_init (cfg : cb_config) (now : Z) : result cb :=
  if failure_threshold cfg <? 1 then Raise PyValueError
  else if recovery_timeout cfg <=? 0 then Raise PyValueError
  else if half_open_success_threshold cfg <? 1 then Raise PyValueError
  else Ok (mkCb CLOSED 0 0 now None 0 0 0 0).

Section Breaker.
Variable cfg : cb_config.

(** [_evaluate_state] *)
Definition evaluate_state (now : Z) (c : cb) : cb :=
  match c_state c with
  | OPEN =>
      if recovery_timeout cfg <=? now - c_changed c
      then mkCb HALF_OPEN 0 0 now (c_last_failure c) (c_total_calls c) (c_total_successes c)
             (c_total_failures c) (c_short_circuits c)
      else c
  | _ => c
  end.

(** The [state] property. *)
Definition cb_get_state (now : Z) (c : cb) : CircuitState * cb :=
  let c' := evaluate_state now c in (c_state c', c').

(** [remaining_recovery_time], before rounding to milliseconds. *)
Definition remaining_recovery_time (now : Z) (c : cb) : Z :=
  match c_state c with
  | OPEN => Z.max 0 (recovery_timeout cfg - (now - c_changed c))
  | _ => 0
  end.

(** [_before_call] *)
Definition before_call (now : Z) : M cb () := fun c =>
  let c := evaluate_state now c in
  match c_state c with
  | OPEN =>
      (Raise CircuitBreakerOpenException,
       mkCb (c_state c) (c_failures c) (c_successes c) (c_changed c) (c_last_failure c) (c_total_calls c)
         (c_total_successes c) (c_total_failures c) (c_short_circuits c + 1))
  | _ =>
      (Ok (),
       mkCb (c_state c) (c_failures c) (c_successes c) (c_changed c) (c_last_failure c) (c_total_calls c + 1)
         (c_total_successes c) (c_total_failures c) (c_short_circuits c))
  end.

(** [_on_success] *)
Definition on_success (now : Z) (c : cb) : cb :=
  let total := c_total_successes c + 1 in
  match c_state c with
  | HALF_OPEN =>
      let succ := c_successes c + 1 in
      if half_open_success_threshold cfg <=? succ
      then mkCb CLOSED 0 0 now (c_last_failure c) (c_total_calls c) total (c_total_failures c) (c_short_circuits c)
      else mkCb HALF_OPEN (c_failures c) succ (c_changed c) (c_last_failure c) (c_total_calls c) total
             (c_total_failures c) (c_short_circuits c)
  | CLOSED =>
      mkCb CLOSED 0 (c_successes c) (c_changed c) (c_last_failure c) (c_total_calls c) total
        (c_total_failures c) (c_short_circuits c)
  | OPEN =>
      mkCb OPEN (c_failures c) (c_successes c) (c_changed c) (c_last_failure c) (c_total_calls c) total
        (c_total_failures c) (c_short_circuits c)
  end.

(** [_on_failure] *)
Definition on_failure (now : Z) (c : cb) : cb :=
  let total := c_total_failures c + 1 in
  match c_state c with
  | HALF_OPEN =>
      mkCb OPEN 1 0 now (Some now) (c_total_calls c) (c_total_successes c) total (c_short_circuits c)
  | CLOSED =>
      let fails := c_failures c + 1 in
      if failure_threshold cfg <=? fails
      then mkCb OPEN fails 0 now (Some now) (c_total_calls c) (c_total_successes c) total (c_short_circuits c)
      else mkCb CLOSED fails (c_successes c) (c_changed c) (Some now) (c_total_calls c) (c_total_successes c) total
             (c_short_circuits c)
  | OPEN =>
      mkCb OPEN (c_failures c) (c_successes c) (c_changed c) (Some now) (c_total_calls c) (c_total_successes c) total
        (c_short_circuits c)
  end.

(** [execute] and [execute_async]: what a call of [func] that starts at [t0] and
    ends at [t1] does when no other call interleaves ([func] itself may reach the
    breaker). *)
Definition cb_execute {R} (t0 t1 : Z) (func : M cb R) : M cb R :=
  before_call t0 ;;; fun c =>
  match func c with
  | (Ok r, c') => (Ok r, on_success t1 c')
  | (Raise CircuitBreakerOpenException, c') => (Raise CircuitBreakerOpenException, c')
  | (Raise e, c') => (Raise e, on_failure t1 c')
  end.

(** [reset] *)
Definition cb_reset (now : Z) (c : cb) : cb := mkCb CLOSED 0 0 now None 0 0 0 0.

(** ** Interleavings

    The breaker, the clock, the calls in flight, and two ghost counters: calls
    that ended with a nested [CircuitBreakerOpenException], and calls that were
    in flight when the counters were reset.  The label says whether the event is
    [reset]. *)
Record cb_sys : Type := mkCs { y_cb : cb; y_now : Z; y_flight : Z; y_nested : Z; y_lost : Z }.

Inductive cb_step : bool -> cb_sys -> cb_sys -> Prop :=
  | cs_start c now t fl n l c' :
      now <= t -> before_call t c = (Ok (), c') -> cb_step false (mkCs c now fl n l) (mkCs c' t (fl + 1) n l)
  | cs_reject c now t fl n l e c' :
      now <= t -> before_call t c = (Raise e, c') -> cb_step false (mkCs c now fl n l) (mkCs c' t fl n l)
  | cs_success c now t fl n l :
      now <= t -> 0 < fl -> cb_step false (mkCs c now fl n l) (mkCs (on_success t c) t (fl - 1) n l)
  | cs_failure c now t fl n l :
      now <= t -> 0 < fl -> cb_step false (mkCs c now fl n l) (mkCs (on_failure t c) t (fl - 1) n l)
  | cs_nested c now t fl n l :
      now <= t -> 0 < fl -> cb_step false (mkCs c now fl n l) (mkCs c t (fl - 1) (n + 1) l)
  | cs_read c now t fl n l :
      now <= t -> cb_step false (mkCs c now fl n l) (mkCs (evaluate_state t c) t fl n l)
  | cs_reset c now t fl n l :
      now <= t -> cb_step true (mkCs c now fl n l) (mkCs (cb_reset t c) t fl 0 fl).

Inductive cb_reach : cb_sys -> Prop :=
  | cr_init now c : cb_init cfg now = Ok c -> cb_reach (mkCs c now 0 0 0)
  | cr_step r y y' : cb_reach y -> cb_step r y y' -> cb_reach y'.

(** The consistency of state and counters. *)
Definition cb_inv (y : cb_sys) : Prop :=
  let c := y_cb y in
  match c_state c with
  | CLOSED => 0 <= c_failures c < failure_threshold cfg /\ c_successes c = 0
  | OPEN => 1 <= c_failures c <= failure_threshold cfg /\ c_successes c = 0
  | HALF_OPEN => c_failures c = 0 /\ 0 <= c_successes c < half_open_success_threshold cfg
  end /\
  0 < recovery_timeout cfg /\ 1 <= failure_threshold cfg /\ 1 <= half_open_success_threshold cfg /\
  c_changed c <= y_now y /\ 0 <= y_flight y /\ 0 <= c_short_circuits c /\
  c_total_calls c + y_lost y = c_total_successes c + c_total_failures c + y_nested y + y_flight y.

Ltac cb_cases :=
  repeat (cbn in *; match goal with
  | |- context [match c_state ?c with _ => _ end] => destruct (c_state c) eqn:?
  | H : context [match c_state ?c with _ => _ end] |- _ => destruct (c_state c) eqn:?
  | |- context [?a <=? ?b] => destruct (Z.leb_spec a b)
  | H : context [?a <=? ?b] |- _ => destruct (Z.leb_spec a b)
  | |- context [?a <? ?b] => destruct (Z.ltb_spec a b)
  | H : context [?a <? ?b] |- _ => destruct (Z.ltb_spec a b)
  end); simplify_eq/=; try congruence.

Lemma cb_step_inv r y y' : cb_inv y -> cb_step r y y' -> cb_inv y'.
Proof.
  intros Hinv Hstep. destruct Hstep; unfold cb_inv, before_call, evaluate_state, on_success, on_failure, cb_reset in *;
    cbn in *; destruct c as [[] ? ? ? ? ? ? ? ?]; cbn in *; cb_cases; lia.
Qed.

Lemma cb_reach_inv y : cb_reach y -> cb_inv y.
Proof.
  induction 1 as [now c Hi|r y y' _ IH Hs]; [|by eapply cb_step_inv].
  unfold cb_init in Hi. unfold cb_inv. cb_cases. lia.
Qed.

(** In every interleaving of calls the breaker's counters agree with its
    state: CLOSED has seen fewer consecutive failures than the threshold, OPEN at
    least one, HALF_OPEN none and fewer probe successes than needed to close; and
    every admitted call is accounted for exactly once, as a success, a failure,
    a nested rejection, or still in flight. *)
Theorem breaker_invariant (y : cb_sys) (Hr : cb_reach y) :
  let c := y_cb y in
  match c_state c with
  | CLOSED => 0 <= c_failures c < failure_threshold cfg /\ c_successes c = 0
  | OPEN => 1 <= c_failures c <= failure_threshold cfg /\ c_successes c = 0
  | HALF_OPEN => c_failures c = 0 /\ 0 <= c_successes c < half_open_success_threshold cfg
  end /\
  c_total_calls c + y_lost y = c_total_successes c + c_total_failures c + y_nested y + y_flight y.
Proof. destruct (cb_reach_inv y Hr) as (H & _ & _ & _ & _ & _ & _ & Hc). done. Qed.

(** ** Fail-fast window *)

(** Events of any other calls, resets excluded, up to time [t]. *)
Inductive cb_run (t : Z) : cb_sys -> cb_sys -> Prop :=
  | run_nil y : y_now y <= t -> cb_run t y y
  | run_cons y y1 y2 : cb_step false y y1 -> y_now y1 <= t -> cb_run t y1 y2 -> cb_run t y y2.

Lemma open_step y y1 t0 :
  c_state (y_cb y) = OPEN -> c_changed (y_cb y) = t0 -> cb_step false y y1 -> y_now y1 < t0 + recovery_timeout cfg ->
  c_state (y_cb y1) = OPEN /\ c_changed (y_cb y1) = t0 /\ c_total_calls (y_cb y1) = c_total_calls (y_cb y).
Proof.
  intros Ho Hc Hstep Hlt. inversion Hstep; subst; unfold before_call, evaluate_state, on_success, on_failure in *; cbn in *; rewrite ?Ho in *;
    cb_cases; try lia; try done.
Qed.

(** Fail-fast.  Once the breaker is OPEN, then up to the end of its recovery
    timeout no interleaving of calls, late results or reads changes that: it
    stays OPEN since the same instant, admits no call, and a call made then
    raises [CircuitBreakerOpenException] without running the function. *)
Theorem open_fails_fast (y y' : cb_sys) (t : Z)
  (Hopen : c_state (y_cb y) = OPEN) (Ht : t < c_changed (y_cb y) + recovery_timeout cfg)
  (Hrun : cb_run t y y') :
  c_state (y_cb y') = OPEN /\ c_changed (y_cb y') = c_changed (y_cb y) /\
  c_total_calls (y_cb y') = c_total_calls (y_cb y) /\
  forall R (func : M cb R) t0 t1, t0 < c_changed (y_cb y) + recovery_timeout cfg ->
    (cb_execute t0 t1 func (y_cb y')).1 = Raise CircuitBreakerOpenException /\
    c_short_circuits (cb_execute t0 t1 func (y_cb y')).2 = c_short_circuits (y_cb y') + 1 /\
    c_total_calls (cb_execute t0 t1 func (y_cb y')).2 = c_total_calls (y_cb y').
Proof.
  assert (c_state (y_cb y') = OPEN /\ c_changed (y_cb y') = c_changed (y_cb y) /\
    c_total_calls (y_cb y') = c_total_calls (y_cb y)) as (H1 & H2 & H3).
  { induction Hrun as [y Hy|y y1 y2 Hs Hy Hrun IH]; [done|].
    destruct (open_step y y1 (c_changed (y_cb y))) as (E1 & E2 & E3); [done|done|done|lia|].
    rewrite E2 in IH. destruct IH as (? & ? & ?); [done|done|]. by rewrite <-E3. }
  do 3 (split; [done|]). intros R func t0 t1 Hlt.
  unfold cb_execute, bind, before_call, evaluate_state. rewrite H1, H2.
  destruct (Z.leb_spec (recovery_timeout cfg) (t0 - c_changed (y_cb y))); [lia|]. by rewrite H1.
Qed.

(** ** Sequences of calls *)

(** Calls one after the other: start time, end time, and whether the function
    returns or raises. *)
Abbreviation call := (Z * Z * bool)%type (only parsing).
Definition do_call (c : cb) (k : call) : cb :=
  let '(t0, t1, ok) := k in (cb_execute t0 t1 (if ok then ret () else raise (CallerException 0)) c).2.

Lemma do_call_closed c t0 t1 ok : c_state c = CLOSED -> 0 <= c_failures c -> c_failures c < failure_threshold cfg ->
  let c' := do_call c (t0, t1, ok) in
  if ok then c_state c' = CLOSED /\ c_failures c' = 0
  else if c_failures c + 1 <? failure_threshold cfg
       then c_state c' = CLOSED /\ c_failures c' = c_failures c + 1
       else c_state c' = OPEN /\ c_changed c' = t1.
Proof.
  intros Hs H0 Hf. destruct c as [[] f ? ? ? ? ? ? ?]; cbn in Hs, H0, Hf; try done.
  destruct ok; cbn; [done|]. unfold on_failure. cbn.
  destruct (Z.leb_spec (failure_threshold cfg) (f + 1)), (Z.ltb_spec (f + 1) (failure_threshold cfg)); done || lia.
Qed.

Lemma do_call_half c t0 t1 ok : c_state c = HALF_OPEN ->
  let c' := do_call c (t0, t1, ok) in
  if ok then if c_successes c + 1 <? half_open_success_threshold cfg
             then c_state c' = HALF_OPEN /\ c_successes c' = c_successes c + 1
             else c_state c' = CLOSED /\ c_failures c' = 0
  else c_state c' = OPEN /\ c_changed c' = t1.
Proof.
  intros Hs. destruct c as [[] ? n ? ? ? ? ? ?]; cbn in Hs; try done. destruct ok; cbn; [|done]. unfold on_success. cbn.
  destruct (Z.leb_spec (half_open_success_threshold cfg) (n + 1)), (Z.ltb_spec (n + 1) (half_open_success_threshold cfg));
    done || lia.
Qed.

(** A call at the end of the recovery timeout finds the breaker half open. *)
Lemma do_call_open c t0 t1 ok : c_state c = OPEN -> c_changed c + recovery_timeout cfg <= t0 ->
  do_call c (t0, t1, ok) = do_call (evaluate_state t0 c) (t0, t1, ok) /\
  c_state (evaluate_state t0 c) = HALF_OPEN /\ c_successes (evaluate_state t0 c) = 0.
Proof.
  intros Hs Ht. assert (evaluate_state t0 (evaluate_state t0 c) = evaluate_state t0 c /\
    c_state (evaluate_state t0 c) = HALF_OPEN /\ c_successes (evaluate_state t0 c) = 0) as (H1 & H2 & H3).
  { unfold evaluate_state at 2 3 4 5. rewrite Hs. destruct (Z.leb_spec (recovery_timeout cfg) (t0 - c_changed c)); [done|lia]. }
  split; [|done]. unfold do_call, cb_execute, bind, before_call. by rewrite H1.
Qed.

Lemma failing_calls ks c : c_state c = CLOSED -> 0 <= c_failures c -> Forall (fun k => k.2 = false) ks ->
  c_failures c + Z.of_nat (length ks) < failure_threshold cfg ->
  c_state (foldl do_call c ks) = CLOSED /\ c_failures (foldl do_call c ks) = c_failures c + Z.of_nat (length ks).
Proof.
  intros Hs H0 Hk. revert c Hs H0. induction Hk as [|[[t0 t1] ok] ks Hok _ IH]; intros c Hs H0 Hlt; cbn in Hlt.
  - cbn. split; [done|lia].
  - cbn in Hok. subst ok. cbn [foldl length]. pose proof (do_call_closed c t0 t1 false Hs H0 ltac:(lia)) as H. cbv beta iota zeta in H.
    destruct (Z.ltb_spec (c_failures c + 1) (failure_threshold cfg)) as [_|]; [|lia]. destruct H as [H1 H2].
    destruct (IH (do_call c (t0, t1, false))) as [H3 H4]; [done|lia..|]. split; [exact H3|]. lia.
Qed.

Lemma probing_calls ks c : c_state c = HALF_OPEN -> Forall (fun k => k.2 = true) ks ->
  c_successes c + Z.of_nat (length ks) < half_open_success_threshold cfg ->
  c_state (foldl do_call c ks) = HALF_OPEN /\ c_successes (foldl do_call c ks) = c_successes c + Z.of_nat (length ks).
Proof.
  intros Hs Hk. revert c Hs. induction Hk as [|[[t0 t1] ok] ks Hok _ IH]; intros c Hs Hlt; cbn in Hlt.
  - cbn. split; [done|lia].
  - cbn in Hok. subst ok. cbn [foldl length]. pose proof (do_call_half c t0 t1 true Hs) as H. cbv beta iota zeta in H.
    destruct (Z.ltb_spec (c_successes c + 1) (half_open_success_threshold cfg)) as [_|]; [|lia]. destruct H as [H1 H2].
    destruct (IH (do_call c (t0, t1, true))) as [H3 H4]; [exact H1|lia|]. split; [exact H3|]. lia.
Qed.

(** The breaker trips and recovers at its thresholds, exactly.  From CLOSED
    with [f] consecutive failures, failing calls keep it CLOSED until the
    threshold-th consecutive one, which opens it; a success clears the count.
    When the recovery timeout has elapsed, successful calls keep it HALF_OPEN
    until the [half_open_success_threshold]-th, which closes it with the failure
    count at zero; any failing probe before that re-opens it at once. *)
Theorem breaker_trips_and_recovers (c : cb) (ks : list call) (k : call)
  (Hcfg : 1 <= failure_threshold cfg /\ 1 <= half_open_success_threshold cfg) :
  (c_state c = CLOSED -> 0 <= c_failures c < failure_threshold cfg -> Forall (fun k => k.2 = false) ks ->
     c_failures c + Z.of_nat (length ks) < failure_threshold cfg ->
     c_state (foldl do_call c ks) = CLOSED /\
     (k.2 = true -> c_failures (do_call (foldl do_call c ks) k) = 0) /\
     (k.2 = false -> c_failures c + Z.of_nat (length ks) + 1 = failure_threshold cfg ->
        c_state (do_call (foldl do_call c ks) k) = OPEN /\ c_changed (do_call (foldl do_call c ks) k) = k.1.2)) /\
  (c_state c = OPEN -> forall t, c_changed c + recovery_timeout cfg <= t -> Forall (fun k => k.2 = true) ks ->
     Z.of_nat (length ks) < half_open_success_threshold cfg ->
     let c' := foldl do_call (evaluate_state t c) ks in
     c_state c' = HALF_OPEN /\
     (k.2 = false -> c_state (do_call c' k) = OPEN) /\
     (k.2 = true -> Z.of_nat (length ks) + 1 = half_open_success_threshold cfg ->
        c_state (do_call c' k) = CLOSED /\ c_failures (do_call c' k) = 0)).
Proof.
  destruct k as [[t0 t1] ok]. cbn [fst snd]. split.
  - intros Hs Hf Hk Hlt. destruct (failing_calls ks c Hs (proj1 Hf) Hk Hlt) as [H1 H2]. split; [done|].
    assert (0 <= c_failures (foldl do_call c ks) < failure_threshold cfg) as [Hlo Hhi] by lia.
    pose proof (do_call_closed (foldl do_call c ks) t0 t1 ok H1 Hlo Hhi) as H. cbv zeta in H.
    split; intros -> ; [apply H|]. intros Hn.
    destruct (Z.ltb_spec (c_failures (foldl do_call c ks) + 1) (failure_threshold cfg)); [lia|exact H].
  - intros Hs t Ht Hk Hlt. set (c' := foldl do_call (evaluate_state t c) ks). destruct (do_call_open c t t1 ok Hs Ht) as (_ & Hh & H0).
    destruct (probing_calls ks (evaluate_state t c) Hh Hk) as [H1 H2]; [lia|]. fold c' in H1, H2. split; [done|].
    pose proof (do_call_half c' t0 t1 ok H1) as H. cbv zeta in H.
    split; intros ->; [apply H|]. intros Hn.
    destruct (Z.ltb_spec (c_successes c' + 1) (half_open_success_threshold cfg)); [lia|exact H].
Qed.
End Breaker.

(** ** Witnesses *)

Definition ex_cfg : cb_config := mkConfig 2 1000 1.
Definition ex_open : cb := mkCb OPEN 2 0 10 (Some 10) 2 0 2 0.

Lemma breaker_invariant_witness :
  exists y, cb_reach ex_cfg y /\ c_state (y_cb y) = CLOSED /\
    c_total_calls (y_cb y) + y_lost y = c_total_successes (y_cb y) + c_total_failures (y_cb y) + y_nested y + y_flight y.
Proof.
  assert (Hr : cb_reach ex_cfg (mkCs (mkCb CLOSED 1 0 0 (Some 5) 1 0 1 0) 5 0 0 0)).
  { apply (cr_step ex_cfg false (mkCs (mkCb CLOSED 0 0 0 None 1 0 0 0) 1 1 0 0)).
    - apply (cr_step ex_cfg false (mkCs (mkCb CLOSED 0 0 0 None 0 0 0 0) 0 0 0 0)).
      + apply (cr_init ex_cfg 0). reflexivity.
      + apply (cs_start ex_cfg _ 0 1 0); [lia|reflexivity].
    - apply (cs_failure ex_cfg (mkCb CLOSED 0 0 0 None 1 0 0 0) 1 5 1); lia. }
  eexists. split; [exact Hr|]. split; [reflexivity|]. exact (proj2 (breaker_invariant ex_cfg _ Hr)).
Defined.

Lemma open_fails_fast_witness :
  (cb_execute ex_cfg 900 901 (ret 7) ex_open).1 = Raise CircuitBreakerOpenException.
Proof.
  refine (proj1 (proj2 (proj2 (proj2 (open_fails_fast ex_cfg (mkCs ex_open 20 0 0 0) (mkCs ex_open 20 0 0 0) 900
    eq_refl _ _))) Z (ret 7) 900 901 _)).
  - reflexivity.
  - apply run_nil. cbn. lia.
  - reflexivity.
Defined.

Lemma breaker_trips_and_recovers_witness :
  c_state (do_call ex_cfg (foldl (do_call ex_cfg) (mkCb CLOSED 0 0 0 None 0 0 0 0) [(1, 2, false)]) (3, 4, false)) = OPEN /\
  c_state (do_call ex_cfg (foldl (do_call ex_cfg) (evaluate_state ex_cfg 1010 ex_open) []) (1011, 1012, true)) = CLOSED.
Proof.
  split.
  - refine (proj1 (proj2 (proj2 (proj1 (breaker_trips_and_recovers ex_cfg (mkCb CLOSED 0 0 0 None 0 0 0 0)
      [(1, 2, false)] (3, 4, false) _) eq_refl _ _ _)) eq_refl eq_refl)); cbn; try lia. repeat constructor.
  - refine (proj1 (proj2 (proj2 (proj2 (breaker_trips_and_recovers ex_cfg ex_open [] (1011, 1012, true) _)
      eq_refl 1010 _ _ _)) eq_refl eq_refl)); cbn; try lia. constructor.
Defined.
