(* ===== verification/Bulkhead.v ===== *)
(** [Bulkhead] of [app/core/resilience/bulkhead.py] over [asyncio.Semaphore].

    The semaphore is CPython's: a value and a FIFO of waiter futures; [release]
    hands its slot to the first pending waiter, which takes it when its task is
    resumed.  [bh_step] lists the atomic events of any number of tasks: entering
    the compartment (rejected, admitted at once, or left waiting), the resumption
    or cancellation of a waiter, and leaving.  The theorems: the slot accounting
    in every interleaving, strict fail-fast without a queue, and what a queue
    really bounds. *)

From S2P Require Import Prelude.

Local Open Scope Z_scope.

(** ** [asyncio.Semaphore] *)

(** A waiter future: pending, given a slot, or cancelled; [w_counted] says
    whether its task sits in the [_waiting_count] branch of [__aenter__]. *)
Inductive fut_state : Type := Pending | Woken | Cancelled.
#[global] Instance fut_state_eq_dec : EqDecision fut_state.
Proof. solve_decision. Defined.

Record waiter : Type := mkW { w_counted : bool; w_state : fut_state }.
Record sem : Type := mkSem { s_value : Z; s_waiters : list waiter }.

(** [locked()] *)
Definition sem_locked (s : sem) : bool :=
  (s_value s =? 0) || existsb (fun w => negb (bool_decide (w_state w = Cancelled))) (s_waiters s).

(** [_wake_up_next]: the first future that is not done. *)
Fixpoint wake_first (ws : list waiter) : option (list waiter) :=
  match ws with
  | [] => None
  | w :: ws' =>
      if bool_decide (w_state w = Pending) then Some (mkW (w_counted w) Woken :: ws')
      else cons w <$> wake_first ws'
  end.
Definition wake_up_next (s : sem) : bool * sem :=
  match wake_first (s_waiters s) with
  | Some ws => (true, mkSem (s_value s - 1) ws)
  | None => (false, s)
  end.

(** [release] *)
Definition sem_release (s : sem) : sem := (wake_up_next (mkSem (s_value s + 1) (s_waiters s))).2.

(** The [finally] of [acquire]: wake up as many as are allowed.  The value
    decreases at each turn, so [s_value] turns are enough. *)
Fixpoint wake_loop (fuel : nat) (s : sem) : sem :=
  match fuel with
  | O => s
  | S f =>
      if 0 <? s_value s then
        let '(woken, s') := wake_up_next s in
        if woken then wake_loop f s' else s'
      else s
  end.
Definition wake_all (s : sem) : sem := wake_loop (Z.to_nat (s_value s)) s.

(** ** [Bulkhead] *)

Record bulkhead : Type := mkBh {
  b_active : Z;
  b_waiting : Z;
  b_rejections : Z;
  b_calls : Z;
  b_successes : Z;
  b_failures : Z;
  b_sem : sem
}.

Section Compartment.
Variables (max_concurrent max_queue : Z).

(** [__init__], with the lazily created semaphore. *)
Definition bh_init : result bulkhead :=
  if max_concurrent <? 1 then Raise PyValueError
  else if max_queue <? 0 then Raise PyValueError
  else Ok (mkBh 0 0 0 0 0 0 (mkSem max_concurrent [])).

Definition available_slots (b : bulkhead) : Z := Z.max 0 (max_concurrent - b_active b).

(** How an attempt to enter ends at its first suspension point. *)
Inductive entered : Type := Rejected | Entered | Waiting.

(** [__aenter__] up to the end or to the [await] in [sem.acquire()]. *)
Definition bh_aenter (b : bulkhead) : entered * bulkhead :=
  let calls := b_calls b + 1 in
  let s := b_sem b in
  let saturated := max_concurrent <=? b_active b in
  if saturated && (max_queue <=? b_waiting b)
  then (Rejected, mkBh (b_active b) (b_waiting b) (b_rejections b + 1) calls (b_successes b) (b_failures b) s)
  else if sem_locked s
  then (Waiting, mkBh (b_active b) (if saturated then b_waiting b + 1 else b_waiting b) (b_rejections b) calls
                   (b_successes b) (b_failures b) (mkSem (s_value s) (s_waiters s ++ [mkW saturated Pending])))
  else (Entered, mkBh (b_active b + 1) (b_waiting b) (b_rejections b) calls (b_successes b) (b_failures b)
                    (mkSem (s_value s - 1) (s_waiters s))).

(** A waiter leaves the queue: the rest of [acquire] and of [__aenter__].
    [granted] when it resumes with its slot, otherwise it was cancelled. *)
Definition bh_leave_queue (ws1 : list waiter) (w : waiter) (ws2 : list waiter) (granted : bool) (b : bulkhead) : bulkhead :=
  let returned := if granted then 0 else if bool_decide (w_state w = Woken) then 1 else 0 in
  let s := wake_all (mkSem (s_value (b_sem b) + returned) (ws1 ++ ws2)) in
  mkBh (if granted then b_active b + 1 else b_active b) (if w_counted w then b_waiting b - 1 else b_waiting b)
    (b_rejections b) (b_calls b) (b_successes b) (b_failures b) s.

(** [__aexit__] *)
Definition bh_aexit (failed : bool) (b : bulkhead) : bulkhead :=
  mkBh (b_active b - 1) (b_waiting b) (b_rejections b) (b_calls b)
    (if failed then b_successes b else b_successes b + 1) (if failed then b_failures b + 1 else b_failures b)
    (sem_release (b_sem b)).

(** [reset] *)
Definition bh_reset (b : bulkhead) : bulkhead := mkBh 0 0 0 0 0 0 (mkSem max_concurrent []).

(** ** Interleavings; the ghost counts the waiters that gave up. *)
Record bsys : Type := mkBs { y_b : bulkhead; y_gave_up : Z }.

Inductive bh_step : bsys -> bsys -> Prop :=
  | bs_enter b g : bh_step (mkBs b g) (mkBs (bh_aenter b).2 g)
  | bs_resume b g ws1 c ws2 :
      s_waiters (b_sem b) = ws1 ++ mkW c Woken :: ws2 ->
      bh_step (mkBs b g) (mkBs (bh_leave_queue ws1 (mkW c Woken) ws2 true b) g)
  | bs_cancel_request b g ws1 c ws2 :
      s_waiters (b_sem b) = ws1 ++ mkW c Pending :: ws2 ->
      bh_step (mkBs b g)
        (mkBs (mkBh (b_active b) (b_waiting b) (b_rejections b) (b_calls b) (b_successes b) (b_failures b)
           (mkSem (s_value (b_sem b)) (ws1 ++ mkW c Cancelled :: ws2))) g)
  | bs_cancelled b g ws1 c st ws2 :
      s_waiters (b_sem b) = ws1 ++ mkW c st :: ws2 -> st <> Pending ->
      bh_step (mkBs b g) (mkBs (bh_leave_queue ws1 (mkW c st) ws2 false b) (g + 1))
  | bs_exit b g failed :
      0 < b_active b -> bh_step (mkBs b g) (mkBs (bh_aexit failed b) g).

Inductive bh_reach : bsys -> Prop :=
  | br_init b : bh_init = Ok b -> bh_reach (mkBs b 0)
  | br_step y y' : bh_reach y -> bh_step y y' -> bh_reach y'.

(** ** Invariant *)

Definition count (st : fut_state) (ws : list waiter) : Z := Z.of_nat (length (filter (fun w => w_state w = st) ws)).
Definition counted (ws : list waiter) : Z := Z.of_nat (length (filter (fun w => w_counted w = true) ws)).

Lemma count_app st l1 l2 : count st (l1 ++ l2) = count st l1 + count st l2.
Proof. unfold count. rewrite filter_app, length_app. lia. Qed.
Lemma count_cons st w l : count st (w :: l) = (if decide (w_state w = st) then 1 else 0) + count st l.
Proof. unfold count. rewrite filter_cons. case_decide; cbn [length]; lia. Qed.
Lemma count_nil st : count st [] = 0.
Proof. done. Qed.
Lemma count_nonneg st l : 0 <= count st l.
Proof. unfold count. lia. Qed.
Lemma counted_app l1 l2 : counted (l1 ++ l2) = counted l1 + counted l2.
Proof. unfold counted. rewrite filter_app, length_app. lia. Qed.
Lemma counted_cons w l : counted (w :: l) = (if w_counted w then 1 else 0) + counted l.
Proof. unfold counted. rewrite filter_cons. destruct (w_counted w); case_decide; try done; cbn [length]; lia. Qed.
Lemma counted_nil : counted [] = 0.
Proof. done. Qed.
Lemma counted_nonneg l : 0 <= counted l.
Proof. unfold counted. lia. Qed.

Create Rewrite HintDb bhc.
#[local] Hint Rewrite count_app count_cons count_nil counted_app counted_cons counted_nil : bhc.

Lemma wake_first_spec ws :
  match wake_first ws with
  | Some ws' => count Pending ws' = count Pending ws - 1 /\ count Woken ws' = count Woken ws + 1 /\
                counted ws' = counted ws /\ length ws' = length ws
  | None => count Pending ws = 0
  end.
Proof.
  induction ws as [|[c st] ws IH]; [done|]. cbn [wake_first w_state]. case_bool_decide as E.
  - subst st. autorewrite with bhc. cbn. repeat case_decide; simplify_eq/=; lia.
  - destruct (wake_first ws) as [ws'|]; simpl; autorewrite with bhc; cbn; repeat case_decide; simplify_eq/=; lia.
Qed.

(** A semaphore is conserved by waking: value plus granted slots, tasks, counts. *)
Definition sem_same (s s' : sem) : Prop :=
  s_value s' + count Woken (s_waiters s') = s_value s + count Woken (s_waiters s) /\
  counted (s_waiters s') = counted (s_waiters s) /\ length (s_waiters s') = length (s_waiters s) /\
  count Woken (s_waiters s) <= count Woken (s_waiters s').

Lemma wake_loop_spec fuel s : 0 <= s_value s <= Z.of_nat fuel ->
  let s' := wake_loop fuel s in
  sem_same s s' /\ 0 <= s_value s' /\ (0 < s_value s' -> count Pending (s_waiters s') = 0).
Proof.
  revert s. induction fuel as [|f IH]; intros s Hv; cbn [wake_loop]; [unfold sem_same; lia|].
  destruct (Z.ltb_spec 0 (s_value s)); [|unfold sem_same; lia].
  unfold wake_up_next. pose proof (wake_first_spec (s_waiters s)) as Hw.
  destruct (wake_first (s_waiters s)) as [ws|]; [|unfold sem_same; lia].
  destruct (IH (mkSem (s_value s - 1) ws)) as (Hs & H1 & H2); [cbn; lia|].
  split; [|done]. unfold sem_same in *. cbn in *. lia.
Qed.

Lemma wake_all_spec s : 0 <= s_value s ->
  sem_same s (wake_all s) /\ 0 <= s_value (wake_all s) /\
  (0 < s_value (wake_all s) -> count Pending (s_waiters (wake_all s)) = 0).
Proof. intros. apply wake_loop_spec. lia. Qed.

Lemma sem_release_spec s : 0 <= s_value s ->
  let s' := sem_release s in
  s_value s' + count Woken (s_waiters s') = s_value s + 1 + count Woken (s_waiters s) /\
  counted (s_waiters s') = counted (s_waiters s) /\ length (s_waiters s') = length (s_waiters s) /\
  0 <= s_value s' /\
  (0 < s_value s' -> 0 < count Pending (s_waiters s') -> 0 < count Woken (s_waiters s')).
Proof.
  intros Hv. unfold sem_release, wake_up_next. pose proof (wake_first_spec (s_waiters s)) as Hw. cbn.
  pose proof (count_nonneg Woken (s_waiters s)).
  destruct (wake_first (s_waiters s)) as [ws|]; cbn; lia.
Qed.

Lemma sem_locked_spec s : 0 <= s_value s -> sem_locked s = true ->
  0 < s_value s -> 0 < count Pending (s_waiters s) + count Woken (s_waiters s).
Proof.
  intros Hv Hl Hpos. unfold sem_locked in Hl. destruct (Z.eqb_spec (s_value s) 0); [lia|]. cbn in Hl.
  apply existsb_exists in Hl as (w & Hin & Hw). apply list_elem_of_In, list_elem_of_split in Hin as (l1 & l2 & ->).
  autorewrite with bhc. pose proof (count_nonneg Pending l1). pose proof (count_nonneg Pending l2).
  pose proof (count_nonneg Woken l1). pose proof (count_nonneg Woken l2).
  destruct (w_state w); cbn in Hw; repeat case_decide; try done; lia.
Qed.

(** The slots are conserved: running tasks, slots handed to a waiter, free slots. *)
Definition bh_inv (y : bsys) : Prop :=
  let b := y_b y in let s := b_sem b in
  1 <= max_concurrent /\ 0 <= max_queue /\
  0 <= b_active b /\ 0 <= s_value s /\ b_active b + count Woken (s_waiters s) + s_value s = max_concurrent /\
  b_waiting b = counted (s_waiters s) /\ b_waiting b <= max_queue /\
  b_calls b = b_rejections b + b_successes b + b_failures b + b_active b + Z.of_nat (length (s_waiters s)) + y_gave_up y /\
  (0 < s_value s -> 0 < count Pending (s_waiters s) -> 0 < count Woken (s_waiters s)).

Lemma bh_leave_inv b g ws1 w ws2 granted :
  bh_inv (mkBs b g) -> s_waiters (b_sem b) = ws1 ++ w :: ws2 -> w_state w <> Pending ->
  (granted = true -> w_state w = Woken) ->
  bh_inv (mkBs (bh_leave_queue ws1 w ws2 granted b) (if granted then g else g + 1)).
Proof.
  intros (H1 & H2 & H3 & H4 & H5 & H6 & H7 & H8 & H9) Hw Hst Hg. cbn [y_b y_gave_up] in *. rewrite Hw in *.
  autorewrite with bhc in *. rewrite length_app in H8. cbn [length] in H8.
  unfold bh_leave_queue, bh_inv. cbn [y_b y_gave_up b_sem b_active b_waiting b_rejections b_calls b_successes b_failures].
  set (s := mkSem _ (ws1 ++ ws2)).
  assert (0 <= s_value s) as Hv by (cbn; destruct granted; [|case_bool_decide]; lia).
  destruct (wake_all_spec s Hv) as ((E1 & E2 & E3 & E4) & E5 & E6). cbn in E1, E2, E3, E4.
  autorewrite with bhc in E1, E2, E4. rewrite length_app in E3.
  destruct w as [c st]. cbn [w_counted w_state] in *.
  destruct granted; [rewrite (Hg eq_refl) in *|]; try case_bool_decide; destruct c; repeat case_decide; subst;
    try done; lia.
Qed.

Lemma bh_step_inv y y' : bh_inv y -> bh_step y y' -> bh_inv y'.
Proof.
  intros Hinv Hstep. destruct Hstep as [b g|b g ws1 c ws2 Hw|b g ws1 c ws2 Hw|b g ws1 c st ws2 Hw Hst|b g failed Ha].
  - destruct Hinv as (H1 & H2 & H3 & H4 & H5 & H6 & H7 & H8 & H9). cbn [y_b y_gave_up] in *.
    unfold bh_inv, bh_aenter. pose proof (count_nonneg Woken (s_waiters (b_sem b))).
    destruct (Z.leb_spec max_concurrent (b_active b)), (Z.leb_spec max_queue (b_waiting b)); cbn [andb];
      try (destruct (sem_locked (b_sem b)) eqn:Hl; [pose proof (sem_locked_spec _ H4 Hl)|]);
      cbn; autorewrite with bhc; rewrite ?length_app; cbn [length w_state w_counted]; repeat case_decide; try done; try lia;
      unfold sem_locked in Hl; destruct (Z.eqb_spec (s_value (b_sem b)) 0); cbn in Hl; try done; lia.
  - apply (bh_leave_inv b g ws1 (mkW c Woken) ws2 true); done.
  - destruct Hinv as (H1 & H2 & H3 & H4 & H5 & H6 & H7 & H8 & H9). cbn [y_b y_gave_up] in *. rewrite Hw in *.
    unfold bh_inv. cbn. autorewrite with bhc in *. rewrite length_app in *. cbn [length w_state w_counted] in *.
    repeat case_decide; try done; lia.
  - apply (bh_leave_inv b g ws1 (mkW c st) ws2 false); done.
  - destruct Hinv as (H1 & H2 & H3 & H4 & H5 & H6 & H7 & H8 & H9). cbn [y_b y_gave_up] in *.
    destruct (sem_release_spec (b_sem b) H4) as (E1 & E2 & E3 & E4 & E5). unfold bh_inv, bh_aexit.
    cbn [y_b y_gave_up b_sem b_active b_waiting b_rejections b_calls b_successes b_failures].
    rewrite E2, E3. destruct failed; lia.
Qed.

Lemma bh_reach_inv y : bh_reach y -> bh_inv y.
Proof.
  induction 1 as [b Hi|y y' _ IH Hs]; [|by eapply bh_step_inv].
  unfold bh_init in Hi. destruct (Z.ltb_spec max_concurrent 1), (Z.ltb_spec max_queue 0); try done.
  injection Hi as <-. unfold bh_inv. cbn. autorewrite with bhc. lia.
Qed.

(** No slot is leaked or created in any interleaving of entries, waits,
    cancellations and exits: running tasks, slots on their way to a woken waiter
    and free slots add up to [max_concurrent]; at most [max_concurrent] tasks run
    and at most [max_queue] are counted as waiting; every call is accounted for;
    and a free slot with a pending waiter means a wake-up is under way. *)
Theorem bulkhead_slots_conserved (y : bsys) (Hr : bh_reach y) :
  let b := y_b y in let s := b_sem b in
  0 <= b_active b <= max_concurrent /\ 0 <= b_waiting b <= max_queue /\
  b_active b + count Woken (s_waiters s) + s_value s = max_concurrent /\
  b_calls b = b_rejections b + b_successes b + b_failures b + b_active b + Z.of_nat (length (s_waiters s)) + y_gave_up y /\
  (0 < s_value s -> 0 < count Pending (s_waiters s) -> 0 < count Woken (s_waiters s)).
Proof.
  destruct (bh_reach_inv y Hr) as (H1 & H2 & H3 & H4 & H5 & H6 & H7 & H8 & H9). cbv zeta.
  pose proof (count_nonneg Woken (s_waiters (b_sem (y_b y)))). pose proof (counted_nonneg (s_waiters (b_sem (y_b y)))).
  lia.
Qed.

(** Strict fail-fast.  With [max_queue = 0] no task ever waits: an attempt to
    enter is decided at once, admitted exactly when fewer than [max_concurrent]
    tasks run and rejected otherwise. *)
Theorem bulkhead_fail_fast (y : bsys) (Hr : bh_reach y) (H0 : max_queue = 0) :
  s_waiters (b_sem (y_b y)) = [] /\
  (bh_aenter (y_b y)).1 = (if b_active (y_b y) <? max_concurrent then Entered else Rejected).
Proof.
  assert (s_waiters (b_sem (y_b y)) = []) as Hw.
  { induction Hr as [b Hi|y y' Hr IH Hs].
    - unfold bh_init in Hi. destruct (_ <? 1), (max_queue <? 0); try done. by injection Hi as <-.
    - destruct Hs as [b g|b g ws1 c ws2 Hw|b g ws1 c ws2 Hw|b g ws1 c st ws2 Hw Hst|b g failed Ha]; cbn in *;
        try (rewrite IH in Hw; by destruct ws1).
      + destruct (bh_reach_inv _ Hr) as (_ & _ & _ & _ & H5 & H6 & H7 & _). cbn in *. rewrite IH in *.
        unfold bh_aenter, sem_locked. rewrite IH. cbn [existsb]. rewrite orb_false_r. rewrite ?count_nil, ?counted_nil in *.
        destruct (Z.leb_spec max_concurrent (b_active b)), (Z.leb_spec max_queue (b_waiting b)); cbn [andb]; try lia; try done;
          destruct (Z.eqb_spec (s_value (b_sem b)) 0); try done; lia.
      + unfold sem_release, wake_up_next. cbn. by rewrite IH. }
  split; [done|]. destruct (bh_reach_inv _ Hr) as (_ & _ & _ & _ & H5 & H6 & H7 & _).
  unfold bh_aenter, sem_locked. rewrite Hw in *. cbn [existsb]. rewrite orb_false_r. rewrite ?count_nil, ?counted_nil in *.
  destruct (Z.leb_spec max_concurrent (b_active (y_b y))), (Z.leb_spec max_queue (b_waiting (y_b y))),
    (Z.ltb_spec (b_active (y_b y)) max_concurrent); cbn [andb]; try lia; try done;
    destruct (Z.eqb_spec (s_value (b_sem (y_b y))) 0); try done; lia.
Qed.
End Compartment.

(** ** The queue bound *)

(** After a task leaves and its slot is on the way to a waiter, [_active_count] is
    below the limit while the semaphore is locked: newcomers wait uncounted. *)
Fixpoint handover (n : nat) : bulkhead :=
  match n with
  | O => mkBh 0 1 0 2 1 0 (mkSem 0 [mkW true Woken])
  | S n' => (bh_aenter 1 1 (handover n')).2
  end.

Lemma handover_spec n :
  b_active (handover n) = 0 /\ b_waiting (handover n) = 1 /\ s_value (b_sem (handover n)) = 0 /\
  length (s_waiters (b_sem (handover n))) = S n /\ b_rejections (handover n) = 0.
Proof.
  induction n as [|n (H1 & H2 & H3 & H4 & H5)]; [done|]. cbn [handover]. unfold bh_aenter, sem_locked.
  rewrite H1, H2, H3. cbn. rewrite length_app, H4. cbn. repeat split; try done. lia.
Qed.

Lemma handover_reach n : bh_reach 1 1 (mkBs (handover n) 0).
Proof.
  induction n as [|n IH]; [|by eapply br_step; [exact IH|constructor]].
  apply (br_step 1 1 (mkBs (mkBh 1 1 0 2 0 0 (mkSem 0 [mkW true Pending])) 0)).
  - apply (br_step 1 1 (mkBs (mkBh 1 0 0 1 0 0 (mkSem 0 [])) 0)).
    + apply (br_step 1 1 (mkBs (mkBh 0 0 0 0 0 0 (mkSem 1 [])) 0)); [by apply br_init|apply (bs_enter 1 1)].
    + apply (bs_enter 1 1).
  - apply (bs_exit 1 1 (mkBh 1 1 0 2 0 0 (mkSem 0 [mkW true Pending])) 0 false). done.
Qed.

(** [max_queue] does not bound the number of waiting tasks.  With one slot
    and [max_queue = 1], for every [n] a state is reachable in which [n + 1] tasks
    wait for the slot and none was rejected: between a release and the
    resumption of the woken waiter, newcomers see a free [_active_count] and block
    in the semaphore without being counted. *)
Theorem bulkhead_queue_unbounded (n : nat) :
  exists y, bh_reach 1 1 y /\ length (s_waiters (b_sem (y_b y))) = S n /\ b_waiting (y_b y) = 1 /\
    b_rejections (y_b y) = 0.
Proof.
  exists (mkBs (handover n) 0). destruct (handover_spec n) as (_ & ? & _ & ? & ?). split; [apply handover_reach|done].
Qed.

Lemma bulkhead_slots_conserved_witness : exists y, bh_reach 1 1 y /\ b_active (y_b y) <= 1.
Proof.
  exists (mkBs (handover 2) 0). split; [apply handover_reach|].
  apply (bulkhead_slots_conserved 1 1 (mkBs (handover 2) 0) (handover_reach 2)).
Defined.

Lemma bulkhead_fail_fast_witness :
  (bh_aenter 1 0 (mkBh 1 0 0 1 0 0 (mkSem 0 []))).1 = Rejected.
Proof.
  refine (proj2 (bulkhead_fail_fast 1 0 (mkBs (mkBh 1 0 0 1 0 0 (mkSem 0 [])) 0) _ eq_refl)).
  apply (br_step 1 0 (mkBs (mkBh 0 0 0 0 0 0 (mkSem 1 [])) 0)); [by apply br_init|apply (bs_enter 1 0)].
Defined.
