(* ===== verification/Backoff.v ===== *)
(** [calculate_backoff] and [retry_with_backoff] of
    [app/core/resilience/backoff.py].

    Delays are rational numbers of seconds: the model computes exactly what the
    code computes in floating point.  [random.uniform(a, b)] is
    [a + (b - a) * u] for the draw [u] of [random.random()], which lies in
    [0, 1).  The wrapped coroutine is the sequence of its outcomes, call by call;
    the wrapper's run is its result, the number of calls made and the delays
    slept. *)

From Stdlib Require Import QArith Qminmax Lqa.
From S2P Require Import Prelude.

Local Open Scope Q_scope.
Local Open Scope py_scope.

Definition uniform (u a b : Q) : Q := a + (b - a) * u.

(** [min] and [max] on floats. *)
Definition fmin (a b : Q) : Q := if Qle_bool a b then a else b.
Definition fmax (a b : Q) : Q := if Qle_bool a b then b else a.

(** [calculate_backoff] *)
Definition safe_base (base_delay : Q) : Q := fmax (1 # 10000) base_delay.
Definition safe_max (base_delay max_delay : Q) : Q := fmax (safe_base base_delay) max_delay.
Definition backoff_cap (attempt : Z) (base_delay max_delay : Q) : Q :=
  let safe_attempt := Z.max 0 attempt in
  let exp_factor := (2 ^ Z.min safe_attempt 30)%Z in
  fmin (safe_max base_delay max_delay) (safe_base base_delay * inject_Z exp_factor).

Definition calculate_backoff (u : Q) (attempt : Z) (base_delay max_delay : Q) (strategy : string)
  (previous_delay : option Q) : result Q :=
  let base := safe_base base_delay in
  let temp := backoff_cap attempt base_delay max_delay in
  let normalized := py_strip (py_lower strategy) in
  if bool_decide (normalized = "full_jitter") then Ok (uniform u 0 temp)
  else if bool_decide (normalized = "equal_jitter") then
    let half := temp / 2 in Ok (half + uniform u 0 half)
  else if bool_decide (normalized = "decorrelated_jitter") then
    let prev := match previous_delay with
                | Some p => if Qle_bool base p then p else base
                | None => base
                end in
    Ok (fmin (safe_max base_delay max_delay) (uniform u base (prev * 3)))
  else if bool_decide (normalized = "no_jitter") then Ok temp
  else Raise PyValueError.

(** ** [retry_with_backoff]

    [fn n] is the outcome of the [n]-th call, [draw n] the random number drawn
    for the delay after attempt [n]. *)
Section Retry.
Context {R : Type}.
Variables (max_retries : Z) (base_delay max_delay : Q) (strategy : string) (retryable : exc -> bool).
Variables (fn : nat -> result R) (draw : nat -> Q).

Record run : Type := mkRun { r_result : result R; r_calls : nat; r_delays : list Q }.

(** The [for attempt in range(max_retries + 1)] loop from [attempt] on, with
    [remaining] iterations left; [on_retry]'s own exceptions are swallowed, so it
    does not appear. *)
Fixpoint retry_loop (remaining : nat) (attempt : nat) (last_delay : option Q) : run :=
  match remaining with
  | O => mkRun (Raise PyRuntimeError) 0 []
  | S rem =>
      match fn attempt with
      | Ok r => mkRun (Ok r) 1 []
      | Raise e =>
          if retryable e then
            if (max_retries <=? Z.of_nat attempt)%Z then mkRun (Raise e) 1 []
            else match calculate_backoff (draw attempt) (Z.of_nat attempt) base_delay max_delay strategy last_delay with
                 | Raise e' => mkRun (Raise e') 1 []
                 | Ok delay =>
                     let rest := retry_loop rem (S attempt) (Some delay) in
                     mkRun (r_result rest) (S (r_calls rest)) (delay :: r_delays rest)
                 end
          else mkRun (Raise e) 1 []
      end
  end.

Definition retry_with_backoff : run := retry_loop (Z.to_nat (max_retries + 1)) 0 None.
End Retry.
Arguments r_result {R} _.
Arguments r_calls {R} _.
Arguments r_delays {R} _.
Arguments mkRun {R} _ _ _.

(** ** Bounds of the delay *)

Lemma fmin_le_l a b : fmin a b <= a.
Proof. unfold fmin. destruct (Qle_bool a b) eqn:E; [lra|]. apply Qnot_lt_le. intros H. apply not_true_iff_false in E. apply E, Qle_bool_iff. lra. Qed.
Lemma fmin_cases a b : fmin a b = a /\ a <= b \/ fmin a b = b /\ b <= a.
Proof.
  unfold fmin. destruct (Qle_bool a b) eqn:E; [left; split; [done|by apply Qle_bool_iff]|right; split; [done|]].
  apply Qlt_le_weak, Qnot_le_lt. intros H. apply Qle_bool_iff in H. congruence.
Qed.
Lemma fmax_ge_l a b : a <= fmax a b.
Proof. unfold fmax. destruct (Qle_bool a b) eqn:E; [by apply Qle_bool_iff|lra]. Qed.

Lemma safe_base_pos b : 0 < safe_base b.
Proof. unfold safe_base. pose proof (fmax_ge_l (1 # 10000) b). lra. Qed.
Lemma safe_max_ge b m : safe_base b <= safe_max b m.
Proof. apply fmax_ge_l. Qed.

Lemma backoff_cap_bounds a b m : safe_base b <= backoff_cap a b m <= safe_max b m.
Proof.
  unfold backoff_cap. pose proof (safe_base_pos b). pose proof (safe_max_ge b m).
  set (f := inject_Z _). assert (1 <= f) as Hf.
  { unfold f. change 1 with (inject_Z 1). rewrite <-Zle_Qle.
    assert (0 < 2 ^ Z.min (Z.max 0 a) 30)%Z by (apply Z.pow_pos_nonneg; lia). lia. }
  split; [|apply fmin_le_l].
  destruct (fmin_cases (safe_max b m) (safe_base b * f)) as [[-> _]|[-> _]]; [done|].
  rewrite <-(Qmult_1_r (safe_base b)) at 1. apply Qmult_le_l; lra.
Qed.

Lemma uniform_bounds u a b : 0 <= u -> u < 1 -> a <= b -> a <= uniform u a b <= b.
Proof. intros H1 H2 H3. unfold uniform. nra. Qed.

(** The delay computed for any attempt and any draw stays within the limits
    its strategy promises: full jitter in [0, cap], equal jitter in [cap/2, cap],
    decorrelated jitter in [base, max], no jitter exactly the cap, where the cap
    itself lies between the base delay and the maximum and doubles with the
    attempt until it reaches the maximum; any other strategy raises
    [ValueError]. *)
Theorem backoff_bounds (u : Q) (attempt : Z) (base_delay max_delay : Q) (strategy : string) (prev : option Q)
  (Hu : 0 <= u /\ u < 1) :
  let cap := backoff_cap attempt base_delay max_delay in
  let lo := safe_base base_delay in let hi := safe_max base_delay max_delay in
  let s := py_strip (py_lower strategy) in
  lo <= cap <= hi /\
  ((0 <= attempt < 30)%Z -> 2 * cap <= hi -> backoff_cap (attempt + 1) base_delay max_delay == 2 * cap) /\
  match calculate_backoff u attempt base_delay max_delay strategy prev with
  | Ok d =>
      0 <= d <= hi /\
      (s = "full_jitter" -> d <= cap) /\ (s = "equal_jitter" -> cap / 2 <= d <= cap) /\
      (s = "decorrelated_jitter" -> lo <= d) /\ (s = "no_jitter" -> d = cap)
  | Raise e => e = PyValueError /\ s <> "full_jitter" /\ s <> "equal_jitter" /\ s <> "decorrelated_jitter" /\ s <> "no_jitter"
  end.
Proof.
  intros cap lo hi s. destruct Hu as [Hu0 Hu1].
  pose proof (backoff_cap_bounds attempt base_delay max_delay) as [Hc1 Hc2]. fold cap lo hi in Hc1, Hc2.
  pose proof (safe_base_pos base_delay) as Hlo. fold lo in Hlo. split; [done|]. split.
  { intros Ha Hcap. unfold cap, backoff_cap in *. fold lo hi in Hcap |- *. fold lo hi in Hc1, Hc2.
    rewrite !Z.max_r, !Z.min_l by lia.
    rewrite !Z.max_r, !Z.min_l in Hcap by lia. rewrite Z.pow_add_r by lia. change (2 ^ 1)%Z with 2%Z.
    rewrite inject_Z_mult. set (f := inject_Z (2 ^ attempt)) in *. change (inject_Z 2) with 2.
    destruct (fmin_cases hi (lo * f)) as [[E1 E2]|[E1 E2]]; rewrite E1 in *;
      destruct (fmin_cases hi (lo * (f * 2))) as [[E3 E4]|[E3 E4]]; rewrite E3; lra. }
  unfold calculate_backoff. fold cap lo hi s.
  case_bool_decide as H1. { pose proof (uniform_bounds u 0 cap Hu0 Hu1). rewrite H1. split; [lra|]. split; [lra|]. done. }
  case_bool_decide as H2.
  { pose proof (uniform_bounds u 0 (cap / 2) Hu0 Hu1) as Hb. rewrite H2.
    assert (cap / 2 == cap * (1 # 2)) as Eh by field. assert (0 <= cap / 2) by (rewrite Eh; lra). split; [lra|]. split; [done|]. split; [lra|done]. }
  case_bool_decide as H3.
  { set (p := match prev with Some p => _ | None => _ end).
    assert (lo <= p) as Hp.
    { unfold p. destruct prev as [q|]; [|lra]. destruct (Qle_bool lo q) eqn:E; [by apply Qle_bool_iff|lra]. }
    pose proof (uniform_bounds u lo (p * 3) Hu0 Hu1 ltac:(lra)) as Hb. rewrite H3.
    destruct (fmin_cases hi (uniform u lo (p * 3))) as [[-> ?]|[-> ?]];
      (split; [lra|]); split; try done; split; try done; split; try done; lra. }
  case_bool_decide as H4; [|done]. rewrite H4. split; [lra|]. done.
Qed.

(** One of the four strategies, up to case and blanks. *)
Definition known_strategy (strategy : string) : Prop :=
  py_strip (py_lower strategy) ∈ ["full_jitter"; "equal_jitter"; "decorrelated_jitter"; "no_jitter"].

Lemma backoff_returns u a b m st prev : 0 <= u /\ u < 1 -> known_strategy st ->
  exists d, calculate_backoff u a b m st prev = Ok d /\ 0 <= d <= safe_max b m.
Proof.
  intros Hu Hs. pose proof (backoff_cap_bounds a b m). pose proof (safe_base_pos b). destruct Hu as [H1 H2].
  assert (forall x y, 0 <= x <= safe_max b m -> y = Ok x -> exists d, y = Ok d /\ 0 <= d <= safe_max b m) as Hx by eauto.
  unfold calculate_backoff, known_strategy in *. set (s := py_strip (py_lower st)) in *. set (cap := backoff_cap a b m) in *.
  case_bool_decide as E1. { eapply Hx; [|done]. pose proof (uniform_bounds u 0 cap H1 H2). lra. }
  case_bool_decide as E2.
  { eapply Hx; [|done]. assert (cap / 2 == cap * (1 # 2)) as Eh by field. assert (0 <= cap / 2) by (rewrite Eh; lra).
    pose proof (uniform_bounds u 0 (cap / 2) H1 H2). lra. }
  case_bool_decide as E3.
  { eapply Hx; [|done]. set (p := match prev with Some p => _ | None => _ end).
    assert (safe_base b <= p) as Hp.
    { unfold p. destruct prev as [q|]; [|lra]. destruct (Qle_bool (safe_base b) q) eqn:E; [by apply Qle_bool_iff|lra]. }
    pose proof (uniform_bounds u (safe_base b) (p * 3) H1 H2 ltac:(lra)). pose proof (safe_max_ge b m).
    destruct (fmin_cases (safe_max b m) (uniform u (safe_base b) (p * 3))) as [[-> ?]|[-> ?]]; lra. }
  case_bool_decide as E4; [eapply Hx; [|done]; lra|]. set_solver.
Qed.

Section RetryProps.
Context {R : Type}.
Variables (max_retries : Z) (base_delay max_delay : Q) (strategy : string) (retryable : exc -> bool).
Variables (fn : nat -> result R) (draw : nat -> Q).

(** The call [i] ends the loop: it returned or raised something not retried. *)
Definition settled (i : nat) : bool := match fn i with Ok _ => true | Raise e => negb (retryable e) end.

Lemma retry_loop_spec (Hdraw : forall n, 0 <= draw n /\ draw n < 1) (Hst : known_strategy strategy)
  remaining attempt last :
  (Z.of_nat attempt + Z.of_nat remaining = max_retries + 1)%Z -> (0 < remaining)%nat ->
  let r := retry_loop max_retries base_delay max_delay strategy retryable fn draw remaining attempt last in
  exists k, (attempt <= k)%nat /\ (Z.of_nat k <= max_retries)%Z /\
    (forall i, (attempt <= i < k)%nat -> settled i = false) /\
    (Z.of_nat k = max_retries \/ settled k = true) /\
    r_result r = fn k /\ r_calls r = (k - attempt + 1)%nat /\ length (r_delays r) = (k - attempt)%nat /\
    Forall (fun d => 0 <= d <= safe_max base_delay max_delay) (r_delays r).
Proof.
  revert attempt last. induction remaining as [|rem IH]; intros attempt last Hsum Hpos; [lia|].
  cbn [retry_loop]. unfold settled in *.
  assert (forall res, res = fn attempt -> (Z.of_nat attempt = max_retries \/ settled attempt = true) ->
    exists k, (attempt <= k)%nat /\ (Z.of_nat k <= max_retries)%Z /\ (forall i, (attempt <= i < k)%nat -> settled i = false) /\
    (Z.of_nat k = max_retries \/ settled k = true) /\ res = fn k /\ 1%nat = (k - attempt + 1)%nat /\
    length (@nil Q) = (k - attempt)%nat /\ Forall (fun d => 0 <= d <= safe_max base_delay max_delay) []) as Hstop.
  { intros res -> Hs. exists attempt. rewrite Nat.sub_diag. repeat split; try done; try lia. }
  unfold settled in Hstop. destruct (fn attempt) as [r|e] eqn:Ef; [apply Hstop; auto|].
  destruct (retryable e) eqn:Er; [|apply Hstop; auto].
  destruct (Z.leb_spec max_retries (Z.of_nat attempt)); [apply Hstop; [done|left; lia]|]. clear Hstop.
  destruct (backoff_returns (draw attempt) (Z.of_nat attempt) base_delay max_delay strategy last (Hdraw _) Hst)
    as (d & -> & Hd). destruct rem as [|rem']; [lia|].
  destruct (IH (S attempt) (Some d)) as (k & H1 & H2 & H3 & H4 & H5 & H6 & H7 & H8); [lia|lia|].
  exists k. split; [lia|]. split; [done|]. split.
  { intros i Hi. destruct (decide (i = attempt)) as [->|]; [by rewrite Ef, Er|]. apply H3. lia. }
  split; [done|]. split; [done|]. cbn [r_calls r_delays length]. split; [lia|]. split; [lia|by constructor].
Qed.

(** [retry_with_backoff] always ends, and returns the outcome of the first
    call that returned or raised an exception outside [retry_exceptions], or of
    the last allowed one: exactly one call per attempt, at most
    [max_retries + 1], one sleep between two calls, none after the last, each no
    longer than the maximum delay. *)
Theorem retry_outcome (Hn : (0 <= max_retries)%Z) (Hdraw : forall n, 0 <= draw n /\ draw n < 1)
  (Hst : known_strategy strategy) :
  let r := retry_with_backoff max_retries base_delay max_delay strategy retryable fn draw in
  exists k, (Z.of_nat k <= max_retries)%Z /\
    (forall i, (i < k)%nat -> settled i = false) /\ (Z.of_nat k = max_retries \/ settled k = true) /\
    r_result r = fn k /\ r_calls r = S k /\ length (r_delays r) = k /\
    Forall (fun d => 0 <= d <= safe_max base_delay max_delay) (r_delays r).
Proof.
  unfold retry_with_backoff.
  destruct (retry_loop_spec Hdraw Hst (Z.to_nat (max_retries + 1)) 0 None) as (k & _ & H2 & H3 & H4 & H5 & H6 & H7 & H8);
    [lia|lia|].
  exists k. split; [done|]. split; [intros i Hi; apply H3; lia|]. split; [done|]. split; [done|].
  split; [lia|]. split; [lia|done].
Qed.
End RetryProps.

Lemma backoff_bounds_witness :
  exists d, calculate_backoff (1 # 2) 3 1 60 " Equal_Jitter " None = Ok d /\ 0 <= d <= 60.
Proof.
  eexists. split; [vm_compute; reflexivity|].
  exact (proj1 (proj2 (proj2 (backoff_bounds (1 # 2) 3 1 60 " Equal_Jitter " None ltac:(split; lra))))).
Defined.

Lemma retry_outcome_witness :
  exists k, r_calls (retry_with_backoff 3 (1 # 10) 5 "full_jitter" (fun _ => true)
    (fun n => if (n <? 2)%nat then Raise PyTimeoutError else Ok n) (fun _ => 1 # 2)) = S k /\ (Z.of_nat k <= 3)%Z.
Proof.
  destruct (retry_outcome 3 (1 # 10) 5 "full_jitter" (fun _ => true)
    (fun n => if (n <? 2)%nat then Raise PyTimeoutError else Ok n) (fun _ => 1 # 2)) as (k & H1 & _ & _ & _ & H2 & _).
  - lia.
  - intros _. split; lra.
  - left.
  - exists k. split; [exact H2|exact H1].
Defined.
