(* ===== verification/Fallback.v ===== *)
(** [FallbackEngine] of [app/core/resilience/fallback.py]: primary call, then the
    stale copy in Redis, then a static default.

    [up] says whether a Redis client is resolved and answers ([_get_redis] and the
    command, both of whose failures the code intercepts); serialization is a pair of parameters that may raise, and a
    cached JSON [null] deserializes to [None]. *)

From S2P Require Import Prelude Redis.

Local Open Scope Z_scope.

Inductive DegradationLevel : Type := PRIMARY | STALE_CACHE | STATIC_DEFAULT.

Section Engine.
Context {T V RD : Type} {Srv : RedisServer RD V}.
Variables (serialize : T -> result V) (deserialize : V -> result (option T)).

(** [_safe_cache_set] *)
Definition safe_cache_set (up : bool) (now : Z) (key : string) (value : T) (ttl : Z) (rd : RD) : RD :=
  if up then
    match serialize value with
    | Ok payload => r_set now key payload (ttl * 1000000) rd
    | Raise _ => rd
    end
  else rd.

(** [_safe_cache_get] *)
Definition safe_cache_get (up : bool) (now : Z) (key : string) (rd : RD) : option T :=
  if up then
    match r_get now key rd with
    | None => None
    | Some raw => match deserialize raw with Ok v => v | Raise _ => None end
    end
  else None.

(** [execute_with_fallback]; [primary] is the outcome of [primary_func()]. *)
Definition execute_with_fallback (up : bool) (now : Z) (primary : result T) (fallback_cache_key : option string)
  (static_default : T) (cache_ttl : Z) (rd : RD) : result (T * DegradationLevel) * RD :=
  match primary with
  | Ok r =>
      (Ok (r, PRIMARY),
       match fallback_cache_key with
       | Some key => safe_cache_set up now key r cache_ttl rd
       | None => rd
       end)
  | Raise _ =>
      match fallback_cache_key with
      | Some key =>
          match safe_cache_get up now key rd with
          | Some stale => (Ok (stale, STALE_CACHE), rd)
          | None => (Ok (static_default, STATIC_DEFAULT), rd)
          end
      | None => (Ok (static_default, STATIC_DEFAULT), rd)
      end
  end.

(** Graceful degradation.  [execute_with_fallback] never raises.  A primary
    result is always served as it is; and while the copy it left in Redis is
    alive, a later failing primary call on the same key serves that very value
    as [STALE_CACHE]; with no usable copy (Redis down, expired, not
    deserializable, no key) the static default is served. *)
Theorem fallback_degrades (up1 up2 : bool) (now1 now2 : Z) (v dflt dflt2 : T) (key : string) (ttl : Z) (e : exc) (rd : RD)
  (Hser : exists p, serialize v = Ok p /\ deserialize p = Ok (Some v)) (Httl : 0 < ttl) (Hnow : now1 <= now2) :
  (forall up now p k d t rd0, is_ok (execute_with_fallback up now p k d t rd0).1 = true) /\
  let '(r1, rd1) := execute_with_fallback up1 now1 (Ok v) (Some key) dflt ttl rd in
  r1 = Ok (v, PRIMARY) /\
  let '(r2, rd2) := execute_with_fallback up2 now2 (Raise e) (Some key) dflt2 ttl rd1 in
  rd2 = rd1 /\
  (up1 = true -> up2 = true -> now2 < now1 + ttl * 1000000 -> r2 = Ok (v, STALE_CACHE)) /\
  (up2 = false \/ up1 = true /\ now1 + ttl * 1000000 <= now2 -> r2 = Ok (dflt2, STATIC_DEFAULT)).
Proof.
  split.
  { intros up now [t0|x] k d t rd0; [done|]. cbn. destruct k as [k|]; [|done]. by destruct (safe_cache_get _ _ _ _). }
  cbn. split; [done|]. destruct Hser as (p & Hs & Hd). unfold safe_cache_set, safe_cache_get. rewrite Hs.
  destruct up1, up2; rewrite ?law_get_set, ?decide_True by (done || lia);
    try (destruct (Z.ltb_spec now2 (now1 + ttl * 1000000)); rewrite ?Hd);
    repeat case_match; simplify_eq; repeat split; intros; try done; try lia; destruct H0 as [|[]]; done || lia.
Qed.
End Engine.

Lemma fallback_degrades_witness :
  let run1 := execute_with_fallback (RD:=gmap string (Z * Z)) (fun v => Ok v) (fun v => Ok (Some v)) true 0 (Ok 7)
    (Some "k") 0 10 ∅ in
  (execute_with_fallback (fun v => Ok v) (fun v => Ok (Some v)) true 5 (Raise PyTimeoutError) (Some "k") 0 10 run1.2).1
  = Ok (7, STALE_CACHE).
Proof.
  destruct (fallback_degrades (RD:=gmap string (Z * Z)) (fun v : Z => Ok v) (fun v => Ok (Some v)) true true 0 5 7 0 0
    "k" 10 PyTimeoutError ∅) as [_ H]; [by exists 7|lia|lia|].
  cbv zeta. destruct (execute_with_fallback _ _ true 0 _ _ _ _ _) as [r1 rd1]. destruct H as [_ H]. cbn [snd].
  destruct (execute_with_fallback _ _ true 5 _ _ _ _ _) as [r2 rd2]. apply H; [done|done|lia].
Defined.
