(* ===== verification/HashMap.v ===== *)
(** [CompactHashMap] of [app/core/dsa/hash_map.py]: sparse index table, dense
    entry list, open addressing with perturbation.

    Python's [hash] is a parameter.  The probing loops are given fuel; an
    operation is [None] when its loop does not end within it.  For non-negative
    hashes the loops end, by the full period of [i -> 5 i + 1] modulo a power of
    two, and the map refines the insertion-ordered dictionary of the prelude; for
    negative ones they may not ([negative_hash_diverges]). *)

From S2P Require Import Prelude.

Local Open Scope Z_scope.

Definition EMPTY : Z := -1.
Definition DUMMY : Z := -2.
Definition INITIAL_CAPACITY : Z := 8.

(** The recurrence of the probe sequence. *)
Definition next_slot (mask i perturb : Z) : Z := Z.land (5 * i + 1 + perturb) mask.

(** ** Full period of the recurrence once the perturbation is used up *)

Lemma pow2_odd_div (j : nat) q x : Z.odd q = true -> (2 ^ Z.of_nat j | q * x) -> (2 ^ Z.of_nat j | x).
Proof.
  intros Hq. revert x. induction j as [|j IH]; intros x [c Hc]; [by exists x; rewrite Z.mul_1_r|].
  rewrite Nat2Z.inj_succ, Z.pow_succ_r in * by lia.
  destruct (Z.Even_or_Odd x) as [[y ->]|[y ->]].
  - destruct (IH y) as [d Hd]; [exists c; lia|]. exists d. lia.
  - exfalso. apply Z.odd_spec in Hq as [r ->]. lia.
Qed.

Lemma pow5_mod4 n : 0 <= n -> exists r, 5 ^ n = 4 * r + 1.
Proof.
  revert n. apply natlike_ind; [by exists 0|]. intros n Hn [r Hr]. rewrite Z.pow_succ_r by lia. exists (5 * r + 1). lia.
Qed.

Lemma pow5_odd n : 0 <= n -> Z.odd (5 ^ n) = true.
Proof. intros Hn. destruct (pow5_mod4 n Hn) as [r ->]. apply Z.odd_spec. exists (2 * r). lia. Qed.

(** [2^(k+2)] divides [5^d - 1] only when [2^k] divides [d]. *)
Lemma order_of_5 (k : nat) d : 0 <= d -> (2 ^ (Z.of_nat k + 2) | 5 ^ d - 1) -> (2 ^ Z.of_nat k | d).
Proof.
  revert d. induction k as [|k IH]; intros d Hd [c Hc]; [by exists d; rewrite Z.mul_1_r|].
  assert (2 ^ (Z.of_nat (S k) + 2) = 2 * 2 ^ (Z.of_nat k + 2)) as Ep by (rewrite <-Z.pow_succ_r by lia; f_equal; lia).
  rewrite Ep in Hc. assert (2 ^ (Z.of_nat k + 2) = 4 * 2 ^ Z.of_nat k) as Ep' by (rewrite Z.pow_add_r by lia; lia).
  destruct (Z.Even_or_Odd d) as [[e ->]|[e ->]].
  - assert (5 ^ (2 * e) = 5 ^ e * 5 ^ e) as E5 by (rewrite <-Z.pow_add_r by lia; f_equal; lia).
    destruct (pow5_mod4 e ltac:(lia)) as [r Hr]. rewrite E5 in Hc.
    destruct (IH e) as [q Hq]; [lia| |].
    + replace (Z.of_nat k + 2) with (Z.of_nat (k + 2)) in * by lia.
      apply (pow2_odd_div (k + 2) (2 * r + 1)); [apply Z.odd_spec; by exists r|].
      exists c. rewrite Hr in *. lia.
    + exists q. rewrite Nat2Z.inj_succ, Z.pow_succ_r by lia. lia.
  - exfalso. rewrite Z.pow_add_r, Z.pow_mul_r in Hc by lia. change (5 ^ 2) with 25 in Hc. change (5 ^ 1) with 5 in Hc.
    assert (exists r, 25 ^ e = 8 * r + 1) as [r Hr].
    { clear -Hd. assert (0 <= e) as He by lia. clear Hd. revert e He. apply natlike_ind; [by exists 0|].
      intros e He [r Hr]. rewrite Z.pow_succ_r by lia. exists (25 * r + 3). lia. }
    rewrite Hr, Ep' in Hc. lia.
Qed.

(** The recurrence with no perturbation, and its iterates. *)
Definition step5 (cap i : Z) : Z := (5 * i + 1) mod cap.
Definition iter5 (cap : Z) (n : nat) (i : Z) : Z := Nat.iter n (step5 cap) i.

Lemma iter5_closed (k n : nat) i :
  (2 ^ (Z.of_nat k + 2) | 4 * iter5 (2 ^ Z.of_nat k) n i + 1 - 5 ^ Z.of_nat n * (4 * i + 1)).
Proof.
  induction n as [|n [c Hc]]; [exists 0; cbn; lia|].
  change (iter5 (2 ^ Z.of_nat k) (S n) i) with (step5 (2 ^ Z.of_nat k) (iter5 (2 ^ Z.of_nat k) n i)).
  set (x := iter5 _ n i) in *. unfold step5.
  pose proof (Z.div_mod (5 * x + 1) (2 ^ Z.of_nat k) ltac:(apply Z.pow_nonzero; lia)) as Hd.
  set (q := (5 * x + 1) / 2 ^ Z.of_nat k) in *. set (r := (5 * x + 1) mod 2 ^ Z.of_nat k) in *.
  exists (5 * c - q). rewrite Nat2Z.inj_succ, Z.pow_succ_r by lia.
  assert (2 ^ (Z.of_nat k + 2) = 4 * 2 ^ Z.of_nat k) as Ep by (rewrite Z.pow_add_r by lia; lia).
  rewrite Ep in *. lia.
Qed.

Lemma iter5_inj (k m n : nat) i : (m <= n)%nat -> Z.of_nat n < 2 ^ Z.of_nat k ->
  iter5 (2 ^ Z.of_nat k) m i = iter5 (2 ^ Z.of_nat k) n i -> m = n.
Proof.
  intros Hmn Hn E. destruct (iter5_closed k m i) as [c1 H1]. destruct (iter5_closed k n i) as [c2 H2]. rewrite E in H1.
  assert (5 ^ Z.of_nat n = 5 ^ Z.of_nat m * 5 ^ Z.of_nat (n - m)) as E5 by (rewrite <-Z.pow_add_r by lia; f_equal; lia).
  assert ((2 ^ Z.of_nat k | Z.of_nat (n - m))) as [q Hq].
  { apply order_of_5; [lia|]. replace (Z.of_nat k + 2) with (Z.of_nat (k + 2)) in * by lia.
    apply (pow2_odd_div (k + 2) (5 ^ Z.of_nat m * (4 * i + 1))).
    - rewrite Z.odd_mul, pow5_odd by lia. apply Z.odd_spec. exists (2 * i). lia.
    - exists (c1 - c2). rewrite E5 in H2. lia. }
  set (P := 2 ^ Z.of_nat k) in *. assert (0 < P) by (apply Z.pow_pos_nonneg; lia).
  destruct (decide (q <= 0)); [assert (q * P <= 0) by nia; lia|assert (P <= q * P) by nia; lia].
Qed.

(** Within one period every slot is visited. *)
Lemma iter5_full_period (k : nat) i j : 0 <= i < 2 ^ Z.of_nat k -> 0 <= j < 2 ^ Z.of_nat k ->
  exists n, Z.of_nat n < 2 ^ Z.of_nat k /\ iter5 (2 ^ Z.of_nat k) n i = j.
Proof.
  intros Hi Hj. set (cap := 2 ^ Z.of_nat k) in *.
  set (orbit := (fun n => iter5 cap n i) <$> seq 0 (Z.to_nat cap)).
  set (slots := Z.of_nat <$> seq 0 (Z.to_nat cap)).
  assert (NoDup orbit) as Hnd.
  { apply NoDup_fmap_2_strong; [|apply NoDup_seq]. intros m n Hm%elem_of_seq Hn%elem_of_seq E.
    destruct (Nat.le_ge_cases m n); [|symmetry in E; symmetry]; eapply iter5_inj; try exact E; try done; fold cap; lia. }
  assert (orbit ⊆ slots) as Hsub.
  { intros x (n & -> & Hn)%list_elem_of_fmap. apply list_elem_of_fmap. exists (Z.to_nat (iter5 cap n i)).
    assert (0 <= iter5 cap n i < cap) as Hr.
    { destruct n; [done|]. change (iter5 cap (S n) i) with (step5 cap (iter5 cap n i)). apply Z.mod_pos_bound. lia. }
    split; [lia|]. apply elem_of_seq. lia. }
  assert (j ∈ orbit) as Hin.
  { assert (orbit ≡ₚ slots) as ->.
    { apply submseteq_length_Permutation; [by apply NoDup_submseteq|]. unfold orbit, slots. by rewrite !length_fmap. }
    apply list_elem_of_fmap. exists (Z.to_nat j). split; [lia|]. apply elem_of_seq. lia. }
  apply list_elem_of_fmap in Hin as (n & -> & Hn%elem_of_seq). exists n. split; [lia|done].
Qed.

(** ** The map *)

Section Map.
Context {K V : Type} `{EqDecision K}.
Variable hash : K -> Z.

Record Entry : Type := mkEntry { e_hash : Z; e_key : K; e_value : V; e_active : bool }.

Record hmap : Type := mkHmap {
  h_capacity : Z;
  h_indices : list Z;
  h_entries : list Entry;
  h_size : Z;
  h_collisions : Z;
  h_max_probe : Z
}.

(** [__init__]: the smallest power of two from 8 on that is large enough. *)
Fixpoint grow_capacity (fuel : nat) (capacity wanted : Z) : Z :=
  match fuel with
  | O => capacity
  | S f => if capacity <? wanted then grow_capacity f (Z.shiftl capacity 1) wanted else capacity
  end.
Definition hm_init (initial_capacity : Z) : hmap :=
  let capacity := grow_capacity (Z.to_nat (Z.log2_up initial_capacity)) INITIAL_CAPACITY initial_capacity in
  mkHmap capacity (replicate (Z.to_nat capacity) EMPTY) [] 0 0 0.

(** What the probe sees in a slot. *)
Inductive slot_view : Type := VEmpty | VDummy | VMatch (idx : Z) | VOther.
Definition view (indices : list Z) (entries : list Entry) (key : K) (hash_val i : Z) : option slot_view :=
  idx ← indices !! Z.to_nat i;
  if idx =? EMPTY then Some VEmpty
  else if idx =? DUMMY then Some VDummy
  else entry ← entries !! Z.to_nat idx;
       Some (if e_active entry && (e_hash entry =? hash_val) && bool_decide (e_key entry = key)
             then VMatch idx else VOther).

(** The [while True] loop of [_lookup]: slot, entry index, first tombstone, and
    the probe depth at the end. *)
Fixpoint lookup_loop (fuel : nat) (m : hmap) (key : K) (hash_val i perturb : Z) (first_dummy : option Z) (depth : Z)
  : option (Z * Z * option Z * Z) :=
  match fuel with
  | O => None
  | S f =>
      let mask := h_capacity m - 1 in
      match view (h_indices m) (h_entries m) key hash_val i with
      | None => None
      | Some VEmpty => Some (default i first_dummy, EMPTY, first_dummy, depth)
      | Some (VMatch idx) => Some (i, idx, first_dummy, depth)
      | Some v =>
          let first_dummy := match v, first_dummy with VDummy, None => Some i | _, _ => first_dummy end in
          lookup_loop f m key hash_val (next_slot mask i perturb) (Z.shiftr perturb 5) first_dummy (depth + 1)
      end
  end.

(** [_lookup]; each turn of the loop is one collision. *)
Definition hm_lookup (fuel : nat) (key : K) (hash_val : Z) (m : hmap) : option (Z * Z * option Z * hmap) :=
  '(slot, idx, fd, depth) ← lookup_loop fuel m key hash_val (Z.land hash_val (h_capacity m - 1)) hash_val None 0;
  Some (slot, idx, fd,
        mkHmap (h_capacity m) (h_indices m) (h_entries m) (h_size m) (h_collisions m + depth)
          (Z.max (h_max_probe m) depth)).

(** The probe of [_resize]: up to the first empty slot. *)
Fixpoint free_slot_loop (fuel : nat) (indices : list Z) (mask i perturb depth : Z) : option (Z * Z) :=
  match fuel with
  | O => None
  | S f =>
      idx ← indices !! Z.to_nat i;
      if idx =? EMPTY then Some (i, depth)
      else free_slot_loop f indices mask (next_slot mask i perturb) (Z.shiftr perturb 5) (depth + 1)
  end.

(** One entry re-indexed by [_resize]; inactive ones are dropped. *)
Definition reinsert (fuel : nat) (m : hmap) (entry : Entry) : option hmap :=
  if e_active entry then
    let mask := h_capacity m - 1 in
    '(i, depth) ← free_slot_loop fuel (h_indices m) mask (Z.land (e_hash entry) mask) (e_hash entry) 0;
    Some (mkHmap (h_capacity m) (<[Z.to_nat i := Z.of_nat (length (h_entries m))]> (h_indices m))
            (h_entries m ++ [entry]) (h_size m) (h_collisions m + depth) (Z.max (h_max_probe m) depth))
  else Some m.

Fixpoint reinsert_all (fuel : nat) (m : hmap) (es : list Entry) : option hmap :=
  match es with
  | [] => Some m
  | e :: es' => m' ← reinsert fuel m e; reinsert_all fuel m' es'
  end.

(** [_resize] *)
Definition hm_resize (fuel : nat) (new_capacity : Z) (m : hmap) : option hmap :=
  reinsert_all fuel
    (mkHmap new_capacity (replicate (Z.to_nat new_capacity) EMPTY) [] (h_size m) (h_collisions m) (h_max_probe m))
    (h_entries m).

Definition set_value (e : Entry) (v : V) : Entry := mkEntry (e_hash e) (e_key e) v (e_active e).
Definition deactivate (e : Entry) : Entry := mkEntry (e_hash e) (e_key e) (e_value e) false.

(** [__setitem__] *)
Definition hm_setitem (fuel : nat) (key : K) (value : V) (m : hmap) : option hmap :=
  let hash_val := hash key in
  '(slot, entry_idx, _, m) ← hm_lookup fuel key hash_val m;
  if negb (entry_idx =? EMPTY) then
    Some (mkHmap (h_capacity m) (h_indices m) (alter (fun e => set_value e value) (Z.to_nat entry_idx) (h_entries m))
            (h_size m) (h_collisions m) (h_max_probe m))
  else
    '(slot, m) ←
      (if h_capacity m * 2 <=? (Z.of_nat (length (h_entries m)) + 1) * 3 then
         m1 ← hm_resize fuel (h_capacity m * 2) m;
         '(slot, _, _, m2) ← hm_lookup fuel key hash_val m1;
         Some (slot, m2)
       else Some (slot, m));
    Some (mkHmap (h_capacity m) (<[Z.to_nat slot := Z.of_nat (length (h_entries m))]> (h_indices m))
            (h_entries m ++ [mkEntry hash_val key value true]) (h_size m + 1) (h_collisions m) (h_max_probe m)).

(** [__getitem__]: the inner [None] is [KeyError]. *)
Definition hm_getitem (fuel : nat) (key : K) (m : hmap) : option (option V * hmap) :=
  '(_, entry_idx, _, m) ← hm_lookup fuel key (hash key) m;
  if entry_idx =? EMPTY then Some (None, m)
  else e ← h_entries m !! Z.to_nat entry_idx; Some (Some (e_value e), m).

(** [__contains__] *)
Definition hm_contains (fuel : nat) (key : K) (m : hmap) : option (bool * hmap) :=
  '(_, entry_idx, _, m) ← hm_lookup fuel key (hash key) m;
  Some (negb (entry_idx =? EMPTY), m).

(** [get] *)
Definition hm_get (fuel : nat) (key : K) (dflt : option V) (m : hmap) : option (option V * hmap) :=
  '(r, m) ← hm_getitem fuel key m;
  Some (match r with Some v => Some v | None => dflt end, m).

(** [delete] *)
Definition hm_delete (fuel : nat) (key : K) (m : hmap) : option (bool * hmap) :=
  '(slot, entry_idx, _, m) ← hm_lookup fuel key (hash key) m;
  if entry_idx =? EMPTY then Some (false, m)
  else Some (true, mkHmap (h_capacity m) (<[Z.to_nat slot := DUMMY]> (h_indices m))
                     (alter deactivate (Z.to_nat entry_idx) (h_entries m)) (h_size m - 1) (h_collisions m) (h_max_probe m)).

(** [items], [keys], [values] *)
Definition hm_items (m : hmap) : list (K * V) :=
  (fun e => (e_key e, e_value e)) <$> filter (fun e => e_active e = true) (h_entries m).
Definition hm_keys (m : hmap) : list K := (hm_items m).*1.
Definition hm_values (m : hmap) : list V := (hm_items m).*2.

(** [clear] *)
Definition hm_clear (m : hmap) : hmap := mkHmap INITIAL_CAPACITY (replicate (Z.to_nat INITIAL_CAPACITY) EMPTY) [] 0 0 0.
End Map.
Arguments mkHmap {K V} _ _ _ _ _ _.
Arguments mkEntry {K V} _ _ _ _.
Arguments hmap : clear implicits.
Arguments Entry : clear implicits.

(** ** The probe sequence *)

Fixpoint probe (mask h : Z) (n : nat) : Z * Z :=
  match n with
  | O => (Z.land h mask, h)
  | S n' => let '(i, p) := probe mask h n' in (next_slot mask i p, Z.shiftr p 5)
  end.
Definition slot_at (cap h : Z) (n : nat) : Z := (probe (cap - 1) h n).1.

Definition pow2_cap (cap : Z) : Prop := exists k : nat, cap = 2 ^ Z.of_nat k.

Lemma land_mask k x : Z.land x (2 ^ Z.of_nat k - 1) = x mod 2 ^ Z.of_nat k.
Proof. rewrite <-Z.land_ones by lia. by rewrite Z.ones_equiv, Z.sub_1_r. Qed.

Lemma probe_perturb mask h n : (probe mask h n).2 = Z.shiftr h (5 * Z.of_nat n).
Proof.
  induction n as [|n IH]; [by rewrite Z.shiftr_0_r|]. cbn [probe]. destruct (probe mask h n) as [i p]. cbn in *.
  rewrite IH, Z.shiftr_shiftr by lia. f_equal. lia.
Qed.

Lemma slot_at_range cap h n : pow2_cap cap -> 0 <= slot_at cap h n < cap.
Proof.
  intros [k ->]. unfold slot_at. destruct n as [|n]; cbn [probe].
  - cbn. rewrite land_mask. apply Z.mod_pos_bound. apply Z.pow_pos_nonneg; lia.
  - destruct (probe _ h n) as [i p]. unfold next_slot. cbn. rewrite land_mask.
    apply Z.mod_pos_bound. apply Z.pow_pos_nonneg; lia.
Qed.

(** Once the perturbation is zero the sequence follows [step5]. *)
Lemma slot_at_tail cap h s n : pow2_cap cap -> Z.shiftr h (5 * Z.of_nat s) = 0 ->
  slot_at cap h (s + n) = iter5 cap n (slot_at cap h s).
Proof.
  intros [k ->] Hz. induction n as [|n IH]; [by rewrite Nat.add_0_r|]. rewrite Nat.add_succ_r.
  change (iter5 _ (S n) _) with (step5 (2 ^ Z.of_nat k) (iter5 (2 ^ Z.of_nat k) n (slot_at (2 ^ Z.of_nat k) h s))).
  rewrite <-IH. unfold slot_at. cbn [probe].
  pose proof (probe_perturb (2 ^ Z.of_nat k - 1) h (s + n)) as Hp. destruct (probe _ h (s + n)) as [i p]. cbn in *.
  assert (p = 0) as ->.
  { rewrite Hp. replace (5 * Z.of_nat (s + n)) with (5 * Z.of_nat s + 5 * Z.of_nat n) by lia.
    rewrite <-Z.shiftr_shiftr, Hz by lia. apply Z.shiftr_0_l. }
  unfold next_slot, step5. rewrite Z.add_0_r. apply land_mask.
Qed.

(** Fuel that is enough for a non-negative hash: the perturbation is used up
    after [log2 h / 5 + 1] turns, then one period visits every slot. *)
Definition probe_fuel (cap h : Z) : nat := Z.to_nat (Z.log2 h) + Z.to_nat cap + 2.

Lemma slot_at_hits cap h j : pow2_cap cap -> 0 <= h -> 0 <= j < cap ->
  exists n, (n + 2 <= probe_fuel cap h)%nat /\ slot_at cap h n = j.
Proof.
  intros Hc Hh Hj. set (s := S (Z.to_nat (Z.log2 h))).
  assert (Z.shiftr h (5 * Z.of_nat s) = 0) as Hz.
  { apply Z.shiftr_eq_0; [done|]. pose proof (Z.log2_nonneg h). lia. }
  pose proof (slot_at_range cap h s Hc) as Hr. destruct Hc as [k Ek].
  destruct (iter5_full_period k (slot_at cap h s) j) as (n & Hn & E); [by rewrite <-Ek|by rewrite <-Ek|].
  exists (s + n)%nat. rewrite <-Ek in *. split.
  - unfold probe_fuel. pose proof (Z.log2_nonneg h). lia.
  - rewrite slot_at_tail; [done|by exists k|done].
Qed.

Section Proofs.
Context {K V : Type} `{EqDecision K}.
Variable hash : K -> Z.
Implicit Types (m : hmap K V) (e : Entry K V).

(** [slot] holds [v] and the probe of [h] reaches it over non-empty slots. *)
Definition chained (cap : Z) (indices : list Z) (h : Z) (slot v : Z) : Prop :=
  indices !! Z.to_nat slot = Some v /\
  exists n, slot = slot_at cap h n /\
    forall n', (n' < n)%nat -> indices !! Z.to_nat (slot_at cap h n') <> Some EMPTY.

Definition nonempty (indices : list Z) : nat := length (filter (fun v => v <> EMPTY) indices).

(** Representation invariant. *)
Record wf m : Prop := {
  wf_cap : pow2_cap (h_capacity m) /\ 8 <= h_capacity m;
  wf_len : Z.of_nat (length (h_indices m)) = h_capacity m;
  wf_idx i v : h_indices m !! i = Some v ->
    v = EMPTY \/ v = DUMMY \/ 0 <= v /\ exists e, h_entries m !! Z.to_nat v = Some e /\ e_active e = true;
  wf_inj i i' v : 0 <= v -> h_indices m !! i = Some v -> h_indices m !! i' = Some v -> i = i';
  wf_chain j e : h_entries m !! j = Some e -> e_active e = true ->
    e_hash e = hash (e_key e) /\ 0 <= e_hash e /\
    exists slot, chained (h_capacity m) (h_indices m) (e_hash e) slot (Z.of_nat j);
  wf_uniq j j' e e' : h_entries m !! j = Some e -> h_entries m !! j' = Some e' ->
    e_active e = true -> e_active e' = true -> e_key e = e_key e' -> j = j';
  wf_nonempty : (nonempty (h_indices m) <= length (h_entries m))%nat;
  wf_load : 3 * Z.of_nat (length (h_entries m)) < 2 * h_capacity m
}.

(** A table that is not full has an empty slot on every probe sequence. *)
Lemma empty_reached cap indices h : pow2_cap cap -> Z.of_nat (length indices) = cap -> 0 <= h ->
  Z.of_nat (nonempty indices) < cap ->
  exists n, (n + 2 <= probe_fuel cap h)%nat /\ indices !! Z.to_nat (slot_at cap h n) = Some EMPTY.
Proof.
  intros Hc Hlen Hh Hne.
  assert (exists j : nat, indices !! j = Some EMPTY) as (j & Hj).
  { apply list_elem_of_lookup. destruct (decide (EMPTY ∈ indices)) as [|Hn]; [done|exfalso].
    assert (nonempty indices = length indices); [|lia]. unfold nonempty. clear -Hn. induction indices as [|v l IH]; [done|].
    rewrite filter_cons. apply not_elem_of_cons in Hn as [Hv Hn]. rewrite decide_True by done. cbn. by rewrite IH. }
  destruct (slot_at_hits cap h (Z.of_nat j) Hc Hh) as (n & Hn & E).
  { apply lookup_lt_Some in Hj. lia. }
  exists n. split; [done|]. by rewrite E, Nat2Z.id.
Qed.

(** What [_lookup] returns. *)
Definition lookup_result m key h (r : Z * Z * option Z * Z) : Prop :=
  let '(slot, idx, _, _) := r in
  (exists j e, idx = Z.of_nat j /\ h_entries m !! j = Some e /\ e_active e = true /\ e_hash e = h /\ e_key e = key /\
     h_indices m !! Z.to_nat slot = Some idx /\ 0 <= slot) \/
  (idx = EMPTY /\ (forall j e, h_entries m !! j = Some e -> e_active e = true -> e_hash e = h -> e_key e <> key) /\
   exists v, (v = EMPTY \/ v = DUMMY) /\ chained (h_capacity m) (h_indices m) h slot v).

Lemma view_cases m key h i : wf m -> 0 <= i < h_capacity m ->
  exists v, h_indices m !! Z.to_nat i = Some v /\
  match view (h_indices m) (h_entries m) key h i with
  | None => False
  | Some VEmpty => v = EMPTY
  | Some VDummy => v = DUMMY
  | Some (VMatch idx) => v = idx /\ 0 <= idx /\ exists e, h_entries m !! Z.to_nat idx = Some e /\ e_active e = true /\
                         e_hash e = h /\ e_key e = key
  | Some VOther => 0 <= v /\ forall e, h_entries m !! Z.to_nat v = Some e -> e_active e = true -> e_hash e = h -> e_key e <> key
  end.
Proof.
  intros Hwf Hi. destruct (lookup_lt_is_Some_2 (h_indices m) (Z.to_nat i)) as [v Hv].
  { pose proof (wf_len m Hwf). lia. }
  exists v. split; [done|]. unfold view. rewrite Hv. simpl.
  destruct (wf_idx m Hwf _ _ Hv) as [->|[->|(H0 & e & He & Ha)]]; [done|done|].
  destruct (Z.eqb_spec v EMPTY); [unfold EMPTY in *; lia|]. destruct (Z.eqb_spec v DUMMY); [unfold DUMMY in *; lia|].
  rewrite He. simpl. rewrite Ha. cbn [andb]. destruct (Z.eqb_spec (e_hash e) h); cbn [andb].
  - case_bool_decide; [by eauto 10|]. split; [done|]. intros e' He'. by simplify_eq.
  - split; [done|]. intros e' He'. by simplify_eq.
Qed.

Lemma lookup_loop_spec m key h fuel n fd depth :
  wf m -> 0 <= h ->
  (forall n', (n' < n)%nat -> h_indices m !! Z.to_nat (slot_at (h_capacity m) h n') <> Some EMPTY) ->
  (forall n' j e, (n' < n)%nat -> h_indices m !! Z.to_nat (slot_at (h_capacity m) h n') = Some (Z.of_nat j) ->
     h_entries m !! j = Some e -> e_active e = true -> e_hash e = h -> e_key e <> key) ->
  (forall d, fd = Some d -> chained (h_capacity m) (h_indices m) h d DUMMY) ->
  (exists n0, (n <= n0)%nat /\ (n0 - n < fuel)%nat /\
     h_indices m !! Z.to_nat (slot_at (h_capacity m) h n0) = Some EMPTY) ->
  exists r, lookup_loop fuel m key h (slot_at (h_capacity m) h n) (Z.shiftr h (5 * Z.of_nat n)) fd depth = Some r /\
    lookup_result m key h r.
Proof.
  intros Hwf Hh. revert n fd depth. induction fuel as [|fuel IH]; intros n fd depth Hne Hnm Hfd (n0 & Hn0 & Hf & He0); [lia|].
  cbn [lookup_loop]. set (i := slot_at (h_capacity m) h n) in *.
  destruct (view_cases m key h i Hwf) as (v & Hv & Hview); [apply slot_at_range, Hwf|].
  assert (chained (h_capacity m) (h_indices m) h i v) as Hch by (split; [done|]; by exists n).
  assert (Hnext : forall fd', (forall d, fd' = Some d -> chained (h_capacity m) (h_indices m) h d DUMMY) -> v <> EMPTY ->
    (forall j e, v = Z.of_nat j -> h_entries m !! j = Some e -> e_active e = true -> e_hash e = h -> e_key e <> key) ->
    exists r, lookup_loop fuel m key h (next_slot (h_capacity m - 1) i (Z.shiftr h (5 * Z.of_nat n)))
      (Z.shiftr (Z.shiftr h (5 * Z.of_nat n)) 5) fd' (depth + 1) = Some r /\ lookup_result m key h r).
  { intros fd' Hfd' Hve Hvm.
    assert (next_slot (h_capacity m - 1) i (Z.shiftr h (5 * Z.of_nat n)) = slot_at (h_capacity m) h (S n)) as ->.
    { unfold slot_at, i. cbn [probe]. unfold slot_at. pose proof (probe_perturb (h_capacity m - 1) h n) as Hp.
      destruct (probe _ h n) as [i' p']. cbn in *. by rewrite Hp. }
    rewrite Z.shiftr_shiftr by lia. replace (5 * Z.of_nat n + 5) with (5 * Z.of_nat (S n)) by lia.
    apply IH; [| |done|].
    - intros n' Hn'. destruct (decide (n' = n)) as [->|]; [fold i; congruence|apply Hne; lia].
    - intros n' j e Hn' Hj. destruct (decide (n' = n)) as [->|]; [fold i in Hj; apply Hvm; congruence|].
      apply (Hnm n'); [lia|done].
    - exists n0. assert (n0 <> n) by (intros ->; fold i in He0; congruence). split; [lia|]. split; [lia|done]. }
  destruct (view (h_indices m) (h_entries m) key h i) as [[| |idx|]|] eqn:Ev; [| | | |done].
  - subst v. eexists. split; [done|]. right. split; [done|]. split.
    { intros j e Hj Ha Hhash Hk. destruct (wf_chain m Hwf j e Hj Ha) as (_ & _ & s & Hs & n1 & Es & Hn1).
      rewrite Hhash in Es, Hn1. destruct (Nat.lt_trichotomy n1 n) as [Hlt|[->|Hgt]].
      - apply (Hnm n1 j e Hlt); congruence.
      - fold i in Es. rewrite Es, Hv in Hs. injection Hs as Hs. unfold EMPTY in Hs. lia.
      - by apply (Hn1 n Hgt). }
    destruct fd as [d|]; cbn; [exists DUMMY; split; [by right|by apply Hfd]|exists EMPTY; by split; [left|]].
  - subst v. apply Hnext; [|done|unfold DUMMY; intros; lia]. destruct fd as [d|]; [done|]. by intros d [= <-].
  - destruct Hview as (-> & H0 & e & He & Ha & Hh' & Hk). eexists. split; [done|]. left.
    exists (Z.to_nat idx), e. rewrite Z2Nat.id by done. pose proof (slot_at_range (h_capacity m) h n (proj1 (wf_cap m Hwf))) as Hr.
    fold i in Hr. do 6 (split; [done|]). apply Hr.
  - destruct Hview as [H0 Hvo]. apply Hnext; [done|unfold EMPTY; lia|].
    intros j e -> Hj. apply Hvo. by rewrite Nat2Z.id.
Qed.

(** [m'] differs from [m] in its telemetry only. *)
Definition same_table m m' : Prop :=
  h_capacity m' = h_capacity m /\ h_indices m' = h_indices m /\ h_entries m' = h_entries m /\ h_size m' = h_size m.

Lemma wf_same_table m m' : same_table m m' -> wf m -> wf m'.
Proof.
  intros (E1 & E2 & E3 & _) []. split; rewrite ?E1, ?E2, ?E3; done.
Qed.

Lemma hm_lookup_spec m key h fuel : wf m -> 0 <= h -> (probe_fuel (h_capacity m) h <= fuel)%nat ->
  exists slot idx fd depth m', hm_lookup fuel key h m = Some (slot, idx, fd, m') /\ same_table m m' /\
    lookup_result m key h (slot, idx, fd, depth).
Proof.
  intros Hwf Hh Hfuel. unfold hm_lookup.
  destruct (empty_reached (h_capacity m) (h_indices m) h) as (n & Hn & He); [apply Hwf|apply Hwf|done| |].
  { pose proof (wf_nonempty m Hwf). pose proof (wf_load m Hwf). pose proof (proj2 (wf_cap m Hwf)). lia. }
  destruct (lookup_loop_spec m key h fuel 0 None 0 Hwf Hh) as ([[[slot idx] fd] depth] & Hr & Hres); try (intros; done || lia).
  { exists n. split; [lia|]. split; [lia|done]. }
  unfold slot_at in Hr. cbn [probe fst] in Hr. rewrite Z.mul_0_r, Z.shiftr_0_r in Hr. rewrite Hr. simpl.
  by eexists slot, idx, fd, depth, _.
Qed.

Lemma free_slot_spec indices cap h fuel : pow2_cap cap -> Z.of_nat (length indices) = cap -> 0 <= h ->
  Z.of_nat (nonempty indices) < cap -> (probe_fuel cap h <= fuel)%nat ->
  exists slot depth, free_slot_loop fuel indices (cap - 1) (Z.land h (cap - 1)) h 0 = Some (slot, depth) /\
    chained cap indices h slot EMPTY.
Proof.
  intros Hc Hlen Hh Hne Hfuel. destruct (empty_reached cap indices h Hc Hlen Hh Hne) as (n0 & Hn0 & He0).
  assert (forall fuel n depth, (n <= n0)%nat -> (n0 - n < fuel)%nat ->
    (forall n', (n' < n)%nat -> indices !! Z.to_nat (slot_at cap h n') <> Some EMPTY) ->
    exists slot depth', free_slot_loop fuel indices (cap - 1) (slot_at cap h n) (Z.shiftr h (5 * Z.of_nat n)) depth
      = Some (slot, depth') /\ chained cap indices h slot EMPTY) as Hloop.
  { clear Hfuel fuel. induction fuel as [|fuel IH]; intros n depth Hle Hf Hch; [lia|]. cbn [free_slot_loop].
    destruct (lookup_lt_is_Some_2 indices (Z.to_nat (slot_at cap h n))) as [v Hv].
    { pose proof (slot_at_range cap h n Hc). lia. }
    rewrite Hv. simpl. destruct (Z.eqb_spec v EMPTY) as [->|Hve].
    { eexists _, _. split; [done|]. split; [done|]. by exists n. }
    assert (next_slot (cap - 1) (slot_at cap h n) (Z.shiftr h (5 * Z.of_nat n)) = slot_at cap h (S n)) as ->.
    { unfold slot_at. cbn [probe]. pose proof (probe_perturb (cap - 1) h n) as Hp.
      destruct (probe _ h n) as [i' p']. cbn in *. by rewrite Hp. }
    rewrite Z.shiftr_shiftr by lia. replace (5 * Z.of_nat n + 5) with (5 * Z.of_nat (S n)) by lia.
    assert (n <> n0) by (intros ->; congruence). apply IH; [lia|lia|].
    intros n' Hn'. destruct (decide (n' = n)) as [->|]; [congruence|apply Hch; lia]. }
  destruct (Hloop fuel 0%nat 0) as (slot & d & H1 & H2); [lia|lia|intros; lia|].
  unfold slot_at in H1. cbn [probe fst] in H1. rewrite Z.mul_0_r, Z.shiftr_0_r in H1. eauto.
Qed.

(** ** Counting non-empty slots *)

Lemma nonempty_app l1 l2 : nonempty (l1 ++ l2) = (nonempty l1 + nonempty l2)%nat.
Proof. unfold nonempty. by rewrite filter_app, length_app. Qed.
Lemma nonempty_cons v l : nonempty (v :: l) = ((if decide (v = EMPTY) then 0 else 1) + nonempty l)%nat.
Proof. unfold nonempty. rewrite filter_cons. by repeat case_decide. Qed.

Lemma nonempty_insert i v l u : l !! i = Some u ->
  (nonempty (<[i := v]> l) <= nonempty l + if decide (u = EMPTY) then 1 else 0)%nat.
Proof.
  intros Hu. rewrite insert_take_drop by (by eapply lookup_lt_Some).
  rewrite <-(take_drop_middle l i u Hu) at 3. rewrite !nonempty_app, !nonempty_cons. repeat case_decide; lia.
Qed.

Lemma nonempty_replicate n : nonempty (replicate n EMPTY) = 0%nat.
Proof. induction n as [|n IH]; [done|]. cbn [replicate]. by rewrite nonempty_cons, IH. Qed.

(** ** Insertion keeps the invariant *)

Definition put m slot e : hmap K V :=
  mkHmap (h_capacity m) (<[Z.to_nat slot := Z.of_nat (length (h_entries m))]> (h_indices m))
    (h_entries m ++ [e]) (h_size m) (h_collisions m) (h_max_probe m).

Lemma lookup_snoc_cases {A} (l : list A) x j y : (l ++ [x]) !! j = Some y -> l !! j = Some y \/ j = length l /\ y = x.
Proof.
  intros H. destruct (decide (j < length l)%nat) as [Hj|Hj]; [left; by rewrite lookup_app_l in H|right].
  rewrite lookup_app_r in H by lia. destruct (j - length l)%nat eqn:E; [|done]. cbn in H. split; [lia|congruence].
Qed.

Lemma put_wf m slot e v : wf m -> e_active e = true -> e_hash e = hash (e_key e) -> 0 <= e_hash e ->
  (forall j e', h_entries m !! j = Some e' -> e_active e' = true -> e_key e' <> e_key e) ->
  v = EMPTY \/ v = DUMMY -> chained (h_capacity m) (h_indices m) (e_hash e) slot v ->
  3 * (Z.of_nat (length (h_entries m)) + 1) < 2 * h_capacity m ->
  wf (put m slot e).
Proof.
  intros Hwf Ha Hh H0 Hnew Hv (Hs & n & Hn & Hpre) Hload. set (J := length (h_entries m)).
  assert (Z.to_nat slot < length (h_indices m))%nat as Hlt by (by eapply lookup_lt_Some).
  assert (forall v', h_indices m !! Z.to_nat slot = Some v' -> ~ 0 <= v') as Hneg.
  { intros v' Hv'. unfold EMPTY, DUMMY in Hv. destruct Hv; simplify_eq; lia. }
  destruct Hwf as [W1 W2 W3 W4 W5 W6 W7 W8]. split; cbn [put h_capacity h_indices h_entries]; fold J; try done.
  - by rewrite length_insert.
  - intros i w Hi. destruct (decide (i = Z.to_nat slot)) as [->|Hne].
    + rewrite list_lookup_insert_eq in Hi by done. injection Hi as <-. right. right. split; [lia|].
      exists e. rewrite Nat2Z.id. split; [by rewrite lookup_app_r, Nat.sub_diag|done].
    + rewrite list_lookup_insert_ne in Hi by done. destruct (W3 _ _ Hi) as [?|[?|(? & e' & He' & ?)]]; [auto|auto|].
      right. right. split; [done|]. exists e'. split; [|done]. by apply lookup_app_l_Some.
  - intros i i' w Hw Hi Hi'.
    assert (forall i, i <> Z.to_nat slot -> <[Z.to_nat slot := Z.of_nat J]> (h_indices m) !! i = Some w -> w <> Z.of_nat J) as Hnj.
    { intros i0 Hi0 E ->. rewrite list_lookup_insert_ne in E by done.
      destruct (W3 _ _ E) as [E'|[E'|(_ & e' & He' & _)]]; [unfold EMPTY in E'; lia|unfold DUMMY in E'; lia|].
      rewrite Nat2Z.id in He'. apply lookup_lt_Some in He'. unfold J in He'. lia. }
    destruct (decide (i = Z.to_nat slot)) as [->|Hne], (decide (i' = Z.to_nat slot)) as [->|Hne']; try done.
    + rewrite list_lookup_insert_eq in Hi by done. injection Hi as <-. by destruct (Hnj i' Hne' Hi').
    + rewrite list_lookup_insert_eq in Hi' by done. injection Hi' as <-. by destruct (Hnj i Hne Hi).
    + rewrite list_lookup_insert_ne in Hi, Hi' by done. by eapply W4.
  - assert (forall s, h_indices m !! Z.to_nat s <> Some EMPTY ->
      <[Z.to_nat slot := Z.of_nat J]> (h_indices m) !! Z.to_nat s <> Some EMPTY) as Hkeep.
    { intros s Hse. destruct (decide (Z.to_nat s = Z.to_nat slot)) as [->|Hne];
        [rewrite list_lookup_insert_eq by done|by rewrite list_lookup_insert_ne].
      intros E. injection E as E. unfold EMPTY in E. lia. }
    intros j e' He' Ha'. apply lookup_snoc_cases in He' as [He'|[-> ->]].
    + destruct (W5 j e' He' Ha') as (? & ? & s & Hs' & n' & Hn' & Hpre'). split; [done|]. split; [done|].
      exists s. split; [|exists n'; split; [done|]; auto]. rewrite list_lookup_insert_ne; [done|].
      intros E. rewrite <-E in Hs'. apply (Hneg _ Hs'). lia.
    + split; [done|]. split; [done|]. exists slot. split; [by rewrite list_lookup_insert_eq|]. exists n. auto.
  - intros j j' e1 e2 H1 H2 Ha1 Ha2 Hk. apply lookup_snoc_cases in H1 as [H1|[-> ->]], H2 as [H2|[-> ->]]; try done.
    + by eapply W6.
    + by destruct (Hnew j e1).
    + by destruct (Hnew j' e2).
  - subst J. rewrite length_app. cbn [length].
    pose proof (nonempty_insert _ (Z.of_nat (length (h_entries m))) _ _ Hs). case_decide; lia.
  - rewrite length_app. cbn [length]. lia.
Qed.

(** ** The abstract dictionary *)

Definition live (es : list (Entry K V)) : list (K * V) :=
  (fun e => (e_key e, e_value e)) <$> filter (fun e => e_active e = true) es.

(** Active entries have distinct keys. *)
Definition uniq (es : list (Entry K V)) : Prop :=
  forall j j' e e', es !! j = Some e -> es !! j' = Some e' ->
    e_active e = true -> e_active e' = true -> e_key e = e_key e' -> j = j'.

Lemma uniq_tail e es : uniq (e :: es) -> uniq es.
Proof. intros H j j' e1 e2 H1 H2 A1 A2 Hk. by specialize (H (S j) (S j') e1 e2 H1 H2 A1 A2 Hk) as [=]. Qed.

Lemma live_cons e es : live (e :: es) = (if e_active e then [(e_key e, e_value e)] else []) ++ live es.
Proof. unfold live. rewrite filter_cons. by destruct (e_active e). Qed.
Lemma live_app es1 es2 : live (es1 ++ es2) = live es1 ++ live es2.
Proof. unfold live. by rewrite filter_app, fmap_app. Qed.

Lemma live_keys es k : k ∈ (live es).*1 <-> exists j e, es !! j = Some e /\ e_active e = true /\ e_key e = k.
Proof.
  unfold live. rewrite <-list_fmap_compose, list_elem_of_fmap. cbn. split.
  - intros (e & -> & [Ha Hin]%list_elem_of_filter). apply list_elem_of_lookup in Hin as [j Hj]. eauto.
  - intros (j & e & Hj & Ha & <-). exists e. split; [done|]. apply list_elem_of_filter. split; [done|].
    by eapply list_elem_of_lookup_2.
Qed.

Lemma live_NoDup es : uniq es -> NoDup (live es).*1.
Proof.
  induction es as [|e es IH]; intros Hu; [constructor|]. rewrite live_cons, fmap_app. pose proof (uniq_tail _ _ Hu) as Hu'.
  destruct (e_active e) eqn:Ha; [|by apply IH]. cbn. apply NoDup_cons. split; [|by apply IH].
  rewrite live_keys. intros (j & e' & Hj & Ha' & Hk). by specialize (Hu 0%nat (S j) e e' eq_refl Hj Ha Ha' (eq_sym Hk)).
Qed.

Lemma live_get es j e : uniq es -> es !! j = Some e -> e_active e = true -> dict_get (live es) (e_key e) = Some (e_value e).
Proof.
  intros Hu Hj Ha. apply dict_elem_get; [by apply live_NoDup|]. unfold live. apply list_elem_of_fmap. exists e.
  split; [done|]. apply list_elem_of_filter. split; [done|]. by eapply list_elem_of_lookup_2.
Qed.

Lemma live_alter_set es j e v : uniq es -> es !! j = Some e -> e_active e = true ->
  live (alter (fun e => set_value e v) j es) = dict_set (live es) (e_key e) v.
Proof.
  revert j. induction es as [|e0 es IH]; intros j Hu Hj Ha; [done|]. destruct j as [|j].
  - injection Hj as ->. cbn [alter list_alter]. rewrite !live_cons. cbn. rewrite Ha. cbn. by rewrite decide_True.
  - cbn in Hj. change (alter _ (S j) (e0 :: es)) with (e0 :: alter (fun e => set_value e v) j es).
    rewrite !live_cons, (IH j) by (done || by eapply uniq_tail). destruct (e_active e0) eqn:Ha0; [|done]. cbn.
    rewrite decide_False; [done|]. intros Hk. by specialize (Hu 0%nat (S j) e0 e eq_refl Hj Ha0 Ha Hk).
Qed.

Lemma live_alter_del es j e : uniq es -> es !! j = Some e -> e_active e = true ->
  live (alter deactivate j es) = dict_del (live es) (e_key e).
Proof.
  revert j. induction es as [|e0 es IH]; intros j Hu Hj Ha; [done|]. destruct j as [|j].
  - injection Hj as ->. cbn [alter list_alter]. rewrite !live_cons. cbn. rewrite Ha. cbn. by rewrite decide_True.
  - cbn in Hj. change (alter _ (S j) (e0 :: es)) with (e0 :: alter deactivate j es).
    rewrite !live_cons, (IH j) by (done || by eapply uniq_tail). destruct (e_active e0) eqn:Ha0; [|done]. cbn.
    rewrite decide_False; [done|]. intros Hk. by specialize (Hu 0%nat (S j) e0 e eq_refl Hj Ha0 Ha Hk).
Qed.

(** ** Resize *)

Lemma init_table_wf cap sz c p : pow2_cap cap -> 8 <= cap ->
  wf (mkHmap cap (replicate (Z.to_nat cap) EMPTY) [] sz c p).
Proof.
  intros Hc H8. split; cbn [h_capacity h_indices h_entries]; try done.
  - rewrite length_replicate. lia.
  - intros i v Hi%lookup_replicate. left. apply Hi.
  - intros i i' v Hv [-> _]%lookup_replicate. done.
  - by rewrite nonempty_replicate.
  - cbn. lia.
Qed.

Lemma reinsert_all_spec fuel es m :
  wf m -> (forall e, e ∈ es -> e_active e = true -> e_hash e = hash (e_key e) /\ 0 <= e_hash e /\
             (probe_fuel (h_capacity m) (e_hash e) <= fuel)%nat) ->
  uniq es -> (forall k, k ∈ (live (h_entries m)).*1 -> k ∉ (live es).*1) ->
  3 * (Z.of_nat (length (h_entries m)) + Z.of_nat (length es)) < 2 * h_capacity m ->
  exists m', reinsert_all fuel m es = Some m' /\ wf m' /\ h_capacity m' = h_capacity m /\ h_size m' = h_size m /\
    live (h_entries m') = live (h_entries m) ++ live es /\
    (length (h_entries m') <= length (h_entries m) + length es)%nat.
Proof.
  revert m. induction es as [|e es IH]; intros m Hwf Hes Hu Hdisj Hload.
  { exists m. rewrite app_nil_r. split; [done|]. split; [done|]. do 3 (split; [done|]). cbn. lia. }
  cbn [reinsert_all]. unfold reinsert. rewrite live_cons in Hdisj |- *. cbn [length] in Hload |- *.
  assert (forall e', e' ∈ es -> e_active e' = true -> e_hash e' = hash (e_key e') /\ 0 <= e_hash e' /\
    (probe_fuel (h_capacity m) (e_hash e') <= fuel)%nat) as Hes' by (intros e' He'; apply Hes; by right).
  destruct (e_active e) eqn:Ha.
  - destruct (Hes e ltac:(left) Ha) as (Hh & H0 & Hf).
    destruct (free_slot_spec (h_indices m) (h_capacity m) (e_hash e) fuel) as (slot & depth & Hfs & Hch);
      [apply Hwf|apply Hwf|done| |done|].
    { pose proof (wf_nonempty m Hwf). pose proof (wf_cap m Hwf). lia. }
    rewrite Hfs. simpl. set (m1 := mkHmap _ _ _ _ _ _).
    assert (wf m1) as Hput.
    { apply (wf_same_table (put m slot e)); [done|]. apply (put_wf m slot e EMPTY); try done; [|by left|lia]. intros j e' Hj Ha' Hk.
      apply (Hdisj (e_key e')); [apply live_keys; eauto|]. rewrite fmap_app, Hk. set_solver. }
    destruct (IH m1) as (m' & R & W & C & S' & Hl & Hlen); try done.
    { by eapply uniq_tail. }
    { cbn [m1 h_entries]. rewrite live_app, live_cons, Ha, fmap_app. cbn. intros k Hk.
      apply elem_of_app in Hk as [Hk|Hk].
      - specialize (Hdisj k Hk). set_solver.
      - apply list_elem_of_singleton in Hk as ->. rewrite live_keys. intros (j & e' & Hj & Ha' & Hk').
        by specialize (Hu 0%nat (S j) e e' eq_refl Hj Ha Ha' (eq_sym Hk')). }
    { cbn [m1 h_entries h_capacity]. rewrite length_app. cbn [length]. lia. }
    exists m'. do 4 (split; [done|]). split.
    + rewrite Hl. cbn [m1 h_entries]. rewrite live_app, live_cons, Ha. cbn. by rewrite <-app_assoc.
    + cbn [m1 h_entries] in Hlen. rewrite length_app in Hlen. cbn [length] in Hlen. lia.
  - simpl. destruct (IH m Hwf Hes') as (m' & ? & ? & ? & ? & ? & ?); try done; [by eapply uniq_tail|lia|].
    exists m'. do 5 (split; [done|]). lia.
Qed.

(** ** Operations *)

(** The invariant with the size. *)
Definition hm_ok m : Prop := wf m /\ h_size m = Z.of_nat (length (hm_items m)).

Lemma hm_ok_same m m' : same_table m m' -> hm_ok m -> hm_ok m' /\ hm_items m' = hm_items m.
Proof.
  intros Hs [Hwf Hsz]. assert (hm_items m' = hm_items m) as E by (unfold hm_items; by destruct Hs as (_ & _ & -> & _)).
  split; [|done]. split; [by eapply wf_same_table|]. rewrite E. destruct Hs as (_ & _ & _ & ->). done.
Qed.

(** Fuel that is enough for an operation on [key], resize included. *)
Definition enough_fuel m key fuel : Prop :=
  (probe_fuel (h_capacity m) (hash key) <= fuel)%nat /\ (probe_fuel (2 * h_capacity m) (hash key) <= fuel)%nat /\
  forall e, e ∈ h_entries m -> (probe_fuel (2 * h_capacity m) (e_hash e) <= fuel)%nat.

Lemma enough_fuel_exists m key : exists F, forall fuel, (F <= fuel)%nat -> enough_fuel m key fuel.
Proof.
  assert (exists F, forall e, e ∈ h_entries m -> (probe_fuel (2 * h_capacity m) (e_hash e) <= F)%nat) as [F HF].
  { induction (h_entries m) as [|e es [F HF]]; [exists 0%nat; intros e []%elem_of_nil|].
    exists (F + probe_fuel (2 * h_capacity m) (e_hash e))%nat. intros e' [->|He']%elem_of_cons; [lia|].
    specialize (HF e' He'). lia. }
  exists (probe_fuel (h_capacity m) (hash key) + probe_fuel (2 * h_capacity m) (hash key) + F)%nat.
  intros fuel Hf. split; [lia|]. split; [lia|]. intros e He. specialize (HF e He). lia.
Qed.

(** Looking a key up tells whether it is live, and where. *)
Lemma hm_find m key fuel : hm_ok m -> 0 <= hash key -> enough_fuel m key fuel ->
  exists slot idx fd m', hm_lookup fuel key (hash key) m = Some (slot, idx, fd, m') /\ same_table m m' /\
  match dict_get (hm_items m) key with
  | Some v => exists j e, idx = Z.of_nat j /\ h_entries m !! j = Some e /\ e_active e = true /\ e_key e = key /\
                e_value e = v /\ h_indices m !! Z.to_nat slot = Some idx
  | None => idx = EMPTY /\ (forall j e, h_entries m !! j = Some e -> e_active e = true -> e_key e <> key) /\
            exists v, (v = EMPTY \/ v = DUMMY) /\ chained (h_capacity m) (h_indices m) (hash key) slot v
  end.
Proof.
  intros [Hwf _] Hh (Hf & _ & _).
  destruct (hm_lookup_spec m key (hash key) fuel Hwf Hh Hf) as (slot & idx & fd & depth & m' & R & Hs & Hr).
  exists slot, idx, fd, m'. split; [done|]. split; [done|].
  destruct Hr as [(j & e & -> & Hj & Ha & _ & <- & Hi & _)|(-> & Hno & Hch)].
  - unfold hm_items. fold (live (h_entries m)). rewrite (live_get _ j e) by (done || exact (wf_uniq m Hwf)). by eauto 10.
  - assert (forall j e, h_entries m !! j = Some e -> e_active e = true -> e_key e <> key) as Hno'.
    { intros j e Hj Ha Hk. destruct (wf_chain m Hwf j e Hj Ha) as (Hhe & _). apply (Hno j e Hj Ha); congruence. }
    rewrite (proj2 (dict_get_None (hm_items m) key)); [done|].
    unfold hm_items. fold (live (h_entries m)). rewrite live_keys. intros (j & e & Hj & Ha & Hk). by apply (Hno' j e).
Qed.

Lemma hm_resize_spec m key fuel : hm_ok m -> enough_fuel m key fuel ->
  exists m', hm_resize fuel (2 * h_capacity m) m = Some m' /\ hm_ok m' /\ hm_items m' = hm_items m /\
    h_capacity m' = 2 * h_capacity m /\ 3 * Z.of_nat (length (h_entries m')) < 2 * h_capacity m.
Proof.
  intros [Hwf Hsz] (_ & _ & Hf). unfold hm_resize. pose proof (wf_cap m Hwf) as [[k Hk] H8]. pose proof (wf_load m Hwf) as Hl.
  destruct (reinsert_all_spec fuel (h_entries m)
    (mkHmap (2 * h_capacity m) (replicate (Z.to_nat (2 * h_capacity m)) EMPTY) [] (h_size m) (h_collisions m) (h_max_probe m)))
    as (m' & R & W & C & S' & Hlive & Hlen); cbn [h_capacity h_entries].
  - apply init_table_wf; [|lia]. exists (S k). rewrite Hk, Nat2Z.inj_succ, Z.pow_succ_r by lia. done.
  - intros e He Ha. apply list_elem_of_lookup in He as [j Hj]. destruct (wf_chain m Hwf j e Hj Ha) as (? & ? & _).
    split; [done|]. split; [done|]. apply Hf. by eapply list_elem_of_lookup_2.
  - exact (wf_uniq m Hwf).
  - intros k0 []%elem_of_nil.
  - cbn. lia.
  - cbn in Hlen. exists m'. split; [done|]. assert (hm_items m' = hm_items m) as E.
    { unfold hm_items. fold (live (h_entries m')) (live (h_entries m)). by rewrite Hlive. }
    split; [split; [done|]; by rewrite S', E|]. split; [done|]. split; [done|lia].
Qed.

Lemma put_ok m slot e v : hm_ok m -> e_active e = true -> e_hash e = hash (e_key e) -> 0 <= e_hash e ->
  (forall j e', h_entries m !! j = Some e' -> e_active e' = true -> e_key e' <> e_key e) ->
  v = EMPTY \/ v = DUMMY -> chained (h_capacity m) (h_indices m) (e_hash e) slot v ->
  3 * (Z.of_nat (length (h_entries m)) + 1) < 2 * h_capacity m ->
  let m' := mkHmap (h_capacity m) (<[Z.to_nat slot := Z.of_nat (length (h_entries m))]> (h_indices m))
              (h_entries m ++ [e]) (h_size m + 1) (h_collisions m) (h_max_probe m) in
  hm_ok m' /\ hm_items m' = dict_set (hm_items m) (e_key e) (e_value e).
Proof.
  intros [Hwf Hsz] Ha Hh H0 Hnew Hv Hch Hload m'.
  assert (hm_items m' = hm_items m ++ [(e_key e, e_value e)]) as E.
  { unfold hm_items. fold (live (h_entries m')) (live (h_entries m)). unfold m'. cbn [h_entries].
    rewrite live_app, live_cons, Ha. done. }
  split; [split|].
  - pose proof (put_wf m slot e v Hwf Ha Hh H0 Hnew Hv Hch Hload) as []. by split.
  - rewrite E, length_app. unfold m'. cbn [h_size length]. lia.
  - rewrite E, dict_set_keys_new; [done|]. unfold hm_items. fold (live (h_entries m)). rewrite live_keys.
    intros (j & e' & Hj & Ha' & Hk). by apply (Hnew j e').
Qed.

(** Replacing a live value in place. *)
Lemma update_ok m j e v : hm_ok m -> h_entries m !! j = Some e -> e_active e = true ->
  let m' := mkHmap (h_capacity m) (h_indices m) (alter (fun e => set_value e v) j (h_entries m))
              (h_size m) (h_collisions m) (h_max_probe m) in
  hm_ok m' /\ hm_items m' = dict_set (hm_items m) (e_key e) v.
Proof.
  intros [Hwf Hsz] Hj Ha m'.
  assert (hm_items m' = dict_set (hm_items m) (e_key e) v) as E.
  { unfold hm_items. fold (live (h_entries m')) (live (h_entries m)). apply live_alter_set; [exact (wf_uniq m Hwf)|done|done]. }
  split; [|done]. assert (forall i e', alter (fun e => set_value e v) j (h_entries m) !! i = Some e' ->
    exists e0, h_entries m !! i = Some e0 /\ e_active e' = e_active e0 /\ e_hash e' = e_hash e0 /\ e_key e' = e_key e0) as Hback.
  { intros i e'. destruct (decide (i = j)) as [->|Hne].
    - rewrite list_lookup_alter_eq, Hj. intros [= <-]. by exists e.
    - rewrite list_lookup_alter_ne by done. intros ?. by exists e'. }
  split.
  - destruct Hwf as [W1 W2 W3 W4 W5 W6 W7 W8]. split; cbn [m' h_capacity h_indices h_entries]; try done.
    + intros i w Hi. destruct (W3 i w Hi) as [?|[?|(? & e0 & He0 & Ha0)]]; [auto|auto|]. right. right. split; [done|].
      destruct (decide (Z.to_nat w = j)) as [<-|Hne].
      * rewrite list_lookup_alter_eq, He0. by eexists.
      * rewrite list_lookup_alter_ne by done. eauto.
    + intros i e' (e0 & He0 & A & H' & K')%Hback. rewrite A, H', K'. apply W5. done.
    + intros i i' e1 e2 (a & Ha1 & A1 & _ & K1)%Hback (b & Hb1 & A2 & _ & K2)%Hback. rewrite A1, A2, K1, K2. by eapply W6.
    + by rewrite length_alter.
    + by rewrite length_alter.
  - rewrite E. cbn [m' h_size]. rewrite Hsz.
    assert (e_key e ∈ (hm_items m).*1) as Hin.
    { unfold hm_items. fold (live (h_entries m)). apply live_keys. eauto. }
    f_equal. rewrite <-(length_fmap fst (hm_items m)), <-(length_fmap fst (dict_set _ _ _)). by rewrite dict_set_keys_in.
Qed.

(** Removing a live entry: tombstone in the table, inactive in the list. *)
Lemma delete_ok m slot j e : hm_ok m -> h_entries m !! j = Some e -> e_active e = true ->
  h_indices m !! Z.to_nat slot = Some (Z.of_nat j) ->
  let m' := mkHmap (h_capacity m) (<[Z.to_nat slot := DUMMY]> (h_indices m)) (alter deactivate j (h_entries m))
              (h_size m - 1) (h_collisions m) (h_max_probe m) in
  hm_ok m' /\ hm_items m' = dict_del (hm_items m) (e_key e).
Proof.
  intros [Hwf Hsz] Hj Ha Hslot m'.
  assert (hm_items m' = dict_del (hm_items m) (e_key e)) as E.
  { unfold hm_items. fold (live (h_entries m')) (live (h_entries m)). apply live_alter_del; [exact (wf_uniq m Hwf)|done|done]. }
  split; [|done]. pose proof (lookup_lt_Some _ _ _ Hslot) as Hlt.
  assert (forall i e', alter deactivate j (h_entries m) !! i = Some e' -> e_active e' = true ->
    i <> j /\ h_entries m !! i = Some e') as Hback.
  { intros i e' He' Ha'. destruct (decide (i = j)) as [->|Hne].
    - rewrite list_lookup_alter_eq, Hj in He'. injection He' as <-. done.
    - by rewrite list_lookup_alter_ne in He'. }
  split.
  - destruct Hwf as [W1 W2 W3 W4 W5 W6 W7 W8]. split; cbn [m' h_capacity h_indices h_entries]; try done.
    + by rewrite length_insert.
    + intros i w Hi. destruct (decide (i = Z.to_nat slot)) as [->|Hne].
      * rewrite list_lookup_insert_eq in Hi by done. injection Hi as <-. auto.
      * rewrite list_lookup_insert_ne in Hi by done. destruct (W3 i w Hi) as [?|[?|(H0 & e0 & He0 & Ha0)]]; [auto|auto|].
        right. right. split; [done|]. exists e0. split; [|done]. rewrite list_lookup_alter_ne; [done|].
        intros ->. apply Hne. apply (W4 i (Z.to_nat slot) w H0 Hi). rewrite Hslot. f_equal. lia.
    + intros i i' w Hw Hi Hi'.
      assert (forall i, <[Z.to_nat slot := DUMMY]> (h_indices m) !! i = Some w -> h_indices m !! i = Some w) as Hb.
      { intros i0 Hi0. destruct (decide (i0 = Z.to_nat slot)) as [->|Hne];
          [rewrite list_lookup_insert_eq in Hi0 by done; injection Hi0 as <-; unfold DUMMY in Hw; lia|].
        by rewrite list_lookup_insert_ne in Hi0. }
      apply (W4 i i' w Hw); auto.
    + intros i e' He' Ha'. destruct (Hback i e' He' Ha') as [Hne He0].
      destruct (W5 i e' He0 Ha') as (? & ? & s & Hs & n & Hn & Hpre). split; [done|]. split; [done|].
      exists s. split.
      * rewrite list_lookup_insert_ne; [done|]. intros Es. rewrite <-Es, Hslot in Hs. injection Hs as Hs. lia.
      * exists n. split; [done|]. intros n' Hn'. destruct (decide (Z.to_nat (slot_at (h_capacity m) (e_hash e') n') = Z.to_nat slot)) as [->|Hd];
          [by rewrite list_lookup_insert_eq|]. rewrite list_lookup_insert_ne by done. auto.
    + intros i i' e1 e2 He1 He2 Ha1 Ha2. destruct (Hback i e1 He1 Ha1) as [_ H1], (Hback i' e2 He2 Ha2) as [_ H2].
      by eapply W6.
    + rewrite length_alter. pose proof (nonempty_insert _ DUMMY _ _ Hslot) as Hn.
      rewrite decide_False in Hn by (unfold EMPTY; lia). lia.
    + by rewrite length_alter.
  - rewrite E. cbn [m' h_size]. rewrite Hsz.
    assert (dict_get (hm_items m) (e_key e) = Some (e_value e)) as Hg.
    { unfold hm_items. fold (live (h_entries m)). apply (live_get _ j); [exact (wf_uniq m Hwf)|done|done]. }
    rewrite (dict_del_length _ _ _ Hg). assert (length (hm_items m) <> 0%nat) by (by destruct (hm_items m)). lia.
Qed.

Lemma setitem_ok m key v fuel : hm_ok m -> 0 <= hash key -> enough_fuel m key fuel ->
  exists m', hm_setitem hash fuel key v m = Some m' /\ hm_ok m' /\ hm_items m' = dict_set (hm_items m) key v.
Proof.
  intros Hok Hh Hf. unfold hm_setitem.
  destruct (hm_find m key fuel Hok Hh Hf) as (slot & idx & fd & m1 & R & Hs & Hcase). rewrite R. simpl.
  destruct (hm_ok_same m m1 Hs Hok) as [Hok1 Hi1]. pose proof Hs as (Ec & Ei & Ee & _).
  destruct (dict_get (hm_items m) key) as [v0|] eqn:Hg.
  - destruct Hcase as (j & e & -> & Hj & Ha & <- & _). rewrite <-Ee in Hj.
    destruct (Z.eqb_spec (Z.of_nat j) EMPTY); [unfold EMPTY in *; lia|]. cbn [negb]. rewrite Nat2Z.id.
    destruct (update_ok m1 j e v Hok1 Hj Ha) as [H1 H2]. rewrite Hi1 in H2. by eexists.
  - destruct Hcase as (-> & Hno & w & Hw & Hch). cbn [Z.eqb negb]. rewrite <-Ec, <-Ei in Hch. rewrite <-Ee in Hno.
    change (EMPTY =? EMPTY) with true. cbn [negb].
    destruct (Z.leb_spec (h_capacity m1 * 2) ((Z.of_nat (length (h_entries m1)) + 1) * 3)) as [Hbig|Hsmall].
    + rewrite (Z.mul_comm (h_capacity m1)).
      assert (enough_fuel m1 key fuel) as Hf1 by (unfold enough_fuel; by rewrite Ec, Ee).
      destruct (hm_resize_spec m1 key fuel Hok1 Hf1) as (m2 & R2 & Hok2 & Hi2 & Hc2 & Hl2). rewrite R2. simpl.
      destruct (hm_lookup_spec m2 key (hash key) fuel) as (slot2 & idx2 & fd2 & depth2 & m3 & R3 & Hs3 & Hr3);
        [apply Hok2|done|rewrite Hc2; apply Hf1|]. rewrite R3. simpl.
      destruct (hm_ok_same m2 m3 Hs3 Hok2) as [Hok3 Hi3]. pose proof Hs3 as (Ec3 & Ei3 & Ee3 & _).
      assert (forall j e', h_entries m3 !! j = Some e' -> e_active e' = true -> e_key e' <> key) as Hno3.
      { intros j e' Hj Ha' Hk. rewrite <-Hi1, <-Hi2, <-Hi3 in Hg. apply dict_get_None in Hg. apply Hg.
        unfold hm_items. fold (live (h_entries m3)). apply live_keys. eauto. }
      destruct Hr3 as [(j & e' & _ & Hj & Ha' & _ & Hk & _)|(_ & _ & w3 & Hw3 & Hch3)].
      { rewrite <-Ee3 in Hj. by destruct (Hno3 j e' Hj Ha'). }
      rewrite <-Ec3, <-Ei3 in Hch3. pose proof (proj2 (wf_cap m3 (proj1 Hok3))) as H8.
      destruct (put_ok m3 slot2 (mkEntry (hash key) key v true) w3) as [H1 H2]; try done; [|].
      { rewrite Ec3, Ee3, Hc2. rewrite Ec3, Hc2 in H8. lia. }
      eexists. split; [done|]. split; [done|]. rewrite H2, Hi3, Hi2, Hi1. done.
    + destruct (put_ok m1 slot (mkEntry (hash key) key v true) w) as [H1 H2]; try done; [lia|].
      eexists. split; [done|]. split; [done|]. by rewrite H2, Hi1.
Qed.

Lemma grow_capacity_spec fuel c w : pow2_cap c -> 8 <= c -> w <= c * 2 ^ Z.of_nat fuel ->
  pow2_cap (grow_capacity fuel c w) /\ 8 <= grow_capacity fuel c w /\ w <= grow_capacity fuel c w.
Proof.
  revert c. induction fuel as [|fuel IH]; intros c Hc H8 Hw; cbn [grow_capacity]; [rewrite Z.mul_1_r in Hw; done|].
  destruct (Z.ltb_spec c w); [|done]. rewrite Z.shiftl_mul_pow2 by lia. change (2 ^ 1) with 2. apply IH; [|lia|].
  - destruct Hc as [k ->]. exists (S k). rewrite Nat2Z.inj_succ, Z.pow_succ_r by lia. lia.
  - rewrite Nat2Z.inj_succ, Z.pow_succ_r in Hw by lia. lia.
Qed.

Lemma init_ok n : hm_ok (hm_init (K:=K) (V:=V) n) /\ n <= h_capacity (hm_init (K:=K) (V:=V) n).
Proof.
  destruct (grow_capacity_spec (Z.to_nat (Z.log2_up n)) INITIAL_CAPACITY n) as (H1 & H2 & H3).
  - by exists 3%nat.
  - done.
  - rewrite Z2Nat.id by apply Z.log2_up_nonneg. unfold INITIAL_CAPACITY.
    destruct (decide (1 < n)) as [Hn|]; [pose proof (proj2 (Z.log2_up_spec n Hn)); lia|].
    pose proof (Z.pow_pos_nonneg 2 (Z.log2_up n) ltac:(lia) (Z.log2_up_nonneg n)). lia.
  - split; [|done]. split; [by apply init_table_wf|done].
Qed.

(** C30: [CompactHashMap] refines an insertion-ordered dictionary.  From a map that
    satisfies the representation invariant (a new or cleared one does), every
    operation on a key with a non-negative hash ends, within a number of probes
    fixed in advance, keeps the invariant, and acts on [items()] exactly as the
    dictionary operation does: [__setitem__] updates in place or appends, with or
    without a resize, [__getitem__], [get] and [in] look up, [delete] removes and
    says whether the key was there. *)
Theorem hashmap_refines_dict (m : hmap K V) (key : K) (v : V) (Hok : hm_ok m) (Hh : 0 <= hash key) :
  hm_ok (hm_clear m) /\ hm_items (hm_clear m) = [] /\
  exists F, forall fuel, (F <= fuel)%nat ->
    (exists m', hm_setitem hash fuel key v m = Some m' /\ hm_ok m' /\ hm_items m' = dict_set (hm_items m) key v) /\
    (exists m', hm_getitem hash fuel key m = Some (dict_get (hm_items m) key, m') /\ hm_ok m' /\ hm_items m' = hm_items m) /\
    (exists m', hm_contains hash fuel key m = Some (bool_decide (is_Some (dict_get (hm_items m) key)), m') /\
       hm_ok m' /\ hm_items m' = hm_items m) /\
    (exists m', hm_delete hash fuel key m = Some (bool_decide (is_Some (dict_get (hm_items m) key)), m') /\
       hm_ok m' /\ hm_items m' = if bool_decide (is_Some (dict_get (hm_items m) key))
                                 then dict_del (hm_items m) key else hm_items m).
Proof.
  split; [split; [apply init_table_wf; [by exists 3%nat|done]|done]|]. split; [done|].
  destruct (enough_fuel_exists m key) as [F HF]. exists F. intros fuel Hfuel. pose proof (HF fuel Hfuel) as Hf.
  split; [by apply setitem_ok|].
  unfold hm_getitem, hm_contains, hm_delete.
  destruct (hm_find m key fuel Hok Hh Hf) as (slot & idx & fd & m1 & -> & Hs & Hcase). simpl.
  destruct (hm_ok_same m m1 Hs Hok) as [Hok1 Hi1]. pose proof Hs as (Ec & Ei & Ee & _).
  destruct (dict_get (hm_items m) key) as [v0|] eqn:Hg.
  - destruct Hcase as (j & e & -> & Hj & Ha & <- & <- & Hslot). rewrite <-Ee in Hj. rewrite <-Ei in Hslot.
    destruct (Z.eqb_spec (Z.of_nat j) EMPTY); [unfold EMPTY in *; lia|]. cbn [negb]. rewrite Nat2Z.id, Hj. simpl.
    destruct (delete_ok m1 slot j e Hok1 Hj Ha Hslot) as [H1 H2]. rewrite Hi1 in H2.
    split; [by eauto|]. split; [by eauto|]. by eexists.
  - destruct Hcase as (-> & _). change (EMPTY =? EMPTY) with true. cbn [negb].
    split; [by eauto|]. split; [by eauto|]. by eexists.
Qed.
End Proofs.

Arguments hm_ok {K V} _ _.

Lemma hashmap_refines_dict_witness :
  exists m', hm_setitem (fun k : Z => k) 100 5 7 (hm_init (V:=Z) 0) = Some m' /\ hm_items m' = [(5, 7)].
Proof.
  destruct (hashmap_refines_dict (fun k : Z => k) (hm_init (V:=Z) 0) 5 7) as (_ & _ & F & HF).
  - apply init_ok.
  - lia.
  - eexists. split; [vm_compute; reflexivity|reflexivity].
Defined.

(** ** Negative hashes

    Python's [hash] of an int is the int itself (and [-2] for [-1]). *)
Definition int_hash (k : Z) : Z := if k =? -1 then -2 else k.

(** The map after inserting 0, 1 and 5. *)
Definition three_keys : option (hmap Z Z) :=
  m ← hm_setitem int_hash 100 0 0 (hm_init 0);
  m ← hm_setitem int_hash 100 1 1 m;
  hm_setitem int_hash 100 5 5 m.

(** With a negative hash the probe may never end.  After inserting the keys
    0, 1 and 5 into a new map of capacity 8, looking up the key -8 (or inserting
    or deleting it) does not terminate: the perturbation, shifted right
    arithmetically, sticks at -1, the recurrence becomes [i -> 5 i] and cycles
    between the occupied slots 1 and 5, whatever the number of probes. *)
Theorem negative_hash_diverges :
  exists m, three_keys = Some m /\ h_capacity m = 8 /\ length (h_entries m) = 3%nat /\
    forall fuel v, hm_getitem int_hash fuel (-8) m = None /\ hm_contains int_hash fuel (-8) m = None /\
      hm_setitem int_hash fuel (-8) v m = None /\ hm_delete int_hash fuel (-8) m = None.
Proof.
  set (m := mkHmap 8 [0; 1; -1; -1; -1; 2; -1; -1] [mkEntry 0 0 0 true; mkEntry 1 1 1 true; mkEntry 5 5 5 true] 3 0 0).
  exists m. split; [vm_compute; reflexivity|]. split; [done|]. split; [done|]. intros fuel v.
  assert (forall n fd depth, lookup_loop n m (-8) (-8) 1 (-1) fd depth = None /\
                             lookup_loop n m (-8) (-8) 5 (-1) fd depth = None) as Hcycle.
  { induction n as [|n IH]; intros fd depth; [done|]. split.
    - exact (proj2 (IH fd (depth + 1))).
    - exact (proj1 (IH fd (depth + 1))). }
  assert (hm_lookup fuel (-8) (-8) m = None) as Hl.
  { unfold hm_lookup. destruct fuel as [|f]; [done|]. cbn -[lookup_loop].
    change (lookup_loop (S f) m (-8) (-8) (Z.land (-8) (8 - 1)) (-8) None 0) with (lookup_loop f m (-8) (-8) 1 (-1) None 1).
    by rewrite (proj1 (Hcycle f None 1)). }
  unfold hm_getitem, hm_contains, hm_setitem, hm_delete. change (int_hash (-8)) with (-8). by rewrite Hl.
Qed.
