(* ===== verification/SlidingWindow.v ===== *)
(** [SlidingWindowLog] of [app/core/dsa/sliding_window.py]: a log of accepted
    request times per client, evicted from the left.

    Times are integers (microseconds).  [wstore] is the dict of deques, [wseen]
    the dict of last accepted times.  Every method runs under the object's lock,
    so a method call is one atomic step. *)

From S2P Require Import Prelude.

Local Open Scope Z_scope.

Record window : Type := mkWin {
  w_seconds : Z;
  w_max : Z;
  w_store : list (string * list Z);
  w_seen : list (string * Z)
}.

(** [__init__] *)
Definition sw_init (window_seconds max_requests : Z) : result window :=
  if window_seconds <=? 0 then Raise PyValueError
  else if max_requests <=? 0 then Raise PyValueError
  else Ok (mkWin window_seconds max_requests [] []).

(** [while queue and queue[0] <= threshold: queue.popleft()] *)
Fixpoint evict_stale (threshold : Z) (queue : list Z) : list Z :=
  match queue with
  | [] => []
  | t :: queue' => if t <=? threshold then evict_stale threshold queue' else queue
  end.

(** [record_and_check]: allowed, count, retry-after; the evicted queue stays in
    the store on a rejection too. *)
Definition record_and_check (client_id : string) (now : Z) (s : window) : (bool * Z * Z) * window :=
  let threshold := now - w_seconds s in
  let queue := evict_stale threshold (default [] (dict_get (w_store s) client_id)) in
  if w_max s <=? Z.of_nat (length queue) then
    let oldest := default 0 (head queue) in
    ((false, Z.of_nat (length queue), Z.max 0 (oldest + w_seconds s - now)),
     mkWin (w_seconds s) (w_max s) (dict_set (w_store s) client_id queue) (w_seen s))
  else
    ((true, Z.of_nat (length queue) + 1, 0),
     mkWin (w_seconds s) (w_max s) (dict_set (w_store s) client_id (queue ++ [now])) (dict_set (w_seen s) client_id now)).

(** [evict_idle_clients] *)
Definition evict_idle_clients (idle_seconds now : Z) (s : window) : nat * window :=
  let stale_threshold := now - idle_seconds in
  let stale_keys := (filter (fun p : string * Z => p.2 < stale_threshold) (w_seen s)).*1 in
  (length stale_keys,
   mkWin (w_seconds s) (w_max s) (foldl dict_del (w_store s) stale_keys) (foldl dict_del (w_seen s) stale_keys)).

Definition active_client_count (s : window) : nat := length (w_store s).
Definition total_tracked_requests (s : window) : nat := sum_list (length <$> (w_store s).*2).

(** [get_client_request_count] *)
Definition get_client_request_count (client_id : string) (now : Z) (s : window) : nat :=
  length (filter (fun t => now - w_seconds s < t) (default [] (dict_get (w_store s) client_id))).

(** [reset] *)
Definition sw_reset (s : window) : window := mkWin (w_seconds s) (w_max s) [] [].

(** ** Histories

    Events with their times; [accepted] is the history of the times at which a
    client was let through. *)
Inductive sw_event : Type :=
  | Request (client : string) (now : Z)
  | EvictIdle (idle now : Z).

Definition ev_time (e : sw_event) : Z := match e with Request _ t | EvictIdle _ t => t end.

Definition sw_exec (st : window * list (string * Z)) (e : sw_event) : window * list (string * Z) :=
  let '(s, hist) := st in
  match e with
  | Request c now =>
      let '((ok, _, _), s') := record_and_check c now s in (s', if ok then hist ++ [(c, now)] else hist)
  | EvictIdle idle now => ((evict_idle_clients idle now s).2, hist)
  end.

Definition accepted (c : string) (hist : list (string * Z)) : list Z := (filter (fun p => p.1 = c) hist).*2.

(** Times that lie in the half-open window [(x, x + W]]. *)
Definition in_window (x W : Z) (l : list Z) : nat := length (filter (fun t => x < t /\ t <= x + W) l).

(** ** Lemmas *)

Lemma evict_stale_split th q : exists old, q = old ++ evict_stale th q /\ Forall (fun t => t <= th) old.
Proof.
  induction q as [|t q (old & E & Ho)]; [by exists []|]. cbn. destruct (Z.leb_spec t th).
  - exists (t :: old). cbn. split; [by rewrite <-E|by constructor].
  - exists []. by split.
Qed.

Lemma evict_stale_recent th q : StronglySorted Z.le q -> Forall (fun t => th < t) (evict_stale th q).
Proof.
  induction 1 as [|t q Hs IH Hall]; [constructor|]. cbn. destruct (Z.leb_spec t th); [done|].
  constructor; [done|]. eapply Forall_impl; [exact Hall|]. cbn. intros. lia.
Qed.

Lemma accepted_snoc c hist d t : accepted c (hist ++ [(d, t)]) = accepted c hist ++ (if decide (d = c) then [t] else []).
Proof. unfold accepted. rewrite filter_app, filter_cons, fmap_app. cbn. by case_decide. Qed.

Lemma foldl_dict_del_get {V} (d : list (string * V)) ks c : NoDup d.*1 ->
  dict_get (foldl dict_del d ks) c = if decide (c ∈ ks) then None else dict_get d c.
Proof.
  revert d. induction ks as [|k ks IH]; intros d Hd; [done|]. cbn [foldl]. rewrite IH by (by apply dict_del_NoDup).
  rewrite dict_get_del by done. repeat case_decide; set_solver.
Qed.

Lemma foldl_dict_del_NoDup {V} (d : list (string * V)) ks : NoDup d.*1 -> NoDup (foldl dict_del d ks).*1.
Proof. revert d. induction ks as [|k ks IH]; intros d Hd; [done|]. apply IH. by apply dict_del_NoDup. Qed.

(** At time [T]: what a client's deque forgot is outside every later window; the
    two dicts have the same keys. *)
Record sw_inv (T : Z) (s : window) (hist : list (string * Z)) : Prop := {
  sw_cfg : 0 < w_seconds s /\ 0 < w_max s;
  sw_nodup : NoDup (w_store s).*1 /\ NoDup (w_seen s).*1;
  sw_queue c : exists old, accepted c hist = old ++ default [] (dict_get (w_store s) c) /\
                 Forall (fun t => t <= T - w_seconds s) old;
  sw_sorted c : StronglySorted Z.le (accepted c hist);
  sw_past c : Forall (fun t => t <= T) (accepted c hist);
  sw_dom c : is_Some (dict_get (w_store s) c) <-> is_Some (dict_get (w_seen s) c);
  sw_last c t : dict_get (w_seen s) c = Some t -> Forall (fun t' => t' <= t) (accepted c hist);
  sw_limit c x : (in_window x (w_seconds s) (accepted c hist) <= Z.to_nat (w_max s))%nat
}.

(** The deque after eviction is exactly the accepted times of the window. *)
Lemma queue_is_window T s hist c now : sw_inv T s hist -> T <= now ->
  evict_stale (now - w_seconds s) (default [] (dict_get (w_store s) c)) =
  filter (fun t => now - w_seconds s < t) (accepted c hist).
Proof.
  intros Hinv HT. destruct (sw_queue T s hist Hinv c) as (old & E & Ho). pose proof (sw_sorted T s hist Hinv c) as Hs.
  set (q := default [] (dict_get (w_store s) c)) in *. destruct (evict_stale_split (now - w_seconds s) q) as (old2 & E2 & Ho2).
  assert (StronglySorted Z.le q) as Hsq by (rewrite E in Hs; by apply StronglySorted_app_1_r in Hs).
  pose proof (evict_stale_recent (now - w_seconds s) q Hsq) as Hr.
  assert (forall l, Forall (fun t => t <= now - w_seconds s) l -> filter (fun t => now - w_seconds s < t) l = []) as Hnil.
  { induction 1 as [|t l Ht _ IH]; [done|]. rewrite filter_cons, decide_False by lia. done. }
  assert (forall l, Forall (fun t => now - w_seconds s < t) l -> filter (fun t => now - w_seconds s < t) l = l) as Hall.
  { induction 1 as [|t l Ht _ IH]; [done|]. rewrite filter_cons, decide_True by lia. by f_equal. }
  set (ev := evict_stale (now - w_seconds s) q) in *. rewrite E, E2, !filter_app, (Hnil old), (Hnil old2), (Hall ev); try done.
  eapply Forall_impl; [exact Ho|]. cbn. intros. lia.
Qed.

Lemma in_window_app x W l1 l2 : in_window x W (l1 ++ l2) = (in_window x W l1 + in_window x W l2)%nat.
Proof. unfold in_window. by rewrite filter_app, length_app. Qed.

(** Accepting at [now] keeps every window of length [W] within the limit. *)
Lemma accept_limit (W mx now : Z) (l : list Z) :
  0 < mx -> Forall (fun t => t <= now) l -> Z.of_nat (length (filter (fun t => now - W < t) l)) < mx ->
  (forall x, (in_window x W l <= Z.to_nat mx)%nat) -> forall x, (in_window x W (l ++ [now]) <= Z.to_nat mx)%nat.
Proof.
  intros Hmx Hpast Hlt Hl x. rewrite in_window_app. specialize (Hl x). unfold in_window at 2. rewrite filter_cons. cbn.
  case_decide as Hin; cbn; [|lia].
  assert (in_window x W l <= length (filter (fun t => (now - W < t)%Z) l))%nat; [|lia].
  unfold in_window. clear -Hin. induction l as [|t l IH]; [done|]. rewrite !filter_cons. repeat case_decide; cbn; lia.
Qed.

Lemma request_inv T s hist c now : sw_inv T s hist -> T <= now ->
  let '(s', hist') := sw_exec (s, hist) (Request c now) in sw_inv now s' hist'.
Proof.
  intros Hinv HT. cbn [sw_exec]. unfold record_and_check.
  pose proof (queue_is_window T s hist c now Hinv HT) as Hq.
  set (q := evict_stale (now - w_seconds s) (default [] (dict_get (w_store s) c))) in *.
  destruct (sw_queue T s hist Hinv c) as (old & E & Ho). destruct (evict_stale_split (now - w_seconds s) (default [] (dict_get (w_store s) c))) as (old2 & E2 & Ho2).
  fold q in E2.
  assert (accepted c hist = (old ++ old2) ++ q /\ Forall (fun t => t <= now - w_seconds s) (old ++ old2)) as [Eq Hold].
  { split; [rewrite E, E2 at 1; by rewrite app_assoc|]. apply Forall_app. split; [|done].
    eapply Forall_impl; [exact Ho|]. cbn. intros. lia. }
  destruct Hinv as [W1 [W2 W2'] W3 W4 W5 W6 W7 W8].
  assert (forall d old, Forall (fun t => t <= T - w_seconds s) old -> d = old -> Forall (fun t => t <= now - w_seconds s) old) as Hmono.
  { intros d o Hf _. eapply Forall_impl; [exact Hf|]. cbn. intros. lia. }
  destruct (Z.leb_spec (w_max s) (Z.of_nat (length q))) as [Hfull|Hroom]; cbn beta iota.
  - split; cbn [w_seconds w_max w_store w_seen]; try done.
    + split; [by apply dict_set_NoDup|done].
    + intros d. rewrite dict_get_set. case_decide; [subst d; by exists (old ++ old2)|].
      destruct (W3 d) as (o & ? & ?). exists o. eauto.
    + intros d. eapply Forall_impl; [apply W5|]. cbn. intros. lia.
    + intros d. rewrite dict_get_set. case_decide; [subst d|apply W6].
      split; [intros _|by eauto]. apply W6. destruct (dict_get (w_store s) c) eqn:Ed; [by eauto|].
      cbn in q. unfold q in Hfull. cbn in Hfull. lia.
  - assert (forall d, accepted d (hist ++ [(c, now)]) = if decide (c = d) then accepted c hist ++ [now] else accepted d hist) as Hacc.
    { intros d. rewrite accepted_snoc. case_decide; [by subst|by rewrite app_nil_r]. }
    split; cbn [w_seconds w_max w_store w_seen]; try done.
    + split; by apply dict_set_NoDup.
    + intros d. rewrite dict_get_set, Hacc. case_decide.
      * exists (old ++ old2). split; [|done]. cbn. rewrite Eq. by rewrite <-!app_assoc.
      * destruct (W3 d) as (o & ? & ?). exists o. eauto.
    + intros d. rewrite Hacc. case_decide; [|done]. apply StronglySorted_app_2; [|apply W4|repeat constructor].
      intros x y Hx Hy. apply list_elem_of_singleton in Hy as ->. specialize (W5 c). rewrite Forall_forall in W5. specialize (W5 x Hx). lia.
    + intros d. rewrite Hacc. assert (Forall (fun t => t <= now) (accepted d hist)) as Hp
        by (eapply Forall_impl; [apply W5|]; cbn; intros; lia).
      case_decide; [subst d|done]. apply Forall_app. split; [done|by repeat constructor].
    + intros d. rewrite !dict_get_set. case_decide; [|apply W6]. split; by eauto.
    + intros d t. rewrite dict_get_set, Hacc. case_decide; [|apply W7]. intros [= <-]. apply Forall_app.
      split; [|by repeat constructor]. eapply Forall_impl; [apply W5|]. cbn. intros. lia.
    + intros d. rewrite Hacc. case_decide; [|apply W8]. apply accept_limit; [apply W1| |by rewrite <-Hq|apply W8].
      eapply Forall_impl; [apply W5|]. cbn. intros. lia.
Qed.

Lemma evict_inv T s hist idle now : sw_inv T s hist -> T <= now -> w_seconds s <= idle ->
  sw_inv now (evict_idle_clients idle now s).2 hist.
Proof.
  intros [W1 [W2 W2'] W3 W4 W5 W6 W7 W8] HT Hidle. unfold evict_idle_clients. cbn [snd].
  set (ks := (filter (fun p => p.2 < now - idle) (w_seen s)).*1).
  assert (forall c, c ∈ ks -> exists t, dict_get (w_seen s) c = Some t /\ t < now - idle) as Hks.
  { intros c. unfold ks. rewrite list_elem_of_fmap. intros ([c' t] & -> & [Ht Hin]%list_elem_of_filter). cbn in *.
    exists t. split; [|done]. by apply dict_elem_get. }
  split; cbn [w_seconds w_max w_store w_seen]; try done.
  - split; by apply foldl_dict_del_NoDup.
  - intros c. rewrite foldl_dict_del_get by done. destruct (W3 c) as (old & E & Ho). case_decide as Hin.
    + exists (accepted c hist). rewrite app_nil_r. split; [done|]. destruct (Hks c Hin) as (t & Ht & Hlt).
      eapply Forall_impl; [exact (W7 c t Ht)|]. cbn. intros. lia.
    + exists old. split; [done|]. eapply Forall_impl; [exact Ho|]. cbn. intros. lia.
  - intros c. eapply Forall_impl; [apply W5|]. cbn. intros. lia.
  - intros c. rewrite !foldl_dict_del_get by done. case_decide; [|apply W6]. split; by intros [].
  - intros c t. rewrite foldl_dict_del_get by done. case_decide; [done|]. apply W7.
Qed.

Lemma init_inv T W mx : 0 < W -> 0 < mx -> sw_inv T (mkWin W mx [] []) [].
Proof.
  intros HW Hm. split; cbn [w_seconds w_max w_store w_seen dict_get default]; try done.
  - split; constructor.
  - intros c. by exists [].
  - intros c. constructor.
  - intros c x. cbn. lia.
Qed.

(** The rate limit holds over every rolling window.  For any sequence of
    requests of any clients at non-decreasing times, with idle clients purged in
    between (idle time at least the window), and for any interval [(x, x + W]] of
    the window's length, at most [max_requests] requests of a client were let
    through in it; and the two dicts always track the same clients, so purging
    leaks nothing. *)
Theorem sliding_window_limit (W mx : Z) (s0 : window) (es : list sw_event) (Hinit : sw_init W mx = Ok s0)
  (Hmono : StronglySorted (fun a b => ev_time a <= ev_time b) es)
  (Hidle : Forall (fun e => match e with EvictIdle idle _ => W <= idle | _ => True end) es) :
  let '(s, hist) := foldl sw_exec (s0, []) es in
  (forall c x, (in_window x W (accepted c hist) <= Z.to_nat mx)%nat) /\
  (forall c, is_Some (dict_get (w_store s) c) <-> is_Some (dict_get (w_seen s) c)).
Proof.
  assert (forall es T s hist, sw_inv T s hist -> w_seconds s = W -> w_max s = mx ->
    StronglySorted (fun a b => ev_time a <= ev_time b) es -> Forall (fun e => T <= ev_time e) es ->
    Forall (fun e => match e with EvictIdle idle _ => W <= idle | _ => True end) es ->
    exists T', let '(s', hist') := foldl sw_exec (s, hist) es in sw_inv T' s' hist' /\ w_seconds s' = W /\ w_max s' = mx) as Hrun.
  { clear. induction es as [|e es IH]; intros T s hist Hinv EW Em Hs HT Hi; [by exists T|].
    apply Forall_cons in HT as [He HT], Hi as [Hi Hi']. inversion Hs as [|? ? Hs' Hall]; subst. cbn [foldl].
    destruct e as [c now|idle now]; cbn in He, Hall.
    - pose proof (request_inv T s hist c now Hinv He) as H. destruct (sw_exec (s, hist) (Request c now)) as [s' hist'] eqn:E.
      apply (IH now); try done; cbn [sw_exec] in E; unfold record_and_check in E; destruct (_ <=? _); by injection E as <- <-.
    - cbn [sw_exec]. apply (IH now); try done. by apply (evict_inv T). }
  unfold sw_init in Hinit. destruct (Z.leb_spec W 0), (Z.leb_spec mx 0); try done. injection Hinit as <-.
  destruct es as [|e es]; [split; [intros; cbn; lia|by intros c; split; intros []]|].
  destruct (Hrun (e :: es) (ev_time e) (mkWin W mx [] []) []) as (T & Hres); try done.
  - by apply init_inv.
  - inversion Hmono as [|? ? _ Hall]; subst. constructor; [lia|done].
  - destruct (foldl sw_exec _ (e :: es)) as [s' hist']. destruct Hres as (Hinv & EW & Em). split.
    + intros c x. rewrite <-EW, <-Em. apply (sw_limit T s' hist' Hinv).
    + intros c. apply (sw_dom T s' hist' Hinv).
Qed.

(** The answer of [record_and_check] is exact, and [retry_after] is honest.  A
    request is let through exactly when fewer than [max_requests] accepted
    requests lie in the window that ends now, and the count it reports is that
    number (plus the request itself).  A rejected client that sends nothing
    meanwhile is rejected again before [now + retry_after] and let through from
    then on. *)
Theorem rate_limit_decision (T now : Z) (c : string) (s : window) (hist : list (string * Z))
  (Hinv : sw_inv T s hist) (HT : T <= now) :
  let recent := Z.of_nat (length (filter (fun t => now - w_seconds s < t) (accepted c hist))) in
  let '((ok, count, retry_after), s') := record_and_check c now s in
  ok = (recent <? w_max s) /\ count = (if ok then recent + 1 else recent) /\
  (ok = false -> 0 < retry_after /\
     forall now', now <= now' -> (record_and_check c now' s').1.1.1 = (now + retry_after <=? now')).
Proof.
  pose proof (queue_is_window T s hist c now Hinv HT) as Hq. unfold record_and_check.
  set (q := evict_stale (now - w_seconds s) (default [] (dict_get (w_store s) c))) in *. rewrite <-Hq. cbv zeta.
  destruct (Z.leb_spec (w_max s) (Z.of_nat (length q))) as [Hfull|Hroom], (Z.ltb_spec (Z.of_nat (length q)) (w_max s));
    try lia; split; try done; split; try done.
  intros _. cbn [w_max w_seconds w_store]. rewrite dict_get_set_eq. cbn [default].
  assert (Forall (fun t => now - w_seconds s < t) q /\ (length q <= Z.to_nat (w_max s))%nat) as (Hrec & Hlen).
  { rewrite Hq. split; [apply Forall_forall; by intros x [? _]%list_elem_of_filter|].
    etrans; [|exact (sw_limit T s hist Hinv c (now - w_seconds s))].
    pose proof (sw_past T s hist Hinv c) as Hp. unfold in_window. clear -Hp HT.
    induction Hp as [|t l Ht _ IH]; [done|]. rewrite !filter_cons. repeat case_decide; cbn; lia. }
  pose proof (sw_cfg T s hist Hinv). destruct q as [|t q']; [cbn in Hfull; lia|]. cbn [head default]. unfold id.
  apply Forall_cons in Hrec as [Ht _]. split; [lia|]. intros now' Hnow'. cbn [evict_stale].
  assert (forall th, (length (evict_stale th q') <= length q')%nat) as Hsub.
  { intros th. destruct (evict_stale_split th q') as (old & E & _). rewrite E at 2. rewrite length_app. lia. }
  specialize (Hsub (now' - w_seconds s)). cbn [length] in Hfull, Hlen.
  destruct (Z.leb_spec t (now' - w_seconds s)); cbn [length];
    destruct (Z.leb_spec (now + Z.max 0 (t + w_seconds s - now)) now'); try lia; cbn [length].
  - destruct (Z.leb_spec (w_max s) (Z.of_nat (length (evict_stale (now' - w_seconds s) q')))); [lia|done].
  - destruct (Z.leb_spec (w_max s) (Z.of_nat (S (length q')))); [done|lia].
Qed.

(** ** Witnesses *)

Lemma sliding_window_limit_witness :
  let es := [Request "a" 0; Request "a" 1; Request "a" 2; EvictIdle 10 3; Request "a" 11] in
  let '(s, hist) := foldl sw_exec (mkWin 10 2 [] [], []) es in
  accepted "a" hist = [0; 1; 11] /\ (in_window 1 10 (accepted "a" hist) <= 2)%nat.
Proof.
  split; [vm_compute; reflexivity|].
  refine (proj1 (sliding_window_limit 10 2 (mkWin 10 2 [] [])
    [Request "a" 0; Request "a" 1; Request "a" 2; EvictIdle 10 3; Request "a" 11] eq_refl _ _) "a" 1).
  - repeat constructor; cbn; lia.
  - repeat constructor; cbn; lia.
Defined.

Lemma rate_limit_decision_witness :
  let s := mkWin 10 1 [] [] in
  (record_and_check "a" 5 s).1 = (true, 1, 0) /\ sw_inv 0 s [].
Proof.
  split.
  - pose proof (rate_limit_decision 0 5 "a" (mkWin 10 1 [] []) [] (init_inv 0 10 1 ltac:(lia) ltac:(lia)) ltac:(lia)) as T.
    vm_compute. reflexivity.
  - apply init_inv; lia.
Defined.
