(* ===== verification/SearchAlgos.v ===== *)
(** [app/core/dsa/search_algorithms.py]: binary search for a key range and the
    converging two-pointer pair search.

    Keys ([key_func]) are integers: the algorithms only compare, add and subtract
    them.  The [while] loops get as much fuel as the sequence is long; each
    iteration shrinks the interval, so that is always enough, which the theorems
    rely on. *)

From S2P Require Import Prelude.

Local Open Scope Z_scope.

Section Search.
Context {T : Type}.
Variable key_func : T -> Z.

(** The bisection loop: the first index in [low, high) whose element does not
    satisfy [go_right]. *)
Fixpoint bisect (fuel : nat) (go_right : T -> bool) (items : list T) (low high : nat) : nat :=
  match fuel with
  | O => low
  | S f =>
      if (low <? high)%nat then
        let mid := ((low + high) / 2)%nat in
        match items !! mid with
        | Some x => if go_right x then bisect f go_right items (mid + 1)%nat high else bisect f go_right items low mid
        | None => low
        end
      else low
  end.

(** [binary_search_bounds] *)
Definition binary_search_bounds (items : list T) (min_val max_val : Z) : nat * nat :=
  let n := length items in
  if (n =? 0)%nat || (max_val <? min_val) then (0, 0)%nat
  else
    let left_idx := bisect n (fun x => key_func x <? min_val) items 0 n in
    if (left_idx =? n)%nat then (n, n)
    else (left_idx, bisect n (fun x => key_func x <=? max_val) items left_idx n).

(** [binary_search_range] *)
Definition binary_search_range (items : list T) (min_val max_val : Z) : list T :=
  let '(left_idx, right_idx) := binary_search_bounds items min_val max_val in
  if (right_idx <=? left_idx)%nat then [] else take (right_idx - left_idx) (drop left_idx items).

(** The [while left < right] loop of [two_pointer_pair_search]. *)
Fixpoint two_pointer_loop (fuel : nat) (items : list T) (target tolerance : Z) (left right : nat) : option (T * T) :=
  match fuel with
  | O => None
  | S f =>
      if (left <? right)%nat then
        match items !! left, items !! right with
        | Some l, Some r =>
            let current_sum := key_func l + key_func r in
            let delta := current_sum - target in
            if Z.abs delta <=? tolerance then Some (l, r)
            else if current_sum <? target then two_pointer_loop f items target tolerance (left + 1) right
            else two_pointer_loop f items target tolerance left (right - 1)
        | _, _ => None
        end
      else None
  end.

(** [two_pointer_pair_search] *)
Definition two_pointer_pair_search (items : list T) (target tolerance : Z) : option (T * T) :=
  if (length items <? 2)%nat then None
  else two_pointer_loop (length items) items target tolerance 0 (length items - 1).

(** ** Specification *)

Definition sorted_by_key (items : list T) : Prop :=
  forall i j x y, (i <= j)%nat -> items !! i = Some x -> items !! j = Some y -> key_func x <= key_func y.

Lemma sorted_by_key_cons x items : sorted_by_key (x :: items) <->
  (forall y, y ∈ items -> key_func x <= key_func y) /\ sorted_by_key items.
Proof.
  split.
  - intros Hs. split.
    + intros y (i & Hi)%list_elem_of_lookup. apply (Hs 0%nat (S i)); [lia|done|done].
    + intros i j y z Hij Hy Hz. apply (Hs (S i) (S j)); [lia|done|done].
  - intros [Hx Hs] [|i] [|j] y z Hij Hy Hz; try lia; cbn in *.
    + simplify_eq. lia.
    + simplify_eq. apply Hx. by apply list_elem_of_lookup_2 in Hz.
    + apply (Hs i j); [lia|done|done].
Qed.

Lemma sorted_by_key_filter (P : T -> Prop) `{!forall x, Decision (P x)} items :
  sorted_by_key items -> sorted_by_key (filter P items).
Proof.
  induction items as [|x items IH]; [done|]. rewrite sorted_by_key_cons. intros [Hx Hs]. rewrite filter_cons.
  case_decide; [|auto]. apply sorted_by_key_cons. split; [|auto]. intros y [_ Hy]%list_elem_of_filter. auto.
Qed.

(** Bisection finds the boundary of a predicate that is true on a prefix. *)
Lemma bisect_spec fuel P items low high : (high <= length items)%nat -> (high - low <= fuel)%nat -> (low <= high)%nat ->
  (forall i j x y, (i <= j)%nat -> items !! i = Some x -> items !! j = Some y -> P y = true -> P x = true) ->
  let r := bisect fuel P items low high in
  (low <= r <= high)%nat /\ (forall i x, (low <= i < r)%nat -> items !! i = Some x -> P x = true) /\
  (forall i x, (r <= i < high)%nat -> items !! i = Some x -> P x = false).
Proof.
  intros Hlen Hfuel Hle Hmono. revert low high Hlen Hfuel Hle.
  induction fuel as [|fuel IH]; intros low high Hlen Hfuel Hle; cbn [bisect].
  { split; [lia|]. split; intros; lia. }
  destruct (Nat.ltb_spec low high) as [Hlt|]; [|split; [lia|]; split; intros; lia].
  set (mid := ((low + high) / 2)%nat).
  assert (low <= mid < high)%nat as Hmid.
  { unfold mid. pose proof (Nat.div_mod (low + high) 2 ltac:(lia)). pose proof (Nat.mod_upper_bound (low + high) 2 ltac:(lia)). lia. }
  destruct (lookup_lt_is_Some_2 items mid ltac:(lia)) as [x Hx]. rewrite Hx. destruct (P x) eqn:Hp.
  - destruct (IH (mid + 1)%nat high) as (H1 & H2 & H3); [lia|lia|lia|]. split; [lia|]. split; [|done].
    intros i y Hi Hy. destruct (decide (i <= mid)%nat); [by eapply (Hmono i mid y x)|]. apply (H2 i); [lia|done].
  - destruct (IH low mid) as (H1 & H2 & H3); [lia|lia|lia|]. split; [lia|]. split; [done|].
    intros i y Hi Hy. destruct (decide (i < mid)%nat); [apply (H3 i); [lia|done]|].
    destruct (P y) eqn:Hpy; [|done]. rewrite (Hmono mid i x y) in Hp by (done || lia). done.
Qed.

(** Splitting a list at two indices and filtering. *)
Lemma filter_slice {A} (P : A -> Prop) `{!forall x, Decision (P x)} (l : list A) a b : (a <= b <= length l)%nat ->
  (forall i x, (i < a)%nat -> l !! i = Some x -> ~ P x) -> (forall i x, (a <= i < b)%nat -> l !! i = Some x -> P x) ->
  (forall i x, (b <= i)%nat -> l !! i = Some x -> ~ P x) -> filter P l = take (b - a) (drop a l).
Proof.
  intros Hab H1 H2 H3. rewrite <-(take_drop a l) at 1. rewrite <-(take_drop (b - a) (drop a l)) at 1.
  rewrite !filter_app, drop_drop. replace (a + (b - a))%nat with b by lia.
  rewrite (filter_none P (take a l)), (filter_all P (take (b - a) (drop a l))), (filter_none P (drop b l)).
  - by rewrite app_nil_r.
  - apply Forall_lookup. intros i x Hx. rewrite lookup_drop in Hx. by apply (H3 (b + i)%nat); [lia|].
  - apply Forall_lookup. intros i x [Hx Hi]%lookup_take_Some. rewrite lookup_drop in Hx. apply (H2 (a + i)%nat); [lia|done].
  - apply Forall_lookup. intros i x [Hx Hi]%lookup_take_Some. by apply (H1 i).
Qed.

(** [binary_search_range] on a sorted sequence returns exactly the elements
    whose key lies in [min_val, max_val], in order: it is the linear scan it
    replaces, for every sequence (empty, duplicates) and every bounds (also an
    empty range). *)
Theorem binary_search_is_filter (items : list T) (min_val max_val : Z) (Hs : sorted_by_key items) :
  binary_search_range items min_val max_val = filter (fun x => min_val <= key_func x <= max_val) items.
Proof.
  unfold binary_search_range, binary_search_bounds.
  destruct (Nat.eqb_spec (length items) 0) as [E0|E0]; cbn [orb]; [by apply nil_length_inv in E0 as ->|].
  destruct (Z.ltb_spec max_val min_val) as [Hr|Hr]; cbn [orb].
  { cbn. symmetry. apply filter_none, Forall_forall. intros x _ ?. lia. }
  destruct (bisect_spec (length items) (fun x => key_func x <? min_val) items 0 (length items)) as (A1 & A2 & A3); [lia|lia|lia| |].
  { intros i j x y Hij Hx Hy Hp%Z.ltb_lt. apply Z.ltb_lt. specialize (Hs i j x y Hij Hx Hy). lia. }
  set (a := bisect _ _ _ _ _) in *.
  destruct (Nat.eqb_spec a (length items)) as [Ea|Ea].
  { rewrite Nat.leb_refl. symmetry. apply filter_none, Forall_lookup. intros i x Hx ?.
    specialize (A2 i x ltac:(apply lookup_lt_Some in Hx; lia) Hx). apply Z.ltb_lt in A2. lia. }
  destruct (bisect_spec (length items) (fun x => key_func x <=? max_val) items a (length items)) as (B1 & B2 & B3); [lia|lia|lia| |].
  { intros i j x y Hij Hx Hy Hp%Z.leb_le. apply Z.leb_le. specialize (Hs i j x y Hij Hx Hy). lia. }
  set (b := bisect _ _ _ a _) in *.
  rewrite (filter_slice _ items a b).
  - destruct (Nat.leb_spec b a); [|done]. by replace (b - a)%nat with 0%nat by lia.
  - lia.
  - intros i x Hi Hx ?. specialize (A2 i x ltac:(lia) Hx). apply Z.ltb_lt in A2. lia.
  - intros i x Hi Hx. specialize (A3 i x ltac:(lia) Hx). specialize (B2 i x ltac:(lia) Hx).
    apply Z.ltb_ge in A3. apply Z.leb_le in B2. lia.
  - intros i x Hi Hx ?. specialize (B3 i x ltac:(apply lookup_lt_Some in Hx; lia) Hx). apply Z.leb_gt in B3. lia.
Qed.

(** Pairs of positions not yet excluded lie between the two pointers. *)
Lemma two_pointer_loop_spec fuel items target tol left right : sorted_by_key items ->
  (right < length items)%nat -> (right - left < fuel)%nat ->
  (forall i j x y, (i < j)%nat -> items !! i = Some x -> items !! j = Some y ->
     Z.abs (key_func x + key_func y - target) <= tol -> (left <= i)%nat /\ (j <= right)%nat) ->
  match two_pointer_loop fuel items target tol left right with
  | Some (x, y) => exists i j, (i < j)%nat /\ items !! i = Some x /\ items !! j = Some y /\
                     Z.abs (key_func x + key_func y - target) <= tol
  | None => forall i j x y, (i < j)%nat -> items !! i = Some x -> items !! j = Some y ->
              ~ Z.abs (key_func x + key_func y - target) <= tol
  end.
Proof.
  intros Hs. revert left right. induction fuel as [|fuel IH]; intros left right Hr Hf Hout; [lia|]. cbn [two_pointer_loop].
  destruct (Nat.ltb_spec left right) as [Hlt|Hge].
  2: { intros i j x y Hij Hx Hy Hd. specialize (Hout i j x y Hij Hx Hy Hd). lia. }
  destruct (lookup_lt_is_Some_2 items left ltac:(lia)) as [l Hl], (lookup_lt_is_Some_2 items right ltac:(lia)) as [r Hrr].
  rewrite Hl, Hrr. destruct (Z.leb_spec (Z.abs (key_func l + key_func r - target)) tol) as [Hd|Hd]; [by exists left, right|].
  destruct (Z.ltb_spec (key_func l + key_func r) target) as [Hsum|Hsum].
  - apply IH; [lia|lia|]. intros i j x y Hij Hx Hy Hp. destruct (Hout i j x y Hij Hx Hy Hp) as [H1 H2]. split; [|done].
    destruct (decide (i = left)) as [->|]; [|lia]. exfalso. rewrite Hl in Hx. injection Hx as <-.
    specialize (Hs j right y r ltac:(lia) Hy Hrr). lia.
  - apply IH; [lia|lia|]. intros i j x y Hij Hx Hy Hp. destruct (Hout i j x y Hij Hx Hy Hp) as [H1 H2]. split; [done|].
    destruct (decide (j = right)) as [->|]; [|lia]. exfalso. rewrite Hrr in Hy. injection Hy as <-.
    specialize (Hs left i l x ltac:(lia) Hl Hx). lia.
Qed.

(** [two_pointer_pair_search] on a sorted sequence is sound and complete: a
    pair it returns comes from two different positions and meets the target
    within the tolerance; when it returns [None], no pair of positions does. *)
Theorem two_pointer_sound_complete (items : list T) (target tolerance : Z) (Hs : sorted_by_key items) :
  match two_pointer_pair_search items target tolerance with
  | Some (x, y) => exists i j, (i < j)%nat /\ items !! i = Some x /\ items !! j = Some y /\
                     Z.abs (key_func x + key_func y - target) <= tolerance
  | None => forall i j x y, (i < j)%nat -> items !! i = Some x -> items !! j = Some y ->
              ~ Z.abs (key_func x + key_func y - target) <= tolerance
  end.
Proof.
  unfold two_pointer_pair_search. destruct (Nat.ltb_spec (length items) 2) as [Hn|Hn].
  - intros i j x y Hij Hx%lookup_lt_Some Hy%lookup_lt_Some. lia.
  - apply two_pointer_loop_spec; [done|lia|lia|]. intros i j x y Hij Hx Hy%lookup_lt_Some _. lia.
Qed.
End Search.

Lemma binary_search_is_filter_witness :
  binary_search_range (fun x : Z => x) [1; 3; 3; 5; 8] 3 5 = [3; 3; 5].
Proof.
  rewrite (binary_search_is_filter (fun x : Z => x) [1; 3; 3; 5; 8] 3 5); [reflexivity|].
  intros i j x y Hij Hx Hy.
  do 5 (destruct i as [|i]; [do 5 (destruct j as [|j]; [cbn in *; simplify_eq; lia|]); done|]). done.
Defined.

Lemma two_pointer_sound_complete_witness :
  two_pointer_pair_search (fun x : Z => x) [1; 4; 9] 14 0 = None /\
  (forall i j x y, (i < j)%nat -> [1; 4; 9] !! i = Some x -> [1; 4; 9] !! j = Some y -> ~ Z.abs (x + y - 14) <= 0).
Proof.
  split; [reflexivity|].
  apply (two_pointer_sound_complete (fun x : Z => x) [1; 4; 9] 14 0).
  intros i j x y Hij Hx Hy.
  do 3 (destruct i as [|i]; [do 3 (destruct j as [|j]; [cbn in *; simplify_eq; lia|]); done|]). done.
Defined.
