(* ===== verification/Bloom.v ===== *)
(** [BloomFilter] of [app/core/dsa/bloom_filter.py].

    SHA-256 is a parameter: a function from the item's text to a digest of bytes.
    The bit array is a list of bytes.  The sizes computed in [__init__] from
    logarithms are fields; both are at least one by the [max(1, ...)] of the
    source. *)

From S2P Require Import Prelude.

Local Open Scope Z_scope.

Record bloom : Type := mkBloom {
  bf_capacity : Z;
  bf_bit_size : Z;
  bf_hash_count : nat;
  bf_bits : list Z;
  bf_count : Z
}.

(** [int.from_bytes(..., byteorder="big")] *)
Definition from_bytes_big (bs : list Z) : Z := foldl (fun acc b => acc * 256 + b) 0 bs.

Section Filter.
Variable sha256 : string -> list Z.

(** The end of [__init__]: sizes at least one, all bits clear. *)
Definition bloom_init (capacity bit_size hash_count : Z) : result bloom :=
  if capacity <=? 0 then Raise PyValueError
  else let m := Z.max 1 bit_size in
       Ok (mkBloom capacity m (Z.to_nat (Z.max 1 hash_count)) (replicate (Z.to_nat ((m + 7) / 8)) 0) 0).

(** [_get_hash_indices] *)
Definition get_hash_indices (f : bloom) (item : string) : list Z :=
  let digest := sha256 item in
  let h1 := from_bytes_big (take 8 digest) in
  let h2 := from_bytes_big (take 8 (drop 8 digest)) in
  let h2 := if h2 =? 0 then 1 else h2 in
  (fun i => (h1 + Z.of_nat i * h2) mod bf_bit_size f) <$> seq 0 (bf_hash_count f).

(** [self._bit_array[byte_idx] |= 1 << bit_pos]; [None] is [IndexError]. *)
Definition set_bit (bits : list Z) (bit_idx : Z) : option (list Z) :=
  let byte_idx := Z.to_nat (bit_idx / 8) in
  b ← bits !! byte_idx; Some (<[byte_idx := Z.lor b (Z.shiftl 1 (bit_idx mod 8))]> bits).

Definition test_bit (bits : list Z) (bit_idx : Z) : option bool :=
  b ← bits !! Z.to_nat (bit_idx / 8); Some (negb (Z.land b (Z.shiftl 1 (bit_idx mod 8)) =? 0)).

Fixpoint set_bits (bits : list Z) (idxs : list Z) : option (list Z) :=
  match idxs with
  | [] => Some bits
  | i :: idxs' => bits' ← set_bit bits i; set_bits bits' idxs'
  end.

(** [add] *)
Definition bloom_add (item : string) (f : bloom) : option bloom :=
  bits' ← set_bits (bf_bits f) (get_hash_indices f item);
  Some (mkBloom (bf_capacity f) (bf_bit_size f) (bf_hash_count f) bits' (bf_count f + 1)).

(** [contains]: stop at the first unset bit. *)
Fixpoint test_bits (bits : list Z) (idxs : list Z) : option bool :=
  match idxs with
  | [] => Some true
  | i :: idxs' =>
      match test_bit bits i with
      | Some true => test_bits bits idxs'
      | Some false => Some false
      | None => None
      end
  end.
Definition bloom_contains (item : string) (f : bloom) : option bool := test_bits (bf_bits f) (get_hash_indices f item).

(** [clear] *)
Definition bloom_clear (f : bloom) : bloom :=
  mkBloom (bf_capacity f) (bf_bit_size f) (bf_hash_count f) (replicate (Z.to_nat ((bf_bit_size f + 7) / 8)) 0) 0.

Fixpoint bloom_add_all (items : list string) (f : bloom) : option bloom :=
  match items with
  | [] => Some f
  | x :: items' => f' ← bloom_add x f; bloom_add_all items' f'
  end.

(** ** Invariant: the array has room for every index and holds bytes *)

Definition bloom_wf (f : bloom) : Prop :=
  1 <= bf_bit_size f /\ (0 < bf_hash_count f)%nat /\
  Z.of_nat (length (bf_bits f)) = (bf_bit_size f + 7) / 8 /\ Forall (fun b => 0 <= b < 256) (bf_bits f).

Definition bit (bits : list Z) (i : Z) : bool := Z.testbit (default 0 (bits !! Z.to_nat (i / 8))) (i mod 8).
Definition idx_ok (bits : list Z) (i : Z) : Prop := 0 <= i /\ (Z.to_nat (i / 8) < length bits)%nat.

Lemma indices_ok f item : bloom_wf f -> Forall (idx_ok (bf_bits f)) (get_hash_indices f item).
Proof.
  intros (Hm & _ & Hlen & _). unfold get_hash_indices. apply Forall_fmap, Forall_forall. intros i _. cbn.
  set (x := _ mod bf_bit_size f). assert (0 <= x < bf_bit_size f) as Hx by (apply Z.mod_pos_bound; lia).
  split; [lia|]. assert (0 <= x / 8) by (apply Z.div_pos; lia).
  assert (x / 8 < (bf_bit_size f + 7) / 8); [|lia].
  apply Z.div_lt_upper_bound; [lia|]. pose proof (Z.div_mod (bf_bit_size f + 7) 8 ltac:(lia)).
  pose proof (Z.mod_pos_bound (bf_bit_size f + 7) 8 ltac:(lia)). lia.
Qed.

Lemma land_pow2_testbit b k : 0 <= k -> (Z.land b (Z.shiftl 1 k) =? 0) = negb (Z.testbit b k).
Proof.
  intros Hk. rewrite Z.shiftl_1_l. destruct (Z.testbit b k) eqn:Hb; cbn.
  - apply Z.eqb_neq. intros E. apply (f_equal (fun z => Z.testbit z k)) in E.
    rewrite Z.land_spec, Hb, Z.pow2_bits_true, Z.bits_0 in E by lia. done.
  - apply Z.eqb_eq. apply Z.bits_inj'. intros n Hn. rewrite Z.land_spec, Z.bits_0.
    destruct (decide (n = k)) as [->|]; [by rewrite Hb|]. rewrite Z.pow2_bits_false by lia. apply andb_false_r.
Qed.

Lemma test_bit_spec bits i : idx_ok bits i -> test_bit bits i = Some (bit bits i).
Proof.
  intros [H0 Hi]. unfold test_bit, bit. destruct (lookup_lt_is_Some_2 bits _ Hi) as [b ->]. simpl.
  rewrite land_pow2_testbit by (apply Z.mod_pos_bound; lia). by rewrite negb_involutive.
Qed.

Lemma set_bit_spec bits i : idx_ok bits i -> exists bits', set_bit bits i = Some bits' /\ length bits' = length bits /\
  (Forall (fun b => 0 <= b < 256) bits -> Forall (fun b => 0 <= b < 256) bits') /\
  bit bits' i = true /\ (forall j, 0 <= j -> bit bits j = true -> bit bits' j = true).
Proof.
  intros [H0 Hi]. unfold set_bit. destruct (lookup_lt_is_Some_2 bits _ Hi) as [b Hb]. rewrite Hb. simpl.
  pose proof (Z.mod_pos_bound i 8 ltac:(lia)) as Hm.
  eexists. split; [done|]. split; [apply length_insert|]. split; [|split].
  - intros Hall. apply Forall_insert; [done|]. assert (0 <= b < 256) as Hr by (by eapply (Forall_lookup_1 _ _ _ _ Hall Hb)).
    rewrite Z.shiftl_1_l. assert (0 <= 2 ^ (i mod 8)) by (apply Z.pow_nonneg; lia).
    split; [apply Z.lor_nonneg; lia|].
    destruct (decide (Z.lor b (2 ^ (i mod 8)) = 0)) as [->|Hnz]; [lia|]. change 256 with (2 ^ 8).
    assert (0 <= Z.lor b (2 ^ (i mod 8))) by (apply Z.lor_nonneg; lia).
    apply Z.log2_lt_pow2; [lia|]. rewrite Z.log2_lor, Z.log2_pow2 by lia.
    destruct (decide (b = 0)) as [->|]; [cbn; lia|]. assert (Z.log2 b < 8) by (apply Z.log2_lt_pow2; lia). lia.
  - unfold bit. rewrite list_lookup_insert_eq by done. simpl. rewrite Z.lor_spec, Z.shiftl_1_l, Z.pow2_bits_true by lia.
    apply orb_true_r.
  - intros j Hj Hbit. unfold bit in *. destruct (decide (Z.to_nat (i / 8) = Z.to_nat (j / 8))) as [E|E].
    + rewrite <-E in *. rewrite list_lookup_insert_eq by done. rewrite Hb in Hbit. simpl in *. by rewrite Z.lor_spec, Hbit.
    + by rewrite list_lookup_insert_ne.
Qed.

Lemma set_bits_spec idxs bits : Forall (idx_ok bits) idxs -> exists bits', set_bits bits idxs = Some bits' /\
  length bits' = length bits /\ (Forall (fun b => 0 <= b < 256) bits -> Forall (fun b => 0 <= b < 256) bits') /\
  Forall (fun i => bit bits' i = true) idxs /\ (forall j, 0 <= j -> bit bits j = true -> bit bits' j = true).
Proof.
  revert bits. induction idxs as [|i idxs IH]; intros bits Hok; [by eexists|]. apply Forall_cons in Hok as [Hi Hok].
  cbn [set_bits]. destruct (set_bit_spec bits i Hi) as (b1 & -> & L1 & F1 & S1 & M1). simpl.
  destruct (IH b1) as (b2 & E & L2 & F2 & S2 & M2).
  { eapply Forall_impl; [exact Hok|]. intros j [? ?]. split; [done|by rewrite L1]. }
  exists b2. split; [done|]. split; [congruence|]. split; [auto|]. split; [|auto].
  constructor; [|done]. apply M2; [apply Hi|done].
Qed.

Lemma test_bits_spec idxs bits : Forall (idx_ok bits) idxs -> test_bits bits idxs = Some (forallb (bit bits) idxs).
Proof.
  induction 1 as [|i idxs Hi _ IH]; [done|]. cbn [test_bits forallb]. rewrite test_bit_spec by done. simpl.
  by destruct (bit bits i).
Qed.

Lemma bloom_add_spec x f : bloom_wf f -> exists f', bloom_add x f = Some f' /\ bloom_wf f' /\
  bf_bit_size f' = bf_bit_size f /\ bf_hash_count f' = bf_hash_count f /\ bf_count f' = bf_count f + 1 /\
  bloom_contains x f' = Some true /\ (forall y, bloom_contains y f = Some true -> bloom_contains y f' = Some true).
Proof.
  intros Hwf. unfold bloom_add. pose proof (fun y => indices_ok f y Hwf) as Hidx.
  destruct (set_bits_spec _ _ (Hidx x)) as (bits' & -> & Hlen & Hby & Hset & Hmono). simpl. eexists. split; [done|].
  pose proof Hwf as (H1 & H2 & H3 & H4). set (f' := mkBloom _ _ _ _ _).
  assert (bloom_wf f') as Hwf' by (unfold bloom_wf, f'; cbn; rewrite Hlen; auto).
  assert (forall y, Forall (idx_ok (bf_bits f')) (get_hash_indices f' y)) as Hidx' by (intros; by apply indices_ok).
  do 4 (split; [done|]). split.
  - unfold bloom_contains. rewrite test_bits_spec by done. f_equal. apply forallb_forall. intros i Hi%list_elem_of_In.
    rewrite Forall_forall in Hset. by apply Hset.
  - intros y. unfold bloom_contains. rewrite !test_bits_spec by done. intros [= Hy]. f_equal.
    rewrite forallb_forall in Hy |- *. intros i Hi. pose proof Hi as Hi'%list_elem_of_In.
    pose proof (Hidx' y) as Hok. rewrite Forall_forall in Hok. apply Hmono; [by apply Hok|]. by apply Hy.
Qed.

(** No false negatives.  Adding items never fails (every index falls inside
    the array, bytes stay bytes), and after any sequence of additions [contains]
    answers [True] for every item added and still does after further additions;
    the counter is the number of additions; a cleared filter contains nothing. *)
Theorem bloom_no_false_negatives (items : list string) (f : bloom) (Hwf : bloom_wf f) :
  (exists f', bloom_add_all items f = Some f' /\ bloom_wf f' /\ bf_count f' = bf_count f + Z.of_nat (length items) /\
     (forall x, x ∈ items -> bloom_contains x f' = Some true) /\
     (forall x, bloom_contains x f = Some true -> bloom_contains x f' = Some true)) /\
  (forall x, bloom_contains x (bloom_clear f) = Some false).
Proof.
  split.
  - revert f Hwf. induction items as [|x items IH]; intros f Hwf.
    { exists f. do 2 (split; [done|]). split; [cbn; lia|]. split; [by intros x []%elem_of_nil|done]. }
    cbn [bloom_add_all]. destruct (bloom_add_spec x f Hwf) as (f1 & -> & W1 & _ & _ & C1 & X1 & M1). simpl.
    destruct (IH f1 W1) as (f2 & -> & W2 & C2 & X2 & M2). exists f2. do 2 (split; [done|]). split; [rewrite C2, C1; cbn; lia|].
    split; [|auto]. intros y [->|Hy]%elem_of_cons; auto.
  - intros x. destruct Hwf as (H1 & H2 & H3 & _).
    assert (bloom_wf (bloom_clear f)) as Hwf'.
    { unfold bloom_wf. cbn. rewrite length_replicate. split; [done|]. split; [done|]. split; [|by apply Forall_replicate].
      rewrite Z2Nat.id; [done|]. apply Z.div_pos; lia. }
    unfold bloom_contains. rewrite test_bits_spec by (by apply indices_ok). f_equal.
    unfold get_hash_indices. cbn [bf_hash_count bloom_clear]. destruct (bf_hash_count f) as [|n]; [lia|]. cbn [seq fmap list_fmap forallb].
    assert (forall i, bit (bf_bits (bloom_clear f)) i = false) as ->; [|done].
    intros i. unfold bit. cbn. destruct (replicate _ 0 !! _) as [b|] eqn:E; simpl; [|apply Z.bits_0].
    apply lookup_replicate in E as [-> _]. apply Z.bits_0.
Qed.
End Filter.

Lemma bloom_no_false_negatives_witness :
  let sha := fun s => replicate 16 (Z.of_nat (String.length s)) in
  let f := mkBloom 10 96 3 (replicate 12 0) 0 in
  exists f', bloom_add_all sha ["a"; "bcd"] f = Some f' /\ bloom_contains sha "bcd" f' = Some true.
Proof.
  intros sha f. destruct (bloom_no_false_negatives sha ["a"; "bcd"] f) as [(f' & E & _ & _ & H & _) _].
  - unfold bloom_wf. cbn. repeat split; try lia. by repeat constructor.
  - exists f'. split; [exact E|]. apply H. right. left.
Defined.
