(* ===== verification/AccessControl.v ===== *)
(** Authorization: the permission bitmasks of [app/core/permissions.py], the ABAC
    policy engine of [app/core/abac.py], the guard of
    [app/core/dependencies.py] that builds its inputs from a request, and the
    document endpoints it protects ([app/services/document_service.py],
    [app/repositories/document_repository.py], [app/routers/document_router.py]).

    Amounts are Python floats and appear as rationals.  A request carries the
    authenticated user (token verification is not part of this file), the headers
    the guard reads and the local clock. *)

From Stdlib Require Import QArith.
From S2P Require Import Prelude.

Local Open Scope Z_scope.
Local Open Scope py_scope.

(** ** Permission bitmasks *)

Inductive Permission : Type := NONE | READ | WRITE | DELETE | ADMIN | EXPORT | BILLING.
#[global] Instance Permission_eq_dec : EqDecision Permission.
Proof. solve_decision. Defined.

(** The position of a flag's bit; [NONE] has none. *)
Definition perm_bit (p : Permission) : option Z :=
  match p with
  | NONE => None | READ => Some 0 | WRITE => Some 1 | DELETE => Some 2
  | ADMIN => Some 3 | EXPORT => Some 4 | BILLING => Some 5
  end.
Definition perm_value (p : Permission) : Z := match perm_bit p with None => 0 | Some b => Z.shiftl 1 b end.

(** Iteration order of the flag class ([NONE] is not a canonical member and is
    skipped by the explicit test as well). *)
Definition all_permissions : list Permission := [READ; WRITE; DELETE; ADMIN; EXPORT; BILLING].

Definition ROLE_GUEST : Z := perm_value READ.
Definition ROLE_USER : Z := Z.lor (perm_value READ) (perm_value WRITE).
Definition ROLE_MODERATOR : Z := Z.lor (Z.lor (perm_value READ) (perm_value WRITE)) (perm_value DELETE).
Definition ROLE_ADMIN : Z := foldr (fun p acc => Z.lor (perm_value p) acc) 0 all_permissions.

Definition has_permission (user_perms req : Z) : bool := Z.land user_perms req =? req.
Definition grant_permission (user_perms flag : Z) : Z := Z.lor user_perms flag.
Definition revoke_permission (user_perms flag : Z) : Z := Z.land user_perms (Z.lnot flag).
Definition get_permission_names (perms : Z) : list Permission :=
  filter (fun p => p <> NONE /\ Z.land perms (perm_value p) = perm_value p) all_permissions.

(** ** Policies *)

Record SubjectContext : Type := mkSubject {
  s_user_id : Z; s_role : string; s_department : option string; s_tenant_id : option string }.
Record ResourceContext : Type := mkResource {
  r_resource_type : string; r_resource_id : Z; r_owner_id : Z; r_tenant_id : option string;
  r_department : option string; r_status : string; r_amount : option Q }.
Record EnvironmentContext : Type := mkEnv {
  e_current_time : Z; e_client_ip : string; e_is_business_hours : bool }.

Abbreviation predicate := (SubjectContext -> ResourceContext -> string -> EnvironmentContext -> bool) (only parsing).

Record PolicyRule : Type := mkRule {
  pr_name : string; pr_resource_type : string; pr_action : string; pr_predicate : predicate }.

(** [PolicyEngine]: rules by resource type, in registration order. *)
Abbreviation PolicyEngine := (gmap string (list PolicyRule)).

Definition register_rule (rule : PolicyRule) (e : PolicyEngine) : PolicyEngine :=
  <[pr_resource_type rule := default [] (e !! pr_resource_type rule) ++ [rule]]> e.

Definition rule_matches (action : string) (rule : PolicyRule) : Prop := pr_action rule = "*" \/ pr_action rule = action.
#[global] Instance rule_matches_dec action rule : Decision (rule_matches action rule).
Proof. unfold rule_matches. apply _. Defined.

(** The [for] loop with its early return. *)
Fixpoint all_hold (rules : list PolicyRule) (subject : SubjectContext) (resource : ResourceContext) (action : string)
  (environment : EnvironmentContext) : bool :=
  match rules with
  | [] => true
  | rule :: rules' =>
      if negb (pr_predicate rule subject resource action environment) then false
      else all_hold rules' subject resource action environment
  end.

Definition evaluate (e : PolicyEngine) (subject : SubjectContext) (resource : ResourceContext) (action : string)
  (environment : EnvironmentContext) : bool :=
  let registered := default [] (e !! r_resource_type resource) in
  match filter (rule_matches action) registered with
  | [] => false
  | matching => all_hold matching subject resource action environment
  end.

Definition policy_multi_tenant_isolation : predicate := fun s r _ _ =>
  match s_tenant_id s, r_tenant_id r with
  | Some a, Some b => bool_decide (a = b)
  | _, _ => false
  end.
Definition policy_ownership_and_admin_bypass : predicate := fun s r _ _ =>
  if decide (s_role s = "admin") then true else bool_decide (s_user_id s = r_owner_id r).
Definition policy_lifecycle_state_guard : predicate := fun s r _ _ =>
  if decide (r_status r = "archived") then bool_decide (s_role s = "admin") else true.
Definition policy_contextual_approval_gate : predicate := fun s r action env =>
  if decide (action = "approve") then
    if match r_amount r with Some a => negb (Qle_bool a 10000) | None => false end then
      bool_decide (s_department s = Some "finance") && e_is_business_hours env
    else
      bool_decide (s_department s = Some "finance") || bool_decide (s_role s = "admin") ||
      bool_decide (s_user_id s = r_owner_id r)
  else true.
Definition policy_read_access : predicate := fun _ _ _ _ => true.

Definition create_default_policy_engine : PolicyEngine :=
  let e := ∅ in
  let e := register_rule (mkRule "document_multi_tenant_isolation" "document" "*" policy_multi_tenant_isolation) e in
  let e := register_rule (mkRule "document_read_access" "document" "read" policy_read_access) e in
  let e := register_rule (mkRule "document_update_ownership" "document" "update" policy_ownership_and_admin_bypass) e in
  let e := register_rule (mkRule "document_delete_ownership" "document" "delete" policy_ownership_and_admin_bypass) e in
  let e := register_rule (mkRule "document_update_lifecycle_guard" "document" "update" policy_lifecycle_state_guard) e in
  let e := register_rule (mkRule "document_delete_lifecycle_guard" "document" "delete" policy_lifecycle_state_guard) e in
  register_rule (mkRule "document_contextual_approval_gate" "document" "approve" policy_contextual_approval_gate) e.

(** ** Documents *)

Record DocumentEntity : Type := mkDoc {
  doc_id : Z; doc_title : string; doc_content : string; doc_owner_id : Z; doc_tenant_id : string;
  doc_department : string; doc_status : string; doc_amount : Q }.

Record doc_repo : Type := mkDocRepo { dr_store : gmap Z DocumentEntity; dr_sequence : Z }.

Definition dr_create (d : DocumentEntity) : M doc_repo DocumentEntity := fun r =>
  let seq := if doc_id d <=? 0 then dr_sequence r + 1 else dr_sequence r in
  let d' := if doc_id d <=? 0
            then mkDoc seq (doc_title d) (doc_content d) (doc_owner_id d) (doc_tenant_id d) (doc_department d)
                   (doc_status d) (doc_amount d)
            else d in
  (Ok d', mkDocRepo (<[doc_id d' := d']> (dr_store r)) seq).
Definition dr_update (d : DocumentEntity) : M doc_repo DocumentEntity := fun r =>
  (Ok d, mkDocRepo (<[doc_id d := d]> (dr_store r)) (dr_sequence r)).
Definition dr_delete (id : Z) : M doc_repo bool := fun r =>
  match dr_store r !! id with
  | Some _ => (Ok true, mkDocRepo (delete id (dr_store r)) (dr_sequence r))
  | None => (Ok false, r)
  end.

(** [DocumentService] *)
Definition ds_get_document (id : Z) : M doc_repo DocumentEntity :=
  let! d := gets (fun r => dr_store r !! id) in
  match d with None => raise DocumentNotFoundException | Some d => ret d end.

Definition ds_create_document (title content : string) (owner_id : Z) (tenant_id department : string) (amount : Q)
  : M doc_repo DocumentEntity :=
  dr_create (mkDoc 0 title content owner_id tenant_id department "active" amount).

Definition ds_update_document (id : Z) (title content status : option string) : M doc_repo DocumentEntity :=
  let! d := ds_get_document id in
  dr_update (mkDoc (doc_id d) (default (doc_title d) title) (default (doc_content d) content) (doc_owner_id d)
    (doc_tenant_id d) (doc_department d) (default (doc_status d) status) (doc_amount d)).

Definition ds_delete_document (id : Z) : M doc_repo bool :=
  let! _ := ds_get_document id in
  dr_delete id.

Definition ds_approve_document (id : Z) : M doc_repo DocumentEntity :=
  let! d := ds_get_document id in
  dr_update (mkDoc (doc_id d) (doc_title d) (doc_content d) (doc_owner_id d) (doc_tenant_id d) (doc_department d)
    "approved" (doc_amount d)).

(** ** The request guard *)

Record AuthenticatedUser : Type := mkUser { u_user_id : Z; u_role : string; u_permissions : Z }.
Record request : Type := mkReq {
  q_user : AuthenticatedUser;
  q_x_department : option string; q_x_tenant_id : option string; q_x_client_ip : option string;
  q_x_business_hours : option string;
  q_client_host : option string;
  q_now : Z; q_weekday : Z; q_hour : Z }.

Definition get_document_resource (id : Z) : M doc_repo ResourceContext :=
  let! d := ds_get_document id in
  ret (mkResource "document" (doc_id d) (doc_owner_id d) (Some (doc_tenant_id d)) (Some (doc_department d))
    (doc_status d) (Some (doc_amount d))).

(** The authenticated user has neither a [department] nor a [tenant_id] attribute,
    so [getattr(user, ..., None) or header] is the header. *)
Definition resolve_subject (q : request) : SubjectContext :=
  mkSubject (u_user_id (q_user q)) (u_role (q_user q)) (q_x_department q) (q_x_tenant_id q).

(** [a or b] on optional strings: an empty string is falsy. *)
Definition or_str (a : option string) (b : string) : string :=
  match a with Some "" | None => b | Some s => s end.

Definition resolve_environment (q : request) : EnvironmentContext :=
  let client_ip := or_str (q_x_client_ip q) (default "127.0.0.1" (q_client_host q)) in
  let is_business_hours :=
    match q_x_business_hours q with
    | Some h => bool_decide (py_lower h ∈ ["true"; "1"; "yes"])
    | None => (q_weekday q <? 5) && ((9 <=? q_hour q) && (q_hour q <? 17))
    end in
  mkEnv (q_now q) client_ip is_business_hours.

Definition check_abac_permission (action : string) (id : Z) (q : request) : M doc_repo ResourceContext :=
  let! resource := get_document_resource id in
  raise_if (negb (evaluate create_default_policy_engine (resolve_subject q) resource action (resolve_environment q)))
    (HTTPException 403);;;
  ret resource.

(** ** The endpoints of [document_router]

    FastAPI resolves the guard dependency before it validates the body. *)

Definition opt_ok (f : string -> bool) (o : option string) : bool := match o with None => true | Some s => f s end.
Definition between (lo hi : nat) (s : string) : bool := ((lo <=? String.length s) && (String.length s <=? hi))%nat.
Definition nonempty (s : string) : bool := (1 <=? String.length s)%nat.

(** [DocumentUpdateRequest] *)
Definition update_request_valid (title content status : option string) : bool :=
  opt_ok (between 1 255) title && opt_ok nonempty content &&
  opt_ok (fun s => bool_decide (s ∈ ["active"; "archived"; "approved"])) status.
(** [DocumentCreateRequest] *)
Definition create_request_valid (title content department tenant_id : string) (amount : Q) : bool :=
  between 1 255 title && nonempty content && between 1 100 department && between 1 100 tenant_id && Qle_bool 0 amount.

(** [Path(ge=1)] *)
Definition path_id (id : Z) : M doc_repo () := raise_if (id <? 1) PydanticValidationError.

Definition create_endpoint (title content department tenant_id : string) (amount : Q) (q : request) : M doc_repo DocumentEntity :=
  raise_if (negb (create_request_valid title content department tenant_id amount)) PydanticValidationError;;;
  ds_create_document title content (u_user_id (q_user q)) tenant_id department amount.

Definition get_endpoint (id : Z) (q : request) : M doc_repo DocumentEntity :=
  path_id id;;; check_abac_permission "read" id q;;; ds_get_document id.

Definition update_endpoint (id : Z) (title content status : option string) (q : request) : M doc_repo DocumentEntity :=
  path_id id;;;
  check_abac_permission "update" id q;;;
  raise_if (negb (update_request_valid title content status)) PydanticValidationError;;;
  ds_update_document id title content status.

Definition delete_endpoint (id : Z) (q : request) : M doc_repo bool :=
  path_id id;;; check_abac_permission "delete" id q;;; ds_delete_document id.

Definition approve_endpoint (id : Z) (q : request) : M doc_repo (Z * string * Z) :=
  path_id id;;;
  check_abac_permission "approve" id q;;;
  let! d := ds_approve_document id in
  ret (doc_id d, doc_status d, u_user_id (q_user q)).

(** ** Permission laws *)

Lemma land_pow2 a b : 0 <= b -> (Z.land a (2 ^ b) = 2 ^ b <-> Z.testbit a b = true).
Proof.
  intros Hb. split.
  - intros H. apply (f_equal (fun x => Z.testbit x b)) in H.
    rewrite Z.land_spec, Z.pow2_bits_true, andb_true_r in H by done. exact H.
  - intros H. apply Z.bits_inj'. intros n Hn. rewrite Z.land_spec, Z.pow2_bits_eqb by done.
    destruct (Z.eqb_spec b n) as [<-|]; [by rewrite H|by rewrite andb_false_r].
Qed.

Lemma has_permission_bits u req :
  has_permission u req = true <-> forall n, 0 <= n -> Z.testbit req n = true -> Z.testbit u n = true.
Proof.
  unfold has_permission. rewrite Z.eqb_eq. split.
  - intros H n Hn Hr. rewrite <-H, Z.land_spec in Hr. by apply andb_true_iff in Hr as [].
  - intros H. apply Z.bits_inj'. intros n Hn. rewrite Z.land_spec.
    destruct (Z.testbit req n) eqn:E; [by rewrite H|by rewrite andb_false_r].
Qed.

Lemma perm_value_bit p b : perm_bit p = Some b -> perm_value p = 2 ^ b /\ 0 <= b.
Proof. destruct p; intros [= <-]; split; done. Qed.

(** The permission bitmask algebra.  [has_permission] holds exactly when every
    bit of the requirement is set.  After a grant the granted flags are held and
    no other bit changes; after a revoke none of the revoked bits is set and no
    other bit changes; and [get_permission_names] lists a flag exactly when its
    own bit is set, so that a name is listed after a grant and is gone after a
    revoke.  This for masks of any size and combinations of flags. *)
Theorem permission_algebra (u flag : Z) :
  (forall req, has_permission u req = true <-> forall n, 0 <= n -> Z.testbit req n = true -> Z.testbit u n = true) /\
  has_permission (grant_permission u flag) flag = true /\
  (forall req, Z.land req flag = 0 ->
     has_permission (grant_permission u flag) req = has_permission u req /\
     has_permission (revoke_permission u flag) req = has_permission u req) /\
  (forall req, Z.land req flag <> 0 -> has_permission (revoke_permission u flag) req = false) /\
  (forall p b, perm_bit p = Some b -> p ∈ get_permission_names u <-> Z.testbit u b = true) /\
  (forall p b, perm_bit p = Some b ->
     p ∈ get_permission_names (grant_permission u (perm_value p)) /\
     p ∉ get_permission_names (revoke_permission u (perm_value p))).
Proof.
  assert (forall v p b, perm_bit p = Some b -> p ∈ get_permission_names v <-> Z.testbit v b = true) as Hnames.
  { intros v p b Hp. destruct (perm_value_bit p b Hp) as [Hv Hb]. unfold get_permission_names.
    rewrite list_elem_of_filter, Hv, land_pow2 by done. split; [by intros [[]]|]. intros H.
    repeat split; [by intros ->|done|]. destruct p; set_solver. }
  split; [intros req; apply has_permission_bits|].
  split. { apply has_permission_bits. intros n Hn Hf. unfold grant_permission. by rewrite Z.lor_spec, Hf, orb_true_r. }
  split.
  { intros req H0.
    assert (forall n, 0 <= n -> Z.testbit req n = true -> Z.testbit flag n = false) as Hd.
    { intros n Hn Hr. apply (f_equal (fun x => Z.testbit x n)) in H0.
      rewrite Z.land_spec, Hr, Z.bits_0 in H0. by simpl in H0. }
    split; apply eq_true_iff_eq; rewrite !has_permission_bits; unfold grant_permission, revoke_permission;
      split; intros H n Hn Hr; specialize (H n Hn Hr); specialize (Hd n Hn Hr);
      rewrite ?Z.lor_spec, ?Z.land_spec, ?Z.lnot_spec, ?Hd, ?orb_false_r, ?andb_true_r in * by done; done. }
  split.
  { intros req H0. apply not_true_is_false. intros H. apply H0. rewrite has_permission_bits in H.
    apply Z.bits_inj'. intros n Hn. rewrite Z.land_spec, Z.bits_0.
    destruct (Z.testbit req n) eqn:E; [|done]. specialize (H n Hn E).
    unfold revoke_permission in H. rewrite Z.land_spec, Z.lnot_spec in H by done. simpl.
    destruct (Z.testbit flag n); [by rewrite andb_false_r in H|done]. }
  split; [intros p b; apply Hnames|]. intros p b Hp. rewrite !(Hnames _ p b Hp).
  destruct (perm_value_bit p b Hp) as [-> Hb]. unfold grant_permission, revoke_permission.
  rewrite Z.lor_spec, Z.land_spec, Z.lnot_spec, Z.pow2_bits_true by done.
  by rewrite orb_true_r, andb_false_r.
Qed.

(** ** The policy engine *)

Lemma all_hold_true rules s r a env :
  all_hold rules s r a env = true <-> Forall (fun rule => pr_predicate rule s r a env = true) rules.
Proof.
  induction rules as [|rule rules IH]; simpl; [done|]. rewrite Forall_cons, <-IH.
  destruct (pr_predicate rule s r a env); simpl; naive_solver.
Qed.

(** The rules an engine holds for a resource type after a list of registrations. *)
Lemma registered_rules rules e ty :
  default [] (foldl (fun e r => register_rule r e) e rules !! ty) =
  default [] (e !! ty) ++ filter (fun r => pr_resource_type r = ty) rules.
Proof.
  revert e. induction rules as [|rule rules IH]; intros e; simpl; [by rewrite app_nil_r|].
  rewrite IH. unfold register_rule. rewrite lookup_insert, filter_cons.
  destruct (decide (pr_resource_type rule = ty)) as [->|]; simpl; [by rewrite <-app_assoc|done].
Qed.

(** Default deny and conjunction, for an engine built by any registrations. *)
Lemma evaluate_registered rules s r a env :
  let applies rule := pr_resource_type rule = r_resource_type r /\ rule_matches a rule in
  evaluate (foldl (fun e rule => register_rule rule e) ∅ rules) s r a env = true <->
  Exists applies rules /\ Forall (fun rule => applies rule -> pr_predicate rule s r a env = true) rules.
Proof.
  intros applies. unfold evaluate. rewrite registered_rules, lookup_empty. simpl.
  rewrite list_filter_filter. set (P := fun x => rule_matches a x /\ pr_resource_type x = r_resource_type r).
  assert (forall x, x ∈ filter P rules <-> x ∈ rules /\ applies x) as Hin.
  { intros x. rewrite list_elem_of_filter. unfold P, applies. naive_solver. }
  transitivity (filter P rules <> [] /\ all_hold (filter P rules) s r a env = true).
  { destruct (filter P rules); naive_solver. }
  rewrite all_hold_true, !Forall_forall, Exists_exists. split.
  - intros [Hne Hall]. destruct (filter P rules) as [|x l] eqn:E; [done|]. split.
    + exists x. apply Hin. set_solver.
    + intros y Hy Ha. apply Hall. by apply Hin.
  - intros [(x & Hx & Ha) Hall]. split.
    + intros Hnil. apply (not_elem_of_nil x). rewrite <-Hnil. by apply Hin.
    + intros y [Hy Hay]%Hin. auto.
Qed.

(** What each predicate decides. *)
Lemma tenant_spec s r a env :
  policy_multi_tenant_isolation s r a env = true <-> exists t, s_tenant_id s = Some t /\ r_tenant_id r = Some t.
Proof. unfold policy_multi_tenant_isolation. destruct (s_tenant_id s), (r_tenant_id r); rewrite ?bool_decide_eq_true; naive_solver. Qed.

Lemma ownership_spec s r a env :
  policy_ownership_and_admin_bypass s r a env = true <-> s_role s = "admin" \/ s_user_id s = r_owner_id r.
Proof. unfold policy_ownership_and_admin_bypass. case_decide; rewrite ?bool_decide_eq_true; naive_solver. Qed.

Lemma lifecycle_spec s r a env :
  policy_lifecycle_state_guard s r a env = true <-> (r_status r = "archived" -> s_role s = "admin").
Proof. unfold policy_lifecycle_state_guard. case_decide; rewrite ?bool_decide_eq_true; naive_solver. Qed.

Definition may_approve (s : SubjectContext) (r : ResourceContext) (env : EnvironmentContext) : Prop :=
  match r_amount r with
  | Some amt => if Qle_bool amt 10000
                then s_department s = Some "finance" \/ s_role s = "admin" \/ s_user_id s = r_owner_id r
                else s_department s = Some "finance" /\ e_is_business_hours env = true
  | None => s_department s = Some "finance" \/ s_role s = "admin" \/ s_user_id s = r_owner_id r
  end.

Lemma approval_spec s r env : policy_contextual_approval_gate s r "approve" env = true <-> may_approve s r env.
Proof.
  unfold policy_contextual_approval_gate, may_approve. rewrite decide_True by done.
  destruct (r_amount r) as [amt|]; [destruct (Qle_bool amt 10000)|]; cbn;
    rewrite ?orb_true_iff, ?andb_true_iff, ?bool_decide_eq_true; tauto.
Qed.

(** The decision table of the default engine: access is granted exactly when
    the resource is a document of the subject's own (known) tenant and, for
    update and delete, the subject is an administrator or the owner of a document
    that is not archived; for approve, above 10,000 the subject is in finance and
    it is business hours, and up to 10,000 the subject is in finance, an
    administrator or the owner.  Nothing else is looked at: any other action on a
    document, read or not, needs the tenant only. *)
Lemma default_policy_table (s : SubjectContext) (r : ResourceContext) (a : string) (env : EnvironmentContext) :
  evaluate create_default_policy_engine s r a env = true <->
  r_resource_type r = "document" /\
  (exists t, s_tenant_id s = Some t /\ r_tenant_id r = Some t) /\
  (a = "update" \/ a = "delete" ->
     s_role s = "admin" \/ s_user_id s = r_owner_id r /\ r_status r <> "archived") /\
  (a = "approve" -> may_approve s r env).
Proof.
  pose proof (evaluate_registered [
    mkRule "document_multi_tenant_isolation" "document" "*" policy_multi_tenant_isolation;
    mkRule "document_read_access" "document" "read" policy_read_access;
    mkRule "document_update_ownership" "document" "update" policy_ownership_and_admin_bypass;
    mkRule "document_delete_ownership" "document" "delete" policy_ownership_and_admin_bypass;
    mkRule "document_update_lifecycle_guard" "document" "update" policy_lifecycle_state_guard;
    mkRule "document_delete_lifecycle_guard" "document" "delete" policy_lifecycle_state_guard;
    mkRule "document_contextual_approval_gate" "document" "approve" policy_contextual_approval_gate] s r a env) as H.
  cbv zeta in H. change (foldl _ _ _) with create_default_policy_engine in H. rewrite H. clear H.
  rewrite !Exists_cons, Exists_nil, !Forall_cons, Forall_nil. unfold rule_matches. cbn [pr_resource_type pr_action pr_predicate].
  rewrite tenant_spec, ownership_spec, lifecycle_spec. split.
  - intros [Hex (A1 & _ & A3 & A4 & A5 & A6 & A7 & _)].
    assert ("document" = r_resource_type r) as Hd by (clear -Hex; tauto). clear Hex.
    split; [done|]. split; [apply A1; auto|]. split; [|intros ->; apply approval_spec, A7; auto].
    intros [Ha|Ha]; symmetry in Ha.
    + specialize (A3 (conj Hd (or_intror Ha))). specialize (A5 (conj Hd (or_intror Ha))).
      destruct (decide (r_status r = "archived")); tauto.
    + specialize (A4 (conj Hd (or_intror Ha))). specialize (A6 (conj Hd (or_intror Ha))).
      destruct (decide (r_status r = "archived")); tauto.
  - intros (Hd & Ht & Hm & Hap). split; [by left; auto|].
    split; [done|]. split; [done|].
    assert (forall x, "document" = r_resource_type r /\ (x = "*" \/ x = a) -> x <> "*" -> a = x) as Ha by naive_solver.
    repeat split.
    + intros ->%Ha; [|done]. destruct Hm as [|[]]; auto.
    + intros ->%Ha; [|done]. destruct Hm as [|[]]; auto.
    + intros ->%Ha; [|done]. destruct Hm as [|[]]; auto. done.
    + intros ->%Ha; [|done]. destruct Hm as [|[]]; auto. done.
    + intros ->%Ha; [|done]. by apply approval_spec, Hap.
Qed.

(** ** The protected endpoints *)

Inductive doc_cmd : Type :=
  | Get | Update (title content status : option string) | Delete | Approve.

Definition run_endpoint (c : doc_cmd) (id : Z) (q : request) : M doc_repo () :=
  match c with
  | Get => get_endpoint id q;;; ret ()
  | Update t co st => update_endpoint id t co st q;;; ret ()
  | Delete => delete_endpoint id q;;; ret ()
  | Approve => approve_endpoint id q;;; ret ()
  end.

(** Documents are stored under their own identifier. *)
Definition docs_wf (r : doc_repo) : Prop := forall id d, dr_store r !! id = Some d -> doc_id d = id.

(** What the policies ask of a request for each endpoint, in terms of the stored
    document and of what the request says. *)
Definition may (c : doc_cmd) (q : request) (d : DocumentEntity) : Prop :=
  q_x_tenant_id q = Some (doc_tenant_id d) /\
  match c with
  | Get => True
  | Update _ _ _ | Delete =>
      u_role (q_user q) = "admin" \/ u_user_id (q_user q) = doc_owner_id d /\ doc_status d <> "archived"
  | Approve =>
      if Qle_bool (doc_amount d) 10000
      then q_x_department q = Some "finance" \/ u_role (q_user q) = "admin" \/ u_user_id (q_user q) = doc_owner_id d
      else q_x_department q = Some "finance" /\ e_is_business_hours (resolve_environment q) = true
  end.

(** The document an endpoint leaves behind. *)
Definition after (c : doc_cmd) (d : DocumentEntity) : option DocumentEntity :=
  match c with
  | Get => Some d
  | Update t co st => Some (mkDoc (doc_id d) (default (doc_title d) t) (default (doc_content d) co) (doc_owner_id d)
      (doc_tenant_id d) (doc_department d) (default (doc_status d) st) (doc_amount d))
  | Delete => None
  | Approve => Some (mkDoc (doc_id d) (doc_title d) (doc_content d) (doc_owner_id d) (doc_tenant_id d)
      (doc_department d) "approved" (doc_amount d))
  end.

Definition payload_ok (c : doc_cmd) : bool :=
  match c with Update t co st => update_request_valid t co st | _ => true end.

Definition action_of (c : doc_cmd) : string :=
  match c with Get => "read" | Update _ _ _ => "update" | Delete => "delete" | Approve => "approve" end.

Lemma guard_iff c q d :
  evaluate create_default_policy_engine (resolve_subject q)
    (mkResource "document" (doc_id d) (doc_owner_id d) (Some (doc_tenant_id d)) (Some (doc_department d)) (doc_status d)
      (Some (doc_amount d))) (action_of c) (resolve_environment q) = true <-> may c q d.
Proof.
  rewrite default_policy_table. unfold may, may_approve. cbn. split.
  - intros (_ & (t & -> & [= <-]) & Hm & Ha). split; [done|]. destruct c; cbn in *; naive_solver.
  - intros [-> H]. split; [done|]. split; [eauto|]. destruct c; cbn in *; naive_solver.
Qed.

(** An endpoint as a decision followed by one store update. *)
Lemma endpoint_runs c id q r (Hwf : docs_wf r) :
  run_endpoint c id q r =
  if id <? 1 then (Raise PydanticValidationError, r) else
  match dr_store r !! id with
  | None => (Raise DocumentNotFoundException, r)
  | Some d =>
      if evaluate create_default_policy_engine (resolve_subject q)
           (mkResource "document" (doc_id d) (doc_owner_id d) (Some (doc_tenant_id d)) (Some (doc_department d))
             (doc_status d) (Some (doc_amount d))) (action_of c) (resolve_environment q)
      then if payload_ok c then (Ok (), mkDocRepo (partial_alter (fun _ => after c d) id (dr_store r)) (dr_sequence r))
           else (Raise PydanticValidationError, r)
      else (Raise (HTTPException 403), r)
  end.
Proof.
  destruct r as [st sq]. cbn [dr_store dr_sequence].
  destruct c as [|t co stat| |]; unfold run_endpoint, get_endpoint, update_endpoint, delete_endpoint, approve_endpoint,
    path_id, check_abac_permission, get_document_resource, ds_update_document, ds_delete_document, ds_approve_document,
    ds_get_document, dr_update, dr_delete, bind, gets, raise_if, raise, ret;
    destruct (id <? 1); try done; cbn -[evaluate update_request_valid create_default_policy_engine resolve_subject resolve_environment];
    destruct (st !! id) as [d|] eqn:Hd; try done;
    destruct (evaluate _ _ _ _ _); try done; cbn -[update_request_valid]; rewrite ?Hd; try done.
  - by rewrite (partial_alter_id (fun _ => Some d) st id) by done.
  - destruct (update_request_valid t co stat); [|done]. cbn. rewrite Hd. cbn.
    rewrite (Hwf _ _ Hd). done.
  - cbn. by rewrite Hd.
  - cbn. rewrite (Hwf _ _ Hd). done.
Qed.

(** The document endpoints.  Every endpoint (read, update, delete, approve)
    raises and leaves the store as it was, or succeeds.  It succeeds exactly when
    the identifier is a stored document's, the payload is valid and the request
    meets the policies: the tenant it names is the document's tenant, updates and
    deletions come from an administrator or from the owner of a document that is
    not archived, approvals above 10,000 from finance in business hours.  Then
    only that document changes, its owner, tenant, department and amount stay,
    and the store keeps documents under their own identifiers.  A missing
    document is reported as such, a policy failure as 403. *)
Theorem document_endpoints_guarded (c : doc_cmd) (id : Z) (q : request) (r : doc_repo) (Hwf : docs_wf r) :
  let '(res, r') := run_endpoint c id q r in
  match res with
  | Ok _ => exists d, dr_store r !! id = Some d /\ 1 <= id /\ payload_ok c = true /\ may c q d /\
      dr_store r' = partial_alter (fun _ => after c d) id (dr_store r) /\ dr_sequence r' = dr_sequence r /\ docs_wf r' /\
      forall d', after c d = Some d' -> doc_owner_id d' = doc_owner_id d /\ doc_tenant_id d' = doc_tenant_id d /\
        doc_department d' = doc_department d /\ doc_amount d' = doc_amount d
  | Raise e => r' = r /\
      match dr_store r !! id with
      | None => e = DocumentNotFoundException \/ e = PydanticValidationError /\ id < 1
      | Some d => e = HTTPException 403 /\ ~ may c q d \/
                  e = PydanticValidationError /\ (id < 1 \/ payload_ok c = false /\ may c q d)
      end
  end.
Proof.
  rewrite endpoint_runs by done. destruct (Z.ltb_spec id 1); [split; [done|]; destruct (dr_store r !! id); auto|].
  destruct (dr_store r !! id) as [d|] eqn:Hd; [|auto].
  pose proof (guard_iff c q d) as Hg. destruct (evaluate _ _ _ _ _).
  2: { split; [done|]. left. split; [done|]. rewrite <-Hg. done. }
  assert (may c q d) by (by apply Hg).
  destruct (payload_ok c) eqn:Hp; [|split; [done|]; right; auto].
  exists d. do 6 (split; [done|]). split; [|destruct c; naive_solver].
  intros id' d'. cbn. destruct (decide (id = id')) as [<-|].
  - rewrite lookup_partial_alter. pose proof (Hwf _ _ Hd). rewrite decide_True by done. destruct c; naive_solver.
  - rewrite lookup_partial_alter_ne by done. apply Hwf.
Qed.

Definition ex_doc : DocumentEntity := mkDoc 1 "Q3 invoice" "body" 7 "acme" "sales" "active" 20000.
Definition ex_docs : doc_repo := mkDocRepo {[ 1 := ex_doc ]} 1.
Definition ex_owner : request :=
  mkReq (mkUser 7 "user" ROLE_USER) None (Some "acme") None None (Some "10.0.0.1") 0 2 10.

Lemma ex_docs_wf : docs_wf ex_docs.
Proof. intros id d. unfold ex_docs. cbn. intros [<- <-]%lookup_singleton_Some. done. Qed.

Lemma document_endpoints_guarded_witness :
  docs_wf (run_endpoint (Update (Some "Q3") None (Some "archived")) 1 ex_owner ex_docs).2 /\
  (run_endpoint Delete 1 ex_owner (run_endpoint (Update (Some "Q3") None (Some "archived")) 1 ex_owner ex_docs).2).1
  = Raise (HTTPException 403).
Proof.
  pose proof (document_endpoints_guarded (Update (Some "Q3") None (Some "archived")) 1 ex_owner ex_docs ex_docs_wf) as H.
  split; [|vm_compute; reflexivity].
  revert H. destruct (run_endpoint (Update _ _ _) 1 ex_owner ex_docs) as [[[]|e] r'] eqn:E.
  - intros (d & ? & ? & ? & ? & ? & ? & Hwf & ?). exact Hwf.
  - vm_compute in E. discriminate E.
Defined.

(** Tenant, department and business hours are the caller's own word.  The
    guard takes them from request headers, so that any authenticated user,
    whatever its role, reads any stored document of any tenant by sending that
    tenant's name, and approves any document, of any amount and at any hour, by
    also sending the finance department and business hours. *)
Theorem tenant_isolation_by_header (user : AuthenticatedUser) (id : Z) (d : DocumentEntity) (r : doc_repo)
  (ip host : option string) (now weekday hour : Z) (Hwf : docs_wf r) (Hid : 1 <= id) (Hd : dr_store r !! id = Some d) :
  let q dept hours := mkReq user dept (Some (doc_tenant_id d)) ip hours host now weekday hour in
  (forall dept hours, get_endpoint id (q dept hours) r = (Ok d, r)) /\
  (let '(res, r') := approve_endpoint id (q (Some "finance") (Some "true")) r in
   res = Ok (id, "approved", u_user_id user) /\ doc_status <$> dr_store r' !! id = Some "approved").
Proof.
  cbv zeta. split.
  - intros dept hours. set (q := mkReq user dept _ _ _ _ _ _ _).
    assert (may Get q d) as Hg by done. apply guard_iff in Hg. cbn [action_of] in Hg.
    unfold get_endpoint, path_id, check_abac_permission, get_document_resource, ds_get_document, bind, gets, raise_if, ret.
    destruct (Z.ltb_spec id 1); [lia|]. rewrite Hd. cbn -[evaluate create_default_policy_engine resolve_subject resolve_environment]. rewrite Hg. cbn. by rewrite Hd.
  - set (q := mkReq user _ _ _ _ _ _ _ _).
    assert (may Approve q d) as Hg. { split; [done|]. cbn. destruct (Qle_bool _ _); auto. }
    apply guard_iff in Hg. cbn [action_of] in Hg.
    unfold approve_endpoint, ds_approve_document, path_id, check_abac_permission, get_document_resource, ds_get_document,
      dr_update, bind, gets, raise_if, ret.
    destruct (Z.ltb_spec id 1); [lia|]. rewrite Hd. cbn -[evaluate create_default_policy_engine resolve_subject resolve_environment]. rewrite Hg. cbn. rewrite Hd. cbn.
    rewrite (Hwf _ _ Hd). by rewrite lookup_insert_eq.
Qed.

Lemma tenant_isolation_by_header_witness :
  get_endpoint 1 (mkReq (mkUser 99 "guest" ROLE_GUEST) None (Some "acme") None None None 0 6 3) ex_docs = (Ok ex_doc, ex_docs).
Proof.
  apply (tenant_isolation_by_header (mkUser 99 "guest" ROLE_GUEST) 1 ex_doc ex_docs None None 0 6 3 ex_docs_wf);
    [lia|reflexivity].
Defined.
