(* ===== verification/Idempotency.v ===== *)
(** Idempotent payments: [IdempotencyManager] of [app/core/idempotency.py], the
    payment service of [app/services/payment_service.py] and the charge endpoint of
    [app/routers/payment_router.py] that joins them.

    Redis is any [RedisServer] over idempotency records; time is in microseconds.
    Section [Manager] has the operations as sequential code.  Section [Interleaved]
    runs any number of requests with one key concurrently, one Redis command at a
    time, as the event loop does between awaits. *)

From Stdlib Require Import QArith.
From S2P Require Import Prelude Redis.

Local Open Scope Z_scope.
Local Open Scope py_scope.

Inductive IdempotencyState : Type := IN_PROGRESS | COMPLETED | FAILED.
#[global] Instance IdempotencyState_eq_dec : EqDecision IdempotencyState.
Proof. solve_decision. Defined.

(** [PaymentChargeResponse] *)
Record charge : Type := mkCharge {
  ch_id : Z; ch_order_id : string; ch_amount : Q; ch_currency : string; ch_status : string; ch_created_at : Z }.

(** The JSON record of a key: the members that are read back. *)
Record idem_record : Type := mkRecord {
  ir_state : option IdempotencyState;
  ir_request_hash : option string;
  ir_status_code : option Z;
  ir_response_body : option charge
}.

(** [PaymentService] *)
Record payment_service : Type := mkPay { ps_processed_counter : Z; ps_charge_history : list charge }.

Definition process_charge (charge_id now : Z) (order_id : string) (amount : Q) (currency : string) (p : payment_service)
  : charge * payment_service :=
  let c := mkCharge charge_id order_id amount currency "succeeded" now in
  (c, mkPay (ps_processed_counter p + 1) (ps_charge_history p ++ [c])).

(** [PaymentService.clear] *)
Definition payment_clear (p : payment_service) : payment_service := mkPay 0 [].

(** [compute_request_hash] up to SHA-256 of the fingerprint. *)
Definition fingerprint (method path raw_body : string) : string := py_upper method +:+ ":" +:+ path +:+ ":" +:+ raw_body.

Definition format_key (key : string) : string := "idempotency:" +:+ key.

Definition usecs (seconds : Z) : Z := seconds * 1000000.

Definition initial_payload (request_hash : string) : idem_record := mkRecord (Some IN_PROGRESS) (Some request_hash) None None.
Definition completed_record (request_hash : string) (status_code : Z) (body : charge) : idem_record :=
  mkRecord (Some COMPLETED) (Some request_hash) (Some status_code) (Some body).
Definition failed_record : idem_record := mkRecord (Some FAILED) None None None.

(** Steps 2 to 6 of [check_or_acquire]: what the record found under the key means
    for a request with this hash.  An empty stored hash is falsy. *)
Inductive verdict : Type := Reacquire | Replay (r : idem_record) | Reject (status : Z).

Definition inspect (request_hash : string) (raw : option idem_record) : verdict :=
  match raw with
  | None => Reacquire
  | Some r =>
      if match ir_request_hash r with
         | Some h => negb (bool_decide (h = "")) && negb (bool_decide (h = request_hash))
         | None => false
         end then Reject 422
      else if decide (ir_state r = Some IN_PROGRESS) then Reject 409
      else if decide (ir_state r = Some COMPLETED) then Replay r
      else Reacquire
  end.

Section Manager.
Context {RD : Type} {Srv : RedisServer RD idem_record}.

(** [check_or_acquire] at time [now], when no other client's command comes between. *)
Definition check_or_acquire (now : Z) (key request_hash : string) (ttl_seconds : Z) : M RD (bool * option idem_record) := fun rd =>
  match r_setnx now (format_key key) (initial_payload request_hash) (usecs ttl_seconds) rd with
  | (true, rd') => (Ok (false, None), rd')
  | (false, rd') =>
      match inspect request_hash (r_get now (format_key key) rd') with
      | Reacquire => (Ok (false, None), r_set now (format_key key) (initial_payload request_hash) (usecs ttl_seconds) rd')
      | Replay r => (Ok (true, Some r), rd')
      | Reject code => (Raise (HTTPException code), rd')
      end
  end.

Definition record_success (now : Z) (key request_hash : string) (status_code : Z) (response_body : charge) (ttl_seconds : Z)
  (rd : RD) : RD :=
  r_set now (format_key key) (completed_record request_hash status_code response_body) (usecs ttl_seconds) rd.

Definition record_failure (now : Z) (key : string) (ttl_seconds : Z) (rd : RD) : RD :=
  r_set now (format_key key) failed_record (usecs ttl_seconds) rd.

(** What the endpoint answers: status, body and whether it is a cache hit. *)
Record reply : Type := mkReply { rp_status : Z; rp_body : option charge; rp_hit : bool }.

(** [process_payment_charge_endpoint], run without interference at time [now];
    [sha256] is the digest function. *)
Definition process_payment_charge_endpoint (sha256 : string -> string) (now charge_id : Z)
  (method path raw_body idempotency_key order_id : string) (amount : Q) (currency : string)
  : M (RD * payment_service) reply := fun '(rd, p) =>
  let request_hash := sha256 (fingerprint method path raw_body) in
  match check_or_acquire now idempotency_key request_hash 86400 rd with
  | (Raise e, rd') => (Raise e, (rd', p))
  | (Ok (true, Some record), rd') =>
      (Ok (mkReply (default 201 (ir_status_code record)) (ir_response_body record) true), (rd', p))
  | (Ok _, rd') =>
      let '(c, p') := process_charge charge_id now order_id amount currency p in
      (Ok (mkReply 201 (Some c) false), (record_success now idempotency_key request_hash 201 c 86400 rd', p'))
  end.

Lemma setnx_present now k v ttl (rd : RD) r : r_get now k rd = Some r -> r_setnx now k v ttl rd = (false, rd).
Proof. intros H. by rewrite law_setnx, H. Qed.

(** [check_or_acquire] as one decision on the record found. *)
Lemma check_or_acquire_run now key h ttl (rd : RD) :
  check_or_acquire now key h ttl rd =
  match inspect h (r_get now (format_key key) rd) with
  | Reacquire => (Ok (false, None), r_set now (format_key key) (initial_payload h) (usecs ttl) rd)
  | Replay r => (Ok (true, Some r), rd)
  | Reject code => (Raise (HTTPException code), rd)
  end.
Proof.
  unfold check_or_acquire. rewrite law_setnx. destruct (r_get now (format_key key) rd) as [r|] eqn:E; [|done]. by rewrite E.
Qed.

(** The endpoint charges once per key and replays.  For a first request (no
    live record) the endpoint charges once and answers 201.  While its record
    lives (24 hours), repeating the request, any time and with whatever charge
    identifier would be drawn, answers 201 with the very same charge as a cache hit,
    charges nothing and writes nothing; and a request with the same key whose digest
    differs is rejected with 422, again without effect. *)
Theorem charge_endpoint_idempotent (sha256 : string -> string) (now now' id id' : Z) (m path body m' path' body' key order : string)
  (amt : Q) (cur : string) (rd : RD) (p : payment_service)
  (Hfresh : r_get now (format_key key) rd = None) (Hnow : now <= now' < now + usecs 86400)
  (Hsha : sha256 (fingerprint m path body) <> "") :
  let '(r1, (rd1, p1)) := process_payment_charge_endpoint sha256 now id m path body key order amt cur (rd, p) in
  let c := mkCharge id order amt cur "succeeded" now in
  r1 = Ok (mkReply 201 (Some c) false) /\
  p1 = mkPay (ps_processed_counter p + 1) (ps_charge_history p ++ [c]) /\
  process_payment_charge_endpoint sha256 now' id' m path body key order amt cur (rd1, p1) =
    (Ok (mkReply 201 (Some c) true), (rd1, p1)) /\
  (sha256 (fingerprint m' path' body') <> sha256 (fingerprint m path body) ->
   process_payment_charge_endpoint sha256 now' id' m' path' body' key order amt cur (rd1, p1) =
    (Raise (HTTPException 422), (rd1, p1))).
Proof.
  unfold process_payment_charge_endpoint. rewrite !check_or_acquire_run, Hfresh. cbn.
  split; [done|]. split; [done|].
  assert (forall rd0 h c, r_get now' (format_key key) (record_success now key h 201 c 86400 rd0) = Some (completed_record h 201 c)) as Hg.
  { intros. unfold record_success. rewrite law_get_set by (unfold usecs in *; lia). rewrite decide_True by done.
    by rewrite (proj2 (Z.ltb_lt _ _)) by lia. }
  split.
  - rewrite check_or_acquire_run, Hg. unfold inspect. cbn. set (h := sha256 _).
    by rewrite (bool_decide_eq_true_2 (h = h)), andb_false_r by done.
  - intros Hne. rewrite check_or_acquire_run, Hg. unfold inspect. cbn. rewrite !bool_decide_eq_false_2 by done. done.
Qed.
End Manager.

Definition ex_sha (s : string) : string := s.

Lemma charge_endpoint_idempotent_witness :
  let run1 := process_payment_charge_endpoint ex_sha 0 11 "post" "/payments/charge" "{a}" "key-0001" "ord" 10 "BDT"
    ((∅ : gmap string (idem_record * Z)), mkPay 0 []) in
  let run2 := process_payment_charge_endpoint ex_sha 5000000 12 "post" "/payments/charge" "{a}" "key-0001" "ord" 10 "BDT" run1.2 in
  run2 = (Ok (mkReply 201 (Some (mkCharge 11 "ord" 10 "BDT" "succeeded" 0)) true), run1.2) /\
  ps_processed_counter run2.2.2 = 1.
Proof.
  pose proof (charge_endpoint_idempotent (RD:=gmap string (idem_record * Z)) ex_sha 0 5000000 11 12 "post" "/payments/charge"
    "{a}" "post" "/payments/charge" "{b}" "key-0001" "ord" 10 "BDT" ∅ (mkPay 0 []) eq_refl) as H.
  cbv zeta. destruct (process_payment_charge_endpoint _ 0 _ _ _ _ _ _ _ _ _) as [r1 [rd1 p1]].
  destruct H as (_ & Hp & H2 & _); [unfold usecs; lia|done|]. cbn [snd]. rewrite H2. split; [reflexivity|]. cbn. by rewrite Hp.
Defined.

(** ** Concurrent requests with one key

    Every request of the endpoint with the key is in one of these phases; each
    step is one Redis command or the charge itself, and any request may move next.
    [Charged] to [Failing] is a [record_success] whose Redis command raises, which
    the handler's [except] turns into [record_failure]. *)

Section Interleaved.
Context {RD : Type} {Srv : RedisServer RD idem_record}.
Variables (key : string) (hash_of : nat -> string).

Inductive phase : Type :=
  | Start | MustGet | MustReset | Running | Charged (c : charge) | Failing | Answered (r : result reply).

Record csys : Type := mkC { y_now : Z; y_rd : RD; y_phase : nat -> phase; y_pay : payment_service }.

Definition upd (f : nat -> phase) (i : nat) (ph : phase) : nat -> phase := fun j => if decide (i = j) then ph else f j.

Definition after_verdict (v : verdict) : phase :=
  match v with
  | Reacquire => MustReset
  | Replay r => Answered (Ok (mkReply (default 201 (ir_status_code r)) (ir_response_body r) true))
  | Reject code => Answered (Raise (HTTPException code))
  end.

Inductive charge_step (i : nat) : csys -> csys -> Prop :=
  | st_setnx now rd f p b rd' : f i = Start ->
      r_setnx now (format_key key) (initial_payload (hash_of i)) (usecs 86400) rd = (b, rd') ->
      charge_step i (mkC now rd f p) (mkC now rd' (upd f i (if b : bool then Running else MustGet)) p)
  | st_get now rd f p : f i = MustGet ->
      charge_step i (mkC now rd f p)
        (mkC now rd (upd f i (after_verdict (inspect (hash_of i) (r_get now (format_key key) rd)))) p)
  | st_reset now rd f p : f i = MustReset ->
      charge_step i (mkC now rd f p)
        (mkC now (r_set now (format_key key) (initial_payload (hash_of i)) (usecs 86400) rd) (upd f i Running) p)
  | st_charge now rd f p id order amt cur c p' : f i = Running -> process_charge id now order amt cur p = (c, p') ->
      charge_step i (mkC now rd f p) (mkC now rd (upd f i (Charged c)) p')
  | st_success now rd f p c : f i = Charged c ->
      charge_step i (mkC now rd f p)
        (mkC now (record_success now key (hash_of i) 201 c 86400 rd) (upd f i (Answered (Ok (mkReply 201 (Some c) false)))) p)
  | st_success_raises now rd f p c : f i = Charged c -> charge_step i (mkC now rd f p) (mkC now rd (upd f i Failing) p)
  | st_failure now rd f p : f i = Failing ->
      charge_step i (mkC now rd f p)
        (mkC now (record_failure now key 3600 rd) (upd f i (Answered (Raise (CallerException 0)))) p).

Definition tick (t : Z) (y : csys) : csys := mkC (y_now y + t) (y_rd y) (y_phase y) (y_pay y).

(** Runs in which no request fails. *)
Inductive calm_run : csys -> csys -> Prop :=
  | cr_refl y : calm_run y y
  | cr_tick y y' t : calm_run y y' -> 0 <= t -> calm_run y (tick t y')
  | cr_step i y y' y'' : calm_run y y' -> charge_step i y' y'' -> (y_phase y'' i <> Failing) -> calm_run y y''.

(** Any run. *)
Inductive any_run : csys -> csys -> Prop :=
  | ar_refl y : any_run y y
  | ar_tick y y' t : any_run y y' -> 0 <= t -> any_run y (tick t y')
  | ar_step i y y' y'' : any_run y y' -> charge_step i y' y'' -> any_run y y''.

Definition cold (y : csys) : Prop :=
  r_get (y_now y) (format_key key) (y_rd y) = None /\ forall i, y_phase y i = Start.

(** Until the key is claimed nothing happened; then one request [w] owns the key,
    whose record [r] lives to the end of the 24 hours. *)
Definition owner_ok (n0 n : Z) (r : idem_record) (ph : phase) : Prop :=
  match ph with
  | Running => n = n0 /\ ir_state r = Some IN_PROGRESS
  | Charged _ => n = n0 + 1 /\ ir_state r = Some IN_PROGRESS
  | Answered rep => n = n0 + 1 /\
      exists h c, r = completed_record h 201 c /\ rep = Ok (mkReply 201 (Some c) false)
  | _ => False
  end.
Definition other_ok (r : idem_record) (ph : phase) : Prop :=
  match ph with
  | Start | MustGet | Answered (Raise _) => True
  | Answered (Ok rep) => exists h c, r = completed_record h 201 c /\ rep = mkReply 201 (Some c) true
  | _ => False
  end.
Definition calm_inv (t0 : Z) (n0 : Z) (y : csys) : Prop :=
  t0 <= y_now y /\
  (y_now y < t0 + usecs 86400 ->
   (cold y /\ ps_processed_counter (y_pay y) = n0) \/
   (exists w r, r_get (t0 + usecs 86400 - 1) (format_key key) (y_rd y) = Some r /\
      (forall i, i <> w -> other_ok r (y_phase y i)) /\
      owner_ok n0 (ps_processed_counter (y_pay y)) r (y_phase y w))).

Lemma get_set_live now now' v rd : now <= now' < now + usecs 86400 ->
  r_get now' (format_key key) (r_set now (format_key key) v (usecs 86400) rd) = Some v.
Proof.
  intros H. rewrite law_get_set by (unfold usecs in *; lia). rewrite decide_True by done.
  by rewrite (proj2 (Z.ltb_lt _ _)) by lia.
Qed.

(** A request that is not the owner finds the record and is turned away or served
    from it. *)
Lemma other_inspects h r n n0 ph : owner_ok n0 n r ph -> other_ok r (after_verdict (inspect h (Some r))).
Proof.
  intros Hw. unfold inspect. destruct (match ir_request_hash r with Some _ => _ | None => _ end); [done|].
  destruct ph as [| | | | | |rep]; cbn in Hw; try done.
  - destruct Hw as [_ ->]. by rewrite decide_True.
  - destruct Hw as [_ ->]. by rewrite decide_True.
  - destruct Hw as (_ & h' & c & -> & ->). rewrite decide_False, decide_True by done. cbn. eauto.
Qed.

Lemma upd_other f i w ph r : i <> w -> (forall j, j <> w -> other_ok r (f j)) -> other_ok r ph ->
  (forall j, j <> w -> other_ok r (upd f i ph j)) /\ upd f i ph w = f w.
Proof. intros Hi Ho Hp. unfold upd. split; [intros j Hj; case_decide; auto|by rewrite decide_False]. Qed.

Lemma other_in_progress r r' ph : ir_state r = Some IN_PROGRESS -> other_ok r ph -> other_ok r' ph.
Proof. intros Hr. destruct ph as [| | | | | |[rep|]]; try done. intros (h & c & -> & _). done. Qed.

Lemma calm_inv_step t0 n0 i y y' : calm_inv t0 n0 y -> charge_step i y y' -> y_phase y' i <> Failing -> calm_inv t0 n0 y'.
Proof.
  intros [Ht H] Hs Hcalm. destruct (Z.lt_ge_cases (y_now y) (t0 + usecs 86400)) as [Hlt|Hge].
  2: { destruct Hs; (split; [exact Ht|cbn in *; lia]). }
  destruct (H Hlt) as [[[Hc Hst] Hn]|(w & r & Hr & Ho & Hw)]; clear H.
  - (* nothing happened yet: only a first command is possible *)
    destruct Hs as [now rd f p b rd' Hf Hnx|now rd f p Hf|now rd f p Hf|now rd f p id order amt cur c p' Hf Hpc
      |now rd f p c Hf|now rd f p c Hf|now rd f p Hf]; cbn in *; rewrite Hst in Hf; try done.
    rewrite law_setnx, Hc in Hnx. injection Hnx as <- <-. split; [done|]. intros _. right.
    exists i, (initial_payload (hash_of i)). cbn. split; [apply get_set_live; lia|]. unfold upd. split.
    + intros j Hj. rewrite decide_False by done. by rewrite Hst.
    + by rewrite decide_True.
  - assert (r_get (y_now y) (format_key key) (y_rd y) = Some r) as Hnow by (eapply law_get_later; [|exact Hr]; lia).
    destruct Hs as [now rd f p b rd' Hf Hnx|now rd f p Hf|now rd f p Hf|now rd f p id order amt cur c p' Hf Hpc
      |now rd f p c Hf|now rd f p c Hf|now rd f p Hf]; cbn in *;
      (split; [exact Ht|]; intros _; right; cbn).
    + rewrite law_setnx, Hnow in Hnx. injection Hnx as <- <-.
      assert (i <> w) as Hi by (intros ->; by rewrite Hf in Hw).
      destruct (upd_other f i w MustGet r Hi Ho I) as [Ho' Hw']. exists w, r. by rewrite Hw'.
    + assert (i <> w) as Hi by (intros ->; by rewrite Hf in Hw). rewrite Hnow.
      destruct (upd_other f i w _ r Hi Ho (other_inspects (hash_of i) _ _ _ _ Hw)) as [Ho' Hw'].
      exists w, r. by rewrite Hw'.
    + exfalso. destruct (decide (i = w)) as [->|Hi]; [by rewrite Hf in Hw|]. specialize (Ho i Hi). by rewrite Hf in Ho.
    + destruct (decide (i = w)) as [->|Hi]; [|specialize (Ho i Hi); by rewrite Hf in Ho].
      rewrite Hf in Hw. destruct Hw as [Hn Hst]. injection Hpc as <- <-. exists w, r. split; [done|].
      unfold upd. split; [intros j Hj; rewrite decide_False by done; auto|]. rewrite decide_True by done. cbn. split; [lia|done].
    + destruct (decide (i = w)) as [->|Hi]; [|specialize (Ho i Hi); by rewrite Hf in Ho].
      rewrite Hf in Hw. destruct Hw as [Hn Hst]. exists w, (completed_record (hash_of w) 201 c).
      split; [apply get_set_live; lia|]. unfold upd. split.
      * intros j Hj. rewrite decide_False by done. eapply other_in_progress; eauto.
      * rewrite decide_True by done. cbn. split; [lia|eauto].
    + exfalso. apply Hcalm. unfold upd. by rewrite decide_True.
    + exfalso. destruct (decide (i = w)) as [->|Hi]; [by rewrite Hf in Hw|]. specialize (Ho i Hi). by rewrite Hf in Ho.
Qed.

Lemma calm_inv_tick t0 n0 t y : calm_inv t0 n0 y -> 0 <= t -> calm_inv t0 n0 (tick t y).
Proof.
  intros [Ht H] Hp. split; [cbn; lia|]. cbn. intros Hlt. destruct (H ltac:(lia)) as [[[Hc Hst] Hn]|Hr]; [left|right; exact Hr].
  split; [|done]. split; [|done]. cbn. destruct (r_get (y_now y + t) (format_key key) (y_rd y)) as [r|] eqn:E; [|done].
  eapply law_get_later in E; [by rewrite E in Hc|lia].
Qed.

Lemma calm_inv_run y0 y : cold y0 -> calm_run y0 y -> calm_inv (y_now y0) (ps_processed_counter (y_pay y0)) y.
Proof.
  intros Hc. induction 1 as [y|y y' t Hr IH Ht|i y y' y'' Hr IH Hs Hne].
  - split; [lia|]. intros _. by left.
  - apply calm_inv_tick; auto.
  - eapply calm_inv_step; eauto.
Qed.

(** C19: no double spending under concurrency.  Start any number of requests that
    carry the same idempotency key, with equal or different payloads, on a key
    without a live record, and let them run in any interleaving of their Redis
    commands, none of which raises (after one that does, see
    [failed_key_charged_again]).  Within 24 hours at most one charge
    is executed, and all requests that are answered successfully report that same
    charge. *)
Theorem charge_at_most_once (y0 y : csys) (Hc : cold y0) (Hr : calm_run y0 y) (Ht : y_now y < y_now y0 + usecs 86400) :
  ps_processed_counter (y_pay y) <= ps_processed_counter (y_pay y0) + 1 /\
  forall i j ri rj, y_phase y i = Answered (Ok ri) -> y_phase y j = Answered (Ok rj) ->
    rp_status ri = 201 /\ rp_body ri = rp_body rj /\ rp_body ri <> None.
Proof.
  destruct (calm_inv_run _ _ Hc Hr) as [_ H]. destruct (H Ht) as [[[_ Hst] Hn]|(w & r & _ & Ho & Hw)].
  - split; [lia|]. intros i j ri rj Hi. by rewrite Hst in Hi.
  - split.
    { destruct (y_phase y w); cbn in Hw; lia || done. }
    assert (forall i ri, y_phase y i = Answered (Ok ri) -> exists h c, r = completed_record h 201 c /\
      rp_status ri = 201 /\ rp_body ri = Some c) as Hany.
    { intros i ri Hi. destruct (decide (i = w)) as [->|Hne].
      - rewrite Hi in Hw. destruct Hw as (_ & h & c & Hr' & [= ->]). eauto.
      - specialize (Ho i Hne). rewrite Hi in Ho. destruct Ho as (h & c & Hr' & ->). eauto. }
    intros i j ri rj Hi Hj. destruct (Hany i ri Hi) as (h & c & -> & Hs & Hb).
    destruct (Hany j rj Hj) as (h' & c' & Heq & _ & Hb'). rewrite Hs, Hb, Hb'. injection Heq as _ <-. done.
Qed.

Lemma any_step i y y' y'' : any_run y y' -> charge_step i y' y'' -> any_run y y''.
Proof. apply ar_step. Qed.

Lemma get_failed now rd : r_get now (format_key key) (record_failure now key 3600 rd) = Some failed_record.
Proof.
  unfold record_failure. rewrite law_get_set by (unfold usecs; lia). rewrite decide_True by done.
  by rewrite (proj2 (Z.ltb_lt _ _)) by (unfold usecs; lia).
Qed.

(** Extend the run [R] by one step. *)
Tactic Notation "run_step" hyp(R) open_constr(st) tactic3(tac) := eapply any_step in R; [|eapply st; tac].

(** A failed key is charged again, and by every concurrent retry.  From any key
    without a live record there is a run of three requests that charges three
    times: the first request charges and its [record_success] raises, so the key is
    recorded as FAILED although the money was taken; two retries then both find
    FAILED before either of them writes, both take the key over with a plain SET,
    and both charge.  Only the window between a GET and a SET is needed, no time
    passes and no record expires. *)
Theorem failed_key_charged_again (y0 : csys) (Hc : cold y0) :
  exists y, any_run y0 y /\ y_now y = y_now y0 /\
    ps_processed_counter (y_pay y) = ps_processed_counter (y_pay y0) + 3 /\
    (exists c1 c2, y_phase y 1%nat = Answered (Ok (mkReply 201 (Some c1) false)) /\
                   y_phase y 2%nat = Answered (Ok (mkReply 201 (Some c2) false)) /\ c1 <> c2).
Proof.
  destruct y0 as [now rd f p], Hc as [Hk Hst]. cbn in Hk, Hst.
  set (y0 := mkC now rd f p). pose proof (ar_refl y0) as R. unfold y0 in R at 2.
  run_step R (st_setnx 0 now rd f p true) (apply Hst || by rewrite law_setnx, Hk).
  run_step R (st_charge 0 now _ _ _ 1 "o" 10%Q "BDT") reflexivity.
  run_step R (st_success_raises 0 now _ _ _ _) reflexivity.
  run_step R (st_failure 0 now _ _ _) reflexivity.
  run_step R (st_setnx 1 now _ _ _ false) (apply Hst || by rewrite law_setnx, get_failed).
  run_step R (st_setnx 2 now _ _ _ false) (apply Hst || by rewrite law_setnx, get_failed).
  run_step R (st_get 1 now _ _ _) reflexivity. rewrite get_failed in R.
  run_step R (st_get 2 now _ _ _) reflexivity. rewrite get_failed in R.
  run_step R (st_reset 1 now _ _ _) reflexivity. run_step R (st_reset 2 now _ _ _) reflexivity.
  run_step R (st_charge 1 now _ _ _ 2 "o" 10%Q "BDT") reflexivity.
  run_step R (st_charge 2 now _ _ _ 3 "o" 10%Q "BDT") reflexivity.
  run_step R (st_success 1 now _ _ _ _) reflexivity. run_step R (st_success 2 now _ _ _ _) reflexivity.
  eexists. split; [exact R|]. cbn. split; [done|]. split; [lia|]. eauto.
Qed.
End Interleaved.

Definition ex_cold : csys (RD:=gmap string (idem_record * Z)) := mkC 0 ∅ (fun _ => Start) (mkPay 0 []).
Lemma ex_cold_ok : cold "key-0001" ex_cold.
Proof. split; reflexivity. Qed.

Tactic Notation "calm_step" hyp(R) open_constr(st) tactic3(tac) :=
  eapply cr_step in R; [|eapply st; tac|discriminate].

(** Two concurrent requests: the second meets the first one in flight and gets 409. *)
Lemma charge_at_most_once_witness :
  exists y, calm_run "key-0001" (fun _ => "h") ex_cold y /\ y_phase y 1%nat = Answered (Raise (HTTPException 409)) /\
    ps_processed_counter (y_pay y) = 1 /\ ps_processed_counter (y_pay y) <= 0 + 1.
Proof.
  pose proof (cr_refl "key-0001" (fun _ => "h") ex_cold) as R. unfold ex_cold in R at 2.
  calm_step R (st_setnx _ _ 0 0 _ _ _ true) reflexivity.
  calm_step R (st_setnx _ _ 1 0 _ _ _ false) reflexivity.
  calm_step R (st_charge _ _ 0 0 _ _ _ 1 "o" 10%Q "BDT") reflexivity.
  calm_step R (st_get _ _ 1 0 _ _ _) reflexivity.
  calm_step R (st_success _ _ 0 0 _ _ _ _) reflexivity.
  eexists. split; [exact R|]. split; [reflexivity|]. split; [reflexivity|].
  apply (charge_at_most_once "key-0001" (fun _ => "h") ex_cold _ ex_cold_ok R). reflexivity.
Defined.

Lemma failed_key_charged_again_witness :
  exists y, any_run "key-0001" (fun _ => "h") ex_cold y /\ ps_processed_counter (y_pay y) = 3.
Proof.
  destruct (failed_key_charged_again "key-0001" (fun _ => "h") ex_cold ex_cold_ok) as (y & Hr & _ & Hn & _).
  exists y. split; [exact Hr|exact Hn].
Defined.
