(* ===== verification/PriorityQueue.v ===== *)
(** [PriorityJobScheduler] of [app/core/dsa/priority_queue.py] over the binary heap
    of Python's [heapq].

    [siftdown], [siftup], [heappush] and [heappop] follow the library's own code on
    a list; times are in microseconds.  Theorem [scheduler_is_priority_queue] states
    what the scheduler promises in terms of the bag of jobs it holds. *)

From S2P Require Import Prelude.

Local Open Scope nat_scope.

(** [JobPriority] *)
Definition CRITICAL : Z := 1.
Definition HIGH : Z := 2.
Definition NORMAL : Z := 3.
Definition LOW : Z := 4.

(** ** [heapq] *)

Section Heap.
Context {A : Type} (lt : A -> A -> bool).

(** The loop of [_siftdown(heap, 0, pos)]; [newitem] is written last.  The fuel is
    the position: each round at least halves it. *)
Fixpoint siftdown_loop (fuel : nat) (heap : list A) (pos : nat) (newitem : A) : list A :=
  match fuel with
  | 0 => <[pos := newitem]> heap
  | S fuel =>
      if 0 <? pos then
        let parentpos := (pos - 1) / 2 in
        match heap !! parentpos with
        | Some parent =>
            if lt newitem parent then siftdown_loop fuel (<[pos := parent]> heap) parentpos newitem
            else <[pos := newitem]> heap
        | None => heap
        end
      else <[pos := newitem]> heap
  end.
Definition siftdown (heap : list A) (pos : nat) : list A :=
  match heap !! pos with
  | Some newitem => siftdown_loop pos heap pos newitem
  | None => heap
  end.

(** The loop of [_siftup(heap, 0)]: the smaller child moves up until a leaf is
    reached; the result is the leaf's position. *)
Fixpoint siftup_loop (fuel : nat) (heap : list A) (pos : nat) : list A * nat :=
  match fuel with
  | 0 => (heap, pos)
  | S fuel =>
      let childpos := 2 * pos + 1 in
      if childpos <? length heap then
        let rightpos := childpos + 1 in
        let smaller :=
          match heap !! childpos, heap !! rightpos with
          | Some c, Some r => if negb (lt c r) then rightpos else childpos
          | _, _ => childpos
          end in
        match heap !! smaller with
        | Some c => siftup_loop fuel (<[pos := c]> heap) smaller
        | None => (heap, pos)
        end
      else (heap, pos)
  end.
Definition siftup (heap : list A) : list A :=
  match heap !! 0 with
  | Some newitem =>
      let '(heap', pos) := siftup_loop (length heap) heap 0 in
      siftdown (<[pos := newitem]> heap') pos
  | None => heap
  end.

Definition heappush (heap : list A) (item : A) : list A := siftdown (heap ++ [item]) (length heap).

Definition heappop (heap : list A) : option (A * list A) :=
  match last heap with
  | None => None
  | Some lastelt =>
      match removelast heap with
      | [] => Some (lastelt, [])
      | (returnitem :: _) as rest => Some (returnitem, siftup (<[0 := lastelt]> rest))
      end
  end.

End Heap.

(** ** Jobs *)

(** [PriorityJob]; the payload is opaque. *)
Record PriorityJob {P : Type} : Type := mkJob {
  j_priority : Z; j_scheduled_at : Z; j_sequence : Z; j_job_id : string; j_task_type : string; j_payload : P; j_retries : Z }.
Arguments PriorityJob : clear implicits.
Arguments mkJob {P}.

(** The generated [__lt__]: the compared fields as a tuple. *)
Definition job_lt {P} (a b : PriorityJob P) : bool :=
  (j_priority a <? j_priority b)%Z ||
  (j_priority a =? j_priority b)%Z &&
    ((j_scheduled_at a <? j_scheduled_at b)%Z ||
     (j_scheduled_at a =? j_scheduled_at b)%Z && (j_sequence a <? j_sequence b)%Z).

Section Scheduler.
Context {P : Type} (job_name : Z -> string).

Record scheduler : Type := mkSched { q_heap : list (PriorityJob P); q_sequence_counter : Z }.

Definition q_init : scheduler := mkSched [] 0.
Definition q_size (q : scheduler) : nat := length (q_heap q).
Definition q_is_empty (q : scheduler) : bool := length (q_heap q) =? 0.
Definition peek_sync (q : scheduler) : option (PriorityJob P) :=
  match q_heap q with [] => None | j :: _ => Some j end.

(** [schedule_sync]; [job_name n] is [f"job_{n:08d}"], used when no (or an empty)
    identifier is given. *)
Definition schedule_sync (now : Z) (task_type : string) (payload : P) (priority delay_seconds : Z) (job_id : option string)
  (q : scheduler) : string * scheduler :=
  let scheduled_at := (now + Z.max delay_seconds 0)%Z in
  let counter := (q_sequence_counter q + 1)%Z in
  let jid := match job_id with Some "" | None => job_name counter | Some s => s end in
  let job := mkJob priority scheduled_at counter jid task_type payload 0 in
  (jid, mkSched (heappush job_lt (q_heap q) job) counter).

Definition pop_due_job_sync (now : Z) (q : scheduler) : option (PriorityJob P) * scheduler :=
  match q_heap q with
  | [] => (None, q)
  | top :: _ =>
      if (j_scheduled_at top <=? now)%Z then
        match heappop job_lt (q_heap q) with
        | Some (j, heap') => (Some j, mkSched heap' (q_sequence_counter q))
        | None => (None, q)
        end
      else (None, q)
  end.

Definition q_clear (q : scheduler) : scheduler := mkSched [] 0.
End Scheduler.
Arguments scheduler : clear implicits.

(** ** Heap order *)

Section HeapProofs.
Context {A : Type} (lt : A -> A -> bool).
Definition le (a b : A) : Prop := lt b a = false.
Context (lt_le : forall a b, lt a b = true -> le a b) (le_trans : forall a b c, le a b -> le b c -> le a c).
Implicit Types h : list A.

Definition par (j : nat) : nat := (j - 1) / 2.

Lemma par_lt j : 0 < j -> par j < j.
Proof. unfold par. intros. apply Nat.Div0.div_lt_upper_bound. lia. Qed.
Lemma par_child j p : 0 < j -> par j = p <-> j = 2 * p + 1 \/ j = 2 * p + 2.
Proof.
  intros Hj. unfold par. pose proof (Nat.div_mod (j - 1) 2 ltac:(lia)). pose proof (Nat.mod_upper_bound (j - 1) 2 ltac:(lia)). lia.
Qed.

(** The edge from the parent of [j] to [j] is in order. *)
Definition edge h (i j : nat) : Prop := forall x y, h !! i = Some x -> h !! j = Some y -> le x y.
Definition heap_ok h : Prop := forall j, 0 < j -> edge h (par j) j.

(** In order but for the edge above [pos], around which the order still holds. *)
Definition down_ok h (pos : nat) : Prop :=
  (forall j, 0 < j -> j <> pos -> edge h (par j) j) /\ (forall j, 0 < j -> 0 < pos -> par j = pos -> edge h (par pos) j).
(** In order but for the edges at [pos], around which the order still holds. *)
Definition up_ok h (pos : nat) : Prop :=
  (forall j, 0 < j -> j <> pos -> par j <> pos -> edge h (par j) j) /\
  (forall j, 0 < j -> 0 < pos -> par j = pos -> edge h (par pos) j).

Lemma swap_perm h i j x b : i <> j -> h !! j = Some b -> i < length h -> <[j := x]> (<[i := b]> h) ≡ₚ <[i := x]> h.
Proof.
  intros Hij Hj Hi. apply Permutation_inj. split; [by rewrite !length_insert|].
  exists (fun k => if decide (k = i) then j else if decide (k = j) then i else k). split.
  - intros k1 k2. repeat case_decide; congruence.
  - intros k. rewrite !list_lookup_insert, length_insert. apply lookup_lt_Some in Hj as Hl.
    repeat case_decide; subst; try (done || lia || naive_solver).
Qed.

Lemma edge_insert_other h i j k x : k <> i -> k <> j -> edge (<[k := x]> h) i j <-> edge h i j.
Proof. intros. unfold edge. by rewrite !list_lookup_insert_ne. Qed.

Lemma down_step h pos n p : 0 < pos -> pos < length h -> h !! par pos = Some p -> lt n p = true ->
  down_ok (<[pos := n]> h) pos -> down_ok (<[par pos := n]> (<[pos := p]> h)) (par pos).
Proof.
  intros Hpos Hlen Hp Hlt [D1 D2]. pose proof (par_lt pos Hpos) as Hpp.
  set (g := <[pos := n]> h) in *. set (g' := <[par pos := n]> (<[pos := p]> h)).
  assert (g !! pos = Some n) as Gp by (by apply list_lookup_insert_eq).
  assert (g !! par pos = Some p) as Gq by (unfold g; by rewrite list_lookup_insert_ne by lia).
  assert (g' !! par pos = Some n) as Gq' by (apply list_lookup_insert_eq; rewrite length_insert; lia).
  assert (g' !! pos = Some p) as Gp' by (unfold g'; rewrite list_lookup_insert_ne by lia; by apply list_lookup_insert_eq).
  assert (forall k, k <> pos -> k <> par pos -> g' !! k = g !! k) as Go.
  { intros k H1 H2. unfold g, g'. by rewrite !list_lookup_insert_ne by done. }
  assert (forall j, 0 < j -> j <> pos -> par j = par pos -> forall y, g !! j = Some y -> le p y) as Sib.
  { intros j Hj Hne Hq y Hy. apply (D1 j Hj Hne p y); [by rewrite Hq|done]. }
  split.
  - intros j Hj Hjq x y Hx Hy. destruct (decide (j = pos)) as [->|Hjp].
    { rewrite Gq' in Hx. rewrite Gp' in Hy. simplify_eq. by apply lt_le. }
    rewrite Go in Hy by done. destruct (decide (par j = pos)) as [E|E].
    { rewrite E, Gp' in Hx. injection Hx as <-. by apply (D2 j Hj Hpos E). }
    destruct (decide (par j = par pos)) as [E2|E2].
    { rewrite E2, Gq' in Hx. injection Hx as <-. eapply le_trans; [by apply lt_le|]. exact (Sib j Hj Hjp E2 y Hy). }
    rewrite Go in Hx by done. by apply (D1 j).
  - intros j Hj Hq0 Hjq x y Hx Hy. rewrite Go in Hx by (pose proof (par_lt (par pos) Hq0); lia).
    assert (le x p) as Hxp by (apply (D1 (par pos)); try done; lia).
    destruct (decide (j = pos)) as [->|Hjp]; [rewrite Gp' in Hy; by simplify_eq|].
    rewrite Go in Hy by (done || (intros Heq; rewrite Heq in Hjq; pose proof (par_lt (par pos) Hq0); lia)).
    eapply le_trans; [exact Hxp|]. exact (Sib j Hj Hjp Hjq y Hy).
Qed.

Lemma siftdown_loop_ok fuel h pos n : pos <= fuel -> pos < length h -> down_ok (<[pos := n]> h) pos ->
  heap_ok (siftdown_loop lt fuel h pos n) /\ siftdown_loop lt fuel h pos n ≡ₚ <[pos := n]> h.
Proof.
  revert h pos. induction fuel as [|fuel IH]; intros h pos Hf Hlen HD; cbn [siftdown_loop].
  { split; [|done]. intros j Hj. apply HD; lia. }
  destruct (Nat.ltb_spec 0 pos) as [Hpos|]; [|split; [intros j Hj; apply HD; lia|done]].
  pose proof (par_lt pos Hpos). fold (par pos). destruct (h !! par pos) as [p|] eqn:Hp.
  2: { apply lookup_ge_None in Hp. lia. }
  destruct (lt n p) eqn:Hlt.
  - destruct (IH (<[pos := p]> h) (par pos)) as [H1 H2]; [lia|rewrite length_insert; lia|by apply down_step|].
    split; [done|]. rewrite H2. apply swap_perm; try done; lia.
  - split; [|done]. intros j Hj. destruct (decide (j = pos)) as [->|Hne]; [|by apply HD].
    intros x y Hx Hy. rewrite list_lookup_insert_ne in Hx by lia. rewrite list_lookup_insert_eq in Hy by done. by simplify_eq.
Qed.

Lemma siftdown_ok h pos : pos < length h -> down_ok h pos -> heap_ok (siftdown lt h pos) /\ siftdown lt h pos ≡ₚ h.
Proof.
  intros Hl HD. unfold siftdown. destruct (h !! pos) as [n|] eqn:Hn; [|apply lookup_ge_None in Hn; lia].
  rewrite <-(list_insert_id h pos n Hn) in HD. destruct (siftdown_loop_ok pos h pos n) as [H1 H2]; try done.
  by rewrite (list_insert_id h pos n Hn) in H2.
Qed.

Lemma heappush_ok h x : heap_ok h -> heap_ok (heappush lt h x) /\ heappush lt h x ≡ₚ x :: h.
Proof.
  intros Hh. destruct (siftdown_ok (h ++ [x]) (length h)) as [H1 H2].
  - rewrite length_app. cbn. lia.
  - split.
    + intros j Hj Hne a b Ha Hb. pose proof (par_lt j Hj). apply lookup_lt_Some in Hb as Hl. rewrite length_app in Hl. cbn in Hl.
      rewrite lookup_app_l in Ha by lia. rewrite lookup_app_l in Hb by lia. by apply (Hh j).
    + intros j Hj H0 Hp a b Ha Hb. apply lookup_lt_Some in Hb as Hl. rewrite length_app in Hl. cbn in Hl.
      pose proof (par_lt j Hj). lia.
  - split; [exact H1|]. unfold heappush. rewrite H2. by rewrite Permutation_app_comm.
Qed.

(** The smaller of the two children of [pos]. *)
Lemma up_step h pos s c : pos < length h -> par s = pos -> 0 < s -> h !! s = Some c ->
  (forall j y, 0 < j -> par j = pos -> j <> s -> h !! j = Some y -> le c y) ->
  up_ok h pos -> up_ok (<[pos := c]> h) s.
Proof.
  intros Hl Hs Hs0 Hc Hmin [U1 U2]. pose proof (par_lt s Hs0).
  assert (<[pos := c]> h !! pos = Some c) as Gp by (by apply list_lookup_insert_eq).
  split.
  - intros j Hj Hjs Hps x y Hx Hy. destruct (decide (j = pos)) as [->|Hjp].
    { pose proof (par_lt pos Hj). rewrite list_lookup_insert_ne in Hx by lia. rewrite Gp in Hy. injection Hy as <-.
      by apply (U2 s Hs0 Hj Hs). }
    rewrite list_lookup_insert_ne in Hy by done. destruct (decide (par j = pos)) as [E|E].
    { rewrite E, Gp in Hx. injection Hx as <-. by apply (Hmin j). }
    rewrite list_lookup_insert_ne in Hx by done. by apply (U1 j).
  - intros j Hj _ Hjs x y Hx Hy. pose proof (par_lt j Hj). rewrite Hs, Gp in Hx. injection Hx as <-.
    rewrite list_lookup_insert_ne in Hy by lia. apply (U1 j); try done; try lia. by rewrite Hjs.
Qed.

Lemma siftup_loop_ok fuel h pos x : length h - pos <= fuel -> pos < length h -> up_ok h pos ->
  let '(h', pos') := siftup_loop lt fuel h pos in
  length h' = length h /\ pos' < length h /\ down_ok (<[pos' := x]> h') pos' /\ <[pos' := x]> h' ≡ₚ <[pos := x]> h.
Proof.
  revert h pos. induction fuel as [|fuel IH]; intros h pos Hf Hl HU; cbn [siftup_loop]; [lia|].
  destruct (Nat.ltb_spec (2 * pos + 1) (length h)) as [Hc|Hc].
  - (* the child that moves up *)
    assert (exists s c, (match h !! (2 * pos + 1), h !! (2 * pos + 1 + 1) with
        | Some c, Some r => if negb (lt c r) then 2 * pos + 1 + 1 else 2 * pos + 1 | _, _ => 2 * pos + 1 end) = s /\
      h !! s = Some c /\ 0 < s /\ par s = pos /\
      (forall j y, 0 < j -> par j = pos -> j <> s -> h !! j = Some y -> le c y)) as (s & c & -> & Hsc & Hs0 & Hps & Hmin).
    { destruct (lookup_lt_is_Some_2 h (2 * pos + 1) Hc) as [c Ec]. rewrite Ec.
      destruct (h !! (2 * pos + 1 + 1)) as [r|] eqn:Er; [destruct (lt c r) eqn:Hcr; cbn|].
      - exists (2 * pos + 1), c. repeat split; auto; [lia|apply par_child; lia|]. intros j y Hj [->| ->]%par_child Hne Hy; [done| |done].
        replace (2 * pos + 2) with (2 * pos + 1 + 1) in Hy by lia. rewrite Er in Hy. injection Hy as <-. by apply lt_le.
      - exists (2 * pos + 1 + 1), r. repeat split; auto; [lia|apply par_child; lia|]. intros j y Hj [->| ->]%par_child Hne Hy; [|lia|done].
        rewrite Ec in Hy. by injection Hy as <-.
      - exists (2 * pos + 1), c. repeat split; auto; [lia|apply par_child; lia|]. intros j y Hj [->| ->]%par_child Hne Hy; [done| |done].
        replace (2 * pos + 2) with (2 * pos + 1 + 1) in Hy by lia. by rewrite Er in Hy. }
    rewrite Hsc. pose proof (par_lt s Hs0). apply lookup_lt_Some in Hsc as Hsl.
    specialize (IH (<[pos := c]> h) s). rewrite length_insert in IH. specialize (IH ltac:(lia) Hsl ltac:(by apply up_step)).
    destruct (siftup_loop lt fuel (<[pos := c]> h) s) as [h' pos'] eqn:E. destruct IH as (I1 & I2 & I3 & I4).
    split; [done|]. split; [done|]. split; [done|]. rewrite I4. apply swap_perm; try done; lia.
  - split; [done|]. split; [done|]. split; [|done]. destruct HU as [U1 U2].
    assert (forall j y, 0 < j -> par j = pos -> <[pos := x]> h !! j = Some y -> False) as Hleaf.
    { intros j y Hj Hp Hy. apply lookup_lt_Some in Hy. rewrite length_insert in Hy.
      apply (par_child j pos Hj) in Hp. lia. }
    split.
    + intros j Hj Hjp a b Ha Hb. destruct (decide (par j = pos)) as [E|E]; [by edestruct Hleaf|].
      rewrite list_lookup_insert_ne in Ha, Hb by done. by apply (U1 j).
    + intros j Hj _ Hp a b _ Hb. by edestruct Hleaf.
Qed.

Lemma siftup_ok h : 0 < length h -> up_ok h 0 -> heap_ok (siftup lt h) /\ siftup lt h ≡ₚ h.
Proof.
  intros Hl HU. unfold siftup. destruct (h !! 0) as [x|] eqn:Hx; [|apply lookup_ge_None in Hx; lia].
  pose proof (siftup_loop_ok (length h) h 0 x ltac:(lia) Hl HU) as H. destruct (siftup_loop lt (length h) h 0) as [h' pos'].
  destruct H as (H1 & H2 & H3 & H4). destruct (siftdown_ok (<[pos' := x]> h') pos') as [S1 S2]; [rewrite length_insert; lia|done|].
  split; [done|]. rewrite S2, H4. by rewrite (list_insert_id h 0 x Hx).
Qed.

Lemma heap_root_min h m : heap_ok h -> h !! 0 = Some m -> forall i y, h !! i = Some y -> le m y \/ m = y.
Proof.
  intros Hh Hm i. induction (lt_wf i) as [i _ IH]. intros y Hy. destruct (decide (i = 0)) as [->|Hi]; [right; congruence|].
  pose proof (par_lt i ltac:(lia)) as Hp. apply lookup_lt_Some in Hy as Hl.
  destruct (lookup_lt_is_Some_2 h (par i) ltac:(lia)) as [z Hz].
  left. pose proof (Hh i ltac:(lia) z y Hz Hy). destruct (IH _ Hp z Hz) as [|<-]; eauto.
Qed.

Lemma heappop_ok m h : heap_ok (m :: h) ->
  exists h', heappop lt (m :: h) = Some (m, h') /\ heap_ok h' /\ h' ≡ₚ h.
Proof.
  intros Hh. unfold heappop. destruct h as [|a h0] using rev_ind.
  { exists []. split; [done|]. split; [|done]. intros j Hj x y Hx. done. }
  clear IHh0. rewrite app_comm_cons, last_snoc, removelast_last. cbn [list_insert insert].
  destruct (siftup_ok (a :: h0)) as [S1 S2]; [cbn; lia| |].
  - split; [|lia]. intros j Hj _ Hp x y Hx Hy. apply lookup_lt_Some in Hy as Hl. pose proof (par_lt j Hj).
    apply (Hh j Hj); [rewrite app_comm_cons, lookup_app_l by (cbn in *; lia); rewrite <-Hx
                     |rewrite app_comm_cons, lookup_app_l by done; rewrite <-Hy];
      [by destruct (par j)|by destruct j].
  - eexists. split; [done|]. split; [done|]. rewrite S2. by rewrite Permutation_app_comm.
Qed.
End HeapProofs.

(** ** The scheduler *)

Section SchedulerProofs.
Context {P : Type} (job_name : Z -> string).
Implicit Types (a b c : PriorityJob P) (q : scheduler P).

Lemma job_lt_le a b : job_lt a b = true -> le job_lt a b.
Proof. unfold le, job_lt. lia. Qed.
Lemma job_le_trans a b c : le job_lt a b -> le job_lt b c -> le job_lt a c.
Proof. unfold le, job_lt. lia. Qed.
Lemma job_le_strict a b : le job_lt a b -> j_sequence a <> j_sequence b -> job_lt a b = true.
Proof. unfold le, job_lt. lia. Qed.

(** Heap order, and sequence numbers that are distinct and already drawn. *)
Record sched_inv q : Prop := {
  si_heap : heap_ok job_lt (q_heap q);
  si_seq : Forall (fun j => (j_sequence j <= q_sequence_counter q)%Z) (q_heap q);
  si_nodup : NoDup (j_sequence <$> q_heap q)
}.

Lemma sched_inv_init : sched_inv q_init.
Proof. split; [intros j Hj x y Hx; done|constructor|constructor]. Qed.

(** In a well-formed queue the root precedes every other job strictly. *)
Lemma root_first top rest n : sched_inv (mkSched (top :: rest) n) -> Forall (fun k => job_lt top k = true) rest.
Proof.
  intros [Hh _ Hnd]. cbn in *. apply NoDup_cons in Hnd as [Hni _]. apply Forall_forall. intros k Hk.
  apply list_elem_of_lookup in Hk as [i Hi].
  assert (j_sequence top <> j_sequence k) as Hne.
  { intros E. apply Hni. rewrite E. apply list_elem_of_fmap. exists k. split; [done|]. by eapply list_elem_of_lookup_2. }
  destruct (heap_root_min job_lt job_le_trans (top :: rest) top Hh eq_refl (S i) k Hi) as [|<-]; [|done].
  by apply job_le_strict.
Qed.

Lemma schedule_ok now ty (pl : P) prio delay id q : sched_inv q ->
  let '(jid, q') := schedule_sync job_name now ty pl prio delay id q in
  sched_inv q' /\
  q_heap q' ≡ₚ mkJob prio (now + Z.max delay 0) (q_sequence_counter q + 1) jid ty pl 0 :: q_heap q /\
  (forall s, id = Some s -> s <> "" -> jid = s).
Proof.
  destruct q as [h n]. intros [Hh Hs Hnd]. cbn in Hh, Hs, Hnd.
  unfold schedule_sync. cbn -[heappush]. set (j := mkJob prio _ _ _ _ _ _).
  destruct (heappush_ok job_lt job_lt_le job_le_trans h j Hh) as [H1 H2].
  split; [|split; [done|intros s -> Hne; by destruct s]].
  split; cbn -[heappush].
  - done.
  - rewrite H2. constructor; [cbn; lia|]. eapply Forall_impl; [exact Hs|]. cbn. lia.
  - rewrite H2. cbn. apply NoDup_cons. split; [|done]. intros (k & Hk & Hin)%list_elem_of_fmap.
    rewrite Forall_forall in Hs. specialize (Hs k Hin). lia.
Qed.

Lemma pop_due_ok now q : sched_inv q ->
  let '(popped, q') := pop_due_job_sync now q in
  sched_inv q' /\
  match popped with
  | Some j => peek_sync q = Some j /\ (j_scheduled_at j <= now)%Z /\ q_heap q ≡ₚ j :: q_heap q' /\
              Forall (fun k => job_lt j k = true) (q_heap q')
  | None => q' = q /\ (q_heap q = [] \/ exists top, peek_sync q = Some top /\ (now < j_scheduled_at top)%Z)
  end.
Proof.
  destruct q as [h n]. intros [Hh Hs Hnd]. cbn in Hh, Hs, Hnd.
  unfold pop_due_job_sync. cbn [q_heap]. destruct h as [|top rest]; [split; [done|auto]|].
  destruct (Z.leb_spec (j_scheduled_at top) now) as [Hd|Hd]; [|split; [done|split; [done|right; eauto]]].
  destruct (heappop_ok job_lt job_lt_le job_le_trans top rest Hh) as (h' & -> & Hh' & Hp). cbn -[heappush].
  apply Forall_cons in Hs as [Hs0 Hs]. cbn in Hnd. apply NoDup_cons in Hnd as Hnd'. destruct Hnd' as [Hni Hnd'].
  split; [split; cbn; [done|by rewrite Hp|by rewrite Hp]|].
  split; [done|]. split; [done|]. split; [by rewrite Hp|]. rewrite Hp. eapply (root_first _ _ n). split; cbn; auto.
Qed.

(** The scheduler is a priority queue with first-in-first-out ties.  In every
    reachable queue (the invariant holds initially, after [clear], and every
    operation keeps it): scheduling adds exactly the new job, due at the given
    delay and never in the past, under the given identifier; [peek] shows the job
    that strictly precedes all others by priority, due time and then arrival;
    and [pop_due_job] removes and returns exactly that job when it is due, and
    otherwise, whatever else may be due, returns nothing and changes nothing. *)
Theorem scheduler_is_priority_queue (now : Z) (ty : string) (pl : P) (prio delay : Z) (id : option string) (q : scheduler P)
  (Hq : sched_inv q) :
  (let '(jid, q') := schedule_sync job_name now ty pl prio delay id q in
   sched_inv q' /\
   q_heap q' ≡ₚ mkJob prio (now + Z.max delay 0) (q_sequence_counter q + 1) jid ty pl 0 :: q_heap q /\
   (forall s, id = Some s -> s <> "" -> jid = s)) /\
  match peek_sync q with
  | None => q_heap q = []
  | Some top => exists rest, q_heap q = top :: rest /\ Forall (fun k => job_lt top k = true) rest
  end /\
  (let '(popped, q') := pop_due_job_sync now q in
   sched_inv q' /\
   match popped with
   | Some j => peek_sync q = Some j /\ (j_scheduled_at j <= now)%Z /\ q_heap q ≡ₚ j :: q_heap q' /\
               Forall (fun k => job_lt j k = true) (q_heap q')
   | None => q' = q /\ (q_heap q = [] \/ exists top, peek_sync q = Some top /\ (now < j_scheduled_at top)%Z)
   end).
Proof.
  split; [by apply schedule_ok|]. split; [|by apply pop_due_ok].
  destruct q as [[|top rest] n]; [done|]. exists rest. split; [done|]. by eapply (root_first _ _ n).
Qed.
End SchedulerProofs.

Definition ex_name (n : Z) : string := "job".
(** Three jobs: LOW first, then CRITICAL and HIGH, all due. *)
Definition ex_queue : scheduler () :=
  let q := (schedule_sync ex_name 0 "mail" () LOW 0 None q_init).2 in
  let q := (schedule_sync ex_name 1 "pay" () CRITICAL 0 None q).2 in
  (schedule_sync ex_name 2 "log" () HIGH 0 None q).2.

Lemma ex_queue_inv : sched_inv ex_queue.
Proof.
  unfold ex_queue. do 3 match goal with |- sched_inv (schedule_sync ?f ?now ?ty ?pl ?pr ?d ?id ?q).2 =>
    let H := fresh in enough (sched_inv q) as H; [pose proof (schedule_ok f now ty pl pr d id q H) as K;
      destruct (schedule_sync f now ty pl pr d id q); exact (proj1 K)|] end.
  apply sched_inv_init.
Qed.

Lemma scheduler_is_priority_queue_witness :
  (j_task_type <$> (pop_due_job_sync 10 ex_queue).1) = Some "pay" /\ sched_inv (pop_due_job_sync 10 ex_queue).2.
Proof.
  split; [vm_compute; reflexivity|].
  destruct (scheduler_is_priority_queue ex_name 10 "x" () LOW 0 None ex_queue ex_queue_inv) as (_ & _ & H).
  destruct (pop_due_job_sync 10 ex_queue) as [j q']. exact (proj1 H).
Defined.
