(* ===== verification/Jobs.v ===== *)
(** Background jobs: [app/services/job_service.py] over the priority queue of
    PriorityQueue.v and the one-shot lock of DistLock.v, with the endpoints of
    [app/routers/job_router.py].

    Times are microseconds.  The clock is an argument: a function from the number of
    readings made so far in the call.  The payload of a job is opaque. *)

From S2P Require Import Prelude Redis DistLock PriorityQueue.

Local Open Scope Z_scope.
Local Open Scope py_scope.

(** [JobPriority(p).name] *)
Definition priority_name (p : Z) : result string :=
  if p =? CRITICAL then Ok "CRITICAL" else if p =? HIGH then Ok "HIGH"
  else if p =? NORMAL then Ok "NORMAL" else if p =? LOW then Ok "LOW" else Raise PyValueError.
Definition valid_priority (p : Z) : bool := (CRITICAL <=? p) && (p <=? LOW).

Section Service.
Context {P : Type} (job_name : Z -> string).

(** Entries of [_processed_history]: jobs run by the worker and exclusive runs. *)
Inductive processed : Type :=
  | JobRun (job_id task_type priority : string) (executed_at : Z) (payload : P)
  | ExclusiveRun (job_name status execution_token : string) (payload : P) (executed_at duration : Z).

Record job_service : Type := mkJobs { js_scheduler : scheduler P; js_processed_history : list processed }.
Definition js_init (q : scheduler P) : job_service := mkJobs q [].
Definition set_scheduler (q : scheduler P) (s : job_service) : job_service := mkJobs q (js_processed_history s).
Definition record_processed (x : processed) (s : job_service) : job_service :=
  mkJobs (js_scheduler s) (js_processed_history s ++ [x]).

(** The response of [schedule_job]: identifier, task type, priority label, due time, status. *)
Record scheduled : Type := mkScheduled {
  sd_job_id : string; sd_task_type : string; sd_priority : string; sd_scheduled_at : Z; sd_status : string }.

Definition schedule_job (clock : nat -> Z) (task_type : string) (payload : P) (priority delay_seconds : Z)
    (job_id : option string) : M job_service scheduled := fun s =>
  let scheduled_at := clock 0%nat + Z.max delay_seconds 0 in
  let '(jid, q) := schedule_sync job_name (clock 1%nat) task_type payload priority delay_seconds job_id (js_scheduler s) in
  (let? name := priority_name priority in Ok (mkScheduled jid task_type name scheduled_at "scheduled"), set_scheduler q s).

(** Queue size, whether jobs are pending, label and due time of the root. *)
Definition get_telemetry (s : job_service) : result (Z * bool * option string * option Z) :=
  let size := Z.of_nat (q_size (js_scheduler s)) in
  match peek_sync (js_scheduler s) with
  | None => Ok (size, 0 <? size, None, None)
  | Some next_job =>
      let? name := priority_name (j_priority next_job) in
      Ok (size, 0 <? size, Some name, Some (j_scheduled_at next_job))
  end.

(** The loop of [process_due_jobs]: [n] rounds are left, [i] clock readings were made. *)
Fixpoint process_loop (clock : nat -> Z) (n i : nat) (executed : list processed) : M job_service (list processed) := fun s =>
  match n with
  | O => (Ok executed, s)
  | S n' =>
      let '(popped, q) := pop_due_job_sync (clock i) (js_scheduler s) in
      let s1 := set_scheduler q s in
      match popped with
      | None => (Ok executed, s1)
      | Some job =>
          match priority_name (j_priority job) with
          | Raise e => (Raise e, s1)
          | Ok name =>
              let res := JobRun (j_job_id job) (j_task_type job) name (clock (S i)) (j_payload job) in
              process_loop clock n' (S (S i)) (executed ++ [res]) (record_processed res s1)
          end
      end
  end.
Definition process_due_jobs (clock : nat -> Z) (max_jobs : Z) : M job_service (list processed) :=
  process_loop clock (Z.to_nat max_jobs) 0 [].

(** One second when the queue is empty, nothing when the root is due, otherwise the
    time to the root's due time kept between 10 milliseconds and one second. *)
Definition compute_adaptive_sleep_delay (now : Z) (s : job_service) : Z :=
  match peek_sync (js_scheduler s) with
  | None => 1000000
  | Some next_job =>
      let time_until_due := j_scheduled_at next_job - now in
      if time_until_due <=? 0 then 0 else Z.min (Z.max time_until_due 10000) 1000000
  end.

(** [execute_exclusive_job]: [tok] is the token drawn by [acquire], [meanwhile] what the
    other clients do to the server between the two Redis commands. *)
Context {RD : Type} {Srv : RedisServer RD string}.
Definition execute_exclusive_job (clock : nat -> Z) (tok : string) (meanwhile : RD -> RD) (name : string) (payload : P)
    (ttl_ms : Z) : M (job_service * RD) processed := fun '(s, rd) =>
  let '(acquired, lock, rd1) := dlock_acquire (clock 0%nat) tok (dlock_init name ttl_ms) rd in
  if negb acquired then (Raise DistributedLockConflictException, (s, rd1))
  else
    let res := ExclusiveRun name "completed" (default "" (dl_token lock)) payload (clock 2%nat) (clock 3%nat - clock 1%nat) in
    let '(_, _, rd2) := dlock_release (clock 4%nat) lock (meanwhile rd1) in
    (Ok res, (record_processed res s, rd2)).

(** ** Endpoints: the request schema, then the service *)

Definition schedule_job_endpoint (clock : nat -> Z) (task_type : string) (payload : P) (priority delay_seconds : Z)
    : M job_service scheduled :=
  raise_if (negb ((1 <=? Z.of_nat (String.length task_type)) && (Z.of_nat (String.length task_type) <=? 100)))
    PydanticValidationError ;;;
  raise_if (negb (valid_priority priority)) PydanticValidationError ;;;
  raise_if (negb ((0 <=? delay_seconds) && (delay_seconds <=? 86400000000))) PydanticValidationError ;;;
  schedule_job clock task_type payload priority delay_seconds None.

Definition get_job_queue_status (s : job_service) : result (Z * bool * option string * option Z) := get_telemetry s.

Definition execute_exclusive_job_endpoint (clock : nat -> Z) (tok : string) (meanwhile : RD -> RD) (name : string)
    (payload : P) (ttl_ms : Z) : M (job_service * RD) processed :=
  raise_if (negb ((1 <=? Z.of_nat (String.length name)) && (Z.of_nat (String.length name) <=? 100))) PydanticValidationError ;;;
  raise_if (negb ((100 <=? ttl_ms) && (ttl_ms <=? 60000))) PydanticValidationError ;;;
  execute_exclusive_job clock tok meanwhile name payload ttl_ms.
End Service.
Arguments processed : clear implicits.
Arguments job_service : clear implicits.

(** ** Proofs *)

Section Proofs.
Context {P : Type} (job_name : Z -> string).
Implicit Types (s : job_service P) (q : scheduler P) (j k : PriorityJob P).

Lemma valid_priority_name (p : Z) : valid_priority p = true -> exists name, priority_name p = Ok name.
Proof.
  unfold valid_priority, priority_name, CRITICAL, HIGH, NORMAL, LOW. intros H.
  repeat (case_match; [eauto|]). lia.
Qed.

(** The result recorded for a job, apart from the time it ran at. *)
Definition ran j (x : processed P) : Prop :=
  exists name at_, priority_name (j_priority j) = Ok name /\ x = JobRun (j_job_id j) (j_task_type j) name at_ (j_payload j).

Record jobs_inv s : Prop := {
  ji_sched : sched_inv (js_scheduler s);
  ji_prio : Forall (fun j => valid_priority (j_priority j) = true) (q_heap (js_scheduler s))
}.

(** What a run of the loop from [s] to [s'] did: the jobs it took, in order. *)
Definition drained (now : Z) (jobs : list (PriorityJob P)) (executed : list (processed P)) s s' : Prop :=
  jobs_inv s' /\
  q_heap (js_scheduler s) ≡ₚ jobs ++ q_heap (js_scheduler s') /\
  StronglySorted (fun j k => job_lt j k = true) jobs /\
  Forall (fun j => j_scheduled_at j <= now) jobs /\
  Forall (fun j => Forall (fun k => job_lt j k = true) (q_heap (js_scheduler s'))) jobs /\
  Forall2 ran jobs executed /\
  js_processed_history s' = js_processed_history s ++ executed.

Lemma drained_nil now s : jobs_inv s -> drained now [] [] s s.
Proof. intros Hs. unfold drained. rewrite app_nil_r. split_and!; auto using SSorted_nil. Qed.

Lemma process_loop_ok (clock : nat -> Z) (Hclock : forall a b, (a <= b)%nat -> clock a <= clock b) n i acc s :
  jobs_inv s ->
  exists s' jobs executed, process_loop clock n i acc s = (Ok (acc ++ executed), s') /\
    drained (clock (i + 2 * n)%nat) jobs executed s s' /\ (length jobs <= n)%nat /\
    (length jobs = n \/ q_heap (js_scheduler s') = [] \/
     exists top, peek_sync (js_scheduler s') = Some top /\ clock i < j_scheduled_at top).
Proof.
  revert i acc s. induction n as [|n IH]; intros i acc s Hs.
  { exists s, [], []. rewrite !app_nil_r. split; [done|]. split; [by apply drained_nil|]. cbn; auto. }
  destruct Hs as [Hs Hp]. cbn [process_loop]. pose proof (pop_due_ok (clock i) (js_scheduler s) Hs) as Hpop.
  destruct (pop_due_job_sync (clock i) (js_scheduler s)) as [[j|] q]; destruct Hpop as [Hq Hpop].
  2:{ destruct Hpop as [-> Hwhy]. exists s, [], []. rewrite app_nil_r. destruct s as [q0 h0].
      split; [done|]. split; [by apply drained_nil|]. split; [cbn; lia|naive_solver]. }
  destruct Hpop as (_ & Hdue & Hperm & Hfirst).
  assert (Forall (fun j => valid_priority (j_priority j) = true) (j :: q_heap q)) as [Hpj Hpq]%Forall_cons by by rewrite <-Hperm.
  destruct (valid_priority_name _ Hpj) as [name Hname]. rewrite Hname.
  set (res := JobRun _ _ _ _ _).
  destruct (IH (S (S i)) (acc ++ [res]) (record_processed res (set_scheduler q s)))
    as (s' & jobs & ex & Hrun & (Hinv & Hpm & Hsort & Hd & Hrest & Hran & Hhist) & Hlen & Hwhy); [by split|].
  exists s', (j :: jobs), (res :: ex). rewrite Hrun, <-app_assoc. cbn in Hpm, Hhist. rewrite !length_cons.
  assert (clock i <= clock (S (S i))) by (apply Hclock; lia).
  assert (clock i <= clock (i + 2 * S n)%nat) by (apply Hclock; lia).
  split; [done|]. split; [|split; [lia|]].
  2:{ destruct Hwhy as [|[|(top & ? & ?)]]; [left; lia|auto|right; right; exists top; split; [done|lia]]. }
  rewrite Hpm, Forall_app in Hfirst. destruct Hfirst as [Hfj Hfr].
  split_and!; auto.
  - by rewrite Hperm, Hpm.
  - by constructor.
  - constructor; [lia|]. by replace (i + 2 * S n)%nat with (S (S i) + 2 * n)%nat by lia.
  - constructor; [|done]. by exists name, (clock (S i)).
  - by rewrite Hhist, <-app_assoc.
Qed.

(** One pass of the background worker.  On a well-formed queue of jobs with
    declared priorities and a clock that does not go back, [process_due_jobs] always
    returns; it takes at most [max_jobs] jobs (none for a negative bound), every one of
    them due, in strictly increasing order of priority, due time and arrival, and all of
    them before every job left; each taken job is reported and appended to the history
    once and in that order, the queue keeps exactly the others and stays well-formed;
    and the pass stops early only when the queue is empty or its first job is not due. *)
Theorem worker_pass (clock : nat -> Z) (max_jobs : Z) s (Hclock : forall a b, (a <= b)%nat -> clock a <= clock b)
  (Hs : jobs_inv s) :
  exists s' jobs executed, process_due_jobs clock max_jobs s = (Ok executed, s') /\
    drained (clock (2 * Z.to_nat max_jobs)%nat) jobs executed s s' /\
    Z.of_nat (length jobs) <= Z.max 0 max_jobs /\
    (Z.of_nat (length jobs) = Z.max 0 max_jobs \/ q_heap (js_scheduler s') = [] \/
     exists top, peek_sync (js_scheduler s') = Some top /\ clock 0%nat < j_scheduled_at top).
Proof.
  destruct (process_loop_ok clock Hclock (Z.to_nat max_jobs) 0 [] s Hs) as (s' & jobs & ex & Hrun & Hd & Hlen & Hwhy).
  exists s', jobs, ex. split; [done|]. split; [done|]. split; [lia|]. destruct Hwhy as [|[|]]; [left; lia|auto|auto].
Qed.

(** The worker does not oversleep.  The computed delay lies between zero and one
    second; it is zero exactly when the first job is due; and sleeping for it when the
    first job is due within the second leaves that job due on waking, at most ten
    milliseconds late, so that the next pass with room for a job runs it. *)
Theorem worker_wakes_for_next_job (now : Z) s (Hs : jobs_inv s) :
  let delay := compute_adaptive_sleep_delay now s in
  0 <= delay <= 1000000 /\
  match peek_sync (js_scheduler s) with
  | None => delay = 1000000
  | Some top =>
      (delay = 0 <-> j_scheduled_at top <= now) /\
      (now < j_scheduled_at top <= now + 1000000 ->
       j_scheduled_at top <= now + delay <= Z.max (j_scheduled_at top) (now + 10000) /\
       exists q', pop_due_job_sync (now + delay) (js_scheduler s) = (Some top, q'))
  end.
Proof.
  destruct Hs as [Hs _]. unfold compute_adaptive_sleep_delay.
  destruct (peek_sync (js_scheduler s)) as [top|] eqn:Htop; cbn zeta; [|lia].
  destruct (Z.leb_spec (j_scheduled_at top - now) 0) as [Hd|Hd].
  { split_and!; [lia..|]. intros; lia. }
  split; [lia|]. split; [lia|]. intros Hsoon. split; [lia|].
  pose proof (pop_due_ok (now + Z.min (Z.max (j_scheduled_at top - now) 10000) 1000000) _ Hs) as Hpop.
  destruct (pop_due_job_sync _ _) as [[j|] q']; destruct Hpop as [_ Hpop].
  - exists q'. destruct Hpop as [Hpeek _]. congruence.
  - destruct Hpop as (_ & [Hnil|(t & Hpeek & Hlate)]).
    + unfold peek_sync in Htop. by rewrite Hnil in Htop.
    + assert (t = top) as -> by congruence. lia.
Qed.

(** A first job that is not due holds back every other one, due or not: the pass takes
    nothing, and the worker sleeps while due jobs of lower priority wait. *)
Theorem head_of_line_blocking (clock : nat -> Z) (max_jobs : Z) s top :
  peek_sync (js_scheduler s) = Some top -> clock 0%nat < j_scheduled_at top ->
  process_due_jobs clock max_jobs s = (Ok [], s) /\ 0 < compute_adaptive_sleep_delay (clock 0%nat) s.
Proof.
  intros Htop Hlate. destruct s as [[h n] hist]. unfold compute_adaptive_sleep_delay. cbn [js_scheduler] in *. rewrite Htop. split.
  - unfold process_due_jobs. destruct (Z.to_nat max_jobs); [done|]. cbn.
    destruct h as [|t r]; [done|]. cbn in Htop. simplify_eq. unfold pop_due_job_sync. cbn.
    by destruct (Z.leb_spec (j_scheduled_at top) (clock 0%nat)); [lia|].
  - destruct (Z.leb_spec (j_scheduled_at top - clock 0%nat) 0); lia.
Qed.

End Proofs.

(** ** Scheduling and exclusive execution *)

(** Exclusive execution.  While the lock of the name is held the call answers a
    lock conflict and changes neither the history nor the server; otherwise it records
    exactly one run under its token, having held the lock from the first command on,
    and its release removes the lock exactly when the server still holds this token
    (so never a lock taken by another worker after this one expired) and no other key. *)
Theorem exclusive_job_lock {P RD} {Srv : RedisServer RD string} (clock : nat -> Z) (tok name : string) (meanwhile : RD -> RD)
  (pl : P) (ttl_ms : Z) (s : job_service P) (rd : RD) (Httl : 0 < ttl_ms) :
  let key := dlock_key (dlock_init name ttl_ms) in
  match r_get (clock 0%nat) key rd with
  | Some _ => execute_exclusive_job clock tok meanwhile name pl ttl_ms (s, rd) =
              (Raise DistributedLockConflictException, (s, rd))
  | None =>
      exists rd1 rd2 at_ dur,
        execute_exclusive_job clock tok meanwhile name pl ttl_ms (s, rd) =
          (Ok (ExclusiveRun name "completed" tok pl at_ dur),
           (record_processed (ExclusiveRun name "completed" tok pl at_ dur) s, rd2)) /\
        (forall t, clock 0%nat <= t < clock 0%nat + ttl_ms * 1000 -> r_get t key rd1 = Some tok) /\
        (forall t k, clock 4%nat <= t -> r_get t k rd2 =
           if decide (k = key /\ r_get (clock 4%nat) key (meanwhile rd1) = Some tok) then None else r_get t k (meanwhile rd1))
  end.
Proof.
  intros key. unfold execute_exclusive_job, dlock_acquire. rewrite law_setnx. fold key.
  destruct (r_get (clock 0%nat) key rd) as [v|] eqn:Hg; [done|].
  cbn [negb dlock_release dl_acquired dl_token dl_name dl_ttl_ms].
  set (rd1 := r_set _ _ _ _ rd). unfold release_script. fold key.
  replace (dlock_key _) with key by done.
  assert (forall t, clock 0%nat <= t < clock 0%nat + ttl_ms * 1000 -> r_get t key rd1 = Some tok) as Hheld.
  { intros t Ht. unfold rd1. cbn. rewrite law_get_set by lia. rewrite decide_True by done.
    replace (t <? _) with true; [done|]. symmetry. apply Z.ltb_lt. lia. }
  case_bool_decide as Hown; (exists rd1; eexists _, (clock 2%nat), (clock 3%nat - clock 1%nat); split; [reflexivity|]; split; [done|]; intros t k Ht).
  - rewrite law_get_del by done. repeat case_decide; naive_solver.
  - rewrite decide_False; [done|naive_solver].
Qed.

(** The invariant of the service holds initially and is kept by the scheduling endpoint,
    which answers a validation error or enqueues exactly the requested job. *)
Lemma schedule_endpoint_ok {P} (job_name : Z -> string) (clock : nat -> Z) ty (pl : P) prio delay s : jobs_inv s ->
  let '(r, s') := schedule_job_endpoint job_name clock ty pl prio delay s in
  jobs_inv s' /\
  match r with
  | Ok d => sd_status d = "scheduled" /\ priority_name prio = Ok (sd_priority d) /\ sd_scheduled_at d = clock 0%nat + delay /\
  q_heap (js_scheduler s') ≡ₚ
        mkJob prio (clock 1%nat + delay) (q_sequence_counter (js_scheduler s) + 1) (sd_job_id d) ty pl 0 :: q_heap (js_scheduler s)
  | Raise e => e = PydanticValidationError /\ s' = s
  end.
Proof.
  intros [Hs Hp]. unfold schedule_job_endpoint. autorewrite with pym.
  destruct (negb ((1 <=? _) && _)); [done|]. destruct (valid_priority prio) eqn:Hv; cbn [negb]; [|done].
  destruct (negb ((0 <=? _) && _)) eqn:Hd; [done|].
  unfold schedule_job. pose proof (schedule_ok job_name (clock 1%nat) ty pl prio delay None (js_scheduler s) Hs) as Hok.
  destruct (schedule_sync _ _ _ _ _ _ _ _) as [jid q]. destruct Hok as (Hq & Hperm & _).
  destruct (valid_priority_name _ Hv) as [name Hn]. rewrite Hn. cbn.
  rewrite (Z.max_l delay 0) in Hperm |- * by lia. split; [|by rewrite Hperm].
  split; [done|]. cbn. rewrite Hperm. by constructor.
Qed.

Lemma jobs_inv_init {P} : jobs_inv (js_init (P:=P) q_init).
Proof. split; [apply sched_inv_init|constructor]. Qed.

(** ** Witnesses *)

Definition demo_clock (start : Z) (i : nat) : Z := start + Z.of_nat i.
(** Three due jobs, and a critical one due in half a second. *)
Definition demo_jobs : job_service () := mkJobs ex_queue [].
Definition late_jobs : job_service () :=
  (schedule_job_endpoint ex_name (demo_clock 5) "close" () CRITICAL 500000 (js_init ex_queue)).2.

Lemma demo_jobs_inv : jobs_inv demo_jobs.
Proof. split; [apply ex_queue_inv|]. repeat constructor. Qed.

Lemma late_jobs_inv : jobs_inv late_jobs.
Proof.
  unfold late_jobs. pose proof (schedule_endpoint_ok ex_name (demo_clock 5) "close" () CRITICAL 500000 _ demo_jobs_inv) as H.
  unfold demo_jobs, js_init in *. destruct (schedule_job_endpoint _ _ _ _ _ _ _). apply H.
Qed.

Lemma demo_clock_mono start a b : (a <= b)%nat -> demo_clock start a <= demo_clock start b.
Proof. unfold demo_clock. lia. Qed.

Lemma worker_pass_witness :
  exists s' executed, process_due_jobs (demo_clock 10) 2 demo_jobs = (Ok executed, s') /\ jobs_inv s' /\ length executed = 2%nat.
Proof.
  destruct (worker_pass (demo_clock 10) 2 demo_jobs (demo_clock_mono 10) demo_jobs_inv) as (s' & jobs & ex & Hrun & Hd & _).
  exists s', ex. split; [exact Hrun|]. split; [apply Hd|].
  replace ex with (default [] (match (process_due_jobs (demo_clock 10) 2 demo_jobs).1 with Ok l => Some l | _ => None end))
    by by rewrite Hrun.
  vm_compute. reflexivity.
Defined.

Lemma worker_wakes_for_next_job_witness :
  compute_adaptive_sleep_delay 10 demo_jobs = 0 /\ 0 <= compute_adaptive_sleep_delay (-5000) demo_jobs <= 1000000.
Proof.
  split; [vm_compute; reflexivity|]. exact (proj1 (worker_wakes_for_next_job (-5000) demo_jobs demo_jobs_inv)).
Defined.

Lemma exclusive_job_lock_witness :
  exists rd2 : gmap string (string * Z), (execute_exclusive_job (P:=()) (demo_clock 0) "t1" id "sync" () 5000 (demo_jobs, ∅)).2.2 = rd2
    /\ r_get 10 "lock:sync" rd2 = None.
Proof.
  destruct (exclusive_job_lock (P:=()) (demo_clock 0) "t1" "sync" id () 5000 demo_jobs (∅ : gmap string (string * Z)) ltac:(lia))
    as (rd1 & rd2 & a & d & Hrun & Hheld & Hrel).
  exists rd2. rewrite Hrun. split; [reflexivity|]. rewrite (Hrel 10 "lock:sync") by (vm_compute; discriminate).
  rewrite decide_True; [reflexivity|]. split; [reflexivity|]. apply Hheld. vm_compute. split; [discriminate|reflexivity].
Defined.

(** The due critical job runs; the critical job due later then keeps the due high and
    low priority ones waiting. *)
Example late_jobs_blocked :
  let '(r, s) := process_due_jobs (demo_clock 1000) 10 late_jobs in
  (length <$> match r with Ok l => Some l | _ => None end) = Some 1%nat /\
  (j_task_type <$> q_heap (js_scheduler s)) = ["close"; "mail"; "log"] /\
  compute_adaptive_sleep_delay 1010 s = 498996.
Proof. vm_compute. repeat split; reflexivity. Qed.
