(* ===== verification/Identifiers.v ===== *)
(** Time-ordered identifiers of [app/core/identifiers.py]: UUID version 7 and ULID.

    A UUID is its 128-bit integer.  The module's globals are an explicit state, the
    clock and the random bits are arguments, and timestamps are milliseconds (the
    final [datetime.fromtimestamp] is left out). *)

From S2P Require Import Prelude.

Local Open Scope Z_scope.

(** ** UUIDv7 *)

(** [_last_v7_timestamp_ms], [_v7_sequence_counter] *)
Record v7_state : Type := mkV7 { last_v7_timestamp_ms : Z; v7_sequence_counter : Z }.

(** [generate_uuidv7] at clock [clock_ms]; [seed10] and [rand_62] are what
    [secrets.randbits] returns. *)
Definition generate_uuidv7 (clock_ms seed10 rand_62 : Z) (s : v7_state) : Z * v7_state :=
  let s' := if last_v7_timestamp_ms s <? clock_ms then mkV7 clock_ms seed10
            else mkV7 (last_v7_timestamp_ms s) (Z.land (v7_sequence_counter s + 1) 0xFFF) in
  let now_ms := last_v7_timestamp_ms s' in
  let seq := v7_sequence_counter s' in
  let ts_48 := Z.land now_ms 0xFFFFFFFFFFFF in
  let ver_rand_a := Z.lor (Z.shiftl 0x7 12) (Z.land seq 0xFFF) in
  let var_rand_b := Z.lor (Z.shiftl 0x2 62) rand_62 in
  (Z.lor (Z.lor (Z.shiftl ts_48 80) (Z.shiftl ver_rand_a 64)) var_rand_b, s').

(** [UUID.version]: defined for the RFC 4122 variant. *)
Definition uuid_version (u : Z) : option Z :=
  if Z.testbit u 63 && negb (Z.testbit u 62) then Some (Z.land (Z.shiftr u 76) 0xF) else None.

Definition extract_timestamp_from_uuidv7 (u : Z) : result Z :=
  if decide (uuid_version u = Some 7) then Ok (Z.shiftr u 80) else Raise PyValueError.

(** ** ULID *)

Definition CROCKFORD_BASE32_ALPHABET : list ascii := chars "0123456789ABCDEFGHJKMNPQRSTVWXYZ".

Definition b32_char (d : Z) : ascii := nth (Z.to_nat d) CROCKFORD_BASE32_ALPHABET "0"%char.
Fixpoint index_of (c : ascii) (l : list ascii) (i : Z) : option Z :=
  match l with [] => None | d :: l' => if decide (c = d) then Some i else index_of c l' (i + 1) end.
(** [_CROCKFORD_DECODE_MAP] *)
Definition b32_value (c : ascii) : option Z := index_of c CROCKFORD_BASE32_ALPHABET 0.

Record ulid_state : Type := mkUlid { last_ulid_timestamp_ms : Z; last_ulid_entropy : Z }.

(** The encoding loop: [k] characters, least significant last. *)
Fixpoint b32_encode (k : nat) (v : Z) (acc : list ascii) : list ascii :=
  match k with
  | O => acc
  | S k => b32_encode k (Z.shiftr v 5) (b32_char (Z.land v 0x1F) :: acc)
  end.

Definition generate_ulid (clock_ms seed75 : Z) (s : ulid_state) : string * ulid_state :=
  let now_ms := Z.land clock_ms 0xFFFFFFFFFFFF in
  let s' := if last_ulid_timestamp_ms s <? now_ms then mkUlid now_ms seed75
            else mkUlid (last_ulid_timestamp_ms s) (Z.land (last_ulid_entropy s + 1) 0xFFFFFFFFFFFFFFFFFFFF) in
  let ulid_int := Z.lor (Z.shiftl (last_ulid_timestamp_ms s') 80) (last_ulid_entropy s') in
  (of_chars (b32_encode 26 ulid_int []), s').

Fixpoint b32_decode (l : list ascii) (timestamp_ms : Z) : result Z :=
  match l with
  | [] => Ok timestamp_ms
  | c :: l' =>
      match b32_value c with
      | None => Raise PyValueError
      | Some d => b32_decode l' (Z.lor (Z.shiftl timestamp_ms 5) d)
      end
  end.

Definition extract_timestamp_from_ulid (ulid_str : string) : result Z :=
  if decide (String.length ulid_str = 26%nat) then b32_decode (take 10 (chars (py_upper ulid_str))) 0
  else Raise PyValueError.

(** ** Bit arithmetic *)

(** The generated value as a number in mixed radix. *)
Definition v7_value (ts seq rnd : Z) : Z := ts * 2 ^ 80 + 7 * 2 ^ 76 + seq * 2 ^ 64 + 2 * 2 ^ 62 + rnd.

Definition v7_next (clock seed : Z) (s : v7_state) : v7_state :=
  if last_v7_timestamp_ms s <? clock then mkV7 clock seed
  else mkV7 (last_v7_timestamp_ms s) ((v7_sequence_counter s + 1) mod 2 ^ 12).

Definition v7_ok (s : v7_state) : Prop := 0 <= last_v7_timestamp_ms s < 2 ^ 48 /\ 0 <= v7_sequence_counter s < 2 ^ 12.

Lemma generate_uuidv7_value clock seed rnd s : v7_ok s -> clock < 2 ^ 48 -> 0 <= seed < 2 ^ 10 -> 0 <= rnd < 2 ^ 62 ->
  let s' := v7_next clock seed s in
  generate_uuidv7 clock seed rnd s = (v7_value (last_v7_timestamp_ms s') (v7_sequence_counter s') rnd, s') /\ v7_ok s'.
Proof.
  intros [Ht Hs] Hc Hseed Hr. cbv zeta.
  assert (v7_ok (v7_next clock seed s)) as [Ht' Hs'].
  { unfold v7_next. destruct (Z.ltb_spec (last_v7_timestamp_ms s) clock); split; cbn; try lia.
    pose proof (Z.mod_pos_bound (v7_sequence_counter s + 1) (2 ^ 12)). lia. }
  split; [|done]. unfold generate_uuidv7. change 0xFFF with (2 ^ 12 - 1). change 0xFFFFFFFFFFFF with (2 ^ 48 - 1).
  rewrite !land_ones_mod by done.
  change (if last_v7_timestamp_ms s <? clock then _ else _) with (v7_next clock seed s).
  set (s' := v7_next clock seed s) in *. rewrite !Z.mod_small by done.
  rewrite (lor_shiftl 7 (v7_sequence_counter s') 12) by lia. rewrite (lor_shiftl 2 rnd 62) by lia.
  rewrite <-Z.lor_assoc. rewrite (lor_shiftl (7 * 2 ^ 12 + v7_sequence_counter s') (2 * 2 ^ 62 + rnd) 64) by lia.
  rewrite lor_shiftl by lia. f_equal. unfold v7_value. lia.
Qed.

Lemma div_radix a k r : 0 < k -> 0 <= r < k -> (a * k + r) / k = a.
Proof. intros. symmetry. by apply Z.div_unique with r; lia. Qed.

Lemma v7_value_fields ts seq rnd : 0 <= ts < 2 ^ 48 -> 0 <= seq < 2 ^ 12 -> 0 <= rnd < 2 ^ 62 ->
  0 <= v7_value ts seq rnd < 2 ^ 128 /\ uuid_version (v7_value ts seq rnd) = Some 7 /\ Z.shiftr (v7_value ts seq rnd) 80 = ts.
Proof.
  intros Ht Hs Hr. split; [unfold v7_value; lia|]. split.
  - unfold uuid_version.
    assert (Z.testbit (v7_value ts seq rnd) 63 = true) as ->.
    { apply Z.testbit_true; [done|].
      replace (v7_value ts seq rnd) with ((2 * (ts * 2 ^ 16 + 7 * 2 ^ 12 + seq) + 1) * 2 ^ 63 + rnd) by (unfold v7_value; lia).
      rewrite div_radix by lia. rewrite Z.add_comm, Z.mul_comm, Z_mod_plus_full. done. }
    assert (Z.testbit (v7_value ts seq rnd) 62 = false) as ->.
    { apply Z.testbit_false; [done|].
      replace (v7_value ts seq rnd) with ((2 * (2 * (ts * 2 ^ 16 + 7 * 2 ^ 12 + seq) + 1)) * 2 ^ 62 + rnd) by (unfold v7_value; lia).
      rewrite div_radix by lia. rewrite Z.mul_comm. apply Z_mod_mult. }
    cbn [andb negb]. f_equal. rewrite Z.shiftr_div_pow2 by done. change 0xF with (2 ^ 4 - 1). rewrite land_ones_mod by done.
    replace (v7_value ts seq rnd) with ((ts * 2 ^ 4 + 7) * 2 ^ 76 + (seq * 2 ^ 64 + 2 * 2 ^ 62 + rnd)) by (unfold v7_value; lia).
    rewrite div_radix by lia. rewrite Z.add_comm, Z_mod_plus_full. done.
  - rewrite Z.shiftr_div_pow2 by done.
    replace (v7_value ts seq rnd) with (ts * 2 ^ 80 + (7 * 2 ^ 76 + seq * 2 ^ 64 + 2 * 2 ^ 62 + rnd)) by (unfold v7_value; lia).
    apply div_radix; lia.
Qed.

Lemma v7_value_lt ts seq rnd ts' seq' rnd' : 0 <= seq < 2 ^ 12 -> 0 <= rnd < 2 ^ 62 -> 0 <= seq' < 2 ^ 12 -> 0 <= rnd' < 2 ^ 62 ->
  ts < ts' \/ ts = ts' /\ seq < seq' -> v7_value ts seq rnd < v7_value ts' seq' rnd'.
Proof. unfold v7_value. lia. Qed.

(** Layout and timestamp round trip of UUIDv7.  Every generated identifier is a
    128-bit value that reports version 7 in the RFC variant, and extracting its
    timestamp gives back the millisecond it was issued for: the clock's, or the
    last issued one when the clock has not moved forward.  The generator's state
    stays within its bit widths, for any random bits. *)
Theorem uuidv7_roundtrip (clock seed rnd : Z) (s : v7_state) (Hs : v7_ok s) (Hc : clock < 2 ^ 48)
  (Hseed : 0 <= seed < 2 ^ 10) (Hr : 0 <= rnd < 2 ^ 62) :
  let '(u, s') := generate_uuidv7 clock seed rnd s in
  0 <= u < 2 ^ 128 /\ uuid_version u = Some 7 /\
  extract_timestamp_from_uuidv7 u = Ok (Z.max (last_v7_timestamp_ms s) clock) /\
  last_v7_timestamp_ms s' = Z.max (last_v7_timestamp_ms s) clock /\ v7_ok s'.
Proof.
  destruct (generate_uuidv7_value clock seed rnd s Hs Hc Hseed Hr) as [-> [Ht' Hs']].
  destruct (v7_value_fields _ _ rnd Ht' Hs' Hr) as (Hb & Hv & Hx).
  assert (last_v7_timestamp_ms (v7_next clock seed s) = Z.max (last_v7_timestamp_ms s) clock) as Hm.
  { unfold v7_next. destruct (Z.ltb_spec (last_v7_timestamp_ms s) clock); cbn; lia. }
  split; [done|]. split; [done|]. unfold extract_timestamp_from_uuidv7. rewrite decide_True, Hx, Hm by done. done.
Qed.

Lemma uuidv7_roundtrip_witness :
  let '(u, _) := generate_uuidv7 1700000000123 5 99 (mkV7 1700000000000 7) in
  uuid_version u = Some 7 /\ extract_timestamp_from_uuidv7 u = Ok 1700000000123.
Proof.
  pose proof (uuidv7_roundtrip 1700000000123 5 99 (mkV7 1700000000000 7)) as H.
  destruct (generate_uuidv7 1700000000123 5 99 (mkV7 1700000000000 7)) as [u s'].
  destruct H as (_ & Hv & Hx & _); [split; cbn; lia|lia|lia|lia|]. split; [exact Hv|exact Hx].
Defined.

(** ** Order of UUIDv7 *)

(** Successive calls: clock, fresh sequence seed and random tail of each. *)
Fixpoint generate_many (calls : list (Z * Z * Z)) (s : v7_state) : list Z :=
  match calls with
  | [] => []
  | (clock, seed, rnd) :: calls' => let '(u, s') := generate_uuidv7 clock seed rnd s in u :: generate_many calls' s'
  end.
Definition call_ok (c : Z * Z * Z) : Prop :=
  let '(clock, seed, rnd) := c in clock < 2 ^ 48 /\ 0 <= seed < 2 ^ 10 /\ 0 <= rnd < 2 ^ 62.

Lemma generate_many_above calls s ts seq rnd :
  v7_ok s -> Forall call_ok calls -> v7_sequence_counter s + Z.of_nat (length calls) < 2 ^ 12 -> (length calls <= 3072)%nat ->
  last_v7_timestamp_ms s = ts -> v7_sequence_counter s = seq -> 0 <= rnd < 2 ^ 62 ->
  StronglySorted Z.lt (v7_value ts seq rnd :: generate_many calls s).
Proof.
  revert s ts seq rnd. induction calls as [|[[clock seed] r] calls IH]; intros s ts seq rnd Hs Hc Hn Hl <- <- Hr.
  { cbn. by repeat constructor. }
  apply Forall_cons in Hc as [(Hc1 & Hc2 & Hc3) Hc]. cbn [generate_many].
  destruct (generate_uuidv7_value clock seed r s Hs Hc1 Hc2 Hc3) as [-> Hs'].
  set (s' := v7_next clock seed s) in *. cbn [length] in Hn, Hl.
  assert (last_v7_timestamp_ms s < last_v7_timestamp_ms s' \/
    last_v7_timestamp_ms s = last_v7_timestamp_ms s' /\ v7_sequence_counter s < v7_sequence_counter s') as Hlt.
  { subst s'. unfold v7_next. destruct (Z.ltb_spec (last_v7_timestamp_ms s) clock); cbn; [lia|].
    rewrite Z.mod_small by (destruct Hs; lia). lia. }
  assert (v7_sequence_counter s' + Z.of_nat (length calls) < 2 ^ 12) as Hn'.
  { subst s'. unfold v7_next. destruct (Z.ltb_spec (last_v7_timestamp_ms s) clock); cbn; [lia|].
    rewrite Z.mod_small by (destruct Hs; lia). lia. }
  pose proof (IH s' _ _ r Hs' Hc Hn' ltac:(lia) eq_refl eq_refl Hc3) as IHs.
  destruct Hs as [_ Hsq], Hs' as [_ Hsq'].
  pose proof (v7_value_lt _ _ rnd _ _ r Hsq Hr Hsq' Hc3 Hlt) as Hv.
  constructor; [done|]. constructor; [done|]. inversion IHs as [|? ? _ Hall]; subst.
  eapply Forall_impl; [exact Hall|]. cbn. intros. lia.
Qed.

(** UUIDv7 order.  Whatever the clock does (advance, stand still, step back) and
    whatever random bits are drawn, 3072 successive identifiers after a fresh
    sequence seed are strictly increasing, so insertion order is key order.  The
    bound is needed: once the 12-bit counter is full within a
    millisecond, the next identifier is smaller than the previous one, since the
    counter wraps to zero and the timestamp stays. *)
Theorem uuidv7_order (calls : list (Z * Z * Z)) (s : v7_state) (Hs : v7_ok s) (Hseed : v7_sequence_counter s < 2 ^ 10)
  (Hc : Forall call_ok calls) (Hl : (length calls <= 3072)%nat) :
  StronglySorted Z.lt (generate_many calls s) /\
  (forall clock seed rnd rnd', clock <= last_v7_timestamp_ms s -> 0 <= seed < 2 ^ 10 -> 0 <= rnd < 2 ^ 62 -> 0 <= rnd' < 2 ^ 62 ->
   (generate_uuidv7 clock seed rnd' (mkV7 (last_v7_timestamp_ms s) 4095)).1 < v7_value (last_v7_timestamp_ms s) 4095 rnd).
Proof.
  split.
  - assert (StronglySorted Z.lt (v7_value (last_v7_timestamp_ms s) (v7_sequence_counter s) 0 :: generate_many calls s)) as H.
    { apply generate_many_above; auto; lia. }
    by inversion H.
  - intros clock seed rnd rnd' Hck Hsd Hr Hr'. destruct Hs as [Ht _].
    destruct (generate_uuidv7_value clock seed rnd' (mkV7 (last_v7_timestamp_ms s) 4095)) as [-> _]; [split; cbn; lia|cbn; lia|done|done|].
    unfold v7_next. cbn [last_v7_timestamp_ms v7_sequence_counter fst].
    destruct (Z.ltb_spec (last_v7_timestamp_ms s) clock); [lia|]. cbn [last_v7_timestamp_ms v7_sequence_counter].
    change ((4095 + 1) mod 2 ^ 12) with 0. apply v7_value_lt; lia.
Qed.

Lemma uuidv7_order_witness :
  StronglySorted Z.lt (generate_many [(1000, 3, 9); (1000, 4, 1); (999, 5, 2); (1001, 0, 0)] (mkV7 0 0)).
Proof.
  apply (uuidv7_order [(1000, 3, 9); (1000, 4, 1); (999, 5, 2); (1001, 0, 0)] (mkV7 0 0)).
  - split; cbn; lia.
  - cbn. lia.
  - repeat constructor; lia.
  - cbn. lia.
Defined.

(** ** ULID encoding *)

(** The [k] base-32 digits of [v], most significant first. *)
Fixpoint digits (k : nat) (v : Z) : list Z :=
  match k with O => [] | S k => digits k (v / 32) ++ [v mod 32] end.

Lemma b32_encode_digits k v acc : b32_encode k v acc = (b32_char <$> digits k v) ++ acc.
Proof.
  revert v acc. induction k as [|k IH]; intros v acc; [done|]. cbn [b32_encode digits].
  rewrite IH, fmap_app, <-app_assoc. rewrite Z.shiftr_div_pow2 by done.
  change 0x1F with (2 ^ 5 - 1). rewrite land_ones_mod by done. done.
Qed.

Lemma digits_length k v : length (digits k v) = k.
Proof. revert v. induction k as [|k IH]; intros v; [done|]. cbn. rewrite length_app, IH. cbn. lia. Qed.

Lemma digits_range k v : Forall (fun d => 0 <= d < 32) (digits k v).
Proof.
  revert v. induction k as [|k IH]; intros v; cbn; [constructor|]. apply Forall_app. split; [auto|].
  constructor; [apply Z.mod_pos_bound; lia|constructor].
Qed.

Lemma digits_split k m v : digits (k + m) v = digits k (v / 32 ^ Z.of_nat m) ++ digits m v.
Proof.
  revert v. induction m as [|m IH]; intros v.
  - rewrite Nat.add_0_r, Z.pow_0_r, Z.div_1_r, app_nil_r. done.
  - rewrite Nat.add_succ_r. cbn [digits]. rewrite IH, <-app_assoc. do 2 f_equal.
    rewrite Nat2Z.inj_succ, Z.pow_succ_r by lia. by rewrite Z.div_div by lia.
Qed.

Lemma b32_check (p : Z -> Prop) `{forall d, Decision (p d)} d :
  forallb (fun n => bool_decide (p (Z.of_nat n))) (seq 0 32) = true -> 0 <= d < 32 -> p d.
Proof.
  intros Hp Hd. rewrite forallb_forall in Hp. specialize (Hp (Z.to_nat d) ltac:(apply in_seq; lia)).
  rewrite bool_decide_eq_true, Z2Nat.id in Hp by lia. done.
Qed.

Lemma b32_value_char d : 0 <= d < 32 -> b32_value (b32_char d) = Some d.
Proof.
  apply (b32_check (fun d => b32_value (b32_char d) = Some d)). vm_compute. reflexivity.
Qed.

Lemma upper_b32 d : 0 <= d < 32 -> upper_ascii (b32_char d) = b32_char d.
Proof.
  apply (b32_check (fun d => upper_ascii (b32_char d) = b32_char d)). vm_compute. reflexivity.
Qed.

Lemma b32_decode_app l1 l2 t : b32_decode (l1 ++ l2) t = match b32_decode l1 t with Ok t' => b32_decode l2 t' | Raise e => Raise e end.
Proof. revert t. induction l1 as [|c l1 IH]; intros t; cbn -[b32_value]; [done|]. destruct (b32_value c); [apply IH|done]. Qed.

Lemma b32_decode_digits k v : 0 <= v < 32 ^ Z.of_nat k -> b32_decode (b32_char <$> digits k v) 0 = Ok v.
Proof.
  revert v. induction k as [|k IH]; intros v Hv.
  - cbn in *. f_equal. lia.
  - cbn [digits]. rewrite Nat2Z.inj_succ, Z.pow_succ_r in Hv by lia. rewrite fmap_app, b32_decode_app, IH.
    + cbn -[Z.shiftl Z.lor b32_value b32_char]. pose proof (Z.mod_pos_bound v 32). rewrite b32_value_char by lia.
      rewrite lor_shiftl by (change (2 ^ 5) with 32; lia). f_equal. change (2 ^ 5) with 32.
      pose proof (Z.div_mod v 32). lia.
    + split; [apply Z.div_pos; lia|]. apply Z.div_lt_upper_bound; lia.
Qed.

(** Numbers in order are strings in order. *)
Lemma b32_char_order d d' : 0 <= d < 32 -> 0 <= d' < 32 -> d < d' -> (nat_of_ascii (b32_char d) < nat_of_ascii (b32_char d'))%nat.
Proof.
  intros Hd Hd' Hlt.
  assert (forallb (fun d => forallb (fun d' => negb (d <? d')%nat ||
     (nat_of_ascii (b32_char (Z.of_nat d)) <? nat_of_ascii (b32_char (Z.of_nat d')))%nat) (seq 0 32)) (seq 0 32) = true) as H
    by (vm_compute; reflexivity).
  rewrite forallb_forall in H. specialize (H (Z.to_nat d)). rewrite forallb_forall in H.
  specialize (H ltac:(apply in_seq; lia) (Z.to_nat d') ltac:(apply in_seq; lia)). rewrite !Z2Nat.id in H by lia.
  destruct (Nat.ltb_spec (Z.to_nat d) (Z.to_nat d')); [|lia]. cbn in H. by apply Nat.ltb_lt.
Qed.

Lemma chars_leb_app l1 l2 x y : length l1 = length l2 -> l1 <> l2 -> chars_leb l1 l2 = true -> chars_leb (l1 ++ x) (l2 ++ y) = true.
Proof.
  revert l2. induction l1 as [|a l1 IH]; intros [|b l2] Hl Hne; try done. cbn [chars_leb app]. cbn in Hl.
  destruct (Nat.ltb_spec (nat_of_ascii a) (nat_of_ascii b)); [done|].
  destruct (Nat.ltb_spec (nat_of_ascii b) (nat_of_ascii a)); [done|]. intros H1. apply IH; [lia| |done].
  intros ->. apply Hne. f_equal. apply nat_of_ascii_inj. lia.
Qed.

Lemma chars_leb_refl_app l c d : (nat_of_ascii c < nat_of_ascii d)%nat -> chars_leb (l ++ [c]) (l ++ [d]) = true.
Proof.
  intros H. induction l as [|a l IH]; cbn [chars_leb app].
  - by rewrite (proj2 (Nat.ltb_lt _ _) H).
  - by rewrite Nat.ltb_irrefl.
Qed.

Lemma digits_order k v v' : 0 <= v -> v < v' -> v' < 32 ^ Z.of_nat k ->
  chars_leb (b32_char <$> digits k v) (b32_char <$> digits k v') = true /\ b32_char <$> digits k v <> b32_char <$> digits k v'.
Proof.
  intros H0 Hlt Hb. split.
  - revert v v' H0 Hlt Hb. induction k as [|k IH]; intros v v' H0 Hlt Hb; [cbn in Hb; lia|].
    cbn [digits]. rewrite !fmap_app. rewrite Nat2Z.inj_succ, Z.pow_succ_r in Hb by lia.
    pose proof (Z.mod_pos_bound v 32). pose proof (Z.mod_pos_bound v' 32). pose proof (Z.div_mod v 32). pose proof (Z.div_mod v' 32).
    destruct (decide (v / 32 = v' / 32)) as [E|E].
    + rewrite E. apply chars_leb_refl_app. apply b32_char_order; lia.
    + assert (v / 32 < v' / 32) as Hd by (pose proof (Z.div_le_mono v v' 32); lia).
      assert (v' / 32 < 32 ^ Z.of_nat k) as Hb' by (apply Z.div_lt_upper_bound; lia).
      assert (0 <= v / 32) as H0' by (apply Z.div_pos; lia).
      apply chars_leb_app; [by rewrite !length_fmap, !digits_length| |by apply IH].
      intros Heq. apply (f_equal (fun l => b32_decode l 0)) in Heq.
      rewrite !b32_decode_digits in Heq by lia. injection Heq. lia.
  - intros Heq. apply (f_equal (fun l => b32_decode l 0)) in Heq. rewrite !b32_decode_digits in Heq by lia. injection Heq. lia.
Qed.

Definition ulid_ok (s : ulid_state) : Prop := 0 <= last_ulid_timestamp_ms s < 2 ^ 48 /\ 0 <= last_ulid_entropy s < 2 ^ 80.

Lemma generate_ulid_value clock seed s : ulid_ok s -> 0 <= clock < 2 ^ 48 -> 0 <= seed < 2 ^ 75 ->
  let s' := if last_ulid_timestamp_ms s <? clock then mkUlid clock seed
            else mkUlid (last_ulid_timestamp_ms s) ((last_ulid_entropy s + 1) mod 2 ^ 80) in
  generate_ulid clock seed s =
  (of_chars (b32_char <$> digits 26 (last_ulid_timestamp_ms s' * 2 ^ 80 + last_ulid_entropy s')), s') /\ ulid_ok s'.
Proof.
  intros [Ht He] Hc Hs s'.
  assert (ulid_ok s') as Hs'.
  { subst s'. destruct (Z.ltb_spec (last_ulid_timestamp_ms s) clock); split; cbn; try lia.
    pose proof (Z.mod_pos_bound (last_ulid_entropy s + 1) (2 ^ 80)). lia. }
  split; [|done]. unfold generate_ulid. change 0xFFFFFFFFFFFF with (2 ^ 48 - 1). change 0xFFFFFFFFFFFFFFFFFFFF with (2 ^ 80 - 1).
  rewrite !land_ones_mod by done. rewrite (Z.mod_small clock) by lia. fold s'. destruct Hs' as [Ht' He'].
  rewrite lor_shiftl, b32_encode_digits, app_nil_r by lia. done.
Qed.

Lemma py_upper_digits k v : py_upper (of_chars (b32_char <$> digits k v)) = of_chars (b32_char <$> digits k v).
Proof.
  unfold py_upper. rewrite chars_of_chars. f_equal. rewrite <-list_fmap_compose. apply list_fmap_ext.
  intros i d Hi. pose proof (digits_range k v) as Hr. rewrite Forall_forall in Hr. apply upper_b32, Hr.
  by eapply list_elem_of_lookup_2.
Qed.

(** ULID round trip and order.  A generated ULID has 26 characters, and its
    timestamp is read back as the millisecond it was issued for.  The next
    one, while the 80-bit entropy does not overflow, is greater as a string, so
    that the lexicographic order of ULIDs is their order of creation even when
    the clock stands still or steps back. *)
Theorem ulid_roundtrip_order (clock clock' seed seed' : Z) (s : ulid_state) (Hs : ulid_ok s) (Hc : 0 <= clock < 2 ^ 48)
  (Hc' : 0 <= clock' < 2 ^ 48) (Hseed : 0 <= seed < 2 ^ 75) (Hseed' : 0 <= seed' < 2 ^ 75) :
  let '(u, s1) := generate_ulid clock seed s in
  let '(u2, s2) := generate_ulid clock' seed' s1 in
  String.length u = 26%nat /\
  extract_timestamp_from_ulid u = Ok (Z.max (last_ulid_timestamp_ms s) clock) /\
  ulid_ok s1 /\ (last_ulid_entropy s1 < 2 ^ 80 - 1 -> str_lt u u2).
Proof.
  destruct (generate_ulid_value clock seed s Hs Hc Hseed) as [-> Hs1].
  set (s1 := if last_ulid_timestamp_ms s <? clock then mkUlid clock seed
             else mkUlid (last_ulid_timestamp_ms s) ((last_ulid_entropy s + 1) mod 2 ^ 80)) in *.
  destruct (generate_ulid_value clock' seed' s1 Hs1 Hc' Hseed') as [-> Hs2].
  set (s2 := if last_ulid_timestamp_ms s1 <? clock' then _ else _) in *.
  assert (last_ulid_timestamp_ms s1 = Z.max (last_ulid_timestamp_ms s) clock) as Hm.
  { subst s1. destruct (Z.ltb_spec (last_ulid_timestamp_ms s) clock); cbn; lia. }
  split; [by rewrite length_of_chars, length_fmap, digits_length|]. destruct Hs1 as [Ht1 He1].
  split; [|split; [done|]].
  - unfold extract_timestamp_from_ulid. rewrite length_of_chars, length_fmap, digits_length, decide_True by done.
    rewrite py_upper_digits, chars_of_chars, (digits_split 10 16), fmap_app, take_app_length'
      by (by rewrite length_fmap, digits_length).
    change (32 ^ Z.of_nat 16) with (2 ^ 80). rewrite div_radix by lia. rewrite b32_decode_digits; [by rewrite Hm|].
    change (32 ^ Z.of_nat 10) with (2 ^ 50). lia.
  - intros Hno.
    assert (last_ulid_timestamp_ms s1 * 2 ^ 80 + last_ulid_entropy s1 < last_ulid_timestamp_ms s2 * 2 ^ 80 + last_ulid_entropy s2) as Hlt.
    { destruct Hs2 as [Ht2 He2]. subst s2. destruct (Z.ltb_spec (last_ulid_timestamp_ms s1) clock'); cbn in *; [lia|].
      rewrite Z.mod_small by lia. lia. }
    destruct Hs2 as [Ht2 He2]. assert (0 <= last_ulid_timestamp_ms s1 * 2 ^ 80 + last_ulid_entropy s1) as H0 by lia.
    destruct (digits_order 26 _ _ H0 Hlt) as [H1 H2].
    { change (32 ^ Z.of_nat 26) with (2 ^ 130). lia. }
    split; [unfold str_leb; by rewrite !chars_of_chars|]. intros Heq. apply H2.
    apply (f_equal chars) in Heq. by rewrite !chars_of_chars in Heq.
Qed.

Lemma ulid_roundtrip_order_witness :
  let '(u, s1) := generate_ulid 1700000000123 12345 (mkUlid 0 0) in
  let '(u2, _) := generate_ulid 1700000000000 7 s1 in
  extract_timestamp_from_ulid u = Ok 1700000000123 /\ str_lt u u2.
Proof.
  pose proof (ulid_roundtrip_order 1700000000123 1700000000000 12345 7 (mkUlid 0 0)) as H.
  destruct (generate_ulid 1700000000123 12345 (mkUlid 0 0)) as [u s1] eqn:E.
  destruct (generate_ulid 1700000000000 7 s1) as [u2 s2].
  destruct H as (_ & Hx & _ & Ho); [split; cbn; lia|lia|lia|lia|lia|]. split; [exact Hx|]. apply Ho.
  injection E as _ <-. cbn. lia.
Defined.
