(* ===== verification/Trie.v ===== *)
(** * The prefix trie ([core/dsa/trie.py])

    [TrieNode] is the node of the source with its children dictionary in insertion
    order; a path is the list of characters of a normalized key.  The operations
    return the new trie, since nodes are owned by one trie and never handed out
    ([search] and [autocomplete] return copies of the payload lists).  The
    specification is a finite map from words to payloads and frequency;
    [trie_refines_map] states that every sequence of operations answers like the
    map, and [trie_no_orphans] that no node is kept that no stored word needs. *)

From S2P Require Import Prelude.
Open Scope Z_scope.

(** [list.remove]: the first equal element. *)
Fixpoint list_remove1 {A} `{EqDecision A} (x : A) (l : list A) : list A :=
  match l with
  | [] => []
  | y :: l' => if decide (x = y) then l' else y :: list_remove1 x l'
  end.

Section Trie.
Context {P : Type} `{EqDecision P}.

#[warnings="-register-all"]
Inductive TrieNode : Type :=
  Node (children : list (ascii * TrieNode)) (is_terminal : bool) (payloads : list P) (frequency : Z).

Definition children (n : TrieNode) := let 'Node ch _ _ _ := n in ch.
Definition is_terminal (n : TrieNode) := let 'Node _ t _ _ := n in t.
Definition payloads (n : TrieNode) := let 'Node _ _ p _ := n in p.
Definition frequency (n : TrieNode) := let 'Node _ _ _ f := n in f.

Definition new_node : TrieNode := Node [] false [] 0.

Record PrefixTrie := mk_trie { root : TrieNode; word_count : Z; node_count : Z }.

Definition trie_init : PrefixTrie := mk_trie new_node 0 1.

Definition normalize (key : string) : list ascii := chars (py_lower (py_strip key)).

(** The end of [insert], at the node of the key: the new node and the change of the
    word count. *)
Definition mark_terminal (payload : option P) (score : Z) (n : TrieNode) : TrieNode * Z :=
  let 'Node ch t ps f := n in
  (Node ch true
     (match payload with
      | Some p => if decide (p ∈ ps) then ps else ps ++ [p]
      | None => ps
      end)
     (f + Z.max score 1),
   if t then 0 else 1).

(** The loop of [insert]: the new node, how many words and how many nodes were added. *)
Fixpoint insert_path (cs : list ascii) (payload : option P) (score : Z) (n : TrieNode)
    : TrieNode * Z * Z :=
  match cs with
  | [] => let '(n', dw) := mark_terminal payload score n in (n', dw, 0)
  | c :: cs' =>
      let 'Node ch t ps f := n in
      let '(child, fresh) :=
        match dict_get ch c with Some child => (child, 0) | None => (new_node, 1) end in
      let '(child', dw, dn) := insert_path cs' payload score child in
      (Node (dict_set ch c child') t ps f, dw, dn + fresh)
  end.

Definition trie_insert (key : string) (payload : option P) (score : Z) (t : PrefixTrie) : PrefixTrie :=
  let normalized := normalize key in
  if decide (normalized = []) then t
  else
    let '(r, dw, dn) := insert_path normalized payload score (root t) in
    mk_trie r (word_count t + dw) (node_count t + dn).

(** The loop that follows a key from a node. *)
Fixpoint walk (cs : list ascii) (n : TrieNode) : option TrieNode :=
  match cs with
  | [] => Some n
  | c :: cs' => match dict_get (children n) c with Some ch => walk cs' ch | None => None end
  end.

Definition trie_search (key : string) (t : PrefixTrie) : option (list P) :=
  let normalized := normalize key in
  if decide (normalized = []) then None
  else match walk normalized (root t) with
       | Some curr => if is_terminal curr then Some (payloads curr) else None
       | None => None
       end.

Abbreviation entry := (list ascii * list P * Z)%type.

(** The queue loop of [autocomplete]. *)
Fixpoint collect (fuel : nat) (queue : list (TrieNode * list ascii)) (results : list entry)
    : option (list entry) :=
  match queue with
  | [] => Some results
  | (node, current_word) :: queue' =>
      match fuel with
      | O => None
      | S fuel' =>
          collect fuel'
            (queue' ++ ((λ '(c, child), (child, current_word ++ [c])) <$> children node))
            (if is_terminal node then results ++ [(current_word, payloads node, frequency node)]
             else results)
      end
  end.

(** The order of [key=lambda item: (-item[2], item[0])]. *)
Definition entry_leb (x y : entry) : bool :=
  let '(w1, _, f1) := x in let '(w2, _, f2) := y in
  if f2 <? f1 then true else if f1 <? f2 then false else chars_leb w1 w2.

Definition top_entries (limit : Z) (results : list entry) : list (string * list P) :=
  (λ '(w, ps, _), (of_chars w, ps)) <$> take (Z.to_nat limit) (stable_sort entry_leb results).

(** Number of nodes below and including a node. *)
Fixpoint node_size (n : TrieNode) : nat :=
  let 'Node ch _ _ _ := n in
  S (foldr (λ '(_, child) acc, node_size child + acc)%nat O ch).

Definition trie_autocomplete (prefix : string) (limit : Z) (t : PrefixTrie)
    : option (list (string * list P)) :=
  let normalized := normalize prefix in
  if decide (normalized = []) then Some []
  else if limit <=? 0 then Some []
  else match walk normalized (root t) with
       | None => Some []
       | Some curr =>
           top_entries limit <$> collect (node_size curr) [(curr, normalized)] []
       end.

(** [_prune]: found, whether the node can be deleted, the node afterwards and the
    changes of word and node count. *)
Fixpoint prune (cs : list ascii) (payload : option P) (node : TrieNode)
    : bool * bool * TrieNode * Z * Z :=
  let 'Node ch t ps f := node in
  match cs with
  | [] =>
      if negb t then (false, false, node, 0, 0)
      else
        let ps' := match payload with Some p => list_remove1 p ps | None => ps end in
        if (match payload with Some _ => true | None => false end) && (0 <? length ps')%nat
        then (true, false, Node ch t ps' f, 0, 0)
        else (true, (length ch =? 0)%nat, Node ch false [] 0, -1, 0)
  | c :: cs' =>
      match dict_get ch c with
      | None => (false, false, node, 0, 0)
      | Some child =>
          let '(found, can_delete_child, child', dw, dn) := prune cs' payload child in
          if can_delete_child then
            let ch' := dict_del ch c in
            (found, (length ch' =? 0)%nat && negb t, Node ch' t ps f, dw, dn - 1)
          else (found, false, Node (dict_set ch c child') t ps f, dw, dn)
      end
  end.

Definition trie_delete (key : string) (payload : option P) (t : PrefixTrie) : bool * PrefixTrie :=
  let normalized := normalize key in
  if decide (normalized = []) then (false, t)
  else
    let '(found, _, r, dw, dn) := prune normalized payload (root t) in
    (found, mk_trie r (word_count t + dw) (node_count t + dn)).

Definition trie_clear (t : PrefixTrie) : PrefixTrie := mk_trie new_node 0 1.

End Trie.
Arguments TrieNode : clear implicits.
Arguments PrefixTrie : clear implicits.

(** ** The tree as a map *)

Section TrieLemmas.
Context {P : Type} `{EqDecision P}.
Implicit Types (n : TrieNode P) (cs w : list ascii) (ch : list (ascii * TrieNode P)).

Definition tlookup n w : option (list P * Z) :=
  match walk w n with
  | Some (Node _ true ps f) => Some (ps, f)
  | _ => None
  end.

Definition alive n : Prop := is_terminal n = true ∨ children n ≠ [].

(** Well-formed nodes: distinct characters, children that are terminal or have
    children, and no payload or frequency without a word. *)
Inductive wf_node : TrieNode P → Prop :=
  | wf_Node ch t ps f :
      NoDup ch.*1 →
      (∀ c n, dict_get ch c = Some n → wf_node n) →
      (∀ c n, dict_get ch c = Some n → alive n) →
      (t = false → ps = [] ∧ f = 0) →
      wf_node (Node ch t ps f).

Lemma node_ind (Q : TrieNode P → Prop) :
  (∀ ch t ps f, (∀ c n, (c, n) ∈ ch → Q n) → Q (Node ch t ps f)) → ∀ n, Q n.
Proof.
  intros H. fix IH 1. intros [ch t ps f]. apply H. clear t ps f.
  induction ch as [|[c' n'] ch IHch]; intros c n; [intros Hin; by inversion Hin|].
  intros Hin. inversion Hin as [|? ? ? Hin']; subst; [apply IH|exact (IHch c n Hin')].
Qed.

Lemma wf_new_node : wf_node (new_node : TrieNode P).
Proof. constructor; simpl; [constructor|done|done|done]. Qed.

Lemma tlookup_cons ch t ps f c w :
  tlookup (Node ch t ps f) (c :: w) = match dict_get ch c with Some n => tlookup n w | None => None end.
Proof. unfold tlookup; simpl. by destruct (dict_get ch c). Qed.

Lemma tlookup_new w : tlookup (new_node : TrieNode P) w = None.
Proof. by destruct w. Qed.

Definition add_entry (payload : option P) (score : Z) (o : option (list P * Z)) : list P * Z :=
  let '(ps, f) := default ([], 0) o in
  (match payload with
   | Some p => if decide (p ∈ ps) then ps else ps ++ [p]
   | None => ps
   end, f + Z.max score 1).

Definition del_entry (payload : option P) (o : option (list P * Z)) : option (list P * Z) :=
  match o, payload with
  | Some (ps, f), Some p =>
      let ps' := list_remove1 p ps in if (0 <? length ps')%nat then Some (ps', f) else None
  | _, _ => None
  end.

Lemma insert_path_lookup cs payload score n w :
  wf_node n →
  tlookup (insert_path cs payload score n).1.1 w =
    if decide (w = cs) then Some (add_entry payload score (tlookup n cs)) else tlookup n w.
Proof.
  revert n w. induction cs as [|c cs IH]; intros [ch t ps f] w Hwf; inversion Hwf as [? ? ? ? Hnd Hch _ Hps]; subst.
  - simpl. destruct w as [|c w]; [|done]. unfold tlookup; simpl.
    destruct t; simpl; [done|]. destruct Hps as [-> ->]; done.
  - cbn [insert_path].
    set (q := match dict_get ch c with Some child => (child, 0) | None => (new_node, 1) end).
    assert (wf_node q.1 ∧ ∀ v, tlookup q.1 v = tlookup (Node ch t ps f) (c :: v)) as [Hq Hl].
    { subst q. setoid_rewrite tlookup_cons. destruct (dict_get ch c) as [n'|] eqn:E; simpl.
      - by split; [eauto|].
      - split; [apply wf_new_node|]. apply tlookup_new. }
    destruct q as [child fresh]; simpl in Hq, Hl. specialize (IH child).
    destruct (insert_path cs payload score child) as [[child' dw] dn]. simpl in IH |- *.
    destruct w as [|c' w]; [by rewrite decide_False|].
    rewrite !tlookup_cons, dict_get_set. destruct (decide (c = c')) as [->|Hne].
    + rewrite IH by done. rewrite !Hl, !tlookup_cons.
      destruct (decide (w = cs)) as [->|]; [by rewrite decide_True|rewrite decide_False by congruence].
      done.
    + rewrite (decide_False (P := c' :: w = c :: cs)) by congruence. done.
Qed.

Lemma insert_path_alive cs payload score n : alive (insert_path cs payload score n).1.1.
Proof.
  destruct cs as [|c cs], n as [ch t ps f]; [by left|]. cbn [insert_path].
  destruct (match dict_get ch c with Some child => (child, 0) | None => (new_node, 1) end) as [child fresh].
  destruct (insert_path cs payload score child) as [[child' dw] dn]. right; simpl.
  destruct ch as [|[c' n'] ch]; simpl; [done|]. by case_decide.
Qed.

Lemma insert_path_wf cs payload score n : wf_node n → wf_node (insert_path cs payload score n).1.1.
Proof.
  revert n. induction cs as [|c cs IH]; intros [ch t ps f] Hwf; inversion Hwf as [? ? ? ? Hnd Hch Hal Hps]; subst.
  - by constructor.
  - cbn [insert_path].
    set (q := match dict_get ch c with Some child => (child, 0) | None => (new_node, 1) end).
    assert (wf_node q.1) as Hq.
    { subst q. destruct (dict_get ch c) eqn:E; simpl; [eauto|apply wf_new_node]. }
    destruct q as [child fresh]; simpl in Hq. specialize (IH child Hq).
    pose proof (insert_path_alive cs payload score child) as Hal'.
    destruct (insert_path cs payload score child) as [[child' dw] dn]. simpl in *.
    constructor; [by apply dict_set_NoDup| | |done].
    + intros c' n'. rewrite dict_get_set. case_decide; [congruence|eauto].
    + intros c' n'. rewrite dict_get_set. case_decide; [congruence|eauto].
Qed.

(** A node the caller may delete holds nothing. *)
Lemma prune_can_delete cs payload n :
  (prune cs payload n).1.1.1.2 = true → ∃ ps f, (prune cs payload n).1.1.2 = Node [] false ps f.
Proof.
  destruct cs as [|c cs], n as [ch t ps f]; cbn [prune].
  - destruct t; simpl; [|done]. destruct (_ && _); simpl; [done|]. destruct ch; [eauto|done].
  - destruct (dict_get ch c) as [child|]; [|done].
    destruct (prune cs payload child) as [[[[found can] child'] dw] dn]. destruct can; [|done].
    simpl. destruct (dict_del ch c); simpl; [|done]. destruct t; [done|]. eauto.
Qed.

Lemma prune_lookup cs payload n w :
  wf_node n →
  tlookup (prune cs payload n).1.1.2 w =
    if decide (w = cs) then del_entry payload (tlookup n cs) else tlookup n w.
Proof.
  revert n w. induction cs as [|c cs IH]; intros [ch t ps f] w Hwf; inversion Hwf as [? ? ? ? Hnd Hch _ Hps]; subst.
  - cbn [prune]. unfold tlookup. destruct w as [|c w]; simpl.
    + destruct t; [|done]; simpl. destruct payload as [p|]; simpl; [|done]. by destruct (0 <? _)%nat.
    + destruct t; [|done]; simpl. by destruct (_ && _).
  - cbn [prune]. rewrite tlookup_cons. destruct (dict_get ch c) as [child|] eqn:E; simpl.
    2: { case_decide; subst; [|done]. by rewrite tlookup_cons, E. }
    specialize (IH child). pose proof (prune_can_delete cs payload child) as Hcan.
    destruct (prune cs payload child) as [[[[found can] child'] dw] dn]. simpl in IH, Hcan.
    destruct can; simpl.
    + destruct Hcan as (ps' & f' & ->); [done|]. destruct w as [|c' w]; [by rewrite decide_False|].
      rewrite !tlookup_cons, dict_get_del by done. destruct (decide (c = c')) as [->|].
      * specialize (IH w ltac:(eauto)). rewrite E. replace (tlookup (Node [] false ps' f') w) with (@None (list P * Z)) in IH
          by (by destruct w). rewrite IH. by repeat case_decide; simplify_eq.
      * rewrite decide_False by congruence. done.
    + destruct w as [|c' w]; [by rewrite decide_False|].
      rewrite !tlookup_cons, dict_get_set. destruct (decide (c = c')) as [->|].
      * rewrite IH by eauto. rewrite E. by repeat case_decide; simplify_eq.
      * rewrite (decide_False (P := c' :: w = c :: cs)) by congruence. done.
Qed.

Lemma prune_found cs payload n :
  (prune cs payload n).1.1.1.1 = bool_decide (is_Some (tlookup n cs)).
Proof.
  revert n. induction cs as [|c cs IH]; intros [ch t ps f]; cbn [prune].
  - unfold tlookup; simpl. destruct t; simpl; [|done]. by destruct (_ && _).
  - rewrite tlookup_cons. destruct (dict_get ch c) as [child|]; [|done]. specialize (IH child).
    destruct (prune cs payload child) as [[[[found can] child'] dw] dn]. simpl in IH.
    by destruct can.
Qed.

Lemma prune_alive cs payload n :
  alive n → (prune cs payload n).1.1.1.2 = false → alive (prune cs payload n).1.1.2.
Proof.
  unfold alive. destruct cs as [|c cs], n as [ch t ps f]; cbn [prune].
  - destruct t; simpl; [|done]. destruct (_ && _); simpl; [by left|].
    intros _ ?. right. by destruct ch.
  - destruct (dict_get ch c) as [child|] eqn:E; [|done].
    destruct (prune cs payload child) as [[[[found can] child'] dw] dn]. destruct can; simpl.
    + intros _. destruct (dict_del ch c), t; simpl; auto.
    + intros _ _. right. destruct ch as [|[c' n'] ch]; [done|]. simpl. by case_decide.
Qed.

Lemma prune_wf cs payload n : wf_node n → wf_node (prune cs payload n).1.1.2.
Proof.
  revert n. induction cs as [|c cs IH]; intros [ch t ps f] Hwf; pose proof Hwf as Hwf0;
    inversion Hwf as [? ? ? ? Hnd Hch Hal Hps]; subst; cbn [prune].
  - destruct t; simpl; [|done]. destruct (_ && _); by constructor.
  - destruct (dict_get ch c) as [child|] eqn:E; [|done].
    specialize (IH child (Hch _ _ E)). pose proof (prune_alive cs payload child (Hal _ _ E)) as Ha.
    destruct (prune cs payload child) as [[[[found can] child'] dw] dn]. simpl in *. destruct can.
    + simpl. constructor; [by apply dict_del_NoDup| | |done];
        intros c' n'; rewrite dict_get_del by done; case_decide; naive_solver.
    + simpl. constructor; [by apply dict_set_NoDup| | |done];
        intros c' n'; rewrite dict_get_set; case_decide; naive_solver.
Qed.

(** ** Counting nodes and words *)

Section Weight.
Context (g : bool → Z).

Fixpoint weight (n : TrieNode P) : Z :=
  let 'Node ch t _ _ := n in g t + foldr (λ '(_, child) acc, weight child + acc) 0 ch.

Definition cweight ch : Z := foldr (λ '(_, child) acc, weight child + acc) 0 ch.

Lemma cweight_set ch c x :
  cweight (dict_set ch c x) =
    cweight ch + weight x - match dict_get ch c with Some y => weight y | None => 0 end.
Proof. induction ch as [|[c' n'] ch IH]; simpl; [lia|]. case_decide; simpl; [lia|]. rewrite IH. lia. Qed.

Lemma cweight_del ch c y :
  dict_get ch c = Some y → cweight (dict_del ch c) = cweight ch - weight y.
Proof.
  induction ch as [|[c' n'] ch IH]; simpl; [done|].
  case_decide; simpl; [intros [= ->]; lia|]. intros E. rewrite IH by done. lia.
Qed.

Lemma weight_node ch t ps f : weight (Node ch t ps f) = g t + cweight ch.
Proof. done. Qed.
End Weight.

Definition terminals : TrieNode P → Z := weight (λ t, if t then 1 else 0).
Definition nodes : TrieNode P → Z := weight (λ _, 1).

Lemma insert_path_counts cs payload score n :
  let '(n', dw, dn) := insert_path cs payload score n in
  terminals n' = terminals n + dw ∧ nodes n' = nodes n + dn.
Proof.
  unfold terminals, nodes. revert n. induction cs as [|c cs IH]; intros [ch t ps f]; cbn [insert_path].
  - simpl. destruct t; lia.
  - destruct (dict_get ch c) as [child|] eqn:E.
    + specialize (IH child). destruct (insert_path cs payload score child) as [[child' dw] dn].
      rewrite !weight_node, !cweight_set, E. lia.
    + specialize (IH new_node). destruct (insert_path cs payload score new_node) as [[child' dw] dn].
      rewrite !weight_node, !cweight_set, E. simpl in IH. lia.
Qed.

Lemma prune_counts cs payload n :
  let '(_, _, n', dw, dn) := prune cs payload n in
  terminals n' = terminals n + dw ∧ nodes n' = nodes n + dn.
Proof.
  unfold terminals, nodes. revert n. induction cs as [|c cs IH]; intros [ch t ps f]; cbn [prune].
  - destruct t; cbn [negb]; [|lia]. destruct (_ && _); rewrite !weight_node; lia.
  - destruct (dict_get ch c) as [child|] eqn:E; [|lia]. specialize (IH child).
    pose proof (prune_can_delete cs payload child) as Hcan.
    destruct (prune cs payload child) as [[[[found can] child'] dw] dn]. simpl in Hcan. destruct can.
    + destruct Hcan as (? & ? & ->); [done|]. rewrite !weight_node, !(cweight_del _ _ _ _ E).
      simpl in IH. lia.
    + rewrite !weight_node, !cweight_set, E. lia.
Qed.

Lemma nodes_size n : nodes n = Z.of_nat (node_size n).
Proof.
  induction n as [ch t ps f IH] using node_ind. unfold nodes. rewrite weight_node.
  cut (cweight (λ _, 1) ch = Z.of_nat (foldr (λ '(_, child) acc, node_size child + acc)%nat O ch)).
  { simpl. lia. }
  induction ch as [|[c n] ch IHch]; [done|]. simpl.
  rewrite IHch by (intros; eapply IH; by right). specialize (IH c n ltac:(left)).
  unfold nodes in IH. lia.
Qed.

(** ** The words of a tree *)

Fixpoint entries (w : list ascii) (n : TrieNode P) : list (list ascii * list P * Z) :=
  let 'Node ch t ps f := n in
  (if t then [(w, ps, f)] else []) ++ concat ((λ '(c, child), entries (w ++ [c]) child) <$> ch).

Definition queue_size (q : list (TrieNode P * list ascii)) : nat :=
  foldr (λ '(n, _) acc, node_size n + acc)%nat O q.

Lemma queue_size_app q1 q2 : queue_size (q1 ++ q2) = (queue_size q1 + queue_size q2)%nat.
Proof. induction q1 as [|[n w] q1 IH]; simpl; [done|]. unfold queue_size in *. lia. Qed.

Lemma queue_size_children (w : list ascii) ch :
  queue_size ((λ '(c, child), (child, w ++ [c])) <$> ch)
  = foldr (λ '(_, child) acc, node_size child + acc)%nat O ch.
Proof. induction ch as [|[c n] ch IH]; simpl; [done|]. f_equal. exact IH. Qed.

Lemma collect_total fuel q res :
  (queue_size q ≤ fuel)%nat →
  ∃ out, collect fuel q res = Some out ∧ out ≡ₚ res ++ concat ((λ '(n, w), entries w n) <$> q).
Proof.
  revert q res. induction fuel as [|fuel IH]; intros [|[[ch t ps f] w] q] res Hf.
  - exists res. by rewrite app_nil_r.
  - simpl in Hf. lia.
  - exists res. by rewrite app_nil_r.
  - cbn [collect]. edestruct IH as (out & -> & Hout); [|exists out; split; [done|]].
    + rewrite queue_size_app. simpl. rewrite queue_size_children. simpl in Hf. fold (queue_size q) in Hf. lia.
    + rewrite Hout, fmap_app, concat_app. simpl.
      assert ((λ '(n, w0), entries w0 n) <$> ((λ '(c, child), (child, w ++ [c])) <$> ch)
        = (λ '(c, child), entries (w ++ [c]) child) <$> ch) as ->.
      { rewrite <-list_fmap_compose. apply list_fmap_ext. by intros ? [] ?. }
      destruct t; simpl; solve_Permutation.
Qed.

Lemma entries_prefix w n e : e ∈ entries w n → ∃ v, e.1.1 = w ++ v.
Proof.
  revert w. induction n as [ch t ps f IH] using node_ind. intros w. simpl.
  intros [Ht|(l & Hl & He)%list_elem_of_concat]%elem_of_app.
  - destruct t; [|by apply not_elem_of_nil in Ht]. apply list_elem_of_singleton in Ht as ->.
    exists []. by rewrite app_nil_r.
  - apply list_elem_of_fmap in Hl as ([c n] & -> & Hcn).
    destruct (IH _ _ Hcn _ He) as (v & ->). exists (c :: v). by rewrite <-app_assoc.
Qed.

Lemma elem_of_entries w n v ps f :
  wf_node n → (w ++ v, ps, f) ∈ entries w n ↔ tlookup n v = Some (ps, f).
Proof.
  intros Hwf. revert w v. induction Hwf as [ch t qs q Hnd Hwf IH _ _]. intros w v. simpl.
  rewrite elem_of_app, list_elem_of_concat. split.
  - intros [Ht|(l & Hl & He)].
    + destruct t; [|by apply not_elem_of_nil in Ht]. apply list_elem_of_singleton in Ht.
      injection Ht as Hv -> ->. rewrite <-(app_nil_r w) in Hv at 2. by apply app_inv_head in Hv as ->.
    + apply list_elem_of_fmap in Hl as ([c n] & -> & Hcn). apply dict_elem_get in Hcn; [|done].
      destruct (entries_prefix _ _ _ He) as (u & Hu). simpl in Hu. rewrite <-app_assoc in Hu.
      apply app_inv_head in Hu as ->. simpl. rewrite tlookup_cons, Hcn. apply (IH _ _ Hcn (w ++ [c]) u).
      by rewrite <-app_assoc.
  - destruct v as [|c v].
    + unfold tlookup; simpl. destruct t; [|done]. intros [= -> ->]. left.
      rewrite app_nil_r. by apply list_elem_of_singleton.
    + rewrite tlookup_cons. destruct (dict_get ch c) as [n|] eqn:E; [|done]. intros Hl. right.
      exists (entries (w ++ [c]) n). split.
      * apply list_elem_of_fmap. exists (c, n). split; [done|by apply dict_get_elem].
      * replace (w ++ c :: v) with ((w ++ [c]) ++ v) by by rewrite <-app_assoc. by apply (IH c n E).
Qed.

Lemma entries_NoDup w n : wf_node n → NoDup (entries w n).
Proof.
  intros Hwf. revert w. induction Hwf as [ch t qs q Hnd Hwf IH _ _]. intros w. simpl.
  apply NoDup_app. split; [destruct t; [apply NoDup_singleton|constructor]|]. split.
  - intros e Ht. destruct t; [|by apply not_elem_of_nil in Ht]. apply list_elem_of_singleton in Ht as ->.
    intros (l & Hl & He)%list_elem_of_concat. apply list_elem_of_fmap in Hl as ([c n] & -> & _).
    destruct (entries_prefix _ _ _ He) as (u & Hu). simpl in Hu. rewrite <-app_assoc in Hu.
    rewrite <-(app_nil_r w) in Hu at 1. by apply app_inv_head in Hu.
  - assert (∀ c n, (c, n) ∈ ch → NoDup (entries (w ++ [c]) n)) as Hin.
    { intros c n Hcn. eapply IH. by apply dict_elem_get. }
    clear IH Hwf. induction ch as [|[c n] ch IHch]; simpl in *; [constructor|].
    apply NoDup_cons in Hnd as [Hc Hnd]. apply NoDup_app. split; [apply Hin; left|]. split.
    + intros e He. intros (l & Hl & He')%list_elem_of_concat.
      apply list_elem_of_fmap in Hl as ([c' n'] & -> & Hcn').
      destruct (entries_prefix _ _ _ He) as (u & Hu), (entries_prefix _ _ _ He') as (u' & Hu').
      rewrite Hu, <-!app_assoc in Hu'. apply app_inv_head in Hu'. simplify_eq/=.
      apply Hc, list_elem_of_fmap. by exists (c', n').
    + apply IHch; [done|]. intros. apply Hin. by right.
Qed.

Lemma entries_length w n : Z.of_nat (length (entries w n)) = terminals n.
Proof.
  revert w. induction n as [ch t ps f IH] using node_ind. intros w.
  unfold terminals. rewrite weight_node. simpl. rewrite length_app.
  cut (Z.of_nat (length (concat ((λ '(c, child), entries (w ++ [c]) child) <$> ch)))
       = cweight (λ t, if t then 1 else 0) ch).
  { intros <-. destruct t; simpl; [lia|done]. }
  induction ch as [|[c n] ch IHch]; [done|]. simpl. rewrite length_app.
  specialize (IHch ltac:(intros; eapply IH; by right)). specialize (IH c n ltac:(left) (w ++ [c])).
  rewrite Nat2Z.inj_add, IH. unfold cweight. simpl. f_equal. exact IHch.
Qed.

(** A living node of a well-formed tree leads to a word. *)
Lemma alive_word n : wf_node n → alive n → ∃ w, is_Some (tlookup n w).
Proof.
  induction 1 as [ch t ps f Hnd Hwf IH Hal Hps]. destruct t; [exists []; by eexists|].
  intros [|Hch]; [done|]. simpl in Hch. destruct ch as [|[c n] ch]; [done|].
  assert (dict_get ((c, n) :: ch) c = Some n) as E by (simpl; by rewrite decide_True).
  destruct (IH c n E (Hal c n E)) as (w & Hw). exists (c :: w). by rewrite tlookup_cons, E.
Qed.

Lemma walk_wf p n n' : wf_node n → walk p n = Some n' → wf_node n' ∧ (p ≠ [] → alive n').
Proof.
  revert n. induction p as [|c p IH]; intros n Hwf; simpl; [intros [= ->]; done|].
  destruct Hwf as [ch t ps f Hnd Hch Hal Hps]; simpl. destruct (dict_get ch c) as [m|] eqn:E; [|done].
  intros Hw. destruct (IH m (Hch _ _ E) Hw) as [H1 H2]. split; [done|]. intros _.
  destruct p; [|by apply H2]. simpl in Hw. simplify_eq. eauto.
Qed.

Lemma walk_app p q n :
  walk (p ++ q) n = match walk p n with Some n' => walk q n' | None => None end.
Proof. revert n. induction p as [|c p IH]; intros n; simpl; [done|]. by destruct (dict_get _ c). Qed.

Lemma tlookup_app p q n :
  tlookup n (p ++ q) = match walk p n with Some n' => tlookup n' q | None => None end.
Proof. unfold tlookup. rewrite walk_app. by destruct (walk p n). Qed.

End TrieLemmas.

(** ** Specification: a finite map from words to payloads and frequency *)

Lemma starts_with_spec p w : starts_with p w = true ↔ ∃ v, w = p ++ v.
Proof.
  revert w. induction p as [|c p IH]; intros w; simpl; [split; eauto|].
  destruct w as [|d w]; [split; [done|by intros [? ?]]|].
  rewrite andb_true_iff, bool_decide_eq_true, IH. split.
  - intros [-> [v ->]]. by exists v.
  - intros [v [= -> ->]]. eauto.
Qed.

Section TrieSpec.
Context {P : Type} `{EqDecision P}.

Abbreviation tmap := (gmap (list ascii) (list P * Z)).

Definition flat (e : list ascii * (list P * Z)) : list ascii * list P * Z := (e.1, e.2.1, e.2.2).

Inductive trie_op :=
  | OpInsert (key : string) (payload : option P) (score : Z)
  | OpSearch (key : string)
  | OpAutocomplete (prefix : string) (limit : Z)
  | OpDelete (key : string) (payload : option P)
  | OpClear
  | OpWordCount.

Inductive trie_out :=
  | OutUnit
  | OutPayloads (r : option (list P))
  | OutCompletions (r : option (list (string * list P)))
  | OutFound (b : bool)
  | OutCount (z : Z).

Definition trie_step (o : trie_op) (t : PrefixTrie P) : trie_out * PrefixTrie P :=
  match o with
  | OpInsert key payload score => (OutUnit, trie_insert key payload score t)
  | OpSearch key => (OutPayloads (trie_search key t), t)
  | OpAutocomplete prefix limit => (OutCompletions (trie_autocomplete prefix limit t), t)
  | OpDelete key payload => let '(b, t') := trie_delete key payload t in (OutFound b, t')
  | OpClear => (OutUnit, trie_clear t)
  | OpWordCount => (OutCount (word_count t), t)
  end.

Definition spec_completions (p : list ascii) (limit : Z) (m : tmap) : list (string * list P) :=
  top_entries limit (flat <$> filter (λ e, starts_with p e.1 = true) (map_to_list m)).

Definition spec_step (o : trie_op) (m : tmap) : trie_out * tmap :=
  match o with
  | OpInsert key payload score =>
      let w := normalize key in
      (OutUnit, if decide (w = []) then m else <[w := add_entry payload score (m !! w)]> m)
  | OpSearch key => (OutPayloads (fst <$> m !! normalize key), m)
  | OpAutocomplete prefix limit =>
      let w := normalize prefix in
      (OutCompletions (Some (if decide (w = [] ∨ limit <= 0) then [] else spec_completions w limit m)), m)
  | OpDelete key payload =>
      let w := normalize key in
      (OutFound (bool_decide (is_Some (m !! w))), partial_alter (λ _, del_entry payload (m !! w)) w m)
  | OpClear => (OutUnit, ∅)
  | OpWordCount => (OutCount (Z.of_nat (size m)), m)
  end.

Fixpoint run_ops {S} (step : trie_op → S → trie_out * S) (ops : list trie_op) (s : S)
    : list trie_out * S :=
  match ops with
  | [] => ([], s)
  | o :: ops' =>
      let '(r, s1) := step o s in let '(rs, s2) := run_ops step ops' s1 in (r :: rs, s2)
  end.

Record repr (t : PrefixTrie P) (m : tmap) : Prop := {
  repr_wf : wf_node (root t);
  repr_lookup w : tlookup (root t) w = m !! w;
  repr_root : m !! [] = None;
  repr_words : word_count t = terminals (root t);
  repr_nodes : node_count t = nodes (root t);
}.

Lemma repr_init : repr trie_init ∅.
Proof.
  constructor; try done; [apply wf_new_node|]. intros w. rewrite lookup_empty. apply tlookup_new.
Qed.

(** The words below a prefix are the entries of the map with this prefix. *)
Lemma entries_map t m p n :
  repr t m → walk p (root t) = Some n →
  entries p n ≡ₚ flat <$> filter (λ e, starts_with p e.1 = true) (map_to_list m).
Proof.
  intros Hr Hw. destruct (walk_wf _ _ _ (repr_wf _ _ Hr) Hw) as [Hwf _].
  apply NoDup_Permutation.
  - by apply entries_NoDup.
  - apply NoDup_fmap_2; [by intros [? []] [? []] [= -> -> ->]|]. apply NoDup_filter, NoDup_map_to_list.
  - intros [[w ps] f]. rewrite list_elem_of_fmap. split.
    + intros He. destruct (entries_prefix _ _ _ He) as [v Hv]. simpl in Hv. subst w.
      apply elem_of_entries in He; [|done]. exists (p ++ v, (ps, f)). split; [done|].
      apply list_elem_of_filter. split; [apply starts_with_spec; eauto|].
      apply elem_of_map_to_list. by rewrite <-(repr_lookup _ _ Hr), tlookup_app, Hw.
    + intros ([w' [ps' f']] & Heq & [Hp Hin]%list_elem_of_filter). injection Heq as -> -> ->.
      apply starts_with_spec in Hp as [v Hv]. simpl in Hv. subst w'.
      apply elem_of_map_to_list in Hin. rewrite <-(repr_lookup _ _ Hr), tlookup_app, Hw in Hin.
      by apply elem_of_entries.
Qed.

Lemma entry_leb_total (x y : list ascii * list P * Z) : entry_leb x y = true ∨ entry_leb y x = true.
Proof.
  destruct x as [[w1 p1] f1], y as [[w2 p2] f2]. simpl.
  destruct (Z.ltb_spec f2 f1); [by left|]. destruct (Z.ltb_spec f1 f2); [by right|]. apply chars_leb_total.
Qed.

Lemma entry_leb_trans (x y z : list ascii * list P * Z) :
  entry_leb x y = true → entry_leb y z = true → entry_leb x z = true.
Proof.
  destruct x as [[w1 p1] f1], y as [[w2 p2] f2], z as [[w3 p3] f3]. simpl.
  destruct (Z.ltb_spec f2 f1), (Z.ltb_spec f3 f2), (Z.ltb_spec f3 f1), (Z.ltb_spec f1 f2),
    (Z.ltb_spec f2 f3), (Z.ltb_spec f1 f3); try done; try lia. apply chars_leb_trans.
Qed.

Lemma entry_leb_words (x y : list ascii * list P * Z) :
  entry_leb x y = true → entry_leb y x = true → x.1.1 = y.1.1.
Proof.
  destruct x as [[w1 p1] f1], y as [[w2 p2] f2]. simpl.
  destruct (Z.ltb_spec f2 f1), (Z.ltb_spec f1 f2); try done; try lia. apply chars_leb_antisym.
Qed.

(** The completions do not depend on the order in which the tree is visited. *)
Lemma top_entries_perm limit (l1 l2 : list (list ascii * list P * Z)) :
  (∀ x y, x ∈ l1 → y ∈ l1 → x.1.1 = y.1.1 → x = y) → l1 ≡ₚ l2 → top_entries limit l1 = top_entries limit l2.
Proof.
  intros Hinj Hp. unfold top_entries. do 2 f_equal.
  apply (StronglySorted_unique_strong (λ a b, entry_leb a b = true)).
  - intros x y Hx Hy H1 H2. rewrite stable_sort_perm in Hx. rewrite stable_sort_perm, <-Hp in Hy.
    apply Hinj; [done..|]. by apply entry_leb_words.
  - apply stable_sort_sorted; [apply entry_leb_total|apply entry_leb_trans].
  - apply stable_sort_sorted; [apply entry_leb_total|apply entry_leb_trans].
  - by rewrite !stable_sort_perm.
Qed.

Lemma flat_words (m : tmap) x y :
  x ∈ flat <$> map_to_list m → y ∈ flat <$> map_to_list m → x.1.1 = y.1.1 → x = y.
Proof.
  intros ([w1 e1] & -> & H1%elem_of_map_to_list)%list_elem_of_fmap
         ([w2 e2] & -> & H2%elem_of_map_to_list)%list_elem_of_fmap. simpl. intros ->. by simplify_eq.
Qed.

Lemma repr_size t m : repr t m → word_count t = Z.of_nat (size m).
Proof.
  intros Hr. rewrite (repr_words _ _ Hr), <-(entries_length []), (entries_map t m [] (root t)) by done.
  rewrite length_fmap, filter_all by (by apply Forall_forall). f_equal. apply length_map_to_list.
Qed.

Lemma autocomplete_spec t m p limit :
  repr t m →
  trie_autocomplete p limit t =
    Some (if decide (normalize p = [] ∨ limit <= 0) then [] else spec_completions (normalize p) limit m).
Proof.
  intros Hr. unfold trie_autocomplete. destruct (decide (normalize p = [])) as [|Hne]; [by rewrite decide_True by eauto|].
  destruct (Z.leb_spec limit 0); [by rewrite decide_True by eauto|]. rewrite decide_False by (intros []; [done|lia]).
  destruct (walk (normalize p) (root t)) as [n|] eqn:Hw.
  - destruct (collect_total (node_size n) [(n, normalize p)] []) as (out & -> & Hout); [simpl; lia|].
    simpl in *. f_equal. rewrite app_nil_r in Hout.
    assert (out ≡ₚ flat <$> filter (λ e, starts_with (normalize p) e.1 = true) (map_to_list m)) as Hp.
    { rewrite Hout. by apply entries_map with t. }
    apply top_entries_perm; [|done]. intros x y. rewrite Hp.
    intros (e1 & -> & [_ ?]%list_elem_of_filter)%list_elem_of_fmap
           (e2 & -> & [_ ?]%list_elem_of_filter)%list_elem_of_fmap.
    apply (flat_words m); by apply list_elem_of_fmap_2.
  - f_equal. unfold spec_completions. rewrite filter_none; [unfold top_entries; simpl; by rewrite take_nil|].
    apply Forall_forall. intros [w e] Hin%elem_of_map_to_list [v Hv]%starts_with_spec.
    simpl in Hv. subst w.
    by rewrite <-(repr_lookup _ _ Hr), tlookup_app, Hw in Hin.
Qed.

Lemma search_spec t m key : repr t m → trie_search key t = fst <$> m !! normalize key.
Proof.
  intros Hr. unfold trie_search. case_decide as E; [by rewrite E, (repr_root _ _ Hr)|].
  rewrite <-(repr_lookup _ _ Hr). unfold tlookup.
  destruct (walk (normalize key) (root t)) as [[ch [] ps f]|]; done.
Qed.

Lemma insert_repr t m key payload score :
  repr t m → repr (trie_insert key payload score t) (spec_step (OpInsert key payload score) m).2.
Proof.
  intros Hr. unfold trie_insert. simpl. case_decide as E; [done|].
  pose proof (insert_path_counts (normalize key) payload score (root t)) as Hc.
  pose proof (insert_path_wf (normalize key) payload score (root t) (repr_wf _ _ Hr)) as Hwf.
  pose proof (λ w, insert_path_lookup (normalize key) payload score (root t) w (repr_wf _ _ Hr)) as Hl.
  destruct (insert_path _ _ _ _) as [[r dw] dn]. simpl in *. destruct Hr as [H1 H2 H3 H4 H5].
  constructor; simpl; [done| | |lia|lia].
  - intros w. rewrite Hl, H2. case_decide; [subst; by rewrite lookup_insert_eq|by rewrite lookup_insert_ne, H2].
  - by rewrite lookup_insert_ne.
Qed.

Lemma delete_repr t m key payload :
  repr t m →
  (trie_delete key payload t).1 = bool_decide (is_Some (m !! normalize key)) ∧
  repr (trie_delete key payload t).2 (spec_step (OpDelete key payload) m).2.
Proof.
  intros Hr. unfold trie_delete. simpl. case_decide as E.
  { rewrite E, (repr_root _ _ Hr). split; [done|]. simpl. replace (partial_alter _ _ _) with m; [done|].
    apply map_eq. intros w. destruct (decide (w = [])) as [->|].
    - by rewrite lookup_partial_alter_eq, (repr_root _ _ Hr).
    - by rewrite lookup_partial_alter_ne. }
  pose proof (prune_counts (normalize key) payload (root t)) as Hc.
  pose proof (prune_wf (normalize key) payload (root t) (repr_wf _ _ Hr)) as Hwf.
  pose proof (prune_found (normalize key) payload (root t)) as Hf.
  pose proof (λ w, prune_lookup (normalize key) payload (root t) w (repr_wf _ _ Hr)) as Hl.
  destruct (prune _ _ _) as [[[[found can] r] dw] dn]. simpl in *. destruct Hr as [H1 H2 H3 H4 H5].
  rewrite H2 in Hf. split; [done|]. constructor; simpl; [done| | |lia|lia].
  - intros w. rewrite Hl, H2.
    case_decide; [subst; by rewrite lookup_partial_alter_eq|by rewrite lookup_partial_alter_ne, H2].
  - by rewrite lookup_partial_alter_ne.
Qed.

Lemma step_refines o t m :
  repr t m → (trie_step o t).1 = (spec_step o m).1 ∧ repr (trie_step o t).2 (spec_step o m).2.
Proof.
  intros Hr. destruct o as [key payload score|key|prefix limit|key payload| |]; cbn [trie_step].
  - split; [done|]. by apply insert_repr.
  - split; [|done]. simpl. f_equal. by apply search_spec.
  - split; [|done]. cbn [spec_step fst]. f_equal. by apply autocomplete_spec.
  - destruct (delete_repr t m key payload Hr) as [H1 H2].
    destruct (trie_delete key payload t) as [b t']. simpl in *. by rewrite H1.
  - split; [done|]. apply repr_init.
  - split; [|done]. simpl. f_equal. by apply repr_size.
Qed.

Lemma run_refines ops t m :
  repr t m →
  (run_ops trie_step ops t).1 = (run_ops spec_step ops m).1 ∧
  repr (run_ops trie_step ops t).2 (run_ops spec_step ops m).2.
Proof.
  revert t m. induction ops as [|o ops IH]; intros t m Hr; [done|]. cbn [run_ops].
  destruct (step_refines o t m Hr) as [H1 H2].
  destruct (trie_step o t) as [r t'], (spec_step o m) as [r' m']. simpl in H1, H2. subst r'.
  destruct (IH t' m' H2) as [H3 H4].
  destruct (run_ops trie_step ops t'), (run_ops spec_step ops m'). simpl in *. by subst.
Qed.

(** C29: for every sequence of inserts, searches, completions, deletions, clears and
    word counts on a fresh trie, each operation answers exactly as the same sequence
    on a finite map from normalized words to (payloads, frequency): completions are
    total and are the [limit] best words with the prefix, by frequency and then
    alphabetically. *)
Theorem trie_refines_map (ops : list trie_op) :
  (run_ops trie_step ops trie_init).1 = (run_ops spec_step ops ∅).1.
Proof. apply run_refines, repr_init. Qed.

(** After any sequence of operations the node counter is the number of nodes in
    the tree, the word counter is the number of stored words, every node but the root
    lies on the path of a stored word, and a trie without words is the bare root:
    deletions leave no orphan nodes behind. *)
Theorem trie_no_orphans (ops : list trie_op) :
  let t := (run_ops trie_step ops trie_init).2 in
  let m := (run_ops spec_step ops ∅).2 in
  node_count t = Z.of_nat (node_size (root t)) ∧
  word_count t = Z.of_nat (size m) ∧
  (∀ p n, p ≠ [] → walk p (root t) = Some n → ∃ w, is_Some (m !! (p ++ w))) ∧
  (m = ∅ → node_count t = 1).
Proof.
  intros t m. destruct (run_refines ops _ _ repr_init) as [_ Hr]. fold t m in Hr.
  assert (∀ p n, p ≠ [] → walk p (root t) = Some n → ∃ w, is_Some (m !! (p ++ w))) as Hp.
  { intros p n Hne Hw. destruct (walk_wf _ _ _ (repr_wf _ _ Hr) Hw) as [Hwf Hal].
    destruct (alive_word n Hwf (Hal Hne)) as (w & Hs). exists w.
    by rewrite <-(repr_lookup _ _ Hr), tlookup_app, Hw. }
  split; [by rewrite (repr_nodes _ _ Hr), nodes_size|]. split; [by apply repr_size|].
  split; [done|]. intros Hm. rewrite (repr_nodes _ _ Hr). destruct (root t) as [ch tt ps f] eqn:E.
  destruct ch as [|[c n] ch]; [done|]. destruct (Hp [c] n) as [w Hs]; [done|simpl; by rewrite decide_True|].
  rewrite Hm, lookup_empty in Hs. by destruct Hs.
Qed.

End TrieSpec.

(** Case folding, completion order, payload removal and pruning on a small trie. *)
Example trie_run_example :
  (run_ops trie_step
    [OpInsert " Alice " (Some 1%nat) 1; OpInsert "alina" (Some 2%nat) 5; OpInsert "alice" (Some 3%nat) 1;
     OpAutocomplete "AL" 10; OpDelete "ALICE" (Some 1%nat); OpSearch "alice"; OpDelete "alice" None;
     OpWordCount; OpDelete "alina" (Some 2%nat); OpDelete "alina" None] trie_init)
  = ([OutUnit; OutUnit; OutUnit;
      OutCompletions (Some [("alina", [2%nat]); ("alice", [1%nat; 3%nat])]);
      OutFound true; OutPayloads (Some [3%nat]); OutFound true; OutCount 1; OutFound true; OutFound false],
     mk_trie new_node 0 1).
Proof. vm_compute. reflexivity. Qed.
