(* ===== verification/UserRepo.v ===== *)
(** The user entity and its in-memory repository
    ([app/repositories/user_repository.py]).

    Entities are mutable objects that the repository hands out, so they live in an
    object heap: [_store] maps identifiers to references, and an update in place is
    seen through every reference.  [email] and [username] are optional because the
    optimistic update stores the explicit nulls of a payload.  The identifier
    dictionary keeps its insertion order, which [list_all] shows. *)

From S2P Require Import Prelude.

Local Open Scope Z_scope.

(** ** Entities *)

Record UserEntity : Type := mkUser {
  u_id : Z;
  u_email : option string;
  u_username : option string;
  u_password_hash : string;
  u_is_active : bool;
  u_created_at : Z;
  u_version : Z;
  u_age : option Z;
  u_role : string;
  u_full_name : option string;
  u_phone_number : option string;
  u_bio : option string;
  u_company_name : option string;
  u_permissions : Z;
  u_nid_number : option string
}.

#[global] Instance UserEntity_eq_dec : EqDecision UserEntity.
Proof. solve_decision. Defined.

(** Assignments to one attribute. *)
Definition set_email (v : option string) (u : UserEntity) : UserEntity :=
  mkUser (u_id u) v (u_username u) (u_password_hash u) (u_is_active u) (u_created_at u) (u_version u) (u_age u) (u_role u) (u_full_name u) (u_phone_number u) (u_bio u) (u_company_name u) (u_permissions u) (u_nid_number u).
Definition set_username (v : option string) (u : UserEntity) : UserEntity :=
  mkUser (u_id u) (u_email u) v (u_password_hash u) (u_is_active u) (u_created_at u) (u_version u) (u_age u) (u_role u) (u_full_name u) (u_phone_number u) (u_bio u) (u_company_name u) (u_permissions u) (u_nid_number u).
Definition set_password_hash (v : string) (u : UserEntity) : UserEntity :=
  mkUser (u_id u) (u_email u) (u_username u) v (u_is_active u) (u_created_at u) (u_version u) (u_age u) (u_role u) (u_full_name u) (u_phone_number u) (u_bio u) (u_company_name u) (u_permissions u) (u_nid_number u).
Definition set_version (v : Z) (u : UserEntity) : UserEntity :=
  mkUser (u_id u) (u_email u) (u_username u) (u_password_hash u) (u_is_active u) (u_created_at u) v (u_age u) (u_role u) (u_full_name u) (u_phone_number u) (u_bio u) (u_company_name u) (u_permissions u) (u_nid_number u).
Definition set_age (v : option Z) (u : UserEntity) : UserEntity :=
  mkUser (u_id u) (u_email u) (u_username u) (u_password_hash u) (u_is_active u) (u_created_at u) (u_version u) v (u_role u) (u_full_name u) (u_phone_number u) (u_bio u) (u_company_name u) (u_permissions u) (u_nid_number u).
Definition set_role (v : string) (u : UserEntity) : UserEntity :=
  mkUser (u_id u) (u_email u) (u_username u) (u_password_hash u) (u_is_active u) (u_created_at u) (u_version u) (u_age u) v (u_full_name u) (u_phone_number u) (u_bio u) (u_company_name u) (u_permissions u) (u_nid_number u).
Definition set_full_name (v : option string) (u : UserEntity) : UserEntity :=
  mkUser (u_id u) (u_email u) (u_username u) (u_password_hash u) (u_is_active u) (u_created_at u) (u_version u) (u_age u) (u_role u) v (u_phone_number u) (u_bio u) (u_company_name u) (u_permissions u) (u_nid_number u).
Definition set_phone_number (v : option string) (u : UserEntity) : UserEntity :=
  mkUser (u_id u) (u_email u) (u_username u) (u_password_hash u) (u_is_active u) (u_created_at u) (u_version u) (u_age u) (u_role u) (u_full_name u) v (u_bio u) (u_company_name u) (u_permissions u) (u_nid_number u).
Definition set_bio (v : option string) (u : UserEntity) : UserEntity :=
  mkUser (u_id u) (u_email u) (u_username u) (u_password_hash u) (u_is_active u) (u_created_at u) (u_version u) (u_age u) (u_role u) (u_full_name u) (u_phone_number u) v (u_company_name u) (u_permissions u) (u_nid_number u).
Definition set_company_name (v : option string) (u : UserEntity) : UserEntity :=
  mkUser (u_id u) (u_email u) (u_username u) (u_password_hash u) (u_is_active u) (u_created_at u) (u_version u) (u_age u) (u_role u) (u_full_name u) (u_phone_number u) (u_bio u) v (u_permissions u) (u_nid_number u).
Definition set_nid_number (v : option string) (u : UserEntity) : UserEntity :=
  mkUser (u_id u) (u_email u) (u_username u) (u_password_hash u) (u_is_active u) (u_created_at u) (u_version u) (u_age u) (u_role u) (u_full_name u) (u_phone_number u) (u_bio u) (u_company_name u) (u_permissions u) v.

(** The dictionary [model_dump(exclude_unset=True)] of a [UserUpdate]: the outer
    option is absence of the key, the inner one an explicit null. *)
Record UserPatch : Type := mkPatch {
  p_email : option (option string);
  p_username : option (option string);
  p_age : option (option Z);
  p_role : option (option string);
  p_full_name : option (option string);
  p_phone_number : option (option string);
  p_bio : option (option string);
  p_company_name : option (option string)
}.

Definition empty_patch : UserPatch := mkPatch None None None None None None None None.

(** ** The repository *)

Abbreviation ref := nat.

Record user_repo : Type := mkUserRepo {
  ur_heap : gmap ref UserEntity;
  ur_next : ref;
  ur_store : list (Z * ref);
  ur_email_index : gmap (option string) Z;
  ur_username_index : gmap (option string) Z;
  ur_views : gmap Z Z;
  ur_current_id : Z
}.

Definition ur_init : user_repo := mkUserRepo ∅ 0 [] ∅ ∅ ∅ 0.

(** Allocation of an object, and assignment to attributes of an object. *)
Definition ur_alloc (u : UserEntity) (r : user_repo) : ref * user_repo :=
  (ur_next r, mkUserRepo (<[ur_next r := u]> (ur_heap r)) (S (ur_next r)) (ur_store r) (ur_email_index r)
                (ur_username_index r) (ur_views r) (ur_current_id r)).

Definition ur_assign (f : UserEntity -> UserEntity) (l : ref) (r : user_repo) : user_repo :=
  mkUserRepo (alter f l (ur_heap r)) (ur_next r) (ur_store r) (ur_email_index r)
    (ur_username_index r) (ur_views r) (ur_current_id r).

Definition ur_set_store (d : list (Z * ref)) (r : user_repo) : user_repo :=
  mkUserRepo (ur_heap r) (ur_next r) d (ur_email_index r) (ur_username_index r) (ur_views r) (ur_current_id r).
Definition ur_set_indexes (em un : gmap (option string) Z) (r : user_repo) : user_repo :=
  mkUserRepo (ur_heap r) (ur_next r) (ur_store r) em un (ur_views r) (ur_current_id r).
Definition ur_set_id (i : Z) (r : user_repo) : user_repo :=
  mkUserRepo (ur_heap r) (ur_next r) (ur_store r) (ur_email_index r) (ur_username_index r) (ur_views r) i.
Definition ur_set_views (v : gmap Z Z) (r : user_repo) : user_repo :=
  mkUserRepo (ur_heap r) (ur_next r) (ur_store r) (ur_email_index r) (ur_username_index r) v (ur_current_id r).

(** [get_by_id], [get_by_email], [get_by_username] *)
Definition ur_get_by_id (user_id : Z) (r : user_repo) : option ref := dict_get (ur_store r) user_id.

Definition ur_get_by_email (email : option string) (r : user_repo) : option ref :=
  match ur_email_index r !! email with
  | None => None
  | Some user_id => dict_get (ur_store r) user_id
  end.

Definition ur_get_by_username (username : option string) (r : user_repo) : option ref :=
  match ur_username_index r !! username with
  | None => None
  | Some user_id => dict_get (ur_store r) user_id
  end.

(** The permissions that [create] assigns when none are given. *)
Definition default_permissions (role : string) : Z :=
  if bool_decide (role = "admin") then 63
  else if bool_decide (role = "moderator") then 7
  else if bool_decide (role = "guest") then 1
  else 3.

(** [create]; [now] is [datetime.now(UTC)]. *)
Definition ur_create (now : Z) (email username password_hash : string) (age : option Z) (role : string)
  (full_name phone_number bio company_name : option string) (permissions : option Z)
  (nid_number : option string) (r : user_repo) : ref * user_repo :=
  let id := ur_current_id r + 1 in
  let perms := match permissions with None => default_permissions role | Some p => p end in
  let new_user := mkUser id (Some email) (Some username) password_hash true now 1 age role full_name
                    phone_number bio company_name perms nid_number in
  let '(l, r1) := ur_alloc new_user (ur_set_id id r) in
  let r2 := ur_set_store (dict_set (ur_store r1) id l) r1 in
  (l, ur_set_indexes (<[Some email := id]> (ur_email_index r2)) (<[Some username := id]> (ur_username_index r2)) r2).

(** [update_nid] *)
Definition ur_update_nid (user_id : Z) (nid_number : option string) (r : user_repo) : option ref * user_repo :=
  match dict_get (ur_store r) user_id with
  | None => (None, r)
  | Some l =>
      (Some l, ur_assign (fun u => set_version (u_version u + 1) u) l (ur_assign (set_nid_number nid_number) l r))
  end.

(** The two index blocks shared by [update] and [update_with_optimistic_lock]:
    [self._email_index.pop(user.email, None); self._email_index[email] = user.id;
    user.email = email]. *)
Definition reindex_email (email : option string) (l : ref) (r : user_repo) : user_repo :=
  match ur_heap r !! l with
  | None => r
  | Some user =>
      if decide (email = u_email user) then r
      else ur_assign (set_email email) l
             (ur_set_indexes (<[email := u_id user]> (delete (u_email user) (ur_email_index r)))
                (ur_username_index r) r)
  end.

Definition reindex_username (username : option string) (l : ref) (r : user_repo) : user_repo :=
  match ur_heap r !! l with
  | None => r
  | Some user =>
      if decide (username = u_username user) then r
      else ur_assign (set_username username) l
             (ur_set_indexes (ur_email_index r)
                (<[username := u_id user]> (delete (u_username user) (ur_username_index r))) r)
  end.

(** [if v is not None: user.attr = v] *)
Definition assign_opt {A} (set : A -> UserEntity -> UserEntity) (v : option A) (u : UserEntity) : UserEntity :=
  match v with Some a => set a u | None => u end.

(** [data.get(key, default)] where the default is the argument. *)
Definition data_get {A} (field : option (option A)) (arg : option A) : option A := default arg field.

(** [update] without [update_data]. *)
Definition ur_update_fields (user_id : Z) (email username : option string) (age : option Z) (role : option string)
  (full_name phone_number bio company_name password_hash : option string) (r : user_repo)
  : option ref * user_repo :=
  match dict_get (ur_store r) user_id with
  | None => (None, r)
  | Some l =>
      let r1 := match email with Some e => reindex_email (Some e) l r | None => r end in
      let r2 := match username with Some n => reindex_username (Some n) l r1 | None => r1 end in
      (Some l,
       ur_assign
         (fun u => assign_opt set_password_hash password_hash
            (assign_opt (fun v => set_company_name (Some v)) company_name
            (assign_opt (fun v => set_bio (Some v)) bio
            (assign_opt (fun v => set_phone_number (Some v)) phone_number
            (assign_opt (fun v => set_full_name (Some v)) full_name
            (assign_opt set_role role
            (assign_opt (fun v => set_age (Some v)) age u))))))) l r2)
  end.

(** [update]: the values of [update_data], when given, replace the arguments. *)
Definition ur_update (user_id : Z) (email username : option string) (age : option Z) (role : option string)
  (full_name phone_number bio company_name : option string) (update_data : option UserPatch)
  (password_hash : option string) (r : user_repo) : option ref * user_repo :=
  match update_data with
  | None => ur_update_fields user_id email username age role full_name phone_number bio company_name password_hash r
  | Some data =>
      ur_update_fields user_id (data_get (p_email data) email) (data_get (p_username data) username)
        (data_get (p_age data) age)
        (match data_get (p_role data) role with Some v => Some v | None => role end)
        (data_get (p_full_name data) full_name) (data_get (p_phone_number data) phone_number)
        (data_get (p_bio data) bio) (data_get (p_company_name data) company_name) password_hash r
  end.

(** [if key in data: user.attr = data[key]]; [str(None)] is ["None"]. *)
Definition apply_patch (data : UserPatch) (u : UserEntity) : UserEntity :=
  assign_opt set_company_name (p_company_name data)
  (assign_opt set_bio (p_bio data)
  (assign_opt set_phone_number (p_phone_number data)
  (assign_opt set_full_name (p_full_name data)
  (assign_opt (fun v => set_role (match v with Some s => s | None => "None" end)) (p_role data)
  (assign_opt set_age (p_age data) u))))).

(** [update_with_optimistic_lock] *)
Definition ur_update_with_optimistic_lock (user_id expected_version : Z) (data : UserPatch) (r : user_repo)
  : result ref * user_repo :=
  match dict_get (ur_store r) user_id with
  | None => (Raise OptimisticLockException, r)
  | Some l =>
      match ur_heap r !! l with
      | None => (Raise OptimisticLockException, r)
      | Some user =>
          if negb (u_version user =? expected_version) then (Raise OptimisticLockException, r)
          else
            let r1 := match p_email data with Some e => reindex_email e l r | None => r end in
            let r2 := match p_username data with Some n => reindex_username n l r1 | None => r1 end in
            (Ok l, ur_assign (fun u => set_version (u_version u + 1) u) l (ur_assign (apply_patch data) l r2))
      end
  end.

(** [update_permissions]: a new object without [nid_number] replaces the old one. *)
Definition ur_update_permissions (user_id permissions : Z) (r : user_repo) : option ref * user_repo :=
  match dict_get (ur_store r) user_id with
  | None => (None, r)
  | Some l =>
      match ur_heap r !! l with
      | None => (None, r)
      | Some user =>
          let updated_user :=
            mkUser (u_id user) (u_email user) (u_username user) (u_password_hash user) (u_is_active user)
              (u_created_at user) (u_version user + 1) (u_age user) (u_role user) (u_full_name user)
              (u_phone_number user) (u_bio user) (u_company_name user) permissions None in
          let '(l', r1) := ur_alloc updated_user r in
          (Some l', ur_set_store (dict_set (ur_store r1) user_id l') r1)
      end
  end.

(** [delete] *)
Definition ur_delete (user_id : Z) (r : user_repo) : bool * user_repo :=
  match dict_get (ur_store r) user_id with
  | None => (false, r)
  | Some l =>
      match ur_heap r !! l with
      | None => (false, r)
      | Some user =>
          let r1 := ur_set_indexes (delete (u_email user) (ur_email_index r))
                      (delete (u_username user) (ur_username_index r)) r in
          (true, ur_set_store (dict_del (ur_store r1) user_id) r1)
      end
  end.

(** [search_term in s.lower()]; a null attribute has no [lower]. *)
Definition match_attr (term : string) (s : option string) : result bool :=
  match s with Some s => Ok (py_in term (py_lower s)) | None => Raise PyAttributeError end.

(** One round of the filter loop of [list_all]: whether the user is kept. *)
Definition list_filter (role : option string) (search_term : option string) (is_active : option bool)
  (u : UserEntity) : result bool :=
  if match role with Some x => negb (bool_decide (u_role u = x)) | None => false end then Ok false
  else if match is_active with Some b => negb (Bool.eqb (u_is_active u) b) | None => false end then Ok false
  else match search_term with
       | None => Ok true
       | Some term =>
           (let? username_match := match_attr term (u_username u) in
            let? email_match := match_attr term (u_email u) in
            let name_match := match u_full_name u with Some f => py_in term (py_lower f) | None => false end in
            Ok (username_match || email_match || name_match))%py
       end.

Fixpoint filter_users (keep : UserEntity -> result bool) (h : gmap ref UserEntity) (ls : list ref)
  : result (list ref) :=
  match ls with
  | [] => Ok []
  | l :: ls' =>
      match h !! l with
      | None => filter_users keep h ls'
      | Some u =>
          (let? b := keep u in
           let? rest := filter_users keep h ls' in
           Ok (if b then l :: rest else rest))%py
      end
  end.

(** [list_all] *)
Definition ur_list_all (limit offset : Z) (role search : option string) (is_active : option bool)
  (r : user_repo) : result (list ref) :=
  match role, search, is_active with
  | None, None, None => Ok (py_slicez (ur_store r).*2 offset (offset + limit))
  | _, _, _ =>
      let search_term :=
        match search with
        | Some s => if bool_decide (s = "") then None else Some (py_lower s)
        | None => None
        end in
      (let? filtered := filter_users (list_filter role search_term is_active) (ur_heap r) (ur_store r).*2 in
       Ok (py_slicez filtered offset (offset + limit)))%py
  end.

(** [increment_views_batch] over the items of [views_map]. *)
Fixpoint ur_increment_views_batch (views_map : list (Z * Z)) (r : user_repo) : Z * user_repo :=
  match views_map with
  | [] => (0, r)
  | (user_id, count) :: rest =>
      let r1 := ur_set_views (<[user_id := default 0 (ur_views r !! user_id) + count]> (ur_views r)) r in
      let '(n, r2) := ur_increment_views_batch rest r1 in (n + 1, r2)
  end.

Definition ur_get_views (user_id : Z) (r : user_repo) : Z := default 0 (ur_views r !! user_id).
Definition ur_get_all_ids (r : user_repo) : list Z := (ur_store r).*1.

(** [clear]; objects handed out before stay alive. *)
Definition ur_clear (r : user_repo) : user_repo :=
  mkUserRepo (ur_heap r) (ur_next r) [] ∅ ∅ ∅ 0.

(** ** Invariant

    [lookup_user] is the entity stored under an identifier. *)

Definition lookup_user (r : user_repo) (id : Z) : option UserEntity :=
  match dict_get (ur_store r) id with Some l => ur_heap r !! l | None => None end.

(** An index is exact: it lists the stored users by the attribute, and no others. *)
Definition index_exact (idx : gmap (option string) Z) (attr : UserEntity -> option string)
  (view : Z -> option UserEntity) : Prop :=
  forall k id, idx !! k = Some id <-> exists u, view id = Some u /\ attr u = k.

Record ur_inv (r : user_repo) : Prop := {
  inv_keys : NoDup (ur_store r).*1;
  inv_refs id l : dict_get (ur_store r) id = Some l ->
    exists u, ur_heap r !! l = Some u /\ u_id u = id /\ 1 <= id <= ur_current_id r;
  inv_heap l u : ur_heap r !! l = Some u -> (l < ur_next r)%nat;
  inv_email : index_exact (ur_email_index r) u_email (lookup_user r);
  inv_username : index_exact (ur_username_index r) u_username (lookup_user r);
  inv_next : 0 <= ur_current_id r
}.

Lemma inv_init : ur_inv ur_init.
Proof.
  constructor; cbn; try done.
  - apply NoDup_nil_2.
  - intros k id. rewrite lookup_empty. split; [done|]. by intros (u & [=] & _).
  - intros k id. rewrite lookup_empty. split; [done|]. by intros (u & [=] & _).
Qed.

Lemma lookup_user_id r id u : ur_inv r -> lookup_user r id = Some u -> u_id u = id /\ 1 <= id <= ur_current_id r.
Proof.
  intros Hi. unfold lookup_user. destruct (dict_get (ur_store r) id) as [l|] eqn:E; [|done].
  destruct (inv_refs _ Hi _ _ E) as (u' & -> & ? & ?). by intros [= <-].
Qed.

Lemma lookup_user_ref r id u : lookup_user r id = Some u ->
  exists l, dict_get (ur_store r) id = Some l /\ ur_heap r !! l = Some u.
Proof. unfold lookup_user. destruct (dict_get (ur_store r) id); naive_solver. Qed.

(** Two identifiers never share an object. *)
Lemma inv_ref_inj r id id' l : ur_inv r ->
  dict_get (ur_store r) id = Some l -> dict_get (ur_store r) id' = Some l -> id = id'.
Proof.
  intros Hi H1 H2. destruct (inv_refs _ Hi _ _ H1) as (u & E1 & <- & _).
  destruct (inv_refs _ Hi _ _ H2) as (u' & E2 & <- & _). by simplify_eq.
Qed.

(** Assignment in place changes one user. *)
Lemma lookup_assign r id l f : ur_inv r -> dict_get (ur_store r) id = Some l -> forall id',
  lookup_user (ur_assign f l r) id' = if decide (id = id') then f <$> lookup_user r id else lookup_user r id'.
Proof.
  intros Hi E id'. unfold lookup_user, ur_assign; cbn. case_decide as D.
  - subst id'. rewrite E. by rewrite lookup_alter_eq.
  - destruct (dict_get (ur_store r) id') as [l'|] eqn:E'; [|done].
    rewrite lookup_alter_ne; [done|]. intros <-. apply D. by eapply inv_ref_inj.
Qed.

(** What an in-place update must respect to keep the indexes exact. *)
Lemma inv_assign r id l f : ur_inv r -> dict_get (ur_store r) id = Some l ->
  (forall u, u_id (f u) = u_id u) -> (forall u, u_email (f u) = u_email u) ->
  (forall u, u_username (f u) = u_username u) -> ur_inv (ur_assign f l r).
Proof.
  intros Hi E Hid Hem Hun. pose proof (lookup_assign r id l f Hi E) as Hl.
  assert (forall idx attr, (forall u, attr (f u) = attr u) -> index_exact idx attr (lookup_user r) ->
    index_exact idx attr (lookup_user (ur_assign f l r))) as Hidx.
  { intros idx attr Ha Hx k id'. rewrite (Hx k id'), Hl. case_decide; [|done]. subst id'.
    destruct (lookup_user r id) as [u|]; cbn; [|naive_solver].
    split; intros (u' & [= <-] & <-); eauto. }
  destruct Hi as [H1 H2 H3 H4 H5 H6]. constructor; cbn; auto.
  - intros id' l' E'. destruct (H2 _ _ E') as (u & Hu & ? & ?).
    destruct (decide (l = l')) as [->|].
    + exists (f u). rewrite lookup_alter_eq, Hu. cbn. by rewrite Hid.
    + exists u. by rewrite lookup_alter_ne.
  - intros l' u. destruct (decide (l = l')) as [->|]; [|rewrite lookup_alter_ne by done; apply H3].
    rewrite lookup_alter_eq. destruct (ur_heap r !! l') eqn:Eh; cbn; [|done]. intros _. by eapply H3.
Qed.

(** Moving one user to a free key keeps an index exact. *)
Lemma index_move idx attr (view view' : Z -> option UserEntity) id u k :
  index_exact idx attr view -> view id = Some u -> u_id u = id ->
  (idx !! k = None \/ idx !! k = Some id) ->
  (exists u', view' id = Some u' /\ attr u' = k) ->
  (forall id', id' <> id -> view' id' = view id') ->
  index_exact (<[k := id]> (delete (attr u) idx)) attr view'.
Proof.
  intros Hx Hu Hid Hfree (u' & Hu' & Hk) Hrest k' id'.
  assert (forall id2 u2, view id2 = Some u2 -> attr u2 = k -> id2 = id) as Huniq.
  { intros id2 u2 H1 H2. assert (idx !! k = Some id2) as E by (apply Hx; eauto).
    destruct Hfree as [E'|E']; rewrite E in E'; by simplify_eq. }
  assert (forall id2 u2, view id2 = Some u2 -> attr u2 = attr u -> id2 = id) as Huniq'.
  { intros id2 u2 H1 H2. assert (idx !! attr u = Some id2) as E by (apply Hx; eauto).
    assert (idx !! attr u = Some id) as E' by (apply Hx; eauto). by simplify_eq. }
  rewrite lookup_insert. case_decide as D.
  - subst k'. split; [intros [= <-]; eauto|]. intros (u2 & H2 & H3). f_equal. destruct (decide (id' = id)); [done|].
    rewrite Hrest in H2 by done. symmetry. eauto.
  - rewrite lookup_delete. case_decide as D'.
    + subst k'. split; [done|]. intros (u2 & H2 & H3). destruct (decide (id' = id)) as [->|]; [congruence|].
      rewrite Hrest in H2 by done. apply Huniq' in H2; done.
    + rewrite (Hx k' id'). destruct (decide (id' = id)) as [->|]; [|by rewrite Hrest].
      split; intros (u2 & H2 & H3); exfalso; [|congruence].
      rewrite Hu in H2. injection H2 as <-. done.
Qed.

(** The new key of an update is free, or belongs to the user already. *)
Definition key_free (idx : gmap (option string) Z) (k : option string) (id : Z) : Prop :=
  idx !! k = None \/ idx !! k = Some id.

Lemma reindex_email_spec r id l u k : ur_inv r -> dict_get (ur_store r) id = Some l ->
  ur_heap r !! l = Some u -> key_free (ur_email_index r) k id ->
  ur_inv (reindex_email k l r) /\
  ur_store (reindex_email k l r) = ur_store r /\
  ur_username_index (reindex_email k l r) = ur_username_index r /\
  (forall id', lookup_user (reindex_email k l r) id' =
     if decide (id = id') then Some (set_email k u) else lookup_user r id').
Proof.
  intros Hi E Hu Hfree. unfold reindex_email. rewrite Hu.
  assert (lookup_user r id = Some u) as Hlu by (unfold lookup_user; by rewrite E).
  destruct (lookup_user_id _ _ _ Hi Hlu) as [Hid _].
  case_decide as D.
  { split; [done|]. split; [done|]. split; [done|]. intros id'. case_decide; [|done]. subst. rewrite Hlu.
    by destruct u. }
  set (r1 := ur_set_indexes _ _ r).
  assert (forall id', lookup_user (ur_assign (set_email k) l r1) id'
            = if decide (id = id') then Some (set_email k u) else lookup_user r id') as Hl.
  { intros id'. change (lookup_user (ur_assign (set_email k) l r1) id')
      with (lookup_user (ur_assign (set_email k) l r) id').
    rewrite (lookup_assign r id) by done. by rewrite Hlu. }
  split; [|done]. pose proof (inv_refs _ Hi) as Hrefs. pose proof (inv_heap _ Hi) as Hheap.
  constructor; cbn; [apply (inv_keys _ Hi)| | | | |apply (inv_next _ Hi)].
  - intros id' l' E'. destruct (Hrefs _ _ E') as (u' & Hu' & ? & ?). destruct (decide (l = l')) as [->|].
    + exists (set_email k u'). by rewrite lookup_alter_eq, Hu'.
    + exists u'. by rewrite lookup_alter_ne.
  - intros l' u'. destruct (decide (l = l')) as [->|]; [|rewrite lookup_alter_ne by done; apply Hheap].
    intros _. by eapply Hheap.
  - rewrite Hid. apply (index_move _ _ (lookup_user r)) ; try done; [apply (inv_email _ Hi)| |].
    + exists (set_email k u). by rewrite Hl, decide_True.
    + intros id' ?. by rewrite Hl, decide_False.
  - intros k' id'. rewrite (inv_username _ Hi k' id'), Hl. case_decide; [|done]. subst id'. rewrite Hlu.
    split; intros (u' & [= <-] & <-); eauto.
Qed.

Lemma reindex_username_spec r id l u k : ur_inv r -> dict_get (ur_store r) id = Some l ->
  ur_heap r !! l = Some u -> key_free (ur_username_index r) k id ->
  ur_inv (reindex_username k l r) /\
  ur_store (reindex_username k l r) = ur_store r /\
  (forall id', lookup_user (reindex_username k l r) id' =
     if decide (id = id') then Some (set_username k u) else lookup_user r id').
Proof.
  intros Hi E Hu Hfree. unfold reindex_username. rewrite Hu.
  assert (lookup_user r id = Some u) as Hlu by (unfold lookup_user; by rewrite E).
  destruct (lookup_user_id _ _ _ Hi Hlu) as [Hid _].
  case_decide as D.
  { split; [done|]. split; [done|]. intros id'. case_decide; [|done]. subst. rewrite Hlu. by destruct u. }
  set (r1 := ur_set_indexes _ _ r).
  assert (forall id', lookup_user (ur_assign (set_username k) l r1) id'
            = if decide (id = id') then Some (set_username k u) else lookup_user r id') as Hl.
  { intros id'. change (lookup_user (ur_assign (set_username k) l r1) id')
      with (lookup_user (ur_assign (set_username k) l r) id').
    rewrite (lookup_assign r id) by done. by rewrite Hlu. }
  split; [|done]. pose proof (inv_refs _ Hi) as Hrefs. pose proof (inv_heap _ Hi) as Hheap.
  constructor; cbn; [apply (inv_keys _ Hi)| | | | |apply (inv_next _ Hi)].
  - intros id' l' E'. destruct (Hrefs _ _ E') as (u' & Hu' & ? & ?). destruct (decide (l = l')) as [->|].
    + exists (set_username k u'). by rewrite lookup_alter_eq, Hu'.
    + exists u'. by rewrite lookup_alter_ne.
  - intros l' u'. destruct (decide (l = l')) as [->|]; [|rewrite lookup_alter_ne by done; apply Hheap].
    intros _. by eapply Hheap.
  - intros k' id'. rewrite (inv_email _ Hi k' id'), Hl. case_decide; [|done]. subst id'. rewrite Hlu.
    split; intros (u' & [= <-] & <-); eauto.
  - rewrite Hid. apply (index_move _ _ (lookup_user r)) ; try done; [apply (inv_username _ Hi)| |].
    + exists (set_username k u). by rewrite Hl, decide_True.
    + intros id' ?. by rewrite Hl, decide_False.
Qed.

(** ** Operations under the caller's uniqueness checks *)

(** [existing is not None and existing.id != user_id] *)
Definition conflict (existing : option ref) (user_id : Z) (r : user_repo) : bool :=
  match existing with
  | None => false
  | Some l => match ur_heap r !! l with Some u => negb (u_id u =? user_id) | None => false end
  end.

Lemma index_get r idx attr k id : ur_inv r -> index_exact idx attr (lookup_user r) -> idx !! k = Some id ->
  exists l u, dict_get (ur_store r) id = Some l /\ ur_heap r !! l = Some u /\ attr u = k /\ u_id u = id.
Proof.
  intros Hi Hx Hk. apply Hx in Hk as (u & Hu & <-). destruct (lookup_user_ref _ _ _ Hu) as (l & Hl & Hh).
  exists l, u. by destruct (lookup_user_id _ _ _ Hi Hu).
Qed.

Lemma email_no_conflict r k id : ur_inv r -> conflict (ur_get_by_email k r) id r = false ->
  key_free (ur_email_index r) k id.
Proof.
  intros Hi. unfold conflict, ur_get_by_email, key_free. destruct (ur_email_index r !! k) as [id'|] eqn:E; [|auto].
  destruct (index_get _ _ _ _ _ Hi (inv_email _ Hi) E) as (l & u & -> & -> & _ & ->).
  intros H%negb_false_iff%Z.eqb_eq. subst. auto.
Qed.

Lemma username_no_conflict r k id : ur_inv r -> conflict (ur_get_by_username k r) id r = false ->
  key_free (ur_username_index r) k id.
Proof.
  intros Hi. unfold conflict, ur_get_by_username, key_free.
  destruct (ur_username_index r !! k) as [id'|] eqn:E; [|auto].
  destruct (index_get _ _ _ _ _ Hi (inv_username _ Hi) E) as (l & u & -> & -> & _ & ->).
  intros H%negb_false_iff%Z.eqb_eq. subst. auto.
Qed.

(** The entity after [update]. *)
Definition updated_entity (email username : option string) (age : option Z) (role : option string)
  (full_name phone_number bio company_name password_hash : option string) (u : UserEntity) : UserEntity :=
  mkUser (u_id u) (match email with Some e => Some e | None => u_email u end)
    (match username with Some n => Some n | None => u_username u end)
    (default (u_password_hash u) password_hash) (u_is_active u) (u_created_at u) (u_version u)
    (match age with Some a => Some a | None => u_age u end) (default (u_role u) role)
    (match full_name with Some a => Some a | None => u_full_name u end)
    (match phone_number with Some a => Some a | None => u_phone_number u end)
    (match bio with Some a => Some a | None => u_bio u end)
    (match company_name with Some a => Some a | None => u_company_name u end)
    (u_permissions u) (u_nid_number u).

(** The entity after [update_with_optimistic_lock]. *)
Definition patched_entity (data : UserPatch) (u : UserEntity) : UserEntity :=
  mkUser (u_id u) (default (u_email u) (p_email data)) (default (u_username u) (p_username data))
    (u_password_hash u) (u_is_active u) (u_created_at u) (u_version u + 1) (default (u_age u) (p_age data))
    (match p_role data with Some (Some s) => s | Some None => "None" | None => u_role u end)
    (default (u_full_name u) (p_full_name data)) (default (u_phone_number u) (p_phone_number data))
    (default (u_bio u) (p_bio data)) (default (u_company_name u) (p_company_name data))
    (u_permissions u) (u_nid_number u).

(** The block of the two index updates, as both operations run it. *)
Definition reindex (email username : option (option string)) (l : ref) (r : user_repo) : user_repo :=
  let r1 := match email with Some e => reindex_email e l r | None => r end in
  match username with Some n => reindex_username n l r1 | None => r1 end.

Lemma lookup_user_at r id l u : dict_get (ur_store r) id = Some l -> lookup_user r id = Some u ->
  ur_heap r !! l = Some u.
Proof. unfold lookup_user. by intros ->. Qed.

Lemma reindex_spec r id l u email username : ur_inv r -> dict_get (ur_store r) id = Some l ->
  ur_heap r !! l = Some u ->
  (forall e, email = Some e -> key_free (ur_email_index r) e id) ->
  (forall n, username = Some n -> key_free (ur_username_index r) n id) ->
  let r' := reindex email username l r in
  ur_inv r' /\ dict_get (ur_store r') id = Some l /\
  (forall id', lookup_user r' id' =
     if decide (id = id') then Some (set_username (default (u_username u) username) (set_email (default (u_email u) email) u))
     else lookup_user r id').
Proof.
  intros Hi E Hu He Hn. unfold reindex.
  assert (exists r1, match email with Some e => reindex_email e l r | None => r end = r1 /\ ur_inv r1 /\
    ur_store r1 = ur_store r /\ ur_username_index r1 = ur_username_index r /\
    (forall id', lookup_user r1 id' = if decide (id = id') then Some (set_email (default (u_email u) email) u)
                                      else lookup_user r id')) as (r1 & -> & Hi1 & Hs1 & Hx1 & Hl1).
  { eexists; split; [done|]. destruct email as [e|]; [apply (reindex_email_spec r id l u); auto|].
    split; [done|]. split; [done|]. split; [done|]. intros id'. case_decide; [|done]. subst.
    unfold lookup_user. rewrite E, Hu. by destruct u. }
  assert (dict_get (ur_store r1) id = Some l) as E1 by by rewrite Hs1.
  assert (ur_heap r1 !! l = Some (set_email (default (u_email u) email) u)) as Hu1.
  { apply (lookup_user_at r1 id); [done|]. by rewrite Hl1, decide_True. }
  destruct username as [n|]; cbn.
  - destruct (reindex_username_spec r1 id l _ n Hi1 E1 Hu1) as (H1 & H2 & H3); [rewrite Hx1; auto|].
    split; [done|]. split; [by rewrite H2|]. intros id'. rewrite H3. case_decide; [done|]. by rewrite Hl1, decide_False.
  - split; [done|]. split; [done|]. intros id'. rewrite Hl1. case_decide; [|done]. by destruct u.
Qed.

(** Reindexing followed by assignments that leave the indexed attributes alone. *)
Lemma reindex_assign_spec r id u email username f : ur_inv r -> lookup_user r id = Some u ->
  (forall e, email = Some e -> key_free (ur_email_index r) e id) ->
  (forall n, username = Some n -> key_free (ur_username_index r) n id) ->
  (forall u, u_id (f u) = u_id u) -> (forall u, u_email (f u) = u_email u) ->
  (forall u, u_username (f u) = u_username u) ->
  exists l, dict_get (ur_store r) id = Some l /\ ur_heap r !! l = Some u /\
  let r' := ur_assign f l (reindex email username l r) in
  ur_inv r' /\ ur_current_id r' = ur_current_id r /\ dict_get (ur_store r') id = Some l /\
  (forall id', lookup_user r' id' =
     if decide (id = id')
     then Some (f (set_username (default (u_username u) username) (set_email (default (u_email u) email) u)))
     else lookup_user r id').
Proof.
  intros Hi Hlu He Hn Hf1 Hf2 Hf3. destruct (lookup_user_ref _ _ _ Hlu) as (l & E & Hu). exists l.
  split; [done|]. split; [done|]. destruct (reindex_spec r id l u email username Hi E Hu He Hn) as (H1 & H2 & H3).
  split; [by eapply inv_assign|]. split.
  - cbn. unfold reindex, reindex_email, reindex_username.
    destruct email, username; repeat (case_match; cbn); done.
  - split; [done|]. intros id'. rewrite (lookup_assign _ id) by done. case_decide.
    + by rewrite H3, decide_True.
    + by rewrite H3, decide_False.
Qed.

Lemma update_fields_spec r id u em un age role fn ph bio cn pw : ur_inv r -> lookup_user r id = Some u ->
  (forall e, em = Some e -> conflict (ur_get_by_email (Some e) r) id r = false) ->
  (forall n, un = Some n -> conflict (ur_get_by_username (Some n) r) id r = false) ->
  let '(res, r') := ur_update_fields id em un age role fn ph bio cn pw r in
  ur_inv r' /\ ur_current_id r' = ur_current_id r /\
  (exists l, res = Some l /\ dict_get (ur_store r) id = Some l /\ dict_get (ur_store r') id = Some l) /\
  (forall id', lookup_user r' id' =
     if decide (id = id') then Some (updated_entity em un age role fn ph bio cn pw u) else lookup_user r id').
Proof.
  intros Hi Hlu He Hn. unfold ur_update_fields. set (f := fun u : UserEntity => _).
  destruct (reindex_assign_spec r id u (Some <$> em) (Some <$> un) f Hi Hlu) as (l & E & Hu & Hinv & Hcur & Hget & Hview).
  - intros e Hem. destruct em; simplify_eq/=. apply email_no_conflict; auto.
  - intros n Hun. destruct un; simplify_eq/=. apply username_no_conflict; auto.
  - intros []. by destruct pw, cn, bio, ph, fn, role, age.
  - intros []. by destruct pw, cn, bio, ph, fn, role, age.
  - intros []. by destruct pw, cn, bio, ph, fn, role, age.
  - rewrite E. cbn in Hinv, Hcur, Hget, Hview. unfold reindex in *.
    replace (match un with Some n => _ | None => _ end)
      with (match Some <$> un with
            | Some n => reindex_username n l (match Some <$> em with Some e => reindex_email e l r | None => r end)
            | None => (match Some <$> em with Some e => reindex_email e l r | None => r end) end)
      by (by destruct un, em).
    split; [done|]. split; [done|]. split; [eauto|]. intros id'. rewrite Hview. case_decide; [|done]. f_equal.
    destruct u. by destruct pw, cn, bio, ph, fn, role, age, un, em.
Qed.

(** An update drops no object. *)
Lemma assign_heap r f l l0 : is_Some (ur_heap r !! l0) -> is_Some (ur_heap (ur_assign f l r) !! l0).
Proof.
  cbn. destruct (decide (l = l0)) as [->|]; [|by rewrite lookup_alter_ne]. rewrite lookup_alter_eq. by intros [u ->].
Qed.

Lemma reindex_heap r em un l l0 : is_Some (ur_heap r !! l0) -> is_Some (ur_heap (reindex em un l r) !! l0).
Proof.
  intros H. unfold reindex. assert (is_Some (ur_heap (match em with Some e => reindex_email e l r | None => r end) !! l0)) as H1.
  { destruct em as [e|]; [|done]. unfold reindex_email. destruct (ur_heap r !! l); [|done]. case_decide; [done|]. by apply assign_heap. }
  destruct un as [n|]; [|done]. unfold reindex_username. destruct (ur_heap _ !! l); [|done]. case_decide; [done|]. by apply assign_heap.
Qed.

Lemma update_fields_heap r id em un age role fn ph bio cn pw l0 : is_Some (ur_heap r !! l0) ->
  is_Some (ur_heap (ur_update_fields id em un age role fn ph bio cn pw r).2 !! l0).
Proof.
  intros H. unfold ur_update_fields. destruct (dict_get (ur_store r) id) as [l|]; [|done]. cbn [snd]. apply assign_heap.
  pose proof (reindex_heap r (Some <$> em) (Some <$> un) l l0 H) as H1. unfold reindex in H1. by destruct em, un.
Qed.

Lemma optimistic_heap r id v data l0 : is_Some (ur_heap r !! l0) ->
  is_Some (ur_heap (ur_update_with_optimistic_lock id v data r).2 !! l0).
Proof.
  intros H. unfold ur_update_with_optimistic_lock. destruct (dict_get (ur_store r) id) as [l|]; [|done].
  destruct (ur_heap r !! l); [|done]. destruct (negb _); [done|]. cbn [snd]. apply assign_heap, assign_heap.
  by apply (reindex_heap r (p_email data) (p_username data)).
Qed.

Lemma optimistic_spec r id u data : ur_inv r -> lookup_user r id = Some u ->
  (forall e, p_email data = Some e -> key_free (ur_email_index r) e id) ->
  (forall n, p_username data = Some n -> key_free (ur_username_index r) n id) ->
  let '(res, r') := ur_update_with_optimistic_lock id (u_version u) data r in
  ur_inv r' /\ ur_current_id r' = ur_current_id r /\
  (exists l, res = Ok l /\ dict_get (ur_store r) id = Some l) /\
  (forall id', lookup_user r' id' = if decide (id = id') then Some (patched_entity data u) else lookup_user r id').
Proof.
  intros Hi Hlu He Hn. unfold ur_update_with_optimistic_lock.
  destruct (reindex_assign_spec r id u (p_email data) (p_username data) (apply_patch data) Hi Hlu He Hn)
    as (l & E & Hu & Hinv & Hcur & Hget & Hview); try (intros []; by destruct data as [?? [] [] [] [] [] []]).
  rewrite E, Hu, Z.eqb_refl. cbn [negb]. cbn zeta in Hinv, Hcur, Hget, Hview. unfold reindex in *.
  split; [by eapply inv_assign|]. split; [done|]. split; [eauto|].
  intros id'. rewrite (lookup_assign _ id) by done. case_decide; [|by rewrite Hview, decide_False].
  rewrite Hview, decide_True by done. cbn. f_equal. destruct u, data as [[] [] [] [[]|] [] [] [] []]; done.
Qed.

Lemma index_free r idx attr k : ur_inv r -> index_exact idx attr (lookup_user r) ->
  match idx !! k with None => None | Some id => dict_get (ur_store r) id end = None -> idx !! k = None.
Proof.
  intros Hi Hx. destruct (idx !! k) as [id|] eqn:E; [|done].
  destruct (index_get _ _ _ _ _ Hi Hx E) as (l & u & -> & _). done.
Qed.

Lemma heap_next r : ur_inv r -> ur_heap r !! ur_next r = None.
Proof. intros Hi. destruct (ur_heap r !! ur_next r) eqn:E; [|done]. apply (inv_heap _ Hi) in E. lia. Qed.

(** Adding a user under a free key keeps an index exact. *)
Lemma index_add idx attr (view view' : Z -> option UserEntity) id u k :
  index_exact idx attr view -> view id = None -> idx !! k = None -> attr u = k ->
  (forall id', view' id' = if decide (id = id') then Some u else view id') ->
  index_exact (<[k := id]> idx) attr view'.
Proof.
  intros Hx Hnone Hk Hu Hv k' id'. rewrite lookup_insert, Hv. case_decide as D; case_decide as D'; subst.
  - split; [|done]. eauto.
  - split; [congruence|]. intros (u' & H1 & H2). assert (idx !! attr u = Some id') by (apply Hx; eauto). congruence.
  - split; [|naive_solver]. rewrite (Hx k' id'). intros (u' & H1 & H2). congruence.
  - apply Hx.
Qed.

(** Removing a user and its key keeps an index exact. *)
Lemma index_remove idx attr (view view' : Z -> option UserEntity) id u :
  index_exact idx attr view -> view id = Some u ->
  (forall id', view' id' = if decide (id = id') then None else view id') ->
  index_exact (delete (attr u) idx) attr view'.
Proof.
  intros Hx Hu Hv k' id'. rewrite lookup_delete, Hv.
  assert (idx !! attr u = Some id) as E by (apply Hx; eauto).
  case_decide as D; case_decide as D'; subst.
  - split; [done|]. naive_solver.
  - split; [done|]. intros (u' & H1 & H2). assert (idx !! attr u = Some id') by (apply Hx; eauto). congruence.
  - split; [|naive_solver]. rewrite (Hx k' id'). intros (u' & H1 & H2). congruence.
  - apply Hx.
Qed.

Definition created_entity (id now : Z) (email username password_hash : string) (age : option Z) (role : string)
  (full_name phone_number bio company_name : option string) (permissions : option Z) (nid : option string) : UserEntity :=
  mkUser id (Some email) (Some username) password_hash true now 1 age role full_name phone_number bio company_name
    (match permissions with Some p => p | None => default_permissions role end) nid.

Lemma create_spec r now em un pw age role fn ph bio cn perms nid : ur_inv r ->
  ur_get_by_email (Some em) r = None -> ur_get_by_username (Some un) r = None ->
  let '(l, r') := ur_create now em un pw age role fn ph bio cn perms nid r in
  let id := ur_current_id r + 1 in
  ur_inv r' /\ ur_current_id r' = id /\ dict_get (ur_store r') id = Some l /\ lookup_user r id = None /\
  (forall id', lookup_user r' id' =
     if decide (id = id') then Some (created_entity id now em un pw age role fn ph bio cn perms nid)
     else lookup_user r id').
Proof.
  intros Hi He Hn. unfold ur_create, ur_alloc, ur_set_indexes, ur_set_store, ur_set_id. set (id := ur_current_id r + 1). cbn. set (u := mkUser id _ _ _ _ _ _ _ _ _ _ _ _ _ _).
  apply (index_free _ _ _ _ Hi (inv_email _ Hi)) in He. apply (index_free _ _ _ _ Hi (inv_username _ Hi)) in Hn.
  assert (dict_get (ur_store r) id = None) as Hfresh.
  { destruct (dict_get (ur_store r) id) as [l|] eqn:E; [|done].
    destruct (inv_refs _ Hi _ _ E) as (? & _ & _ & ?). subst id. lia. }
  assert (lookup_user r id = None) as Hnone by (unfold lookup_user; by rewrite Hfresh).
  set (r' := mkUserRepo _ _ _ _ _ _ _).
  assert (forall id', lookup_user r' id' = if decide (id = id') then Some u else lookup_user r id') as Hview.
  { intros id'. unfold lookup_user. cbn. rewrite dict_get_set. case_decide; [by rewrite lookup_insert_eq|].
    destruct (dict_get (ur_store r) id') as [l|] eqn:E; [|done].
    destruct (inv_refs _ Hi _ _ E) as (u' & Hu' & _). rewrite lookup_insert_ne; [done|].
    intros <-. by rewrite heap_next in Hu'. }
  split; [|split; [done|]; split; [apply dict_get_set_eq|]; split; [done|]; intros id'; rewrite Hview;
    case_decide; [|done]; subst u; by destruct perms].
  constructor; cbn.
  - apply dict_set_NoDup, (inv_keys _ Hi).
  - intros id' l'. rewrite dict_get_set. case_decide as D.
    + intros [= <-]. exists u. rewrite lookup_insert_eq. subst id'. pose proof (inv_next _ Hi).
      split; [done|]. split; [done|]. subst id. lia.
    + intros E. destruct (inv_refs _ Hi _ _ E) as (u' & Hu' & ? & ?). exists u'.
      rewrite lookup_insert_ne; [split; [done|]; split; [done|subst id; lia]|]. intros <-. by rewrite heap_next in Hu'.
  - intros l' u'. rewrite lookup_insert. case_decide as D; [subst; lia|]. intros Hu'%(inv_heap _ Hi). lia.
  - by apply (index_add _ _ (lookup_user r) _ _ u); [apply (inv_email _ Hi)|..].
  - by apply (index_add _ _ (lookup_user r) _ _ u); [apply (inv_username _ Hi)|..].
  - pose proof (inv_next _ Hi). subst id. lia.
Qed.

Lemma delete_spec r id u : ur_inv r -> lookup_user r id = Some u ->
  let '(res, r') := ur_delete id r in
  res = true /\ ur_inv r' /\ ur_current_id r' = ur_current_id r /\
  (forall id', lookup_user r' id' = if decide (id = id') then None else lookup_user r id').
Proof.
  intros Hi Hlu. unfold ur_delete, ur_set_indexes, ur_set_store. destruct (lookup_user_ref _ _ _ Hlu) as (l & -> & Hu). rewrite Hu. cbn.
  set (r' := mkUserRepo _ _ _ _ _ _ _).
  assert (forall id', lookup_user r' id' = if decide (id = id') then None else lookup_user r id') as Hview.
  { intros id'. unfold lookup_user. cbn. rewrite dict_get_del by apply (inv_keys _ Hi). by case_decide. }
  split; [done|]. split; [|done]. constructor; cbn.
  - apply dict_del_NoDup, (inv_keys _ Hi).
  - intros id' l'. rewrite dict_get_del by apply (inv_keys _ Hi). case_decide; [done|]. apply (inv_refs _ Hi).
  - apply (inv_heap _ Hi).
  - by apply (index_remove _ _ (lookup_user r) _ id); [apply (inv_email _ Hi)|..].
  - by apply (index_remove _ _ (lookup_user r) _ id); [apply (inv_username _ Hi)|..].
  - apply (inv_next _ Hi).
Qed.

Definition with_permissions (permissions : Z) (u : UserEntity) : UserEntity :=
  mkUser (u_id u) (u_email u) (u_username u) (u_password_hash u) (u_is_active u) (u_created_at u) (u_version u + 1)
    (u_age u) (u_role u) (u_full_name u) (u_phone_number u) (u_bio u) (u_company_name u) permissions None.

Lemma permissions_spec r id u p : ur_inv r -> lookup_user r id = Some u ->
  let '(res, r') := ur_update_permissions id p r in
  ur_inv r' /\ ur_current_id r' = ur_current_id r /\
  (exists l, res = Some l /\ dict_get (ur_store r') id = Some l /\ ur_heap r' !! l = Some (with_permissions p u)) /\
  (forall id', lookup_user r' id' = if decide (id = id') then Some (with_permissions p u) else lookup_user r id').
Proof.
  intros Hi Hlu. unfold ur_update_permissions, ur_alloc, ur_set_store. destruct (lookup_user_ref _ _ _ Hlu) as (l & E & Hu). rewrite E, Hu. cbn.
  fold (with_permissions p u). set (r' := mkUserRepo _ _ _ _ _ _ _).
  destruct (lookup_user_id _ _ _ Hi Hlu) as [Hid Hrange].
  assert (forall id', lookup_user r' id' = if decide (id = id') then Some (with_permissions p u) else lookup_user r id') as Hview.
  { intros id'. unfold lookup_user. cbn. rewrite dict_get_set. case_decide; [by rewrite lookup_insert_eq|].
    destruct (dict_get (ur_store r) id') as [l'|] eqn:E'; [|done].
    destruct (inv_refs _ Hi _ _ E') as (u' & Hu' & _). rewrite lookup_insert_ne; [done|].
    intros <-. by rewrite heap_next in Hu'. }
  assert (forall idx attr, (attr (with_permissions p u) = attr u) -> index_exact idx attr (lookup_user r) ->
    index_exact idx attr (lookup_user r')) as Hidx.
  { intros idx attr Ha Hx k id'. rewrite (Hx k id'), Hview. case_decide; [|done]. subst id'. rewrite Hlu.
    split; intros (u' & [= <-] & <-); eauto. }
  split; [|split; [done|]; split; [|done]].
  - constructor; cbn; [apply dict_set_NoDup, (inv_keys _ Hi)| | |apply Hidx, (inv_email _ Hi); done
      |apply Hidx, (inv_username _ Hi); done|apply (inv_next _ Hi)].
    + intros id' l'. rewrite dict_get_set. case_decide as D.
      * intros [= <-]. exists (with_permissions p u). rewrite lookup_insert_eq. by subst id'.
      * intros E'. destruct (inv_refs _ Hi _ _ E') as (u' & Hu' & ? & ?). exists u'.
        rewrite lookup_insert_ne; [done|]. intros <-. by rewrite heap_next in Hu'.
    + intros l' u'. rewrite lookup_insert. case_decide as D; [subst; lia|]. intros Hu'%(inv_heap _ Hi). lia.
  - exists (ur_next r). split; [done|]. split; [apply dict_get_set_eq|]. by rewrite lookup_insert_eq.
Qed.

Lemma nid_spec r id u nid : ur_inv r -> lookup_user r id = Some u ->
  let '(res, r') := ur_update_nid id nid r in
  ur_inv r' /\ ur_current_id r' = ur_current_id r /\
  (exists l, res = Some l /\ dict_get (ur_store r') id = Some l) /\
  (forall id', lookup_user r' id' =
     if decide (id = id') then Some (set_version (u_version u + 1) (set_nid_number nid u)) else lookup_user r id').
Proof.
  intros Hi Hlu. unfold ur_update_nid. destruct (lookup_user_ref _ _ _ Hlu) as (l & E & Hu). rewrite E.
  assert (ur_inv (ur_assign (set_nid_number nid) l r)) as H1 by by eapply inv_assign.
  split; [by eapply inv_assign|]. split; [done|]. split; [eauto|].
  intros id'. rewrite (lookup_assign _ id) by done. rewrite !(lookup_assign r id) by done.
  case_decide; [|done]. rewrite decide_True, Hlu by done. done.
Qed.

Lemma views_spec vs r : ur_inv r ->
  let '(n, r') := ur_increment_views_batch vs r in
  n = Z.of_nat (length vs) /\ ur_inv r' /\ ur_current_id r' = ur_current_id r /\
  (forall id, lookup_user r' id = lookup_user r id) /\
  (forall id, ur_get_views id r' = ur_get_views id r + Zsum ((filter (fun x => x.1 = id) vs).*2)).
Proof.
  revert r. induction vs as [|[i c] vs IH]; intros r Hi; cbn [ur_increment_views_batch].
  - split; [done|]. split; [done|]. split; [done|]. split; [done|]. intros id. cbn. lia.
  - set (r1 := ur_set_views _ r).
    assert (ur_inv r1) as Hi1 by (destruct Hi; by constructor).
    specialize (IH r1 Hi1). destruct (ur_increment_views_batch vs r1) as [n r2].
    destruct IH as (-> & H1 & H2 & H3 & H4). split; [cbn; lia|]. split; [done|]. split; [done|]. split; [done|].
    intros id. rewrite H4, filter_cons. unfold ur_get_views, r1. cbn [ur_views ur_set_views fst].
    rewrite lookup_insert. case_decide; [|done]. subst. rewrite fmap_cons. unfold Zsum, default, from_option. simpl. lia.
Qed.

(** One operation of the repository with the checks its callers make: a new or
    changed email or username is not held by another user, and a patch does not
    null them. *)
Inductive ur_step (r : user_repo) : user_repo -> Prop :=
  | step_create now em un pw age role fn ph bio cn perms nid :
      ur_get_by_email (Some em) r = None -> ur_get_by_username (Some un) r = None ->
      ur_step r (ur_create now em un pw age role fn ph bio cn perms nid r).2
  | step_update id em un age role fn ph bio cn pw :
      (forall e, em = Some e -> conflict (ur_get_by_email (Some e) r) id r = false) ->
      (forall n, un = Some n -> conflict (ur_get_by_username (Some n) r) id r = false) ->
      ur_step r (ur_update_fields id em un age role fn ph bio cn pw r).2
  | step_optimistic id v data :
      (forall e, p_email data = Some e -> is_Some e /\ conflict (ur_get_by_email e r) id r = false) ->
      (forall n, p_username data = Some n -> is_Some n /\ conflict (ur_get_by_username n r) id r = false) ->
      ur_step r (ur_update_with_optimistic_lock id v data r).2
  | step_nid id nid : ur_step r (ur_update_nid id nid r).2
  | step_permissions id p : ur_step r (ur_update_permissions id p r).2
  | step_delete id : ur_step r (ur_delete id r).2
  | step_views vs : ur_step r (ur_increment_views_batch vs r).2.

(** Versions only grow, and identifiers are not reused. *)
Definition evolves (r r' : user_repo) : Prop :=
  ur_current_id r <= ur_current_id r' /\
  forall id u', id <= ur_current_id r -> lookup_user r' id = Some u' ->
    exists u, lookup_user r id = Some u /\ u_version u <= u_version u'.

Lemma evolves_refl r : evolves r r.
Proof. split; [lia|]. intros id u' _ H. exists u'. by split; [|lia]. Qed.

Lemma evolves_trans r1 r2 r3 : evolves r1 r2 -> evolves r2 r3 -> evolves r1 r3.
Proof.
  intros [H1 H2] [H3 H4]. split; [lia|]. intros id u3 Hid Hu3.
  destruct (H4 id u3) as (u2 & Hu2 & ?); [lia|done|]. destruct (H2 id u2) as (u1 & Hu1 & ?); [done|done|].
  exists u1. split; [done|lia].
Qed.

(** A change of one entity that does not lower its version. *)
Lemma evolves_one r r' id o : ur_current_id r' = ur_current_id r ->
  (forall id', lookup_user r' id' = if decide (id = id') then o else lookup_user r id') ->
  (forall u', o = Some u' -> exists u, lookup_user r id = Some u /\ u_version u <= u_version u') -> evolves r r'.
Proof.
  intros Hc Hv Ho. split; [lia|]. intros id' u' _. rewrite Hv. case_decide; [subst; auto|].
  intros Hu. exists u'. by split; [|lia].
Qed.

Lemma dict_get_lookup r id : ur_inv r -> dict_get (ur_store r) id = None <-> lookup_user r id = None.
Proof.
  intros Hi. unfold lookup_user. destruct (dict_get (ur_store r) id) as [l|] eqn:E; [|done].
  destruct (inv_refs _ Hi _ _ E) as (u & -> & _). done.
Qed.

Lemma optimistic_stale r id u v data : lookup_user r id = Some u -> u_version u <> v ->
  ur_update_with_optimistic_lock id v data r = (Raise OptimisticLockException, r).
Proof.
  intros Hu Hv. unfold ur_update_with_optimistic_lock. destruct (lookup_user_ref _ _ _ Hu) as (l & -> & ->).
  by rewrite (proj2 (Z.eqb_neq _ _) Hv).
Qed.

Lemma optimistic_missing r id v data : ur_inv r -> lookup_user r id = None ->
  ur_update_with_optimistic_lock id v data r = (Raise OptimisticLockException, r).
Proof. intros Hi Hu%dict_get_lookup; [|done]. unfold ur_update_with_optimistic_lock. by rewrite Hu. Qed.

Lemma step_preserves r r' : ur_inv r -> ur_step r r' -> ur_inv r' /\ evolves r r'.
Proof.
  intros Hi Hs.
  assert (forall id, lookup_user r id = None -> dict_get (ur_store r) id = None) as Hmiss
    by (intros id; apply dict_get_lookup; done).
  destruct Hs as [now em un pw age role fn ph bio cn perms nid He Hn|id em un age role fn ph bio cn pw He Hn
    |id v data He Hn|id nid|id p|id|vs].
  - pose proof (create_spec r now em un pw age role fn ph bio cn perms nid Hi He Hn) as H.
    destruct (ur_create _ _ _ _ _ _ _ _ _ _ _ _ r) as [l r'] eqn:E; cbn. destruct H as (H1 & H2 & _ & _ & H3).
    split; [done|]. split; [lia|]. intros id u' Hid. rewrite H3, decide_False by lia. intros Hu. exists u'. by split; [|lia].
  - destruct (lookup_user r id) as [u|] eqn:Hu.
    2: { unfold ur_update_fields. rewrite Hmiss by done. cbn. auto using evolves_refl. }
    pose proof (update_fields_spec r id u em un age role fn ph bio cn pw Hi Hu He Hn) as H.
    destruct (ur_update_fields _ _ _ _ _ _ _ _ _ _ r) as [l r']; cbn. destruct H as (H1 & H2 & _ & H3).
    split; [done|]. eapply evolves_one; [done..|]. intros u' [= <-]. exists u. cbn. by split; [|lia].
  - destruct (lookup_user r id) as [u|] eqn:Hu.
    2: { rewrite optimistic_missing by done. cbn. auto using evolves_refl. }
    destruct (decide (u_version u = v)) as [<-|Hv].
    2: { rewrite (optimistic_stale _ _ u) by done. cbn. auto using evolves_refl. }
    pose proof (optimistic_spec r id u data Hi Hu) as H.
    destruct (ur_update_with_optimistic_lock _ _ _ r) as [l r']; cbn.
    destruct H as (H1 & H2 & _ & H3); [intros ? E; by apply email_no_conflict, He|intros ? E; by apply username_no_conflict, Hn|].
    split; [done|]. eapply evolves_one; [done..|]. intros u' [= <-]. exists u. cbn. by split; [|lia].
  - destruct (lookup_user r id) as [u|] eqn:Hu.
    2: { unfold ur_update_nid. rewrite Hmiss by done. cbn. auto using evolves_refl. }
    pose proof (nid_spec r id u nid Hi Hu) as H. destruct (ur_update_nid _ _ r) as [l r']; cbn.
    destruct H as (H1 & H2 & _ & H3). split; [done|]. eapply evolves_one; [done..|].
    intros u' [= <-]. exists u. cbn. by split; [|lia].
  - destruct (lookup_user r id) as [u|] eqn:Hu.
    2: { unfold ur_update_permissions. rewrite Hmiss by done. cbn. auto using evolves_refl. }
    pose proof (permissions_spec r id u p Hi Hu) as H. destruct (ur_update_permissions _ _ r) as [l r']; cbn.
    destruct H as (H1 & H2 & _ & H3). split; [done|]. eapply evolves_one; [done..|].
    intros u' [= <-]. exists u. cbn. by split; [|lia].
  - destruct (lookup_user r id) as [u|] eqn:Hu.
    2: { unfold ur_delete. rewrite Hmiss by done. cbn. auto using evolves_refl. }
    pose proof (delete_spec r id u Hi Hu) as H. destruct (ur_delete _ r) as [l r']; cbn.
    destruct H as (_ & H1 & H2 & H3). split; [done|]. eapply evolves_one; [done..|]. done.
  - pose proof (views_spec vs r Hi) as H. destruct (ur_increment_views_batch vs r) as [n r']; cbn.
    destruct H as (_ & H1 & H2 & H3 & _). split; [done|]. split; [lia|].
    intros id u' _. rewrite H3. intros Hu. exists u'. by split; [|lia].
Qed.

Lemma steps_preserve r r' : ur_inv r -> rtc ur_step r r' -> ur_inv r' /\ evolves r r'.
Proof.
  intros Hi Hs. induction Hs as [r|r1 r2 r3 H12 _ IH]; [split; [done|apply evolves_refl]|].
  destruct (step_preserves _ _ Hi H12) as [Hi2 Hev]. destruct (IH Hi2) as [Hi3 Hev3].
  split; [done|]. by eapply evolves_trans.
Qed.

Lemma email_index_finds r id l u : ur_inv r -> dict_get (ur_store r) id = Some l -> ur_heap r !! l = Some u ->
  ur_get_by_email (u_email u) r = Some l /\ ur_get_by_username (u_username u) r = Some l.
Proof.
  intros Hi E Hu. assert (lookup_user r id = Some u) as Hl by (unfold lookup_user; by rewrite E).
  unfold ur_get_by_email, ur_get_by_username.
  rewrite (proj2 (inv_email _ Hi _ id)), (proj2 (inv_username _ Hi _ id)) by eauto. done.
Qed.

(** C10: in every state reachable from the empty repository by operations whose
    callers check that a new email or username is not held by another user and send no
    explicit null for either, looking up an email or a username finds a user exactly
    when a stored user has it, and then that user; so no two stored users share an
    email or a username, and deleted or renamed users leave no dangling index key. *)
Theorem user_repo_invariant r : rtc ur_step ur_init r ->
  (forall k l, ur_get_by_email k r = Some l <->
     exists id u, dict_get (ur_store r) id = Some l /\ ur_heap r !! l = Some u /\ u_email u = k /\ u_id u = id) /\
  (forall k l, ur_get_by_username k r = Some l <->
     exists id u, dict_get (ur_store r) id = Some l /\ ur_heap r !! l = Some u /\ u_username u = k /\ u_id u = id) /\
  (forall k id, ur_email_index r !! k = Some id -> is_Some (lookup_user r id)) /\
  (forall k id, ur_username_index r !! k = Some id -> is_Some (lookup_user r id)).
Proof.
  intros Hs. destruct (steps_preserve _ _ inv_init Hs) as [Hi _]. clear Hs.
  split; [|split; [|split]].
  - intros k l. split.
    + unfold ur_get_by_email. destruct (ur_email_index r !! k) as [id|] eqn:E; [|done]. intros El.
      destruct (index_get _ _ _ _ _ Hi (inv_email _ Hi) E) as (l' & u & H1 & H2 & H3 & H4).
      exists id, u. by simplify_eq.
    + intros (id & u & H1 & H2 & <- & _). by eapply email_index_finds.
  - intros k l. split.
    + unfold ur_get_by_username. destruct (ur_username_index r !! k) as [id|] eqn:E; [|done]. intros El.
      destruct (index_get _ _ _ _ _ Hi (inv_username _ Hi) E) as (l' & u & H1 & H2 & H3 & H4).
      exists id, u. by simplify_eq.
    + intros (id & u & H1 & H2 & <- & _). by eapply email_index_finds.
  - intros k id (u & Hu & _)%(inv_email _ Hi). eauto.
  - intros k id (u & Hu & _)%(inv_username _ Hi). eauto.
Qed.

(** C11: once an update with an expected version has succeeded, every later update
    of that user with the same expected version fails and changes nothing, whatever
    operations ran in between: of all writers that read one version, one wins. *)
Theorem optimistic_lock_safe r id u data r1 r2 data2 : ur_inv r -> lookup_user r id = Some u ->
  (forall e, p_email data = Some e -> is_Some e /\ conflict (ur_get_by_email e r) id r = false) ->
  (forall n, p_username data = Some n -> is_Some n /\ conflict (ur_get_by_username n r) id r = false) ->
  (ur_update_with_optimistic_lock id (u_version u) data r).2 = r1 -> rtc ur_step r1 r2 ->
  lookup_user r1 id = Some (patched_entity data u) /\
  ur_update_with_optimistic_lock id (u_version u) data2 r2 = (Raise OptimisticLockException, r2).
Proof.
  intros Hi Hu He Hn Hr1 Hs. pose proof (optimistic_spec r id u data Hi Hu) as H.
  destruct (ur_update_with_optimistic_lock _ _ _ r) as [res r1'] eqn:Erun. cbn in Hr1. subst r1'.
  destruct H as (Hi1 & Hc1 & _ & Hv1); [intros ? E; by apply email_no_conflict, He|intros ? E; by apply username_no_conflict, Hn|].
  assert (lookup_user r1 id = Some (patched_entity data u)) as Hp by by rewrite Hv1, decide_True.
  split; [done|]. destruct (steps_preserve _ _ Hi1 Hs) as [Hi2 [_ Hev]].
  destruct (lookup_user r2 id) as [u2|] eqn:E2; [|by apply optimistic_missing].
  apply optimistic_stale with u2; [done|]. destruct (Hev id u2) as (u1 & Hu1 & Hle); [|done|].
  - destruct (lookup_user_id _ _ _ Hi1 Hp). lia.
  - rewrite Hp in Hu1. injection Hu1 as <-. cbn in Hle. lia.
Qed.

(** The plain update leaves the version alone, so a writer that read the entity
    before it still passes the version check and overwrites it. *)
Theorem plain_update_invisible_to_lock r id u em un age role fn ph bio cn pw data : ur_inv r ->
  lookup_user r id = Some u ->
  (forall e, em = Some e -> conflict (ur_get_by_email (Some e) r) id r = false) ->
  (forall n, un = Some n -> conflict (ur_get_by_username (Some n) r) id r = false) ->
  is_ok (ur_update_with_optimistic_lock id (u_version u) data
           (ur_update_fields id em un age role fn ph bio cn pw r).2).1 = true.
Proof.
  intros Hi Hu He Hn. pose proof (update_fields_spec r id u em un age role fn ph bio cn pw Hi Hu He Hn) as H.
  destruct (ur_update_fields _ _ _ _ _ _ _ _ _ _ r) as [res r']. destruct H as (Hi' & _ & _ & Hv). cbn.
  assert (lookup_user r' id = Some (updated_entity em un age role fn ph bio cn pw u)) as Hl by by rewrite Hv, decide_True.
  unfold ur_update_with_optimistic_lock. destruct (lookup_user_ref _ _ _ Hl) as (l & -> & ->). cbn.
  by rewrite Z.eqb_refl.
Qed.

(** Updating permissions erases the national identification number. *)
Theorem update_permissions_erases_nid r id u p : ur_inv r -> lookup_user r id = Some u ->
  lookup_user (ur_update_permissions id p r).2 id = Some (with_permissions p u) /\
  u_nid_number (with_permissions p u) = None.
Proof.
  intros Hi Hu. pose proof (permissions_spec r id u p Hi Hu) as H.
  destruct (ur_update_permissions id p r) as [res r']. cbn. destruct H as (_ & _ & _ & ->). by rewrite decide_True.
Qed.

(** ** An explicit null *)

Lemma filter_users_raises keep h ls l u : (forall v, keep v = Raise PyAttributeError \/ is_ok (keep v) = true) ->
  l ∈ ls -> h !! l = Some u -> keep u = Raise PyAttributeError -> filter_users keep h ls = Raise PyAttributeError.
Proof.
  intros Hk Hin Hu Hr. induction ls as [|l' ls IH]; [by apply not_elem_of_nil in Hin|]. cbn.
  apply elem_of_cons in Hin as [->|Hin]; [by rewrite Hu, Hr|].
  destruct (h !! l') as [v|]; [|by apply IH]. destruct (Hk v) as [->|Hok]; [done|].
  destruct (keep v) as [b|]; [|done]. cbn. by rewrite IH.
Qed.

(** A conditional update whose payload sets the username to an explicit null is
    accepted; from then on every listing of users with a search term raises
    [AttributeError], whatever the term and the page. *)
Theorem null_username_breaks_search r id u data limit offset term : ur_inv r -> lookup_user r id = Some u ->
  p_username data = Some None -> p_email data = None -> ur_username_index r !! None = None -> term <> "" ->
  let '(res, r') := ur_update_with_optimistic_lock id (u_version u) data r in
  is_ok res = true /\ ur_list_all limit offset None (Some term) None r' = Raise PyAttributeError.
Proof.
  intros Hi Hu Hn He Hfree Ht. pose proof (optimistic_spec r id u data Hi Hu) as H.
  destruct (ur_update_with_optimistic_lock _ _ _ r) as [res r'].
  destruct H as (Hi' & _ & (l & -> & Hl) & Hv); [by rewrite He|rewrite Hn; intros ? [= <-]; by left|].
  split; [done|]. unfold ur_list_all. rewrite bool_decide_false by done.
  assert (lookup_user r' id = Some (patched_entity data u)) as Hp by by rewrite Hv, decide_True.
  destruct (lookup_user_ref _ _ _ Hp) as (l' & Hl' & Hh'). cbn zeta.
  rewrite (filter_users_raises _ _ _ l' (patched_entity data u)); try done.
  - intros v. unfold list_filter, match_attr. cbn. destruct (u_username v); [|by left].
    destruct (u_email v); [by right|by left].
  - apply dict_get_elem in Hl'. apply list_elem_of_fmap. by exists (id, l').
  - unfold list_filter, patched_entity. cbn. by rewrite Hn.
Qed.

(** ** The unit of work and the user repository

    [InMemoryUnitOfWork.__aenter__] copies the three dictionaries and the counter;
    [rollback] puts the copies back.  The objects themselves are shared. *)

Record user_snapshot : Type := mkUserSnapshot {
  sn_store : list (Z * ref);
  sn_email : gmap (option string) Z;
  sn_username : gmap (option string) Z;
  sn_id : Z
}.

Definition ur_snapshot (r : user_repo) : user_snapshot :=
  mkUserSnapshot (ur_store r) (ur_email_index r) (ur_username_index r) (ur_current_id r).

Definition ur_restore (sn : user_snapshot) (r : user_repo) : user_repo :=
  mkUserRepo (ur_heap r) (ur_next r) (sn_store sn) (sn_email sn) (sn_username sn) (ur_views r) (sn_id sn).

(** A body that only creates and deletes users is undone. *)
Lemma restore_view r r' :
  (forall id l, dict_get (ur_store r) id = Some l -> ur_heap r' !! l = ur_heap r !! l) ->
  forall id, lookup_user (ur_restore (ur_snapshot r) r') id = lookup_user r id.
Proof.
  intros Hh id. unfold lookup_user. cbn. destruct (dict_get (ur_store r) id) as [l|] eqn:E; [|done]. by eapply Hh.
Qed.

(** Rolling a unit of work back undoes the creation of a user completely, but an
    update made in place survives it: the stored user keeps the new email while the
    restored index only knows the old one. *)
Theorem rollback_of_users r : ur_inv r ->
  (forall now em un pw age role fn ph bio cn perms nid,
     let r' := ur_restore (ur_snapshot r) (ur_create now em un pw age role fn ph bio cn perms nid r).2 in
     (forall id, lookup_user r' id = lookup_user r id) /\ ur_snapshot r' = ur_snapshot r) /\
  (forall id u e, lookup_user r id = Some u -> u_email u <> Some e -> ur_get_by_email (Some e) r = None ->
     let r' := ur_restore (ur_snapshot r)
                 (ur_update_fields id (Some e) None None None None None None None None r).2 in
     u_email <$> lookup_user r' id = Some (Some e) /\
     ur_get_by_email (Some e) r' = None /\
     ur_get_by_email (u_email u) r' = dict_get (ur_store r') id).
Proof.
  intros Hi. split.
  - intros. cbn zeta. split; [|done]. apply restore_view. intros id l E. cbn.
    destruct (inv_refs _ Hi _ _ E) as (u & Hu & _). rewrite lookup_insert_ne; [done|].
    intros <-. by rewrite heap_next in Hu.
  - intros id u e Hu Hne Hfree.
    pose proof (update_fields_spec r id u (Some e) None None None None None None None None Hi Hu) as H.
    destruct (ur_update_fields _ _ _ _ _ _ _ _ _ _ r) as [res r1].
    destruct H as (_ & _ & (l & _ & Hl & Hl1) & Hv); [intros ? [= <-]; by rewrite Hfree|done|]. cbn.
    specialize (Hv id). rewrite decide_True in Hv by done. unfold lookup_user in Hv |- *. cbn. rewrite Hl1 in Hv.
    rewrite Hl, Hv. split; [done|]. split; [exact Hfree|]. unfold ur_get_by_email. cbn.
    rewrite (proj2 (inv_email _ Hi _ id)) by eauto. done.
Qed.

(** ** A concrete repository *)

Definition demo_repo : user_repo :=
  (ur_create 7 "bob@x.io" "bob" "h2" (Some 30) "admin" (Some "Bob Stone") None None None None (Some "N-1")
    (ur_create 5 "ann@x.io" "ann" "h1" None "user" None None None None None None ur_init).2).2.

Lemma demo_reachable : rtc ur_step ur_init demo_repo.
Proof.
  eapply rtc_l; [|eapply rtc_l; [|apply rtc_refl]].
  - by apply (step_create _ 5 "ann@x.io" "ann" "h1" None "user" None None None None None None).
  - by apply (step_create _ 7 "bob@x.io" "bob" "h2" (Some 30) "admin" (Some "Bob Stone") None None None None (Some "N-1")).
Defined.

Lemma demo_inv : ur_inv demo_repo.
Proof. apply (steps_preserve ur_init); [apply inv_init|apply demo_reachable]. Qed.

Definition demo_bob : UserEntity :=
  created_entity 2 7 "bob@x.io" "bob" "h2" (Some 30) "admin" (Some "Bob Stone") None None None None (Some "N-1").

Lemma user_repo_invariant_witness : ur_get_by_email (Some "bob@x.io") demo_repo = Some 1%nat.
Proof.
  apply (proj1 (user_repo_invariant demo_repo demo_reachable) (Some "bob@x.io") 1%nat).
  exists 2, demo_bob. by vm_compute.
Defined.

Lemma optimistic_lock_safe_witness :
  let data := mkPatch None None (Some (Some 31)) None None None None None in
  let r1 := (ur_update_with_optimistic_lock 2 1 data demo_repo).2 in
  lookup_user r1 2 = Some (patched_entity data demo_bob) /\
  ur_update_with_optimistic_lock 2 1 empty_patch r1 = (Raise OptimisticLockException, r1).
Proof.
  apply (optimistic_lock_safe demo_repo 2 demo_bob); try done; apply demo_inv || apply rtc_refl.
Defined.

Lemma update_permissions_erases_nid_witness :
  u_nid_number demo_bob = Some "N-1" /\
  lookup_user (ur_update_permissions 2 7 demo_repo).2 2 = Some (with_permissions 7 demo_bob).
Proof. split; [done|]. apply (update_permissions_erases_nid demo_repo 2 demo_bob 7 demo_inv). done. Defined.

Lemma null_username_breaks_search_witness :
  let data := mkPatch None (Some None) None None None None None None in
  ur_list_all 10 0 None (Some "ann") None (ur_update_with_optimistic_lock 2 1 data demo_repo).2 = Raise PyAttributeError.
Proof.
  intros data. assert (term : "ann" <> "") by done.
  pose proof (null_username_breaks_search demo_repo 2 demo_bob data 10 0 "ann" demo_inv eq_refl eq_refl eq_refl eq_refl term) as H.
  change (u_version demo_bob) with 1 in H. destruct (ur_update_with_optimistic_lock 2 1 data demo_repo). apply H.
Defined.

Lemma rollback_of_users_witness :
  let r' := ur_restore (ur_snapshot demo_repo)
              (ur_update_fields 2 (Some "rob@x.io") None None None None None None None None demo_repo).2 in
  u_email <$> lookup_user r' 2 = Some (Some "rob@x.io") /\ ur_get_by_email (Some "rob@x.io") r' = None.
Proof.
  destruct (proj2 (rollback_of_users demo_repo demo_inv) 2 demo_bob "rob@x.io") as (H1 & H2 & _); [done..|].
  exact (conj H1 H2).
Defined.
