(* ===== verification/EventBus.v ===== *)
(** The in-memory event bus and its default handlers
    ([app/core/event_bus.py], [app/core/events.py], [app/events/handlers.py]).

    The bus is generic in the handlers: [run h e] is the body of handler [h] on a
    world of side effects.  [publish] takes the order in which [asyncio.gather]
    completes the handlers; handler bodies of the repository do not await, so each
    runs without interruption. *)

From S2P Require Import Prelude.

Local Open Scope Z_scope.
Local Open Scope py_scope.

(** ** Events *)

Inductive event_cls : Type := UserRegisteredEvent | OrderPlacedEvent | ProductStockDepletedEvent.
#[global] Instance event_cls_eq_dec : EqDecision event_cls.
Proof. solve_decision. Defined.

Inductive event_body : Type :=
  | UserRegistered (user_id : Z) (email username : string)
  | OrderPlaced (order_id : string) (user_id : Z) (total_amount : Z)
  | ProductStockDepleted (product_id remaining_stock : Z).

Record DomainEvent : Type := mkEvent {
  e_event_id : string;
  e_occurred_at : Z;
  e_event_type : string;
  e_body : event_body
}.

(** [type(event)] and [__class__.__name__] *)
Definition event_class (b : event_body) : event_cls :=
  match b with
  | UserRegistered _ _ _ => UserRegisteredEvent
  | OrderPlaced _ _ _ => OrderPlacedEvent
  | ProductStockDepleted _ _ => ProductStockDepletedEvent
  end.
Definition class_name (c : event_cls) : string :=
  match c with
  | UserRegisteredEvent => "UserRegisteredEvent"
  | OrderPlacedEvent => "OrderPlacedEvent"
  | ProductStockDepletedEvent => "ProductStockDepletedEvent"
  end.

(** Construction with [__post_init__]: an empty type becomes the class name. *)
Definition make_event (event_id : string) (occurred_at : Z) (event_type : string) (b : event_body) : DomainEvent :=
  mkEvent event_id occurred_at (if bool_decide (event_type = "") then class_name (event_class b) else event_type) b.

(** ** The dispatcher *)

Section Bus.
Context {H W : Type} `{EqDecision H}.
Variable run : H -> DomainEvent -> M W ().

Record EventDispatcher : Type := mkBus {
  eb_handlers : event_cls -> list H;
  eb_published_count : Z;
  eb_handled_count : Z;
  eb_error_count : Z
}.

Definition bus_init : EventDispatcher := mkBus (fun _ => []) 0 0 0.

Definition set_handlers (c : event_cls) (hs : list H) (b : EventDispatcher) : EventDispatcher :=
  mkBus (fun c' => if decide (c = c') then hs else eb_handlers b c') (eb_published_count b) (eb_handled_count b)
    (eb_error_count b).

(** [subscribe] *)
Definition subscribe (c : event_cls) (h : H) (b : EventDispatcher) : EventDispatcher :=
  if decide (h ∈ eb_handlers b c) then b else set_handlers c (eb_handlers b c ++ [h]) b.

(** [unsubscribe]: [list.remove] takes the first occurrence. *)
Fixpoint remove_first (h : H) (hs : list H) : list H :=
  match hs with
  | [] => []
  | x :: hs' => if decide (x = h) then hs' else x :: remove_first h hs'
  end.
Definition unsubscribe (c : event_cls) (h : H) (b : EventDispatcher) : EventDispatcher :=
  if decide (h ∈ eb_handlers b c) then set_handlers c (remove_first h (eb_handlers b c)) b else b.

Definition count_handled (b : EventDispatcher) : EventDispatcher :=
  mkBus (eb_handlers b) (eb_published_count b) (eb_handled_count b + 1) (eb_error_count b).
Definition count_error (b : EventDispatcher) : EventDispatcher :=
  mkBus (eb_handlers b) (eb_published_count b) (eb_handled_count b) (eb_error_count b + 1).
Definition count_published (b : EventDispatcher) : EventDispatcher :=
  mkBus (eb_handlers b) (eb_published_count b + 1) (eb_handled_count b) (eb_error_count b).

(** A handler body acts on the world part of the state. *)
Definition on_world (m : M W ()) : M (EventDispatcher * W) () := fun s =>
  let '(r, w) := m s.2 in (r, (s.1, w)).
Definition on_bus (f : EventDispatcher -> EventDispatcher) : M (EventDispatcher * W) () :=
  modify (fun s => (f s.1, s.2)).

(** [_safe_execute] *)
Definition safe_execute (h : H) (e : DomainEvent) : M (EventDispatcher * W) () :=
  try_except (on_world (run h e) ;;; on_bus count_handled) (fun _ => on_bus count_error).

(** [await asyncio.gather(...)] over the executions in completion order. *)
Fixpoint gather (hs : list H) (e : DomainEvent) : M (EventDispatcher * W) () :=
  match hs with
  | [] => ret ()
  | h :: hs' => safe_execute h e ;;; gather hs' e
  end.

(** [publish]; [schedule] orders the copy of the handler list. *)
Definition publish (schedule : list H -> list H) (e : DomainEvent) : M (EventDispatcher * W) () := fun s =>
  let handlers := eb_handlers s.1 (event_class (e_body e)) in
  (on_bus count_published ;;; if decide (handlers = []) then ret () else gather (schedule handlers) e) s.

(** [clear] *)
Definition bus_clear (b : EventDispatcher) : EventDispatcher := bus_init.

(** ** Failure isolation *)

(** How many handlers fail when run one after the other, and the world they leave. *)
Fixpoint run_all (hs : list H) (e : DomainEvent) (w : W) : Z * Z * W :=
  match hs with
  | [] => (0, 0, w)
  | h :: hs' =>
      let '(r, w1) := run h e w in
      let '(ok, err, w2) := run_all hs' e w1 in
      if is_ok r then (ok + 1, err, w2) else (ok, err + 1, w2)
  end.

Lemma run_all_total hs e w : let '(ok, err, _) := run_all hs e w in ok + err = Z.of_nat (length hs) /\ 0 <= ok /\ 0 <= err.
Proof.
  revert w. induction hs as [|h hs IH]; intros w; cbn [run_all]; [cbn; lia|].
  destruct (run h e w) as [r w1]. specialize (IH w1). destruct (run_all hs e w1) as [[ok err] w2].
  destruct (is_ok r); cbn [length]; lia.
Qed.

Lemma gather_run hs e b w :
  gather hs e (b, w) =
    let '(ok, err, w') := run_all hs e w in
    (Ok (), (mkBus (eb_handlers b) (eb_published_count b) (eb_handled_count b + ok) (eb_error_count b + err), w')).
Proof.
  revert b w. induction hs as [|h hs IH]; intros b w; cbn [gather run_all].
  - destruct b. unfold ret. cbn. by rewrite !Z.add_0_r.
  - unfold bind at 1, safe_execute, try_except. unfold bind at 1, on_world. cbn [fst snd].
    destruct (run h e w) as [[[]|ex] w1]; cbn [on_bus modify fst snd]; rewrite IH;
      destruct (run_all hs e w1) as [[ok err] w2]; cbn; do 3 f_equal; lia.
Qed.

Lemma publish_ok (schedule : list H -> list H) e b w : exists b' w',
  publish schedule e (b, w) = (Ok (), (b', w')) /\ eb_published_count b' = eb_published_count b + 1 /\
  eb_handlers b' = eb_handlers b.
Proof.
  unfold publish. cbn [fst]. unfold on_bus at 1. rewrite bind_modify_run. cbn [fst snd].
  case_decide; [by do 2 eexists|]. rewrite gather_run. destruct (run_all _ _ _) as [[ok err] w']. by do 2 eexists.
Qed.

(** Publishing never raises, whichever handlers raise and in whichever order they
    complete: every subscribed handler runs once and leaves its effects, the
    published counter grows by one, and the handled and error counters together grow
    by the number of handlers. *)
Theorem publish_isolates_failures (schedule : list H -> list H) e b w :
  schedule (eb_handlers b (event_class (e_body e))) ≡ₚ eb_handlers b (event_class (e_body e)) ->
  let hs := eb_handlers b (event_class (e_body e)) in
  let '(ok, err, w') := run_all (schedule hs) e w in
  publish schedule e (b, w) =
    (Ok (), (mkBus (eb_handlers b) (eb_published_count b + 1) (eb_handled_count b + ok) (eb_error_count b + err), w')) /\
  ok + err = Z.of_nat (length hs).
Proof.
  intros Hp hs. pose proof (run_all_total (schedule hs) e w) as Ht. unfold publish. cbn [fst].
  unfold on_bus at 1. rewrite bind_modify_run. cbn [fst snd]. fold hs. fold hs in Hp. rewrite (Permutation_length Hp) in Ht.
  case_decide as D.
  - rewrite D in Hp. apply Permutation_nil_r in Hp. rewrite D, Hp. cbn. unfold ret, count_published.
    by rewrite !Z.add_0_r.
  - rewrite gather_run. destruct (run_all (schedule hs) e w) as [[ok err] w']. split; [done|lia].
Qed.

(** ** Registration *)

Definition bus_wf (b : EventDispatcher) : Prop := forall c, NoDup (eb_handlers b c).

Lemma subscribe_wf c h b : bus_wf b -> bus_wf (subscribe c h b).
Proof.
  intros Hw c'. unfold subscribe. case_decide as D; [apply Hw|]. cbn. case_decide; [subst|apply Hw].
  apply NoDup_app. split; [apply Hw|]. split; [set_solver|apply NoDup_singleton].
Qed.

Lemma subscribe_elem c h b c' h' :
  h' ∈ eb_handlers (subscribe c h b) c' <-> (h' ∈ eb_handlers b c' \/ (c = c' /\ h' = h)).
Proof.
  unfold subscribe. case_decide as D; [naive_solver|]. cbn. case_decide; [subst|naive_solver].
  rewrite elem_of_app, list_elem_of_singleton. naive_solver.
Qed.

Lemma remove_first_elem h hs h' : NoDup hs -> h' ∈ remove_first h hs <-> h' ∈ hs /\ h' <> h.
Proof.
  induction hs as [|x hs IH]; cbn; [set_solver|]. intros [Hx Hnd]%NoDup_cons. case_decide; [set_solver|].
  rewrite !elem_of_cons, IH by done. naive_solver.
Qed.

Lemma remove_first_NoDup h hs : NoDup hs -> NoDup (remove_first h hs).
Proof.
  induction hs as [|x hs IH]; cbn; [done|]. intros [Hx Hnd]%NoDup_cons. case_decide; [done|].
  apply NoDup_cons. split; [|auto]. rewrite remove_first_elem by done. naive_solver.
Qed.

Lemma unsubscribe_wf c h b : bus_wf b -> bus_wf (unsubscribe c h b).
Proof.
  intros Hw c'. unfold unsubscribe. case_decide as D; [|apply Hw]. cbn. case_decide; [subst|apply Hw].
  by apply remove_first_NoDup.
Qed.

Lemma unsubscribe_elem c h b c' h' : bus_wf b ->
  h' ∈ eb_handlers (unsubscribe c h b) c' <-> (h' ∈ eb_handlers b c' /\ (c = c' -> h' <> h)).
Proof.
  intros Hw. unfold unsubscribe. case_decide as D.
  - cbn. case_decide; [subst|naive_solver]. rewrite remove_first_elem by apply Hw. naive_solver.
  - split; [|naive_solver]. intros Hin. split; [done|]. intros -> ->. done.
Qed.

End Bus.
Arguments EventDispatcher : clear implicits.

(** ** The default handlers *)

Inductive handler : Type :=
  | send_welcome_email_on_registration
  | record_audit_log_on_registration
  | track_analytics_on_order.
#[global] Instance handler_eq_dec : EqDecision handler.
Proof. solve_decision. Defined.

(** The three in-memory sinks, with the fields each record has. *)
Record welcome_email := mkWelcome { we_event_id : string; we_user_id : Z; we_email : string; we_username : string; we_timestamp : Z }.
Record audit_log := mkAudit { au_event_id : string; au_action : string; au_actor_id : Z; au_actor_username : string; au_timestamp : Z }.
Record order_analytics := mkAnalytics { an_event_id : string; an_order_id : string; an_user_id : Z; an_total_amount : Z; an_timestamp : Z }.

Record sinks : Type := mkSinks {
  recorded_welcome_emails : list welcome_email;
  recorded_audit_logs : list audit_log;
  recorded_order_analytics : list order_analytics
}.

(** The handler bodies; reading a field the event does not have is [AttributeError]. *)
Definition run_handler (h : handler) (e : DomainEvent) : M sinks () :=
  match h, e_body e with
  | send_welcome_email_on_registration, UserRegistered uid em un =>
      modify (fun s => mkSinks (recorded_welcome_emails s ++ [mkWelcome (e_event_id e) uid em un (e_occurred_at e)])
                         (recorded_audit_logs s) (recorded_order_analytics s))
  | record_audit_log_on_registration, UserRegistered uid em un =>
      modify (fun s => mkSinks (recorded_welcome_emails s)
                         (recorded_audit_logs s ++ [mkAudit (e_event_id e) "USER_REGISTERED" uid un (e_occurred_at e)])
                         (recorded_order_analytics s))
  | track_analytics_on_order, OrderPlaced oid uid amount =>
      modify (fun s => mkSinks (recorded_welcome_emails s) (recorded_audit_logs s)
                         (recorded_order_analytics s ++ [mkAnalytics (e_event_id e) oid uid amount (e_occurred_at e)]))
  | _, _ => raise PyAttributeError
  end.

(** [register_default_event_handlers] and [clear_recorded_events] *)
Definition register_default_event_handlers (b : EventDispatcher handler) : EventDispatcher handler :=
  subscribe OrderPlacedEvent track_analytics_on_order
    (subscribe UserRegisteredEvent record_audit_log_on_registration
      (subscribe UserRegisteredEvent send_welcome_email_on_registration b)).

Definition clear_recorded_events (s : sinks) : sinks := mkSinks [] [] [].

Fixpoint publish_all (schedule : list handler -> list handler) (es : list DomainEvent)
  : M (EventDispatcher handler * sinks) () :=
  match es with
  | [] => ret ()
  | e :: es' => publish run_handler schedule e ;;; publish_all schedule es'
  end.

(** What the sinks should hold for an event. *)
Definition welcome_of (e : DomainEvent) : list welcome_email :=
  match e_body e with UserRegistered uid em un => [mkWelcome (e_event_id e) uid em un (e_occurred_at e)] | _ => [] end.
Definition audit_of (e : DomainEvent) : list audit_log :=
  match e_body e with UserRegistered uid em un => [mkAudit (e_event_id e) "USER_REGISTERED" uid un (e_occurred_at e)] | _ => [] end.
Definition analytics_of (e : DomainEvent) : list order_analytics :=
  match e_body e with OrderPlaced oid uid a => [mkAnalytics (e_event_id e) oid uid a (e_occurred_at e)] | _ => [] end.

Lemma register_handlers n c : (0 < n)%nat ->
  eb_handlers (Nat.iter n register_default_event_handlers bus_init) c =
  match c with
  | UserRegisteredEvent => [send_welcome_email_on_registration; record_audit_log_on_registration]
  | OrderPlacedEvent => [track_analytics_on_order]
  | ProductStockDepletedEvent => []
  end.
Proof.
  destruct n as [|n]; [lia|]. intros _. revert c. induction n as [|n IH]; intros c; [by destruct c|].
  change (Nat.iter (S (S n)) register_default_event_handlers bus_init)
    with (register_default_event_handlers (Nat.iter (S n) register_default_event_handlers bus_init)).
  set (b := Nat.iter (S n) register_default_event_handlers bus_init) in *.
  unfold register_default_event_handlers, subscribe.
  rewrite (decide_True (P := send_welcome_email_on_registration ∈ _)) by (rewrite IH; set_solver).
  rewrite (decide_True (P := record_audit_log_on_registration ∈ _)) by (rewrite IH; set_solver).
  rewrite (decide_True (P := track_analytics_on_order ∈ _)) by (rewrite IH; set_solver).
  apply IH.
Qed.

(** Running the handlers of an event in either order fills the sinks alike. *)
Lemma default_run_all (schedule : list handler -> list handler) e s n :
  (0 < n)%nat -> (forall hs, schedule hs ≡ₚ hs) ->
  (run_all run_handler
     (schedule (eb_handlers (Nat.iter n register_default_event_handlers bus_init) (event_class (e_body e)))) e s).2 =
  mkSinks (recorded_welcome_emails s ++ welcome_of e) (recorded_audit_logs s ++ audit_of e)
    (recorded_order_analytics s ++ analytics_of e).
Proof.
  intros Hn Hs. rewrite register_handlers by done. destruct s as [w a o]. unfold welcome_of, audit_of, analytics_of.
  destruct (e_body e) eqn:Eb; cbn [event_class].
  - destruct (Permutation_length_2_inv (symmetry (Hs [send_welcome_email_on_registration; record_audit_log_on_registration])))
      as [-> | ->]; cbn; unfold run_handler; rewrite Eb; cbn; by rewrite app_nil_r.
  - rewrite (proj1 (Permutation_singleton_r _ _) (Hs [track_analytics_on_order])).
    cbn. unfold run_handler. rewrite Eb. cbn. by rewrite !app_nil_r.
  - rewrite (proj1 (Permutation_nil_r _) (Hs [])). cbn. by rewrite !app_nil_r.
Qed.

(** However often the default handlers are registered and in whichever order the
    handlers of an event complete, publishing a sequence of events records exactly
    one welcome email and one audit entry per registration and one analytics record
    per order, in the order of publication. *)
Theorem default_handlers_exactly_once (schedule : list handler -> list handler) n es s :
  (0 < n)%nat -> (forall hs, schedule hs ≡ₚ hs) ->
  let b := Nat.iter n register_default_event_handlers bus_init in
  let '(r, (_, s')) := publish_all schedule es (b, s) in
  r = Ok () /\
  recorded_welcome_emails s' = recorded_welcome_emails s ++ concat (welcome_of <$> es) /\
  recorded_audit_logs s' = recorded_audit_logs s ++ concat (audit_of <$> es) /\
  recorded_order_analytics s' = recorded_order_analytics s ++ concat (analytics_of <$> es).
Proof.
  intros Hn Hs b.
  assert (forall b', eb_handlers b' = eb_handlers b ->
    let '(r, (_, s')) := publish_all schedule es (b', s) in
    r = Ok () /\ recorded_welcome_emails s' = recorded_welcome_emails s ++ concat (welcome_of <$> es) /\
    recorded_audit_logs s' = recorded_audit_logs s ++ concat (audit_of <$> es) /\
    recorded_order_analytics s' = recorded_order_analytics s ++ concat (analytics_of <$> es)) as Hgen; [|by apply Hgen].
  revert s. induction es as [|e es IH]; intros s b' Hb'; cbn [publish_all].
  - unfold ret. cbn. by rewrite !app_nil_r.
  - pose proof (default_run_all schedule e s n Hn Hs) as Hd. fold b in Hd.
    assert (exists b1, publish run_handler schedule e (b', s)
       = (Ok (), (b1, (run_all run_handler (schedule (eb_handlers b (event_class (e_body e)))) e s).2))
       /\ eb_handlers b1 = eb_handlers b) as (b1 & Hpub & Hb1).
    { unfold publish. cbn [fst]. unfold on_bus at 1. rewrite bind_modify_run. cbn [fst snd]. rewrite Hb'. case_decide as D.
      - pose proof (Hs []) as Hnil%Permutation_nil_r. rewrite D, Hnil. cbn. eexists; split; [done|]. done.
      - rewrite gather_run. destruct (run_all _ _ _ _) as [[ok err] w']. eexists; split; [done|]. done. }
    rewrite (bind_ret_eq _ _ _ _ _ Hpub), Hd. set (s1 := mkSinks _ _ _). specialize (IH s1 b1 Hb1).
    destruct (publish_all schedule es (b1, s1)) as [r [b2 s']]. cbn in IH. destruct IH as (-> & -> & -> & ->).
    cbn. rewrite <-!app_assoc. done.
Qed.

(** A handler that raises does not stop the others: an order handler subscribed to
    registrations fails, the registration handlers still run. *)
Definition demo_event : DomainEvent := make_event "e1" 9 "" (UserRegistered 4 "a@x.io" "ann").
Definition demo_bus : EventDispatcher handler :=
  register_default_event_handlers (subscribe UserRegisteredEvent track_analytics_on_order bus_init).

Lemma publish_isolates_failures_witness :
  publish run_handler reverse demo_event (demo_bus, mkSinks [] [] []) =
    (Ok (), (mkBus (eb_handlers demo_bus) 1 2 1,
             mkSinks [mkWelcome "e1" 4 "a@x.io" "ann" 9] [mkAudit "e1" "USER_REGISTERED" 4 "ann" 9] [])).
Proof.
  apply (publish_isolates_failures run_handler reverse demo_event demo_bus (mkSinks [] [] [])).
  apply reverse_Permutation.
Defined.

Lemma default_handlers_exactly_once_witness :
  recorded_audit_logs (publish_all reverse [demo_event; demo_event]
     (Nat.iter 2 register_default_event_handlers bus_init, mkSinks [] [] [])).2.2
  = [mkAudit "e1" "USER_REGISTERED" 4 "ann" 9; mkAudit "e1" "USER_REGISTERED" 4 "ann" 9].
Proof.
  pose proof (default_handlers_exactly_once reverse 2 [demo_event; demo_event] (mkSinks [] [] []) ltac:(lia)
    reverse_Permutation) as H. cbn zeta in H.
  destruct (publish_all reverse _ _) as [r [b s]]. exact (proj1 (proj2 (proj2 H))).
Defined.
