(* ===== verification/Cache.v ===== *)
(** The cache service and XFetch ([app/services/cache_service.py],
    [app/core/dsa/xfetch.py]).

    Redis is the class [RedisServer] extended with counters and plain SET
    ([CacheRedis]).  A command may fail: the state carries a schedule [ca_faults]
    that says which calls raise, so the theorems hold for every pattern of failures.
    Text conversions of Python's standard library (JSON, ISO dates, number parsing)
    are the class [PyText].  Times and durations are integers in microseconds; the
    logarithm of [should_recompute] is a parameter. *)

From Stdlib Require Import QArith.
From stdpp Require Import pretty.
From S2P Require Import Prelude Redis.

Local Open Scope Z_scope.
Local Open Scope py_scope.

(** ** Text *)

(** The values of a flat JSON object; floating-point seconds as microseconds. *)
Inductive scalar : Type := SNull | SBool (b : bool) | SInt (z : Z) | SFloat (us : Z) | SStr (s : string).
#[global] Instance scalar_eq_dec : EqDecision scalar.
Proof. solve_decision. Defined.
#[global] Program Instance scalar_countable : Countable scalar :=
  inj_countable'
    (fun x => match x with SNull => inl () | SBool b => inr (inl b) | SInt z => inr (inr (inl z))
              | SFloat z => inr (inr (inr (inl z))) | SStr s => inr (inr (inr (inr s))) end)
    (fun x => match x with inl () => SNull | inr (inl b) => SBool b | inr (inr (inl z)) => SInt z
              | inr (inr (inr (inl z))) => SFloat z | inr (inr (inr (inr s))) => SStr s end) _.
Next Obligation. by intros []. Qed.

Abbreviation jobj := (list (string * scalar)).

Class PyText : Type := {
  dumps : jobj -> string;
  loads : string -> option jobj;
  isoformat : Z -> string;
  fromisoformat : string -> option Z;
  int_of_str : string -> option Z;
  float_of_str : string -> option Z;
  float_str : Z -> string;
  law_json o : loads (dumps o) = Some o;
  law_iso t : fromisoformat (isoformat t) = Some t
}.

Section Convert.
Context `{PyText}.

(** [str(v)], [int(v)], [float(v)] and [bool(v)] of a JSON value. *)
Definition py_str (v : scalar) : string :=
  match v with
  | SNull => "None" | SBool true => "True" | SBool false => "False"
  | SInt z => pretty z | SFloat t => float_str t | SStr s => s
  end.
Definition py_int (v : scalar) : result Z :=
  match v with
  | SNull => Raise PyTypeError
  | SBool b => Ok (Z.b2z b)
  | SInt z => Ok z
  | SFloat t => Ok (Z.quot t 1000000)
  | SStr s => match int_of_str s with Some z => Ok z | None => Raise PyValueError end
  end.
Definition py_float (v : scalar) : result Z :=
  match v with
  | SNull => Raise PyTypeError
  | SBool b => Ok (Z.b2z b * 1000000)
  | SInt z => Ok (z * 1000000)
  | SFloat t => Ok t
  | SStr s => match float_of_str s with Some z => Ok z | None => Raise PyValueError end
  end.
Definition py_bool (v : scalar) : bool :=
  match v with
  | SNull => false | SBool b => b | SInt z => negb (z =? 0) | SFloat t => negb (t =? 0)
  | SStr s => negb (bool_decide (s = ""))
  end.

(** [data[key]] *)
Definition getitem (o : jobj) (k : string) : result scalar :=
  match dict_get o k with Some v => Ok v | None => Raise PyKeyError end.

(** [json.loads] of a text that should hold an object. *)
Definition json_loads (s : string) : result jobj :=
  match loads s with Some o => Ok o | None => Raise PyValueError end.

(** ** The envelope *)

Record XFetchEnvelope : Type := mkEnvelope { x_val : string; x_delta : Z; x_expiry : Z }.

Definition env_to_json (e : XFetchEnvelope) : string :=
  dumps [("val", SStr (x_val e)); ("delta", SFloat (x_delta e)); ("expiry", SFloat (x_expiry e))].

Definition env_from_json (raw : string) : result XFetchEnvelope :=
  let? data := json_loads raw in
  let? v := getitem data "val" in
  let? d := getitem data "delta" in
  let? delta := py_float d in
  let? x := getitem data "expiry" in
  let? expiry := py_float x in
  Ok (mkEnvelope (py_str v) delta expiry).

Lemma env_roundtrip e : env_from_json (env_to_json e) = Ok e.
Proof. unfold env_from_json, env_to_json, json_loads. rewrite law_json. by destruct e. Qed.

End Convert.

(** ** [should_recompute]

    [neglog r] stands for [-math.log(r)]. *)

Section ShouldRecompute.
Variable neglog : Q -> Q.

Definition clamp_rand (rand_val : Q) : Q :=
  let m := if Qle_bool rand_val 1 then rand_val else 1%Q in
  if Qle_bool (1 # 1000000000) m then m else (1 # 1000000000)%Q.

(** [max(beta, 0.001)]; [max(delta, 0.001)] is a thousand microseconds. *)
Definition effective_beta (beta : Q) : Q := if Qle_bool (1 # 1000) beta then beta else (1 # 1000)%Q.

Definition threshold (delta : Z) (beta rand_val : Q) : Q :=
  (effective_beta beta * inject_Z (Z.max delta 1000) * neglog (clamp_rand rand_val))%Q.

Definition should_recompute (delta expiry now : Z) (beta rand_val : Q) : bool :=
  if expiry <=? now then true
  else negb (Qle_bool (threshold delta beta rand_val) (inject_Z (expiry - now))).

Hypothesis neglog_one : (neglog 1 == 0)%Q.
Hypothesis neglog_nonneg : forall r, (0 < r)%Q -> (r <= 1)%Q -> (0 <= neglog r)%Q.
Hypothesis neglog_antitone : forall r r', (0 < r)%Q -> (r <= r')%Q -> (r' <= 1)%Q -> (neglog r' <= neglog r)%Q.

Lemma clamp_bounds r : (0 < clamp_rand r)%Q /\ (clamp_rand r <= 1)%Q.
Proof.
  unfold clamp_rand. destruct (Qle_bool r 1) eqn:E.
  - apply Qle_bool_iff in E. destruct (Qle_bool (1 # 1000000000) r) eqn:E'.
    + apply Qle_bool_iff in E'. split; [|done]. eapply Qlt_le_trans; [|exact E']. done.
    + split; done.
  - destruct (Qle_bool (1 # 1000000000) 1) eqn:E'; split; done.
Qed.

Lemma clamp_mono r r' : (r <= r')%Q -> (clamp_rand r <= clamp_rand r')%Q.
Proof.
  intros Hr. unfold clamp_rand. destruct (Qle_bool r 1) eqn:E, (Qle_bool r' 1) eqn:E'.
  - destruct (Qle_bool _ r) eqn:F, (Qle_bool _ r') eqn:F'; try done.
    + apply Qle_bool_iff in F. assert (Qle_bool (1 # 1000000000) r' = true); [|congruence].
      apply Qle_bool_iff. by eapply Qle_trans.
    + by apply Qle_bool_iff in F'.
  - apply Qle_bool_iff in E. cbn. by destruct (Qle_bool _ r).
  - apply Qle_bool_iff in E'. assert (Qle_bool r 1 = true); [|congruence].
    apply Qle_bool_iff. by eapply Qle_trans.
  - done.
Qed.

Lemma beta_pos b : (0 < effective_beta b)%Q.
Proof.
  unfold effective_beta. destruct (Qle_bool _ b) eqn:E; [|done]. apply Qle_bool_iff in E.
  by eapply Qlt_le_trans; [|exact E].
Qed.

Lemma delta_nonneg d : (0 <= inject_Z (Z.max d 1000))%Q.
Proof. change 0%Q with (inject_Z 0). rewrite <-Zle_Qle. lia. Qed.

Lemma scale_nonneg b d : (0 <= effective_beta b * inject_Z (Z.max d 1000))%Q.
Proof. apply Qmult_le_0_compat; [apply Qlt_le_weak, beta_pos|apply delta_nonneg]. Qed.

(** An entry past its logical expiry is always recomputed; before it, a draw of
    one never recomputes; and the decision is monotone: if a draw recomputes at some
    time, it recomputes at every later time, with every smaller draw and with every
    longer computation. *)
Theorem xfetch_decision delta expiry now beta r :
  (expiry <= now -> should_recompute delta expiry now beta r = true) /\
  (now < expiry -> (1 <= r)%Q -> should_recompute delta expiry now beta r = false) /\
  (forall now' r' delta', now <= now' -> (r' <= r)%Q -> delta <= delta' ->
     should_recompute delta expiry now beta r = true -> should_recompute delta' expiry now' beta r' = true).
Proof.
  unfold should_recompute. split; [|split].
  - intros Hx. by rewrite (proj2 (Z.leb_le _ _) Hx).
  - intros Hx Hr. rewrite (proj2 (Z.leb_gt _ _) Hx). apply negb_false_iff, Qle_bool_iff.
    assert (clamp_rand r == 1)%Q as Hc.
    { unfold clamp_rand. destruct (Qle_bool r 1) eqn:E; [|done]. apply Qle_bool_iff in E.
      assert (r == 1)%Q by (by apply Qle_antisym). destruct (Qle_bool (1 # 1000000000) r) eqn:E'; [done|].
      assert (Qle_bool (1 # 1000000000) r = true); [|congruence]. apply Qle_bool_iff.
      by eapply Qle_trans; [|exact Hr]. }
    assert (neglog (clamp_rand r) <= 0)%Q as Hn.
    { rewrite <-neglog_one. destruct (clamp_bounds r). apply neglog_antitone; [done|by rewrite Hc|done]. }
    unfold threshold. apply Qle_trans with 0%Q.
    + apply Qle_trans with (0 * (effective_beta beta * inject_Z (Z.max delta 1000)))%Q; [|rewrite Qmult_0_l; apply Qle_refl].
      rewrite (Qmult_comm (effective_beta beta * _)). apply Qmult_le_compat_r; [done|apply scale_nonneg].
    + change 0%Q with (inject_Z 0). rewrite <-Zle_Qle. lia.
  - intros now' r' delta' Hn Hr Hd. destruct (Z.leb_spec expiry now'); [done|].
    destruct (Z.leb_spec expiry now); [lia|]. rewrite !negb_true_iff, <-!not_true_iff_false, !Qle_bool_iff.
    intros Hold Hnew. apply Hold. destruct (clamp_bounds r), (clamp_bounds r').
    apply Qle_trans with (threshold delta' beta r'); [|apply Qle_trans with (inject_Z (expiry - now')); [done|]].
    + unfold threshold. apply Qle_trans with (effective_beta beta * inject_Z (Z.max delta 1000) * neglog (clamp_rand r'))%Q.
      * rewrite !(Qmult_comm (effective_beta beta * _)). apply Qmult_le_compat_r; [|apply scale_nonneg].
        apply neglog_antitone; [done|by apply clamp_mono|done].
      * apply Qmult_le_compat_r; [|by apply neglog_nonneg]. rewrite !(Qmult_comm (effective_beta beta)).
        apply Qmult_le_compat_r; [|apply Qlt_le_weak, beta_pos]. rewrite <-Zle_Qle. lia.
    + rewrite <-Zle_Qle. lia.
Qed.

End ShouldRecompute.

(** ** Redis with counters *)

Class CacheRedis (RD : Type) : Type := {
  cr_server :: RedisServer RD string;
  r_setp : Z -> string -> string -> RD -> RD;
  r_incrby : string -> Z -> RD -> Z * RD;
  r_counter : string -> RD -> option Z;
  law_get_setp now now' k k' v rd : now <= now' ->
    r_get now' k' (r_setp now k v rd) = if decide (k = k') then Some v else r_get now' k' rd;
  law_incr_result k a rd : (r_incrby k a rd).1 = default 0 (r_counter k rd) + a;
  law_incr_counter k k' a rd :
    r_counter k' (r_incrby k a rd).2 = if decide (k = k') then Some (default 0 (r_counter k rd) + a) else r_counter k' rd;
  law_incr_get now k k' a rd : k <> k' -> r_get now k' (r_incrby k a rd).2 = r_get now k' rd;
  law_counter_del now k k' rd : r_counter k' (r_del now k rd) = if decide (k = k') then None else r_counter k' rd
}.

(** A reference server: text keys with optional deadlines, and counters. *)
Abbreviation cref := (gmap string (string * option Z) * gmap string Z)%type.

Definition cref_get (now : Z) (k : string) (rd : cref) : option string :=
  match rd.1 !! k with
  | Some (v, Some deadline) => if now <? deadline then Some v else None
  | Some (v, None) => Some v
  | None => None
  end.
Definition cref_put (k v : string) (deadline : option Z) (rd : cref) : cref := (<[k := (v, deadline)]> rd.1, rd.2).

Definition cref_setnx (now : Z) (k v : string) (ttl : Z) (rd : cref) : bool * cref :=
  match cref_get now k rd with Some _ => (false, rd) | None => (true, cref_put k v (Some (now + ttl)) rd) end.

#[global] Program Instance cref_server : RedisServer cref string := {|
  r_get := cref_get;
  r_set now k v ttl rd := cref_put k v (Some (now + ttl)) rd;
  r_setnx := cref_setnx;
  r_del now k rd := (delete k rd.1, delete k rd.2) |}.
Next Obligation. intros now now' k k' v ttl rd _ _. unfold cref_get, cref_put. cbn. rewrite lookup_insert. by case_decide. Qed.
Next Obligation. done. Qed.
Next Obligation. intros now now' k k' rd _. unfold cref_get. cbn. rewrite lookup_delete. by case_decide. Qed.
Next Obligation.
  intros now now' k v rd Hle. unfold cref_get. destruct (rd.1 !! k) as [[w [d|]]|]; try done.
  destruct (Z.ltb_spec now' d), (Z.ltb_spec now d); try done; lia.
Qed.

#[global] Program Instance cref_cache : CacheRedis cref := {|
  r_setp now k v rd := cref_put k v None rd;
  r_incrby k a rd := let n := default 0 (rd.2 !! k) + a in (n, (rd.1, <[k := n]> rd.2));
  r_counter k rd := rd.2 !! k |}.
Next Obligation. intros now now' k k' v rd _. unfold r_get, cref_get, cref_put. cbn. unfold cref_get. cbn. rewrite lookup_insert. by case_decide. Qed.
Next Obligation. done. Qed.
Next Obligation. intros k k' a rd. cbn. rewrite lookup_insert. by case_decide. Qed.
Next Obligation. done. Qed.
Next Obligation. intros now k k' rd. cbn. rewrite lookup_delete. by case_decide. Qed.

(** ** The service *)

Definition METRICS_HITS_KEY : string := "metrics:cache:hits".
Definition METRICS_MISSES_KEY : string := "metrics:cache:misses".
Definition METRICS_XFETCH_HITS_KEY : string := "metrics:xfetch:normal_hits".
Definition METRICS_XFETCH_EARLY_KEY : string := "metrics:xfetch:early_recomputations".
Definition METRICS_XFETCH_MISSES_KEY : string := "metrics:xfetch:hard_misses".

Section Service.
Context {RD : Type} `{CR : CacheRedis RD} `{PT : PyText}.

Record cache : Type := mkCache {
  ca_redis : RD;
  ca_faults : nat -> bool;
  ca_calls : nat;
  ca_local_hits : Z;
  ca_local_misses : Z;
  ca_local_xfetch_hits : Z;
  ca_local_xfetch_early : Z;
  ca_local_xfetch_misses : Z
}.

Definition cache_init (rd : RD) (faults : nat -> bool) : cache := mkCache rd faults 0 0 0 0 0 0.

Definition set_redis (rd : RD) (c : cache) : cache :=
  mkCache rd (ca_faults c) (S (ca_calls c)) (ca_local_hits c) (ca_local_misses c) (ca_local_xfetch_hits c)
    (ca_local_xfetch_early c) (ca_local_xfetch_misses c).

(** One command: it raises when the schedule says so, and then has no effect. *)
Definition redis_call {A} (f : RD -> A * RD) : M cache A := fun c =>
  if ca_faults c (ca_calls c) then (Raise RedisError, set_redis (ca_redis c) c)
  else let '(a, rd) := f (ca_redis c) in (Ok a, set_redis rd c).

Definition set_local_hits (n : Z) (c : cache) : cache :=
  mkCache (ca_redis c) (ca_faults c) (ca_calls c) n (ca_local_misses c) (ca_local_xfetch_hits c)
    (ca_local_xfetch_early c) (ca_local_xfetch_misses c).
Definition set_local_misses (n : Z) (c : cache) : cache :=
  mkCache (ca_redis c) (ca_faults c) (ca_calls c) (ca_local_hits c) n (ca_local_xfetch_hits c)
    (ca_local_xfetch_early c) (ca_local_xfetch_misses c).
Definition set_local_xfetch (h e m : Z) (c : cache) : cache :=
  mkCache (ca_redis c) (ca_faults c) (ca_calls c) (ca_local_hits c) (ca_local_misses c) h e m.

(** [set_str]; seconds as microseconds. *)
Definition set_str (now : Z) (key value : string) (expire_seconds : option Z) : M cache bool :=
  redis_call (fun rd =>
    (true, match expire_seconds with
           | Some ex => r_set now key value (ex * 1000000) rd
           | None => r_setp now key value rd
           end)).

(** [get_str], [increment], [delete], [exists] *)
Definition get_str (now : Z) (key : string) : M cache (option string) :=
  redis_call (fun rd => (r_get now key rd, rd)).
Definition increment (key : string) (amount : Z) : M cache Z := redis_call (r_incrby key amount).

Definition key_present (now : Z) (k : string) (rd : RD) : bool :=
  match r_get now k rd, r_counter k rd with None, None => false | _, _ => true end.
Fixpoint del_keys (now : Z) (keys : list string) (rd : RD) : Z * RD :=
  match keys with
  | [] => (0, rd)
  | k :: keys' => let '(n, rd') := del_keys now keys' (r_del now k rd) in (Z.b2z (key_present now k rd) + n, rd')
  end.
Definition cache_delete (now : Z) (keys : list string) : M cache Z :=
  if decide (keys = []) then ret 0 else redis_call (del_keys now keys).
Definition exists_key (now : Z) (key : string) : M cache bool :=
  redis_call (fun rd => (key_present now key rd, rd)).

(** [record_hit], [record_miss] and the XFetch counters *)
Definition record_hit : M cache () :=
  try_except (let! _ := redis_call (r_incrby METRICS_HITS_KEY 1) in ret ())
    (fun _ => modify (fun c => set_local_hits (ca_local_hits c + 1) c)).
Definition record_miss : M cache () :=
  try_except (let! _ := redis_call (r_incrby METRICS_MISSES_KEY 1) in ret ())
    (fun _ => modify (fun c => set_local_misses (ca_local_misses c + 1) c)).
Definition record_xfetch_hit : M cache () :=
  try_except (let! _ := redis_call (r_incrby METRICS_XFETCH_HITS_KEY 1) in ret ())
    (fun _ => modify (fun c => set_local_xfetch (ca_local_xfetch_hits c + 1) (ca_local_xfetch_early c) (ca_local_xfetch_misses c) c)).
Definition record_xfetch_early : M cache () :=
  try_except (let! _ := redis_call (r_incrby METRICS_XFETCH_EARLY_KEY 1) in ret ())
    (fun _ => modify (fun c => set_local_xfetch (ca_local_xfetch_hits c) (ca_local_xfetch_early c + 1) (ca_local_xfetch_misses c) c)).
Definition record_xfetch_miss : M cache () :=
  try_except (let! _ := redis_call (r_incrby METRICS_XFETCH_MISSES_KEY 1) in ret ())
    (fun _ => modify (fun c => set_local_xfetch (ca_local_xfetch_hits c) (ca_local_xfetch_early c) (ca_local_xfetch_misses c + 1) c)).

(** [get_metrics] without the rounded ratio: a failing read keeps what was added before it. *)
Definition get_metrics : M cache (Z * Z) :=
  let! hits := gets ca_local_hits in
  let! misses := gets ca_local_misses in
  let! raw_hits := try_except (let! x := redis_call (fun rd => (r_counter METRICS_HITS_KEY rd, rd)) in ret (Some x)) (fun _ => ret None) in
  match raw_hits with
  | None => ret (hits, misses)
  | Some rh =>
      let! raw_misses := try_except (redis_call (fun rd => (r_counter METRICS_MISSES_KEY rd, rd))) (fun _ => ret None) in
      ret (hits + default 0 rh, misses + default 0 raw_misses)
  end.

(** [reset_metrics] and [reset_xfetch_metrics] *)
Definition reset_metrics (now : Z) : M cache () :=
  let! _ := try_except (redis_call (del_keys now [METRICS_HITS_KEY; METRICS_MISSES_KEY])) (fun _ => ret 0) in
  modify (fun c => set_local_misses 0 (set_local_hits 0 c)).
Definition reset_xfetch_metrics (now : Z) : M cache () :=
  let! _ := try_except (redis_call (del_keys now [METRICS_XFETCH_HITS_KEY; METRICS_XFETCH_EARLY_KEY; METRICS_XFETCH_MISSES_KEY])) (fun _ => ret 0) in
  modify (set_local_xfetch 0 0 0).

(** ** [xfetch_get_or_compute] *)

Variable neglog : Q -> Q.
Context {X : Type}.

Definition recompute_lock_key (key : string) : string := "lock:" +:+ key +:+ ":recompute".

(** The [try] block on a cached envelope: [Some v] is [return v]. *)
Definition xfetch_serve (key : string) (now current_time : Z) (beta rand_val : Q) (raw : string)
  : M cache (option string) :=
  let! envelope := lift_result (env_from_json raw) in
  if negb (should_recompute neglog (x_delta envelope) (x_expiry envelope) current_time beta rand_val)
  then record_xfetch_hit ;;; ret (Some (x_val envelope))
  else
    let! acquired := try_except (redis_call (r_setnx now (recompute_lock_key key) "1" 10000000)) (fun _ => ret true) in
    if negb acquired then record_xfetch_hit ;;; ret (Some (x_val envelope))
    else record_xfetch_early ;;; ret None.

(** Computing, releasing the lock and storing the fresh envelope; [duration] is the
    measured time of [compute_func]. *)
Definition xfetch_refresh (key : string) (compute : M X string) (ttl now current_time duration : Z)
  : M (cache * X) string :=
  let! fresh_val := finally (lift_r compute)
    (lift_l (try_except (redis_call (del_keys now [recompute_lock_key key])) (fun _ => ret 0))) in
  let delta := Z.max duration 1000 in
  let physical_ttl := (ttl + Z.max (delta * 2) 10000000) / 1000000 in
  let envelope := mkEnvelope fresh_val delta (current_time + ttl) in
  let! _ := lift_l (try_except (set_str now key (env_to_json envelope) (Some physical_ttl)) (fun _ => ret false)) in
  ret fresh_val.

Definition xfetch_get_or_compute (key : string) (compute : M X string) (ttl : Z) (beta : Q)
  (now current_time : Z) (rand_val : Q) (duration : Z) : M (cache * X) string :=
  let! raw_envelope_str := lift_l (try_except (get_str now key) (fun _ => ret None)) in
  let! served :=
    match raw_envelope_str with
    | Some raw => lift_l (try_except (xfetch_serve key now current_time beta rand_val raw) (fun _ => ret None))
    | None => lift_l (record_xfetch_miss ;;; ret None)
    end in
  match served with
  | Some v => ret v
  | None => xfetch_refresh key compute ttl now current_time duration
  end.

(** ** Failures of Redis stay inside the service *)

Lemma recorded (k : string) (g : cache -> cache) c : exists c',
  try_except (let! _ := redis_call (r_incrby k 1) in ret ()) (fun _ => modify g) c = (Ok (), c').
Proof.
  unfold try_except, bind, redis_call. destruct (ca_faults c (ca_calls c)); [by eexists|].
  destruct (r_incrby k 1 (ca_redis c)). by eexists.
Qed.

Lemma serve_outcome key now ct beta rand_val raw c : exists o c1,
  try_except (xfetch_serve key now ct beta rand_val raw) (fun _ => ret None) c = (Ok o, c1) /\
  (o = None \/ exists e, env_from_json raw = Ok e /\ o = Some (x_val e)).
Proof.
  unfold try_except, xfetch_serve. rewrite bind_lift_run. destruct (env_from_json raw) as [e|ex]; [|eauto 10].
  destruct (negb (should_recompute _ _ _ _ _ _)).
  { destruct (recorded METRICS_XFETCH_HITS_KEY _ c : exists c', record_xfetch_hit c = (Ok (), c')) as [c' Hc].
    rewrite (bind_ret_eq _ _ _ _ _ Hc). eauto 10. }
  assert (exists b c1, try_except (redis_call (r_setnx now (recompute_lock_key key) "1" 10000000)) (fun _ => ret true) c
    = (Ok b, c1)) as (b & c1 & Hb).
  { unfold try_except, redis_call. destruct (ca_faults c (ca_calls c)); [by do 2 eexists|].
    destruct (r_setnx _ _ _ _ _). by do 2 eexists. }
  rewrite (bind_ret_eq _ _ _ _ _ Hb). destruct b; cbn [negb].
  - destruct (recorded METRICS_XFETCH_EARLY_KEY _ c1 : exists c', record_xfetch_early c1 = (Ok (), c')) as [c' Hc].
    rewrite (bind_ret_eq _ _ _ _ _ Hc). eauto 10.
  - destruct (recorded METRICS_XFETCH_HITS_KEY _ c1 : exists c', record_xfetch_hit c1 = (Ok (), c')) as [c' Hc].
    rewrite (bind_ret_eq _ _ _ _ _ Hc). eauto 10.
Qed.

Lemma tried_ok {A} (m : M cache A) (d : A) c : exists a c1, try_except m (fun _ => ret d) c = (Ok a, c1).
Proof. unfold try_except. destruct (m c) as [[a|e] c1]; by do 2 eexists. Qed.

Lemma lift_l_run {A} (m : M cache A) c (x : X) a c1 : m c = (Ok a, c1) -> lift_l m (c, x) = (Ok a, (c1, x)).
Proof. unfold lift_l. cbn. by intros ->. Qed.

Lemma refresh_outcome key compute ttl now ct duration c x :
  exists c', xfetch_refresh key compute ttl now ct duration (c, x) = ((compute x).1, (c', (compute x).2)).
Proof.
  unfold xfetch_refresh, finally, lift_r. unfold bind at 1. cbn [fst snd]. destruct (compute x) as [r x1].
  destruct (tried_ok (redis_call (del_keys now [recompute_lock_key key])) 0 c) as (n & c1 & Hd).
  rewrite (lift_l_run _ _ _ _ _ Hd). destruct r as [v|e]; [|by eexists]. cbn [fst snd].
  destruct (tried_ok (set_str now key
     (env_to_json (mkEnvelope v (Z.max duration 1000) (ct + ttl)))
     (Some ((ttl + Z.max (Z.max duration 1000 * 2) 10000000) / 1000000))) false c1) as (b & c2 & Hs).
  rewrite (bind_ret_eq _ _ _ _ _ (lift_l_run _ _ _ _ _ Hs)). by eexists.
Qed.

(** Whatever Redis commands fail, the caller either gets the value of an envelope
    that was in Redis, without computing, or exactly what one run of the computation
    gives, its exception included; no failure of Redis reaches the caller. *)
Theorem xfetch_redis_failures_hidden key compute ttl beta now ct rand_val duration c x :
  let '(r, (_, x')) := xfetch_get_or_compute key compute ttl beta now ct rand_val duration (c, x) in
  (x' = x /\ exists raw e, r_get now key (ca_redis c) = Some raw /\ env_from_json raw = Ok e /\ r = Ok (x_val e)) \/
  (r = (compute x).1 /\ x' = (compute x).2).
Proof.
  unfold xfetch_get_or_compute.
  assert (exists o c1, try_except (get_str now key) (fun _ => ret None) c = (Ok o, c1) /\
    (o = None \/ o = r_get now key (ca_redis c))) as (o & c1 & Hg & Ho).
  { unfold try_except, get_str, redis_call. destruct (ca_faults c (ca_calls c)); do 2 eexists; eauto. }
  rewrite (bind_ret_eq _ _ _ _ _ (lift_l_run _ _ _ _ _ Hg)). destruct o as [raw|].
  - destruct (serve_outcome key now ct beta rand_val raw c1) as (o' & c2 & Hs & Ho').
    rewrite (bind_ret_eq _ _ _ _ _ (lift_l_run _ _ _ _ _ Hs)). destruct Ho' as [->|(e & He & ->)].
    + destruct (refresh_outcome key compute ttl now ct duration c2 x) as (c' & ->). by right.
    + cbn. left. split; [done|]. exists raw, e. destruct Ho; [done|]. done.
  - destruct (recorded METRICS_XFETCH_MISSES_KEY _ c1 : exists c', record_xfetch_miss c1 = (Ok (), c')) as [c' Hc].
    assert ((record_xfetch_miss ;;; ret (@None string)) c1 = (Ok None, c')) as Hm by by rewrite (bind_ret_eq _ _ _ _ _ Hc).
    rewrite (bind_ret_eq _ _ _ _ _ (lift_l_run _ _ _ _ _ Hm)).
    destruct (refresh_outcome key compute ttl now ct duration c' x) as (c'' & ->). by right.
Qed.

(** ** With Redis up *)

Definition healthy (c : cache) : Prop := forall n, ca_faults c n = false.

Lemma redis_call_up {A} (f : RD -> A * RD) c : healthy c ->
  redis_call f c = (Ok (f (ca_redis c)).1, set_redis (f (ca_redis c)).2 c).
Proof. intros Hh. unfold redis_call. rewrite Hh. by destruct (f (ca_redis c)). Qed.

Lemma recorded_up (k : string) (g : cache -> cache) c : healthy c ->
  try_except (let! _ := redis_call (r_incrby k 1) in ret ()) (fun _ => modify g) c
  = (Ok (), set_redis (r_incrby k 1 (ca_redis c)).2 c).
Proof. intros Hh. unfold try_except, bind. by rewrite redis_call_up. Qed.

Lemma try_except_ok {S A} (m : M S A) h s a s' : m s = (Ok a, s') -> try_except m h s = (Ok a, s').
Proof. unfold try_except. by intros ->. Qed.

Lemma lock_key_ne key : recompute_lock_key key <> key.
Proof.
  intros E. apply (f_equal String.length) in E. unfold recompute_lock_key in E.
  rewrite !string_length_app in E. cbn in E. lia.
Qed.

(** Keys that are not the service's own counters. *)
Definition plain_key (k : string) : Prop :=
  k ∉ [METRICS_HITS_KEY; METRICS_MISSES_KEY; METRICS_XFETCH_HITS_KEY; METRICS_XFETCH_EARLY_KEY; METRICS_XFETCH_MISSES_KEY].

Lemma lock_key_plain key : plain_key (recompute_lock_key key).
Proof. unfold plain_key, recompute_lock_key. rewrite !not_elem_of_cons. repeat split; try done. apply not_elem_of_nil. Qed.

Definition envelope_for (v : string) (duration ct ttl : Z) : XFetchEnvelope :=
  mkEnvelope v (Z.max duration 1000) (ct + ttl).
Definition physical_ttl (duration ttl : Z) : Z := (ttl + Z.max (Z.max duration 1000 * 2) 10000000) / 1000000.

(** Refreshing with Redis up: the lock is gone and the envelope is stored. *)
Lemma refresh_up key compute ttl now ct duration c x v x1 : healthy c -> compute x = (Ok v, x1) ->
  exists c', xfetch_refresh key compute ttl now ct duration (c, x) = (Ok v, (c', x1)) /\ healthy c' /\
    ca_redis c' = r_set now key (env_to_json (envelope_for v duration ct ttl)) (physical_ttl duration ttl * 1000000)
                    (r_del now (recompute_lock_key key) (ca_redis c)).
Proof.
  intros Hh Hc. unfold xfetch_refresh, finally, lift_r. unfold bind at 1. cbn [fst snd]. rewrite Hc.
  erewrite (lift_l_run _ c); [|by apply try_except_ok, redis_call_up]. cbn [snd].
  set (c1 := set_redis _ c). assert (healthy c1) as Hh1 by done. cbn [fst].
  erewrite bind_ret_eq; [|apply lift_l_run; by apply try_except_ok, redis_call_up].
  eexists. split; [done|]. split; [done|]. done.
Qed.

Lemma refresh_up_raise key compute ttl now ct duration c x e x1 : healthy c -> compute x = (Raise e, x1) ->
  exists c', xfetch_refresh key compute ttl now ct duration (c, x) = (Raise e, (c', x1)) /\
    ca_redis c' = r_del now (recompute_lock_key key) (ca_redis c).
Proof.
  intros Hh Hc. unfold xfetch_refresh, finally, lift_r. unfold bind at 1. cbn [fst snd]. rewrite Hc.
  erewrite (lift_l_run _ c); [|by apply try_except_ok, redis_call_up]. cbn. by eexists.
Qed.

(** The entry that decides a request, with Redis up. *)
Lemma xfetch_hit_up key compute ttl beta now ct rand_val duration c x raw e : healthy c ->
  r_get now key (ca_redis c) = Some raw -> env_from_json raw = Ok e ->
  (should_recompute neglog (x_delta e) (x_expiry e) ct beta rand_val = false \/
   is_Some (r_get now (recompute_lock_key key) (ca_redis c))) ->
  exists c', xfetch_get_or_compute key compute ttl beta now ct rand_val duration (c, x) = (Ok (x_val e), (c', x)) /\
    ca_redis c' = (r_incrby METRICS_XFETCH_HITS_KEY 1 (ca_redis c)).2.
Proof.
  intros Hh Hraw He Hdec. unfold xfetch_get_or_compute.
  erewrite bind_ret_eq; [|apply lift_l_run; by apply try_except_ok, redis_call_up]. cbn [fst snd]. rewrite Hraw.
  set (c1 := set_redis _ c). assert (healthy c1) as Hh1 by done.
  assert (exists c2, xfetch_serve key now ct beta rand_val raw c1 = (Ok (Some (x_val e)), c2) /\
    ca_redis c2 = (r_incrby METRICS_XFETCH_HITS_KEY 1 (ca_redis c)).2) as (c2 & Hs & Hr).
  { unfold xfetch_serve. rewrite bind_lift_run, He.
    destruct (should_recompute neglog (x_delta e) (x_expiry e) ct beta rand_val) eqn:Er; cbn [negb].
    - destruct Hdec as [|[w Hw]]; [done|].
      erewrite bind_ret_eq; [|by apply try_except_ok, redis_call_up]. rewrite law_setnx. cbn [ca_redis c1 set_redis].
      rewrite Hw. cbn [fst snd negb]. erewrite bind_ret_eq; [|by apply recorded_up]. by eexists.
    - erewrite bind_ret_eq; [|by apply recorded_up]. by eexists. }
  erewrite bind_ret_eq; [|apply lift_l_run; by apply try_except_ok]. by eexists.
Qed.

(** A request that recomputes, with Redis up: on a miss, or early with the lock free. *)
Lemma xfetch_compute_up key compute ttl beta now ct rand_val duration c x : healthy c ->
  (r_get now key (ca_redis c) = None \/
   exists raw e, r_get now key (ca_redis c) = Some raw /\ env_from_json raw = Ok e /\
     should_recompute neglog (x_delta e) (x_expiry e) ct beta rand_val = true /\
     r_get now (recompute_lock_key key) (ca_redis c) = None) ->
  exists c1, healthy c1 /\
    xfetch_get_or_compute key compute ttl beta now ct rand_val duration (c, x)
    = xfetch_refresh key compute ttl now ct duration (c1, x).
Proof.
  intros Hh Hdec. unfold xfetch_get_or_compute.
  erewrite bind_ret_eq; [|apply lift_l_run; by apply try_except_ok, redis_call_up]. cbn [fst snd].
  set (c1 := set_redis _ c). assert (healthy c1) as Hh1 by done.
  destruct Hdec as [Hnone|(raw & e & Hraw & He & Hrec & Hlock)].
  - rewrite Hnone. erewrite bind_ret_eq.
    2: { apply lift_l_run. erewrite bind_ret_eq; [|by apply recorded_up]. done. }
    eexists. split; [|done]. done.
  - rewrite Hraw. assert (exists c2, xfetch_serve key now ct beta rand_val raw c1 = (Ok None, c2) /\ healthy c2) as (c2 & Hs & Hh2).
    { unfold xfetch_serve. rewrite bind_lift_run, He, Hrec. cbn [negb].
      erewrite bind_ret_eq; [|by apply try_except_ok, redis_call_up]. rewrite law_setnx. cbn [ca_redis c1 set_redis].
      rewrite Hlock. cbn [fst snd negb]. erewrite bind_ret_eq; [|by apply recorded_up]. by eexists. }
    erewrite bind_ret_eq; [|apply lift_l_run; by apply try_except_ok]. by eexists.
Qed.

(** With Redis up, a request whose entry needs no refresh, or whose refresh another
    worker holds the lock for, is served the cached value without computing; a request
    that finds the lock free computes once, returns that value, releases the lock and
    leaves an envelope from which every request before its physical expiry that needs
    no refresh is served the same value. *)
Theorem xfetch_single_flight key compute ttl beta now ct rand_val duration c x raw e :
  healthy c -> 0 <= ttl ->
  r_get now key (ca_redis c) = Some raw -> env_from_json raw = Ok e ->
  let early := should_recompute neglog (x_delta e) (x_expiry e) ct beta rand_val in
  let locked := r_get now (recompute_lock_key key) (ca_redis c) in
  let '(r, (c', x')) := xfetch_get_or_compute key compute ttl beta now ct rand_val duration (c, x) in
  (early = false \/ is_Some locked -> r = Ok (x_val e) /\ x' = x) /\
  (early = true -> locked = None ->
     r = (compute x).1 /\ x' = (compute x).2 /\ r_get now (recompute_lock_key key) (ca_redis c') = None /\
     forall v now' ct' rand', r = Ok v -> now <= now' < now + physical_ttl duration ttl * 1000000 ->
       should_recompute neglog (Z.max duration 1000) (ct + ttl) ct' beta rand' = false ->
       exists c'', xfetch_get_or_compute key compute ttl beta now' ct' rand' duration (c', x') = (Ok v, (c'', x'))).
Proof.
  intros Hh Httl Hraw He early locked.
  destruct (decide (early = false \/ is_Some locked)) as [Hd|Hd].
  - destruct (xfetch_hit_up key compute ttl beta now ct rand_val duration c x raw e Hh Hraw He Hd) as (c' & -> & _).
    split; [done|]. intros E1 E2. destruct Hd as [|[? ?]]; congruence.
  - apply Decidable.not_or in Hd as [He' Hl]. apply not_false_iff_true in He'. apply eq_None_not_Some in Hl.
    destruct (xfetch_compute_up key compute ttl beta now ct rand_val duration c x Hh) as (c1 & Hh1 & ->); [right; eauto 10|].
    destruct (compute x) as [[v|ex] x1] eqn:Ec.
    + destruct (refresh_up key compute ttl now ct duration c1 x v x1 Hh1 Ec) as (c' & -> & Hh' & Hr').
      assert (0 < physical_ttl duration ttl * 1000000) as Hpos.
      { unfold physical_ttl. assert (10 <= (ttl + Z.max (Z.max duration 1000 * 2) 10000000) / 1000000); [|lia].
        apply Z.div_le_lower_bound; lia. }
      split; [intros [|[? ?]]; congruence|]. intros _ _. split; [done|]. split; [done|]. split.
      * rewrite Hr', law_get_set by lia. rewrite decide_False by (intros E; by apply (lock_key_ne key)).
        by rewrite law_get_del, decide_True by done.
      * intros v' now' ct' rand' [= <-] Hn Hrec.
        destruct (xfetch_hit_up key compute ttl beta now' ct' rand' duration c' x1
          (env_to_json (envelope_for v duration ct ttl)) (envelope_for v duration ct ttl) Hh') as (c'' & -> & _).
        -- rewrite Hr', law_get_set by lia. rewrite decide_True by done.
           by replace (now' <? now + physical_ttl duration ttl * 1000000) with true by (symmetry; apply Z.ltb_lt; lia).
        -- apply env_roundtrip.
        -- by left.
        -- by eexists.
    + destruct (refresh_up_raise key compute ttl now ct duration c1 x ex x1 Hh1 Ec) as (c' & -> & Hr').
      split; [intros [|[? ?]]; congruence|]. intros _ _. split; [done|]. split; [done|]. split; [|done].
      by rewrite Hr', law_get_del, decide_True by done.
Qed.

(** A request that misses deletes the lock of the worker that holds it: the lock is
    released by requests that never took it. *)
Theorem miss_releases_foreign_lock key compute ttl beta now ct rand_val duration c x :
  healthy c -> 0 <= ttl -> r_get now key (ca_redis c) = None ->
  r_get now (recompute_lock_key key)
    (ca_redis (xfetch_get_or_compute key compute ttl beta now ct rand_val duration (c, x)).2.1) = None.
Proof.
  intros Hh Httl Hnone.
  destruct (xfetch_compute_up key compute ttl beta now ct rand_val duration c x Hh) as (c1 & Hh1 & ->); [by left|].
  destruct (compute x) as [[v|ex] x1] eqn:Ec.
  - destruct (refresh_up key compute ttl now ct duration c1 x v x1 Hh1 Ec) as (c' & -> & _ & Hr'). cbn.
    rewrite Hr', law_get_set; [|lia|].
    + rewrite decide_False by (intros E; by apply (lock_key_ne key)). by rewrite law_get_del, decide_True by done.
    + unfold physical_ttl. assert (10 <= (ttl + Z.max (Z.max duration 1000 * 2) 10000000) / 1000000); [|lia].
      apply Z.div_le_lower_bound; lia.
  - destruct (refresh_up_raise key compute ttl now ct duration c1 x ex x1 Hh1 Ec) as (c' & -> & Hr'). cbn.
    by rewrite Hr', law_get_del, decide_True by done.
Qed.

End Service.
Arguments cache : clear implicits.

(** ** A concrete instance *)

(** Texts as bit strings of stdpp's encodings. *)
Fixpoint pos_str (p : positive) : string :=
  match p with xH => "" | xO p' => String "0" (pos_str p') | xI p' => String "1" (pos_str p') end.
Fixpoint str_pos (s : string) : option positive :=
  match s with
  | EmptyString => Some xH
  | String c s' =>
      match str_pos s' with
      | Some p => Some (if bool_decide (c = "0"%char) then xO p else xI p)
      | None => None
      end
  end.
Lemma str_pos_str p : str_pos (pos_str p) = Some p.
Proof. induction p as [p IH|p IH|]; cbn; [by rewrite IH|by rewrite IH|done]. Qed.

(** Decimal figures. *)
Fixpoint figures (acc : Z) (l : list ascii) : option Z :=
  match l with
  | [] => Some acc
  | c :: l' => let d := Z.of_nat (nat_of_ascii c) - 48 in if (0 <=? d) && (d <=? 9) then figures (10 * acc + d) l' else None
  end.

Definition int_ref (s : string) : option Z := match chars s with [] => None | l => figures 0 l end.

Program Definition py_text_ref : PyText := {|
  dumps o := pos_str (encode o);
  loads s := match str_pos s with Some p => decode p | None => None end;
  isoformat t := pos_str (encode t);
  fromisoformat s := match str_pos s with Some p => decode p | None => None end;
  int_of_str := int_ref;
  float_of_str _ := None;
  float_str _ := "" |}.
Next Obligation. intros o. cbn. by rewrite str_pos_str, decode_encode. Qed.
Next Obligation. intros t. cbn. by rewrite str_pos_str, decode_encode. Qed.

(** A decreasing function with the properties asked of [-log]. *)
Definition neglog_ref (r : Q) : Q := (1 - r)%Q.

Lemma xfetch_decision_witness :
  should_recompute neglog_ref 5000000 100 50 1 (1 # 2) = true /\ should_recompute neglog_ref 5000000 100 60 1 (1 # 4) = true.
Proof.
  split; [done|].
  refine (proj2 (proj2 (xfetch_decision neglog_ref _ _ _ 5000000 100 50 1 (1 # 2))) 60 (1 # 4)%Q 5000000 _ _ _ _); try done.
  - intros r _ Hr. unfold neglog_ref. apply (Qplus_le_r _ _ r). ring_simplify. exact Hr.
  - intros r r' _ Hr _. unfold neglog_ref. apply Qplus_le_compat; [apply Qle_refl|]. by apply Qopp_le_compat.
Defined.

Section Witness.
#[local] Existing Instance py_text_ref.

(** One entry "A" that expires at 100, the lock free, a computation that gives "B" and counts its runs. *)
Definition demo_cache : cache cref :=
  cache_init (r_set 0 "k" (env_to_json (mkEnvelope "A" 2000 100)) 50000000 (∅, ∅)) (fun _ => false).
Definition demo_compute : M nat string := fun n => (Ok "B", S n).

Lemma xfetch_single_flight_witness :
  let '(r, (c', n)) := xfetch_get_or_compute neglog_ref "k" demo_compute 1000000 1 0 100 (1 # 2) 5 (demo_cache, O) in
  r = Ok "B" /\ n = 1%nat /\ r_get 0 (recompute_lock_key "k") (ca_redis c') = None.
Proof.
  pose proof (xfetch_single_flight neglog_ref "k" demo_compute 1000000 1 0 100 (1 # 2) 5 demo_cache O
    (env_to_json (mkEnvelope "A" 2000 100)) (mkEnvelope "A" 2000 100) (fun _ => eq_refl) ltac:(lia)
    eq_refl (env_roundtrip _)) as H.
  cbn zeta in H. destruct (xfetch_get_or_compute _ _ _ _ _ _ _ _ _ _) as [r [c' n]].
  destruct (proj2 H eq_refl eq_refl) as (H1 & H2 & H3 & _). exact (conj H1 (conj H2 H3)).
Defined.
End Witness.
