(* ===== verification/UserService.v ===== *)
(** The user service ([app/services/user_service.py]) with the in-memory post
    repository ([app/repositories/post_repository.py]) its unit of work uses.

    The service runs over the in-memory user repository, the search trie, the Bloom
    filter, the cache service and the event bus; cache and filter are optional, as in
    the constructor.  Methods return references to entities, so that the object a
    method read earlier shows later updates in place, as in Python.  Password
    hashing, SHA-256 and JSON texts are parameters; [now] is the clock of a call. *)

From Stdlib Require Import QArith.
From stdpp Require Import pretty.
From S2P Require Import Prelude Redis SearchAlgos Bloom Trie UserRepo EventBus Cache.

Local Open Scope Z_scope.
Local Open Scope py_scope.

Definition CACHE_USER_PREFIX : string := "cache:user:".
Definition CACHE_USER_TTL_SECONDS : Z := 300.
Definition XFETCH_USER_PREFIX : string := "xfetch:user:".
Definition cache_key (user_id : Z) : string := CACHE_USER_PREFIX +:+ pretty user_id.
Definition xfetch_key (user_id : Z) : string := XFETCH_USER_PREFIX +:+ pretty user_id.

(** ** Payloads *)

Record UserCreate : Type := mkUserCreate {
  uc_email : string;
  uc_username : string;
  uc_password : string;
  uc_age : option Z;
  uc_role : string;
  uc_full_name : option string;
  uc_phone_number : option string;
  uc_bio : option string;
  uc_company_name : option string
}.

(** [payload.attr] of a [UserUpdate]: [None] when the field is unset or null. *)
Definition attr {A} (field : option (option A)) : option A := default None field.

(** The dictionary stored in the trie. *)
Record trie_payload : Type := mkTP { tp_id : Z; tp_username : option string; tp_full_name : option string }.
#[global] Instance trie_payload_eq_dec : EqDecision trie_payload.
Proof. solve_decision. Defined.

(** [if s:] for an optional string. *)
Definition truthy (s : option string) : bool :=
  match s with Some s => negb (bool_decide (s = "")) | None => false end.

(** ** Posts *)

Record PostEntity : Type := mkPost { po_id : Z; po_title : string; po_content : string; po_user_id : Z; po_created_at : Z }.
Record post_repo : Type := mkPostRepo { pr_store : list (Z * PostEntity); pr_current_id : Z }.

Definition post_create (now : Z) (title content : string) (user_id : Z) (p : post_repo) : PostEntity * post_repo :=
  let id := pr_current_id p + 1 in
  let entity := mkPost id title content user_id now in
  (entity, mkPostRepo (dict_set (pr_store p) id entity) id).
Definition post_get_by_id (post_id : Z) (p : post_repo) : option PostEntity := dict_get (pr_store p) post_id.
Definition get_post_with_author (post_id : Z) (p : post_repo) : option PostEntity := dict_get (pr_store p) post_id.
Definition post_clear (p : post_repo) : post_repo := mkPostRepo [] 0.

Section Service.
Context {RD : Type} `{CR : CacheRedis RD} `{PT : PyText}.
Variable sha256 : string -> list Z.
Variables (hash_password : string -> string) (verify_password : string -> string -> bool) (needs_rehash : string -> bool).
Variable schedule : list handler -> list handler.
Variable neglog : Q -> Q.

Record user_service : Type := mkUS {
  us_repo : user_repo;
  us_trie : PrefixTrie trie_payload;
  us_cache : option (cache RD);
  us_bloom : option bloom;
  us_bus : EventDispatcher handler * sinks;
  us_posts : post_repo
}.

Definition set_repo (r : user_repo) (s : user_service) : user_service :=
  mkUS r (us_trie s) (us_cache s) (us_bloom s) (us_bus s) (us_posts s).
Definition set_trie (t : PrefixTrie trie_payload) (s : user_service) : user_service :=
  mkUS (us_repo s) t (us_cache s) (us_bloom s) (us_bus s) (us_posts s).
Definition set_cache (c : option (cache RD)) (s : user_service) : user_service :=
  mkUS (us_repo s) (us_trie s) c (us_bloom s) (us_bus s) (us_posts s).
Definition set_bloom (b : option bloom) (s : user_service) : user_service :=
  mkUS (us_repo s) (us_trie s) (us_cache s) b (us_bus s) (us_posts s).
Definition set_bus (b : EventDispatcher handler * sinks) (s : user_service) : user_service :=
  mkUS (us_repo s) (us_trie s) (us_cache s) (us_bloom s) b (us_posts s).
Definition set_posts (p : post_repo) (s : user_service) : user_service :=
  mkUS (us_repo s) (us_trie s) (us_cache s) (us_bloom s) (us_bus s) p.

Abbreviation US := (M user_service).

Definition on_repo {A} (f : user_repo -> A * user_repo) : US A := fun s =>
  let '(a, r) := f (us_repo s) in (Ok a, set_repo r s).
Definition get_obj (l : ref) : US UserEntity := fun s =>
  match ur_heap (us_repo s) !! l with Some u => (Ok u, s) | None => (Raise PyRuntimeError, s) end.
Definition on_bus_state (m : M (EventDispatcher handler * sinks) ()) : US () := fun s =>
  let '(r, b) := m (us_bus s) in (r, set_bus b s).

(** [if self._cache is not None: ...]; [d] when there is no cache. *)
Definition with_cache {A} (d : A) (m : M (cache RD) A) : US A := fun s =>
  match us_cache s with
  | None => (Ok d, s)
  | Some c => let '(r, c') := m c in (r, set_cache (Some c') s)
  end.

(** [self._trie.insert] and [self._trie.delete]; [None.strip()] is [AttributeError]. *)
Definition trie_put (key : option string) (p : trie_payload) (score : Z) : US () := fun s =>
  match key with
  | None => (Raise PyAttributeError, s)
  | Some k => (Ok (), set_trie (trie_insert k (Some p) score (us_trie s)) s)
  end.
Definition trie_drop (key : option string) : US () := fun s =>
  match key with
  | None => (Raise PyAttributeError, s)
  | Some k => (Ok (), set_trie (trie_delete k None (us_trie s)).2 s)
  end.

(** [_index_user_in_trie] *)
Definition index_user_in_trie (u : UserEntity) : US () :=
  let payload := mkTP (u_id u) (u_username u) (u_full_name u) in
  trie_put (u_username u) payload 2 ;;;
  if truthy (u_full_name u) then trie_put (u_full_name u) payload 1 else ret ().

(** ** Serialization *)

Definition json_opt (s : option string) : scalar := match s with Some s => SStr s | None => SNull end.

(** [_serialize_user] *)
Definition serialize_user (u : UserEntity) : string :=
  dumps [("id", SInt (u_id u)); ("email", json_opt (u_email u)); ("username", json_opt (u_username u));
         ("password_hash", SStr (u_password_hash u)); ("is_active", SBool (u_is_active u));
         ("created_at", SStr (isoformat (u_created_at u)));
         ("age", match u_age u with Some a => SInt a | None => SNull end); ("role", SStr (u_role u));
         ("full_name", json_opt (u_full_name u)); ("phone_number", json_opt (u_phone_number u));
         ("bio", json_opt (u_bio u)); ("company_name", json_opt (u_company_name u));
         ("version", SInt (u_version u)); ("permissions", SInt (u_permissions u));
         ("nid_number", json_opt (u_nid_number u))].

(** [str(data[k]) if data.get(k) is not None else None] *)
Definition opt_str (data : jobj) (k : string) : option string :=
  match dict_get data k with None | Some SNull => None | Some v => Some (py_str v) end.

(** [datetime.fromisoformat] *)
Definition py_fromisoformat (v : scalar) : result Z :=
  match v with
  | SStr s => match fromisoformat s with Some t => Ok t | None => Raise PyValueError end
  | _ => Raise PyTypeError
  end.

(** [_deserialize_user] *)
Definition deserialize_user (raw_json : string) : result UserEntity :=
  let? data := json_loads raw_json in
  let? id_v := getitem data "id" in
  let? id := py_int id_v in
  let? email := getitem data "email" in
  let? username := getitem data "username" in
  let? password_hash := getitem data "password_hash" in
  let? is_active := getitem data "is_active" in
  let? created_v := getitem data "created_at" in
  let? created_at := py_fromisoformat created_v in
  let? age := match dict_get data "age" with
              | None | Some SNull => Ok None
              | Some v => let? a := py_int v in Ok (Some a)
              end in
  let? version := py_int (default (SInt 1) (dict_get data "version")) in
  let? permissions := py_int (default (SInt 3) (dict_get data "permissions")) in
  Ok (mkUser id (Some (py_str email)) (Some (py_str username)) (py_str password_hash) (py_bool is_active) created_at
        version age (py_str (default (SStr "user") (dict_get data "role"))) (opt_str data "full_name")
        (opt_str data "phone_number") (opt_str data "bio") (opt_str data "company_name") permissions
        (opt_str data "nid_number")).

(** ** Reading *)

(** The Bloom filter guard of both readers. *)
Definition bloom_guard (user_id : Z) : US () := fun s =>
  match us_bloom s with
  | None => (Ok (), s)
  | Some f =>
      match bloom_contains sha256 (pretty user_id) f with
      | Some true => (Ok (), s)
      | Some false => (Raise UserNotFoundException, s)
      | None => (Raise PyIndexError, s)
      end
  end.

(** [await self._repo.get_by_id(user_id)], raising when it is [None]. *)
Definition repo_user (user_id : Z) : US ref := fun s =>
  match ur_get_by_id user_id (us_repo s) with
  | Some l => (Ok l, s)
  | None => (Raise UserNotFoundException, s)
  end.

(** Step 1 of [get_user_by_id]: the cached entity, if it can be read. *)
Definition read_cache (now user_id : Z) : US (option UserEntity) :=
  with_cache None
    (try_except
       (let! cached_data := get_str now (cache_key user_id) in
        match cached_data with
        | Some raw => record_hit ;;; let! u := lift_result (deserialize_user raw) in ret (Some u)
        | None => record_miss ;;; ret None
        end)
       (fun _ => ret None)).

(** Storing an entity in the cache, failures logged. *)
Definition write_cache (now user_id : Z) (u : UserEntity) : US () :=
  with_cache ()
    (try_except (let! _ := set_str now (cache_key user_id) (serialize_user u) (Some CACHE_USER_TTL_SECONDS) in ret ())
       (fun _ => ret ())).

Definition evict_cache (now user_id : Z) : US () :=
  with_cache ()
    (try_except (let! _ := cache_delete now [cache_key user_id] in ret ()) (fun _ => ret ())).

(** [get_user_by_id] *)
Definition get_user_by_id (now user_id : Z) : US ref :=
  bloom_guard user_id ;;;
  let! cached := read_cache now user_id in
  match cached with
  | Some u => on_repo (ur_alloc u)
  | None =>
      let! l := repo_user user_id in
      let! u := get_obj l in
      write_cache now user_id u ;;; ret l
  end.

(** [get_user_by_id_xfetch]; [compute] reads the repository. *)
Definition xfetch_compute (user_id : Z) : M user_repo string := fun r =>
  match ur_get_by_id user_id r with
  | Some l => match ur_heap r !! l with Some u => (Ok (serialize_user u), r) | None => (Raise PyRuntimeError, r) end
  | None => (Raise UserNotFoundException, r)
  end.

Definition get_user_by_id_xfetch (now user_id current_time duration : Z) (beta rand_val : Q) : US ref :=
  bloom_guard user_id ;;;
  fun s =>
    match us_cache s with
    | None => repo_user user_id s
    | Some c =>
        let '(r, (c', repo')) :=
          xfetch_get_or_compute neglog (xfetch_key user_id) (xfetch_compute user_id) (CACHE_USER_TTL_SECONDS * 1000000)
            beta now current_time rand_val duration (c, us_repo s) in
        let s1 := set_cache (Some c') (set_repo repo' s) in
        (let! serialized_user := lift_result r in
         let! u := lift_result (deserialize_user serialized_user) in
         on_repo (ur_alloc u)) s1
    end.

(** [get_user_by_username] *)
Definition get_user_by_username (username : string) : US ref := fun s =>
  match ur_get_by_username (Some username) (us_repo s) with
  | Some l => (Ok l, s)
  | None => (Raise UserNotFoundException, s)
  end.

(** [list_users] *)
Definition list_users (limit offset : Z) (role search : option string) (is_active : option bool) : US (list ref) :=
  fun s => (ur_list_all limit offset role search is_active (us_repo s), s).

(** ** Writing *)

Definition bloom_insert (user_id : Z) : US () := fun s =>
  match us_bloom s with
  | None => (Ok (), s)
  | Some f =>
      match bloom_add sha256 (pretty user_id) f with
      | Some f' => (Ok (), set_bloom (Some f') s)
      | None => (Raise PyIndexError, s)
      end
  end.

(** [register_user]; [event_id] is the generated identifier of the event. *)
Definition register_user (now : Z) (event_id : string) (payload : UserCreate) : US ref :=
  let! e := gets (fun s => ur_get_by_email (Some (uc_email payload)) (us_repo s)) in
  raise_if (match e with Some _ => true | None => false end) UserAlreadyExistsException ;;;
  let! n := gets (fun s => ur_get_by_username (Some (uc_username payload)) (us_repo s)) in
  raise_if (match n with Some _ => true | None => false end) UserAlreadyExistsException ;;;
  let perms := if bool_decide (uc_role payload = "admin") then 63 else 3 in
  let! l := on_repo (ur_create now (uc_email payload) (uc_username payload) (hash_password (uc_password payload))
    (uc_age payload) (uc_role payload) (uc_full_name payload) (uc_phone_number payload) (uc_bio payload)
    (uc_company_name payload) (Some perms) None) in
  let! u := get_obj l in
  index_user_in_trie u ;;;
  bloom_insert (u_id u) ;;;
  on_bus_state (publish run_handler schedule
    (make_event event_id now "" (UserRegistered (u_id u) (uc_email payload) (uc_username payload)))) ;;;
  ret l.

(** [update_user_permissions] *)
Definition update_user_permissions (now user_id permissions : Z) : US ref :=
  let! _ := get_user_by_id now user_id in
  let! updated := on_repo (ur_update_permissions user_id permissions) in
  match updated with
  | None => raise UserNotFoundException
  | Some l => evict_cache now user_id ;;; ret l
  end.

(** The uniqueness checks shared by the three update methods; [user] is the object
    read before. *)
Definition check_conflicts (user_id : Z) (payload : UserPatch) (l : ref) : US () :=
  let! user := get_obj l in
  let! e := gets (fun s =>
    match attr (p_email payload) with
    | Some em => negb (bool_decide (Some em = u_email user)) && conflict (ur_get_by_email (Some em) (us_repo s)) user_id (us_repo s)
    | None => false
    end) in
  raise_if e UserAlreadyExistsException ;;;
  let! n := gets (fun s =>
    match attr (p_username payload) with
    | Some un => negb (bool_decide (Some un = u_username user)) && conflict (ur_get_by_username (Some un) (us_repo s)) user_id (us_repo s)
    | None => false
    end) in
  raise_if n UserAlreadyExistsException.

(** The repository update of [update_user] and [update_user_write_through]. *)
Definition repo_update (user_id : Z) (payload : UserPatch) : US ref :=
  let! updated := on_repo (ur_update user_id (attr (p_email payload)) (attr (p_username payload)) (attr (p_age payload))
    (attr (p_role payload)) (attr (p_full_name payload)) (attr (p_phone_number payload)) (attr (p_bio payload))
    (attr (p_company_name payload)) None None) in
  match updated with
  | None => raise UserNotFoundException
  | Some l => ret l
  end.

(** The trie block: [l] is the object read before the update, [l'] the updated one. *)
Definition sync_trie (l l' : ref) : US () :=
  let! user := get_obj l in
  let! updated := get_obj l' in
  (if bool_decide (u_username user = u_username updated) then ret () else trie_drop (u_username user)) ;;;
  (if truthy (u_full_name user) && negb (bool_decide (u_full_name user = u_full_name updated))
   then trie_drop (u_full_name user) else ret ()) ;;;
  index_user_in_trie updated.

(** [update_user] *)
Definition update_user (now user_id : Z) (payload : UserPatch) : US ref :=
  let! l := get_user_by_id now user_id in
  check_conflicts user_id payload l ;;;
  let! l' := repo_update user_id payload in
  sync_trie l l' ;;;
  evict_cache now user_id ;;;
  ret l'.

(** [update_user_write_through] *)
Definition update_user_write_through (now user_id : Z) (payload : UserPatch) : US ref :=
  let! l := repo_user user_id in
  check_conflicts user_id payload l ;;;
  let! l' := repo_update user_id payload in
  sync_trie l l' ;;;
  let! u := get_obj l' in
  write_cache now user_id u ;;;
  ret l'.

(** [update_user_optimistic] *)
Definition update_user_optimistic (now user_id expected_version : Z) (payload : UserPatch) : US ref :=
  let! l := get_user_by_id now user_id in
  check_conflicts user_id payload l ;;;
  let! res := on_repo (ur_update_with_optimistic_lock user_id expected_version payload) in
  let! l' := lift_result res in
  sync_trie l l' ;;;
  evict_cache now user_id ;;;
  ret l'.

(** [update_profile]: the six profile fields of the [UserUpdate] it builds, all set
    explicitly; the validators of that schema are in [UserSchemas]. *)
Definition update_profile (now user_id : Z) (username : option string) (age : option Z)
  (full_name phone_number bio company_name : option string) : US ref :=
  update_user now user_id
    (mkPatch None (Some username) (Some age) None (Some full_name) (Some phone_number) (Some bio) (Some company_name)).

(** [delete_user] *)
Definition delete_user (now user_id : Z) : US () :=
  let! l := get_user_by_id now user_id in
  let! deleted := on_repo (ur_delete user_id) in
  raise_if (negb deleted) UserNotFoundException ;;;
  let! user := get_obj l in
  trie_drop (u_username user) ;;;
  (if truthy (u_full_name user) then trie_drop (u_full_name user) else ret ()) ;;;
  evict_cache now user_id.

(** [update_nid] *)
Definition update_nid (now user_id : Z) (nid_number : string) : US ref :=
  let! _ := repo_user user_id in
  let! updated := on_repo (ur_update_nid user_id (Some nid_number)) in
  match updated with
  | None => raise UserNotFoundException
  | Some l => let! u := get_obj l in write_cache now user_id u ;;; ret l
  end.

(** [authenticate_user] *)
Definition authenticate_user (username password : string) : US (option ref) :=
  let! found := gets (fun s =>
    match ur_get_by_username (Some username) (us_repo s) with
    | Some l => Some l
    | None => ur_get_by_email (Some username) (us_repo s)
    end) in
  match found with
  | None => ret None
  | Some l =>
      let! user := get_obj l in
      if negb (verify_password password (u_password_hash user)) then ret None
      else if needs_rehash (u_password_hash user) then
        let new_hash := hash_password password in
        let! updated := on_repo (ur_update (u_id user) None None None None None None None None None (Some new_hash)) in
        match updated with
        | Some l' => ret (Some l')
        | None => on_repo (fun r => ((), ur_assign (set_password_hash new_hash) l r)) ;;; ret (Some l)
        end
      else ret (Some l)
  end.

(** [create_user_with_initial_post] inside [async with uow]; [fails] is an exception
    that creating the post or committing raises, if any. *)
Definition create_user_with_initial_post (now : Z) (payload : UserCreate) (title content : string)
  (fails : option exc) : US (ref * PostEntity) := fun s =>
  let sn_users := ur_snapshot (us_repo s) in
  let sn_posts := us_posts s in
  let body : US (ref * PostEntity) :=
    let! e := gets (fun s => ur_get_by_email (Some (uc_email payload)) (us_repo s)) in
    raise_if (match e with Some _ => true | None => false end) UserAlreadyExistsException ;;;
    let! n := gets (fun s => ur_get_by_username (Some (uc_username payload)) (us_repo s)) in
    raise_if (match n with Some _ => true | None => false end) UserAlreadyExistsException ;;;
    let! l := on_repo (ur_create now (uc_email payload) (uc_username payload) (hash_password (uc_password payload))
      (uc_age payload) (uc_role payload) (uc_full_name payload) (uc_phone_number payload) (uc_bio payload)
      (uc_company_name payload) None None) in
    let! u := get_obj l in
    let! post := (fun s => let '(p, ps) := post_create now title content (u_id u) (us_posts s) in (Ok p, set_posts ps s)) in
    match fails with
    | Some e => raise e
    | None => ret (l, post)
    end in
  match body s with
  | (Raise e, s1) => (Raise e, set_posts sn_posts (set_repo (ur_restore sn_users (us_repo s1)) s1))
  | (Ok (l, post), s1) =>
      (* committed: the snapshots are gone *)
      (let! u := get_obj l in index_user_in_trie u ;;; ret (l, post)) s1
  end.

(** [autocomplete_users]: the first payload of each identifier, at most [limit]. *)
Record suggestion : Type := mkSuggestion { sg_id : Z; sg_username : option string; sg_full_name : option string; sg_term : string }.

Fixpoint collect_payloads (limit : Z) (term : string) (ps : list trie_payload) (seen : list Z) (results : list suggestion)
  : bool * list Z * list suggestion :=
  match ps with
  | [] => (false, seen, results)
  | p :: ps' =>
      if decide (tp_id p ∈ seen) then collect_payloads limit term ps' seen results
      else
        let results' := results ++ [mkSuggestion (tp_id p) (tp_username p) (tp_full_name p) term] in
        let seen' := tp_id p :: seen in
        if limit <=? Z.of_nat (length results') then (true, seen', results')
        else collect_payloads limit term ps' seen' results'
  end.

Fixpoint collect_suggestions (limit : Z) (completions : list (string * list trie_payload)) (seen : list Z)
  (results : list suggestion) : list suggestion :=
  match completions with
  | [] => results
  | (term, ps) :: rest =>
      let '(full, seen', results') := collect_payloads limit term ps seen results in
      if full then results' else collect_suggestions limit rest seen' results'
  end.

Definition autocomplete_users (prefix : string) (limit : Z) (s : user_service) : option (list suggestion) :=
  (fun completions => collect_suggestions limit completions [] []) <$> trie_autocomplete prefix limit (us_trie s).

(** [sync_trie_from_repository] *)
Fixpoint index_all (ls : list ref) : US () :=
  match ls with
  | [] => ret ()
  | l :: ls' => let! u := get_obj l in index_user_in_trie u ;;; index_all ls'
  end.
Definition sync_trie_from_repository : US () :=
  let! users := list_users 10000 0 None None None in index_all users.

(** [seed_user_bloom_filter] *)
Fixpoint seed_ids (ids : list Z) (f : bloom) : option bloom :=
  match ids with
  | [] => Some f
  | uid :: ids' => match bloom_add sha256 (pretty uid) f with Some f' => seed_ids ids' f' | None => None end
  end.
Definition seed_user_bloom_filter (r : user_repo) (f : bloom) : option (Z * bloom) :=
  (fun f' => (Z.of_nat (length (ur_get_all_ids r)), f')) <$> seed_ids (ur_get_all_ids r) f.

(** The users with an age, in order of age. *)
Definition age_key (u : UserEntity) : Z := default 0 (u_age u).
Definition users_by_age (s : user_service) : list UserEntity :=
  stable_sort (fun a b => age_key a <=? age_key b)
    (filter (fun u => is_Some (u_age u))
       (omap (fun l => ur_heap (us_repo s) !! l) (py_slicez (ur_store (us_repo s)).*2 0 10000))).

(** [filter_users_by_age] and [find_user_pair_by_age_sum] *)
Definition filter_users_by_age (min_age max_age : Z) (s : user_service) : result (list UserEntity) :=
  if max_age <? min_age then Raise PyValueError
  else Ok (binary_search_range age_key (users_by_age s) min_age max_age).

Definition find_user_pair_by_age_sum (target_sum : Z) (s : user_service) : option (UserEntity * UserEntity) :=
  two_pointer_pair_search age_key (users_by_age s) target_sum 0.

(** ** Round trip through the cache *)

(** What comes back from the cache: nulls of email and username become text. *)
Definition cached_entity (u : UserEntity) : UserEntity :=
  set_username (Some (default "None" (u_username u))) (set_email (Some (default "None" (u_email u))) u).

(** Reading back a serialized user gives the same user, for every user whose email
    and username are set. *)
Theorem user_json_roundtrip u : is_Some (u_email u) -> is_Some (u_username u) ->
  deserialize_user (serialize_user u) = Ok u.
Proof.
  intros [em Hem] [un Hun]. unfold deserialize_user, serialize_user, json_loads. rewrite law_json.
  destruct u as [id em' un' pw act cr ver age role fn ph bio cn perms nid]. cbn in Hem, Hun. subst em' un'.
  pose proof (law_iso cr) as Hiso. destruct age, fn, ph, bio, cn, nid; vm_compute in Hiso |- *; by rewrite Hiso.
Qed.

(** ** What the service maintains *)

Abbreviation view s := (lookup_user (us_repo s)).

(** Every cached entry is the stored entity. *)
Definition coherent_redis (now : Z) (r : user_repo) (rd : RD) : Prop :=
  forall id raw, r_get now (cache_key id) rd = Some raw -> exists u, lookup_user r id = Some u /\ raw = serialize_user u.

(** All entries but those of one user. *)
Definition coherent_but (id : Z) (now : Z) (r : user_repo) (rd : RD) : Prop :=
  forall id' raw, id' <> id -> r_get now (cache_key id') rd = Some raw ->
    exists u, lookup_user r id' = Some u /\ raw = serialize_user u.

(** No object has a null email or username. *)
Definition has_names (u : UserEntity) : Prop := is_Some (u_email u) /\ is_Some (u_username u).
Definition named (r : user_repo) : Prop := forall l u, ur_heap r !! l = Some u -> has_names u.

Lemma named_view r id u : named r -> lookup_user r id = Some u -> has_names u.
Proof. intros Hn (l & _ & Hl)%lookup_user_ref. by eapply Hn. Qed.

Definition bloom_ok (r : user_repo) (b : option bloom) : Prop :=
  forall f, b = Some f -> bloom_wf f /\
    forall id, is_Some (lookup_user r id) -> bloom_contains sha256 (pretty id) f = Some true.

Record us_inv (now : Z) (s : user_service) : Prop := {
  usi_repo : ur_inv (us_repo s);
  usi_named : named (us_repo s);
  usi_bloom : bloom_ok (us_repo s) (us_bloom s);
  usi_cache c : us_cache s = Some c -> coherent_redis now (us_repo s) (ca_redis c)
}.

(** The Redis server answers every command. *)
Definition redis_up (s : user_service) : Prop := forall c, us_cache s = Some c -> healthy c.

Lemma cache_key_inj id id' : cache_key id = cache_key id' -> id = id'.
Proof. unfold cache_key. intros E%(inj (String.append CACHE_USER_PREFIX)). by apply (inj pretty) in E. Qed.

Lemma cache_key_plain id : plain_key (cache_key id).
Proof.
  unfold plain_key, cache_key, CACHE_USER_PREFIX. rewrite !not_elem_of_cons. repeat split; try done. apply not_elem_of_nil.
Qed.

(** *** Cache computations that keep a property of Redis *)

Definition keeps {A} (P : RD -> Prop) (m : M (cache RD) A) : Prop :=
  forall c, P (ca_redis c) -> P (ca_redis (m c).2) /\ ca_faults (m c).2 = ca_faults c.

Lemma keeps_ret {A} P (a : A) : keeps P (ret a).
Proof. by intros c. Qed.
Lemma keeps_lift {A} P (r : result A) : keeps P (lift_result r).
Proof. by intros c. Qed.
Lemma keeps_bind {A B} P (m : M (cache RD) A) (k : A -> M (cache RD) B) :
  keeps P m -> (forall a, keeps P (k a)) -> keeps P (bind m k).
Proof.
  intros Hm Hk c Hc. unfold bind. destruct (Hm c Hc) as [H1 H2]. destruct (m c) as [[a|e] c1]; [|done]. cbn in *.
  destruct (Hk a c1 H1) as [H3 H4]. split; [done|]. congruence.
Qed.
Lemma keeps_try {A} P (m : M (cache RD) A) h : keeps P m -> (forall e, keeps P (h e)) -> keeps P (try_except m h).
Proof.
  intros Hm Hh c Hc. unfold try_except. destruct (Hm c Hc) as [H1 H2]. destruct (m c) as [[a|e] c1]; [done|]. cbn in *.
  destruct (Hh e c1 H1) as [H3 H4]. split; [done|]. congruence.
Qed.
Lemma keeps_call {A} P (f : RD -> A * RD) : (forall rd, P rd -> P (f rd).2) -> keeps P (redis_call f).
Proof.
  intros Hf c Hc. unfold redis_call. destruct (ca_faults c (ca_calls c)); [done|]. specialize (Hf _ Hc).
  destruct (f (ca_redis c)). done.
Qed.
Lemma keeps_modify P (g : cache RD -> cache RD) : (forall c, ca_redis (g c) = ca_redis c /\ ca_faults (g c) = ca_faults c) ->
  keeps P (modify g).
Proof. intros Hg c Hc. destruct (Hg c) as [H1 H2]. cbn. by rewrite H1. Qed.

Lemma coherent_incr now r k rd : (forall id, k <> cache_key id) -> coherent_redis now r rd ->
  coherent_redis now r (r_incrby k 1 rd).2.
Proof. intros Hk Hc id raw. rewrite law_incr_get by done. apply Hc. Qed.

Lemma metrics_key_ne k id : k ∈ [METRICS_HITS_KEY; METRICS_MISSES_KEY] -> k <> cache_key id.
Proof. intros Hk ->. destruct (cache_key_plain id). set_solver. Qed.

Lemma keeps_hit now r : keeps (coherent_redis now r) record_hit.
Proof.
  apply keeps_try; [|intros; by apply keeps_modify]. apply keeps_bind; [|intros; apply keeps_ret].
  apply keeps_call. intros rd. apply coherent_incr. intros id. apply metrics_key_ne. set_solver.
Qed.
Lemma keeps_miss now r : keeps (coherent_redis now r) record_miss.
Proof.
  apply keeps_try; [|intros; by apply keeps_modify]. apply keeps_bind; [|intros; apply keeps_ret].
  apply keeps_call. intros rd. apply coherent_incr. intros id. apply metrics_key_ne. set_solver.
Qed.

Lemma with_cache_run {A} (d : A) (m : M (cache RD) A) s :
  exists r oc, with_cache d m s = (r, set_cache oc s) /\
    match us_cache s with None => r = Ok d /\ oc = None | Some c => r = (m c).1 /\ oc = Some (m c).2 end.
Proof.
  unfold with_cache. destruct (us_cache s) as [c|] eqn:E.
  - destruct (m c) as [r c'] eqn:Em. by exists r, (Some c').
  - exists (Ok d), None. split; [|done]. destruct s. cbn in *. by subst.
Qed.

(** The invariant only sees the view, the filter and the texts in Redis. *)
Lemma us_inv_set_cache now s oc : us_inv now s ->
  (forall c', oc = Some c' -> coherent_redis now (us_repo s) (ca_redis c')) -> us_inv now (set_cache oc s).
Proof. intros [H1 H2 H3 H4] Hc. constructor; cbn; auto. Qed.

Lemma read_cache_spec now id s : us_inv now s ->
  exists o oc, read_cache now id s = (Ok o, set_cache oc s) /\ us_inv now (set_cache oc s) /\
    (redis_up s -> redis_up (set_cache oc s)) /\ (forall u, o = Some u -> view s id = Some u).
Proof.
  intros Hi. unfold read_cache.
  set (m := try_except _ _). destruct (with_cache_run None m s) as (r & oc & -> & Hr).
  destruct (us_cache s) as [c|] eqn:Ec.
  2: { destruct Hr as [-> ->]. exists None, None. split; [done|]. split; [by apply us_inv_set_cache|]. done. }
  destruct Hr as [-> ->]. pose proof (usi_cache _ _ Hi c Ec) as Hc.
  assert (keeps (coherent_redis now (us_repo s)) m) as Hk.
  { apply keeps_try; [|intros; apply keeps_ret]. apply keeps_bind; [by apply keeps_call|]. intros [raw|].
    - apply keeps_bind; [apply keeps_hit|]. intros _. apply keeps_bind; [apply keeps_lift|]. intros; apply keeps_ret.
    - apply keeps_bind; [apply keeps_miss|]. intros; apply keeps_ret. }
  destruct (Hk c Hc) as [Hc' Hf'].
  assert (exists o, (m c).1 = Ok o /\ (forall u, o = Some u -> view s id = Some u)) as (o & -> & Ho).
  { unfold m. unfold try_except. unfold bind at 1, get_str, redis_call.
    destruct (ca_faults c (ca_calls c)); [by exists None|].
    destruct (r_get now (cache_key id) (ca_redis c)) as [raw|] eqn:Eg.
    - destruct (recorded METRICS_HITS_KEY (fun c => set_local_hits (ca_local_hits c + 1) c) (set_redis (ca_redis c) c)) as [c1 Hr].
      fold record_hit in Hr. rewrite (bind_ret_eq _ _ _ _ _ Hr), bind_lift_run.
      destruct (Hc id raw Eg) as (u & Hu & ->). destruct (named_view _ _ _ (usi_named _ _ Hi) Hu).
      rewrite user_json_roundtrip by done. exists (Some u). by split; [|congruence].
    - destruct (recorded METRICS_MISSES_KEY (fun c => set_local_misses (ca_local_misses c + 1) c) (set_redis (ca_redis c) c)) as [c1 Hr].
      fold record_miss in Hr. rewrite (bind_ret_eq _ _ _ _ _ Hr). by exists None. }
  exists o, (Some (m c).2). split; [done|]. split; [apply us_inv_set_cache; [done|by intros ? [= <-]]|].
  split; [|done]. intros Hup c' [= <-] n. rewrite Hf'. by apply Hup.
Qed.

Lemma write_cache_spec now id u s : us_inv now s -> view s id = Some u ->
  exists oc, write_cache now id u s = (Ok (), set_cache oc s) /\ us_inv now (set_cache oc s) /\
    (redis_up s -> redis_up (set_cache oc s)).
Proof.
  intros Hi Hu. unfold write_cache. set (m := try_except _ _).
  destruct (with_cache_run () m s) as (r & oc & -> & Hr). destruct (us_cache s) as [c|] eqn:Ec.
  2: { destruct Hr as [-> ->]. exists None. split; [done|]. split; [by apply us_inv_set_cache|]. done. }
  destruct Hr as [-> ->]. assert (keeps (coherent_redis now (us_repo s)) m) as Hk.
  { apply keeps_try; [|intros; apply keeps_ret]. apply keeps_bind; [|intros; apply keeps_ret]. apply keeps_call.
    intros rd Hc id' raw. cbn. rewrite law_get_set by (unfold CACHE_USER_TTL_SECONDS; lia). case_decide as D; [|apply Hc].
    apply cache_key_inj in D as <-. case_match; [|done]. intros [= <-]. eauto. }
  destruct (Hk c (usi_cache _ _ Hi c Ec)) as [Hc' Hf'].
  destruct (tried_ok (let! _ := set_str now (cache_key id) (serialize_user u) (Some CACHE_USER_TTL_SECONDS) in ret ()) () c)
    as ([] & c1 & Hm).
  exists (Some (m c).2). split; [unfold m at 1; by rewrite Hm|].
  split; [apply us_inv_set_cache; [done|by intros ? [= <-]]|]. intros Hup c' [= <-] n. rewrite Hf'. by apply Hup.
Qed.

(** A new object does not change what is stored. *)
Lemma inv_alloc u r : ur_inv r -> ur_inv (ur_alloc u r).2 /\ (forall id, lookup_user (ur_alloc u r).2 id = lookup_user r id) /\
  ur_heap (ur_alloc u r).2 !! (ur_alloc u r).1 = Some u.
Proof.
  intros Hi. unfold ur_alloc. cbn.
  assert (forall id, lookup_user (ur_alloc u r).2 id = lookup_user r id) as Hv.
  { intros id. unfold lookup_user. cbn. destruct (dict_get (ur_store r) id) as [l|] eqn:E; [|done].
    destruct (inv_refs _ Hi _ _ E) as (u' & Hu' & _). rewrite lookup_insert_ne; [done|]. intros <-. by rewrite heap_next in Hu'. }
  split; [|split; [exact Hv|by rewrite lookup_insert_eq]].
  constructor; cbn; try apply Hi.
  - intros id l E. destruct (inv_refs _ Hi _ _ E) as (u' & Hu' & ? & ?). exists u'. rewrite lookup_insert_ne; [done|].
    intros <-. by rewrite heap_next in Hu'.
  - intros l u'. rewrite lookup_insert. case_decide; [subst; lia|]. intros Hx%(inv_heap _ Hi). lia.
  - intros k id. rewrite (inv_email _ Hi k id). by setoid_rewrite Hv.
  - intros k id. rewrite (inv_username _ Hi k id). by setoid_rewrite Hv.
Qed.

(** A change of the repository that keeps the view keeps the invariant. *)
Lemma us_inv_same_view now s r : us_inv now s -> ur_inv r -> named r -> (forall id, lookup_user r id = view s id) ->
  us_inv now (set_repo r s).
Proof.
  intros [H1 H2 H3 H4] Hr Hn Hv. constructor; cbn; [done|done| |].
  - intros f Hf. destruct (H3 f Hf) as [Hw Hb]. split; [done|]. intros id. rewrite Hv. apply Hb.
  - intros c Hc id raw Hg. destruct (H4 c Hc id raw Hg) as (u & Hu & ->). exists u. by rewrite Hv.
Qed.

(** What a read leaves behind: perhaps a new object and cache traffic. *)
Definition read_like (now : Z) (s s' : user_service) : Prop :=
  us_inv now s' /\ (redis_up s -> redis_up s') /\ (forall id, view s' id = view s id) /\
  ur_email_index (us_repo s') = ur_email_index (us_repo s) /\
  ur_username_index (us_repo s') = ur_username_index (us_repo s) /\
  ur_store (us_repo s') = ur_store (us_repo s) /\ ur_current_id (us_repo s') = ur_current_id (us_repo s) /\
  us_trie s' = us_trie s /\ us_bloom s' = us_bloom s /\ us_bus s' = us_bus s /\ us_posts s' = us_posts s.

Lemma bloom_guard_spec now id s : us_inv now s ->
  bloom_guard id s = (Ok (), s) \/ (bloom_guard id s = (Raise UserNotFoundException, s) /\ view s id = None).
Proof.
  intros Hi. unfold bloom_guard. destruct (us_bloom s) as [f|] eqn:Ef; [|by left].
  destruct (usi_bloom _ _ Hi f Ef) as [Hwf Hb].
  unfold bloom_contains in *. rewrite test_bits_spec in * by by apply indices_ok.
  destruct (forallb _ _) eqn:E; [by left|]. right. split; [done|]. apply eq_None_not_Some. intros Hs.
  specialize (Hb id Hs). rewrite test_bits_spec in Hb by by apply indices_ok. congruence.
Qed.

Lemma get_user_spec now id s : us_inv now s ->
  exists r s', get_user_by_id now id s = (r, s') /\ read_like now s s' /\
    match view s id with
    | Some u => exists l, r = Ok l /\ ur_heap (us_repo s') !! l = Some u
    | None => r = Raise UserNotFoundException
    end.
Proof.
  intros Hi. unfold get_user_by_id.
  destruct (bloom_guard_spec now id s Hi) as [Hg|[Hg Hnone]].
  2: { rewrite (bind_raise_eq _ _ _ _ _ Hg), Hnone. do 2 eexists. split; [done|]. split; [|done]. by split. }
  rewrite (bind_ret_eq _ _ _ _ _ Hg).
  destruct (read_cache_spec now id s Hi) as (o & oc & Hr & Hi1 & Hup1 & Ho). rewrite (bind_ret_eq _ _ _ _ _ Hr).
  destruct o as [u|].
  - rewrite (Ho u eq_refl). unfold on_repo.
    destruct (inv_alloc u (us_repo s) (usi_repo _ _ Hi)) as (Ha & Hv & Hh).
    cbn [us_repo set_cache]. destruct (ur_alloc u (us_repo s)) as [l r'] eqn:Ea. do 2 eexists. split; [done|].
    split; [|by exists l]. assert (named r') as Hn'.
    { unfold ur_alloc in Ea. injection Ea as _ <-. intros l' u'. cbn. rewrite lookup_insert. case_decide.
      - intros [= <-]. eapply named_view; [apply (usi_named _ _ Hi)|by apply Ho].
      - apply (usi_named _ _ Hi). }
    split; [by apply us_inv_same_view|]. unfold ur_alloc in Ea. injection Ea as _ <-. done.
  - unfold repo_user. unfold bind at 1. cbn [us_repo set_cache]. unfold ur_get_by_id.
    destruct (dict_get (ur_store (us_repo s)) id) as [l|] eqn:El.
    + destruct (inv_refs _ (usi_repo _ _ Hi) _ _ El) as (u & Hu & _).
      assert (view s id = Some u) as Hv by (unfold lookup_user; by rewrite El). rewrite Hv.
      unfold bind at 1, get_obj. cbn [us_repo set_cache]. rewrite Hu.
      destruct (write_cache_spec now id u (set_cache oc s) Hi1 Hv) as (oc' & Hw & Hi2 & Hup2).
      rewrite (bind_ret_eq _ _ _ _ _ Hw). do 2 eexists. split; [done|]. split; [|by exists l].
      split; [done|]. split; [auto|]. done.
    + assert (view s id = None) as -> by (unfold lookup_user; by rewrite El).
      do 2 eexists. split; [done|]. split; [|done]. split; [done|]. done.
Qed.

(** With a coherent cache and a filter that covers the stored users, and however
    Redis fails, reading a user by identifier returns an object equal to the stored
    entity, raises [UserNotFoundException] exactly when no user is stored, and changes
    neither the stored users nor coherence. *)
Theorem get_user_by_id_correct now id s : us_inv now s ->
  let '(r, s') := get_user_by_id now id s in
  match view s id with
  | Some u => exists l, r = Ok l /\ ur_heap (us_repo s') !! l = Some u
  | None => r = Raise UserNotFoundException
  end /\
  (forall id', view s' id' = view s id') /\ us_inv now s'.
Proof.
  intros Hi. destruct (get_user_spec now id s Hi) as (r & s' & -> & (H1 & _ & H2 & _) & H3). done.
Qed.

(** ** Updates *)

(** The invariant, but for the cache entry of one user. *)
Record us_inv_but (id now : Z) (s : user_service) : Prop := {
  usb_repo : ur_inv (us_repo s);
  usb_named : named (us_repo s);
  usb_bloom : bloom_ok (us_repo s) (us_bloom s);
  usb_cache c : us_cache s = Some c -> coherent_but id now (us_repo s) (ca_redis c)
}.

(** Changing one stored user puts only that user's cache entry out of date. *)
Lemma us_inv_change now s id r : us_inv now s -> ur_inv r -> named r ->
  (forall id', id' <> id -> lookup_user r id' = view s id') ->
  (is_Some (lookup_user r id) -> is_Some (view s id)) ->
  us_inv_but id now (set_repo r s).
Proof.
  intros [H1 H2 H3 H4] Hr Hn Hv Hs. constructor; cbn; [done|done| |].
  - intros f Hf. destruct (H3 f Hf) as [Hw Hb]. split; [done|]. intros id' Hid. apply Hb.
    destruct (decide (id' = id)) as [->|]; [auto|]. by rewrite <-Hv.
  - intros c Hc id' raw Hne Hg. destruct (H4 c Hc id' raw Hg) as (u & Hu & ->). exists u. by rewrite Hv.
Qed.

Lemma us_inv_but_trie id now s t : us_inv_but id now s -> us_inv_but id now (set_trie t s).
Proof. intros [H1 H2 H3 H4]. by constructor. Qed.

Lemma us_inv_of_but id now s oc : us_inv_but id now s ->
  (forall c', oc = Some c' -> coherent_redis now (us_repo s) (ca_redis c')) -> us_inv now (set_cache oc s).
Proof. intros [H1 H2 H3 H4] Hc. constructor; cbn; auto. Qed.

Lemma evict_spec id now s : us_inv_but id now s -> redis_up s ->
  exists oc, evict_cache now id s = (Ok (), set_cache oc s) /\ us_inv now (set_cache oc s) /\ redis_up (set_cache oc s).
Proof.
  intros Hi Hup. unfold evict_cache. set (m := try_except _ _).
  destruct (with_cache_run () m s) as (r & oc & -> & Hr). destruct (us_cache s) as [c|] eqn:Ec.
  2: { destruct Hr as [-> ->]. exists None. split; [done|]. split; [by eapply us_inv_of_but|]. done. }
  destruct Hr as [-> ->].
  assert (m c = (Ok (), set_redis (r_del now (cache_key id) (ca_redis c)) c)) as Hm.
  { unfold m. apply try_except_ok. unfold cache_delete. rewrite decide_False by done.
    erewrite bind_ret_eq; [|apply redis_call_up, Hup, Ec]. done. }
  rewrite Hm. cbn [fst snd]. eexists. split; [done|]. split.
  - apply (us_inv_of_but id); [done|]. intros c' [= <-] id' raw. cbn. rewrite law_get_del by lia. case_decide as D; [done|].
    intros Hg. apply (usb_cache _ _ _ Hi c Ec id' raw); [|done]. intros ->. done.
  - intros c' [= <-]. by apply (Hup c).
Qed.

Lemma write_through_spec id now u s : us_inv_but id now s -> redis_up s -> view s id = Some u ->
  exists oc, write_cache now id u s = (Ok (), set_cache oc s) /\ us_inv now (set_cache oc s) /\ redis_up (set_cache oc s) /\
    (forall c, oc = Some c -> r_get now (cache_key id) (ca_redis c) = Some (serialize_user u)).
Proof.
  intros Hi Hup Hu. unfold write_cache. set (m := try_except _ _).
  destruct (with_cache_run () m s) as (r & oc & -> & Hr). destruct (us_cache s) as [c|] eqn:Ec.
  2: { destruct Hr as [-> ->]. exists None. split; [done|]. split; [by eapply us_inv_of_but|]. done. }
  destruct Hr as [-> ->].
  assert (m c = (Ok (), set_redis (r_set now (cache_key id) (serialize_user u) (300 * 1000000) (ca_redis c)) c)) as Hm.
  { unfold m. apply try_except_ok. erewrite bind_ret_eq; [|apply redis_call_up, Hup, Ec]. done. }
  rewrite Hm. cbn [fst snd]. eexists. split; [done|]. split; [|split].
  - apply (us_inv_of_but id); [done|]. intros c' [= <-] id' raw. cbn. rewrite law_get_set by lia. case_decide as D.
    + apply cache_key_inj in D as <-. case_match; [|done]. intros [= <-]. eauto.
    + intros Hg. apply (usb_cache _ _ _ Hi c Ec id' raw); [|done]. intros ->. done.
  - intros c' [= <-]. by apply (Hup c).
  - intros c' [= <-]. cbn [ca_redis set_redis]. rewrite law_get_set by lia. rewrite decide_True by done.
    by rewrite (proj2 (Z.ltb_lt now (now + 300 * 1000000))) by lia.
Qed.

(** *** No operation nulls a name *)

Lemma named_assign r l f : named r -> (forall u, has_names u -> has_names (f u)) -> named (ur_assign f l r).
Proof.
  intros Hn Hf l' u. cbn. destruct (decide (l = l')) as [->|]; [|rewrite lookup_alter_ne by done; apply Hn].
  rewrite lookup_alter_eq. destruct (ur_heap r !! l') as [u'|] eqn:E; [|done]. intros [= <-]. by eapply Hf, Hn.
Qed.

Lemma named_reindex r l em un : named r -> (forall e, em = Some e -> is_Some e) -> (forall n, un = Some n -> is_Some n) ->
  named (reindex em un l r).
Proof.
  intros Hn He Hu. unfold reindex.
  assert (named (match em with Some e => reindex_email e l r | None => r end)) as H1.
  { destruct em as [e|]; [|done]. unfold reindex_email. destruct (ur_heap r !! l) as [u|]; [|done]. case_decide; [done|].
    apply named_assign; [exact Hn|]. intros v []. split; [by apply He|done]. }
  destruct un as [n|]; [|done]. unfold reindex_username. set (r1 := match em with Some e => _ | None => _ end) in *.
  destruct (ur_heap r1 !! l) as [u|]; [|done]. case_decide; [done|].
  apply named_assign; [exact H1|]. intros v []. split; [done|by apply Hu].
Qed.

Lemma named_update r id em un age role fn ph bio cn pw : named r ->
  named (ur_update_fields id em un age role fn ph bio cn pw r).2.
Proof.
  intros Hn. unfold ur_update_fields. destruct (dict_get (ur_store r) id) as [l|]; [|done]. cbn [snd].
  apply named_assign.
  - pose proof (named_reindex r l (Some <$> em) (Some <$> un) Hn) as H1. unfold reindex in H1.
    destruct em, un; cbn in H1; apply H1; intros ? [=]; subst; eauto.
  - intros v [? ?]. destruct v, age, role, fn, ph, bio, cn, pw; done.
Qed.

Lemma named_optimistic r id v data : named r -> (forall e, p_email data = Some e -> is_Some e) ->
  (forall n, p_username data = Some n -> is_Some n) -> named (ur_update_with_optimistic_lock id v data r).2.
Proof.
  intros Hn He Hu. unfold ur_update_with_optimistic_lock. destruct (dict_get (ur_store r) id) as [l|]; [|done].
  destruct (ur_heap r !! l) as [u|]; [|done]. destruct (negb _); [done|]. cbn [snd].
  apply named_assign; [apply named_assign|].
  - by apply (named_reindex r l (p_email data) (p_username data)).
  - intros w [? ?]. destruct w, data as [? ? [] [] [] [] [] []]; done.
  - by intros w [? ?].
Qed.

(** *** Uniqueness checks *)

(** Another user holds the payload's email or username. *)
Definition taken (id : Z) (payload : UserPatch) (s : user_service) : Prop :=
  exists id' u, id' <> id /\ view s id' = Some u /\
    ((is_Some (attr (p_email payload)) /\ u_email u = attr (p_email payload)) \/
     (is_Some (attr (p_username payload)) /\ u_username u = attr (p_username payload))).

Lemma conflict_email_spec now s id k : us_inv now s ->
  conflict (ur_get_by_email k (us_repo s)) id (us_repo s) = true <->
  exists id' u, id' <> id /\ view s id' = Some u /\ u_email u = k.
Proof.
  intros Hi. pose proof (usi_repo _ _ Hi) as Hr. unfold conflict, ur_get_by_email.
  destruct (ur_email_index (us_repo s) !! k) as [id'|] eqn:E.
  - destruct (index_get _ _ _ _ _ Hr (inv_email _ Hr) E) as (l & u & E1 & E2 & E3 & E4). rewrite E1, E2, E4.
    rewrite negb_true_iff, Z.eqb_neq. split.
    + intros Hne. exists id', u. split; [done|]. split; [|done]. unfold lookup_user. by rewrite E1.
    + intros (id2 & u2 & Hne & Hv & Hu). assert (ur_email_index (us_repo s) !! k = Some id2) by (apply (inv_email _ Hr); eauto). congruence.
  - split; [done|]. intros (id2 & u2 & Hne & Hv & Hu). assert (ur_email_index (us_repo s) !! k = Some id2) by (apply (inv_email _ Hr); eauto). congruence.
Qed.

Lemma conflict_username_spec now s id k : us_inv now s ->
  conflict (ur_get_by_username k (us_repo s)) id (us_repo s) = true <->
  exists id' u, id' <> id /\ view s id' = Some u /\ u_username u = k.
Proof.
  intros Hi. pose proof (usi_repo _ _ Hi) as Hr. unfold conflict, ur_get_by_username.
  destruct (ur_username_index (us_repo s) !! k) as [id'|] eqn:E.
  - destruct (index_get _ _ _ _ _ Hr (inv_username _ Hr) E) as (l & u & E1 & E2 & E3 & E4). rewrite E1, E2, E4.
    rewrite negb_true_iff, Z.eqb_neq. split.
    + intros Hne. exists id', u. split; [done|]. split; [|done]. unfold lookup_user. by rewrite E1.
    + intros (id2 & u2 & Hne & Hv & Hu). assert (ur_username_index (us_repo s) !! k = Some id2) by (apply (inv_username _ Hr); eauto). congruence.
  - split; [done|]. intros (id2 & u2 & Hne & Hv & Hu). assert (ur_username_index (us_repo s) !! k = Some id2) by (apply (inv_username _ Hr); eauto). congruence.
Qed.

Lemma check_conflicts_spec now id payload l u s : us_inv now s -> view s id = Some u -> ur_heap (us_repo s) !! l = Some u ->
  (check_conflicts id payload l s = (Ok (), s) /\ ~ taken id payload s) \/
  (check_conflicts id payload l s = (Raise UserAlreadyExistsException, s) /\ taken id payload s).
Proof.
  intros Hi Hv Hl. pose proof (usi_repo _ _ Hi) as Hr.
  set (c1 := match attr (p_email payload) with
    | Some em => negb (bool_decide (Some em = u_email u)) && conflict (ur_get_by_email (Some em) (us_repo s)) id (us_repo s)
    | None => false end).
  set (c2 := match attr (p_username payload) with
    | Some un => negb (bool_decide (Some un = u_username u)) && conflict (ur_get_by_username (Some un) (us_repo s)) id (us_repo s)
    | None => false end).
  assert (check_conflicts id payload l s =
    (if c1 then (Raise UserAlreadyExistsException, s) else if c2 then (Raise UserAlreadyExistsException, s) else (Ok (), s))) as ->.
  { unfold check_conflicts. unfold bind at 1, get_obj. rewrite Hl, bind_gets_run, bind_raise_if_run. fold c1. destruct c1; [done|].
    rewrite bind_gets_run. fold c2. by destruct c2. }
  assert (forall em, attr (p_email payload) = Some em ->
    (negb (bool_decide (Some em = u_email u)) && conflict (ur_get_by_email (Some em) (us_repo s)) id (us_repo s) = true <->
     exists id' u', id' <> id /\ view s id' = Some u' /\ u_email u' = Some em)) as HE.
  { intros em Hem. rewrite andb_true_iff, (conflict_email_spec now) by done. split; [naive_solver|]. intros (id' & u' & H1 & H2 & H3).
    split; [|eauto]. apply negb_true_iff, bool_decide_eq_false. intros Heq.
    assert (ur_email_index (us_repo s) !! Some em = Some id') by (apply (inv_email _ Hr); eauto).
    assert (ur_email_index (us_repo s) !! Some em = Some id) by (apply (inv_email _ Hr); eauto). congruence. }
  assert (forall un, attr (p_username payload) = Some un ->
    (negb (bool_decide (Some un = u_username u)) && conflict (ur_get_by_username (Some un) (us_repo s)) id (us_repo s) = true <->
     exists id' u', id' <> id /\ view s id' = Some u' /\ u_username u' = Some un)) as HU.
  { intros un Hun. rewrite andb_true_iff, (conflict_username_spec now) by done. split; [naive_solver|]. intros (id' & u' & H1 & H2 & H3).
    split; [|eauto]. apply negb_true_iff, bool_decide_eq_false. intros Heq.
    assert (ur_username_index (us_repo s) !! Some un = Some id') by (apply (inv_username _ Hr); eauto).
    assert (ur_username_index (us_repo s) !! Some un = Some id) by (apply (inv_username _ Hr); eauto). congruence. }
  destruct c1 eqn:E1; unfold c1 in E1; clear c1.
  { right. split; [done|]. destruct (attr (p_email payload)) as [em|] eqn:Eem; [|done].
    apply (HE em eq_refl) in E1 as (id' & u' & ? & ? & ?). exists id', u'. split; [done|]. split; [done|].
    left. rewrite Eem. split; [by eexists|done]. }
  destruct c2 eqn:E2; unfold c2 in E2; clear c2.
  { right. split; [done|]. destruct (attr (p_username payload)) as [un|] eqn:Eun; [|done].
    apply (HU un eq_refl) in E2 as (id' & u' & ? & ? & ?). exists id', u'. split; [done|]. split; [done|].
    right. rewrite Eun. split; [by eexists|done]. }
  left. split; [done|]. intros (id' & u' & Hne & Hv' & [[[em Hem] Hu']|[[un Hun] Hu']]).
  - rewrite Hem in E1. apply not_true_iff_false in E1. apply E1, HE; [done|]. exists id', u'. by rewrite Hu'.
  - rewrite Hun in E2. apply not_true_iff_false in E2. apply E2, HU; [done|]. exists id', u'. by rewrite Hu'.
Qed.

Lemma not_taken_free now id payload s : us_inv now s -> ~ taken id payload s ->
  (forall e, attr (p_email payload) = Some e -> conflict (ur_get_by_email (Some e) (us_repo s)) id (us_repo s) = false) /\
  (forall n, attr (p_username payload) = Some n -> conflict (ur_get_by_username (Some n) (us_repo s)) id (us_repo s) = false).
Proof.
  intros Hi Ht. split.
  - intros e He. apply not_true_iff_false. intros (id' & u & ? & ? & ?)%(conflict_email_spec now); [|done].
    apply Ht. exists id', u. rewrite He. split; [done|]. split; [done|]. left. split; [by eexists|done].
  - intros n Hn. apply not_true_iff_false. intros (id' & u & ? & ? & ?)%(conflict_username_spec now); [|done].
    apply Ht. exists id', u. rewrite Hn. split; [done|]. split; [done|]. right. split; [by eexists|done].
Qed.

(** *** The trie block does not fail *)

Lemma index_user_run u s : has_names u -> exists t, index_user_in_trie u s = (Ok (), set_trie t s).
Proof.
  intros [_ [un Hun]]. unfold index_user_in_trie, bind, trie_put. rewrite Hun.
  destruct (u_full_name u) as [fn|]; cbn; [|by eexists]. destruct (negb _); by eexists.
Qed.

Lemma sync_trie_run l l' u u' s : ur_heap (us_repo s) !! l = Some u -> ur_heap (us_repo s) !! l' = Some u' ->
  has_names u -> has_names u' -> exists t, sync_trie l l' s = (Ok (), set_trie t s).
Proof.
  intros Hl Hl' [_ [un Hun]] Hn'. unfold sync_trie. unfold bind at 1, get_obj. rewrite Hl. unfold bind at 1. rewrite Hl'.
  assert (exists t, (if bool_decide (u_username u = u_username u') then ret () else trie_drop (u_username u)) s
    = (Ok (), set_trie t s)) as [t1 H1].
  { case_bool_decide; [exists (us_trie s); by destruct s|]. rewrite Hun. by eexists. }
  rewrite (bind_ret_eq _ _ _ _ _ H1).
  assert (exists t, (if truthy (u_full_name u) && negb (bool_decide (u_full_name u = u_full_name u'))
    then trie_drop (u_full_name u) else ret ()) (set_trie t1 s) = (Ok (), set_trie t s)) as [t2 H2].
  { destruct (u_full_name u) as [fn|]; cbn; [|by exists t1]. destruct (negb _ && negb _); [by eexists|by exists t1]. }
  rewrite (bind_ret_eq _ _ _ _ _ H2). destruct (index_user_run u' (set_trie t2 s) Hn') as [t3 ->]. by exists t3.
Qed.

(** The entity an update payload asks for. *)
Definition requested (payload : UserPatch) (u : UserEntity) : UserEntity :=
  updated_entity (attr (p_email payload)) (attr (p_username payload)) (attr (p_age payload)) (attr (p_role payload))
    (attr (p_full_name payload)) (attr (p_phone_number payload)) (attr (p_bio payload)) (attr (p_company_name payload)) None u.

Lemma repo_update_spec now id payload u s : us_inv now s -> view s id = Some u -> ~ taken id payload s ->
  exists l r', repo_update id payload s = (Ok l, set_repo r' s) /\ ur_inv r' /\ named r' /\
    dict_get (ur_store (us_repo s)) id = Some l /\ dict_get (ur_store r') id = Some l /\ ur_heap r' !! l = Some (requested payload u) /\
    (forall l0, is_Some (ur_heap (us_repo s) !! l0) -> is_Some (ur_heap r' !! l0)) /\
    (forall id', lookup_user r' id' = if decide (id = id') then Some (requested payload u) else view s id').
Proof.
  intros Hi Hu Ht. destruct (not_taken_free now id payload s Hi Ht) as [He Hn].
  unfold repo_update, on_repo, ur_update.
  pose proof (update_fields_spec (us_repo s) id u _ _ (attr (p_age payload)) (attr (p_role payload))
    (attr (p_full_name payload)) (attr (p_phone_number payload)) (attr (p_bio payload)) (attr (p_company_name payload)) None
    (usi_repo _ _ Hi) Hu He Hn) as H.
  pose proof (named_update (us_repo s) id (attr (p_email payload)) (attr (p_username payload)) (attr (p_age payload))
    (attr (p_role payload)) (attr (p_full_name payload)) (attr (p_phone_number payload)) (attr (p_bio payload))
    (attr (p_company_name payload)) None (usi_named _ _ Hi)) as Hnm.
  assert (forall l0, is_Some (ur_heap (us_repo s) !! l0) -> is_Some (ur_heap (ur_update_fields id (attr (p_email payload))
    (attr (p_username payload)) (attr (p_age payload)) (attr (p_role payload)) (attr (p_full_name payload))
    (attr (p_phone_number payload)) (attr (p_bio payload)) (attr (p_company_name payload)) None (us_repo s)).2 !! l0)) as Hh.
  { intros l0 Hl0. by apply update_fields_heap. }
  unfold bind at 1.
  destruct (ur_update_fields _ _ _ _ _ _ _ _ _ _ _) as [res r'] eqn:E. destruct H as (H1 & _ & (l & -> & Hl0 & Hl) & Hv).
  exists l, r'. split; [done|]. split; [done|]. split; [done|]. split; [done|]. split; [done|]. split; [|done].
  apply (lookup_user_at r' id); [done|]. by rewrite Hv, decide_True.
Qed.

Lemma taken_read_like now id payload s s' : read_like now s s' -> taken id payload s <-> taken id payload s'.
Proof. intros (_ & _ & Hv & _). unfold taken. by setoid_rewrite Hv. Qed.

Lemma update_user_spec now id payload s : us_inv now s -> redis_up s ->
  let '(r, s') := update_user now id payload s in
  us_inv now s' /\ redis_up s' /\
  match view s id with
  | None => r = Raise UserNotFoundException /\ forall id', view s' id' = view s id'
  | Some u =>
      (taken id payload s -> r = Raise UserAlreadyExistsException /\ forall id', view s' id' = view s id') /\
      (~ taken id payload s ->
         (exists l, r = Ok l /\ ur_heap (us_repo s') !! l = Some (requested payload u)) /\
         forall id', view s' id' = if decide (id = id') then Some (requested payload u) else view s id')
  end.
Proof.
  intros Hi Hup. unfold update_user. destruct (get_user_spec now id s Hi) as (r & s1 & Hget & Hrl & Hr).
  pose proof (taken_read_like now id payload s s1 Hrl) as Htk.
  destruct Hrl as (Hi1 & Hup1 & Hv1 & _). specialize (Hup1 Hup).
  destruct (view s id) as [u|] eqn:Hu.
  2: { subst r. rewrite (bind_raise_eq _ _ _ _ _ Hget). done. }
  destruct Hr as (l & -> & Hl). rewrite (bind_ret_eq _ _ _ _ _ Hget).
  assert (view s1 id = Some u) as Hu1 by by rewrite Hv1.
  destruct (check_conflicts_spec now id payload l u s1 Hi1 Hu1 Hl) as [[Hc Ht]|[Hc Ht]].
  2: { rewrite (bind_raise_eq _ _ _ _ _ Hc). split; [done|]. split; [done|]. split; [done|]. intros Hnt. by apply Htk in Ht. }
  rewrite (bind_ret_eq _ _ _ _ _ Hc).
  destruct (repo_update_spec now id payload u s1 Hi1 Hu1 Ht) as (l' & r' & Hup' & Hr' & Hnm & _ & Hst & Hh & Hkeep & Hv').
  rewrite (bind_ret_eq _ _ _ _ _ Hup').
  destruct (Hkeep l) as [u0 Hu0]; [by eexists|].
  destruct (sync_trie_run l l' u0 (requested payload u) (set_repo r' s1)) as [t Hsync]; [done|done|by eapply Hnm|by eapply Hnm|].
  rewrite (bind_ret_eq _ _ _ _ _ Hsync).
  destruct (evict_spec id now (set_trie t (set_repo r' s1))) as (oc & Hev & Hi2 & Hup2).
  { apply us_inv_but_trie. apply us_inv_change; [done|done|done| |].
    - intros id' Hne. by rewrite Hv', decide_False.
    - intros _. rewrite Hu1. by eexists. }
  { intros c Hc'. by apply Hup1. }
  rewrite (bind_ret_eq _ _ _ _ _ Hev). cbn [ret]. split; [done|]. split; [done|]. split.
  - intros Ht'. by apply Htk in Ht'.
  - intros _. split; [by exists l'|]. intros id'. cbn. rewrite Hv'. case_decide; [done|]. by rewrite Hv1.
Qed.

Lemma write_through_update_spec now id payload s : us_inv now s -> redis_up s ->
  let '(r, s') := update_user_write_through now id payload s in
  us_inv now s' /\ redis_up s' /\
  match view s id with
  | None => r = Raise UserNotFoundException /\ forall id', view s' id' = view s id'
  | Some u =>
      (taken id payload s -> r = Raise UserAlreadyExistsException /\ forall id', view s' id' = view s id') /\
      (~ taken id payload s ->
         (exists l, r = Ok l /\ ur_heap (us_repo s') !! l = Some (requested payload u)) /\
         (forall id', view s' id' = if decide (id = id') then Some (requested payload u) else view s id') /\
         (forall c, us_cache s' = Some c -> r_get now (cache_key id) (ca_redis c) = Some (serialize_user (requested payload u))))
  end.
Proof.
  intros Hi Hup. unfold update_user_write_through, repo_user. unfold bind at 1, ur_get_by_id.
  destruct (view s id) as [u|] eqn:Hu.
  2: { rewrite (proj2 (dict_get_lookup _ _ (usi_repo _ _ Hi)) Hu). done. }
  destruct (lookup_user_ref _ _ _ Hu) as (l & El & Hl). rewrite El.
  destruct (check_conflicts_spec now id payload l u s Hi Hu Hl) as [[Hc Ht]|[Hc Ht]].
  2: { rewrite (bind_raise_eq _ _ _ _ _ Hc). done. }
  rewrite (bind_ret_eq _ _ _ _ _ Hc).
  destruct (repo_update_spec now id payload u s Hi Hu Ht) as (l' & r' & Hup' & Hr' & Hnm & _ & Hst & Hh & Hkeep & Hv').
  rewrite (bind_ret_eq _ _ _ _ _ Hup').
  destruct (Hkeep l) as [u0 Hu0]; [by eexists|].
  destruct (sync_trie_run l l' u0 (requested payload u) (set_repo r' s)) as [t Hsync]; [done|done|by eapply Hnm|by eapply Hnm|].
  rewrite (bind_ret_eq _ _ _ _ _ Hsync). unfold bind at 1, get_obj. cbn [us_repo set_trie set_repo]. rewrite Hh.
  destruct (write_through_spec id now (requested payload u) (set_trie t (set_repo r' s))) as (oc & Hw & Hi2 & Hup2 & Hg).
  { apply us_inv_but_trie. apply us_inv_change; [done|done|done| |].
    - intros id' Hne. by rewrite Hv', decide_False.
    - intros _. rewrite Hu. by eexists. }
  { intros c Hc'. by apply Hup. }
  { cbn. by rewrite Hv', decide_True. }
  rewrite (bind_ret_eq _ _ _ _ _ Hw). cbn [ret]. split; [done|]. split; [done|]. split; [done|]. intros _.
  split; [by exists l'|]. split; [intros id'; cbn; by rewrite Hv'|]. intros c Hc'. by apply Hg.
Qed.

(** With Redis up, updating a user raises [UserNotFoundException] if it does not
    exist and [UserAlreadyExistsException] if another user holds the new email or
    username, in both cases changing no stored user; otherwise the stored entity has
    exactly the given fields replaced and every other user is untouched.  In every
    case the cache stays coherent. *)
Theorem update_user_correct now id payload s : us_inv now s -> redis_up s ->
  let '(r, s') := update_user now id payload s in
  us_inv now s' /\ redis_up s' /\
  match view s id with
  | None => r = Raise UserNotFoundException /\ forall id', view s' id' = view s id'
  | Some u =>
      (taken id payload s -> r = Raise UserAlreadyExistsException /\ forall id', view s' id' = view s id') /\
      (~ taken id payload s ->
         (exists l, r = Ok l /\ ur_heap (us_repo s') !! l = Some (requested payload u)) /\
         forall id', view s' id' = if decide (id = id') then Some (requested payload u) else view s id')
  end.
Proof. apply update_user_spec. Qed.

(** The write-through update has the same outcomes, and when it succeeds and a
    cache is configured the cache holds the new entity: the next read is served the
    updated user from the cache. *)
Theorem update_user_write_through_correct now id payload s : us_inv now s -> redis_up s ->
  let '(r, s') := update_user_write_through now id payload s in
  us_inv now s' /\ redis_up s' /\
  match view s id with
  | None => r = Raise UserNotFoundException /\ forall id', view s' id' = view s id'
  | Some u =>
      (taken id payload s -> r = Raise UserAlreadyExistsException /\ forall id', view s' id' = view s id') /\
      (~ taken id payload s ->
         (exists l, r = Ok l /\ ur_heap (us_repo s') !! l = Some (requested payload u)) /\
         (forall id', view s' id' = if decide (id = id') then Some (requested payload u) else view s id') /\
         (forall c, us_cache s' = Some c -> r_get now (cache_key id) (ca_redis c) = Some (serialize_user (requested payload u))))
  end.
Proof. apply write_through_update_spec. Qed.

Lemma update_user_inv now id payload s : us_inv now s -> redis_up s ->
  us_inv now (update_user now id payload s).2 /\ redis_up (update_user now id payload s).2.
Proof.
  intros Hi Hup. pose proof (update_user_spec now id payload s Hi Hup) as H. destruct (update_user now id payload s).
  by destruct H as (H1 & H2 & _).
Qed.
Lemma write_through_inv now id payload s : us_inv now s -> redis_up s ->
  us_inv now (update_user_write_through now id payload s).2 /\ redis_up (update_user_write_through now id payload s).2.
Proof.
  intros Hi Hup. pose proof (write_through_update_spec now id payload s Hi Hup) as H. destruct (update_user_write_through now id payload s).
  by destruct H as (H1 & H2 & _).
Qed.

(** ** The other writers *)

Lemma us_inv_set_trie now s t : us_inv now s -> us_inv now (set_trie t s).
Proof. intros [H1 H2 H3 H4]. by constructor. Qed.
Lemma us_inv_set_bus now s b : us_inv now s -> us_inv now (set_bus b s).
Proof. intros [H1 H2 H3 H4]. by constructor. Qed.

(** A user with a fresh identifier is not in the cache yet. *)
Lemma us_inv_create now s id u r : us_inv now s -> ur_inv r -> named r -> view s id = None ->
  (forall id', lookup_user r id' = if decide (id = id') then Some u else view s id') ->
  forall b, bloom_ok r b -> us_inv now (set_bloom b (set_repo r s)).
Proof.
  intros [H1 H2 H3 H4] Hr Hn Hnone Hv b Hb. constructor; cbn; [done|done|done|].
  intros c Hc id' raw Hg. destruct (H4 c Hc id' raw Hg) as (u' & Hu' & ->). exists u'. rewrite Hv, decide_False; [done|]. congruence.
Qed.

Lemma named_create now em un pw age role fn ph bio cn perms nid r : named r ->
  named (ur_create now em un pw age role fn ph bio cn perms nid r).2.
Proof.
  intros Hn l u. cbn. rewrite lookup_insert. case_decide; [|apply Hn]. intros [= <-]. split; by eexists.
Qed.

(** The account exists already. *)
Definition registered (payload : UserCreate) (s : user_service) : Prop :=
  exists id u, view s id = Some u /\ (u_email u = Some (uc_email payload) \/ u_username u = Some (uc_username payload)).

Lemma get_by_email_view r k : ur_inv r ->
  match ur_get_by_email k r with
  | Some _ => exists id u, lookup_user r id = Some u /\ u_email u = k
  | None => ~ exists id u, lookup_user r id = Some u /\ u_email u = k
  end.
Proof.
  intros Hr. unfold ur_get_by_email. destruct (ur_email_index r !! k) as [id|] eqn:E.
  - destruct (index_get _ _ _ _ _ Hr (inv_email _ Hr) E) as (l & u & -> & _). apply (inv_email _ Hr) in E as (u' & ? & ?). eauto.
  - intros (id & u & Hu & Hk). assert (ur_email_index r !! k = Some id) by (apply (inv_email _ Hr); eauto). congruence.
Qed.

Lemma get_by_username_view r k : ur_inv r ->
  match ur_get_by_username k r with
  | Some _ => exists id u, lookup_user r id = Some u /\ u_username u = k
  | None => ~ exists id u, lookup_user r id = Some u /\ u_username u = k
  end.
Proof.
  intros Hr. unfold ur_get_by_username. destruct (ur_username_index r !! k) as [id|] eqn:E.
  - destruct (index_get _ _ _ _ _ Hr (inv_username _ Hr) E) as (l & u & -> & _). apply (inv_username _ Hr) in E as (u' & ? & ?). eauto.
  - intros (id & u & Hu & Hk). assert (ur_username_index r !! k = Some id) by (apply (inv_username _ Hr); eauto). congruence.
Qed.

Definition registered_entity (now id : Z) (payload : UserCreate) (perms : option Z) : UserEntity :=
  created_entity id now (uc_email payload) (uc_username payload) (hash_password (uc_password payload)) (uc_age payload)
    (uc_role payload) (uc_full_name payload) (uc_phone_number payload) (uc_bio payload) (uc_company_name payload) perms None.

(** The creation step that registration and the unit of work share. *)
Lemma create_run now payload perms s : us_inv now s -> ~ registered payload s ->
  let id := ur_current_id (us_repo s) + 1 in
  exists l r', on_repo (ur_create now (uc_email payload) (uc_username payload) (hash_password (uc_password payload))
    (uc_age payload) (uc_role payload) (uc_full_name payload) (uc_phone_number payload) (uc_bio payload)
    (uc_company_name payload) perms None) s = (Ok l, set_repo r' s) /\ ur_inv r' /\ named r' /\
    view s id = None /\ dict_get (ur_store r') id = Some l /\ ur_heap r' !! l = Some (registered_entity now id payload perms) /\
    (forall id', lookup_user r' id' = if decide (id = id') then Some (registered_entity now id payload perms) else view s id') /\
    r' = (ur_create now (uc_email payload) (uc_username payload) (hash_password (uc_password payload))
      (uc_age payload) (uc_role payload) (uc_full_name payload) (uc_phone_number payload) (uc_bio payload)
      (uc_company_name payload) perms None (us_repo s)).2.
Proof.
  intros Hi Hreg id. pose proof (usi_repo _ _ Hi) as Hr. unfold on_repo.
  pose proof (create_spec (us_repo s) now (uc_email payload) (uc_username payload) (hash_password (uc_password payload))
    (uc_age payload) (uc_role payload) (uc_full_name payload) (uc_phone_number payload) (uc_bio payload)
    (uc_company_name payload) perms None Hr) as H.
  pose proof (named_create now (uc_email payload) (uc_username payload) (hash_password (uc_password payload))
    (uc_age payload) (uc_role payload) (uc_full_name payload) (uc_phone_number payload) (uc_bio payload)
    (uc_company_name payload) perms None _ (usi_named _ _ Hi)) as Hn.
  destruct (ur_create _ _ _ _ _ _ _ _ _ _ _ _ _) as [l r'] eqn:E.
  destruct H as (H1 & H2 & H3 & H4 & H5).
  { pose proof (get_by_email_view _ (Some (uc_email payload)) Hr) as Hx. destruct (ur_get_by_email _ _); [|done].
    destruct Hx as (i & u & Hv & He). destruct Hreg. exists i, u. auto. }
  { pose proof (get_by_username_view _ (Some (uc_username payload)) Hr) as Hx. destruct (ur_get_by_username _ _); [|done].
    destruct Hx as (i & u & Hv & He). destruct Hreg. exists i, u. auto. }
  exists l, r'. split; [done|]. split; [done|]. split; [done|]. split; [done|]. split; [done|].
  split; [|split; [|done]].
  - apply (lookup_user_at r' id); [done|]. by rewrite H5, decide_True.
  - exact H5.
Qed.

(** The two duplicate checks. *)
Lemma duplicate_checks {A} now payload s (k : US A) : us_inv now s ->
  (registered payload s /\
   (let! e := gets (fun s => ur_get_by_email (Some (uc_email payload)) (us_repo s)) in
    raise_if (match e with Some _ => true | None => false end) UserAlreadyExistsException ;;;
    let! n := gets (fun s => ur_get_by_username (Some (uc_username payload)) (us_repo s)) in
    raise_if (match n with Some _ => true | None => false end) UserAlreadyExistsException ;;; k) s
   = (Raise UserAlreadyExistsException, s)) \/
  (~ registered payload s /\
   (let! e := gets (fun s => ur_get_by_email (Some (uc_email payload)) (us_repo s)) in
    raise_if (match e with Some _ => true | None => false end) UserAlreadyExistsException ;;;
    let! n := gets (fun s => ur_get_by_username (Some (uc_username payload)) (us_repo s)) in
    raise_if (match n with Some _ => true | None => false end) UserAlreadyExistsException ;;; k) s = k s).
Proof.
  intros Hi. pose proof (usi_repo _ _ Hi) as Hr. rewrite !bind_gets_run, !bind_raise_if_run, !bind_gets_run, !bind_raise_if_run.
  pose proof (get_by_email_view _ (Some (uc_email payload)) Hr) as He.
  pose proof (get_by_username_view _ (Some (uc_username payload)) Hr) as Hn.
  destruct (ur_get_by_email (Some (uc_email payload)) (us_repo s)) as [l|] eqn:E1.
  { left. split; [|done]. destruct He as (id & u & ? & ?). exists id, u. auto. }
  destruct (ur_get_by_username (Some (uc_username payload)) (us_repo s)) as [l|] eqn:E2.
  { left. split; [|done]. destruct Hn as (id & u & ? & ?). exists id, u. auto. }
  right. split; [|done]. intros (id & u & H1 & [H2|H2]); [apply He|apply Hn]; eauto.
Qed.

(** The permissions registration assigns: all for an admin, the plain ones otherwise. *)
Definition registration_permissions (role : string) : Z := if bool_decide (role = "admin") then 63 else 3.

Lemma register_user_spec now event_id payload s : us_inv now s ->
  let '(r, s') := register_user now event_id payload s in
  us_inv now s' /\ us_cache s' = us_cache s /\
  ((registered payload s /\ r = Raise UserAlreadyExistsException /\ s' = s) \/
   (~ registered payload s /\
    let id := ur_current_id (us_repo s) + 1 in
    let u := registered_entity now id payload (Some (registration_permissions (uc_role payload))) in
    view s id = None /\
    (exists l, r = Ok l /\ ur_heap (us_repo s') !! l = Some u) /\
    (forall id', view s' id' = if decide (id = id') then Some u else view s id') /\
    (forall f, us_bloom s' = Some f -> bloom_contains sha256 (pretty id) f = Some true) /\
    eb_published_count (us_bus s').1 = eb_published_count (us_bus s).1 + 1)).
Proof.
  intros Hi. unfold register_user.
  set (perms := if bool_decide (uc_role payload = "admin") then 63 else 3).
  match goal with |- context [raise_if (match _ with Some _ => true | None => false end) UserAlreadyExistsException ;;;
    bind (on_repo ?f) ?k0] => set (k := bind (on_repo f) k0) end.
  destruct (duplicate_checks now payload s k Hi) as [[Hreg ->]|[Hreg ->]].
  { split; [done|]. split; [done|]. by left. }
  destruct (create_run now payload (Some perms) s Hi Hreg) as (l & r' & Hc & Hr' & Hn' & Hnone & Hst & Hh & Hv & _).
  set (id := ur_current_id (us_repo s) + 1) in *. set (u := registered_entity now id payload (Some perms)) in *.
  unfold k. rewrite (bind_ret_eq _ _ _ _ _ Hc). unfold bind at 1, get_obj. cbn [us_repo set_repo]. rewrite Hh.
  destruct (index_user_run u (set_repo r' s)) as [t Ht]; [by eapply Hn'|]. rewrite (bind_ret_eq _ _ _ _ _ Ht).
  change (u_id u) with id.
  assert (exists b, bloom_insert id (set_trie t (set_repo r' s)) = (Ok (), set_trie t (set_bloom b (set_repo r' s))) /\
    bloom_ok r' b /\ (forall f, b = Some f -> bloom_contains sha256 (pretty id) f = Some true)) as (b & Hb & Hbok & Hbc).
  { unfold bloom_insert. cbn [us_bloom set_trie set_repo]. destruct (us_bloom s) as [f|] eqn:Ef.
    - destruct (usi_bloom _ _ Hi f Ef) as [Hwf Hcov].
      destruct (bloom_add_spec sha256 (pretty id) f Hwf) as (f' & -> & Hwf' & _ & _ & _ & Hin & Hmono).
      exists (Some f'). split; [done|]. split; [|by intros ? [= <-]]. intros f2 [= <-]. split; [done|]. intros id' Hid'.
      rewrite Hv in Hid'. case_decide; [by subst id'|]. by apply Hmono, Hcov.
    - exists None. split; [|done]. destruct s. cbn in *. by subst. }
  rewrite (bind_ret_eq _ _ _ _ _ Hb).
  set (s2 := set_trie t (set_bloom b (set_repo r' s))).
  assert (us_inv now s2) as Hi2 by (apply us_inv_set_trie; by eapply us_inv_create).
  unfold bind at 1, on_bus_state. change (us_bus s2) with (us_bus s).
  destruct (us_bus s) as [eb sk] eqn:Eb.
  destruct (publish_ok run_handler schedule (make_event event_id now "" (UserRegistered id (uc_email payload) (uc_username payload))) eb sk)
    as (eb' & sk' & -> & Hcount & _).
  cbn [ret]. split; [by apply us_inv_set_bus|]. split; [done|]. right. split; [done|].
  split; [done|]. split; [exists l; split; [done|exact Hh]|]. split; [exact Hv|]. split; [exact Hbc|]. done.
Qed.

(** Registration raises [UserAlreadyExistsException] and changes nothing when the
    email or the username belongs to a stored user; otherwise it stores one new user
    under a fresh identifier with all permissions exactly for role admin, leaves every
    other user alone, makes the identifier pass the Bloom filter and publishes one
    event; no failing event handler makes it fail. *)
Theorem register_user_correct now event_id payload s : us_inv now s ->
  let '(r, s') := register_user now event_id payload s in
  us_inv now s' /\ us_cache s' = us_cache s /\
  ((registered payload s /\ r = Raise UserAlreadyExistsException /\ s' = s) \/
   (~ registered payload s /\
    let id := ur_current_id (us_repo s) + 1 in
    let u := registered_entity now id payload (Some (registration_permissions (uc_role payload))) in
    view s id = None /\
    (exists l, r = Ok l /\ ur_heap (us_repo s') !! l = Some u) /\
    (forall id', view s' id' = if decide (id = id') then Some u else view s id') /\
    (forall f, us_bloom s' = Some f -> bloom_contains sha256 (pretty id) f = Some true) /\
    eb_published_count (us_bus s').1 = eb_published_count (us_bus s).1 + 1)).
Proof. apply register_user_spec. Qed.

Lemma register_user_inv now event_id payload s : us_inv now s ->
  let '(_, s') := register_user now event_id payload s in us_inv now s' /\ us_cache s' = us_cache s.
Proof.
  intros Hi. pose proof (register_user_spec now event_id payload s Hi) as H. destruct (register_user now event_id payload s).
  by destruct H as (H1 & H2 & _).
Qed.

Lemma named_nid r id nid : named r -> named (ur_update_nid id nid r).2.
Proof.
  intros Hn. unfold ur_update_nid. destruct (dict_get (ur_store r) id); [|done]. cbn [snd].
  apply named_assign; [apply named_assign; [done|]|]; by intros ? [].
Qed.
Lemma named_permissions r id p : named r -> named (ur_update_permissions id p r).2.
Proof.
  intros Hn. unfold ur_update_permissions. destruct (dict_get (ur_store r) id) as [l|]; [|done].
  destruct (ur_heap r !! l) as [u|] eqn:E; [|done]. cbn. intros l' u'. cbn. rewrite lookup_insert. case_decide; [|apply Hn].
  intros [= <-]. by destruct (Hn l u E).
Qed.
Lemma named_delete r id : named r -> named (ur_delete id r).2.
Proof.
  intros Hn. unfold ur_delete. destruct (dict_get (ur_store r) id) as [l|]; [|done]. by destruct (ur_heap r !! l).
Qed.

(** The permissions update of the service. *)
Lemma update_permissions_inv now id p s : us_inv now s -> redis_up s ->
  let '(r, s') := update_user_permissions now id p s in
  us_inv now s' /\ redis_up s' /\
  match view s id with
  | None => r = Raise UserNotFoundException /\ forall id', view s' id' = view s id'
  | Some u => is_ok r = true /\
      forall id', view s' id' = if decide (id = id') then Some (with_permissions p u) else view s id'
  end.
Proof.
  intros Hi Hup. unfold update_user_permissions. destruct (get_user_spec now id s Hi) as (r & s1 & Hget & Hrl & Hr).
  destruct Hrl as (Hi1 & Hup1 & Hv1 & _). specialize (Hup1 Hup). destruct (view s id) as [u|] eqn:Hu.
  2: { subst r. rewrite (bind_raise_eq _ _ _ _ _ Hget). done. }
  destruct Hr as (l & -> & Hl). rewrite (bind_ret_eq _ _ _ _ _ Hget).
  assert (view s1 id = Some u) as Hu1 by by rewrite Hv1.
  pose proof (permissions_spec (us_repo s1) id u p (usi_repo _ _ Hi1) Hu1) as H.
  pose proof (named_permissions (us_repo s1) id p (usi_named _ _ Hi1)) as Hn.
  unfold bind at 1, on_repo. destruct (ur_update_permissions id p (us_repo s1)) as [res r'].
  destruct H as (Hr' & _ & (l' & -> & _ & _) & Hv').
  destruct (evict_spec id now (set_repo r' s1)) as (oc & Hev & Hi2 & Hup2); [|done|].
  { apply us_inv_change; [done|done|done| |].
    - intros id' Hne. by rewrite Hv', decide_False.
    - intros _. rewrite Hu1. by eexists. }
  rewrite (bind_ret_eq _ _ _ _ _ Hev). cbn [ret]. split; [done|]. split; [done|]. split; [done|].
  intros id'. cbn. rewrite Hv'. case_decide; [done|]. by rewrite Hv1.
Qed.

Lemma update_nid_inv now id nid s : us_inv now s -> redis_up s ->
  let '(r, s') := update_nid now id nid s in
  us_inv now s' /\ redis_up s' /\
  match view s id with
  | None => r = Raise UserNotFoundException /\ forall id', view s' id' = view s id'
  | Some u => is_ok r = true /\
      forall id', view s' id' = if decide (id = id') then Some (set_version (u_version u + 1) (set_nid_number (Some nid) u)) else view s id'
  end.
Proof.
  intros Hi Hup. unfold update_nid, repo_user. unfold bind at 1, ur_get_by_id. destruct (view s id) as [u|] eqn:Hu.
  2: { rewrite (proj2 (dict_get_lookup _ _ (usi_repo _ _ Hi)) Hu). done. }
  destruct (lookup_user_ref _ _ _ Hu) as (l & El & Hl). rewrite El.
  pose proof (nid_spec (us_repo s) id u (Some nid) (usi_repo _ _ Hi) Hu) as H.
  pose proof (named_nid (us_repo s) id (Some nid) (usi_named _ _ Hi)) as Hn.
  unfold bind at 1, on_repo. destruct (ur_update_nid id (Some nid) (us_repo s)) as [res r'].
  destruct H as (Hr' & _ & (l' & -> & Hst) & Hv').
  assert (lookup_user r' id = Some (set_version (u_version u + 1) (set_nid_number (Some nid) u))) as Hu' by by rewrite Hv', decide_True.
  unfold bind at 1, get_obj. cbn [us_repo set_repo]. rewrite (lookup_user_at r' id l' _ Hst Hu').
  destruct (write_through_spec id now (set_version (u_version u + 1) (set_nid_number (Some nid) u)) (set_repo r' s))
    as (oc & Hw & Hi2 & Hup2 & _); [|done|done|].
  { apply us_inv_change; [done|done|done| |].
    - intros id' Hne. by rewrite Hv', decide_False.
    - intros _. rewrite Hu. by eexists. }
  rewrite (bind_ret_eq _ _ _ _ _ Hw). cbn [ret]. split; [done|]. split; [done|]. split; [done|].
  intros id'. cbn. by rewrite Hv'.
Qed.

Lemma delete_user_inv now id s : us_inv now s -> redis_up s ->
  let '(r, s') := delete_user now id s in
  us_inv now s' /\ redis_up s' /\
  match view s id with
  | None => r = Raise UserNotFoundException /\ forall id', view s' id' = view s id'
  | Some u => r = Ok () /\ forall id', view s' id' = if decide (id = id') then None else view s id'
  end.
Proof.
  intros Hi Hup. unfold delete_user. destruct (get_user_spec now id s Hi) as (r & s1 & Hget & Hrl & Hr).
  destruct Hrl as (Hi1 & Hup1 & Hv1 & _). specialize (Hup1 Hup). destruct (view s id) as [u|] eqn:Hu.
  2: { subst r. rewrite (bind_raise_eq _ _ _ _ _ Hget). done. }
  destruct Hr as (l & -> & Hl). rewrite (bind_ret_eq _ _ _ _ _ Hget).
  assert (view s1 id = Some u) as Hu1 by by rewrite Hv1.
  pose proof (delete_spec (us_repo s1) id u (usi_repo _ _ Hi1) Hu1) as H.
  pose proof (named_delete (us_repo s1) id (usi_named _ _ Hi1)) as Hn.
  assert (ur_heap (ur_delete id (us_repo s1)).2 = ur_heap (us_repo s1)) as Hheap.
  { unfold ur_delete. destruct (dict_get _ id) as [l0|]; [|done]. by destruct (ur_heap _ !! l0). }
  unfold bind at 1, on_repo. destruct (ur_delete id (us_repo s1)) as [res r'].
  destruct H as (-> & Hr' & _ & Hv'). rewrite bind_raise_if_run. cbn [negb]. unfold bind at 1, get_obj.
  cbn [us_repo set_repo snd] in *. rewrite Hheap, Hl. destruct (Hn l u) as [_ [un Hun]]; [by rewrite Hheap|].
  unfold bind at 1, trie_drop at 1. rewrite Hun.
  assert (exists t, (if truthy (u_full_name u) then trie_drop (u_full_name u) else ret ())
    (set_trie (trie_delete un None (us_trie (set_repo r' s1))).2 (set_repo r' s1)) = (Ok (), set_trie t (set_repo r' s1))) as [t Ht].
  { destruct (u_full_name u) as [fn|]; cbn; [|by eexists]. destruct (negb _); by eexists. }
  rewrite (bind_ret_eq _ _ _ _ _ Ht).
  destruct (evict_spec id now (set_trie t (set_repo r' s1))) as (oc & Hev & Hi2 & Hup2); [|done|].
  { apply us_inv_but_trie. apply us_inv_change; [done|done|done| |].
    - intros id' Hne. by rewrite Hv', decide_False.
    - intros _. rewrite Hu1. by eexists. }
  rewrite Hev. split; [done|]. split; [done|]. split; [done|].
  intros id'. cbn. rewrite Hv'. case_decide; [done|]. by rewrite Hv1.
Qed.

Lemma update_optimistic_inv now id v payload s : us_inv now s -> redis_up s ->
  (forall e, p_email payload = Some e -> is_Some e) -> (forall n, p_username payload = Some n -> is_Some n) ->
  let '(r, s') := update_user_optimistic now id v payload s in
  us_inv now s' /\ redis_up s' /\
  match view s id with
  | None => r = Raise UserNotFoundException /\ forall id', view s' id' = view s id'
  | Some u =>
      (taken id payload s -> r = Raise UserAlreadyExistsException /\ forall id', view s' id' = view s id') /\
      (~ taken id payload s -> u_version u <> v -> r = Raise OptimisticLockException /\ forall id', view s' id' = view s id') /\
      (~ taken id payload s -> u_version u = v -> is_ok r = true /\
         forall id', view s' id' = if decide (id = id') then Some (patched_entity payload u) else view s id')
  end.
Proof.
  intros Hi Hup Hne Hnu. unfold update_user_optimistic. destruct (get_user_spec now id s Hi) as (r & s1 & Hget & Hrl & Hr).
  pose proof (taken_read_like now id payload s s1 Hrl) as Htk.
  destruct Hrl as (Hi1 & Hup1 & Hv1 & _). specialize (Hup1 Hup). destruct (view s id) as [u|] eqn:Hu.
  2: { subst r. rewrite (bind_raise_eq _ _ _ _ _ Hget). done. }
  destruct Hr as (l & -> & Hl). rewrite (bind_ret_eq _ _ _ _ _ Hget).
  assert (view s1 id = Some u) as Hu1 by by rewrite Hv1.
  destruct (check_conflicts_spec now id payload l u s1 Hi1 Hu1 Hl) as [[Hc Ht]|[Hc Ht]].
  2: { rewrite (bind_raise_eq _ _ _ _ _ Hc). apply Htk in Ht. split; [done|]. split; [done|]. split; [done|]. split; done. }
  rewrite (bind_ret_eq _ _ _ _ _ Hc). assert (~ taken id payload s) as Ht0 by (by rewrite Htk).
  unfold bind at 1, on_repo. destruct (decide (u_version u = v)) as [<-|Hver].
  2: { rewrite (optimistic_stale _ _ u) by done. rewrite bind_lift_run. split; [|split; [exact Hup1|]].
       { apply us_inv_same_view; [done|apply (usi_repo _ _ Hi1)|apply (usi_named _ _ Hi1)|done]. }
       split; [done|]. split; [done|]. done. }
  destruct (not_taken_free now id payload s1 Hi1 Ht) as [Hfe Hfn].
  pose proof (optimistic_spec (us_repo s1) id u payload (usi_repo _ _ Hi1) Hu1) as H.
  pose proof (named_optimistic (us_repo s1) id (u_version u) payload (usi_named _ _ Hi1) Hne Hnu) as Hn.
  pose proof (fun l0 => optimistic_heap (us_repo s1) id (u_version u) payload l0) as Hkeep.
  destruct (ur_update_with_optimistic_lock id (u_version u) payload (us_repo s1)) as [res r'].
  destruct H as (Hr' & _ & (l' & -> & Hst) & Hv').
  { intros e He. apply email_no_conflict; [apply (usi_repo _ _ Hi1)|]. destruct (Hne e He) as [e' ->]. apply Hfe. unfold attr. by rewrite He. }
  { intros n He. apply username_no_conflict; [apply (usi_repo _ _ Hi1)|]. destruct (Hnu n He) as [n' ->]. apply Hfn. unfold attr. by rewrite He. }
  rewrite bind_lift_run. cbn [snd] in *.
  destruct (Hkeep l) as [u0 Hu0]; [by eexists|].
  destruct (Hkeep l') as [u1 Hu1']; [destruct (inv_refs _ (usi_repo _ _ Hi1) _ _ Hst) as (? & ? & _); by eexists|].
  destruct (sync_trie_run l l' u0 u1 (set_repo r' s1)) as [t Hsync]; [done|done|by eapply Hn|by eapply Hn|].
  rewrite (bind_ret_eq _ _ _ _ _ Hsync).
  destruct (evict_spec id now (set_trie t (set_repo r' s1))) as (oc & Hev & Hi2 & Hup2); [|done|].
  { apply us_inv_but_trie. apply us_inv_change; [done|done|done| |].
    - intros id' Hn'. by rewrite Hv', decide_False.
    - intros _. rewrite Hu1. by eexists. }
  rewrite (bind_ret_eq _ _ _ _ _ Hev). cbn [ret]. split; [done|]. split; [done|]. split; [done|]. split; [done|].
  intros _ _. split; [done|]. intros id'. cbn. rewrite Hv'. case_decide; [done|]. by rewrite Hv1.
Qed.

(** Creating a user with a first post is atomic: when the account exists or the
    post or the commit fails, users, indexes and posts are as before; otherwise both
    exist and the post belongs to the user.  But the Bloom filter is not told of the
    new user, so reading it by identifier fails unless the filter happens to let its
    identifier through. *)
Theorem initial_post_atomic now payload title content fails s : us_inv now s ->
  let '(r, s') := create_user_with_initial_post now payload title content fails s in
  let id := ur_current_id (us_repo s) + 1 in
  (registered payload s \/ is_Some fails ->
     is_ok r = false /\ (forall id', view s' id' = view s id') /\ us_posts s' = us_posts s /\
     ur_snapshot (us_repo s') = ur_snapshot (us_repo s)) /\
  (~ registered payload s -> fails = None ->
     view s' id = Some (registered_entity now id payload None) /\
     (exists l post, r = Ok (l, post) /\ dict_get (ur_store (us_repo s')) id = Some l /\ po_user_id post = id /\
        post_get_by_id (po_id post) (us_posts s') = Some post) /\
     (forall f now', us_bloom s = Some f -> bloom_contains sha256 (pretty id) f = Some false ->
        (get_user_by_id now' id s').1 = Raise UserNotFoundException)).
Proof.
  intros Hi. unfold create_user_with_initial_post. cbn zeta.
  match goal with |- context [raise_if (match _ with Some _ => true | None => false end) UserAlreadyExistsException ;;;
    bind (on_repo ?f) ?k0] => set (k := bind (on_repo f) k0) end.
  destruct (duplicate_checks now payload s k Hi) as [[Hreg ->]|[Hreg ->]].
  { split; [|done]. intros _. split; [done|]. split; [|done]. intros id'. by apply restore_view. }
  destruct (create_run now payload None s Hi Hreg) as (l & r' & Hc & Hr' & Hn' & Hnone & Hst & Hh & Hv & Heq).
  set (id := ur_current_id (us_repo s) + 1) in *. set (u := registered_entity now id payload None) in *.
  unfold k. rewrite (bind_ret_eq _ _ _ _ _ Hc). unfold bind at 1, get_obj. cbn [us_repo set_repo]. rewrite Hh.
  unfold bind at 1. cbn [post_create us_posts set_repo]. destruct fails as [e|].
  - cbn. split; [|done]. intros _. split; [done|]. split; [|split; [by destruct (us_posts s)|done]].
    intros id'. apply restore_view. intros i l0 E. cbn. rewrite Heq. cbn.
    destruct (inv_refs _ (usi_repo _ _ Hi) _ _ E) as (u' & Hu' & _). rewrite lookup_insert_ne; [done|].
    intros <-. by rewrite (heap_next _ (usi_repo _ _ Hi)) in Hu'.
  - cbn [ret]. unfold bind at 1, get_obj. cbn [us_repo set_posts set_repo]. rewrite Hh.
    set (s1 := set_posts _ (set_repo r' s)). destruct (index_user_run u s1) as [t Ht]; [by eapply Hn'|].
    rewrite (bind_ret_eq _ _ _ _ _ Ht). cbn [ret]. split; [by intros [|[? ?]]|]. intros _ _. split; [|split].
    + cbn. by rewrite Hv, decide_True.
    + do 2 eexists. split; [done|]. split; [done|]. split; [done|]. unfold post_get_by_id. cbn. apply dict_get_set_eq.
    + intros f now' Hf Hfalse. unfold get_user_by_id. unfold bind at 1, bloom_guard. cbn. by rewrite Hf, Hfalse.
Qed.

(** ** Every operation *)

Lemma us_inv_later now now' s : now <= now' -> us_inv now s -> us_inv now' s.
Proof.
  intros Hle [H1 H2 H3 H4]. constructor; try done. intros c Hc id raw Hg.
  apply (H4 c Hc id raw). by eapply law_get_later.
Qed.

(** A login under a hash that needs no rehash changes nothing. *)
Lemma authenticate_quiet now un pw s : us_inv now s ->
  (forall id u, view s id = Some u -> needs_rehash (u_password_hash u) = false) -> (authenticate_user un pw s).2 = s.
Proof.
  intros Hi Hr. unfold authenticate_user. rewrite bind_gets_run.
  assert (forall l, (match ur_get_by_username (Some un) (us_repo s) with Some l => Some l | None => ur_get_by_email (Some un) (us_repo s) end) = Some l ->
    exists id, dict_get (ur_store (us_repo s)) id = Some l) as Hl.
  { unfold ur_get_by_username, ur_get_by_email. intros l. repeat case_match; intros; simplify_eq; eauto. }
  destruct (match ur_get_by_username _ _ with Some _ => _ | None => _ end) as [l|]; [|done].
  destruct (Hl l eq_refl) as [id Hid]. destruct (inv_refs _ (usi_repo _ _ Hi) _ _ Hid) as (u & Hu & _).
  unfold bind at 1, get_obj. rewrite Hu. destruct (negb _); [done|].
  rewrite (Hr id u); [done|]. unfold view, lookup_user. by rewrite Hid.
Qed.

(** States reached from an empty service by registrations, reads, updates of the four
    kinds, changes of the permissions and of the national identifier, deletions, and
    logins that need no rehash, with Redis up and time moving forward.  Three operations
    are left out, for which it does not hold: a login that rehashes the password
    ([login_leaves_stale_cache]), the creation of a user with a first post
    ([initial_post_user_not_found]), and the reader with its own early expiration, which
    keeps another cache entry ([deleted_user_served_by_xfetch]). *)
Inductive us_reach : Z -> user_service -> Prop :=
  | reach_init now trie oc ob bus posts :
      (forall c, oc = Some c -> healthy c /\ forall id, r_get now (cache_key id) (ca_redis c) = None) ->
      (forall f, ob = Some f -> bloom_wf f) ->
      us_reach now (mkUS ur_init trie oc ob bus posts)
  | reach_later now now' s : now <= now' -> us_reach now s -> us_reach now' s
  | reach_get now s id : us_reach now s -> us_reach now (get_user_by_id now id s).2
  | reach_register now s eid payload : us_reach now s -> us_reach now (register_user now eid payload s).2
  | reach_update now s id payload : us_reach now s -> us_reach now (update_user now id payload s).2
  | reach_write_through now s id payload : us_reach now s -> us_reach now (update_user_write_through now id payload s).2
  | reach_optimistic now s id v payload :
      (forall e, p_email payload = Some e -> is_Some e) -> (forall n, p_username payload = Some n -> is_Some n) ->
      us_reach now s -> us_reach now (update_user_optimistic now id v payload s).2
  | reach_permissions now s id p : us_reach now s -> us_reach now (update_user_permissions now id p s).2
  | reach_nid now s id nid : us_reach now s -> us_reach now (update_nid now id nid s).2
  | reach_delete now s id : us_reach now s -> us_reach now (delete_user now id s).2
  | reach_profile now s id un age fn ph bio cn : us_reach now s -> us_reach now (update_profile now id un age fn ph bio cn s).2
  | reach_username now s un : us_reach now s -> us_reach now (get_user_by_username un s).2
  | reach_list now s limit offset role search active :
      us_reach now s -> us_reach now (list_users limit offset role search active s).2
  | reach_login now s un pw : (forall id u, view s id = Some u -> needs_rehash (u_password_hash u) = false) ->
      us_reach now s -> us_reach now (authenticate_user un pw s).2.

Lemma reach_inv now s : us_reach now s -> us_inv now s /\ redis_up s.
Proof.
  intros Hr.
  induction Hr as [now trie oc ob bus posts Hc Hb|now now' s Hle _ IH|now s id _ IH|now s eid payload _ IH|now s id payload _ IH
    |now s id payload _ IH|now s id v payload He Hn _ IH|now s id p _ IH|now s id nid _ IH|now s id _ IH|now s id un age fn ph bio cn _ IH|now s un _ IH|now s limit offset role search active _ IH
    |now s un pw Hre _ IH]; try destruct IH as [Hi Hup].
  - split; [|intros c Ec; by apply (Hc c)]. constructor; cbn.
    + apply inv_init.
    + intros l u. cbn. by rewrite lookup_empty.
    + intros f Hf. split; [by apply Hb|]. intros id [u Hu]. done.
    + intros c Ec id raw. destruct (Hc c Ec) as [_ ->]. done.
  - split; [by eapply us_inv_later|done].
  - destruct (get_user_spec now id s Hi) as (r & s' & -> & (H1 & H2 & _) & _). auto.
  - pose proof (register_user_inv now eid payload s Hi) as H. destruct (register_user now eid payload s) as [r s'].
    destruct H as (H1 & H2). split; [done|]. intros c. cbn. rewrite H2. apply Hup.
  - by apply update_user_inv.
  - by apply write_through_inv.
  - pose proof (update_optimistic_inv now id v payload s Hi Hup He Hn) as H.
    destruct (update_user_optimistic now id v payload s) as [r s']. by destruct H as (H1 & H2 & _).
  - pose proof (update_permissions_inv now id p s Hi Hup) as H.
    destruct (update_user_permissions now id p s) as [r s']. by destruct H as (H1 & H2 & _).
  - pose proof (update_nid_inv now id nid s Hi Hup) as H.
    destruct (update_nid now id nid s) as [r s']. by destruct H as (H1 & H2 & _).
  - pose proof (delete_user_inv now id s Hi Hup) as H.
    destruct (delete_user now id s) as [r s']. by destruct H as (H1 & H2 & _).
  - by apply update_user_inv.
  - unfold get_user_by_username. by destruct (ur_get_by_username _ _).
  - done.
  - by rewrite (authenticate_quiet now).
Qed.


(** ** The search trie after a rename *)

Lemma search_insert_other (t : PrefixTrie trie_payload) m k k' p sc : repr t m -> normalize k <> normalize k' ->
  (exists m', repr (trie_insert k' p sc t) m') /\ trie_search k (trie_insert k' p sc t) = trie_search k t.
Proof.
  intros Hr Hne. pose proof (insert_repr t m k' p sc Hr) as Hr'. split; [by eexists|].
  rewrite (search_spec _ _ k Hr'), (search_spec _ _ k Hr). cbn. case_decide; [done|]. by rewrite lookup_insert_ne.
Qed.

(** Without a cache the service compares the stored object with itself after a
    rename, so it never removes the old name from the search trie: the old username
    keeps completing to the user, with the old payload. *)
Theorem rename_leaves_old_name s m now id u old new : us_inv now s -> us_cache s = None -> view s id = Some u ->
  u_username u = Some old -> repr (us_trie s) m -> normalize old <> normalize new ->
  (forall fn, u_full_name u = Some fn -> normalize old <> normalize fn) ->
  let payload := mkPatch None (Some (Some new)) None None None None None None in
  ~ taken id payload s ->
  let '(r, s') := update_user now id payload s in
  is_ok r = true /\ u_username <$> view s' id = Some (Some new) /\
  trie_search old (us_trie s') = trie_search old (us_trie s).
Proof.
  intros Hi Hnc Hu Hold Hrep Hne Hfn payload Ht. unfold update_user, get_user_by_id.
  destruct (bloom_guard_spec now id s Hi) as [Hg|[_ Hnone]]; [|congruence].
  destruct (lookup_user_ref _ _ _ Hu) as (l & El & Hl).
  assert (get_user_by_id now id s = (Ok l, s)) as Hget.
  { unfold get_user_by_id. rewrite (bind_ret_eq _ _ _ _ _ Hg). unfold bind at 1, read_cache, with_cache. rewrite Hnc.
    unfold bind at 1, repo_user, ur_get_by_id. rewrite El. unfold bind at 1, get_obj. rewrite Hl.
    unfold bind, write_cache, with_cache. by rewrite Hnc. }
  rewrite (bind_ret_eq _ _ _ _ _ Hget).
  destruct (check_conflicts_spec now id payload l u s Hi Hu Hl) as [[Hc _]|[_ Hbad]]; [|done].
  rewrite (bind_ret_eq _ _ _ _ _ Hc).
  destruct (repo_update_spec now id payload u s Hi Hu Ht) as (l' & r' & Hup' & Hr' & Hnm & Hst0 & Hst & Hh & Hkeep & Hv').
  rewrite (bind_ret_eq _ _ _ _ _ Hup').
  assert (l' = l) as -> by congruence.
  assert (exists t, sync_trie l l (set_repo r' s) = (Ok (), set_trie t (set_repo r' s)) /\
    trie_search old t = trie_search old (us_trie s)) as (t & Hs & Hsearch).
  { unfold sync_trie. unfold bind at 1, get_obj. cbn [us_repo set_repo]. rewrite Hh. unfold bind at 1. cbn [us_repo set_repo]. rewrite Hh.
    rewrite (bool_decide_true (u_username (requested payload u) = _)), (bool_decide_true (u_full_name (requested payload u) = _)) by done.
    rewrite andb_false_r. rewrite !bind_ret_run. unfold index_user_in_trie. cbn [requested updated_entity u_username u_full_name u_id].
    destruct (search_insert_other (us_trie s) m old new (Some (mkTP (u_id u) (Some new) (u_full_name u))) 2 Hrep Hne) as [[m' Hr2] Hs2].
    unfold bind, trie_put. cbn. destruct (u_full_name u) as [fn|] eqn:Ef; cbn; [|by eexists].
    destruct (negb _); [|by eexists].
    destruct (search_insert_other (trie_insert new (Some (mkTP (u_id u) (Some new) (Some fn))) 2 (us_trie s)) m' old fn
      (Some (mkTP (u_id u) (Some new) (Some fn))) 1 Hr2 (Hfn fn eq_refl)) as [_ Hs3].
    eexists. split; [done|]. cbn. by rewrite Hs3, Hs2. }
  rewrite (bind_ret_eq _ _ _ _ _ Hs). unfold bind, evict_cache, with_cache. cbn. rewrite Hnc. cbn.
  split; [done|]. split; [|done]. by rewrite Hv', decide_True.
Qed.

(** ** Suggestions *)

Lemma collect_payloads_seen limit term ps seen results i :
  i ∈ seen -> i ∈ (collect_payloads limit term ps seen results).1.2.
Proof.
  clear sha256 hash_password verify_password needs_rehash schedule neglog.
  revert seen results. induction ps as [|q ps IH]; intros seen results Hi; cbn [collect_payloads]; [done|].
  destruct (decide (tp_id q ∈ seen)); [by apply IH|]. destruct (limit <=? _); [by right|]. apply IH. by right.
Qed.

Lemma collect_payloads_spec limit term ps seen results :
  (Z.of_nat (length results) < limit) -> NoDup (sg_id <$> results) -> (forall i, i ∈ sg_id <$> results <-> i ∈ seen) ->
  let '(full, seen', results') := collect_payloads limit term ps seen results in
  NoDup (sg_id <$> results') /\ (forall i, i ∈ sg_id <$> results' <-> i ∈ seen') /\
  (if full then Z.of_nat (length results') = limit else Z.of_nat (length results') < limit) /\
  (forall x, x ∈ results' -> x ∈ results \/ (sg_term x = term /\ mkTP (sg_id x) (sg_username x) (sg_full_name x) ∈ ps)) /\
  (full = false -> forall p, p ∈ ps -> tp_id p ∈ seen').
Proof.
  clear sha256 hash_password verify_password needs_rehash schedule neglog.
  revert seen results. induction ps as [|p ps IH]; intros seen results Hlen Hnd Hseen; cbn [collect_payloads].
  { split; [done|]. split; [done|]. split; [done|]. split; [auto|]. intros _ p Hp. by apply not_elem_of_nil in Hp. }
  destruct (decide (tp_id p ∈ seen)) as [Hin|Hin].
  - specialize (IH seen results Hlen Hnd Hseen). destruct (collect_payloads limit term ps seen results) as [[full seen'] results'] eqn:E.
    destruct IH as (H1 & H2 & H3 & H4 & H5). split; [done|]. split; [done|]. split; [done|]. split.
    + intros x Hx. destruct (H4 x Hx) as [|[? ?]]; [auto|]. right. split; [done|by right].
    + intros Hf q [->|Hq]%elem_of_cons; [|auto].
      pose proof (collect_payloads_seen limit term ps seen results _ Hin) as Hs. by rewrite E in Hs.
  - set (x := mkSuggestion (tp_id p) (tp_username p) (tp_full_name p) term).
    assert (NoDup (sg_id <$> results ++ [x])) as Hnd'.
    { rewrite fmap_app. apply NoDup_app. split; [done|]. split; [|apply NoDup_singleton].
      intros i Hi%Hseen Hx%list_elem_of_singleton. cbn in Hx. by subst. }
    assert (forall i, i ∈ sg_id <$> results ++ [x] <-> i ∈ tp_id p :: seen) as Hseen'.
    { intros i. rewrite fmap_app, elem_of_app, Hseen, elem_of_cons. cbn. rewrite list_elem_of_singleton. tauto. }
    destruct (Z.leb_spec limit (Z.of_nat (length (results ++ [x])))) as [Hfull|Hfull].
    + split; [done|]. split; [done|]. split; [rewrite length_app in *; cbn in *; lia|]. split; [|done].
      intros y [Hy|Hy%list_elem_of_singleton]%elem_of_app; [auto|]. subst y. right. cbn. split; [done|]. destruct p; left.
    + specialize (IH (tp_id p :: seen) (results ++ [x]) Hfull Hnd' Hseen').
      destruct (collect_payloads limit term ps (tp_id p :: seen) (results ++ [x])) as [[full seen'] results'] eqn:E.
      destruct IH as (H1 & H2 & H3 & H4 & H5). split; [done|]. split; [done|]. split; [done|]. split.
      * intros y Hy. destruct (H4 y Hy) as [[?|Hy2%list_elem_of_singleton]%elem_of_app|[? ?]]; [auto| |right; split; [done|by right]].
        subst y. right. cbn. split; [done|]. destruct p; left.
      * intros Hf q [->|Hq]%elem_of_cons; [|auto].
        pose proof (collect_payloads_seen limit term ps (tp_id p :: seen) (results ++ [x]) (tp_id p) ltac:(left)) as Hs.
        by rewrite E in Hs.
Qed.

Lemma collect_payloads_sub limit term ps seen results : results ⊆ (collect_payloads limit term ps seen results).2.
Proof.
  clear sha256 hash_password verify_password needs_rehash schedule neglog.
  revert seen results. induction ps as [|q ps IH]; intros seen results; cbn [collect_payloads]; [done|].
  destruct (decide (tp_id q ∈ seen)); [by apply IH|]. destruct (limit <=? _); [set_solver|]. etrans; [|apply IH]. set_solver.
Qed.

Lemma collect_suggestions_spec limit completions seen results :
  Z.of_nat (length results) < limit -> NoDup (sg_id <$> results) -> (forall i, i ∈ sg_id <$> results <-> i ∈ seen) ->
  let out := collect_suggestions limit completions seen results in
  NoDup (sg_id <$> out) /\ Z.of_nat (length out) <= limit /\ results ⊆ out /\
  (forall x, x ∈ out -> x ∈ results \/
     exists ps, (sg_term x, ps) ∈ completions /\ mkTP (sg_id x) (sg_username x) (sg_full_name x) ∈ ps) /\
  (Z.of_nat (length out) < limit -> forall term ps p, (term, ps) ∈ completions -> p ∈ ps -> tp_id p ∈ sg_id <$> out).
Proof.
  clear sha256 hash_password verify_password needs_rehash schedule neglog.
  revert seen results. induction completions as [|[term ps] rest IH]; intros seen results Hlen Hnd Hseen; cbn [collect_suggestions].
  { split; [done|]. split; [lia|]. split; [done|]. split; [auto|]. intros _ t q p Hp. by apply not_elem_of_nil in Hp. }
  pose proof (collect_payloads_spec limit term ps seen results Hlen Hnd Hseen) as H.
  assert (results ⊆ (collect_payloads limit term ps seen results).2) as Hsub by apply collect_payloads_sub.
  destruct (collect_payloads limit term ps seen results) as [[full seen'] results'].
  destruct H as (H1 & H2 & H3 & H4 & H5). destruct full.
  - split; [done|]. split; [lia|]. split; [done|]. split; [|lia].
    intros x Hx. destruct (H4 x Hx) as [|[<- ?]]; [auto|]. right. exists ps. split; [left|done].
  - destruct (IH seen' results' H3 H1 H2) as (I1 & I2 & I3 & I4 & I5). split; [done|]. split; [done|].
    split; [by etrans|]. split.
    + intros x Hx. destruct (I4 x Hx) as [Hx'|(qs & ? & ?)]; [|right; exists qs; split; [by right|done]].
      destruct (H4 x Hx') as [|[<- ?]]; [auto|]. right. exists ps. split; [left|done].
    + intros Hl t q p [[= -> ->]|Hin]%elem_of_cons Hp; [|eauto].
      apply (H5 eq_refl) in Hp. apply H2, list_elem_of_fmap in Hp as (y & Ey & Hy). apply list_elem_of_fmap. exists y. split; [done|].
      by apply I3.
Qed.

(** Autocompletion of users always answers, with at most [limit] suggestions and
    none twice for the same user; each suggestion is a payload stored in the trie
    under its term, which extends the normalized prefix; and if fewer than [limit]
    are returned, no user under the completed terms was left out. *)
Theorem autocomplete_users_correct prefix limit s m : repr (us_trie s) m -> 0 < limit -> normalize prefix <> [] ->
  exists out, autocomplete_users prefix limit s = Some out /\
    NoDup (sg_id <$> out) /\ Z.of_nat (length out) <= limit /\
    (forall x, x ∈ out -> exists w ps f, sg_term x = of_chars w /\ m !! w = Some (ps, f) /\
       starts_with (normalize prefix) w = true /\ mkTP (sg_id x) (sg_username x) (sg_full_name x) ∈ ps) /\
    (Z.of_nat (length out) < limit -> forall term ps p,
       (term, ps) ∈ spec_completions (normalize prefix) limit m -> p ∈ ps -> tp_id p ∈ sg_id <$> out).
Proof.
  clear sha256 hash_password verify_password needs_rehash schedule neglog.
  intros Hr Hl Hp. unfold autocomplete_users. rewrite (autocomplete_spec _ m) by done.
  rewrite decide_False by (intros [|]; [done|lia]). eexists. split; [done|].
  destruct (collect_suggestions_spec limit (spec_completions (normalize prefix) limit m) [] [])
    as (H1 & H2 & _ & H4 & H5); [done|apply NoDup_nil_2|done|].
  split; [done|]. split; [done|]. split; [|done]. intros x Hx.
  destruct (H4 x Hx) as [Hnil|(ps & Hin & Hps)]; [by apply not_elem_of_nil in Hnil|].
  unfold spec_completions, top_entries in Hin. apply list_elem_of_fmap in Hin as ([[w ps'] f] & [= Ht ->] & Hin).
  apply elem_of_take in Hin as (i & Hin & _). apply list_elem_of_lookup_2 in Hin. rewrite stable_sort_perm in Hin.
  apply list_elem_of_fmap in Hin as ([w' [ps2 f2]] & [= -> -> ->] & [Hw Hm]%list_elem_of_filter).
  apply elem_of_map_to_list in Hm. by exists w', ps2, f2.
Qed.

(** ** Ages *)

Lemma sorted_by_age (us : list UserEntity) :
  sorted_by_key age_key (stable_sort (fun a b => age_key a <=? age_key b) us).
Proof.
  clear sha256 hash_password verify_password needs_rehash schedule neglog.
  assert (StronglySorted (fun a b => (age_key a <=? age_key b) = true) (stable_sort (fun a b => age_key a <=? age_key b) us)) as Hs.
  { apply stable_sort_sorted; [intros a b; destruct (Z.leb_spec (age_key a) (age_key b)); [by left|right; apply Z.leb_le; lia]|].
    intros a b c H1%Z.leb_le H2%Z.leb_le. apply Z.leb_le. lia. }
  induction Hs as [|x l _ IH Hall]; [by intros i j x y _ Hx|]. apply sorted_by_key_cons. split; [|done].
  intros y Hy. rewrite Forall_forall in Hall. by apply Z.leb_le, Hall.
Qed.

(** The users the two age queries range over: the first ten thousand with an age. *)
Definition aged_users (s : user_service) : list UserEntity :=
  filter (fun u => is_Some (u_age u))
    (omap (fun l => ur_heap (us_repo s) !! l) (py_slicez (ur_store (us_repo s)).*2 0 10000)).

(** Filtering by age rejects an empty interval and otherwise returns exactly the
    listed users whose age lies in the interval, in order of age; finding a pair
    returns two different entries whose ages add up to the target, and [None] only if
    there are none. *)
Theorem age_queries_correct min_age max_age target s :
  (max_age < min_age -> filter_users_by_age min_age max_age s = Raise PyValueError) /\
  (min_age <= max_age -> exists out, filter_users_by_age min_age max_age s = Ok out /\
     out ≡ₚ filter (fun u => min_age <= age_key u <= max_age) (aged_users s) /\
     sorted_by_key age_key out) /\
  match find_user_pair_by_age_sum target s with
  | Some (x, y) => exists rest, aged_users s ≡ₚ x :: y :: rest /\ age_key x + age_key y = target
  | None => forall x y rest, aged_users s ≡ₚ x :: y :: rest -> age_key x + age_key y <> target
  end.
Proof.
  clear sha256 hash_password verify_password needs_rehash schedule neglog.
  pose proof (sorted_by_age (aged_users s)) as Hs. change (stable_sort _ (aged_users s)) with (users_by_age s) in Hs.
  assert (users_by_age s ≡ₚ aged_users s) as Hp by apply stable_sort_perm.
  unfold filter_users_by_age, find_user_pair_by_age_sum. split; [|split].
  - intros Hlt. by rewrite (proj2 (Z.ltb_lt _ _) Hlt).
  - intros Hle. rewrite (proj2 (Z.ltb_ge _ _) Hle). eexists. split; [done|].
    rewrite binary_search_is_filter by done. split; [by rewrite Hp|]. by apply sorted_by_key_filter.
  - pose proof (two_pointer_sound_complete age_key (users_by_age s) target 0 Hs) as H2.
    destruct (two_pointer_pair_search age_key (users_by_age s) target 0) as [[x y]|].
    + destruct H2 as (i & j & Hij & Hx & Hy & Ht). destruct (pair_at _ _ _ _ _ Hij Hx Hy) as (rest & Hrest).
      exists rest. split; [by rewrite <-Hp|lia].
    + intros x y rest Hr Ht. rewrite <-Hp in Hr. destruct (pair_positions _ _ _ _ Hr) as (i & j & Hij & [[Hx Hy]|[Hx Hy]]);
        eapply (H2 i j _ _ Hij Hx Hy); lia.
Qed.

End Service.
Arguments user_service : clear implicits.

(** ** A concrete service *)

Section Demo.
#[local] Existing Instance py_text_ref.

Definition demo_sha (s : string) : list Z := (fun c => Z.of_nat (nat_of_ascii c)) <$> chars (s +:+ "0123456789abcdef").
Definition demo_hash (s : string) : string := "H(" +:+ s +:+ ")".
Definition demo_verify (p h : string) : bool := bool_decide (h = demo_hash p) || bool_decide (h = p).
Definition demo_needs_rehash (h : string) : bool := negb (py_startswith h "H(").

Definition demo_ann : UserCreate := mkUserCreate "ann@x.io" "ann" "secret-1" (Some 30) "user" (Some "Ann Lee") None None None.
Definition demo_mia : UserCreate := mkUserCreate "mia@x.io" "mia" "secret-2" (Some 40) "admin" (Some "Ann Lee") None None None.

Definition demo_bloom : bloom := mkBloom 10 96 3 (replicate 12 0) 0.
Definition demo_start (oc : option (cache cref)) : user_service cref :=
  mkUS ur_init trie_init oc (Some demo_bloom) (register_default_event_handlers bus_init, mkSinks [] [] []) (mkPostRepo [] 0).

Abbreviation reg := (register_user demo_sha demo_hash id).
Definition demo_us (oc : option (cache cref)) : user_service cref :=
  (reg 10 "e2" demo_mia (reg 10 "e1" demo_ann (demo_start oc)).2).2.
Definition demo_cached : option (cache cref) := Some (cache_init (∅, ∅) (fun _ => false)).

Lemma demo_bloom_wf : bloom_wf demo_bloom.
Proof. unfold bloom_wf. cbn. repeat split; try lia. by repeat constructor. Qed.

Lemma demo_us_reach oc : (oc = None \/ oc = demo_cached) -> us_reach demo_sha demo_hash demo_verify demo_needs_rehash id 10 (demo_us oc).
Proof.
  intros Hoc. unfold demo_us. apply (reach_register _ _ _ _ _ 10 _ "e2"), (reach_register _ _ _ _ _ 10 _ "e1"), reach_init.
  - intros c Hc. destruct Hoc as [->| ->]; [done|]. injection Hc as <-. split; [done|]. intros i. cbn. unfold cref_get. cbn. by rewrite lookup_empty.
  - intros f [= <-]. apply demo_bloom_wf.
Qed.

Lemma demo_us_inv oc : (oc = None \/ oc = demo_cached) -> us_inv demo_sha 10 (demo_us oc) /\ redis_up (demo_us oc).
Proof. intros Hoc. eapply reach_inv, demo_us_reach, Hoc. Qed.

Definition demo_user : UserEntity := registered_entity demo_hash 10 1 demo_ann (Some 3).

Lemma user_json_roundtrip_witness : deserialize_user (serialize_user demo_user) = Ok demo_user.
Proof. apply user_json_roundtrip; by eexists. Defined.

Lemma get_user_by_id_correct_witness :
  exists l, (get_user_by_id demo_sha 10 1 (demo_us demo_cached)).1 = Ok l.
Proof.
  pose proof (get_user_by_id_correct demo_sha 10 1 (demo_us demo_cached) (proj1 (demo_us_inv _ (or_intror eq_refl)))) as H.
  destruct (get_user_by_id demo_sha 10 1 (demo_us demo_cached)) as [r s']. destruct H as [H _].
  assert (lookup_user (us_repo (demo_us demo_cached)) 1 = Some demo_user) as E by (vm_compute; reflexivity).
  rewrite E in H. destruct H as (l & Hl & _). exists l. exact Hl.
Defined.

Definition demo_rename : UserPatch := mkPatch None (Some (Some "anna")) None None None None None None.

Lemma demo_not_taken oc : (oc = None \/ oc = demo_cached) -> ~ taken 1 demo_rename (demo_us oc).
Proof.
  intros Hoc (id' & u & Hne & Hv & Hor).
  assert (ur_store (us_repo (demo_us oc)) = [(1, 0%nat); (2, 1%nat)]) as Es
    by (destruct Hoc as [->| ->]; vm_compute; reflexivity).
  assert (ur_heap (us_repo (demo_us oc)) !! 1%nat = Some (registered_entity demo_hash 10 2 demo_mia (Some 63))) as Eh
    by (destruct Hoc as [->| ->]; vm_compute; reflexivity).
  unfold lookup_user in Hv. rewrite Es in Hv. cbn [dict_get] in Hv. rewrite decide_False in Hv by congruence.
  destruct (decide (2 = id')); [|discriminate Hv]. rewrite Eh in Hv. injection Hv as <-. destruct Hor as [[[? Hx] _]|[_ Hx]]; cbn in Hx; congruence.
Qed.

Lemma update_user_correct_witness :
  lookup_user (us_repo (update_user demo_sha 10 1 demo_rename (demo_us demo_cached)).2) 1 = Some (requested demo_rename demo_user).
Proof.
  destruct (demo_us_inv demo_cached (or_intror eq_refl)) as [Hi Hup].
  pose proof (update_user_correct demo_sha 10 1 demo_rename (demo_us demo_cached) Hi Hup) as H.
  destruct (update_user demo_sha 10 1 demo_rename (demo_us demo_cached)) as [r s'].
  assert (lookup_user (us_repo (demo_us demo_cached)) 1 = Some demo_user) as E by (vm_compute; reflexivity).
  rewrite E in H. destruct H as (_ & _ & _ & H). destruct (H (demo_not_taken _ (or_intror eq_refl))) as [_ Hv].
  exact (Hv 1).
Defined.

Lemma update_user_write_through_correct_witness :
  lookup_user (us_repo (update_user_write_through 10 1 demo_rename (demo_us demo_cached)).2) 1 = Some (requested demo_rename demo_user).
Proof.
  destruct (demo_us_inv demo_cached (or_intror eq_refl)) as [Hi Hup].
  pose proof (update_user_write_through_correct demo_sha 10 1 demo_rename (demo_us demo_cached) Hi Hup) as H.
  destruct (update_user_write_through 10 1 demo_rename (demo_us demo_cached)) as [r s'].
  assert (lookup_user (us_repo (demo_us demo_cached)) 1 = Some demo_user) as E by (vm_compute; reflexivity).
  rewrite E in H. destruct H as (_ & _ & _ & H). destruct (H (demo_not_taken _ (or_intror eq_refl))) as (_ & Hv & _).
  exact (Hv 1).
Defined.

Lemma register_user_correct_witness :
  us_inv demo_sha 10 (reg 10 "e3" demo_ann (demo_us demo_cached)).2.
Proof.
  pose proof (register_user_correct demo_sha demo_hash id 10 "e3" demo_ann (demo_us demo_cached)
    (proj1 (demo_us_inv _ (or_intror eq_refl)))) as H.
  destruct (reg 10 "e3" demo_ann (demo_us demo_cached)) as [r s']. exact (proj1 H).
Defined.

Definition demo_eve : UserCreate := mkUserCreate "eve@x.io" "eve" "secret-3" None "user" None None None None.

Lemma initial_post_atomic_witness :
  us_posts (create_user_with_initial_post demo_hash 10 demo_eve "t" "c" (Some PyRuntimeError) (demo_us None)).2 = us_posts (demo_us None).
Proof.
  pose proof (initial_post_atomic demo_sha demo_hash 10 demo_eve "t" "c" (Some PyRuntimeError) (demo_us None)
    (proj1 (demo_us_inv _ (or_introl eq_refl)))) as H.
  destruct (create_user_with_initial_post demo_hash 10 demo_eve "t" "c" (Some PyRuntimeError) (demo_us None)) as [r s'].
  assert (is_Some (Some PyRuntimeError)) as E by by eexists.
  destruct (proj1 H (or_intror E)) as (_ & _ & Hp & _). exact Hp.
Defined.

(** A user created with a first post is refused by the Bloom filter. *)
Example initial_post_user_not_found :
  let s := (create_user_with_initial_post demo_hash 10 demo_eve "t" "c" None (demo_us None)).2 in
  u_username <$> lookup_user (us_repo s) 3 = Some (Some "eve") /\
  (get_user_by_id demo_sha 10 3 s).1 = Raise UserNotFoundException.
Proof. vm_compute. done. Qed.


Lemma demo_trie_repr : exists m, repr (us_trie (demo_us None)) m.
Proof.
  eexists. change (us_trie (demo_us None)) with
    (run_ops trie_step
      [OpInsert "ann" (Some (mkTP 1 (Some "ann") (Some "Ann Lee"))) 2; OpInsert "Ann Lee" (Some (mkTP 1 (Some "ann") (Some "Ann Lee"))) 1;
       OpInsert "mia" (Some (mkTP 2 (Some "mia") (Some "Ann Lee"))) 2; OpInsert "Ann Lee" (Some (mkTP 2 (Some "mia") (Some "Ann Lee"))) 1]
      trie_init).2.
  apply run_refines, repr_init.
Qed.

Lemma rename_leaves_old_name_witness :
  trie_search "ann" (us_trie (update_user demo_sha 10 1 demo_rename (demo_us None)).2) = trie_search "ann" (us_trie (demo_us None)).
Proof.
  destruct demo_trie_repr as [m Hm].
  pose proof (rename_leaves_old_name demo_sha (demo_us None) m 10 1 demo_user "ann" "anna"
    (proj1 (demo_us_inv _ (or_introl eq_refl)))) as H.
  assert (lookup_user (us_repo (demo_us None)) 1 = Some demo_user) as E by (vm_compute; reflexivity).
  assert (us_cache (demo_us None) = None) as Ec by (vm_compute; reflexivity).
  specialize (H Ec E eq_refl Hm ltac:(vm_compute; discriminate)).
  specialize (H (fun fn (Ef : u_full_name demo_user = Some fn) => ltac:(injection Ef as <-; vm_compute; discriminate))).
  specialize (H (demo_not_taken None (or_introl eq_refl))). fold demo_rename in H.
  destruct (update_user demo_sha 10 1 demo_rename (demo_us None)) as [r s'].
  destruct H as (_ & _ & H). exact H.
Defined.

Lemma autocomplete_users_correct_witness :
  exists out, autocomplete_users "an" 5 (demo_us None) = Some out /\ NoDup (sg_id <$> out).
Proof.
  destruct demo_trie_repr as [m Hm].
  destruct (autocomplete_users_correct "an" 5 (demo_us None) m Hm) as (out & H1 & H2 & _); [lia|done|].
  exists out. exact (conj H1 H2).
Defined.

(** Deleting a user removes everybody of the same full name from the suggestions. *)
Example delete_drops_namesake :
  sg_id <$> default [] (autocomplete_users "ann l" 5 (demo_us None)) = [1; 2] /\
  (delete_user demo_sha 10 1 (demo_us None)).1 = Ok () /\
  autocomplete_users "ann l" 5 (delete_user demo_sha 10 1 (demo_us None)).2 = Some [].
Proof. vm_compute. done. Qed.

(** A deleted user is still served by the XFetch reader from its own cache entry. *)
Example deleted_user_served_by_xfetch :
  let s1 := (get_user_by_id_xfetch demo_sha neglog_ref 10 1 10 5 1 1 (demo_us demo_cached)).2 in
  let s2 := (delete_user demo_sha 20 1 s1).2 in
  (get_user_by_id demo_sha 20 1 s2).1 = Raise UserNotFoundException /\
  is_ok (get_user_by_id_xfetch demo_sha neglog_ref 20 1 20 5 1 1 s2).1 = true.
Proof. vm_compute. done. Qed.

(** Rehashing on login leaves the old hash in the cache, which is then what reads return. *)
Example login_leaves_stale_cache :
  let s0 := set_repo (ur_assign (set_password_hash "secret-1") 0 (us_repo (demo_us demo_cached))) (demo_us demo_cached) in
  let s1 := (get_user_by_id demo_sha 10 1 s0).2 in
  let s2 := (authenticate_user demo_hash demo_verify demo_needs_rehash "ann" "secret-1" s1).2 in
  u_password_hash <$> lookup_user (us_repo s2) 1 = Some "H(secret-1)" /\
  match get_user_by_id demo_sha 20 1 s2 with
  | (Ok l, s3) => u_password_hash <$> ur_heap (us_repo s3) !! l = Some "secret-1"
  | _ => False
  end.
Proof. vm_compute. done. Qed.

End Demo.
