(* ===== verification/UserSchemas.v ===== *)
(** The user schemas ([app/schemas/user.py]): sanitizers, field and model validators,
    and the response model, which runs the base validators again on the entity.

    Texts are the UTF-8 bytes of Python's strings.  Lengths, white space and case are
    taken byte by byte, which is right for ASCII text; the digits of the phone pattern
    are those of Python's [\d], the decimal digits of Unicode.  The e-mail check is a parameter ([email_validator] is a third-party package) that
    returns the normalized address.  A rejected payload is [PydanticValidationError]. *)

From S2P Require Import Prelude UserRepo Cache UserService.

Local Open Scope Z_scope.
Local Open Scope py_scope.

(** ** Text *)

Definition is_letter (c : ascii) : bool := is_upper c || is_lower c.
Definition is_digit (c : ascii) : bool := (48 <=? nat_of_ascii c)%nat && (nat_of_ascii c <=? 57)%nat.
Definition is_word (c : ascii) : bool := is_letter c || is_digit c || bool_decide (c = "_"%char).

(** [str.split()]: maximal runs without white space. *)
Fixpoint split_words (cur l : list ascii) : list (list ascii) :=
  match l with
  | [] => match cur with [] => [] | _ => [cur] end
  | c :: l' =>
      if is_space c then match cur with [] => split_words [] l' | _ => cur :: split_words [] l' end
      else split_words (cur ++ [c]) l'
  end.
(** [" ".join(...)] *)
Fixpoint join_spaces (ws : list (list ascii)) : list ascii :=
  match ws with [] => [] | [w] => w | w :: ws' => w ++ " "%char :: join_spaces ws' end.
(** [str.title()]: the first letter of each run of letters is upper case. *)
Fixpoint title_chars (after_letter : bool) (l : list ascii) : list ascii :=
  match l with
  | [] => []
  | c :: l' =>
      if is_letter c then (if after_letter then lower_ascii c else upper_ascii c) :: title_chars true l'
      else c :: title_chars false l'
  end.

(** The end of a match of [<[^<]+?>] after "<": one character other than "<", then as
    few as possible up to ">". *)
Fixpoint tag_tail (l : list ascii) : option (list ascii) :=
  match l with
  | [] => None
  | c :: l' => if bool_decide (c = ">"%char) then Some l' else if bool_decide (c = "<"%char) then None else tag_tail l'
  end.
Definition tag_match (l : list ascii) : option (list ascii) :=
  match l with
  | c :: d :: l' => if bool_decide (c = "<"%char) && negb (bool_decide (d = "<"%char)) then tag_tail l' else None
  | _ => None
  end.
(** [RE_HTML_TAGS.sub("", v)], from left to right; [fuel] is the length. *)
Fixpoint strip_tags (fuel : nat) (l : list ascii) : list ascii :=
  match fuel with
  | O => l
  | S fuel' =>
      match l with
      | [] => []
      | c :: l' => match tag_match l with Some rest => strip_tags fuel' rest | None => c :: strip_tags fuel' l' end
      end
  end.

(** ** Validators *)

Definition RESERVED_USERNAMES : list string := ["admin"; "root"; "system"; "superuser"; "administrator"; "operator"].

Definition or_none (s : string) : option string := if bool_decide (s = "") then None else Some s.

Definition sanitize_username_before (v : string) : string := py_lower (py_strip v).
Definition validate_username_after (v : option string) : result (option string) :=
  match v with
  | None => Ok None
  | Some s =>
      if py_in "__" s then Raise PyValueError
      else if bool_decide (s ∈ RESERVED_USERNAMES) then Raise PyValueError
      else Ok (Some s)
  end.
Definition sanitize_full_name_before (v : string) : option string :=
  let collapsed := join_spaces (split_words [] (chars v)) in
  match collapsed with [] => None | _ => Some (of_chars (title_chars false collapsed)) end.
Definition sanitize_phone_number_before (v : string) : option string := or_none (py_strip v).
(** The characters of category Nd of Unicode 14 (Python 3.11) come in tens, which start
    here. *)
Definition unicode_zeros : list Z :=
  [48; 1632; 1776; 1984; 2406; 2534; 2662; 2790; 2918; 3046; 3174; 3302; 3430; 3558; 3664; 3792; 3872; 4160;
    4240; 6112; 6160; 6470; 6608; 6784; 6800; 6992; 7088; 7232; 7248; 42528; 43216; 43264; 43472; 43504;
    43600; 44016; 65296; 66720; 68912; 69734; 69872; 69942; 70096; 70384; 70736; 70864; 71248; 71360; 71472;
    71904; 72016; 72784; 73040; 73120; 92768; 92864; 93008; 120782; 120792; 120802; 120812; 120822; 123200;
    123632; 125264; 130032].
(** [\d] of a pattern on [str] *)
Definition re_digit (c : Z) : bool := existsb (fun z => (z <=? c) && (c <? z + 10)) unicode_zeros.

(** The code points of a text in UTF-8; a byte out of place stands for nothing ([-1]). *)
Definition continuation (c : ascii) : bool := ((128 <=? nat_of_ascii c) && (nat_of_ascii c <? 192))%nat.
Definition trail (c : ascii) : Z := Z.of_nat (nat_of_ascii c) - 128.
Fixpoint code_points (l : list ascii) : list Z :=
  match l with
  | [] => []
  | c :: l1 =>
      let n := Z.of_nat (nat_of_ascii c) in
      if n <? 128 then n :: code_points l1
      else if n <? 192 then -1 :: code_points l1
      else match l1 with
        | [] => [-1]
        | c1 :: l2 =>
            if negb (continuation c1) then -1 :: code_points l1
            else if n <? 224 then ((n - 192) * 64 + trail c1) :: code_points l2
            else match l2 with
              | [] => [-1]
              | c2 :: l3 =>
                  if negb (continuation c2) then -1 :: code_points l2
                  else if n <? 240 then ((n - 224) * 4096 + trail c1 * 64 + trail c2) :: code_points l3
                  else match l3 with
                    | [] => [-1]
                    | c3 :: l4 =>
                        if negb (continuation c3) then -1 :: code_points l3
                        else ((n - 240) * 262144 + trail c1 * 4096 + trail c2 * 64 + trail c3) :: code_points l4
                    end
              end
        end
  end.
(** [RE_E164_PHONE], [^\+[1-9]\d{1,14}$], on a stripped text *)
Definition e164 (s : string) : bool :=
  match code_points (chars s) with
  | c :: d :: l =>
      (c =? 43) && ((49 <=? d) && (d <=? 57)) && forallb re_digit l && (1 <=? length l)%nat && (length l <=? 14)%nat
  | _ => false
  end.
Definition validate_phone_number_after (v : option string) : result (option string) :=
  match v with Some s => if e164 s then Ok (Some s) else Raise PyValueError | None => Ok None end.
Definition sanitize_bio_before (v : string) : option string :=
  or_none (py_strip (of_chars (strip_tags (String.length v) (chars v)))).
Definition sanitize_company_name_before (v : string) : option string := or_none (py_strip v).

(** The [Field] constraints. *)
Definition max_length (n : nat) (v : option string) : bool := match v with Some s => (String.length s <=? n)%nat | None => true end.
Definition username_field (s : string) : bool :=
  (3 <=? String.length s)%nat && (String.length s <=? 50)%nat && forallb is_word (chars s).
Definition age_field (a : option Z) : bool := match a with Some a => (18 <=? a) && (a <=? 120) | None => true end.
Definition USER_ROLES : list string := ["user"; "admin"; "enterprise"].

(** Any [ValueError] of a validator and any broken constraint reject the payload. *)
Definition invalid {A} : result A := Raise PydanticValidationError.
Definition field_check {A} (r : result A) : result A := match r with Ok a => Ok a | Raise _ => invalid end.
Definition require (c : bool) : result () := if c then Ok () else invalid.

(** One field through its before validator, its constraints and its after validator;
    a field that is [None] skips the text steps. *)
Definition run_username (v : string) : result string :=
  let s := sanitize_username_before v in
  let? _ := require (username_field s) in
  let? r := field_check (validate_username_after (Some s)) in
  match r with Some s => Ok s | None => invalid end.
Definition run_full_name (v : option string) : result (option string) :=
  let r := match v with Some s => sanitize_full_name_before s | None => None end in
  let? _ := require (max_length 100 r) in Ok r.
Definition run_phone (v : option string) : result (option string) :=
  let r := match v with Some s => sanitize_phone_number_before s | None => None end in
  field_check (validate_phone_number_after r).
Definition run_bio (v : option string) : result (option string) :=
  let r := match v with Some s => sanitize_bio_before s | None => None end in
  let? _ := require (max_length 500 r) in Ok r.
Definition run_company (v : option string) : result (option string) :=
  let r := match v with Some s => sanitize_company_name_before s | None => None end in
  let? _ := require (max_length 100 r) in Ok r.

(** ** Sanitizers applied twice *)

Lemma ascii_forall (P : ascii -> bool) : forallb P (ascii_of_nat <$> seq 0 256) = true -> forall c, P c = true.
Proof.
  intros H c. rewrite forallb_forall in H. apply H. rewrite <-(ascii_nat_embedding c).
  apply in_map, in_seq. pose proof (nat_ascii_bounded c). lia.
Qed.

Lemma letter_upper c : is_letter (upper_ascii c) = is_letter c /\ upper_ascii (upper_ascii c) = upper_ascii c /\
  is_space (upper_ascii c) = is_space c.
Proof.
  pose proof (ascii_forall (fun c => eqb (is_letter (upper_ascii c)) (is_letter c) && Ascii.eqb (upper_ascii (upper_ascii c)) (upper_ascii c)
    && eqb (is_space (upper_ascii c)) (is_space c)) ltac:(vm_compute; reflexivity) c) as H.
  apply andb_true_iff in H as [[H1 H2]%andb_true_iff H3]. apply eqb_prop in H1, H3. apply Ascii.eqb_eq in H2. done.
Qed.
Lemma letter_lower c : is_letter (lower_ascii c) = is_letter c /\ lower_ascii (lower_ascii c) = lower_ascii c /\
  is_space (lower_ascii c) = is_space c.
Proof.
  pose proof (ascii_forall (fun c => eqb (is_letter (lower_ascii c)) (is_letter c) && Ascii.eqb (lower_ascii (lower_ascii c)) (lower_ascii c)
    && eqb (is_space (lower_ascii c)) (is_space c)) ltac:(vm_compute; reflexivity) c) as H.
  apply andb_true_iff in H as [[H1 H2]%andb_true_iff H3]. apply eqb_prop in H1, H3. apply Ascii.eqb_eq in H2. done.
Qed.
Lemma word_not_space c : is_word c = true -> is_space c = false.
Proof.
  pose proof (ascii_forall (fun c => implb (is_word c) (negb (is_space c))) ltac:(vm_compute; reflexivity) c) as H.
  intros Hw. cbn beta in H. rewrite Hw in H. by apply negb_true_iff in H.
Qed.
Lemma digit_not_space c : is_digit c = true -> is_space c = false.
Proof. intros H. apply word_not_space. unfold is_word. rewrite H. by rewrite orb_true_r. Qed.

(** *** Stripping *)

(** *** Words and title case *)

Definition word_ok (w : list ascii) : Prop := w <> [] /\ Forall (fun c => is_space c = false) w.

Lemma split_words_ok l cur : Forall (fun c => is_space c = false) cur -> Forall word_ok (split_words cur l).
Proof.
  revert cur. induction l as [|c l IH]; intros cur Hc; cbn.
  - destruct cur; [constructor|]. constructor; [done|constructor].
  - destruct (is_space c) eqn:E.
    + destruct cur; [by apply IH|]. constructor; [done|by apply IH].
    + apply IH. apply Forall_app. split; [done|]. by constructor.
Qed.
Lemma split_word_app cur w l : Forall (fun c => is_space c = false) w -> split_words cur (w ++ l) = split_words (cur ++ w) l.
Proof.
  intros Hw. revert cur. induction Hw as [|c w Hc _ IH]; intros cur; cbn; [by rewrite app_nil_r|].
  by rewrite Hc, IH, <-app_assoc.
Qed.
Lemma split_join ws : Forall word_ok ws -> split_words [] (join_spaces ws) = ws.
Proof.
  induction 1 as [|w ws [Hne Hw] Hws IH]; [done|]. destruct ws as [|w' ws].
  - cbn [join_spaces]. rewrite <-(app_nil_r w), split_word_app by done. cbn. rewrite app_nil_r. by destruct w.
  - change (join_spaces (w :: w' :: ws)) with (w ++ " "%char :: join_spaces (w' :: ws)).
    rewrite split_word_app by done. rewrite app_nil_l. cbn [split_words]. change (is_space " ") with true. cbn iota.
    destruct w; [done|]. by rewrite IH.
Qed.

Lemma title_idemp b l : title_chars b (title_chars b l) = title_chars b l.
Proof.
  revert b. induction l as [|c l IH]; intros b; [done|]. cbn. destruct (is_letter c) eqn:E; cbn; [|by rewrite E, IH].
  destruct (letter_upper c) as (U1 & U2 & _), (letter_lower c) as (L1 & L2 & _).
  destruct b; [rewrite L1, L2|rewrite U1, U2]; by rewrite E, IH.
Qed.
Lemma title_word b w : word_ok w -> word_ok (title_chars b w).
Proof.
  intros [Hne Hw]. split; [by destruct w as [|c w]; [|cbn; destruct (is_letter c)]|].
  clear Hne. revert b. induction Hw as [|c w Hc _ IH]; intros b; cbn; [done|].
  destruct (letter_upper c) as (_ & _ & U), (letter_lower c) as (_ & _ & L).
  destruct (is_letter c); constructor; try apply IH; [|done]. destruct b; congruence.
Qed.
Lemma title_app b w l : exists b', title_chars b (w ++ l) = title_chars b w ++ title_chars b' l.
Proof.
  revert b. induction w as [|c w IH]; intros b; [by exists b|]. cbn.
  destruct (is_letter c); [destruct (IH true) as [b' ->]|destruct (IH false) as [b' ->]]; by exists b'.
Qed.
Lemma title_join ws : title_chars false (join_spaces ws) = join_spaces (title_chars false <$> ws).
Proof.
  induction ws as [|w ws IH]; [done|]. destruct ws as [|w' ws]; [done|].
  change (join_spaces (w :: w' :: ws)) with (w ++ " "%char :: join_spaces (w' :: ws)).
  destruct (title_app false w (" "%char :: join_spaces (w' :: ws))) as [b' ->].
  cbn [title_chars]. change (is_letter " ") with false. cbn iota. rewrite IH. done.
Qed.

Lemma full_name_idemp v r : sanitize_full_name_before v = Some r -> sanitize_full_name_before r = Some r.
Proof.
  unfold sanitize_full_name_before. set (ws := split_words [] (chars v)).
  assert (Forall word_ok ws) as Hws by by apply split_words_ok.
  destruct (join_spaces ws) as [|c l] eqn:Ej; [done|]. rewrite <-Ej. intros [= <-]. rewrite chars_of_chars, title_join.
  rewrite split_join by (apply Forall_fmap; eapply Forall_impl; [exact Hws|]; intros w; apply title_word).
  rewrite <-title_join. destruct (title_chars false (join_spaces ws)) as [|d k] eqn:Et.
  - rewrite Ej in Et. cbn in Et. by destruct (is_letter c).
  - rewrite <-Et. by rewrite title_idemp.
Qed.

(** *** Lengths *)

Lemma lstrip_length l : (length (lstrip_chars l) <= length l)%nat.
Proof. destruct (lstrip_suffix l) as [p Hp]. apply (f_equal length) in Hp. rewrite length_app in Hp. lia. Qed.
Lemma py_strip_length s : (String.length (py_strip s) <= String.length s)%nat.
Proof.
  unfold py_strip, strip_chars. rewrite length_of_chars, length_rev, length_chars.
  etrans; [apply lstrip_length|]. rewrite length_rev. apply lstrip_length.
Qed.
Lemma tag_tail_length l r : tag_tail l = Some r -> (length r <= length l)%nat.
Proof.
  induction l as [|c l IH]; [done|]. cbn. case_bool_decide; [intros [= <-]; lia|]. case_bool_decide; [done|].
  intros H'%IH. lia.
Qed.
Lemma strip_tags_length fuel l : (length (strip_tags fuel l) <= length l)%nat.
Proof.
  revert l. induction fuel as [|fuel IH]; intros l; cbn [strip_tags]; [done|]. destruct l as [|c l]; [done|].
  destruct (tag_match (c :: l)) as [r|] eqn:E; [|cbn; specialize (IH l); lia].
  destruct l as [|d l]; [done|]. cbn in E. destruct (_ && _); [|done]. apply tag_tail_length in E.
  etrans; [apply IH|]. cbn. lia.
Qed.
Lemma bio_shrinks v r : sanitize_bio_before v = Some r -> (String.length r <= String.length v)%nat.
Proof.
  unfold sanitize_bio_before, or_none. case_bool_decide; [done|]. intros [= <-].
  etrans; [apply py_strip_length|]. rewrite length_of_chars, length_chars. apply strip_tags_length.
Qed.

Section Schemas.
(** [EmailStr]: the normalized address, if valid. *)
Variable validate_email : string -> option string.

Definition run_email (v : string) : result string := match validate_email v with Some e => Ok e | None => invalid end.

(** [UserBase] *)
Record user_base : Type := mkBase {
  ub_email : string; ub_username : string; ub_full_name : option string; ub_phone_number : option string;
  ub_bio : option string; ub_company_name : option string }.
Definition validate_base (email username : string) (full_name phone_number bio company_name : option string) : result user_base :=
  let? e := run_email email in
  let? n := run_username username in
  let? f := run_full_name full_name in
  let? p := run_phone phone_number in
  let? b := run_bio bio in
  let? c := run_company company_name in
  Ok (mkBase e n f p b c).

(** The JSON body of a registration. *)
Record raw_create : Type := mkRawCreate {
  rc_email : string; rc_username : string; rc_full_name : option string; rc_phone_number : option string;
  rc_bio : option string; rc_company_name : option string;
  rc_password : string; rc_password_confirm : string; rc_age : option Z; rc_role : option string }.

(** [UserCreate] with [validate_cross_field_invariants] *)
Definition validate_create (q : raw_create) : result UserCreate :=
  let? b := validate_base (rc_email q) (rc_username q) (rc_full_name q) (rc_phone_number q) (rc_bio q) (rc_company_name q) in
  let role := default "user" (rc_role q) in
  let password_field (s : string) := ((8 <=? String.length s)%nat && (String.length s <=? 128)%nat) in
  let? _ := require (password_field (rc_password q)) in
  let? _ := require (password_field (rc_password_confirm q)) in
  let? _ := require (age_field (rc_age q)) in
  let? _ := require (bool_decide (role ∈ USER_ROLES)) in
  let? _ := require (bool_decide (rc_password q = rc_password_confirm q)) in
  let? _ := require (negb (py_in (py_lower (ub_username b)) (py_lower (rc_password q)))) in
  let? _ := require (negb (bool_decide (role = "enterprise") &&
    match ub_company_name b with
    | Some c => bool_decide (c = "") || bool_decide (py_strip c = "")
    | None => true
    end)) in
  Ok (mkUserCreate (ub_email b) (ub_username b) (rc_password q) (rc_age q) role (ub_full_name b) (ub_phone_number b)
    (ub_bio b) (ub_company_name b)).

(** A field of an update: absent, null, or a text. *)
Definition run_field {A B} (run : A -> result B) (v : option (option A)) : result (option (option B)) :=
  match v with
  | None => Ok None
  | Some None => Ok (Some None)
  | Some (Some a) => let? b := run a in Ok (Some (Some b))
  end.
(** A text field whose sanitizer may leave nothing. *)
Definition run_nullable (run : option string -> result (option string)) (v : option (option string))
  : result (option (option string)) :=
  match v with
  | None => Ok None
  | Some o => let? r := run o in Ok (Some r)
  end.

(** [UserUpdate] *)
Definition validate_update (q : UserPatch) : result UserPatch :=
  let? e := run_field run_email (p_email q) in
  let? n := run_field run_username (p_username q) in
  let? f := run_nullable run_full_name (p_full_name q) in
  let? p := run_nullable run_phone (p_phone_number q) in
  let? b := run_nullable run_bio (p_bio q) in
  let? c := run_nullable run_company (p_company_name q) in
  let? _ := require (age_field (attr (p_age q))) in
  let? _ := require (match attr (p_role q) with Some r => bool_decide (r ∈ USER_ROLES) | None => true end) in
  Ok (mkPatch e n (p_age q) (p_role q) f p b c).

(** [UserResponse.model_validate(entity)]: the validators of [UserBase] run again. *)
Record UserResponse : Type := mkResponse {
  ur_base : user_base; ur_id : Z; ur_age : option Z; ur_role : string; ur_is_active : bool; ur_created_at : Z;
  ur_version : Z; ur_permissions : Z; ur_nid_number : option string }.
Definition user_response (u : UserEntity) : result UserResponse :=
  match u_email u, u_username u with
  | Some email, Some username =>
      let? b := validate_base email username (u_full_name u) (u_phone_number u) (u_bio u) (u_company_name u) in
      let? _ := require (bool_decide (u_role u ∈ USER_ROLES)) in
      Ok (mkResponse b (u_id u) (u_age u) (u_role u) (u_is_active u) (u_created_at u) (u_version u) (u_permissions u)
        (u_nid_number u))
  | _, _ => invalid
  end.


(** ** What a validated payload satisfies *)

(** Inversion of the small steps. *)
Lemma require_ok c u : require c = Ok u -> c = true.
Proof. by destruct c. Qed.

Ltac inv_valid := repeat
  match goal with
  | H : rbind _ _ = Ok _ |- _ => let a := fresh "a" in let E := fresh "E" in apply rbind_ok in H as (a & E & H)
  | H : require _ = Ok _ |- _ => apply require_ok in H
  end.

Record clean_username (n : string) : Prop := {
  cu_length : (3 <= String.length n <= 50)%nat;
  cu_word : Forall (fun c => is_word c = true) (chars n);
  cu_lower : py_lower n = n;
  cu_underscores : py_in "__" n = false;
  cu_reserved : n ∉ RESERVED_USERNAMES
}.

Lemma run_username_clean v n : run_username v = Ok n -> clean_username n.
Proof.
  unfold run_username. intros H. inv_valid. unfold username_field in E. apply andb_true_iff in E as [[E1 E2]%andb_true_iff E3].
  unfold field_check, validate_username_after in E0. destruct (py_in "__" _) eqn:Eu; [done|].
  case_bool_decide as Er; [done|]. injection E0 as <-. injection H as <-.
  constructor; [|by apply Forall_forall; intros c Hc; rewrite forallb_forall in E3; apply E3, list_elem_of_In| |done|done].
  - apply Nat.leb_le in E1, E2. lia.
  - unfold sanitize_username_before, py_lower. rewrite chars_of_chars, <-list_fmap_compose. f_equal.
    apply list_fmap_ext. intros _ c _. cbn. apply letter_lower.
Qed.
Lemma clean_username_run n : clean_username n -> run_username n = Ok n.
Proof.
  intros [[H1 H2] H3 H4 H5 H6]. unfold run_username, sanitize_username_before.
  rewrite strip_fixed by (eapply Forall_impl; [exact H3|]; intros c; apply word_not_space). rewrite H4.
  unfold username_field. rewrite (proj2 (Nat.leb_le _ _) H1), (proj2 (Nat.leb_le _ _) H2).
  rewrite (proj2 (forallb_forall _ _)) by (intros c Hc; rewrite Forall_forall in H3; apply H3; by apply list_elem_of_In).
  cbn. rewrite H5. by rewrite bool_decide_false.
Qed.

Lemma run_full_name_idemp v r : run_full_name v = Ok r -> run_full_name r = Ok r.
Proof.
  unfold run_full_name. intros H. inv_valid. injection H as <-. destruct v as [s|]; [|done].
  destruct (sanitize_full_name_before s) as [r|] eqn:Es; [|done]. rewrite (full_name_idemp s r Es). unfold require. by rewrite E.
Qed.
Lemma continuation_not_space c : continuation c = true -> is_space c = false.
Proof.
  pose proof (ascii_forall (fun c => implb (continuation c) (negb (is_space c))) ltac:(vm_compute; reflexivity) c) as H.
  intros Hc. cbn beta in H. rewrite Hc in H. by apply negb_true_iff in H.
Qed.
Lemma high_not_space c : 128 <= Z.of_nat (nat_of_ascii c) -> is_space c = false.
Proof. intros H. unfold is_space. destruct (Nat.leb_spec 9 (nat_of_ascii c)), (Nat.leb_spec (nat_of_ascii c) 13),
  (Nat.leb_spec 28 (nat_of_ascii c)), (Nat.leb_spec (nat_of_ascii c) 32); cbn; done || lia. Qed.
(** A text whose code points are no ASCII white space has no white space byte. *)
Definition point_space (n : Z) : bool := ((9 <=? n) && (n <=? 13)) || ((28 <=? n) && (n <=? 32)).
Lemma points_not_space l : forallb (fun n => negb (point_space n)) (code_points l) = true ->
  Forall (fun c => is_space c = false) l.
Proof.
  induction l as [l IH] using (induction_ltof1 _ (@length ascii)). unfold ltof in IH.
  destruct l as [|c l1]; [constructor|]. cbn [code_points].
  destruct (Z.ltb_spec (Z.of_nat (nat_of_ascii c)) 128).
  { cbn [forallb]. intros [Hc Hl]%andb_true_iff. constructor; [|apply IH; [cbn; lia|done]].
    apply negb_true_iff in Hc. unfold point_space in Hc. unfold is_space.
    apply orb_false_iff in Hc as [H1 H2]. apply orb_false_iff. rewrite !andb_false_iff, !Z.leb_gt in *. rewrite !Nat.leb_gt. lia. }
  intros Hf. constructor; [by apply high_not_space|]. destruct (_ <? 192) in Hf; [apply IH; [cbn; lia|done]|].
  destruct l1 as [|c1 l2]; [constructor|]. destruct (continuation c1) eqn:C1; cbn [negb] in Hf; [|apply IH; [cbn; lia|done]].
  constructor; [by apply continuation_not_space|].
  destruct (_ <? 224) in Hf; [apply andb_true_iff in Hf as [_ Hf]; apply IH; [cbn; lia|done]|].
  destruct l2 as [|c2 l3]; [constructor|]. destruct (continuation c2) eqn:C2; cbn [negb] in Hf; [|apply IH; [cbn; lia|done]].
  constructor; [by apply continuation_not_space|].
  destruct (_ <? 240) in Hf; [apply andb_true_iff in Hf as [_ Hf]; apply IH; [cbn; lia|done]|].
  destruct l3 as [|c3 l4]; [constructor|]. destruct (continuation c3) eqn:C3; cbn [negb] in Hf; [|apply IH; [cbn; lia|done]].
  constructor; [by apply continuation_not_space|]. apply andb_true_iff in Hf as [_ Hf]. apply IH; [cbn; lia|done].
Qed.
Lemma re_digit_not_space n : re_digit n = true -> point_space n = false.
Proof.
  intros (z & Hz & Hn)%existsb_exists. assert (48 <= z) as H48.
  { assert (forallb (fun z => 48 <=? z) unicode_zeros = true) as Hall by (vm_compute; reflexivity).
    rewrite forallb_forall in Hall. apply Hall in Hz. lia. }
  unfold point_space. lia.
Qed.
Lemma e164_stripped s : e164 s = true -> py_strip s = s.
Proof.
  intros H. apply strip_fixed, points_not_space. unfold e164 in H. destruct (code_points (chars s)) as [|c [|d l]]; [done..|].
  repeat (apply andb_true_iff in H as [H ?]). cbn [forallb].
  rewrite (proj2 (forallb_forall _ l)); [unfold point_space; lia|].
  intros n Hn. apply negb_true_iff, re_digit_not_space. rewrite forallb_forall in *. auto.
Qed.
Lemma run_phone_idemp v r : run_phone v = Ok r -> run_phone r = Ok r /\ (forall s, r = Some s -> e164 s = true).
Proof.
  unfold run_phone. destruct v as [s|]; [|by intros [= <-]]. unfold sanitize_phone_number_before, or_none.
  case_bool_decide as He; cbn; [by intros [= <-]|]. destruct (e164 (py_strip s)) eqn:E; [|done]. intros [= <-].
  rewrite (e164_stripped _ E). rewrite bool_decide_false by done. cbn. rewrite E. split; [done|]. by intros ? [= <-].
Qed.
Lemma run_company_idemp v r : run_company v = Ok r -> run_company r = Ok r.
Proof.
  unfold run_company, sanitize_company_name_before, or_none. intros H. inv_valid. injection H as <-. destruct v as [s|]; [|done].
  case_bool_decide as He; [done|]. rewrite py_strip_idemp. rewrite bool_decide_false by done. unfold require. cbn in *. by rewrite E.
Qed.
(** What the optional texts satisfy after their validators. *)
Definition text_of (n : nat) (v : option string) : Prop := forall s, v = Some s -> s <> "" /\ (String.length s <= n)%nat.
Lemma max_length_text n v : max_length n v = true -> (forall s, v = Some s -> s <> "") -> text_of n v.
Proof. intros H Hne s ->. split; [by apply Hne|]. by apply Nat.leb_le. Qed.
Lemma or_none_text v s : or_none v = Some s -> s <> "".
Proof. unfold or_none. case_bool_decide; [done|]. by intros [= <-]. Qed.
Lemma run_full_name_text v r : run_full_name v = Ok r -> text_of 100 r.
Proof.
  unfold run_full_name. intros H. inv_valid. injection H as <-. apply max_length_text; [done|]. destruct v as [s|]; [|done].
  unfold sanitize_full_name_before. destruct (join_spaces _) as [|c l]; [done|]. intros t [= <-]. cbn. by destruct (is_letter c).
Qed.
Lemma run_bio_text v r : run_bio v = Ok r -> text_of 500 r.
Proof.
  unfold run_bio. intros H. inv_valid. injection H as <-. apply max_length_text; [done|]. destruct v as [s|]; [|done].
  apply or_none_text.
Qed.
Lemma run_company_text v r : run_company v = Ok r -> text_of 100 r.
Proof.
  unfold run_company. intros H. inv_valid. injection H as <-. apply max_length_text; [done|]. destruct v as [s|]; [|done].
  apply or_none_text.
Qed.
Lemma run_bio_again v r : run_bio v = Ok r -> exists r', run_bio r = Ok r'.
Proof.
  unfold run_bio. intros H. inv_valid. injection H as <-.
  destruct (match v with Some s => sanitize_bio_before s | None => None end) as [b|]; [|by eexists].
  destruct (sanitize_bio_before b) as [b'|] eqn:Eb; [|by eexists]. cbn in *. apply bio_shrinks in Eb. apply Nat.leb_le in E.
  rewrite (proj2 (Nat.leb_le _ _)) by lia. by eexists.
Qed.

Lemma user_response_registered hash now id p perms :
  user_response (registered_entity hash now id p perms) =
  let? b := validate_base (uc_email p) (uc_username p) (uc_full_name p) (uc_phone_number p) (uc_bio p) (uc_company_name p) in
  let? _ := require (bool_decide (uc_role p ∈ USER_ROLES)) in
  let u := registered_entity hash now id p perms in
  Ok (mkResponse b (u_id u) (u_age u) (u_role u) (u_is_active u) (u_created_at u) (u_version u) (u_permissions u) (u_nid_number u)).
Proof. done. Qed.

(** C31: a registration payload that validates has the address the e-mail check
    normalized, a clean user name (3 to 50 characters of a-z, 0-9 and underscore, no
    double underscore, not reserved), an optional full name, biography and company name
    that are not empty and have at most 100, 500 and 100 characters, a phone number of
    the pattern (a plus, a digit 1-9 and 1 to 14 digits, which may be any decimal digits
    of Unicode), a password of 8 to 128 characters equal to its confirmation that does not
    contain the user name, an age from 18 to 120, a known role, and a company name if
    the role is enterprise; and the response model accepts the entity registered from
    it, showing the stored fields except that the biography is sanitized again.  The
    e-mail check is assumed to accept what it normalized; texts are ASCII but for the
    phone number. *)
Theorem registration_payload_valid hash now id perms q p :
  (forall e e', validate_email e = Some e' -> validate_email e' = Some e') ->
  validate_create q = Ok p ->
  clean_username (uc_username p) /\ validate_email (rc_email q) = Some (uc_email p) /\
  text_of 100 (uc_full_name p) /\ text_of 500 (uc_bio p) /\ text_of 100 (uc_company_name p) /\
  (forall s, uc_phone_number p = Some s -> e164 s = true) /\
  (8 <= String.length (uc_password p) <= 128)%nat /\ uc_password p = rc_password_confirm q /\
  py_in (uc_username p) (py_lower (uc_password p)) = false /\
  (forall a, uc_age p = Some a -> 18 <= a <= 120) /\
  uc_role p ∈ USER_ROLES /\ (uc_role p = "enterprise" -> exists c, uc_company_name p = Some c /\ py_strip c <> "") /\
  exists r, user_response (registered_entity hash now id p perms) = Ok r /\
    ub_email (ur_base r) = uc_email p /\ ub_username (ur_base r) = uc_username p /\
    ub_full_name (ur_base r) = uc_full_name p /\ ub_phone_number (ur_base r) = uc_phone_number p /\
    ub_company_name (ur_base r) = uc_company_name p /\ run_bio (uc_bio p) = Ok (ub_bio (ur_base r)).
Proof.
  intros Hmail. unfold validate_create, validate_base. intros H. inv_valid. injection H as <-.
  injection E as <-. cbn [ub_email ub_username ub_full_name ub_phone_number ub_bio ub_company_name] in *.
  cbn [uc_email uc_username uc_password uc_age uc_role uc_full_name uc_phone_number uc_bio uc_company_name].
  assert (clean_username a8) as Hn by by eapply run_username_clean.
  destruct (run_phone_idemp _ _ E10) as [Hp1 Hp2].
  apply andb_true_iff in E0 as [P1 P2]. apply Nat.leb_le in P1, P2. apply bool_decide_eq_true in E3, E4.
  split; [done|]. split; [unfold run_email in E7; destruct (validate_email _); [by injection E7 as ->|done]|].
  split; [by eapply run_full_name_text|]. split; [by eapply run_bio_text|]. split; [by eapply run_company_text|].
  split; [done|]. split; [lia|]. split; [done|].
  split; [rewrite <-(cu_lower _ Hn); by apply negb_true_iff|].
  split; [intros a Ha; rewrite Ha in E2; cbn in E2; lia|]. split; [done|].
  split.
  { intros Hr. apply negb_true_iff in E6. rewrite Hr, bool_decide_true in E6 by done. cbn in E6.
    destruct a12 as [c|]; [|done]. exists c. split; [done|]. apply orb_false_iff in E6 as [_ Hs]. by apply bool_decide_eq_false in Hs. }
  destruct (run_bio_again _ _ E11) as [b' Hb'].
  rewrite user_response_registered. cbn [uc_email uc_username uc_full_name uc_phone_number uc_bio uc_company_name uc_role].
  unfold validate_base, run_email in *. destruct (validate_email (rc_email q)) as [e|] eqn:Ee; [|done]. injection E7 as ->.
  rewrite (Hmail _ _ Ee), (clean_username_run _ Hn), (run_full_name_idemp _ _ E9), Hp1, Hb', (run_company_idemp _ _ E12).
  cbn [rbind]. unfold require. rewrite bool_decide_true by done. cbn. eexists. split; [reflexivity|]. cbn. auto 10.
Qed.

End Schemas.

(** A tag inside a tag survives the sanitizer, and a deeper one survives the second
    pass of the response model: the biography shown contains a script element. *)
Example bio_keeps_script :
  run_bio (Some "<<<b>b>script>alert(1)</script>") = Ok (Some "<<b>script>alert(1)") /\
  run_bio (Some "<<<b>b>script>") = Ok (Some "<<b>script>") /\ run_bio (Some "<<b>script>") = Ok (Some "<script>").
Proof. vm_compute. auto. Qed.

(** The phone pattern accepts digits that are not those of E.164: here +1 followed by
    the Arabic-Indic digits two and three. *)
Definition arabic_indic_phone : string :=
  of_chars ["+"; "1"; ascii_of_nat 217; ascii_of_nat 162; ascii_of_nat 217; ascii_of_nat 163]%char.
Example phone_accepts_unicode_digits :
  code_points (chars arabic_indic_phone) = [43; 49; 1634; 1635] /\
  run_phone (Some arabic_indic_phone) = Ok (Some arabic_indic_phone) /\
  forallb is_digit (tail (chars arabic_indic_phone)) = false.
Proof. vm_compute. auto. Qed.

Lemma registration_payload_valid_witness : exists p,
  validate_create Some (mkRawCreate "ann@x.io" "  Ann_1 " (Some " ann   LEE ") (Some " +4917012345 ") (Some "<b>hi</b>") None
    "long-secret" "long-secret" (Some 30) None) = Ok p /\ uc_full_name p = Some "Ann Lee" /\ clean_username (uc_username p).
Proof.
  eexists. split; [vm_compute; reflexivity|]. split; [reflexivity|].
  refine (proj1 (registration_payload_valid Some id 0 1 None (mkRawCreate "ann@x.io" "  Ann_1 " (Some " ann   LEE ")
    (Some " +4917012345 ") (Some "<b>hi</b>") None "long-secret" "long-secret" (Some 30) None) _ _ _)).
  - by intros e e' [= <-].
  - vm_compute. reflexivity.
Defined.
