(* ===== verification/RateLimiter.v ===== *)
(** The distributed rate limiter ([app/services/rate_limiter_service.py]) and the
    guards that use it ([RateLimitGuard] and [TokenBucketGuard] of
    [app/core/dependencies.py]).

    The sliding window keeps one sorted set per key, modelled as the list of its
    entries with the key's deadline; the pipeline is one atomic step and the rollback
    of a rejected request a second one, so that requests interleave between them.  The
    timestamp of a request is its client's, the expiry of keys goes by Redis' clock.
    Times of the window are integers in microseconds.  The token bucket runs the Lua
    script of the source over exact rationals; [lua_num] is what a number becomes
    when the script stores it as text. *)

From Stdlib Require Import QArith Qround Lqa.
From S2P Require Import Prelude.

Local Open Scope Z_scope.

Lemma filter_length_impl {A} (P Q : A -> Prop) `{!forall x, Decision (P x), !forall x, Decision (Q x)} (l : list A) :
  (forall x, P x -> Q x) -> (length (filter P l) <= length (filter Q l))%nat.
Proof.
  intros Hi. induction l as [|x l IH]; [done|]. rewrite !filter_cons. repeat case_decide; cbn; try lia. exfalso. auto.
Qed.

(** [_format_key] *)
Definition rl_format_key (key : string) : string :=
  if negb (py_startswith key "ratelimit:") then "ratelimit:" +:+ key else key.

(** ** Sliding window *)

(** A sorted set with its expiry; the order of entries does not matter to the
    commands used. *)
Record zset : Type := mkZset { z_entries : list (string * Z); z_deadline : option Z }.

Definition zset_live (now : Z) (z : zset) : list (string * Z) :=
  match z_deadline z with
  | Some d => if now <? d then z_entries z else []
  | None => z_entries z
  end.

(** ZREMRANGEBYSCORE key 0 "(x": scores in [0, x). *)
Definition zremrangebyscore (x : Z) (es : list (string * Z)) : list (string * Z) :=
  filter (fun e => ~ (0 <= e.2 < x)) es.
(** ZADD of one member, ZREM *)
Definition zadd (m : string) (score : Z) (es : list (string * Z)) : list (string * Z) :=
  (m, score) :: filter (fun e => e.1 <> m) es.
Definition zrem (m : string) (es : list (string * Z)) : list (string * Z) := filter (fun e => e.1 <> m) es.
(** The score of ZRANGE key 0 0. *)
Definition zmin (es : list (string * Z)) : option Z :=
  match es with
  | [] => None
  | e :: es' => Some (foldr (fun e acc => Z.min e.2 acc) e.2 es')
  end.

Definition zstore : Type := string -> zset.
Definition zput (k : string) (z : zset) (s : zstore) : zstore := fun k' => if decide (k = k') then z else s k'.

(** The pipeline: prune, add, count, oldest, refresh the expiry.  [now] is the time the
    client took before it sent the pipeline, [clock] Redis' own time, by which keys
    expire. *)
Definition window_pipeline (key member : string) (window now clock : Z) (s : zstore) : Z * option Z * zstore :=
  let es := zadd member now (zremrangebyscore (now - window) (zset_live clock (s key))) in
  (Z.of_nat (length es), zmin es, zput key (mkZset es (Some (clock + (Z.quot window 1000000 + 2) * 1000000))) s).

(** The rollback of a rejected request. *)
Definition window_rollback (key member : string) (s : zstore) : zstore :=
  zput key (mkZset (zrem member (z_entries (s key))) (z_deadline (s key))) s.

(** [check_distributed_rate_limit] up to its rollback: limited, count, retry. *)
Definition check_tentatively (key member : string) (limit window now clock : Z) (s : zstore) : bool * Z * Z * zstore :=
  let redis_key := rl_format_key key in
  let '(current_count, oldest, s1) := window_pipeline redis_key member window now clock s in
  if current_count <=? limit then (false, current_count, 0, s1)
  else
    let oldest_ts := default now oldest in
    (true, limit, Z.max 0 (oldest_ts + window - now), s1).

(** [check_distributed_rate_limit] without interleaving. *)
Definition check_distributed_rate_limit (key member : string) (limit window now clock : Z) (s : zstore)
  : bool * Z * Z * zstore :=
  let '(limited, count, retry_after, s1) := check_tentatively key member limit window now clock s in
  (limited, count, retry_after, if limited then window_rollback (rl_format_key key) member s1 else s1).

(** [get_client_status]: prunes, then count, oldest and newest timestamps. *)
Definition zmax (es : list (string * Z)) : option Z :=
  match es with
  | [] => None
  | e :: es' => Some (foldr (fun e acc => Z.max e.2 acc) e.2 es')
  end.
Definition get_client_status (key : string) (window now clock : Z) (s : zstore) : (Z * option Z * option Z) * zstore :=
  let redis_key := rl_format_key key in
  let es := zremrangebyscore (now - window) (zset_live clock (s redis_key)) in
  ((Z.of_nat (length es), zmin es, zmax es), zput redis_key (mkZset es (z_deadline (s redis_key))) s).

(** *** Interleaved requests on one key

    [Arrive] is a request up to its rollback, which decides it; [Undo] is the rollback
    of a rejected one, which may come any time later; [Whole] is a request that nothing
    interrupts; [Status] is [get_client_status] with a window no shorter than the
    limiter's; [Elsewhere] is anything that leaves the key alone.  Redis' clock does not
    go back, but the timestamp of a request is the client's: it may be up to [late]
    behind Redis' clock (the pipeline was on its way, or the client's clock is slow) and
    up to [ahead] before it. *)

Record window_state : Type := mkWS {
  w_store : zstore;
  w_clock : Z;                         (* Redis' time of the last command on the key *)
  w_accepted : list (string * Z);      (* every accepted request *)
  w_pending : list string              (* rejected, not yet rolled back *)
}.

Section Window.
Variables (key : string) (limit window late ahead : Z).
Let k : string := rl_format_key key.

(** A new member, with the timestamp of a client whose clock is right up to the bounds. *)
Record sent (st : window_state) (member : string) (now clock : Z) : Prop := {
  se_clock : w_clock st <= clock;
  se_time : clock - late <= now <= clock + ahead;
  se_epoch : 0 <= now;
  se_fresh : member ∉ (w_accepted st).*1;
  se_fresh_pending : member ∉ w_pending st
}.

Inductive window_step : window_state -> window_state -> Prop :=
  | Arrive st member now clock limited count retry s' :
      sent st member now clock ->
      check_tentatively key member limit window now clock (w_store st) = (limited, count, retry, s') ->
      window_step st
        (mkWS s' clock (if limited then w_accepted st else (member, now) :: w_accepted st)
           (if limited then member :: w_pending st else w_pending st))
  | Undo st member :
      member ∈ w_pending st ->
      window_step st
        (mkWS (window_rollback k member (w_store st)) (w_clock st) (w_accepted st)
           (filter (fun m => m <> member) (w_pending st)))
  | Whole st member now clock limited count retry s' :
      sent st member now clock ->
      check_distributed_rate_limit key member limit window now clock (w_store st) = (limited, count, retry, s') ->
      window_step st
        (mkWS s' clock (if limited then w_accepted st else (member, now) :: w_accepted st) (w_pending st))
  | Status st window' now clock :
      w_clock st <= clock -> now <= clock + ahead -> window <= window' ->
      window_step st
        (mkWS (get_client_status key window' now clock (w_store st)).2 clock (w_accepted st) (w_pending st))
  | Elsewhere st s' : s' k = w_store st k -> window_step st (mkWS s' (w_clock st) (w_accepted st) (w_pending st)).

Definition window_init : window_state := mkWS (fun _ => mkZset [] None) 0 [] [].

(** The accepted requests of the window that ends at a time. *)
Definition accepted_within (t length : Z) (st : window_state) : list (string * Z) :=
  filter (fun e => t - length <= e.2 <= t) (w_accepted st).

(** What the key still holds: an accepted request younger than the window, by the most
    advanced client. *)
Record window_inv (st : window_state) : Prop := {
  wi_nodup : NoDup (w_accepted st).*1;
  wi_accepted e : e ∈ w_accepted st -> 0 <= e.2 <= w_clock st + ahead /\ e.1 ∉ w_pending st;
  wi_kept e : e ∈ w_accepted st -> w_clock st + ahead - window <= e.2 -> e ∈ z_entries (w_store st k);
  wi_deadline d e : e ∈ w_accepted st -> z_deadline (w_store st k) = Some d -> e.2 + window < d + ahead
}.

Hypothesis window_nonneg : 0 <= window.

Lemma expiry_covers now : now + window < now + (Z.quot window 1000000 + 2) * 1000000.
Proof.
  rewrite Z.quot_div_nonneg by lia. pose proof (Z.div_mod window 1000000 ltac:(lia)).
  pose proof (Z.mod_pos_bound window 1000000 ltac:(lia)). lia.
Qed.

(** Neither the expiry of the key nor a pruning loses a request still in the window. *)
Lemma pruning_keeps st e window' now clock : window_inv st -> w_clock st <= clock -> now <= clock + ahead ->
  window <= window' -> e ∈ w_accepted st -> clock + ahead - window <= e.2 ->
  e ∈ zremrangebyscore (now - window') (zset_live clock (w_store st k)).
Proof.
  intros Hi Hc Hn Hw He Hr. apply list_elem_of_filter. split; [lia|].
  assert (e ∈ z_entries (w_store st k)) as Hin by (apply (wi_kept _ Hi); [done|lia]).
  unfold zset_live. destruct (z_deadline (w_store st k)) as [d|] eqn:Ed; [|done].
  destruct (Z.ltb_spec clock d); [done|]. pose proof (wi_deadline _ Hi d e He Ed). lia.
Qed.

Lemma zput_same z s : zput k z s k = z.
Proof. unfold zput. by rewrite decide_True. Qed.

(** What a request does to its key before a rollback. *)
Lemma tentative_store member now clock s limited count retry s' :
  check_tentatively key member limit window now clock s = (limited, count, retry, s') ->
  let es := zadd member now (zremrangebyscore (now - window) (zset_live clock (s k))) in
  s' k = mkZset es (Some (clock + (Z.quot window 1000000 + 2) * 1000000)) /\
  (limited = false -> Z.of_nat (length es) <= limit).
Proof.
  unfold check_tentatively, window_pipeline. fold k.
  destruct (Z.leb_spec (Z.of_nat (length (zadd member now (zremrangebyscore (now - window) (zset_live clock (s k)))))) limit);
    intros [= <- <- <- <-]; rewrite zput_same; done.
Qed.

(** The accepted requests a pipeline still needs survive it. *)
Lemma arrive_keeps st member now clock e : window_inv st -> sent st member now clock ->
  e ∈ w_accepted st -> clock + ahead - window <= e.2 ->
  e ∈ zadd member now (zremrangebyscore (now - window) (zset_live clock (w_store st k))).
Proof.
  intros Hi [Hc Ht H0 Hf _] He Hr. right. apply list_elem_of_filter. split.
  - intros Heq. apply Hf. rewrite <-Heq. by apply list_elem_of_fmap_2.
  - apply pruning_keeps; [done..|lia|lia|done|done].
Qed.

Lemma arrive_inv st member now clock limited count retry s' : window_inv st -> sent st member now clock ->
  check_tentatively key member limit window now clock (w_store st) = (limited, count, retry, s') ->
  window_inv (mkWS s' clock (if limited then w_accepted st else (member, now) :: w_accepted st)
                 (if limited then member :: w_pending st else w_pending st)).
Proof.
  intros Hi Hs Hch. destruct (tentative_store _ _ _ _ _ _ _ _ Hch) as [Hst _].
  pose proof Hs as [Hc Ht H0 Hf Hp]. pose proof (expiry_covers clock) as Hx.
  constructor; cbn [w_store w_clock w_accepted w_pending]; rewrite ?Hst; cbn [z_entries z_deadline].
  - destruct limited; cbn; [|apply NoDup_cons; split; [done|]]; apply (wi_nodup _ Hi).
  - intros e He. destruct limited.
    + destruct (wi_accepted _ Hi e He) as [? Hnp]. split; [lia|]. intros [Heq|?]%elem_of_cons; [|done].
      apply Hf. rewrite <-Heq. by apply list_elem_of_fmap_2.
    + apply elem_of_cons in He as [->|He]; [cbn; split; [lia|done]|]. destruct (wi_accepted _ Hi e He). split; [lia|done].
  - intros e He Hr. destruct limited; [by apply arrive_keeps|].
    apply elem_of_cons in He as [->|He]; [left|by apply arrive_keeps].
  - intros d e He [= <-]. destruct limited; [|apply elem_of_cons in He as [->|He]; [cbn; lia|]];
      destruct (wi_accepted _ Hi e He); lia.
Qed.

Lemma rollback_inv st member : window_inv st -> member ∉ (w_accepted st).*1 ->
  window_inv (mkWS (window_rollback k member (w_store st)) (w_clock st) (w_accepted st) (filter (fun m => m <> member) (w_pending st))).
Proof.
  intros Hi Hm. unfold window_rollback. constructor; cbn [w_store w_clock w_accepted w_pending]; rewrite ?zput_same; cbn [z_entries z_deadline].
  - apply (wi_nodup _ Hi).
  - intros e He. destruct (wi_accepted _ Hi e He) as [? Hnp]. split; [done|]. by intros [_ ?]%list_elem_of_filter.
  - intros e He Hr. apply list_elem_of_filter. split; [|by apply (wi_kept _ Hi)].
    intros Heq. apply Hm. rewrite <-Heq. by apply list_elem_of_fmap_2.
  - apply (wi_deadline _ Hi).
Qed.

Lemma filter_fresh (m : string) l : m ∉ l -> filter (fun x => x <> m) (m :: l) = l.
Proof.
  intros Hm. rewrite filter_cons, decide_False by (by intros []). apply filter_all, Forall_forall.
  intros x Hx ->. done.
Qed.

(** A request that nothing interrupts is its arrival and, if rejected, its rollback. *)
Lemma whole_is_arrive_undo st member now clock limited count retry s' : sent st member now clock ->
  check_distributed_rate_limit key member limit window now clock (w_store st) = (limited, count, retry, s') ->
  exists s1, check_tentatively key member limit window now clock (w_store st) = (limited, count, retry, s1) /\
    s' = (if limited then window_rollback k member s1 else s1).
Proof.
  intros Hs. unfold check_distributed_rate_limit.
  destruct (check_tentatively _ _ _ _ _ _ _) as [[[l c] r] s1]. intros [= <- <- <- <-]. by exists s1.
Qed.

Lemma window_step_inv st st' : window_inv st -> window_step st st' -> window_inv st'.
Proof.
  intros Hi Hs. destruct Hs as [st member now clock l c r s' Hse Hch|st member Hp|st member now clock l c r s' Hse Hch|st w' now clock Hc Hn Hw|st s' Hk].
  - by eapply arrive_inv.
  - apply rollback_inv; [done|]. intros [e [-> He]]%list_elem_of_fmap. by destruct (wi_accepted _ Hi e He).
  - destruct (whole_is_arrive_undo _ _ _ _ _ _ _ _ Hse Hch) as (s1 & Ht & ->).
    pose proof (arrive_inv _ _ _ _ _ _ _ _ Hi Hse Ht) as H1. destruct l; [|done].
    apply (rollback_inv _ member) in H1; [|apply Hse]. cbn [w_store w_clock w_accepted w_pending] in H1.
    by rewrite filter_fresh in H1 by apply Hse.
  - unfold get_client_status. constructor; cbn [w_store w_clock w_accepted w_pending snd]; fold k; rewrite ?zput_same; cbn [z_entries z_deadline].
    + apply (wi_nodup _ Hi).
    + intros e He. destruct (wi_accepted _ Hi e He). split; [lia|done].
    + intros e He Hr. by apply pruning_keeps.
    + apply (wi_deadline _ Hi).
  - constructor; cbn [w_store w_clock w_accepted w_pending]; rewrite ?Hk; apply Hi.
Qed.

Lemma window_init_inv : window_inv window_init.
Proof. constructor; cbn; try done; [apply NoDup_nil_2|..]; intros; by match goal with H : _ ∈ [] |- _ => apply not_elem_of_nil in H end. Qed.

(** An accepted request finds at most [limit] requests in every window it is in. *)
Lemma accept_bounded st member now clock count retry s' t : window_inv st -> sent st member now clock ->
  check_tentatively key member limit window now clock (w_store st) = (false, count, retry, s') ->
  t - (window - late - ahead) <= now <= t ->
  Z.of_nat (S (length (accepted_within t (window - late - ahead) st))) <= limit.
Proof.
  intros Hi Hs Hch Ht. destruct (tentative_store _ _ _ _ _ _ _ _ Hch) as [_ Hl]. etrans; [|apply (Hl eq_refl)]. apply inj_le.
  change (S (length (accepted_within t (window - late - ahead) st)))
    with (length ((member, now) :: accepted_within t (window - late - ahead) st)).
  apply submseteq_length, NoDup_submseteq.
  - apply (NoDup_fmap_1 fst). cbn. apply NoDup_cons. split.
    + intros [e [He [_ Hin]%list_elem_of_filter]]%list_elem_of_fmap. apply (se_fresh _ _ _ _ Hs). rewrite He. by apply list_elem_of_fmap_2.
    + eapply sublist_NoDup; [apply (wi_nodup _ Hi)|]. apply fmap_sublist. apply sublist_filter.
  - intros e [->|[Hw He]%list_elem_of_filter]%elem_of_cons; [left|].
    destruct (se_time _ _ _ _ Hs). apply arrive_keeps; [done..|lia].
Qed.

(** One step keeps the bound on every window. *)
Lemma window_step_bound st st' : window_inv st -> window_step st st' ->
  (forall t, Z.of_nat (length (accepted_within t (window - late - ahead) st)) <= limit) ->
  forall t, Z.of_nat (length (accepted_within t (window - late - ahead) st')) <= limit.
Proof.
  intros Hi Hs Hb t.
  assert (forall member now clock count retry s', sent st member now clock ->
    check_tentatively key member limit window now clock (w_store st) = (false, count, retry, s') ->
    Z.of_nat (length (filter (fun e => t - (window - late - ahead) <= e.2 <= t) ((member, now) :: w_accepted st))) <= limit) as Hnew.
  { intros member now clock count retry s' Hse Hch. rewrite filter_cons. case_decide as Hc; [|apply Hb].
    by eapply accept_bounded. }
  destruct Hs as [st member now clock [] c r s' Hse Hch|st member Hp|st member now clock l c r s' Hse Hch|st w' now clock Hc Hn Hw|st s' Hk];
    try apply Hb; [by eapply Hnew|].
  destruct (whole_is_arrive_undo _ _ _ _ _ _ _ _ Hse Hch) as (s1 & Ht & ->). destruct l; [apply Hb|]. by eapply Hnew.
Qed.


(** A rejected request is told to wait until the oldest entry leaves the window, a
    positive time of at most the window; and without interleaving its rollback leaves
    the entries it found, so rejected requests use no quota. *)
Theorem rejected_request_costs_nothing member now clock s : 0 < limit ->
  let k := rl_format_key key in
  let live := zremrangebyscore (now - window) (zset_live clock (s k)) in
  (forall e, e ∈ live -> 0 <= e.2 <= now) -> member ∉ live.*1 ->
  let '(limited, count, retry, s') := check_distributed_rate_limit key member limit window now clock s in
  (limited = true -> z_entries (s' k) = live /\ count = limit /\ 0 <= retry <= window) /\
  (limited = false -> z_entries (s' k) = (member, now) :: live /\ retry = 0 /\ count <= limit) /\
  (limited = true <-> limit <= Z.of_nat (length live)).
Proof.
  intros Hlim rk live Hlive Hm. unfold check_distributed_rate_limit, check_tentatively, window_pipeline. fold rk. fold live.
  assert (zadd member now live = (member, now) :: live) as Hadd.
  { unfold zadd. f_equal. apply filter_all, Forall_forall. intros e He Heq. apply Hm. rewrite <-Heq. by apply list_elem_of_fmap_2. }
  rewrite Hadd. cbn [length zmin]. destruct (Z.leb_spec (Z.of_nat (S (length live))) limit) as [Hl|Hl].
  - split; [done|]. split; [intros _|split; [done|intros; exfalso; lia]]. unfold zput. rewrite decide_True by done. done.
  - split; [intros _|split; [done|split; [lia|done]]]. split; [|split; [done|]].
    + unfold window_rollback, zput. rewrite !decide_True by done. cbn [z_entries]. unfold zrem. rewrite filter_cons, decide_False by (cbn; by intros []).
      apply filter_all, Forall_forall. intros e He Heq. apply Hm. rewrite <-Heq. by apply list_elem_of_fmap_2.
    + unfold default, from_option, id. cbn [snd]. set (o := foldr _ _ _).
      assert (now - window <= o <= now); [|lia].
      assert (forall e, e ∈ live -> now - window <= e.2 <= now) as Hin.
      { intros e He. destruct (Hlive e He). apply list_elem_of_filter in He as [Hn _]. lia. }
      unfold o. clear -Hin window_nonneg. induction live as [|e l IH]; cbn [foldr]; [lia|].
      assert (now - window <= e.2 <= now) by (apply Hin; left). specialize (IH ltac:(intros; apply Hin; by right)). cbn in *. lia.
Qed.

End Window.

(** ** Token bucket *)

Section Bucket.
(** [tonumber(tostring(x))] *)
Variable lua_num : Q -> Q.

(** The hash of a key with its expiry. *)
Record bucket : Type := mkBucket { b_tokens : Q; b_last_updated : Q; b_deadline : Q }.

Definition qmin (a b : Q) : Q := if Qle_bool a b then a else b.
Definition qmax (a b : Q) : Q := if Qle_bool a b then b else a.
Definition qlt_bool (a b : Q) : bool := negb (Qle_bool b a).

(** HMGET of a key that has expired finds nothing. *)
Definition bucket_get (now : Q) (b : option bucket) : option bucket :=
  match b with Some x => if qlt_bool now (b_deadline x) then b else None | None => None end.

(** The tokens available at [now], after the refill. *)
Definition refilled (capacity refill_rate now : Q) (b : option bucket) : Q :=
  match bucket_get now b with
  | None => capacity
  | Some x => qmin capacity (b_tokens x + qmax 0 (now - b_last_updated x) * refill_rate)%Q
  end.

Definition bucket_ttl (capacity refill_rate : Q) : Q :=
  if qlt_bool 0 refill_rate then inject_Z (Qceiling (capacity / refill_rate) + 2) else 3600%Q.

(** [BUCKET_LUA_SCRIPT]: allowed, tokens left, seconds to wait, and the new hash. *)
Definition bucket_script (capacity refill_rate requested now : Q) (b : option bucket) : bool * Q * Q * option bucket :=
  let tokens := refilled capacity refill_rate now b in
  let deadline := (now + bucket_ttl capacity refill_rate)%Q in
  if Qle_bool requested tokens then
    let new_tokens := (tokens - requested)%Q in
    (true, lua_num new_tokens, 0%Q, Some (mkBucket (lua_num new_tokens) (lua_num now) deadline))
  else
    let retry_after := if qlt_bool 0 refill_rate then ((requested - tokens) / refill_rate)%Q else 3600%Q in
    (false, lua_num tokens, lua_num retry_after, Some (mkBucket (lua_num tokens) (lua_num now) deadline)).

(** The service: the buckets by key, whether the server has the script and whether
    the client holds its digest. *)
Record limiter : Type := mkLimiter { l_buckets : string -> option bucket; l_script_loaded : bool; l_sha : bool }.

Definition bucket_key (key : string) : string :=
  if negb (py_startswith key "ratelimit:") then "ratelimit:tokenbucket:" +:+ key else key.

(** [_get_or_load_token_bucket_script] *)
Definition get_or_load_script (l : limiter) : limiter :=
  if l_sha l then l else mkLimiter (l_buckets l) true true.

(** [check_token_bucket]: EVALSHA, and on NOSCRIPT load and repeat. *)
Definition check_token_bucket (key : string) (capacity refill_rate requested now : Q) (l : limiter)
  : bool * Q * Q * limiter :=
  let k := bucket_key key in
  let l1 := get_or_load_script l in
  let l2 := if l_script_loaded l1 then l1 else mkLimiter (l_buckets l1) true true in
  let '(allowed, tokens_val, retry_val, b) := bucket_script capacity refill_rate requested now (l_buckets l2 k) in
  (negb allowed, tokens_val, retry_val,
   mkLimiter (fun k' => if decide (k = k') then b else l_buckets l2 k') (l_script_loaded l2) (l_sha l2)).

(** [get_token_bucket_status]: the effective tokens and the last update. *)
Definition get_token_bucket_status (key : string) (capacity refill_rate now : Q) (l : limiter) : Q * option Q :=
  match bucket_get now (l_buckets l (bucket_key key)) with
  | None => (capacity, None)
  | Some x => (qmin capacity (b_tokens x + qmax 0 (now - b_last_updated x) * refill_rate)%Q, Some (b_last_updated x))
  end.

Lemma qmin_le a b : (qmin a b <= a)%Q /\ (qmin a b <= b)%Q.
Proof.
  unfold qmin. destruct (Qle_bool a b) eqn:E; [apply Qle_bool_iff in E; split; lra|].
  assert (~ (a <= b)%Q) as H by (rewrite <-Qle_bool_iff; congruence). apply Qnot_le_lt in H. split; lra.
Qed.
Lemma qmin_cases a b : qmin a b = a \/ qmin a b = b.
Proof. unfold qmin. destruct (Qle_bool a b); auto. Qed.
Lemma qmax_ge a b : (a <= qmax a b)%Q /\ (b <= qmax a b)%Q.
Proof.
  unfold qmax. destruct (Qle_bool a b) eqn:E; [apply Qle_bool_iff in E; split; lra|].
  assert (~ (a <= b)%Q) as H by (rewrite <-Qle_bool_iff; congruence). apply Qnot_le_lt in H. split; lra.
Qed.
Lemma qmax_cases a b : qmax a b = a \/ qmax a b = b.
Proof. unfold qmax. destruct (Qle_bool a b); auto. Qed.
Lemma qlt_bool_iff a b : qlt_bool a b = true <-> (a < b)%Q.
Proof.
  unfold qlt_bool. rewrite negb_true_iff, <-not_true_iff_false, Qle_bool_iff. split; [apply Qnot_le_lt|apply Qlt_not_le].
Qed.

(** *** The long-run rate *)

(** A request: what it asks for and when. *)
Abbreviation req := (Q * Q)%type.

(** The tokens granted to a sequence of requests. *)
Fixpoint run_requests (capacity refill_rate : Q) (reqs : list req) (b : option bucket) : Q * option bucket :=
  match reqs with
  | [] => (0%Q, b)
  | (requested, now) :: rest =>
      let '(allowed, _, _, b') := bucket_script capacity refill_rate requested now b in
      let '(granted, b'') := run_requests capacity refill_rate rest b' in
      ((if allowed then requested + granted else granted)%Q, b'')
  end.

(** Requests in time order from [t] up to [horizon], none negative. *)
Fixpoint timely (horizon t : Q) (reqs : list req) : Prop :=
  match reqs with
  | [] => True
  | (requested, now) :: rest => (t <= now)%Q /\ (now <= horizon)%Q /\ (0 <= requested)%Q /\ timely horizon now rest
  end.
Fixpoint last_time (t : Q) (reqs : list req) : Q :=
  match reqs with [] => t | (_, now) :: rest => last_time now rest end.

(** [tostring] of Lua prints 14 significant digits: on the range of the capacities and
    timestamps in use its error is bounded by [eps]. *)
Variables (capacity refill_rate eps horizon : Q).
Hypothesis cap_pos : (0 <= capacity)%Q.
Hypothesis cap_range : (capacity <= horizon)%Q.
Hypothesis rate_pos : (0 < refill_rate)%Q.
Hypothesis eps_pos : (0 <= eps)%Q.
Hypothesis lua_close : forall x, (0 <= x <= horizon)%Q -> (lua_num x - x <= eps)%Q /\ (x - lua_num x <= eps)%Q.
Hypothesis lua_nonneg : forall x, (0 <= x)%Q -> (0 <= lua_num x)%Q.

Lemma ttl_refills : (capacity <= refill_rate * bucket_ttl capacity refill_rate)%Q.
Proof.
  unfold bucket_ttl. rewrite (proj2 (qlt_bool_iff 0 refill_rate) rate_pos).
  assert (capacity / refill_rate <= inject_Z (Qceiling (capacity / refill_rate)))%Q as H by apply Qle_ceiling.
  assert (capacity == refill_rate * (capacity / refill_rate))%Q as E by (field; lra).
  rewrite E at 1. apply Qmult_le_l; [done|]. eapply Qle_trans; [exact H|]. rewrite <-Zle_Qle. lia.
Qed.

(** The bucket written at [t] (or none) is accounted for: what was granted and what
    is left stay below [budget]. *)
Definition accounted (t budget : Q) (b : option bucket) : Prop :=
  match b with
  | None => (capacity <= budget)%Q
  | Some x => (0 <= b_tokens x)%Q /\ (b_tokens x <= budget)%Q /\ (t - b_last_updated x <= eps)%Q /\
      (b_deadline x == t + bucket_ttl capacity refill_rate)%Q
  end.

Lemma refilled_bound t now budget b : accounted t budget b -> (t <= now)%Q ->
  (refilled capacity refill_rate now b <= budget + refill_rate * (now - t) + eps * refill_rate)%Q.
Proof.
  intros Ha Ht. assert (0 <= refill_rate * (now - t))%Q by (apply Qmult_le_0_compat; lra).
  assert (0 <= eps * refill_rate)%Q by (apply Qmult_le_0_compat; lra).
  unfold refilled, bucket_get. destruct b as [x|]; [|cbn in Ha; lra].
  destruct Ha as (H1 & H2 & H3 & H4). destruct (qlt_bool now (b_deadline x)) eqn:E.
  - destruct (qmin_le capacity (b_tokens x + qmax 0 (now - b_last_updated x) * refill_rate)) as [_ Hm].
    eapply Qle_trans; [exact Hm|].
    assert (qmax 0 (now - b_last_updated x) * refill_rate <= (now - t + eps) * refill_rate)%Q.
    { apply Qmult_le_compat_r; [|lra]. destruct (qmax_cases 0 (now - b_last_updated x)) as [->| ->]; lra. }
    lra.
  - apply not_true_iff_false in E. rewrite qlt_bool_iff in E. apply Qnot_lt_le in E.
    assert (refill_rate * bucket_ttl capacity refill_rate <= refill_rate * (now - t))%Q by (apply Qmult_le_l; [done|lra]).
    pose proof ttl_refills. lra.
Qed.

Lemma refilled_nonneg now t budget b : accounted t budget b -> (0 <= refilled capacity refill_rate now b)%Q.
Proof.
  intros Ha. unfold refilled, bucket_get. destruct b as [x|]; [|done].
  destruct Ha as (H1 & _). destruct (qlt_bool now (b_deadline x)); [|done].
  destruct (qmin_cases capacity (b_tokens x + qmax 0 (now - b_last_updated x) * refill_rate)) as [->| ->]; [done|].
  assert (0 <= qmax 0 (now - b_last_updated x) * refill_rate)%Q; [|lra].
  apply Qmult_le_0_compat; [|lra]. apply qmax_ge.
Qed.

(** The slack one request may add through the rounding of stored numbers. *)
Definition slack : Q := (eps * refill_rate + eps)%Q.

Lemma refilled_cap now b : (refilled capacity refill_rate now b <= capacity)%Q.
Proof. unfold refilled. destruct (bucket_get now b); [apply qmin_le|apply Qle_refl]. Qed.

Lemma run_requests_bound reqs t budget b : (0 <= t)%Q -> timely horizon t reqs -> accounted t budget b ->
  ((run_requests capacity refill_rate reqs b).1
   <= budget + refill_rate * (last_time t reqs - t) + inject_Z (Z.of_nat (length reqs)) * slack)%Q.
Proof.
  revert t budget b. induction reqs as [|[requested now] rest IH]; intros t budget b Ht0 Ht Ha; cbn [run_requests].
  - cbn [fst last_time length]. change (inject_Z (Z.of_nat 0)) with 0%Q.
    assert (0 <= budget)%Q by (destruct b as [x|]; [destruct Ha as (? & ? & _); lra|cbn in Ha; lra]).
    lra.
  - destruct Ht as (Hn & Hh & Hr & Ht). pose proof (refilled_bound t now budget b Ha Hn) as Hb.
    pose proof (refilled_nonneg now t budget b Ha) as H0. pose proof (refilled_cap now b) as Hc.
    set (tokens := refilled capacity refill_rate now b) in *.
    cbn [last_time length]. rewrite Nat2Z.inj_succ, <-Z.add_1_r, inject_Z_plus.
    set (n := inject_Z (Z.of_nat (length rest))). set (T := last_time now rest).
    assert (forall x, (0 <= x <= tokens)%Q ->
      accounted now (x + eps) (Some (mkBucket (lua_num x) (lua_num now) (now + bucket_ttl capacity refill_rate)))) as Hacc.
    { intros x Hx. destruct (lua_close x ltac:(lra)), (lua_close now ltac:(lra)).
      split; [apply lua_nonneg, Hx|]. split; [cbn; lra|]. split; [cbn; lra|]. reflexivity. }
    assert (refill_rate * (T - t) == refill_rate * (T - now) + refill_rate * (now - t))%Q as E1 by ring.
    assert ((n + inject_Z 1) * slack == n * slack + eps * refill_rate + eps)%Q as E2 by (unfold slack; ring).
    rewrite E1, E2.
    unfold bucket_script. fold tokens. destruct (Qle_bool requested tokens) eqn:E.
    + apply Qle_bool_iff in E.
      pose proof (IH now _ _ ltac:(lra) Ht (Hacc (tokens - requested)%Q ltac:(lra))) as Hrec.
      fold n T in Hrec. destruct (run_requests capacity refill_rate rest _) as [g b'']. cbn [fst] in *. lra.
    + pose proof (IH now _ _ ltac:(lra) Ht (Hacc tokens ltac:(lra))) as Hrec.
      fold n T in Hrec. destruct (run_requests capacity refill_rate rest _) as [g b'']. cbn [fst] in *. lra.
Qed.

(** C28: over any sequence of requests in time order on a fresh bucket, the tokens
    granted are at most the capacity plus the refill rate times the elapsed time, up
    to the rounding of the numbers the script stores; the expiry of the key never
    gives tokens away. *)
Theorem token_bucket_rate reqs t : (0 <= t)%Q -> timely horizon t reqs ->
  ((run_requests capacity refill_rate reqs None).1
   <= capacity + refill_rate * (last_time t reqs - t) + inject_Z (Z.of_nat (length reqs)) * slack)%Q.
Proof.
  intros H0 Ht. pose proof (run_requests_bound reqs t capacity None H0 Ht) as H. cbn in H. specialize (H (Qle_refl _)). lra.
Qed.

(** What the script leaves for a rejected request, and what it answers. *)
Lemma rejected_bucket requested now b t r b' :
  bucket_script capacity refill_rate requested now b = (false, t, r, b') ->
  (refilled capacity refill_rate now b < requested)%Q /\
  r = lua_num ((requested - refilled capacity refill_rate now b) / refill_rate)%Q /\
  b' = Some (mkBucket (lua_num (refilled capacity refill_rate now b)) (lua_num now) (now + bucket_ttl capacity refill_rate)%Q).
Proof.
  unfold bucket_script. rewrite (proj2 (qlt_bool_iff 0 refill_rate) rate_pos).
  destruct (Qle_bool _ _) eqn:E; intros [= <- <- <-].
  assert (~ (requested <= refilled capacity refill_rate now b)%Q) as Hn by (rewrite <-Qle_bool_iff; congruence).
  apply Qnot_le_lt in Hn. done.
Qed.

(** The bucket of a rejected request, left alone, refills at the rate promised. *)
Lemma refill_after tokens now now2 : (0 <= tokens <= capacity)%Q -> (0 <= now <= now2)%Q -> (now <= horizon)%Q ->
  let x := mkBucket (lua_num tokens) (lua_num now) (now + bucket_ttl capacity refill_rate) in
  refilled capacity refill_rate now2 (Some x) = capacity \/
  (tokens - eps + (now2 - now - eps) * refill_rate <= refilled capacity refill_rate now2 (Some x))%Q.
Proof.
  intros Ht Hn Hh x. unfold refilled, bucket_get. destruct (qlt_bool now2 (b_deadline x)); [|by left].
  destruct (qmin_cases capacity (b_tokens x + qmax 0 (now2 - b_last_updated x) * refill_rate)) as [->| ->]; [by left|right].
  destruct (lua_close tokens ltac:(lra)), (lua_close now ltac:(lra)). cbn [b_tokens b_last_updated x].
  assert ((now2 - now - eps) * refill_rate <= qmax 0 (now2 - lua_num now) * refill_rate)%Q; [|lra].
  apply Qmult_le_compat_r; [|lra]. eapply Qle_trans; [|apply qmax_ge]. lra.
Qed.

(** The key a service uses holds the bucket the script returned. *)
Lemma check_token_bucket_script key requested now l :
  let '(allowed, t, r, b) := bucket_script capacity refill_rate requested now (l_buckets l (bucket_key key)) in
  let '(limited, t', r', l') := check_token_bucket key capacity refill_rate requested now l in
  limited = negb allowed /\ t' = t /\ r' = r /\ l_buckets l' (bucket_key key) = b.
Proof.
  unfold check_token_bucket, get_or_load_script. destruct (l_sha l), (l_script_loaded l); cbn [l_buckets l_script_loaded l_sha];
    destruct (bucket_script _ _ _ _ _) as [[[a t] r] b]; cbn [l_buckets l_script_loaded l_sha]; by rewrite decide_True.
Qed.

(** A bucket whose stored tokens are not negative. *)
Definition bucket_nonneg (b : option bucket) : Prop := match b with Some x => (0 <= b_tokens x)%Q | None => True end.

(** A rejected client that waits for the time it was told, and for the rounding of
    the stored numbers, is served: its next request for at most the capacity, with no
    other request on its key in between, is granted. *)
Theorem token_bucket_retry_succeeds key requested now now2 l t r l' :
  (requested <= capacity)%Q -> (0 <= now <= horizon)%Q -> bucket_nonneg (l_buckets l (bucket_key key)) ->
  (requested / refill_rate <= horizon)%Q ->
  check_token_bucket key capacity refill_rate requested now l = (true, t, r, l') ->
  (0 <= r)%Q /\
  ((now + r + 2 * eps + eps / refill_rate <= now2)%Q ->
   (check_token_bucket key capacity refill_rate requested now2 l').1.1.1 = false).
Proof.
  intros Hreq Hnow Hnn Hrange Hc. pose proof (check_token_bucket_script key requested now l) as Hs. rewrite Hc in Hs.
  destruct (bucket_script _ _ _ _ _) as [[[a t0] r0] b] eqn:Eb. destruct Hs as (Ha & -> & -> & Hl).
  destruct a; [done|]. apply rejected_bucket in Eb as (Hlt & -> & ->). clear Hc.
  set (tokens := refilled capacity refill_rate now (l_buckets l (bucket_key key))) in *.
  assert (0 <= tokens)%Q as H0.
  { unfold tokens, refilled, bucket_get. destruct (l_buckets l (bucket_key key)) as [x|]; [|done].
    destruct (qlt_bool now (b_deadline x)); [|done].
    destruct (qmin_cases capacity (b_tokens x + qmax 0 (now - b_last_updated x) * refill_rate)) as [->| ->]; [done|].
    assert (0 <= qmax 0 (now - b_last_updated x) * refill_rate)%Q; [|cbn in Hnn; lra].
    apply Qmult_le_0_compat; [apply qmax_ge|lra]. }
  set (w := ((requested - tokens) / refill_rate)%Q) in *.
  assert (w * refill_rate == requested - tokens)%Q as Hw by (unfold w; field; lra).
  assert (0 <= w)%Q as Hw0 by (apply Qle_shift_div_l; lra).
  assert (w <= horizon)%Q as Hwh.
  { eapply Qle_trans; [|exact Hrange]. unfold w. apply Qmult_le_compat_r; [lra|]. apply Qlt_le_weak, Qinv_lt_0_compat. lra. }
  split; [by apply lua_nonneg|]. intros Hwait. destruct (lua_close w ltac:(lra)) as [_ Hr].
  assert (0 <= eps / refill_rate)%Q as He by (apply Qle_shift_div_l; lra).
  assert (eps / refill_rate * refill_rate == eps)%Q as He2 by (field; lra).
  assert (requested <= refilled capacity refill_rate now2 (l_buckets l' (bucket_key key)))%Q as Hgrant.
  { rewrite Hl. destruct (refill_after tokens now now2) as [->|Hge]; [split; [done|apply refilled_cap]|lra|lra|done|].
    eapply Qle_trans; [|exact Hge].
    assert ((w + eps / refill_rate) * refill_rate <= (now2 - now - eps) * refill_rate)%Q by (apply Qmult_le_compat_r; lra).
    lra. }
  pose proof (check_token_bucket_script key requested now2 l') as Hs2. unfold bucket_script in Hs2.
  rewrite (proj2 (Qle_bool_iff _ _) Hgrant) in Hs2.
  destruct (check_token_bucket _ _ _ _ _ _) as [[[lim ?] ?] ?]. cbn. apply Hs2.
Qed.

End Bucket.

(** ** Witnesses *)

(** Steps as functions, for the runs below. *)
Definition run_arrive key limit window member now clock (st : window_state) : window_state :=
  let '(limited, _, _, s') := check_tentatively key member limit window now clock (w_store st) in
  mkWS s' clock (if limited then w_accepted st else (member, now) :: w_accepted st)
    (if limited then member :: w_pending st else w_pending st).

Lemma run_arrive_step key limit window late ahead member now clock st : sent late ahead st member now clock ->
  window_step key limit window late ahead st (run_arrive key limit window member now clock st).
Proof.
  intros Hs. unfold run_arrive. destruct (check_tentatively _ _ _ _ _ _ _) as [[[l c] r] s'] eqn:E. by eapply Arrive.
Qed.

(** A limit of two in ten microseconds, and clients up to two late: three arrive, the
    third with an older timestamp than the second, is rejected and rolled back. *)
Definition ex_window : window_state :=
  let st := run_arrive "api:a" 2 10 "c" 14 16 (run_arrive "api:a" 2 10 "b" 15 15 (run_arrive "api:a" 2 10 "a" 8 10 window_init)) in
  mkWS (window_rollback (rl_format_key "api:a") "c" (w_store st)) (w_clock st) (w_accepted st)
    (filter (fun m => m <> "c") (w_pending st)).
Lemma ex_window_reachable : rtc (window_step "api:a" 2 10 2 0) window_init ex_window.
Proof.
  unfold ex_window. eapply rtc_r; [|apply (Undo "api:a" 2 10 2 0 _ "c"); by apply (bool_decide_unpack _)].
  do 3 (eapply rtc_r; [|apply run_arrive_step; constructor; [vm_compute; discriminate|lia|lia|..]; by apply (bool_decide_unpack _)]).
  apply rtc_refl.
Qed.


(** The configured window itself is not kept when timestamps come out of order: two
    requests at 5, one at 16 that prunes them, one stamped 14 that arrives last, and
    [4 .. 14] holds three of a limit of two. *)
Example late_timestamp_exceeds_window :
  let st := run_arrive "api:a" 2 10 "d" 14 16 (run_arrive "api:a" 2 10 "c" 16 16
              (run_arrive "api:a" 2 10 "b" 5 5 (run_arrive "api:a" 2 10 "a" 5 5 window_init))) in
  rtc (window_step "api:a" 2 10 2 0) window_init st /\ length (accepted_within 14 10 st) = 3%nat.
Proof.
  split; [|reflexivity].
  do 4 (eapply rtc_r; [|apply run_arrive_step; constructor; [vm_compute; discriminate|lia|lia|..]; by apply (bool_decide_unpack _)]).
  apply rtc_refl.
Qed.

(** A status query deletes what is older than the window it was asked for: asking for
    the last second resets the quota of a limiter of one request a minute. *)
Example status_query_resets_quota :
  let s1 := (check_distributed_rate_limit "api:a" "a" 1 60000000 0 0 (w_store window_init)).2 in
  let s2 := (get_client_status "api:a" 1000000 2000000 2000000 s1).2 in
  (check_distributed_rate_limit "api:a" "b" 1 60000000 3000000 3000000 s1).1.1.1 = true /\
  (check_distributed_rate_limit "api:a" "b" 1 60000000 3000000 3000000 s2).1.1.1 = false.
Proof. split; reflexivity. Qed.

Definition ex_zstore : zstore := zput "ratelimit:api:alice" (mkZset [("5:x", 5)] None) (fun _ => mkZset [] None).

Lemma rejected_request_costs_nothing_witness :
  let '(limited, count, retry, s') := check_distributed_rate_limit "api:alice" "9:y" 1 60 9 9 ex_zstore in
  limited = true /\ z_entries (s' "ratelimit:api:alice") = [("5:x", 5)].
Proof.
  pose proof (rejected_request_costs_nothing "api:alice" 1 60 ltac:(lia) "9:y" 9 9 ex_zstore ltac:(lia)) as Hr.
  cbn zeta in Hr. specialize (Hr ltac:(intros e [_ He]%list_elem_of_filter; apply list_elem_of_singleton in He as ->; done)
    ltac:(by apply (bool_decide_unpack _))).
  destruct (check_distributed_rate_limit _ _ _ _ _ _ _) as [[[limited count] retry] s'] eqn:E.
  destruct Hr as (H1 & _ & H3). assert (limited = true) as Hl by (apply H3; vm_compute; discriminate).
  split; [done|]. apply H1. done.
Defined.

(** Capacity 2, one token a second: three requests at once, one five seconds later. *)
Definition ex_reqs : list (Q * Q) := [(1, 10); (1, 10); (1, 10); (1, 15)]%Q.

Lemma token_bucket_rate_witness :
  (run_requests id 2 1 ex_reqs None).1 == 3 /\ ((run_requests id 2 1 ex_reqs None).1 <= 2 + 1 * (15 - 10) + 4 * slack 1 0)%Q.
Proof.
  split; [reflexivity|].
  apply (token_bucket_rate id 2 1 0 1000 ltac:(lra) ltac:(lra) ltac:(lra) ltac:(lra)
    ltac:(intros x Hx; unfold id; split; lra) ltac:(intros x Hx; exact Hx) ex_reqs 10 ltac:(lra) ltac:(cbn; repeat split; lra)).
Defined.

Definition ex_limiter : limiter := mkLimiter (fun _ => Some (mkBucket (1 # 2) 10 20)) false true.

Lemma token_bucket_retry_succeeds_witness :
  (check_token_bucket id "alice" 2 1 1 10 ex_limiter).1 = (true, (1 # 2), (1 # 2))%Q /\
  (check_token_bucket id "alice" 2 1 1 11 (check_token_bucket id "alice" 2 1 1 10 ex_limiter).2).1.1.1 = false.
Proof.
  split; [vm_compute; reflexivity|].
  refine (proj2 (token_bucket_retry_succeeds id 2 1 0 1000 ltac:(lra) ltac:(lra) ltac:(lra) ltac:(lra)
    ltac:(intros x Hx; unfold id; split; lra) ltac:(intros x Hx; exact Hx) "alice" 1 10 11 ex_limiter (1 # 2) (1 # 2)
    (check_token_bucket id "alice" 2 1 1 10 ex_limiter).2
    ltac:(lra) ltac:(split; lra) ltac:(vm_compute; discriminate) ltac:(vm_compute; discriminate) eq_refl) _).
  vm_compute; discriminate.
Defined.
