(* ===== verification/Errors.v ===== *)
(** Domain exceptions and the global exception handlers
    ([app/core/exceptions.py], [app/core/exception_handlers.py],
    [app/schemas/error.py]).

    An exception instance is its class with the attributes the handlers read; the
    classes are the domain constructors of [exc].  The UTC time and the generated
    trace id of a response are arguments, [float_str] is Python's text of a float. *)

From Stdlib Require Import QArith Qround.
From stdpp Require Import pretty.
From S2P Require Import Prelude.

Local Open Scope Z_scope.

(** ** The class hierarchy *)

(** The base class of a domain exception class; [None] for the root and for classes
    that are not of the domain. *)
Definition parent (c : exc) : option exc :=
  match c with
  | EntityNotFoundException | EntityConflictException | AuthenticationException | AuthorizationException
  | BusinessRuleViolationException | SecurityViolationException | ServiceUnavailableException
  | ValidationException | DatabaseQueryTimeoutException | ConnectionPoolExhaustedException
  | UnbalancedJournalEntryException | InsufficientFundsException | InvalidFXRateException
  | LockAcquisitionTimeoutException | ConcurrentTransferInProgressException | FraudDetectedException =>
      Some BaseDomainException
  | SSRFSecurityException | PathTraversalException | EncryptionTamperingException => Some SecurityViolationException
  | UserAlreadyExistsException | OptimisticLockException | DistributedLockConflictException
  | DuplicateReferenceException => Some EntityConflictException
  | UserNotFoundException | PlayerNotFoundException | DocumentNotFoundException | ProductNotFoundException
  | OrderNotFoundException | LedgerAccountNotFoundException => Some EntityNotFoundException
  | InsufficientStockException | ReadOnlyReplicaMutationException | UnsafeQueryExecutionException
  | InactiveLedgerAccountException | SelfTransferNotAllowedException | CurrencyMismatchException =>
      Some BusinessRuleViolationException
  | CircuitBreakerOpenException | BulkheadFullException => Some ServiceUnavailableException
  | InvalidCursorException => Some ValidationException
  | _ => None
  end.

(** The method resolution order below [BaseDomainException]: no chain is longer than
    three classes. *)
Definition mro (c : exc) : list exc :=
  c :: match parent c with
       | None => []
       | Some p => p :: match parent p with None => [] | Some q => [q] end
       end.
Definition isinstance (c cls : exc) : bool := bool_decide (cls ∈ mro c).
Definition is_domain (c : exc) : bool := isinstance c BaseDomainException.

(** ** Instances *)

(** A Python number. *)
Inductive num : Type := NInt (z : Z) | NFloat (q : Q).
Definition is_integer (q : Q) : bool := Qeq_bool q (inject_Z (Qfloor q)).

Record error : Type := mkErr {
  er_class : exc;
  er_message : string;
  er_code : string;
  er_headers : option (list (string * string));
  er_retry_after : option num;
  er_fraud : option (Z * list string)           (* risk_score, reasons *)
}.

Definition base_init (cls : exc) (message code : string) : error := mkErr cls message code None None None.
Definition with_retry (n : option num) (e : error) : error :=
  mkErr (er_class e) (er_message e) (er_code e) (er_headers e) n (er_fraud e).

Definition init_BaseDomain (message : string) (code : option string) : error :=
  base_init BaseDomainException message (default "DOMAIN_ERROR" code).
Definition init_Authentication (message code : option string) (headers : option (list (string * string))) : error :=
  let h := match headers with Some (x :: l) => x :: l | _ => [("WWW-Authenticate", "Bearer")] end in
  mkErr AuthenticationException (default "Authentication failed: invalid credentials or expired token." message)
    (default "UNAUTHORIZED" code) (Some h) None None.
(** The identifier of [UserNotFoundException]: an id, a name or nothing. *)
Definition init_UserNotFound (identifier : option (Z + string)) (user_id : option Z) (code : option string) : error :=
  let target := match user_id with Some i => Some (inl i) | None => identifier end in
  let message := match target with
    | Some (inl i) => "User with ID " +:+ pretty i +:+ " was not found."
    | Some (inr n) => "User with username '" +:+ n +:+ "' was not found."
    | None => "User was not found."
    end in
  base_init UserNotFoundException message (default "USER_NOT_FOUND" code).
Definition init_PlayerNotFound (player_id leaderboard_id : string) (code : option string) : error :=
  base_init PlayerNotFoundException
    ("Player '" +:+ player_id +:+ "' is not present on leaderboard '" +:+ leaderboard_id +:+ "'.")
    (default "PLAYER_NOT_FOUND" code).
Definition init_DocumentNotFound (doc_id : Z) (code : option string) : error :=
  base_init DocumentNotFoundException ("Document with ID " +:+ pretty doc_id +:+ " was not found.")
    (default "DOCUMENT_NOT_FOUND" code).
Definition init_ProductNotFound (product_id : Z) (code : option string) : error :=
  base_init ProductNotFoundException ("Product with ID " +:+ pretty product_id +:+ " was not found.")
    (default "ENTITY_NOT_FOUND" code).
Definition init_OrderNotFound (order_id : string) (code : option string) : error :=
  base_init OrderNotFoundException ("Order with ID '" +:+ order_id +:+ "' was not found.") (default "ORDER_NOT_FOUND" code).
Definition init_ServiceUnavailable (message code : option string) (retry_after : option num) : error :=
  with_retry retry_after (base_init ServiceUnavailableException
    (default "Downstream service is temporarily unavailable. Please retry later." message)
    (default "SERVICE_UNAVAILABLE" code)).
Definition init_CircuitBreakerOpen (message code : option string) (recovery_timeout : option Q) : error :=
  let timeout := default 30%Q recovery_timeout in
  let retry_after_val := if is_integer timeout then NInt (Qfloor timeout) else NFloat timeout in
  with_retry (Some retry_after_val) (base_init CircuitBreakerOpenException
    (default "Downstream service is unavailable. Circuit breaker is OPEN. Please retry later." message)
    (default "CIRCUIT_BREAKER_OPEN" code)).
(** [message or f"..."]: an empty message is replaced too. *)
Definition init_BulkheadFull (compartment message code : option string) (retry_after : option num) : error :=
  let c := default "default" compartment in
  let msg := match message with
    | Some m => if bool_decide (m = "") then "Bulkhead capacity for compartment '" +:+ c +:+ "' exceeded. Please retry later." else m
    | None => "Bulkhead capacity for compartment '" +:+ c +:+ "' exceeded. Please retry later."
    end in
  let r := match default (NInt 5) retry_after with
    | NFloat q => if is_integer q then NInt (Qfloor q) else NFloat q
    | n => n
    end in
  with_retry (Some r) (base_init BulkheadFullException msg (default "BULKHEAD_CAPACITY_EXCEEDED" code)).
Definition init_DatabaseQueryTimeout (message code : option string) (timeout_ms : option Z) : error :=
  let m := match timeout_ms with
    | Some t => "Database query execution exceeded statement timeout (" +:+ pretty t +:+ "ms) and was terminated."
    | None => default "Database query execution exceeded statement timeout and was terminated." message
    end in
  base_init DatabaseQueryTimeoutException m (default "DATABASE_QUERY_TIMEOUT" code).
Definition init_ConnectionPoolExhausted (message code : option string) (retry_after : option num) : error :=
  with_retry (Some (default (NInt 5) retry_after)) (base_init ConnectionPoolExhaustedException
    (default "Database connection pool is fully saturated. Please retry later." message)
    (default "CONNECTION_POOL_EXHAUSTED" code)).
Definition init_LockAcquisitionTimeout (message : option string) (retry_after : option Z) (code : option string) : error :=
  with_retry (Some (NInt (default 2 retry_after))) (base_init LockAcquisitionTimeoutException
    (default "Unable to acquire distributed lock within timeout window. High lock contention detected." message)
    (default "LOCK_TIMEOUT" code)).
Definition init_FraudDetected (message : option string) (risk_score : option Z) (reasons : option (list string))
    (code : option string) : error :=
  mkErr FraudDetectedException (default "Transfer rejected due to high fraud risk assessment." message)
    (default "FRAUD_RISK_REJECTED" code) None None (Some (default 100 risk_score, default [] reasons)).

(** The classes whose constructor only has a default message and code; the other
    attributes they store are read by no handler. *)
Definition init_EntityNotFound (message code : option string) : error :=
  base_init EntityNotFoundException (default "Requested entity was not found." message)
    (default "ENTITY_NOT_FOUND" code).
Definition init_EntityConflict (message code : option string) : error :=
  base_init EntityConflictException (default "Entity already exists or conflict occurred." message)
    (default "ENTITY_CONFLICT" code).
Definition init_Authorization (message code : option string) : error :=
  base_init AuthorizationException (default "Access denied: insufficient permissions." message)
    (default "AUTHORIZATION_FAILED" code).
Definition init_BusinessRuleViolation (message code : option string) : error :=
  base_init BusinessRuleViolationException (default "Business rule violated." message)
    (default "BUSINESS_RULE_VIOLATION" code).
Definition init_SecurityViolation (message code : option string) : error :=
  base_init SecurityViolationException (default "Security policy violation detected." message)
    (default "SECURITY_VIOLATION" code).
Definition init_SSRFSecurity (message code : option string) : error :=
  base_init SSRFSecurityException (default "SSRF security violation: Destination address resolves to forbidden IP network." message)
    (default "SSRF_FORBIDDEN_DESTINATION" code).
Definition init_PathTraversal (message code : option string) : error :=
  base_init PathTraversalException (default "Path traversal violation: Input contains prohibited path manipulation characters." message)
    (default "PATH_TRAVERSAL_DETECTED" code).
Definition init_EncryptionTampering (message code : option string) : error :=
  base_init EncryptionTamperingException (default "Ciphertext integrity verification failed or payload has been tampered with." message)
    (default "ENCRYPTION_TAMPERING_DETECTED" code).
Definition init_UserAlreadyExists (message code : option string) : error :=
  base_init UserAlreadyExistsException (default "A user with this email or username already exists." message)
    (default "ENTITY_CONFLICT" code).
Definition init_OptimisticLock (message code : option string) : error :=
  base_init OptimisticLockException (default "Resource was modified by another transaction. Stale version detected; please refresh and retry." message)
    (default "CONCURRENCY_CONFLICT" code).
Definition init_DistributedLockConflict (message code : option string) : error :=
  base_init DistributedLockConflictException (default "Resource is currently locked by another concurrent process. Please retry later." message)
    (default "LOCK_CONFLICT" code).
Definition init_InsufficientStock (message code : option string) : error :=
  base_init InsufficientStockException (default "Requested quantity exceeds available stock." message)
    (default "INSUFFICIENT_STOCK" code).
Definition init_ReadOnlyReplicaMutation (message code : option string) : error :=
  base_init ReadOnlyReplicaMutationException (default "Mutating operations (INSERT/UPDATE/DELETE) are strictly prohibited on read replica engines." message)
    (default "READ_REPLICA_MUTATION_FORBIDDEN" code).
Definition init_UnsafeQueryExecution (message code : option string) : error :=
  base_init UnsafeQueryExecutionException (default "Query plan diagnostics strictly forbid mutating or dangerous SQL statements." message)
    (default "UNSAFE_DIAGNOSTIC_QUERY" code).
Definition init_Validation (message code : option string) : error :=
  base_init ValidationException (default "Input validation invariant failed." message)
    (default "VALIDATION_ERROR" code).
Definition init_InvalidCursor (message code : option string) : error :=
  base_init InvalidCursorException (default "Invalid, malformed, or tampered pagination cursor token." message)
    (default "INVALID_CURSOR" code).
Definition init_UnbalancedJournalEntry (message code : option string) : error :=
  base_init UnbalancedJournalEntryException (default "Journal entry postings must satisfy the zero-sum balance invariant: sum(Debits) must equal sum(Credits)." message)
    (default "UNBALANCED_JOURNAL_ENTRY" code).
Definition init_LedgerAccountNotFound (message code : option string) : error :=
  base_init LedgerAccountNotFoundException (default "Specified ledger account was not found." message)
    (default "LEDGER_ACCOUNT_NOT_FOUND" code).
Definition init_InactiveLedgerAccount (message code : option string) : error :=
  base_init InactiveLedgerAccountException (default "Cannot post journal transaction to an inactive ledger account." message)
    (default "INACTIVE_LEDGER_ACCOUNT" code).
Definition init_DuplicateReference (message code : option string) : error :=
  base_init DuplicateReferenceException (default "A journal entry with this idempotency reference ID already exists." message)
    (default "DUPLICATE_JOURNAL_REFERENCE" code).
Definition init_InsufficientFunds (message code : option string) : error :=
  base_init InsufficientFundsException (default "Insufficient funds: Account balance is lower than the requested transfer and fee amount." message)
    (default "INSUFFICIENT_FUNDS" code).
Definition init_SelfTransferNotAllowed (message code : option string) : error :=
  base_init SelfTransferNotAllowedException (default "Self-transfer is prohibited: Source and destination accounts must be distinct." message)
    (default "SELF_TRANSFER_PROHIBITED" code).
Definition init_CurrencyMismatch (message code : option string) : error :=
  base_init CurrencyMismatchException (default "Currency mismatch: Operations between different currencies require explicit FX conversion." message)
    (default "CURRENCY_MISMATCH" code).
Definition init_InvalidFXRate (message code : option string) : error :=
  base_init InvalidFXRateException (default "Invalid FX rate: Exchange rate must be strictly greater than zero." message)
    (default "INVALID_FX_RATE" code).
Definition init_ConcurrentTransferInProgress (message code : option string) : error :=
  base_init ConcurrentTransferInProgressException (default "A concurrent transfer with this reference ID is currently in progress. Please wait." message)
    (default "CONCURRENT_TRANSFER_IN_PROGRESS" code).

(** ** Responses *)

(** One entry of [details]: fraud assessment or a field of a rejected request. *)
Inductive detail_entry : Type :=
  | FraudDetail (risk_score : Z) (reasons : list string)
  | FieldDetail (field message type : string) (location : list string).
Record ErrorDetail : Type := mkErrorDetail {
  ed_code : string;
  ed_message : string;
  ed_status_code : Z;
  ed_timestamp : Z;
  ed_trace_id : string;
  ed_details : option (list detail_entry)
}.

(** A part of the location of a validation error. *)
Inductive loc_part : Type := LStr (s : string) | LInt (i : Z).
Definition loc_str (p : loc_part) : string := match p with LStr s => s | LInt i => pretty i end.
(** An entry of [exc.errors()]. *)
Record field_error : Type := mkFieldError { fe_loc : list loc_part; fe_msg : string; fe_type : string }.

(** The backward-compatible [detail]: the message or the raw errors. *)
Inductive legacy_detail : Type := DText (s : string) | DErrors (l : list field_error).
Record ErrorResponse : Type := mkResponse {
  rs_status : Z;
  rs_error : ErrorDetail;
  rs_detail : legacy_detail;
  rs_headers : option (list (string * string))
}.

(** What reaches the handlers: a domain exception, a rejected request, an
    [HTTPException] with its headers, or anything else with its text. *)
Inductive raised : Type :=
  | RDomain (e : error)
  | RValidation (errors : list field_error)
  | RHttp (status_code : Z) (detail : string) (headers : option (list (string * string)))
  | ROther (text : string).

Section Handlers.
Variable float_str : Q -> string.

Definition num_str (n : num) : string := match n with NInt z => pretty z | NFloat q => float_str q end.

(** [_HTTP_STATUS_CODE_MAP] *)
Definition http_status_code_map (status : Z) : option string :=
  match status with
  | 400 => Some "BAD_REQUEST" | 401 => Some "UNAUTHORIZED" | 403 => Some "FORBIDDEN" | 404 => Some "NOT_FOUND"
  | 405 => Some "METHOD_NOT_ALLOWED" | 409 => Some "CONFLICT" | 422 => Some "UNPROCESSABLE_ENTITY"
  | 429 => Some "RATE_LIMITED" | 503 => Some "SERVICE_UNAVAILABLE" | 504 => Some "GATEWAY_TIMEOUT"
  | _ => None
  end.

(** [_resolve_domain_status_code] *)
Definition resolve_domain_status_code (c : exc) : Z :=
  if isinstance c AuthenticationException then 401
  else if isinstance c EntityNotFoundException then 404
  else if isinstance c EntityConflictException || isinstance c ConcurrentTransferInProgressException then 409
  else if isinstance c AuthorizationException || isinstance c FraudDetectedException then 403
  else if isinstance c UnbalancedJournalEntryException || isinstance c InsufficientFundsException ||
          isinstance c InvalidFXRateException then 422
  else if isinstance c CurrencyMismatchException || isinstance c SecurityViolationException ||
          isinstance c BusinessRuleViolationException || isinstance c ValidationException then 400
  else if isinstance c DatabaseQueryTimeoutException then 504
  else if isinstance c ConnectionPoolExhaustedException || isinstance c ServiceUnavailableException ||
          isinstance c LockAcquisitionTimeoutException then 503
  else 400.

(** [getattr(request.state, "request_id", None) or str(uuid.uuid4())] *)
Definition trace_of (request_id : option string) (uuid : string) : string :=
  match request_id with Some r => if bool_decide (r = "") then uuid else r | None => uuid end.

Definition domain_exception_handler (now : Z) (request_id : option string) (uuid : string) (e : error) : ErrorResponse :=
  let status_code := resolve_domain_status_code (er_class e) in
  let details := match er_fraud e with Some (risk_score, reasons) => Some [FraudDetail risk_score reasons] | None => None end in
  let headers := default [] (er_headers e) in
  let headers := match er_retry_after e with
    | Some n => dict_set headers "Retry-After" (num_str n)
    | None => headers
    end in
  mkResponse status_code
    (mkErrorDetail (er_code e) (er_message e) status_code now (trace_of request_id uuid) details)
    (DText (er_message e)) (match headers with [] => None | _ => Some headers end).

(** [".".join(...)] *)
Fixpoint join_dots (l : list string) : string :=
  match l with [] => "" | [s] => s | s :: l' => s +:+ "." +:+ join_dots l' end.
Definition is_body (p : loc_part) : bool := match p with LStr s => bool_decide (s = "body") | LInt _ => false end.
Definition parse_field (e : field_error) : detail_entry :=
  FieldDetail (join_dots (loc_str <$> filter (fun p => is_body p = false) (fe_loc e))) (fe_msg e) (fe_type e)
    (loc_str <$> fe_loc e).
Definition validation_exception_handler (now : Z) (request_id : option string) (uuid : string) (errors : list field_error)
  : ErrorResponse :=
  mkResponse 422
    (mkErrorDetail "FIELD_VALIDATION_ERROR" "Request validation failed. Check 'details' for field-level errors." 422 now
       (trace_of request_id uuid) (Some (parse_field <$> errors)))
    (DErrors errors) None.

Definition http_exception_handler (now : Z) (request_id : option string) (uuid : string) (status_code : Z)
    (detail : string) (headers : option (list (string * string))) : ErrorResponse :=
  let code := match http_status_code_map status_code with Some c => c | None => "HTTP_" +:+ pretty status_code end in
  let message := if bool_decide (detail = "") then "An HTTP error occurred." else detail in
  mkResponse status_code (mkErrorDetail code message status_code now (trace_of request_id uuid) None) (DText message) headers.

Definition unhandled_exception_handler (now : Z) (request_id : option string) (uuid : string) (text : string) : ErrorResponse :=
  let masked_message := "An unexpected error occurred. Please contact support with trace ID." in
  mkResponse 500 (mkErrorDetail "INTERNAL_SERVER_ERROR" masked_message 500 now (trace_of request_id uuid) None)
    (DText masked_message) None.

(** [register_exception_handlers]: the handler of the most specific registered class. *)
Definition handle (now : Z) (request_id : option string) (uuid : string) (r : raised) : ErrorResponse :=
  match r with
  | RDomain e => domain_exception_handler now request_id uuid e
  | RValidation errors => validation_exception_handler now request_id uuid errors
  | RHttp status_code detail headers => http_exception_handler now request_id uuid status_code detail headers
  | ROther text => unhandled_exception_handler now request_id uuid text
  end.

(** ** Theorems *)

(** The status each docstring of [exceptions.py] announces. *)
Definition documented_status (c : exc) : option Z :=
  match c with
  | EntityNotFoundException | DocumentNotFoundException | ProductNotFoundException | OrderNotFoundException
  | LedgerAccountNotFoundException => Some 404
  | EntityConflictException | DistributedLockConflictException | DuplicateReferenceException
  | ConcurrentTransferInProgressException => Some 409
  | AuthenticationException => Some 401
  | AuthorizationException | FraudDetectedException => Some 403
  | BusinessRuleViolationException | SecurityViolationException | InsufficientStockException
  | ReadOnlyReplicaMutationException | ValidationException | InvalidCursorException | InactiveLedgerAccountException
  | SelfTransferNotAllowedException | CurrencyMismatchException => Some 400
  | ServiceUnavailableException | CircuitBreakerOpenException | BulkheadFullException
  | ConnectionPoolExhaustedException | LockAcquisitionTimeoutException => Some 503
  | DatabaseQueryTimeoutException => Some 504
  | UnbalancedJournalEntryException | InsufficientFundsException | InvalidFXRateException => Some 422
  | _ => None
  end.

(** Case analysis on a class decides anything about the hierarchy. *)
Lemma mro_below c p q : parent c = Some p -> parent p = Some q -> parent q = None.
Proof. by destruct c; intros [= <-]; intros [= <-]. Qed.

Lemma isinstance_trans a b c : isinstance a b = true -> isinstance b c = true -> isinstance a c = true.
Proof.
  unfold isinstance. rewrite !bool_decide_eq_true. unfold mro. intros Hab Hbc.
  destruct (parent a) as [p|] eqn:Ea; [destruct (parent p) as [q|] eqn:Ep|].
  - pose proof (mro_below a p q Ea Ep) as Hq. rewrite !elem_of_cons, elem_of_nil in Hab. destruct Hab as [->|[->|[->|[]]]].
    + by rewrite Ea, Ep in Hbc.
    + rewrite Ep, Hq in Hbc. by right.
    + rewrite Hq in Hbc. by right; right.
  - rewrite !elem_of_cons, elem_of_nil in Hab. destruct Hab as [->|[->|[]]].
    + by rewrite Ea, Ep in Hbc.
    + rewrite Ep in Hbc. by right.
  - apply list_elem_of_singleton in Hab as ->. by rewrite Ea in Hbc.
Qed.

(** The status code of a domain exception respects the class hierarchy: a subclass
    gets the status of each of its bases below the root, whatever the order of the
    tests; and where the class documents a status, it is that one. *)
Theorem status_respects_hierarchy c :
  (forall b, isinstance c b = true -> b <> BaseDomainException -> is_domain b = true ->
     resolve_domain_status_code c = resolve_domain_status_code b) /\
  (forall st, documented_status c = Some st -> resolve_domain_status_code c = st).
Proof.
  split; [|by destruct c; intros st [= <-]].
  intros b Hb Hr Hd. unfold isinstance in Hb. apply bool_decide_eq_true in Hb.
  destruct c; unfold mro in Hb; cbn [parent] in Hb; rewrite ?elem_of_cons, ?elem_of_nil in Hb;
    repeat (destruct Hb as [->|Hb]; [first [done|by vm_compute in Hd|by destruct (Hr eq_refl)|reflexivity]|]); done.
Qed.

Definition header (k : string) (r : ErrorResponse) : option string := dict_get (default [] (rs_headers r)) k.

(** What the envelope of a raised exception promises about its headers and details. *)
Definition carries (r : raised) (resp : ErrorResponse) : Prop :=
  match r with
  | RDomain e =>
      ed_code (rs_error resp) = er_code e /\ rs_detail resp = DText (er_message e) /\
      (forall n, er_retry_after e = Some n -> header "Retry-After" resp = Some (num_str n)) /\
      (forall k, k <> "Retry-After" -> header k resp = dict_get (default [] (er_headers e)) k) /\
      (forall base st, isinstance (er_class e) base = true -> documented_status base = Some st -> rs_status resp = st) /\
      (er_class e = BaseDomainException -> rs_status resp = 400) /\
      (er_class e = AuthenticationException <-> rs_status resp = 401)
  | RValidation errors =>
      rs_status resp = 422 /\ rs_detail resp = DErrors errors /\
      exists ds, ed_details (rs_error resp) = Some ds /\
        Forall2 (fun err d => exists field, d = FieldDetail field (fe_msg err) (fe_type err) (loc_str <$> fe_loc err)) errors ds
  | RHttp status_code detail headers =>
      rs_status resp = status_code /\ rs_headers resp = headers /\
      rs_detail resp = DText (if bool_decide (detail = "") then "An HTTP error occurred." else detail)
  | ROther _ => rs_status resp = 500 /\ rs_headers resp = None /\ ed_details (rs_error resp) = None
  end.

Lemma only_authentication_401 c : c = AuthenticationException <-> resolve_domain_status_code c = 401.
Proof. by destruct c. Qed.

(** C26: every error leaves through the same envelope: the status code of the body is
    the one of the response, and the trace id is the request's.  A domain exception gets
    the status that its class, or a base class of it, documents (401 only for
    authentication), with its own code and message, its own headers and its retry time; a
    rejected request gets 422 with one detail per error; an [HTTPException] keeps its
    status, its headers and its text; and the response to an unexpected exception is 500
    without headers and does not depend on the exception, so its text is never shown. *)
Theorem error_envelope now request_id uuid r :
  let resp := handle now request_id uuid r in
  ed_status_code (rs_error resp) = rs_status resp /\
  ed_timestamp (rs_error resp) = now /\
  ed_trace_id (rs_error resp) = trace_of request_id uuid /\
  carries r resp /\
  (forall t1 t2, handle now request_id uuid (ROther t1) = handle now request_id uuid (ROther t2)).
Proof.
  cbn zeta. split; [by destruct r|]. split; [by destruct r|]. split; [by destruct r|]. split; [|done].
  destruct r as [e|errors|st d h|t]; cbn [handle carries].
  - split; [done|]. split; [done|]. unfold header, domain_exception_handler. cbn [rs_headers rs_status].
    set (h := default [] (er_headers e)).
    assert (forall l : list (string * string), default [] (match l with [] => None | _ => Some l end) = l) as Hd by by intros [|].
    rewrite Hd. split; [|split; [|split; [|split; [by intros ->|apply only_authentication_401]]]].
    + intros n ->. by rewrite dict_get_set, decide_True.
    + intros k Hk. destruct (er_retry_after e) as [n|]; [|done]. by rewrite dict_get_set, decide_False.
    + intros base st Hb Hst. destruct (status_respects_hierarchy (er_class e)) as [Hh _].
      rewrite (Hh base Hb); [by apply status_respects_hierarchy|by intros ->|by destruct base].
  - split; [done|]. split; [done|]. eexists. split; [reflexivity|].
    clear. induction errors as [|err errors IH]; constructor; [by eexists|done].
  - done.
  - done.
Qed.

End Handlers.

(** An expired lock answers 503 and tells the client to come back after two seconds. *)
Example lock_timeout_response float_str :
  let r := handle float_str 7 (Some "req-1") "uuid" (RDomain (init_LockAcquisitionTimeout None None None)) in
  (rs_status r, header "Retry-After" r, ed_code (rs_error r), ed_trace_id (rs_error r)) = (503, Some "2", "LOCK_TIMEOUT", "req-1").
Proof. reflexivity. Qed.
