(* ===== verification/Commerce.v ===== *)
(** Inventory and orders: [app/repositories/product_repository.py] and
    [app/repositories/order_repository.py] (in memory),
    [app/services/inventory_service.py], [app/services/order_service.py], with the
    endpoints of [app/routers/product_router.py] and [app/routers/order_router.py].

    Each service call runs in [async with uow]: the stores are copied on entry and
    put back when the body raises before its commit.  The coroutines of the in-memory
    repositories never suspend, so a call is one step.  Amounts are rationals, UUIDs
    are integers; the generated identifier of an order is an argument. *)

From Stdlib Require Import QArith.
From stdpp Require Import pretty.
From S2P Require Import Prelude UserRepo.

Local Open Scope Z_scope.
Local Open Scope py_scope.

(** ** Stores *)

Record ProductEntity : Type := mkProduct { pd_id : Z; pd_name : string; pd_stock : Z; pd_price : Q }.
Record product_repo : Type := mkProducts { pd_store : list (Z * ProductEntity); pd_current_id : Z }.

(** [InMemoryProductRepository] *)
Definition pd_create (name : string) (stock : Z) (price : Q) (r : product_repo) : ProductEntity * product_repo :=
  let id := pd_current_id r + 1 in
  let entity := mkProduct id name stock price in
  (entity, mkProducts (dict_set (pd_store r) id entity) id).
Definition pd_get_by_id (product_id : Z) (r : product_repo) : option ProductEntity := dict_get (pd_store r) product_id.
Definition pd_get_by_id_with_lock (product_id : Z) (r : product_repo) : option ProductEntity := dict_get (pd_store r) product_id.
Definition pd_list_all (r : product_repo) : list ProductEntity := (pd_store r).*2.
Definition pd_clear (r : product_repo) : product_repo := mkProducts [] 0.
Definition deduct_stock_pessimistic (product_id quantity : Z) (r : product_repo) : result ProductEntity * product_repo :=
  match dict_get (pd_store r) product_id with
  | None => (Raise ProductNotFoundException, r)
  | Some entity =>
      if pd_stock entity <? quantity then (Raise InsufficientStockException, r)
      else
        let updated := mkProduct (pd_id entity) (pd_name entity) (pd_stock entity - quantity) (pd_price entity) in
        (Ok updated, mkProducts (dict_set (pd_store r) product_id updated) (pd_current_id r))
  end.

Record OrderEntity : Type := mkOrder { or_id : Z; or_user_id : Z; or_total_amount : Q; or_status : string; or_created_at : Z }.
Definition order_repo : Type := list (Z * OrderEntity).

(** [InMemoryOrderRepository] *)
Definition or_create (now generated : Z) (user_id : Z) (total_amount : Q) (status : string) (order_id : option Z)
    (r : order_repo) : OrderEntity * order_repo :=
  let assigned_id := default generated order_id in
  let entity := mkOrder assigned_id user_id total_amount status now in
  (entity, dict_set r assigned_id entity).
Definition or_get_by_id (order_id : Z) (r : order_repo) : option OrderEntity := dict_get r order_id.
Definition order_leb (a b : OrderEntity) : bool := or_id a <=? or_id b.
Definition or_list_by_user_id (user_id limit offset : Z) (r : order_repo) : list OrderEntity :=
  py_slicez (stable_sort order_leb (filter (fun o => or_user_id o = user_id) r.*2)) offset (offset + limit).

(** The event an order leaves in the outbox. *)
Record order_event : Type := mkOrderEvent {
  oe_id : Z; oe_event_type : string; oe_aggregate_type : string; oe_aggregate_id : Z;
  oe_user_id : Z; oe_total_amount : Q; oe_status : string; oe_created_at : Z }.

(** ** Unit of work *)

Record shop : Type := mkShop {
  sh_users : user_repo;
  sh_products : product_repo;
  sh_orders : order_repo;
  sh_outbox : list (Z * order_event)
}.
(** The live stores and the snapshot of [__aenter__], gone after [commit]. *)
Record shop_uow : Type := mkSU { su_live : shop; su_snapshot : option shop }.

Abbreviation SH := (M shop_uow).

Definition set_products (p : product_repo) (s : shop) : shop := mkShop (sh_users s) p (sh_orders s) (sh_outbox s).
Definition set_orders (o : order_repo) (s : shop) : shop := mkShop (sh_users s) (sh_products s) o (sh_outbox s).
Definition set_outbox (o : list (Z * order_event)) (s : shop) : shop := mkShop (sh_users s) (sh_products s) (sh_orders s) o.
Definition on_shop {A} (f : shop -> A * shop) : SH A := fun u =>
  let '(a, s) := f (su_live u) in (Ok a, mkSU s (su_snapshot u)).
Definition su_commit : SH () := fun u => (Ok (), mkSU (su_live u) None).
(** [async with uow: body] *)
Definition in_uow {A} (body : SH A) : SH A := fun u =>
  match body (mkSU (su_live u) (Some (su_live u))) with
  | (Ok a, u') => (Ok a, mkSU (su_live u') None)
  | (Raise e, u') => (Raise e, mkSU (default (su_live u') (su_snapshot u')) None)
  end.

(** ** Inventory service *)

Definition create_product (name : string) (stock : Z) (price : Q) : SH ProductEntity :=
  in_uow (let! product := on_shop (fun s => let '(p, r) := pd_create name stock price (sh_products s) in (p, set_products r s)) in
          su_commit ;;; ret product).
Definition get_product_by_id (product_id : Z) : SH ProductEntity :=
  in_uow (let! product := gets (fun u => pd_get_by_id product_id (sh_products (su_live u))) in
          match product with None => raise ProductNotFoundException | Some p => ret p end).
Definition list_products : SH (list ProductEntity) := in_uow (gets (fun u => pd_list_all (sh_products (su_live u)))).
(** [commit_fails] is an exception of the commit itself. *)
Definition checkout_product (product_id quantity : Z) (commit_fails : option exc) : SH ProductEntity :=
  in_uow (let! res := on_shop (fun s => let '(p, r) := deduct_stock_pessimistic product_id quantity (sh_products s) in (p, set_products r s)) in
          let! updated_product := lift_result res in
          match commit_fails with Some e => raise e | None => su_commit end ;;;
          ret updated_product).

(** Endpoints: [ProductCreate] and [CheckoutRequest] are validated first. *)
Definition create_product_endpoint (name : string) (stock : Z) (price : Q) : SH ProductEntity :=
  raise_if (negb ((1 <=? String.length name)%nat && (String.length name <=? 100)%nat && (0 <=? stock) && negb (Qle_bool price 0)))
    PydanticValidationError ;;;
  create_product name stock price.
Definition get_product_endpoint (product_id : Z) : SH ProductEntity :=
  raise_if (product_id <? 1) PydanticValidationError ;;; get_product_by_id product_id.
(** Identifier, name, remaining stock and deducted quantity. *)
Definition checkout_product_endpoint (product_id quantity : Z) (commit_fails : option exc) : SH (Z * string * Z * Z) :=
  raise_if ((product_id <? 1) || (quantity <=? 0)) PydanticValidationError ;;;
  let! p := checkout_product product_id quantity commit_fails in
  ret (pd_id p, pd_name p, pd_stock p, quantity).

(** ** Order service *)

Definition create_order (now generated user_id : Z) (total_amount : Q) (status : string) (order_id : option Z)
    (commit_fails : option exc) : SH OrderEntity :=
  in_uow (let! user := gets (fun u => ur_get_by_id user_id (sh_users (su_live u))) in
          match user with
          | None => raise UserNotFoundException
          | Some _ =>
              let! order := on_shop (fun s => let '(o, r) := or_create now generated user_id total_amount status order_id (sh_orders s) in
                (o, set_orders r s)) in
              match commit_fails with Some e => raise e | None => su_commit end ;;;
              ret order
          end).
(** [uow.outbox.record_event], which may raise. *)
Definition record_order_event (eid : Z) (o : OrderEntity) (fails : option exc) : SH order_event :=
  match fails with
  | Some e => raise e
  | None =>
      let ev := mkOrderEvent eid "order.created" "order" (or_id o) (or_user_id o) (or_total_amount o) (or_status o) (or_created_at o) in
      on_shop (fun s => (ev, set_outbox (dict_set (sh_outbox s) eid ev) s))
  end.
Definition create_order_with_outbox (now generated eid user_id : Z) (total_amount : Q) (status : string) (order_id : option Z)
    (event_fails commit_fails : option exc) : SH (OrderEntity * order_event) :=
  in_uow (let! user := gets (fun u => ur_get_by_id user_id (sh_users (su_live u))) in
          match user with
          | None => raise UserNotFoundException
          | Some _ =>
              let! order := on_shop (fun s => let '(o, r) := or_create now generated user_id total_amount status order_id (sh_orders s) in
                (o, set_orders r s)) in
              let! outbox_event := record_order_event eid order event_fails in
              match commit_fails with Some e => raise e | None => su_commit end ;;;
              ret (order, outbox_event)
          end).
Definition get_order_by_id (order_id : Z) : SH OrderEntity :=
  in_uow (let! order := gets (fun u => or_get_by_id order_id (sh_orders (su_live u))) in
          match order with None => raise OrderNotFoundException | Some o => ret o end).
Definition list_orders_by_user (user_id limit offset : Z) : SH (list OrderEntity) :=
  in_uow (gets (fun u => or_list_by_user_id user_id limit offset (sh_orders (su_live u)))).
(** [create_order_endpoint] with the constraints of [OrderCreate] *)
Definition create_order_endpoint (now generated user_id : Z) (total_amount : Q) (commit_fails : option exc) : SH OrderEntity :=
  raise_if ((user_id <? 1) || Qle_bool total_amount 0) PydanticValidationError ;;;
  create_order now generated user_id total_amount "pending" None commit_fails.

(** ** Theorems *)

(** Between calls no snapshot is left. *)
Definition at_rest (s : shop) : shop_uow := mkSU s None.

Lemma checkout_cases id q fails s :
  checkout_product id q fails (at_rest s) =
  match pd_get_by_id id (sh_products s) with
  | None => (Raise ProductNotFoundException, at_rest s)
  | Some p =>
      if pd_stock p <? q then (Raise InsufficientStockException, at_rest s)
      else match fails with
           | Some e => (Raise e, at_rest s)
           | None =>
               let p' := mkProduct (pd_id p) (pd_name p) (pd_stock p - q) (pd_price p) in
               (Ok p', at_rest (set_products (mkProducts (dict_set (pd_store (sh_products s)) id p') (pd_current_id (sh_products s))) s))
           end
  end.
Proof.
  unfold checkout_product, in_uow, bind, on_shop, lift_result, raise, su_commit, ret, at_rest, deduct_stock_pessimistic, pd_get_by_id.
  cbn [su_live]. destruct (dict_get (pd_store (sh_products s)) id) as [p|]; [|by destruct s].
  destruct (pd_stock p <? q); [by destruct s|]. by destruct fails.
Qed.

(** What can happen to the shop. *)
Inductive shop_event : Type :=
  | ECreate (name : string) (stock : Z) (price : Q)
  | ECheckout (product_id quantity : Z) (commit_fails : option exc)
  | EOrder (now generated eid user_id : Z) (total_amount : Q) (event_fails commit_fails : option exc).

(** The stores after an event, and the units of a product it sold or put in stock. *)
Definition shop_exec (e : shop_event) (s : shop) : shop :=
  su_live (match e with
  | ECreate n st pr => (create_product_endpoint n st pr (at_rest s)).2
  | ECheckout id q f => (checkout_product_endpoint id q f (at_rest s)).2
  | EOrder now g eid u t f1 f2 => (create_order_with_outbox now g eid u t "pending" None f1 f2 (at_rest s)).2
  end).
Definition sold (id : Z) (e : shop_event) (s : shop) : Z :=
  match e with
  | ECheckout id' q f => if bool_decide (id = id') && is_ok (checkout_product_endpoint id' q f (at_rest s)).1 then q else 0
  | _ => 0
  end.
Fixpoint shop_run (es : list shop_event) (s : shop) : shop :=
  match es with [] => s | e :: es' => shop_run es' (shop_exec e s) end.
Fixpoint total_sold (id : Z) (es : list shop_event) (s : shop) : Z :=
  match es with [] => 0 | e :: es' => sold id e s + total_sold id es' (shop_exec e s) end.

(** Identifiers are used once and stocks are never negative. *)
Definition shop_ok (s : shop) : Prop :=
  forall id p, pd_get_by_id id (sh_products s) = Some p -> 0 <= pd_stock p /\ id <= pd_current_id (sh_products s).

Lemma order_products now g eid u t f1 f2 s :
  sh_products (su_live (create_order_with_outbox now g eid u t "pending" None f1 f2 (at_rest s)).2) = sh_products s.
Proof.
  unfold create_order_with_outbox, in_uow, bind, gets, raise, on_shop, record_order_event, su_commit, ret, at_rest. cbn [su_live].
  destruct (ur_get_by_id u (sh_users s)); [|done]. by destruct f1, f2.
Qed.

Lemma shop_exec_step e s id p : shop_ok s -> pd_get_by_id id (sh_products s) = Some p ->
  shop_ok (shop_exec e s) /\ exists p', pd_get_by_id id (sh_products (shop_exec e s)) = Some p' /\
    pd_stock p' + sold id e s = pd_stock p /\ pd_price p' = pd_price p /\ pd_name p' = pd_name p.
Proof.
  intros Hok Hp. destruct e as [n st pr|id' q f|now g eid u t f1 f2]; unfold shop_exec, sold.
  - unfold create_product_endpoint, raise_if, bind, raise, ret.
    destruct (_ && _ && _ && _) eqn:Ev; cbn [negb snd su_live at_rest]; [|split; [done|]; exists p; split; [done|]; split; [lia|done]].
    repeat (apply andb_true_iff in Ev as [Ev ?]).
    unfold create_product, in_uow, bind, on_shop, pd_create, su_commit, ret. cbn [su_live snd at_rest set_products sh_products].
    unfold pd_get_by_id. cbn [pd_store pd_current_id]. split.
    + intros id0 p0. unfold pd_get_by_id. cbn -[dict_get dict_set Z.add]. rewrite dict_get_set. case_decide as Hd.
      * intros [= <-]. cbn. lia.
      * intros Hp0. destruct (Hok id0 p0 Hp0). lia.
    + destruct (Hok id p Hp) as [_ Hle]. exists p. rewrite dict_get_set, decide_False by lia. split; [done|]. split; [lia|done].
  - unfold checkout_product_endpoint, raise_if, bind, raise, ret. destruct (_ || _) eqn:Ev; cbn [fst snd is_ok su_live at_rest].
    + split; [done|]. exists p. rewrite andb_false_r. split; [done|]. split; [lia|done].
    + apply orb_false_iff in Ev as [Ev1 Ev2]. rewrite checkout_cases.
      destruct (pd_get_by_id id' (sh_products s)) as [p1|] eqn:E1.
      2: { cbn. rewrite andb_false_r. split; [done|]. exists p. split; [done|]. split; [lia|done]. }
      destruct (Z.ltb_spec (pd_stock p1) q) as [Hlt|Hge].
      { cbn. rewrite andb_false_r. split; [done|]. exists p. split; [done|]. split; [lia|done]. }
      destruct f as [e|]; cbn [fst snd is_ok su_live at_rest set_products sh_products pd_store pd_current_id].
      { rewrite andb_false_r. split; [done|]. exists p. split; [done|]. split; [lia|done]. }
      rewrite andb_true_r. unfold pd_get_by_id in *. cbn [sh_products pd_store pd_current_id]. split.
      * intros id0 p0. unfold pd_get_by_id. cbn -[dict_get dict_set Z.add]. rewrite dict_get_set. case_decide as Hd.
        -- intros [= <-]. subst. destruct (Hok id0 p1 E1). cbn. lia.
        -- apply Hok.
      * rewrite dict_get_set. case_decide as Hd; subst.
        -- rewrite bool_decide_true by done. eexists. split; [reflexivity|]. assert (p1 = p) as -> by congruence. cbn. split; [lia|done].
        -- rewrite bool_decide_false by congruence. exists p. split; [done|]. split; [lia|done].
  - split; [|exists p; rewrite order_products; split; [done|]; split; [lia|done]].
    intros id0 p0. rewrite order_products. apply Hok.
Qed.

(** C20: the shop never oversells: whatever requests come in whatever order, failed
    commits included, the stock of a product is never negative, and its stock at the
    start is what is left plus the quantities of the checkouts that succeeded. *)
Theorem stock_conserved es s id p : shop_ok s -> pd_get_by_id id (sh_products s) = Some p ->
  exists p', pd_get_by_id id (sh_products (shop_run es s)) = Some p' /\
    0 <= pd_stock p' /\ pd_stock p' + total_sold id es s = pd_stock p /\ pd_price p' = pd_price p.
Proof.
  revert s p. induction es as [|e es IH]; intros s p Hok Hp; cbn [shop_run total_sold].
  - exists p. destruct (Hok id p Hp). split; [done|]. split; [lia|]. split; [lia|done].
  - destruct (shop_exec_step e s id p Hok Hp) as (Hok' & p1 & Hp1 & Hs & Hpr & _).
    destruct (IH _ _ Hok' Hp1) as (p' & H1 & H2 & H3 & H4). exists p'. split; [done|]. split; [lia|]. split; [lia|congruence].
Qed.

(** An order and its outbox event are stored together or not at all: a call that
    raises, because the user is unknown, the event cannot be recorded or the commit
    fails, leaves every store as it was; a call that returns has stored both, under
    the identifiers it reports, with the user, amount and status asked for. *)
Theorem order_outbox_atomic now g eid user_id total status order_id f1 f2 s :
  let '(r, u') := create_order_with_outbox now g eid user_id total status order_id f1 f2 (at_rest s) in
  match r with
  | Raise e => u' = at_rest s
  | Ok (o, ev) =>
      is_Some (ur_get_by_id user_id (sh_users s)) /\ f1 = None /\ f2 = None /\
      o = mkOrder (default g order_id) user_id total status now /\
      or_get_by_id (or_id o) (sh_orders (su_live u')) = Some o /\
      dict_get (sh_outbox (su_live u')) eid = Some ev /\ oe_aggregate_id ev = or_id o /\ oe_total_amount ev = total /\
      su_snapshot u' = None /\ sh_products (su_live u') = sh_products s /\ sh_users (su_live u') = sh_users s
  end.
Proof.
  unfold create_order_with_outbox, in_uow, bind, gets, raise, on_shop, record_order_event, su_commit, ret, at_rest. cbn [su_live].
  destruct (ur_get_by_id user_id (sh_users s)) eqn:Eu; [|by destruct s].
  destruct f1; [by destruct s|]. destruct f2; [by destruct s|]. cbn. unfold or_get_by_id. rewrite !dict_get_set_eq.
  repeat split; eauto.
Qed.

(** ** Witnesses *)

Definition demo_shop : shop := mkShop demo_repo (mkProducts [(1, mkProduct 1 "pen" 3 2)] 1) [] [].

Lemma stock_conserved_witness :
  total_sold 1 [ECheckout 1 2 None; ECheckout 1 2 None; ECheckout 1 1 (Some PyRuntimeError)] demo_shop = 2 /\
  exists p', pd_get_by_id 1 (sh_products (shop_run [ECheckout 1 2 None; ECheckout 1 2 None; ECheckout 1 1 (Some PyRuntimeError)] demo_shop)) = Some p' /\
    pd_stock p' + 2 = 3.
Proof.
  split; [vm_compute; reflexivity|].
  destruct (stock_conserved [ECheckout 1 2 None; ECheckout 1 2 None; ECheckout 1 1 (Some PyRuntimeError)] demo_shop 1 (mkProduct 1 "pen" 3 2))
    as (p' & H1 & _ & H3 & _).
  - intros id p. unfold pd_get_by_id. cbn. destruct (decide (1 = id)) as [<-|]; [|done]. intros [= <-]. cbn. lia.
  - reflexivity.
  - exists p'. split; [exact H1|exact H3].
Defined.
