(* ===== verification/WriteBehind.v ===== *)
(** The write-behind view counter ([app/services/analytics_service.py]).

    Redis holds the hash of pending counts and the set of dirty users, keyed by the
    decimal text of a user id, so both are modelled with integer keys; a command that
    raises is an argument of the call.  The repository is the in-memory one, whose
    batch update may raise too. *)

From S2P Require Import Prelude UserRepo.

Local Open Scope Z_scope.
Local Open Scope py_scope.

(** The hash [user:views:pending], the set [user:views:dirty] and the repository. *)
Record analytics : Type := mkAnalytics { an_pending : list (Z * Z); an_dirty : gset Z; an_repo : user_repo }.

Inductive view_mode : Type := WriteBehindMode | DatabaseFallback.
Inductive sync_status : Type := SyncSuccess (flushed total : Z) | NoPendingData | SyncRedisError.

(** HINCRBY *)
Definition hincrby (user_id n : Z) (h : list (Z * Z)) : list (Z * Z) :=
  dict_set h user_id (default 0 (dict_get h user_id) + n).
Definition set_an_repo (r : user_repo) (a : analytics) : analytics := mkAnalytics (an_pending a) (an_dirty a) r.

(** [record_view]; [hincrby_fails] and [sadd_fails] say which command raises. *)
Definition record_view (user_id : Z) (hincrby_fails sadd_fails : bool) : M analytics view_mode := fun a =>
  let fallback (a : analytics) : result view_mode * analytics :=
    (Ok DatabaseFallback, set_an_repo (ur_increment_views_batch [(user_id, 1)] (an_repo a)).2 a) in
  if hincrby_fails then fallback a
  else
    let a1 := mkAnalytics (hincrby user_id 1 (an_pending a)) (an_dirty a) (an_repo a) in
    if sadd_fails then fallback a1
    else (Ok WriteBehindMode, mkAnalytics (an_pending a1) ({[user_id]} ∪ an_dirty a1) (an_repo a1)).

(** [sync_pending_views_to_db]; [db_fails] is an exception of the batch update. *)
Definition sync_pending_views_to_db (pipeline_fails : bool) (db_fails : option exc) : M analytics sync_status := fun a =>
  if pipeline_fails then (Ok SyncRedisError, a)
  else
    let views_map := filter (fun p : Z * Z => 0 < p.2) (an_pending a) in
    let a1 := mkAnalytics [] ∅ (an_repo a) in
    match views_map with
    | [] => (Ok NoPendingData, a1)
    | _ =>
        match db_fails with
        | Some e => (Raise e, a1)
        | None =>
            let '(flushed_count, r) := ur_increment_views_batch views_map (an_repo a1) in
            (Ok (SyncSuccess flushed_count (Zsum views_map.*2)), set_an_repo r a1)
        end
    end.

(** [get_user_views]: persistent, pending and total. *)
Definition get_user_views (user_id : Z) (hget_fails : bool) (a : analytics) : Z * Z * Z :=
  let persistent := ur_get_views user_id (an_repo a) in
  let pending := if hget_fails then 0 else default 0 (dict_get (an_pending a) user_id) in
  (persistent, pending, persistent + pending).

(** ** No view is lost *)

Inductive view_event : Type :=
  | EView (user_id : Z) (hincrby_fails : bool)
  | ESync (pipeline_fails : bool).

Definition view_exec (e : view_event) (a : analytics) : analytics :=
  match e with
  | EView u f => (record_view u f false a).2
  | ESync f => (sync_pending_views_to_db f None a).2
  end.
Definition viewed (user_id : Z) (e : view_event) : Z :=
  match e with EView u _ => if decide (u = user_id) then 1 else 0 | ESync _ => 0 end.
Definition views_of (user_id : Z) (es : list view_event) : Z := Zsum (viewed user_id <$> es).

Record an_inv (a : analytics) : Prop := {
  ai_repo : ur_inv (an_repo a);
  ai_nodup : NoDup (an_pending a).*1;
  ai_pos u n : dict_get (an_pending a) u = Some n -> 0 < n
}.

Definition total_views (user_id : Z) (a : analytics) : Z := (get_user_views user_id false a).2.

Lemma filter_pending (h : list (Z * Z)) : (forall u n, dict_get h u = Some n -> 0 < n) -> NoDup h.*1 ->
  filter (fun p : Z * Z => 0 < p.2) h = h.
Proof.
  intros Hp Hn. apply filter_all, Forall_forall. intros [u n] He. eapply Hp. by apply dict_elem_get.
Qed.
Lemma sum_of_key (h : list (Z * Z)) u : NoDup h.*1 -> Zsum ((filter (fun x => x.1 = u) h).*2) = default 0 (dict_get h u).
Proof.
  induction h as [|[k v] h IH]; [done|]. cbn [fmap list_fmap fst]. intros [Hn Hd]%NoDup_cons. rewrite filter_cons. cbn [fst dict_get].
  destruct (decide (k = u)) as [->|Hne]; [|by apply IH]. rewrite fmap_cons. cbn [snd Zsum foldr].
  assert (filter (fun x : Z * Z => x.1 = u) h = []) as ->; [|cbn; lia].
  destruct (filter _ h) as [|p l] eqn:E; [done|]. assert (p ∈ filter (fun x : Z * Z => x.1 = u) h) as [Hp He]%list_elem_of_filter by (rewrite E; left).
  destruct Hn. rewrite <-Hp. by apply list_elem_of_fmap_2.
Qed.

Lemma fallback_views u v a : an_inv a ->
  an_inv (set_an_repo (ur_increment_views_batch [(u, 1)] (an_repo a)).2 a) /\
  total_views v (set_an_repo (ur_increment_views_batch [(u, 1)] (an_repo a)).2 a) = total_views v a + (if decide (u = v) then 1 else 0).
Proof.
  intros [H1 H2 H3]. pose proof (views_spec [(u, 1)] (an_repo a) H1) as Hs.
  destruct (ur_increment_views_batch [(u, 1)] (an_repo a)) as [n r]. destruct Hs as (_ & Hi & _ & _ & Hv).
  split; [by constructor|]. unfold total_views, get_user_views. cbn [snd set_an_repo an_repo an_pending].
  rewrite Hv. rewrite filter_cons. cbn. case_decide; cbn; lia.
Qed.

Lemma view_exec_step e a v : an_inv a ->
  an_inv (view_exec e a) /\ total_views v (view_exec e a) = total_views v a + viewed v e.
Proof.
  intros Hi. destruct e as [u f|f]; unfold view_exec.
  - cbn [viewed]. unfold record_view. destruct f; [by apply fallback_views|]. cbn [snd]. split.
    + constructor; cbn [an_repo an_pending]; [apply Hi| |].
      * apply dict_set_NoDup, Hi.
      * intros w n. unfold hincrby. rewrite dict_get_set. case_decide; [|apply (ai_pos _ Hi)]. intros [= <-].
        destruct (dict_get (an_pending a) u) as [m|] eqn:E; cbn; [apply (ai_pos _ Hi) in E|]; lia.
    + unfold total_views, get_user_views, hincrby. cbn [snd an_repo an_pending]. rewrite dict_get_set.
      case_decide as Hd; [subst; cbn|]; lia.
  - cbn [viewed]. unfold sync_pending_views_to_db. destruct f; [cbn; split; [done|lia]|].
    rewrite filter_pending by (intros; first [by eapply (ai_pos _ Hi)|apply (ai_nodup _ Hi)]).
    destruct (an_pending a) as [|p h] eqn:E.
    + cbn [snd]. split; [constructor; cbn; [apply Hi|constructor|done]|]. unfold total_views, get_user_views. cbn. rewrite E. cbn. lia.
    + rewrite <-E. pose proof (views_spec (an_pending a) (an_repo a) (ai_repo _ Hi)) as Hs. cbn [an_repo].
      destruct (ur_increment_views_batch (an_pending a) (an_repo a)) as [n r]. destruct Hs as (_ & Hr & _ & _ & Hv). cbn [snd set_an_repo an_pending an_dirty].
      split; [constructor; cbn; [done|constructor|done]|]. unfold total_views, get_user_views. cbn [snd an_repo an_pending dict_get].
      rewrite Hv, sum_of_key by apply (ai_nodup _ Hi). cbn. lia.
Qed.

(** Over any sequence of recorded views and flushes, where HINCRBY and the flush
    pipeline may fail at any time, the total reported for a user grows by exactly the
    number of views recorded for that user: flushing moves counts and loses none. *)
Theorem views_conserved es a v : an_inv a ->
  an_inv (foldl (fun a e => view_exec e a) a es) /\
  total_views v (foldl (fun a e => view_exec e a) a es) = total_views v a + views_of v es.
Proof.
  revert a. induction es as [|e es IH]; intros a Hi; cbn [foldl]; [split; [done|]; unfold views_of; cbn; lia|].
  destruct (view_exec_step e a v Hi) as [H1 H2]. destruct (IH _ H1) as [H3 H4]. split; [done|]. rewrite H4, H2.
  unfold views_of. rewrite fmap_cons. cbn [Zsum foldr]. unfold Zsum. lia.
Qed.

(** But when HINCRBY succeeds and SADD fails, the view is counted in Redis and in the
    database: the total grows by two. *)
Theorem sadd_failure_counts_twice u a : an_inv a -> total_views u (record_view u false true a).2 = total_views u a + 2.
Proof.
  intros Hi. unfold record_view. set (a1 := mkAnalytics (hincrby u 1 (an_pending a)) (an_dirty a) (an_repo a)).
  assert (an_inv a1 /\ total_views u a1 = total_views u a + 1) as [Hi1 Ht].
  { destruct (view_exec_step (EView u false) a u Hi) as [[A B C] Hv]. split; [by constructor|].
    cbn [viewed] in Hv. rewrite decide_True in Hv by done. rewrite <-Hv. done. }
  cbn [snd]. destruct (fallback_views u u a1 Hi1) as [_ ->]. rewrite decide_True by done. lia.
Qed.

(** And a database error during the flush loses every pending view, since the pipeline
    has already deleted them. *)
Theorem flush_failure_loses_views e a v : total_views v (sync_pending_views_to_db false (Some e) a).2 = ur_get_views v (an_repo a).
Proof.
  unfold sync_pending_views_to_db, total_views, get_user_views. destruct (filter _ (an_pending a)); cbn; lia.
Qed.

Definition demo_analytics : analytics := mkAnalytics [] ∅ demo_repo.
Lemma demo_an_inv : an_inv demo_analytics.
Proof. constructor; cbn; [apply demo_inv|constructor|done]. Qed.

Lemma views_conserved_witness :
  total_views 1 (foldl (fun a e => view_exec e a) demo_analytics [EView 1 false; ESync false; EView 1 true; EView 2 false; EView 1 false]) = 3.
Proof. exact (proj2 (views_conserved [EView 1 false; ESync false; EView 1 true; EView 2 false; EView 1 false] demo_analytics 1 demo_an_inv)). Defined.
