(* ===== verification/Kafka.v ===== *)
(** Event streaming: the in-memory broker of [app/core/kafka.py] and
    [app/core/kafka_consumer.py], [app/services/kafka_producer_service.py] and
    [app/services/kafka_consumer_service.py].

    A topic partition is an append-only log; a consumer group has a committed offset
    per partition.  The SHA-256 digest of a key, the decoding of a record into JSON data
    and pydantic's validation of known event types are parameters.  A consumer's
    [_assigned_partitions] is a Python set: the order in which [getmany] visits it is an
    argument.  Offsets are list positions. *)

From S2P Require Import Prelude.

Local Open Scope py_scope.

(** ** The broker *)

Definition topic_partition : Type := string * nat.

(** A log entry: offset, key, value, timestamp. *)
Record record : Type := mkRecord { rc_offset : nat; rc_key : option string; rc_value : string; rc_timestamp : Z }.

(** [_shared_mock_kafka_storage] and [_shared_mock_committed_offsets]. *)
Record kafka : Type := mkKafka {
  k_logs : gmap topic_partition (list record);
  k_committed : gmap (string * topic_partition) nat
}.
Definition kafka_init : kafka := mkKafka ∅ ∅.

(** Reading a partition of the [defaultdict]. *)
Definition partition_log (tp : topic_partition) (k : kafka) : list record := default [] (k_logs k !! tp).

Definition clear_shared_mock_kafka_storage (k : kafka) : kafka := mkKafka ∅ (k_committed k).
Definition clear_shared_mock_consumer_offsets (k : kafka) : kafka := mkKafka (k_logs k) ∅.

(** ** [MockAIOKafkaProducer] *)

Section Producer.
(** [int(hashlib.sha256(key).hexdigest(), 16)] *)
Context (sha256 : string -> nat).

Record producer : Type := mkProducer { pr_partitions_per_topic : nat; pr_is_started : bool }.
Definition producer_init : producer := mkProducer 3 false.
Definition producer_start (p : producer) : producer := mkProducer (pr_partitions_per_topic p) true.
Definition producer_stop (p : producer) : producer := mkProducer (pr_partitions_per_topic p) false.

Definition determine_partition (p : producer) (key : option string) : nat :=
  match key with
  | None => 0
  | Some key => sha256 key mod pr_partitions_per_topic p
  end.

Record RecordMetadata : Type := mkMeta { rm_topic : string; rm_partition : nat; rm_offset : nat; rm_timestamp : Z }.

Definition send_and_wait (p : producer) (now_ms : Z) (topic value : string) (key : option string) (partition : option nat)
    (timestamp_ms : option Z) : M kafka RecordMetadata :=
  raise_if (negb (pr_is_started p)) PyRuntimeError ;;;
  let assigned_partition := default (determine_partition p key) partition in
  let! log := gets (partition_log (topic, assigned_partition)) in
  let current_offset := length log in
  let ts := default now_ms timestamp_ms in
  modify (fun k => mkKafka (<[(topic, assigned_partition) := log ++ [mkRecord current_offset key value ts]]> (k_logs k)) (k_committed k)) ;;;
  ret (mkMeta topic assigned_partition current_offset ts).

(** ** [KafkaProducerService] *)

Definition TOPIC_ORDERS : string := "orders.events".
Definition TOPIC_PAYMENTS : string := "payments.events".

(** [publish_event]: the response is the status, the record's place and the key. *)
Definition publish_event (p : producer) (now_ms : Z) (topic key event : string) : M kafka (string * RecordMetadata * string) :=
  raise_if (bool_decide (key = "") || bool_decide (py_strip key = "")) PyValueError ;;;
  let! record_meta := send_and_wait p now_ms topic event (Some key) None None in
  ret ("COMMITTED", record_meta, key).

(** The events have [user_id] and [order_id] attributes or not. *)
Definition publish_order_created (p : producer) (now_ms : Z) (user_id order_id : option string) (event : string)
    : M kafka (string * RecordMetadata * string) :=
  let partition_key := match user_id with
                       | Some u => "user_" +:+ u
                       | None => "order_" +:+ default "None" order_id
                       end in
  publish_event p now_ms TOPIC_ORDERS partition_key event.
Definition publish_payment_processed (p : producer) (now_ms : Z) (order_id : option string) (event : string)
    : M kafka (string * RecordMetadata * string) :=
  publish_event p now_ms TOPIC_PAYMENTS ("order_" +:+ default "unknown" order_id) event.
End Producer.

(** ** [MockAIOKafkaConsumer] *)

Record consumer : Type := mkConsumer {
  cn_topics : list string; cn_group_id : string; cn_earliest : bool; cn_max_poll_records : nat;
  cn_partitions_per_topic : nat; cn_assigned : list topic_partition;
  cn_positions : gmap topic_partition nat; cn_is_started : bool
}.
Definition consumer_init (topics : list string) (group_id : string) (earliest : bool) (max_poll_records : nat) : consumer :=
  mkConsumer topics group_id earliest max_poll_records 3 [] ∅ false.

(** The position a partition starts at: the committed offset, or the reset policy. *)
Definition start_position (c : consumer) (tp : topic_partition) (k : kafka) : nat :=
  match k_committed k !! (cn_group_id c, tp) with
  | Some offset => offset
  | None => if cn_earliest c then 0 else length (partition_log tp k)
  end.
Definition all_partitions (c : consumer) : list topic_partition :=
  t ← cn_topics c; (fun p => (t, p)) <$> seq 0 (cn_partitions_per_topic c).
Definition set_consumer (assigned : list topic_partition) (positions : gmap topic_partition nat) (started : bool) (c : consumer)
    : consumer :=
  mkConsumer (cn_topics c) (cn_group_id c) (cn_earliest c) (cn_max_poll_records c) (cn_partitions_per_topic c)
    assigned positions started.

Definition consumer_start (c : consumer) (k : kafka) : consumer :=
  set_consumer (remove_dups (all_partitions c))
    (foldl (fun m tp => <[tp := start_position c tp k]> m) (cn_positions c) (all_partitions c)) true c.
Definition consumer_stop (c : consumer) : consumer := set_consumer (cn_assigned c) (cn_positions c) false c.

Definition position (c : consumer) (tp : topic_partition) : nat := default 0 (cn_positions c !! tp).
Definition committed (c : consumer) (tp : topic_partition) (k : kafka) : option nat := k_committed k !! (cn_group_id c, tp).
Definition highwater (tp : topic_partition) (k : kafka) : nat := length (partition_log tp k).
Definition seek (tp : topic_partition) (offset : Z) (c : consumer) : result consumer :=
  if bool_decide (tp ∈ cn_assigned c)
  then Ok (set_consumer (cn_assigned c) (<[tp := Z.to_nat (Z.max 0 offset)]> (cn_positions c)) (cn_is_started c) c)
  else Raise PyValueError.
Definition seek_to_committed (c : consumer) (k : kafka) : consumer :=
  set_consumer (cn_assigned c)
    (foldl (fun m tp => <[tp := default 0 (k_committed k !! (cn_group_id c, tp))]> m) (cn_positions c) (cn_assigned c))
    (cn_is_started c) c.

(** The [while] loop of [getmany] on one partition; [room] is [limit - total_fetched]. *)
Fixpoint fetch (room : nat) (log : list record) (current_pos : nat) : list record :=
  match room with
  | O => []
  | S room' => match log !! current_pos with
               | None => []
               | Some record => record :: fetch room' log (S current_pos)
               end
  end.
(** The loop over the partitions; a partition without a new record has no entry. *)
Fixpoint getmany_loop (active : list topic_partition) (limit total_fetched : nat) (k : kafka)
    (positions : gmap topic_partition nat) : list (topic_partition * list record) * gmap topic_partition nat :=
  match active with
  | [] => ([], positions)
  | tp :: rest =>
      if limit <=? total_fetched then ([], positions)
      else
        let current_pos := default 0 (positions !! tp) in
        let records := fetch (limit - total_fetched) (partition_log tp k) current_pos in
        let '(result, positions') :=
          getmany_loop rest limit (total_fetched + length records) k (<[tp := current_pos + length records]> positions) in
        (if bool_decide (records = []) then result else (tp, records) :: result, positions')
  end.
(** [getmany] of all assigned partitions, visited in [order]. *)
Definition getmany (order : list topic_partition) (max_records : nat) (c : consumer) (k : kafka)
    : result (list (topic_partition * list record) * consumer) :=
  if negb (cn_is_started c) then Raise PyRuntimeError
  else
    let limit := Nat.min (if max_records =? 0 then cn_max_poll_records c else max_records) (cn_max_poll_records c) in
    let '(result, positions) := getmany_loop order limit 0 k (cn_positions c) in
    Ok (result, set_consumer (cn_assigned c) positions true c).

Definition commit (offsets : option (list (topic_partition * nat))) (c : consumer) : M kafka () :=
  raise_if (negb (cn_is_started c)) PyRuntimeError ;;;
  let entries := match offsets with
                 | Some offsets => offsets
                 | None => (fun tp => (tp, position c tp)) <$> cn_assigned c
                 end in
  modify (fun k => mkKafka (k_logs k)
    (foldl (fun m e => <[(cn_group_id c, e.1) := e.2]> m) (k_committed k) entries)).

(** ** [KafkaConsumerService] *)

Section ConsumerService.
(** Decoded data; [loads] fails on text that is not JSON and [raw_data] is
    [{"raw": text}]; [event_type] is [data.get("event_type")], which raises on data that
    is not an object; [model_validate] is the schema of the event type. *)
Context {J : Type} (loads : string -> option J) (raw_data : string -> J) (event_type : J -> result (option string))
  (model_validate : string -> J -> bool).
(** The caller's state and callback. *)
Context {S : Type} (process_callback : J -> M S ()).

(** [create_kafka_consumer] when no live broker answers: the in-memory consumer.
    [default_group] and [default_max] are the settings. *)
Definition create_kafka_consumer (topic group_id : string) (max_poll_records : nat) (default_group : string) (earliest : bool)
    (default_max : nat) : consumer :=
  consumer_init [topic] (if bool_decide (group_id = "") then default_group else group_id) earliest
    (if max_poll_records =? 0 then default_max else max_poll_records).

Definition decode (value : string) : J := default (raw_data value) (loads value).

Definition process_record (r : record) : M S J :=
  let data := decode (rc_value r) in
  let! et := lift_result (event_type data) in
  raise_if (match et with
            | Some t => (bool_decide (t = "order.created") || bool_decide (t = "payment.processed")) && negb (model_validate t data)
            | None => false
            end) PydanticValidationError ;;;
  process_callback data ;;;
  ret data.

(** The records of the batch in order; the number of records handled so far is kept for
    the statements about failed batches. *)
Fixpoint process_records (rs : list record) (handled : nat) (events : list J) : S -> result (list J) * nat * S := fun s =>
  match rs with
  | [] => (Ok events, handled, s)
  | r :: rest =>
      match process_record r s with
      | (Ok data, s') => process_records rest (Datatypes.S handled) (events ++ [data]) s'
      | (Raise e, s') => (Raise e, handled, s')
      end
  end.

(** [offsets_to_commit]: per partition, the offset after its last record. *)
Definition offsets_to_commit (batch : list (topic_partition * list record)) : list (topic_partition * nat) :=
  (fun e => (e.1, Datatypes.S (default 0 (rc_offset <$> last e.2)))) <$> batch.

Record poll_response : Type := mkPoll {
  po_topic : string; po_group_id : string; po_records_processed : nat; po_committed_offsets : list (nat * nat); po_events : list J }.

(** [consume_batch] over the in-memory consumer: also returns the handled count. *)
Definition consume_batch_counted (topic group_id : string) (batch_size : nat) (default_group : string) (earliest : bool)
    (default_max : nat) (order : list topic_partition) (k : kafka) (s : S) : result poll_response * nat * (kafka * S) :=
  let c := consumer_start (create_kafka_consumer topic group_id batch_size default_group earliest default_max) k in
  match getmany order batch_size c k with
  | Raise e => (Raise e, 0, (k, s))
  | Ok (batch, c') =>
      match process_records (concat batch.*2) 0 [] s with
      | (Raise e, n, s') => (Raise e, n, (k, s'))
      | (Ok events, n, s') =>
          let offsets := offsets_to_commit batch in
          let '(r, k') := if bool_decide (offsets = []) then (Ok (), k) else commit (Some offsets) c' k in
          (let? _ := r in
           Ok (mkPoll topic group_id (length events) ((fun e => (e.1.2, e.2)) <$> offsets) events), n, (k', s'))
      end
  end.
Definition consume_batch (topic group_id : string) (batch_size : nat) (default_group : string) (earliest : bool)
    (default_max : nat) (order : list topic_partition) : M (kafka * S) poll_response := fun '(k, s) =>
  let '(r, _, ks) := consume_batch_counted topic group_id batch_size default_group earliest default_max order k s in (r, ks).

(** [get_consumer_group_status]: per partition in order, the committed offset, the end
    offset and the lag; then the total lag. *)
Definition partition_lag (c : consumer) (k : kafka) (tp : topic_partition) : nat * nat * nat * nat :=
  let current_offset := default 0 (committed c tp k) in
  let end_offset := highwater tp k in
  (tp.2, current_offset, end_offset, end_offset - current_offset).
Definition get_consumer_group_status (group_id topic default_group : string) (earliest : bool) (default_max : nat) (k : kafka)
    : list (nat * nat * nat * nat) * nat :=
  let c := consumer_start (create_kafka_consumer topic group_id 0 default_group earliest default_max) k in
  let sorted_partitions := stable_sort (fun a b => a.2 <=? b.2) (cn_assigned c) in
  let lags := partition_lag c k <$> sorted_partitions in
  (lags, sum_list_with snd lags).

(** Endpoint [poll_batch]: no callback is passed. *)
End ConsumerService.

(** ** Proofs: reading *)

Lemma fetch_eq room log pos : fetch room log pos = take room (drop pos log).
Proof.
  revert pos. induction room as [|room IH]; intros pos; cbn [fetch]; [by rewrite take_0|].
  destruct (log !! pos) as [r|] eqn:Hr.
  - by rewrite (drop_S log r pos Hr), IH.
  - apply lookup_ge_None in Hr. by rewrite drop_ge.
Qed.

Lemma take_length_take {A} n (l : list A) : take (length (take n l)) l = take n l.
Proof.
  revert l. induction n as [|n IH]; intros [|x l]; cbn; try done. by rewrite IH.
Qed.

Lemma Forall_impl_in {A} (P Q : A -> Prop) l : Forall P l -> (forall x, x ∈ l -> P x -> Q x) -> Forall Q l.
Proof. rewrite !Forall_forall. auto. Qed.

Section Reading.
Implicit Types (k : kafka) (tp : topic_partition) (pos : gmap topic_partition nat).

Definition pos_of pos tp : nat := default 0 (pos !! tp).
Definition behind k pos tp : nat := length (partition_log tp k) - pos_of pos tp.

Lemma getmany_outside active limit total k pos tp : tp ∉ active -> (getmany_loop active limit total k pos).2 !! tp = pos !! tp.
Proof.
  revert total pos. induction active as [|a active IH]; intros total pos Hni; cbn [getmany_loop]; [done|].
  apply not_elem_of_cons in Hni as [Hne Hni].
  destruct (limit <=? total); [done|].
  set (recs := fetch _ _ _). specialize (IH (total + length recs) (<[a := default 0 (pos !! a) + length recs]> pos) Hni).
  destruct (getmany_loop _ _ _ _ _) as [res pos']. cbn in *. by rewrite IH, lookup_insert_ne.
Qed.

(** The records read from one partition: the next [n] after its position. *)
Definition read_from k pos tp (n : nat) : list record := take n (drop (pos_of pos tp) (partition_log tp k)).

(** What [getmany] returns of one visited partition and where it leaves the position. *)
Definition read_ok k pos (res : list (topic_partition * list record)) pos' tp : Prop :=
  exists n, pos_of pos' tp = pos_of pos tp + n /\ n <= behind k pos tp /\
    if decide (n = 0) then tp ∉ res.*1 else (tp, read_from k pos tp n) ∈ res.

Lemma getmany_ok active limit total k pos : NoDup active ->
  let '(res, pos') := getmany_loop active limit total k pos in
  NoDup res.*1 /\ res.*1 ⊆ active /\ Forall (read_ok k pos res pos') active /\
  sum_list_with (behind k pos') active = sum_list_with (behind k pos) active - (limit - total) /\
  length (concat res.*2) = (limit - total) `min` sum_list_with (behind k pos) active.
Proof.
  revert total pos. induction active as [|a active IH]; intros total pos Hnd.
  { cbn. split_and!; [constructor|done|constructor|lia|lia]. }
  apply NoDup_cons in Hnd as [Hni Hnd]. cbn [getmany_loop].
  destruct (Nat.leb_spec limit total) as [Hfull|Hroom].
  { split_and!; [constructor|by apply list_subseteq_nil| | |cbn; lia].
    - apply Forall_forall. intros tp _. exists 0. split_and!; [lia|lia|]. rewrite decide_True by done. apply not_elem_of_nil.
    - replace (limit - total) with 0 by lia. lia. }
  rewrite fetch_eq. fold (pos_of pos a). set (log := partition_log a k). set (recs := take _ _).
  assert (length recs = (limit - total) `min` behind k pos a) as Hlen.
  { unfold recs, behind. rewrite length_take, length_drop. done. }
  set (pos1 := <[a := _]> pos).
  pose proof (getmany_outside active limit (total + length recs) k pos1 a Hni) as Hout.
  specialize (IH (total + length recs) pos1 Hnd). destruct (getmany_loop _ _ _ _ _) as [res pos'].
  destruct IH as (Hnd' & Hsub & Hall & Hsum & Hcnt). cbn [snd] in Hout.
  assert (forall tp, tp ∈ active -> pos_of pos1 tp = pos_of pos tp) as Hsame.
  { intros tp Htp. unfold pos_of, pos1. rewrite lookup_insert_ne; [done|]. by intros <-. }
  assert (sum_list_with (behind k pos1) active = sum_list_with (behind k pos) active) as Hsum1.
  { clear -Hsame. unfold behind. induction active as [|b active IH]; cbn; [done|].
    rewrite Hsame by set_solver. f_equal. apply IH. intros. apply Hsame. set_solver. }
  assert (pos_of pos' a = pos_of pos a + length recs) as Hpa by (unfold pos_of at 1; rewrite Hout; unfold pos1; by rewrite lookup_insert_eq).
  assert (a ∉ res.*1) as Hna by set_solver.
  assert (recs = read_from k pos a (length recs)) as Hrecs.
  { unfold recs, read_from. by rewrite take_length_take. }
  assert (sum_list_with (behind k pos') (a :: active) = sum_list_with (behind k pos) (a :: active) - (limit - total)) as Htotal.
  { cbn. rewrite Hsum, Hsum1. unfold behind at 1. rewrite Hpa. fold log. change (length log) with (length (partition_log a k)).
    assert (behind k pos a = length (partition_log a k) - pos_of pos a) by done. lia. }
  assert (length recs + length (concat res.*2) = (limit - total) `min` sum_list_with (behind k pos) (a :: active)) as Hcount.
  { cbn. rewrite Hcnt, Hsum1. lia. }
  case_bool_decide as Hnil.
  - assert (length recs = 0) as H0 by by rewrite Hnil.
    split_and!; [done|set_solver| |exact Htotal|lia].
    + constructor.
      * exists 0. split_and!; [lia|lia|]. by rewrite decide_True.
      * eapply Forall_impl_in; [exact Hall|]. intros tp Htp (n & H1 & H2 & H3). exists n. unfold behind, read_from in *.
        rewrite Hsame in * by done. done.
  - cbn [fmap list_fmap fst]. split_and!; [by constructor|set_solver| |exact Htotal|by rewrite concat_cons, length_app].
    + constructor.
      * exists (length recs). split_and!; [done|lia|]. rewrite decide_False by (by destruct recs). rewrite <-Hrecs. set_solver.
      * eapply Forall_impl_in; [exact Hall|]. intros tp Htp (n & H1 & H2 & H3). exists n. unfold behind, read_from in *.
        rewrite Hsame in * by done. split_and!; [done|done|]. case_decide; set_solver.
Qed.
End Reading.

(** ** Proofs: the consumer group *)

Lemma commit_inside g offsets m tp (o : nat) : NoDup offsets.*1 -> (tp, o) ∈ offsets ->
  foldl (fun (m : gmap (string * topic_partition) nat) e => <[(g, e.1) := e.2]> m) m offsets !! (g, tp) = Some o.
Proof.
  revert m. induction offsets as [|[tp' o'] offsets IH]; intros m Hnd Hin; [set_solver|].
  cbn in *. apply NoDup_cons in Hnd as [Hni Hnd]. apply elem_of_cons in Hin as [[= -> ->]|Hin]; [|by apply IH].
  clear IH Hnd. revert m. induction offsets as [|[t x] offsets IH] using rev_ind; intros m; cbn; [by rewrite lookup_insert_eq|].
  rewrite fmap_app in Hni. rewrite foldl_snoc. cbn. rewrite lookup_insert_ne; [apply IH; set_solver|].
  intros [= <-]. set_solver.
Qed.
Lemma commit_outside g offsets m g' tp : (g' <> g \/ tp ∉ offsets.*1) ->
  foldl (fun (m : gmap (string * topic_partition) nat) e => <[(g, e.1) := e.2]> m) m offsets !! (g', tp) = m !! (g', tp).
Proof.
  intros Hor. revert m. induction offsets as [|[t x] offsets IH]; intros m; cbn; [done|].
  rewrite IH; [|set_solver]. rewrite lookup_insert_ne; [done|]. intros [= -> ->]. set_solver.
Qed.

Lemma start_positions c k tp : tp ∈ all_partitions c -> pos_of (cn_positions (consumer_start c k)) tp = start_position c tp k.
Proof.
  unfold consumer_start. cbn. generalize (all_partitions c) as l, (cn_positions c) as m.
  induction l as [|x l IH] using rev_ind; intros m Hin; [set_solver|].
  rewrite foldl_snoc. unfold pos_of. destruct (decide (x = tp)) as [->|Hne]; [by rewrite lookup_insert_eq|].
  rewrite lookup_insert_ne by done. apply IH. set_solver.
Qed.

Lemma all_partitions_nodup topic c : cn_topics c = [topic] -> NoDup (all_partitions c).
Proof.
  intros Ht. unfold all_partitions. rewrite Ht. cbn. rewrite app_nil_r. apply NoDup_fmap_2_strong; [naive_solver|apply NoDup_seq].
Qed.

Section Batches.
Implicit Types (k : kafka) (tp : topic_partition).

(** The consumer a poll creates and the batch it reads. *)
Definition poll_consumer (topic group_id : string) (size : nat) (dg : string) (dm : nat) k : consumer :=
  consumer_start (create_kafka_consumer topic group_id size dg true dm) k.
Definition batch_of (topic group_id : string) (size : nat) (dg : string) (dm : nat) order k : list (topic_partition * list record) :=
  match getmany order size (poll_consumer topic group_id size dg dm k) k with Ok (b, _) => b | Raise _ => [] end.
Definition effective_group (group_id dg : string) : string := if bool_decide (group_id = "") then dg else group_id.
Definition three (topic : string) : list topic_partition := [(topic, 0); (topic, 1); (topic, 2)].
(** The offset a group reads a partition from: what it committed, or the beginning. *)
Definition group_offset (g : string) k tp : nat := default 0 (k_committed k !! (g, tp)).
Definition group_behind (g : string) k tp : nat := length (partition_log tp k) - group_offset g k tp.

Lemma poll_start topic group_id size dg dm k tp : tp ∈ three topic ->
  pos_of (cn_positions (poll_consumer topic group_id size dg dm k)) tp = group_offset (effective_group group_id dg) k tp.
Proof.
  intros Htp. unfold poll_consumer. rewrite start_positions by (unfold all_partitions; cbn; done).
  unfold start_position, group_offset, effective_group. cbn. by destruct (k_committed k !! _).
Qed.

(** What a poll reads: from each partition, the records after the group's offset. *)
Definition batch_part (g : string) k (batch : list (topic_partition * list record)) tp (n : nat) : Prop :=
  n <= group_behind g k tp /\
    if decide (n = 0) then tp ∉ batch.*1 else (tp, take n (drop (group_offset g k tp) (partition_log tp k))) ∈ batch.

Lemma batch_ok topic group_id size dg dm order k : order ≡ₚ three topic -> 0 < size ->
  let g := effective_group group_id dg in
  let batch := batch_of topic group_id size dg dm order k in
  NoDup batch.*1 /\ batch.*1 ⊆ three topic /\
  length (concat batch.*2) = size `min` sum_list_with (group_behind g k) (three topic) /\
  exists cnt, (forall tp, tp ∈ three topic -> batch_part g k batch tp (cnt tp)) /\
    sum_list_with (fun tp => group_behind g k tp - cnt tp) (three topic) = sum_list_with (group_behind g k) (three topic) - size.
Proof.
  intros Hord Hsize g batch. unfold batch, batch_of, getmany.
  set (c := poll_consumer topic group_id size dg dm k).
  replace (negb (cn_is_started c)) with false by done.
  replace (Nat.min _ _) with size; [|cbn; destruct size; [lia|]; cbn; lia].
  pose proof (getmany_ok order size 0 k (cn_positions c)) as Hg.
  destruct (getmany_loop _ _ _ _ _) as [res pos'].
  destruct Hg as (Hnd & Hsub & Hall & Hsum & Hcnt).
  { rewrite Hord. unfold three. repeat constructor; set_solver. }
  assert (forall tp, tp ∈ three topic -> pos_of (cn_positions c) tp = group_offset g k tp) as Hpos by (intros; by apply poll_start).
  assert (forall tp, tp ∈ three topic -> behind k (cn_positions c) tp = group_behind g k tp) as Hbeh.
  { intros tp Htp. unfold behind, group_behind. by rewrite Hpos. }
  split_and!; [done|by rewrite <-Hord| |].
  - rewrite Hcnt, Hord, Nat.sub_0_r. unfold three in Hbeh |- *. cbn. rewrite !Hbeh by set_solver. done.
  - exists (fun tp => pos_of pos' tp - group_offset g k tp). rewrite Forall_forall in Hall. split.
    + intros tp Htp. destruct (Hall tp) as (n & H1 & H2 & H3); [by rewrite Hord|]. rewrite Hpos in H1 by done.
      replace (pos_of pos' tp - group_offset g k tp) with n by lia.
      split; [by rewrite <-Hbeh|]. unfold read_from in H3. rewrite Hpos in H3 by done. done.
    + assert (forall tp, tp ∈ three topic -> group_behind g k tp - (pos_of pos' tp - group_offset g k tp) = behind k pos' tp) as Hnew.
      { intros tp Htp. destruct (Hall tp) as (n & H1 & _); [by rewrite Hord|]. rewrite Hpos in H1 by done.
        unfold group_behind, behind. lia. }
      rewrite !Hord, Nat.sub_0_r in Hsum. unfold three in Hbeh, Hnew, Hsum |- *. cbn in Hsum |- *.
      rewrite !Hnew by set_solver. rewrite !Hbeh in Hsum by set_solver. exact Hsum.
Qed.

Definition commit_batch (g : string) (batch : list (topic_partition * list record)) k : kafka :=
  mkKafka (k_logs k) (foldl (fun m e => <[(g, e.1) := e.2]> m) (k_committed k) (offsets_to_commit batch)).

(** What a group has handled: group, partition and offset of a record. *)
Definition handled_record : Type := string * topic_partition * nat.
Definition tagged (g : string) (batch : list (topic_partition * list record)) : list handled_record :=
  e ← batch; (fun r => (g, e.1, rc_offset r)) <$> e.2.

Record kafka_inv (h : list handled_record) k : Prop := {
  ki_offsets : forall tp i r, partition_log tp k !! i = Some r -> rc_offset r = i;
  ki_bound : forall g tp, group_offset g k tp <= length (partition_log tp k);
  ki_handled : forall g tp i, i < group_offset g k tp -> (g, tp, i) ∈ h
}.

Lemma tagged_length g batch : length (tagged g batch) = length (concat batch.*2).
Proof.
  unfold tagged. induction batch as [|e batch IH]; [done|]. cbn. rewrite !length_app, length_fmap. f_equal. exact IH.
Qed.

(** After a committed batch the group's offset is past the records it read of the
    partition; other groups and partitions are where they were. *)
Lemma commit_batch_offset topic group_id size dg dm order k h : order ≡ₚ three topic -> 0 < size -> kafka_inv h k ->
  let g := effective_group group_id dg in
  let batch := batch_of topic group_id size dg dm order k in
  exists cnt,
    sum_list_with (fun tp => group_behind g k tp - cnt tp) (three topic) = sum_list_with (group_behind g k) (three topic) - size /\
    forall g' tp,
      if decide (g' = g /\ tp ∈ three topic)
      then cnt tp <= group_behind g k tp /\ group_offset g (commit_batch g batch k) tp = group_offset g k tp + cnt tp /\
           forall i, group_offset g k tp <= i < group_offset g k tp + cnt tp -> (g, tp, i) ∈ tagged g batch
      else group_offset g' (commit_batch g batch k) tp = group_offset g' k tp.
Proof.
  intros Hord Hsize [Hoff Hb Hh] g batch. destruct (batch_ok topic group_id size dg dm order k Hord Hsize) as (Hnd & Hsub & _ & cnt & Hpart & Hsum).
  fold g batch in Hnd, Hsub, Hpart, Hsum. exists cnt. split; [done|]. intros g' tp. unfold commit_batch. cbn.
  assert ((offsets_to_commit batch).*1 = batch.*1) as Hkeys by (unfold offsets_to_commit; by rewrite <-list_fmap_compose).
  case_decide as Hd.
  2:{ unfold group_offset. cbn. rewrite commit_outside; [done|]. rewrite Hkeys. destruct (decide (g' = g)); set_solver. }
  destruct Hd as [-> Htp]. destruct (Hpart tp Htp) as (Hn & Hin). set (n := cnt tp) in *. split; [done|]. case_decide as H0.
  { rewrite H0. split; [|lia]. unfold group_offset. cbn. rewrite commit_outside; [lia|]. rewrite Hkeys. auto. }
  set (recs := take n (drop (group_offset g k tp) (partition_log tp k))) in Hin.
  assert (length recs = n) as Hlen by (unfold recs, group_behind in *; rewrite length_take, length_drop; lia).
  assert (forall j, j < n -> exists r, recs !! j = Some r /\ rc_offset r = group_offset g k tp + j) as Hrecs.
  { intros j Hj. destruct (lookup_lt_is_Some_2 recs j) as [r Hr]; [lia|]. exists r. split; [done|].
    unfold recs in Hr. rewrite lookup_take, decide_True, lookup_drop in Hr by done. by apply Hoff in Hr. }
  split.
  - unfold group_offset at 1. cbn. rewrite (commit_inside _ _ _ _ (group_offset g k tp + n)); [done|by rewrite Hkeys|].
    apply list_elem_of_fmap. exists (tp, recs). split; [|done]. cbn. f_equal.
    rewrite last_lookup, Hlen. destruct (Hrecs (pred n)) as (r & Hr & Ho); [lia|]. rewrite Hr. cbn. lia.
  - intros i Hi. destruct (Hrecs (i - group_offset g k tp)) as (r & Hr & Ho); [lia|].
    unfold tagged. apply list_elem_of_bind. exists (tp, recs). split; [|done]. cbn.
    apply list_elem_of_fmap. exists r. split; [|by eapply list_elem_of_lookup_2]. by rewrite Ho, Nat.add_sub_assoc, Nat.add_comm, Nat.add_sub by lia.
Qed.

End Batches.

Section Polling.
Context {J : Type} (loads : string -> option J) (raw_data : string -> J) (event_type : J -> result (option string))
  (model_validate : string -> J -> bool) {S : Type} (cb : J -> M S ()).
Implicit Types (k : kafka) (tp : topic_partition).

Lemma process_records_count rs n0 ev0 s :
  let '(r, n, _) := process_records loads raw_data event_type model_validate cb rs n0 ev0 s in
  match r with
  | Ok ev => n = n0 + length rs /\ ev = ev0 ++ (decode loads raw_data <$> (rc_value <$> rs))
  | Raise _ => n0 <= n < n0 + length rs
  end.
Proof.
  revert n0 ev0 s. induction rs as [|r rs IH]; intros n0 ev0 s; cbn [process_records]; [cbn; rewrite app_nil_r; split; [lia|done]|].
  destruct (process_record _ _ _ _ _ r s) as [[data|e] s'] eqn:Hr; [|cbn; lia].
  specialize (IH (Datatypes.S n0) (ev0 ++ [data]) s').
  assert (data = decode loads raw_data (rc_value r)) as ->.
  { unfold process_record in Hr. inv_ok Hr. by inversion Hr. }
  destruct (process_records _ _ _ _ _ rs _ _ s') as [[[ev|e] n] s'']; cbn in *; [|lia].
  destruct IH as [-> ->]. rewrite <-app_assoc. split; [lia|done].
Qed.

Lemma consume_run topic group_id size dg dm order k s r n k' s' :
  consume_batch_counted loads raw_data event_type model_validate cb topic group_id size dg true dm order k s = (r, n, (k', s')) ->
  let batch := batch_of topic group_id size dg dm order k in
  match r with
  | Raise _ => k' = k /\ n < length (concat batch.*2)
  | Ok p => n = length (concat batch.*2) /\ k' = commit_batch (effective_group group_id dg) batch k /\
            po_records_processed p = n /\ po_events p = decode loads raw_data <$> (rc_value <$> concat batch.*2)
  end.
Proof.
  unfold consume_batch_counted, batch_of. fold (poll_consumer topic group_id size dg dm k).
  unfold getmany. replace (negb (cn_is_started _)) with false by done.
  destruct (getmany_loop _ _ _ _ _) as [batch pos'].
  pose proof (process_records_count (concat batch.*2) 0 [] s) as Hc.
  destruct (process_records _ _ _ _ _ _ _ _ s) as [[[ev|e] n'] s1]; [|intros [= <- <- <- <-]; cbn in *; split; [done|lia]].
  destruct Hc as [Hn Hev]. cbn in Hn, Hev.
  assert (length ev = n') as Hl by (rewrite Hev, !length_fmap; done).
  case_bool_decide as Hnil; cbn; intros [= <- <- <- <-]; cbn.
  - split_and!; [done| |done|done]. unfold commit_batch. rewrite Hnil. by destruct k.
  - done.
Qed.

Lemma poll_inv topic group_id size dg dm order k s r n k' s' h : order ≡ₚ three topic -> 0 < size -> kafka_inv h k ->
  consume_batch_counted loads raw_data event_type model_validate cb topic group_id size dg true dm order k s = (r, n, (k', s')) ->
  kafka_inv (h ++ take n (tagged (effective_group group_id dg) (batch_of topic group_id size dg dm order k))) k'.
Proof.
  intros Hord Hsize Hi Hrun. apply consume_run in Hrun. destruct r as [p|e].
  2:{ destruct Hrun as [-> _]. destruct Hi as [H1 H2 H3]. split; [done|done|]. intros. apply elem_of_app. auto. }
  destruct Hrun as (-> & -> & _). rewrite <-tagged_length with (g := effective_group group_id dg), firstn_all.
  destruct (commit_batch_offset topic group_id size dg dm order k h Hord Hsize Hi) as (cnt & _ & Ho).
  set (g := effective_group group_id dg) in *. set (batch := batch_of _ _ _ _ _ _ _) in *.
  destruct Hi as [H1 H2 H3]. split; [exact H1| |].
  - intros g' tp. specialize (Ho g' tp). specialize (H2 g' tp). change (partition_log tp (commit_batch g batch k)) with (partition_log tp k).
    case_decide as Hd; [|lia]. destruct Hd as [-> _]. destruct Ho as (Hm & -> & _). unfold group_behind in Hm. lia.
  - intros g' tp i Hlt. specialize (Ho g' tp). apply elem_of_app. case_decide as Hd; [|left; apply H3; lia].
    destruct Hd as [-> _]. destruct Ho as (Hm & Heq & Hin).
    destruct (decide (i < group_offset g k tp)); [left; by apply H3|right; apply Hin; lia].
Qed.
End Polling.

(** ** At-least-once delivery *)

(** A send appends one record, whose offset is its list position, to one log. *)
Lemma send_log sha p now topic value key part ts k : pr_is_started p = true ->
  let tp := (topic, default (determine_partition sha p key) part) in
  let r := mkRecord (length (partition_log tp k)) key value (default now ts) in
  exists k', send_and_wait sha p now topic value key part ts k = (Ok (mkMeta topic tp.2 (rc_offset r) (rc_timestamp r)), k') /\
    k_committed k' = k_committed k /\
    forall tp', partition_log tp' k' = if decide (tp' = tp) then partition_log tp k ++ [r] else partition_log tp' k.
Proof.
  intros Hs tp r. unfold send_and_wait. autorewrite with pym. rewrite Hs. cbn [negb]. eexists. split; [reflexivity|]. split; [done|].
  intros tp'. unfold partition_log at 1. cbn. fold tp r.
  case_decide as Hd; [by rewrite Hd, lookup_insert_eq|by rewrite lookup_insert_ne].
Qed.

Lemma send_inv sha p now topic value key part ts k h : kafka_inv h k ->
  kafka_inv h (send_and_wait sha p now topic value key part ts k).2.
Proof.
  intros Hi. destruct (pr_is_started p) eqn:Hs.
  2:{ unfold send_and_wait. autorewrite with pym. by rewrite Hs. }
  destruct (send_log sha p now topic value key part ts k Hs) as (k' & -> & Hc & Hlog). destruct Hi as [H1 H2 H3].
  set (tp := (topic, _)) in Hlog. cbn [snd]. split.
  - intros tp' i r. rewrite Hlog. case_decide; [|apply H1]. rewrite lookup_app_Some. intros [Hr|[Hge Hr]]; [by eapply H1|].
    apply list_lookup_singleton_Some in Hr as [Hi <-]. cbn. lia.
  - intros g tp'. rewrite Hlog. specialize (H2 g tp'). unfold group_offset in *. rewrite Hc.
    case_decide as Hd; [|done]. rewrite length_app. subst tp'. lia.
  - intros g tp'. unfold group_offset. rewrite Hc. apply H3.
Qed.

(** Producers append and groups poll, in any order, with any callbacks. *)
Inductive kafka_reach : kafka -> list handled_record -> Prop :=
  | kr_init : kafka_reach kafka_init []
  | kr_send sha p now topic value key part ts k h : kafka_reach k h ->
      kafka_reach (send_and_wait sha p now topic value key part ts k).2 h
  | kr_poll J loads raw_data event_type model_validate (S : Type) (cb : J -> M S ()) topic group_id size dg dm order k s r n k' s' h :
      kafka_reach k h -> order ≡ₚ three topic -> 0 < size ->
      consume_batch_counted loads raw_data event_type model_validate cb topic group_id size dg true dm order k s = (r, n, (k', s')) ->
      kafka_reach k' (h ++ take n (tagged (effective_group group_id dg) (batch_of topic group_id size dg dm order k))).

Lemma kafka_inv_init : kafka_inv [] kafka_init.
Proof.
  split.
  - intros tp i r. unfold partition_log. cbn. by rewrite lookup_empty.
  - intros g tp. unfold group_offset. cbn. rewrite lookup_empty. cbn. lia.
  - intros g tp i. unfold group_offset. cbn. rewrite lookup_empty. cbn. lia.
Qed.

Lemma kafka_reach_inv k h : kafka_reach k h -> kafka_inv h k.
Proof.
  induction 1; [apply kafka_inv_init|by apply send_inv|by eapply poll_inv].
Qed.

(** C23: at-least-once consumption.  However producers append and groups poll (starting
    from the earliest record, as configured, in batches of positive size), with whatever callbacks, failures, batch sizes and partition orders, every record below a
    group's committed offset has been handled by that group's callback to the end, the
    committed offset never passes the end of the log, and the record at a position of a
    log carries that position as its offset.  So a record whose processing raised is
    read again and none is skipped. *)
Theorem kafka_at_least_once (k : kafka) (h : list handled_record) (Hr : kafka_reach k h) :
  forall (c : consumer) (tp : topic_partition),
    (forall off i, committed c tp k = Some off -> i < off -> (cn_group_id c, tp, i) ∈ h) /\
    default 0 (committed c tp k) <= highwater tp k /\
    (forall i r, partition_log tp k !! i = Some r -> rc_offset r = i).
Proof.
  intros c tp. destruct (kafka_reach_inv k h Hr) as [H1 H2 H3]. unfold committed, highwater.
  split; [|split; [apply H2|apply H1]].
  intros off i Hoff Hi. apply H3. unfold group_offset. by rewrite Hoff.
Qed.

(** ** Progress *)

Section Drain.
Context {J : Type} (loads : string -> option J) (raw_data : string -> J) (event_type : J -> result (option string))
  (model_validate : string -> J -> bool) {S : Type} (cb : J -> M S ()).
Context (topic group_id dg : string) (size dm : nat) (order : list topic_partition).

(** [n] polls one after the other; the first that raises ends the run. *)
Fixpoint poll_times (n : nat) : M (kafka * S) () :=
  match n with
  | O => ret ()
  | Datatypes.S n' =>
      consume_batch loads raw_data event_type model_validate cb topic group_id size dg true dm order ;;; poll_times n'
  end.

Definition total_lag (k : kafka) : nat := (get_consumer_group_status group_id topic dg true dm k).2.

Lemma total_lag_eq k : total_lag k = sum_list_with (group_behind (effective_group group_id dg) k) (three topic).
Proof.
  unfold total_lag, get_consumer_group_status. set (c := consumer_start _ k). set (l := stable_sort _ _).
  assert (l ≡ₚ three topic) as Hl.
  { unfold l. rewrite stable_sort_perm. change (cn_assigned c) with (remove_dups (three topic)).
    apply NoDup_Permutation; [apply NoDup_remove_dups|unfold three; repeat constructor; set_solver|].
    intros tp. by rewrite elem_of_remove_dups. }
  cbn [snd]. transitivity (sum_list_with (group_behind (effective_group group_id dg) k) l); [|by rewrite Hl].
  clear. induction l as [|tp l IH]; [done|]. cbn. rewrite <-IH. done.
Qed.

Lemma process_all_ok
  (Hok : forall value s, exists d s', process_record loads raw_data event_type model_validate cb value s = (Ok d, s')) rs n0 ev0 s :
  exists ev, (process_records loads raw_data event_type model_validate cb rs n0 ev0 s).1.1 = Ok ev.
Proof.
  revert n0 ev0 s. induction rs as [|r rs IH]; intros n0 ev0 s; cbn [process_records]; [by eexists|].
  destruct (Hok r s) as (d & s' & ->). apply IH.
Qed.

Lemma poll_progress k s h : order ≡ₚ three topic -> 0 < size -> kafka_inv h k ->
  (forall value s, exists d s', process_record loads raw_data event_type model_validate cb value s = (Ok d, s')) ->
  exists p k' s' h', consume_batch loads raw_data event_type model_validate cb topic group_id size dg true dm order (k, s) = (Ok p, (k', s')) /\
    kafka_inv h' k' /\ total_lag k' = total_lag k - size /\ po_records_processed p = size `min` total_lag k.
Proof.
  intros Hord Hsize Hi Hok. unfold consume_batch.
  destruct (consume_batch_counted _ _ _ _ _ _ _ _ _ _ _ _ _ _) as [[r n] [k' s']] eqn:Hrun.
  pose proof (poll_inv _ _ _ _ _ _ _ _ _ _ _ _ _ _ _ _ _ _ Hord Hsize Hi Hrun) as Hi'.
  apply consume_run in Hrun as Hp. destruct r as [p|e].
  - destruct Hp as (-> & -> & Hproc & _). exists p. eexists _, s', _. split; [reflexivity|]. split; [exact Hi'|].
    destruct (commit_batch_offset topic group_id size dg dm order k h Hord Hsize Hi) as (cnt & Hsum & Ho).
    rewrite Hproc, !total_lag_eq. split; [rewrite <-Hsum|by apply batch_ok].
    set (g := effective_group group_id dg) in *. unfold three in *. cbn.
    assert (forall p, (topic, p) ∈ three topic -> group_behind g (commit_batch g (batch_of topic group_id size dg dm order k) k) (topic, p)
      = group_behind g k (topic, p) - cnt (topic, p)) as Hnew.
    { intros q Hin. specialize (Ho g (topic, q)). rewrite decide_True in Ho by (split; [done|exact Hin]). destruct Ho as (_ & Ho & _).
      unfold group_behind. rewrite Ho. change (partition_log _ (commit_batch _ _ k)) with (partition_log (topic, q) k). lia. }
    rewrite !Hnew by set_solver. done.
  - exfalso. revert Hrun. unfold consume_batch_counted, getmany. replace (negb (cn_is_started _)) with false by done.
    destruct (getmany_loop _ _ _ _ _) as [batch pos']. pose proof (process_all_ok Hok (concat batch.*2) 0 [] s) as [ev Hev].
    destruct (process_records _ _ _ _ _ _ _ _ s) as [[r n'] s1]. cbn in Hev. subst r. by case_bool_decide.
Qed.

(** C24: a group that never fails drains its topic.  When no record makes the callback or
    the validation raise, each poll returns, processes as many records as the batch size
    and the lag allow, and lowers the reported total lag by that number; hence [n] polls
    of batches of positive size all succeed and leave no lag once [n] times the size
    reaches the initial lag. *)
Theorem polling_drains_topic (n : nat) (k : kafka) (s : S) (h : list handled_record) (Hr : kafka_reach k h)
  (Hord : order ≡ₚ three topic) (Hsize : 0 < size)
  (Hok : forall value s, exists d s', process_record loads raw_data event_type model_validate cb value s = (Ok d, s'))
  (Hn : total_lag k <= n * size) :
  (exists p k' s', consume_batch loads raw_data event_type model_validate cb topic group_id size dg true dm order (k, s) = (Ok p, (k', s')) /\
     po_records_processed p = size `min` total_lag k /\ total_lag k' = total_lag k - size) /\
  exists k' s', poll_times n (k, s) = (Ok (), (k', s')) /\ total_lag k' = 0.
Proof.
  apply kafka_reach_inv in Hr. split.
  - destruct (poll_progress k s h Hord Hsize Hr Hok) as (p & k' & s' & h' & ? & ? & ? & ?). eauto 10.
  - revert k s h Hr Hn. induction n as [|n IH]; intros k s h Hr Hn; [exists k, s; split; [done|lia]|].
    destruct (poll_progress k s h Hord Hsize Hr Hok) as (p & k' & s' & h' & Hp & Hi & Hlag & _).
    destruct (IH k' s' h' Hi ltac:(lia)) as (k'' & s'' & Hrun & H0). exists k'', s''.
    cbn [poll_times]. by rewrite (bind_ret_eq _ _ _ _ _ Hp).
Qed.
End Drain.

(** ** Failed batches, key order *)

(** A record that cannot be processed stops its batch for good: no offset is committed,
    not even of the records handled before it, so that the next poll starts over. *)
Theorem poison_record_blocks {J} loads raw_data event_type model_validate {S} (cb : J -> M S ()) topic group_id size dg dm order k s rec :
  rec ∈ concat (batch_of topic group_id size dg dm order k).*2 ->
  (forall s, exists e s', process_record loads raw_data event_type model_validate cb rec s = (Raise e, s')) ->
  exists e s', consume_batch loads raw_data event_type model_validate cb topic group_id size dg true dm order (k, s) = (Raise e, (k, s')).
Proof.
  intros Hin Hbad. unfold consume_batch.
  destruct (consume_batch_counted _ _ _ _ _ _ _ _ _ _ _ _ _ _) as [[r n] [k' s']] eqn:Hrun.
  apply consume_run in Hrun as Hp. destruct r as [p|e]; [|destruct Hp as [-> _]; eauto]. exfalso.
  revert Hrun. unfold consume_batch_counted. fold (poll_consumer topic group_id size dg dm k). unfold batch_of in Hin.
  destruct (getmany _ _ _ _) as [[batch c']|]; [|done].
  assert (forall rs n0 ev0 s, rec ∈ rs -> exists e, (process_records loads raw_data event_type model_validate cb rs n0 ev0 s).1.1 = Raise e) as Hfail.
  { clear -Hbad. induction rs as [|r rs IH]; intros n0 ev0 s Hin; [set_solver|]. cbn [process_records].
    destruct (process_record _ _ _ _ _ r s) as [[d|e] s'] eqn:Hr; [|by exists e].
    apply elem_of_cons in Hin as [->|Hin]; [destruct (Hbad s) as (e & s1 & He); congruence|by apply IH]. }
  destruct (Hfail _ 0 [] s Hin) as [e He]. destruct (process_records _ _ _ _ _ _ _ _ s) as [[r n'] s1]. cbn in He. by subst r.
Qed.

(** A run of [publish_event] calls: topic, key, event. *)
Definition publication : Type := string * string * string.
Definition publish_all (sha : string -> nat) (p : producer) (now_ms : Z) (l : list publication) (k : kafka) : kafka :=
  foldl (fun k e => (publish_event sha p now_ms e.1.1 e.1.2 e.2 k).2) k l.
Definition keyed (key : string) (l : list record) : list string := rc_value <$> filter (fun r => rc_key r = Some key) l.
Definition published (topic key : string) (l : list publication) : list string :=
  snd <$> filter (fun e : publication => e.1.1 = topic /\ e.1.2 = key) l.

Lemma publish_blank sha p now topic key event k : py_strip key = "" -> (publish_event sha p now topic key event k).2 = k.
Proof. intros Hb. unfold publish_event. autorewrite with pym. rewrite (bool_decide_true (py_strip key = "")) by done. by rewrite orb_true_r. Qed.

Lemma publish_log sha p now topic key event k tp' : pr_is_started p = true -> py_strip key <> "" ->
  let tp := (topic, determine_partition sha p (Some key)) in
  partition_log tp' (publish_event sha p now topic key event k).2 =
  if decide (tp' = tp) then partition_log tp k ++ [mkRecord (length (partition_log tp k)) (Some key) event now] else partition_log tp' k.
Proof.
  intros Hs Hb tp. unfold publish_event. autorewrite with pym. rewrite (bool_decide_false (py_strip key = "")) by done.
  rewrite bool_decide_false by (by intros ->). cbn [orb].
  destruct (send_log sha p now topic event (Some key) None None k Hs) as (k' & Hrun & _ & Hlog).
  rewrite (bind_ret_eq _ _ _ _ _ Hrun). apply Hlog.
Qed.

(** Events of one key stay in order.  After any run of [publish_event] calls with a
    started producer, the records of a non-blank key in a topic are exactly the events
    published under it, in the order of publication, all in the one partition its digest
    selects and in no other; a blank key is refused and appends nothing. *)
Theorem key_order_preserved (sha : string -> nat) (p : producer) (now_ms : Z) (l : list publication) (topic key : string)
  (Hstart : pr_is_started p = true) :
  let k := publish_all sha p now_ms l kafka_init in
  forall part, keyed key (partition_log (topic, part) k) =
    if decide (part = determine_partition sha p (Some key) /\ py_strip key <> "") then published topic key l else [].
Proof.
  cbn zeta. unfold published. induction l as [|[[t c] v] l IH] using rev_ind; intros part; [by case_decide|].
  unfold publish_all. rewrite foldl_snoc. fold (publish_all sha p now_ms l kafka_init).
  rewrite filter_app, fmap_app. cbn [fst snd]. specialize (IH part). set (k := publish_all _ _ _ _ _) in *. destruct (decide (py_strip c = "")) as [Hb|Hb].
  { rewrite publish_blank by done. rewrite IH. case_decide as Hd; [|done].
    rewrite filter_cons_False, filter_nil, app_nil_r; [done|]. cbn. naive_solver. }
  rewrite publish_log by done. cbn zeta. unfold keyed in *.
  case_decide as Hd; case_decide as Htp.
  - rewrite <-Htp, filter_app, fmap_app, IH. f_equal. rewrite !filter_cons, !filter_nil. cbn.
    repeat case_decide; naive_solver.
  - rewrite IH, filter_cons_False, filter_nil, app_nil_r; [done|]. cbn. naive_solver.
  - rewrite <-Htp, filter_app, fmap_app, IH, filter_cons_False, filter_nil; [done|]. cbn. naive_solver.
  - exact IH.
Qed.

(** ** Witnesses *)

Definition demo_sha (s : string) : nat := String.length s.
Definition demo_producer : producer := producer_start producer_init.
Definition demo_kafka : kafka :=
  publish_all demo_sha demo_producer 0%Z [("orders.events", "user_1", "a"); ("orders.events", "user_22", "b"); ("orders.events", "user_1", "c")] kafka_init.
(** Data is the raw text; the callback appends it to a list and refuses the text "bad". *)
Definition demo_callback (d : string) : M (list string) () := fun s =>
  if bool_decide (d = "bad") then (Raise PyRuntimeError, s) else (Ok (), s ++ [d]).
Definition demo_log_callback (d : string) : M (list string) () := modify (fun s => s ++ [d]).

Lemma demo_kafka_reach : kafka_reach demo_kafka [].
Proof.
  assert (forall t c v k, kafka_reach k [] -> kafka_reach (publish_event demo_sha demo_producer 0 t c v k).2 []) as H.
  { intros t c v k Hk. unfold publish_event. autorewrite with pym. destruct (_ || _); [done|].
    destruct (send_and_wait demo_sha demo_producer 0 t v (Some c) None None k) as [r k'] eqn:E.
    pose proof (kr_send demo_sha demo_producer 0 t v (Some c) None None k [] Hk) as H. rewrite E in H. unfold bind. rewrite E. by destruct r. }
  unfold demo_kafka, publish_all. cbn [foldl]. repeat apply H. apply kr_init.
Qed.

Definition demo_poll : result poll_response * nat * (kafka * list string) :=
  consume_batch_counted Some id (fun _ => Ok None) (fun _ _ => true) demo_callback "orders.events" "g" 2 "d" true 50
    (three "orders.events") demo_kafka [].
Definition demo_handled : list handled_record :=
  take demo_poll.1.2 (tagged "g" (batch_of "orders.events" "g" 2 "d" 50 (three "orders.events") demo_kafka)).
Definition demo_group : consumer := consumer_init ["orders.events"] "g" true 2.

Lemma demo_poll_reach : kafka_reach demo_poll.2.1 demo_handled.
Proof.
  eapply (kr_poll string Some id (fun _ => Ok None) (fun _ _ => true) (list string) demo_callback "orders.events" "g" 2 "d" 50
    (three "orders.events") demo_kafka [] demo_poll.1.1 demo_poll.1.2 demo_poll.2.1 demo_poll.2.2 []);
    [apply demo_kafka_reach|reflexivity|lia|].
  unfold demo_poll. by destruct (consume_batch_counted _ _ _ _ _ _ _ _ _ _ _ _ _ _) as [[r n] [k s]].
Qed.

Lemma kafka_at_least_once_witness :
  committed demo_group ("orders.events", 0) demo_poll.2.1 = Some 2 /\ ("g", ("orders.events", 0), 1) ∈ demo_handled.
Proof.
  split; [vm_compute; reflexivity|].
  refine (proj1 (kafka_at_least_once _ _ demo_poll_reach demo_group ("orders.events", 0)) 2 1 _ _); [vm_compute; reflexivity|lia].
Defined.

Lemma polling_drains_topic_witness :
  exists k s, poll_times Some id (fun _ => Ok None) (fun _ _ => true) demo_log_callback "orders.events" "g" "d" 2 50 (three "orders.events") 2
    (demo_kafka, []) = (Ok (), (k, s)) /\ total_lag "orders.events" "g" "d" 50 k = 0.
Proof.
  refine (proj2 (polling_drains_topic Some id (fun _ => Ok None) (fun _ _ => true) demo_log_callback "orders.events" "g" "d" 2 50
    (three "orders.events") 2 demo_kafka [] [] demo_kafka_reach _ _ _ _)); [reflexivity|lia| |vm_compute; lia].
  intros r s. eexists _, _. reflexivity.
Defined.

Lemma key_order_preserved_witness : keyed "user_1" (partition_log ("orders.events", 0) demo_kafka) = ["a"; "c"].
Proof.
  unfold demo_kafka. rewrite (key_order_preserved demo_sha demo_producer 0 _ "orders.events" "user_1" eq_refl 0). vm_compute. reflexivity.
Defined.
