(* ===== verification/Dlq.v ===== *)
(** Dead letters: [app/services/dlq_service.py], [app/schemas/dlq.py] and the endpoints of
    [app/routers/dlq_router.py].

    The module-level [_quarantine_store] and the delays slept are state.  The handler,
    the acknowledgement and the republishing function are the caller's: they run on the
    whole state, so that a message quarantined while one of them is awaited is visible.
    [str(exc)], the formatted traceback and the generated message identifier are
    parameters; delays are rationals in seconds. *)

From Stdlib Require Import QArith.
From S2P Require Import Prelude.

Local Open Scope nat_scope.
Local Open Scope py_scope.

Section Service.
Context {P R W : Type} (str_exc traceback_of : exc -> string).

Record DLQEnvelope : Type := mkEnvelope {
  dl_message_id : string; dl_original_topic_or_queue : string; dl_payload : P; dl_error_message : string;
  dl_error_traceback : string; dl_retry_count : Z; dl_failed_at : Z; dl_dlq_destination : string }.

Record dlq : Type := mkDlq { dq_store : list DLQEnvelope; dq_slept : list Q; dq_world : W }.
Definition set_store (l : list DLQEnvelope) (d : dlq) : dlq := mkDlq l (dq_slept d) (dq_world d).
Definition sleep (t : Q) (d : dlq) : dlq := mkDlq (dq_store d) (dq_slept d ++ [t]) (dq_world d).

Definition MAX_RETRIES : Z := 3.
Definition BASE_BACKOFF_SECONDS : Q := 1.
Definition DEFAULT_DLQ_DESTINATION : string := "orders.dlq".

Definition from_origin (queue_or_topic : option string) (e : DLQEnvelope) : bool :=
  match queue_or_topic with None => true | Some q => bool_decide (dl_original_topic_or_queue e = q) end.

Definition get_quarantined_messages (queue_or_topic : option string) (d : dlq) : list DLQEnvelope :=
  filter (fun e => from_origin queue_or_topic e = true) (dq_store d).
Definition clear_quarantine (d : dlq) : dlq := set_store [] d.
Definition route_to_dlq (e : DLQEnvelope) (d : dlq) : dlq := set_store (dq_store d ++ [e]) d.

(** ** [process_with_dlq]: the [for] loop; [left] attempts are left after [attempt] ones.
    The [try] covers the handler and the acknowledgement that follows it. *)
Fixpoint attempt_loop (left attempt : nat) (max_retries : Z) (base_delay : Q) (payload : P) (handler_func : P -> M dlq R)
    (ack_func : option (M dlq ())) (last_exc : option exc) : dlq -> (R + option exc) * dlq := fun d =>
  match left with
  | O => (inr last_exc, d)
  | S left' =>
      let body :=
        let! result := handler_func payload in
        match ack_func with Some ack => ack ;;; ret result | None => ret result end in
      match body d with
      | (Ok result, d') => (inl result, d')
      | (Raise e, d') =>
          let delay := (base_delay * inject_Z (2 ^ Z.of_nat attempt))%Q in
          let d'' := if (Z.of_nat (S attempt) <? max_retries)%Z && negb (Qle_bool delay 0) then sleep delay d' else d' in
          attempt_loop left' (S attempt) max_retries base_delay payload handler_func ack_func (Some e) d''
      end
  end.

(** [inl result] is [(True, result)], [inr envelope] is [(False, envelope)]. *)
Definition process_with_dlq (generated_id : string) (now : Z) (destination : string) (payload : P) (handler_func : P -> M dlq R)
    (ack_func : option (M dlq ())) (message_id : option string) (base_delay : Q) (max_retries : Z) : M dlq (R + DLQEnvelope) := fun d =>
  match attempt_loop (Z.to_nat max_retries) 0 max_retries base_delay payload handler_func ack_func None d with
  | (inl result, d') => (Ok (inl result), d')
  | (inr last_exc, d') =>
      let msg_id := match message_id with Some "" | None => generated_id | Some m => m end in
      let envelope := mkEnvelope msg_id destination payload
        (match last_exc with Some e => str_exc e | None => "Unknown error" end)
        (match last_exc with Some e => traceback_of e | None => "" end) max_retries now DEFAULT_DLQ_DESTINATION in
      if (max_retries <? 0)%Z then (Raise PydanticValidationError, d')
      else
        let d'' := route_to_dlq envelope d' in
        match ack_func with
        | Some ack => let '(r, d3) := ack d'' in (let? _ := r in Ok (inr envelope), d3)
        | None => (Ok (inr envelope), d'')
        end
  end.

(** ** Redrive and purge *)

(** The first loop of [redrive_messages]: candidates up to the limit, and the others. *)
Fixpoint split_candidates (queue_or_topic : option string) (limit : Z) (l candidates remaining : list DLQEnvelope)
    : list DLQEnvelope * list DLQEnvelope :=
  match l with
  | [] => (candidates, remaining)
  | e :: l' =>
      if from_origin queue_or_topic e && (Z.of_nat (length candidates) <? limit)%Z
      then split_candidates queue_or_topic limit l' (candidates ++ [e]) remaining
      else split_candidates queue_or_topic limit l' candidates (remaining ++ [e])
  end.
Fixpoint republish_all (republish_func : option (string -> P -> M dlq ())) (l : list DLQEnvelope) (redriven_count : Z) : M dlq Z :=
  match l with
  | [] => ret redriven_count
  | e :: l' =>
      match republish_func with
      | Some republish => republish (dl_original_topic_or_queue e) (dl_payload e)
      | None => ret ()
      end ;;;
      republish_all republish_func l' (redriven_count + 1)%Z
  end.
Definition redrive_messages (queue_or_topic : option string) (limit : Z) (republish_func : option (string -> P -> M dlq ()))
    : M dlq Z :=
  let! store := gets dq_store in
  let '(candidates, remaining) := split_candidates queue_or_topic limit store [] [] in
  let! redriven_count := republish_all republish_func candidates 0 in
  modify (set_store remaining) ;;;
  ret redriven_count.

Definition purge_dlq (queue_or_topic : option string) (d : dlq) : Z * dlq :=
  match queue_or_topic with
  | None => (Z.of_nat (length (dq_store d)), set_store [] d)
  | Some q =>
      let kept := filter (fun e => dl_original_topic_or_queue e <> q) (dq_store d) in
      ((Z.of_nat (length (dq_store d)) - Z.of_nat (length kept))%Z, set_store kept d)
  end.

(** ** Endpoints *)

Definition list_quarantined_messages (queue_or_topic : option string) (d : dlq) : Z * list DLQEnvelope :=
  let envelopes := get_quarantined_messages queue_or_topic d in (Z.of_nat (length envelopes), envelopes).
(** The redriven count and the destination reported; no republishing function is passed. *)
Definition redrive_messages_endpoint (queue_or_topic : option string) (limit : Z) : M dlq (Z * string) :=
  raise_if (negb ((0 <? limit)%Z && (limit <=? 1000)%Z)) PydanticValidationError ;;;
  let! count := redrive_messages queue_or_topic limit None in
  ret (count, match queue_or_topic with Some "" | None => "all origin queues/topics" | Some q => q end).
Definition purge_messages (queue_or_topic : option string) (d : dlq) : Z * dlq := purge_dlq queue_or_topic d.
End Service.
Arguments DLQEnvelope : clear implicits.
Arguments dlq : clear implicits.

(** ** Isolation of poison messages

    The handler answers its [n]-th call with [outcome n], the acknowledgement its [n]-th
    with [ack_outcome n]; the world counts the calls of both. *)

Section Isolation.
Context {P R : Type} (str_exc traceback_of : exc -> string) (outcome : nat -> result R) (ack_outcome : nat -> result ()).

Record counters : Type := mkCounters { w_calls : nat; w_acks : nat }.
Abbreviation D := (dlq P counters).
Definition set_world (w : counters) (d : D) : D := mkDlq (dq_store d) (dq_slept d) w.
Definition counted_handler (_ : P) : M D R := fun d =>
  let w := dq_world d in (outcome (w_calls w), set_world (mkCounters (S (w_calls w)) (w_acks w)) d).
Definition counted_ack : M D () := fun d =>
  let w := dq_world d in (ack_outcome (w_acks w), set_world (mkCounters (w_calls w) (S (w_acks w))) d).

Definition delay_at (base_delay : Q) (attempt : nat) : Q := (base_delay * inject_Z (2 ^ Z.of_nat attempt))%Q.
Definition fails {A} (r : result A) : Prop := exists e, r = Raise e.

Lemma delay_positive base attempt : (0 < base)%Q -> negb (Qle_bool (delay_at base attempt) 0) = true.
Proof.
  intros Hb. rewrite negb_true_iff. apply not_true_is_false. rewrite Qle_bool_iff. apply Qlt_not_le.
  apply Qmult_lt_0_compat; [done|]. change 0%Q with (inject_Z 0). rewrite <-Zlt_Qlt. apply Z.pow_pos_nonneg; lia.
Qed.

Section Loop.
Context (base : Q) (max : Z) (payload : P) (Hbase : (0 < base)%Q).
Implicit Types (l : list (DLQEnvelope P)) (s : list Q).
Let loop left a last := attempt_loop left a max base payload counted_handler (Some counted_ack) last.

Lemma loop_raise left a last l s c k e : outcome c = Raise e -> a + S left = Z.to_nat max ->
  loop (S left) a last (mkDlq l s (mkCounters c k)) =
  loop left (S a) (Some e) (mkDlq l (s ++ if left =? 0 then [] else [delay_at base a]) (mkCounters (S c) k)).
Proof.
  intros He Hmax. unfold loop at 1. cbn [attempt_loop]. unfold bind at 1, counted_handler at 1. cbn [dq_world w_calls]. rewrite He.
  cbn -[Z.of_nat Z.pow]. fold (delay_at base a). rewrite delay_positive by done. rewrite andb_true_r.
  destruct (Nat.eqb_spec left 0) as [->|Hl].
  - destruct (Z.ltb_spec (Z.of_nat (S a)) max); [lia|]. by rewrite app_nil_r.
  - by destruct (Z.ltb_spec (Z.of_nat (S a)) max); [|lia].
Qed.

Lemma loop_success i left a last l s c k r : ack_outcome k = Ok () -> a + left = Z.to_nat max -> i < left ->
  (forall j, j < i -> fails (outcome (c + j))) -> outcome (c + i) = Ok r ->
  loop left a last (mkDlq l s (mkCounters c k)) =
    (inl r, mkDlq l (s ++ (delay_at base <$> seq a i)) (mkCounters (S (c + i)) (S k))).
Proof.
  intros Hk. revert left a last s c. induction i as [|i IH]; intros left a last s c Hmax Hi Hf Hok;
    (destruct left as [|left]; [lia|]).
  - rewrite Nat.add_0_r in *. unfold loop. cbn [attempt_loop]. unfold bind, counted_handler, counted_ack. cbn.
    rewrite Hok. cbn. rewrite Hk. cbn. by rewrite app_nil_r.
  - destruct (Hf 0) as [e He]; [lia|]. rewrite Nat.add_0_r in He. rewrite (loop_raise _ _ _ _ _ _ _ e) by (done || lia).
    rewrite IH; [|lia|lia| |].
    + replace (left =? 0) with false by (symmetry; apply Nat.eqb_neq; lia). cbn [seq fmap list_fmap].
      rewrite <-app_assoc. cbn. by rewrite !Nat.add_succ_r.
    + intros j Hj. replace (S c + j) with (c + S j) by lia. apply Hf. lia.
    + by replace (S c + i) with (c + S i) by lia.
Qed.

Lemma loop_exhausted left a last l s c k : a + left = Z.to_nat max -> (forall j, j < left -> fails (outcome (c + j))) ->
  exists e, (0 < left -> outcome (c + left - 1) = Raise e) /\
    loop left a last (mkDlq l s (mkCounters c k)) =
    (inr (if left =? 0 then last else Some e), mkDlq l (s ++ (delay_at base <$> seq a (left - 1))) (mkCounters (c + left) k)).
Proof.
  revert a last s c. induction left as [|left IH]; intros a last s c Hmax Hf.
  { exists PyRuntimeError. split; [lia|]. cbn. by rewrite app_nil_r, Nat.add_0_r. }
  destruct (Hf 0) as [e0 He0]; [lia|]. rewrite Nat.add_0_r in He0. rewrite (loop_raise _ _ _ _ _ _ _ e0) by (done || lia).
  destruct (IH (S a) (Some e0) (s ++ if left =? 0 then [] else [delay_at base a]) (S c)) as (e & He & ->); [lia| |].
  { intros j Hj. replace (S c + j) with (c + S j) by lia. apply Hf. lia. }
  destruct left as [|left]; cbn [Nat.eqb].
  - exists e0. split; [intros _; by replace (c + 1 - 1) with c by lia|]. cbn. by rewrite !app_nil_r, Nat.add_1_r, Nat.add_0_r.
  - exists e. split; [intros _; replace (c + S (S left) - 1) with (S c + S left - 1) by lia; apply He; lia|].
    rewrite <-app_assoc. cbn. by rewrite Nat.sub_0_r, !Nat.add_succ_r.
Qed.
End Loop.

(** C25: poison messages are isolated.  With a handler of any behaviour, an
    acknowledgement that is given and works (one that raises: [failed_ack_reprocesses]), and
    a positive base delay, [process_with_dlq] returns for every positive number of tries:
    when some call within the quota returns, the first such result is given, the handler has run exactly that often, the message is acknowledged once and nothing is
    quarantined; when every call raises, the handler has run exactly [max_retries] times,
    one envelope with the original payload, the last error and the number of tries is
    appended to the quarantine, and the message is acknowledged once, so the queue is not
    blocked.  The delays between the tries double, starting from [base_delay], and none
    follows the last try. *)
Theorem dlq_isolates_poison (generated_id destination : string) (now : Z) (payload : P) (base : Q) (max : Z)
  (l : list (DLQEnvelope P)) (s : list Q) (Hbase : (0 < base)%Q) (Hmax : (0 < max)%Z) (Hack : forall n, ack_outcome n = Ok ()) :
  let n := Z.to_nat max in
  let run := process_with_dlq str_exc traceback_of generated_id now destination payload counted_handler (Some counted_ack) None base max
               (mkDlq l s (mkCounters 0 0)) in
  (forall i r, i < n -> (forall j, j < i -> fails (outcome j)) -> outcome i = Ok r ->
     run = (Ok (inl r), mkDlq l (s ++ (delay_at base <$> seq 0 i)) (mkCounters (S i) 1))) /\
  ((forall j, j < n -> fails (outcome j)) ->
     exists e, outcome (n - 1) = Raise e /\
     let envelope := mkEnvelope generated_id destination payload (str_exc e) (traceback_of e) max now "orders.dlq" in
     run = (Ok (inr envelope), mkDlq (l ++ [envelope]) (s ++ (delay_at base <$> seq 0 (n - 1))) (mkCounters n 1))).
Proof.
  intros n run. unfold run, process_with_dlq. change (Z.to_nat max) with n. split.
  - intros i r Hi Hf Hok. by rewrite (loop_success base max payload Hbase i n 0 None l s 0 0 r (Hack 0)).
  - intros Hf. destruct (loop_exhausted base max payload Hbase n 0 None l s 0 0) as (e & He & Hrun); [lia|done|].
    exists e. split; [apply He; lia|]. rewrite Hrun. replace (n =? 0) with false by (symmetry; apply Nat.eqb_neq; lia).
    replace (max <? 0)%Z with false by lia. cbn. by rewrite Hack.
Qed.

(** The acknowledgement is inside the [try]: when it raises, a message that was processed
    is processed again, up to the quota, and then quarantined as poison although every
    run of the handler returned. *)
Theorem failed_ack_reprocesses (generated_id destination : string) (now : Z) (payload : P) (base : Q) (max : Z)
  (l : list (DLQEnvelope P)) (s : list Q) : (0 < max)%Z -> (forall n, exists r, outcome n = Ok r) -> (forall n, fails (ack_outcome n)) ->
  let '(r, d) := process_with_dlq str_exc traceback_of generated_id now destination payload counted_handler (Some counted_ack) None base max
               (mkDlq l s (mkCounters 0 0)) in
  fails r /\ w_calls (dq_world d) = Z.to_nat max /\ exists e, dq_store d = l ++ [e].
Proof.
  intros Hmax Hok Hack. unfold process_with_dlq.
  assert (forall left a last s c k, exists last' s' k',
    attempt_loop left a max base payload counted_handler (Some counted_ack) last (mkDlq l s (mkCounters c k)) =
      (inr last', mkDlq l s' (mkCounters (c + left) k'))) as Hloop.
  { intros left. induction left as [|left IH]; intros a last s0 c k; [by eexists _, _, _; rewrite Nat.add_0_r|].
    cbn [attempt_loop]. unfold bind, counted_handler at 1, counted_ack at 1. cbn.
    destruct (Hok c) as [r ->], (Hack k) as [e ->]. cbn.
    match goal with |- context [attempt_loop left _ _ _ _ _ _ _ ?d] =>
      assert (exists s1, d = mkDlq l s1 (mkCounters (S c) (S k))) as [s1 ->] by (case_match; by eexists) end.
    destruct (IH (S a) (Some e) s1 (S c) (S k)) as (x & y & z & Hx). exists x, y, z. by rewrite Hx, Nat.add_succ_r. }
  destruct (Hloop (Z.to_nat max) 0 None s 0 0) as (x & y & z & ->). replace (max <? 0)%Z with false by lia.
  cbn. destruct (Hack z) as [e ->]. cbn. unfold fails. split; [by eexists|]. split; [done|]. by eexists.
Qed.
End Isolation.

(** ** Redrive *)

Section Redrive.
Context {P W : Type}.
Implicit Types (d : dlq P W) (l c r : list (DLQEnvelope P)).

Lemma split_candidates_ok q limit l c r : (Z.of_nat (length c) <= limit)%Z ->
  let '(c', r') := split_candidates q limit l c r in
  c' = c ++ take (Z.to_nat limit - length c) (filter (fun e => from_origin q e = true) l) /\ c' ++ r' ≡ₚ c ++ r ++ l.
Proof.
  revert c r. induction l as [|e l IH]; intros c r Hc; cbn [split_candidates].
  { rewrite filter_nil, take_nil, !app_nil_r. done. }
  rewrite filter_cons. destruct (from_origin q e) eqn:Ho; cbn [andb].
  - rewrite decide_True by done. destruct (Z.ltb_spec (Z.of_nat (length c)) limit) as [Hl|Hl].
    + specialize (IH (c ++ [e]) r). rewrite length_app in IH. cbn in IH. specialize (IH ltac:(lia)).
      destruct (split_candidates q limit l (c ++ [e]) r) as [c' r']. destruct IH as [-> Hp].
      destruct (Z.to_nat limit - length c) as [|n] eqn:En; [lia|].
      replace (Z.to_nat limit - (length c + 1)) with n in * by lia. split; [by rewrite <-app_assoc|].
      rewrite Hp, <-!app_assoc. apply Permutation_app_head. cbn. apply Permutation_middle.
    + specialize (IH c (r ++ [e]) Hc). destruct (split_candidates q limit l c (r ++ [e])) as [c' r']. destruct IH as [-> Hp].
      replace (Z.to_nat limit - length c) with 0 in * by lia. split; [done|]. rewrite Hp. by rewrite <-!app_assoc.
  - rewrite decide_False by done. specialize (IH c (r ++ [e]) Hc). destruct (split_candidates q limit l c (r ++ [e])) as [c' r'].
    destruct IH as [-> Hp]. split; [done|]. rewrite Hp. by rewrite <-!app_assoc.
Qed.

(** The messages a redrive takes. *)
Definition candidates_of (q : option string) (limit : Z) l : list (DLQEnvelope P) :=
  take (Z.to_nat limit) (filter (fun e => from_origin q e = true) l).

Lemma republish_none l n d : republish_all None l n d = (Ok (n + Z.of_nat (length l))%Z, d).
Proof. revert n. induction l as [|e l IH]; intros n; cbn; [by rewrite Z.add_0_r|]. rewrite IH. cbn. f_equal. f_equal. lia. Qed.

(** The redrive endpoint passes no republishing function: the messages it reports as
    redriven are removed from the quarantine and sent nowhere. *)
Theorem redrive_endpoint_discards (q : option string) (limit : Z) d : (0 < limit <= 1000)%Z ->
  exists dest rest, redrive_messages_endpoint q limit d =
    (Ok (Z.of_nat (length (candidates_of q limit (dq_store d))), dest), mkDlq rest (dq_slept d) (dq_world d)) /\
    candidates_of q limit (dq_store d) ++ rest ≡ₚ dq_store d.
Proof.
  intros Hl. unfold redrive_messages_endpoint. autorewrite with pym. replace (negb _) with false by lia.
  unfold redrive_messages. autorewrite with pym. pose proof (split_candidates_ok q limit (dq_store d) [] []) as Hs.
  destruct (split_candidates _ _ _ _ _) as [c r]. destruct Hs as [Hc Hp]; [cbn; lia|]. cbn in Hc, Hp. rewrite Nat.sub_0_r in Hc.
  autorewrite with pym. rewrite (bind_ret_eq _ _ _ _ _ (republish_none _ _ _)). eexists _, r. cbn. unfold candidates_of. rewrite <-Hc. done.
Qed.

(** A redrive with a republishing function.  When every call of it succeeds, exactly
    the oldest [limit] quarantined messages of the requested origin are sent back to the
    queue they came from, once each and in order, and leave the quarantine, all others
    stay; when a call raises, the quarantine is left as it was, so that no message is
    lost, and those before it will be sent again. *)
Theorem redrive_at_least_once (send : W -> string -> P -> result W) (q : option string) (limit : Z) d (Hlimit : (0 <= limit)%Z) :
  let republish (t : string) (p : P) : M (dlq P W) () := fun d =>
    match send (dq_world d) t p with
    | Ok w => (Ok (), mkDlq (dq_store d) (dq_slept d) w)
    | Raise e => (Raise e, d)
    end in
  let send_one w (e : DLQEnvelope P) := rbind w (fun w => send w (dl_original_topic_or_queue e) (dl_payload e)) in
  let taken := candidates_of q limit (dq_store d) in
  match foldl send_one (Ok (dq_world d)) taken, redrive_messages q limit (Some republish) d with
  | Ok w, (r, d') => r = Ok (Z.of_nat (length taken)) /\ dq_world d' = w /\ taken ++ dq_store d' ≡ₚ dq_store d
  | Raise e, (r, d') => r = Raise e /\ dq_store d' = dq_store d
  end.
Proof.
  intros republish send_one taken. unfold redrive_messages. autorewrite with pym.
  pose proof (split_candidates_ok q limit (dq_store d) [] []) as Hs.
  destruct (split_candidates _ _ _ _ _) as [c r]. destruct Hs as [Hc Hp]; [cbn; lia|]. cbn in Hc, Hp. rewrite Nat.sub_0_r in Hc.
  fold (candidates_of q limit (dq_store d)) taken in Hc. subst c.
  assert (forall l n w s st, match foldl send_one (Ok w) l with
    | Ok w' => republish_all (Some republish) l n (mkDlq st s w) = (Ok (n + Z.of_nat (length l))%Z, mkDlq st s w')
    | Raise e => exists w', republish_all (Some republish) l n (mkDlq st s w) = (Raise e, mkDlq st s w') end) as Hrun.
  { induction l as [|e l IH]; intros n w s st; [cbn; by rewrite Z.add_0_r|]. cbn [foldl republish_all length].
    unfold bind at 1 2, republish at 1 3. cbn [dq_world dq_store dq_slept]. unfold send_one at 2. cbn [rbind].
    destruct (send w _ _) as [w'|x].
    - specialize (IH (n + 1)%Z w' s st). replace (n + Z.of_nat (S (length l)))%Z with (n + 1 + Z.of_nat (length l))%Z by lia. exact IH.
    - assert (foldl send_one (Raise x) l = Raise x) as -> by (clear; by induction l). by eexists. }
  specialize (Hrun taken 0%Z (dq_world d) (dq_slept d) (dq_store d)). destruct d as [st s w]. cbn in *.
  destruct (foldl send_one (Ok w) taken) as [w'|x].
  - rewrite (bind_ret_eq _ _ _ _ _ Hrun). done.
  - destruct Hrun as [w' Hrun]. rewrite (bind_raise_eq _ _ _ _ _ Hrun). done.
Qed.
End Redrive.

(** ** Witnesses *)

Definition demo_error (e : exc) : string := "failed".
(** The first two calls raise. *)
Definition flaky (n : nat) : result string := if n <? 2 then Raise PyTimeoutError else Ok "done".
Definition demo_letter (origin : string) : DLQEnvelope string := mkEnvelope "m" origin "p" "failed" "failed" 3 0 "orders.dlq".
Definition demo_dlq : dlq string (list string) := mkDlq [demo_letter "orders"; demo_letter "mails"; demo_letter "orders"] [] [].

Lemma dlq_isolates_poison_witness :
  process_with_dlq demo_error demo_error "m1" 0 "orders" "p" (counted_handler flaky) (Some (counted_ack (fun _ => Ok ()))) None 1 3
    (mkDlq [] [] (mkCounters 0 0)) = (Ok (inl "done"), mkDlq [] [delay_at 1 0; delay_at 1 1] (mkCounters 3 1)).
Proof.
  refine (proj1 (dlq_isolates_poison demo_error demo_error flaky (fun _ => Ok ()) "m1" "orders" 0 "p" 1 3 [] [] _ _ _) 2 "done" _ _ _);
    [reflexivity|reflexivity|reflexivity|vm_compute; lia| |reflexivity].
  intros [|[|j]] Hj; [by eexists|by eexists|lia].
Defined.

Lemma redrive_at_least_once_witness :
  exists d', redrive_messages (Some "orders") 10
      (Some (fun t p d => (Ok (), mkDlq (dq_store d) (dq_slept d) (dq_world d ++ [t +:+ p])))) demo_dlq = (Ok 2%Z, d') /\
    dq_world d' = ["ordersp"; "ordersp"].
Proof.
  pose proof (redrive_at_least_once (fun w t p => Ok (w ++ [t +:+ p])) (Some "orders") 10 demo_dlq ltac:(lia)) as H.
  cbv zeta in H. match type of H with match ?x with _ => _ end => let y := eval vm_compute in x in change x with y in H end.
  cbn iota in H.
  destruct (redrive_messages _ _ _ _) as [r d'] in H |- *. destruct H as (-> & Hw & _). exists d'. split; [reflexivity|exact Hw].
Defined.
