(* ===== verification/Routing.v ===== *)
(** Read and write routing: [app/core/routing_session.py].

    A [RoutingUnitOfWork] holds a session on the primary and one on the replica; sessions
    are SQLAlchemy's, so what is modelled of them is the sequence of calls they receive:
    the world is the log of these calls.  A statement is its SQL text; [sql_fails] says
    when the engine itself raises.  The listener [_guard_replica_mutations] runs before a
    statement reaches the replica. *)

From S2P Require Import Prelude.

Local Open Scope py_scope.

Inductive DatabaseRole : Type := PRIMARY | REPLICA.
#[global] Instance role_eq_dec : EqDecision DatabaseRole.
Proof. solve_decision. Defined.

Inductive session_call : Type :=
  | Execute (role : DatabaseRole) (statement : string)
  | Commit (role : DatabaseRole)
  | Rollback (role : DatabaseRole)
  | Close (role : DatabaseRole).
#[global] Instance session_call_eq_dec : EqDecision session_call.
Proof. solve_decision. Defined.
Abbreviation calls := (list session_call).

(** ** The replica's shield *)

Definition FORBIDDEN_PREFIXES : list string := ["INSERT"; "UPDATE"; "DELETE"; "DROP"; "ALTER"; "CREATE"; "TRUNCATE"].
Definition guard_replica_mutations (statement : string) : result () :=
  let normalized := py_upper (py_strip statement) in
  if existsb (py_startswith normalized) FORBIDDEN_PREFIXES then Raise ReadOnlyReplicaMutationException else Ok ().

Section Routing.
(** The engine's own failures, by call. *)
Context (sql_fails : session_call -> option exc).

Definition call (c : session_call) : M calls () := fun w =>
  (match sql_fails c with Some e => Raise e | None => Ok () end, w ++ [c]).

(** [session.execute] on one of the two engines. *)
Definition execute (role : DatabaseRole) (statement : string) : M calls () :=
  match role with
  | REPLICA => lift_result (guard_replica_mutations statement)
  | PRIMARY => ret ()
  end ;;;
  call (Execute role statement).

(** ** [RoutingUnitOfWork]

    The sessions and the five repositories are set together by [__aenter__] and cleared
    together by [__aexit__]. *)
Record routing_uow : Type := mkUow {
  ru_primary : bool; ru_replica : bool; ru_has_written : bool;
  ru_users : bool; ru_posts : bool; ru_products : bool; ru_orders : bool; ru_outbox : bool
}.
Definition ru_init : routing_uow := mkUow false false false false false false false false.
Definition set_written (b : bool) (u : routing_uow) : routing_uow :=
  mkUow (ru_primary u) (ru_replica u) b (ru_users u) (ru_posts u) (ru_products u) (ru_orders u) (ru_outbox u).
Definition set_open (b : bool) (u : routing_uow) : routing_uow := mkUow b b (ru_has_written u) b b b b b.

Definition has_written (u : routing_uow) : bool := ru_has_written u.
Definition current_read_target (u : routing_uow) : DatabaseRole := if ru_has_written u then PRIMARY else REPLICA.
Definition mark_written (u : routing_uow) : routing_uow := set_written true u.

Definition R : Type -> Type := M (routing_uow * calls).
Definition on_calls {A} (m : M calls A) : R A := lift_r m.

Definition primary_session : R DatabaseRole :=
  let! u := gets fst in raise_if (negb (ru_primary u)) PyRuntimeError ;;; ret PRIMARY.
Definition replica_session : R DatabaseRole :=
  let! u := gets fst in raise_if (negb (ru_replica u)) PyRuntimeError ;;; ret REPLICA.
Definition active_read_session : R DatabaseRole :=
  let! u := gets fst in if ru_has_written u then primary_session else replica_session.
Definition active_write_session : R DatabaseRole :=
  modify (fun s => (set_written true s.1, s.2)) ;;; primary_session.
Definition session : R DatabaseRole := active_write_session.

(** The repository accessors: bound to the primary, and counted as writes. *)
Definition repository (is_open : routing_uow -> bool) : R DatabaseRole :=
  let! u := gets fst in
  raise_if (negb (is_open u)) PyRuntimeError ;;;
  modify (fun s => (set_written true s.1, s.2)) ;;;
  ret PRIMARY.
Definition users : R DatabaseRole := repository ru_users.
Definition posts : R DatabaseRole := repository ru_posts.
Definition products : R DatabaseRole := repository ru_products.
Definition orders : R DatabaseRole := repository ru_orders.
Definition outbox : R DatabaseRole := repository ru_outbox.

Definition execute_read (statement : string) : R () :=
  let! session := active_read_session in on_calls (execute session statement).
Definition execute_write (statement : string) : R () :=
  let! session := active_write_session in on_calls (execute session statement).

Definition aenter : R () := modify (fun s => (set_open true s.1, s.2)).
Definition ru_commit : R () := primary_session ;;; on_calls (call (Commit PRIMARY)).
Definition ru_rollback : R () := primary_session ;;; on_calls (call (Rollback PRIMARY)).
(** The sessions are closed and everything cleared whatever the rollback does; an
    exception of the first close leaves the rest undone. *)
Definition close_all : R () :=
  let! u := gets fst in
  (if ru_primary u
   then on_calls (call (Close PRIMARY)) ;;; modify (fun s => (mkUow false (ru_replica s.1) (ru_has_written s.1) (ru_users s.1)
     (ru_posts s.1) (ru_products s.1) (ru_orders s.1) (ru_outbox s.1), s.2))
   else ret ()) ;;;
  (if ru_replica u
   then on_calls (call (Close REPLICA)) ;;; modify (fun s => (mkUow (ru_primary s.1) false (ru_has_written s.1) (ru_users s.1)
     (ru_posts s.1) (ru_products s.1) (ru_orders s.1) (ru_outbox s.1), s.2))
   else ret ()) ;;;
  modify (fun s => (mkUow (ru_primary s.1) (ru_replica s.1) (ru_has_written s.1) false false false false false, s.2)).
Definition aexit (exc_type : option exc) : R () := fun s =>
  let '(r, s1) := match exc_type with Some _ => ru_rollback s | None => (Ok (), s) end in
  let '(r', s2) := close_all s1 in
  (match r' with Raise e => Raise e | Ok _ => r end, s2).

(** [async with uow: body] *)
Definition with_routing_uow {A} (body : R A) : R A := fun s =>
  match (aenter ;;; body) s with
  | (Ok a, s1) => let '(r, s2) := aexit None s1 in (let? _ := r in Ok a, s2)
  | (Raise e, s1) => let '(r, s2) := aexit (Some e) s1 in (match r with Raise e' => Raise e' | Ok _ => Raise e end, s2)
  end.

(** ** Session providers; [body] is the request handler *)

Definition get_read_session {A} (body : DatabaseRole -> M calls A) : M calls A := fun w =>
  let '(r, w1) := body REPLICA w in
  let '(r', w2) := call (Close REPLICA) w1 in
  (match r' with Raise e => Raise e | Ok _ => r end, w2).
Definition get_primary_session {A} (body : DatabaseRole -> M calls A) : M calls A := fun w =>
  let tried := try_except (let! a := body PRIMARY in call (Commit PRIMARY) ;;; ret a)
                 (fun e => call (Rollback PRIMARY) ;;; raise e) in
  let '(r, w1) := tried w in
  let '(r', w2) := call (Close PRIMARY) w1 in
  (match r' with Raise e => Raise e | Ok _ => r end, w2).
End Routing.

(** ** Proofs *)

Section Proofs.
Context (sql_fails : session_call -> option exc).

(** What a body does with an open unit of work. *)
Inductive uow_op : Type :=
  | Read (statement : string)
  | Write (statement : string)
  | Users | Posts | Products | Orders | Outbox
  | SessionOp
  | MarkWritten
  | CommitOp
  | RollbackOp.
Definition run_op (o : uow_op) : R () :=
  match o with
  | Read st => execute_read sql_fails st
  | Write st => execute_write sql_fails st
  | Users => users ;;; ret () | Posts => posts ;;; ret () | Products => products ;;; ret ()
  | Orders => orders ;;; ret () | Outbox => outbox ;;; ret ()
  | SessionOp => session ;;; ret ()
  | MarkWritten => modify (fun s => (mark_written s.1, s.2))
  | CommitOp => ru_commit sql_fails
  | RollbackOp => ru_rollback sql_fails
  end.
(** A body that goes on after an exception, as a caller that catches it. *)
Definition run_ops (os : list uow_op) (s : routing_uow * calls) : routing_uow * calls := foldl (fun s o => (run_op o s).2) s os.
Definition is_write (o : uow_op) : bool := match o with Read _ | CommitOp | RollbackOp => false | _ => true end.

Definition on_primary (c : session_call) : Prop :=
  match c with Execute r _ | Commit r | Rollback r | Close r => r = PRIMARY end.
(** A call the replica may receive inside a unit: a statement that passed the shield. *)
Definition replica_safe (c : session_call) : Prop :=
  on_primary c \/ exists st, c = Execute REPLICA st /\ guard_replica_mutations st = Ok ().

Definition op_ok (u : routing_uow) (o : uow_op) (u' : routing_uow) (cs : calls) : Prop :=
  Forall replica_safe cs /\
  (ru_has_written u = true -> Forall on_primary cs /\ ru_has_written u' = true) /\
  (is_write o = true -> ru_has_written u' = true /\ Forall on_primary cs) /\
  u' = set_written (ru_has_written u') u.

(** An open unit, written to or not. *)
Definition opened (written : bool) : routing_uow := mkUow true true written true true true true true.

(** One operation of an open unit. *)
Lemma run_op_ok o w ww : exists w' cs r, run_op o (opened ww, w) =
  (r, (opened w', w ++ cs)) /\
  op_ok (opened ww) o (opened w') cs.
Proof.
  destruct o; try by (exists true, []; eexists; split; [rewrite app_nil_r; reflexivity|repeat split; constructor]).
  - destruct ww.
    + exists true, [Execute PRIMARY statement]. eexists. split; [reflexivity|]. repeat split; repeat constructor.
    + destruct (guard_replica_mutations statement) as [[]|e] eqn:Hg.
      * exists false, [Execute REPLICA statement]. eexists. split.
        { unfold run_op, execute_read, active_read_session, replica_session, on_calls, lift_r, execute. autorewrite with pym. cbn.
          unfold bind, lift_result. rewrite Hg. reflexivity. }
        repeat split; try done. constructor; [|constructor]. right. eauto.
      * exists false, []. eexists. split.
        { unfold run_op, execute_read, active_read_session, replica_session, on_calls, lift_r, execute. autorewrite with pym. cbn.
          unfold bind, lift_result. rewrite Hg, app_nil_r. reflexivity. }
        repeat split; try done.
  - exists true, [Execute PRIMARY statement]. eexists. split; [reflexivity|]. repeat split; repeat constructor.
  - exists ww, [Commit PRIMARY]. eexists. split; [reflexivity|]. repeat split; repeat constructor; try done.
  - exists ww, [Rollback PRIMARY]. eexists. split; [reflexivity|]. repeat split; repeat constructor; try done.
Qed.

Lemma run_ops_ok os w ww : exists w' cs, run_ops os (opened ww, w) = (opened w', w ++ cs) /\ Forall replica_safe cs /\
  (ww = true -> w' = true /\ Forall on_primary cs).
Proof.
  unfold run_ops. induction os as [|o os IH] using rev_ind; [exists ww, []; rewrite app_nil_r; repeat split; auto|].
  destruct IH as (w1 & cs1 & Hrun & Hs1 & Hp1). rewrite foldl_snoc, Hrun. cbv beta.
  destruct (run_op_ok o (w ++ cs1) w1) as (w2 & cs2 & r & -> & Hs2 & Hp2 & _). exists w2, (cs1 ++ cs2).
  cbn. rewrite app_assoc. split; [done|]. split; [by apply Forall_app|]. intros Hw. destruct (Hp1 Hw) as [-> H1].
  destruct (Hp2 eq_refl) as [H2 H3]. split; [done|]. by apply Forall_app.
Qed.

(** Read your own writes.  In an open unit, whatever is executed and whatever raises:
    no write, commit or rollback ever reaches the replica, and a statement that does
    begins with none of the forbidden keywords; and once the unit was written to (an
    explicit write, the write session, any repository accessor or [mark_written]), that
    operation and everything after it, reads included, goes to the primary only. *)
Theorem read_your_own_writes (before after : list uow_op) (o : uow_op) (w : calls) (Ho : is_write o = true) :
  exists u1 cs1 u2 cs2,
    run_ops before (opened false, w) = (u1, w ++ cs1) /\
    run_ops (before ++ o :: after) (opened false, w) = (u2, w ++ cs1 ++ cs2) /\
    Forall replica_safe (cs1 ++ cs2) /\ Forall on_primary cs2 /\ current_read_target u2 = PRIMARY.
Proof.
  destruct (run_ops_ok before w false) as (w1 & cs1 & Hrun1 & Hs1 & _).
  destruct (run_op_ok o (w ++ cs1) w1) as (w2 & cs2 & r & Hrun2 & Hs2 & _ & Hw & _). destruct (Hw Ho) as [Hw2 Hp2].
  destruct (run_ops_ok after ((w ++ cs1) ++ cs2) w2) as (w3 & cs3 & Hrun3 & Hs3 & Hp3). destruct (Hp3 Hw2) as [-> Hp].
  exists (opened w1), cs1, (opened true), (cs2 ++ cs3). split; [done|]. split.
  { unfold run_ops in *. rewrite foldl_app, Hrun1. cbn [foldl]. rewrite Hrun2. cbn [snd]. rewrite Hrun3. by rewrite <-!app_assoc. }
  rewrite !Forall_app. auto.
Qed.

(** The scope of a unit of work and of the primary session provider, when the engine
    itself does not fail: the unit leaves with both sessions closed, rolling back first
    exactly when the body raised (and never committing by itself), keeps the body's
    result or exception, and is closed again, so that its sessions and repositories
    raise; the primary provider commits when the handler returns, rolls back and
    re-raises when it raises, and closes the session in both cases. *)
Theorem routing_scope {A} (body : R A) (handler : DatabaseRole -> M calls A) (w : calls) (written : bool)
  (Hok : forall c, sql_fails c = None)
  (Hbody : exists r w' cs, body (opened written, w) = (r, (opened w', w ++ cs))) :
  (exists r w' cs, body (opened written, w) = (r, (opened w', w ++ cs)) /\
     with_routing_uow sql_fails body (set_written written ru_init, w) =
       (r, (set_written w' ru_init, w ++ cs ++ (if is_ok r then [] else [Rollback PRIMARY]) ++ [Close PRIMARY; Close REPLICA])) /\
     (primary_session (set_written w' ru_init, w)).1 = Raise PyRuntimeError /\
     (users (set_written w' ru_init, w)).1 = Raise PyRuntimeError) /\
  (let '(r, w1) := handler PRIMARY w in
   get_primary_session sql_fails handler w =
     (r, w1 ++ [if is_ok r then Commit PRIMARY else Rollback PRIMARY; Close PRIMARY])).
Proof.
  assert (forall c w, call sql_fails c w = (Ok (), w ++ [c])) as Hcall by (intros c w0; unfold call; by rewrite Hok). split.
  - destruct Hbody as (r & w' & cs & Hb). exists r, w', cs. split; [done|]. split; [|done].
    unfold with_routing_uow. change (aenter ;;; body) with (bind aenter (fun _ => body)). unfold bind at 1, aenter, modify.
    cbn [fst snd]. change (set_open true (set_written written ru_init)) with (opened written). rewrite Hb.
    assert (forall l, close_all sql_fails (opened w', l) = (Ok (), (set_written w' ru_init, l ++ [Close PRIMARY; Close REPLICA]))) as Hclose.
    { intros l. unfold close_all. autorewrite with pym. cbn [ru_primary ru_replica opened fst]. unfold bind, on_calls, lift_r, modify.
      cbn. rewrite !Hok. cbn. rewrite ?Hok. cbn. by rewrite <-app_assoc. }
    destruct r as [a|e]; unfold aexit; cbn [is_ok].
    + rewrite Hclose. cbn. by rewrite <-!app_assoc.
    + unfold ru_rollback, primary_session. autorewrite with pym. cbn [fst ru_primary opened negb]. unfold on_calls, lift_r.
      cbn [fst snd]. rewrite Hcall, Hclose. cbn. by rewrite <-!app_assoc.
  - unfold get_primary_session, try_except, bind. destruct (handler PRIMARY w) as [[a|e] w1]; cbn; rewrite ?Hok; cbn; rewrite ?Hok; cbn; rewrite ?Hok; by rewrite <-app_assoc.
Qed.
End Proofs.

(** A common table expression that modifies data begins with none of the forbidden
    keywords, so the shield lets it through to the replica. *)
Example modifying_cte_passes_shield :
  guard_replica_mutations "WITH gone AS (DELETE FROM users RETURNING id) SELECT id FROM gone" = Ok () /\
  guard_replica_mutations "/* job */ DELETE FROM users" = Ok () /\
  guard_replica_mutations "  delete from users" = Raise ReadOnlyReplicaMutationException.
Proof. by vm_compute. Qed.

(** ** Witnesses *)

Definition no_failure (_ : session_call) : option exc := None.

Lemma read_your_own_writes_witness :
  run_ops no_failure [Read "SELECT 1"; Write "INSERT INTO t VALUES (1)"; Read "SELECT 2"] (opened false, []) =
    (opened true, [Execute REPLICA "SELECT 1"; Execute PRIMARY "INSERT INTO t VALUES (1)"; Execute PRIMARY "SELECT 2"]) /\
  exists cs, run_ops no_failure [Read "SELECT 1"; Write "INSERT INTO t VALUES (1)"; Read "SELECT 2"] (opened false, []) = (opened true, cs)
    /\ Forall replica_safe cs.
Proof.
  split; [vm_compute; reflexivity|].
  destruct (read_your_own_writes no_failure [Read "SELECT 1"] [Read "SELECT 2"] (Write "INSERT INTO t VALUES (1)") [] eq_refl)
    as (u1 & cs1 & u2 & cs2 & _ & Hrun & Hsafe & _).
  exists (cs1 ++ cs2). split; [|exact Hsafe]. cbn [app] in Hrun. rewrite Hrun. f_equal.
  assert (u2 = (run_ops no_failure [Read "SELECT 1"; Write "INSERT INTO t VALUES (1)"; Read "SELECT 2"] (opened false, [])).1) as ->
    by by rewrite Hrun. vm_compute. reflexivity.
Defined.

Lemma routing_scope_witness :
  get_primary_session no_failure (fun r => call no_failure (Execute r "SELECT 1")) [] =
    (Ok (), [Execute PRIMARY "SELECT 1"; Commit PRIMARY; Close PRIMARY]).
Proof.
  refine (proj2 (routing_scope no_failure (execute_write no_failure "SELECT 1") (fun r => call no_failure (Execute r "SELECT 1")) [] false _ _)).
  - reflexivity.
  - exists (Ok ()), true, [Execute PRIMARY "SELECT 1"]. reflexivity.
Defined.
