(* ===== verification/Sanitize.v ===== *)
(** File names from clients: [app/core/sanitization.py] and the download
    endpoint of [app/routers/security_router.py].  Text is ASCII. *)

From S2P Require Import Prelude.

Local Open Scope nat_scope.
Local Open Scope py_scope.

Definition slash : ascii := "/"%char.
Definition backslash : ascii := ascii_of_nat 92.
Definition dot : ascii := "."%char.
Definition is_sep (c : ascii) : bool := bool_decide (c = slash) || bool_decide (c = backslash).

(** [_TRAVERSAL_PATTERN.sub("", s)]: at each position the pattern is two dots and a
    separator, or a separator. *)
Fixpoint strip_traversal (l : list ascii) : list ascii :=
  match l with
  | [] => []
  | a :: l' =>
      match l' with
      | b :: (c :: l'') as l1 =>
          if bool_decide (a = dot) && bool_decide (b = dot) && is_sep c then strip_traversal l''
          else if is_sep a then strip_traversal l' else a :: strip_traversal l'
      | _ => if is_sep a then strip_traversal l' else a :: strip_traversal l'
      end
  end.

(** [os.path.basename]: what follows the last slash. *)
Fixpoint basename_acc (acc l : list ascii) : list ascii :=
  match l with
  | [] => acc
  | c :: l' => if bool_decide (c = slash) then basename_acc [] l' else basename_acc (acc ++ [c]) l'
  end.
Definition basename (l : list ascii) : list ascii := basename_acc [] l.
Definition unify_separators (l : list ascii) : list ascii := (fun c => if bool_decide (c = backslash) then slash else c) <$> l.

Definition has_traversal (l : list ascii) : bool :=
  has_substring [dot; dot; slash] l || has_substring [dot; dot; backslash] l ||
  has_substring [slash; dot; dot] l || has_substring [backslash; dot; dot] l ||
  starts_with [slash] l || starts_with [backslash] l.

(** [sanitize_file_path]; the null byte is one of the control characters. *)
Definition sanitize_file_path (filename : string) (strict : bool) : result string :=
  let l := chars filename in
  if bool_decide (filename = "") then Raise PathTraversalException
  else if existsb (fun c => nat_of_ascii c =? 0) l then Raise PathTraversalException
  else if existsb (fun c => nat_of_ascii c <? 32) l then Raise PathTraversalException
  else if strict && has_traversal l then Raise PathTraversalException
  else
    let base := basename (unify_separators l) in
    let clean := strip_chars (strip_traversal base) in
    if bool_decide (clean = []) || forallb (fun c => bool_decide (c = dot)) clean then Raise PathTraversalException
    else Ok (of_chars clean).

(** Endpoint [download_file]: the safe name of the file. *)
Definition download_file (filename : string) : result string :=
  if bool_decide (filename = "") then Raise PydanticValidationError else sanitize_file_path filename false.

(** ** Proofs *)

Lemma basename_acc_spec acc l : Forall (fun c => c <> slash) acc ->
  Forall (fun c => c <> slash) (basename_acc acc l) /\ (forall c, c ∈ basename_acc acc l -> c ∈ acc \/ c ∈ l).
Proof.
  revert acc. induction l as [|c l IH]; intros acc Hacc; cbn; [auto|]. case_bool_decide as Hc.
  - destruct (IH [] ltac:(constructor)) as [H1 H2]. split; [done|]. set_solver.
  - destruct (IH (acc ++ [c])) as [H1 H2]; [apply Forall_app; auto|]. split; [done|]. set_solver.
Qed.
Lemma basename_acc_id acc l : Forall (fun c => c <> slash) l -> basename_acc acc l = acc ++ l.
Proof.
  revert acc. induction l as [|c l IH]; intros acc Hl; cbn; [by rewrite app_nil_r|]. apply Forall_cons in Hl as [Hc Hl].
  rewrite bool_decide_false by done. rewrite IH by done. by rewrite <-app_assoc.
Qed.

(** A character of a plain name: no separator, no control character. *)
Definition plain (c : ascii) : Prop := c <> slash /\ c <> backslash /\ 32 <= nat_of_ascii c.

Lemma is_sep_false c : plain c -> is_sep c = false.
Proof. intros (? & ? & _). unfold is_sep. by rewrite !bool_decide_false. Qed.

Lemma strip_traversal_plain l : Forall plain l -> strip_traversal l = l.
Proof.
  induction l as [|a l IH]; intros Hl; [done|]. apply Forall_cons in Hl as [Ha Hl]. specialize (IH Hl). cbn [strip_traversal].
  rewrite (is_sep_false a Ha). destruct l as [|b [|c l]]; [done|by f_equal|].
  apply Forall_cons in Hl as [_ Hl]. apply Forall_cons in Hl as [Hc _]. rewrite (is_sep_false c Hc), andb_false_r. by f_equal.
Qed.

Lemma substring_plain p l c : c ∈ p -> ~ plain c -> Forall plain l -> has_substring p l = false.
Proof.
  intros Hin Hc Hl.
  assert (forall l', Forall plain l' -> starts_with p l' = false) as Hs.
  { clear l Hl. intros l. revert l. induction p as [|a p IH]; intros [|b l] Hl; [set_solver|set_solver|done|].
    apply Forall_cons in Hl as [Hb Hl]. cbn. case_bool_decide as Hab; [|done]. subst b.
    apply elem_of_cons in Hin as [->|Hin]; [done|]. by apply IH. }
  induction l as [|a l IH]; cbn [has_substring]; rewrite Hs by done; [done|]. apply IH. by apply Forall_cons in Hl as [_ Hl].
Qed.

Lemma not_plain_slash : ~ plain slash.
Proof. by intros [? _]. Qed.
Lemma not_plain_backslash : ~ plain backslash.
Proof. by intros (_ & ? & _). Qed.

Lemma no_traversal_plain l : Forall plain l -> has_traversal l = false.
Proof.
  intros Hl. pose proof not_plain_slash. pose proof not_plain_backslash. unfold has_traversal.
  rewrite (substring_plain [dot; dot; slash] l slash), (substring_plain [dot; dot; backslash] l backslash),
    (substring_plain [slash; dot; dot] l slash), (substring_plain [backslash; dot; dot] l backslash) by (done || set_solver).
  destruct Hl as [|a l (H1 & H2 & _) _]; [done|]. cbn. by rewrite !bool_decide_false by done.
Qed.

Lemma existsb_false {A} (f : A -> bool) l : existsb f l = false <-> Forall (fun x => f x = false) l.
Proof. induction l as [|x l IH]; cbn; [by split|]. rewrite orb_false_iff, IH, Forall_cons. done. Qed.

Lemma unify_separators_plain l : Forall (fun c => (nat_of_ascii c <? 32) = false) l ->
  Forall (fun c => c <> backslash /\ 32 <= nat_of_ascii c) (unify_separators l).
Proof.
  intros Hl. unfold unify_separators. rewrite Forall_fmap. eapply Forall_impl; [exact Hl|]. intros c Hc%Nat.ltb_ge. unfold compose.
  destruct (decide (c = backslash)) as [Hd|Hd]; [rewrite bool_decide_true by done|rewrite bool_decide_false by done; done].
  split; [done|]. vm_compute. lia.
Qed.

(** What is left of a name without control characters. *)
Definition cleaned (l : list ascii) : list ascii := strip_chars (strip_traversal (basename (unify_separators l))).

Lemma base_plain l : Forall (fun c => (nat_of_ascii c <? 32) = false) l -> Forall plain (basename (unify_separators l)).
Proof.
  intros Hl%unify_separators_plain. destruct (basename_acc_spec [] (unify_separators l)) as [H1 H2]; [constructor|].
  rewrite Forall_forall in Hl, H1 |- *. intros c Hc. destruct (H2 c Hc) as [|Hin]; [set_solver|].
  destruct (Hl c Hin). split_and!; auto.
Qed.
Lemma cleaned_plain l : Forall (fun c => (nat_of_ascii c <? 32) = false) l ->
  Forall plain (cleaned l) /\ cleaned l = strip_chars (basename (unify_separators l)).
Proof.
  intros Hl%base_plain. unfold cleaned. rewrite strip_traversal_plain by done. split; [|done].
  rewrite Forall_forall in Hl |- *. intros c Hc%strip_sub. auto.
Qed.
Lemma cleaned_fixed l : Forall plain l -> cleaned l = strip_chars l.
Proof.
  intros Hl. unfold cleaned. assert (unify_separators l = l) as ->.
  { clear -Hl. induction Hl as [|c l (_ & Hc & _) _ IH]; [done|]. cbn. rewrite bool_decide_false by done. by f_equal. }
  unfold basename. rewrite basename_acc_id by (eapply Forall_impl; [exact Hl|by intros c [? _]]). by rewrite strip_traversal_plain.
Qed.

Lemma null_is_control c : (nat_of_ascii c =? 0) = true -> (nat_of_ascii c <? 32) = true.
Proof. rewrite Nat.eqb_eq, Nat.ltb_lt. lia. Qed.

(** The function as a table: the four refusals, then the cleaned name. *)
Lemma sanitize_eq filename strict :
  sanitize_file_path filename strict =
  let l := chars filename in
  if existsb (fun c => nat_of_ascii c <? 32) l || (strict && has_traversal l) ||
     bool_decide (cleaned l = []) || forallb (fun c => bool_decide (c = dot)) (cleaned l)
  then Raise PathTraversalException else Ok (of_chars (cleaned l)).
Proof.
  unfold sanitize_file_path. fold (cleaned (chars filename)). cbn zeta.
  case_bool_decide as He; [subst; by destruct strict|].
  destruct (existsb (fun c => nat_of_ascii c =? 0) (chars filename)) eqn:H0.
  { apply existsb_exists in H0 as (c & Hin & Hc). assert (existsb (fun c => nat_of_ascii c <? 32) (chars filename) = true) as ->; [|done].
    apply existsb_exists. exists c. split; [done|by apply null_is_control]. }
  destruct (existsb (fun c => nat_of_ascii c <? 32) (chars filename)); [done|]. cbn [orb]. destruct (strict && _); done.
Qed.

(** Sanitized names stay in their directory.  For every client-supplied name the
    sanitizer either raises the path-traversal error or returns a non-empty name that
    contains no separator and no control character and is not made of dots only; the name
    is a stretch of what followed the last separator of the input; sanitizing it again,
    strictly or not, gives it back; and in strict mode a name with a traversal sequence
    or a leading separator is always refused. *)
Theorem sanitized_path_safe (filename : string) (strict : bool) :
  match sanitize_file_path filename strict with
  | Raise e => e = PathTraversalException
  | Ok clean =>
      clean <> "" /\ Forall plain (chars clean) /\ Exists (fun c => c <> dot) (chars clean) /\
      chars clean = strip_chars (basename (unify_separators (chars filename))) /\
      (forall strict', sanitize_file_path clean strict' = Ok clean) /\
      (strict = true -> has_traversal (chars filename) = false)
  end.
Proof.
  rewrite sanitize_eq. cbn zeta. set (l := chars filename).
  destruct (existsb (fun c => nat_of_ascii c <? 32) l) eqn:Hctl; [done|]. apply existsb_false in Hctl.
  destruct (strict && has_traversal l) eqn:Htr; [done|]. cbn [orb].
  destruct (cleaned_plain l Hctl) as [Hp Hb]. case_bool_decide as Hne; [done|]. cbn [orb].
  destruct (forallb _ (cleaned l)) eqn:Hdots; [done|]. rewrite chars_of_chars.
  assert (cleaned (cleaned l) = cleaned l) as Hid by (rewrite cleaned_fixed, Hb, strip_chars_idemp by done; done).
  split_and!; auto.
  - intros H. apply Hne. by rewrite <-(chars_of_chars (cleaned l)), H.
  - apply not_true_iff_false in Hdots. destruct (decide (Exists (fun c => c <> dot) (cleaned l))) as [H|H]; [done|].
    exfalso. apply Hdots. apply forallb_forall. intros c Hc. apply bool_decide_eq_true.
    destruct (decide (c = dot)); [done|]. exfalso. apply H, Exists_exists. exists c. by rewrite list_elem_of_In.
  - intros strict'. rewrite sanitize_eq. cbn zeta. rewrite chars_of_chars, Hid, no_traversal_plain, andb_false_r by done.
    replace (existsb _ _) with false; [cbn [orb]|].
    { rewrite bool_decide_false by done. cbn [orb]. by rewrite Hdots. }
    symmetry. apply existsb_false. eapply Forall_impl; [exact Hp|]. intros c (_ & _ & Hc). by apply Nat.ltb_ge.
  - intros ->. exact Htr.
Qed.

Example sanitize_examples :
  sanitize_file_path "../../etc/passwd" false = Ok "passwd" /\ sanitize_file_path "../../etc/passwd" true = Raise PathTraversalException /\
  sanitize_file_path "..." false = Raise PathTraversalException /\ sanitize_file_path "a/..." false = Raise PathTraversalException /\
  sanitize_file_path " report.pdf " true = Ok "report.pdf".
Proof. by vm_compute. Qed.
