(* ===== verification/Leaderboard.v ===== *)
(** Leaderboards: [app/services/leaderboard_service.py], the sorted-set operations of
    [app/services/cache_service.py], and [app/routers/leaderboard_router.py].

    Redis sorted sets are the class [SortedSets] with their documented behaviour: a set
    maps members to scores and is ranked from the highest score down, equal scores by
    member in reverse lexicographic order.  Scores are rationals; the percentile is kept
    in hundredths and rounded half to even. *)

From Stdlib Require Import QArith.
From S2P Require Import Prelude.

Local Open Scope Z_scope.
Local Open Scope py_scope.

(** [a] is ranked before [b] or equal to it. *)
Definition rank_leb (a b : string * Q) : bool :=
  negb (Qle_bool a.2 b.2) || (Qeq_bool a.2 b.2 && str_leb b.1 a.1).
Definition ranking (m : gmap string Q) : list (string * Q) := stable_sort rank_leb (map_to_list m).
Definition index_of (member : string) (l : list (string * Q)) : option nat := fst <$> list_find (fun e => e.1 = member) l.

(** The sorted-set commands the service sends. *)
Class SortedSets (RD : Type) : Type := {
  z_scores : string -> RD -> gmap string Q;
  z_incrby : string -> Q -> string -> RD -> Q * RD;
  z_revrank : string -> string -> RD -> option Z;
  z_score : string -> string -> RD -> option Q;
  z_revrange : string -> Z -> Z -> RD -> list (string * Q);
  z_rem : string -> string -> RD -> Z * RD;
  z_card : string -> RD -> Z;
  z_del : string -> RD -> Z * RD;

  law_incrby key amount member rd key' :
    let new := (default 0 (z_scores key rd !! member) + amount)%Q in
    (z_incrby key amount member rd).1 = new /\
    z_scores key' (z_incrby key amount member rd).2 = if decide (key' = key) then <[member := new]> (z_scores key rd) else z_scores key' rd;
  law_revrank key member rd : z_revrank key member rd = Z.of_nat <$> index_of member (ranking (z_scores key rd));
  law_score key member rd : z_score key member rd = z_scores key rd !! member;
  law_revrange key start stop rd : 0 <= start <= stop ->
    z_revrange key start stop rd = take (Z.to_nat (stop - start + 1)) (drop (Z.to_nat start) (ranking (z_scores key rd)));
  law_rem key member rd key' :
    (z_rem key member rd).1 = (if decide (is_Some (z_scores key rd !! member)) then 1 else 0) /\
    z_scores key' (z_rem key member rd).2 = if decide (key' = key) then delete member (z_scores key rd) else z_scores key' rd;
  law_card key rd : z_card key rd = Z.of_nat (size (z_scores key rd));
  law_del key rd key' :
    (z_del key rd).1 = (if decide (z_scores key rd = ∅) then 0 else 1) /\
    z_scores key' (z_del key rd).2 = if decide (key' = key) then ∅ else z_scores key' rd
}.

Section Service.
Context {RD : Type} {SS : SortedSets RD}.

(** ** [CacheService], sorted sets *)

Definition cache_zincrby (key : string) (amount : Q) (member : string) (rd : RD) : Q * RD := z_incrby key amount member rd.
Definition cache_zrevrank (key member : string) (rd : RD) : option Z := z_revrank key member rd.
Definition cache_zscore (key member : string) (rd : RD) : option Q := z_score key member rd.
Definition zrevrange_with_scores (key : string) (start stop : Z) (rd : RD) : list (string * Q) := z_revrange key start stop rd.
Fixpoint cache_zrem (key : string) (members : list string) (rd : RD) : Z * RD :=
  match members with
  | [] => (0, rd)
  | m :: members' => let '(n, rd1) := z_rem key m rd in let '(n', rd2) := cache_zrem key members' rd1 in (n + n', rd2)
  end.
Definition cache_zcard (key : string) (rd : RD) : Z := z_card key rd.

(** ** [LeaderboardService] *)

Definition leaderboard_key (leaderboard_id : string) : string := "leaderboard:" +:+ leaderboard_id.

Record LeaderboardEntry : Type := mkEntry { le_rank : Z; le_player_id : string; le_score : Q }.
Record PlayerStanding : Type := mkStanding {
  ps_leaderboard_id : string; ps_player_id : string; ps_score : Q; ps_rank : Z; ps_total_players : Z; ps_percentile : Z }.

(** [meanwhile] is what other clients do between the two commands. *)
Definition record_score (meanwhile : RD -> RD) (leaderboard_id player_id : string) (score_delta : Q) (rd : RD) : Q * Z * RD :=
  let key := leaderboard_key leaderboard_id in
  let '(new_score, rd1) := cache_zincrby key score_delta player_id rd in
  let rd2 := meanwhile rd1 in
  let rank := match cache_zrevrank key player_id rd2 with Some zero_rank => zero_rank + 1 | None => 1 end in
  (new_score, rank, rd2).

Definition get_top_players (leaderboard_id : string) (limit offset : Z) (rd : RD) : list LeaderboardEntry :=
  if limit <=? 0 then []
  else
    let items := zrevrange_with_scores (leaderboard_key leaderboard_id) offset (offset + limit - 1) rd in
    imap (fun index item => mkEntry (offset + Z.of_nat index + 1) item.1 item.2) items.

Definition percentile (total_players rank : Z) : Z :=
  if 1 <? total_players then rhe ((total_players - rank) * 10000) total_players else 10000.
Definition get_player_standing (leaderboard_id player_id : string) (rd : RD) : option PlayerStanding :=
  let key := leaderboard_key leaderboard_id in
  match cache_zscore key player_id rd with
  | None => None
  | Some score =>
      match cache_zrevrank key player_id rd with
      | None => None
      | Some zero_rank =>
          let rank := zero_rank + 1 in
          let total_players := cache_zcard key rd in
          Some (mkStanding leaderboard_id player_id score rank total_players (percentile total_players rank))
      end
  end.

Definition remove_player (leaderboard_id player_id : string) (rd : RD) : bool * RD :=
  let '(removed_count, rd') := cache_zrem (leaderboard_key leaderboard_id) [player_id] rd in (0 <? removed_count, rd').
Definition get_total_players (leaderboard_id : string) (rd : RD) : Z := cache_zcard (leaderboard_key leaderboard_id) rd.
Definition clear_leaderboard (leaderboard_id : string) (rd : RD) : bool * RD :=
  let '(deleted, rd') := z_del (leaderboard_key leaderboard_id) rd in (0 <? deleted, rd').

(** ** Endpoints *)

Definition get_top_leaderboard (leaderboard_id : string) (limit offset : Z) (rd : RD) : result (list LeaderboardEntry) :=
  if negb ((1 <=? limit) && (limit <=? 100) && (0 <=? offset)) then Raise PydanticValidationError
  else Ok (get_top_players leaderboard_id limit offset rd).
Definition get_player_standing_endpoint (leaderboard_id player_id : string) (rd : RD) : result PlayerStanding :=
  match get_player_standing leaderboard_id player_id rd with Some s => Ok s | None => Raise PlayerNotFoundException end.
Definition update_player_score (meanwhile : RD -> RD) (leaderboard_id player_id : string) (score_delta : Q) (rd : RD)
    : (string * string * Q * Z) * RD :=
  let '(new_score, rank, rd') := record_score meanwhile leaderboard_id player_id score_delta rd in
  ((leaderboard_id, player_id, new_score, rank), rd').
End Service.

(** ** The ranking *)

Lemma Qle_bool_total a b : Qle_bool a b = false -> Qle_bool b a = true.
Proof. intros H. apply Qle_bool_iff. apply Qlt_le_weak. apply Qnot_le_lt. rewrite <-Qle_bool_iff. by rewrite H. Qed.
Lemma rank_leb_iff a b : rank_leb a b = true <-> (b.2 < a.2)%Q \/ (a.2 == b.2)%Q /\ str_leb b.1 a.1 = true.
Proof.
  unfold rank_leb. rewrite orb_true_iff, andb_true_iff, Qeq_bool_iff, negb_true_iff.
  assert (Qle_bool a.2 b.2 = false <-> (b.2 < a.2)%Q) as ->; [|done]. split.
  - intros H. apply Qnot_le_lt. rewrite <-Qle_bool_iff. by rewrite H.
  - intros H. apply not_true_is_false. rewrite Qle_bool_iff. by apply Qlt_not_le.
Qed.
Lemma rank_leb_total a b : rank_leb a b = true \/ rank_leb b a = true.
Proof.
  rewrite !rank_leb_iff. destruct (Q_dec a.2 b.2) as [[H|H]|H]; [auto..|]. destruct (str_leb_total a.1 b.1); [|auto].
  right. right. by split; [symmetry|].
Qed.
Lemma rank_leb_trans a b c : rank_leb a b = true -> rank_leb b c = true -> rank_leb a c = true.
Proof.
  rewrite !rank_leb_iff. intros [H1|[H1 S1]] [H2|[H2 S2]].
  - left. by eapply Qlt_trans.
  - left. by rewrite <-H2.
  - left. by rewrite H1.
  - right. split; [by etransitivity|]. by eapply str_leb_trans.
Qed.
Lemma rank_leb_antisym a b : rank_leb a b = true -> rank_leb b a = true -> a.1 = b.1.
Proof.
  rewrite !rank_leb_iff. intros [H1|[H1 S1]] [H2|[H2 S2]]; [..|by apply str_leb_antisym]; exfalso.
  - by apply (Qlt_irrefl a.2); eapply Qlt_trans.
  - rewrite H2 in H1. by apply (Qlt_irrefl a.2).
  - rewrite H1 in H2. by apply (Qlt_irrefl b.2).
Qed.

(** In a list sorted by an order that is antisymmetric on keys without repetition, the
    position of an element is the number of elements strictly before it. *)
Lemma sorted_position l i x : StronglySorted (fun a b => rank_leb a b = true) l -> NoDup l.*1 -> l !! i = Some x ->
  length (filter (fun y => rank_leb y x = true /\ y.1 <> x.1) l) = i.
Proof.
  revert i. induction l as [|y l IH]; intros i Hs Hnd Hi; [done|]. apply StronglySorted_inv in Hs as [Hs Hy].
  cbn in Hnd. apply NoDup_cons in Hnd as [Hni Hnd]. rewrite filter_cons. destruct i as [|i]; cbn in Hi.
  - injection Hi as ->. rewrite decide_False by naive_solver.
    assert (filter (fun y => rank_leb y x = true /\ y.1 <> x.1) l = []) as ->; [|done].
    rewrite Forall_forall in Hy.
    destruct (filter _ l) as [|z l'] eqn:E; [done|]. assert (z ∈ z :: l') as Hz by set_solver. rewrite <-E in Hz.
    apply list_elem_of_filter in Hz as [[H1 H2] H3]. exfalso. apply H2. by apply rank_leb_antisym; [|apply Hy].
  - rewrite decide_True.
    + cbn. f_equal. by apply IH.
    + rewrite Forall_forall in Hy. assert (x ∈ l) as Hx by by eapply list_elem_of_lookup_2. split; [by apply Hy|].
      intros E. apply Hni. rewrite E. apply list_elem_of_fmap. eauto.
Qed.

Lemma ranking_perm m : ranking m ≡ₚ map_to_list m.
Proof. apply stable_sort_perm. Qed.
Lemma ranking_nodup m : NoDup (ranking m).*1.
Proof. rewrite ranking_perm. apply NoDup_fst_map_to_list. Qed.
Lemma ranking_sorted m : StronglySorted (fun a b => rank_leb a b = true) (ranking m).
Proof. apply stable_sort_sorted; [apply rank_leb_total|apply rank_leb_trans]. Qed.
Lemma ranking_elem m p q : (p, q) ∈ ranking m <-> m !! p = Some q.
Proof. rewrite ranking_perm. apply elem_of_map_to_list. Qed.
Lemma ranking_length m : length (ranking m) = size m.
Proof. rewrite ranking_perm. apply length_map_to_list. Qed.

(** [ZREVRANK] is the position in the ranking. *)
Lemma index_of_ranking m p q i : ranking m !! i = Some (p, q) -> index_of p (ranking m) = Some i.
Proof.
  intros Hi. unfold index_of. destruct (list_find (fun e => e.1 = p) (ranking m)) as [[j [p' q']]|] eqn:Hf.
  - apply list_find_Some in Hf as (Hj & Hp & _). cbn in Hp. subst p'. cbn. f_equal.
    eapply NoDup_lookup; [apply (ranking_nodup m)|rewrite list_lookup_fmap, Hj; done|rewrite list_lookup_fmap, Hi; done].
  - apply list_find_None in Hf. rewrite Forall_forall in Hf. exfalso. apply (Hf (p, q)); [by eapply list_elem_of_lookup_2|done].
Qed.

(** The number of players ranked strictly ahead of a player. *)
Definition ahead (m : gmap string Q) (p : string) (q : Q) : nat :=
  length (filter (fun e => rank_leb e (p, q) = true /\ e.1 <> p) (map_to_list m)).

Lemma index_of_ahead m p q : m !! p = Some q -> ranking m !! ahead m p q = Some (p, q) /\ (ahead m p q < size m)%nat.
Proof.
  intros Hm. apply ranking_elem, list_elem_of_lookup in Hm as [i Hi].
  assert (ahead m p q = i) as ->.
  { unfold ahead. rewrite <-(ranking_perm m). by apply (sorted_position _ i (p, q) (ranking_sorted m) (ranking_nodup m)). }
  split; [done|]. apply lookup_lt_Some in Hi. by rewrite ranking_length in Hi.
Qed.

Lemma percentile_bounds n r : 1 <= r <= n -> 0 <= percentile n r <= 10000.
Proof.
  intros Hr. unfold percentile. destruct (Z.ltb_spec 1 n); [|lia]. split.
  - transitivity (rhe (0 * n) n); [rewrite rhe_exact by lia; lia|apply rhe_mono; nia].
  - transitivity (rhe (10000 * n) n); [apply rhe_mono; nia|rewrite rhe_exact by lia; lia].
Qed.

Section Proofs.
Context {RD : Type} {SS : SortedSets RD}.
Implicit Types (rd : RD) (lb player : string).

Definition scores lb rd : gmap string Q := z_scores (leaderboard_key lb) rd.

(** The standing of a player with a score. *)
Lemma standing_eq lb player rd q : scores lb rd !! player = Some q ->
  let n := Z.of_nat (size (scores lb rd)) in
  let rank := Z.of_nat (ahead (scores lb rd) player q) + 1 in
  get_player_standing lb player rd = Some (mkStanding lb player q rank n (percentile n rank)).
Proof.
  intros Hq. unfold get_player_standing, cache_zscore, cache_zrevrank, cache_zcard. rewrite law_score, law_revrank, law_card.
  fold (scores lb rd). rewrite Hq. destruct (index_of_ahead _ _ _ Hq) as [Hi _]. by rewrite (index_of_ranking _ _ _ _ Hi).
Qed.

(** Leaderboards rank consistently.  A player has a standing exactly when the board
    holds a score of theirs; it gives that score, the number of players, a rank that is
    one more than the number of players strictly ahead (higher score, or the same score
    and a later name) and so lies between one and the number of players, and a percentile
    between 0 and 100.  A page of the top list holds as many entries as the limit and the
    board allow, numbered consecutively from the offset, and every entry agrees with the
    standing of its player in rank and score. *)
Theorem leaderboard_ranks lb rd :
  (forall player,
     match get_player_standing lb player rd with
     | None => scores lb rd !! player = None
     | Some st =>
         scores lb rd !! player = Some (ps_score st) /\ ps_total_players st = Z.of_nat (size (scores lb rd)) /\
         ps_rank st = Z.of_nat (ahead (scores lb rd) player (ps_score st)) + 1 /\
         1 <= ps_rank st <= ps_total_players st /\ 0 <= ps_percentile st <= 10000
     end) /\
  (forall limit offset, 0 < limit -> 0 <= offset ->
     Z.of_nat (length (get_top_players lb limit offset rd)) = Z.min limit (Z.max 0 (get_total_players lb rd - offset)) /\
     forall i e, get_top_players lb limit offset rd !! i = Some e ->
       le_rank e = offset + Z.of_nat i + 1 /\
       exists st, get_player_standing lb (le_player_id e) rd = Some st /\ ps_rank st = le_rank e /\ ps_score st = le_score e).
Proof.
  split.
  - intros player. destruct (scores lb rd !! player) as [q|] eqn:Hq.
    + rewrite (standing_eq lb player rd q Hq). cbn. destruct (index_of_ahead _ _ _ Hq) as [_ Hlt].
      split_and!; try done; try lia; apply percentile_bounds; lia.
    + unfold get_player_standing, cache_zscore. rewrite law_score. fold (scores lb rd). by rewrite Hq.
  - intros limit offset Hl Ho. unfold get_top_players, zrevrange_with_scores, get_total_players, cache_zcard.
    replace (limit <=? 0) with false by lia. rewrite law_revrange, law_card by lia. fold (scores lb rd). split.
    + rewrite length_imap, length_take, length_drop, ranking_length. lia.
    + intros i e He. rewrite list_lookup_imap in He. destruct (take _ _ !! i) as [[p q]|] eqn:Hi; [|done].
      cbn in He. injection He as <-. cbn. split; [done|]. rewrite lookup_take in Hi. case_decide; [|done]. rewrite lookup_drop in Hi.
      assert (scores lb rd !! p = Some q) as Hq by (apply ranking_elem; by eapply list_elem_of_lookup_2).
      eexists. split; [by apply standing_eq|]. cbn. split; [|done].
      destruct (index_of_ahead _ _ _ Hq) as [Ha _]. apply index_of_ranking in Ha, Hi. rewrite Hi in Ha. injection Ha as Ha. lia.
Qed.

(** Recording a score without interference: the player's score grows by the amount, no
    other score changes, and the rank returned is the player's new standing. *)
Theorem record_score_correct lb player delta rd :
  let '(new, rank, rd') := record_score id lb player delta rd in
  new = (default 0 (scores lb rd !! player) + delta)%Q /\ scores lb rd' = <[player := new]> (scores lb rd) /\
  (forall lb', lb' <> lb -> scores lb' rd' = scores lb' rd) /\
  exists st, get_player_standing lb player rd' = Some st /\ ps_rank st = rank /\ ps_score st = new.
Proof.
  unfold record_score, cache_zincrby, cache_zrevrank. pose proof (law_incrby (leaderboard_key lb) delta player rd) as Hlaw.
  destruct (z_incrby _ _ _ rd) as [new rd']. cbn [fst snd] in Hlaw. unfold id.
  destruct (Hlaw (leaderboard_key lb)) as [Hnew Hsc]. fold (scores lb rd) (scores lb rd') in Hnew, Hsc. rewrite decide_True in Hsc by done.
  rewrite <-Hnew in Hsc. split; [done|]. split; [done|]. split.
  - intros lb' Hne. destruct (Hlaw (leaderboard_key lb')) as [_ H]. rewrite decide_False in H; [done|].
    unfold leaderboard_key. intros E. apply Hne. by apply (inj (String.append "leaderboard:")) in E.
  - assert (scores lb rd' !! player = Some new) as Hq by by rewrite Hsc, lookup_insert_eq.
    eexists. split; [by apply standing_eq|]. cbn. split; [|done]. rewrite law_revrank. fold (scores lb rd').
    destruct (index_of_ahead _ _ _ Hq) as [Ha _]. by rewrite (index_of_ranking _ _ _ _ Ha).
Qed.
End Proofs.

(** ** A reference server *)

Definition board_of (key : string) (rd : gmap string (gmap string Q)) : gmap string Q := default ∅ (rd !! key).
#[global] Program Instance sorted_sets_ref : SortedSets (gmap string (gmap string Q)) := {|
  z_scores := board_of;
  z_incrby key amount member rd :=
    let new := (default 0 (board_of key rd !! member) + amount)%Q in (new, <[key := <[member := new]> (board_of key rd)]> rd);
  z_revrank key member rd := Z.of_nat <$> index_of member (ranking (board_of key rd));
  z_score key member rd := board_of key rd !! member;
  z_revrange key start stop rd := take (Z.to_nat (stop - start + 1)) (drop (Z.to_nat start) (ranking (board_of key rd)));
  z_rem key member rd := (if decide (is_Some (board_of key rd !! member)) then 1 else 0, <[key := delete member (board_of key rd)]> rd);
  z_card key rd := Z.of_nat (size (board_of key rd));
  z_del key rd := (if decide (board_of key rd = ∅) then 0 else 1, delete key rd)
|}.
Next Obligation.
  intros key amount member rd key'. cbn. split; [done|]. unfold board_of. rewrite lookup_insert. by repeat case_decide; subst.
Qed.
Next Obligation. done. Qed.
Next Obligation. done. Qed.
Next Obligation. done. Qed.
Next Obligation.
  intros key member rd key'. cbn. split; [done|]. unfold board_of. rewrite lookup_insert. by repeat case_decide; subst.
Qed.
Next Obligation. done. Qed.
Next Obligation.
  intros key rd key'. cbn. split; [done|]. unfold board_of. rewrite lookup_delete. by repeat case_decide; subst.
Qed.

Definition demo_board : gmap string (gmap string Q) :=
  {[ "leaderboard:g" := {[ "ann" := 5%Q; "bob" := 9%Q; "cat" := 5%Q ]} ]}.
Example demo_board_top :
  get_top_players "g" 2 1 demo_board = [mkEntry 2 "cat" 5; mkEntry 3 "ann" 5] /\
  get_player_standing "g" "ann" demo_board = Some (mkStanding "g" "ann" 5 3 3 0).
Proof. vm_compute. done. Qed.
