(* ===== verification/Auth.v ===== *)
(** Tokens and sessions ([app/core/security.py], [app/services/auth_service.py]).

    A token is a text; signing and verifying it is the class [Jwt] of the third-party
    library, with its documented checks of the required claims, of [exp] and of
    [iat].  The rotation family of a session is a JSON text in Redis ([RedisServer])
    under a key with a time to live.  Users come from the interface
    [UserDirectory], which the user service implements.  Times are integers in
    microseconds, the claims [exp] and [iat] are in seconds. *)

From stdpp Require Import pretty.
From S2P Require Import Prelude Redis UserRepo Cache.

Local Open Scope Z_scope.
Local Open Scope py_scope.

(** ** Interfaces *)

Inductive jwt_error : Type := ExpiredSignatureError | InvalidTokenError.

(** Every claim of a list is present. *)
Definition has_claims (required : list string) (p : jobj) : Prop := Forall (fun k => is_Some (dict_get p k)) required.

Class Jwt : Type := {
  jwt_encode : string -> string -> jobj -> string;
  jwt_decode : Z -> string -> string -> list string -> string -> jobj + jwt_error;
  jwt_keys : string -> string -> string -> Prop;           (* algorithm, signing key, verifying key *)
  law_symmetric algo key : py_startswith algo "RS" = false -> jwt_keys algo key key;
  law_decode now algo sk vk required p exp iat : jwt_keys algo sk vk -> has_claims required p ->
    dict_get p "exp" = Some (SInt exp) -> dict_get p "iat" = Some (SInt iat) -> iat * 1000000 <= now ->
    jwt_decode now vk algo required (jwt_encode sk algo p) =
    if now <? exp * 1000000 then inl p else inr ExpiredSignatureError;
  law_no_space key algo p : py_strip (jwt_encode key algo p) = jwt_encode key algo p;
  law_required now algo vk required token p : jwt_decode now vk algo required token = inl p -> has_claims required p
}.

(** What authentication needs of the users: log in with a password, and look up by
    name; [ud_user] says who is registered. *)
Class UserDirectory (US : Type) : Type := {
  ud_authenticate : string -> string -> M US (option UserEntity);
  ud_get_user_by_username : string -> M US UserEntity;
  ud_inv : US -> Prop;
  ud_user : US -> UserEntity -> Prop;
  law_by_username name s : ud_inv s ->
    (exists u, ud_get_user_by_username name s = (Ok u, s) /\ ud_user s u /\ u_username u = Some name) \/
    (ud_get_user_by_username name s = (Raise UserNotFoundException, s) /\ forall u, ud_user s u -> u_username u <> Some name);
  law_username_unique s u u' : ud_inv s -> ud_user s u -> ud_user s u' -> u_username u = u_username u' ->
    is_Some (u_username u) -> u = u';
  law_authenticate name password s : ud_inv s ->
    exists r s', ud_authenticate name password s = (Ok r, s') /\ ud_inv s' /\ forall u, r = Some u -> ud_user s' u
}.

(** TTL of a key: the seconds that remain, negative when there is none. *)
Class RedisTtl (RD : Type) : Type := { r_ttl : Z -> string -> RD -> Z }.

(** ** Settings *)

Record Settings : Type := mkSettings {
  st_admin_api_key : string;
  st_user_api_key : string;
  st_admin_username : string;
  st_default_username : string;
  st_jwt_secret_key : string;
  st_jwt_algorithm : string;
  st_access_token_expire_minutes : Z;
  st_refresh_token_expire_days : Z;
  st_jwt_private_key : option string;
  st_jwt_public_key : option string
}.

(** The defaults of the class. *)
Definition default_settings : Settings :=
  mkSettings "admin-secret-key-32chars-min-prod" "user-secret-key-32chars-min-prod" "admin_user" "standard_user"
    "secret-key-for-jwt-signing-production-grade-32bytes" "HS256" 15 7 None None.

Definition opt_truthy (s : option string) : option string :=
  match s with Some "" => None | o => o end.

(** ** Tokens *)

Section Tokens.
Context `{JW : Jwt} `{PT : PyText}.
Variable settings : Settings.

(** The key a token is signed with. *)
Definition signing_key (algo : string) (secret_or_private_key : option string) : result string :=
  match secret_or_private_key with
  | Some k => Ok k
  | None =>
      if py_startswith algo "RS" then
        match opt_truthy (st_jwt_private_key settings) with Some k => Ok k | None => Raise PyValueError end
      else Ok (st_jwt_secret_key settings)
  end.

(** [algorithm or settings.jwt_algorithm] *)
Definition choose_algo (algorithm : option string) : string := default (st_jwt_algorithm settings) (opt_truthy algorithm).

(** The permissions of a role without explicit ones. *)
Definition role_permissions (role : string) : Z :=
  if bool_decide (role = "admin") then 63
  else if bool_decide (role = "moderator") then 7
  else if bool_decide (role = "guest") then 1
  else 3.

(** [create_access_token]; [jti] is the generated identifier. *)
Definition create_access_token (now : Z) (jti : string) (user_id : Z) (role : string) (permissions expires_delta : option Z)
    (algorithm secret_or_private_key : option string) : result string :=
  let algo := choose_algo algorithm in
  let? key := signing_key algo secret_or_private_key in
  let expire_duration := default (st_access_token_expire_minutes settings * 60000000) expires_delta in
  let perms := default (role_permissions role) permissions in
  let payload := [("sub", SStr (pretty user_id)); ("role", SStr role); ("permissions", SInt perms);
    ("token_type", SStr "access"); ("jti", SStr jti); ("iat", SInt (now / 1000000));
    ("exp", SInt ((now + expire_duration) / 1000000))] in
  Ok (jwt_encode key algo payload).

(** [create_refresh_token]: the token and its identifier. *)
Definition create_refresh_token (now : Z) (jti : string) (user_id : Z) (family_id : string) (expires_delta : option Z)
    (algorithm secret_or_private_key : option string) : result (string * string) :=
  let algo := choose_algo algorithm in
  let? key := signing_key algo secret_or_private_key in
  let expire_duration := default (st_refresh_token_expire_days settings * 86400000000) expires_delta in
  let payload := [("sub", SStr (pretty user_id)); ("family_id", SStr family_id); ("token_type", SStr "refresh");
    ("jti", SStr jti); ("iat", SInt (now / 1000000)); ("exp", SInt ((now + expire_duration) / 1000000))] in
  Ok (jwt_encode key algo payload, jti).

(** The key a token is verified with. *)
Definition verifying_key (algo : string) (secret_or_public_key : option string) : result string :=
  match secret_or_public_key with
  | Some k => Ok k
  | None =>
      if py_startswith algo "RS" then
        match opt_truthy (st_jwt_public_key settings) with
        | Some k => Ok k
        | None => match opt_truthy (st_jwt_private_key settings) with Some k => Ok k | None => Raise PyValueError end
        end
      else Ok (st_jwt_secret_key settings)
  end.

(** [decode_jwt_token] *)
Definition decode_jwt_token (now : Z) (token : string) (expected_type algorithm secret_or_public_key : option string)
  : result jobj :=
  let algo := choose_algo algorithm in
  let? key := verifying_key algo secret_or_public_key in
  match jwt_decode now key algo ["exp"; "sub"; "token_type"] token with
  | inr _ => Raise (HTTPException 401)
  | inl payload =>
      match expected_type with
      | Some ty => if bool_decide (dict_get payload "token_type" = Some (SStr ty)) then Ok payload else Raise (HTTPException 401)
      | None => Ok payload
      end
  end.

(** *** Round trip *)

Lemma decode_created now now' algo p exp ty : choose_algo None = algo -> py_startswith algo "RS" = false ->
  has_claims ["exp"; "sub"; "token_type"] p ->
  dict_get p "exp" = Some (SInt exp) -> dict_get p "iat" = Some (SInt (now / 1000000)) -> now <= now' ->
  decode_jwt_token now' (jwt_encode (st_jwt_secret_key settings) algo p) (Some ty) None None =
  if (now' <? exp * 1000000) && bool_decide (dict_get p "token_type" = Some (SStr ty)) then Ok p else Raise (HTTPException 401).
Proof.
  intros Ha Hrs Hc He Hiat Hnow. unfold decode_jwt_token, verifying_key. rewrite Ha, Hrs. cbn [rbind].
  rewrite (law_decode now' algo _ _ _ p exp (now / 1000000)); try done.
  - destruct (now' <? exp * 1000000); [|done]. cbn. by destruct (bool_decide _).
  - by apply law_symmetric.
  - pose proof (Z.mul_div_le now 1000000 ltac:(lia)). lia.
Qed.

(** An access token issued under a symmetric algorithm is accepted as an access
    token, with the user, role and permissions it was issued for, until the second in
    which it expires, and never as a refresh token; a refresh token likewise. *)
Theorem token_roundtrip now now' jti user_id role permissions family_id atok rtok rjti :
  py_startswith (choose_algo None) "RS" = false -> now <= now' ->
  create_access_token now jti user_id role permissions None None None = Ok atok ->
  create_refresh_token now jti user_id family_id None None None = Ok (rtok, rjti) ->
  (forall ty, decode_jwt_token now' atok (Some ty) None None =
     if (now' <? ((now + st_access_token_expire_minutes settings * 60000000) / 1000000) * 1000000) && bool_decide (ty = "access")
     then Ok [("sub", SStr (pretty user_id)); ("role", SStr role); ("permissions", SInt (default (role_permissions role) permissions));
       ("token_type", SStr "access"); ("jti", SStr jti); ("iat", SInt (now / 1000000));
       ("exp", SInt ((now + st_access_token_expire_minutes settings * 60000000) / 1000000))]
     else Raise (HTTPException 401)) /\
  (forall ty, is_ok (decode_jwt_token now' rtok (Some ty) None None) =
     (now' <? ((now + st_refresh_token_expire_days settings * 86400000000) / 1000000) * 1000000) && bool_decide (ty = "refresh")).
Proof.
  intros Hrs Hnow. unfold create_access_token, create_refresh_token, signing_key. rewrite Hrs. cbn [rbind default from_option].
  intros [= <-] [= <- <-]. split; intros ty.
  - erewrite (decode_created now now'); [|done|done| |reflexivity|reflexivity|done].
    + destruct (_ <? _); [|done]. cbn. destruct (bool_decide_reflect (ty = "access")) as [->|Hne]; [done|].
      rewrite bool_decide_false; [done|]. change (Some (SStr "access") <> Some (SStr ty)). congruence.
    + repeat constructor; eauto.
  - erewrite (decode_created now now'); [|done|done| |reflexivity|reflexivity|done].
    + destruct (_ <? _); [|done]. cbn. destruct (bool_decide_reflect (ty = "refresh")) as [->|Hne]; [done|].
      rewrite bool_decide_false; [done|]. change (Some (SStr "refresh") <> Some (SStr ty)). congruence.
    + repeat constructor; eauto.
Qed.

End Tokens.

(** ** The service *)

Definition RTR_FAMILY_PREFIX : string := "rtr:family:".
Definition family_key (family_id : string) : string := RTR_FAMILY_PREFIX +:+ family_id.

Record TokenResponse : Type := mkTokens { tr_access_token : string; tr_refresh_token : string; tr_expires_in : Z }.

Section Service.
Context {US RD : Type} `{JW : Jwt} `{PT : PyText} `{UD : UserDirectory US} `{RS : RedisServer RD string} `{RT : RedisTtl RD}.
Variable settings : Settings.

Abbreviation AM := (M (US * RD)).

Definition family_ttl : Z := st_refresh_token_expire_days settings * 86400.
Definition family_state (jti : string) (user_id : Z) (role : string) : jobj :=
  [("active_jti", SStr jti); ("user_id", SInt user_id); ("role", SStr role)].
Definition expires_in : Z := st_access_token_expire_minutes settings * 60.

(** [self._redis.set(key, value, ex=seconds)] *)
Definition redis_set (now : Z) (k v : string) (seconds : Z) : AM () := lift_r (modify (r_set now k v (seconds * 1000000))).
Definition redis_delete (now : Z) (k : string) : AM () := lift_r (modify (r_del now k)).

(** [login]; the identifiers are generated. *)
Definition login (now : Z) (username password family_id jti access_jti : string) : AM TokenResponse :=
  let! user := lift_l (ud_authenticate username password) in
  match user with
  | None => raise AuthenticationException
  | Some u =>
      raise_if (negb (u_is_active u)) AuthorizationException ;;;
      let! access_token := lift_result (create_access_token settings now access_jti (u_id u) (u_role u) None None None None) in
      let! '(refresh_token, jti) := lift_result (create_refresh_token settings now jti (u_id u) family_id None None None) in
      redis_set now (family_key family_id) (dumps (family_state jti (u_id u) (u_role u))) family_ttl ;;;
      ret (mkTokens access_token refresh_token expires_in)
  end.

(** [str(payload.get(key, d))] *)
Definition get_str_claim (p : jobj) (k d : string) : string :=
  match dict_get p k with Some v => py_str v | None => d end.

(** The claims a refresh token presents: family, identifier, user. *)
Definition refresh_claims (now : Z) (refresh_token : string) : result (string * string * Z) :=
  let? payload := decode_jwt_token settings now refresh_token (Some "refresh") None None in
  let family_id := get_str_claim payload "family_id" "" in
  let incoming_jti := get_str_claim payload "jti" "" in
  let? user_id := py_int (default (SInt 0) (dict_get payload "sub")) in
  if bool_decide (family_id = "") || bool_decide (incoming_jti = "") then Raise AuthenticationException
  else Ok (family_id, incoming_jti, user_id).

(** [refresh_tokens] up to the decision: the state of the family is read, and a token
    that is not the active one revokes the family. *)
Definition refresh_check (now : Z) (refresh_token : string) : AM (string * Z * jobj) :=
  let! '(family_id, incoming_jti, user_id) := lift_result (refresh_claims now refresh_token) in
  let! raw_state := gets (fun s => r_get now (family_key family_id) s.2) in
  match raw_state with
  | None => raise AuthenticationException
  | Some raw =>
      let! state := lift_result (json_loads raw) in
      let active_jti := get_str_claim state "active_jti" "" in
      if negb (bool_decide (incoming_jti = active_jti)) then
        redis_delete now (family_key family_id) ;;; raise AuthenticationException
      else ret (family_id, user_id, state)
  end.

(** The rest: the new pair is issued and becomes the active one. *)
Definition refresh_commit (now : Z) (family_id : string) (user_id : Z) (state : jobj) (jti access_jti : string)
  : AM TokenResponse :=
  let! '(new_refresh_token, new_jti) := lift_result (create_refresh_token settings now jti user_id family_id None None None) in
  let role_str := get_str_claim state "role" "user" in
  let! new_access_token := lift_result (create_access_token settings now access_jti user_id role_str None None None None) in
  let! remaining := gets (fun s => r_ttl now (family_key family_id) s.2) in
  let remaining_ttl := if remaining <=? 0 then family_ttl else remaining in
  redis_set now (family_key family_id) (dumps (dict_set state "active_jti" (SStr new_jti))) remaining_ttl ;;;
  ret (mkTokens new_access_token new_refresh_token expires_in).

Definition refresh_tokens (now : Z) (refresh_token jti access_jti : string) : AM TokenResponse :=
  let! '(family_id, user_id, state) := refresh_check now refresh_token in
  refresh_commit now family_id user_id state jti access_jti.

(** [logout]: only [AuthenticationException] is caught; [if family_id:] *)
Definition logout (now : Z) (refresh_token : string) : AM () :=
  try_except
    (let! payload := lift_result (decode_jwt_token settings now refresh_token (Some "refresh") None None) in
     match dict_get payload "family_id" with
     | Some v => if py_bool v then redis_delete now (family_key (py_str v)) else ret ()
     | None => ret ()
     end)
    (fun e => if bool_decide (e = AuthenticationException) then ret () else raise e).

(** *** What the operations do to the families *)

Lemma family_key_inj f g : family_key f = family_key g -> f = g.
Proof. apply (inj (String.append RTR_FAMILY_PREFIX)). Qed.

Definition active_jti (state : jobj) : string := get_str_claim state "active_jti" "".

Lemma login_effect now user pw fam jti ajti s r s' :
  login now user pw fam jti ajti s = (r, s') ->
  s'.2 = s.2 \/ exists id role, s'.2 = r_set now (family_key fam) (dumps (family_state jti id role)) (family_ttl * 1000000) s.2.
Proof.
  unfold login, bind, lift_l, lift_result, raise_if, redis_set, lift_r, modify, ret, raise, create_refresh_token.
  destruct s as [us rd]. cbn [fst snd].
  destruct (ud_authenticate user pw us) as [[[u|]|e] us1]; [|intros [= <- <-]; by left..].
  destruct (u_is_active u); cbn [negb]; [|intros [= <- <-]; by left].
  destruct (create_access_token _ _ _ _ _ _ _ _ _) as [at_|e]; [|intros [= <- <-]; by left].
  destruct (signing_key _ _ _) as [k|e]; cbn [rbind]; intros [= <- <-]; [right|by left]. cbn [snd]. eauto.
Qed.

Lemma refresh_check_cases now token s :
  refresh_check now token s =
  match refresh_claims now token with
  | Raise e => (Raise e, s)
  | Ok (f, j, u) =>
      match r_get now (family_key f) s.2 with
      | None => (Raise AuthenticationException, s)
      | Some raw =>
          match json_loads raw with
          | Raise e => (Raise e, s)
          | Ok state => if bool_decide (j = active_jti state) then (Ok (f, u, state), s)
              else (Raise AuthenticationException, (s.1, r_del now (family_key f) s.2))
          end
      end
  end.
Proof.
  unfold refresh_check, bind, lift_result, gets, redis_delete, lift_r, modify, raise, ret.
  destruct (refresh_claims now token) as [[[f j] u]|e]; [|done].
  destruct (r_get now (family_key f) s.2) as [raw|]; [|done].
  destruct (json_loads raw) as [state|e]; [|done]. unfold active_jti. by destruct (bool_decide _).
Qed.

Lemma refresh_commit_effect now f u state jti ajti s r s' : 0 < st_refresh_token_expire_days settings ->
  refresh_commit now f u state jti ajti s = (r, s') ->
  (exists e, r = Raise e /\ e <> AuthenticationException /\ s' = s) \/
  (exists t ttl, r = Ok t /\ 0 < ttl /\
     s' = (s.1, r_set now (family_key f) (dumps (dict_set state "active_jti" (SStr jti))) ttl s.2)).
Proof.
  intros Hd. unfold refresh_commit, bind, lift_result, gets, redis_set, lift_r, modify, ret, create_refresh_token, create_access_token.
  destruct (signing_key settings (choose_algo settings None) None) as [k|e] eqn:Ek; cbn [rbind].
  - intros [= <- <-]. right. eexists _, _. split; [reflexivity|]. split; [|reflexivity].
    destruct (Z.leb_spec (r_ttl now (family_key f) s.2) 0); [unfold family_ttl|]; lia.
  - intros [= <- <-]. left. eexists. split; [reflexivity|]. split; [|done]. intros ->.
    unfold signing_key in Ek. destruct (py_startswith _ _); [|done]. by destruct (opt_truthy _).
Qed.

(** *** Histories

    Calls in time order, each with the identifiers it generates; the log, newest
    first, has an entry for each refresh that succeeds and for each family that is
    turned away or logged out. *)

Inductive auth_entry : Type := Used (family jti : string) | Revoked (family : string).
Definition entry_family (e : auth_entry) : string := match e with Used f _ | Revoked f => f end.
Definition used_jtis (log : list auth_entry) : list string :=
  omap (fun e => match e with Used _ j => Some j | Revoked _ => None end) log.

Record history : Type := mkHistory {
  h_now : Z;
  h_state : US * RD;
  h_jtis : list string;             (* token identifiers generated so far *)
  h_families : list string;         (* families of the logins so far *)
  h_log : list auth_entry
}.

(** What a refresh adds to the log. *)
Definition refresh_entry (now : Z) (token : string) (r : result TokenResponse) : list auth_entry :=
  match refresh_claims now token with
  | Raise _ => []
  | Ok (f, j, _) =>
      match r with
      | Ok _ => [Used f j]
      | Raise e => if bool_decide (e = AuthenticationException) then [Revoked f] else []
      end
  end.
(** What a logout adds. *)
Definition logout_entry (now : Z) (token : string) : list auth_entry :=
  match decode_jwt_token settings now token (Some "refresh") None None with
  | Ok p => match dict_get p "family_id" with
            | Some v => if py_bool v then [Revoked (py_str v)] else []
            | None => []
            end
  | Raise _ => []
  end.

Inductive auth_step : history -> history -> Prop :=
  | SLogin h now user pw fam jti ajti r s' :
      h_now h <= now -> jti ∉ h_jtis h -> fam ∉ h_families h -> fam ∉ (entry_family <$> h_log h) ->
      login now user pw fam jti ajti (h_state h) = (r, s') ->
      auth_step h (mkHistory now s' (jti :: h_jtis h) (fam :: h_families h) (h_log h))
  | SRefresh h now token jti ajti r s' :
      h_now h <= now -> jti ∉ h_jtis h ->
      refresh_tokens now token jti ajti (h_state h) = (r, s') ->
      auth_step h (mkHistory now s' (jti :: h_jtis h) (h_families h) (refresh_entry now token r ++ h_log h))
  | SLogout h now token r s' :
      h_now h <= now -> logout now token (h_state h) = (r, s') ->
      auth_step h (mkHistory now s' (h_jtis h) (h_families h) (logout_entry now token ++ h_log h)).

(** The live session of a family. *)
Definition live (t : Z) (rd : RD) (f : string) (state : jobj) : Prop :=
  exists raw, r_get t (family_key f) rd = Some raw /\ loads raw = Some state.

Record history_inv (h : history) : Prop := {
  hi_json t f raw : h_now h <= t -> r_get t (family_key f) (h_state h).2 = Some raw -> exists st, loads raw = Some st;
  hi_active t f st : h_now h <= t -> live t (h_state h).2 f st ->
    active_jti st ∈ h_jtis h /\ (active_jti st ∉ used_jtis (h_log h)) /\ f ∈ h_families h /\ (Revoked f ∉ h_log h);
  hi_distinct t f g st st' : h_now h <= t -> live t (h_state h).2 f st -> live t (h_state h).2 g st' ->
    active_jti st = active_jti st' -> f = g;
  hi_used : NoDup (used_jtis (h_log h));
  hi_issued j : j ∈ used_jtis (h_log h) -> j ∈ h_jtis h;
  hi_revoked l1 l2 f : h_log h = l2 ++ Revoked f :: l1 -> forall j, Used f j ∉ l2
}.

(** A store in which one family was written or deleted. *)
Lemma live_set t now rd f v ttl g st : now <= t -> 0 < ttl ->
  live t (r_set now (family_key f) (dumps v) ttl rd) g st -> (g = f /\ st = v) \/ (g <> f /\ live t rd g st).
Proof.
  intros Ht Httl (raw & Hr & Hl). rewrite law_get_set in Hr by done. case_decide as Hk.
  - apply family_key_inj in Hk as ->. destruct (_ <? _); simplify_eq. rewrite law_json in Hl. simplify_eq. by left.
  - right. split; [by intros ->|]. by exists raw.
Qed.
Lemma live_del t now rd f g st : now <= t -> live t (r_del now (family_key f) rd) g st -> g <> f /\ live t rd g st.
Proof.
  intros Ht (raw & Hr & Hl). rewrite law_get_del in Hr by done. case_decide as Hk; [done|].
  split; [by intros ->|]. by exists raw.
Qed.

Lemma active_set st j : active_jti (dict_set st "active_jti" (SStr j)) = j.
Proof. unfold active_jti, get_str_claim. by rewrite dict_get_set_eq. Qed.

Lemma revoked_cons e log : (forall l1 l2 f, log = l2 ++ Revoked f :: l1 -> forall j, Used f j ∉ l2) ->
  (forall f j, e = Used f j -> Revoked f ∉ log) ->
  forall l1 l2 f, e :: log = l2 ++ Revoked f :: l1 -> forall j, Used f j ∉ l2.
Proof.
  intros Hlog He l1 l2 f Hsplit j. destruct l2 as [|e' l2]; [apply not_elem_of_nil|]. cbn in Hsplit. simplify_eq.
  apply not_elem_of_cons. split; [|by eapply Hlog].
  intros <-. eapply He; [reflexivity|]. apply elem_of_app. right. by left.
Qed.

(** The families that live are among those before, and revoked ones are gone. *)
Lemma history_inv_forget h now s' jtis fams es : history_inv h -> h_now h <= now ->
  (forall t g raw, now <= t -> r_get t (family_key g) s'.2 = Some raw -> r_get t (family_key g) (h_state h).2 = Some raw) ->
  (forall j, j ∈ h_jtis h -> j ∈ jtis) -> (forall f, f ∈ h_families h -> f ∈ fams) ->
  (forall e, e ∈ es -> exists f, e = Revoked f /\ forall t, now <= t -> r_get t (family_key f) s'.2 = None) ->
  history_inv (mkHistory now s' jtis fams (es ++ h_log h)).
Proof.
  intros Hi Hnow Hsub Hj Hf Hes.
  assert (forall t g st, now <= t -> live t s'.2 g st -> live t (h_state h).2 g st) as Hlive.
  { intros t g st Ht (raw & Hr & Hl). exists raw. split; [by apply Hsub|done]. }
  assert (used_jtis (es ++ h_log h) = used_jtis (h_log h)) as Hused.
  { clear -Hes. induction es as [|e es IH]; [done|]. destruct (Hes e ltac:(left)) as (f & -> & _). cbn.
    apply IH. intros e' He'. apply Hes. by right. }
  constructor; cbn [h_now h_state h_jtis h_families h_log]; rewrite ?Hused.
  - intros t f raw Ht Hr. eapply (hi_json _ Hi t); [lia|by apply Hsub].
  - intros t f st Ht Hl. destruct (hi_active _ Hi t f st ltac:(lia) (Hlive _ _ _ Ht Hl)) as (H1 & H2 & H3 & H4).
    split; [by apply Hj|]. split; [done|]. split; [by apply Hf|]. intros [He|?]%elem_of_app; [|done].
    destruct (Hes _ He) as (g & [= <-] & Hnone). destruct Hl as (raw & Hr & _). by rewrite Hnone in Hr.
  - intros t f g st st' Ht Hl Hl'. eapply (hi_distinct _ Hi t); [lia|by apply Hlive..].
  - apply (hi_used _ Hi).
  - intros j ?%(hi_issued _ Hi). by apply Hj.
  - pose proof (hi_revoked _ Hi) as Hr. clear -Hes Hr. induction es as [|e es IH]; [done|]. cbn. apply revoked_cons.
    + apply IH. intros e' He'. apply Hes. by right.
    + intros f j ->. by destruct (Hes _ ltac:(left)) as (g & [=] & _).
Qed.

(** One family is written with a fresh active token; [es] is the use that led to it. *)
Lemma history_inv_set h now us' f v ttl jti fams es : history_inv h -> h_now h <= now -> 0 < ttl ->
  jti ∉ h_jtis h -> active_jti v = jti -> f ∈ fams -> (forall g, g ∈ h_families h -> g ∈ fams) -> Revoked f ∉ h_log h ->
  (es = [] /\ f ∉ h_families h \/ exists st, live now (h_state h).2 f st /\ es = [Used f (active_jti st)]) ->
  history_inv (mkHistory now (us', r_set now (family_key f) (dumps v) ttl (h_state h).2) (jti :: h_jtis h) fams (es ++ h_log h)).
Proof.
  intros Hi Hnow Httl Hjti Hv Hf Hfams Hnr Hes.
  assert (forall g j, Used g j ∈ es -> g = f /\ j ∈ h_jtis h /\ j ∉ used_jtis (h_log h)) as Hes1.
  { intros g j Hin. destruct Hes as [[-> _]|(st & Hl & ->)]; [by apply not_elem_of_nil in Hin|].
    apply list_elem_of_singleton in Hin as [= -> ->]. destruct (hi_active _ Hi now f st Hnow Hl) as (? & ? & _). done. }
  assert (forall t g st, now <= t -> g <> f -> live t (h_state h).2 g st -> active_jti st ∉ used_jtis (es ++ h_log h)) as Hother.
  { intros t g st Ht Hg Hl. destruct (hi_active _ Hi t g st ltac:(lia) Hl) as (_ & Hn & _).
    destruct Hes as [[-> _]|(st0 & Hl0 & ->)]; [done|]. cbn. apply not_elem_of_cons. split; [|done]. intros Heq.
    apply Hg. apply (hi_distinct _ Hi now g f st st0 Hnow); [|done|done].
    destruct Hl as (raw & Hr & Hld). exists raw. split; [|done]. by eapply law_get_later. }
  assert ((Revoked f ∉ es ++ h_log h) /\ forall g, Revoked g ∉ es) as [Hrev Hrev'].
  { assert (forall g, Revoked g ∉ es) as Hng.
    { intros g Hin. destruct Hes as [[-> _]|(st & _ & ->)]; [by apply not_elem_of_nil in Hin|].
      by apply list_elem_of_singleton in Hin. }
    split; [|done]. intros [?|?]%elem_of_app; [by eapply Hng|done]. }
  constructor; cbn [h_now h_state h_jtis h_families h_log snd].
  - intros t g raw Ht. rewrite law_get_set by done. case_decide; [|apply (hi_json _ Hi); lia].
    destruct (_ <? _); [|done]. intros [= <-]. rewrite law_json. eauto.
  - intros t g st Ht [[-> ->]|[Hg Hl]]%live_set; try done.
    + rewrite Hv. split; [left|]. split; [|done]. intros Hin. apply Hjti. unfold used_jtis in Hin. rewrite omap_app in Hin.
      apply elem_of_app in Hin as [Hin|Hin]; [|by apply (hi_issued _ Hi)].
      apply list_elem_of_omap in Hin as ([g j|g] & Hin & [= <-]). by apply Hes1 in Hin as (_ & ? & _).
    + destruct (hi_active _ Hi t g st ltac:(lia) Hl) as (H1 & _ & H3 & H4). split; [by right|].
      split; [by eapply Hother|]. split; [by apply Hfams|]. intros [?|?]%elem_of_app; [by eapply Hrev'|done].
  - intros t g g' st st' Ht Hl Hl' Heq. apply live_set in Hl; [|done..]. apply live_set in Hl'; [|done..].
    destruct Hl as [[-> ->]|[Hg Hl]], Hl' as [[-> ->]|[Hg' Hl']]; [done|..|by eapply (hi_distinct _ Hi t); [lia|..]].
    + destruct Hjti. rewrite <-Hv, Heq. by apply (hi_active _ Hi t g' st' ltac:(lia) Hl').
    + destruct Hjti. rewrite <-Hv, <-Heq. by apply (hi_active _ Hi t g st ltac:(lia) Hl).
  - destruct Hes as [[-> _]|(st & Hl & ->)]; [apply (hi_used _ Hi)|]. cbn. apply NoDup_cons. split; [|apply (hi_used _ Hi)].
    by apply (hi_active _ Hi now f st Hnow Hl).
  - intros j Hin. unfold used_jtis in Hin. rewrite omap_app in Hin.
    apply elem_of_app in Hin as [Hin|Hin]; [|right; by apply (hi_issued _ Hi)].
    apply list_elem_of_omap in Hin as ([g j'|g] & Hin & [= ->]). right. by apply Hes1 in Hin as (_ & ? & _).
  - destruct Hes as [[-> _]|(st & Hl & ->)]; [apply (hi_revoked _ Hi)|]. apply revoked_cons; [apply (hi_revoked _ Hi)|].
    by intros g j [= <- <-].
Qed.

Lemma history_inv_login h now user pw fam jti ajti r s' : 0 < st_refresh_token_expire_days settings ->
  history_inv h -> h_now h <= now -> jti ∉ h_jtis h -> fam ∉ h_families h -> fam ∉ (entry_family <$> h_log h) ->
  login now user pw fam jti ajti (h_state h) = (r, s') ->
  history_inv (mkHistory now s' (jti :: h_jtis h) (fam :: h_families h) (h_log h)).
Proof.
  intros Hd Hi Hnow Hj Hf Hl Hlog. apply login_effect in Hlog as [Heq|(id & role & Heq)].
  - apply (history_inv_forget h now s' _ _ []); try done; try (intros; by right).
    + intros t g raw _. by rewrite Heq.
    + intros e He. by apply not_elem_of_nil in He.
  - destruct s' as [us' rd']. cbn in Heq. subst rd'.
    apply (history_inv_set h now us' fam _ _ jti _ []); try done.
    + unfold family_ttl. lia.
    + left.
    + intros g Hg. by right.
    + intros Hin. apply Hl. by apply (list_elem_of_fmap_2 entry_family) in Hin.
    + by left.
Qed.

Lemma history_inv_refresh h now token jti ajti r s' : 0 < st_refresh_token_expire_days settings ->
  history_inv h -> h_now h <= now -> jti ∉ h_jtis h ->
  refresh_tokens now token jti ajti (h_state h) = (r, s') ->
  history_inv (mkHistory now s' (jti :: h_jtis h) (h_families h) (refresh_entry now token r ++ h_log h)).
Proof.
  intros Hd Hi Hnow Hj. unfold refresh_tokens, bind. rewrite refresh_check_cases. unfold refresh_entry.
  assert (forall g, g ∈ h_jtis h -> g ∈ jti :: h_jtis h) as Hsub by (intros; by right).
  assert (forall e, e ∈ [] -> exists f, e = Revoked f /\ forall t, now <= t -> r_get t (family_key f) (h_state h).2 = None) as Hnil.
  { intros e He. by apply not_elem_of_nil in He. }
  destruct (refresh_claims now token) as [[[f j] u]|e].
  2: { intros [= <- <-]. by apply (history_inv_forget h now (h_state h) _ _ []). }
  destruct (r_get now (family_key f) (h_state h).2) as [raw|] eqn:Er.
  2: { intros [= <- <-]. rewrite bool_decide_true by done. apply (history_inv_forget h now (h_state h)); try done.
       intros e ->%list_elem_of_singleton. exists f. split; [done|]. intros t Ht.
       destruct (r_get t _ _) as [raw|] eqn:E; [|done]. eapply law_get_later in E; [|exact Ht]. congruence. }
  destruct (hi_json _ Hi now f raw Hnow Er) as [st Hst]. unfold json_loads. rewrite Hst.
  destruct (bool_decide_reflect (j = active_jti st)) as [->|Hne].
  - intros Hc. apply refresh_commit_effect in Hc as [(e & -> & He & ->)|(t & ttl & -> & Httl & ->)]; [| |done].
    + rewrite bool_decide_false by done. by apply (history_inv_forget h now (h_state h) _ _ []).
    + assert (live now (h_state h).2 f st) as Hl by by exists raw.
      destruct (hi_active _ Hi now f st Hnow Hl) as (_ & _ & H3 & H4).
      apply history_inv_set; try done; [apply active_set|]. right. by exists st.
  - intros [= <- <-]. rewrite bool_decide_true by done. apply (history_inv_forget h now); try done; cbn [snd].
    + intros t g raw' Ht. rewrite law_get_del by done. by case_decide.
    + intros e ->%list_elem_of_singleton. exists f. split; [done|]. intros t Ht. by rewrite law_get_del, decide_True.
Qed.

Lemma history_inv_logout h now token r s' : history_inv h -> h_now h <= now -> logout now token (h_state h) = (r, s') ->
  history_inv (mkHistory now s' (h_jtis h) (h_families h) (logout_entry now token ++ h_log h)).
Proof.
  intros Hi Hnow. unfold logout, logout_entry, try_except, bind, lift_result, redis_delete, lift_r, modify, ret, raise.
  assert (history_inv (mkHistory now (h_state h) (h_jtis h) (h_families h) ([] ++ h_log h))) as Hsame.
  { apply history_inv_forget; try done. intros e He. by apply not_elem_of_nil in He. }
  destruct (decode_jwt_token _ _ _ _ _ _) as [p|e].
  2: { destruct (bool_decide _); by intros [= <- <-]. }
  destruct (dict_get p "family_id") as [v|]; [destruct (py_bool v)|]; intros [= <- <-]; [|done..].
  apply history_inv_forget; try done; cbn [snd].
  - intros t g raw Ht. rewrite law_get_del by done. by case_decide.
  - intros e ->%list_elem_of_singleton. eexists. split; [done|]. intros t Ht. by rewrite law_get_del, decide_True.
Qed.

(** No session exists yet. *)
Definition no_sessions (s : US * RD) : Prop := forall t f, r_get t (family_key f) s.2 = None.
Definition history_init (now : Z) (s : US * RD) : history := mkHistory now s [] [] [].

(** C14: over every history of logins, refreshes with any tokens (forged, replayed or
    expired ones too) and logouts, handled one after the other (two that overlap are
    [refresh_race]), a refresh token is accepted at most once; and once
    a family is turned away, because a spent token came back or its session is gone,
    or is logged out, none of its tokens is ever accepted again. *)
Theorem refresh_rotation_safe now s h : 0 < st_refresh_token_expire_days settings -> no_sessions s ->
  rtc auth_step (history_init now s) h ->
  NoDup (used_jtis (h_log h)) /\
  (forall j, j ∈ used_jtis (h_log h) -> j ∈ h_jtis h) /\
  (forall l1 l2 f j, h_log h = l2 ++ Revoked f :: l1 -> Used f j ∉ l2).
Proof.
  intros Hd Hs Hrun.
  assert (history_inv h) as Hi; [|split; [apply Hi|split; [apply Hi|intros; by eapply (hi_revoked _ Hi)]]].
  assert (history_inv (history_init now s)) as H0.
  { constructor; cbn; try done.
    - intros t f raw _. by rewrite Hs.
    - intros t f st _ (raw & Hr & _). by rewrite Hs in Hr.
    - intros t f g st st' _ (raw & Hr & _). by rewrite Hs in Hr.
    - apply NoDup_nil_2.
    - intros l1 l2 f Hsplit. by destruct l2. }
  revert H0. induction Hrun as [|h0 h1 h2 Hstep _ IH]; [done|]. intros H0. apply IH. destruct Hstep.
  - by eapply history_inv_login.
  - by eapply history_inv_refresh.
  - by eapply history_inv_logout.
Qed.

(** *** Interleavings

    [refresh_tokens] reads the family and writes it back in two commands.  Between
    them another request with the same token still finds the old state, and a logout
    is undone by the write. *)
Lemma refresh_race now token s f u st jti1 ajti1 jti2 ajti2 r1 s1 :
  0 < st_refresh_token_expire_days settings ->
  refresh_check now token s = (Ok (f, u, st), s) ->
  refresh_commit now f u st jti1 ajti1 s = (Ok r1, s1) ->
  (* both requests check before either commits *)
  (exists r2 s2, refresh_commit now f u st jti2 ajti2 s1 = (Ok r2, s2)) /\
  (* a logout between check and commit *)
  (exists r2 s2, refresh_commit now f u st jti1 ajti1 (s.1, r_del now (family_key f) s.2) = (Ok r2, s2) /\
     is_Some (r_get now (family_key f) s2.2)).
Proof.
  intros Hd _ Hc.
  assert (exists k, signing_key settings (choose_algo settings None) None = Ok k) as [k Hk].
  { revert Hc. unfold refresh_commit, bind, lift_result, create_refresh_token.
    destruct (signing_key _ _ _); [eauto|done]. }
  assert (forall s jti ajti, exists r s', refresh_commit now f u st jti ajti s = (Ok r, s')) as Hok.
  { intros s0 jti ajti. unfold refresh_commit, bind, lift_result, create_refresh_token, create_access_token. rewrite Hk. cbn [rbind].
    eexists _, _. reflexivity. }
  split; [apply Hok|].
  destruct (Hok (s.1, r_del now (family_key f) s.2) jti1 ajti1) as (r2 & s2 & H2). exists r2, s2. split; [done|].
  apply refresh_commit_effect in H2 as [(e & [=] & _)|(t & ttl & _ & Httl & ->)]; [|done].
  cbn. rewrite law_get_set, decide_True by done. destruct (Z.ltb_spec now (now + ttl)); [eauto|lia].
Qed.

(** A token that does not decode makes [logout] fail with 401: [decode_jwt_token] raises
    [HTTPException], which the [except AuthenticationException] does not catch. *)
Lemma logout_bad_token now token s e :
  decode_jwt_token settings now token (Some "refresh") None None = Raise e -> e <> AuthenticationException ->
  logout now token s = (Raise e, s).
Proof. intros Hd He. unfold logout, try_except, bind, lift_result. rewrite Hd. by rewrite bool_decide_false. Qed.

End Service.

(** ** Witnesses *)

Section Witness.
#[local] Existing Instance py_text_ref.

Lemma strip_no_space l : Forall (fun c => is_space c = false) l -> strip_chars l = l.
Proof.
  assert (forall k, Forall (fun c => is_space c = false) k -> lstrip_chars k = k) as Hl by (intros k []; cbn; [done|by rewrite H]).
  intros H. unfold strip_chars. rewrite (Hl l H), Hl; [apply rev_involutive|by apply Forall_rev].
Qed.
Lemma pos_str_no_space p : Forall (fun c => is_space c = false) (chars (pos_str p)).
Proof. induction p; cbn; repeat constructor; done. Qed.

(** A library whose tokens carry the key in the clear. *)
Definition claim_int (p : jobj) (k : string) : option Z := match dict_get p k with Some (SInt z) => Some z | _ => None end.
Definition ref_decode (now : Z) (vk algo : string) (required : list string) (token : string) : jobj + jwt_error :=
  match loads token with
  | Some ((_, SStr k) :: (_, SStr a) :: p) =>
      if bool_decide (k = vk /\ a = algo /\ has_claims required p) then
        match claim_int p "exp", claim_int p "iat" with
        | Some exp, Some iat =>
            if iat * 1000000 <=? now then (if now <? exp * 1000000 then inl p else inr ExpiredSignatureError)
            else inr InvalidTokenError
        | _, _ => inr InvalidTokenError
        end
      else inr InvalidTokenError
  | _ => inr InvalidTokenError
  end.
#[local] Program Instance jwt_ref : Jwt := {|
  jwt_encode key algo p := dumps (("k", SStr key) :: ("a", SStr algo) :: p);
  jwt_decode := ref_decode;
  jwt_keys _ sk vk := sk = vk |}.
Next Obligation. done. Qed.
Next Obligation.
  intros now algo sk vk required p exp iat -> Hc He Hi Hle. unfold ref_decode. rewrite law_json, bool_decide_true by done.
  unfold claim_int. rewrite He, Hi. by destruct (Z.leb_spec (iat * 1000000) now); [|lia].
Qed.
Next Obligation.
  intros key algo p. cbn [dumps py_text_ref]. unfold py_strip. rewrite strip_no_space by apply pos_str_no_space.
  apply of_chars_chars.
Qed.
Next Obligation.
  intros now algo vk required token p. unfold ref_decode. destruct (loads token) as [[|[? []] [|[? []] q]]|]; try done.
  case_bool_decide as Hb; [|done]. repeat case_match; try done. intros [= ->]. apply Hb.
Qed.

(** A directory of one user, whose password is stored in the clear. *)
#[local] Program Instance one_user : UserDirectory UserEntity := {|
  ud_authenticate name password u :=
    (Ok (if bool_decide (u_username u = Some name /\ u_password_hash u = password) then Some u else None), u);
  ud_get_user_by_username name u := (if bool_decide (u_username u = Some name) then Ok u else Raise UserNotFoundException, u);
  ud_inv _ := True;
  ud_user s u := s = u |}.
Next Obligation. intros name u _. cbn beta. case_bool_decide; [left; eauto|right; split; [done|]]. by intros v <-. Qed.
Next Obligation. by intros s u u' _ <- <-. Qed.
Next Obligation. intros name password u _. cbn beta. eexists _, _. split; [done|]. split; [done|]. intros v. by case_bool_decide; intros [= <-]. Qed.

#[local] Instance cref_ttl : RedisTtl cref := {| r_ttl now k rd :=
  match rd.1 !! k with Some (_, Some d) => (d - now) / 1000000 | Some (_, None) => -1 | None => -2 end |}.

Definition demo_account : UserEntity :=
  mkUser 1 (Some "ann@x.io") (Some "ann") "pw" true 0 1 None "user" None None None None 3 None.
Definition demo_h0 : history (US := UserEntity) (RD := cref) := history_init 0 (demo_account, (∅, ∅)).
Definition demo_login := login default_settings 1000000 "ann" "pw" "f1" "j1" "a1" (h_state demo_h0).
Definition demo_token : string := match demo_login.1 with Ok t => tr_refresh_token t | Raise _ => "" end.
Definition demo_h1 := mkHistory 1000000 demo_login.2 ["j1"] ["f1"] [].

(** The token is exchanged, comes back, and its successor is tried after that. *)
Definition demo_refresh := refresh_tokens default_settings 2000000 demo_token "j2" "a2" (h_state demo_h1).
Definition demo_token2 : string := match demo_refresh.1 with Ok t => tr_refresh_token t | Raise _ => "" end.
Definition demo_replay := refresh_tokens default_settings 3000000 demo_token "j3" "a3" demo_refresh.2.
Definition demo_late := refresh_tokens default_settings 4000000 demo_token2 "j4" "a4" demo_replay.2.
Definition demo_h2 := mkHistory 2000000 demo_refresh.2 ["j2"; "j1"] ["f1"]
  (refresh_entry default_settings 2000000 demo_token demo_refresh.1 ++ []).
Definition demo_h3 := mkHistory 3000000 demo_replay.2 ["j3"; "j2"; "j1"] ["f1"]
  (refresh_entry default_settings 3000000 demo_token demo_replay.1 ++ h_log demo_h2).
Definition demo_h4 := mkHistory 4000000 demo_late.2 ["j4"; "j3"; "j2"; "j1"] ["f1"]
  (refresh_entry default_settings 4000000 demo_token2 demo_late.1 ++ h_log demo_h3).

Lemma demo_history : rtc (auth_step default_settings) demo_h0 demo_h4.
Proof.
  apply (rtc_l _ _ demo_h1); [apply (SLogin _ demo_h0 1000000 "ann" "pw" "f1" "j1" "a1" demo_login.1);
    try apply not_elem_of_nil; [cbn; lia|]; apply surjective_pairing|].
  apply (rtc_l _ _ demo_h2); [apply (SRefresh _ demo_h1 2000000 demo_token "j2" "a2" demo_refresh.1);
    [cbn; lia|cbn; set_solver|apply surjective_pairing]|].
  apply (rtc_l _ _ demo_h3); [apply (SRefresh _ demo_h2 3000000 demo_token "j3" "a3" demo_replay.1);
    [cbn; lia|cbn; set_solver|apply surjective_pairing]|].
  apply rtc_once, (SRefresh _ demo_h3 4000000 demo_token2 "j4" "a4" demo_late.1);
    [cbn; lia|cbn; set_solver|apply surjective_pairing].
Qed.

Lemma refresh_rotation_safe_witness :
  (is_ok demo_login.1 = true /\ is_ok demo_refresh.1 = true /\ is_ok demo_replay.1 = false /\ is_ok demo_late.1 = false) /\
  h_log demo_h4 = [Revoked "f1"; Revoked "f1"; Used "f1" "j1"] /\ NoDup (used_jtis (h_log demo_h4)).
Proof.
  split; [repeat split; vm_compute; reflexivity|]. split; [vm_compute; reflexivity|].
  refine (proj1 (refresh_rotation_safe default_settings 0 (demo_account, (∅, ∅)) demo_h4 _ _ demo_history)).
  - vm_compute; reflexivity.
  - intros t f. reflexivity.
Defined.

Lemma token_roundtrip_witness : exists atok,
  create_access_token default_settings 1000000 "a1" 1 "user" None None None None = Ok atok /\
  is_ok (decode_jwt_token default_settings 2000000 atok (Some "access") None None) = true /\
  decode_jwt_token default_settings 2000000 atok (Some "refresh") None None = Raise (HTTPException 401).
Proof.
  eexists. split; [reflexivity|].
  destruct (token_roundtrip default_settings 1000000 2000000 "a1" 1 "user" None "f1" _ _ _ eq_refl ltac:(lia) eq_refl eq_refl) as [H _].
  split; [rewrite H; reflexivity|rewrite H; reflexivity].
Defined.
End Witness.
