(* ===== verification/Guards.v ===== *)
(** The request guards and scoped contexts of [app/core/dependencies.py].

    Authentication by API key or bearer token, the permission, role and ownership
    guards, the three rate-limit guards, and the transaction context of a request.
    Guards run over the interface [UserDirectory]; an [HTTPException] keeps its
    status.  Times are integers in microseconds. *)

From Stdlib Require Import QArith Qround.
From stdpp Require Import pretty.
From S2P Require Import Prelude Redis AccessControl SlidingWindow RateLimiter UserRepo Cache Auth.

Local Open Scope Z_scope.
Local Open Scope py_scope.

(** ** Text *)

(** [secrets.compare_digest] on strings: other than ASCII raises [TypeError]. *)
Definition is_ascii (s : string) : bool := forallb (fun c => (nat_of_ascii c <? 128)%nat) (chars s).
Definition compare_digest (a b : string) : result bool :=
  if is_ascii a && is_ascii b then Ok (bool_decide (a = b)) else Raise PyTypeError.

(** [s.removeprefix(p)] *)
Fixpoint drop_chars (n : nat) (s : string) : string :=
  match n, s with S n', String _ s' => drop_chars n' s' | _, _ => s end.
Definition removeprefix (s p : string) : string := if py_startswith s p then drop_chars (String.length p) s else s.

(** [s.split(",")[0]] *)
Fixpoint before_comma (s : string) : string :=
  match s with
  | EmptyString => ""
  | String c s' => if bool_decide (c = ","%char) then "" else String c (before_comma s')
  end.

Lemma chars_cons c s : chars (String c s) = c :: chars s.
Proof. done. Qed.
Lemma startswith_append p s : py_startswith (p +:+ s) p = true.
Proof.
  unfold py_startswith. induction p as [|c p IH]; [by destruct (chars s)|].
  change (String c p +:+ s) with (String c (p +:+ s)). rewrite !chars_cons. cbn [starts_with]. rewrite IH.
  by rewrite bool_decide_true.
Qed.
Lemma removeprefix_append p s : removeprefix (p +:+ s) p = s.
Proof. unfold removeprefix. rewrite startswith_append. by induction p. Qed.
Lemma startswith_split s p : py_startswith s p = true -> s = p +:+ removeprefix s p.
Proof.
  unfold removeprefix. intros Hs. rewrite Hs. revert s Hs. induction p as [|c p IH]; intros s Hs; [done|].
  destruct s as [|c' s]; [done|]. unfold py_startswith in Hs. cbn in Hs. apply andb_true_iff in Hs as [Hc Hs].
  apply bool_decide_eq_true in Hc as ->. cbn [drop_chars String.length]. by rewrite (IH s Hs) at 1.
Qed.

(** ** Authentication *)

Section Authentication.
Context {US : Type} `{JW : Jwt} `{PT : PyText} `{UD : UserDirectory US}.
Variable settings : Settings.

(** Which user an API key names. *)
Definition api_key_target (x_api_key : string) : result (option string) :=
  let? admin := compare_digest x_api_key (st_admin_api_key settings) in
  if admin then Ok (Some (st_admin_username settings))
  else
    let? user := compare_digest x_api_key (st_user_api_key settings) in
    if user then Ok (Some (st_default_username settings))
    else if py_startswith x_api_key "userkey_" then
      let dynamic_username := removeprefix x_api_key "userkey_" in
      let expected_token := "userkey_" +:+ dynamic_username in
      let? same := compare_digest x_api_key expected_token in
      Ok (if same then Some dynamic_username else None)
    else Ok None.

(** [get_current_user] *)
Definition get_current_user (x_api_key : option string) : M US UserEntity :=
  match x_api_key with
  | None => raise (HTTPException 401)
  | Some key =>
      let! target_username := lift_result (api_key_target key) in
      match target_username with
      | None => raise (HTTPException 401)
      | Some name =>
          let! user := try_except (ud_get_user_by_username name)
            (fun e => if bool_decide (e = UserNotFoundException) then raise (HTTPException 401) else raise e) in
          raise_if (negb (u_is_active user)) (HTTPException 403) ;;;
          ret user
      end
  end.

(** [get_current_authenticated_user]: no state is read. *)
Definition get_current_authenticated_user (now : Z) (authorization x_api_key : option string)
  : result AuthenticatedUser :=
  match authorization with
  | Some header =>
      if negb (py_startswith header "Bearer ") then Raise (HTTPException 401)
      else
        let token := py_strip (removeprefix header "Bearer ") in
        let? payload := decode_jwt_token settings now token (Some "access") None None in
        let? user_id := py_int (default (SInt 0) (dict_get payload "sub")) in
        let role := get_str_claim payload "role" "user" in
        let default_perm := if bool_decide (role = "admin") then ROLE_ADMIN else ROLE_USER in
        let? permissions := py_int (default (SInt default_perm) (dict_get payload "permissions")) in
        Ok (AccessControl.mkUser user_id role permissions)
  | None =>
      match x_api_key with
      | Some key =>
          let? admin := compare_digest key (st_admin_api_key settings) in
          if admin then Ok (AccessControl.mkUser 1 "admin" ROLE_ADMIN)
          else
            let? user := compare_digest key (st_user_api_key settings) in
            if user then Ok (AccessControl.mkUser 2 "user" ROLE_USER)
            else if py_startswith key "userkey_" then Ok (AccessControl.mkUser 3 "user" ROLE_USER)
            else Raise (HTTPException 401)
      | None => Raise (HTTPException 401)
      end
  end.

(** [PermissionGuard.__call__] *)
Definition permission_guard (required : Z) (user : AuthenticatedUser) : result AuthenticatedUser :=
  if negb (has_permission (AccessControl.u_permissions user) required) then Raise (HTTPException 403) else Ok user.
Definition require_permission (required : Z) (now : Z) (authorization x_api_key : option string) : result AuthenticatedUser :=
  let? user := get_current_authenticated_user now authorization x_api_key in
  permission_guard required user.

(** [RoleChecker.__call__] over the user of [get_current_user] *)
Definition role_checker (allowed_roles : list string) (x_api_key : option string) : M US UserEntity :=
  let! current_user := get_current_user x_api_key in
  raise_if (negb (bool_decide (u_role current_user ∈ allowed_roles))) (HTTPException 403) ;;;
  ret current_user.
Definition get_current_active_admin : option string -> M US UserEntity := role_checker ["admin"].

(** The path parameter [user_id]. *)
Definition path_user_id (id : Z) : bool := (1 <=? id) && (id <=? 2147483647).

(** [require_user_ownership]: the caller is identified first; then an identifier outside
    the declared range fails validation, and the decision is not run. *)
Definition require_user_ownership (user_id : Z) (x_api_key : option string) : M US UserEntity :=
  let! current_user := get_current_user x_api_key in
  raise_if (negb (path_user_id user_id)) PydanticValidationError ;;;
  let is_owner := u_id current_user =? user_id in
  let is_admin := bool_decide (u_role current_user = "admin") in
  raise_if (negb (is_owner || is_admin)) (HTTPException 403) ;;;
  ret current_user.

(** *** Who gets in *)

(** The keys that stand for a user name. *)
Definition key_for (name key : string) : Prop :=
  key = st_admin_api_key settings /\ name = st_admin_username settings \/
  key = st_user_api_key settings /\ name = st_default_username settings \/
  key = "userkey_" +:+ name.

Lemma api_key_target_sound key name : api_key_target key = Ok (Some name) -> key_for name key.
Proof.
  unfold api_key_target, compare_digest. destruct (is_ascii key && is_ascii (st_admin_api_key settings)); [|done]. cbn [rbind].
  case_bool_decide as H1; [intros [= <-]; by left|].
  destruct (is_ascii key && is_ascii (st_user_api_key settings)); [|done]. cbn [rbind].
  case_bool_decide as H2; [intros [= <-]; right; by left|].
  destruct (py_startswith key "userkey_") eqn:Hs; [|done].
  destruct (is_ascii key && _); [|done]. cbn [rbind]. case_bool_decide as H3; [|done]. intros [= <-]. right. by right.
Qed.

Lemma api_key_target_dynamic name : is_ascii ("userkey_" +:+ name) = true ->
  is_ascii (st_admin_api_key settings) = true -> is_ascii (st_user_api_key settings) = true ->
  "userkey_" +:+ name <> st_admin_api_key settings -> "userkey_" +:+ name <> st_user_api_key settings ->
  api_key_target ("userkey_" +:+ name) = Ok (Some name).
Proof.
  intros H1 H2 H3 H4 H5. unfold api_key_target, compare_digest. rewrite H1, H2, H3. cbn [andb rbind].
  rewrite bool_decide_false by done. rewrite bool_decide_false by done.
  rewrite startswith_append, removeprefix_append, H1. cbn [andb rbind]. by rewrite bool_decide_true.
Qed.

Lemma get_current_user_cases key s : ud_inv s ->
  (exists e, get_current_user (Some key) s = (Raise e, s)) \/
  (exists u name, get_current_user (Some key) s = (Ok u, s) /\ ud_user s u /\ u_is_active u = true /\
     u_username u = Some name /\ api_key_target key = Ok (Some name)).
Proof.
  intros Hi. unfold get_current_user, bind, lift_result, try_except, raise_if, raise, ret.
  destruct (api_key_target key) as [[name|]|e] eqn:Et; [|left; eauto..].
  destruct (law_by_username name s Hi) as [(u & -> & Hu & Hn)|[-> _]].
  - destruct (u_is_active u) eqn:Ea; cbn [negb]; [right|left; eauto]. by exists u, name.
  - rewrite bool_decide_true by done. left. eauto.
Qed.

(** The API-key guard lets in exactly registered active users by a key that stands
    for their name, and changes nothing; but a key "userkey_" followed by a name
    stands for that name, so whoever knows the name of a user, an administrator too,
    is let in as that user. *)
Theorem api_key_identity key s : ud_inv s ->
  (forall u s', get_current_user (Some key) s = (Ok u, s') ->
     s' = s /\ ud_user s u /\ u_is_active u = true /\ exists name, u_username u = Some name /\ key_for name key) /\
  (forall u name, ud_user s u -> u_is_active u = true -> u_username u = Some name ->
     is_ascii ("userkey_" +:+ name) = true ->
     is_ascii (st_admin_api_key settings) = true -> is_ascii (st_user_api_key settings) = true ->
     "userkey_" +:+ name <> st_admin_api_key settings -> "userkey_" +:+ name <> st_user_api_key settings ->
     get_current_user (Some ("userkey_" +:+ name)) s = (Ok u, s) /\
     (u_role u = "admin" -> get_current_active_admin (Some ("userkey_" +:+ name)) s = (Ok u, s)) /\
     (u_role u = "admin" -> forall id, path_user_id id = true -> require_user_ownership id (Some ("userkey_" +:+ name)) s = (Ok u, s))).
Proof.
  intros Hi. split.
  - intros u s' Hg. destruct (get_current_user_cases key s Hi) as [[e He]|(v & name & Hv & H1 & H2 & H3 & H4)]; [congruence|].
    rewrite Hv in Hg. injection Hg as <- <-. split; [done|]. split; [done|]. split; [done|]. exists name.
    split; [done|]. by apply api_key_target_sound.
  - intros u name Hu Ha Hn H1 H2 H3 H4 H5.
    assert (get_current_user (Some ("userkey_" +:+ name)) s = (Ok u, s)) as Hg.
    { unfold get_current_user, bind, lift_result, try_except, raise_if, raise, ret.
      rewrite api_key_target_dynamic by done.
      destruct (law_by_username name s Hi) as [(v & -> & Hv & Hvn)|[_ Hno]]; [|by destruct (Hno u Hu)].
      assert (v = u) as -> by (apply (law_username_unique s); [done..|congruence|by rewrite Hvn]).
      by rewrite Ha. }
    split; [done|]. unfold get_current_active_admin, role_checker, require_user_ownership, bind, raise_if, raise, ret. rewrite Hg.
    split; [intros Hr|intros Hr id Hid; rewrite Hid; cbn [negb]]; rewrite Hr.
    + by rewrite bool_decide_true by (left).
    + rewrite bool_decide_true by done. by rewrite orb_true_r.
Qed.

(** What a bearer token of a role may do: the guard in front of a permission. *)
Lemma strip_prefix_token tok : py_strip tok = tok -> py_strip (removeprefix ("Bearer " +:+ tok) "Bearer ") = tok.
Proof. by rewrite removeprefix_append. Qed.

(** An access token issued under a symmetric algorithm passes a permission guard
    exactly while it has not expired and when the permissions it was issued with,
    those of its role unless stated, contain the required one; with the right token
    and too few permissions the answer is 403, otherwise 401. *)
Theorem bearer_permission_guard now now' jti user_id role permissions required atok x_api_key :
  py_startswith (choose_algo settings None) "RS" = false -> now <= now' ->
  int_of_str (pretty user_id) = Some user_id ->
  create_access_token settings now jti user_id role permissions None None None = Ok atok ->
  require_permission required now' (Some ("Bearer " +:+ atok)) x_api_key =
  if now' <? ((now + st_access_token_expire_minutes settings * 60000000) / 1000000) * 1000000 then
    if has_permission (default (role_permissions role) permissions) required
    then Ok (AccessControl.mkUser user_id role (default (role_permissions role) permissions))
    else Raise (HTTPException 403)
  else Raise (HTTPException 401).
Proof.
  intros Hrs Hnow Hint. unfold create_access_token, signing_key. rewrite Hrs. cbn [rbind default from_option]. intros [= <-].
  unfold require_permission, get_current_authenticated_user. rewrite startswith_append. cbn [negb].
  rewrite strip_prefix_token by apply law_no_space.
  erewrite (decode_created settings now now'); [|done|done| |reflexivity|reflexivity|done]; [|repeat constructor; eauto].
  rewrite bool_decide_true by done. rewrite andb_true_r. destruct (_ <? _); [|done]. cbn [rbind].
  change (dict_get _ "sub") with (Some (SStr (pretty user_id))). cbn [default from_option id py_int]. rewrite Hint. cbn [rbind].
  unfold get_str_claim. change (dict_get _ "role") with (Some (SStr role)).
  change (dict_get _ "permissions") with (Some (SInt (default (role_permissions role) permissions))). cbn [default from_option id py_int py_str rbind].
  unfold permission_guard. cbn [AccessControl.u_permissions]. by destruct (has_permission _ _).
Qed.

End Authentication.

(** ** Rate limits *)

(** The headers and the peer address a guard reads. *)
Record client_request : Type := mkClient { cl_api_key : option string; cl_forwarded : option string; cl_host : option string }.

(** [if s:] of an optional header. *)
Definition present (s : option string) : option string := match s with Some "" => None | o => o end.

(** The client identifier of the in-process limiter. *)
Definition window_client_id (q : client_request) : string :=
  match present (cl_forwarded q) with
  | Some f => py_strip (before_comma f)
  | None => match present (cl_host q) with Some h => h | None => "127.0.0.1" end
  end.
(** The one of the distributed guards: an API key comes first. *)
Definition guard_client_id (q : client_request) : string :=
  match present (cl_api_key q) with Some k => k | None => window_client_id q end.

(** The answer of a guard: the client passes, or 429 with its headers. *)
Inductive guard_answer (A : Type) : Type :=
  | Pass (client_id : string) (info : A)
  | TooMany (retry_after : Z) (limit remaining : option Z).
Arguments Pass {A} client_id info.
Arguments TooMany {A} retry_after limit remaining.

(** [math.ceil] of microseconds in seconds *)
Definition ceil_seconds (us : Z) : Z := - ((- us) / 1000000).

(** [SlidingWindowRateLimiterDependency]: the window and the limit it is built with are
    only kept as attributes; the limiter decides. *)
Record window_dependency : Type := mkWD { wd_window : Z; wd_limit : Z; wd_limiter : option window }.
Definition window_guard (d : window_dependency) (global : window) (now : Z) (q : client_request)
  : guard_answer Z * (window_dependency * window) :=
  let client_id := window_client_id q in
  let '((allowed, count, retry_after), w') := record_and_check client_id now (default global (wd_limiter d)) in
  let st' := match wd_limiter d with
    | Some _ => (mkWD (wd_window d) (wd_limit d) (Some w'), global)
    | None => (d, w')
    end in
  if negb allowed then (TooMany (Z.max 1 (Z.quot retry_after 1000000 + 1)) None None, st')
  else (Pass client_id count, st').
(** [check_sliding_window_rate_limit] *)
Definition check_sliding_window_rate_limit (window limit : Z) (limiter : option SlidingWindow.window) : window_dependency :=
  mkWD window limit limiter.

(** [RateLimitGuard.__call__]; [suffix] is the random part of the entry. *)
Record rate_limit_guard : Type := mkRLG { rg_limit : Z; rg_window : Z; rg_scope : string }.
Definition rate_limit_check (g : rate_limit_guard) (member : string) (now clock : Z) (q : client_request) (s : zstore)
  : guard_answer Z * zstore :=
  let client_id := guard_client_id q in
  let scoped_key := rg_scope g +:+ ":" +:+ client_id in
  let '(is_limited, current_count, retry_after, s') :=
    check_distributed_rate_limit scoped_key member (rg_limit g) (rg_window g) now clock s in
  if is_limited : bool then (TooMany (Z.max 1 (ceil_seconds retry_after)) (Some (rg_limit g)) (Some 0), s')
  else (Pass client_id current_count, s').

(** [TokenBucketGuard.__call__]; the service is new for each request, so it holds no
    script digest. *)
Record token_bucket_guard : Type := mkTBG { tg_capacity : Q; tg_refill_rate : Q; tg_requested : Q; tg_scope : string }.
(** [int(x)] of a float truncates towards zero. *)
Definition qtrunc (q : Q) : Z := Z.quot (Qnum q) (Zpos (Qden q)).
Definition token_bucket_check (lua_num : Q -> Q) (g : token_bucket_guard) (now : Q) (q : client_request) (l : limiter)
  : guard_answer Q * limiter :=
  let client_id := guard_client_id q in
  let scoped_key := tg_scope g +:+ ":" +:+ client_id in
  let service := mkLimiter (l_buckets l) (l_script_loaded l) false in
  let '(is_limited, remaining_tokens, retry_after, l') :=
    check_token_bucket lua_num scoped_key (tg_capacity g) (tg_refill_rate g) (tg_requested g) now service in
  if is_limited : bool then
    (TooMany (Z.max 1 (Qceiling retry_after)) (Some (qtrunc (tg_capacity g))) (Some (qtrunc remaining_tokens)), l')
  else (Pass client_id remaining_tokens, l').

(** *** Theorems *)

Lemma ceil_seconds_bounds us : us <= ceil_seconds us * 1000000 < us + 1000000.
Proof.
  unfold ceil_seconds. pose proof (Z.div_mod (- us) 1000000 ltac:(lia)). pose proof (Z.mod_pos_bound (- us) 1000000 ltac:(lia)). lia.
Qed.

(** The key of a guard is a key of the service. *)
Definition guard_key (scope client_id : string) : string := rl_format_key (scope +:+ ":" +:+ client_id).

(** The distributed guard turns a request away exactly when its key already has
    [limit] requests in the window, tells it to come back within the window (rounded
    up to a second), and does not count it; but the key is the client's own
    [X-API-Key] header when there is one, so a client that presents a key not seen in
    the window always passes, whatever its other requests. *)
Theorem rate_limit_guard_answers g member now clock q s : 0 < rg_limit g -> 0 <= rg_window g ->
  let k := guard_key (rg_scope g) (guard_client_id q) in
  let recent := zremrangebyscore (now - rg_window g) (zset_live clock (s k)) in
  (forall e, e ∈ recent -> 0 <= e.2 <= now) -> member ∉ recent.*1 ->
  match (rate_limit_check g member now clock q s).1 with
  | TooMany retry limit remaining =>
      rg_limit g <= Z.of_nat (length recent) /\ limit = Some (rg_limit g) /\ remaining = Some 0 /\
      1 <= retry /\ (retry - 1) * 1000000 <= rg_window g /\ z_entries ((rate_limit_check g member now clock q s).2 k) = recent
  | Pass client count =>
      Z.of_nat (length recent) < rg_limit g /\ client = guard_client_id q
  end /\
  (forall key, cl_api_key q = Some key -> key <> "" ->
     z_entries (s (guard_key (rg_scope g) key)) = [] -> exists n, (rate_limit_check g member now clock q s).1 = Pass key n).
Proof.
  intros Hl Hw k recent Hr Hm.
  pose proof (rejected_request_costs_nothing (rg_scope g +:+ ":" +:+ guard_client_id q) (rg_limit g) (rg_window g) Hw member now clock s Hl) as H.
  cbn zeta in H. fold (guard_key (rg_scope g) (guard_client_id q)) in H. fold k in H. fold recent in H. specialize (H Hr Hm).
  unfold rate_limit_check.
  destruct (check_distributed_rate_limit _ _ _ _ _ _ _) as [[[limited count] retry] s'] eqn:Ec. destruct H as (H1 & H2 & H3).
  split.
  - destruct limited; cbn.
    + destruct (H1 eq_refl) as (He & _ & Hret). pose proof (ceil_seconds_bounds retry).
      split; [by apply H3|]. split; [done|]. split; [done|]. split; [lia|]. split; [lia|done].
    + split; [|done]. destruct (Z.ltb_spec (Z.of_nat (length recent)) (rg_limit g)) as [|Hge]; [done|].
      by apply H3 in Hge.
  - intros key Hk Hne Hempty.
    assert (guard_client_id q = key) as Hid by (unfold guard_client_id; rewrite Hk; by destruct key).
    assert (recent = []) as Hnil.
    { unfold recent, k. rewrite Hid. unfold zset_live. rewrite Hempty. by destruct (z_deadline _) as [d|]; [destruct (clock <? d)|]. }
    destruct limited; [|rewrite Hid; by eexists].
    assert (rg_limit g <= Z.of_nat (length recent)) as Hc by by apply H3. rewrite Hnil in Hc. cbn in Hc. lia.
Qed.

(** The dependency factory ignores its window and limit unless it is given a limiter. *)
Lemma factory_parameters_ignored window limit window' limit' global now q :
  (window_guard (check_sliding_window_rate_limit window limit None) global now q).1 =
  (window_guard (check_sliding_window_rate_limit window' limit' None) global now q).1.
Proof. unfold window_guard. cbn. by destruct (record_and_check _ _ _) as [[[[] ?] ?] ?]. Qed.

(** ** Scoped transactions

    The context object is shared by the registry and the handler, so it lives in a
    heap; [tm_active] maps transaction ids to references. *)

Inductive TransactionStatus : Type := ACTIVE | COMMITTED | ROLLED_BACK | CLOSED.
#[global] Instance TransactionStatus_eq_dec : EqDecision TransactionStatus.
Proof. solve_decision. Defined.

Record tx_context : Type := mkTx {
  tx_id : string;
  tx_status : TransactionStatus;
  tx_staged : list string;
  tx_is_closed : bool;
  tx_created_at : Z;
  tx_duration : Z
}.
Definition tx_init (id : string) (now : Z) : tx_context := mkTx id ACTIVE [] false now 0.

Record tx_manager : Type := mkTM {
  tm_heap : gmap nat tx_context;
  tm_next : nat;
  tm_active : list (string * nat);
  tm_history : list nat
}.

(** Methods of the context. *)
Definition tx_commit (t : tx_context) : tx_context :=
  if bool_decide (tx_status t = ACTIVE)
  then mkTx (tx_id t) COMMITTED (tx_staged t) (tx_is_closed t) (tx_created_at t) (tx_duration t) else t.
Definition tx_rollback (t : tx_context) : tx_context :=
  if bool_decide (tx_status t = ACTIVE)
  then mkTx (tx_id t) ROLLED_BACK [] (tx_is_closed t) (tx_created_at t) (tx_duration t) else t.
Definition tx_close (now : Z) (t : tx_context) : tx_context :=
  let t := if bool_decide (tx_status t = ACTIVE) then tx_rollback t else t in
  mkTx (tx_id t) (tx_status t) (tx_staged t) true (tx_created_at t) (now - tx_created_at t).

Definition upd_tx (l : nat) (f : tx_context -> tx_context) (m : tx_manager) : tx_manager :=
  mkTM (alter f l (tm_heap m)) (tm_next m) (tm_active m) (tm_history m).
(** [stage] *)
Definition tx_stage (l : nat) (action : string) : M tx_manager () := fun m =>
  match tm_heap m !! l with
  | Some t =>
      if bool_decide (tx_status t = ACTIVE)
      then (Ok (), upd_tx l (fun t => mkTx (tx_id t) (tx_status t) (tx_staged t ++ [action]) (tx_is_closed t) (tx_created_at t) (tx_duration t)) m)
      else (Raise PyRuntimeError, m)
  | None => (Raise PyRuntimeError, m)
  end.

(** Methods of the manager. *)
Definition tm_begin (id : string) (now : Z) (m : tx_manager) : nat * tx_manager :=
  let l := tm_next m in
  (l, mkTM (<[l := tx_init id now]> (tm_heap m)) (S l) (dict_set (tm_active m) id l) (tm_history m)).
Definition tm_close (now : Z) (l : nat) (m : tx_manager) : tx_manager :=
  let m1 := upd_tx l (tx_close now) m in
  match tm_heap m1 !! l with
  | Some t => mkTM (tm_heap m1) (tm_next m1) (dict_del (tm_active m1) (tx_id t)) (tm_history m1 ++ [l])
  | None => m1
  end.
Definition active_count (m : tx_manager) : nat := length (tm_active m).
Definition tm_clear (m : tx_manager) : tx_manager := mkTM (tm_heap m) (tm_next m) [] [].

(** [get_transaction_context] around a handler: commit on a normal return, roll back
    and re-raise on an exception, close in any case. *)
Definition with_transaction {S A} (id : string) (t0 t1 : Z) (body : nat -> M (tx_manager * S) A) : M (tx_manager * S) A :=
  fun '(m, s) =>
    let '(l, m0) := tm_begin id t0 m in
    let '(r, (m1, s1)) := body l (m0, s) in
    let m2 := match r with Ok _ => upd_tx l tx_commit m1 | Raise _ => upd_tx l tx_rollback m1 end in
    (r, (tm_close t1 l m2, s1)).

(** The handlers of the routers stage one action and call the service. *)
Definition staged_call {S A} (action : string) (call : M S A) (l : nat) : M (tx_manager * S) A :=
  lift_l (tx_stage l action) ;;; lift_r call.

(** References are allocated in order, and an identifier is registered once. *)
Definition tm_wf (m : tx_manager) : Prop :=
  (forall l, is_Some (tm_heap m !! l) -> (l < tm_next m)%nat) /\ NoDup (tm_active m).*1.

(** A request scope leaves no transaction registered and the transactions of other
    requests as they were; its own is closed, committed with the staged action when
    the handler returned and rolled back with nothing staged when it raised; result
    and effects of the handler are those of the service call. *)
Theorem transaction_scope {S A} id t0 t1 action (call : M S A) m s : tm_wf m -> dict_get (tm_active m) id = None ->
  let '(r, (m', s')) := with_transaction id t0 t1 (staged_call action call) (m, s) in
  (r, s') = call s /\
  tm_active m' = tm_active m /\ tm_wf m' /\
  tm_history m' = tm_history m ++ [tm_next m] /\
  (forall l, l <> tm_next m -> tm_heap m' !! l = tm_heap m !! l) /\
  tm_heap m' !! tm_next m = Some
    (mkTx id (if is_ok r then COMMITTED else ROLLED_BACK) (if is_ok r then [action] else []) true t0 (t1 - t0)).
Proof.
  intros [Hwf Hnd] Hid. unfold with_transaction, staged_call, tm_begin, bind, lift_l, lift_r, tx_stage. cbn [fst snd tm_heap].
  rewrite lookup_insert_eq. cbn [tx_status tx_init]. rewrite bool_decide_true by done. cbn [fst snd].
  destruct (call s) as [r s'] eqn:Ec.
  assert (dict_del (dict_set (tm_active m) id (tm_next m)) id = tm_active m) as Hact.
  { clear -Hid Hnd. induction (tm_active m) as [|[k v] d IH]; cbn in *; [by rewrite decide_True|].
    destruct (decide (k = id)) as [->|Hne]; [done|]. cbn. rewrite decide_False by done. f_equal. apply IH; [|done].
    by apply NoDup_cons in Hnd as [_ ?]. }
  assert (forall t m0, m0 = mkTM (<[tm_next m := t]> (tm_heap m)) (Datatypes.S (tm_next m)) (tm_active m) (tm_history m ++ [tm_next m]) ->
    tm_active m0 = tm_active m /\ tm_wf m0 /\ tm_history m0 = tm_history m ++ [tm_next m] /\
    (forall l, l <> tm_next m -> tm_heap m0 !! l = tm_heap m !! l) /\ tm_heap m0 !! tm_next m = Some t) as Hfin.
  { intros t m0 ->. split; [done|]. split; [|split; [done|split]]; cbn [tm_heap tm_active tm_next].
    - split; [|done]. cbn [tm_heap tm_next]. intros l. destruct (decide (l = tm_next m)) as [->|Hl]; [lia|].
      rewrite lookup_insert_ne by congruence. intros Hs. specialize (Hwf l Hs). lia.
    - intros l Hl. by rewrite lookup_insert_ne by congruence.
    - by rewrite lookup_insert_eq. }
  destruct r as [a|e]; (split; [done|]); cbn [is_ok]; unfold tm_close, upd_tx; cbn [tm_heap tm_next tm_active tm_history];
    rewrite !alter_insert_eq, lookup_insert_eq; apply Hfin; f_equal; exact Hact.
Qed.

(** [RequestLifecycleContext] and [track_request_lifecycle]: the duration is recorded
    whether the handler returns or raises. *)
Record lifecycle : Type := mkLifecycle { lc_trace_id : string; lc_start : Z; lc_duration : Z; lc_completed : bool }.
Definition lc_complete (now : Z) (c : lifecycle) : lifecycle :=
  mkLifecycle (lc_trace_id c) (lc_start c) (now - lc_start c) true.
Definition track_request_lifecycle {S A} (trace_id : string) (t0 t1 : Z) (body : M S A) : S -> result A * S * lifecycle :=
  fun s => let '(r, s') := body s in (r, s', lc_complete t1 (mkLifecycle trace_id t0 0 false)).

(** ** Witnesses *)

Section Witness.
#[local] Existing Instance py_text_ref.
#[local] Existing Instance jwt_ref.
#[local] Existing Instance one_user.

(** The administrator is known by name only. *)
Definition demo_admin : UserEntity :=
  mkUser 1 (Some "root@x.io") (Some "admin_user") "hash" true 0 1 None "admin" None None None None 63 None.

Lemma api_key_identity_witness :
  get_current_active_admin default_settings (Some "userkey_admin_user") demo_admin = (Ok demo_admin, demo_admin).
Proof.
  refine (proj1 (proj2 (proj2 (api_key_identity default_settings "userkey_admin_user" demo_admin I) demo_admin "admin_user"
    eq_refl eq_refl eq_refl eq_refl eq_refl eq_refl _ _)) eq_refl); vm_compute; discriminate.
Defined.

(** Decimal digits of a single figure are enough here. *)
Definition py_text_digit : PyText := {|
  dumps := @dumps py_text_ref; loads := @loads py_text_ref; isoformat := @isoformat py_text_ref;
  fromisoformat := @fromisoformat py_text_ref;
  int_of_str s := if bool_decide (s = "5") then Some 5 else None;
  float_of_str _ := None; float_str _ := "";
  law_json := @law_json py_text_ref; law_iso := @law_iso py_text_ref |}.

Lemma bearer_permission_guard_witness : exists atok,
  require_permission (PT := py_text_digit) default_settings (perm_value WRITE) 2000000 (Some ("Bearer " +:+ atok)) None =
    Ok (AccessControl.mkUser 5 "user" 3) /\
  require_permission (PT := py_text_digit) default_settings (perm_value ADMIN) 2000000 (Some ("Bearer " +:+ atok)) None =
    Raise (HTTPException 403).
Proof.
  eexists. split.
  - rewrite (bearer_permission_guard (PT := py_text_digit) default_settings 1000000 2000000 "j" 5 "user" None (perm_value WRITE)
      _ None eq_refl ltac:(lia) eq_refl eq_refl). reflexivity.
  - rewrite (bearer_permission_guard (PT := py_text_digit) default_settings 1000000 2000000 "j" 5 "user" None (perm_value ADMIN)
      _ None eq_refl ltac:(lia) eq_refl eq_refl). reflexivity.
Defined.

Lemma rate_limit_guard_answers_witness :
  (rate_limit_check (mkRLG 1 60 "api") "9:y" 9 9 (mkClient (Some "alice") None None) ex_zstore).1 = TooMany 1 (Some 1) (Some 0) /\
  exists n, (rate_limit_check (mkRLG 1 60 "api") "9:y" 9 9 (mkClient (Some "mallory") None None) ex_zstore).1 = Pass "mallory" n.
Proof.
  split; [vm_compute; reflexivity|].
  refine (proj2 (rate_limit_guard_answers (mkRLG 1 60 "api") "9:y" 9 9 (mkClient (Some "mallory") None None) ex_zstore _ _ _ _)
    "mallory" eq_refl _ eq_refl).
  - vm_compute; reflexivity.
  - vm_compute; discriminate.
  - intros e He. by apply not_elem_of_nil in He.
  - apply not_elem_of_nil.
  - discriminate.
Defined.

Lemma transaction_scope_witness :
  let '(r, (m', s')) := with_transaction "t1" 5 9 (staged_call "create_user:ann" (fun n : nat => (Ok n, S n))) (mkTM ∅ 0 [] [], 7%nat) in
  (r, s') = (Ok 7%nat, 8%nat) /\ active_count m' = 0%nat.
Proof.
  pose proof (transaction_scope "t1" 5 9 "create_user:ann" (fun n : nat => (Ok n, S n)) (mkTM ∅ 0 [] []) 7%nat) as H.
  cbn zeta in H. destruct (with_transaction _ _ _ _ _) as [r [m' s']] eqn:E.
  destruct H as (H1 & H2 & _).
  - split; [|apply NoDup_nil_2]. cbn. intros l [t Ht]. by rewrite lookup_empty in Ht.
  - reflexivity.
  - split; [exact H1|]. unfold active_count. by rewrite H2.
Defined.
End Witness.
