(* ===== verification/UserApi.v ===== *)
(** The user router ([app/routers/user_router.py]) over the user service, with the
    user service as the [UserDirectory] of the guards.

    The state of the application is the transaction registry and the user service.
    An endpoint takes the credentials of the request, its parameters and its raw
    body; the guard runs first, then parameters and body are validated, then the
    handler.  Background tasks are part of the answer. *)

From Stdlib Require Import QArith.
From stdpp Require Import pretty.
From S2P Require Import Prelude Redis AccessControl UserRepo EventBus Cache UserService UserSchemas Auth Guards.

Local Open Scope Z_scope.
Local Open Scope py_scope.

Section Directory.
Context {RD : Type}.
Variables (hash_password : string -> string) (verify_password : string -> string -> bool) (needs_rehash : string -> bool).

Definition dir_by_username (name : string) : M (user_service RD) UserEntity :=
  let! l := get_user_by_username name in get_obj l.
Definition dir_authenticate (name password : string) : M (user_service RD) (option UserEntity) :=
  let! r := authenticate_user hash_password verify_password needs_rehash name password in
  match r with Some l => let! u := get_obj l in ret (Some u) | None => ret None end.
Definition registered_user (s : user_service RD) (u : UserEntity) : Prop := exists id, lookup_user (us_repo s) id = Some u.

Lemma username_ref (r : user_repo) k l : ur_inv r -> ur_get_by_username k r = Some l ->
  exists id u, dict_get (ur_store r) id = Some l /\ ur_heap r !! l = Some u /\ lookup_user r id = Some u /\ u_username u = k.
Proof.
  intros Hi. unfold ur_get_by_username. destruct (ur_username_index r !! k) as [id|] eqn:E; [|done].
  destruct (index_get _ _ _ _ _ Hi (inv_username _ Hi) E) as (l' & u & Hd & Hh & Hk & _). intros Hl.
  assert (l' = l) as -> by congruence. exists id, u. unfold lookup_user. rewrite Hd. auto.
Qed.
Lemma email_ref (r : user_repo) k l : ur_inv r -> ur_get_by_email k r = Some l ->
  exists id u, dict_get (ur_store r) id = Some l /\ ur_heap r !! l = Some u /\ lookup_user r id = Some u.
Proof.
  intros Hi. unfold ur_get_by_email. destruct (ur_email_index r !! k) as [id|] eqn:E; [|done].
  destruct (index_get _ _ _ _ _ Hi (inv_email _ Hi) E) as (l' & u & Hd & Hh & Hk & _). intros Hl.
  assert (l' = l) as -> by congruence. exists id, u. unfold lookup_user. rewrite Hd. auto.
Qed.

Lemma dir_by_username_law name s : ur_inv (us_repo s) ->
  (exists u, dir_by_username name s = (Ok u, s) /\ registered_user s u /\ u_username u = Some name) \/
  (dir_by_username name s = (Raise UserNotFoundException, s) /\ forall u, registered_user s u -> u_username u <> Some name).
Proof.
  intros Hi. unfold dir_by_username, get_user_by_username, bind.
  destruct (ur_get_by_username (Some name) (us_repo s)) as [l|] eqn:E.
  - left. destruct (username_ref _ _ _ Hi E) as (id & u & Hd & Hh & Hu & Hn). exists u. unfold get_obj. rewrite Hh.
    split; [done|]. split; [by exists id|done].
  - right. split; [done|]. pose proof (get_by_username_view (us_repo s) (Some name) Hi) as Hv. rewrite E in Hv.
    intros u [id Hu] Hn. apply Hv. eauto.
Qed.

Lemma dir_unique_law (s : user_service RD) u u' : ur_inv (us_repo s) -> registered_user s u -> registered_user s u' ->
  u_username u = u_username u' -> is_Some (u_username u) -> u = u'.
Proof.
  intros Hi [id Hu] [id' Hu'] Hn _.
  assert (ur_username_index (us_repo s) !! u_username u = Some id) as H1 by (apply (inv_username _ Hi); eauto).
  assert (ur_username_index (us_repo s) !! u_username u = Some id') as H2 by (apply (inv_username _ Hi); eauto).
  congruence.
Qed.

Lemma dir_authenticate_law name password s : ur_inv (us_repo s) ->
  exists r s', dir_authenticate name password s = (Ok r, s') /\ ur_inv (us_repo s') /\ forall u, r = Some u -> registered_user s' u.
Proof.
  intros Hi. unfold dir_authenticate, authenticate_user, bind, gets, ret.
  destruct (match ur_get_by_username (Some name) (us_repo s) with Some l => Some l | None => _ end) as [l|] eqn:E.
  2: { eexists _, _. split; [done|]. split; [done|]. done. }
  assert (exists id u, dict_get (ur_store (us_repo s)) id = Some l /\ ur_heap (us_repo s) !! l = Some u /\ lookup_user (us_repo s) id = Some u)
    as (id & u & Hd & Hh & Hu).
  { destruct (ur_get_by_username _ _) as [l'|] eqn:En; [injection E as ->; destruct (username_ref _ _ _ Hi En) as (? & ? & ? & ? & ? & _); eauto|].
    by eapply email_ref. }
  unfold get_obj. rewrite Hh. destruct (verify_password password (u_password_hash u)); cbn [negb].
  2: { eexists _, _. split; [done|]. split; [done|]. done. }
  destruct (needs_rehash (u_password_hash u)).
  2: { rewrite Hh. eexists _, _. split; [done|]. split; [done|]. intros v [= <-]. by exists id. }
  destruct (lookup_user_id _ _ _ Hi Hu) as [Hid _]. unfold on_repo, ur_update.
  pose proof (update_fields_spec (us_repo s) id u None None None None None None None None (Some (hash_password password)) Hi Hu) as Hs.
  rewrite Hid. destruct (ur_update_fields _ _ _ _ _ _ _ _ _ _ _) as [res r'] eqn:Er.
  destruct Hs as (Hinv & _ & (l' & -> & _ & Hd') & Hview); [done..|]. cbn [us_repo set_repo].
  specialize (Hview id). rewrite decide_True in Hview by done. unfold lookup_user in Hview. rewrite Hd' in Hview. rewrite Hview.
  eexists _, _. split; [done|]. split; [exact Hinv|]. intros v [= <-]. exists id. cbn. unfold lookup_user. by rewrite Hd'.
Qed.

#[local] Instance us_directory : UserDirectory (user_service RD) := {|
  ud_authenticate := dir_authenticate;
  ud_get_user_by_username := dir_by_username;
  ud_inv s := ur_inv (us_repo s);
  ud_user := registered_user;
  law_by_username := dir_by_username_law;
  law_username_unique := dir_unique_law;
  law_authenticate := dir_authenticate_law |}.

End Directory.

(** ** Endpoints *)

(** Work queued for after the response. *)
Inductive background_task : Type :=
  | SendWelcome (email username : option string)
  | AuditLog (action : string) (user_id : Z) (at_time : Z).

(** The credentials of a request. *)
Record credentials : Type := mkCred { cr_api_key : option string; cr_authorization : option string }.

Definition path_username (s : string) : bool :=
  (3 <=? String.length s)%nat && (String.length s <=? 50)%nat &&
  forallb (fun c => is_lower c || is_digit c || bool_decide (c = "_"%char)) (chars s).
Definition query_search (s : option string) : bool :=
  match s with
  | Some s => (2 <=? String.length s)%nat && (String.length s <=? 50)%nat &&
      forallb (fun c => is_word c || bool_decide (c = " "%char)) (chars s)
  | None => true
  end.

Section Router.
Context {RD : Type} `{CR : CacheRedis RD} `{PT : PyText} `{JW : Jwt}.
Variable sha256 : string -> list Z.
Variables (hash_password : string -> string) (verify_password : string -> string -> bool) (needs_rehash : string -> bool).
Variable schedule : list handler -> list handler.
Variable neglog : Q -> Q.
Variable validate_email : string -> option string.
Variable settings : Settings.

#[local] Instance dir : UserDirectory (user_service RD) := us_directory hash_password verify_password needs_rehash.

Abbreviation US := (user_service RD).
Abbreviation API := (M (tx_manager * US)).

Definition check {S} (c : bool) : M S () := raise_if (negb c) PydanticValidationError.
(** [UserResponse.model_validate(ref)] *)
Definition respond (l : ref) : M US UserResponse :=
  let! u := get_obj l in lift_result (user_response validate_email u).
Fixpoint respond_all (us : list UserEntity) : result (list UserResponse) :=
  match us with
  | [] => Ok []
  | u :: us' => let? r := user_response validate_email u in let? rs := respond_all us' in Ok (r :: rs)
  end.
Fixpoint read_all (ls : list ref) : M US (list UserEntity) :=
  match ls with
  | [] => ret []
  | l :: ls' => let! u := get_obj l in let! us := read_all ls' in ret (u :: us)
  end.

(** POST / *)
Definition create_user (now t1 : Z) (tx event_id : string) (body : raw_create) : API (UserResponse * list background_task) :=
  let! payload := lift_result (validate_create validate_email body) in
  with_transaction tx now t1 (staged_call ("create_user:" +:+ uc_username payload)
    (let! l := register_user sha256 hash_password schedule now event_id payload in
     let! u := get_obj l in
     let! r := respond l in
     ret (r, [SendWelcome (u_email u) (u_username u); AuditLog "create_user" (u_id u) now]))).

(** POST /with-initial-post *)
Definition create_user_with_initial_post_endpoint (now : Z) (body : raw_create) (post_title post_content : string)
    (fails : option exc) : API (UserResponse * PostEntity) :=
  let! payload := lift_result (validate_create validate_email body) in
  lift_r (let! '(l, post) := create_user_with_initial_post hash_password now payload post_title post_content fails in
          let! r := respond l in ret (r, post)).

(** GET /by-username/{username} *)
Definition get_user_by_username_endpoint (username : string) : API UserResponse :=
  check (path_username username) ;;;
  lift_r (let! l := get_user_by_username username in respond l).

(** GET /me *)
Definition get_current_user_profile (c : credentials) : API UserResponse :=
  let! u := lift_r (get_current_user settings (cr_api_key c)) in
  lift_result (user_response validate_email u).

(** GET /admin/metrics: users listed, administrators among them. *)
Definition get_admin_metrics (c : credentials) : API (Z * Z) :=
  let! _ := lift_r (role_checker settings ["admin"] (cr_api_key c)) in
  lift_r (let! ls := list_users 100 0 None None None in
          let! us := read_all ls in
          ret (Z.of_nat (length us), Z.of_nat (length (filter (fun u => u_role u = "admin") us)))).

(** GET /autocomplete *)
Definition autocomplete_users_endpoint (q : string) (limit : Z) : API (option (list suggestion)) :=
  check ((1 <=? String.length q)%nat && (String.length q <=? 50)%nat && (1 <=? limit) && (limit <=? 50)) ;;;
  lift_r (gets (autocomplete_users q limit)).

(** GET /filter/by-age *)
Definition filter_users_by_age_endpoint (min_age max_age : Z) : API (list UserResponse) :=
  check ((0 <=? min_age) && (min_age <=? 150) && (0 <=? max_age) && (max_age <=? 150)) ;;;
  raise_if (max_age <? min_age) (HTTPException 400) ;;;
  lift_r (let! r := gets (filter_users_by_age min_age max_age) in
          let! us := lift_result r in lift_result (respond_all us)).

(** GET /admin/analytics: the caller and the active users among the first hundred. *)
Definition get_admin_analytics (now : Z) (c : credentials) : API (Z * Z) :=
  let! admin := lift_result (require_permission settings (perm_value ADMIN) now (cr_authorization c) (cr_api_key c)) in
  lift_r (let! ls := list_users 100 0 None None None in
          let! us := read_all ls in
          ret (u_user_id admin, Z.of_nat (length (filter (fun u => u_is_active u = true) us)))).

(** GET /{user_id} *)
Definition get_user_by_id_endpoint (now user_id : Z) : API UserResponse :=
  check (path_user_id user_id) ;;;
  lift_r (let! l := get_user_by_id sha256 now user_id in respond l).

(** GET / *)
Definition list_users_endpoint (limit offset : Z) (role search : option string) (is_active : option bool)
  : API (list UserResponse) :=
  check ((1 <=? limit) && (limit <=? 100) && (0 <=? offset) &&
    match role with Some r => bool_decide (r ∈ USER_ROLES) | None => true end && query_search search) ;;;
  lift_r (let! ls := list_users limit offset role search is_active in
          let! us := read_all ls in lift_result (respond_all us)).

(** PUT /{user_id} *)
Definition update_user_endpoint (now t1 : Z) (tx : string) (user_id : Z) (c : credentials) (body : UserPatch)
  : API (UserResponse * list background_task) :=
  let! _ := lift_r (require_user_ownership settings user_id (cr_api_key c)) in
  check (path_user_id user_id) ;;;
  let! payload := lift_result (validate_update validate_email body) in
  with_transaction tx now t1 (staged_call ("update_user:" +:+ pretty user_id)
    (let! l := update_user sha256 now user_id payload in
     let! u := get_obj l in
     let! r := respond l in
     ret (r, [AuditLog "update_user" (u_id u) now]))).

(** PATCH /{user_id}: [UserProfileUpdate] has neither email nor role. *)
Definition update_user_profile_endpoint (now t1 : Z) (tx : string) (user_id : Z) (c : credentials) (body : UserPatch)
  : API UserResponse :=
  let! _ := lift_r (require_user_ownership settings user_id (cr_api_key c)) in
  check (path_user_id user_id) ;;;
  let! p := lift_result (validate_update validate_email
    (mkPatch None (p_username body) (p_age body) None (p_full_name body) (p_phone_number body) (p_bio body) (p_company_name body))) in
  with_transaction tx now t1 (staged_call ("patch_user:" +:+ pretty user_id)
    (* [update_profile] builds a [UserUpdate], whose validators run again *)
    (let! p := lift_result (validate_update validate_email
       (mkPatch None (Some (attr (p_username p))) (Some (attr (p_age p))) None (Some (attr (p_full_name p)))
          (Some (attr (p_phone_number p))) (Some (attr (p_bio p))) (Some (attr (p_company_name p))))) in
     let! l := update_profile sha256 now user_id (attr (p_username p)) (attr (p_age p)) (attr (p_full_name p))
       (attr (p_phone_number p)) (attr (p_bio p)) (attr (p_company_name p)) in
     respond l)).

(** DELETE /{user_id} *)
Definition delete_user_endpoint (now t1 : Z) (tx : string) (user_id : Z) (c : credentials) : API () :=
  let! _ := lift_result (require_permission settings (perm_value DELETE) now (cr_authorization c) (cr_api_key c)) in
  check (path_user_id user_id) ;;;
  with_transaction tx now t1 (staged_call ("delete_user:" +:+ pretty user_id) (delete_user sha256 now user_id)).

(** The permissions a request asks for. *)
Record permissions_request : Type := mkPermReq { pm_permissions : option Z; pm_grant : option Z; pm_revoke : option Z }.
Definition nonneg (z : option Z) : bool := match z with Some z => 0 <=? z | None => true end.
Definition new_permissions (q : permissions_request) (current_perms : Z) : Z :=
  match pm_permissions q with
  | Some p => p
  | None =>
      let p := match pm_grant q with Some g => grant_permission current_perms g | None => current_perms end in
      match pm_revoke q with Some v => revoke_permission p v | None => p end
  end.

(** PUT /{user_id}/permissions *)
Definition update_user_permissions_endpoint (now user_id : Z) (c : credentials) (q : permissions_request) : API UserResponse :=
  let! _ := lift_result (require_permission settings (perm_value ADMIN) now (cr_authorization c) (cr_api_key c)) in
  check (path_user_id user_id && nonneg (pm_permissions q) && nonneg (pm_grant q) && nonneg (pm_revoke q)) ;;;
  lift_r (let! l := get_user_by_id sha256 now user_id in
          let! target_user := get_obj l in
          let! l' := update_user_permissions sha256 now user_id (new_permissions q (u_permissions target_user)) in
          respond l').

(** PUT /{user_id}/write-through *)
Definition update_user_write_through_endpoint (now user_id : Z) (c : credentials) (body : UserPatch) : API UserResponse :=
  let! _ := lift_r (require_user_ownership settings user_id (cr_api_key c)) in
  check (path_user_id user_id) ;;;
  let! payload := lift_result (validate_update validate_email body) in
  lift_r (let! l := update_user_write_through now user_id payload in respond l).

(** GET /{user_id}/xfetch *)
Definition get_user_by_id_xfetch_endpoint (now user_id current_time duration : Z) (beta rand_val : Q) : API UserResponse :=
  check (path_user_id user_id && Qle_bool (1 # 10) beta && Qle_bool beta 10) ;;;
  lift_r (let! l := get_user_by_id_xfetch sha256 neglog now user_id current_time duration beta rand_val in respond l).

(** PUT /{user_id}/optimistic: the handler has no guard. *)
Definition update_user_optimistic_endpoint (now user_id expected_version : Z) (body : UserPatch) : API UserResponse :=
  check (path_user_id user_id && (1 <=? expected_version)) ;;;
  let! payload := lift_result (validate_update validate_email body) in
  lift_r (let! l := update_user_optimistic sha256 now user_id expected_version payload in respond l).

(** PUT /{user_id}/nid: the handler has no guard. *)
Definition update_user_nid_endpoint (now user_id : Z) (nid_number : string) : API UserResponse :=
  check (path_user_id user_id && (5 <=? String.length nid_number)%nat && (String.length nid_number <=? 50)%nat) ;;;
  lift_r (let! l := update_nid now user_id nid_number in respond l).

(** ** Who may change a user *)

(** The guarded writes. *)
Inductive guarded_write : Type :=
  | WUpdate (t1 : Z) (tx : string) (body : UserPatch)
  | WPatch (t1 : Z) (tx : string) (body : UserPatch)
  | WWriteThrough (body : UserPatch)
  | WDelete (t1 : Z) (tx : string)
  | WPermissions (q : permissions_request).

Definition discard {S A} (m : M S A) : M S () := let! _ := m in ret ().
Definition run_write (w : guarded_write) (now user_id : Z) (c : credentials) : API () :=
  match w with
  | WUpdate t1 tx body => discard (update_user_endpoint now t1 tx user_id c body)
  | WPatch t1 tx body => discard (update_user_profile_endpoint now t1 tx user_id c body)
  | WWriteThrough body => discard (update_user_write_through_endpoint now user_id c body)
  | WDelete t1 tx => discard (delete_user_endpoint now t1 tx user_id c)
  | WPermissions q => discard (update_user_permissions_endpoint now user_id c q)
  end.

(** What the guards ask of the caller: the owner or an administrator by API key, or
    the permission in the token or key. *)
Definition may_write (w : guarded_write) (now user_id : Z) (c : credentials) (s : US) : Prop :=
  match w with
  | WUpdate _ _ _ | WPatch _ _ _ | WWriteThrough _ =>
      exists key u name, cr_api_key c = Some key /\ registered_user s u /\ u_is_active u = true /\
        u_username u = Some name /\ key_for settings name key /\ (u_id u = user_id \/ u_role u = "admin")
  | WDelete _ _ =>
      exists a, get_current_authenticated_user settings now (cr_authorization c) (cr_api_key c) = Ok a /\
        has_permission (AccessControl.u_permissions a) (perm_value DELETE) = true
  | WPermissions _ =>
      exists a, get_current_authenticated_user settings now (cr_authorization c) (cr_api_key c) = Ok a /\
        has_permission (AccessControl.u_permissions a) (perm_value ADMIN) = true
  end.

Lemma ownership_cases user_id key s : ur_inv (us_repo s) ->
  (exists e, require_user_ownership settings user_id key s = (Raise e, s)) \/
  (exists u, require_user_ownership settings user_id key s = (Ok u, s) /\
     exists k name, key = Some k /\ registered_user s u /\ u_is_active u = true /\ u_username u = Some name /\
       key_for settings name k /\ (u_id u = user_id \/ u_role u = "admin")).
Proof.
  intros Hi. unfold require_user_ownership, bind, raise_if, raise, ret.
  destruct key as [k|]; [|left; by eexists].
  destruct (get_current_user_cases (UD := dir) settings k s Hi) as [[e ->]|(u & name & -> & Hu & Ha & Hn & Ht)]; [left; eauto|].
  destruct (path_user_id user_id); cbn [negb]; [|left; eauto].
  destruct (Z.eqb_spec (u_id u) user_id) as [Ho|Ho]; [|destruct (bool_decide_reflect (u_role u = "admin")) as [Hr|Hr]]; cbn [orb negb].
  - right. exists u. split; [done|]. exists k, name. apply api_key_target_sound in Ht. auto 10.
  - right. exists u. split; [done|]. exists k, name. apply api_key_target_sound in Ht. auto 10.
  - left. eauto.
Qed.

Lemma permission_cases required now auth key :
  (exists e, require_permission settings required now auth key = Raise e) \/
  (exists a, require_permission settings required now auth key = Ok a /\
     get_current_authenticated_user settings now auth key = Ok a /\ has_permission (AccessControl.u_permissions a) required = true).
Proof.
  unfold require_permission, permission_guard. destruct (get_current_authenticated_user _ _ _ _) as [a|e]; cbn [rbind]; [|eauto].
  destruct (has_permission _ _) eqn:E; cbn [negb]; eauto 10.
Qed.

(** C15: a write through a guarded endpoint happens only for a caller the guards allow: a
    caller that may not gets an exception, and neither the users nor the transaction
    registry change. *)
Theorem guarded_writes_authorized w now user_id c m s : ur_inv (us_repo s) -> ~ may_write w now user_id c s ->
  exists e, run_write w now user_id c (m, s) = (Raise e, (m, s)).
Proof.
  intros Hi Hno.
  assert (forall A (k : UserEntity -> API A), ~ (exists key u name, cr_api_key c = Some key /\ registered_user s u /\ u_is_active u = true /\
      u_username u = Some name /\ key_for settings name key /\ (u_id u = user_id \/ u_role u = "admin")) ->
    exists e, discard (let! x := lift_r (require_user_ownership settings user_id (cr_api_key c)) in k x) (m, s) = (Raise e, (m, s))) as Hown.
  { intros A k Hn. unfold discard, bind, lift_r. cbn [fst snd].
    destruct (ownership_cases user_id (cr_api_key c) s Hi) as [[e ->]|(u & _ & key & name & H)]; [eauto|].
    destruct Hn. exists key, u, name. exact H. }
  assert (forall A required (k : AuthenticatedUser -> API A), ~ (exists a, get_current_authenticated_user settings now (cr_authorization c) (cr_api_key c) = Ok a /\
      has_permission (AccessControl.u_permissions a) required = true) ->
    exists e, discard (let! x := lift_result (require_permission settings required now (cr_authorization c) (cr_api_key c)) in k x) (m, s) =
      (Raise e, (m, s))) as Hperm.
  { intros A required k Hn. unfold discard, bind, lift_result.
    destruct (permission_cases required now (cr_authorization c) (cr_api_key c)) as [[e ->]|(a & _ & H)]; [eauto|].
    destruct Hn. by exists a. }
  destruct w; cbn [run_write may_write] in *; first [by apply Hown|by apply Hperm].
Qed.

End Router.

(** ** Concrete requests *)

Section Demo.
#[local] Existing Instance py_text_ref.
#[local] Existing Instance jwt_ref.

Definition demo_state : tx_manager * user_service cref := (mkTM ∅ 0 [] [], demo_us None).
Definition nobody : credentials := mkCred None None.
Definition promote : UserPatch := mkPatch None None None (Some (Some "admin")) None None None None.

Lemma demo_inv_repo : ur_inv (us_repo (demo_us None)).
Proof. apply (usi_repo _ _ _ (proj1 (demo_us_inv None (or_introl eq_refl)))). Qed.

Lemma guarded_writes_authorized_witness :
  exists e, run_write demo_sha demo_hash demo_verify demo_needs_rehash Some default_settings (WUpdate 11 "t" promote) 10 1 nobody demo_state =
    (Raise e, demo_state).
Proof.
  refine (guarded_writes_authorized demo_sha demo_hash demo_verify demo_needs_rehash Some default_settings
    (WUpdate 11 "t" promote) 10 1 nobody (mkTM ∅ 0 [] []) (demo_us None) demo_inv_repo _).
  by intros (key & u & name & [=] & _).
Defined.

(** Without any credentials the optimistic endpoint makes user 1 an administrator. *)
Example anonymous_promotion :
  let '(r, (_, s)) := update_user_optimistic_endpoint demo_sha Some 10 1 1 promote demo_state in
  is_ok r = true /\ (u_role <$> lookup_user (us_repo s) 1) = Some "admin".
Proof. vm_compute. auto. Qed.

(** The owner of an account makes itself an administrator with PUT. *)
Example self_promotion :
  let c := mkCred (Some "userkey_ann") None in
  let '(r, (_, s)) := update_user_endpoint demo_sha demo_hash demo_verify demo_needs_rehash Some default_settings 10 11 "t" 1 c promote demo_state in
  is_ok r = true /\ (u_role <$> lookup_user (us_repo s) 1) = Some "admin".
Proof. vm_compute. auto. Qed.

(** Registration is open and takes the role from the payload. *)
Example registers_as_admin :
  let body := mkRawCreate "eve@x.io" "eve" None None None None "long-secret" "long-secret" None (Some "admin") in
  let '(r, (_, s)) := create_user demo_sha demo_hash id Some 10 11 "t" "e9" body demo_state in
  is_ok r = true /\ ((fun u => (u_role u, u_permissions u)) <$> lookup_user (us_repo s) 3) = Some ("admin", 63).
Proof. vm_compute. auto. Qed.
End Demo.
