(* ===== verification/Cursor.v ===== *)
(** Opaque pagination cursors: [app/core/pagination/cursor.py].

    The URL-safe base64 coder is written out with the lenient decoder of Python's
    [binascii] (it skips foreign characters and stops at a complete padding); JSON and
    ISO-8601 texts are the class [CursorText] with their round-trip laws.  A [datetime]
    is its local time in microseconds with its UTC offset, if it has one. *)

From S2P Require Import Prelude.

Local Open Scope Z_scope.
Local Open Scope py_scope.

(** ** Base64 *)

Definition code (c : ascii) : Z := Z.of_nat (nat_of_ascii c).
Definition chr (z : Z) : ascii := ascii_of_nat (Z.to_nat z).

(** The alphabet of [urlsafe_b64encode]. *)
Definition b64_char (v : Z) : ascii :=
  if v <? 26 then chr (65 + v) else if v <? 52 then chr (71 + v) else if v <? 62 then chr (v - 4)
  else if v =? 62 then "-"%char else "_"%char.

Fixpoint b64_sextets (bytes : list Z) : list Z :=
  match bytes with
  | a :: b :: c :: rest =>
      Z.shiftr a 2 :: Z.lor (Z.shiftl (Z.land a 3) 4) (Z.shiftr b 4)
      :: Z.lor (Z.shiftl (Z.land b 15) 2) (Z.shiftr c 6) :: Z.land c 63 :: b64_sextets rest
  | [a; b] => [Z.shiftr a 2; Z.lor (Z.shiftl (Z.land a 3) 4) (Z.shiftr b 4); Z.shiftl (Z.land b 15) 2]
  | [a] => [Z.shiftr a 2; Z.shiftl (Z.land a 3) 4]
  | [] => []
  end.
Definition pad_to_4 (n : nat) : nat := Nat.modulo (4 - Nat.modulo n 4) 4.
Definition urlsafe_b64encode (bytes : list ascii) : list ascii :=
  let s := b64_char <$> b64_sextets (code <$> bytes) in s ++ replicate (pad_to_4 (length s)) "="%char.

(** [bytes.translate] of the URL-safe alphabet, then the standard table. *)
Definition translate (c : ascii) : ascii :=
  if decide (c = "-"%char) then "+"%char else if decide (c = "_"%char) then "/"%char else c.
Definition b64_value (c : ascii) : option Z :=
  let n := code c in
  if (65 <=? n) && (n <=? 90) then Some (n - 65) else if (97 <=? n) && (n <=? 122) then Some (n - 71)
  else if (48 <=? n) && (n <=? 57) then Some (n + 4) else if n =? 43 then Some 62 else if n =? 47 then Some 63 else None.

(** The state machine of [binascii.a2b_base64] in its default mode. *)
Fixpoint a2b (quad_pos left pads : Z) (s : list ascii) : option (list Z) :=
  match s with
  | [] => if quad_pos =? 0 then Some [] else None
  | c :: s' =>
      if decide (c = "="%char) then
        if 2 <=? quad_pos then
          if 4 <=? quad_pos + (pads + 1) then Some [] else a2b quad_pos left (pads + 1) s'
        else a2b quad_pos left pads s'
      else match b64_value c with
           | None => a2b quad_pos left pads s'
           | Some v =>
               if quad_pos =? 0 then a2b 1 v 0 s'
               else if quad_pos =? 1 then cons (Z.lor (Z.shiftl left 2) (Z.shiftr v 4)) <$> a2b 2 (Z.land v 15) 0 s'
               else if quad_pos =? 2 then cons (Z.lor (Z.shiftl left 4) (Z.shiftr v 2)) <$> a2b 3 (Z.land v 3) 0 s'
               else cons (Z.lor (Z.shiftl left 6) v) <$> a2b 0 0 0 s'
           end
  end.
(** Both [binascii.Error] and the encoding error of a non-ASCII token. *)
Definition urlsafe_b64decode (s : list ascii) : option (list ascii) :=
  if forallb (fun c => code c <? 128) s then
    match a2b 0 0 0 (translate <$> s) with Some bytes => Some (chr <$> bytes) | None => None end
  else None.

(** [str.rstrip("=")] *)
Fixpoint lstrip_eq (l : list ascii) : list ascii :=
  match l with c :: l' => if decide (c = "="%char) then lstrip_eq l' else l | [] => [] end.
Definition rstrip_eq (l : list ascii) : list ascii := rev (lstrip_eq (rev l)).

(** ** Timestamps and JSON *)

Record datetime : Type := mkDatetime { dt_local : Z; dt_offset : option Z }.
Definition utc (instant : Z) : datetime := mkDatetime instant (Some 0).
(** [datetime.min] and [datetime.max] in microseconds since 1970. *)
Definition MIN_TIME : Z := -62135596800000000.
Definition MAX_TIME : Z := 253402300799999999.
Definition in_range (t : Z) : bool := (MIN_TIME <=? t) && (t <=? MAX_TIME).
(** [replace(tzinfo=UTC)] of a naive time, [astimezone(UTC)] of an aware one. *)
Definition as_utc (d : datetime) : result datetime :=
  match dt_offset d with
  | None => Ok (utc (dt_local d))
  | Some o => if in_range (dt_local d - o) then Ok (utc (dt_local d - o)) else Raise PyOverflowError
  end.

Inductive json : Type :=
  | JNull | JBool (b : bool) | JInt (z : Z) | JFloat (text : string) | JStr (s : string)
  | JArr (l : list json) | JObj (l : list (string * json)).

(** Identifiers the codec is given: integers, strings, and UUIDs by their text. *)
Inductive any_id : Type := IdInt (z : Z) | IdStr (s : string) | IdUuid (text : string).
Definition serialized_id (id : any_id) : json :=
  match id with IdInt z => JInt z | IdStr s => JStr s | IdUuid text => JStr text end.

(** [json_loads] takes the decoded bytes and fails when they are not UTF-8 or not JSON. *)
Class CursorText : Type := {
  json_dumps : json -> list ascii;
  json_loads : list ascii -> option json;
  isoformat : datetime -> string;
  fromisoformat : string -> option datetime;
  law_loads_dumps t id : json_loads (json_dumps (JArr [JStr t; serialized_id id])) = Some (JArr [JStr t; serialized_id id]);
  law_dumps_array l : json_dumps (JArr l) <> [];
  law_isoformat d : fromisoformat (isoformat d) = Some d
}.

Section Codec.
Context {CT : CursorText}.

(** ** [CursorCodec] *)

Definition encode_cursor (created_at : datetime) (id : any_id) : result string :=
  let? created_at := as_utc created_at in
  let payload := JArr [JStr (isoformat created_at); serialized_id id] in
  Ok (of_chars (rstrip_eq (urlsafe_b64encode (json_dumps payload)))).

Definition decode_cursor (cursor_str : string) : result (datetime * json) :=
  if decide (cursor_str = "") then Raise InvalidCursorException
  else
    let clean_cursor := chars (py_strip cursor_str) in
    if decide (clean_cursor = []) then Raise InvalidCursorException
    else
      let padded_cursor := clean_cursor ++ replicate (pad_to_4 (length clean_cursor)) "="%char in
      match urlsafe_b64decode padded_cursor ≫= json_loads with
      | None => Raise InvalidCursorException
      | Some (JArr [iso_timestamp; raw_id]) =>
          match iso_timestamp, raw_id with
          | JStr ts, JNull => Raise InvalidCursorException
          | JStr ts, _ =>
              match fromisoformat ts with
              | Some parsed_dt => let? parsed_dt := as_utc parsed_dt in Ok (parsed_dt, raw_id)
              | None => Raise InvalidCursorException
              end
          | _, _ => Raise InvalidCursorException
          end
      | Some _ => Raise InvalidCursorException
      end.
End Codec.

(** ** Base64 round trip *)

Definition is_byte (z : Z) : Prop := 0 <= z < 256.
Lemma code_chr z : is_byte z -> code (chr z) = z.
Proof. intros H. unfold code, chr. rewrite nat_ascii_embedding by (unfold is_byte in H; lia). unfold is_byte in H. lia. Qed.
Lemma chr_code c : chr (code c) = c.
Proof. unfold code, chr. rewrite Nat2Z.id. apply ascii_nat_embedding. Qed.
Lemma code_byte c : is_byte (code c).
Proof. pose proof (nat_ascii_bounded c). unfold is_byte, code. lia. Qed.

(** What the coder needs of one sextet, checked for all sixty-four. *)
Definition sextet_ok (v : Z) : bool :=
  bool_decide (b64_value (translate (b64_char v)) = Some v) && (code (b64_char v) <? 128)
  && bool_decide (translate (b64_char v) <> "="%char) && bool_decide (b64_char v <> "="%char)
  && negb (is_space (b64_char v)).
Lemma sextets_ok v : 0 <= v < 64 -> sextet_ok v = true.
Proof.
  intros H. assert (forallb (fun n => sextet_ok (Z.of_nat n)) (seq 0 64) = true) as Ha by by vm_compute.
  rewrite forallb_forall in Ha. rewrite <-(Z2Nat.id v) by lia. apply Ha. apply in_seq. lia.
Qed.
Lemma sextet_facts v : 0 <= v < 64 ->
  b64_value (translate (b64_char v)) = Some v /\ code (b64_char v) < 128 /\
  translate (b64_char v) <> "="%char /\ b64_char v <> "="%char /\ is_space (b64_char v) = false.
Proof.
  intros H%sextets_ok. unfold sextet_ok in H. rewrite !andb_true_iff, !bool_decide_eq_true, negb_true_iff in H. naive_solver lia.
Qed.

(** The bit fields of the sextets, as quotients and remainders. *)
Lemma land3 x : Z.land x 3 = x mod 4.   Proof. exact (land_ones_mod x 2 ltac:(lia)). Qed.
Lemma land15 x : Z.land x 15 = x mod 16. Proof. exact (land_ones_mod x 4 ltac:(lia)). Qed.
Lemma land63 x : Z.land x 63 = x mod 64. Proof. exact (land_ones_mod x 6 ltac:(lia)). Qed.
Lemma shr x n : 0 <= n -> Z.shiftr x n = x / 2 ^ n.
Proof. intros. by apply Z.shiftr_div_pow2. Qed.
Lemma shl x n : 0 <= n -> Z.shiftl x n = x * 2 ^ n.
Proof. intros. by apply Z.shiftl_mul_pow2. Qed.

Ltac bit_fields :=
  rewrite ?land3, ?land15, ?land63 in *;
  repeat match goal with |- context [Z.lor (Z.shiftl ?a ?n) ?b] =>
    rewrite (lor_shiftl a b n) by (try (rewrite ?shr by lia; cbn); Z.div_mod_to_equations; lia) end;
  rewrite ?shr, ?shl by lia; cbn [Z.pow Z.pow_pos Pos.iter Z.mul Pos.mul]; Z.div_mod_to_equations; lia.

Lemma sextet_fields_1 a b : is_byte a -> is_byte b ->
  Z.lor (Z.shiftl (Z.shiftr a 2) 2) (Z.shiftr (Z.lor (Z.shiftl (Z.land a 3) 4) (Z.shiftr b 4)) 4) = a /\
  Z.land (Z.lor (Z.shiftl (Z.land a 3) 4) (Z.shiftr b 4)) 15 = Z.shiftr b 4.
Proof. unfold is_byte. intros Ha Hb. split; bit_fields. Qed.
Lemma sextet_fields_2 b c : is_byte b -> is_byte c ->
  Z.lor (Z.shiftl (Z.shiftr b 4) 4) (Z.shiftr (Z.lor (Z.shiftl (Z.land b 15) 2) (Z.shiftr c 6)) 2) = b /\
  Z.land (Z.lor (Z.shiftl (Z.land b 15) 2) (Z.shiftr c 6)) 3 = Z.shiftr c 6.
Proof. unfold is_byte. intros Ha Hb. split; bit_fields. Qed.
Lemma sextet_fields_3 c : is_byte c -> Z.lor (Z.shiftl (Z.shiftr c 6) 6) (Z.land c 63) = c.
Proof. unfold is_byte. intros Hc. bit_fields. Qed.

Lemma list_ind_3 {A} (P : list A -> Prop) : P [] -> (forall a, P [a]) -> (forall a b, P [a; b]) ->
  (forall a b c l, P l -> P (a :: b :: c :: l)) -> forall l, P l.
Proof.
  intros H0 H1 H2 H3. fix IH 1. intros [|a [|b [|c l]]]; [done..|]. apply H3, IH.
Qed.

Lemma b64_sextets_range bytes : Forall is_byte bytes -> Forall (fun v => 0 <= v < 64) (b64_sextets bytes).
Proof.
  induction bytes as [|a|a b|a b c l IH] using list_ind_3; cbn; intros H; decompose_Forall_hyps; repeat constructor;
    unfold is_byte in *; try bit_fields; auto.
Qed.

(** One character of an encoded text. *)
Lemma a2b_char q left p v l : 0 <= v < 64 ->
  a2b q left p (translate (b64_char v) :: l) =
    if q =? 0 then a2b 1 v 0 l
    else if q =? 1 then cons (Z.lor (Z.shiftl left 2) (Z.shiftr v 4)) <$> a2b 2 (Z.land v 15) 0 l
    else if q =? 2 then cons (Z.lor (Z.shiftl left 4) (Z.shiftr v 2)) <$> a2b 3 (Z.land v 3) 0 l
    else cons (Z.lor (Z.shiftl left 6) v) <$> a2b 0 0 0 l.
Proof. intros (H1 & _ & H3 & _)%sextet_facts. cbn [a2b]. by rewrite decide_False, H1. Qed.

Lemma pad_to_4_add n : pad_to_4 (4 + n) = pad_to_4 n.
Proof. unfold pad_to_4. by rewrite (Nat.Div0.add_mod 4 n 4), Nat.Div0.mod_same, Nat.add_0_l, Nat.Div0.mod_mod. Qed.

#[local] Arguments a2b : simpl never.
Lemma a2b_encode bytes : Forall is_byte bytes ->
  a2b 0 0 0 (translate <$> (b64_char <$> b64_sextets bytes) ++ replicate (pad_to_4 (length (b64_sextets bytes))) "="%char) = Some bytes.
Proof.
  induction bytes as [|a|a b|a b c l IH] using list_ind_3; intros H; rewrite ?Forall_cons in H; destruct_and?; [done|..].
  - pose proof (b64_sextets_range [a] ltac:(by rewrite !Forall_cons, Forall_nil)) as Hr. cbn [b64_sextets] in Hr. rewrite !Forall_cons in Hr. destruct_and!.
    destruct (sextet_fields_1 a 0) as [E _]; [done|done|]. rewrite Z.shiftr_0_l, Z.lor_0_r in E.
    cbn [b64_sextets]. rewrite fmap_app, !fmap_cons. cbn [app]. rewrite !a2b_char by done. cbn. rewrite E. done.
  - pose proof (b64_sextets_range [a; b] ltac:(by rewrite !Forall_cons, Forall_nil)) as Hr. cbn [b64_sextets] in Hr. rewrite !Forall_cons in Hr. destruct_and!.
    destruct (sextet_fields_1 a b) as [E1 E2]; [done|done|]. destruct (sextet_fields_2 b 0) as [E3 _]; [done|done|].
    rewrite Z.shiftr_0_l, Z.lor_0_r in E3.
    cbn [b64_sextets]. rewrite fmap_app, !fmap_cons. cbn [app]. rewrite !a2b_char by done. cbn. rewrite E1, E2, E3. done.
  - pose proof (b64_sextets_range [a; b; c] ltac:(by rewrite !Forall_cons, Forall_nil)) as Hr. cbn [b64_sextets] in Hr. rewrite !Forall_cons in Hr. destruct_and!.
    destruct (sextet_fields_1 a b) as [E1 E2]; [done|done|]. destruct (sextet_fields_2 b c) as [E3 E4]; [done|done|].
    cbn [b64_sextets]. rewrite !fmap_cons. cbn [length]. change (Datatypes.S _) with (4 + length (b64_sextets l))%nat at 1. rewrite pad_to_4_add.
    rewrite fmap_app, !fmap_cons. cbn [app]. rewrite <-fmap_app, !a2b_char by done.
    cbn [Z.eqb Pos.eqb]. rewrite E2, E4, IH by done. cbn. by rewrite E1, E3, sextet_fields_3.
Qed.

Lemma sextet_chars bytes P : Forall is_byte bytes -> (forall v, 0 <= v < 64 -> P (b64_char v)) ->
  Forall P (b64_char <$> b64_sextets bytes).
Proof. intros H%b64_sextets_range HP. apply Forall_fmap. eapply Forall_impl; [exact H|exact HP]. Qed.
Lemma codes_are_bytes (l : list ascii) : Forall is_byte (code <$> l).
Proof. apply Forall_fmap, Forall_forall. intros c _. apply code_byte. Qed.

Lemma lstrip_eq_replicate n l : lstrip_eq (replicate n "="%char ++ l) = lstrip_eq l.
Proof. induction n as [|n IH]; cbn; [done|]. by rewrite decide_True. Qed.
Lemma lstrip_eq_none l : Forall (fun c => c <> "="%char) l -> lstrip_eq l = l.
Proof. destruct l; cbn; [done|]. rewrite Forall_cons. intros [H _]. by rewrite decide_False. Qed.
Lemma rstrip_eq_padding l n : Forall (fun c => c <> "="%char) l -> rstrip_eq (l ++ replicate n "="%char) = l.
Proof.
  intros H. unfold rstrip_eq. rewrite rev_app_distr.
  replace (rev (replicate n "="%char)) with (replicate n "="%char) by (rewrite rev_alt; symmetry; apply reverse_replicate).
  rewrite lstrip_eq_replicate, lstrip_eq_none by by apply Forall_rev. apply rev_involutive.
Qed.

(** Decoding what was encoded, with or without its padding. *)
Lemma urlsafe_roundtrip bytes :
  let s := rstrip_eq (urlsafe_b64encode bytes) in
  Forall (fun c => is_space c = false) s /\ (s = [] <-> bytes = []) /\
  urlsafe_b64decode (s ++ replicate (pad_to_4 (length s)) "="%char) = Some bytes.
Proof.
  pose proof (codes_are_bytes bytes) as Hb. unfold urlsafe_b64encode. cbn zeta.
  rewrite rstrip_eq_padding by (eapply sextet_chars; [done|]; intros v Hv; apply (sextet_facts v Hv)). split_and!.
  - eapply sextet_chars; [done|]. intros v Hv. apply (sextet_facts v Hv).
  - split; [|by intros ->]. destruct bytes as [|a [|b [|c l]]]; done.
  - unfold urlsafe_b64decode. rewrite length_fmap, a2b_encode by done.
    replace (forallb _ _) with true; [by rewrite <-list_fmap_compose; f_equal; rewrite <-(list_fmap_id bytes) at 2; apply list_fmap_ext; intros; apply chr_code|].
    symmetry. apply forallb_forall. intros c Hc. apply list_elem_of_In, elem_of_app in Hc as [Hc|Hc].
    + pose proof (sextet_chars _ (fun c => (code c <? 128) = true) Hb) as Hf. rewrite Forall_forall in Hf. apply Hf; [|done].
      intros v Hv. apply Z.ltb_lt, (sextet_facts v Hv).
    + by apply elem_of_replicate in Hc as [-> _].
Qed.

(** ** The codec *)

Section CodecTheorems.
Context {CT : CursorText}.

Lemma as_utc_idem d d' : as_utc d = Ok d' -> in_range (dt_local d') = true -> as_utc d' = Ok d' /\ dt_offset d' = Some 0.
Proof.
  unfold as_utc. destruct (dt_offset d) as [o|]; [destruct (in_range (_ - o)); [|done]|]; intros [= <-]; cbn; intros Hr;
    rewrite Z.sub_0_r, Hr; done.
Qed.

Lemma decode_encode created_at id d token :
  as_utc created_at = Ok d -> in_range (dt_local d) = true ->
  encode_cursor created_at id = Ok token -> decode_cursor token = Ok (d, serialized_id id).
Proof.
  intros Hd Hr. unfold encode_cursor. rewrite Hd. cbn. intros [= <-].
  destruct (as_utc_idem _ _ Hd Hr) as [Hd' _].
  set (bytes := json_dumps _). destruct (urlsafe_roundtrip bytes) as (Hs & Hn & Hrt).
  set (s := rstrip_eq _) in *. assert (s <> []) as Hne by (intros H%Hn; by apply law_dumps_array in H).
  assert (chars (py_strip (of_chars s)) = s) as Hstrip by (rewrite strip_fixed, chars_of_chars; [done|]; by rewrite chars_of_chars).
  unfold decode_cursor. rewrite decide_False by (intros H; apply Hne; by rewrite <-(chars_of_chars s), H).
  rewrite Hstrip, decide_False, Hrt by done. cbn. unfold bytes. rewrite law_loads_dumps.
  destruct id; cbn; rewrite law_isoformat, Hd'; done.
Qed.

(** C33: A cursor made from a timestamp and an identifier decodes to the same instant in
    UTC and the same identifier, whatever bytes the payload has: the padding that is
    stripped is exactly the padding that is restored. *)
Theorem cursor_roundtrip created_at id d token :
  as_utc created_at = Ok d -> in_range (dt_local d) = true ->
  encode_cursor created_at id = Ok token -> decode_cursor token = Ok (d, serialized_id id).
Proof. apply decode_encode. Qed.

(** What a token can decode to, and how decoding fails. *)
Theorem decode_cursor_outcomes token :
  match decode_cursor token with
  | Ok (d, id) => dt_offset d = Some 0 /\ id <> JNull
  | Raise e => e = InvalidCursorException \/ e = PyOverflowError
  end.
Proof.
  unfold decode_cursor. repeat case_decide; [auto..|]. destruct (_ ≫= _) as [j|]; [|auto].
  destruct j as [| | | | |l|]; auto. destruct l as [|t [|i [|]]]; auto. destruct t; auto.
  assert (forall i, i <> JNull ->
    match (match fromisoformat s with Some d => let? d := as_utc d in Ok (d, i) | None => Raise InvalidCursorException end) with
    | Ok (d, id) => dt_offset d = Some 0 /\ id <> JNull
    | Raise e => e = InvalidCursorException \/ e = PyOverflowError
    end) as Hi; [|destruct i; [by left|apply Hi; done..]].
  intros i' Hi'. destruct (fromisoformat s) as [d|]; [|auto]. unfold as_utc. destruct (dt_offset d); [destruct (in_range _)|]; cbn; auto.
Qed.

(** Decoding ignores characters outside the alphabet. *)
Lemma a2b_foreign q left p s1 c s2 : b64_value c = None -> c <> "="%char ->
  a2b q left p (s1 ++ c :: s2) = a2b q left p (s1 ++ s2).
Proof.
  intros Hc Hne. revert q left p. induction s1 as [|x s1 IH]; intros q left p; cbn [app].
  - unfold a2b at 1; fold a2b. by rewrite decide_False, Hc.
  - unfold a2b; fold a2b. repeat case_match; rewrite ?IH; done.
Qed.

(** Four foreign characters anywhere in a token do not change what it decodes to, so
    tokens are malleable. *)
Theorem foreign_characters_ignored t1 t2 :
  Forall (fun c => is_space c = false) (chars t1 ++ chars t2) -> t1 <> "" ->
  decode_cursor (t1 +:+ "!!!!" +:+ t2) = decode_cursor (t1 +:+ t2).
Proof.
  intros Hs Hne. assert (chars t1 <> []) as Hne' by (destruct t1; done).
  assert (Forall (fun c => is_space c = false) (chars t1 ++ chars "!!!!" ++ chars t2)) as Hs'.
  { rewrite !Forall_app in *. destruct Hs. split_and!; [done| |done]. by repeat constructor. }
  unfold decode_cursor. rewrite !decide_False by (destruct t1; done).
  rewrite !strip_fixed by (rewrite !chars_app; done). rewrite !chars_app.
  rewrite !decide_False by (destruct (chars t1); done).
  set (l1 := chars t1). set (l2 := chars t2). replace (length (l1 ++ chars "!!!!" ++ l2)) with (4 + length (l1 ++ l2))%nat
    by (rewrite !length_app; cbn; lia).
  rewrite pad_to_4_add. set (n := pad_to_4 _). f_equal. rewrite <-!app_assoc. set (l3 := l2 ++ _).
  assert (forall x, urlsafe_b64decode (l1 ++ "!"%char :: x) = urlsafe_b64decode (l1 ++ x)) as Hf.
  { intros x. unfold urlsafe_b64decode. rewrite !forallb_app. cbn [forallb].
    rewrite !fmap_app, fmap_cons, a2b_foreign by done. done. }
  change (chars "!!!!") with ["!"; "!"; "!"; "!"]%char. cbn [app]. rewrite !Hf.
  rewrite decide_False by (destruct t1; done). by rewrite decide_False by (by intros [H _]%app_nil).
Qed.

(** A crafted token raises an exception that the handler of the codec does not catch. *)
Theorem crafted_cursor_overflows : exists token, decode_cursor token = Raise PyOverflowError.
Proof.
  set (payload := JArr [JStr (isoformat (mkDatetime MIN_TIME (Some 3600000000))); serialized_id (IdInt 1)]).
  exists (of_chars (rstrip_eq (urlsafe_b64encode (json_dumps payload)))).
  destruct (urlsafe_roundtrip (json_dumps payload)) as (Hs & Hn & Hrt). set (s := rstrip_eq _) in *.
  assert (s <> []) as Hne by (intros H%Hn; by apply law_dumps_array in H).
  unfold decode_cursor. rewrite decide_False by (intros H; apply Hne; by rewrite <-(chars_of_chars s), H).
  rewrite strip_fixed, chars_of_chars by (by rewrite chars_of_chars).
  rewrite decide_False, Hrt by done. cbn. unfold payload. rewrite law_loads_dumps. cbn. by rewrite law_isoformat.
Qed.
End CodecTheorems.

(** ** A concrete text format for the witnesses *)

Fixpoint put_pos (p : positive) (l : list ascii) : list ascii :=
  match p with xH => ";"%char :: l | xO p => "0"%char :: put_pos p l | xI p => "1"%char :: put_pos p l end.
Fixpoint get_pos (l : list ascii) : option (positive * list ascii) :=
  match l with
  | [] => None
  | c :: l =>
      if decide (c = ";"%char) then Some (xH, l)
      else match get_pos l with
           | Some (p, l') => Some (if decide (c = "0"%char) then xO p else xI p, l')
           | None => None
           end
  end.
Definition put_Z (z : Z) (l : list ascii) : list ascii :=
  match z with Z0 => "z"%char :: l | Zpos p => "+"%char :: put_pos p l | Zneg p => "-"%char :: put_pos p l end.
Definition get_Z (l : list ascii) : option (Z * list ascii) :=
  match l with
  | [] => None
  | c :: l =>
      if decide (c = "z"%char) then Some (0, l)
      else match get_pos l with Some (p, l') => Some (if decide (c = "+"%char) then Zpos p else Zneg p, l') | None => None end
  end.
Lemma get_put_pos p l : get_pos (put_pos p l) = Some (p, l).
Proof. revert l. induction p as [p IH|p IH|]; intros l; cbn; rewrite ?IH; done. Qed.
Lemma get_put_Z z l : get_Z (put_Z z l) = Some (z, l).
Proof. destruct z; cbn; rewrite ?get_put_pos; done. Qed.

Definition ref_dumps (j : json) : list ascii :=
  match j with
  | JArr [JStr t; JInt z] => "i"%char :: put_Z z (chars t)
  | JArr [JStr t; JStr s] => "s"%char :: put_Z (Z.of_nat (length (chars s))) (chars s ++ chars t)
  | _ => ["?"%char]
  end.
Definition ref_loads (l : list ascii) : option json :=
  match l with
  | [] => None
  | c :: l =>
      match get_Z l with
      | Some (z, l') =>
          if decide (c = "i"%char) then Some (JArr [JStr (of_chars l'); JInt z])
          else if decide (c = "s"%char) then
            Some (JArr [JStr (of_chars (drop (Z.to_nat z) l')); JStr (of_chars (take (Z.to_nat z) l'))])
          else None
      | None => None
      end
  end.
Definition ref_isoformat (d : datetime) : string :=
  of_chars (put_Z (dt_local d) (match dt_offset d with Some o => put_Z o [] | None => [] end)).
Definition ref_fromisoformat (s : string) : option datetime :=
  match get_Z (chars s) with
  | Some (t, l) => Some (mkDatetime t (match get_Z l with Some (o, _) => Some o | None => None end))
  | None => None
  end.
#[global, program] Instance ref_cursor_text : CursorText := {|
  json_dumps := ref_dumps; json_loads := ref_loads; isoformat := ref_isoformat; fromisoformat := ref_fromisoformat |}.
Next Obligation.
  intros t id. destruct id; cbn; rewrite get_put_Z; cbn; rewrite ?of_chars_chars, ?Nat2Z.id, ?drop_app_length, ?take_app_length, ?of_chars_chars; done.
Qed.
Next Obligation. intros l. cbn. repeat case_match; done. Qed.
Next Obligation.
  intros [t [o|]]; cbn; unfold ref_fromisoformat, ref_isoformat; cbn; rewrite chars_of_chars, get_put_Z; cbn; [by rewrite <-(app_nil_r (put_Z o [])), app_nil_r, get_put_Z|done].
Qed.

Lemma cursor_roundtrip_witness :
  exists token, encode_cursor (mkDatetime 1767225600000000 (Some 7200000000)) (IdInt 42) = Ok token /\
    decode_cursor token = Ok (utc 1767218400000000, JInt 42).
Proof.
  eexists. split; [reflexivity|].
  apply (cursor_roundtrip (mkDatetime 1767225600000000 (Some 7200000000)) (IdInt 42)); reflexivity.
Defined.
Example foreign_characters_witness :
  decode_cursor ("ab" +:+ "!!!!" +:+ "cd") = decode_cursor ("ab" +:+ "cd").
Proof. apply foreign_characters_ignored; [by repeat constructor|done]. Defined.
