(* ===== verification/Catalog.v ===== *)
(** The catalog: [app/repositories/catalog_repository.py], [app/schemas/catalog.py],
    [app/schemas/pagination.py] and the endpoints of [app/routers/catalog_router.py].

    The queries the repository builds are data; the database is the class [SqlEngine]
    with what SQL promises of SELECT, WHERE, ORDER BY, LIMIT and OFFSET (rows of equal
    keys come in any order).  A table is the list of its rows; instants are microseconds.
    The query-plan report of the tag search is a parameter. *)

From Stdlib Require Import QArith.
From S2P Require Import Prelude Cursor.

Local Open Scope Z_scope.
Local Open Scope py_scope.

(** ** Data *)

Record CatalogItem : Type := mkItem {
  ci_id : Z; ci_sku : string; ci_name : string; ci_category : string; ci_price : Q; ci_barcode : string;
  ci_metadata_json : list (string * json); ci_tags : list string; ci_created_at : Z
}.

(** The columns a request supplies. *)
Record CatalogItemCreate : Type := mkItemCreate {
  ic_sku : string; ic_name : string; ic_category : string; ic_price : Q; ic_barcode : string;
  ic_metadata_json : list (string * json); ic_tags : list string
}.
Definition item_create_valid (i : CatalogItemCreate) : bool :=
  let len s := Z.of_nat (String.length s) in
  (2 <=? len (ic_sku i)) && (len (ic_sku i) <=? 50) && (1 <=? len (ic_name i)) && (len (ic_name i) <=? 255)
  && (1 <=? len (ic_category i)) && (len (ic_category i) <=? 100) && Qle_bool 0 (ic_price i)
  && (1 <=? len (ic_barcode i)) && (len (ic_barcode i) <=? 100).

(** ** Queries *)

Inductive condition : Type :=
  | KeysetBefore (created_at : datetime) (id : json)  (** [tuple_(created_at, id) < (..., ...)] *)
  | TagsContain (tag : string)                        (** PostgreSQL array containment *)
  | TagsTextContains (tag : string).                  (** [tags.cast(String).contains(tag)] *)

Record select : Type := mkSelect {
  s_where : list condition;
  s_newest_first : bool;  (** ORDER BY created_at DESC, id DESC *)
  s_limit : option Z;
  s_offset : Z
}.
Definition select_all : select := mkSelect [] false None 0.
Definition where_ (c : condition) (q : select) : select := mkSelect (s_where q ++ [c]) (s_newest_first q) (s_limit q) (s_offset q).
Definition order_by_newest (q : select) : select := mkSelect (s_where q) true (s_limit q) (s_offset q).
Definition limit_to (n : Z) (q : select) : select := mkSelect (s_where q) (s_newest_first q) (Some n) (s_offset q).
Definition offset_by (n : Z) (q : select) : select := mkSelect (s_where q) (s_newest_first q) (s_limit q) n.

(** The order of the keyset: [a] is listed before [b]. *)
Definition key_before (a b : CatalogItem) : Prop :=
  ci_created_at b < ci_created_at a \/ ci_created_at b = ci_created_at a /\ ci_id b < ci_id a.
Definition key_leb (a b : CatalogItem) : bool :=
  (ci_created_at b <? ci_created_at a) || ((ci_created_at b =? ci_created_at a) && (ci_id b <=? ci_id a)).
Definition below (t i : Z) (r : CatalogItem) : bool :=
  (ci_created_at r <? t) || ((ci_created_at r =? t) && (ci_id r <? i)).

(** Rows [offset] to [offset + limit] of a list. *)
Definition window {A} (q : select) (l : list A) : list A :=
  let l := drop (Z.to_nat (s_offset q)) l in
  match s_limit q with Some n => take (Z.to_nat n) l | None => l end.
(** Parameters that every driver can bind to the key columns. *)
Definition bindable (c : condition) : bool :=
  match c with KeysetBefore d (JInt _) => bool_decide (dt_offset d = Some 0) | KeysetBefore _ _ => false | _ => true end.

Class SqlEngine : Type := {
  holds : condition -> CatalogItem -> bool;
  tags_text : list string -> string;   (** the stored JSON text of a tag list *)
  execute : select -> list CatalogItem -> result (list CatalogItem);
  read_time : Z -> datetime;           (** how the driver returns a stored instant *)
  law_keyset d i r : dt_offset d = Some 0 -> holds (KeysetBefore d (JInt i)) r = below (dt_local d) i r;
  law_tags tag r : holds (TagsContain tag) r = bool_decide (tag ∈ ci_tags r);
  law_tags_text tag r :
    holds (TagsTextContains tag) r = like ("%"%char :: chars tag ++ ["%"%char]) (chars (tags_text (ci_tags r)));
  law_execute q table : forallb bindable (s_where q) = true -> 0 <= s_offset q -> default 0 (s_limit q) >= 0 ->
    exists rows, execute q table = Ok (window q rows) /\
      rows ≡ₚ filter (fun r => forallb (fun c => holds c r) (s_where q) = true) table /\
      (s_newest_first q = true -> StronglySorted (fun a b => key_leb a b = true) rows);
  law_read_time t : in_range t = true -> as_utc (read_time t) = Ok (utc t)
}.

Section Catalog.
Context {CT : CursorText} {SE : SqlEngine}.

(** ** [SqlAlchemyCatalogRepository] *)

Definition get_paginated_items_keyset (limit : Z) (cursor_data : option (datetime * json)) (table : list CatalogItem)
    : result (list CatalogItem * bool * option string) :=
  let query := match cursor_data with
               | Some (cursor_created_at, cursor_id) => where_ (KeysetBefore cursor_created_at cursor_id) select_all
               | None => select_all
               end in
  let query := limit_to (limit + 1) (order_by_newest query) in
  let? fetched_rows := execute query table in
  let has_more := limit <? Z.of_nat (length fetched_rows) in
  let items := py_slicez fetched_rows 0 limit in
  match has_more, last items with
  | true, Some last_item =>
      let? next_cursor := encode_cursor (read_time (ci_created_at last_item)) (IdInt (ci_id last_item)) in
      Ok (items, has_more, Some next_cursor)
  | _, _ => Ok (items, has_more, None)
  end.

Definition get_paginated_items_offset (limit offset : Z) (table : list CatalogItem) : result (list CatalogItem) :=
  execute (offset_by offset (limit_to limit (order_by_newest select_all))) table.

(** The row is added, committed and read back; the database assigns the identifier and
    rejects a second row with the same SKU. *)
Definition create_item (new_id now : Z) (item : CatalogItemCreate) : M (list CatalogItem) CatalogItem :=
  let new_item := mkItem new_id (ic_sku item) (ic_name item) (ic_category item) (ic_price item) (ic_barcode item)
                    (ic_metadata_json item) (ic_tags item) now in
  let! taken := gets (existsb (fun r => bool_decide (ci_sku r = ic_sku item))) in
  raise_if taken IntegrityError ;;;
  modify (fun table => table ++ [new_item]) ;;;
  ret new_item.

Definition search_by_tag (is_pg : bool) (tag : string) (table : list CatalogItem) : result (list CatalogItem) :=
  let query := if is_pg then where_ (TagsContain tag) select_all else where_ (TagsTextContains tag) select_all in
  execute query table.

(** ** Endpoints *)

Record CursorPage : Type := mkPage {
  pg_items : list CatalogItem; pg_next_cursor : option string; pg_has_more : bool; pg_total_returned : Z }.

Definition create_catalog_item_endpoint (new_id now : Z) (item_in : CatalogItemCreate) : M (list CatalogItem) CatalogItem :=
  if negb (item_create_valid item_in) then raise PydanticValidationError else create_item new_id now item_in.

Definition get_catalog_items_keyset_endpoint (cursor : option string) (limit : Z) (table : list CatalogItem) : result CursorPage :=
  if negb ((1 <=? limit) && (limit <=? 100)) then Raise PydanticValidationError
  else
    let? cursor_data := match cursor with
                        | Some token => let? d := decode_cursor token in Ok (Some d)
                        | None => Ok None
                        end in
    let? '(items, has_more, next_cursor) := get_paginated_items_keyset limit cursor_data table in
    Ok (mkPage items next_cursor has_more (Z.of_nat (length items))).

Definition get_catalog_items_offset_endpoint (offset limit : Z) (table : list CatalogItem) : result (list CatalogItem * Z) :=
  if negb ((0 <=? offset) && (1 <=? limit) && (limit <=? 100)) then Raise PydanticValidationError
  else let? items := get_paginated_items_offset limit offset table in Ok (items, Z.of_nat (length items)).

Definition search_catalog_by_tags_endpoint {Report} (plan_report : result Report) (is_pg : bool) (tag : string)
    (table : list CatalogItem) : result (string * list CatalogItem * Z * Report) :=
  if (String.length tag =? 0)%nat then Raise PydanticValidationError
  else
    let? items := search_by_tag is_pg tag table in
    let? report := plan_report in
    Ok (tag, items, Z.of_nat (length items), report).

(** A client that fetches page after page: the table it reads may be another one at
    each request. *)
Fixpoint follow (limit : Z) (cursor : option string) (tables : list (list CatalogItem)) : result (list CatalogItem * bool) :=
  match tables with
  | [] => Ok ([], false)
  | table :: tables' =>
      let? page := get_catalog_items_keyset_endpoint cursor limit table in
      match pg_next_cursor page with
      | None => Ok (pg_items page, true)
      | Some token =>
          let? '(rest, finished) := follow limit (Some token) tables' in Ok (pg_items page ++ rest, finished)
      end
  end.
End Catalog.

(** ** The keyset order *)

Lemma key_leb_before a b : key_leb a b = true <-> key_before a b \/ (ci_created_at a = ci_created_at b /\ ci_id a = ci_id b).
Proof. unfold key_leb, key_before. rewrite orb_true_iff, andb_true_iff, !Z.ltb_lt, Z.eqb_eq, Z.leb_le. lia. Qed.
Lemma below_before r a : below (ci_created_at a) (ci_id a) r = true <-> key_before a r.
Proof. unfold below, key_before. rewrite orb_true_iff, andb_true_iff, !Z.ltb_lt, Z.eqb_eq. lia. Qed.
Lemma key_before_trans a b c : key_before a b -> key_before b c -> key_before a c.
Proof. unfold key_before. lia. Qed.
Lemma key_before_irrefl a : ~ key_before a a.
Proof. unfold key_before. lia. Qed.

(** Tables with unique identifiers and representable timestamps. *)
Definition table_ok (table : list CatalogItem) : Prop :=
  NoDup (ci_id <$> table) /\ Forall (fun r => in_range (ci_created_at r) = true) table.

(** Unique identifiers make the order of a sorted table strict. *)
Lemma sorted_strict rows : NoDup (ci_id <$> rows) -> StronglySorted (fun a b => key_leb a b = true) rows ->
  StronglySorted key_before rows.
Proof.
  intros Hnd Hs. induction Hs as [|a rows Hs IH Ha]; [constructor|]. cbn in Hnd. apply NoDup_cons in Hnd as [Hni Hnd].
  constructor; [by apply IH|]. rewrite Forall_forall in *. intros b Hb. destruct (proj1 (key_leb_before a b) (Ha _ Hb)) as [|[_ E]]; [done|].
  exfalso. apply Hni. rewrite E. by apply list_elem_of_fmap_2.
Qed.
Lemma sorted_nodup rows : StronglySorted key_before rows -> NoDup rows.
Proof.
  induction 1 as [|a rows Hs IH Ha]; constructor; [|done]. intros Hin. rewrite Forall_forall in Ha.
  by apply (key_before_irrefl a), Ha.
Qed.
Lemma sorted_app l1 l2 : StronglySorted key_before l1 -> StronglySorted key_before l2 ->
  (forall a b, a ∈ l1 -> b ∈ l2 -> key_before a b) -> StronglySorted key_before (l1 ++ l2).
Proof.
  induction 1 as [|a l1 Hs IH Ha]; cbn; [done|]. intros H2 H. constructor; [apply IH; [done|set_solver]|].
  rewrite Forall_app. split; [done|]. rewrite Forall_forall. set_solver.
Qed.

(** The elements of a sorted list after its last taken one are those below it. *)
Lemma sorted_split n rows a : StronglySorted key_before rows -> last (take n rows) = Some a ->
  forall r, r ∈ rows -> (key_before a r <-> r ∈ drop n rows) /\ (r ∈ take n rows -> r = a \/ key_before r a).
Proof.
  intros Hs Hl r Hr. apply last_Some in Hl as [l Hl].
  assert (rows = l ++ a :: drop n rows) as E by (by rewrite <-(take_drop n rows) at 1; rewrite Hl, <-app_assoc).
  rewrite Hl. rewrite E in Hs, Hr. clear E Hl. induction l as [|x l IH]; cbn in *.
  - apply StronglySorted_inv in Hs as [_ Ha]. rewrite Forall_forall in Ha. apply elem_of_cons in Hr as [->|Hr].
    + split; [|set_solver]. split; [by intros ?%key_before_irrefl|auto].
    + split; [split; auto|set_solver].
  - apply StronglySorted_inv in Hs as [Hs Hx]. rewrite Forall_forall in Hx.
    assert (key_before x a) as Hxa by (apply Hx; set_solver). apply elem_of_cons in Hr as [->|Hr]; [|destruct (IH Hs Hr); set_solver].
    split; [|set_solver]. split; [intros H; destruct (key_before_irrefl a); by eapply key_before_trans|].
    intros H. destruct (key_before_irrefl x). apply Hx. set_solver.
Qed.

(** ** One page *)

Section Pages.
Context {CT : CursorText} {SE : SqlEngine}.

Definition anchor : Type := option (Z * Z).
Definition after (a : anchor) (r : CatalogItem) : Prop := match a with None => True | Some (t, i) => below t i r = true end.
#[local] Instance after_dec a r : Decision (after a r).
Proof. destruct a as [[t i]|]; cbn; apply _. Defined.
(** The token stands for the anchor. *)
Definition token_of (a : anchor) (cursor : option string) : Prop :=
  match a, cursor with
  | None, None => True
  | Some (t, i), Some token => decode_cursor token = Ok (utc t, JInt i)
  | _, _ => False
  end.

Lemma keyset_rows a cursor_data limit table : 1 <= limit -> table_ok table ->
  cursor_data = (match a with None => None | Some (t, i) => Some (utc t, JInt i) end) ->
  exists rows, execute (limit_to (limit + 1) (order_by_newest
      match cursor_data with Some (t, i) => where_ (KeysetBefore t i) select_all | None => select_all end)) table
    = Ok (take (Z.to_nat (limit + 1)) rows) /\ rows ≡ₚ filter (after a) table /\ StronglySorted key_before rows.
Proof.
  intros Hl [Hnd _] ->. assert (forall rows P `{forall r, Decision (P r)}, rows ≡ₚ filter P table ->
    StronglySorted (fun a b => key_leb a b = true) rows -> StronglySorted key_before rows) as Hstrict.
  { intros rows P ? Hp Hs. apply sorted_strict; [|done]. rewrite Hp. apply (sublist_NoDup _ (ci_id <$> table)); [done|].
    apply fmap_sublist, sublist_filter. }
  destruct a as [[t i]|].
  - destruct (law_execute (limit_to (limit + 1) (order_by_newest (where_ (KeysetBefore (utc t) (JInt i)) select_all))) table)
      as (rows & He & Hp & Hs); [done|cbn; lia..|]. exists rows. rewrite He. split; [done|].
    assert (rows ≡ₚ filter (after (Some (t, i))) table) as Hp'.
    { rewrite Hp. apply Permutation_refl'. apply list_filter_iff. intros r. cbn. by rewrite andb_true_r, law_keyset. }
    split; [done|]. eapply Hstrict; [exact Hp'|by apply Hs].
  - destruct (law_execute (limit_to (limit + 1) (order_by_newest select_all)) table)
      as (rows & He & Hp & Hs); [done|cbn; lia..|]. exists rows. rewrite He. split; [done|].
    assert (rows ≡ₚ filter (after None) table) as Hp' by (rewrite Hp; apply Permutation_refl', list_filter_iff; done).
    split; [done|]. eapply Hstrict; [exact Hp'|by apply Hs].
Qed.

Lemma after_trans a b r : after a b -> key_before b r -> after a r.
Proof. destruct a as [[t i]|]; cbn; [|done]. unfold below, key_before. rewrite !orb_true_iff, !andb_true_iff, !Z.ltb_lt, !Z.eqb_eq. lia. Qed.

(** What one request answers: the page is the first [limit] rows after the anchor, there
    is a next cursor exactly when more rows follow, and it stands for the last row. *)
Lemma keyset_page a cursor limit table : 1 <= limit <= 100 -> table_ok table -> token_of a cursor ->
  exists rows next, rows ≡ₚ filter (after a) table /\ StronglySorted key_before rows /\
    let items := take (Z.to_nat limit) rows in
    get_catalog_items_keyset_endpoint cursor limit table
      = Ok (mkPage items next (limit <? Z.of_nat (length rows)) (Z.of_nat (length items))) /\
    match next with
    | None => Z.of_nat (length rows) <= limit
    | Some token => limit < Z.of_nat (length rows) /\
        exists r, last items = Some r /\ token_of (Some (ci_created_at r, ci_id r)) (Some token)
    end.
Proof.
  intros Hl Ht Ha.
  assert (exists cd, (match cursor with Some token => let? d := decode_cursor token in Ok (Some d) | None => Ok None end) = Ok cd /\
    cd = match a with None => None | Some (t, i) => Some (utc t, JInt i) end) as (cd & Hcd & Ecd).
  { destruct a as [[t i]|], cursor; cbn in *; try done; [rewrite Ha|]; eauto. }
  destruct (keyset_rows a cd limit table ltac:(lia) Ht Ecd) as (rows & He & Hp & Hs). exists rows.
  unfold get_catalog_items_keyset_endpoint. replace ((1 <=? limit) && (limit <=? 100)) with true by lia. cbn [negb].
  rewrite Hcd. cbn [rbind]. unfold get_paginated_items_keyset. rewrite He. cbn [rbind].
  rewrite py_slicez_nonneg by lia. rewrite length_take. unfold py_slice. rewrite drop_0, take_take, (Nat.min_l (Z.to_nat limit)) by lia.
  destruct (Z.ltb_spec limit (Z.of_nat (length rows))) as [Hlt|Hle].
  - assert (limit < Z.of_nat (Nat.min (Z.to_nat (limit + 1)) (length rows))) as Hm by lia. apply Z.ltb_lt in Hm as ->. destruct (last (take (Z.to_nat limit) rows)) as [r|] eqn:El.
    2: { apply last_None in El. apply (f_equal length) in El. rewrite length_take in El. cbn in El. lia. }
    assert (r ∈ table) as Hr.
    { apply last_Some_elem_of in El. apply elem_of_take in El as (j & Hj & _). apply list_elem_of_lookup_2 in Hj.
      rewrite Hp in Hj. by apply list_elem_of_filter in Hj as [_ ?]. }
    destruct Ht as [_ Ht]. rewrite Forall_forall in Ht. specialize (Ht _ Hr).
    assert (exists token, encode_cursor (read_time (ci_created_at r)) (IdInt (ci_id r)) = Ok token) as [token Et].
    { unfold encode_cursor. rewrite law_read_time by done. cbn. eauto. }
    rewrite Et. cbn [rbind]. exists (Some token). split_and!; [done..|].
    exists r. split; [done|]. by apply (decode_encode _ _ _ _ (law_read_time _ Ht) Ht Et).
  - assert (Z.of_nat (Nat.min (Z.to_nat (limit + 1)) (length rows)) <= limit) as Hm by lia. apply Z.ltb_ge in Hm as ->. exists None. by destruct (last (take (Z.to_nat limit) rows)).
Qed.

Lemma follow_spec limit tables : 1 <= limit <= 100 -> Forall table_ok tables ->
  forall a cursor, token_of a cursor ->
  exists out finished, follow limit cursor tables = Ok (out, finished) /\
    StronglySorted key_before out /\ Forall (after a) out /\ (forall r, r ∈ out -> exists t, t ∈ tables /\ r ∈ t) /\
    (finished = true -> forall r, after a r -> Forall (elem_of r) tables -> r ∈ out) /\
    (finished = false -> Z.of_nat (length out) = limit * Z.of_nat (length tables)).
Proof.
  intros Hl Ht. induction Ht as [|table tables Htab _ IH]; intros a cursor Ha.
  { exists [], false. split_and!; try done; [constructor|set_solver|cbn; lia]. }
  destruct (keyset_page a cursor limit table Hl Htab Ha) as (rows & next & Hp & Hs & He & Hn).
  cbn [follow]. rewrite He. cbn [rbind pg_next_cursor pg_items]. set (items := take _ rows) in *.
  assert (forall r, r ∈ items -> after a r /\ r ∈ table) as Hitems.
  { intros r Hr. apply elem_of_take in Hr as (j & Hj & _). apply list_elem_of_lookup_2 in Hj.
    rewrite Hp in Hj. by apply list_elem_of_filter in Hj. }
  destruct next as [token|].
  - destruct Hn as (Hlt & l & Hlast & Htok). destruct (IH _ _ Htok) as (rest & fin & -> & H1 & H2 & H3 & H4 & H5).
    cbn [rbind]. exists (items ++ rest), fin. rewrite Forall_forall in H2.
    assert (l ∈ items) as Hli by by apply last_Some_elem_of.
    pose proof (sorted_split _ _ _ Hs Hlast) as Hsplit.
    assert (forall r, r ∈ rows -> r ∈ items -> r = l \/ key_before r l) as Hle by (intros r ? ?; by apply (Hsplit r)).
    assert (items ⊆ rows) as Hsub by (intros r Hr; by apply elem_of_take in Hr as (j & ?%list_elem_of_lookup_2 & _)).
    split_and!; [done| | | | |].
    + apply sorted_app; [by apply StronglySorted_take|done|]. intros x y Hx Hy. apply H2 in Hy. cbn in Hy. apply below_before in Hy.
      destruct (Hle x) as [->|]; [set_solver..|done|]. by eapply key_before_trans.
    + rewrite Forall_app, !Forall_forall. split; [naive_solver|]. intros r Hr%H2. cbn in Hr. apply below_before in Hr.
      eapply after_trans; [|done]. by apply Hitems.
    + intros r [Hr|Hr]%elem_of_app; [exists table; set_solver|]. destruct (H3 r Hr) as (t & ? & ?). exists t. set_solver.
    + intros Hf r Har Hr. apply Forall_cons in Hr as [Hrt Hr].
      assert (r ∈ rows) as Hrr by (rewrite Hp; by apply list_elem_of_filter).
      destruct (Hsplit r Hrr) as [Hd _]. rewrite <-(take_drop (Z.to_nat limit) rows) in Hrr.
      apply elem_of_app in Hrr as [?|Hrr]; [set_solver|]. apply elem_of_app. right. apply H4; [done| |done].
      cbn. by apply below_before, Hd.
    + intros Hf. rewrite length_app. unfold items. rewrite length_take. cbn [length]. specialize (H5 Hf). lia.
  - exists items, true. assert (items = rows) as Ei by (apply take_ge; lia). split_and!; try done.
    + by apply StronglySorted_take.
    + apply Forall_forall. naive_solver.
    + intros r Hr. exists table. set_solver.
    + intros _ r Har Hr. apply Forall_cons in Hr as [Hr _]. rewrite Ei, Hp. by apply list_elem_of_filter.
Qed.

Lemma follow_exact limit tables : 1 <= limit <= 100 -> Forall table_ok tables ->
  exists out finished, follow limit None tables = Ok (out, finished) /\
    StronglySorted key_before out /\ NoDup out /\
    (forall r, r ∈ out -> exists t, t ∈ tables /\ r ∈ t) /\
    (finished = true -> forall r, Forall (elem_of r) tables -> r ∈ out) /\
    (finished = false -> Z.of_nat (length out) = limit * Z.of_nat (length tables)).
Proof.
  intros Hl Ht. destruct (follow_spec limit tables Hl Ht None None I) as (out & fin & He & H1 & _ & H3 & H4 & H5).
  exists out, fin. split_and!; auto using sorted_nodup. intros Hf r Hr. by apply H4.
Qed.

(** C32: Keyset pagination skips and repeats nothing.  A client follows the next cursors
    while the table may change between its requests: the rows it receives are strictly
    descending in (created_at, id), so none comes twice; each is a row of some table it
    read; when a page has no next cursor, every row that was in all of the tables has
    been received; and as long as there are next cursors the pages are full. *)
Theorem keyset_pagination_exact limit tables : 1 <= limit <= 100 -> Forall table_ok tables ->
  exists out finished, follow limit None tables = Ok (out, finished) /\
    StronglySorted key_before out /\ NoDup out /\
    (forall r, r ∈ out -> exists t, t ∈ tables /\ r ∈ t) /\
    (finished = true -> forall r, Forall (elem_of r) tables -> r ∈ out) /\
    (finished = false -> Z.of_nat (length out) = limit * Z.of_nat (length tables)).
Proof. apply follow_exact. Qed.

(** On a table that does not change, enough requests return the whole table in order. *)
Theorem keyset_enumerates_table limit n table : 1 <= limit <= 100 -> table_ok table -> (length table < n)%nat ->
  exists out, follow limit None (replicate n table) = Ok (out, true) /\ out ≡ₚ table /\ StronglySorted key_before out.
Proof.
  intros Hl Ht Hn. destruct (follow_exact limit (replicate n table) Hl) as (out & fin & He & H1 & H2 & H3 & H4 & H5);
    [by apply Forall_replicate|]. exists out.
  assert (out ⊆ table) as Hsub by (intros r (t & [-> _]%elem_of_replicate & ?)%H3; done).
  assert (length out <= length table)%nat as Hlen by (apply submseteq_length, NoDup_submseteq; done).
  destruct fin; [|specialize (H5 eq_refl); rewrite length_replicate in H5; nia].
  split; [done|]. split; [|done]. destruct Ht as [Hnd _]. apply NoDup_fmap_1 in Hnd. apply NoDup_Permutation; [done..|].
  intros r. split; [apply Hsub|]. intros Hr. apply H4; [done|]. by apply Forall_replicate.
Qed.
End Pages.

(** ** The offset pages *)

Section Offset.
Context {CT : CursorText} {SE : SqlEngine}.

Lemma offset_rows limit offset table : 0 <= limit -> 0 <= offset -> table_ok table ->
  exists rows, get_paginated_items_offset limit offset table = Ok (take (Z.to_nat limit) (drop (Z.to_nat offset) rows)) /\
    rows ≡ₚ table /\ StronglySorted key_before rows.
Proof.
  intros Hl Ho [Hnd _]. destruct (law_execute (offset_by offset (limit_to limit (order_by_newest select_all))) table)
    as (rows & He & Hp & Hs); [done|cbn; lia..|]. exists rows. split; [exact He|].
  rewrite filter_all in Hp by (by apply Forall_true). split; [done|]. apply sorted_strict; [by rewrite Hp|by apply Hs].
Qed.
Lemma rows_unique l1 l2 : StronglySorted key_before l1 -> StronglySorted key_before l2 -> l1 ≡ₚ l2 -> l1 = l2.
Proof.
  apply StronglySorted_unique_strong. intros x y _ _ H1 H2. destruct (key_before_irrefl x). by eapply key_before_trans.
Qed.

(** Pages by offset over an unchanging table are slices of the order the keyset pages
    enumerate. *)
Theorem offset_slices_keyset_order limit n offset k table :
  1 <= limit <= 100 -> table_ok table -> (length table < n)%nat -> 0 <= offset -> 1 <= k <= 100 ->
  exists out, follow limit None (replicate n table) = Ok (out, true) /\
    get_catalog_items_offset_endpoint offset k table
      = Ok (take (Z.to_nat k) (drop (Z.to_nat offset) out), Z.of_nat (length (take (Z.to_nat k) (drop (Z.to_nat offset) out)))).
Proof.
  intros Hl Ht Hn Ho Hk. destruct (keyset_enumerates_table limit n table Hl Ht Hn) as (out & He & Hp & Hs).
  exists out. split; [done|]. destruct (offset_rows k offset table) as (rows & Hr & Hpr & Hsr); [lia..|done|].
  assert (rows = out) as -> by (apply rows_unique; [done..|]; by rewrite Hp).
  unfold get_catalog_items_offset_endpoint. replace ((0 <=? offset) && (1 <=? k) && (k <=? 100)) with true by lia.
  cbn [negb]. by rewrite Hr.
Qed.

(** But when a row is added in front between two requests, the second page by offset
    begins with the row that ended the first. *)
Theorem offset_repeats_after_insert limit offset x table :
  1 <= limit -> 0 <= offset -> table_ok (x :: table) -> Forall (key_before x) table ->
  offset + limit <= Z.of_nat (length table) ->
  exists page1 page2 r, get_paginated_items_offset limit offset table = Ok page1 /\
    get_paginated_items_offset limit (offset + limit) (x :: table) = Ok page2 /\
    last page1 = Some r /\ head page2 = Some r.
Proof.
  intros Hl Ho Ht Hx Hlen. assert (table_ok table) as Ht'.
  { destruct Ht as [Hnd Hf]. apply Forall_cons in Hf as [_ Hf]. cbn in Hnd. by apply NoDup_cons in Hnd as [_ ?]. }
  destruct (offset_rows limit offset table) as (rows & H1 & Hp & Hs); [lia..|done|].
  destruct (offset_rows limit (offset + limit) (x :: table)) as (rows' & H2 & Hp' & Hs'); [lia..|done|].
  assert (rows' = x :: rows) as ->.
  { apply rows_unique; [done| |by rewrite Hp', Hp]. constructor; [done|]. by rewrite Hp. }
  assert (length rows = length table) as El by by rewrite Hp.
  destruct (rows !! (Z.to_nat (offset + limit) - 1)%nat) as [r|] eqn:Er; [|apply lookup_ge_None in Er; lia].
  do 2 eexists. exists r. split; [exact H1|]. split; [exact H2|]. split.
  - rewrite last_lookup, length_take, length_drop, lookup_take_lt, lookup_drop by lia.
    rewrite <-Er. f_equal. lia.
  - rewrite head_lookup, lookup_take_lt, lookup_drop, <-Er by lia.
    replace (Z.to_nat (offset + limit) + 0)%nat with (Datatypes.S (Z.to_nat (offset + limit) - 1)) by lia. done.
Qed.

(** ** Tags *)

(** On PostgreSQL the search returns exactly the rows that carry the tag; on SQLite the
    rows whose stored tag list contains it as text. *)
Theorem search_by_tag_correct (is_pg : bool) tag table : "%"%char ∉ chars tag -> "_"%char ∉ chars tag ->
  exists rows, search_by_tag is_pg tag table = Ok rows /\
    rows ≡ₚ filter (fun r => (if is_pg then bool_decide (tag ∈ ci_tags r)
                              else py_in (py_lower tag) (py_lower (tags_text (ci_tags r)))) = true) table.
Proof.
  intros Hp Hu. unfold search_by_tag. destruct is_pg.
  - destruct (law_execute (where_ (TagsContain tag) select_all) table) as (rows & He & Hr & _); [done|cbn; lia..|].
    exists rows. rewrite He. split; [done|]. rewrite Hr. apply Permutation_refl', list_filter_iff. intros r. cbn.
    by rewrite andb_true_r, law_tags.
  - destruct (law_execute (where_ (TagsTextContains tag) select_all) table) as (rows & He & Hr & _); [done|cbn; lia..|].
    exists rows. rewrite He. split; [done|]. rewrite Hr. apply Permutation_refl', list_filter_iff. intros r. cbn.
    rewrite andb_true_r, law_tags_text, like_contains by done. unfold py_in, py_lower. by rewrite !chars_of_chars.
Qed.

(** Creating an item keeps SKUs unique and adds exactly the given row, or raises and
    changes nothing. *)
Theorem create_catalog_item_correct new_id now item table :
  match create_catalog_item_endpoint new_id now item table with
  | (Ok r, table') => table' = table ++ [r] /\ ci_id r = new_id /\ ci_sku r = ic_sku item /\
      (NoDup (ci_sku <$> table) -> NoDup (ci_sku <$> table'))
  | (Raise e, table') => table' = table /\
      (e = PydanticValidationError /\ item_create_valid item = false \/
       e = IntegrityError /\ exists r, r ∈ table /\ ci_sku r = ic_sku item)
  end.
Proof.
  unfold create_catalog_item_endpoint. destruct (item_create_valid item); cbn [negb]; [|cbn; auto].
  unfold create_item. autorewrite with pym. destruct (existsb _ table) eqn:E.
  - cbn. split; [done|]. right. split; [done|]. apply existsb_exists in E as (r & Hr & E).
    exists r. split; [by apply list_elem_of_In|]. by apply bool_decide_eq_true in E.
  - cbn. split_and!; [done..|]. intros Hnd. rewrite fmap_app. apply NoDup_app. split; [done|]. split; [|apply NoDup_singleton].
    cbn. intros s Hs ->%list_elem_of_singleton. apply list_elem_of_fmap in Hs as (r & Es & Hr).
    apply not_true_iff_false in E. apply E. apply existsb_exists. exists r. split; [by apply list_elem_of_In|].
    by apply bool_decide_eq_true.
Qed.
End Offset.

(** ** A reference engine and the witnesses *)

Definition quote (s : string) : string := String (chr 34) (s +:+ String (chr 34) "").
Fixpoint ref_tags_items (l : list string) : string :=
  match l with [] => "]" | [t] => quote t +:+ "]" | t :: l' => quote t +:+ ", " +:+ ref_tags_items l' end.
Definition ref_tags_text (l : list string) : string := "[" +:+ ref_tags_items l.
Definition ref_holds (c : condition) (r : CatalogItem) : bool :=
  match c with
  | KeysetBefore d (JInt i) => below (dt_local d) i r
  | KeysetBefore _ _ => false
  | TagsContain tag => bool_decide (tag ∈ ci_tags r)
  | TagsTextContains tag => like ("%"%char :: chars tag ++ ["%"%char]) (chars (ref_tags_text (ci_tags r)))
  end.
Definition ref_execute (q : select) (table : list CatalogItem) : result (list CatalogItem) :=
  let rows := filter (fun r => forallb (fun c => ref_holds c r) (s_where q) = true) table in
  Ok (window q (if s_newest_first q then stable_sort key_leb rows else rows)).
Lemma key_leb_total a b : key_leb a b = true \/ key_leb b a = true.
Proof. unfold key_leb. lia. Qed.
Lemma key_leb_trans a b c : key_leb a b = true -> key_leb b c = true -> key_leb a c = true.
Proof. unfold key_leb. lia. Qed.
#[global, program] Instance ref_engine : SqlEngine := {|
  holds := ref_holds; tags_text := ref_tags_text; execute := ref_execute; read_time := utc |}.
Next Obligation. done. Qed.
Next Obligation. done. Qed.
Next Obligation. done. Qed.
Next Obligation.
  intros q table _ _ _. eexists. split; [done|]. destruct (s_newest_first q); split; try done.
  - apply stable_sort_perm.
  - intros _. apply stable_sort_sorted; [apply key_leb_total|apply key_leb_trans].
Qed.
Next Obligation. intros t Ht. unfold as_utc, utc. cbn. by rewrite Z.sub_0_r, Ht. Qed.

Definition item (id t : Z) (tags : list string) : CatalogItem := mkItem id "sku" "name" "cat" 1 "bar" [] tags t.

Lemma keyset_pagination_exact_witness :
  let t := [item 1 10 []; item 2 20 []; item 3 20 []] in
  (1 <= 2 <= 100) /\ Forall table_ok [t; item 4 30 [] :: t] /\
  exists out finished, follow 2 None [t; item 4 30 [] :: t] = Ok (out, finished) /\
    StronglySorted key_before out /\ NoDup out.
Proof.
  intros t. assert (Forall table_ok [t; item 4 30 [] :: t]) as Ht.
  { repeat constructor; try (apply (bool_decide_unpack _); vm_compute; exact I); cbn; set_solver. }
  split; [lia|]. split; [exact Ht|].
  destruct (keyset_pagination_exact 2 [t; item 4 30 [] :: t] ltac:(lia) Ht) as (out & fin & H1 & H2 & H3 & _).
  exists out, fin. auto.
Defined.
Example keyset_pages_of_three :
  follow 2 None (replicate 2 [item 1 10 []; item 2 20 []; item 3 20 []])
  = Ok ([item 3 20 []; item 2 20 []; item 1 10 []], true).
Proof. vm_compute. reflexivity. Qed.

(** On SQLite a search for one tag finds an item that carries another. *)
Example sqlite_tag_search_matches_parts :
  search_by_tag false "art" [item 1 10 ["cart"]] = Ok [item 1 10 ["cart"]] /\
  search_by_tag true "art" [item 1 10 ["cart"]] = Ok [].
Proof. split; vm_compute; reflexivity. Qed.
