(* ===== verification/PyAst.v ===== *)
(** Python syntax trees as [app/core/architecture_linter.py] and
    [app/services/security_audit_service.py] inspect them: the node classes they look at
    with the fields they read, every other class as [Other] with its children; the
    traversals [ast.walk] (breadth first) and [ast.NodeVisitor] (depth first) of the
    standard library visit children in the order of their fields. *)

From S2P Require Import Prelude.

Inductive node : Type :=
  | Name (id : string)
  | StrConstant (value : string)
  | Attribute (value : node) (attr : string)
  | Call (func : node) (args keywords : list node) (lineno : Z)
  | Assign (targets : list node) (value : node) (lineno : Z)
  | Import (names : list string) (lineno : Z)
  | ImportFrom (module : option string) (names : list string) (level : nat) (lineno : Z)
  | If (test : node) (body orelse : list node) (lineno end_lineno : Z)
  | ClassDef (name : string) (bases keywords body decorators : list node) (lineno : Z)
  | FunctionDef (name : string) (args : node) (body others : list node) (lineno : Z)
  | Arguments (posonlyargs args others : list node)
  | Arg (arg : string) (annotation : option node)
  | Other (kids : list node).

(** [ast.iter_child_nodes] *)
Definition children (n : node) : list node :=
  match n with
  | Name _ | StrConstant _ | Import _ _ | ImportFrom _ _ _ _ => []
  | Attribute v _ => [v]
  | Call f a k _ => f :: a ++ k
  | Assign ts v _ => ts ++ [v]
  | If t b o _ _ => t :: b ++ o
  | ClassDef _ bs ks b ds _ => bs ++ ks ++ b ++ ds
  | FunctionDef _ a b o _ => a :: b ++ o
  | Arguments p a o => p ++ a ++ o
  | Arg _ ann => option_list ann
  | Other l => l
  end.

(** The tree in preorder, written by structural recursion. *)
Fixpoint subnodes (n : node) : list node :=
  let all := fix all (l : list node) := match l with [] => [] | x :: l' => subnodes x ++ all l' end in
  n :: match n with
       | Name _ | StrConstant _ | Import _ _ | ImportFrom _ _ _ _ => []
       | Attribute v _ => subnodes v
       | Call f a k _ => subnodes f ++ all a ++ all k
       | Assign ts v _ => all ts ++ subnodes v
       | If t b o _ _ => subnodes t ++ all b ++ all o
       | ClassDef _ bs ks b ds _ => all bs ++ all ks ++ all b ++ all ds
       | FunctionDef _ a b o _ => subnodes a ++ all b ++ all o
       | Arguments p a o => all p ++ all a ++ all o
       | Arg _ (Some ann) => subnodes ann
       | Arg _ None => []
       | Other l => all l
       end.

Lemma subnodes_unfold n : subnodes n = n :: (children n ≫= subnodes).
Proof.
  assert (forall l, (fix all (l : list node) := match l with [] => [] | x :: l' => subnodes x ++ all l' end) l = l ≫= subnodes) as Hall.
  { intros l. induction l as [|x l IH]; [done|]. cbn. by rewrite IH. }
  destruct n; cbn [subnodes children]; rewrite ?Hall, ?bind_cons, ?bind_app; cbn; rewrite ?app_nil_r; try done.
  destruct annotation; cbn; by rewrite ?app_nil_r.
Qed.

Definition tree_size (n : node) : nat := length (subnodes n).
Definition forest_size (l : list node) : nat := length (l ≫= subnodes).
Lemma tree_size_unfold n : tree_size n = Datatypes.S (forest_size (children n)).
Proof. unfold tree_size, forest_size. by rewrite subnodes_unfold. Qed.
Lemma forest_size_cons n l : forest_size (n :: l) = tree_size n + forest_size l.
Proof. unfold forest_size, tree_size. cbn. apply length_app. Qed.
Lemma forest_size_app l1 l2 : forest_size (l1 ++ l2) = forest_size l1 + forest_size l2.
Proof. unfold forest_size. by rewrite bind_app, length_app. Qed.
Lemma tree_size_elem n l : n ∈ l -> tree_size n <= forest_size l.
Proof. induction l as [|x l IH]; [by intros ?%elem_of_nil|]. rewrite forest_size_cons. intros [->|?%IH]%elem_of_cons; lia. Qed.

(** Induction over all subtrees. *)
Lemma node_children_ind (P : node -> Prop) : (forall n, Forall P (children n) -> P n) -> forall n, P n.
Proof.
  intros IH n. remember (tree_size n) as k eqn:E. revert n E. induction (lt_wf k) as [k _ IHk]. intros n ->. apply IH, Forall_forall.
  intros c Hc%tree_size_elem. eapply IHk; [|done]. rewrite (tree_size_unfold n). lia.
Qed.

(** [ast.walk]: a queue; the number of nodes is enough fuel. *)
Fixpoint walk_queue (fuel : nat) (todo : list node) : list node :=
  match fuel, todo with
  | Datatypes.S fuel', n :: todo' => n :: walk_queue fuel' (todo' ++ children n)
  | _, _ => []
  end.
Definition walk (n : node) : list node := walk_queue (tree_size n) [n].

Lemma walk_queue_perm fuel todo : forest_size todo <= fuel -> walk_queue fuel todo ≡ₚ todo ≫= subnodes.
Proof.
  revert todo. induction fuel as [|fuel IH]; intros [|n todo]; rewrite ?forest_size_cons, ?tree_size_unfold; intros H; [done|lia|done|].
  cbn [walk_queue]. rewrite IH by (rewrite forest_size_app; lia). rewrite bind_app, bind_cons, subnodes_unfold. cbn.
  by rewrite (Permutation_app_comm (todo ≫= subnodes)).
Qed.
Lemma walk_perm n : walk n ≡ₚ subnodes n.
Proof.
  unfold walk. rewrite walk_queue_perm by (rewrite forest_size_cons; cbn; lia). cbn. by rewrite app_nil_r.
Qed.

(** [NodeVisitor.visit] of a visitor whose methods do their work and then call
    [generic_visit]; the number of nodes is enough fuel. *)
Section Visitor.
Context {S : Type} (handle : node -> S -> S).
Fixpoint visit_fuel (fuel : nat) (n : node) (s : S) : S :=
  match fuel with
  | O => s
  | Datatypes.S fuel' => foldl (fun s c => visit_fuel fuel' c s) (handle n s) (children n)
  end.
Definition visit (n : node) (s : S) : S := visit_fuel (tree_size n) n s.

Lemma visit_fuel_preorder fuel n s : tree_size n <= fuel -> visit_fuel fuel n s = foldl (fun s n => handle n s) s (subnodes n).
Proof.
  revert n s. induction fuel as [|fuel IH]; intros n s; rewrite tree_size_unfold; [lia|]. intros H. rewrite subnodes_unfold. cbn.
  generalize (handle n s) as s'. assert (forall c, c ∈ children n -> tree_size c <= fuel) as Hc by (intros c ?%tree_size_elem; lia).
  clear H. induction (children n) as [|c l IHl]; intros s'; [done|]. cbn. rewrite foldl_app, IH by set_solver. apply IHl. set_solver.
Qed.
Lemma visit_preorder n s : visit n s = foldl (fun s n => handle n s) s (subnodes n).
Proof. by apply visit_fuel_preorder. Qed.
End Visitor.
