(* ===== verification/Linter.v ===== *)
(** The architecture linter: [app/core/architecture_linter.py].

    A source file is the parts of its path and its syntax tree, or no tree when it cannot
    be read or parsed; [ast.unparse] is a parameter.  The module graph maps a module to
    the set of modules it imports.  The recursion of the cycle search has fuel; one more
    than the number of modules is enough. *)

From S2P Require Import Prelude PyAst.

Local Open Scope Z_scope.

(** ** Strings *)

Definition dot : ascii := "."%char.
Definition py_split_dot (s : string) : list string := py_split dot s.
Definition join_dot (parts : list string) : string := String.concat "." parts.
(** [cur.rsplit(".", 1)[0]] when there is a dot. *)
Fixpoint before_last_dot (l : list ascii) : option (list ascii) :=
  match l with
  | [] => None
  | c :: l' => match before_last_dot l' with
               | Some w => Some (c :: w)
               | None => if decide (c = dot) then Some [] else None
               end
  end.

(** ** Data *)

Record ArchitectureViolation : Type := mkViolation {
  av_rule_id : string; av_rule_name : string; av_file_path : string; av_line_number : Z; av_message : string }.
Record ModuleImport : Type := mkImport {
  mi_source_module : string; mi_target_module : string; mi_target_symbol : option string;
  mi_line_number : Z; mi_is_type_checking : bool }.

(** [sf_above]: the parts of the path above the root package; [sf_rel]: the parts from
    the root package on, the last one a name ending in [.py]. *)
Record source_file : Type := mkFile { sf_above : list string; sf_rel : list string; sf_path : string; sf_tree : option node }.

Record linter : Type := mkLinter {
  modules : gset string; file_map : list (string * source_file); ast_cache : list (string * node);
  imports : list ModuleImport; graph : gmap string (gset string); is_indexed : bool }.
Definition linter_init : linter := mkLinter ∅ [] [] [] ∅ false.

Definition FORBIDDEN_TRANSPORT_SYMBOLS : list string := ["Request"; "Response"; "APIRouter"; "status"; "HTTPException"].
Definition CONCRETE_REPO_PREFIXES : list string := ["SqlAlchemy"; "InMemory"].

(** ** Indexing *)

Definition ignored (f : source_file) : bool :=
  bool_decide ("__pycache__" ∈ sf_above f ++ sf_rel f) || bool_decide (".pytest_cache" ∈ sf_above f ++ sf_rel f).
Definition module_name (f : source_file) : string :=
  let parent := removelast (sf_rel f) in
  match last (sf_rel f) with
  | Some "__init__.py" => join_dot parent
  | Some name => join_dot (parent ++ [of_chars (take (length (chars name) - 3) (chars name))])
  | None => ""
  end.
Definition discover (l : linter) (f : source_file) : linter :=
  if ignored f then l
  else mkLinter ({[module_name f]} ∪ modules l) (dict_set (file_map l) (module_name f) f) (ast_cache l) (imports l)
         (<[module_name f := ∅]> (graph l)) (is_indexed l).

(** [_resolve_module_target] *)
Fixpoint longest_known (known : gset string) (fuel : nat) (cur : list ascii) : option string :=
  match fuel with
  | O => None
  | S fuel' =>
      match cur with
      | [] => None
      | _ => if decide (of_chars cur ∈ known) then Some (of_chars cur)
             else match before_last_dot cur with Some shorter => longest_known known fuel' shorter | None => None end
      end
  end.
Definition import_candidate (source_mod import_name : string) (level : nat) : string :=
  match level with
  | O => import_name
  | _ => let parts := py_split_dot source_mod in
         let prefix := if (level <? length parts)%nat then take (length parts - level) parts else [] in
         join_dot (prefix ++ (if decide (import_name = "") then [] else [import_name]))
  end.
Definition resolve_module_target (known : gset string) (source_mod import_name : string) (level : nat) : option string :=
  let candidate := chars (import_candidate source_mod import_name level) in
  longest_known known (S (length candidate)) candidate.

(** [_extract_imports] *)
Definition type_checking_ranges (tree : node) : list (Z * Z) :=
  omap (fun n => match n with
                 | If (Name "TYPE_CHECKING") _ _ lineno end_lineno
                 | If (Attribute _ "TYPE_CHECKING") _ _ lineno end_lineno => Some (lineno, end_lineno)
                 | _ => None
                 end) (walk tree).
Definition in_type_checking (ranges : list (Z * Z)) (lineno : Z) : bool :=
  existsb (fun '(start, stop) => (start <=? lineno) && (lineno <=? stop)) ranges.
Definition add_edge (source target : string) (g : gmap string (gset string)) : gmap string (gset string) :=
  <[source := {[target]} ∪ default ∅ (g !! source)]> g.
Definition record_import (imp : ModuleImport) (resolved : option string) (l : linter) : linter :=
  let g := match resolved with
           | Some target => if decide (target <> "" /\ target <> mi_source_module imp /\ mi_is_type_checking imp = false)
                            then add_edge (mi_source_module imp) target (graph l) else graph l
           | None => graph l
           end in
  mkLinter (modules l) (file_map l) (ast_cache l) (imports l ++ [imp]) g (is_indexed l).
Definition or_else (resolved : option string) (name : string) : string :=
  match resolved with Some r => if decide (r = "") then name else r | None => name end.
Definition extract_node (source_mod : string) (ranges : list (Z * Z)) (l : linter) (n : node) : linter :=
  match n with
  | Import names lineno =>
      foldl (fun l name => record_import (mkImport source_mod name None lineno (in_type_checking ranges lineno))
                             (resolve_module_target (modules l) source_mod name 0) l) l names
  | ImportFrom module names level lineno =>
      let module_name := default "" module in
      let resolved := resolve_module_target (modules l) source_mod module_name level in
      foldl (fun l name => record_import (mkImport source_mod (or_else resolved module_name) (Some name) lineno
                                            (in_type_checking ranges lineno)) resolved l) l names
  | _ => l
  end.
Definition extract_imports (source_mod : string) (tree : node) (l : linter) : linter :=
  foldl (extract_node source_mod (type_checking_ranges tree)) l (walk tree).

Definition index_file (l : linter) (e : string * source_file) : linter :=
  match sf_tree e.2 with
  | Some tree =>
      extract_imports e.1 tree
        (mkLinter (modules l) (file_map l) (dict_set (ast_cache l) e.1 tree) (imports l) (graph l) (is_indexed l))
  | None => l
  end.
Definition index (files : list source_file) (l : linter) : linter :=
  if is_indexed l then l
  else
    let l1 := foldl discover linter_init files in
    let l2 := foldl index_file l1 (file_map l1) in
    mkLinter (modules l2) (file_map l2) (ast_cache l2) (imports l2) (graph l2) true.

(** ** Cycle search *)

Record dfs_state : Type := mkDfs { visited : gmap string Z; dfs_path : list string; cycles : list (list string) }.
Definition color (s : dfs_state) (m : string) : Z := default 0 (visited s !! m).
Definition sorted_set (x : gset string) : list string := stable_sort str_leb (elements x).
Definition successors (g : gmap string (gset string)) (m : string) : gset string := default ∅ (g !! m).
Definition index_in (m : string) (l : list string) : nat := default 0%nat (fst <$> list_find (fun x => x = m) l).

Section Dfs.
Context (g : gmap string (gset string)).
Definition enter (m : string) (s : dfs_state) : dfs_state := mkDfs (<[m := 1]> (visited s)) (dfs_path s ++ [m]) (cycles s).
Definition leave (m : string) (s : dfs_state) : dfs_state := mkDfs (<[m := 2]> (visited s)) (removelast (dfs_path s)) (cycles s).
Definition back_edge (m : string) (s : dfs_state) : dfs_state :=
  mkDfs (visited s) (dfs_path s) (cycles s ++ [drop (index_in m (dfs_path s)) (dfs_path s) ++ [m]]).
Fixpoint dfs (fuel : nat) (m : string) (s : dfs_state) : option dfs_state :=
  match fuel with
  | O => None
  | S fuel' =>
      let step (acc : option dfs_state) (neighbor : string) : option dfs_state :=
        match acc with
        | None => None
        | Some s => if color s neighbor =? 1 then Some (back_edge neighbor s)
                    else if color s neighbor =? 0 then dfs fuel' neighbor s
                    else Some s
        end in
      match foldl step (Some (enter m s)) (sorted_set (successors g m)) with
      | Some s' => Some (leave m s')
      | None => None
      end
  end.
Definition dfs_root (fuel : nat) (acc : option dfs_state) (m : string) : option dfs_state :=
  match acc with
  | None => None
  | Some s => if color s m =? 0 then dfs fuel m (mkDfs (visited s) [] (cycles s)) else Some s
  end.
Definition find_cycles (known : gset string) : option (list (list string)) :=
  let start := mkDfs (gset_to_gmap 0 known) [] [] in
  cycles <$> foldl (dfs_root (S (size known))) (Some start) (sorted_set known).
End Dfs.
Definition detect_cycles (files : list source_file) (l : linter) : option (list (list string)) * linter :=
  let l := index files l in (find_cycles (graph l) (modules l), l).

(** ** The rules *)

Section Rules.
(** [ast.unparse] *)
Context (unparse : node -> string).

Definition path_of (l : linter) (m : string) : string :=
  match dict_get (file_map l) m with Some f => sf_path f | None => m end.
Definition in_package (m package : string) : bool := py_startswith m (package +:+ ".") || bool_decide (m = package).

Definition inward_violation (l : linter) (imp : ModuleImport) : option ArchitectureViolation :=
  let target := mi_target_module imp in
  if in_package (mi_source_module imp) "app.routers" && in_package target "app.models" then
    let symbol_str := match mi_target_symbol imp with
                      | Some sym => if decide (sym = "") then "" else " (" +:+ sym +:+ ")"
                      | None => ""
                      end in
    Some (mkViolation "RULE-1-INWARD-BOUNDARY" "Routers Never Import Models" (path_of l (mi_source_module imp))
            (mi_line_number imp)
            ("Inward Boundary Violation: Router '" +:+ mi_source_module imp +:+ "' imports database model '" +:+ target
             +:+ "'" +:+ symbol_str +:+ ". Routers must operate strictly on schemas."))
  else None.
Definition check_rule_1_inward_boundary (l : linter) : list ArchitectureViolation := omap (inward_violation l) (imports l).

Definition transport_violation (l : linter) (imp : ModuleImport) : option ArchitectureViolation :=
  match mi_target_symbol imp with
  | Some sym =>
      if in_package (mi_source_module imp) "app.services" && py_startswith (mi_target_module imp) "fastapi"
         && bool_decide (sym ∈ FORBIDDEN_TRANSPORT_SYMBOLS)
      then Some (mkViolation "RULE-2-TRANSPORT-ISOLATION" "Services Never Import Transport Layer"
                   (path_of l (mi_source_module imp)) (mi_line_number imp)
                   ("Transport Isolation Violation: Service '" +:+ mi_source_module imp +:+ "' imports transport object 'fastapi."
                    +:+ sym +:+ "'. Services must remain protocol-agnostic and raise domain exceptions."))
      else None
  | None => None
  end.
Definition check_rule_2_transport_isolation (l : linter) : list ArchitectureViolation := omap (transport_violation l) (imports l).

Definition injected_argument (file_path class_name : string) (lineno : Z) (a : node) : list ArchitectureViolation :=
  match a with
  | Arg name annotation =>
      if py_in "repo" (py_lower name) || py_in "repository" (py_lower name) then
        let ann_str := match annotation with Some ann => unparse ann | None => "" end in
        omap (fun prefix =>
          if py_in prefix ann_str then
            Some (mkViolation "RULE-3-DEPENDENCY-INVERSION" "Services Inject Protocols Not Concrete Repos" file_path lineno
                    ("Dependency Inversion Violation: Class '" +:+ class_name +:+ "' injects concrete repository type '"
                     +:+ ann_str +:+ "' for argument '" +:+ name +:+ "'. Must inject a Protocol interface."))
          else None) CONCRETE_REPO_PREFIXES
      else []
  | _ => []
  end.
Definition class_injections (file_path class_name : string) (item : node) : list ArchitectureViolation :=
  match item with
  | FunctionDef "__init__" (Arguments _ args _) _ _ lineno => args ≫= injected_argument file_path class_name lineno
  | _ => []
  end.
Definition check_rule_3_dependency_inversion (l : linter) : list ArchitectureViolation :=
  ast_cache l ≫= fun '(mod_name, tree) =>
    if in_package mod_name "app.services" then
      walk tree ≫= fun n => match n with
                            | ClassDef name _ _ body _ _ => body ≫= class_injections (path_of l mod_name) name
                            | _ => []
                            end
    else [].

Definition cycle_violation (l : linter) (cycle : list string) : ArchitectureViolation :=
  mkViolation "RULE-4-STRICT-DAG" "Circular Dependency Elimination" (path_of l (default "" (head cycle))) 1
    ("Circular Dependency Cycle Detected: " +:+ String.concat " -> " cycle).
Definition check_rule_4_strict_dag (files : list source_file) (l : linter) : option (list ArchitectureViolation) * linter :=
  let '(found, l) := detect_cycles files l in (List.map (cycle_violation l) <$> found, l).

Definition base_name (b : node) : option string :=
  match b with Name id => Some id | Attribute _ attr => Some attr | _ => None end.
Definition schema_violation (mod_name file_path : string) (n : node) : option ArchitectureViolation :=
  match n with
  | ClassDef name bases _ _ _ lineno =>
      if existsb (fun b => bool_decide (b ∈ ["BaseModel"; "Base"; "DeclarativeBase"])) (omap base_name bases)
      then Some (mkViolation "RULE-5-SCHEMA-AUTONOMY" "Schemas Must Reside in app/schemas/" file_path lineno
                   ("Schema Autonomy Violation: Class '" +:+ name +:+ "' defines a schema or model in '" +:+ mod_name
                    +:+ "'. DTO schemas belong strictly in 'app/schemas/'."))
      else None
  | _ => None
  end.
Definition check_rule_5_schema_autonomy (l : linter) : list ArchitectureViolation :=
  ast_cache l ≫= fun '(mod_name, tree) =>
    if py_startswith mod_name "app.routers." || py_startswith mod_name "app.services."
    then omap (schema_violation mod_name (path_of l mod_name)) (walk tree) else [].

(** The rules call [index] first; after the first call it changes nothing. *)
Definition check_all (files : list source_file) (l : linter) : option (list ArchitectureViolation) * linter :=
  let l := index files l in
  let '(rule_4, l') := check_rule_4_strict_dag files l in
  (match rule_4 with
   | Some v4 => Some (check_rule_1_inward_boundary l ++ check_rule_2_transport_isolation l
                      ++ check_rule_3_dependency_inversion l ++ v4 ++ check_rule_5_schema_autonomy l')
   | None => None
   end, l').

(** [audit_code_snippet]; [tree] is the parsed snippet. *)
Definition snippet_violation (file_path : string) (n : node) : list ArchitectureViolation :=
  let is_router := py_in "routers" file_path in
  let is_service := py_in "services" file_path in
  match n with
  | Import names lineno =>
      omap (fun name =>
        if is_router && (py_in "models" name || py_in "app.models" name)
        then Some (mkViolation "RULE-1-INWARD-BOUNDARY" "Routers Never Import Models" file_path lineno
                     ("Router imports forbidden model '" +:+ name +:+ "'."))
        else None) names
  | ImportFrom module names _ lineno =>
      let m := default "" module in
      (if is_router && (py_in "models" m || py_in "app.models" m)
       then [mkViolation "RULE-1-INWARD-BOUNDARY" "Routers Never Import Models" file_path lineno
               ("Router imports forbidden model from '" +:+ m +:+ "'.")] else [])
      ++ (if is_service && py_in "fastapi" m then
            omap (fun name =>
              if decide (name ∈ FORBIDDEN_TRANSPORT_SYMBOLS)
              then Some (mkViolation "RULE-2-TRANSPORT-ISOLATION" "Services Never Import Transport Layer" file_path lineno
                           ("Service imports forbidden transport symbol '" +:+ name +:+ "'."))
              else None) names
          else [])
  | ClassDef name bases _ _ _ lineno =>
      let base_names := omap (fun b => match b with Name id => Some id | _ => None end) bases in
      if (is_router || is_service) && existsb (fun b => bool_decide (b ∈ ["BaseModel"; "Base"])) base_names
      then [mkViolation "RULE-5-SCHEMA-AUTONOMY" "Schemas Must Reside in app/schemas/" file_path lineno
              ("Model/schema '" +:+ name +:+ "' declared in '" +:+ file_path +:+ "'.")]
      else []
  | _ => []
  end.
Definition audit_code_snippet (tree : option node) (file_path : string) : result (list ArchitectureViolation) :=
  match tree with
  | Some tree => Ok (walk tree ≫= snippet_violation file_path)
  | None => Raise PySyntaxError
  end.
End Rules.

(** ** Correctness of the cycle search *)

Section DfsProof.
Context (g : gmap string (gset string)) (known : gset string).
Definition edge (x y : string) : Prop := y ∈ successors g x.
(** The graph mentions known modules only. *)
Definition graph_closed : Prop := forall x y, edge x y -> x ∈ known /\ y ∈ known.

Fixpoint linked (l : list string) : Prop :=
  match l with x :: ((y :: _) as l') => edge x y /\ linked l' | _ => True end.
(** A reported cycle: consecutive modules import each other and the last is the first. *)
Definition is_cycle (c : list string) : Prop :=
  linked c /\ exists x l, c = x :: l ++ [x].

Lemma linked_snoc l x : linked (l ++ [x]) <-> linked l /\ (forall p, last l = Some p -> edge p x).
Proof.
  induction l as [|a l IH]; [cbn; naive_solver|]. destruct l as [|b l]; [cbn; naive_solver|].
  change ((a :: b :: l) ++ [x]) with (a :: b :: (l ++ [x])). change (last (a :: b :: l)) with (last (b :: l)).
  change (edge a b /\ linked ((b :: l) ++ [x]) <-> (edge a b /\ linked (b :: l)) /\ (forall p, last (b :: l) = Some p -> edge p x)).
  rewrite IH. tauto.
Qed.
Lemma linked_drop n l : linked l -> linked (drop n l).
Proof. revert l. induction n as [|n IH]; intros [|a [|b l]] H; try done; [by destruct n|]. apply (IH (b :: l)). apply H. Qed.
Lemma linked_tc x l y : linked (x :: l ++ [y]) -> tc edge x y.
Proof.
  revert x. induction l as [|z l IH]; intros x; [cbn; intros [? _]; by apply tc_once|].
  intros [Hxz H]. eapply tc_l; [exact Hxz|by apply IH].
Qed.
Lemma is_cycle_tc c : is_cycle c -> exists x, tc edge x x.
Proof. intros (H & x & l & ->). exists x. by eapply linked_tc. Qed.

Lemma elem_sorted_set x y : y ∈ sorted_set x <-> y ∈ x.
Proof. unfold sorted_set. rewrite stable_sort_perm. apply elem_of_elements. Qed.

(** The invariant between the steps of the search: the gray modules are the path, which
    is linked; reported cycles are cycles; as long as none was reported, the black modules
    are closed under imports and none of them is on a cycle. *)
Record dfs_inv (s : dfs_state) : Prop := {
  di_range m : color s m = 0 \/ color s m = 1 \/ color s m = 2;
  di_gray m : color s m = 1 <-> m ∈ dfs_path s;
  di_nodup : NoDup (dfs_path s);
  di_linked : linked (dfs_path s);
  di_cycles : Forall is_cycle (cycles s);
  di_closed : cycles s = [] -> forall x y, color s x = 2 -> edge x y -> color s y = 2;
  di_acyclic : cycles s = [] -> forall x, color s x = 2 -> ~ tc edge x x
}.

(** What a call may change. *)
Record dfs_le (s s' : dfs_state) : Prop := {
  dl_path : dfs_path s' = dfs_path s;
  dl_black m : color s m = 2 -> color s' m = 2;
  dl_white m : color s' m = 0 -> color s m = 0;
  dl_cycles : cycles s' = [] -> cycles s = []
}.
#[local] Instance dfs_le_preorder : PreOrder dfs_le.
Proof.
  split; [intros s; by split|]. intros s1 s2 s3 [] []. split; [congruence|auto..].
Qed.

Definition whites_in (l : list string) (s : dfs_state) : nat := length (filter (fun m => color s m = 0) l).
Definition whites : dfs_state -> nat := whites_in (elements known).
Lemma whites_le l s s' : (forall m, color s' m = 0 -> color s m = 0) -> (whites_in l s' <= whites_in l s)%nat.
Proof.
  intros H. unfold whites_in. induction l as [|m l IH]; [done|]. rewrite !filter_cons. repeat case_decide; cbn; try lia.
  exfalso. auto.
Qed.
Lemma whites_lt l s s' m : (forall m, color s' m = 0 -> color s m = 0) -> m ∈ l -> color s m = 0 -> color s' m <> 0 ->
  (whites_in l s' < whites_in l s)%nat.
Proof.
  intros H Hm Hw Hg. unfold whites_in. induction l as [|x l IH]; [by apply elem_of_nil in Hm|].
  pose proof (whites_le l s s' H) as Hle. unfold whites_in in Hle. rewrite !filter_cons.
  apply elem_of_cons in Hm as [<-|Hm]; [rewrite decide_False, decide_True by done; cbn; lia|specialize (IH Hm)].
  repeat case_decide; cbn; try lia. exfalso; auto.
Qed.
Lemma color_insert m c v p cs x : color (mkDfs (<[m := c]> v) p cs) x = if decide (x = m) then c else color (mkDfs v p cs) x.
Proof. unfold color; cbn. destruct (decide (x = m)) as [->|]; [by rewrite lookup_insert_eq|by rewrite lookup_insert_ne]. Qed.

(** Entering a white module that the end of the path imports keeps the invariant. *)
Lemma dfs_enter s m : dfs_inv s -> color s m = 0 -> (forall p, last (dfs_path s) = Some p -> edge p m) ->
  dfs_inv (enter m s).
Proof.
  intros Hi Hm Hp. assert (forall x, color (enter m s) x = if decide (x = m) then 1 else color s x) as Hc by (intros; apply color_insert).
  assert (m ∉ dfs_path s) as Hni by (intros H%(di_gray _ Hi); lia).
  split; cbn [enter cycles dfs_path].
  - intros x. rewrite Hc. case_decide; [lia|apply (di_range _ Hi)].
  - intros x. rewrite Hc, elem_of_app, list_elem_of_singleton, <-(di_gray _ Hi). case_decide; naive_solver lia.
  - apply NoDup_app. split; [apply (di_nodup _ Hi)|]. split; [set_solver|apply NoDup_singleton].
  - apply linked_snoc. split; [apply (di_linked _ Hi)|done].
  - apply (di_cycles _ Hi).
  - intros E x y. rewrite !Hc. repeat case_decide; subst; try lia; intros Hx Hxy.
    + pose proof (di_closed _ Hi E _ _ Hx Hxy). lia.
    + by eapply (di_closed _ Hi E).
  - intros E x. rewrite Hc. case_decide; [lia|]. by apply (di_acyclic _ Hi E).
Qed.

Lemma dfs_back_edge s m neighbor : dfs_inv s -> last (dfs_path s) = Some m -> edge m neighbor -> color s neighbor = 1 ->
  dfs_inv (back_edge neighbor s).
Proof.
  intros Hi Hl He Hn. destruct Hi as [H1 H2 H3 H4 H5 H6 H7]. split; try done; cbn [back_edge cycles].
  - apply Forall_app. split; [done|]. apply Forall_singleton. apply H2 in Hn. set (p := dfs_path s) in *.
    assert (exists l, drop (index_in neighbor p) p = neighbor :: l) as [l El].
    { unfold index_in. destruct (list_find (fun x => x = neighbor) p) as [[i x]|] eqn:E.
      - apply list_find_Some in E as (E & -> & _). cbn. exists (drop (Datatypes.S i) p). by apply drop_S.
      - apply list_find_None in E. rewrite Forall_forall in E. by destruct (E neighbor). }
    split; [|exists neighbor, l; by rewrite El]. apply linked_snoc. split; [by apply linked_drop|].
    intros q Hq. assert (last p = last (drop (index_in neighbor p) p)) as E.
    { rewrite <-(take_drop (index_in neighbor p) p) at 1. rewrite El. by rewrite last_app_cons. }
    rewrite <-E, Hl in Hq. by injection Hq as <-.
  - intros E. by apply app_nil in E as [_ ?].
  - intros E. by apply app_nil in E as [_ ?].
Qed.

(** Leaving the end of the path: all its imports are black unless a cycle was found. *)
Lemma dfs_leave s m p : dfs_inv s -> dfs_path s = p ++ [m] -> (cycles s = [] -> forall y, edge m y -> color s y = 2) ->
  dfs_inv (leave m s).
Proof.
  intros Hi Hp Hs. assert (forall x, color (leave m s) x = if decide (x = m) then 2 else color s x) as Hc by (intros; apply color_insert).
  assert (dfs_path (leave m s) = p) as Hp' by (cbn; rewrite Hp; apply removelast_last).
  pose proof (di_nodup _ Hi) as Hnd. rewrite Hp in Hnd. apply NoDup_app in Hnd as (Hnd & Hni & _).
  assert (forall x, color s x = 1 <-> x ∈ p \/ x = m) as Hg by (intros x; by rewrite (di_gray _ Hi), Hp, elem_of_app, list_elem_of_singleton).
  assert (forall x y, cycles s = [] -> color s x = 2 -> rtc edge x y -> color s y = 2) as Hreach.
  { intros x y E Hx. induction 1 as [|x y z Hxy _ IH]; [done|]. apply IH. by eapply (di_closed _ Hi E). }
  split; rewrite ?Hp'; cbn [leave cycles].
  - intros x. rewrite Hc. case_decide; [lia|apply (di_range _ Hi)].
  - intros x. rewrite Hc. case_decide; subst; [|rewrite Hg; naive_solver]. split; [lia|]. intros Hx. exfalso. apply (Hni m Hx). set_solver.
  - done.
  - pose proof (di_linked _ Hi) as Hl. rewrite Hp in Hl. by apply linked_snoc in Hl as [? _].
  - apply (di_cycles _ Hi).
  - intros E x y. rewrite !Hc. repeat case_decide; subst; try done; intros Hx Hxy; [by apply Hs|by eapply (di_closed _ Hi E)].
  - intros E x. rewrite Hc. case_decide as Hd; [|intros Hx; by apply (di_acyclic _ Hi E)]. intros _ Ht. subst x.
    assert (color s m = 1) as Hm1 by (apply Hg; auto).
    assert (exists y, edge m y /\ rtc edge y m) as (y & Hmy & Hym).
    { inversion Ht as [? ? Hmm|? y ? Hmy Hym]; subst; [exists m|exists y]; split; try done. by apply tc_rtc. }
    pose proof (Hreach y m E (Hs E y Hmy) Hym). lia.
Qed.

Definition dfs_step (fuel : nat) (acc : option dfs_state) (neighbor : string) : option dfs_state :=
  match acc with
  | None => None
  | Some s => if color s neighbor =? 1 then Some (back_edge neighbor s)
              else if color s neighbor =? 0 then dfs g fuel neighbor s else Some s
  end.
Lemma dfs_unfold fuel m s : dfs g (S fuel) m s =
  match foldl (dfs_step fuel) (Some (enter m s)) (sorted_set (successors g m)) with Some s' => Some (leave m s') | None => None end.
Proof. done. Qed.

Definition dfs_post (m : string) (s s' : dfs_state) : Prop := dfs_inv s' /\ dfs_le s s' /\ color s' m = 2.

(** The loop over the neighbours of the last module of the path. *)
Lemma dfs_neighbors fuel m ns s :
  (forall n s, dfs_inv s -> color s n = 0 -> n ∈ known -> (whites s <= fuel)%nat ->
     (forall p, last (dfs_path s) = Some p -> edge p n) -> exists s', dfs g fuel n s = Some s' /\ dfs_post n s s') ->
  graph_closed -> (forall n, n ∈ ns -> edge m n) -> dfs_inv s -> last (dfs_path s) = Some m -> (whites s <= fuel)%nat ->
  exists s', foldl (dfs_step fuel) (Some s) ns = Some s' /\ dfs_inv s' /\ dfs_le s s' /\
    (cycles s' = [] -> forall n, n ∈ ns -> color s' n = 2).
Proof.
  intros IH Hg. revert s. induction ns as [|n ns IHns]; intros s Hns Hi Hl Hw.
  { exists s. split_and!; try done; intros _ n Hn. by apply elem_of_nil in Hn. }
  assert (edge m n) as Hmn by (apply Hns; set_solver).
  assert (exists s1, dfs_step fuel (Some s) n = Some s1 /\ dfs_inv s1 /\ dfs_le s s1 /\ (cycles s1 = [] -> color s1 n = 2))
    as (s1 & E1 & Hi1 & Hle1 & Hb1).
  { cbn [dfs_step]. destruct (di_range _ Hi n) as [Hc|[Hc|Hc]]; rewrite Hc; cbn.
    - destruct (IH n s Hi Hc) as (s1 & E & Hi1 & Hle1 & Hc1); [by apply (Hg m)|done| |].
      + intros p Hp. rewrite Hl in Hp. by injection Hp as <-.
      + exists s1. auto.
    - exists (back_edge n s). split; [done|]. split; [by eapply dfs_back_edge|]. split.
      + split; try done. cbn. intros E. by apply app_nil in E as [_ ?].
      + cbn. intros E. by apply app_nil in E as [_ ?].
    - exists s. split_and!; try done. }
  cbn [foldl]. rewrite E1. destruct (IHns s1) as (s2 & E2 & Hi2 & Hle2 & Hb2); [set_solver|done| | |].
  - by rewrite (dl_path _ _ Hle1).
  - etrans; [apply whites_le, (dl_white _ _ Hle1)|done].
  - exists s2. split_and!; [done..|by etrans|]. intros E n' [->|Hn']%elem_of_cons; [|by apply Hb2].
    apply (dl_black _ _ Hle2), Hb1, (dl_cycles _ _ Hle2), E.
Qed.

Lemma dfs_spec fuel : graph_closed -> forall m s, dfs_inv s -> color s m = 0 -> m ∈ known -> (whites s <= fuel)%nat ->
  (forall p, last (dfs_path s) = Some p -> edge p m) -> exists s', dfs g fuel m s = Some s' /\ dfs_post m s s'.
Proof.
  intros Hg. induction fuel as [|fuel IH]; intros m s Hi Hm Hk Hw Hp; pose proof (dfs_enter s m Hi Hm Hp) as He;
    assert (forall x, color (enter m s) x = if decide (x = m) then 1 else color s x) as Hc by (intros; apply color_insert);
    assert (whites (enter m s) < whites s)%nat as Hlt
      by (apply (whites_lt _ _ _ m); [|by apply elem_of_elements|done|]; [intros x|]; rewrite Hc; case_decide; done); [lia|].
  rewrite dfs_unfold.
  destruct (dfs_neighbors fuel m (sorted_set (successors g m)) (enter m s)) as (s1 & E & Hi1 & Hle & Hb);
    [done|done|intros n; apply elem_sorted_set|done|cbn; apply last_snoc|lia|].
  rewrite E. exists (leave m s1). split; [done|].
  assert (dfs_path s1 = dfs_path s ++ [m]) as Hp1 by apply (dl_path _ _ Hle).
  assert (forall x, color (leave m s1) x = if decide (x = m) then 2 else color s1 x) as Hc1 by (intros; apply color_insert).
  split; [|split].
  - eapply dfs_leave; [done..|]. intros Ec y Hy. by apply Hb, elem_sorted_set.
  - split.
    + cbn. rewrite Hp1. apply removelast_last.
    + intros x Hx. rewrite Hc1. case_decide; [done|]. apply (dl_black _ _ Hle). rewrite Hc. case_decide; [subst; lia|done].
    + intros x. rewrite Hc1. case_decide; [lia|]. intros Hx%(dl_white _ _ Hle). rewrite Hc in Hx. by rewrite decide_False in Hx.
    + cbn. apply (dl_cycles _ _ Hle).
  - rewrite Hc1. by rewrite decide_True.
Qed.

(** The loop over all modules. *)
Lemma dfs_roots fuel ms s : graph_closed -> (forall m, m ∈ ms -> m ∈ known) -> dfs_inv s -> dfs_path s = [] -> (whites s <= fuel)%nat ->
  exists s', foldl (dfs_root g fuel) (Some s) ms = Some s' /\ dfs_inv s' /\ (forall m, color s m = 2 -> color s' m = 2) /\
    forall m, m ∈ ms -> color s' m = 2.
Proof.
  intros Hg. revert s. induction ms as [|m ms IH]; intros s Hk Hi Hp Hw.
  { exists s. split_and!; try done. intros m Hm. by apply elem_of_nil in Hm. }
  assert (exists s1, dfs_root g fuel (Some s) m = Some s1 /\ dfs_inv s1 /\ dfs_le s s1 /\ color s1 m = 2) as (s1 & E1 & Hi1 & Hle & Hm).
  { cbn [dfs_root]. destruct (di_range _ Hi m) as [Hc|[Hc|Hc]]; rewrite Hc; cbn.
    - destruct s as [v p c]; cbn in Hp; subst p. cbn. apply (dfs_spec fuel Hg m (mkDfs v [] c)); try done. apply Hk. set_solver.
    - apply (di_gray _ Hi) in Hc. rewrite Hp in Hc. by apply elem_of_nil in Hc.
    - exists s. split_and!; try done. }
  cbn [foldl]. rewrite E1. destruct (IH s1) as (s2 & E2 & Hi2 & Hb2 & Hb3); [set_solver|done| | |].
  - by rewrite (dl_path _ _ Hle).
  - etrans; [apply whites_le, (dl_white _ _ Hle)|done].
  - exists s2. split_and!; [done..| |].
    + intros x Hx. by apply Hb2, (dl_black _ _ Hle).
    + intros x [->|Hx]%elem_of_cons; auto.
Qed.

Lemma dfs_init_inv : dfs_inv (mkDfs (gset_to_gmap 0 known) [] []).
Proof.
  assert (forall m, color (mkDfs (gset_to_gmap 0 known) [] []) m = 0) as Hc.
  { intros m. unfold color; cbn. rewrite lookup_gset_to_gmap. by destruct (guard _). }
  split; [| |constructor|done|constructor| |].
  - intros m. left. apply Hc.
  - intros m. rewrite Hc. split; [lia|]. intros H. by apply elem_of_nil in H.
  - intros _ x y. rewrite Hc. lia.
  - intros _ x. rewrite Hc. lia.
Qed.

(** The search ends within its fuel, reports only cycles, and nothing exactly when the
    graph is acyclic. *)
Lemma find_cycles_correct : graph_closed ->
  exists found, find_cycles g known = Some found /\ Forall is_cycle found /\
    (found = [] <-> forall m, ~ tc edge m m).
Proof.
  intros Hg. destruct (dfs_roots (S (base.size known)) (sorted_set known) (mkDfs (gset_to_gmap 0 known) [] []) Hg)
    as (s & E & Hi & _ & Hb); [intros m; apply elem_sorted_set|apply dfs_init_inv|done| |].
  { unfold whites, whites_in. etrans; [apply length_filter|]. unfold base.size, set_size. cbn. lia. }
  exists (cycles s). unfold find_cycles. cbn zeta. rewrite E. split; [done|]. split; [apply (di_cycles _ Hi)|]. split.
  - intros Hc m Hm. assert (m ∈ known) as Hk.
    { inversion Hm as [? ? H|? y ? H ?]; subst; by apply Hg in H as [? _]. }
    apply (di_acyclic _ Hi Hc m); [|done]. by apply Hb, elem_sorted_set.
  - intros Ha. pose proof (di_cycles _ Hi) as Hf. destruct (cycles s) as [|c cs]; [done|].
    apply Forall_cons in Hf as [Hf _]. destruct (is_cycle_tc c Hf) as [x Hx]. by destruct (Ha x).
Qed.
End DfsProof.

(** ** Name resolution *)

Lemma before_last_dot_spec l :
  match before_last_dot l with
  | Some w => exists v, l = w ++ dot :: v /\ dot ∉ v
  | None => dot ∉ l
  end.
Proof.
  induction l as [|c l IH]; cbn; [set_solver|]. destruct (before_last_dot l) as [w|].
  - destruct IH as (v & -> & Hv). by exists v.
  - case_decide as Hd; [subst; by exists l|]. set_solver.
Qed.

(** [r] is [c] or a package that contains [c] by its dotted name. *)
Definition dotted_prefix (r c : list ascii) : Prop := c = r \/ exists v, c = r ++ dot :: v.
Lemma dotted_prefix_shorten r w v : dot ∉ v -> r <> w ++ dot :: v -> dotted_prefix r (w ++ dot :: v) -> dotted_prefix r w.
Proof.
  intros Hv Hne [E|[u E]]; [by destruct Hne|]. revert w Hne E. induction r as [|c r IH]; intros w Hne E; cbn in E.
  - destruct w as [|d w]; [by left|]. injection E as -> _. right. by exists w.
  - destruct w as [|d w]; cbn in E.
    + injection E as <- E. exfalso. apply Hv. rewrite E. set_solver.
    + injection E as <- E. destruct (IH w ltac:(intros ->; by apply Hne) E) as [->|[x ->]]; [by left|right; by exists x].
Qed.

(** The resolved module is the longest known package of the imported name. *)
Lemma longest_known_spec known fuel cur : (length cur < fuel)%nat ->
  match longest_known known fuel cur with
  | Some r => r ∈ known /\ r <> "" /\ dotted_prefix (chars r) cur /\
      forall r', r' ∈ known -> dotted_prefix (chars r') cur -> (String.length r' <= String.length r)%nat
  | None => forall r', r' ∈ known -> dotted_prefix (chars r') cur -> r' = ""
  end.
Proof.
  revert cur. induction fuel as [|fuel IH]; intros cur Hf; [lia|]. cbn [longest_known].
  assert (forall r', dotted_prefix (chars r') cur -> (String.length r' <= length cur)%nat) as Hlen.
  { intros r' [->|[v ->]]; rewrite length_chars; [lia|]. rewrite length_app. lia. }
  destruct cur as [|c cur]; [|case_decide as Hk].
  - intros r' _ [E|[v E]]; [by destruct r'|]. by destruct (chars r').
  - split_and!; [done|done|left; symmetry; apply chars_of_chars|]. intros r' _ Hr'%Hlen. by rewrite length_of_chars.
  - pose proof (before_last_dot_spec (c :: cur)) as Hb. destruct (before_last_dot (c :: cur)) as [w|] eqn:Ew.
    + destruct Hb as (v & E & Hv). rewrite E in *.
      assert (forall r', r' ∈ known -> dotted_prefix (chars r') (w ++ dot :: v) -> dotted_prefix (chars r') w) as Hs.
      { intros r' Hr' Hp. eapply dotted_prefix_shorten; [done| |done]. intros E'. apply Hk. by rewrite <-E', of_chars_chars. }
      rewrite length_app in Hf. cbn in Hf. specialize (IH w ltac:(lia)). destruct (longest_known known fuel w) as [r|].
      * destruct IH as (H1 & H2 & H3 & H4). split_and!; [done..| |auto]. right. destruct H3 as [->|[u ->]]; [by exists v|].
        exists (u ++ dot :: v). by rewrite <-app_assoc.
      * auto.
    + intros r' Hr' [E|[v E]].
      * exfalso. apply Hk. by rewrite E, of_chars_chars.
      * exfalso. apply Hb. rewrite E. set_solver.
Qed.
Theorem resolve_module_target_correct known source name level :
  let candidate := chars (import_candidate source name level) in
  match resolve_module_target known source name level with
  | Some r => r ∈ known /\ r <> "" /\ dotted_prefix (chars r) candidate /\
      forall r', r' ∈ known -> dotted_prefix (chars r') candidate -> (String.length r' <= String.length r)%nat
  | None => forall r', r' ∈ known -> dotted_prefix (chars r') candidate -> r' = ""
  end.
Proof. apply longest_known_spec. lia. Qed.

(** ** The module graph is the import relation of the sources *)

(** The imports of one node with what they resolve to. *)
Definition node_imports (source : string) (known : gset string) (ranges : list (Z * Z)) (n : node) : list (ModuleImport * option string) :=
  match n with
  | Import names lineno =>
      (fun name => (mkImport source name None lineno (in_type_checking ranges lineno), resolve_module_target known source name 0)) <$> names
  | ImportFrom module names level lineno =>
      let module_name := default "" module in
      let resolved := resolve_module_target known source module_name level in
      (fun name => (mkImport source (or_else resolved module_name) (Some name) lineno (in_type_checking ranges lineno), resolved)) <$> names
  | _ => []
  end.
Definition tree_imports (source : string) (known : gset string) (tree : node) : list (ModuleImport * option string) :=
  walk tree ≫= node_imports source known (type_checking_ranges tree).
(** Module [x] with this tree imports [y] when it runs. *)
Definition imports_at_run_time (known : gset string) (x : string) (tree : node) (y : string) : Prop :=
  exists imp, (imp, Some y) ∈ tree_imports x known tree /\ mi_is_type_checking imp = false /\ y <> x.

Definition record_all (l : linter) (ps : list (ModuleImport * option string)) : linter :=
  foldl (fun l p => record_import p.1 p.2 l) l ps.
Lemma record_all_frame ps l :
  let l' := record_all l ps in
  modules l' = modules l /\ file_map l' = file_map l /\ ast_cache l' = ast_cache l /\ imports l' = imports l ++ ps.*1.
Proof.
  unfold record_all. revert l. induction ps as [|[imp r] ps IH]; intros l; cbn; [by rewrite app_nil_r|].
  destruct (IH (record_import imp r l)) as (-> & -> & -> & ->). cbn. by rewrite <-app_assoc.
Qed.
Lemma extract_imports_record source tree l : extract_imports source tree l = record_all l (tree_imports source (modules l) tree).
Proof.
  unfold extract_imports, tree_imports. set (ranges := type_checking_ranges tree). generalize (walk tree) as ns. intros ns.
  revert l. induction ns as [|n ns IH]; intros l; [done|]. cbn [foldl]. rewrite bind_cons. unfold record_all. rewrite foldl_app.
  change (foldl _ (foldl ?f l ?ps) ?qs) with (record_all (record_all l ps) qs).
  assert (extract_node source ranges l n = record_all l (node_imports source (modules l) ranges n)) as ->; [|].
  { assert (forall names (f : string -> ModuleImport) (r : gset string -> string -> option string) l0, modules l0 = modules l ->
      foldl (fun l name => record_import (f name) (r (modules l) name) l) l0 names
      = record_all l0 ((fun name => (f name, r (modules l) name)) <$> names)) as Hf.
    { intros names f r. induction names as [|nm names IHn]; intros l0 E; [done|]. cbn. rewrite E. by apply IHn. }
    destruct n; try done; cbn [extract_node node_imports].
    - by apply (Hf names (fun name => mkImport source name None lineno (in_type_checking ranges lineno))
        (fun known name => resolve_module_target known source name 0)).
    - rewrite (Hf names (fun name => mkImport source (or_else (resolve_module_target (modules l) source (default "" module) level)
         (default "" module)) (Some name) lineno (in_type_checking ranges lineno))
        (fun _ _ => resolve_module_target (modules l) source (default "" module) level)); done. }
  rewrite IH. by destruct (record_all_frame (node_imports source (modules l) ranges n) l) as (-> & _).
Qed.

Lemma edge_add_edge g s t x y : edge (add_edge s t g) x y <-> edge g x y \/ x = s /\ y = t.
Proof.
  unfold edge, successors, add_edge. destruct (decide (x = s)) as [->|Hx].
  - rewrite lookup_insert_eq. cbn. set_solver.
  - rewrite lookup_insert_ne by done. naive_solver.
Qed.
Lemma resolve_known known source name level r : resolve_module_target known source name level = Some r -> r ∈ known /\ r <> "".
Proof. pose proof (resolve_module_target_correct known source name level) as H. intros E. rewrite E in H. naive_solver. Qed.
Lemma tree_imports_facts source known tree imp r : (imp, Some r) ∈ tree_imports source known tree ->
  mi_source_module imp = source /\ r ∈ known /\ r <> "".
Proof.
  unfold tree_imports. intros (n & Hn & _)%list_elem_of_bind. destruct n; try by apply elem_of_nil in Hn.
  all: apply list_elem_of_fmap in Hn as (name & E & _); injection E as -> E; split; [done|].
  all: symmetry in E; by apply resolve_known in E.
Qed.
Lemma edge_record_all source (known : gset string) ps l x y :
  (forall imp r, (imp, Some r) ∈ ps -> mi_source_module imp = source /\ r ∈ known /\ r <> "") ->
  edge (graph (record_all l ps)) x y <->
  edge (graph l) x y \/ x = source /\ exists imp, (imp, Some y) ∈ ps /\ mi_is_type_checking imp = false /\ y <> x.
Proof.
  unfold record_all. revert l. induction ps as [|[imp r] ps IH]; intros l Hps; cbn [foldl].
  { split; [auto|]. intros [?|(_ & imp & H & _)]; [done|]. by apply elem_of_nil in H. }
  rewrite IH by set_solver. cbn [fst snd record_import graph].
  assert (edge (match r with
           | Some target => if decide (target <> "" /\ target <> mi_source_module imp /\ mi_is_type_checking imp = false)
                            then add_edge (mi_source_module imp) target (graph l) else graph l
           | None => graph l end) x y
    <-> edge (graph l) x y \/ x = source /\ r = Some y /\ mi_is_type_checking imp = false /\ y <> x) as ->.
  { destruct r as [t|]; [|naive_solver]. destruct (Hps imp t) as (Es & _ & Hne); [set_solver|]. case_decide as Hd.
    - rewrite edge_add_edge, Es. rewrite Es in Hd. naive_solver.
    - rewrite Es in Hd. naive_solver. }
  set_solver.
Qed.

(** The files by module: later files replace earlier ones of the same name. *)
Definition module_files (files : list source_file) : list (string * source_file) := file_map (foldl discover linter_init files).
Definition known_modules (files : list source_file) : gset string := modules (foldl discover linter_init files).
Definition depends (files : list source_file) (x y : string) : Prop :=
  exists f tree, (x, f) ∈ module_files files /\ sf_tree f = Some tree /\ imports_at_run_time (known_modules files) x tree y.

Lemma discover_facts files l :
  (forall x y, ~ edge (graph l) x y) -> (forall e, e ∈ file_map l -> e.1 ∈ modules l) ->
  let l' := foldl discover l files in
  (forall x y, ~ edge (graph l') x y) /\ (forall e, e ∈ file_map l' -> e.1 ∈ modules l').
Proof.
  revert l. induction files as [|f files IH]; intros l Hg Hm; [done|]. cbn [foldl]. apply IH.
  - unfold discover. destruct (ignored f); [done|]. cbn. intros x y. unfold edge, successors.
    destruct (decide (x = module_name f)) as [->|]; [rewrite lookup_insert_eq; set_solver|]. rewrite lookup_insert_ne by done. apply Hg.
  - unfold discover. destruct (ignored f); [done|]. cbn. apply Forall_forall, dict_set_Forall; [|set_solver].
    apply Forall_forall. intros e He. apply Hm in He. set_solver.
Qed.
Lemma index_files_edges es l x y :
  let l' := foldl index_file l es in
  modules l' = modules l /\ file_map l' = file_map l /\
  (edge (graph l') x y <-> edge (graph l) x y \/
     exists f tree, (x, f) ∈ es /\ sf_tree f = Some tree /\ imports_at_run_time (modules l) x tree y).
Proof.
  revert l. induction es as [|[m f] es IH]; intros l; cbn [foldl].
  { split_and!; [done..|]. split; [auto|]. intros [?|(f & tree & H & _)]; [done|]. by apply elem_of_nil in H. }
  destruct (IH (index_file l (m, f))) as (-> & -> & ->). unfold index_file. cbn [fst snd].
  destruct (sf_tree f) as [tree|] eqn:Et.
  - rewrite extract_imports_record. cbn [modules]. set (l1 := mkLinter _ _ _ _ _ _).
    destruct (record_all_frame (tree_imports m (modules l) tree) l1) as (-> & -> & _). cbn [modules file_map l1].
    split_and!; [done..|]. rewrite (edge_record_all m (modules l)) by (intros; by eapply tree_imports_facts).
    unfold imports_at_run_time. split.
    + intros [[?|(-> & imp & H)]|(f' & t' & H)]; [auto| |]; right; [exists f, tree|exists f', t']; set_solver.
    + intros [?|(f' & t' & [[= -> ->]|H]%elem_of_cons & Ht & Hi)]; [auto| |right; eauto].
      left. right. rewrite Et in Ht. injection Ht as ->. auto.
  - split_and!; [done..|]. split; [intros [?|(f' & t' & H)]; [auto|right; exists f', t'; set_solver]|].
    intros [?|(f' & t' & [[= -> ->]|H]%elem_of_cons & Ht & Hi)]; [auto|congruence|right; eauto].
Qed.

Lemma index_idem files l : index files (index files l) = index files l.
Proof. unfold index at 2 3. destruct (is_indexed l) eqn:E; unfold index; cbn [is_indexed]; by rewrite ?E. Qed.
Theorem index_graph files : let l := index files linter_init in
  modules l = known_modules files /\ file_map l = module_files files /\
  (forall x y, edge (graph l) x y <-> depends files x y) /\ graph_closed (graph l) (modules l).
Proof.
  cbn zeta. unfold index. cbn [is_indexed linter_init modules file_map graph].
  destruct (discover_facts files linter_init) as [Hg Hm]; [intros x y; unfold edge, successors; cbn; set_solver|set_solver|].
  set (l1 := foldl discover linter_init files) in *.
  assert (forall x y, edge (graph (foldl index_file l1 (file_map l1))) x y <-> depends files x y) as He.
  { intros x y. destruct (index_files_edges (file_map l1) l1 x y) as (_ & _ & ->). unfold depends.
    split; [intros [H|H]; [by destruct (Hg x y)|done]|auto]. }
  destruct (index_files_edges (file_map l1) l1 "" "") as (Em & Ef & _). rewrite Em, Ef. split_and!; [done..|].
  intros x y Hxy. apply He in Hxy as (f & tree & Hf & _ & imp & Hi & _). split; [by apply (Hm (x, f))|].
  by apply tree_imports_facts in Hi as (_ & ? & _).
Qed.

Lemma detect_cycles_spec files :
  exists found, (detect_cycles files linter_init).1 = Some found /\
    Forall (fun c => exists x l, c = x :: l ++ [x] /\
      forall i a b, c !! i = Some a -> c !! S i = Some b -> depends files a b) found /\
    (found = [] <-> forall m, ~ tc (depends files) m m).
Proof.
  destruct (index_graph files) as (_ & _ & He & Hc). destruct (find_cycles_correct _ _ Hc) as (found & Hf & Hcyc & Hnil).
  exists found. split; [exact Hf|]. split.
  - eapply Forall_impl; [exact Hcyc|]. intros c (Hl & x & l & E). exists x, l. split; [done|]. clear E.
    induction c as [|a [|b c] IH]; intros [|i] u v; cbn; try done.
    + intros [= ->] [= ->]. apply He, Hl.
    + apply IH, Hl.
  - rewrite Hnil. assert (forall x y, tc (edge (graph (index files linter_init))) x y <-> tc (depends files) x y) as Ht.
    { intros x y. split; induction 1; [apply tc_once|eapply tc_l|apply tc_once|eapply tc_l]; try done; by apply He. }
    by setoid_rewrite Ht.
Qed.


(** ** The rules *)

Lemma omap_nil {A B} (f : A -> option B) l : omap f l = [] <-> forall x, x ∈ l -> f x = None.
Proof.
  induction l as [|x l IH]; [split; [intros _ x H; by apply elem_of_nil in H|done]|]. cbn. destruct (f x) eqn:E.
  - split; [done|]. intros H. specialize (H x ltac:(set_solver)). congruence.
  - rewrite IH. set_solver.
Qed.
Lemma bind_nil {A B} (f : A -> list B) l : l ≫= f = [] <-> forall x, x ∈ l -> f x = [].
Proof.
  induction l as [|x l IH]; [split; [intros _ x H; by apply elem_of_nil in H|done]|].
  rewrite bind_cons, app_nil, IH. set_solver.
Qed.
Lemma in_walk n t : n ∈ walk t <-> n ∈ subnodes t.
Proof. by rewrite walk_perm. Qed.

(** What it means for a constructor argument to inject a concrete repository. *)
Definition injects_concrete (unparse : node -> string) (item : node) : Prop :=
  exists posonly args others body rest lineno name ann prefix,
    item = FunctionDef "__init__" (Arguments posonly args others) body rest lineno /\ Arg name (Some ann) ∈ args /\
    (py_in "repo" (py_lower name) = true \/ py_in "repository" (py_lower name) = true) /\
    prefix ∈ CONCRETE_REPO_PREFIXES /\ py_in prefix (unparse ann) = true.
Definition defines_schema (n : node) : Prop :=
  exists name bases keywords body decorators lineno b base,
    n = ClassDef name bases keywords body decorators lineno /\ b ∈ bases /\ base_name b = Some base /\
    base ∈ ["BaseModel"; "Base"; "DeclarativeBase"].

Lemma class_injections_nil unparse path name item :
  class_injections unparse path name item = [] <-> ~ injects_concrete unparse item.
Proof.
  assert (forall lineno args, (args ≫= injected_argument unparse path name lineno = []) <->
    ~ exists nm ann prefix, Arg nm (Some ann) ∈ args /\ (py_in "repo" (py_lower nm) = true \/ py_in "repository" (py_lower nm) = true) /\
      prefix ∈ CONCRETE_REPO_PREFIXES /\ py_in prefix (unparse ann) = true) as Ha.
  { intros lineno args. rewrite bind_nil. split.
    - intros H (nm & ann & prefix & Hin & Hr & Hp & Hs). specialize (H _ Hin). cbn [injected_argument] in H.
      replace (py_in "repo" (py_lower nm) || py_in "repository" (py_lower nm)) with true in H by (destruct Hr as [Hr|Hr]; by rewrite Hr, ?orb_true_r).
      apply (proj1 (omap_nil _ _)) with (x := prefix) in H; [|done]. by rewrite Hs in H.
    - intros H a Hin. destruct a as [| | | | | | | | | | |nm ann|]; try done. cbn [injected_argument].
      destruct (py_in "repo" (py_lower nm) || py_in "repository" (py_lower nm)) eqn:Er; [|done]. apply orb_true_iff in Er.
      apply omap_nil. intros prefix Hp. destruct (py_in prefix _) eqn:Es; [|done]. destruct ann as [ann|].
      + destruct H. by exists nm, ann, prefix.
      + exfalso. revert Es. repeat (apply elem_of_cons in Hp as [->|Hp]; [by vm_compute|]). by apply elem_of_nil in Hp. }
  destruct item as [| | | | | | | | |fname fargs body rest lineno| | |];
    try (split; [intros _ (? & ? & ? & ? & ? & ? & ? & ? & ? & ? & _); done|done]).
  unfold class_injections. destruct (decide (fname = "__init__")) as [->|Hne].
  - destruct fargs as [| | | | | | | | | |posonly args others| |];
      try (split; [intros _ (? & ? & ? & ? & ? & ? & ? & ? & ? & ? & _); done|done]).
    rewrite Ha. split; intros H; intros Hx; apply H.
    + destruct Hx as (? & ? & ? & ? & ? & ? & nm & ann & prefix & [= <- <- <- <- <- <-] & Hrest). by exists nm, ann, prefix.
    + destruct Hx as (nm & ann & prefix & Hrest). by exists posonly, args, others, body, rest, lineno, nm, ann, prefix.
  - split; [intros _ (? & ? & ? & ? & ? & ? & ? & ? & ? & Heq & _); congruence|]. intros _.
    destruct fargs; repeat case_match; subst; done.
Qed.
Lemma schema_violation_none mod_name path n : schema_violation mod_name path n = None <-> ~ defines_schema n.
Proof.
  destruct n as [| | | | | | | |name bases keywords body decorators lineno| | | |];
    try (split; [intros _ (? & ? & ? & ? & ? & ? & ? & ? & ? & _); done|done]).
  cbn [schema_violation]. destruct (existsb _ _) eqn:E.
  - split; [done|]. intros H. destruct H. apply existsb_exists in E as (base & Hin & Hb). apply bool_decide_eq_true in Hb.
    apply list_elem_of_In, list_elem_of_omap in Hin as (b & Hin & Eb). by exists name, bases, keywords, body, decorators, lineno, b, base.
  - split; [|done]. intros _ (? & ? & ? & ? & ? & ? & b & base & [= <- <- <- <- <- <-] & Hin & Eb & Hb).
    apply not_true_iff_false in E. apply E, existsb_exists. exists base. split; [|by apply bool_decide_eq_true].
    apply list_elem_of_In, list_elem_of_omap. eauto.
Qed.

(** Each rule in isolation, over the state that indexing leaves. *)
Lemma rule_1_clean l : check_rule_1_inward_boundary l = [] <->
  (forall imp, imp ∈ imports l -> in_package (mi_source_module imp) "app.routers" = true ->
     in_package (mi_target_module imp) "app.models" = false).
Proof.
  unfold check_rule_1_inward_boundary. rewrite omap_nil. apply forall_proper. intros imp. unfold inward_violation.
  destruct (in_package _ "app.routers"), (in_package _ "app.models"); cbn; naive_solver.
Qed.
Lemma rule_2_clean l : check_rule_2_transport_isolation l = [] <->
  (forall imp sym, imp ∈ imports l -> mi_target_symbol imp = Some sym -> in_package (mi_source_module imp) "app.services" = true ->
     py_startswith (mi_target_module imp) "fastapi" = true -> sym ∉ FORBIDDEN_TRANSPORT_SYMBOLS).
Proof.
  unfold check_rule_2_transport_isolation. rewrite omap_nil. apply forall_proper. intros imp. unfold transport_violation.
  destruct (mi_target_symbol imp) as [sym|]; [|split; [done|intros _ _; done]].
  destruct (in_package _ "app.services"); cbn [andb]; [|split; [done|intros _ _; done]].
  destruct (py_startswith _ _); cbn [andb]; [|split; [done|intros _ _; done]].
  case_bool_decide as Hin; split; try done.
  - intros H sym' Hi. by specialize (H Hi).
  - intros H Hi. by destruct (H sym Hi eq_refl eq_refl eq_refl).
  - intros _ sym' _ [= <-]. done.
Qed.
Lemma rule_3_clean unparse l : check_rule_3_dependency_inversion unparse l = [] <->
  (forall m tree name bases keywords body decorators lineno item, (m, tree) ∈ ast_cache l -> in_package m "app.services" = true ->
     ClassDef name bases keywords body decorators lineno ∈ subnodes tree -> item ∈ body -> ~ injects_concrete unparse item).
Proof.
  unfold check_rule_3_dependency_inversion. rewrite bind_nil. split.
  - intros H m tree name bases keywords body decorators lineno item Hm Hs Hc Hitem. specialize (H _ Hm). cbn in H. rewrite Hs in H.
    apply (proj1 (bind_nil _ _)) with (x := ClassDef name bases keywords body decorators lineno) in H; [|by apply in_walk].
    cbn in H. apply (proj1 (bind_nil _ _)) with (x := item) in H; [|done]. by apply class_injections_nil in H.
  - intros H [m tree] Hm. destruct (in_package m _) eqn:Es; [|done]. apply bind_nil. intros n Hn%in_walk. destruct n; try done.
    apply bind_nil. intros item Hitem. apply class_injections_nil. by eapply H.
Qed.
Lemma rule_5_clean l : check_rule_5_schema_autonomy l = [] <->
  (forall m tree n, (m, tree) ∈ ast_cache l -> py_startswith m "app.routers." || py_startswith m "app.services." = true ->
     n ∈ subnodes tree -> ~ defines_schema n).
Proof.
  unfold check_rule_5_schema_autonomy. rewrite bind_nil. split.
  - intros H m tree n Hm Hs Hn. specialize (H _ Hm). cbv beta iota in H. rewrite Hs in H. apply in_walk in Hn.
    apply (proj1 (omap_nil _ _)) with (x := n) in H; [|done]. by apply schema_violation_none in H.
  - intros H [m tree] Hm. destruct (_ || _) eqn:Es; [|done]. apply omap_nil. intros n Hn%in_walk.
    apply schema_violation_none. by eapply H.
Qed.

(** The linter accepts a set of source files exactly when no router imports a module
    that is named as a model, no service imports a transport symbol from FastAPI, no
    service constructor takes a concrete repository, no module depends on itself, and no
    router or service module defines a schema or model. *)
Theorem check_all_clean unparse files :
  let l := index files linter_init in
  (exists l', check_all unparse files linter_init = (Some [], l')) <->
  (forall imp, imp ∈ imports l -> in_package (mi_source_module imp) "app.routers" = true ->
     in_package (mi_target_module imp) "app.models" = false) /\
  (forall imp sym, imp ∈ imports l -> mi_target_symbol imp = Some sym -> in_package (mi_source_module imp) "app.services" = true ->
     py_startswith (mi_target_module imp) "fastapi" = true -> sym ∉ FORBIDDEN_TRANSPORT_SYMBOLS) /\
  (forall m tree name bases keywords body decorators lineno item, (m, tree) ∈ ast_cache l -> in_package m "app.services" = true ->
     ClassDef name bases keywords body decorators lineno ∈ subnodes tree -> item ∈ body -> ~ injects_concrete unparse item) /\
  (forall m, ~ tc (depends files) m m) /\
  (forall m tree n, (m, tree) ∈ ast_cache l -> py_startswith m "app.routers." || py_startswith m "app.services." = true ->
     n ∈ subnodes tree -> ~ defines_schema n).
Proof.
  cbn zeta. destruct (detect_cycles_spec files) as (found & Ef & _ & Hnil).
  set (l := index files linter_init) in *.
  pose proof (index_idem files linter_init) as Hidx. fold l in Hidx.
  assert (detect_cycles files l = detect_cycles files linter_init) as Hd by (unfold detect_cycles; fold l; rewrite Hidx; reflexivity).
  unfold check_all. fold l. cbn zeta. unfold check_rule_4_strict_dag. rewrite Hd.
  unfold detect_cycles in *. fold l in Ef. fold l. cbn [fst] in Ef. rewrite Ef. cbn [fmap option_fmap option_map].
  assert ((List.map (cycle_violation l) found = []) <-> forall m, ~ tc (depends files) m m) as H4 by (rewrite <-Hnil; by destruct found).
  rewrite <-rule_1_clean, <-rule_2_clean, <-rule_3_clean, <-H4, <-rule_5_clean. split.
  - intros [l' [= H ?]]. by rewrite !app_nil in H.
  - intros (-> & -> & -> & -> & ->). by exists l.
Qed.

(** ** What the linter misses *)

Definition file (rel : list string) (body : list node) : source_file := mkFile [] rel (String.concat "/" rel) (Some (Other body)).

(** A router that imports the models package through its parent is accepted. *)
Example parent_import_of_models_accepted :
  let files := [file ["app"; "__init__.py"] []; file ["app"; "models"; "__init__.py"] [];
                file ["app"; "routers"; "r.py"] [ImportFrom (Some "app") ["models"] 0 1]] in
  (check_all (fun _ => "") files linter_init).1 = Some [] /\
  audit_code_snippet (Some (Other [ImportFrom (Some "app") ["models"] 0 1])) "app/routers/r.py" = Ok [].
Proof. split; vm_compute; reflexivity. Qed.

(** Two modules that import each other from their package are not seen as a cycle. *)
Example submodule_cycle_missed :
  let files := [file ["app"; "__init__.py"] []; file ["app"; "a.py"] [ImportFrom (Some "app") ["b"] 0 1];
                file ["app"; "b.py"] [ImportFrom (Some "app") ["a"] 0 1]] in
  (detect_cycles files linter_init).1 = Some [].
Proof. vm_compute. reflexivity. Qed.

(** A relative import in a package's own file is resolved against its parent package. *)
Example package_relative_import_misresolved :
  let files := [file ["app"; "__init__.py"] []; file ["app"; "core"; "__init__.py"] [ImportFrom (Some "db") ["x"] 1 1];
                file ["app"; "core"; "db.py"] [ImportFrom (Some "app.core") ["y"] 0 1]] in
  (detect_cycles files linter_init).1 = Some [] /\
  resolve_module_target (known_modules files) "app.core" "db" 1 = Some "app".
Proof. split; vm_compute; reflexivity. Qed.

(** A direct cycle is reported. *)
Example direct_cycle_reported :
  let files := [file ["app"; "a.py"] [Import ["app.b"] 1]; file ["app"; "b.py"] [Import ["app.a"] 1]] in
  (detect_cycles files linter_init).1 = Some [["app.a"; "app.b"; "app.a"]].
Proof. vm_compute. reflexivity. Qed.
