(* ===== verification/SecurityAudit.v ===== *)
(** The static security audit: [app/services/security_audit_service.py].

    Files come parsed, as in PyAst.v; the issues the external Bandit scanner reports are a
    parameter.  The secret-name pattern of the source is the list of its alternatives,
    compared without case. *)

From S2P Require Import Prelude PyAst.

Local Open Scope Z_scope.

Record SecurityIssue : Type := mkIssue {
  si_rule_id : string; si_severity : string; si_confidence : string; si_cwe : string; si_description : string;
  si_filename : string; si_line_number : Z }.
#[global] Instance issue_eq_dec : EqDecision SecurityIssue.
Proof. solve_decision. Defined.

Record SecurityAuditReport : Type := mkReport {
  rp_status : string; rp_total_files_scanned : Z; rp_total_lines_scanned : Z;
  rp_high_severity_count : Z; rp_medium_severity_count : Z; rp_low_severity_count : Z;
  rp_ast_violations_count : Z; rp_issues : list SecurityIssue; rp_scanned_at : string }.

Definition SECRET_NAMES : list string :=
  ["api_key"; "secret_key"; "jwt_secret"; "private_key"; "auth_token"; "database_password"].
Definition is_secret_name (id : string) : bool := bool_decide (py_lower id ∈ SECRET_NAMES).
Definition py_endswith (s suffix : string) : bool := starts_with (rev (chars suffix)) (rev (chars s)).

(** ** [ASTArchitecturalSecurityVisitor] *)

Section Visitor.
Context (filename : string) (is_router : bool).

Definition code_execution (id : string) (lineno : Z) : SecurityIssue :=
  mkIssue "fastapi-no-eval-exec" "HIGH" "HIGH" "CWE-94: Improper Control of Generation of Code ('Code Injection')"
    ("Use of dangerous built-in '" +:+ id +:+ "()' allows arbitrary code execution.") filename lineno.
Definition print_statement (lineno : Z) : SecurityIssue :=
  mkIssue "fastapi-no-print-in-production" "LOW" "HIGH" "CWE-778: Insufficient Logging"
    "Direct print() statement detected. Use structlog structured logging instead." filename lineno.
Definition insecure_random (attr : string) (lineno : Z) : SecurityIssue :=
  mkIssue "fastapi-no-insecure-random" "MEDIUM" "HIGH"
    "CWE-338: Use of Cryptographically Weak Pseudo-Random Number Generator (PRNG)"
    ("Insecure PRNG 'random." +:+ attr +:+ "()' detected. Use standard library 'secrets' module for cryptographically secure values.")
    filename lineno.
Definition raw_sql (lineno : Z) : SecurityIssue :=
  mkIssue "fastapi-no-raw-sql-in-routers" "HIGH" "HIGH" "CWE-89: SQL Injection / Architectural Boundary Violation"
    "Direct execute(text(...)) raw SQL invocation inside router. Delegate all database operations to the repository layer."
    filename lineno.
Definition unsafe_pickle (lineno : Z) : SecurityIssue :=
  mkIssue "fastapi-no-unsafe-pickle" "HIGH" "HIGH" "CWE-502: Deserialization of Untrusted Data"
    "Unsafe pickle.load/loads call detected. Never deserialize untrusted payloads." filename lineno.
Definition hardcoded_secret (id : string) (lineno : Z) : SecurityIssue :=
  mkIssue "fastapi-no-hardcoded-secrets" "HIGH" "HIGH" "CWE-798: Use of Hard-coded Credentials"
    ("Potential hardcoded credential assigned to '" +:+ id
     +:+ "'. Use pydantic-settings environment variables via get_settings().") filename lineno.

Definition is_name (n : node) (id : string) : bool := match n with Name id' => bool_decide (id' = id) | _ => false end.
Definition is_text_call (arg : node) : bool :=
  match arg with Call (Name id) _ _ _ => bool_decide (id = "text") | _ => false end.

(** What [visit_Call] appends. *)
Definition call_issues (func : node) (args : list node) (lineno : Z) : list SecurityIssue :=
  match func with
  | Name id =>
      if bool_decide (id ∈ ["eval"; "exec"]) then [code_execution id lineno]
      else if bool_decide (id = "print") then [print_statement lineno] else []
  | Attribute value attr =>
      (if is_name value "random" && negb (py_endswith filename "backoff.py")
          && bool_decide (attr ∈ ["random"; "choice"; "randint"; "randrange"; "uniform"])
       then [insecure_random attr lineno] else [])
      ++ (if is_router && bool_decide (attr = "execute")
          then omap (fun arg => if is_text_call arg then Some (raw_sql lineno) else None) args else [])
      ++ (if is_name value "pickle" && bool_decide (attr ∈ ["load"; "loads"])
          then [unsafe_pickle lineno] else [])
  | _ => []
  end.
(** What [visit_Assign] appends. *)
Definition assign_issues (targets : list node) (value : node) (lineno : Z) : list SecurityIssue :=
  if negb (py_in "config.py" filename) then
    omap (fun target =>
      match target, value with
      | Name id, StrConstant text =>
          let val := py_strip text in
          if is_secret_name id && (8 <=? Z.of_nat (String.length val)) && negb (py_startswith val "${")
          then Some (hardcoded_secret id lineno) else None
      | _, _ => None
      end) targets
  else [].
Definition visit_node (n : node) (issues : list SecurityIssue) : list SecurityIssue :=
  match n with
  | Call func args _ lineno => issues ++ call_issues func args lineno
  | Assign targets value lineno => issues ++ assign_issues targets value lineno
  | _ => issues
  end.
End Visitor.

(** ** [SecurityAuditService] *)

(** The outcome of [ast.parse]. *)
Inductive parsed : Type := Parsed (tree : node) | SyntaxError (message : string) (lineno : option Z) | ParseFailure (e : exc).

Definition audit_code_snippet (code : parsed) (filename : string) (is_router : bool) : result (list SecurityIssue) :=
  match code with
  | Parsed tree => Ok (visit (visit_node filename is_router) tree [])
  | SyntaxError message lineno =>
      let line := match lineno with Some l => if l =? 0 then 1 else l | None => 1 end in
      Ok [mkIssue "syntax-error" "HIGH" "HIGH" "CWE-20: Improper Input Validation" ("Syntax error in code: " +:+ message) filename line]
  | ParseFailure e => Raise e
  end.

(** A file under the target directory: its relative path, its parse (or the error of
    reading it), and its number of lines if it can be opened. *)
Record py_file : Type := mkPyFile { pf_rel : string; pf_code : result parsed; pf_lines : option Z }.

Definition audit_file (f : py_file) : list SecurityIssue :=
  let is_router := py_in "routers/" (pf_rel f) in
  match pf_code f with
  | Ok code => match audit_code_snippet code (pf_rel f) is_router with Ok issues => issues | Raise _ => [] end
  | Raise _ => []
  end.
(** [None]: the target directory does not exist. *)
Definition run_ast_audit (target : option (list py_file)) : list SecurityIssue :=
  match target with None => [] | Some files => files ≫= audit_file end.

Definition count_severity (severity : string) (issues : list SecurityIssue) : Z :=
  Z.of_nat (length (filter (fun i => si_severity i = severity) issues)).
Definition get_security_summary (bandit_issues : list SecurityIssue) (scanned_at : string) (target : option (list py_file)) : SecurityAuditReport :=
  let py_files := default [] target in
  let total_lines := Zsum ((fun f => default 0 (pf_lines f)) <$> py_files) in
  let ast_issues := run_ast_audit target in
  let combined_issues := ast_issues ++ match target with None => [] | Some _ => bandit_issues end in
  let high_count := count_severity "HIGH" combined_issues in
  let medium_count := count_severity "MEDIUM" combined_issues in
  let low_count := count_severity "LOW" combined_issues in
  let is_secure := (high_count =? 0) && (medium_count =? 0) in
  mkReport (if is_secure then "SECURE" else "VULNERABLE") (Z.of_nat (length py_files)) total_lines high_count medium_count low_count
    (Z.of_nat (length ast_issues)) combined_issues scanned_at.

(** ** What is reported *)

Lemma is_name_true n id : is_name n id = true <-> n = Name id.
Proof. destruct n; cbn; try (split; congruence). rewrite bool_decide_eq_true. split; congruence. Qed.

(** The rules, one constructor each. *)
Inductive violates (filename : string) (is_router : bool) : node -> SecurityIssue -> Prop :=
  | v_code_execution id args keywords line : id = "eval" \/ id = "exec" ->
      violates filename is_router (Call (Name id) args keywords line) (code_execution filename id line)
  | v_print args keywords line :
      violates filename is_router (Call (Name "print") args keywords line) (print_statement filename line)
  | v_random attr args keywords line : attr ∈ ["random"; "choice"; "randint"; "randrange"; "uniform"] ->
      py_endswith filename "backoff.py" = false ->
      violates filename is_router (Call (Attribute (Name "random") attr) args keywords line) (insecure_random filename attr line)
  | v_raw_sql session args keywords line arg sql_args sql_keywords sql_line : is_router = true ->
      arg = Call (Name "text") sql_args sql_keywords sql_line -> arg ∈ args ->
      violates filename is_router (Call (Attribute session "execute") args keywords line) (raw_sql filename line)
  | v_pickle attr args keywords line : attr = "load" \/ attr = "loads" ->
      violates filename is_router (Call (Attribute (Name "pickle") attr) args keywords line) (unsafe_pickle filename line)
  | v_secret targets id text line : py_in "config.py" filename = false -> Name id ∈ targets -> is_secret_name id = true ->
      8 <= Z.of_nat (String.length (py_strip text)) -> py_startswith (py_strip text) "${" = false ->
      violates filename is_router (Assign targets (StrConstant text) line) (hardcoded_secret filename id line).

Definition node_issues (filename : string) (is_router : bool) (n : node) : list SecurityIssue := visit_node filename is_router n [].
Lemma visit_node_app filename is_router n issues :
  visit_node filename is_router n issues = issues ++ node_issues filename is_router n.
Proof. destruct n; cbn; by rewrite ?app_nil_r. Qed.

Lemma elem_if {A} (b : bool) (x : A) l : x ∈ (if b then l else []) <-> b = true /\ x ∈ l.
Proof. destruct b; split; [auto|naive_solver|intros H; by apply elem_of_nil in H|naive_solver]. Qed.
Lemma node_issues_spec filename is_router n i : i ∈ node_issues filename is_router n <-> violates filename is_router n i.
Proof.
  split.
  - unfold node_issues. destruct n as [| | |func args keywords line|targets value line| | | | | | | |]; try (intros H; by apply elem_of_nil in H).
    + cbn [visit_node app]. unfold call_issues. destruct func as [id| |value attr| | | | | | | | | |]; try (intros H; by apply elem_of_nil in H).
      * case_bool_decide as H1; [|case_bool_decide as H2; [|intros H; by apply elem_of_nil in H]].
        -- intros ->%list_elem_of_singleton. constructor. set_solver.
        -- subst. intros ->%list_elem_of_singleton. constructor.
      * rewrite !elem_of_app, !elem_if, !andb_true_iff, !bool_decide_eq_true, negb_true_iff, !is_name_true.
        intros [(((-> & ?) & ?) & ->%list_elem_of_singleton)|[((Hr & ->) & H)|((-> & ?) & ->%list_elem_of_singleton)]].
        -- by constructor.
        -- apply list_elem_of_omap in H as (arg & Ha & Hi). destruct (is_text_call arg) eqn:Et; [|done]. injection Hi as <-.
           destruct arg as [| | |f sa sk sl| | | | | | | | |]; try done. destruct f; try done. apply bool_decide_eq_true in Et as ->.
           by econstructor.
        -- constructor. set_solver.
    + cbn [visit_node app]. unfold assign_issues. rewrite elem_if, negb_true_iff. intros (Hc & H).
      apply list_elem_of_omap in H as (target & Ht & Hi). destruct target; try done. destruct value as [|text| | | | | | | | | | |]; try done.
      destruct (_ && _) eqn:E; [|done]. injection Hi as <-. rewrite !andb_true_iff, negb_true_iff, Z.leb_le in E.
      destruct E as ((? & ?) & ?). by constructor.
  - intros H. unfold node_issues. destruct H as [id args kw line H|args kw line|attr args kw line H Hf|ses args kw line arg sa sk sl Hr -> Ha|attr args kw line H|targets id text line Hc Ht Hs Hl Hd];
      cbn [visit_node app]; unfold call_issues.
    + rewrite bool_decide_eq_true_2 by set_solver. set_solver.
    + set_solver.
    + rewrite Hf, (bool_decide_eq_true_2 (attr ∈ _)) by done. cbn -[py_endswith]. set_solver.
    + rewrite !elem_of_app. right. left. subst. rewrite elem_if. split; [done|]. apply list_elem_of_omap. by exists (Call (Name "text") sa sk sl).
    + rewrite !elem_of_app. right. right. rewrite elem_if, bool_decide_eq_true_2 by set_solver. split; [done|]. set_solver.
    + unfold assign_issues. rewrite elem_if, Hc. split; [done|]. apply list_elem_of_omap. exists (Name id). split; [done|].
      apply Z.leb_le in Hl. by rewrite Hs, Hl, Hd.
Qed.

Lemma foldl_visit filename is_router ns issues :
  foldl (fun s n => visit_node filename is_router n s) issues ns = issues ++ (ns ≫= node_issues filename is_router).
Proof.
  revert issues. induction ns as [|n ns IH]; intros issues; cbn [foldl]; [by rewrite app_nil_r|].
  by rewrite IH, visit_node_app, bind_cons, <-app_assoc.
Qed.

(** The visitor reports an issue exactly when some node anywhere in the tree violates
    one of the rules, in the order of a preorder traversal. *)
Theorem audit_snippet_complete tree filename is_router :
  exists issues, audit_code_snippet (Parsed tree) filename is_router = Ok issues /\
    issues = subnodes tree ≫= node_issues filename is_router /\
    forall i, i ∈ issues <-> exists n, n ∈ subnodes tree /\ violates filename is_router n i.
Proof.
  eexists. split; [done|]. rewrite visit_preorder, foldl_visit. cbn [app]. split; [done|]. intros i.
  rewrite list_elem_of_bind. setoid_rewrite node_issues_spec. naive_solver.
Qed.

(** The report: secure exactly when nothing of high or medium severity was found by either
    scanner, and the counts are those of the listed issues. *)
Theorem security_summary_correct bandit scanned_at files :
  let r := get_security_summary bandit scanned_at (Some files) in
  rp_issues r = run_ast_audit (Some files) ++ bandit /\
  (rp_status r = "SECURE" <-> forall i, i ∈ rp_issues r -> si_severity i <> "HIGH" /\ si_severity i <> "MEDIUM") /\
  rp_high_severity_count r + rp_medium_severity_count r + rp_low_severity_count r <= Z.of_nat (length (rp_issues r)) /\
  rp_ast_violations_count r <= Z.of_nat (length (rp_issues r)).
Proof.
  cbn zeta. unfold get_security_summary. cbn [rp_issues rp_status rp_high_severity_count rp_medium_severity_count rp_low_severity_count rp_ast_violations_count default].
  set (all := run_ast_audit (Some files) ++ bandit).
  assert (forall sev, count_severity sev all = 0 <-> forall i, i ∈ all -> si_severity i <> sev) as Hc.
  { intros sev. unfold count_severity. generalize all as l. induction l as [|i l IH]; [split; [intros _ i H; by apply elem_of_nil in H|done]|].
    rewrite filter_cons. case_decide as Hd; cbn; [split; [lia|intros H; destruct (H i); [set_solver|done]]|]. rewrite IH. set_solver. }
  split_and!; [done| | |].
  - destruct (Z.eqb_spec (count_severity "HIGH" all) 0) as [E1|E1], (Z.eqb_spec (count_severity "MEDIUM" all) 0) as [E2|E2]; cbn;
      rewrite ?Hc in *; (split; [try done; auto|intros H; try done; exfalso; naive_solver]).
  - unfold count_severity. generalize all as l. induction l as [|i l IH]; [done|]. rewrite !filter_cons.
    repeat case_decide; cbn [length]; try lia; congruence.
  - unfold all. rewrite length_app. lia.
Qed.

(** ** What the rules do not see *)

(** An annotated assignment of a secret, a pseudo-random function imported by name, and
    the deserialization of an aliased module are not reported. *)
Example unseen_by_the_audit :
  let annotated_secret := Other [Name "api_key"; Name "str"; StrConstant "sk-live-0123456789"] in
  let imported_choice := Other [ImportFrom (Some "random") ["choice"] 0 1; Call (Name "choice") [] [] 2] in
  let aliased_pickle := Other [Import ["pickle"] 1; Call (Attribute (Name "p") "loads") [] [] 2] in
  audit_code_snippet (Parsed (Other [annotated_secret; imported_choice; aliased_pickle])) "app/x.py" false = Ok [].
Proof. vm_compute. reflexivity. Qed.
Example assigned_secret_reported :
  audit_code_snippet (Parsed (Other [Assign [Name "API_KEY"] (StrConstant "sk-live-0123456789") 3])) "app/x.py" false
  = Ok [hardcoded_secret "app/x.py" "API_KEY" 3] /\
  audit_code_snippet (Parsed (Other [Assign [Name "API_KEY"] (StrConstant "sk-live-0123456789") 3])) "app/my_config.py" false = Ok [].
Proof. split; vm_compute; reflexivity. Qed.
