(* ===== verification/Notifications.v ===== *)
(** Notification and audit logs: [app/services/notification_service.py].

    The two module-level stores are bounded queues, [collections.deque(maxlen=1000)].
    Timestamps are integers; whether the simulated delivery fails is an argument. *)

From S2P Require Import Prelude.

Local Open Scope py_scope.

Definition MAX_AUDIT_ENTRIES : nat := Z.to_nat 1000.
Definition MAX_NOTIFICATION_ENTRIES : nat := Z.to_nat 1000.

Record AuditLogEntry : Type := mkAudit { al_action : string; al_user_id : Z; al_timestamp : Z }.
Record NotificationDispatchEntry : Type := mkDispatch {
  nd_email : string; nd_username : string; nd_timestamp : Z; nd_status : string }.

(** [deque.append] with a maximal length drops from the left. *)
Definition deque_append {A} (maxlen : nat) (x : A) (q : list A) : list A :=
  let q' := q ++ [x] in drop (length q' - maxlen) q'.

Record logs : Type := mkLogs { lg_audit : list AuditLogEntry; lg_dispatch : list NotificationDispatchEntry }.
Definition logs_init : logs := mkLogs [] [].

(** [failure] is what the delivery raises: it is logged and swallowed. *)
Definition send_welcome_notification (failure : option exc) (now : Z) (email username : string) : M logs () :=
  try_except
    (match failure with Some e => raise e | None => ret () end ;;;
     modify (fun s => mkLogs (lg_audit s) (deque_append MAX_NOTIFICATION_ENTRIES (mkDispatch email username now "dispatched") (lg_dispatch s))))
    (fun _ => ret ()).
Definition record_audit_log (action : string) (user_id timestamp : Z) : M logs () :=
  try_except (modify (fun s => mkLogs (deque_append MAX_AUDIT_ENTRIES (mkAudit action user_id timestamp) (lg_audit s)) (lg_dispatch s)))
    (fun _ => ret ()).
Definition get_audit_logs (s : logs) : list AuditLogEntry := lg_audit s.
Definition get_notification_logs (s : logs) : list NotificationDispatchEntry := lg_dispatch s.
Definition clear_notification_service (s : logs) : logs := mkLogs [] [].

(** The background tasks of one process. *)
Inductive log_op : Type :=
  | OpNotify (failure : option exc) (now : Z) (email username : string)
  | OpAudit (action : string) (user_id timestamp : Z).
Definition log_step (o : log_op) (s : logs) : result () * logs :=
  match o with
  | OpNotify failure now email username => send_welcome_notification failure now email username s
  | OpAudit action user_id timestamp => record_audit_log action user_id timestamp s
  end.
Definition log_run (os : list log_op) (s : logs) : logs := foldl (fun s o => (log_step o s).2) s os.

(** What the tasks of a run record, without any bound. *)
Definition audited (os : list log_op) : list AuditLogEntry :=
  omap (fun o => match o with OpAudit a u t => Some (mkAudit a u t) | _ => None end) os.
Definition dispatched (os : list log_op) : list NotificationDispatchEntry :=
  omap (fun o => match o with OpNotify None t e u => Some (mkDispatch e u t "dispatched") | _ => None end) os.
Definition newest {A} (n : nat) (l : list A) : list A := drop (length l - n) l.

Lemma deque_append_newest {A} n (l : list A) x : deque_append n x (newest n l) = newest n (l ++ [x]).
Proof.
  unfold deque_append, newest. rewrite !length_app, length_drop. cbn. destruct (decide (length l <= n)).
  - replace (length l - n) with 0 by lia. rewrite drop_0. f_equal. lia.
  - rewrite <-drop_app_le by lia. rewrite drop_drop. f_equal. lia.
Qed.
Lemma newest_length {A} n (l : list A) : length (newest n l) <= n.
Proof. unfold newest. rewrite length_drop. lia. Qed.

(** Over every run the stores hold exactly the newest thousand entries of what was
    recorded, in order; failed deliveries record nothing; and no task raises. *)
Theorem logs_hold_newest os :
  let s := log_run os logs_init in
  get_audit_logs s = newest MAX_AUDIT_ENTRIES (audited os) /\
  get_notification_logs s = newest MAX_NOTIFICATION_ENTRIES (dispatched os) /\
  length (get_audit_logs s) <= MAX_AUDIT_ENTRIES /\ length (get_notification_logs s) <= MAX_NOTIFICATION_ENTRIES /\
  forall o s', (log_step o s').1 = Ok ().
Proof.
  cbn zeta. assert (lg_audit (log_run os logs_init) = newest MAX_AUDIT_ENTRIES (audited os) /\
    lg_dispatch (log_run os logs_init) = newest MAX_NOTIFICATION_ENTRIES (dispatched os)) as [Ha Hd].
  { induction os as [|o os [IHa IHd]] using rev_ind; [done|]. unfold log_run, audited, dispatched in *. rewrite foldl_app, !omap_app.
    cbn [foldl]. destruct o as [[e|] now email username|action user ts]; cbn; rewrite ?app_nil_r, ?IHa, ?IHd; auto using deque_append_newest. }
  unfold get_audit_logs, get_notification_logs. rewrite Ha, Hd. split_and!; [done..| | |]; try apply newest_length.
  intros [[e|] now email username|action user ts] s'; done.
Qed.
