(* ===== verification/Rounding.v ===== *)
(** Python's [round(x, digits)] on numbers taken as rationals: half to even, monotone,
    and the same for equal numbers. *)

From Stdlib Require Import QArith.
From S2P Require Import Prelude.

Local Open Scope Z_scope.

Definition round_to (digits : Z) (x : Q) : Q := (rhe (Qnum x * 10 ^ digits) (Zpos (Qden x)) # Z.to_pos (10 ^ digits))%Q.

(** Rounding does not depend on how the fraction is written. *)
Lemma rhe_scale n d k : 0 < d -> 0 < k -> rhe (n * k) (d * k) = rhe n d.
Proof.
  intros Hd Hk. unfold rhe. rewrite Z.div_mul_cancel_r, Z.mul_mod_distr_r by lia.
  assert ((2 * (n mod d * k) <? d * k) = (2 * (n mod d) <? d)) as -> by (apply eq_true_iff_eq; rewrite !Z.ltb_lt; nia).
  assert ((d * k <? 2 * (n mod d * k)) = (d <? 2 * (n mod d))) as -> by (apply eq_true_iff_eq; rewrite !Z.ltb_lt; nia).
  done.
Qed.

Lemma rhe_mono_frac n d n' d' : 0 < d -> 0 < d' -> n * d' <= n' * d -> rhe n d <= rhe n' d'.
Proof.
  intros Hd Hd' Hle. rewrite <-(rhe_scale n d d'), <-(rhe_scale n' d' d) by done.
  rewrite (Z.mul_comm d' d). apply rhe_mono; nia.
Qed.

Lemma round_to_mono digits x y : 0 <= digits -> (x <= y)%Q -> (round_to digits x <= round_to digits y)%Q.
Proof.
  intros Hk. unfold round_to, Qle. cbn [Qnum Qden]. intros Hxy.
  assert (0 < 10 ^ digits) by (apply Z.pow_pos_nonneg; lia).
  apply Z.mul_le_mono_nonneg_r; [lia|]. apply rhe_mono_frac; [lia|lia|nia].
Qed.

Lemma round_to_proper digits x y : 0 <= digits -> (x == y)%Q -> (round_to digits x == round_to digits y)%Q.
Proof. intros Hk Hxy. apply Qle_antisym; apply round_to_mono; try done; rewrite Hxy; apply Qle_refl. Qed.

Example round_half_even : round_to 1 (25 # 100) = (2 # 10)%Q /\ round_to 1 (35 # 100) = (4 # 10)%Q.
Proof. split; reflexivity. Qed.
