(* ===== verification/Resilience.v ===== *)
(** The services over the resilience primitives: [app/services/resilient_payment_service.py],
    [app/services/resilient_report_service.py], [app/services/resilient_third_party_service.py],
    [app/services/recommendation_service.py], and their endpoints in
    [app/routers/resilience_router.py] with the schemas of [app/schemas/resilience.py].

    Identifiers and clocks are arguments, times of the breaker are microseconds, delays
    and prices are rational numbers. *)

From Stdlib Require Import QArith.
From S2P Require Import Prelude Rounding Redis CircuitBreaker Bulkhead Backoff Fallback.

Local Open Scope Z_scope.
Local Open Scope py_scope.

Definition within (lo hi x : Q) : bool := Qle_bool lo x && Qle_bool x hi.

(** ** [ResilientPaymentService] *)

Definition payment_breaker : cb_config := mkConfig 5 30000000 2.

(** The breaker and the number of calls that reached the gateway. *)
Definition payment_service : Type := cb * Z.
Definition payment_service_init (now : Z) : result payment_service := let? c := cb_init payment_breaker now in Ok (c, 0).
Definition payment_reset (now : Z) (s : payment_service) : payment_service := (cb_reset now s.1, 0).

Record receipt : Type := mkReceipt {
  rc_transaction_id : string; rc_amount : Q; rc_currency : string; rc_status : string; rc_circuit_state : CircuitState; rc_created_at : Z }.

Definition raw_external_gateway_call (now : Z) (uid : string) (amount : Q) (currency : string) (should_fail : bool)
    : M payment_service receipt :=
  modify (fun s => (s.1, s.2 + 1)) ;;;
  raise_if should_fail PyRuntimeError ;;;
  let! state := lift_l (fun c => let '(st, c') := cb_get_state payment_breaker now c in (Ok st, c')) in
  ret (mkReceipt ("txn_ext_" +:+ uid) amount currency "succeeded" state now).

(** [execute_external_charge]: [CircuitBreaker.execute_async] around the gateway call,
    which starts at [t0] and ends at [t1]. *)
Definition execute_external_charge (t0 t1 : Z) (uid : string) (amount : Q) (currency : string) (should_fail : bool)
    : M payment_service receipt :=
  lift_l (before_call payment_breaker t0) ;;; fun s =>
  match raw_external_gateway_call t1 uid amount currency should_fail s with
  | (Ok r, s') => (Ok r, (on_success payment_breaker t1 s'.1, s'.2))
  | (Raise CircuitBreakerOpenException, s') => (Raise CircuitBreakerOpenException, s')
  | (Raise e, s') => (Raise e, (on_failure payment_breaker t1 s'.1, s'.2))
  end.

Definition execute_circuit_breaker_charge_endpoint (t0 t1 : Z) (uid : string) (amount : Q) (currency : string) (should_fail : bool)
    : M payment_service receipt :=
  raise_if (Qle_bool amount 0 || negb ((3 <=? Z.of_nat (String.length currency)) && (Z.of_nat (String.length currency) <=? 10)))
    PydanticValidationError ;;;
  execute_external_charge t0 t1 uid amount currency should_fail.

(** [CircuitBreaker.get_metrics] *)
Record cb_metrics : Type := mkCbMetrics {
  cm_name : string; cm_state : CircuitState; cm_consecutive_failures : Z; cm_consecutive_successes : Z; cm_failure_threshold : Z;
  cm_recovery_timeout : Z; cm_half_open_success_threshold : Z; cm_remaining_recovery_time : Z;
  cm_total_calls : Z; cm_total_successes : Z; cm_total_failures : Z; cm_total_short_circuits : Z }.
Definition cb_get_metrics (name : string) (cfg : cb_config) (now : Z) (c : cb) : cb_metrics * cb :=
  let c := evaluate_state cfg now c in
  (mkCbMetrics name (c_state c) (c_failures c) (c_successes c) (failure_threshold cfg) (recovery_timeout cfg)
     (half_open_success_threshold cfg) (remaining_recovery_time cfg now c) (c_total_calls c) (c_total_successes c)
     (c_total_failures c) (c_short_circuits c), c).
Definition get_circuit_breaker_metrics_endpoint (now : Z) (s : payment_service) : cb_metrics * payment_service :=
  let '(m, c) := cb_get_metrics "payment_gateway" payment_breaker now s.1 in (m, (c, s.2)).

(** ** [ResilientReportService] *)

Definition HEAVY_SLOTS : Z := 2.
Definition LIGHT_SLOTS : Z := 20.
Record report_service : Type := mkReports { rs_heavy : bulkhead; rs_light : bulkhead }.
Definition report_service_init : result report_service :=
  let? heavy := bh_init HEAVY_SLOTS 0 in let? light := bh_init LIGHT_SLOTS 0 in Ok (mkReports heavy light).
Definition report_reset (s : report_service) : report_service := mkReports (bh_reset HEAVY_SLOTS (rs_heavy s)) (bh_reset LIGHT_SLOTS (rs_light s)).

Record job : Type := mkJob { jb_job_id : string; jb_report_id : string; jb_compartment : string; jb_duration : Q; jb_status : string; jb_completed_at : Z }.

(** Entering and leaving the compartments: [async with] around the work. *)
Definition heavy_enter (s : report_service) : entered * report_service :=
  let '(e, b) := bh_aenter HEAVY_SLOTS 0 (rs_heavy s) in (e, mkReports b (rs_light s)).
Definition heavy_exit (s : report_service) : report_service := mkReports (bh_aexit false (rs_heavy s)) (rs_light s).
Definition light_enter (s : report_service) : entered * report_service :=
  let '(e, b) := bh_aenter LIGHT_SLOTS 0 (rs_light s) in (e, mkReports (rs_heavy s) b).
Definition light_exit (s : report_service) : report_service := mkReports (rs_heavy s) (bh_aexit false (rs_light s)).

(** The two operations; [meanwhile] is what other tasks do while the report is computed.
    A task is never queued since the compartments have no queue. *)
Definition generate_heavy_report (meanwhile : report_service -> report_service) (now : Z) (uid report_id : string) (duration_seconds : Q)
    : M report_service job := fun s =>
  match heavy_enter s with
  | (Entered, s1) =>
      let s2 := if Qle_bool duration_seconds 0 then s1 else meanwhile s1 in
      (Ok (mkJob ("job_hvy_" +:+ uid) report_id "heavy_reporting" duration_seconds "completed" now), heavy_exit s2)
  | (_, s1) => (Raise BulkheadFullException, s1)
  end.
Definition get_critical_status (now : Z) (uid : string) : M report_service job := fun s =>
  match light_enter s with
  | (Entered, s1) =>
      (Ok (mkJob ("job_crit_" +:+ uid) "critical_health_probe" "light_critical" 0 "completed" now), light_exit s1)
  | (_, s1) => (Raise BulkheadFullException, s1)
  end.
Definition execute_bulkhead_heavy_job_endpoint (meanwhile : report_service -> report_service) (now : Z) (uid report_id : string)
    (duration_seconds : Q) : M report_service job :=
  let n := Z.of_nat (String.length report_id) in
  raise_if (negb ((3 <=? n) && (n <=? 100) && within 0 10 duration_seconds)) PydanticValidationError ;;;
  generate_heavy_report meanwhile now uid report_id duration_seconds.

Record bh_metrics : Type := mkBhMetrics {
  bm_name : string; bm_max_concurrent : Z; bm_max_queue : Z; bm_active_count : Z; bm_waiting_count : Z; bm_available_slots : Z;
  bm_rejections_count : Z; bm_total_calls : Z; bm_total_successes : Z; bm_total_failures : Z }.
Definition bh_get_metrics (name : string) (max_concurrent max_queue : Z) (b : bulkhead) : bh_metrics :=
  mkBhMetrics name max_concurrent max_queue (b_active b) (b_waiting b) (available_slots max_concurrent b) (b_rejections b) (b_calls b)
    (b_successes b) (b_failures b).
Definition report_get_metrics (s : report_service) : list (string * bh_metrics) :=
  [("heavy_reporting", bh_get_metrics "heavy_reporting" HEAVY_SLOTS 0 (rs_heavy s));
   ("light_critical", bh_get_metrics "light_critical" LIGHT_SLOTS 0 (rs_light s))].

(** ** [ResilientThirdPartyService] *)

(** [_call_counters] *)
Definition call_counters : Type := list (string * Z).
Definition third_party_reset (target_id : option string) (s : call_counters) : call_counters :=
  match target_id with Some id => dict_del s id | None => [] end.

Record simulation : Type := mkSimulation {
  sm_target_id : string; sm_success : bool; sm_attempts_made : Z; sm_retries_count : Z; sm_delays : list Q;
  sm_total_delay_seconds : Q; sm_completed_call_count : Z }.

(** The [n]-th call of [downstream_call], counted from zero. *)
Definition downstream_call (failures_before_success : Z) (n : nat) : result Z :=
  let current_call := Z.of_nat n + 1 in
  if current_call <=? failures_before_success then Raise ServiceUnavailableException else Ok current_call.
Definition retry_exceptions (e : exc) : bool := bool_decide (e = ServiceUnavailableException \/ e = PyTimeoutError).

(** The run counts its calls in the dictionary; the delays are those [on_retry] sees. *)
Definition execute_simulated_call (draw : nat -> Q) (target_id : string) (failures_before_success max_retries : Z)
    (base_delay max_delay : Q) (strategy : string) : M call_counters simulation := fun s =>
  let r := retry_with_backoff max_retries base_delay max_delay strategy retry_exceptions (downstream_call failures_before_success) draw in
  let s' := dict_set (dict_set s target_id 0) target_id (Z.of_nat (r_calls r)) in
  match r_result r with
  | Ok completed =>
      (Ok (mkSimulation target_id true (default 0 (dict_get s' target_id)) (Z.of_nat (length (r_delays r))) (r_delays r)
             (round_to 4 (foldr Qplus 0%Q (r_delays r))) completed), s')
  | Raise e => (Raise e, s')
  end.
Definition simulate_backoff_retry_endpoint (draw : nat -> Q) (target_id : string) (failures_before_success max_retries : Z)
    (base_delay max_delay : Q) (strategy : string) : M call_counters simulation :=
  let n := Z.of_nat (String.length target_id) in
  raise_if (negb ((2 <=? n) && (n <=? 100) && (0 <=? failures_before_success) && (failures_before_success <=? 10)
                  && (1 <=? max_retries) && (max_retries <=? 10) && within (1 # 1000) 10 base_delay && within (1 # 100) 60 max_delay))
    PydanticValidationError ;;;
  execute_simulated_call draw target_id failures_before_success max_retries base_delay max_delay strategy.

(** ** The distribution endpoint *)

Record distribution : Type := mkDistribution {
  ds_attempt : Z; ds_strategy : string; ds_base_delay : Q; ds_max_delay : Q; ds_upper_bound : Q; ds_samples : Z;
  ds_min_delay : Q; ds_max_calculated_delay : Q; ds_mean_delay : Q; ds_delays : list Q }.
Fixpoint sample_delays (draw : nat -> Q) (n : nat) (attempt : Z) (base_delay max_delay : Q) (strategy : string) (prev_delay : option Q)
    : result (list Q) :=
  match n with
  | O => Ok []
  | S n' =>
      let? delay := calculate_backoff (draw n') attempt base_delay max_delay strategy prev_delay in
      let? rest := sample_delays draw n' attempt base_delay max_delay strategy (Some delay) in
      Ok (round_to 6 delay :: rest)
  end.
Definition fold1 (f : Q -> Q -> Q) (l : list Q) : Q := match l with [] => 0%Q | x :: l' => foldl f x l' end.
Definition get_backoff_distribution_endpoint (draw : nat -> Q) (attempt : Z) (base_delay max_delay : Q) (strategy : string) (samples : Z)
    : result distribution :=
  if negb ((0 <=? attempt) && (attempt <=? 30) && within (1 # 1000) 10 base_delay && within (1 # 100) 60 max_delay
           && (1 <=? samples) && (samples <=? 1000))
  then Raise PydanticValidationError
  else
    let? delays := sample_delays draw (Z.to_nat samples) attempt base_delay max_delay strategy None in
    let safe_base := fmax (1 # 10000) base_delay in
    let safe_max := fmax safe_base max_delay in
    let upper_bound := fmin safe_max (safe_base * inject_Z (2 ^ Z.min attempt 30))%Q in
    Ok (mkDistribution attempt strategy base_delay max_delay (round_to 6 upper_bound) samples
          (fold1 fmin delays) (fold1 fmax delays)
          (round_to 6 (foldr Qplus 0 delays / inject_Z (Z.of_nat (length delays)))%Q) delays).

(** ** [ProductRecommendationService] *)

Record product_item : Type := mkProductItem { pi_product_id : string; pi_title : string; pi_price : Q; pi_category : string; pi_score : Q }.
Definition DEFAULT_TRENDING_PRODUCTS : list product_item := [
  mkProductItem "prod_trend_1" "Wireless Noise-Cancelling Headphones" (14999 # 100) "Audio" (99 # 100);
  mkProductItem "prod_trend_2" "Ergonomic Mechanical Keyboard" (11950 # 100) "Peripherals" (97 # 100);
  mkProductItem "prod_trend_3" "Ultra-Wide 4K Gaming Monitor" (49900 # 100) "Displays" (95 # 100);
  mkProductItem "prod_trend_4" "Smart Fitness Tracker Band" (5999 # 100) "Wearables" (93 # 100);
  mkProductItem "prod_trend_5" "USB-C Multi-Port Hub" (3999 # 100) "Accessories" (90 # 100) ].

(** [primary_ai_call] *)
Definition primary_ai_call (str : Z -> string) (user_id : Z) (simulate_failure : bool) : result (list product_item) :=
  if simulate_failure then Raise ServiceUnavailableException
  else Ok ((fun idx => mkProductItem ("prod_ai_" +:+ str user_id +:+ "_" +:+ str idx)
              ("AI Curated Recommendation #" +:+ str idx +:+ " for User " +:+ str user_id)
              (round_to 2 ((2999 # 100) + inject_Z (user_id mod 7) * (45 # 10) + inject_Z idx * 8)%Q)
              "Personalized Recommendations" (round_to 2 ((99 # 100) - inject_Z idx * (4 # 100))%Q)) <$> [1; 2; 3]).

Record recommendation : Type := mkRecommendation {
  rm_user_id : Z; rm_items : list product_item; rm_degraded : bool; rm_degradation_level : DegradationLevel; rm_served_at : Z }.

Section Recommendations.
Context {V RD : Type} {Srv : RedisServer RD V}.
Context (serialize : list product_item -> result V) (deserialize : V -> result (option (list product_item))).
(** [str] of an integer. *)
Context (str : Z -> string).

Definition recs_key (user_id : Z) : string := "recs:user:" +:+ str user_id.
Definition is_primary (l : DegradationLevel) : bool := match l with PRIMARY => true | _ => false end.

Definition get_personalized_recommendations (up : bool) (now : Z) (user_id : Z) (simulate_failure : bool) (rd : RD)
    : result (recommendation * DegradationLevel) * RD :=
  let '(r, rd') := execute_with_fallback serialize deserialize up now (primary_ai_call str user_id simulate_failure)
                     (Some (recs_key user_id)) DEFAULT_TRENDING_PRODUCTS 3600 rd in
  (let? '(raw_items, level) := r in Ok (mkRecommendation user_id raw_items (negb (is_primary level)) level now, level), rd').

Definition seed_user_cache (up : bool) (now : Z) (user_id : Z) (items : list product_item) (ttl_seconds : Z) (rd : RD) : string * RD :=
  (recs_key user_id, safe_cache_set serialize up now (recs_key user_id) items ttl_seconds rd).

(** The endpoint: the payload and the two response headers. *)
Definition get_personalized_recommendations_endpoint (up : bool) (now : Z) (user_id : Z) (simulate_failure : bool) (rd : RD)
    : result (recommendation * (string * DegradationLevel)) * RD :=
  let '(r, rd') := get_personalized_recommendations up now user_id simulate_failure rd in
  (let? '(result, level) := r in Ok (result, (if is_primary level then "FALSE" else "TRUE", level)), rd').
Definition seed_recommendations_cache_endpoint (up : bool) (now : Z) (user_id : Z) (items : list product_item) (ttl_seconds : Z)
    : M RD (Z * Z * string * Z * string) :=
  raise_if (negb ((1 <=? user_id) && (1 <=? Z.of_nat (length items)) && (1 <=? ttl_seconds) && (ttl_seconds <=? 86400))) PydanticValidationError ;;;
  fun rd => let '(cache_key, rd') := seed_user_cache up now user_id items ttl_seconds rd in
            (Ok (user_id, Z.of_nat (length items), cache_key, ttl_seconds, "seeded"), rd').
End Recommendations.

(** ** The gateway behind its breaker *)

(** One charge reaches the gateway exactly when the breaker admits it. *)
Theorem external_charge_correct t0 t1 uid amount currency should_fail c n :
  let '(r, s') := execute_external_charge t0 t1 uid amount currency should_fail (c, n) in
  match before_call payment_breaker t0 c with
  | (Raise _, c1) => r = Raise CircuitBreakerOpenException /\ s' = (c1, n)
  | (Ok _, c1) =>
      if should_fail then r = Raise PyRuntimeError /\ s' = (on_failure payment_breaker t1 c1, n + 1)
      else s' = (on_success payment_breaker t1 (evaluate_state payment_breaker t1 c1), n + 1) /\
        r = Ok (mkReceipt ("txn_ext_" +:+ uid) amount currency "succeeded" (c_state (evaluate_state payment_breaker t1 c1)) t1)
  end.
Proof.
  unfold execute_external_charge, lift_l, bind. cbn [fst snd].
  destruct (before_call payment_breaker t0 c) as [[[]|e] c1] eqn:E.
  - unfold raw_external_gateway_call. autorewrite with pym. destruct should_fail; cbn; [done|]. unfold lift_l, bind. cbn. done.
  - unfold before_call in E. destruct (c_state (evaluate_state payment_breaker t0 c)); simplify_eq; done.
Qed.

Record charge : Type := mkCharge { ch_t0 : Z; ch_t1 : Z; ch_uid : string; ch_amount : Q; ch_currency : string; ch_should_fail : bool }.
Definition do_charge (s : payment_service) (k : charge) : payment_service :=
  (execute_external_charge (ch_t0 k) (ch_t1 k) (ch_uid k) (ch_amount k) (ch_currency k) (ch_should_fail k) s).2.

Definition charge_result (s : payment_service) (k : charge) : result receipt :=
  (execute_external_charge (ch_t0 k) (ch_t1 k) (ch_uid k) (ch_amount k) (ch_currency k) (ch_should_fail k) s).1.

(** The gateway is cut off until [t]: however many charges are tried before, none reaches
    it and each is refused. *)
Definition cut_off_until (t : Z) (s : payment_service) : Prop :=
  forall ks, Forall (fun k => ch_t0 k < t) ks ->
    (foldl do_charge s ks).2 = s.2 /\
    forall k, ch_t0 k < t -> charge_result (foldl do_charge s ks) k = Raise CircuitBreakerOpenException.

Lemma open_rejects c n k : c_state c = OPEN -> ch_t0 k < c_changed c + 30000000 ->
  charge_result (c, n) k = Raise CircuitBreakerOpenException /\
  exists c', do_charge (c, n) k = (c', n) /\ c_state c' = OPEN /\ c_changed c' = c_changed c.
Proof.
  intros Ho Ht. unfold do_charge, charge_result.
  pose proof (external_charge_correct (ch_t0 k) (ch_t1 k) (ch_uid k) (ch_amount k) (ch_currency k) (ch_should_fail k) c n) as H.
  destruct (execute_external_charge _ _ _ _ _ _ _) as [r s']. cbn [fst snd]. revert H. unfold before_call, evaluate_state. rewrite Ho. cbn [recovery_timeout payment_breaker].
  destruct (Z.leb_spec 30000000 (ch_t0 k - c_changed c)); [lia|]. rewrite Ho. intros [-> ->]. split; [done|]. eexists. split; [done|]. done.
Qed.
Lemma open_rejects_all ks c n : c_state c = OPEN -> Forall (fun k => ch_t0 k < c_changed c + 30000000) ks ->
  exists c', foldl do_charge (c, n) ks = (c', n) /\ c_state c' = OPEN /\ c_changed c' = c_changed c.
Proof.
  revert c. induction ks as [|k ks IH]; intros c Ho Hk; [by exists c|]. apply Forall_cons in Hk as [Hk Hks].
  destruct (open_rejects c n k Ho Hk) as (_ & c' & E & Ho' & Ec). cbn. rewrite E. rewrite <-Ec in *. by apply IH.
Qed.
Lemma open_cut_off c n t : c_state c = OPEN -> c_changed c = t -> cut_off_until (t + 30000000) (c, n).
Proof.
  intros Ho <- ks Hks. destruct (open_rejects_all ks c n Ho Hks) as (c' & -> & Ho' & Ec). split; [done|].
  intros k Hk. apply open_rejects; [done|]. by rewrite Ec.
Qed.
(** A charge the half-open breaker admits: a failure opens it again, and of two
    successes the second closes it. *)
Lemma probe_counts c n k : c_state (evaluate_state payment_breaker (ch_t0 k) c) = HALF_OPEN ->
  exists c', do_charge (c, n) k = (c', n + 1) /\
    (ch_should_fail k = true -> c_state c' = OPEN /\ c_changed c' = ch_t1 k) /\
    (ch_should_fail k = false ->
       let succ := c_successes (evaluate_state payment_breaker (ch_t0 k) c) + 1 in
       if 2 <=? succ then c_state c' = CLOSED /\ c_failures c' = 0 else c_state c' = HALF_OPEN /\ c_successes c' = succ).
Proof.
  set (d := evaluate_state payment_breaker (ch_t0 k) c). intros Hh. unfold do_charge.
  pose proof (external_charge_correct (ch_t0 k) (ch_t1 k) (ch_uid k) (ch_amount k) (ch_currency k) (ch_should_fail k) c n) as H.
  destruct (execute_external_charge _ _ _ _ _ _ _) as [r s']. cbn [snd]. revert H. unfold before_call. fold d. rewrite Hh.
  destruct (ch_should_fail k).
  - intros [_ ->]. eexists. split; [done|]. split; [|done]. unfold on_failure. cbn. done.
  - intros [-> _]. eexists. split; [done|]. split; [done|]. intros _. unfold on_success, evaluate_state. cbn.
    destruct (2 <=? c_successes d + 1); done.
Qed.
Lemma closed_counts c n k : c_state c = CLOSED -> ch_should_fail k = true ->
  exists c', do_charge (c, n) k = (c', n + 1) /\ c_failures c' = c_failures c + 1 /\
    c_state c' = (if 5 <=? c_failures c + 1 then OPEN else CLOSED) /\ (5 <= c_failures c + 1 -> c_changed c' = ch_t1 k).
Proof.
  intros Hc Hf. unfold do_charge.
  pose proof (external_charge_correct (ch_t0 k) (ch_t1 k) (ch_uid k) (ch_amount k) (ch_currency k) (ch_should_fail k) c n) as H.
  destruct (execute_external_charge _ _ _ _ _ _ _) as [r s']. cbn [snd]. revert H. unfold before_call, evaluate_state. rewrite Hc, Hf.
  rewrite Hc. intros [_ ->]. eexists. split; [done|]. unfold on_failure. cbn [c_state c_failures failure_threshold payment_breaker].
  rewrite ?Hc. destruct (Z.leb_spec 5 (c_failures c + 1)); cbn; split_and!; try done; lia.
Qed.

(** Five failures in a row open a closed breaker. *)
Lemma five_failures_open c n (fails : list charge) k5 : c_state c = CLOSED -> c_failures c = 0 ->
  length fails = 4%nat -> Forall (fun k => ch_should_fail k = true) (fails ++ [k5]) ->
  exists c5, foldl do_charge (c, n) (fails ++ [k5]) = (c5, n + 5) /\ c_state c5 = OPEN /\ c_changed c5 = ch_t1 k5.
Proof.
  intros Hc H0 Hlen Hf. destruct fails as [|k1 [|k2 [|k3 [|k4 []]]]]; try done. cbn [app] in *.
  repeat (let H := fresh "Hk" in apply Forall_cons in Hf as [H Hf]).
  destruct (closed_counts c n k1) as (c1 & E1 & F1 & S1 & _); [done..|].
  destruct (closed_counts c1 (n + 1) k2) as (c2 & E2 & F2 & S2 & _); [by rewrite S1, H0|done|].
  destruct (closed_counts c2 (n + 1 + 1) k3) as (c3 & E3 & F3 & S3 & _); [by rewrite S2, F1, H0|done|].
  destruct (closed_counts c3 (n + 1 + 1 + 1) k4) as (c4 & E4 & F4 & S4 & _); [by rewrite S3, F2, F1, H0|done|].
  destruct (closed_counts c4 (n + 1 + 1 + 1 + 1) k5) as (c5 & E5 & F5 & S5 & Ht); [by rewrite S4, F3, F2, F1, H0|done|].
  assert (c_failures c4 = 4) as F4' by (rewrite F4, F3, F2, F1, H0; done). rewrite F4' in *.
  exists c5. cbn [foldl]. rewrite E1, E2, E3, E4, E5. split; [f_equal; lia|]. split; [done|]. apply Ht. lia.
Qed.

(** C36: Five charges in a row that fail at the gateway cut it off: from a service whose
    breaker is closed without a counted failure (a new or reset one, or one after a
    success), the gateway sees those five calls, and until thirty seconds after the fifth
    failure every charge is refused without a call.  The next charge reaches the gateway:
    if it fails, the gateway is cut off for another thirty seconds; if it succeeds, the
    charge after it is admitted too and decides, a failure cutting the gateway off again
    and a success, the second, closing the breaker.  Charges run one after the other, since
    a charge does not suspend between its admission and its outcome. *)
Theorem failing_gateway_isolated c n (fails : list charge) k5 :
  c_state c = CLOSED -> c_failures c = 0 -> length fails = 4%nat ->
  Forall (fun k => ch_should_fail k = true) (fails ++ [k5]) ->
  let s5 := foldl do_charge (c, n) (fails ++ [k5]) in
  s5.2 = n + 5 /\ cut_off_until (ch_t1 k5 + 30000000) s5 /\
  forall later k, Forall (fun k => ch_t0 k < ch_t1 k5 + 30000000) later -> ch_t1 k5 + 30000000 <= ch_t0 k ->
    let s6 := do_charge (foldl do_charge s5 later) k in
    s6.2 = n + 6 /\
    (ch_should_fail k = true -> cut_off_until (ch_t1 k + 30000000) s6) /\
    (ch_should_fail k = false -> forall k',
       let s7 := do_charge s6 k' in
       s7.2 = n + 7 /\
       (ch_should_fail k' = true -> cut_off_until (ch_t1 k' + 30000000) s7) /\
       (ch_should_fail k' = false -> c_state s7.1 = CLOSED /\ c_failures s7.1 = 0)).
Proof.
  intros Hc H0 Hlen Hf. destruct (five_failures_open c n fails k5 Hc H0 Hlen Hf) as (c5 & E5 & Ho & Ht). cbn zeta. rewrite E5.
  split; [done|]. split; [by apply open_cut_off|]. intros later k Hl Hk.
  destruct (open_rejects_all later c5 (n + 5)) as (d & -> & Hod & Hcd); [done|by rewrite Ht|].
  assert (evaluate_state payment_breaker (ch_t0 k) d = mkCb HALF_OPEN 0 0 (ch_t0 k) (c_last_failure d) (c_total_calls d)
    (c_total_successes d) (c_total_failures d) (c_short_circuits d)) as Eh.
  { unfold evaluate_state. rewrite Hod. cbn [recovery_timeout payment_breaker]. destruct (Z.leb_spec 30000000 (ch_t0 k - c_changed d)); [done|lia]. }
  destruct (probe_counts d (n + 5) k) as (c6 & -> & Hfail & Hok); [by rewrite Eh|]. rewrite Eh in Hok.
  split; [cbn; lia|]. split; [intros E; by apply open_cut_off; apply Hfail|].
  intros E k'. destruct (Hok E) as [Hh6 Hs6]. assert (evaluate_state payment_breaker (ch_t0 k') c6 = c6) as E6 by (unfold evaluate_state; by rewrite Hh6).
  destruct (probe_counts c6 (n + 5 + 1) k') as (c7 & -> & Hfail' & Hok'); [by rewrite E6|]. rewrite E6, Hs6 in Hok'.
  split; [cbn; lia|]. split; [intros E'; by apply open_cut_off; apply Hfail'|]. intros E'. by apply Hok'.
Qed.

(** ** The compartments *)

Inductive reports_step : bsys * bsys -> bsys * bsys -> Prop :=
  | rs_heavy_step h h' l : bh_step HEAVY_SLOTS 0 h h' -> reports_step (h, l) (h', l)
  | rs_light_step h l l' : bh_step LIGHT_SLOTS 0 l l' -> reports_step (h, l) (h, l').
Inductive reports_reach : bsys * bsys -> Prop :=
  | rr_init s : report_service_init = Ok s -> reports_reach (mkBs (rs_heavy s) 0, mkBs (rs_light s) 0)
  | rr_step y y' : reports_reach y -> reports_step y y' -> reports_reach y'.
Lemma reports_reach_parts h l : reports_reach (h, l) -> bh_reach HEAVY_SLOTS 0 h /\ bh_reach LIGHT_SLOTS 0 l.
Proof.
  intros H. remember (h, l) as y eqn:E. revert h l E. induction H as [s Hs|y y' _ IH Hs]; intros h l E.
  - injection Hs as <-. injection E as <- <-. split; by apply br_init.
  - destruct Hs as [h0 h' l0 Hs|h0 l0 l' Hs]; injection E as <- <-; destruct (IH _ _ eq_refl); split; try done; by eapply br_step.
Qed.

(** In every interleaving of heavy reports and critical probes, two heavy reports run at
    most and none waits; a third is refused at once; and a critical probe succeeds whenever
    fewer than twenty probes are running, however saturated the heavy compartment is. *)
Theorem compartments_isolated h l now uid report_id duration meanwhile : reports_reach (h, l) ->
  let s := mkReports (y_b h) (y_b l) in
  b_active (y_b h) <= 2 /\ s_waiters (b_sem (y_b h)) = [] /\
  (b_active (y_b h) = 2 -> (generate_heavy_report meanwhile now uid report_id duration s).1 = Raise BulkheadFullException) /\
  (b_active (y_b h) < 2 -> is_ok (generate_heavy_report meanwhile now uid report_id duration s).1 = true) /\
  (b_active (y_b l) < 20 -> is_ok (get_critical_status now uid s).1 = true) /\
  rs_heavy (get_critical_status now uid s).2 = y_b h.
Proof.
  intros [Hh Hl]%reports_reach_parts. cbn zeta.
  destruct (bulkhead_fail_fast _ _ _ Hh eq_refl) as [Hw He]. destruct (bulkhead_fail_fast _ _ _ Hl eq_refl) as [_ Hel].
  destruct (bulkhead_slots_conserved _ _ _ Hh) as (Ha & _). unfold HEAVY_SLOTS in *.
  assert (forall s, (heavy_enter s).1 = (bh_aenter 2 0 (rs_heavy s)).1) as Hhe by (intros s; unfold heavy_enter, HEAVY_SLOTS; destruct (bh_aenter 2 0 (rs_heavy s)) as [e b]; reflexivity).
  split; [lia|]. split; [done|]. split; [|split; [|split]].
  - intros E. unfold generate_heavy_report. specialize (Hhe (mkReports (y_b h) (y_b l))). cbn [rs_heavy] in Hhe. rewrite He in Hhe.
    rewrite E in Hhe. change (2 <? 2) with false in Hhe. destruct (heavy_enter _) as [[| |] s1]; done.
  - intros E. unfold generate_heavy_report. specialize (Hhe (mkReports (y_b h) (y_b l))). cbn [rs_heavy] in Hhe. rewrite He in Hhe.
    apply Z.ltb_lt in E. rewrite E in Hhe. destruct (heavy_enter _) as [[| |] s1]; done.
  - intros E. unfold get_critical_status, light_enter. cbn [rs_light rs_heavy]. unfold LIGHT_SLOTS in *. apply Z.ltb_lt in E. rewrite E in Hel.
    destruct (bh_aenter 20 0 (y_b l)) as [[| |] b]; done.
  - unfold get_critical_status, light_enter. cbn [rs_light rs_heavy]. destruct (bh_aenter LIGHT_SLOTS 0 (y_b l)) as [[| |] b]; reflexivity.
Qed.

(** ** Simulated retries *)

Theorem simulated_call_outcome draw target_id failures max_retries base_delay max_delay strategy s :
  0 <= failures -> 0 <= max_retries -> (forall n, (0 <= draw n)%Q /\ (draw n < 1)%Q) -> known_strategy strategy ->
  let '(r, s') := execute_simulated_call draw target_id failures max_retries base_delay max_delay strategy s in
  if failures <=? max_retries then
    exists sim, r = Ok sim /\ sm_attempts_made sim = failures + 1 /\ sm_completed_call_count sim = failures + 1 /\
      sm_retries_count sim = failures /\ Z.of_nat (length (sm_delays sim)) = failures /\
      Forall (fun d => 0 <= d /\ d <= safe_max base_delay max_delay)%Q (sm_delays sim) /\ dict_get s' target_id = Some (failures + 1)
  else r = Raise ServiceUnavailableException /\ dict_get s' target_id = Some (max_retries + 1).
Proof.
  intros Hf Hm Hd Hs. unfold execute_simulated_call.
  destruct (retry_outcome max_retries base_delay max_delay strategy retry_exceptions (downstream_call failures) draw Hm Hd Hs)
    as (k & Hk & Hbefore & Hlast & Hr & Hcalls & Hlen & Hall).
  set (r := retry_with_backoff _ _ _ _ _ _ _) in *. rewrite Hr.
  assert (forall n, settled retry_exceptions (downstream_call failures) n = (failures <? Z.of_nat n + 1)) as Hset.
  { intros n. unfold settled, downstream_call. destruct (Z.leb_spec (Z.of_nat n + 1) failures); unfold retry_exceptions; cbn.
    - rewrite bool_decide_eq_true_2 by auto. cbn. symmetry. apply Z.ltb_ge. lia.
    - symmetry. apply Z.ltb_lt. lia. }
  unfold downstream_call. destruct (Z.leb_spec failures max_retries) as [Hle|Hgt].
  - assert (Z.of_nat k = failures) as Ek.
    { rewrite Hset in Hlast. destruct (Z.lt_trichotomy (Z.of_nat k) failures) as [H|[H|H]]; [|done|].
      - destruct Hlast as [Hl|Hl%Z.ltb_lt]; lia.
      - specialize (Hbefore (Z.to_nat failures) ltac:(lia)). rewrite Hset in Hbefore. apply Z.ltb_ge in Hbefore. lia. }
    destruct (Z.leb_spec (Z.of_nat k + 1) failures); [lia|]. eexists. split; [done|]. cbn. rewrite dict_get_set_eq. cbn.
    rewrite Hcalls, Hlen. split_and!; try lia; [done|f_equal; lia].
  - assert (Z.of_nat k = max_retries) as Ek.
    { destruct Hlast as [Hl|Hl]; [done|]. rewrite Hset in Hl. apply Z.ltb_lt in Hl. lia. }
    destruct (Z.leb_spec (Z.of_nat k + 1) failures); [|lia]. split; [done|]. rewrite dict_get_set_eq, Hcalls. f_equal. lia.
Qed.

(** ** The delay distribution *)

Lemma sample_delays_length draw n attempt base_delay max_delay strategy prev l :
  sample_delays draw n attempt base_delay max_delay strategy prev = Ok l -> length l = n.
Proof.
  revert prev l. induction n as [|n IH]; intros prev l; cbn; [by intros [= <-]|].
  destruct (calculate_backoff _ _ _ _ _ _) as [d|]; [cbn|done]. intros (rest & Hr & [= <-])%rbind_ok. cbn. by rewrite (IH _ _ Hr).
Qed.
(** Valid parameters and a known strategy give as many delays as asked for. *)
Theorem distribution_answers draw attempt base_delay max_delay strategy samples :
  (forall n, (0 <= draw n)%Q /\ (draw n < 1)%Q) -> known_strategy strategy ->
  0 <= attempt <= 30 -> within (1 # 1000) 10 base_delay = true -> within (1 # 100) 60 max_delay = true -> 1 <= samples <= 1000 ->
  exists d, get_backoff_distribution_endpoint draw attempt base_delay max_delay strategy samples = Ok d /\
    Z.of_nat (length (ds_delays d)) = samples.
Proof.
  intros Hd Hs Ha Hb Hm Hn. unfold get_backoff_distribution_endpoint. rewrite Hb, Hm.
  replace ((0 <=? attempt) && (attempt <=? 30) && true && true && (1 <=? samples) && (samples <=? 1000)) with true
    by (symmetry; rewrite !andb_true_iff, !Z.leb_le; lia). cbn [negb].
  assert (forall n prev, exists l, sample_delays draw n attempt base_delay max_delay strategy prev = Ok l) as Hall.
  { induction n as [|n IH]; intros prev; cbn; [by eexists|].
    destruct (backoff_returns (draw n) attempt base_delay max_delay strategy prev (Hd n) Hs) as (d & -> & _). cbn.
    destruct (IH (Some d)) as [l ->]. cbn. by eexists. }
  destruct (Hall (Z.to_nat samples) None) as [l Hl]. rewrite Hl. cbn [rbind]. eexists. split; [done|]. cbn [ds_delays].
  rewrite (sample_delays_length _ _ _ _ _ _ _ _ Hl). lia.
Qed.
(** The reported upper bound is not one for the decorrelated strategy, whose delays grow
    past it up to the maximal delay. *)
Example decorrelated_exceeds_upper_bound :
  exists d, get_backoff_distribution_endpoint (fun _ => 9 # 10) 0 1 60 "decorrelated_jitter" 1 = Ok d /\
    Qle_bool (ds_max_calculated_delay d) (ds_upper_bound d) = false.
Proof. eexists. split; vm_compute; reflexivity. Qed.

(** ** Recommendations *)

Section RecommendationTheorems.
Context {V RD : Type} {Srv : RedisServer RD V}.
Context (serialize : list product_item -> result V) (deserialize : V -> result (option (list product_item))) (str : Z -> string).
#[local] Abbreviation endpoint := (get_personalized_recommendations_endpoint serialize deserialize str).

(** The endpoint never fails; it is marked degraded exactly when the primary call failed;
    and while Redis keeps the last personalized answer, an outage serves that very answer. *)
Theorem recommendations_degrade up1 up2 now1 now2 user_id rd :
  (forall items, exists p, serialize items = Ok p /\ deserialize p = Ok (Some items)) -> now1 <= now2 ->
  (forall up now simulate rd0, exists r hdr level, (endpoint up now user_id simulate rd0).1 = Ok (r, (hdr, level)) /\
     rm_degraded r = simulate /\ hdr = (if simulate then "TRUE" else "FALSE") /\ rm_degradation_level r = level) /\
  let '(r1, rd1) := endpoint up1 now1 user_id false rd in
  let '(r2, _) := endpoint up2 now2 user_id true rd1 in
  exists a1 h1 a2 h2, r1 = Ok (a1, h1) /\ r2 = Ok (a2, h2) /\
    (up1 = true -> up2 = true -> now2 < now1 + 3600000000 -> rm_items a2 = rm_items a1 /\ h2 = ("TRUE", STALE_CACHE)) /\
    (up2 = false \/ up1 = true /\ now1 + 3600000000 <= now2 -> rm_items a2 = DEFAULT_TRENDING_PRODUCTS /\ h2 = ("TRUE", STATIC_DEFAULT)).
Proof.
  intros Hser Hnow. split.
  - intros up now simulate rd0. unfold get_personalized_recommendations_endpoint, get_personalized_recommendations, execute_with_fallback.
    destruct simulate; cbn [primary_ai_call]; [destruct (safe_cache_get _ _ _ _ _)|]; cbn; do 3 eexists; split_and!; done.
  - unfold get_personalized_recommendations_endpoint, get_personalized_recommendations. cbn [primary_ai_call]. set (items := fmap _ [1; 2; 3]).
    destruct (fallback_degrades serialize deserialize up1 up2 now1 now2 items DEFAULT_TRENDING_PRODUCTS DEFAULT_TRENDING_PRODUCTS
                (recs_key str user_id) 3600 ServiceUnavailableException rd (Hser items) ltac:(lia) Hnow) as [Hok H].
    destruct (execute_with_fallback _ _ up1 _ _ _ _ _ _) as [r1 rd1]. destruct H as [-> H]. cbn [rbind].
    specialize (Hok up2 now2 (Raise ServiceUnavailableException) (Some (recs_key str user_id)) DEFAULT_TRENDING_PRODUCTS 3600 rd1).
    destruct (execute_with_fallback _ _ up2 _ _ _ _ _ _) as [r2 rd2]. destruct H as (-> & H1 & H2). cbn [fst] in Hok.
    destruct r2 as [[it2 lv2]|e]; [|done]. cbn [rbind]. do 4 eexists. split; [done|]. split; [done|]. cbn [rm_items]. split.
    + intros Hu1 Hu2 Ht. specialize (H1 Hu1 Hu2 Ht). by simplify_eq.
    + intros Hc. specialize (H2 Hc). by simplify_eq.
Qed.
End RecommendationTheorems.

(** ** Witnesses *)

Lemma failing_gateway_isolated_witness :
  exists s, payment_service_init 0 = Ok s /\
    let s5 := foldl do_charge s ([mkCharge 1 2 "a" 1 "BDT" true; mkCharge 3 4 "b" 1 "BDT" true; mkCharge 5 6 "c" 1 "BDT" true;
                         mkCharge 7 8 "d" 1 "BDT" true] ++ [mkCharge 9 10 "e" 1 "BDT" true]) in
    let s7 := do_charge (do_charge (foldl do_charge s5 [mkCharge 11 12 "f" 1 "BDT" false])
                (mkCharge 30000010 30000011 "g" 1 "BDT" false)) (mkCharge 30000012 30000013 "h" 1 "BDT" false) in
    s7.2 = 7 /\ c_state s7.1 = CLOSED.
Proof.
  eexists. split; [reflexivity|].
  pose proof (failing_gateway_isolated (mkCb CLOSED 0 0 0 None 0 0 0 0) 0 [mkCharge 1 2 "a" 1 "BDT" true; mkCharge 3 4 "b" 1 "BDT" true; mkCharge 5 6 "c" 1 "BDT" true;
           mkCharge 7 8 "d" 1 "BDT" true] (mkCharge 9 10 "e" 1 "BDT" true)) as H.
  destruct H as (_ & _ & H); [reflexivity..|repeat constructor|].
  destruct (H [mkCharge 11 12 "f" 1 "BDT" false] (mkCharge 30000010 30000011 "g" 1 "BDT" false)) as (_ & _ & H7); [repeat constructor|cbn; lia|].
  destruct (H7 eq_refl (mkCharge 30000012 30000013 "h" 1 "BDT" false)) as (E7 & _ & Hc). split; [exact E7|]. apply Hc. reflexivity.
Defined.
Lemma compartments_isolated_witness :
  exists h l, reports_reach (h, l) /\ b_active (y_b h) = 1 /\
    is_ok (get_critical_status 0 "u" (mkReports (y_b h) (y_b l))).1 = true.
Proof.
  set (h0 := mkBs (mkBh 0 0 0 0 0 0 (mkSem 2 [])) 0). set (l0 := mkBs (mkBh 0 0 0 0 0 0 (mkSem 20 [])) 0).
  assert (reports_reach (mkBs (bh_aenter HEAVY_SLOTS 0 (y_b h0)).2 0, l0)) as Hr.
  { eapply rr_step; [apply (rr_init (mkReports (y_b h0) (y_b l0))); reflexivity|]. apply rs_heavy_step. constructor. }
  exists (mkBs (bh_aenter HEAVY_SLOTS 0 (y_b h0)).2 0), l0. split; [exact Hr|]. split; [reflexivity|].
  destruct (compartments_isolated _ _ 0 "u" "r" 1 (fun s => s) Hr) as (_ & _ & _ & _ & H & _). apply H. reflexivity.
Defined.
Lemma simulated_call_outcome_witness :
  exists sim, (execute_simulated_call (fun _ => 1 # 2) "gw" 2 3 (1 # 20) 1 "full_jitter" []).1 = Ok sim /\ sm_attempts_made sim = 3.
Proof.
  pose proof (simulated_call_outcome (fun _ => 1 # 2) "gw" 2 3 (1 # 20) 1 "full_jitter" [] ltac:(lia) ltac:(lia)) as H.
  destruct (execute_simulated_call _ _ _ _ _ _ _ _) as [r s']. destruct H as (sim & H1 & H2 & _).
  - intros _. split; vm_compute; congruence.
  - left.
  - exists sim. split; [exact H1|exact H2].
Defined.
