(* ===== verification/Search.v ===== *)
(** The product search: [app/services/search_service.py], [app/schemas/search.py] and
    [app/routers/search_router.py].

    Similarities and relevance scores are numbers of ten-thousandths, as the code rounds
    them to four digits; prices are rational numbers.  The answers of PostgreSQL's own
    full-text and trigram queries are parameters; on SQLite the service computes both
    itself from all rows, which come in the order of the table. *)

From Stdlib Require Import QArith.
From S2P Require Import Prelude.

Local Open Scope Z_scope.
Local Open Scope py_scope.

(** ** Words *)

Definition ends_with (suffix w : list ascii) : bool := starts_with (rev suffix) (rev w).
(** [w[:-n]] and [w[-n]] *)
Definition drop_last (n : nat) (w : list ascii) : list ascii := take (length w - n) w.
Definition from_end (n : nat) (w : list ascii) : option ascii := w !! (length w - n)%nat.
Definition in_text (c : option ascii) (s : string) : bool := match c with Some c => bool_decide (c ∈ chars s) | None => false end.

(** Double consonant reduction. *)
Definition undouble (stem : list ascii) : list ascii :=
  if (3 <=? length stem)%nat && bool_decide (from_end 1 stem = from_end 2 stem) && negb (in_text (from_end 1 stem) "lsz")
  then drop_last 1 stem else stem.
Definition strip_plural (w : list ascii) : list ascii :=
  if ends_with (chars "sses") w then drop_last 2 w
  else if ends_with (chars "ies") w && (4 <? length w)%nat then drop_last 3 w ++ chars "y"
  else if ends_with (chars "es") w && (3 <? length w)%nat && negb (in_text (from_end 3 w) "aeiou") then drop_last 2 w
  else if ends_with (chars "s") w && negb (ends_with (chars "ss") w) && (3 <? length w)%nat then drop_last 1 w
  else w.
Definition strip_participle (w : list ascii) : list ascii :=
  if ends_with (chars "ing") w && (4 <? length w)%nat then undouble (drop_last 3 w)
  else if ends_with (chars "ed") w && (4 <? length w)%nat then undouble (drop_last 2 w)
  else w.
Definition stem_word (word : list ascii) : list ascii :=
  let w := strip_chars (lower_ascii <$> word) in
  if (length w <=? 3)%nat then w else strip_participle (strip_plural w).
Definition stems (text : string) : list (list ascii) := stem_word <$> find_words (chars (py_lower text)).

(** ** Trigrams *)

Fixpoint shingles (l : list ascii) : list (list ascii) :=
  match l with a :: ((b :: c :: _) as l') => [a; b; c] :: shingles l' | _ => [] end.
Definition extract_trigrams (text_val : list ascii) : list (list ascii) :=
  let normalized := [" "; " "]%char ++ (lower_ascii <$> text_val) ++ [" "]%char in
  if (length normalized <? 3)%nat then [] else remove_dups (shingles normalized).
(** The sets of trigrams are duplicate-free lists. *)
Definition trigram_similarity (str1 str2 : list ascii) : Z :=
  let t1 := extract_trigrams str1 in
  let t2 := extract_trigrams str2 in
  if bool_decide (t1 = []) || bool_decide (t2 = []) then 0
  else
    let intersection := Z.of_nat (length (list_intersection t1 t2)) in
    let union := Z.of_nat (length (list_union t1 t2)) in
    if union =? 0 then 0 else rhe (intersection * 10000) union.

Definition long_words (s : list ascii) : list (list ascii) := filter (fun w => (2 <= length w)%nat) (find_words (lower_ascii <$> s)).
Definition Zmax_list (l : list Z) : Z := foldr Z.max 0 l.
Definition composite_similarity (query target : list ascii) : Z :=
  let whole_sim := trigram_similarity query target in
  let q_words := long_words query in
  let t_words := long_words target in
  if bool_decide (q_words = []) || bool_decide (t_words = []) then whole_sim
  else
    let word_scores := (fun qw => Zmax_list ((fun tw => trigram_similarity qw tw) <$> t_words)) <$> q_words in
    let n := Z.of_nat (length word_scores) in
    rhe (Z.max (whole_sim * n) (Zsum word_scores)) n.

(** ** [SearchService] *)

Record Product : Type := mkProduct {
  pr_id : Z; pr_title : string; pr_description : string; pr_brand : string; pr_price : Q; pr_search_vector : option string; pr_created_at : Z }.
Record CreateProductRequest : Type := mkCreate { cr_title : string; cr_description : string; cr_brand : string; cr_price : Q }.
Inductive match_type : Type := FULL_TEXT | FUZZY_TRIGRAM.
(** A result item is the product with its score and how it was found. *)
Record SearchResultItem : Type := mkResult { sr_product : Product; sr_score : Z; sr_match_type : match_type }.
Inductive strategy : Type := ByFullText | ByFuzzyTrigram | Empty.
Record SearchResponse : Type := mkResponse { rs_query : string; rs_strategy : strategy; rs_total : Z; rs_results : list SearchResultItem }.

Inductive dialect : Type := Sqlite | Postgresql.
#[global] Instance dialect_eq_dec : EqDecision dialect.
Proof. solve_decision. Defined.
#[global] Instance Q_eq_dec : EqDecision Q.
Proof. intros [a b] [c d]. destruct (decide (a = c)), (decide (b = d)); [left; congruence|right; congruence..]. Defined.

Section Service.
Context (dialect_name : dialect).
(** PostgreSQL's weighted text vector and its ranked rows: query, threshold for the trigram
    query, limit, table. *)
Context (pg_search_vector : string -> string -> string).
Context (pg_full_text : string -> Z -> list Product -> list (Product * Z)).
Context (pg_trigram : string -> Q -> Z -> list Product -> list (Product * Z)).

Definition create_product (new_id now : Z) (request : CreateProductRequest) : M (list Product) Product :=
  let title := py_strip (cr_title request) in
  let description := py_strip (cr_description request) in
  let vector := match dialect_name with
                | Postgresql => Some (pg_search_vector title description) (* the UPDATE statement *)
                | Sqlite => Some (title +:+ " " +:+ description)
                end in
  let product := mkProduct new_id title description (py_strip (cr_brand request)) (cr_price request) vector now in
  modify (fun table => table ++ [product]) ;;; ret product.

(** The relevance of one product: matched stems and the score in tenths. *)
Definition relevance (query_stems : list (list ascii)) (prod : Product) : Z * Z :=
  let title_tokens := stems (pr_title prod) in
  let desc_tokens := stems (pr_description prod) in
  foldl (fun '(matched, score) stem =>
    let title_match := bool_decide (stem ∈ title_tokens) in
    let desc_match := bool_decide (stem ∈ desc_tokens) in
    if title_match || desc_match
    then (matched + 1, score + (if title_match then 10 else 0) + (if desc_match then 4 else 0))
    else (matched, score)) (0, 0) query_stems.
Definition score_full_text (query_stems : list (list ascii)) (prod : Product) : option (Product * Z) :=
  let '(matched_stems, score) := relevance query_stems prod in
  let n := Z.of_nat (length query_stems) in
  if matched_stems =? n then Some (prod, Z.min 10000 (rhe (score * 10000) (n * 14))) else None.
(** [sort(key=lambda x: (x[1], x[0].price), reverse=True)] *)
Definition ft_leb (x y : Product * Z) : bool :=
  (y.2 <? x.2) || ((y.2 =? x.2) && Qle_bool (pr_price y.1) (pr_price x.1)).
Definition as_items (kind : match_type) (l : list (Product * Z)) : list SearchResultItem :=
  (fun p => mkResult p.1 p.2 kind) <$> l.

Definition search_products_full_text (query_str : string) (limit : Z) (table : list Product) : list SearchResultItem :=
  let clean_query := py_strip query_str in
  if decide (clean_query = "") then []
  else
    match dialect_name with
    | Postgresql => as_items FULL_TEXT (pg_full_text clean_query limit table)
    | Sqlite =>
        let raw_tokens := find_words (chars (py_lower clean_query)) in
        if bool_decide (raw_tokens = []) then []
        else
          let query_stems := stem_word <$> raw_tokens in
          let scored_items := omap (score_full_text query_stems) table in
          as_items FULL_TEXT (py_slicez (stable_sort ft_leb scored_items) 0 limit)
    end.

Definition best_similarity (query : string) (prod : Product) : Z :=
  let q := chars query in
  let title_sim := composite_similarity q (chars (pr_title prod)) in
  let brand_sim := composite_similarity q (chars (pr_brand prod)) in
  let combined_sim := composite_similarity q (chars (pr_brand prod +:+ " " +:+ pr_title prod)) in
  Z.max title_sim (Z.max brand_sim combined_sim).
Definition fuzzy_leb (x y : Product * Z) : bool := y.2 <=? x.2.
Definition search_products_fuzzy_trigram (typo_query : string) (similarity_threshold : Q) (limit : Z) (table : list Product) : list SearchResultItem :=
  let clean_query := py_strip typo_query in
  if decide (clean_query = "") then []
  else
    match dialect_name with
    | Postgresql => as_items FUZZY_TRIGRAM (pg_trigram clean_query similarity_threshold limit table)
    | Sqlite =>
        let fuzzy_matches := omap (fun prod =>
          let best_sim := best_similarity clean_query prod in
          if Qle_bool similarity_threshold (best_sim # 10000) then Some (prod, best_sim) else None) table in
        as_items FUZZY_TRIGRAM (py_slicez (stable_sort fuzzy_leb fuzzy_matches) 0 limit)
    end.

Definition search_products_hybrid (query_str : string) (fuzzy : bool) (limit : Z) (similarity_threshold : Q) (table : list Product) : SearchResponse :=
  let clean_query := py_strip query_str in
  if decide (clean_query = "") then mkResponse query_str Empty 0 []
  else if fuzzy then
    let results := search_products_fuzzy_trigram clean_query similarity_threshold limit table in
    mkResponse clean_query ByFuzzyTrigram (Z.of_nat (length results)) results
  else
    let ft_results := search_products_full_text clean_query limit table in
    if negb (bool_decide (length ft_results = 0%nat)) then mkResponse clean_query ByFullText (Z.of_nat (length ft_results)) ft_results
    else
      let fuzzy_results := search_products_fuzzy_trigram clean_query similarity_threshold limit table in
      mkResponse clean_query (if negb (bool_decide (length fuzzy_results = 0%nat)) then ByFuzzyTrigram else Empty)
        (Z.of_nat (length fuzzy_results)) fuzzy_results.

(** [candidates] is the set of titles and brands in the order Python iterates over it. *)
Definition score_candidate (clean_prefix : list ascii) (candidate : string) : option (string * Z) :=
  let cand_lower := chars (py_lower candidate) in
  if starts_with clean_prefix cand_lower then Some (candidate, 10000)
  else if has_substring clean_prefix cand_lower then Some (candidate, 7000)
  else let sim := trigram_similarity clean_prefix (chars candidate) in
       if 2000 <=? sim then Some (candidate, sim) else None.
(** [sort(key=lambda x: (x[1], -len(x[0])), reverse=True)] *)
Definition suggest_leb (x y : string * Z) : bool :=
  (y.2 <? x.2) || ((y.2 =? x.2) && (String.length x.1 <=? String.length y.1)%nat).
Definition suggest_autocomplete (iterate : gset string -> list string) (prefix : string) (limit : Z) (table : list Product) : list string :=
  let clean_prefix := chars (py_lower (py_strip prefix)) in
  if decide (clean_prefix = []) then []
  else
    let candidates := iterate (list_to_set ((table ≫= fun p => [pr_title p; pr_brand p]))) in
    let scored_candidates := omap (score_candidate clean_prefix) candidates in
    fst <$> py_slicez (stable_sort suggest_leb scored_candidates) 0 limit.

(** ** Endpoints *)

Definition create_product_endpoint (new_id now : Z) (payload : CreateProductRequest) : M (list Product) Product :=
  let len s := Z.of_nat (String.length s) in
  raise_if (negb ((1 <=? len (cr_title payload)) && (len (cr_title payload) <=? 255) && (len (cr_description payload) <=? 10000)
                  && (1 <=? len (cr_brand payload)) && (len (cr_brand payload) <=? 100) && negb (Qle_bool (cr_price payload) 0)))
    PydanticValidationError ;;;
  create_product new_id now payload.
Definition search_products_endpoint (q : string) (fuzzy : bool) (limit : Z) (threshold : Q) (table : list Product) : result SearchResponse :=
  if negb ((1 <=? Z.of_nat (String.length q)) && (1 <=? limit) && (limit <=? 100) && Qle_bool 0 threshold && Qle_bool threshold 1)
  then Raise PydanticValidationError
  else Ok (search_products_hybrid q fuzzy limit threshold table).
Definition suggest_endpoint (iterate : gset string -> list string) (q : string) (limit : Z) (table : list Product) : result (string * list string) :=
  if negb ((1 <=? Z.of_nat (String.length q)) && (1 <=? limit) && (limit <=? 20)) then Raise PydanticValidationError
  else Ok (q, suggest_autocomplete iterate q limit table).
End Service.

(** ** The best [n] of a list *)

Section Best.
Context {A : Type} (leb : A -> A -> bool).
Context (leb_total : forall x y, leb x y = true \/ leb y x = true).
Context (leb_trans : forall x y z, leb x y = true -> leb y z = true -> leb x z = true).

(** [res] lists [n] elements of [l], or all of them, in order, and nothing left out comes
    strictly before what is listed. *)
Definition best_of (n : nat) (l res : list A) : Prop :=
  StronglySorted (fun a b => leb a b = true) res /\
  length res = min n (length l) /\
  exists rest, l ≡ₚ res ++ rest /\ forall x y, x ∈ res -> y ∈ rest -> leb x y = true.

Lemma StronglySorted_app_lr (R : A -> A -> Prop) l1 l2 :
  StronglySorted R (l1 ++ l2) -> forall x y, x ∈ l1 -> y ∈ l2 -> R x y.
Proof.
  induction l1 as [|a l1 IH]; [intros _ x y Hx; by apply elem_of_nil in Hx|].
  cbn. intros [Hs Hf]%StronglySorted_inv x y [->|Hx]%elem_of_cons Hy; [|by apply IH].
  rewrite Forall_forall in Hf. apply Hf, elem_of_app. by right.
Qed.

Lemma slice_best (n : Z) l : 0 <= n -> best_of (Z.to_nat n) l (py_slicez (stable_sort leb l) 0 n).
Proof.
  intros Hn. rewrite py_slicez_nonneg by lia. unfold py_slice. rewrite drop_0.
  pose proof (stable_sort_sorted leb leb_total leb_trans l) as Hs.
  split; [by apply StronglySorted_take|]. split; [by rewrite length_take, stable_sort_perm|].
  exists (drop (Z.to_nat n) (stable_sort leb l)). rewrite take_drop. split; [by rewrite stable_sort_perm|].
  rewrite <-(take_drop (Z.to_nat n) (stable_sort leb l)) in Hs. intros x y. by apply (StronglySorted_app_lr _ _ _ Hs).
Qed.

Lemma best_of_elem n l res x : best_of n l res -> x ∈ res -> x ∈ l.
Proof. intros (_ & _ & rest & -> & _) Hx. apply elem_of_app. by left. Qed.
Lemma best_of_pos n l res : best_of n l res -> (0 < n)%nat -> l <> [] -> res <> [].
Proof. intros (_ & Hl & _) Hn Hne ->. destruct l; [done|]. cbn [length] in Hl. lia. Qed.
End Best.

(** ** Similarities *)

Lemma list_intersection_length_le {A} `{EqDecision A} (l k : list A) : (length (list_intersection l k) <= length l)%nat.
Proof. induction l as [|a l IH]; cbn; [lia|]. destruct (decide_rel _ a k); cbn; lia. Qed.

Lemma length_union_sym {A} `{EqDecision A} (l k : list A) : NoDup l -> NoDup k ->
  length (list_union l k) = length (list_union k l).
Proof.
  intros Hl Hk. apply Permutation_length, NoDup_Permutation; [by apply NoDup_list_union..|].
  intros x. rewrite !list_elem_of_union. tauto.
Qed.
Lemma length_inter_sym {A} `{EqDecision A} (l k : list A) : NoDup l -> NoDup k ->
  length (list_intersection l k) = length (list_intersection k l).
Proof.
  intros Hl Hk. apply Permutation_length, NoDup_Permutation; [by apply NoDup_list_intersection..|].
  intros x. rewrite !list_elem_of_intersection. tauto.
Qed.
Lemma list_union_self {A} `{EqDecision A} (l : list A) : list_difference l l = [].
Proof.
  assert (forall k, l ⊆ k -> list_difference l k = []) as H; [|by apply H].
  intros k. induction l as [|a l IH]; intros Hs; cbn; [done|].
  destruct (decide_rel _ a k) as [_|Hn]; [apply IH; set_solver|exfalso; apply Hn; set_solver].
Qed.
Lemma list_inter_self {A} `{EqDecision A} (l : list A) : list_intersection l l = l.
Proof.
  assert (forall k, l ⊆ k -> list_intersection l k = l) as H; [|by apply H].
  intros k. induction l as [|a l IH]; intros Hs; cbn; [done|].
  destruct (decide_rel _ a k) as [_|Hn]; [f_equal; apply IH; set_solver|exfalso; apply Hn; set_solver].
Qed.

Lemma extract_trigrams_nodup s : NoDup (extract_trigrams s).
Proof. unfold extract_trigrams. destruct (_ <? _)%nat; [constructor|apply NoDup_remove_dups]. Qed.
Lemma trigrams_none s : extract_trigrams s = [] <-> False.
Proof.
  split; [|done]. unfold extract_trigrams. destruct s as [|c s]; [done|]. cbn [app fmap list_fmap length Nat.ltb Nat.leb shingles].
  intros H. assert ([" "; " "; lower_ascii c]%char ∈ @nil (list ascii)) as Hin; [|by apply elem_of_nil in Hin].
  rewrite <-H. apply elem_of_remove_dups. cbn. left.
Qed.

Lemma similarity_range s t : 0 <= trigram_similarity s t <= 10000.
Proof.
  unfold trigram_similarity. set (a := extract_trigrams s). set (b := extract_trigrams t).
  destruct (_ || _); [lia|]. destruct (_ =? 0) eqn:E; [lia|]. apply Z.eqb_neq in E.
  set (i := Z.of_nat (length (list_intersection a b))). set (u := Z.of_nat (length (list_union a b))) in *.
  assert (i <= u).
  { unfold i, u, list_union. rewrite length_app.
    pose proof (list_intersection_length_le b a). rewrite (length_inter_sym a b) by apply extract_trigrams_nodup. lia. }
  split.
  - transitivity (rhe (0 * u) u); [rewrite rhe_exact by lia; lia|apply rhe_mono; lia].
  - transitivity (rhe (10000 * u) u); [apply rhe_mono; lia|rewrite rhe_exact by lia; lia].
Qed.

Lemma similarity_sym s t : trigram_similarity s t = trigram_similarity t s.
Proof.
  unfold trigram_similarity. rewrite (length_union_sym (extract_trigrams s)), (length_inter_sym (extract_trigrams s)) by apply extract_trigrams_nodup.
  by rewrite orb_comm.
Qed.

Lemma similarity_same s t : lower_ascii <$> s = lower_ascii <$> t -> trigram_similarity s t = 10000.
Proof.
  intros Heq. unfold trigram_similarity. assert (extract_trigrams t = extract_trigrams s) as -> by (unfold extract_trigrams; by rewrite Heq).
  destruct (decide (extract_trigrams s = [])) as [E|E]; [by apply trigrams_none in E|].
  rewrite !bool_decide_eq_false_2 by done. cbn [orb].
  unfold list_union. rewrite list_union_self, list_inter_self. cbn [app].
  destruct (extract_trigrams s) as [|g gs]; [done|]. set (n := Z.of_nat (length (g :: gs))).
  assert (0 < n) by (unfold n; cbn [length]; lia). replace (n =? 0) with false by (symmetry; apply Z.eqb_neq; lia).
  rewrite Z.mul_comm. apply rhe_exact. lia.
Qed.

(** ** Orders of the rankings *)

Lemma ft_leb_total x y : ft_leb x y = true \/ ft_leb y x = true.
Proof.
  unfold ft_leb. destruct (Z.lt_trichotomy x.2 y.2) as [H|[H|H]].
  - right. by rewrite (proj2 (Z.ltb_lt _ _) H).
  - rewrite H, Z.ltb_irrefl, Z.eqb_refl. cbn [orb andb]. rewrite !Qle_bool_iff.
    destruct (Qlt_le_dec (pr_price x.1) (pr_price y.1)) as [Hq|Hq]; [right; by apply Qlt_le_weak|by left].
  - left. by rewrite (proj2 (Z.ltb_lt _ _) H).
Qed.
Lemma ft_leb_trans x y z : ft_leb x y = true -> ft_leb y z = true -> ft_leb x z = true.
Proof.
  unfold ft_leb. rewrite !orb_true_iff, !andb_true_iff, !Z.ltb_lt, !Z.eqb_eq, !Qle_bool_iff.
  intros [?|[? H1]] [?|[? H2]]; [left; lia..|right; split; [congruence|]]. by apply Qle_trans with (pr_price y.1).
Qed.
Lemma fuzzy_leb_total x y : fuzzy_leb x y = true \/ fuzzy_leb y x = true.
Proof. unfold fuzzy_leb. rewrite !Z.leb_le. lia. Qed.
Lemma fuzzy_leb_trans x y z : fuzzy_leb x y = true -> fuzzy_leb y z = true -> fuzzy_leb x z = true.
Proof. unfold fuzzy_leb. rewrite !Z.leb_le. lia. Qed.
Lemma suggest_leb_total x y : suggest_leb x y = true \/ suggest_leb y x = true.
Proof. unfold suggest_leb. rewrite !orb_true_iff, !andb_true_iff, !Z.ltb_lt, !Z.eqb_eq, !Nat.leb_le. lia. Qed.
Lemma suggest_leb_trans x y z : suggest_leb x y = true -> suggest_leb y z = true -> suggest_leb x z = true.
Proof. unfold suggest_leb. rewrite !orb_true_iff, !andb_true_iff, !Z.ltb_lt, !Z.eqb_eq, !Nat.leb_le. lia. Qed.

(** ** Full text *)

(** The specification: a product matches when its title or description contains each stem. *)
Definition in_title (p : Product) (s : list ascii) : Prop := s ∈ stems (pr_title p).
Definition in_description (p : Product) (s : list ascii) : Prop := s ∈ stems (pr_description p).
Definition matches (query : string) (p : Product) : Prop := Forall (fun s => in_title p s \/ in_description p s) (stems query).
#[global] Instance in_title_dec p s : Decision (in_title p s).
Proof. unfold in_title. apply _. Defined.
#[global] Instance in_description_dec p s : Decision (in_description p s).
Proof. unfold in_description. apply _. Defined.
#[global] Instance matches_dec query p : Decision (matches query p).
Proof. unfold matches. apply _. Defined.
(** Its score: a stem found in the title weighs 10, in the description 4, out of 14. *)
Definition full_text_score (query : string) (p : Product) : Z :=
  let qs := stems query in
  let hits P `{forall s, Decision (P s)} := Z.of_nat (length (filter P qs)) in
  rhe ((10 * hits (in_title p) + 4 * hits (in_description p)) * 10000) (Z.of_nat (length qs) * 14).

Lemma relevance_counts p qs :
  relevance qs p = (Z.of_nat (length (filter (fun s => in_title p s \/ in_description p s) qs)),
    10 * Z.of_nat (length (filter (in_title p) qs)) + 4 * Z.of_nat (length (filter (in_description p) qs))).
Proof.
  unfold relevance. cbv zeta. match goal with |- foldl ?g _ _ = _ => set (f := g) end.
  assert (forall m sc, foldl f (m, sc) qs =
    (m + Z.of_nat (length (filter (fun s => in_title p s \/ in_description p s) qs)),
     sc + (10 * Z.of_nat (length (filter (in_title p) qs)) + 4 * Z.of_nat (length (filter (in_description p) qs))))) as H.
  { induction qs as [|s qs IH]; intros m sc; [cbn; f_equal; lia|]. cbn [foldl].
    change (f (m, sc) s) with (if bool_decide (in_title p s) || bool_decide (in_description p s)
      then (m + 1, sc + (if bool_decide (in_title p s) then 10 else 0) + (if bool_decide (in_description p s) then 4 else 0)) else (m, sc)).
    rewrite !filter_cons. destruct (decide (in_title p s)) as [Ht|Ht], (decide (in_description p s)) as [Hd|Hd];
      rewrite ?(bool_decide_eq_true_2 (in_title p s)), ?(bool_decide_eq_true_2 (in_description p s)),
        ?(bool_decide_eq_false_2 (in_title p s)), ?(bool_decide_eq_false_2 (in_description p s)) by done; cbn [orb];
      (destruct (decide (in_title p s \/ in_description p s)); [|tauto || idtac]); try tauto; rewrite IH; cbn [length]; f_equal; lia. }
  rewrite H. f_equal.
Qed.

Lemma filter_full {A} (P : A -> Prop) `{forall x, Decision (P x)} l : length (filter P l) = length l <-> Forall P l.
Proof.
  split; [|intros; by rewrite filter_all].
  induction l as [|x l IH]; [constructor|]. rewrite filter_cons. destruct (decide (P x)); cbn [length]; [|pose proof (length_filter P l); lia].
  intros [= ?]. constructor; auto.
Qed.

Lemma full_text_score_range q p : stems q <> [] -> 0 <= full_text_score q p <= 10000.
Proof.
  intros Hq. unfold full_text_score. set (n := Z.of_nat (length (stems q))). cbv zeta.
  assert (0 < n) by (unfold n; destruct (stems q); [done|cbn [length]; lia]).
  pose proof (length_filter (in_title p) (stems q)). pose proof (length_filter (in_description p) (stems q)).
  split.
  - transitivity (rhe (0 * (n * 14)) (n * 14)); [rewrite rhe_exact by lia; lia|apply rhe_mono; lia].
  - transitivity (rhe (10000 * (n * 14)) (n * 14)); [apply rhe_mono; lia|rewrite rhe_exact by lia; lia].
Qed.

Lemma score_full_text_spec q p : stems q <> [] ->
  score_full_text (stems q) p = (if decide (matches q p) then Some (p, full_text_score q p) else None).
Proof.
  intros Hq. unfold score_full_text. rewrite relevance_counts.
  destruct (decide (matches q p)) as [Hm|Hm].
  - rewrite (proj2 (filter_full _ _) Hm), Z.eqb_refl. f_equal. f_equal.
    apply Z.min_r, full_text_score_range, Hq.
  - destruct (Z.eqb_spec (Z.of_nat (length (filter (fun s => in_title p s \/ in_description p s) (stems q)))) (Z.of_nat (length (stems q)))) as [E|]; [|done].
    exfalso. apply Hm, (filter_full (fun s => in_title p s \/ in_description p s)). lia.
Qed.

Lemma full_text_sqlite pg_ft q limit table : py_strip q = q -> stems q <> [] ->
  search_products_full_text Sqlite pg_ft q limit table =
  as_items FULL_TEXT (py_slicez (stable_sort ft_leb ((fun p => (p, full_text_score q p)) <$> filter (matches q) table)) 0 limit).
Proof.
  intros Hs Hq. unfold search_products_full_text. rewrite Hs.
  destruct (decide (q = "")) as [->|_]; [done|].
  assert (find_words (chars (py_lower q)) <> []) as Hw by (intros E; apply Hq; unfold stems; by rewrite E).
  rewrite bool_decide_eq_false_2 by done. change (stem_word <$> find_words (chars (py_lower q))) with (stems q).
  f_equal. f_equal. f_equal. induction table as [|p table IH]; [done|].
  cbn [omap list_omap]. rewrite (score_full_text_spec q p Hq), filter_cons.
  destruct (decide (matches q p)); cbn [fmap list_fmap]; [f_equal|]; apply IH.
Qed.

(** ** The promises of the search service *)

Lemma as_items_products kind l : sr_product <$> as_items kind l = l.*1.
Proof. unfold as_items. rewrite <-list_fmap_compose. by apply list_fmap_ext. Qed.
Lemma as_items_length kind l : length (as_items kind l) = length l.
Proof. apply length_fmap. Qed.

Lemma full_text_search_lemma pg_ft q limit table :
  py_strip q = q -> stems q <> [] -> 0 <= limit ->
  exists ranked : list (Product * Z),
    search_products_full_text Sqlite pg_ft q limit table = as_items FULL_TEXT ranked /\
    best_of ft_leb (Z.to_nat limit) ((fun p => (p, full_text_score q p)) <$> filter (matches q) table) ranked /\
    (forall p s, (p, s) ∈ ranked -> p ∈ table /\ matches q p /\ s = full_text_score q p /\ 0 <= s <= 10000).
Proof.
  intros Hs Hq Hl. eexists. split; [by apply full_text_sqlite|].
  pose proof (slice_best ft_leb ft_leb_total ft_leb_trans limit
    ((fun p => (p, full_text_score q p)) <$> filter (matches q) table) Hl) as Hb.
  split; [exact Hb|]. intros p s Hin. apply (best_of_elem _ _ _ _ _ Hb) in Hin.
  apply list_elem_of_fmap in Hin as (p' & [= -> ->] & [Hm Hin]%list_elem_of_filter).
  split_and!; [done..|apply full_text_score_range, Hq|apply full_text_score_range, Hq].
Qed.

(** Full-text search on SQLite: for a stripped query with a word in it and a
    non-negative limit, the result lists products of the table whose title or description
    contains every stem of the query, and only those; each carries the weighted share of its
    matches, between 0 and 1; the list is ordered by score and then price, has [limit]
    entries or all the matches, and nothing left out ranks above an entry. *)
Theorem full_text_search_correct pg_ft q limit table :
  py_strip q = q -> stems q <> [] -> 0 <= limit ->
  exists ranked : list (Product * Z),
    search_products_full_text Sqlite pg_ft q limit table = as_items FULL_TEXT ranked /\
    best_of ft_leb (Z.to_nat limit) ((fun p => (p, full_text_score q p)) <$> filter (matches q) table) ranked /\
    (forall p s, (p, s) ∈ ranked -> p ∈ table /\ matches q p /\ s = full_text_score q p /\ 0 <= s <= 10000).
Proof. apply full_text_search_lemma. Qed.

Lemma full_text_found pg_ft q limit table p :
  py_strip q = q -> stems q <> [] -> 1 <= limit -> p ∈ table -> matches q p ->
  search_products_full_text Sqlite pg_ft q limit table <> [].
Proof.
  intros Hs Hq Hl Hin Hm. rewrite full_text_sqlite by done.
  pose proof (slice_best ft_leb ft_leb_total ft_leb_trans limit
    ((fun p => (p, full_text_score q p)) <$> filter (matches q) table)) as Hb.
  intros E. apply fmap_nil_inv in E. revert E. apply (best_of_pos _ _ _ _ (Hb ltac:(lia))); [lia|].
  intros E%fmap_nil_inv. assert (p ∈ filter (matches q) table) as Hf by (by apply list_elem_of_filter).
  rewrite E in Hf. by apply elem_of_nil in Hf.
Qed.

(** The fuzzy search returns the best products whose similarity reaches the threshold. *)
Lemma fuzzy_search_lemma pg_tri q threshold limit table :
  py_strip q = q -> q <> "" -> 0 <= limit ->
  exists ranked : list (Product * Z),
    search_products_fuzzy_trigram Sqlite pg_tri q threshold limit table = as_items FUZZY_TRIGRAM ranked /\
    best_of fuzzy_leb (Z.to_nat limit)
      ((fun p => (p, best_similarity q p)) <$> filter (fun p => Qle_bool threshold (best_similarity q p # 10000)) table) ranked.
Proof.
  intros Hs Hne Hl. unfold search_products_fuzzy_trigram. rewrite Hs. destruct (decide (q = "")) as [|_]; [done|].
  eexists. split; [reflexivity|].
  match goal with |- best_of _ _ _ (py_slicez (stable_sort _ ?m) _ _) => assert (m = (fun p => (p, best_similarity q p)) <$> filter (fun p => Qle_bool threshold (best_similarity q p # 10000)) table) as -> end.
  - induction table as [|p table IH]; [done|]. cbn [omap list_omap]. rewrite filter_cons.
    destruct (decide (Qle_bool threshold (best_similarity q p # 10000))) as [H|H], (Qle_bool threshold (best_similarity q p # 10000));
      try (by destruct H); cbn [fmap list_fmap]; [f_equal|]; exact IH.
  - by apply slice_best; [apply fuzzy_leb_total|apply fuzzy_leb_trans|].
Qed.

Lemma fuzzy_length pg_tri q threshold limit table : 0 <= limit ->
  (length (search_products_fuzzy_trigram Sqlite pg_tri q threshold limit table) <= Z.to_nat limit)%nat.
Proof.
  intros Hl. unfold search_products_fuzzy_trigram. destruct (decide _); [cbn; lia|].
  rewrite as_items_length, py_slicez_nonneg by lia. unfold py_slice. rewrite drop_0, length_take. lia.
Qed.

Lemma fuzzy_empty pg_tri q threshold limit table : py_strip q = q -> q <> "" -> 1 <= limit ->
  search_products_fuzzy_trigram Sqlite pg_tri q threshold limit table = [] ->
  forall p, p ∈ table -> Qle_bool threshold (best_similarity q p # 10000) = false.
Proof.
  intros Hs Hne Hl E p Hp. apply not_true_iff_false. intros Hq.
  destruct (fuzzy_search_lemma pg_tri q threshold limit table Hs Hne ltac:(lia)) as (ranked & Ef & Hb).
  rewrite E in Ef. symmetry in Ef. apply fmap_nil_inv in Ef as ->.
  apply (best_of_pos _ _ _ _ Hb); [lia| |done]. intros E2%fmap_nil_inv.
  assert (p ∈ filter (fun p => Qle_bool threshold (best_similarity q p # 10000)) table) as Hf
    by (apply list_elem_of_filter; split; [by rewrite Hq|done]).
  rewrite E2 in Hf. by apply elem_of_nil in Hf.
Qed.

(** A product the full-text search is to find: the query has a word, and all its stems
    occur. *)
Definition found (query : string) (p : Product) : Prop := stems query <> [] /\ matches query p.

(** The full-text search of a stripped query, whether or not it has a word. *)
Lemma full_text_results pg_ft q limit table : py_strip q = q -> 1 <= limit ->
  let l := search_products_full_text Sqlite pg_ft q limit table in
  (l <> [] <-> exists p, p ∈ table /\ found q p) /\ (length l <= Z.to_nat limit)%nat /\
  forall x, x ∈ l -> sr_match_type x = FULL_TEXT /\ sr_product x ∈ table /\ found q (sr_product x).
Proof.
  intros Hs Hl. destruct (decide (stems q = [])) as [Hq|Hq]; cbn zeta.
  { assert (search_products_full_text Sqlite pg_ft q limit table = []) as ->.
    { unfold search_products_full_text. rewrite Hs. destruct (decide (q = "")); [done|].
      rewrite bool_decide_eq_true_2; [done|]. unfold stems in Hq. by apply fmap_nil_inv in Hq. }
    split_and!; [|cbn; lia|by intros x Hx%elem_of_nil]. split; [done|]. by intros (p & _ & Hf & _). }
  destruct (full_text_search_lemma pg_ft q limit table Hs Hq ltac:(lia)) as (ranked & Eft & Hb & Hr).
  assert (forall x, x ∈ search_products_full_text Sqlite pg_ft q limit table ->
    sr_match_type x = FULL_TEXT /\ sr_product x ∈ table /\ found q (sr_product x)) as Hkind.
  { rewrite Eft. intros x ([p s] & -> & Hx)%list_elem_of_fmap. split; [done|]. destruct (Hr p s Hx) as (? & ? & _). by split. }
  split_and!; [|rewrite Eft, as_items_length; destruct Hb as (_ & -> & _); lia|done]. split.
  - destruct (search_products_full_text _ _ _ _ _) as [|x l]; [done|]. intros _. exists (sr_product x). apply Hkind. left.
  - intros (p & Hp & _ & Hm). by eapply full_text_found.
Qed.

(** C37: the hybrid search on SQLite, with a limit of at least one.  A blank query gives
    the empty answer.  For any other, the answer carries the stripped query and the number
    of its results, at most [limit] of them.  It is by full text exactly when fuzzy search
    was not forced, the query has a word and some product contains all its stems, and then
    every result is such a product.  Otherwise the results are the best of the products
    whose similarity reaches the threshold, in that order; and the answer is marked empty
    exactly when fuzzy search was not forced and there is no result, which means that no
    product is found or similar enough. *)
Theorem hybrid_search_correct pg_ft pg_tri q fuzzy limit threshold table : 1 <= limit ->
  let cq := py_strip q in
  let r := search_products_hybrid Sqlite pg_ft pg_tri q fuzzy limit threshold table in
  let similar p := Qle_bool threshold (best_similarity cq p # 10000) = true in
  (cq = "" -> r = mkResponse q Empty 0 []) /\
  (cq <> "" ->
   rs_query r = cq /\ rs_total r = Z.of_nat (length (rs_results r)) /\ rs_total r <= limit /\
   (rs_strategy r = ByFullText <-> fuzzy = false /\ exists p, p ∈ table /\ found cq p) /\
   (rs_strategy r = ByFullText ->
      forall x, x ∈ rs_results r -> sr_match_type x = FULL_TEXT /\ sr_product x ∈ table /\ found cq (sr_product x)) /\
   (rs_strategy r <> ByFullText -> exists ranked, rs_results r = as_items FUZZY_TRIGRAM ranked /\
      best_of fuzzy_leb (Z.to_nat limit) ((fun p => (p, best_similarity cq p)) <$> filter similar table) ranked) /\
   (rs_strategy r = Empty <-> fuzzy = false /\ rs_results r = []) /\
   (rs_strategy r = Empty -> forall p, p ∈ table -> ~ found cq p /\ ~ similar p)).
Proof.
  intros Hl cq r similar. subst r. unfold search_products_hybrid. fold cq. destruct (decide (cq = "")) as [|Hne]; [done|].
  split; [done|]. intros _. assert (py_strip cq = cq) as Hs by apply py_strip_idemp.
  destruct (full_text_results pg_ft cq limit table Hs Hl) as (Hex & Hftl & Hkind).
  pose proof (fuzzy_length pg_tri cq threshold limit table ltac:(lia)) as Hfl.
  pose proof (fuzzy_empty pg_tri cq threshold limit table Hs Hne Hl) as Hfe.
  pose proof (fuzzy_search_lemma pg_tri cq threshold limit table Hs Hne ltac:(lia)) as Hfz.
  revert Hex Hftl Hkind Hfl Hfe Hfz. generalize (search_products_full_text Sqlite pg_ft cq limit table).
  generalize (search_products_fuzzy_trigram Sqlite pg_tri cq threshold limit table). intros fz ft Hex Hftl Hkind Hfl Hfe Hfz.
  assert (exists ranked, fz = as_items FUZZY_TRIGRAM ranked /\
    best_of fuzzy_leb (Z.to_nat limit) ((fun p => (p, best_similarity cq p)) <$> filter similar table) ranked) as Hrank.
  { destruct Hfz as (ranked & -> & Hb). exists ranked. split; [done|].
    rewrite <-(list_filter_iff (fun p => Is_true (Qle_bool threshold (best_similarity cq p # 10000))) similar); [done|].
    intros p. apply Is_true_true. }
  destruct fuzzy; cbv zeta.
  { cbn. split_and!; [done|done|lia|split; [done|by intros [? _]]|done|done|split; [done|by intros [? _]]|done]. }
  destruct ft as [|x ft].
  - cbn [length]. rewrite bool_decide_eq_true_2 by done. cbn [negb rs_query rs_strategy rs_total rs_results].
    assert (~ exists p, p ∈ table /\ found cq p) as Hnone by (intros H; by apply Hex in H).
    split_and!; [done|done|lia|split; [by case_match|by intros [_ ?]]|by case_match|done| |].
    + destruct fz; cbn; split; try done. by intros [_ ?].
    + destruct fz; [|done]. intros _ p Hp. split; [eauto|]. intros Hq. unfold similar in Hq. rewrite Hfe in Hq by done. done.
  - rewrite bool_decide_eq_false_2 by done. cbn [negb rs_query rs_strategy rs_total rs_results].
    split_and!; [done|done|lia| |by intros _|done|split; [done|by intros [_ ?]]|done].
    split; [intros _; split; [done|by apply Hex]|done].
Qed.

(** A product that was created on SQLite is found: creating it appends the product with
    its texts stripped, and a search for its title, with any limit of at least one and any
    threshold, answers by full text, provided the title has a word in it. *)
Theorem created_product_found vec pg_ft pg_tri new_id now request table limit threshold :
  stems (py_strip (cr_title request)) <> [] -> 1 <= limit ->
  exists p, create_product Sqlite vec new_id now request table = (Ok p, table ++ [p]) /\
    pr_title p = py_strip (cr_title request) /\ pr_search_vector p = Some (pr_title p +:+ " " +:+ pr_description p) /\
    rs_strategy (search_products_hybrid Sqlite pg_ft pg_tri (pr_title p) false limit threshold (table ++ [p])) = ByFullText.
Proof.
  intros Hq Hl. eexists. split; [reflexivity|]. split; [reflexivity|]. split; [reflexivity|]. cbn [pr_title].
  set (p := mkProduct _ _ _ _ _ _ _). change (py_strip (cr_title request)) with (pr_title p) in Hq |- *.
  assert (py_strip (pr_title p) = pr_title p) as Hs by apply py_strip_idemp.
  assert (search_products_full_text Sqlite pg_ft (pr_title p) limit (table ++ [p]) <> []) as Hf.
  { apply (full_text_found _ _ _ _ p); [done..|apply elem_of_app; right; by left|]. apply Forall_forall. intros s Hin. by left. }
  unfold search_products_hybrid. rewrite Hs. destruct (decide (pr_title p = "")) as [E|_]; [by rewrite E in Hq|].
  by rewrite bool_decide_eq_false_2 by (by intros ?%length_zero_iff_nil).
Qed.

Lemma best_of_perm {A} (leb : A -> A -> bool) n l l' res : l ≡ₚ l' -> best_of leb n l res -> best_of leb n l' res.
Proof. intros Hp (Hs & Hl & rest & Hr & Hle). split; [done|]. rewrite <-Hp. split; [done|]. exists rest. by rewrite <-Hp. Qed.

Definition candidates_of (table : list Product) : gset string := list_to_set (table ≫= fun p => [pr_title p; pr_brand p]).
Lemma candidates_of_spec table c : c ∈ candidates_of table <-> exists p, p ∈ table /\ (c = pr_title p \/ c = pr_brand p).
Proof.
  unfold candidates_of. rewrite elem_of_list_to_set, list_elem_of_bind. split; intros (p & H); exists p; revert H; rewrite !elem_of_cons, elem_of_nil; tauto.
Qed.
Lemma score_candidate_spec prefix c y s : score_candidate prefix c = Some (y, s) ->
  y = c /\ 0 <= s <= 10000 /\ (starts_with prefix (chars (py_lower c)) = true -> s = 10000).
Proof.
  unfold score_candidate. pose proof (similarity_range prefix (chars c)).
  repeat case_match; intros [= <- <-]; split_and!; (lia || done || congruence).
Qed.
Lemma omap_score_fst prefix l : NoDup l -> NoDup (omap (score_candidate prefix) l).*1.
Proof.
  induction 1 as [|c l Hc Hn IH]; [constructor|]. cbn [omap list_omap].
  destruct (score_candidate prefix c) as [[y s]|] eqn:E; [|done]. cbn [fmap list_fmap fst].
  apply score_candidate_spec in E as (-> & _). constructor; [|done].
  intros ([y s'] & Ey & (d & Hd & Es)%list_elem_of_omap)%list_elem_of_fmap. cbn in Ey. subst y.
  apply score_candidate_spec in Es as (-> & _). done.
Qed.

(** The suggestions, whatever order the set of candidates is iterated in: they are
    distinct titles or brands of the table, at most [limit] of them, ranked by score and then
    by length with nothing better left out; and as long as a candidate that starts with the
    typed prefix is left out, every suggestion has the full score. *)
Theorem suggestions_correct iterate prefix limit table :
  (forall X, iterate X ≡ₚ elements X) -> py_strip prefix <> "" -> 0 <= limit ->
  let clean := chars (py_lower (py_strip prefix)) in
  exists ranked : list (string * Z),
    suggest_autocomplete iterate prefix limit table = ranked.*1 /\ NoDup ranked.*1 /\
    best_of suggest_leb (Z.to_nat limit) (omap (score_candidate clean) (elements (candidates_of table))) ranked /\
    (forall c s, (c, s) ∈ ranked -> (exists p, p ∈ table /\ (c = pr_title p \/ c = pr_brand p)) /\ score_candidate clean c = Some (c, s)) /\
    (forall c, c ∈ candidates_of table -> starts_with clean (chars (py_lower c)) = true -> c ∉ ranked.*1 ->
       forall d s, (d, s) ∈ ranked -> s = 10000).
Proof.
  intros Hit Hne Hl clean. unfold suggest_autocomplete. fold clean.
  destruct (decide (clean = [])) as [E|_].
  { exfalso. apply Hne. unfold clean, py_lower in E. rewrite chars_of_chars in E. apply fmap_nil_inv in E.
    by rewrite <-(of_chars_chars (py_strip prefix)), E. }
  fold (candidates_of table). eexists. split; [reflexivity|].
  set (scored := omap (score_candidate clean) (iterate (candidates_of table))).
  assert (scored ≡ₚ omap (score_candidate clean) (elements (candidates_of table))) as Hp by (unfold scored; by rewrite Hit).
  pose proof (slice_best suggest_leb suggest_leb_total suggest_leb_trans limit scored Hl) as Hb.
  set (ranked := py_slicez _ _ _) in *.
  assert (NoDup scored.*1) as Hnd by (rewrite Hp; apply omap_score_fst, NoDup_elements).
  destruct Hb as (Hs & Hlen & rest & Hr & Hle).
  assert (forall c s, (c, s) ∈ ranked ++ rest <-> c ∈ candidates_of table /\ score_candidate clean c = Some (c, s)) as Hel.
  { intros c s. rewrite <-Hr, Hp, list_elem_of_omap. setoid_rewrite elem_of_elements. split.
    - intros (d & Hd & E). pose proof (score_candidate_spec _ _ _ _ E) as (-> & _). done.
    - intros [Hc E]. by exists c. }
  split_and!.
  - rewrite Hr, fmap_app in Hnd. by apply NoDup_app in Hnd as [? _].
  - apply (best_of_perm _ _ scored); [done|]. split; [done|]. split; [done|]. by exists rest.
  - intros c s Hin. assert ((c, s) ∈ ranked ++ rest) as Hin' by (apply elem_of_app; by left).
    apply Hel in Hin' as [Hc E]. split; [by apply candidates_of_spec|done].
  - intros c Hc Hst Hnot d s Hd. assert (score_candidate clean c = Some (c, 10000)) as Ec by (unfold score_candidate; by rewrite Hst).
    assert ((c, 10000) ∈ rest) as Hrest.
    { assert ((c, 10000) ∈ ranked ++ rest) as H by (by apply Hel). apply elem_of_app in H as [H|H]; [|done].
      exfalso. apply Hnot, list_elem_of_fmap. by exists (c, 10000). }
    specialize (Hle _ _ Hd Hrest). assert ((d, s) ∈ ranked ++ rest) as Hd' by (apply elem_of_app; by left).
    apply Hel in Hd' as [_ (_ & ? & _)%score_candidate_spec]. unfold suggest_leb in Hle. cbn [fst snd] in Hle.
    rewrite orb_true_iff, andb_true_iff, Z.ltb_lt, Z.eqb_eq in Hle. lia.
Qed.

(** ** Concrete searches *)

Definition shelf (title brand : string) (price : Q) (id : Z) : Product := mkProduct id title "" brand price None 0.
Definition demo_products : list Product := [shelf "Apple iPhone" "Apple" 999 1; shelf "Running Shoes" "Acme" 80 2; shelf "Used phone" "Acme" 50 3].
Definition titles (l : list SearchResultItem) : list string := (fun x => pr_title (sr_product x)) <$> l.

(** The misspelt query reaches the product by its trigrams. *)
Example typo_found :
  let r := search_products_hybrid Sqlite (fun _ _ _ => []) (fun _ _ _ _ => []) "aple iphon" false 10 (3 # 10) demo_products in
  rs_strategy r = ByFuzzyTrigram /\ titles (rs_results r) = ["Apple iPhone"].
Proof. vm_compute. done. Qed.

(** The stemmer gives the plural a stem of its own: "phones" becomes "phon", "phone" stays
    as it is, so a full-text search for the plural misses the singular. *)
Example plural_stem_differs :
  stem_word (chars "phones") = chars "phon" /\ stem_word (chars "phone") = chars "phone" /\
  stem_word (chars "shoes") = chars "shoe" /\ stem_word (chars "running") = chars "run" /\
  search_products_full_text Sqlite (fun _ _ _ => []) "phones" 10 demo_products = [].
Proof. vm_compute. done. Qed.

(** Trigram similarity, the third priority of the suggestions, beats a substring match. *)
Example similarity_before_substring :
  suggest_autocomplete elements "international businesx" 5
    [shelf "the international businesx" "a" 1 1; shelf "international business" "b" 1 2] =
  ["international business"; "the international businesx"].
Proof. vm_compute. done. Qed.

Lemma full_text_search_correct_witness : exists ranked,
  search_products_full_text Sqlite (fun _ _ _ => []) "running shoe" 10 demo_products = as_items FULL_TEXT ranked /\
  ranked.*1 = [shelf "Running Shoes" "Acme" 80 2].
Proof.
  destruct (full_text_search_correct (fun _ _ _ => []) "running shoe" 10 demo_products ltac:(vm_compute; done) ltac:(vm_compute; done) ltac:(lia)) as (r & E & _).
  exists r. split; [exact E|]. rewrite <-(as_items_products FULL_TEXT r), <-E. vm_compute. done.
Defined.
Lemma hybrid_search_correct_witness :
  rs_strategy (search_products_hybrid Sqlite (fun _ _ _ => []) (fun _ _ _ _ => []) " running shoe" false 10 (3 # 10) demo_products) = ByFullText.
Proof.
  destruct (hybrid_search_correct (fun _ _ _ => []) (fun _ _ _ _ => []) " running shoe" false 10 (3 # 10) demo_products ltac:(lia)) as [_ H].
  destruct H as (_ & _ & _ & H & _); [by vm_compute|].
  apply H. split; [done|]. exists (shelf "Running Shoes" "Acme" 80 2). split; [right; left|]. split; [by vm_compute|].
  by apply (bool_decide_unpack _); vm_compute.
Defined.
Lemma created_product_found_witness : exists p,
  create_product Sqlite (fun _ _ => "") 4 0 (mkCreate " Red lamp " "" "Lux" 12) demo_products = (Ok p, demo_products ++ [p]) /\ pr_title p = "Red lamp".
Proof.
  destruct (created_product_found (fun _ _ => "") (fun _ _ _ => []) (fun _ _ _ _ => []) 4 0 (mkCreate " Red lamp " "" "Lux" 12) demo_products 1 0
    ltac:(vm_compute; done) ltac:(lia)) as (p & E & Ht & _).
  exists p. split; [exact E|]. by rewrite Ht.
Defined.
Lemma suggestions_correct_witness : exists ranked : list (string * Z), suggest_autocomplete elements " App" 5 demo_products = ranked.*1 /\ NoDup ranked.*1.
Proof.
  destruct (suggestions_correct elements " App" 5 demo_products (fun X => Permutation_refl _) ltac:(vm_compute; done) ltac:(lia)) as (r & E & H & _).
  exists r. split; [exact E|exact H].
Defined.
