(* ===== verification/Amqp.v ===== *)
(** The in-memory AMQP broker of [app/core/rabbitmq.py], its topology
    ([app/core/rabbitmq_topology.py]), [app/services/message_broker_service.py] and
    [app/routers/broker_router.py].

    Exchanges and queues are shared objects: the channel, the bindings and the cached
    topology refer to them, so they live in heaps and are compared by reference.  A
    connection to a live broker is outside the model; JSON is a pair of parameters. *)

From S2P Require Import Prelude.

Local Open Scope Z_scope.
Local Open Scope py_scope.

(** ** [fnmatch.fnmatchcase] *)

Inductive glob : Type := GLit (c : ascii) | GOne | GAny | GClass (negated : bool) (ranges : list (ascii * ascii)).

(** The members of a bracket expression, between the brackets. *)
Fixpoint class_ranges (l : list ascii) : list (ascii * ascii) :=
  match l with
  | [] => []
  | a :: l1 =>
      match l1 with
      | d :: l2 => match l2 with
                   | b :: l3 => if decide (d = "-"%char) then (a, b) :: class_ranges l3 else (a, a) :: class_ranges l1
                   | [] => (a, a) :: class_ranges l1
                   end
      | [] => [(a, a)]
      end
  end.
(** Up to the next "]"; the rest follows it. *)
Fixpoint until_bracket (l : list ascii) : option (list ascii * list ascii) :=
  match l with
  | [] => None
  | c :: l' => if decide (c = "]"%char) then Some ([], l')
               else match until_bracket l' with Some (s, r) => Some (c :: s, r) | None => None end
  end.
(** A "]" that comes first belongs to the class. *)
Definition bracket_body (l : list ascii) : option (list ascii * list ascii) :=
  match l with
  | c :: l' => if decide (c = "]"%char) then match until_bracket l' with Some (s, r) => Some (c :: s, r) | None => None end
               else until_bracket l
  | [] => None
  end.
Definition bracket_class (l : list ascii) : option (glob * list ascii) :=
  match l with
  | c :: l' =>
      if decide (c = "!"%char) then match bracket_body l' with Some (s, r) => Some (GClass true (class_ranges s), r) | None => None end
      else match bracket_body l with Some (s, r) => Some (GClass false (class_ranges s), r) | None => None end
  | [] => None
  end.
Fixpoint glob_parse (fuel : nat) (l : list ascii) : list glob :=
  match fuel, l with
  | S fuel', c :: l' =>
      if decide (c = "*"%char) then GAny :: glob_parse fuel' l'
      else if decide (c = "?"%char) then GOne :: glob_parse fuel' l'
      else if decide (c = "["%char) then
        match bracket_class l' with
        | Some (g, r) => g :: glob_parse fuel' r
        | None => GLit c :: glob_parse fuel' l'
        end
      else GLit c :: glob_parse fuel' l'
  | _, _ => []
  end.
Definition in_ranges (c : ascii) (ranges : list (ascii * ascii)) : bool :=
  existsb (fun '(lo, hi) => (nat_of_ascii lo <=? nat_of_ascii c)%nat && (nat_of_ascii c <=? nat_of_ascii hi)%nat) ranges.
Fixpoint glob_match (g : list glob) (s : list ascii) : bool :=
  match g with
  | [] => match s with [] => true | _ => false end
  | GAny :: g' => existsb (fun i => glob_match g' (drop i s)) (seq 0 (S (length s)))
  | GOne :: g' => match s with _ :: s' => glob_match g' s' | [] => false end
  | GLit c :: g' => match s with d :: s' => bool_decide (c = d) && glob_match g' s' | [] => false end
  | GClass negated ranges :: g' => match s with d :: s' => xorb negated (in_ranges d ranges) && glob_match g' s' | [] => false end
  end.
Definition fnmatchcase (name pat : string) : bool :=
  glob_match (glob_parse (String.length pat) (chars pat)) (chars name).

(** ** [MockAMQPExchange]: topic patterns *)

Fixpoint match_tokens (pattern_tokens key_tokens : list string) : bool :=
  match pattern_tokens with
  | [] => bool_decide (key_tokens = [])
  | p :: rest =>
      if decide (p = "#") then existsb (fun i => match_tokens rest (drop i key_tokens)) (seq 0 (S (length key_tokens)))
      else if decide (p = "*") then match key_tokens with [] => false | _ :: ks => match_tokens rest ks end
      else match key_tokens with [] => false | k :: ks => fnmatchcase k p && match_tokens rest ks end
  end.
Definition tokens (s : string) : list string := py_split "."%char s.
Definition topic_matches (pattern routing_key : string) : bool :=
  if decide (pattern = "#") then true
  else if decide (pattern = routing_key) then true
  else match_tokens (tokens pattern) (tokens routing_key).

(** ** Objects *)

(** HEADERS stands for the exchange types the mock does not route. *)
Inductive ExchangeType : Type := DIRECT | FANOUT | TOPIC | HEADERS.
#[global] Instance ExchangeType_eq_dec : EqDecision ExchangeType.
Proof. solve_decision. Defined.

Record message : Type := mkMessage {
  ms_body : string; ms_routing_key : string; ms_persistent : bool; ms_exchange : string; ms_acknowledged : bool; ms_requeued : bool }.
Definition new_message (body routing_key : string) (persistent : bool) (exchange : string) : message :=
  mkMessage body routing_key persistent exchange false false.
Definition msg_ack (m : message) : message :=
  mkMessage (ms_body m) (ms_routing_key m) (ms_persistent m) (ms_exchange m) true (ms_requeued m).

Abbreviation ref := nat.
(** [bindings] keeps the order of insertion of its keys. *)
Record exchange : Type := mkExchange {
  ex_name : string; ex_type : ExchangeType; ex_bindings : list (string * list ref); ex_fanout_queues : list ref }.
Record channel : Type := mkChannel { ch_exchanges : gmap string ref; ch_queues : gmap string ref; ch_is_closed : bool }.
Record RabbitMQTopology : Type := mkTopology { tp_direct : ref; tp_fanout : ref; tp_topic : ref; tp_queues : gmap string ref }.

(** The heaps and the module globals. *)
Record amqp : Type := mkAmqp {
  aq_exchanges : gmap ref exchange; aq_queues : gmap ref (list message); aq_next : ref;
  aq_channel : option channel; aq_topology : option RabbitMQTopology }.
Definition amqp_init : amqp := mkAmqp ∅ ∅ 0 None None.
Definition set_exchange (x : ref) (e : exchange) (s : amqp) : amqp :=
  mkAmqp (<[x := e]> (aq_exchanges s)) (aq_queues s) (aq_next s) (aq_channel s) (aq_topology s).
Definition set_queue (q : ref) (ms : list message) (s : amqp) : amqp :=
  mkAmqp (aq_exchanges s) (<[q := ms]> (aq_queues s)) (aq_next s) (aq_channel s) (aq_topology s).
Definition set_channel (c : option channel) (s : amqp) : amqp :=
  mkAmqp (aq_exchanges s) (aq_queues s) (aq_next s) c (aq_topology s).
Definition set_topology (t : option RabbitMQTopology) (s : amqp) : amqp :=
  mkAmqp (aq_exchanges s) (aq_queues s) (aq_next s) (aq_channel s) t.
Definition alloc_exchange (e : exchange) (s : amqp) : ref * amqp :=
  (aq_next s, mkAmqp (<[aq_next s := e]> (aq_exchanges s)) (aq_queues s) (S (aq_next s)) (aq_channel s) (aq_topology s)).
Definition alloc_queue (s : amqp) : ref * amqp :=
  (aq_next s, mkAmqp (aq_exchanges s) (<[aq_next s := []]> (aq_queues s)) (S (aq_next s)) (aq_channel s) (aq_topology s)).
Definition queue (q : ref) (s : amqp) : list message := default [] (aq_queues s !! q).

(** ** Queues *)

Definition queue_get (no_ack : bool) (q : ref) (s : amqp) : option message * amqp :=
  match queue q s with
  | [] => (None, s)
  | m :: ms => (Some (if no_ack then msg_ack m else m), set_queue q ms s)
  end.
(** [nack]: the message goes back to the front. *)
Definition msg_nack (requeue : bool) (m : message) (q : ref) (s : amqp) : amqp :=
  if requeue
  then set_queue q (mkMessage (ms_body m) (ms_routing_key m) (ms_persistent m) (ms_exchange m) false true :: queue q s) s
  else s.
Definition message_count (q : ref) (s : amqp) : Z := Z.of_nat (length (queue q s)).

(** ** Exchanges *)

Definition add_binding (q : ref) (routing_key : string) (e : exchange) : exchange :=
  if decide (ex_type e = FANOUT) then
    if decide (q ∈ ex_fanout_queues e) then e
    else mkExchange (ex_name e) (ex_type e) (ex_bindings e) (ex_fanout_queues e ++ [q])
  else
    let bound := default [] (dict_get (ex_bindings e) routing_key) in
    mkExchange (ex_name e) (ex_type e)
      (dict_set (ex_bindings e) routing_key (if decide (q ∈ bound) then bound else bound ++ [q])) (ex_fanout_queues e).
Definition bind_queue (q x : ref) (routing_key : string) (s : amqp) : amqp :=
  match aq_exchanges s !! x with
  | Some e => set_exchange x (add_binding q routing_key e) s
  | None => s
  end.
(** [if q not in target_queues: target_queues.append(q)] *)
Definition append_new (targets : list ref) (q : ref) : list ref := if decide (q ∈ targets) then targets else targets ++ [q].
Definition targets (e : exchange) (routing_key : string) : list ref :=
  match ex_type e with
  | FANOUT => ex_fanout_queues e
  | DIRECT => default [] (dict_get (ex_bindings e) routing_key)
  | TOPIC => foldl (fun acc '(pattern, queues) => if topic_matches pattern routing_key then foldl append_new acc queues else acc) [] (ex_bindings e)
  | HEADERS => []
  end.
Definition publish (x : ref) (body : string) (persistent : bool) (routing_key : string) (s : amqp) : amqp :=
  match aq_exchanges s !! x with
  | Some e => foldl (fun s q => set_queue q (queue q s ++ [new_message body routing_key persistent (ex_name e)]) s) s (targets e routing_key)
  | None => s
  end.

(** ** The channel *)

Definition declare_exchange (name : string) (type : ExchangeType) (s : amqp) : ref * amqp :=
  match aq_channel s with
  | None => (0%nat, s)
  | Some c =>
      match ch_exchanges c !! name with
      | Some x => (x, s)
      | None =>
          let '(x, s) := alloc_exchange (mkExchange name type [] []) s in
          (x, set_channel (Some (mkChannel (<[name := x]> (ch_exchanges c)) (ch_queues c) (ch_is_closed c))) s)
      end
  end.
Definition declare_queue (name : string) (s : amqp) : ref * amqp :=
  match aq_channel s with
  | None => (0%nat, s)
  | Some c =>
      match ch_queues c !! name with
      | Some q => (q, s)
      | None =>
          let '(q, s) := alloc_queue s in
          (q, set_channel (Some (mkChannel (ch_exchanges c) (<[name := q]> (ch_queues c)) (ch_is_closed c))) s)
      end
  end.

(** Without a live broker: the mock connection and its channel.  [init_rabbitmq] replaces
    the globals, [get_rabbitmq_channel] initializes them when there are none. *)
Definition init_rabbitmq (s : amqp) : amqp := set_channel (Some (mkChannel ∅ ∅ false)) s.
Definition close_rabbitmq (s : amqp) : amqp := set_channel None s.
Definition get_rabbitmq_channel (s : amqp) : amqp :=
  match aq_channel s with Some _ => s | None => init_rabbitmq s end.

(** ** The topology *)

Definition DIRECT_EXCHANGE_NAME : string := "orders.direct".
Definition FANOUT_EXCHANGE_NAME : string := "events.fanout".
Definition TOPIC_EXCHANGE_NAME : string := "logs.topic".
Definition QUEUE_ORDER_CREATED : string := "orders.created.queue".
Definition QUEUE_ORDER_CANCELLED : string := "orders.cancelled.queue".
Definition QUEUE_NOTIFICATION : string := "events.notification.queue".
Definition QUEUE_ANALYTICS : string := "events.analytics.queue".
Definition QUEUE_AUDIT : string := "events.audit.queue".
Definition QUEUE_EU_LOGS : string := "logs.eu.queue".
Definition QUEUE_CRITICAL_ALERTS : string := "logs.critical.queue".
Definition QUEUE_ORDER_MONITORING : string := "logs.order.monitoring.queue".
Definition ROUTING_KEY_ORDER_CREATED : string := "order.created".
Definition ROUTING_KEY_ORDER_CANCELLED : string := "order.cancelled".
Definition TOPIC_PATTERN_EU : string := "europe.#".
Definition TOPIC_PATTERN_CRITICAL : string := "#.critical".
Definition TOPIC_PATTERN_ORDER : string := "order.*.*".

(** [q = declare_queue(name); q.bind(exchange, key); declared_queues[name] = q] *)
Definition declare_bound (acc : gmap string ref * amqp) (spec : string * ref * string) : gmap string ref * amqp :=
  let '(declared_queues, s) := acc in
  let '(name, x, routing_key) := spec in
  let '(q, s) := declare_queue name s in
  (<[name := q]> declared_queues, bind_queue q x routing_key s).
(** The queues with their exchange and key, in the order of the declarations. *)
Definition bindings_of (direct_ex fanout_ex topic_ex : ref) : list (string * ref * string) := [
  (QUEUE_ORDER_CREATED, direct_ex, ROUTING_KEY_ORDER_CREATED); (QUEUE_ORDER_CANCELLED, direct_ex, ROUTING_KEY_ORDER_CANCELLED);
  (QUEUE_NOTIFICATION, fanout_ex, ""); (QUEUE_ANALYTICS, fanout_ex, ""); (QUEUE_AUDIT, fanout_ex, "");
  (QUEUE_EU_LOGS, topic_ex, TOPIC_PATTERN_EU); (QUEUE_CRITICAL_ALERTS, topic_ex, TOPIC_PATTERN_CRITICAL);
  (QUEUE_ORDER_MONITORING, topic_ex, TOPIC_PATTERN_ORDER)].
Definition declare_rabbitmq_topology (s : amqp) : RabbitMQTopology * amqp :=
  let '(direct_ex, s) := declare_exchange DIRECT_EXCHANGE_NAME DIRECT s in
  let '(fanout_ex, s) := declare_exchange FANOUT_EXCHANGE_NAME FANOUT s in
  let '(topic_ex, s) := declare_exchange TOPIC_EXCHANGE_NAME TOPIC s in
  let '(declared_queues, s) := foldl declare_bound (∅, s) (bindings_of direct_ex fanout_ex topic_ex) in
  (mkTopology direct_ex fanout_ex topic_ex declared_queues, s).

(** ** [MessageBrokerService] *)

Section Broker.
Context {Payload : Type} (json_dumps : Payload -> string) (json_loads : string -> option Payload).

Record published : Type := mkPublished { pb_exchange : string; pb_routing_key : option string }.
Record consumed : Type := mkConsumed { cs_queue_name : string; cs_routing_key : string; cs_exchange : string; cs_payload : Payload }.

Definition get_or_declare_topology : M amqp RabbitMQTopology := fun s =>
  let s := get_rabbitmq_channel s in
  match aq_topology s with
  | Some t => (Ok t, s)
  | None => let '(t, s) := declare_rabbitmq_topology s in (Ok t, set_topology (Some t) s)
  end.
Definition reset_topology_cache (s : amqp) : amqp := set_topology None s.

Definition publish_direct_message (routing_key : string) (payload : Payload) : M amqp published :=
  let! topology := get_or_declare_topology in
  modify (publish (tp_direct topology) (json_dumps payload) true routing_key) ;;;
  ret (mkPublished DIRECT_EXCHANGE_NAME (Some routing_key)).
Definition publish_fanout_event (payload : Payload) : M amqp published :=
  let! topology := get_or_declare_topology in
  modify (publish (tp_fanout topology) (json_dumps payload) true "") ;;;
  ret (mkPublished FANOUT_EXCHANGE_NAME None).
Definition publish_topic_message (routing_key : string) (payload : Payload) : M amqp published :=
  let! topology := get_or_declare_topology in
  modify (publish (tp_topic topology) (json_dumps payload) true routing_key) ;;;
  ret (mkPublished TOPIC_EXCHANGE_NAME (Some routing_key)).

(** A queue that the topology does not know is declared and remembered. *)
Definition lookup_queue (queue_name : string) : M amqp ref :=
  let! topology := get_or_declare_topology in
  match tp_queues topology !! queue_name with
  | Some q => ret q
  | None => fun s =>
      let '(q, s) := declare_queue queue_name (get_rabbitmq_channel s) in
      (Ok q, set_topology (Some (mkTopology (tp_direct topology) (tp_fanout topology) (tp_topic topology)
                                   (<[queue_name := q]> (tp_queues topology)))) s)
  end.
Definition consume_next_message (queue_name : string) (auto_ack : bool) : M amqp (option consumed) :=
  let! q := lookup_queue queue_name in
  fun s =>
    match queue_get auto_ack q s with
    | (None, s) => (Ok None, s)
    | (Some message, s) =>
        match json_loads (ms_body message) with
        | Some payload => (Ok (Some (mkConsumed queue_name (ms_routing_key message) (ms_exchange message) payload)), s)
        | None => (Raise PyValueError, if auto_ack then s else msg_nack true message q s)
        end
    end.

(** The endpoints; the requests bound the length of the routing key. *)
Definition bad_routing_key (routing_key : string) : bool :=
  (String.length routing_key =? 0)%nat || (255 <? String.length routing_key)%nat.
Definition publish_direct_endpoint (routing_key : string) (payload : Payload) : M amqp published :=
  raise_if (bad_routing_key routing_key) PydanticValidationError ;;; publish_direct_message routing_key payload.
Definition publish_topic_endpoint (routing_key : string) (payload : Payload) : M amqp published :=
  raise_if (bad_routing_key routing_key) PydanticValidationError ;;; publish_topic_message routing_key payload.
Definition consume_message_endpoint (queue_name : string) : M amqp consumed :=
  let! msg := consume_next_message queue_name false in
  match msg with Some msg => ret msg | None => raise (HTTPException 404) end.
End Broker.
Arguments consumed Payload : clear implicits.

(** ** Topic patterns: the AMQP rules *)

Inductive topic_match : list string -> list string -> Prop :=
  | tm_nil : topic_match [] []
  | tm_hash_none ps ks : topic_match ps ks -> topic_match ("#" :: ps) ks
  | tm_hash_more ps k ks : topic_match ("#" :: ps) ks -> topic_match ("#" :: ps) (k :: ks)
  | tm_star ps k ks : topic_match ps ks -> topic_match ("*" :: ps) (k :: ks)
  | tm_word w ps ks : w <> "#" -> w <> "*" -> topic_match ps ks -> topic_match (w :: ps) (w :: ks).

(** A word without glob characters of [fnmatch]. *)
Definition plain_char (c : ascii) : bool := negb (bool_decide (c ∈ ["*"; "?"; "["]%char)).
Definition plain_word (w : string) : bool := forallb plain_char (chars w).
Definition pattern_word (w : string) : bool := bool_decide (w = "#") || bool_decide (w = "*") || plain_word w.

Lemma glob_parse_plain fuel l : forallb plain_char l = true -> (length l <= fuel)%nat -> glob_parse fuel l = GLit <$> l.
Proof.
  revert fuel. induction l as [|c l IH]; intros [|fuel]; cbn [length forallb glob_parse fmap list_fmap]; try done; [lia|].
  rewrite andb_true_iff. intros [Hc Hl] Hf. unfold plain_char in Hc. apply negb_true_iff, bool_decide_eq_false in Hc.
  rewrite !decide_False by (intros ->; set_solver). f_equal. apply IH; [done|lia].
Qed.
Lemma glob_match_literal l s : glob_match (GLit <$> l) s = bool_decide (s = l).
Proof.
  revert s. induction l as [|c l IH]; intros [|d s]; cbn [fmap list_fmap glob_match]; [done..|].
  change (glob_match (list_fmap _ _ GLit l) s) with (glob_match (GLit <$> l) s). rewrite IH.
  apply eq_true_iff_eq. rewrite andb_true_iff, !bool_decide_eq_true. naive_solver.
Qed.
Lemma fnmatch_plain k w : plain_word w = true -> fnmatchcase k w = bool_decide (k = w).
Proof.
  intros Hw. unfold fnmatchcase. rewrite glob_parse_plain by (done || by rewrite length_chars). rewrite glob_match_literal.
  apply bool_decide_ext. split; [intros H; by rewrite <-(of_chars_chars k), H, of_chars_chars|by intros ->].
Qed.

Lemma hash_suffix ps ks : topic_match ("#" :: ps) ks <-> exists i, (i <= length ks)%nat /\ topic_match ps (drop i ks).
Proof.
  split.
  - induction ks as [|k ks IH]; inversion 1; subst; try done; [by exists 0%nat; split; [lia|]..|].
    destruct IH as (i & ? & ?); [done|]. exists (S i). cbn. split; [lia|done].
  - intros (i & Hi & H). revert ks Hi H. induction i as [|i IH]; intros ks Hi H.
    + by apply tm_hash_none; rewrite drop_0 in H.
    + destruct ks as [|k ks]; [cbn in Hi; lia|]. apply tm_hash_more, IH; [cbn in Hi; lia|done].
Qed.
Lemma match_tokens_spec ps ks : forallb pattern_word ps = true -> match_tokens ps ks = true <-> topic_match ps ks.
Proof.
  revert ks. induction ps as [|p ps IH]; intros ks; cbn [forallb match_tokens].
  { intros _. rewrite bool_decide_eq_true. split; [intros ->; constructor|by inversion 1]. }
  rewrite andb_true_iff. intros [Hp Hps]. destruct (decide (p = "#")) as [->|Hh].
  { rewrite hash_suffix, existsb_exists. split.
    - intros (i & Hi%in_seq & H). exists i. split; [lia|]. by apply IH.
    - intros (i & Hi & H). exists i. rewrite in_seq. split; [lia|]. by apply IH. }
  destruct (decide (p = "*")) as [->|Hst].
  { destruct ks as [|k ks]; [split; [done|by inversion 1]|]. rewrite IH by done. split; [by apply tm_star|by inversion 1]. }
  assert (plain_word p = true) as Hpl.
  { unfold pattern_word in Hp. rewrite !orb_true_iff, !bool_decide_eq_true in Hp. naive_solver. }
  destruct ks as [|k ks]; [split; [done|by inversion 1]|].
  rewrite fnmatch_plain, andb_true_iff, bool_decide_eq_true, IH by done.
  split; [intros [-> ?]; by apply tm_word|inversion 1; subst; naive_solver].
Qed.
Lemma topic_match_self ps : topic_match ps ps.
Proof.
  induction ps as [|p ps IH]; [constructor|]. destruct (decide (p = "#")) as [->|]; [by apply tm_hash_more, tm_hash_none|].
  destruct (decide (p = "*")) as [->|]; [by apply tm_star|by apply tm_word].
Qed.
Lemma topic_matches_spec pattern key : forallb pattern_word (tokens pattern) = true ->
  topic_matches pattern key = true <-> topic_match (tokens pattern) (tokens key).
Proof.
  intros Hp. unfold topic_matches. destruct (decide (pattern = "#")) as [->|_].
  { split; [intros _|done]. apply (proj2 (hash_suffix [] _)). exists (length (tokens key)). split; [done|]. rewrite drop_all. constructor. }
  destruct (decide (pattern = key)) as [->|_]; [split; [intros _; apply topic_match_self|done]|]. by apply match_tokens_spec.
Qed.

(** ** The abstract broker: a list of messages per queue name *)

(** The queues a message reaches, by exchange. *)
Definition eu_log (key : string) : Prop := head (tokens key) = Some "europe".
Definition critical_log (key : string) : Prop := last (tokens key) = Some "critical".
Definition order_log (key : string) : Prop := exists a b, tokens key = ["order"; a; b].
#[global] Instance order_log_dec key : Decision (order_log key).
Proof.
  unfold order_log. destruct (tokens key) as [|w [|a [|b [|c l]]]]; try (right; by intros (? & ? & ?)).
  destruct (decide (w = "order")) as [->|Hn]; [left; eauto|right; by intros (? & ? & [= ? ? ?])].
Defined.
Definition routes (x : ExchangeType) (key : string) : list string :=
  match x with
  | DIRECT => if decide (key = ROUTING_KEY_ORDER_CREATED) then [QUEUE_ORDER_CREATED]
              else if decide (key = ROUTING_KEY_ORDER_CANCELLED) then [QUEUE_ORDER_CANCELLED] else []
  | FANOUT => [QUEUE_NOTIFICATION; QUEUE_ANALYTICS; QUEUE_AUDIT]
  | TOPIC => (if decide (head (tokens key) = Some "europe") then [QUEUE_EU_LOGS] else [])
             ++ (if decide (last (tokens key) = Some "critical") then [QUEUE_CRITICAL_ALERTS] else [])
             ++ (if decide (order_log key) then [QUEUE_ORDER_MONITORING] else [])
  | HEADERS => []
  end.

Lemma eu_pattern key : topic_matches TOPIC_PATTERN_EU key = true <-> eu_log key.
Proof.
  rewrite topic_matches_spec by reflexivity. change (tokens TOPIC_PATTERN_EU) with ["europe"; "#"]. unfold eu_log.
  split; [inversion 1; subst; by rewrite <-?H3|].
  destruct (tokens key) as [|w ks]; [done|]. intros [= ->]. apply tm_word; [done..|]. apply (proj2 (hash_suffix [] _)).
  exists (length ks). split; [done|]. rewrite drop_all. constructor.
Qed.
Lemma critical_pattern key : topic_matches TOPIC_PATTERN_CRITICAL key = true <-> critical_log key.
Proof.
  rewrite topic_matches_spec by reflexivity. change (tokens TOPIC_PATTERN_CRITICAL) with ["#"; "critical"]. unfold critical_log.
  rewrite hash_suffix. generalize (tokens key). intros ks. split.
  - intros (i & Hi & H). rewrite <-(take_drop i ks). inversion H as [| | | |w ps l _ _ H' ]; subst. inversion H'; subst. by rewrite last_snoc.
  - intros H. destruct ks as [|k ks _] using rev_ind; [done|]. rewrite last_snoc in H. injection H as ->.
    exists (length ks). rewrite length_app. split; [lia|]. rewrite drop_app_length. apply tm_word; [done..|constructor].
Qed.
Lemma order_pattern key : topic_matches TOPIC_PATTERN_ORDER key = true <-> order_log key.
Proof.
  rewrite topic_matches_spec by reflexivity. change (tokens TOPIC_PATTERN_ORDER) with ["order"; "*"; "*"]. unfold order_log.
  generalize (tokens key). intros ks. split.
  - inversion 1 as [| | | |w ps l _ _ H']; subst. inversion H' as [| | |ps2 a l2 H2|]; subst; [|done]. inversion H2 as [| | |ps3 b l3 H3|]; subst; [|done].
    inversion H3; subst. eauto.
  - intros (a & b & ->). apply tm_word; [done..|]. apply tm_star, tm_star. constructor.
Qed.

Section Spec.
Context {Payload : Type}.
Definition entry : Type := string * string * Payload. (* routing key, exchange, payload *)
Inductive op : Type :=
  | PublishDirect (key : string) (p : Payload) | PublishFanout (p : Payload) | PublishTopic (key : string) (p : Payload)
  | Consume (queue_name : string) (auto_ack : bool) | ResetTopology.
Inductive answer : Type := Published (x : published) | Received (m : option (consumed Payload)) | Reset_.

Definition spec_publish (x : ExchangeType) (name key : string) (p : Payload) (a : gmap string (list entry)) : gmap string (list entry) :=
  foldl (fun a q => <[q := default [] (a !! q) ++ [(key, name, p)]]> a) a (routes x key).
Definition spec_step (o : op) (a : gmap string (list entry)) : answer * gmap string (list entry) :=
  match o with
  | PublishDirect key p => (Published (mkPublished DIRECT_EXCHANGE_NAME (Some key)), spec_publish DIRECT DIRECT_EXCHANGE_NAME key p a)
  | PublishFanout p => (Published (mkPublished FANOUT_EXCHANGE_NAME None), spec_publish FANOUT FANOUT_EXCHANGE_NAME "" p a)
  | PublishTopic key p => (Published (mkPublished TOPIC_EXCHANGE_NAME (Some key)), spec_publish TOPIC TOPIC_EXCHANGE_NAME key p a)
  | Consume q _ =>
      match default [] (a !! q) with
      | [] => (Received None, a)
      | (key, x, p) :: rest => (Received (Some (mkConsumed q key x p)), <[q := rest]> a)
      end
  | ResetTopology => (Reset_, a)
  end.
Fixpoint spec_run (os : list op) (a : gmap string (list entry)) : list answer * gmap string (list entry) :=
  match os with
  | [] => ([], a)
  | o :: os => let '(x, a) := spec_step o a in let '(xs, a) := spec_run os a in (x :: xs, a)
  end.
End Spec.
Arguments op Payload : clear implicits.
Arguments answer Payload : clear implicits.
Arguments entry Payload : clear implicits.

(** The service, one call at a time. *)
Definition answer_of {A Payload} (f : A -> answer Payload) (r : result A) : result (answer Payload) :=
  match r with Ok a => Ok (f a) | Raise e => Raise e end.
Definition service_step {Payload} (dumps : Payload -> string) (loads : string -> option Payload) (o : op Payload) (s : amqp)
    : result (answer Payload) * amqp :=
  match o with
  | PublishDirect key p => let '(r, s) := publish_direct_message dumps key p s in (answer_of Published r, s)
  | PublishFanout p => let '(r, s) := publish_fanout_event dumps p s in (answer_of Published r, s)
  | PublishTopic key p => let '(r, s) := publish_topic_message dumps key p s in (answer_of Published r, s)
  | Consume q auto_ack => let '(r, s) := consume_next_message loads q auto_ack s in (answer_of Received r, s)
  | ResetTopology => (Ok Reset_, reset_topology_cache s)
  end.
Fixpoint service_run {Payload} (dumps : Payload -> string) (loads : string -> option Payload) (os : list (op Payload)) (s : amqp)
    : list (result (answer Payload)) * amqp :=
  match os with
  | [] => ([], s)
  | o :: os => let '(x, s) := service_step dumps loads o s in let '(xs, s) := service_run dumps loads os s in (x :: xs, s)
  end.

(** ** Refinement *)

(** What the first declaration leaves on a fresh channel. *)
Definition Q0 : gmap string ref := list_to_map [
  (QUEUE_ORDER_CREATED, 3%nat); (QUEUE_ORDER_CANCELLED, 4%nat); (QUEUE_NOTIFICATION, 5%nat); (QUEUE_ANALYTICS, 6%nat);
  (QUEUE_AUDIT, 7%nat); (QUEUE_EU_LOGS, 8%nat); (QUEUE_CRITICAL_ALERTS, 9%nat); (QUEUE_ORDER_MONITORING, 10%nat)].
Definition direct_exchange : exchange :=
  mkExchange DIRECT_EXCHANGE_NAME DIRECT [(ROUTING_KEY_ORDER_CREATED, [3%nat]); (ROUTING_KEY_ORDER_CANCELLED, [4%nat])] [].
Definition fanout_exchange : exchange := mkExchange FANOUT_EXCHANGE_NAME FANOUT [] [5; 6; 7]%nat.
Definition topic_exchange : exchange :=
  mkExchange TOPIC_EXCHANGE_NAME TOPIC [(TOPIC_PATTERN_EU, [8%nat]); (TOPIC_PATTERN_CRITICAL, [9%nat]); (TOPIC_PATTERN_ORDER, [10%nat])] [].
Definition CX0 : gmap string ref := list_to_map [(DIRECT_EXCHANGE_NAME, 0%nat); (FANOUT_EXCHANGE_NAME, 1%nat); (TOPIC_EXCHANGE_NAME, 2%nat)].
Definition X0 : gmap ref exchange := list_to_map [(0%nat, direct_exchange); (1%nat, fanout_exchange); (2%nat, topic_exchange)].
Definition topology0 (tq : gmap string ref) : RabbitMQTopology := mkTopology 0 1 2 tq.

Record declared_ok (cq : gmap string ref) (s : amqp) : Prop := {
  do_channel : aq_channel s = Some (mkChannel CX0 cq false);
  do_queues : Q0 ⊆ cq;
  do_exchanges : aq_exchanges s = X0;
  do_topology : aq_topology s = None \/ exists tq, aq_topology s = Some (topology0 tq) /\ Q0 ⊆ tq /\ tq ⊆ cq;
  do_inj a b r : cq !! a = Some r -> cq !! b = Some r -> a = b;
  do_fresh a r : cq !! a = Some r -> (r < aq_next s)%nat
}.

Lemma bind_same q x k e s : aq_exchanges s !! x = Some e -> add_binding q k e = e -> bind_queue q x k s = s.
Proof. intros Hx He. unfold bind_queue. rewrite Hx, He. unfold set_exchange. rewrite insert_id by done. by destruct s. Qed.
Lemma declare_queue_known name q s c : aq_channel s = Some c -> ch_queues c !! name = Some q -> declare_queue name s = (q, s).
Proof. intros Hc Hq. unfold declare_queue. by rewrite Hc, Hq. Qed.
Lemma declare_bound_same d name x k s c q e : aq_channel s = Some c -> ch_queues c !! name = Some q ->
  aq_exchanges s !! x = Some e -> add_binding q k e = e -> declare_bound (d, s) (name, x, k) = (<[name := q]> d, s).
Proof. intros Hc Hq Hx He. unfold declare_bound. rewrite (declare_queue_known _ q _ c) by done. by rewrite (bind_same _ _ _ e). Qed.
Lemma declare_exchange_known name type x s c : aq_channel s = Some c -> ch_exchanges c !! name = Some x ->
  declare_exchange name type s = (x, s).
Proof. intros Hc Hx. unfold declare_exchange. by rewrite Hc, Hx. Qed.

(** Declaring again changes nothing. *)
Lemma redeclare cq s : declared_ok cq s -> declare_rabbitmq_topology s = (topology0 Q0, s).
Proof.
  intros H. pose proof (do_channel _ _ H) as Hc. pose proof (do_exchanges _ _ H) as Hx.
  unfold declare_rabbitmq_topology.
  rewrite (declare_exchange_known DIRECT_EXCHANGE_NAME _ 0%nat s _ Hc eq_refl), (declare_exchange_known FANOUT_EXCHANGE_NAME _ 1%nat s _ Hc eq_refl),
    (declare_exchange_known TOPIC_EXCHANGE_NAME _ 2%nat s _ Hc eq_refl).
  assert (forall name q, Q0 !! name = Some q -> cq !! name = Some q) as Hq by (intros; eapply lookup_weaken; [done|apply (do_queues _ _ H)]).
  unfold bindings_of. cbn [foldl].
  rewrite (declare_bound_same _ QUEUE_ORDER_CREATED _ _ s _ 3%nat direct_exchange Hc), (declare_bound_same _ QUEUE_ORDER_CANCELLED _ _ s _ 4%nat direct_exchange Hc),
    (declare_bound_same _ QUEUE_NOTIFICATION _ _ s _ 5%nat fanout_exchange Hc), (declare_bound_same _ QUEUE_ANALYTICS _ _ s _ 6%nat fanout_exchange Hc),
    (declare_bound_same _ QUEUE_AUDIT _ _ s _ 7%nat fanout_exchange Hc), (declare_bound_same _ QUEUE_EU_LOGS _ _ s _ 8%nat topic_exchange Hc),
    (declare_bound_same _ QUEUE_CRITICAL_ALERTS _ _ s _ 9%nat topic_exchange Hc), (declare_bound_same _ QUEUE_ORDER_MONITORING _ _ s _ 10%nat topic_exchange Hc);
    try (by rewrite Hx); try (by apply Hq); try reflexivity.
Qed.

(** The messages of a queue by its name. *)
Definition view (cq : gmap string ref) (s : amqp) (name : string) : list message :=
  match cq !! name with Some r => queue r s | None => [] end.

Lemma queue_set_eq r ms s : queue r (set_queue r ms s) = ms.
Proof. unfold queue, set_queue. cbn. by rewrite lookup_insert_eq. Qed.
Lemma queue_set_ne r r' ms s : r <> r' -> queue r' (set_queue r ms s) = queue r' s.
Proof. intros Hr. unfold queue, set_queue. cbn. by rewrite lookup_insert_ne. Qed.

Lemma push_all (m : message) refs s : NoDup refs ->
  let s' := foldl (fun s q => set_queue q (queue q s ++ [m]) s) s refs in
  (forall r, queue r s' = queue r s ++ (if decide (r ∈ refs) then [m] else [])) /\
  aq_exchanges s' = aq_exchanges s /\ aq_next s' = aq_next s /\ aq_channel s' = aq_channel s /\ aq_topology s' = aq_topology s.
Proof.
  intros Hn. revert s. induction Hn as [|q refs Hq Hn IH]; intros s; cbn zeta.
  { split; [|done]. intros r. cbn [foldl]. rewrite decide_False by apply not_elem_of_nil. by rewrite app_nil_r. }
  cbn [foldl]. destruct (IH (set_queue q (queue q s ++ [m]) s)) as (Hv & He & Hx & Hc & Ht). split; [|by rewrite He, Hx, Hc, Ht].
  intros r. rewrite Hv. destruct (decide (q = r)) as [<-|Hne].
  - rewrite queue_set_eq, (decide_False (P := q ∈ refs)), decide_True by (done || left). by rewrite app_nil_r.
  - rewrite queue_set_ne by done. f_equal. destruct (decide (r ∈ refs)); [rewrite decide_True by (by right)|rewrite decide_False by set_solver]; done.
Qed.

Definition Q0_list : list (string * ref) := [
  (QUEUE_ORDER_CREATED, 3%nat); (QUEUE_ORDER_CANCELLED, 4%nat); (QUEUE_NOTIFICATION, 5%nat); (QUEUE_ANALYTICS, 6%nat);
  (QUEUE_AUDIT, 7%nat); (QUEUE_EU_LOGS, 8%nat); (QUEUE_CRITICAL_ALERTS, 9%nat); (QUEUE_ORDER_MONITORING, 10%nat)].
Lemma Q0_spec a r : Q0 !! a = Some r <-> (a, r) ∈ Q0_list.
Proof. unfold Q0. symmetry. apply elem_of_list_to_map. apply (bool_decide_unpack _). vm_compute. done. Qed.
Lemma Q0_facts a b r : Q0 !! a = Some r -> (r < 11)%nat /\ (Q0 !! b = Some r -> a = b).
Proof.
  rewrite !Q0_spec. unfold Q0_list. intros Ha. split.
  - repeat (apply elem_of_cons in Ha as [[= -> ->]|Ha]; [lia|]). by apply elem_of_nil in Ha.
  - intros Hb. revert Ha Hb. rewrite !list_elem_of_In. cbn [In]. intros Ha Hb. naive_solver congruence.
Qed.

(** The targets of a publication are the queues that the routes name. *)
Lemma routes_known x key name : name ∈ routes x key -> exists r, Q0 !! name = Some r.
Proof.
  destruct x; cbn [routes]; repeat destruct (decide _); cbn [app]; set_unfold; intros H;
    repeat destruct H as [->|H]; try done; try subst; eexists; reflexivity.
Qed.
Lemma routes_nodup x key : NoDup (routes x key).
Proof. destruct x; cbn [routes]; repeat destruct (decide _); apply (bool_decide_unpack _); vm_compute; done. Qed.
Definition ref_of (name : string) : ref := default 0%nat (Q0 !! name).

Lemma targets_direct key : targets direct_exchange key = ref_of <$> routes DIRECT key.
Proof.
  cbn [targets direct_exchange ex_type ex_bindings dict_get routes].
  destruct (decide (ROUTING_KEY_ORDER_CREATED = key)) as [<-|Hn]; [done|].
  rewrite (decide_False (P := key = ROUTING_KEY_ORDER_CREATED)) by congruence.
  destruct (decide (ROUTING_KEY_ORDER_CANCELLED = key)) as [<-|Hn2]; [done|].
  by rewrite (decide_False (P := key = ROUTING_KEY_ORDER_CANCELLED)) by congruence.
Qed.
Lemma targets_fanout key : targets fanout_exchange key = ref_of <$> routes FANOUT key.
Proof. done. Qed.
Lemma targets_topic key : targets topic_exchange key = ref_of <$> routes TOPIC key.
Proof.
  cbn [targets topic_exchange ex_type ex_bindings foldl routes]. pose proof (eu_pattern key) as He. pose proof (critical_pattern key) as Hc.
  pose proof (order_pattern key) as Ho. unfold eu_log, critical_log in *.
  assert (forall (b : bool) (P : Prop) `{Decision P}, (b = true <-> P) -> b = if decide P then true else false) as Hb
    by (intros [] P ?; destruct (decide P); naive_solver).
  rewrite (Hb _ _ _ He), (Hb _ _ _ Hc), (Hb _ _ _ Ho).
  repeat destruct (decide _); reflexivity.
Qed.

Section Refinement.
Context {Payload : Type} (dumps : Payload -> string) (loads : string -> option Payload).
Context (loads_dumps : forall p, loads (dumps p) = Some p).

Definition stored (e : entry Payload) : message := let '(key, x, p) := e in new_message (dumps p) key true x.
Definition views (cq : gmap string ref) (s : amqp) (a : gmap string (list (entry Payload))) : Prop :=
  forall name, view cq s name = stored <$> default [] (a !! name).
Definition related (s : amqp) (a : gmap string (list (entry Payload))) : Prop :=
  (s = amqp_init /\ forall name, default [] (a !! name) = []) \/ exists cq, declared_ok cq s /\ views cq s a.

Lemma lookup_push (a : gmap string (list (entry Payload))) names x name : NoDup names ->
  default [] (foldl (fun a q => <[q := default [] (a !! q) ++ [x]]> a) a names !! name) =
  default [] (a !! name) ++ (if decide (name ∈ names) then [x] else []).
Proof.
  intros Hn. revert a. induction Hn as [|q names Hq Hn IH]; intros a; cbn [foldl].
  { rewrite decide_False by apply not_elem_of_nil. by rewrite app_nil_r. }
  rewrite IH. destruct (decide (q = name)) as [<-|Hne].
  - rewrite lookup_insert_eq, (decide_False (P := q ∈ names)), decide_True by (done || left). by rewrite app_nil_r.
  - rewrite lookup_insert_ne by done. f_equal. destruct (decide (name ∈ names)); [rewrite decide_True by (by right)|rewrite decide_False by set_solver]; done.
Qed.

Lemma publish_related cq s a x (ty : ExchangeType) ex key p : declared_ok cq s -> views cq s a -> X0 !! x = Some ex ->
  targets ex key = ref_of <$> routes ty key ->
  declared_ok cq (publish x (dumps p) true key s) /\ views cq (publish x (dumps p) true key s) (spec_publish ty (ex_name ex) key p a).
Proof.
  intros H Hv Hx Ht. unfold publish. rewrite (do_exchanges _ _ H), Hx, Ht.
  assert (forall name r, name ∈ routes ty key -> Q0 !! name = Some r -> cq !! name = Some r) as Hw
    by (intros; eapply lookup_weaken; [done|apply (do_queues _ _ H)]).
  assert (NoDup (ref_of <$> routes ty key)) as Hn.
  { apply NoDup_fmap_2_strong; [|apply routes_nodup]. intros n1 n2 H1 H2. destruct (routes_known _ _ _ H1) as [r1 E1], (routes_known _ _ _ H2) as [r2 E2].
    unfold ref_of. rewrite E1, E2. cbn. intros ->. by destruct (Q0_facts n1 n2 r2 E1) as [_ ?]; auto. }
  destruct (push_all (new_message (dumps p) key true (ex_name ex)) _ s Hn) as (Hq & He & Hnx & Hc & Htp).
  set (s' := foldl _ s _) in *. split.
  { destruct H. constructor; rewrite ?Hc, ?He, ?Hnx, ?Htp; done. }
  intros name. unfold spec_publish. rewrite lookup_push, fmap_app by apply routes_nodup. rewrite <-Hv. unfold view.
  destruct (cq !! name) as [r|] eqn:E.
  - rewrite Hq. f_equal. destruct (decide (name ∈ routes ty key)) as [Hin|Hin].
    + rewrite decide_True; [done|]. apply list_elem_of_fmap. exists name. split; [|done]. destruct (routes_known _ _ _ Hin) as [r' Er].
      unfold ref_of. rewrite Er. cbn. rewrite (Hw _ _ Hin Er) in E. congruence.
    + rewrite decide_False; [done|]. intros (name' & -> & Hin')%list_elem_of_fmap. destruct (routes_known _ _ _ Hin') as [r' Er].
      apply Hin. unfold ref_of in E. rewrite Er in E. cbn in E. by rewrite (do_inj _ _ H name name' r' E (Hw _ _ Hin' Er)).
  - rewrite decide_False; [done|]. intros Hin. destruct (routes_known _ _ _ Hin) as [r' Er]. by rewrite (Hw _ _ Hin Er) in E.
Qed.

(** The state after the first declaration. *)
Definition amqp0 : amqp := mkAmqp X0 (list_to_map ((fun r => (r, [])) <$> seq 3 8)) 11 (Some (mkChannel CX0 Q0 false)) (Some (topology0 Q0)).
Lemma first_declaration : get_or_declare_topology amqp_init = (Ok (topology0 Q0), amqp0).
Proof. vm_compute. reflexivity. Qed.
Lemma amqp0_ok : declared_ok Q0 amqp0.
Proof.
  constructor; try done.
  - right. by exists Q0.
  - intros a b r Ha Hb. by apply (Q0_facts a b r).
  - intros a r Ha. apply (Q0_facts a a r Ha).
Qed.
Lemma amqp0_views (a : gmap string (list (entry Payload))) : (forall name, default [] (a !! name) = []) -> views Q0 amqp0 a.
Proof.
  intros Ha name. rewrite Ha. unfold view. destruct (Q0 !! name) as [r|] eqn:E; [|done].
  apply Q0_spec in E. unfold Q0_list in E. repeat (apply elem_of_cons in E as [[= -> ->]|E]; [reflexivity|]). by apply elem_of_nil in E.
Qed.

Lemma topology_related s a : related s a -> exists cq tq s', get_or_declare_topology s = (Ok (topology0 tq), s') /\
  declared_ok cq s' /\ aq_topology s' = Some (topology0 tq) /\ Q0 ⊆ tq /\ tq ⊆ cq /\ views cq s' a.
Proof.
  intros [[-> Ha]|(cq & H & Hv)].
  { exists Q0, Q0, amqp0. split; [apply first_declaration|]. split_and!; try done; [apply amqp0_ok|by apply amqp0_views]. }
  unfold get_or_declare_topology, get_rabbitmq_channel. rewrite (do_channel _ _ H).
  destruct (do_topology _ _ H) as [Ht|(tq & Ht & H1 & H2)]; rewrite Ht.
  - rewrite (redeclare cq s H). exists cq, Q0, (set_topology (Some (topology0 Q0)) s). split_and!; try done; try apply (do_queues _ _ H).
    destruct H. constructor; try done. right. by exists Q0.
  - by exists cq, tq, s.
Qed.

(** A queue the channel does not know yet appears empty. *)
Lemma lookup_queue_related s a name : related s a -> exists cq q s', lookup_queue name s = (Ok q, s') /\
  declared_ok cq s' /\ cq !! name = Some q /\ views cq s' a.
Proof.
  intros Hr. destruct (topology_related s a Hr) as (cq & tq & s1 & E & H & Ht & H1 & H2 & Hv).
  unfold lookup_queue, bind. rewrite E. cbn [tp_queues tp_direct tp_fanout tp_topic topology0].
  destruct (tq !! name) as [q|] eqn:Eq.
  { exists cq, q, s1. split_and!; try done. by eapply lookup_weaken. }
  assert (Q0 !! name = None) as Hn0 by (by eapply lookup_weaken_None).
  unfold get_rabbitmq_channel. rewrite (do_channel _ _ H). unfold declare_queue. rewrite (do_channel _ _ H). cbn [ch_queues].
  destruct (cq !! name) as [q|] eqn:Ec.
  - exists cq, q, (set_topology (Some (topology0 (<[name := q]> tq))) s1). split_and!; try done. destruct H. constructor; try done.
    right. exists (<[name := q]> tq). split_and!; [done|by apply insert_subseteq_r|by apply insert_subseteq_l].
  - cbn [alloc_queue ch_exchanges ch_is_closed]. eexists (<[name := aq_next s1]> cq), (aq_next s1), _. split; [reflexivity|].
    pose proof H as H'. destruct H' as [Hc Hq Hx Htop Hinj Hfr]. split_and!.
    + constructor; cbn [aq_channel aq_exchanges aq_topology aq_next set_topology set_channel].
      * done.
      * by apply insert_subseteq_r.
      * done.
      * right. exists (<[name := aq_next s1]> tq). split_and!; [done|by apply insert_subseteq_r|by apply insert_mono].
      * intros n1 n2 r. rewrite !lookup_insert_Some. intros [[<- <-]|[Hn1 E1]] [[<- E2]|[Hn2 E2]]; [done| | |by eapply Hinj].
        -- apply Hfr in E2. lia.
        -- apply Hfr in E1. lia.
      * intros n r. rewrite lookup_insert_Some. intros [[<- <-]|[_ E1]]; [lia|]. apply Hfr in E1. lia.
    + by rewrite lookup_insert_eq.
    + intros n. rewrite <-Hv. unfold view. destruct (decide (name = n)) as [<-|Hn].
      * rewrite lookup_insert_eq, Ec. unfold queue. cbn. by rewrite lookup_insert_eq.
      * rewrite lookup_insert_ne by done. destruct (cq !! n) as [r|] eqn:En; [|done]. unfold queue. cbn. rewrite lookup_insert_ne; [done|]. apply Hfr in En. lia.
Qed.

Lemma publish_step_related s a (sel : RabbitMQTopology -> ref) x ex ty key p (out : published) : related s a ->
  (forall tq, sel (topology0 tq) = x) -> X0 !! x = Some ex -> targets ex key = ref_of <$> routes ty key ->
  exists s', (let! topology := get_or_declare_topology in modify (publish (sel topology) (dumps p) true key) ;;; ret out) s = (Ok out, s') /\
    related s' (spec_publish ty (ex_name ex) key p a).
Proof.
  intros Hr Hs Hx Ht. destruct (topology_related s a Hr) as (cq & tq & s1 & E & H & _ & _ & _ & Hv).
  unfold bind. rewrite E, Hs. eexists. split; [reflexivity|]. right. exists cq. by apply publish_related.
Qed.

Lemma consume_related s a name auto_ack : related s a ->
  exists s', consume_next_message loads name auto_ack s =
    (Ok (match default [] (a !! name) with [] => None | (key, x, p) :: _ => Some (mkConsumed name key x p) end), s') /\
    related s' (match default [] (a !! name) with [] => a | _ :: rest => <[name := rest]> a end).
Proof.
  intros Hr. destruct (lookup_queue_related s a name Hr) as (cq & q & s1 & E & H & Hq & Hv).
  unfold consume_next_message, bind. rewrite E. unfold queue_get.
  pose proof (Hv name) as Hn. unfold view in Hn. rewrite Hq in Hn. rewrite Hn.
  destruct (default [] (a !! name)) as [|[[key x] p] rest] eqn:Ea; cbn [fmap list_fmap stored].
  { exists s1. split; [done|]. right. by exists cq. }
  assert (forall m, ms_body m = dumps p -> ms_routing_key m = key -> ms_exchange m = x ->
    exists s', (match loads (ms_body m) with
      | Some payload => (Ok (Some (mkConsumed name (ms_routing_key m) (ms_exchange m) payload)), set_queue q (stored <$> rest) s1)
      | None => (Raise PyValueError, if auto_ack then set_queue q (stored <$> rest) s1 else msg_nack true m q (set_queue q (stored <$> rest) s1))
      end) = (Ok (Some (mkConsumed name key x p)), s') /\ related s' (<[name := rest]> a)) as Hm.
  { intros m Hb Hk Hx. rewrite Hb, loads_dumps, Hk, Hx. eexists. split; [reflexivity|]. right. exists cq. split; [by destruct H; constructor|].
    intros n. unfold view. destruct (decide (name = n)) as [<-|Hne].
    - by rewrite Hq, queue_set_eq, lookup_insert_eq.
    - rewrite lookup_insert_ne, <-Hv by done. unfold view. destruct (cq !! n) as [r|] eqn:En; [|done]. apply queue_set_ne.
      intros <-. by apply Hne, (do_inj _ _ H _ _ q). }
  by destruct auto_ack; apply Hm.
Qed.

Lemma step_related s a o : related s a -> exists s',
  service_step dumps loads o s = (Ok (spec_step o a).1, s') /\ related s' (spec_step o a).2.
Proof.
  intros Hr. destruct o as [key p|p|key p|name auto_ack|]; cbn [service_step spec_step].
  - destruct (publish_step_related s a tp_direct 0%nat _ DIRECT key p (mkPublished DIRECT_EXCHANGE_NAME (Some key)) Hr (fun _ => eq_refl) eq_refl (targets_direct key)) as (s' & E & H).
    unfold publish_direct_message. rewrite E. by exists s'.
  - destruct (publish_step_related s a tp_fanout 1%nat _ FANOUT "" p (mkPublished FANOUT_EXCHANGE_NAME None) Hr (fun _ => eq_refl) eq_refl (targets_fanout "")) as (s' & E & H).
    unfold publish_fanout_event. rewrite E. by exists s'.
  - destruct (publish_step_related s a tp_topic 2%nat _ TOPIC key p (mkPublished TOPIC_EXCHANGE_NAME (Some key)) Hr (fun _ => eq_refl) eq_refl (targets_topic key)) as (s' & E & H).
    unfold publish_topic_message. rewrite E. by exists s'.
  - destruct (consume_related s a name auto_ack Hr) as (s' & E & H). rewrite E. exists s'.
    destruct (default [] (a !! name)) as [|[[key x] p] rest]; done.
  - exists (reset_topology_cache s). split; [done|]. destruct Hr as [[-> Ha]|(cq & H & Hv)]; [by left|]. right. exists cq. split; [|done].
    destruct H. constructor; try done. by left.
Qed.

(** C38: The message broker service refines one queue of messages per name.  For every
    sequence of direct, fanout and topic publications, consumptions and resets of the cached
    topology, starting before the first connection, every call answers what the abstract
    queues answer: a publication reaches exactly the queues its routing key selects by the
    AMQP rules (the whole key for the direct exchange, the first word "europe", the last
    word "critical", three words that begin with "order" for the topic exchange), and each
    queue delivers its messages once and in order; a name that was never declared is an
    empty queue. *)
Theorem broker_refines_queues os :
  (service_run dumps loads os amqp_init).1 = Ok <$> (spec_run os ∅).1.
Proof.
  assert (forall s a, related s a -> (service_run dumps loads os s).1 = Ok <$> (spec_run os a).1) as H.
  { induction os as [|o os IH]; intros s a Hr; [done|]. cbn [service_run spec_run].
    destruct (step_related s a o Hr) as (s' & -> & Hr'). destruct (spec_step o a) as [x a']. cbn [fst snd] in *.
    specialize (IH s' a' Hr'). destruct (service_run dumps loads os s'), (spec_run os a'). cbn [fst snd] in *. by rewrite IH. }
  apply H. left. split; [done|]. intros name. by rewrite lookup_empty.
Qed.
End Refinement.

(** ** Concrete runs *)

Definition text_loads (s : string) : option string := if decide (s = "not json") then None else Some s.
Lemma broker_refines_queues_witness :
  (forall p : string, Some p = Some p) /\
  (service_run (fun p => p) Some [PublishTopic "europe.order.critical" "m"; Consume QUEUE_EU_LOGS false; Consume QUEUE_CRITICAL_ALERTS true;
     Consume QUEUE_ORDER_MONITORING false; Consume "other" false] amqp_init).1 =
  [Ok (Published (mkPublished TOPIC_EXCHANGE_NAME (Some "europe.order.critical")));
   Ok (Received (Some (mkConsumed QUEUE_EU_LOGS "europe.order.critical" TOPIC_EXCHANGE_NAME "m")));
   Ok (Received (Some (mkConsumed QUEUE_CRITICAL_ALERTS "europe.order.critical" TOPIC_EXCHANGE_NAME "m")));
   Ok (Received None); Ok (Received None)].
Proof.
  split; [done|].
  rewrite (broker_refines_queues (fun p => p) Some (fun p => eq_refl) [PublishTopic "europe.order.critical" "m"; Consume QUEUE_EU_LOGS false;
    Consume QUEUE_CRITICAL_ALERTS true; Consume QUEUE_ORDER_MONITORING false; Consume "other" false]).
  vm_compute. reflexivity.
Defined.

(** A body that does not decode goes back to the front: every later consumption of the
    queue fails on it, and the messages behind it are never delivered. *)
Example poison_message_blocks :
  let s := (publish_direct_message (fun p => p) ROUTING_KEY_ORDER_CREATED "not json" amqp_init).2 in
  let s := (publish_direct_message (fun p => p) ROUTING_KEY_ORDER_CREATED "good" s).2 in
  let '(r1, s1) := consume_next_message text_loads QUEUE_ORDER_CREATED false s in
  let '(r2, s2) := consume_next_message text_loads QUEUE_ORDER_CREATED false s1 in
  r1 = Raise PyValueError /\ r2 = Raise PyValueError /\ message_count 3 s2 = 2.
Proof. vm_compute. done. Qed.

(** A new connection keeps the cached topology of the old one, which still serves its
    messages; dropping the cache then loses them. *)
Example stale_topology :
  let s := (publish_direct_message (fun p => p) ROUTING_KEY_ORDER_CREATED "m" amqp_init).2 in
  let s := init_rabbitmq (close_rabbitmq s) in
  (consume_next_message text_loads QUEUE_ORDER_CREATED false s).1 =
    Ok (Some (mkConsumed QUEUE_ORDER_CREATED ROUTING_KEY_ORDER_CREATED DIRECT_EXCHANGE_NAME "m")) /\
  (consume_next_message text_loads QUEUE_ORDER_CREATED false (reset_topology_cache s)).1 = Ok None.
Proof. vm_compute. done. Qed.

(** Literal words of a pattern are compared by [fnmatch], so glob characters in them are
    not literal. *)
Example literal_words_are_globs : topic_matches "order.v?" "order.v2" = true /\ topic_matches "order.[a-c]x" "order.bx" = true.
Proof. vm_compute. done. Qed.
