(* ===== verification/QueryPlan.v ===== *)
(** The query-plan diagnostics: [app/services/query_plan_service.py], the report of
    [app/schemas/catalog.py] and the explain endpoint of [app/routers/catalog_router.py].

    A PostgreSQL plan is a tree of typed attributes that may be absent; times and costs are
    rational numbers.  The databases that produce the plans are parameters. *)

From Stdlib Require Import QArith.
From S2P Require Import Prelude.

Local Open Scope Z_scope.
Local Open Scope py_scope.

(** ** The read-only guard *)

(** The text after the first "*/". *)
Fixpoint after_close (l : list ascii) : option (list ascii) :=
  match l with
  | [] => None
  | a :: l' => match l' with
               | b :: r => if decide (a = "*"%char /\ b = "/"%char) then Some r else after_close l'
               | [] => None
               end
  end.
Fixpoint to_newline (l : list ascii) : list ascii :=
  match l with [] => [] | c :: l' => if decide (c = ascii_of_nat 10) then l else to_newline l' end.
(** [_COMMENT_REGEX.sub("", q)]; the length of the text is enough fuel. *)
Fixpoint strip_comments (fuel : nat) (l : list ascii) : list ascii :=
  match fuel, l with
  | S fuel', a :: l' =>
      match l' with
      | b :: r =>
          if decide (a = "-"%char /\ b = "-"%char) then strip_comments fuel' (to_newline r)
          else if decide (a = "/"%char /\ b = "*"%char) then
            match after_close r with
            | Some rest => strip_comments fuel' rest
            | None => a :: strip_comments fuel' l'
            end
          else a :: strip_comments fuel' l'
      | [] => [a]
      end
  | _, _ => []
  end.
Definition without_comments (q : string) : list ascii := strip_comments (String.length q) (chars q).

Definition FORBIDDEN_KEYWORDS : list string :=
  ["INSERT"; "UPDATE"; "DELETE"; "DROP"; "ALTER"; "TRUNCATE"; "REPLACE"; "GRANT"; "REVOKE"; "CREATE"; "EXECUTE"; "CALL"; "MERGE"].
Definition is_name_char (c : ascii) : bool := is_upper c || is_lower c || bool_decide (c = "_"%char).
(** [re.findall(r"\b[A-Za-z_]+\b", s)] *)
Definition sql_tokens (s : list ascii) : list string := of_chars <$> filter (fun w => forallb is_name_char w) (find_words s).
Definition validate_read_only_query (sql_query : string) : result () :=
  let stripped := strip_chars (without_comments sql_query) in
  if decide (stripped = []) then Raise UnsafeQueryExecutionException
  else
    match sql_tokens (upper_ascii <$> stripped) with
    | [] => Raise UnsafeQueryExecutionException
    | (first_token :: _) as tokens =>
        if negb (bool_decide (first_token ∈ ["SELECT"; "WITH"; "VALUES"])) then Raise UnsafeQueryExecutionException
        else if existsb (fun token => bool_decide (token ∈ FORBIDDEN_KEYWORDS)) tokens then Raise UnsafeQueryExecutionException
        else Ok ()
    end.

(** ** Plans *)

Record plan_attrs : Type := mkAttrs {
  pa_node_type : option string; pa_relation_name : option string; pa_index_name : option string; pa_total_cost : option Q;
  pa_plan_rows : option Z; pa_actual_total_time : option Q; pa_actual_rows : option Z; pa_shared_hit : option Z; pa_shared_read : option Z }.
Inductive plan : Type := Plan (attrs : plan_attrs) (plans : list plan).
Definition attrs_of (p : plan) : plan_attrs := let '(Plan a _) := p in a.
Definition plans_of (p : plan) : list plan := let '(Plan _ l) := p in l.
(** The object that EXPLAIN returns; an empty plan is absent. *)
Record explain : Type := mkExplain { xp_planning_time : option Q; xp_execution_time : option Q; xp_plan : option plan }.

Record QueryPlanNode : Type := mkNode {
  qn_node_type : string; qn_relation_name : option string; qn_index_name : option string; qn_total_cost : Q; qn_plan_rows : Z;
  qn_actual_total_time_ms : Q; qn_actual_rows : Z }.
Inductive warning : Type := SeqScanOn (relation : option string) | ScanTableOn (relation : option string).
Record QueryPlanReport : Type := mkReport {
  qr_dialect : string; qr_scan_types : list string; qr_primary_scan_type : string; qr_total_cost : Q; qr_planning_time_ms : Q;
  qr_execution_time_ms : Q; qr_shared_hit_blocks : Z; qr_shared_read_blocks : Z; qr_warnings : list warning; qr_nodes : list QueryPlanNode }.

(** The accumulators of the loop. *)
Record plan_acc : Type := mkAcc {
  ac_nodes : list QueryPlanNode; ac_scan_types : list string; ac_warnings : list warning; ac_hit : Z; ac_read : Z }.
Definition add_new (x : string) (l : list string) : list string := if decide (x ∈ l) then l else l ++ [x].
Definition node_type_of (p : plan) : string := default "Unknown" (pa_node_type (attrs_of p)).
Definition node_of (p : plan) : QueryPlanNode :=
  let a := attrs_of p in
  mkNode (node_type_of p) (pa_relation_name a) (pa_index_name a) (default 0%Q (pa_total_cost a)) (default 0 (pa_plan_rows a))
    (default 0%Q (pa_actual_total_time a)) (default 0 (pa_actual_rows a)).
Definition is_scan (node_type : string) : bool := py_in "Scan" node_type || py_in "Search" node_type.
Definition visit_plan (acc : plan_acc) (curr : plan) : plan_acc :=
  let node_type := node_type_of curr in
  mkAcc (ac_nodes acc ++ [node_of curr])
    (if is_scan node_type then add_new node_type (ac_scan_types acc) else ac_scan_types acc)
    (if decide (node_type = "Seq Scan") then ac_warnings acc ++ [SeqScanOn (pa_relation_name (attrs_of curr))] else ac_warnings acc)
    (ac_hit acc + default 0 (pa_shared_hit (attrs_of curr))) (ac_read acc + default 0 (pa_shared_read (attrs_of curr))).
(** [while queue], one plan per unit of fuel. *)
Fixpoint plan_loop (fuel : nat) (queue : list plan) (acc : plan_acc) : plan_acc :=
  match fuel, queue with
  | S fuel', curr :: queue' => plan_loop fuel' (queue' ++ plans_of curr) (visit_plan acc curr)
  | _, _ => acc
  end.
Fixpoint plan_size (p : plan) : nat :=
  let 'Plan _ l := p in S ((fix sum (l : list plan) : nat := match l with [] => 0%nat | x :: l' => (plan_size x + sum l')%nat end) l).

Definition acc0 : plan_acc := mkAcc [] [] [] 0 0.
Definition parse_postgres_plan (plan_data : option explain) : QueryPlanReport :=
  let top := default (mkExplain None None None) plan_data in
  let acc := match xp_plan top with Some root => plan_loop (plan_size root) [root] acc0 | None => acc0 end in
  let primary_scan := match ac_scan_types acc with
                      | t :: _ => t
                      | [] => match ac_nodes acc with n :: _ => qn_node_type n | [] => "Execution Plan" end
                      end in
  mkReport "postgresql" (ac_scan_types acc) primary_scan
    (match xp_plan top with Some root => default 0%Q (pa_total_cost (attrs_of root)) | None => 0%Q end)
    (default 0%Q (xp_planning_time top)) (default 0%Q (xp_execution_time top)) (ac_hit acc) (ac_read acc) (ac_warnings acc) (ac_nodes acc).

(** ** SQLite *)

(** The pieces of the regular expressions: a literal, "\s+", a name, a search. *)
Definition matcher : Type := list ascii -> option (list ascii).
Fixpoint lit (p : list ascii) : matcher := fun l =>
  match p, l with
  | [], _ => Some l
  | a :: p', c :: l' => if decide (a = c) then lit p' l' else None
  | _ :: _, [] => None
  end.
Definition spaces1 : matcher := fun l => match l with c :: l' => if is_space c then Some (lstrip_chars l') else None | [] => None end.
Definition then_ (f g : matcher) : matcher := fun l => match f l with Some r => g r | None => None end.
Definition optional (f : matcher) : matcher := fun l => match f l with Some r => Some r | None => Some l end.
Definition is_ident_char (c : ascii) : bool := let n := nat_of_ascii c in is_name_char c || ((48 <=? n) && (n <=? 57))%nat.
Fixpoint ident (l : list ascii) : list ascii := match l with c :: l' => if is_ident_char c then c :: ident l' else [] | [] => [] end.
(** [re.search(f + "([A-Za-z0-9_]+)", s)], the group of the leftmost match. *)
Fixpoint search_name (f : matcher) (l : list ascii) : option string :=
  match f l with
  | Some r => if decide (ident r = []) then match l with _ :: l' => search_name f l' | [] => None end else Some (of_chars (ident r))
  | None => match l with _ :: l' => search_name f l' | [] => None end
  end.
Definition table_after (verb detail : string) : option string :=
  search_name (then_ (lit (chars verb)) (then_ spaces1 (then_ (lit (chars "TABLE")) spaces1))) (chars detail).
Definition index_after (detail : string) : option string :=
  search_name (then_ (lit (chars "USING")) (then_ spaces1
    (then_ (optional (then_ (lit (chars "COVERING")) spaces1)) (then_ (lit (chars "INDEX")) spaces1)))) (chars detail).

Definition sqlite_step (acc : plan_acc) (detail : string) : plan_acc :=
  let '(node_type, rel_name, idx_name) :=
    if py_in "SCAN" detail then ("Seq Scan", table_after "SCAN" detail, None)
    else if py_in "SEARCH" detail then
      if py_in "USING INDEX" detail || py_in "USING COVERING INDEX" detail
      then ("Index Scan", table_after "SEARCH" detail, index_after detail)
      else ("Index Search", table_after "SEARCH" detail, None)
    else ("Plan Step", None, None) in
  mkAcc (ac_nodes acc ++ [mkNode node_type rel_name idx_name (if decide (node_type = "Seq Scan") then 1 else 1 # 10)%Q 1 (1 # 100) 1])
    (if decide (node_type = "Plan Step") then ac_scan_types acc else add_new node_type (ac_scan_types acc))
    (if py_in "SCAN" detail then ac_warnings acc ++ [ScanTableOn rel_name] else ac_warnings acc) (ac_hit acc) (ac_read acc).
Definition parse_sqlite_plan (details : list string) : QueryPlanReport :=
  let acc := foldl sqlite_step acc0 details in
  mkReport "sqlite" (ac_scan_types acc) (match ac_scan_types acc with t :: _ => t | [] => "Query Step" end)
    (inject_Z (Z.of_nat (length details))) (5 # 100) (1 # 10) (Z.of_nat (length details)) 0 (ac_warnings acc) (ac_nodes acc).

(** The two databases answer an EXPLAIN statement with a plan or raise. *)
Definition analyze_query_execution_plan (pg : option (string -> result (option explain))) (sqlite : string -> result (list string))
    (sql_query : string) : result QueryPlanReport :=
  let? _ := validate_read_only_query sql_query in
  match pg with
  | Some pg => let? raw := pg ("EXPLAIN (ANALYZE, BUFFERS, FORMAT JSON) " +:+ sql_query) in Ok (parse_postgres_plan raw)
  | None => let? rows := sqlite ("EXPLAIN QUERY PLAN " +:+ sql_query) in Ok (parse_sqlite_plan rows)
  end.
Definition explain_query_endpoint (pg : option (string -> result (option explain))) (sqlite : string -> result (list string))
    (query : string) : result QueryPlanReport :=
  if (String.length query <? 6)%nat then Raise PydanticValidationError else analyze_query_execution_plan pg sqlite query.

(** ** The plan report is complete *)

(** The nodes of a plan, root first. *)
Fixpoint subplans (p : plan) : list plan :=
  p :: (let 'Plan _ l := p in (fix all (l : list plan) := match l with [] => [] | x :: l' => subplans x ++ all l' end) l).
Lemma subplans_unfold p : subplans p = p :: (plans_of p ≫= subplans).
Proof. by destruct p. Qed.
Lemma plan_size_length p : plan_size p = length (subplans p).
Proof.
  revert p. fix IH 1. intros [a l]. cbn [plan_size subplans length]. f_equal. induction l as [|x l IHl]; [done|]. by rewrite length_app, <-IHl, <-IH.
Qed.

(** The order in which the loop takes the plans. *)
Fixpoint breadth_first (fuel : nat) (queue : list plan) : list plan :=
  match fuel, queue with
  | S fuel', p :: queue' => p :: breadth_first fuel' (queue' ++ plans_of p)
  | _, _ => []
  end.
Lemma plan_loop_visits fuel queue acc : plan_loop fuel queue acc = foldl visit_plan acc (breadth_first fuel queue).
Proof. revert queue acc. induction fuel as [|fuel IH]; intros [|p queue] acc; cbn; auto. Qed.
Lemma breadth_first_perm fuel queue : (length (queue ≫= subplans) <= fuel)%nat -> breadth_first fuel queue ≡ₚ queue ≫= subplans.
Proof.
  revert queue. induction fuel as [|fuel IH]; intros [|p queue]; rewrite ?bind_cons, ?subplans_unfold; cbn [app length]; intros H; [done|lia|done|].
  rewrite length_app in H. cbn [breadth_first]. rewrite IH by (rewrite bind_app, length_app; lia).
  rewrite bind_app. by rewrite (Permutation_app_comm (queue ≫= subplans)).
Qed.

Definition sum_of (f : plan_attrs -> option Z) (l : list plan) : Z := Zsum ((fun p => default 0 (f (attrs_of p))) <$> l).
Lemma visits_spec l acc : let acc' := foldl visit_plan acc l in
  ac_nodes acc' = ac_nodes acc ++ (node_of <$> l) /\
  ac_hit acc' = ac_hit acc + sum_of pa_shared_hit l /\ ac_read acc' = ac_read acc + sum_of pa_shared_read l /\
  ac_warnings acc' = ac_warnings acc ++ ((fun p => SeqScanOn (pa_relation_name (attrs_of p))) <$> filter (fun p => node_type_of p = "Seq Scan") l) /\
  (forall t, t ∈ ac_scan_types acc' <-> t ∈ ac_scan_types acc \/ is_scan t = true /\ t ∈ node_type_of <$> l).
Proof.
  revert acc. induction l as [|p l IH]; intros acc; cbn zeta.
  { cbn. rewrite !app_nil_r. unfold sum_of, Zsum. cbn. split_and!; try done; try lia. set_solver. }
  cbn [foldl]. destruct (IH (visit_plan acc p)) as (Hn & Hh & Hr & Hw & Hs). rewrite Hn, Hh, Hr, Hw. unfold sum_of, Zsum.
  cbn [visit_plan ac_nodes ac_hit ac_read ac_warnings fmap list_fmap foldr]. rewrite filter_cons. split_and!.
  - by rewrite <-app_assoc.
  - unfold sum_of, Zsum. lia.
  - unfold sum_of, Zsum. lia.
  - destruct (decide (node_type_of p = "Seq Scan")); [by rewrite <-app_assoc|done].
  - intros t. rewrite Hs. cbn [visit_plan ac_scan_types]. rewrite elem_of_cons. unfold add_new.
    destruct (is_scan (node_type_of p)) eqn:E; [destruct (decide _) as [Hin|Hin]|]; rewrite ?elem_of_app, ?list_elem_of_singleton;
      split; intros H; destruct (decide (t = node_type_of p)) as [->|]; naive_solver congruence.
Qed.

(** The parser of PostgreSQL plans visits every node of the plan tree exactly once,
    root first: the report lists all of them, the buffer counts are the sums over the tree,
    there is one warning per sequential scan, and the scan types are exactly the types of the
    tree that name a scan or a search. *)
Theorem plan_report_complete planning execution root :
  let r := parse_postgres_plan (Some (mkExplain planning execution (Some root))) in
  qr_nodes r ≡ₚ node_of <$> subplans root /\ head (qr_nodes r) = Some (node_of root) /\
  qr_shared_hit_blocks r = sum_of pa_shared_hit (subplans root) /\ qr_shared_read_blocks r = sum_of pa_shared_read (subplans root) /\
  qr_warnings r ≡ₚ (fun p => SeqScanOn (pa_relation_name (attrs_of p))) <$> filter (fun p => node_type_of p = "Seq Scan") (subplans root) /\
  (forall t, t ∈ qr_scan_types r <-> is_scan t = true /\ t ∈ node_type_of <$> subplans root) /\
  (is_scan (node_type_of root) = true -> qr_primary_scan_type r = node_type_of root).
Proof.
  intros r. set (l := breadth_first (plan_size root) [root]).
  assert (l ≡ₚ subplans root) as Hl.
  { unfold l. rewrite breadth_first_perm; rewrite bind_cons; cbn; rewrite app_nil_r; [done|]. by rewrite plan_size_length. }
  assert (exists l', l = root :: l') as [l' El] by (unfold l; destruct root; cbn; eauto).
  destruct (visits_spec l acc0) as (Hn & Hh & Hr & Hw & Hs).
  subst r. unfold parse_postgres_plan. cbn [from_option id xp_plan qr_nodes qr_shared_hit_blocks qr_shared_read_blocks qr_warnings qr_scan_types qr_primary_scan_type].
  rewrite plan_loop_visits. fold l. rewrite Hn, Hh, Hr, Hw. cbn [ac_nodes ac_hit ac_read ac_warnings acc0 app]. rewrite !Z.add_0_l.
  assert (forall f, sum_of f l = sum_of f (subplans root)) as Hsum by (intros f; unfold sum_of; apply Zsum_Permutation; by rewrite Hl).
  rewrite !Hsum. split_and!; try done.
  - by rewrite Hl.
  - by rewrite El.
  - by rewrite Hl.
  - intros t. rewrite Hs, Hl. cbn [ac_scan_types acc0]. set_solver.
  - intros Hscan. rewrite El. cbn [foldl]. assert (forall l acc t ts, ac_scan_types acc = t :: ts -> exists ts', ac_scan_types (foldl visit_plan acc l) = t :: ts') as Hhead.
    { clear. induction l as [|p l IH]; intros acc t ts E; [by eexists|]. cbn [foldl].
      assert (exists ts', ac_scan_types (visit_plan acc p) = t :: ts') as [ts' E'].
      { cbn [visit_plan ac_scan_types]. rewrite E. unfold add_new. destruct (is_scan _); [destruct (decide _)|]; by eexists. }
      by apply (IH _ _ ts'). }
    destruct (Hhead l' (visit_plan acc0 root) (node_type_of root) []) as [ts ->]; [|done]. cbn [visit_plan ac_scan_types]. by rewrite Hscan.
Qed.

(** ** The guard *)

Lemma upper_strip_words q kw a b : without_comments q = a ++ kw ++ b -> kw <> [] -> forallb is_name_char (upper_ascii <$> kw) = true ->
  (forall c, last a = Some c -> is_word_char c = false) -> (forall c, head b = Some c -> is_word_char c = false) ->
  (upper_ascii <$> kw) ∈ find_words (upper_ascii <$> without_comments q).
Proof.
  intros -> Hne Hk Ha Hb. rewrite !fmap_app.
  assert (forall c, is_word_char (upper_ascii c) = is_word_char c) as Hu by (intros [[] [] [] [] [] [] [] []]; reflexivity).
  assert (forall c, is_name_char c = true -> is_word_char c = true) as Hw
    by (intros c; unfold is_name_char, is_word_char; rewrite !orb_true_iff; tauto).
  apply find_words_middle.
  - by destruct kw.
  - rewrite forallb_forall in Hk |- *. auto.
  - intros c. rewrite fmap_last. intros (d & Hd & ->)%fmap_Some. rewrite Hu. auto.
  - intros c. destruct b as [|d b]; [done|]. intros [= <-]. rewrite Hu. by apply Hb.
Qed.

Definition spaces (l : list ascii) : Prop := Forall (fun c => is_space c = true) l.
Lemma lstrip_spaces l : exists p, spaces p /\ l = p ++ lstrip_chars l.
Proof.
  induction l as [|c l (p & Hp & E)]; [exists []; by split; [constructor|]|]. cbn. destruct (is_space c) eqn:Hc; [|exists []; by split; [constructor|]].
  exists (c :: p). split; [by constructor|]. cbn [app]. by f_equal.
Qed.
Lemma strip_split l : exists p s, spaces p /\ spaces s /\ l = p ++ strip_chars l ++ s.
Proof.
  destruct (lstrip_spaces l) as (p & Hp & E). destruct (lstrip_spaces (rev (lstrip_chars l))) as (s & Hs & E').
  exists p, (rev s). split_and!; [done| |].
  - by apply List.Forall_rev.
  - unfold strip_chars. rewrite E at 1. f_equal. rewrite <-rev_app_distr, <-E'. by rewrite rev_involutive.
Qed.
Lemma find_words_spaces (f : ascii -> ascii) p l s : (forall c, is_space c = true -> is_word_char (f c) = false) ->
  spaces p -> spaces s -> find_words ((f <$> p) ++ l ++ (f <$> s)) = find_words l.
Proof.
  intros Hf Hp Hs. assert (forall r, find_words ((f <$> p) ++ r) = find_words r) as Hl.
  { intros r. induction Hp as [|c p Hc Hp IH]; [done|]. cbn [fmap list_fmap app find_words]. by rewrite (Hf _ Hc). }
  rewrite Hl. destruct s as [|c s]; [cbn; by rewrite app_nil_r|]. inversion Hs as [|? ? Hc Hs']; subst. cbn [fmap list_fmap].
  rewrite find_words_sep by auto. assert (find_words (f <$> s) = []) as E.
  { clear Hs Hc. induction Hs' as [|d s Hd Hs IH]; [done|]. cbn [fmap list_fmap find_words]. by rewrite (Hf _ Hd). }
  change (list_fmap ascii ascii f s) with (f <$> s). by rewrite E, app_nil_r.
Qed.

(** What the guard promises for the text outside the comments it recognizes: a prohibited
    keyword, in any letter case, that stands there as a word of its own makes it refuse. *)
Theorem prohibited_keyword_rejected q kw a b : without_comments q = a ++ kw ++ b -> of_chars (upper_ascii <$> kw) ∈ FORBIDDEN_KEYWORDS ->
  (forall c, last a = Some c -> is_word_char c = false) -> (forall c, head b = Some c -> is_word_char c = false) ->
  validate_read_only_query q = Raise UnsafeQueryExecutionException.
Proof.
  intros Hq Hk Ha Hb. assert (kw <> [] /\ forallb is_name_char (upper_ascii <$> kw) = true) as [Hne Hn].
  { split; [intros ->; vm_compute in Hk; set_solver|]. rewrite <-(chars_of_chars (upper_ascii <$> kw)). revert Hk.
    generalize (of_chars (upper_ascii <$> kw)). intros w Hw. unfold FORBIDDEN_KEYWORDS in Hw.
    repeat (apply elem_of_cons in Hw as [->|Hw]; [reflexivity|]). by apply elem_of_nil in Hw. }
  pose proof (upper_strip_words q kw a b Hq Hne Hn Ha Hb) as Hin.
  destruct (strip_split (without_comments q)) as (p & s & Hp & Hs & E). rewrite E, !fmap_app in Hin.
  rewrite find_words_spaces in Hin by (done || intros [[] [] [] [] [] [] [] []]; cbn; done).
  unfold validate_read_only_query. destruct (decide _) as [|_]; [done|].
  assert (of_chars (upper_ascii <$> kw) ∈ sql_tokens (upper_ascii <$> strip_chars (without_comments q))) as Ht.
  { unfold sql_tokens. apply list_elem_of_fmap. eexists. split; [reflexivity|]. apply list_elem_of_filter. by rewrite Hn. }
  revert Ht. cbv zeta. generalize (sql_tokens (upper_ascii <$> strip_chars (without_comments q))). intros toks Ht.
  assert (existsb (fun token => bool_decide (token ∈ FORBIDDEN_KEYWORDS)) toks = true) as Hex.
  { apply existsb_exists. exists (of_chars (upper_ascii <$> kw)). split; [by apply list_elem_of_In|by apply bool_decide_eq_true]. }
  destruct toks as [|first rest]; [done|]. cbn [existsb] in *. rewrite Hex. by destruct (negb _).
Qed.

(** Comment markers inside string literals hide text from the guard that the database
    executes: the statement below deletes every user, and the guard sees only
    [WITH a AS (SELECT '')]. *)
Example literal_hides_delete :
  let q := "WITH a AS (SELECT '/*'), b AS (DELETE FROM users RETURNING 1) SELECT '*/'" in
  py_in "DELETE FROM users" q = true /\ validate_read_only_query q = Ok () /\
  of_chars (without_comments q) = "WITH a AS (SELECT ''" /\
  validate_read_only_query "SELECT 1; DROP TABLE users" = Raise UnsafeQueryExecutionException /\
  validate_read_only_query "SELECT '--'; DROP TABLE users" = Ok ().
Proof. vm_compute. done. Qed.

(** Identifiers are not keywords, but a column that is called "replace" is refused. *)
Example keyword_columns_refused :
  validate_read_only_query "SELECT deleted FROM t" = Ok () /\ validate_read_only_query "SELECT replace(a, 'x', 'y') FROM t" = Raise UnsafeQueryExecutionException.
Proof. vm_compute. done. Qed.

Definition scan (t : string) (rel : option string) (hit : Z) (kids : list plan) : plan :=
  Plan (mkAttrs (Some t) rel None None None None None (Some hit) None) kids.
Example nested_seq_scan_reported :
  let r := parse_postgres_plan (Some (mkExplain None None (Some (scan "Hash Join" None 1 [scan "Index Scan" (Some "a") 2 []; scan "Hash" None 3 [scan "Seq Scan" (Some "b") 4 []]])))) in
  qr_scan_types r = ["Index Scan"; "Seq Scan"] /\ qr_shared_hit_blocks r = 10 /\ qr_warnings r = [SeqScanOn (Some "b")] /\
  qn_node_type <$> qr_nodes r = ["Hash Join"; "Index Scan"; "Hash"; "Seq Scan"].
Proof. vm_compute. done. Qed.
