(* ===== verification/Partition.v ===== *)
(** Range-partitioned audit logs: [app/services/partition_service.py],
    [app/schemas/partition.py], [app/models/audit_partition.py] and
    [app/routers/partition_router.py].

    A [datetime] is its local time in microseconds with its UTC offset (Cursor.v).  The
    database is a class: it executes the statements of the service, keeps the rows and lists
    the child tables; SQLite stores the local time of a timestamp, PostgreSQL the instant. *)

From Stdlib Require Import QArith.
From stdpp Require Import pretty.
From S2P Require Import Prelude Cursor.

Local Open Scope Z_scope.
Local Open Scope py_scope.

(** ** Calendar *)

Definition DAY : Z := 86400 * 1000000.
(** Days from 1970-01-01 of a date of the proleptic Gregorian calendar. *)
Definition days_from_civil (year month day : Z) : Z :=
  let y := if month <=? 2 then year - 1 else year in
  let era := y / 400 in
  let yoe := y - era * 400 in
  let doy := (153 * ((month + 9) mod 12) + 2) / 5 + day - 1 in
  era * 146097 + (yoe * 365 + yoe / 4 - yoe / 100 + doy) - 719468.
(** [datetime(year, month, 1, 0, 0, 0, tzinfo=UTC)] *)
Definition month_start (year month : Z) : result Z :=
  if (1 <=? year) && (year <=? 9999) && (1 <=? month) && (month <=? 12) then Ok (days_from_civil year month 1 * DAY) else Raise PyValueError.
Definition start_of_year (year : Z) : Z := days_from_civil year 1 1 * DAY.
(** [t.year = year] for a local time. *)
Definition in_year (year t : Z) : bool := (start_of_year year <=? t) && (t <? start_of_year (year + 1)).

Definition zero_pad (width : nat) (z : Z) : string :=
  let s := pretty z in of_chars (replicate (width - String.length s) "0"%char) +:+ s.
(** [isoformat] of the first of a month, UTC. *)
Definition isoformat_month (year month : Z) : string := zero_pad 4 year +:+ "-" +:+ zero_pad 2 month +:+ "-01T00:00:00+00:00".
(** [datetime.fromisoformat] on texts "YYYY-MM-01T00:00:00+00:00", the only bounds there are. *)
Definition digit (c : ascii) : option Z := let n := Z.of_nat (nat_of_ascii c) in if (48 <=? n) && (n <=? 57) then Some (n - 48) else None.
Definition fromisoformat_month (s : string) : option Z :=
  match chars s with
  | y1 :: y2 :: y3 :: y4 :: "-"%char :: m1 :: m2 :: rest =>
      match digit y1, digit y2, digit y3, digit y4, digit m1, digit m2 with
      | Some a, Some b, Some c, Some d, Some e, Some f =>
          if decide (of_chars rest = "-01T00:00:00+00:00") then
            match month_start (1000 * a + 100 * b + 10 * c + d) (10 * e + f) with Ok t => Some t | Raise _ => None end
          else None
      | _, _, _, _, _, _ => None
      end
  | _ => None
  end.

(** ** Data *)

Inductive dialect : Type := Sqlite | Postgresql.
#[global] Instance dialect_eq_dec : EqDecision dialect.
Proof. solve_decision. Defined.

(** A row; [al_created_at] is the value of the column. *)
Record AuditLog : Type := mkLog { al_id : Z; al_created_at : Z; al_event_type : string; al_user_id : Z; al_payload : string }.
Definition instant (d : datetime) : Z := dt_local d - default 0 (dt_offset d).
Definition column_value (dia : dialect) (d : datetime) : Z := match dia with Sqlite => dt_local d | Postgresql => instant d end.
Definition loaded (dia : dialect) (v : Z) : datetime := match dia with Sqlite => mkDatetime v None | Postgresql => utc v end.

Record AuditLogResponse : Type := mkLogResponse {
  lr_id : Z; lr_created_at : datetime; lr_event_type : string; lr_user_id : Z; lr_payload : string; lr_target_partition : string }.
Record PartitionInfo : Type := mkPart {
  pi_name : string; pi_from_bound : option string; pi_to_bound : option string; pi_is_default : bool; pi_row_count : Z }.
(** The efficiency is a percentage in hundredths. *)
Record PartitionPruningTelemetry : Type := mkTelemetry { tl_scanned : list string; tl_pruned : list string; tl_efficiency : Z }.
Record AuditSearchResponse : Type := mkSearch { sr_logs : list AuditLogResponse; sr_total_count : Z; sr_telemetry : PartitionPruningTelemetry }.

(** The statements that the service executes as text. *)
Inductive statement : Type :=
  | EnsureBase (dia : dialect)      (** CREATE TABLE/TRIGGER IF NOT EXISTS of the root, y2025, y2026, default *)
  | CreateRange (name lo hi : string) | CreateTable (name : string)
  | DetachPartition (name : string) | DropTrigger (name : string) | DropTable (name : string) | CountRows (name : string).
Definition base_partitions : list string := ["audit_logs_y2025"; "audit_logs_y2026"; "audit_logs_default"].
(** The bound expression that PostgreSQL shows says DEFAULT for the default partition only. *)
Definition base_bound (dia : dialect) (name bound : string) : Prop :=
  dia = Postgresql -> py_in "DEFAULT" (py_upper bound) = bool_decide (name = "audit_logs_default").
Class AuditDb (DB : Type) : Type := {
  db_execute : statement -> M DB Z;                       (** the count for [CountRows] *)
  db_insert : AuditLog -> M DB ();
  db_rows : DB -> list AuditLog;
  db_select : (AuditLog -> bool) -> DB -> result (list AuditLog);   (** ORDER BY created_at DESC, id DESC *)
  db_children : DB -> list (string * string);             (** name and bound expression, ordered by name *)
  law_ensure dia s x s' : db_execute (EnsureBase dia) s = (Ok x, s') ->
    NoDup (db_children s').*1 /\ forall name, name ∈ base_partitions -> exists bound, (name, bound) ∈ db_children s' /\ base_bound dia name bound;
  law_count name s r s' : db_execute (CountRows name) s = (r, s') -> s' = s;
  law_select f s rows : db_select f s = Ok rows -> rows ≡ₚ filter (fun r => f r = true) (db_rows s)
}.

(** [_SAFE_IDENTIFIER_REGEX.match(name)]: "$" also matches before a final newline. *)
Definition is_ident (c : ascii) : bool := is_word_char c.
Definition safe_identifier (name : string) : bool :=
  let l := chars name in
  let body := match last l with Some c => if decide (c = ascii_of_nat 10) then removelast l else l | None => l end in
  negb (bool_decide (body = [])) && forallb is_ident body.

(** ** [PartitionManagerService] *)

Definition resolve_target_partition (created_at : datetime) : string :=
  if in_year 2025 (dt_local created_at) then "audit_logs_y2025"
  else if in_year 2026 (dt_local created_at) then "audit_logs_y2026"
  else "audit_logs_default".

(** A naive timestamp is taken as UTC. *)
Definition aware (d : datetime) : datetime := match dt_offset d with None => mkDatetime (dt_local d) (Some 0) | Some _ => d end.

(** Whether the telemetry counts a partition as scanned. *)
Definition name_heuristic (name : string) (start_date end_date : datetime) : bool :=
  if py_in "2025" name && negb ((instant end_date <=? start_of_year 2025) || (start_of_year 2026 <=? instant start_date)) then true
  else py_in "2026" name && negb ((instant end_date <=? start_of_year 2026) || (start_of_year 2027 <=? instant start_date)).
Definition scans (start_date end_date : datetime) (p : PartitionInfo) : bool :=
  if pi_is_default p then (instant start_date <? start_of_year 2025) || (start_of_year 2027 <? instant end_date)
  else
    match pi_from_bound p, pi_to_bound p with
    | Some from_bound, Some to_bound =>
        if decide (from_bound = "" \/ to_bound = "") then name_heuristic (pi_name p) start_date end_date
        else
          match fromisoformat_month from_bound, fromisoformat_month to_bound with
          | Some p_from, Some p_to => negb ((instant end_date <=? p_from) || (p_to <=? instant start_date))
          | _, _ => name_heuristic (pi_name p) start_date end_date
          end
    | _, _ => name_heuristic (pi_name p) start_date end_date
    end.
Definition telemetry (start_date end_date : datetime) (partitions : list PartitionInfo) : PartitionPruningTelemetry :=
  let total_parts := pi_name <$> partitions in
  let scanned := pi_name <$> filter (fun p => scans start_date end_date p) partitions in
  let pruned := filter (fun name => name ∉ scanned) total_parts in
  mkTelemetry scanned pruned
    (match total_parts with [] => 0 | _ => rhe (Z.of_nat (length pruned) * 10000) (Z.of_nat (length total_parts)) end).

Section Service.
Context {DB : Type} {AD : AuditDb DB} (dia : dialect).

Definition ensure_base_and_child_partitions : M DB () := db_execute (EnsureBase dia) ;;; ret ().

Definition insert_audit_log (new_id : Z) (now : datetime) (event_type : string) (user_id : Z) (payload : string) (created_at : option datetime)
    : M DB AuditLogResponse :=
  ensure_base_and_child_partitions ;;;
  let timestamp := aware (default now created_at) in
  let target_partition := resolve_target_partition timestamp in
  let record := mkLog new_id (column_value dia timestamp) event_type user_id payload in
  db_insert record ;;;
  ret (mkLogResponse (al_id record) (loaded dia (al_created_at record)) event_type user_id payload target_partition).

(** One child table of the listing. *)
Definition sqlite_bounds (tbl : string) : option string * option string * bool :=
  if decide (tbl = "audit_logs_y2025") then (Some "2025-01-01T00:00:00+00:00", Some "2026-01-01T00:00:00+00:00", false)
  else if decide (tbl = "audit_logs_y2026") then (Some "2026-01-01T00:00:00+00:00", Some "2027-01-01T00:00:00+00:00", false)
  else (None, None, bool_decide (tbl = "audit_logs_default")).
Definition partition_info (child : string * string) (row_count : Z) : PartitionInfo :=
  let '(name, bound_expr) := child in
  match dia with
  | Postgresql => let is_default := py_in "DEFAULT" (py_upper bound_expr) in
                  mkPart name (if is_default then None else Some bound_expr) None is_default row_count
  | Sqlite => let '(from_b, to_b, is_def) := sqlite_bounds name in mkPart name from_b to_b is_def row_count
  end.
Fixpoint inspect (children : list (string * string)) : M DB (list PartitionInfo) :=
  match children with
  | [] => ret []
  | child :: rest =>
      if negb (safe_identifier child.1) then inspect rest
      else let! count := db_execute (CountRows child.1) in
           let! infos := inspect rest in
           ret (partition_info child count :: infos)
  end.
Definition list_active_partitions : M DB (list PartitionInfo) :=
  ensure_base_and_child_partitions ;;;
  let! children := gets db_children in
  inspect children.

Definition row_matches (start_date end_date : datetime) (event_type : option string) (user_id : option Z) (r : AuditLog) : bool :=
  (column_value dia start_date <=? al_created_at r) && (al_created_at r <? column_value dia end_date) &&
  (match event_type with Some e => bool_decide (e = "") || bool_decide (al_event_type r = e) | None => true end) &&
  (match user_id with Some u => al_user_id r =? u | None => true end).
Definition search_audit_logs (start_date end_date : datetime) (event_type : option string) (user_id : option Z) : M DB AuditSearchResponse :=
  ensure_base_and_child_partitions ;;;
  let start_date := aware start_date in
  let end_date := aware end_date in
  let! records := (fun s => (db_select (row_matches start_date end_date event_type user_id) s, s)) in
  let! active_partitions := list_active_partitions in
  let logs_resp := (fun r => let created := loaded dia (al_created_at r) in
                    mkLogResponse (al_id r) created (al_event_type r) (al_user_id r) (al_payload r) (resolve_target_partition created)) <$> records in
  ret (mkSearch logs_resp (Z.of_nat (length logs_resp)) (telemetry start_date end_date active_partitions)).

Definition create_monthly_partition (year month : Z) : M DB (string * string * string) :=
  ensure_base_and_child_partitions ;;;
  let partition_name := "audit_logs_y" +:+ pretty year +:+ "m" +:+ zero_pad 2 month in
  raise_if (negb (safe_identifier partition_name)) PyValueError ;;;
  let! start_dt := lift_result (month_start year month) in
  let! end_dt := lift_result (if month =? 12 then month_start (year + 1) 1 else month_start year (month + 1)) in
  let start_str := isoformat_month year month in
  let end_str := if month =? 12 then isoformat_month (year + 1) 1 else isoformat_month year (month + 1) in
  db_execute (match dia with Postgresql => CreateRange partition_name start_str end_str | Sqlite => CreateTable partition_name end) ;;;
  ret (partition_name, start_str, end_str).

Definition detach_and_drop_old_partition (partition_name : string) : M DB string :=
  raise_if (negb (safe_identifier partition_name)) PyValueError ;;;
  match dia with
  | Postgresql => db_execute (DetachPartition partition_name) ;;; db_execute (DropTable partition_name)
  | Sqlite => db_execute (DropTrigger ("trg_" +:+ partition_name)) ;;; db_execute (DropTable partition_name)
  end ;;;
  ret partition_name.

(** ** Endpoints *)

Definition create_partitioned_audit_log (new_id : Z) (now : datetime) (event_type : string) (user_id : Z) (payload : string) (created_at : option datetime)
    : M DB AuditLogResponse :=
  let len := String.length event_type in
  raise_if ((len =? 0)%nat || (50 <? len)%nat || (user_id <? 1)) PydanticValidationError ;;;
  insert_audit_log new_id now event_type user_id payload created_at.
Definition search_partitioned_audit_logs (start_date end_date : datetime) (event_type : option string) (user_id : option Z) : M DB AuditSearchResponse :=
  raise_if (match user_id with Some u => u <? 1 | None => false end) PydanticValidationError ;;;
  search_audit_logs start_date end_date event_type user_id.
Definition create_monthly_partition_endpoint (year month : Z) : M DB (string * string * string) :=
  raise_if (negb ((2020 <=? year) && (year <=? 2050) && (1 <=? month) && (month <=? 12))) PydanticValidationError ;;;
  create_monthly_partition year month.
Definition detach_and_drop_partition (partition_name : string) : M DB string := detach_and_drop_old_partition partition_name.
End Service.

(** ** Pruning *)

(** The partitions that the rows of a range can lie in. *)
Definition touched (start_date end_date : datetime) (name : string) : Prop :=
  exists t, instant start_date <= t < instant end_date /\ resolve_target_partition (utc t) = name.

Lemma year_2025 : start_of_year 2025 = 1735689600000000. Proof. reflexivity. Qed.
Lemma year_2026 : start_of_year 2026 = 1767225600000000. Proof. reflexivity. Qed.
Lemma year_2027 : start_of_year 2027 = 1798761600000000. Proof. reflexivity. Qed.
Lemma in_2025 t : in_year 2025 t = true <-> 1735689600000000 <= t < 1767225600000000.
Proof. unfold in_year. change (2025 + 1) with 2026. rewrite year_2025, year_2026, andb_true_iff, Z.leb_le, Z.ltb_lt. done. Qed.
Lemma in_2026 t : in_year 2026 t = true <-> 1767225600000000 <= t < 1798761600000000.
Proof. unfold in_year. change (2026 + 1) with 2027. rewrite year_2026, year_2027, andb_true_iff, Z.leb_le, Z.ltb_lt. done. Qed.

Lemma resolve_cases t : resolve_target_partition t =
  if decide (1735689600000000 <= dt_local t < 1767225600000000) then "audit_logs_y2025"
  else if decide (1767225600000000 <= dt_local t < 1798761600000000) then "audit_logs_y2026" else "audit_logs_default".
Proof.
  unfold resolve_target_partition. pose proof (in_2025 (dt_local t)) as H1. pose proof (in_2026 (dt_local t)) as H2.
  destruct (in_year 2025 _); [rewrite decide_True by (by apply H1); done|]. rewrite decide_False by (rewrite <-H1; done).
  destruct (in_year 2026 _); [rewrite decide_True by (by apply H2); done|]. rewrite decide_False by (rewrite <-H2; done). done.
Qed.

Lemma scans_2025 dia bound c s e : base_bound dia "audit_logs_y2025" bound ->
  scans s e (partition_info dia ("audit_logs_y2025", bound) c) = negb ((instant e <=? 1735689600000000) || (1767225600000000 <=? instant s)).
Proof.
  intros Hb. destruct dia; [reflexivity|]. unfold scans, partition_info. rewrite (Hb eq_refl).
  change (bool_decide _) with false. cbv iota beta. cbn [pi_is_default pi_from_bound pi_to_bound pi_name]. unfold name_heuristic.
  change (py_in "2025" "audit_logs_y2025") with true. change (py_in "2026" "audit_logs_y2025") with false. rewrite year_2025, year_2026.
  by destruct (negb _).
Qed.
Lemma scans_2026 dia bound c s e : base_bound dia "audit_logs_y2026" bound ->
  scans s e (partition_info dia ("audit_logs_y2026", bound) c) = negb ((instant e <=? 1767225600000000) || (1798761600000000 <=? instant s)).
Proof.
  intros Hb. destruct dia; [reflexivity|]. unfold scans, partition_info. rewrite (Hb eq_refl).
  change (bool_decide _) with false. cbv iota beta. cbn [pi_is_default pi_from_bound pi_to_bound pi_name]. unfold name_heuristic.
  change (py_in "2025" "audit_logs_y2026") with false. change (py_in "2026" "audit_logs_y2026") with true. by rewrite year_2026, year_2027.
Qed.
Lemma scans_default dia bound c s e : base_bound dia "audit_logs_default" bound ->
  scans s e (partition_info dia ("audit_logs_default", bound) c) = (instant s <? 1735689600000000) || (1798761600000000 <? instant e).
Proof. intros Hb. destruct dia; [reflexivity|]. unfold scans, partition_info. by rewrite (Hb eq_refl). Qed.

Lemma scans_touched dia name bound c s e : name ∈ base_partitions -> base_bound dia name bound -> instant s < instant e ->
  scans s e (partition_info dia (name, bound) c) = true <-> touched s e name.
Proof.
  unfold base_partitions, touched. intros Hn Hb Hse. setoid_rewrite resolve_cases. cbn [dt_local utc].
  repeat (apply elem_of_cons in Hn as [->|Hn]); [| | |by apply elem_of_nil in Hn].
  - rewrite scans_2025, negb_true_iff, orb_false_iff, !Z.leb_gt by done. split.
    + intros [? ?]. exists (Z.max (instant s) 1735689600000000). split; [lia|]. by rewrite decide_True by lia.
    + intros (t & ? & H). repeat case_decide; try done. lia.
  - rewrite scans_2026, negb_true_iff, orb_false_iff, !Z.leb_gt by done. split.
    + intros [? ?]. exists (Z.max (instant s) 1767225600000000). split; [lia|]. rewrite decide_False, decide_True by lia. done.
    + intros (t & ? & H). repeat case_decide; try done. lia.
  - rewrite scans_default, orb_true_iff, !Z.ltb_lt by done. split.
    + intros [?|?]; [exists (instant s)|exists (instant e - 1)]; (split; [lia|]); rewrite !decide_False by lia; done.
    + intros (t & ? & H). repeat case_decide; try done. lia.
Qed.

Lemma telemetry_scanned s e l p : NoDup (pi_name <$> l) -> p ∈ l ->
  (pi_name p ∈ tl_scanned (telemetry s e l) <-> scans s e p = true) /\ (pi_name p ∈ tl_pruned (telemetry s e l) <-> scans s e p = false).
Proof.
  intros Hn Hp. assert (pi_name p ∈ tl_scanned (telemetry s e l) <-> scans s e p = true) as H.
  { cbn [tl_scanned telemetry]. split.
    - intros (p' & E & [Hs Hp']%list_elem_of_filter)%list_elem_of_fmap. enough (p' = p) as -> by (by destruct (scans s e p)).
      apply list_elem_of_lookup in Hp as [i Hi], Hp' as [j Hj].
      assert (i = j) as ->; [|congruence]. apply (NoDup_lookup _ i j (pi_name p) Hn); rewrite list_lookup_fmap; [rewrite Hi|rewrite Hj]; cbn; congruence.
    - intros Hs. apply list_elem_of_fmap. exists p. split; [done|]. apply list_elem_of_filter. by rewrite Hs. }
  split; [done|]. cbn [tl_pruned telemetry]. rewrite list_elem_of_filter. change (pi_name <$> filter _ l) with (tl_scanned (telemetry s e l)).
  rewrite H. split; [intros [Hx _]; by destruct (scans s e p)|]. intros Hx. rewrite Hx. split; [done|]. apply list_elem_of_fmap. by exists p.
Qed.

(** Pruning telemetry of the base partitions is exact on both databases: for a
    non-empty range of instants, a base partition of the listing is reported as scanned
    exactly when some instant of the range belongs to it, and as pruned exactly when none
    does. *)
Theorem pruning_exact dia (partitions : list PartitionInfo) name bound count start_date end_date :
  NoDup (pi_name <$> partitions) -> name ∈ base_partitions -> base_bound dia name bound ->
  partition_info dia (name, bound) count ∈ partitions -> instant start_date < instant end_date ->
  (name ∈ tl_scanned (telemetry start_date end_date partitions) <-> touched start_date end_date name) /\
  (name ∈ tl_pruned (telemetry start_date end_date partitions) <-> ~ touched start_date end_date name).
Proof.
  intros Hn Hbase Hb Hin Hr. destruct (telemetry_scanned start_date end_date partitions _ Hn Hin) as [H1 H2].
  assert (pi_name (partition_info dia (name, bound) count) = name) as En by (unfold partition_info; destruct dia; [by destruct (sqlite_bounds name) as [[? ?] ?]|done]).
  rewrite En in *. pose proof (scans_touched dia name bound count start_date end_date Hbase Hb Hr) as Ht.
  rewrite H1, H2. split; [done|]. rewrite <-Ht. by destruct (scans _ _ _).
Qed.

Section Search.
Context {DB : Type} {AD : AuditDb DB} (dia : dialect).

Lemma inspect_spec children s infos s' : inspect dia children s = (Ok infos, s') ->
  s' = s /\ (forall i, i ∈ infos -> exists c n, c ∈ children /\ i = partition_info dia c n) /\
  (forall c, c ∈ children -> safe_identifier c.1 = true -> exists n, partition_info dia c n ∈ infos) /\
  (pi_name <$> infos) `sublist_of` children.*1.
Proof.
  revert s infos s'. induction children as [|c children IH]; intros s infos s'; cbn [inspect].
  { intros [= <- <-]. split_and!; [done|by intros i ?%elem_of_nil|by intros c ?%elem_of_nil|constructor]. }
  destruct (negb (safe_identifier c.1)) eqn:Es.
  { intros H. destruct (IH _ _ _ H) as (-> & H1 & H2 & H3). split_and!; [done| | |by apply sublist_cons].
    - intros i Hi. destruct (H1 i Hi) as (c' & n & ? & ?). exists c', n. split; [by right|done].
    - intros c' [->|Hc']%elem_of_cons Hs; [by rewrite Hs in Es|by apply H2]. }
  intros (count & s1 & Ec & H)%bind_ok. apply law_count in Ec as ->. apply bind_ok in H as (rest & s2 & Er & [= <- <-]).
  destruct (IH _ _ _ Er) as (-> & H1 & H2 & H3).
  assert (pi_name (partition_info dia c count) = c.1) as En by (destruct c as [name b]; unfold partition_info; destruct dia; [by destruct (sqlite_bounds name) as [[? ?] ?]|done]).
  split_and!; [done| | |].
  - intros i [->|Hi]%elem_of_cons; [exists c, count; split; [left|done]|]. destruct (H1 i Hi) as (c' & n & ? & ?). exists c', n. split; [by right|done].
  - intros c' [->|Hc']%elem_of_cons Hs; [exists count; left|]. destruct (H2 c' Hc' Hs) as [n ?]. exists n. by right.
  - cbn [fmap list_fmap]. rewrite En. by apply sublist_skip.
Qed.

Lemma list_partitions_spec s infos s' : list_active_partitions dia s = (Ok infos, s') ->
  NoDup (pi_name <$> infos) /\ forall name, name ∈ base_partitions -> exists bound n, base_bound dia name bound /\ partition_info dia (name, bound) n ∈ infos.
Proof.
  unfold list_active_partitions, ensure_base_and_child_partitions. intros (u & s1 & H1 & H)%bind_ok.
  apply bind_ok in H1 as (x & s0 & He & [= <- <-]). apply law_ensure in He as [Hn Hb].
  rewrite bind_gets_run in H. apply inspect_spec in H as (_ & _ & H2 & H3).
  split; [by eapply sublist_NoDup|]. intros name Hname. destruct (Hb name Hname) as (bound & Hin & Hbb). exists bound.
  destruct (H2 _ Hin) as [n ?]; [|by exists n]. cbn [fst]. revert Hname. unfold base_partitions.
  intros Hname. repeat (apply elem_of_cons in Hname as [->|Hname]; [reflexivity|]). by apply elem_of_nil in Hname.
Qed.

Definition in_utc (d : datetime) : Prop := default 0 (dt_offset d) = 0.

(** A search of the audit logs that succeeds returns exactly the rows of the table in
    the range that match the filters, counts them, and, for bounds in UTC, reports as scanned
    the partition of every row it returns. *)
Theorem search_audit_logs_correct start_date end_date event_type user_id (s s' : DB) r :
  search_audit_logs dia start_date end_date event_type user_id s = (Ok r, s') ->
  sr_total_count r = Z.of_nat (length (sr_logs r)) /\
  (exists s1, (fun l => (lr_id l, lr_event_type l, lr_user_id l)) <$> sr_logs r ≡ₚ
     (fun l => (al_id l, al_event_type l, al_user_id l)) <$> filter (fun l => row_matches dia start_date end_date event_type user_id l = true) (db_rows s1) /\
     exists x, db_execute (EnsureBase dia) s = (x, s1)) /\
  (in_utc start_date -> in_utc end_date -> forall l, l ∈ sr_logs r -> lr_target_partition l ∈ tl_scanned (sr_telemetry r)).
Proof.
  unfold search_audit_logs, ensure_base_and_child_partitions. intros (u & s1 & H1 & H)%bind_ok.
  apply bind_ok in H1 as (x & s0 & He & [= _ <-]).
  apply bind_ok in H as (records & s2 & Hsel & H). injection Hsel as Hsel <-.
  apply bind_ok in H as (infos & s3 & Hl & [= <- _]). apply law_select in Hsel. cbn [sr_total_count sr_logs sr_telemetry].
  assert (forall d, column_value dia (aware d) = column_value dia d) as Hc by (intros [l [o|]]; unfold column_value, instant; destruct dia; cbn; lia).
  split_and!; [done| |].
  - exists s0. split; [|by eexists]. rewrite <-list_fmap_compose. unfold compose. cbn [lr_id lr_event_type lr_user_id]. rewrite Hsel.
    apply fmap_Permutation. rewrite (list_filter_iff _ (fun l => row_matches dia start_date end_date event_type user_id l = true)); [done|].
    intros l. unfold row_matches. by rewrite !Hc.
  - intros Hs Hd l (row & -> & Hrow)%list_elem_of_fmap. cbn [lr_target_partition]. rewrite Hsel, list_elem_of_filter in Hrow.
    destruct Hrow as [Hm _]. unfold row_matches in Hm. rewrite !andb_true_iff, Z.leb_le, Z.ltb_lt in Hm. destruct Hm as [[[Hlo Hhi] _] _].
    destruct (list_partitions_spec _ _ _ Hl) as [Hn Hb].
    assert (forall d, in_utc d -> column_value dia (aware d) = instant (aware d)) as Hi
      by (intros [? [o|]]; unfold in_utc, column_value, instant; destruct dia; cbn; lia).
    assert (forall d, in_utc d -> in_utc (aware d)) as Ha by (intros [? [o|]]; done).
    rewrite Hi in Hlo by done. rewrite Hi in Hhi by done.
    assert (resolve_target_partition (loaded dia (al_created_at row)) = resolve_target_partition (utc (al_created_at row))) as -> by (by destruct dia).
    set (name := resolve_target_partition (utc (al_created_at row))).
    assert (name ∈ base_partitions) as Hbase by (unfold name, base_partitions; rewrite resolve_cases; repeat case_decide; set_solver).
    destruct (Hb name Hbase) as (bound & n & Hbb & Hin).
    assert (pi_name (partition_info dia (name, bound) n) = name) as En by (unfold partition_info; destruct dia; [by destruct (sqlite_bounds name) as [[? ?] ?]|done]).
    destruct (telemetry_scanned (aware start_date) (aware end_date) infos _ Hn Hin) as [H1 _]. rewrite En in H1. apply H1.
    apply scans_touched; [done..|lia|]. exists (al_created_at row). split; [lia|done].
Qed.
End Search.

(** ** Monthly partitions *)

(** What a creation reports: the month, and its range as instants. *)
Definition months : list (Z * Z) := (seqZ 2020 31) ≫= fun y => (fun m => (y, m)) <$> seqZ 1 12.
Definition next_month (ym : Z * Z) : Z * Z := let '(y, m) := ym in if m =? 12 then (y + 1, 1) else (y, m + 1).
Definition month_range_ok (ym : Z * Z) : bool :=
  match month_start ym.1 ym.2, month_start (next_month ym).1 (next_month ym).2 with
  | Ok a, Ok b =>
      bool_decide (fromisoformat_month (isoformat_month ym.1 ym.2) = Some a) &&
      bool_decide (fromisoformat_month (isoformat_month (next_month ym).1 (next_month ym).2) = Some b) &&
      (28 * DAY <=? b - a) && (b - a <=? 31 * DAY) &&
      safe_identifier ("audit_logs_y" +:+ pretty ym.1 +:+ "m" +:+ zero_pad 2 ym.2)
  | _, _ => false
  end.
Lemma month_ranges_ok : forallb month_range_ok months = true.
Proof. vm_compute. reflexivity. Qed.
Lemma months_elem y m : 2020 <= y <= 2050 -> 1 <= m <= 12 -> (y, m) ∈ months.
Proof.
  intros Hy Hm. unfold months. apply list_elem_of_bind. exists y. split; [|apply elem_of_seqZ; lia].
  apply list_elem_of_fmap. exists m. split; [done|]. apply elem_of_seqZ. lia.
Qed.

(** Creating a monthly partition through the endpoint: the reported bounds are the texts of
    the first instants of the month and of the next month, 28 to 31 days apart, so the
    ranges of consecutive months meet without overlap; other months are refused before
    anything is executed. *)
Theorem monthly_partition_correct {DB} `{AD : AuditDb DB} dia year month (s s' : DB) r :
  create_monthly_partition_endpoint dia year month s = (r, s') ->
  match r with
  | Ok (name, lo, hi) => 2020 <= year <= 2050 /\ 1 <= month <= 12 /\
      (exists a b, fromisoformat_month lo = Some a /\ fromisoformat_month hi = Some b /\ 28 * DAY <= b - a <= 31 * DAY /\
         month_start year month = Ok a /\ month_start (next_month (year, month)).1 (next_month (year, month)).2 = Ok b)
  | Raise e => e = PydanticValidationError /\ s' = s \/ exists st s1, (db_execute st s1).1 = Raise e
  end.
Proof.
  unfold create_monthly_partition_endpoint. rewrite bind_raise_if_run.
  destruct (negb _) eqn:Ev; [intros [= <- <-]; by left|].
  apply negb_false_iff in Ev. rewrite !andb_true_iff, !Z.leb_le in Ev. destruct Ev as [[[? ?] ?] ?].
  pose proof month_ranges_ok as Hall. rewrite forallb_forall in Hall.
  specialize (Hall (year, month) (proj1 (list_elem_of_In _ _) (months_elem year month ltac:(lia) ltac:(lia)))).
  unfold month_range_ok, next_month in *. cbn [fst snd] in Hall. unfold create_monthly_partition, ensure_base_and_child_partitions.
  destruct (month_start year month) as [a|] eqn:Ea; [|done].
  set (nxt := if month =? 12 then (year + 1, 1) else (year, month + 1)) in *.
  assert ((if month =? 12 then month_start (year + 1) 1 else month_start year (month + 1)) = month_start nxt.1 nxt.2) as -> by (unfold nxt; by destruct (month =? 12)).
  assert ((if month =? 12 then isoformat_month (year + 1) 1 else isoformat_month year (month + 1)) = isoformat_month nxt.1 nxt.2) as -> by (unfold nxt; by destruct (month =? 12)).
  destruct (month_start nxt.1 nxt.2) as [b|] eqn:Eb; [|done].
  rewrite !andb_true_iff, !bool_decide_eq_true, !Z.leb_le in Hall. destruct Hall as ((((Hlo & Hhi) & ?) & ?) & Hsafe).
  unfold bind at 1 2. destruct (db_execute (EnsureBase dia) s) as [[x|e] s1] eqn:Ee; cbn [ret].
  - rewrite Hsafe. cbn [negb]. unfold raise_if, bind, lift_result, ret. cbn.
    destruct (db_execute _ s1) as [[x2|e2] s2] eqn:E2; intros [= <- <-].
    + split_and!; try lia. exists a, b. split_and!; done || lia.
    + right. eexists _, s1. by rewrite E2.
  - intros [= <- <-]. right. exists (EnsureBase dia), s. by rewrite Ee.
Qed.

(** ** Identifiers *)

(** A name that reaches a DDL statement consists of letters, digits and underscores, with at
    most one final newline, so it cannot leave its identifier. *)
Theorem identifiers_cannot_inject {DB} `{AD : AuditDb DB} dia name (s s' : DB) r :
  detach_and_drop_old_partition dia name s = (r, s') ->
  (exists body nl, chars name = body ++ nl /\ (nl = [] \/ nl = [ascii_of_nat 10]) /\ body <> [] /\ Forall (fun c => is_word_char c = true) body) \/
  r = Raise PyValueError /\ s' = s.
Proof.
  unfold detach_and_drop_old_partition. rewrite bind_raise_if_run. destruct (safe_identifier name) eqn:Es; [|intros [= <- <-]; by right].
  intros _. left. unfold safe_identifier in Es. destruct (last (chars name)) as [c|] eqn:El.
  - destruct (decide (c = ascii_of_nat 10)) as [->|Hc]; cbv zeta in Es; apply andb_true_iff in Es as [Hne Hall].
    + apply last_Some in El as [l El]. rewrite El in *. rewrite removelast_last in *.
      exists l, [ascii_of_nat 10]. split_and!; [done|by right|by apply negb_true_iff, bool_decide_eq_false in Hne|].
      apply List.Forall_forall. by apply forallb_forall.
    + exists (chars name), []. split_and!; [by rewrite app_nil_r|by left|by apply negb_true_iff, bool_decide_eq_false in Hne|].
      apply List.Forall_forall. by apply forallb_forall.
  - apply last_None in El. by rewrite El in Es.
Qed.

(** ** A reference database, and concrete behaviours *)

(** The rows, and the child tables with their bounds. *)
Definition base_map : gmap string string := list_to_map [
  ("audit_logs_y2025", "FOR VALUES FROM ('2025-01-01 00:00:00+00') TO ('2026-01-01 00:00:00+00')");
  ("audit_logs_y2026", "FOR VALUES FROM ('2026-01-01 00:00:00+00') TO ('2027-01-01 00:00:00+00')"); ("audit_logs_default", "DEFAULT")].
Definition log_leb (a b : AuditLog) : bool :=
  (al_created_at b <? al_created_at a) || ((al_created_at a =? al_created_at b) && (al_id b <=? al_id a)).
Definition name_leb (a b : string * string) : bool := str_leb a.1 b.1.
#[global] Instance ref_audit_db : AuditDb (list AuditLog * gmap string string).
Proof.
  refine {|
    db_execute st := fun s =>
      match st with
      | EnsureBase _ => (Ok 0, (s.1, base_map ∪ s.2))
      | CreateRange name lo hi => (Ok 0, (s.1, <[name := "FOR VALUES FROM ('" +:+ lo +:+ "') TO ('" +:+ hi +:+ "')"]> s.2))
      | CreateTable name => (Ok 0, (s.1, <[name := ""]> s.2))
      | DropTable name => (Ok 0, (s.1, delete name s.2))
      | DetachPartition _ | DropTrigger _ => (Ok 0, s)
      | CountRows _ => (Ok 0, s)
      end;
    db_insert row := fun s => (Ok (), (s.1 ++ [row], s.2));
    db_rows s := s.1;
    db_select f s := Ok (stable_sort log_leb (filter (fun r => f r = true) s.1));
    db_children s := stable_sort name_leb (map_to_list s.2)
  |}.
  - intros dia s x s' [= <- <-]. cbn. split; [rewrite stable_sort_perm; apply NoDup_fst_map_to_list|].
    intros name Hn. exists (default "" (base_map !! name)). split.
    + rewrite stable_sort_perm. apply elem_of_map_to_list, lookup_union_Some_l. revert Hn. unfold base_partitions.
      intros Hn. repeat (apply elem_of_cons in Hn as [->|Hn]; [reflexivity|]). by apply elem_of_nil in Hn.
    + intros _. revert Hn. unfold base_partitions. intros Hn. repeat (apply elem_of_cons in Hn as [->|Hn]; [reflexivity|]). by apply elem_of_nil in Hn.
  - by intros name s r s' [= _ <-].
  - intros f s rows [= <-]. apply stable_sort_perm.
Defined.

Definition at_utc (t : Z) : datetime := mkDatetime t (Some 0).
Lemma pruning_exact_witness :
  let p := partition_info Sqlite ("audit_logs_y2026", "") 7 in
  "audit_logs_y2026" ∈ tl_scanned (telemetry (at_utc 1767225600000000) (at_utc 1767225600000001) [p]) /\
  (touched (at_utc 1767225600000000) (at_utc 1767225600000001) "audit_logs_y2026").
Proof.
  cbv zeta. assert (touched (at_utc 1767225600000000) (at_utc 1767225600000001) "audit_logs_y2026") as Ht by (exists 1767225600000000; split; [split; vm_compute; done|reflexivity]).
  split; [|exact Ht].
  apply (pruning_exact Sqlite [partition_info Sqlite ("audit_logs_y2026", "") 7] "audit_logs_y2026" "" 7 (at_utc 1767225600000000) (at_utc 1767225600000001)); [| | | | |exact Ht].
  - apply NoDup_singleton.
  - right. left.
  - intros H. discriminate H.
  - left.
  - vm_compute. done.
Defined.

Definition demo_logs : list AuditLog * gmap string string :=
  ([mkLog 1 1767225600000000 "LOGIN" 4 "{}"; mkLog 2 1735689600000000 "LOGIN" 4 "{}"], ∅).
Lemma search_audit_logs_correct_witness : exists r s',
  search_audit_logs Postgresql (at_utc 1767225600000000) (at_utc 1798761600000000) (Some "LOGIN") None demo_logs = (Ok r, s') /\
  lr_id <$> sr_logs r = [1] /\ (forall l, l ∈ sr_logs r -> lr_target_partition l ∈ tl_scanned (sr_telemetry r)).
Proof.
  eexists _, _. assert (forall A B (x : A) (y : B), (x, y) = (x, y)) as Hrefl by done. split; [vm_compute; reflexivity|]. split; [reflexivity|].
  apply (search_audit_logs_correct Postgresql (at_utc 1767225600000000) (at_utc 1798761600000000) (Some "LOGIN") None demo_logs (demo_logs.1, base_map)
           {| sr_logs := [mkLogResponse 1 (utc 1767225600000000) "LOGIN" 4 "{}" "audit_logs_y2026"]; sr_total_count := 1;
              sr_telemetry := mkTelemetry ["audit_logs_y2026"] ["audit_logs_default"; "audit_logs_y2025"] 6667 |});
    [vm_compute; reflexivity|reflexivity|reflexivity].
Defined.

(** New year of 2026 in Dhaka is still 2025 in UTC: PostgreSQL stores the row in y2025, the
    response names y2026. *)
Definition dhaka_new_year : datetime := mkDatetime 1767225600000000 (Some 21600000000).
Example local_year_misroutes :
  resolve_target_partition (aware dhaka_new_year) = "audit_logs_y2026" /\
  resolve_target_partition (loaded Postgresql (column_value Postgresql dhaka_new_year)) = "audit_logs_y2025".
Proof. vm_compute. done. Qed.

(** A monthly partition of 2027 is never counted as scanned on PostgreSQL, although the rows
    of its month lie in it: the service does not read the bound expression. *)
Example monthly_partition_reported_pruned :
  let p := partition_info Postgresql ("audit_logs_y2027m01", "FOR VALUES FROM ('2027-01-01 00:00:00+00') TO ('2027-02-01 00:00:00+00')") 5 in
  tl_pruned (telemetry (at_utc 1798761600000000) (at_utc 1801440000000000) [p]) = ["audit_logs_y2027m01"].
Proof. vm_compute. done. Qed.

(** On SQLite, where the column is the local time, a bound with an offset selects rows of a
    partition that is reported as pruned. *)
Example offset_bound_prunes_results :
  let start_date := mkDatetime 1767214800000000 (Some (-21600000000)) in (* 2025-12-31 21:00 -06:00 *)
  let row := mkLog 1 1767222000000000 "LOGIN" 4 "{}" in                   (* stored 2025-12-31 23:00 *)
  let p := partition_info Sqlite ("audit_logs_y2025", "") 1 in
  row_matches Sqlite start_date (at_utc 1798761600000000) None None row = true /\
  resolve_target_partition (loaded Sqlite (al_created_at row)) = "audit_logs_y2025" /\
  tl_pruned (telemetry start_date (at_utc 1798761600000000) [p]) = ["audit_logs_y2025"].
Proof. vm_compute. done. Qed.

(** The name is checked for its characters only: on SQLite the endpoint drops any table. *)
Example any_table_can_be_dropped :
  (detach_and_drop_partition Sqlite "users" ([], {["users" := ""]})).2.2 !! "users" = None /\
  safe_identifier (of_chars (chars "users" ++ [ascii_of_nat 10])) = true.
Proof. vm_compute. done. Qed.

(** A dropped base partition is created again by the next call of the service. *)
Example dropped_partition_returns :
  let s := (detach_and_drop_partition Postgresql "audit_logs_y2025" ([], base_map)).2 in
  s.2 !! "audit_logs_y2025" = None /\ is_Some ((list_active_partitions Postgresql s).2.2 !! "audit_logs_y2025").
Proof. vm_compute. split; [done|by eexists]. Qed.
