(* ===== verification/Sql.v ===== *)
(** What the SQLAlchemy repositories share: the result of a query that expects at
    most one row, the window of a paginated query, column types, tables with a primary
    key, and the refinement of one repository by another over sessions of calls.

    A table is a list of rows, without duplicates because every table has a primary
    key; a query is a filter over the list. *)

From S2P Require Import Prelude.

Local Open Scope Z_scope.

(** [Result.scalar_one_or_none]: more than one row is an error. *)
Definition scalar_one_or_none {A} (ms : list A) : result (option A) :=
  match ms with
  | [] => Ok None
  | [m] => Ok (Some m)
  | _ => Raise SQLAlchemyError
  end.

(** [LIMIT]/[OFFSET]: a negative number is refused by the database. *)
Definition window_rows {A} (limit offset : Z) (rows : list A) : result (list A) :=
  if (limit <? 0) || (offset <? 0) then Raise SQLAlchemyError
  else Ok (take (Z.to_nat limit) (drop (Z.to_nat offset) rows)).

(** ** Column types *)

(** [String(n)] and [Integer] *)
Definition fits_column (n : nat) (s : string) : bool := (String.length s <=? n)%nat.
Definition fits_integer (z : Z) : bool := (- 2 ^ 31 <=? z) && (z <? 2 ^ 31).

(** ** Queries *)

(** The order in which the database hands out the rows of a query: any rearrangement of
    them, another one at every query.  [ORDER BY] sorts what it is handed and leaves rows
    with equal keys as they come. *)
Record plan : Type := mkPlan {
  arrange : forall A : Type, list A -> list A;
  arrange_perm : forall A (l : list A), arrange A l ≡ₚ l
}.
Arguments arrange _ {_} _.
Arguments arrange_perm _ {_} _.

Definition plan_id : plan := mkPlan (fun A l => l) (fun A l => reflexivity l).
Definition plan_rev : plan := mkPlan (fun A l => reverse l) (fun A l => reverse_Permutation l).

Definition order_by {A} (leb : A -> A -> bool) (p : plan) (rows : list A) : list A := stable_sort leb (arrange p rows).

(** Rows in the order of a key. *)
Definition in_order {A} (key : A -> Z) (l : list A) : Prop := StronglySorted (fun a b => key a <= key b) l.

Lemma sorted_in_order {A} (leb : A -> A -> bool) (key : A -> Z) (l : list A) :
  (forall a b, leb a b = (key a <=? key b)) -> StronglySorted (fun a b => leb a b = true) l -> in_order key l.
Proof.
  intros Hleb. induction 1 as [|x l _ IH Hx]; constructor; [done|].
  eapply Forall_impl; [exact Hx|]. intros y Hy. cbn in *. by rewrite Hleb, Z.leb_le in Hy.
Qed.

Lemma order_by_spec {A} (leb : A -> A -> bool) (key : A -> Z) (p : plan) (rows : list A) :
  (forall a b, leb a b = (key a <=? key b)) -> order_by leb p rows ≡ₚ rows /\ in_order key (order_by leb p rows).
Proof.
  intros Hleb. unfold order_by. split; [by rewrite stable_sort_perm, arrange_perm|].
  apply (sorted_in_order leb); [done|]. apply stable_sort_sorted; intros *; rewrite !Hleb, !Z.leb_le; lia.
Qed.

(** Two pages of the same rows, both in the order of the key: which of two rows with
    equal keys comes first is left open. *)
Inductive same_page {A} (key : A -> Z) : list A -> list A -> Prop :=
  | SamePage lo n rows rows' : rows ≡ₚ rows' -> in_order key rows -> in_order key rows' ->
      same_page key (take n (drop lo rows)) (take n (drop lo rows')).

Lemma in_order_keys {A} (key : A -> Z) l l' : in_order key l -> in_order key l' -> l ≡ₚ l' -> key <$> l = key <$> l'.
Proof.
  intros Hl Hl' Hp. apply (StronglySorted_unique Z.le); [..|by rewrite Hp].
  - clear Hl' Hp. induction Hl as [|x l _ IH Hx]; constructor; [done|]. by apply Forall_fmap.
  - clear Hl Hp. induction Hl' as [|x l0 _ IH Hx]; constructor; [done|]. by apply Forall_fmap.
Qed.

(** So the keys of the two pages are the same, and with a key per row the pages are. *)
Lemma same_page_keys {A} (key : A -> Z) l l' : same_page key l l' -> key <$> l = key <$> l'.
Proof. intros [lo n rows rows' Hp H1 H2]. by rewrite !fmap_take, !fmap_drop, (in_order_keys key _ _ H1 H2 Hp). Qed.

Lemma in_order_unique {A} (key : A -> Z) l l' : NoDup (key <$> l) -> in_order key l -> in_order key l' -> l ≡ₚ l' -> l = l'.
Proof.
  intros Hnd Hl Hl' Hp. apply (StronglySorted_unique_strong (fun a b => key a <= key b)); [|done..].
  intros x y Hx Hy H1 H2. rewrite <-Hp in Hy. apply list_elem_of_lookup in Hx as [i Hi], Hy as [j Hj].
  assert (i = j) as ->; [|congruence]. eapply NoDup_lookup; [exact Hnd|by rewrite list_lookup_fmap, Hi|].
  rewrite list_lookup_fmap, Hj. cbn. f_equal. lia.
Qed.

Lemma order_by_unique {A} (leb : A -> A -> bool) (key : A -> Z) p rows : (forall a b, leb a b = (key a <=? key b)) ->
  NoDup (key <$> rows) -> order_by leb p rows = stable_sort leb rows.
Proof.
  intros Hleb Hnd. destruct (order_by_spec leb key p rows Hleb) as [Hp Ho], (order_by_spec leb key plan_id rows Hleb) as [Hp' Ho'].
  apply (in_order_unique key); [by rewrite Hp|done|done|]. by rewrite Hp.
Qed.

Lemma filter_unique {A} (P : A -> Prop) `{!forall x, Decision (P x)} (l : list A) x : NoDup l -> x ∈ l -> P x ->
  (forall y, y ∈ l -> P y -> y = x) -> filter P l = [x].
Proof.
  intros Hnd Hx HP Hu. apply list_elem_of_split in Hx as (l1 & l2 & ->).
  apply NoDup_app in Hnd as (_ & H1 & H2). apply NoDup_cons in H2 as [H2 _].
  rewrite filter_app, filter_cons_True by done.
  rewrite !filter_none; [done|..]; apply Forall_forall; intros y Hy HPy;
    assert (y = x) as -> by (apply Hu; [set_solver|done]).
  - done.
  - apply (H1 x); set_solver.
Qed.

(** A lookup by a unique column against a map of the stored rows. *)
Lemma scalar_exact {A} (P : A -> Prop) `{!forall x, Decision (P x)} (l : list A) (o : option A) : NoDup l ->
  (forall x, x ∈ l -> P x <-> o = Some x) -> (forall x, o = Some x -> x ∈ l) ->
  scalar_one_or_none (filter P l) = Ok o.
Proof.
  intros Hnd HP Ho. destruct o as [x|].
  - rewrite (filter_unique _ _ x); [done|done|by apply Ho|by apply HP, eq_refl; apply Ho|].
    intros y Hy HPy. apply HP in HPy; [congruence|done].
  - rewrite filter_none; [done|]. apply Forall_forall. intros x Hx HPx. by apply HP in HPx.
Qed.

(** Rows selected by a statement stay rows, with one key each. *)
Lemma NoDup_filter_fmap {A K} (key : A -> K) (P : A -> Prop) `{!forall x, Decision (P x)} (l : list A) :
  NoDup (key <$> l) -> NoDup (key <$> filter P l).
Proof. intros Hnd. eapply sublist_NoDup; [exact Hnd|]. f_equiv. apply sublist_filter. Qed.

Lemma filter_fmap {A B} (f : A -> B) (P : B -> Prop) `{!forall y, Decision (P y)} (l : list A) :
  filter P (f <$> l) = f <$> filter (fun x => P (f x)) l.
Proof.
  induction l as [|x l IH]; [done|]. rewrite fmap_cons, !filter_cons.
  destruct (decide (P (f x))); [by rewrite fmap_cons, IH|done].
Qed.

Lemma Forall2_fmap_self {A B} (R : A -> B -> Prop) (f : A -> B) (l : list A) :
  Forall (fun x => R x (f x)) l -> Forall2 R l (f <$> l).
Proof. induction 1; constructor; done. Qed.

(** [ORDER BY] leaves rows alone that are in order already. *)
Lemma stable_sort_id {A} (leb : A -> A -> bool) (l : list A) :
  StronglySorted (fun x y => leb x y = true) l -> stable_sort leb l = l.
Proof.
  induction 1 as [|x l _ IH Hx]; [done|].
  change (sort_insert leb x (stable_sort leb l) = x :: l). rewrite IH.
  destruct Hx as [|y l Hy _]; [done|]. cbn. by rewrite Hy.
Qed.

Lemma StronglySorted_filter {A} (R : A -> A -> Prop) (P : A -> Prop) `{!forall x, Decision (P x)} (l : list A) :
  StronglySorted R l -> StronglySorted R (filter P l).
Proof.
  induction 1 as [|x l _ IH Hx]; [constructor|]. rewrite filter_cons. case_decide; [|done].
  constructor; [done|]. by apply Forall_filter.
Qed.

Lemma StronglySorted_app_le {A} (R : A -> A -> Prop) (l1 l2 : list A) :
  StronglySorted R l1 -> StronglySorted R l2 -> (forall x y, x ∈ l1 -> y ∈ l2 -> R x y) -> StronglySorted R (l1 ++ l2).
Proof.
  intros H1 H2 Hle. induction H1 as [|x l1 _ IH Hx]; [done|]. cbn. constructor.
  - apply IH. intros y z Hy Hz. apply Hle; [by right|done].
  - apply Forall_app. split; [done|]. apply Forall_forall. intros y Hy. apply Hle; [by left|done].
Qed.

(** ** Tables with a primary key, against Python dictionaries *)

Section Keyed.
Context {K R : Type} `{EqDecision K} (key : R -> K).

(** [session.get(Model, k)], the insertion of a row and the update of one. *)
Definition table_get (k : K) (t : list R) : option R := head (filter (fun r => key r = k) t).
Definition table_insert (r : R) (t : list R) : result (list R) :=
  if bool_decide (key r ∈ key <$> t) then Raise IntegrityError else Ok (t ++ [r]).
Definition table_update (r : R) (t : list R) : list R := (fun x => if decide (key x = key r) then r else x) <$> t.

(** A table that holds the values of a dictionary keyed by the primary key, in the
    same order. *)
Definition holds (t : list R) (d : list (K * R)) : Prop := d = (fun r => (key r, r)) <$> t /\ NoDup (key <$> t).

Lemma holds_nil : holds [] [].
Proof. split; [done|constructor]. Qed.

Lemma holds_rows t d : holds t d -> d.*2 = t.
Proof.
  intros [-> _]. rewrite <-list_fmap_compose. rewrite <-(list_fmap_id t) at 2. by apply list_fmap_ext.
Qed.

Lemma holds_keys t d : holds t d -> d.*1 = key <$> t.
Proof. intros [-> _]. rewrite <-list_fmap_compose. by apply list_fmap_ext. Qed.

Lemma holds_key t d k r : holds t d -> dict_get d k = Some r -> key r = k.
Proof. intros [-> _] Hin%dict_get_elem. by apply list_elem_of_fmap in Hin as (x & [= -> <-] & _). Qed.

Lemma holds_get t d k : holds t d -> table_get k t = dict_get d k.
Proof.
  intros [-> _]. unfold table_get. induction t as [|r t IH]; [done|]. rewrite filter_cons, fmap_cons. cbn [dict_get].
  by case_decide.
Qed.

Lemma holds_scalar t d k : holds t d -> scalar_one_or_none (filter (fun r => key r = k) t) = Ok (dict_get d k).
Proof.
  intros Hh. rewrite <-(holds_get t d k Hh). destruct Hh as [_ Hnd]. unfold table_get.
  pose proof (NoDup_filter_fmap key (fun r => key r = k) t Hnd) as Hn.
  destruct (filter _ t) as [|r1 [|r2 rs]] eqn:E; [done|done|].
  assert (key r1 = k) as H1 by (assert (r1 ∈ filter (fun r => key r = k) t) as [? _]%list_elem_of_filter; [rewrite E; by left|done]).
  assert (key r2 = k) as H2 by (assert (r2 ∈ filter (fun r => key r = k) t) as [? _]%list_elem_of_filter; [rewrite E; right; by left|done]).
  rewrite !fmap_cons, H1, H2 in Hn. apply NoDup_cons in Hn as [Hn _]. exfalso. apply Hn. by left.
Qed.

Lemma holds_insert t d r : holds t d -> dict_get d (key r) = None ->
  table_insert r t = Ok (t ++ [r]) /\ holds (t ++ [r]) (dict_set d (key r) r).
Proof.
  intros Hh Hg. assert (key r ∉ d.*1) as Hnew by by apply dict_get_None.
  pose proof (holds_keys _ _ Hh) as Hk. unfold table_insert. rewrite bool_decide_false by by rewrite <-Hk. split; [done|].
  rewrite dict_set_keys_new by done. rewrite Hk in Hnew. destruct Hh as [-> Hnd]. split; [by rewrite fmap_app|].
  rewrite fmap_app. apply NoDup_app. split; [done|]. split; [set_solver|apply NoDup_singleton].
Qed.

Lemma holds_update t d r x : holds t d -> dict_get d (key r) = Some x -> holds (table_update r t) (dict_set d (key r) r).
Proof.
  intros [-> Hnd] Hg. assert (key <$> table_update r t = key <$> t) as Hkeys.
  { unfold table_update. rewrite <-list_fmap_compose. apply list_fmap_ext. intros _ y _. cbn. by case_decide. }
  split; [|by rewrite Hkeys]. clear Hkeys. induction t as [|y t IH]; [done|].
  rewrite fmap_cons in Hnd. apply NoDup_cons in Hnd as [Hy Hnd]. unfold table_update in *. rewrite !fmap_cons. cbn [dict_set].
  rewrite fmap_cons in Hg. cbn [dict_get] in Hg. destruct (decide (key y = key r)) as [Heq|Hne].
  - f_equal; [by rewrite ?Heq|]. rewrite <-list_fmap_compose. apply list_fmap_ext. intros i z Hz. cbn. rewrite decide_False; [done|].
    intros Hzr. apply Hy. rewrite Heq, <-Hzr. apply list_elem_of_fmap_2. by eapply list_elem_of_lookup_2.
  - f_equal. by apply IH.
Qed.
End Keyed.

(** ** Refinement over sessions of calls *)

Fixpoint session {C A S} (run : C -> S -> A * S) (cs : list C) (s : S) : list A :=
  match cs with
  | [] => []
  | c :: cs' => let '(a, s') := run c s in a :: session run cs' s'
  end.

(** Every call of a session meets the callers' obligations in the state it finds. *)
Fixpoint session_ok {C A S} (run : C -> S -> A * S) (ok : C -> S -> Prop) (cs : list C) (s : S) : Prop :=
  match cs with
  | [] => True
  | c :: cs' => ok c s /\ session_ok run ok cs' (run c s).2
  end.

Section Refinement.
Context {C A S T : Type} (run1 : C -> S -> A * S) (run2 : C -> T -> A * T) (ok : C -> S -> Prop) (same : A -> A -> Prop)
  (sim : S -> T -> Prop).
Hypothesis step : forall c s t, sim s t -> ok c s ->
  same (run1 c s).1 (run2 c t).1 /\ sim (run1 c s).2 (run2 c t).2.

Lemma session_refines cs s t : sim s t -> session_ok run1 ok cs s -> Forall2 same (session run1 cs s) (session run2 cs t).
Proof.
  revert s t. induction cs as [|c cs IH]; intros s t Hs Hc; [constructor|]. destruct Hc as [Hc Hcs].
  destruct (step _ _ _ Hs Hc) as [Ha Hs']. cbn. destruct (run1 c s) as [a s'], (run2 c t) as [a' t'].
  constructor; [done|]. by apply IH.
Qed.
End Refinement.
