(* ===== verification/SqlUserRepo.v ===== *)
(** The persistent user repository ([app/repositories/sqlalchemy_user_repository.py]),
    the posts that belong to users ([app/repositories/post_repository.py]) and the two
    tables they are stored in ([app/models/user.py], [app/models/post.py]).

    A table is a list of rows kept in the order of the primary key; a statement is a
    filter or a map over it.  The database's part is what the column declarations ask
    for: [email], [username] and [role] are not null, [email] and [username] are unique,
    a post refers to an existing user, identifiers come from a sequence; texts and numbers
    fit their columns.  A statement that breaks a constraint raises [IntegrityError], one
    with a value its column cannot hold another error of the driver, and neither changes
    a row.  Queries for several users are ordered by the primary key, but the one for
    all identifiers leaves the order open.  The view counters are an attribute of the class, shared by all its instances.

    The repository is compared with the in-memory one of [UserRepo]: as long as
    callers check uniqueness first, send no explicit null for a required column, stay
    within the columns, search for plain words and change the permissions only of users
    without a national identifier, the two give the same answers. *)

From S2P Require Import Prelude Sql UserRepo UserService.

Local Open Scope Z_scope.

(** ** Tables *)

Record sql_repo : Type := mkSqlRepo {
  s_rows : list UserEntity;
  s_seq : Z;
  s_posts : list PostEntity;
  s_post_seq : Z;
  s_views : gmap Z Z
}.

Definition sql_init : sql_repo := mkSqlRepo [] 0 [] 0 ∅.

Definition with_rows (rows : list UserEntity) (t : sql_repo) : sql_repo :=
  mkSqlRepo rows (s_seq t) (s_posts t) (s_post_seq t) (s_views t).

(** A new row goes to its place in the order of the primary key. *)
Fixpoint insert_row (m : UserEntity) (rows : list UserEntity) : list UserEntity :=
  match rows with
  | [] => [m]
  | n :: rows' => if u_id m <? u_id n then m :: rows else n :: insert_row m rows'
  end.

(** The column constraints of [UserModel] for a row beside the other rows. *)
Definition satisfies_constraints (others : list UserEntity) (m : UserEntity) : bool :=
  bool_decide (is_Some (u_email m)) && bool_decide (is_Some (u_username m)) &&
  forallb (fun o => negb (bool_decide (u_email o = u_email m)) && negb (bool_decide (u_username o = u_username m))) others.

(** The [String(n)] and [Integer] columns of [UserModel].  The national identifier is
    stored as a Fernet token, whose length the format fixes: 57 bytes and the text padded
    to blocks of 16, in base64. *)
Definition fits_optional (n : nat) (s : option string) : bool := match s with Some x => fits_column n x | None => true end.
Definition fernet_length (n : nat) : nat := (4 * ((57 + 16 * (n / 16 + 1) + 2) / 3))%nat.

Definition row_fits (m : UserEntity) : bool :=
  fits_optional 255 (u_email m) && fits_optional 50 (u_username m) && fits_column 255 (u_password_hash m) &&
  fits_optional 100 (u_full_name m) && fits_optional 20 (u_phone_number m) &&
  match u_age m with Some a => fits_integer a | None => true end && fits_column 20 (u_role m) &&
  fits_optional 100 (u_company_name m) &&
  match u_nid_number m with Some n => (fernet_length (String.length n) <=? 512)%nat | None => true end &&
  fits_integer (u_version m) && fits_integer (u_permissions m).

Definition other_rows (id : Z) (rows : list UserEntity) : list UserEntity := filter (fun m => u_id m <> id) rows.

Definition replace_row (m : UserEntity) (rows : list UserEntity) : list UserEntity :=
  (fun n => if decide (u_id n = u_id m) then m else n) <$> rows.

(** [flush] of a modified object. *)
Definition flush_row (m : UserEntity) (t : sql_repo) : result UserEntity * sql_repo :=
  if negb (row_fits m) then (Raise SQLAlchemyError, t)
  else if satisfies_constraints (other_rows (u_id m) (s_rows t)) m
  then (Ok m, with_rows (replace_row m (s_rows t)) t)
  else (Raise IntegrityError, t).

(** ** Operations on users *)

(** [_to_entity] copies every column; timestamps are stored as instants. *)
Definition to_entity (m : UserEntity) : UserEntity :=
  mkUser (u_id m) (u_email m) (u_username m) (u_password_hash m) (u_is_active m) (u_created_at m) (u_version m)
    (u_age m) (u_role m) (u_full_name m) (u_phone_number m) (u_bio m) (u_company_name m) (u_permissions m) (u_nid_number m).

(** [create]; the sequence moves on even when the insertion fails. *)
Definition sql_create (now : Z) (email username password_hash : string) (age : option Z) (role : string)
  (full_name phone_number bio company_name : option string) (permissions : option Z)
  (nid_number : option string) (t : sql_repo) : result UserEntity * sql_repo :=
  let perms := match permissions with
               | None => if bool_decide (role = "admin") then 63
                         else if bool_decide (role = "moderator") then 7
                         else if bool_decide (role = "guest") then 1
                         else 3
               | Some p => p
               end in
  let id := s_seq t + 1 in
  let model := mkUser id (Some email) (Some username) password_hash true now 1 age role full_name
                 phone_number bio company_name perms nid_number in
  if negb (row_fits model)
  then (Raise SQLAlchemyError, mkSqlRepo (s_rows t) id (s_posts t) (s_post_seq t) (s_views t))
  else if satisfies_constraints (s_rows t) model
  then (Ok (to_entity model), mkSqlRepo (insert_row model (s_rows t)) id (s_posts t) (s_post_seq t) (s_views t))
  else (Raise IntegrityError, mkSqlRepo (s_rows t) id (s_posts t) (s_post_seq t) (s_views t)).

Definition select_one (P : UserEntity -> bool) (t : sql_repo) : result (option UserEntity) :=
  scalar_one_or_none (filter (fun m => P m = true) (s_rows t)).

(** [get_by_id], [get_by_email], [get_by_username] *)
Definition sql_get_by_id (user_id : Z) (t : sql_repo) : result (option UserEntity) :=
  (let? model := select_one (fun m => bool_decide (u_id m = user_id)) t in Ok (to_entity <$> model))%py.
Definition sql_get_by_email (email : option string) (t : sql_repo) : result (option UserEntity) :=
  (let? model := select_one (fun m => bool_decide (u_email m = email)) t in Ok (to_entity <$> model))%py.
Definition sql_get_by_username (username : option string) (t : sql_repo) : result (option UserEntity) :=
  (let? model := select_one (fun m => bool_decide (u_username m = username)) t in Ok (to_entity <$> model))%py.

(** The shape that [update], [update_nid] share: select, assign, flush. *)
Definition modify_row (user_id : Z) (assign : UserEntity -> UserEntity) (t : sql_repo)
  : result (option UserEntity) * sql_repo :=
  match select_one (fun m => bool_decide (u_id m = user_id)) t with
  | Raise e => (Raise e, t)
  | Ok None => (Ok None, t)
  | Ok (Some model) =>
      match flush_row (assign model) t with
      | (Ok m, t') => (Ok (Some (to_entity m)), t')
      | (Raise e, t') => (Raise e, t')
      end
  end.

(** [update]: the keys of [update_data] replace the arguments, and only values that
    are not null are assigned. *)
Definition sql_update (user_id : Z) (email username : option string) (age : option Z) (role : option string)
  (full_name phone_number bio company_name : option string) (update_data : option UserPatch)
  (password_hash nid_number : option string) (t : sql_repo) : result (option UserEntity) * sql_repo :=
  let data := default empty_patch update_data in
  let email := data_get (p_email data) email in
  let username := data_get (p_username data) username in
  let age := data_get (p_age data) age in
  let role := data_get (p_role data) role in
  let full_name := data_get (p_full_name data) full_name in
  let phone_number := data_get (p_phone_number data) phone_number in
  let bio := data_get (p_bio data) bio in
  let company_name := data_get (p_company_name data) company_name in
  modify_row user_id
    (fun m =>
       assign_opt (fun v => set_nid_number (Some v)) nid_number
       (assign_opt (fun v => set_company_name (Some v)) company_name
       (assign_opt (fun v => set_bio (Some v)) bio
       (assign_opt (fun v => set_phone_number (Some v)) phone_number
       (assign_opt (fun v => set_full_name (Some v)) full_name
       (assign_opt set_role role
       (assign_opt (fun v => set_age (Some v)) age
       (assign_opt set_password_hash password_hash
       (assign_opt (fun v => set_username (Some v)) username
       (assign_opt (fun v => set_email (Some v)) email m)))))))))) t.

(** [update_nid] *)
Definition sql_update_nid (user_id : Z) (nid_number : option string) (t : sql_repo)
  : result (option UserEntity) * sql_repo :=
  modify_row user_id (fun m => let m := set_nid_number nid_number m in set_version (u_version m + 1) m) t.

(** The [SET] list of the conditional update: the dumped keys and the version. *)
Definition set_columns (data : UserPatch) (m : UserEntity) : UserEntity :=
  let m := assign_opt set_username (p_username data) (assign_opt set_email (p_email data) m) in
  set_version (u_version m + 1) (apply_patch data m).

(** [update_with_optimistic_lock]: one conditional statement. *)
Definition sql_update_with_optimistic_lock (user_id expected_version : Z) (data : UserPatch) (t : sql_repo)
  : result UserEntity * sql_repo :=
  match filter (fun m => u_id m = user_id /\ u_version m = expected_version) (s_rows t) with
  | [] => (Raise OptimisticLockException, t)
  | model :: _ =>
      if bool_decide (p_role data = Some None) then (Raise IntegrityError, t)
      else match flush_row (set_columns data model) t with
           | (Ok m, t') => (Ok (to_entity m), t')
           | (Raise e, t') => (Raise e, t')
           end
  end.

(** [update_permissions] *)
Definition sql_update_permissions (user_id permissions : Z) (t : sql_repo) : result (option UserEntity) * sql_repo :=
  modify_row user_id
    (fun m => mkUser (u_id m) (u_email m) (u_username m) (u_password_hash m) (u_is_active m) (u_created_at m)
                (u_version m + 1) (u_age m) (u_role m) (u_full_name m) (u_phone_number m) (u_bio m)
                (u_company_name m) permissions (u_nid_number m)) t.

(** [delete]; the relationship cascades to the user's posts. *)
Definition sql_delete (user_id : Z) (t : sql_repo) : result bool * sql_repo :=
  match select_one (fun m => bool_decide (u_id m = user_id)) t with
  | Raise e => (Raise e, t)
  | Ok None => (Ok false, t)
  | Ok (Some _) =>
      (Ok true, mkSqlRepo (other_rows user_id (s_rows t)) (s_seq t)
                  (filter (fun p => po_user_id p <> user_id) (s_posts t)) (s_post_seq t) (s_views t))
  end.

(** [lower(column) LIKE term]; a null column is not selected.  Both sides are in lower
    case, so it does not matter whether the database's [LIKE] looks at case. *)
Definition lower_like (term : list ascii) (column : option string) : bool :=
  match column with Some s => like term (chars (py_lower s)) | None => false end.

Definition sql_keeps (role search : option string) (is_active : option bool) (m : UserEntity) : bool :=
  match role with Some x => bool_decide (u_role m = x) | None => true end &&
  match is_active with Some b => Bool.eqb (u_is_active m) b | None => true end &&
  match search with
  | Some s =>
      if bool_decide (py_strip s = "") then true
      else let term := ("%"%char :: chars (py_lower (py_strip s)) ++ ["%"%char])%list in
           lower_like term (u_username m) || lower_like term (u_email m) || lower_like term (u_full_name m)
  | None => true
  end.

(** [list_all] *)
Definition sql_list_all (limit offset : Z) (role search : option string) (is_active : option bool) (t : sql_repo)
  : result (list UserEntity) :=
  (let? models := window_rows limit offset (filter (fun m => sql_keeps role search is_active m = true) (s_rows t)) in
   Ok (to_entity <$> models))%py.

(** [increment_views_batch], [get_views], [get_all_ids] *)
Fixpoint sql_increment_views_batch (views_map : list (Z * Z)) (t : sql_repo) : Z * sql_repo :=
  match views_map with
  | [] => (0, t)
  | (user_id, count) :: rest =>
      let t1 := mkSqlRepo (s_rows t) (s_seq t) (s_posts t) (s_post_seq t)
                  (<[user_id := default 0 (s_views t !! user_id) + count]> (s_views t)) in
      let '(n, t2) := sql_increment_views_batch rest t1 in (n + 1, t2)
  end.

Definition sql_get_views (user_id : Z) (t : sql_repo) : Z := default 0 (s_views t !! user_id).
Definition sql_get_all_ids (p : plan) (t : sql_repo) : list Z := arrange p (u_id <$> s_rows t).

(** [clear] empties the tables only of a file-based SQLite database. *)
Definition sql_clear (sqlite_file : bool) (t : sql_repo) : sql_repo :=
  if sqlite_file then mkSqlRepo [] (s_seq t) [] (s_post_seq t) ∅
  else mkSqlRepo (s_rows t) (s_seq t) (s_posts t) (s_post_seq t) ∅.

(** ** Posts *)

(** [_to_user_with_posts_entity]: the permissions and the national identifier of the
    row are not passed on, so the result has the defaults of the class. *)
Record UserWithPostsEntity : Type := mkUserWithPosts {
  uw_user : UserEntity;
  uw_posts : list (PostEntity * UserEntity)
}.

Definition to_user_with_posts_entity (t : sql_repo) (m : UserEntity) : UserWithPostsEntity :=
  let base := to_entity m in
  mkUserWithPosts
    (mkUser (u_id base) (u_email base) (u_username base) (u_password_hash base) (u_is_active base) (u_created_at base)
       (u_version base) (u_age base) (u_role base) (u_full_name base) (u_phone_number base) (u_bio base)
       (u_company_name base) 3 None)
    ((fun p => (p, base)) <$> filter (fun p => po_user_id p = u_id m) (s_posts t)).

Definition sql_get_user_with_posts (user_id : Z) (t : sql_repo) : result (option UserWithPostsEntity) :=
  (let? model := select_one (fun m => bool_decide (u_id m = user_id)) t in
   Ok (to_user_with_posts_entity t <$> model))%py.

Definition sql_list_users_with_posts (limit offset : Z) (t : sql_repo) : result (list UserWithPostsEntity) :=
  (let? models := window_rows limit offset (s_rows t) in Ok (to_user_with_posts_entity t <$> models))%py.

(** [SqlAlchemyPostRepository] *)
Definition sql_post_create (now : Z) (title content : string) (user_id : Z) (t : sql_repo)
  : result PostEntity * sql_repo :=
  let id := s_post_seq t + 1 in
  let model := mkPost id title content user_id now in
  if negb (fits_column 255 title)
  then (Raise SQLAlchemyError, mkSqlRepo (s_rows t) (s_seq t) (s_posts t) id (s_views t))
  else if bool_decide (user_id ∈ u_id <$> s_rows t)
  then (Ok model, mkSqlRepo (s_rows t) (s_seq t) (s_posts t ++ [model]) id (s_views t))
  else (Raise IntegrityError, mkSqlRepo (s_rows t) (s_seq t) (s_posts t) id (s_views t)).

Definition sql_post_get_by_id (post_id : Z) (t : sql_repo) : result (option PostEntity) :=
  scalar_one_or_none (filter (fun p => po_id p = post_id) (s_posts t)).

(** [get_post_with_author]: an outer join on the primary key of the users. *)
Definition sql_get_post_with_author (post_id : Z) (t : sql_repo) : result (option (PostEntity * option UserEntity)) :=
  (let? model := scalar_one_or_none (filter (fun p => po_id p = post_id) (s_posts t)) in
   Ok ((fun p => (p, to_entity <$> head (filter (fun m => u_id m = po_user_id p) (s_rows t)))) <$> model))%py.

(** ** The two repositories behind the protocol

    One call of [UserRepositoryProtocol], and its answer as the caller sees it:
    the attributes of the users returned. *)

Inductive call : Type :=
  | CCreate (now : Z) (email username password_hash : string) (age : option Z) (role : string)
      (full_name phone_number bio company_name : option string) (permissions : option Z) (nid_number : option string)
  | CGetById (user_id : Z)
  | CGetByEmail (email : string)
  | CGetByUsername (username : string)
  | CUpdate (user_id : Z) (email username : option string) (age : option Z) (role : option string)
      (full_name phone_number bio company_name : option string) (update_data : option UserPatch)
      (password_hash : option string)
  | CUpdateLocked (user_id expected_version : Z) (data : UserPatch)
  | CUpdateNid (user_id : Z) (nid_number : option string)
  | CUpdatePermissions (user_id permissions : Z)
  | CDelete (user_id : Z)
  | CListAll (limit offset : Z) (role search : option string) (is_active : option bool)
  | CIncrementViews (views_map : list (Z * Z))
  | CGetViews (user_id : Z)
  | CGetAllIds (rows : plan).

Inductive answer : Type :=
  | AUser (u : result (option UserEntity))
  | AUsers (us : result (list UserEntity))
  | ABool (b : result bool)
  | ANum (n : Z)
  | AIds (ids : list Z).

(** Reading the attributes of a reference. *)
Definition read_ref (r : user_repo) (l : option ref) : option UserEntity := l ≫= fun l => ur_heap r !! l.

Definition run_memory (c : call) (r : user_repo) : answer * user_repo :=
  match c with
  | CCreate now em un pw age role fn ph bio cn perms nid =>
      let '(l, r') := ur_create now em un pw age role fn ph bio cn perms nid r in (AUser (Ok (read_ref r' (Some l))), r')
  | CGetById id => (AUser (Ok (read_ref r (ur_get_by_id id r))), r)
  | CGetByEmail e => (AUser (Ok (read_ref r (ur_get_by_email (Some e) r))), r)
  | CGetByUsername n => (AUser (Ok (read_ref r (ur_get_by_username (Some n) r))), r)
  | CUpdate id em un age role fn ph bio cn data pw =>
      let '(l, r') := ur_update id em un age role fn ph bio cn data pw r in (AUser (Ok (read_ref r' l)), r')
  | CUpdateLocked id v data =>
      let '(l, r') := ur_update_with_optimistic_lock id v data r in
      (AUser (rbind l (fun l => Ok (read_ref r' (Some l)))), r')
  | CUpdateNid id nid => let '(l, r') := ur_update_nid id nid r in (AUser (Ok (read_ref r' l)), r')
  | CUpdatePermissions id p => let '(l, r') := ur_update_permissions id p r in (AUser (Ok (read_ref r' l)), r')
  | CDelete id => let '(b, r') := ur_delete id r in (ABool (Ok b), r')
  | CListAll limit offset role search active =>
      (AUsers (rbind (ur_list_all limit offset role search active r) (fun ls => Ok (omap (fun l => ur_heap r !! l) ls))), r)
  | CIncrementViews vs => let '(n, r') := ur_increment_views_batch vs r in (ANum n, r')
  | CGetViews id => (ANum (ur_get_views id r), r)
  | CGetAllIds _ => (AIds (ur_get_all_ids r), r)
  end.

Definition run_sql (c : call) (t : sql_repo) : answer * sql_repo :=
  match c with
  | CCreate now em un pw age role fn ph bio cn perms nid =>
      let '(u, t') := sql_create now em un pw age role fn ph bio cn perms nid t in
      (AUser (rbind u (fun u => Ok (Some u))), t')
  | CGetById id => (AUser (sql_get_by_id id t), t)
  | CGetByEmail e => (AUser (sql_get_by_email (Some e) t), t)
  | CGetByUsername n => (AUser (sql_get_by_username (Some n) t), t)
  | CUpdate id em un age role fn ph bio cn data pw =>
      let '(u, t') := sql_update id em un age role fn ph bio cn data pw None t in (AUser u, t')
  | CUpdateLocked id v data =>
      let '(u, t') := sql_update_with_optimistic_lock id v data t in
      (AUser (rbind u (fun u => Ok (Some u))), t')
  | CUpdateNid id nid => let '(u, t') := sql_update_nid id nid t in (AUser u, t')
  | CUpdatePermissions id p => let '(u, t') := sql_update_permissions id p t in (AUser u, t')
  | CDelete id => let '(b, t') := sql_delete id t in (ABool b, t')
  | CListAll limit offset role search active => (AUsers (sql_list_all limit offset role search active t), t)
  | CIncrementViews vs => let '(n, t') := sql_increment_views_batch vs t in (ANum n, t')
  | CGetViews id => (ANum (sql_get_views id t), t)
  | CGetAllIds p => (AIds (sql_get_all_ids p t), t)
  end.

(** A search term without spaces around it and without the wildcards of [LIKE]. *)
Definition plain_term (s : string) : Prop := py_strip s = s /\ not ("%"%char ∈ chars s) /\ not ("_"%char ∈ chars s).

(** What callers of the protocol see to before they call. *)
Definition obligations (c : call) (r : user_repo) : Prop :=
  match c with
  | CCreate _ em un _ _ _ _ _ _ _ _ _ => ur_get_by_email (Some em) r = None /\ ur_get_by_username (Some un) r = None
  | CUpdate id em un _ role _ _ _ _ data _ =>
      let data := default empty_patch data in
      (forall e, data_get (p_email data) em = Some e -> conflict (ur_get_by_email (Some e) r) id r = false) /\
      (forall n, data_get (p_username data) un = Some n -> conflict (ur_get_by_username (Some n) r) id r = false) /\
      (p_role data = Some None -> role = None)
  | CUpdateLocked id _ data =>
      (forall e, p_email data = Some e -> is_Some e /\ conflict (ur_get_by_email e r) id r = false) /\
      (forall n, p_username data = Some n -> is_Some n /\ conflict (ur_get_by_username n r) id r = false) /\
      p_role data <> Some None
  | CUpdatePermissions id _ => forall u, lookup_user r id = Some u -> u_nid_number u = None
  | CListAll limit offset _ search _ => 0 <= limit /\ 0 <= offset /\ forall s, search = Some s -> plain_term s
  | _ => True
  end.

(** And what they leave stored fits the columns. *)
Definition checked (c : call) (r : user_repo) : Prop :=
  obligations c r /\ forall id u, lookup_user (run_memory c r).2 id = Some u -> row_fits u = true.

(** ** Simulation *)

Definition named (u : UserEntity) : Prop := is_Some (u_email u) /\ is_Some (u_username u).

Record sim (r : user_repo) (t : sql_repo) : Prop := {
  sim_inv : ur_inv r;
  sim_rows : (lookup_user r <$> (ur_store r).*1) = Some <$> s_rows t;
  sim_named : Forall named (s_rows t);
  sim_seq : s_seq t = ur_current_id r;
  sim_views : s_views t = ur_views r
}.

Lemma to_entity_id m : to_entity m = m.
Proof. by destruct m. Qed.

Lemma to_entities_id (ms : list UserEntity) : to_entity <$> ms = ms.
Proof. rewrite <-(list_fmap_id ms) at 2. apply list_fmap_ext. intros _ m _. apply to_entity_id. Qed.

Lemma to_entity_opt (o : option UserEntity) : to_entity <$> o = o.
Proof. destruct o as [m|]; [|done]. by rewrite <-(to_entity_id m) at 2. Qed.

Lemma sim_init : sim ur_init sql_init.
Proof. constructor; try done; apply inv_init || constructor. Qed.

Lemma sim_elem r t u : sim r t -> u ∈ s_rows t <-> lookup_user r (u_id u) = Some u.
Proof.
  intros Hs. rewrite <-(list_elem_of_fmap_inj Some), <-(sim_rows _ _ Hs), list_elem_of_fmap. split.
  - intros (id & Hu & _). by destruct (lookup_user_id _ _ _ (sim_inv _ _ Hs) (eq_sym Hu)) as [-> _].
  - intros Hu. exists (u_id u). split; [done|]. destruct (lookup_user_ref _ _ _ Hu) as (l & Hl%dict_get_elem & _).
    apply list_elem_of_fmap. by exists (u_id u, l).
Qed.

Lemma sim_lookup r t id u : sim r t -> lookup_user r id = Some u -> u ∈ s_rows t /\ u_id u = id.
Proof.
  intros Hs Hu. destruct (lookup_user_id _ _ _ (sim_inv _ _ Hs) Hu) as [<- _]. split; [|done]. by apply (sim_elem r).
Qed.

Lemma fmap_Some_ids (g : Z -> option UserEntity) (ks : list Z) (rows : list UserEntity) : g <$> ks = Some <$> rows ->
  (forall k u, g k = Some u -> u_id u = k) -> u_id <$> rows = ks.
Proof.
  revert rows. induction ks as [|k ks IH]; intros [|u rows]; try done.
  rewrite !fmap_cons. intros [= Hu Hrest] Hid. rewrite (Hid _ _ Hu), IH; done.
Qed.

Lemma sim_ids r t : sim r t -> u_id <$> s_rows t = (ur_store r).*1.
Proof.
  intros Hs. apply (fmap_Some_ids _ _ _ (sim_rows _ _ Hs)). intros k u Hu.
  apply (lookup_user_id _ _ _ (sim_inv _ _ Hs) Hu).
Qed.

Lemma sim_NoDup r t : sim r t -> NoDup (s_rows t).
Proof. intros Hs. apply (NoDup_fmap_1 u_id). rewrite (sim_ids r t Hs). apply (inv_keys _ (sim_inv _ _ Hs)). Qed.

(** ** Statements under the simulation *)

Lemma dict_del_filter {V} (d : list (Z * V)) k : NoDup d.*1 -> (dict_del d k).*1 = filter (fun k' => k' <> k) d.*1.
Proof.
  induction d as [|[k' v] d IH]; [done|]. rewrite fmap_cons. intros [Hk Hd]%NoDup_cons. cbn [dict_del fst].
  destruct (decide (k' = k)) as [->|Hne].
  - rewrite filter_cons_False by auto. symmetry. apply filter_all, Forall_forall. intros x Hx <-. done.
  - rewrite fmap_cons, filter_cons_True by done. by rewrite IH.
Qed.

(** A query whose condition describes at most one stored user. *)
Lemma select_sim r t (P : UserEntity -> bool) o : sim r t ->
  (forall u, lookup_user r (u_id u) = Some u -> P u = true <-> o = Some u) ->
  (forall u, o = Some u -> lookup_user r (u_id u) = Some u) -> select_one P t = Ok o.
Proof.
  intros Hs HP Ho. unfold select_one. apply scalar_exact; [by eapply sim_NoDup|..].
  - intros u Hu%(sim_elem r); [|done]. by apply HP.
  - intros u Hu. by apply (sim_elem r), Ho.
Qed.

Lemma select_by_id r t id : sim r t -> select_one (fun m => bool_decide (u_id m = id)) t = Ok (lookup_user r id).
Proof.
  intros Hs. apply (select_sim r); [done|..].
  - intros u Hu. rewrite bool_decide_eq_true. split; [by intros <-|].
    intros Hid. by destruct (lookup_user_id _ _ _ (sim_inv _ _ Hs) Hid).
  - intros u Hu. by destruct (lookup_user_id _ _ _ (sim_inv _ _ Hs) Hu) as [-> _].
Qed.

Lemma read_by_id r id : read_ref r (dict_get (ur_store r) id) = lookup_user r id.
Proof. unfold read_ref, lookup_user. by destruct (dict_get (ur_store r) id). Qed.

Lemma read_by_index (r : user_repo) (idx : gmap (option string) Z) (attr : UserEntity -> option string) (k : option string) : ur_inv r -> index_exact idx attr (lookup_user r) -> forall u,
  lookup_user r (u_id u) = Some u ->
  attr u = k <-> read_ref r (match idx !! k with None => None | Some id => dict_get (ur_store r) id end) = Some u.
Proof.
  intros Hi Hx u Hu. split.
  - intros Hk. rewrite (proj2 (Hx k (u_id u))) by eauto. by rewrite read_by_id.
  - destruct (idx !! k) as [id|] eqn:E; [|done]. rewrite read_by_id. apply Hx in E as (v & Hv & <-). congruence.
Qed.

Lemma read_by_index_stored (r : user_repo) (idx : gmap (option string) Z) (k : option string) (u : UserEntity) : ur_inv r ->
  read_ref r (match idx !! k with None => None | Some id => dict_get (ur_store r) id end) = Some u ->
  lookup_user r (u_id u) = Some u.
Proof.
  intros Hi. destruct (idx !! k) as [id|]; [|done]. rewrite read_by_id. intros Hu.
  by destruct (lookup_user_id _ _ _ Hi Hu) as [-> _].
Qed.

Lemma select_by_email r t k : sim r t ->
  select_one (fun m => bool_decide (u_email m = k)) t = Ok (read_ref r (ur_get_by_email k r)).
Proof.
  intros Hs. apply (select_sim r); [done|..]; intros u Hu.
  - rewrite bool_decide_eq_true. by apply (read_by_index _ _ u_email), Hu; [apply sim_inv in Hs|apply inv_email, (sim_inv _ _ Hs)].
  - by eapply read_by_index_stored; [eapply sim_inv|].
Qed.

Lemma select_by_username r t k : sim r t ->
  select_one (fun m => bool_decide (u_username m = k)) t = Ok (read_ref r (ur_get_by_username k r)).
Proof.
  intros Hs. apply (select_sim r); [done|..]; intros u Hu.
  - rewrite bool_decide_eq_true. by apply (read_by_index _ _ u_username), Hu; [apply sim_inv in Hs|apply inv_username, (sim_inv _ _ Hs)].
  - by eapply read_by_index_stored; [eapply sim_inv|].
Qed.

(** A row whose keys are its own or free meets the constraints. *)
Lemma constraints_hold r t os id u : sim r t -> named u ->
  (forall o, o ∈ os -> o ∈ s_rows t /\ u_id o <> id) ->
  key_free (ur_email_index r) (u_email u) id -> key_free (ur_username_index r) (u_username u) id ->
  satisfies_constraints os u = true.
Proof.
  intros Hs [Hem Hun] Hos He Hn. unfold satisfies_constraints.
  rewrite !bool_decide_true by done. cbn. apply forallb_forall. intros o Ho%list_elem_of_In%Hos.
  destruct Ho as [Ho Hne]. apply (sim_elem r) in Ho; [|done].
  apply andb_true_iff; split; apply negb_true_iff, bool_decide_eq_false; intros E.
  - assert (ur_email_index r !! u_email u = Some (u_id o)) as Hk by (apply (inv_email _ (sim_inv _ _ Hs)); eauto).
    destruct He; congruence.
  - assert (ur_username_index r !! u_username u = Some (u_id o)) as Hk by (apply (inv_username _ (sim_inv _ _ Hs)); eauto).
    destruct Hn; congruence.
Qed.

(** ** Each call preserves the simulation and answers alike *)

(** The same answer; the order of all identifiers is left open. *)
Inductive same_reply : answer -> answer -> Prop :=
  | SameReply a : same_reply a a
  | SameIds ids ids' : ids ≡ₚ ids' -> same_reply (AIds ids) (AIds ids').

Definition agrees (c : call) (r : user_repo) (t : sql_repo) : Prop :=
  same_reply (run_memory c r).1 (run_sql c t).1 /\ sim (run_memory c r).2 (run_sql c t).2.

(** One user changed in place. *)
Lemma sim_update r r' t id u' : sim r t -> ur_inv r' ->
  (ur_store r').*1 = (ur_store r).*1 -> ur_current_id r' = ur_current_id r -> ur_views r' = ur_views r ->
  u_id u' = id -> named u' ->
  (forall id', lookup_user r' id' = if decide (id = id') then Some u' else lookup_user r id') ->
  sim r' (with_rows (replace_row u' (s_rows t)) t).
Proof.
  intros Hs Hi Hk Hc Hv Hid Hn Hl. pose proof (sim_ids r t Hs) as Hids. pose proof (sim_rows r t Hs) as Hrows.
  constructor; cbn; [done| |..].
  - rewrite Hk, <-Hids. rewrite <-Hids in Hrows. unfold replace_row. rewrite <-!list_fmap_compose in *.
    apply list_fmap_ext. intros i m Hm. cbn. rewrite Hl, Hid.
    destruct (decide (id = u_id m)); [by rewrite decide_True|rewrite decide_False by congruence].
    apply (f_equal (.!! i)) in Hrows. rewrite !list_lookup_fmap, Hm in Hrows. by injection Hrows.
  - apply Forall_fmap, (Forall_impl _ _ _ (sim_named _ _ Hs)). intros m Hm. cbn. by case_decide.
  - by rewrite Hc, (sim_seq _ _ Hs).
  - by rewrite Hv, (sim_views _ _ Hs).
Qed.

Lemma flush_sim r t id u' : sim r t -> u_id u' = id -> named u' -> row_fits u' = true ->
  key_free (ur_email_index r) (u_email u') id -> key_free (ur_username_index r) (u_username u') id ->
  flush_row u' t = (Ok u', with_rows (replace_row u' (s_rows t)) t).
Proof.
  intros Hs Hid Hn Hf He Hu. unfold flush_row. rewrite Hf. cbn [negb]. rewrite (constraints_hold r t _ id u'); try done.
  intros o [Ho1 Ho2]%list_elem_of_filter. by rewrite <-Hid.
Qed.

Lemma own_keys r t id u : sim r t -> lookup_user r id = Some u ->
  key_free (ur_email_index r) (u_email u) id /\ key_free (ur_username_index r) (u_username u) id.
Proof.
  intros Hs Hu. pose proof (sim_inv _ _ Hs) as Hi.
  split; right; [apply (inv_email _ Hi)|apply (inv_username _ Hi)]; eauto.
Qed.

Lemma sim_name r t id u : sim r t -> lookup_user r id = Some u -> named u.
Proof.
  intros Hs Hu. destruct (sim_lookup _ _ _ _ Hs Hu) as [Hin _].
  exact (proj1 (Forall_forall _ _) (sim_named _ _ Hs) u Hin).
Qed.

(** [update], [update_nid] and [update_permissions], whose statements have one shape. *)
Lemma modify_sim r r' t id u f : sim r t -> lookup_user r id = Some u -> ur_inv r' ->
  (ur_store r').*1 = (ur_store r).*1 -> ur_current_id r' = ur_current_id r -> ur_views r' = ur_views r ->
  u_id (f u) = id -> named (f u) -> row_fits (f u) = true ->
  key_free (ur_email_index r) (u_email (f u)) id -> key_free (ur_username_index r) (u_username (f u)) id ->
  (forall id', lookup_user r' id' = if decide (id = id') then Some (f u) else lookup_user r id') ->
  (modify_row id f t).1 = Ok (lookup_user r' id) /\ sim r' (modify_row id f t).2.
Proof.
  intros Hs Hu Hi' Hk Hc Hv Hid Hn Hf He Hnm Hl. unfold modify_row. rewrite (select_by_id r), Hu by done.
  rewrite (flush_sim r t id) by done. cbn. rewrite to_entity_id, Hl, decide_True by done.
  split; [done|]. by eapply sim_update.
Qed.

Lemma reindex_shape em un l r : ur_store (reindex em un l r) = ur_store r /\ ur_views (reindex em un l r) = ur_views r.
Proof. unfold reindex, reindex_email, reindex_username. destruct em, un; repeat (case_match; cbn); done. Qed.

Lemma update_shape id em un age role fn ph bio cn pw r :
  let r' := (ur_update_fields id em un age role fn ph bio cn pw r).2 in
  ur_store r' = ur_store r /\ ur_views r' = ur_views r.
Proof.
  unfold ur_update_fields. destruct (dict_get _ _) as [l|]; [|done]. cbn.
  pose proof (reindex_shape (Some <$> em) (Some <$> un) l r) as H. unfold reindex in H. by destruct em, un.
Qed.

Lemma locked_shape id v data r :
  let r' := (ur_update_with_optimistic_lock id v data r).2 in
  ur_store r' = ur_store r /\ ur_views r' = ur_views r.
Proof.
  unfold ur_update_with_optimistic_lock. destruct (dict_get _ _) as [l|]; [|done]. destruct (ur_heap r !! l); [|done].
  case_match; [done|]. cbn. exact (reindex_shape (p_email data) (p_username data) l r).
Qed.

Lemma agrees_get r t : sim r t ->
  (forall id, agrees (CGetById id) r t) /\ (forall e, agrees (CGetByEmail e) r t) /\
  (forall n, agrees (CGetByUsername n) r t) /\ (forall id, agrees (CGetViews id) r t) /\ (forall p, agrees (CGetAllIds p) r t).
Proof.
  intros Hs. unfold agrees. cbn. unfold sql_get_by_id, sql_get_by_email, sql_get_by_username.
  split; [|split; [|split; [|split]]].
  - intros id. rewrite (select_by_id r) by done. cbn. unfold ur_get_by_id. rewrite read_by_id, to_entity_opt. by split; [constructor|].
  - intros e. rewrite (select_by_email r) by done. cbn. rewrite to_entity_opt. by split; [constructor|].
  - intros n. rewrite (select_by_username r) by done. cbn. rewrite to_entity_opt. by split; [constructor|].
  - intros id. unfold ur_get_views, sql_get_views. rewrite (sim_views _ _ Hs). by split; [constructor|].
  - intros p. unfold ur_get_all_ids, sql_get_all_ids. split; [|done]. apply SameIds. by rewrite arrange_perm, (sim_ids r t).
Qed.

Lemma insert_row_last m rows : Forall (fun n => u_id n <= u_id m) rows -> insert_row m rows = rows ++ [m].
Proof.
  induction 1 as [|n rows Hn _ IH]; [done|]. cbn. rewrite (proj2 (Z.ltb_ge _ _) Hn). by rewrite IH.
Qed.

Lemma sim_bounded r t u : sim r t -> u ∈ s_rows t -> u_id u <= ur_current_id r.
Proof.
  intros Hs Hu%(sim_elem r); [|done]. destruct (lookup_user_id _ _ _ (sim_inv _ _ Hs) Hu) as [_ ?]. lia.
Qed.

Lemma agrees_create r t now em un pw age role fn ph bio cn perms nid : sim r t ->
  checked (CCreate now em un pw age role fn ph bio cn perms nid) r ->
  agrees (CCreate now em un pw age role fn ph bio cn perms nid) r t.
Proof.
  intros Hs [[He Hn] Hfit]. pose proof (sim_inv _ _ Hs) as Hi.
  pose proof (create_spec r now em un pw age role fn ph bio cn perms nid Hi He Hn) as H.
  unfold agrees, run_memory, run_sql, sql_create. rewrite (sim_seq _ _ Hs).
  set (model := mkUser _ _ _ _ _ _ _ _ _ _ _ _ _ _ _).
  assert (model = created_entity (ur_current_id r + 1) now em un pw age role fn ph bio cn perms nid) as Em
    by by destruct perms.
  assert (row_fits model = true) as ->.
  { rewrite Em. apply (Hfit (ur_current_id r + 1)). unfold run_memory. clear -H.
    destruct (ur_create _ _ _ _ _ _ _ _ _ _ _ _ r) as [l r']. destruct H as (_ & _ & _ & _ & H). cbn. by rewrite H, decide_True. }
  cbn [negb]. assert (satisfies_constraints (s_rows t) model = true) as ->.
  { apply (constraints_hold r t _ (ur_current_id r + 1)); [done|by split; eexists| |left..].
    - intros o Ho. split; [done|]. pose proof (sim_bounded _ _ _ Hs Ho). lia.
    - by apply (index_free _ _ _ _ Hi (inv_email _ Hi)).
    - by apply (index_free _ _ _ _ Hi (inv_username _ Hi)). }
  destruct (ur_create _ _ _ _ _ _ _ _ _ _ _ _ r) as [l r'] eqn:E. cbn zeta in H.
  destruct H as (H1 & H2 & H3 & H4 & H5). cbn [fst snd rbind].
  assert (read_ref r' (Some l) = Some model) as ->.
  { rewrite <-H3, read_by_id, H5, decide_True by done. by rewrite Em. }
  rewrite to_entity_id. split; [constructor|].
  assert (ur_store r' = ur_store r ++ [(ur_current_id r + 1, l)]) as Hst.
  { replace r' with (ur_create now em un pw age role fn ph bio cn perms nid r).2 by by rewrite E.
    assert (l = ur_next r) as -> by by injection E. cbn. apply dict_set_keys_new.
    apply dict_get_None. by apply dict_get_lookup. }
  assert (insert_row model (s_rows t) = s_rows t ++ [model]) as Hins.
  { apply insert_row_last, Forall_forall. intros u Hu. pose proof (sim_bounded _ _ _ Hs Hu). cbn. lia. }
  constructor; cbn; rewrite ?Hins.
  - done.
  - rewrite Hst, !fmap_app. cbn. rewrite (list_fmap_ext _ (lookup_user r)), (sim_rows _ _ Hs).
    + by rewrite H5, decide_True, Em by done.
    + intros i id Hid. rewrite H5, decide_False; [done|]. intros <-.
      apply list_elem_of_lookup_2 in Hid. apply dict_get_lookup, dict_get_None in H4; done.
  - apply Forall_app. split; [apply (sim_named _ _ Hs)|]. constructor; [by split; eexists|constructor].
  - by rewrite H2.
  - rewrite (sim_views _ _ Hs). replace r' with (ur_create now em un pw age role fn ph bio cn perms nid r).2 by by rewrite E.
    done.
Qed.

(** A changed key is free once the caller has checked it, and an unchanged one is
    the user's own. *)
Lemma changed_keys r t id u em un : sim r t -> lookup_user r id = Some u ->
  (forall e, em = Some e -> conflict (ur_get_by_email e r) id r = false) ->
  (forall n, un = Some n -> conflict (ur_get_by_username n r) id r = false) ->
  key_free (ur_email_index r) (default (u_email u) em) id /\ key_free (ur_username_index r) (default (u_username u) un) id.
Proof.
  intros Hs Hu He Hn. destruct (own_keys r t id u Hs Hu). pose proof (sim_inv _ _ Hs).
  split; [destruct em|destruct un]; cbn; auto using email_no_conflict, username_no_conflict.
Qed.

(** With the keys of [update_data] put in place of the arguments. *)
Lemma update_with_data id em un age role fn ph bio cn data pw r : let d := default empty_patch data in
  (p_role d = Some None -> role = None) ->
  ur_update id em un age role fn ph bio cn data pw r =
  ur_update_fields id (data_get (p_email d) em) (data_get (p_username d) un) (data_get (p_age d) age) (data_get (p_role d) role)
    (data_get (p_full_name d) fn) (data_get (p_phone_number d) ph) (data_get (p_bio d) bio) (data_get (p_company_name d) cn) pw r.
Proof.
  unfold ur_update. destruct data as [d|]; [|done]. cbn. intros Hr. f_equal.
  destruct (p_role d) as [[v|]|]; [done|by rewrite Hr|by destruct role].
Qed.

Lemma agrees_update r t id em un age role fn ph bio cn data pw : sim r t ->
  checked (CUpdate id em un age role fn ph bio cn data pw) r -> agrees (CUpdate id em un age role fn ph bio cn data pw) r t.
Proof.
  intros Hs [(He & Hn & Hr) Hfit]. pose proof (sim_inv _ _ Hs) as Hi. unfold agrees, run_memory, run_sql, sql_update in *.
  rewrite update_with_data in Hfit |- * by done. set (d := default empty_patch data) in *.
  revert He Hn Hfit. generalize (data_get (p_email d) em) (data_get (p_username d) un) (data_get (p_age d) age)
    (data_get (p_role d) role) (data_get (p_full_name d) fn) (data_get (p_phone_number d) ph) (data_get (p_bio d) bio)
    (data_get (p_company_name d) cn). clear Hr d em un age role fn ph bio cn data. intros em un age role fn ph bio cn He Hn Hfit.
  set (f := fun m : UserEntity => _).
  destruct (lookup_user r id) as [u|] eqn:Hu.
  2: { unfold ur_update_fields, modify_row. rewrite (select_by_id r), Hu by done.
       apply dict_get_lookup in Hu; [|done]. rewrite Hu. by split; [constructor|]. }
  pose proof (update_fields_spec r id u em un age role fn ph bio cn pw Hi Hu He Hn) as H.
  pose proof (update_shape id em un age role fn ph bio cn pw r) as [Hst Hv].
  assert (f u = updated_entity em un age role fn ph bio cn pw u) as Hf.
  { destruct u. by destruct em, un, age, role, fn, ph, bio, cn, pw. }
  destruct (ur_update_fields _ _ _ _ _ _ _ _ _ _ r) as [res r']. destruct H as (H1 & H2 & (l & -> & _ & Hl) & H4).
  destruct (sim_name _ _ _ _ Hs Hu) as [Hn1 Hn2].
  destruct (changed_keys r t id u (Some <$> em) (Some <$> un) Hs Hu) as [K1 K2].
  { intros e. destruct em; [|done]. cbn. intros [= <-]. auto. }
  { intros n. destruct un; [|done]. cbn. intros [= <-]. auto. }
  destruct (modify_sim r r' t id u f Hs Hu) as [A B]; [done|cbn in Hst; by rewrite Hst|done|done| | | | | |by rewrite Hf|].
  - rewrite Hf. apply (lookup_user_id _ _ _ Hi Hu).
  - rewrite Hf. split; cbn; by destruct em, un.
  - rewrite Hf. apply (Hfit id). change (lookup_user r' id = Some (updated_entity em un age role fn ph bio cn pw u)). by rewrite H4, decide_True.
  - rewrite Hf. cbn. by destruct em.
  - rewrite Hf. cbn. by destruct un.
  - destruct (modify_row id f t) as [a t']. cbn [fst snd] in *. subst a.
    rewrite <-Hl, read_by_id. by split; [constructor|].
Qed.

Lemma agrees_nid r t id nid : sim r t -> checked (CUpdateNid id nid) r -> agrees (CUpdateNid id nid) r t.
Proof.
  intros Hs [_ Hfit]. pose proof (sim_inv _ _ Hs) as Hi. unfold agrees, run_memory, run_sql, sql_update_nid in *.
  set (f := fun m : UserEntity => _). destruct (lookup_user r id) as [u|] eqn:Hu.
  2: { unfold ur_update_nid, modify_row. rewrite (select_by_id r), Hu by done.
       apply dict_get_lookup in Hu; [|done]. rewrite Hu. by split; [constructor|]. }
  pose proof (nid_spec r id u nid Hi Hu) as H. destruct (own_keys r t id u Hs Hu) as [K1 K2].
  assert (ur_store (ur_update_nid id nid r).2 = ur_store r /\ ur_views (ur_update_nid id nid r).2 = ur_views r) as [Hst Hv].
  { unfold ur_update_nid. by destruct (dict_get _ _). }
  destruct (ur_update_nid id nid r) as [res r']. destruct H as (H1 & H2 & (l & -> & Hl) & H4).
  cbn [fst snd] in *.
  destruct (modify_sim r r' t id u f Hs Hu) as [A B]; try done; [by rewrite Hst|apply (lookup_user_id _ _ _ Hi Hu)
    |by destruct (sim_name _ _ _ _ Hs Hu)|apply (Hfit id); by rewrite H4, decide_True|].
  destruct (modify_row id f t) as [a t']. cbn [fst snd] in *. subst a.
  rewrite <-Hl, read_by_id. by split; [constructor|].
Qed.

Lemma agrees_permissions r t id p : sim r t -> checked (CUpdatePermissions id p) r -> agrees (CUpdatePermissions id p) r t.
Proof.
  intros Hs [Hnid Hfit]. pose proof (sim_inv _ _ Hs) as Hi. unfold agrees, run_memory, run_sql, sql_update_permissions in *.
  set (f := fun m : UserEntity => _). destruct (lookup_user r id) as [u|] eqn:Hu.
  2: { unfold ur_update_permissions, modify_row. rewrite (select_by_id r), Hu by done.
       apply dict_get_lookup in Hu; [|done]. rewrite Hu. by split; [constructor|]. }
  assert (f u = with_permissions p u) as Hf by (unfold f, with_permissions; cbn in Hnid; by rewrite (Hnid u Hu)).
  pose proof (permissions_spec r id u p Hi Hu) as H. destruct (own_keys r t id u Hs Hu) as [K1 K2].
  assert ((ur_store (ur_update_permissions id p r).2).*1 = (ur_store r).*1 /\ ur_views (ur_update_permissions id p r).2 = ur_views r) as [Hst Hv].
  { unfold ur_update_permissions. destruct (lookup_user_ref _ _ _ Hu) as (l & E & Hheap). rewrite E, Hheap. cbn. split; [|done].
    apply dict_set_keys_in. apply list_elem_of_fmap. exists (id, l). split; [done|]. by apply dict_get_elem. }
  destruct (ur_update_permissions id p r) as [res r']. destruct H as (H1 & H2 & (l & -> & Hl & _) & H4).
  cbn [fst snd] in *.
  destruct (modify_sim r r' t id u f Hs Hu) as [A B]; try done; [apply (lookup_user_id _ _ _ Hi Hu)
    |by destruct (sim_name _ _ _ _ Hs Hu)|apply (Hfit id); by rewrite H4, decide_True, Hf|by rewrite Hf|].
  destruct (modify_row id f t) as [a t']. cbn [fst snd] in *. subst a.
  rewrite <-Hl, read_by_id. by split; [constructor|].
Qed.

Lemma select_locked r t id v : sim r t ->
  filter (fun m => u_id m = id /\ u_version m = v) (s_rows t) =
  match lookup_user r id with Some u => if decide (u_version u = v) then [u] else [] | None => [] end.
Proof.
  intros Hs. pose proof (sim_inv _ _ Hs) as Hi.
  assert (forall u, u ∈ s_rows t -> u_id u = id -> lookup_user r id = Some u) as Hrow.
  { intros u Hin Hid. apply (sim_elem r) in Hin; [|done]. congruence. }
  destruct (lookup_user r id) as [u|] eqn:Hu; [case_decide as Hv|].
  - destruct (sim_lookup _ _ _ _ Hs Hu) as [Hin Hid]. apply filter_unique; [by eapply sim_NoDup|done|done|].
    intros w Hw [Hwid _]. by specialize (Hrow w Hw Hwid) as [= <-].
  - apply filter_none, Forall_forall. intros w Hw [Hwid Hwv]. by specialize (Hrow w Hw Hwid) as [= <-].
  - apply filter_none, Forall_forall. intros w Hw [Hwid _]. by specialize (Hrow w Hw Hwid).
Qed.

Lemma agrees_locked r t id v data : sim r t -> checked (CUpdateLocked id v data) r ->
  agrees (CUpdateLocked id v data) r t.
Proof.
  intros Hs [(He & Hn & Hrole) Hfit]. pose proof (sim_inv _ _ Hs) as Hi.
  unfold agrees, run_memory, run_sql, sql_update_with_optimistic_lock in *. rewrite (select_locked r) by done.
  destruct (lookup_user r id) as [u|] eqn:Hu; [|rewrite optimistic_missing by done; by split; [constructor|]].
  case_decide as Hv; [subst v|rewrite (optimistic_stale _ _ u) by done; by split; [constructor|]].
  rewrite bool_decide_false by done.
  assert (set_columns data u = patched_entity data u) as ->.
  { destruct u, data as [[] [] [] [[]|] [] [] [] []]; done. }
  destruct (sim_name _ _ _ _ Hs Hu) as [Hn1 Hn2].
  destruct (changed_keys r t id u (p_email data) (p_username data) Hs Hu) as [K1 K2];
    [intros e E; apply He, E|intros n E; apply Hn, E|].
  assert (named (patched_entity data u)) as Hnamed.
  { split; cbn; [destruct (p_email data) as [e|] eqn:E|destruct (p_username data) as [n|] eqn:E]; try done;
      [by apply He|by apply Hn]. }
  destruct (lookup_user_id _ _ _ Hi Hu) as [Hid _].
  pose proof (locked_shape id (u_version u) data r) as [Hst Hviews].
  pose proof (optimistic_spec r id u data Hi Hu) as H.
  destruct (ur_update_with_optimistic_lock _ _ _ r) as [res r'].
  destruct H as (H1 & H2 & (l & -> & Hl) & H4);
    [intros e E; by apply email_no_conflict, He|intros n E; by apply username_no_conflict, Hn|].
  cbn [fst snd rbind] in *. rewrite (flush_sim r t id) by (done || by apply (Hfit id); rewrite H4, decide_True). cbn [fst snd rbind].
  rewrite <-Hst in Hl. rewrite <-Hl, read_by_id, H4, decide_True, to_entity_id by done.
  split; [constructor|]. eapply sim_update; try done. by rewrite Hst.
Qed.

Lemma agrees_delete r t id : sim r t -> agrees (CDelete id) r t.
Proof.
  intros Hs. pose proof (sim_inv _ _ Hs) as Hi. unfold agrees, run_memory, run_sql, sql_delete.
  rewrite (select_by_id r) by done. destruct (lookup_user r id) as [u|] eqn:Hu.
  2: { unfold ur_delete. apply dict_get_lookup in Hu; [|done]. rewrite Hu. by split; [constructor|]. }
  pose proof (delete_spec r id u Hi Hu) as H.
  assert (ur_store (ur_delete id r).2 = dict_del (ur_store r) id /\ ur_views (ur_delete id r).2 = ur_views r) as [Hst Hv].
  { unfold ur_delete. destruct (lookup_user_ref _ _ _ Hu) as (l & -> & ->). done. }
  destruct (ur_delete id r) as [b r']. destruct H as (-> & H1 & H2 & H3). cbn [fst snd] in *. split; [constructor|].
  constructor; cbn; [done| |apply Forall_filter, (sim_named _ _ Hs)|by rewrite H2, (sim_seq _ _ Hs)|by rewrite Hv, (sim_views _ _ Hs)].
  assert ((ur_store r').*1 = filter (fun k => k <> id) (ur_store r).*1) as ->.
  { rewrite Hst. apply dict_del_filter, (inv_keys _ Hi). }
  rewrite <-(sim_ids r t Hs). pose proof (sim_rows _ _ Hs) as Hrows. rewrite <-(sim_ids r t Hs) in Hrows.
  unfold other_rows. clear -Hrows H3. induction (s_rows t) as [|m rows IH]; [done|].
  rewrite !fmap_cons in Hrows. injection Hrows as Hm Hrest. rewrite fmap_cons, !filter_cons.
  case_decide as D; [rewrite !fmap_cons, H3, decide_False by congruence; by rewrite Hm, IH|by apply IH].
Qed.

Lemma agrees_views r t vs : sim r t -> agrees (CIncrementViews vs) r t.
Proof.
  intros Hs. unfold agrees, run_memory, run_sql. revert r t Hs.
  induction vs as [|[id c] vs IH]; intros r t Hs; [by split; [constructor|]|]. cbn [ur_increment_views_batch sql_increment_views_batch].
  set (r1 := ur_set_views _ r). set (t1 := mkSqlRepo _ _ _ _ _).
  assert (sim r1 t1) as Hs1.
  { destruct Hs as [Hi ? ? ? Hv]. constructor; try done; [by destruct Hi|]. cbn. by rewrite Hv. }
  specialize (IH r1 t1 Hs1). destruct (ur_increment_views_batch vs r1) as [n r2], (sql_increment_views_batch vs t1) as [n' t2].
  cbn [fst snd] in *. destruct IH as [H ?]. inversion H. subst. by split; [constructor|].
Qed.

(** ** [LIKE] with plain words is a substring test *)

Lemma lower_ascii_idemp c : lower_ascii (lower_ascii c) = lower_ascii c.
Proof. destruct c as [[] [] [] [] [] [] [] []]; reflexivity. Qed.

Lemma lower_idemp s : lower_ascii <$> chars (py_lower s) = chars (py_lower s).
Proof.
  unfold py_lower. rewrite chars_of_chars, <-list_fmap_compose. apply list_fmap_ext. intros i c _. apply lower_ascii_idemp.
Qed.

Lemma lower_wildcard c : lower_ascii c = "%"%char \/ lower_ascii c = "_"%char -> lower_ascii c = c.
Proof. destruct c as [[] [] [] [] [] [] [] []]; vm_compute; naive_solver. Qed.

(** A plain word, lowered, matches exactly the lowered texts that contain it. *)
Lemma plain_lower_like w s : "%"%char ∉ chars w -> "_"%char ∉ chars w ->
  lower_like ("%"%char :: chars (py_lower w) ++ ["%"%char]) (Some s) = py_in (py_lower w) (py_lower s).
Proof.
  intros Hp Hu. assert (forall d, lower_ascii d = d -> d ∉ chars w -> (d = "%"%char \/ d = "_"%char) -> d ∉ chars (py_lower w)) as H.
  { intros d _ Hd Hw. unfold py_lower. rewrite chars_of_chars. intros (c & E & Hc)%list_elem_of_fmap.
    apply Hd. rewrite E, lower_wildcard by (rewrite <-E; tauto). done. }
  unfold lower_like, py_in. rewrite like_contains by (apply H; auto). by rewrite !lower_idemp.
Qed.

(** ** Listings *)

Lemma filters_agree role search is_active u : named u -> (forall s, search = Some s -> plain_term s) ->
  list_filter role (match search with Some s => if bool_decide (s = "") then None else Some (py_lower s) | None => None end)
    is_active u = Ok (sql_keeps role search is_active u).
Proof.
  intros [[em Hem] [un Hun]] Hs. unfold list_filter, sql_keeps.
  destruct role as [x|]; [destruct (bool_decide (u_role u = x)); [|done]|]; cbn [negb andb];
    (destruct is_active as [b|]; [destruct (Bool.eqb (u_is_active u) b); [|done]|]); cbn [negb andb];
    (destruct search as [s|]; [|done]); destruct (Hs s eq_refl) as (-> & Hp & Hu); case_bool_decide; try done;
    unfold match_attr; rewrite Hem, Hun; cbn [rbind]; rewrite !plain_lower_like by done;
    destruct (u_full_name u); by rewrite ?plain_lower_like.
Qed.

Lemma omap_rows (h : gmap ref UserEntity) (ls : list ref) (rows : list UserEntity) :
  ((h !!.) <$> ls) = Some <$> rows -> omap (h !!.) ls = rows.
Proof.
  revert rows. induction ls as [|l ls IH]; intros [|u rows]; try done. rewrite !fmap_cons. intros [= Hl Hrest].
  cbn. rewrite Hl. f_equal. by apply IH.
Qed.

Lemma refs_rows r t : sim r t -> ((ur_heap r !!.) <$> (ur_store r).*2) = Some <$> s_rows t.
Proof.
  intros Hs. rewrite <-(sim_rows _ _ Hs), <-!list_fmap_compose. apply list_fmap_ext. intros i [id l] Hil.
  cbn. unfold lookup_user. rewrite (dict_elem_get _ id l); [done|apply (inv_keys _ (sim_inv _ _ Hs))|].
  by eapply list_elem_of_lookup_2.
Qed.

Lemma filter_users_rows keep k (h : gmap ref UserEntity) (ls : list ref) (rows : list UserEntity) :
  ((h !!.) <$> ls) = Some <$> rows -> Forall (fun u => keep u = Ok (k u)) rows ->
  exists ls', filter_users keep h ls = Ok ls' /\ ((h !!.) <$> ls') = Some <$> filter (fun u => k u = true) rows.
Proof.
  intros Hl Hk. revert ls Hl. induction Hk as [|u rows Hu _ IH]; intros [|l ls]; try done; [eauto|].
  rewrite !fmap_cons. intros [= Hl Hrest]. destruct (IH ls Hrest) as (ls' & E & Hls').
  cbn [filter_users]. rewrite Hl, Hu, E. cbn [rbind]. rewrite filter_cons. destruct (k u) eqn:Ek.
  - rewrite decide_True by done. eexists; split; [done|]. by rewrite !fmap_cons, Hl, Hls'.
  - rewrite decide_False by done. eauto.
Qed.

Lemma slice_rows (h : gmap ref UserEntity) (ls : list ref) (rows : list UserEntity) limit offset :
  0 <= limit -> 0 <= offset -> ((h !!.) <$> ls) = Some <$> rows ->
  omap (h !!.) (py_slicez ls offset (offset + limit)) = take (Z.to_nat limit) (drop (Z.to_nat offset) rows).
Proof.
  intros Hlim Hoff Hl. apply omap_rows. rewrite py_slicez_nonneg by lia. unfold py_slice.
  rewrite Z2Nat.inj_add by lia. rewrite <-take_drop_commute. by rewrite fmap_take, fmap_drop, Hl, fmap_take, fmap_drop.
Qed.

Lemma agrees_list r t limit offset role search is_active : sim r t ->
  checked (CListAll limit offset role search is_active) r -> agrees (CListAll limit offset role search is_active) r t.
Proof.
  intros Hs [(Hlim & Hoff & Hplain) _]. split; [|done]. cbn [run_memory run_sql fst].
  match goal with |- same_reply (AUsers ?a) (AUsers ?b) => enough (a = b) as -> by constructor end.
  unfold ur_list_all, sql_list_all, window_rows.
  rewrite (proj2 (Z.ltb_ge _ _) Hlim), (proj2 (Z.ltb_ge _ _) Hoff). cbn [orb rbind]. rewrite to_entities_id.
  assert (Forall (fun u => list_filter role
    (match search with Some s => if bool_decide (s = "") then None else Some (py_lower s) | None => None end)
    is_active u = Ok (sql_keeps role search is_active u)) (s_rows t)) as Hk.
  { apply (Forall_impl _ _ _ (sim_named _ _ Hs)). intros u Hu. by apply filters_agree. }
  destruct (filter_users_rows _ _ _ _ _ (refs_rows r t Hs) Hk) as (ls' & E & Hls').
  assert (rbind (filter_users (list_filter role
      (match search with Some s => if bool_decide (s = "") then None else Some (py_lower s) | None => None end)
      is_active) (ur_heap r) (ur_store r).*2) (fun filtered => Ok (py_slicez filtered offset (offset + limit))) =
    Ok (py_slicez ls' offset (offset + limit))) as Hfull by by rewrite E.
  destruct role, search, is_active; try (rewrite Hfull; cbn [rbind]; by rewrite (slice_rows _ _ _ _ _ Hlim Hoff Hls')).
  cbn [rbind]. rewrite (slice_rows _ _ _ _ _ Hlim Hoff (refs_rows r t Hs)). by rewrite (filter_all _ (s_rows t)) by by apply Forall_true.
Qed.

Lemma checked_agrees c r t : sim r t -> checked c r -> agrees c r t.
Proof.
  intros Hs Hc. destruct (agrees_get r t Hs) as (H1 & H2 & H3 & H4 & H5).
  destruct c; [by apply agrees_create|apply H1|apply H2|apply H3|by apply agrees_update|by apply agrees_locked
    |by apply agrees_nid|by apply agrees_permissions|by apply agrees_delete|by apply agrees_list|by apply agrees_views|apply H4|apply H5].
Qed.

(** C12: the SQLAlchemy repository refines the in-memory one.  From empty stores, any
    sequence of calls of [UserRepositoryProtocol] whose callers check that new emails and
    usernames are not taken, null no required column, store only values that fit their columns, change the permissions only of users
    without a national identifier (the in-memory repository erases it), and list with a
    window that is not negative and search terms without wildcards, gets the same answers,
    call by call, from the tables as from the dictionaries: created identifiers, lookups,
    updates, stale versions, permissions, deletions, listings, view counts, and all the
    identifiers up to their order, which the query leaves open. *)
Theorem sql_refines_memory cs : session_ok run_memory checked cs ur_init ->
  Forall2 same_reply (session run_memory cs ur_init) (session run_sql cs sql_init).
Proof.
  intros Hc. apply (session_refines run_memory run_sql checked same_reply sim); [|apply sim_init|done].
  intros c r t Hs Hok. exact (checked_agrees c r t Hs Hok).
Qed.

Definition demo_session : list call :=
  [CCreate 5 "ann@x.io" "ann" "h1" None "user" None None None None None None;
   CCreate 7 "bob@x.io" "bob" "h2" (Some 30) "admin" (Some "Bob Stone") None None None None (Some "N-1");
   CUpdate 1 (Some "ann@y.io") None (Some 41) None None None None None None None;
   CUpdateLocked 2 1 (mkPatch None (Some (Some "rob")) None None None None None None);
   CUpdateLocked 2 1 empty_patch;
   CUpdatePermissions 1 7;
   CListAll 10 0 None (Some "ro") None;
   CDelete 1;
   CGetByEmail "ann@y.io";
   CGetAllIds plan_rev].

Lemma stored_fit r :
  forallb (fun '(_, l) => match ur_heap r !! l with Some u => row_fits u | None => true end) (ur_store r) = true ->
  forall id u, lookup_user r id = Some u -> row_fits u = true.
Proof.
  intros H id u Hu. destruct (lookup_user_ref _ _ _ Hu) as (l & Hl%dict_get_elem & Hh).
  rewrite forallb_forall in H. specialize (H (id, l) (proj1 (list_elem_of_In _ _) Hl)). cbn in H. by rewrite Hh in H.
Qed.

Lemma sql_refines_memory_witness :
  Forall2 same_reply (session run_memory demo_session ur_init) (session run_sql demo_session sql_init).
Proof.
  apply (sql_refines_memory demo_session). unfold demo_session. cbn [session_ok].
  repeat match goal with |- checked _ _ /\ _ => split end; try exact I;
    (split; [|apply stored_fit; vm_compute; reflexivity]); cbn [obligations].
  - split; reflexivity.
  - split; reflexivity.
  - split; [|split]; cbn; [intros e [= <-]; vm_compute; reflexivity|done|done].
  - split; [|split]; cbn; [done|intros n [= <-]; split; [by eexists|vm_compute; reflexivity]|done].
  - split; [|split]; done.
  - intros u Hu. vm_compute in Hu. injection Hu as <-. reflexivity.
  - split; [lia|]. split; [lia|]. intros q [= <-]. split; [vm_compute; reflexivity|]. split; cbn; set_solver.
  - exact I.
  - exact I.
  - exact I.
Defined.

(** ** Where the two repositories part *)

Definition two_users : sql_repo := (run_sql (CCreate 7 "b_b@x.io" "b_b" "h2" None "moderator" None None None None None (Some "N-1"))
  (run_sql (CCreate 5 "ann@x.io" "ann" "h1" None "user" None None None None None None) sql_init).2).2.
Definition two_users_memory : user_repo := (run_memory (CCreate 7 "b_b@x.io" "b_b" "h2" None "moderator" None None None None None (Some "N-1"))
  (run_memory (CCreate 5 "ann@x.io" "ann" "h1" None "user" None None None None None None) ur_init).2).2.

Definition ids_of (a : answer) : list Z := match a with AUsers (Ok us) => u_id <$> us | _ => [] end.

(** [%] and [_] of a search term are not escaped: the tables match them as wildcards,
    the dictionary as themselves.  The tables also trim the term. *)
Example search_wildcards_differ :
  ids_of (run_sql (CListAll 10 0 None (Some "_") None) two_users).1 = [1; 2] /\
  ids_of (run_memory (CListAll 10 0 None (Some "_") None) two_users_memory).1 = [2] /\
  ids_of (run_sql (CListAll 10 0 None (Some " ann ") None) two_users).1 = [1] /\
  ids_of (run_memory (CListAll 10 0 None (Some " ann ") None) two_users_memory).1 = [].
Proof. by vm_compute. Qed.

(** An explicit null in a versioned update is refused by the tables and stored by the
    dictionary; an update of the permissions keeps the national identifier in the
    tables and erases it in the dictionary. *)
Example required_columns_differ :
  let null_email := CUpdateLocked 1 1 (mkPatch (Some None) None None None None None None None) in
  (run_sql null_email two_users).1 = AUser (Raise IntegrityError) /\
  (exists u, (run_memory null_email two_users_memory).1 = AUser (Ok (Some u)) /\ u_email u = None) /\
  (exists u, (sql_update_permissions 2 7 two_users).1 = Ok (Some u) /\ u_nid_number u = Some "N-1") /\
  (exists u, read_ref (ur_update_permissions 2 7 two_users_memory).2 (ur_update_permissions 2 7 two_users_memory).1 = Some u /\
     u_nid_number u = None).
Proof. vm_compute. repeat split; eexists; by split. Qed.

(** A user loaded with the posts has the default permissions, whatever the row says. *)
Example posts_view_resets_permissions :
  (exists u, sql_get_by_id 2 two_users = Ok (Some u) /\ u_permissions u = 7) /\
  (exists w, sql_get_user_with_posts 2 two_users = Ok (Some w) /\ u_permissions (uw_user w) = 3 /\ u_nid_number (uw_user w) = None).
Proof. vm_compute. split; eexists; repeat split. Qed.

(** ** Posts and their authors *)

Definition posts_have_authors (t : sql_repo) : Prop := Forall (fun p => po_user_id p ∈ u_id <$> s_rows t) (s_posts t).

Lemma insert_row_ids m rows : u_id <$> insert_row m rows ≡ₚ u_id m :: (u_id <$> rows).
Proof.
  induction rows as [|n rows IH]; [done|]. cbn [insert_row]. case_match; [done|].
  rewrite !fmap_cons, IH. apply Permutation_swap.
Qed.

Lemma replace_row_ids m (rows : list UserEntity) : u_id <$> replace_row m rows = u_id <$> rows.
Proof.
  unfold replace_row. rewrite <-list_fmap_compose. apply list_fmap_ext. intros i n _. cbn. by case_decide.
Qed.

Lemma modify_row_ids id f t : u_id <$> s_rows (modify_row id f t).2 = u_id <$> s_rows t /\
  s_posts (modify_row id f t).2 = s_posts t.
Proof.
  unfold modify_row, flush_row. destruct (select_one _ t) as [[m|]|e]; [|done..].
  destruct (row_fits _); [|done]. cbn [negb]. destruct (satisfies_constraints _ _); [|done]. cbn. by rewrite replace_row_ids.
Qed.

Lemma locked_row_ids id v data t : u_id <$> s_rows (sql_update_with_optimistic_lock id v data t).2 = u_id <$> s_rows t /\
  s_posts (sql_update_with_optimistic_lock id v data t).2 = s_posts t.
Proof.
  unfold sql_update_with_optimistic_lock, flush_row. destruct (filter _ (s_rows t)) as [|m ms]; [done|].
  destruct (bool_decide _); [done|]. destruct (row_fits _); [|done]. cbn [negb]. destruct (satisfies_constraints _ _); [|done]. cbn. by rewrite replace_row_ids.
Qed.

Lemma views_keep_rows vs t : s_rows (sql_increment_views_batch vs t).2 = s_rows t /\
  s_posts (sql_increment_views_batch vs t).2 = s_posts t.
Proof.
  revert t. induction vs as [|[id c] vs IH]; intros t; [done|]. cbn [sql_increment_views_batch].
  set (t1 := mkSqlRepo _ _ _ _ _). specialize (IH t1). by destruct (sql_increment_views_batch vs t1).
Qed.

Lemma authors_weaken t t' : posts_have_authors t -> u_id <$> s_rows t ⊆ u_id <$> s_rows t' -> s_posts t' = s_posts t ->
  posts_have_authors t'.
Proof. intros H Hsub Hp. unfold posts_have_authors. rewrite Hp. apply (Forall_impl _ _ _ H). auto. Qed.

(** No call of the two repositories leaves a post without its author: posts are only
    added for users that exist, and go with them. *)
Theorem posts_keep_their_authors t : posts_have_authors t ->
  (forall c, posts_have_authors (run_sql c t).2) /\
  (forall id p, posts_have_authors (sql_update_permissions id p t).2) /\
  (forall now title content id, posts_have_authors (sql_post_create now title content id t).2).
Proof.
  intros H. split; [|split].
  - intros c. destruct c; try exact H; cbn [run_sql].
    + unfold sql_create. set (m := mkUser _ _ _ _ _ _ _ _ _ _ _ _ _ _ _). destruct (row_fits m); cbn [negb]; [|exact H]. destruct (satisfies_constraints _ m); cbn; [|exact H]. apply (authors_weaken t); [done| |done].
      cbn. intros id Hid. rewrite insert_row_ids. by right.
    + pose proof (modify_row_ids user_id) as Hm. unfold sql_update.
      match goal with |- context [modify_row ?i ?f t] => destruct (Hm f t) as [H1 H2]; destruct (modify_row i f t) end.
      cbn in *. apply (authors_weaken t); [done|by rewrite H1|done].
    + destruct (locked_row_ids user_id expected_version data t) as [H1 H2].
      destruct (sql_update_with_optimistic_lock _ _ _ t). cbn in *. apply (authors_weaken t); [done|by rewrite H1|done].
    + unfold sql_update_nid. match goal with |- context [modify_row ?i ?f t] =>
        destruct (modify_row_ids i f t) as [H1 H2]; destruct (modify_row i f t) end.
      cbn in *. apply (authors_weaken t); [done|by rewrite H1|done].
    + unfold sql_update_permissions. match goal with |- context [modify_row ?i ?f t] =>
        destruct (modify_row_ids i f t) as [H1 H2]; destruct (modify_row i f t) end.
      cbn in *. apply (authors_weaken t); [done|by rewrite H1|done].
    + unfold sql_delete. destruct (select_one _ t) as [[m|]|e]; [|done..]. cbn. unfold posts_have_authors. cbn.
      apply Forall_forall. intros p [Hp1 Hp2]%list_elem_of_filter.
      pose proof (proj1 (Forall_forall _ _) H p Hp2) as Hp. apply list_elem_of_fmap in Hp as (u & Hu & Hin).
      rewrite Hu in *. apply list_elem_of_fmap. exists u. split; [done|]. by apply list_elem_of_filter.
    + destruct (views_keep_rows views_map t) as [H1 H2]. destruct (sql_increment_views_batch _ t). cbn in *.
      apply (authors_weaken t); [done|by rewrite H1|done].
  - intros id p. unfold sql_update_permissions.
    match goal with |- context [modify_row ?i ?f t] => destruct (modify_row_ids i f t) as [H1 H2] end.
    apply (authors_weaken t); [done|by rewrite H1|done].
  - intros now title content id. unfold sql_post_create. destruct (fits_column 255 title); cbn [negb]; [|done]. case_bool_decide as D; cbn; [|done].
    unfold posts_have_authors. cbn. apply Forall_app. split; [exact H|]. by constructor; [|constructor].
Qed.
