(* ===== verification/SqlLedgerRepo.v ===== *)
(** The persistent ledger ([SqlAlchemyLedgerRepository] of
    [app/repositories/ledger_repository.py]) and its three tables
    ([app/models/ledger.py]).

    A table is the list of its rows; the order in which a query hands them out, where it
    has no [ORDER BY] or keys are equal, is a [plan] given with each call.  The database
    keeps what the column declarations ask for, as PostgreSQL does: primary keys,
    unique account numbers and references, foreign keys, the lengths of the [String]
    columns, and [Numeric(18, 4)] as an exact count of units of 0.0001 with at most 18
    digits.  A statement that breaks a declaration raises and leaves the tables alone.

    The in-memory repository of [Ledger] keeps indexes and never fails; this one asks
    the tables each time and sums in the database.  [ledger_sql_refines_memory] shows
    that callers cannot tell them apart, up to the order left open, as long as they respect
    the declarations, and
    [tables_consistent] that the tables stay consistent whatever callers do. *)

From S2P Require Import Prelude PyDecimal Sql Ledger.

Local Open Scope Z_scope.

(** ** Tables *)

(** [JournalEntryModel]: the header; the legs are rows of their own. *)
Record EntryRow : Type := mkEntryRow {
  er_id : Z;
  er_reference_id : string;
  er_description : string;
  er_posted_at : Z;
  er_is_flagged : bool
}.

Record sql_ledger : Type := mkSqlLedger {
  t_accounts : list LedgerAccountEntity;
  t_entries : list EntryRow;
  t_postings : list JournalPostingEntity
}.

Definition sql_ledger_empty : sql_ledger := mkSqlLedger [] [] [].

(** [Numeric(18, 4)] *)
Definition fits_numeric (d : decimal) : bool := Z.abs (scaled4 d) <? 10 ^ 18.

(** ** Rows and entities *)

(** [_account_to_entity] *)
Definition account_to_entity (m : LedgerAccountEntity) : LedgerAccountEntity :=
  mkAccount (acc_id m) (account_number m) (acc_name m) (account_type m) (acc_currency m) (is_active m) (acc_created_at m).

(** What the column keeps of a leg's amount: four places. *)
Definition store_posting (p : JournalPostingEntity) : JournalPostingEntity :=
  mkPostingEntity (jp_id p) (jp_journal_entry_id p) (jp_account_id p) (d4 (scaled4 (jp_amount p))) (jp_direction p)
    (jp_created_at p).

(** [_posting_to_entity] *)
Definition posting_to_entity (m : JournalPostingEntity) : JournalPostingEntity :=
  mkPostingEntity (jp_id m) (jp_journal_entry_id m) (jp_account_id m) (jp_amount m) (jp_direction m) (jp_created_at m).

(** [_entry_to_entity] of a header whose legs [selectinload] has fetched. *)
Definition entry_to_entity (p : plan) (t : sql_ledger) (m : EntryRow) : JournalEntryEntity :=
  mkEntry (er_id m) (er_reference_id m) (er_description m) (er_posted_at m)
    (posting_to_entity <$> arrange p (filter (fun x => jp_journal_entry_id x = er_id m) (t_postings t))) (er_is_flagged m).

(** ** Operations *)

(** [create_account] *)
Definition sqll_create_account (account_uuid now : Z) (num name : string) (ty : AccountType) (cur : string)
  (t : sql_ledger) : result LedgerAccountEntity * sql_ledger :=
  let model := mkAccount account_uuid num name ty (py_upper cur) true now in
  if negb (fits_column 64 num && fits_column 128 name && fits_column 3 (py_upper cur)) then (Raise SQLAlchemyError, t)
  else if existsb (fun a => bool_decide (acc_id a = account_uuid) || bool_decide (account_number a = num)) (t_accounts t)
  then (Raise IntegrityError, t)
  else (Ok (account_to_entity model), mkSqlLedger (t_accounts t ++ [model]) (t_entries t) (t_postings t)).

(** [get_account_by_id], [get_account_by_number], [list_accounts] *)
Definition sqll_get_account_by_id (account_id : Z) (t : sql_ledger) : result (option LedgerAccountEntity) :=
  (let? model := scalar_one_or_none (filter (fun a => acc_id a = account_id) (t_accounts t)) in
   Ok (account_to_entity <$> model))%py.

Definition sqll_get_account_by_number (num : string) (t : sql_ledger) : result (option LedgerAccountEntity) :=
  (let? model := scalar_one_or_none (filter (fun a => account_number a = num) (t_accounts t)) in
   Ok (account_to_entity <$> model))%py.

Definition newest_first (a b : LedgerAccountEntity) : bool := acc_created_at b <=? acc_created_at a.

Definition sqll_list_accounts (p : plan) (limit offset : Z) (t : sql_ledger) : result (list LedgerAccountEntity) :=
  (let? models := window_rows limit offset (order_by newest_first p (t_accounts t)) in
   Ok (account_to_entity <$> models))%py.

(** [get_journal_entry_by_reference], [get_journal_entries_by_references],
    [get_journal_entry_by_id] *)
Definition sqll_get_journal_entry_by_reference (p : plan) (ref : string) (t : sql_ledger) : result (option JournalEntryEntity) :=
  (let? model := scalar_one_or_none (filter (fun e => er_reference_id e = ref) (t_entries t)) in
   Ok (entry_to_entity p t <$> model))%py.

Definition sqll_get_journal_entries_by_references (p : plan) (refs : list string) (t : sql_ledger)
  : list JournalEntryEntity :=
  match refs with
  | [] => []
  | _ => entry_to_entity p t <$> arrange p (filter (fun e => er_reference_id e ∈ refs) (t_entries t))
  end.

Definition sqll_get_journal_entry_by_id (p : plan) (entry_id : Z) (t : sql_ledger) : result (option JournalEntryEntity) :=
  (let? model := scalar_one_or_none (filter (fun e => er_id e = entry_id) (t_entries t)) in
   Ok (entry_to_entity p t <$> model))%py.

(** [create_journal_entry]: the header is flushed, then all the legs; when the second
    flush fails the transaction takes the header back. *)
Definition flush_header (m : EntryRow) (t : sql_ledger) : result sql_ledger :=
  if negb (fits_column 128 (er_reference_id m) && fits_column 255 (er_description m)) then Raise SQLAlchemyError
  else if existsb (fun e => bool_decide (er_id e = er_id m) || bool_decide (er_reference_id e = er_reference_id m)) (t_entries t)
  then Raise IntegrityError
  else Ok (mkSqlLedger (t_accounts t) (t_entries t ++ [m]) (t_postings t)).

Definition flush_posting (p : JournalPostingEntity) (t : sql_ledger) : result sql_ledger :=
  if negb (fits_numeric (jp_amount p)) then Raise SQLAlchemyError
  else if bool_decide (jp_id p ∈ jp_id <$> t_postings t) || bool_decide (jp_account_id p ∉ acc_id <$> t_accounts t)
  then Raise IntegrityError
  else Ok (mkSqlLedger (t_accounts t) (t_entries t) (t_postings t ++ [store_posting p])).

Fixpoint flush_postings (ps : list JournalPostingEntity) (t : sql_ledger) : result sql_ledger :=
  match ps with
  | [] => Ok t
  | p :: ps' => (let? t' := flush_posting p t in flush_postings ps' t')%py
  end.

Definition sqll_create_journal_entry (entry_uuid now : Z) (posting_ids : nat -> Z) (ref desc : string)
  (ps : list PostingCreateDTO) (is_flagged : bool) (t : sql_ledger) : result JournalEntryEntity * sql_ledger :=
  let posting_entities := materialize entry_uuid now posting_ids ps in
  match rbind (flush_header (mkEntryRow entry_uuid ref desc now is_flagged) t) (flush_postings posting_entities) with
  | Raise e => (Raise e, t)
  | Ok t' => (Ok (mkEntry entry_uuid ref desc now posting_entities is_flagged), t')
  end.

(** [get_postings_by_account_id]: [ORDER BY created_at] *)
Definition oldest_first (p q : JournalPostingEntity) : bool := jp_created_at p <=? jp_created_at q.

Definition sqll_get_postings_by_account_id (p : plan) (account_id : Z) (t : sql_ledger) : list JournalPostingEntity :=
  posting_to_entity <$> order_by oldest_first p (filter (fun x => jp_account_id x = account_id) (t_postings t)).

(** [get_account_balance_aggregates]: [SUM(CASE WHEN direction = ... THEN amount ELSE 0 END)]
    is null over no rows, and exact over the others. *)
Definition sum_case (dir : PostingDirection) (rows : list JournalPostingEntity) : option decimal :=
  match rows with
  | [] => None
  | _ => Some (d4 (Zsum ((fun p => if decide (jp_direction p = dir) then scaled4 (jp_amount p) else 0) <$> rows)))
  end.

Definition sqll_get_account_balance_aggregates (account_id : Z) (t : sql_ledger) : decimal * decimal :=
  let rows := filter (fun p => jp_account_id p = account_id) (t_postings t) in
  (default d0 (sum_case DEBIT rows), default d0 (sum_case CREDIT rows)).

(** [InMemoryLedgerRepository.list_accounts]; the model of the dictionary of the accounts
    does not keep its order, which is given. *)
Definition mem_list_accounts (dict_order : plan) (limit offset : Z) (r : ledger_repo) : list LedgerAccountEntity :=
  py_slicez (order_by newest_first dict_order (map_to_list (accounts r)).*2) offset (offset + limit).

(** ** One call, and its answer *)

Inductive lcall : Type :=
  | LCreateAccount (account_uuid now : Z) (num name : string) (ty : AccountType) (cur : string)
  | LGetAccount (account_id : Z)
  | LGetAccountByNumber (num : string)
  | LListAccounts (dict_order : plan) (limit offset : Z)
  | LCreateEntry (entry_uuid now : Z) (posting_ids : nat -> Z) (ref desc : string) (ps : list PostingCreateDTO) (is_flagged : bool)
  | LGetEntry (entry_id : Z)
  | LGetEntryByReference (ref : string)
  | LGetEntriesByReferences (refs : list string)
  | LGetPostings (account_id : Z)
  | LGetAggregates (account_id : Z).

Inductive lanswer : Type :=
  | LAccount (a : result (option LedgerAccountEntity))
  | LAccounts (accts : result (list LedgerAccountEntity))
  | LEntry (e : result (option JournalEntryEntity))
  | LEntries (es : list JournalEntryEntity)
  | LPostings (ps : list JournalPostingEntity)
  | LTotals (debits credits : decimal).

Definition lrun_memory (cp : lcall * plan) (r : ledger_repo) : lanswer * ledger_repo :=
  match cp.1 with
  | LCreateAccount u now num name ty cur =>
      let '(a, r') := mem_create_account u now num name ty cur r in (LAccount (Ok (Some a)), r')
  | LGetAccount a => (LAccount (Ok (mem_get_account_by_id r a)), r)
  | LGetAccountByNumber n => (LAccount (Ok (mem_get_account_by_number r n)), r)
  | LListAccounts d l o => (LAccounts (Ok (mem_list_accounts d l o r)), r)
  | LCreateEntry u now ids ref desc ps fl =>
      let '(e, r') := mem_create_journal_entry u now ids ref desc ps fl r in (LEntry (Ok (Some e)), r')
  | LGetEntry e => (LEntry (Ok (mem_get_journal_entry_by_id r e)), r)
  | LGetEntryByReference ref => (LEntry (Ok (mem_get_journal_entry_by_reference r ref)), r)
  | LGetEntriesByReferences refs => (LEntries (mem_get_journal_entries_by_references r refs), r)
  | LGetPostings a => (LPostings (mem_get_postings_by_account_id r a), r)
  | LGetAggregates a => let '(d, c) := mem_get_account_balance_aggregates r a in (LTotals d c, r)
  end.

(** The call with the order in which the database hands out rows. *)
Definition lrun_sql (cp : lcall * plan) (t : sql_ledger) : lanswer * sql_ledger :=
  let p := cp.2 in
  match cp.1 with
  | LCreateAccount u now num name ty cur =>
      let '(a, t') := sqll_create_account u now num name ty cur t in (LAccount (rbind a (fun a => Ok (Some a))), t')
  | LGetAccount a => (LAccount (sqll_get_account_by_id a t), t)
  | LGetAccountByNumber n => (LAccount (sqll_get_account_by_number n t), t)
  | LListAccounts _ l o => (LAccounts (sqll_list_accounts p l o t), t)
  | LCreateEntry u now ids ref desc ps fl =>
      let '(e, t') := sqll_create_journal_entry u now ids ref desc ps fl t in (LEntry (rbind e (fun e => Ok (Some e))), t')
  | LGetEntry e => (LEntry (sqll_get_journal_entry_by_id p e t), t)
  | LGetEntryByReference ref => (LEntry (sqll_get_journal_entry_by_reference p ref t), t)
  | LGetEntriesByReferences refs => (LEntries (sqll_get_journal_entries_by_references p refs t), t)
  | LGetPostings a => (LPostings (sqll_get_postings_by_account_id p a t), t)
  | LGetAggregates a => let '(d, c) := sqll_get_account_balance_aggregates a t in (LTotals d c, t)
  end.

(** ** The tables stay consistent *)

Record tables_ok (t : sql_ledger) : Prop := {
  tk_accounts : NoDup (acc_id <$> t_accounts t);
  tk_numbers : NoDup (account_number <$> t_accounts t);
  tk_entries : NoDup (er_id <$> t_entries t);
  tk_references : NoDup (er_reference_id <$> t_entries t);
  tk_postings : NoDup (jp_id <$> t_postings t);
  tk_account_key : Forall (fun p => jp_account_id p ∈ acc_id <$> t_accounts t) (t_postings t);
  tk_entry_key : Forall (fun p => jp_journal_entry_id p ∈ er_id <$> t_entries t) (t_postings t);
  tk_numeric : Forall (fun p => jp_amount p = d4 (scaled4 (jp_amount p)) /\ fits_numeric (jp_amount p) = true) (t_postings t)
}.

Lemma tables_ok_empty : tables_ok sql_ledger_empty.
Proof. constructor; constructor. Qed.

Lemma existsb_keys {A K1 K2} `{EqDecision K1} `{EqDecision K2} (f : A -> K1) (g : A -> K2) (k1 : K1) (k2 : K2) (l : list A) :
  existsb (fun x => bool_decide (f x = k1) || bool_decide (g x = k2)) l = false <-> not (k1 ∈ f <$> l) /\ not (k2 ∈ g <$> l).
Proof.
  induction l as [|x l IH]; [set_solver|]. cbn [existsb]. rewrite !orb_false_iff, IH, !bool_decide_eq_false.
  rewrite !fmap_cons, !not_elem_of_cons. naive_solver.
Qed.

Lemma NoDup_snoc {A} (l : list A) x : NoDup l -> x ∉ l -> NoDup (l ++ [x]).
Proof. intros Hl Hx. apply NoDup_app. split; [done|]. split; [set_solver|apply NoDup_singleton]. Qed.

Lemma create_account_ok u now num name ty cur t : tables_ok t -> tables_ok (sqll_create_account u now num name ty cur t).2.
Proof.
  intros Ht. unfold sqll_create_account. destruct (negb _); [done|].
  destruct (existsb _ _) eqn:E; [done|]. apply existsb_keys in E as [Hid Hnum]. destruct Ht.
  constructor; cbn; try done; rewrite ?fmap_app; try by apply NoDup_snoc.
  eapply Forall_impl; [exact tk_account_key0|]. intros p Hp. apply elem_of_app. by left.
Qed.

Lemma flush_header_ok m t t' : tables_ok t -> flush_header m t = Ok t' ->
  tables_ok t' /\ er_id m ∈ er_id <$> t_entries t' /\ t' = mkSqlLedger (t_accounts t) (t_entries t ++ [m]) (t_postings t).
Proof.
  intros Ht. unfold flush_header. destruct (negb _); [done|].
  destruct (existsb _ _) eqn:E; [done|]. apply existsb_keys in E as [Hid Hnum]. destruct Ht. intros [= <-]. split; [|split; [|done]].
  - constructor; cbn; try done; rewrite ?fmap_app; try by apply NoDup_snoc.
    eapply Forall_impl; [exact tk_entry_key0|]. intros p Hp. apply elem_of_app. by left.
  - cbn. rewrite fmap_app. set_solver.
Qed.

Lemma scaled4_store p : scaled4 (jp_amount (store_posting p)) = scaled4 (jp_amount p).
Proof. by apply scaled4_d4. Qed.

Lemma flush_posting_ok p t t' : tables_ok t -> jp_journal_entry_id p ∈ er_id <$> t_entries t -> flush_posting p t = Ok t' ->
  tables_ok t' /\ t' = mkSqlLedger (t_accounts t) (t_entries t) (t_postings t ++ [store_posting p]).
Proof.
  intros Ht Hp. unfold flush_posting. destruct (fits_numeric _) eqn:Hn; [|done]. cbn [negb].
  destruct (_ || _) eqn:E; [done|]. apply orb_false_iff in E as [Hid%bool_decide_eq_false Ha%bool_decide_eq_false].
  apply dec_stable in Ha. intros [= <-]. split; [|done]. destruct Ht.
  constructor; cbn; try done; rewrite ?fmap_app; try by apply NoDup_snoc.
  all: apply Forall_app; split; [done|]; apply Forall_singleton; try done.
  unfold fits_numeric. by rewrite !scaled4_store.
Qed.

Lemma flush_postings_ok u ps t t' : tables_ok t -> u ∈ er_id <$> t_entries t ->
  Forall (fun p => jp_journal_entry_id p = u) ps -> flush_postings ps t = Ok t' ->
  tables_ok t' /\ t' = mkSqlLedger (t_accounts t) (t_entries t) (t_postings t ++ (store_posting <$> ps)).
Proof.
  intros Ht Hu Hps. revert t Ht Hu. induction Hps as [|p ps Hp _ IH]; intros t Ht Hu.
  - intros [= <-]. split; [done|]. rewrite app_nil_r. by destruct t.
  - cbn. destruct (flush_posting p t) as [t1|] eqn:E; [|done]. cbn.
    destruct (flush_posting_ok _ _ _ Ht ltac:(by rewrite Hp) E) as [H1 ->]. intros [H2 ->]%IH; [|done|done].
    split; [done|]. cbn. by rewrite <-app_assoc.
Qed.

Lemma materialize_entry u now ids ps : Forall (fun p => jp_journal_entry_id p = u) (materialize u now ids ps).
Proof.
  unfold materialize. revert ids. induction ps as [|p ps IH]; intros ids; [constructor|].
  rewrite imap_cons. constructor; [done|]. apply (IH (fun i => ids (S i))).
Qed.

Lemma create_entry_ok u now ids ref desc ps fl t :
  tables_ok t -> tables_ok (sqll_create_journal_entry u now ids ref desc ps fl t).2.
Proof.
  intros Ht. unfold sqll_create_journal_entry. destruct (flush_header _ t) as [t1|] eqn:E; [|done]. cbn [rbind].
  destruct (flush_header_ok _ _ _ Ht E) as (H1 & Hin & _).
  destruct (flush_postings _ t1) as [t2|] eqn:E2; [|done].
  by destruct (flush_postings_ok _ _ _ _ H1 Hin (materialize_entry _ _ _ _) E2).
Qed.

Definition lrun_all (cs : list (lcall * plan)) (t : sql_ledger) : sql_ledger := foldl (fun t c => (lrun_sql c t).2) t cs.

Lemma call_ok c t : tables_ok t -> tables_ok (lrun_sql c t).2.
Proof.
  intros Ht. destruct c as [[] p]; cbn; try done.
  - pose proof (create_account_ok account_uuid now num name ty cur t Ht) as H. by destruct (sqll_create_account _ _ _ _ _ _ t).
  - pose proof (create_entry_ok entry_uuid now posting_ids ref desc ps is_flagged t Ht) as H.
    by destruct (sqll_create_journal_entry _ _ _ _ _ _ _ t).
Qed.

(** Whatever calls arrive, in any order and with any arguments, the tables keep
    one row per primary key, account number and reference, every leg belongs to a
    stored entry and a stored account, and every amount is an exact number of units
    of 0.0001 within the column. *)
Theorem tables_consistent (cs : list (lcall * plan)) : tables_ok (lrun_all cs sql_ledger_empty).
Proof.
  assert (forall t, tables_ok t -> tables_ok (lrun_all cs t)) as H.
  { induction cs as [|c cs IH]; intros t Ht; [done|]. apply IH, call_ok, Ht. }
  apply H, tables_ok_empty.
Qed.

(** ** The same answers as the in-memory ledger *)

Definition posting_eqv (p q : JournalPostingEntity) : Prop :=
  jp_id p = jp_id q /\ jp_journal_entry_id p = jp_journal_entry_id q /\ jp_account_id p = jp_account_id q /\
  deq (jp_amount p) (jp_amount q) /\ jp_direction p = jp_direction q /\ jp_created_at p = jp_created_at q.

Definition entry_eqv (e f : JournalEntryEntity) : Prop :=
  je_id e = je_id f /\ je_reference_id e = je_reference_id f /\ je_description e = je_description f /\
  je_posted_at e = je_posted_at f /\ je_is_flagged e = je_is_flagged f /\
  exists ps, je_postings e ≡ₚ ps /\ Forall2 posting_eqv ps (je_postings f).

#[global] Instance posting_eqv_refl : Reflexive posting_eqv.
Proof. intros p. by repeat split. Qed.
#[global] Instance entry_eqv_refl : Reflexive entry_eqv.
Proof. intros e. do 5 (split; [done|]). by exists (je_postings e). Qed.

(** Amounts agree as numbers; a query for several references and the legs of an entry say
    nothing about order; pages of accounts are in the order of creation, newest first, and
    the postings of an account in the order of their times, equal times in any order. *)
Inductive same_answer : lanswer -> lanswer -> Prop :=
  | SameAccount a : same_answer (LAccount a) (LAccount a)
  | SameEntry e f : option_Forall2 entry_eqv e f -> same_answer (LEntry (Ok e)) (LEntry (Ok f))
  | SameEntries es fs gs : es ≡ₚ fs -> Forall2 entry_eqv fs gs -> same_answer (LEntries es) (LEntries gs)
  | SameAccounts l l' : same_page (fun a => - acc_created_at a) l l' -> same_answer (LAccounts (Ok l)) (LAccounts (Ok l'))
  | SamePostings ps ps' qs : ps ≡ₚ ps' -> jp_created_at <$> ps = jp_created_at <$> ps' -> Forall2 posting_eqv ps' qs ->
      same_answer (LPostings ps) (LPostings qs)
  | SameTotals d c d' c' : deq d d' -> deq c c' -> same_answer (LTotals d c) (LTotals d' c').

(** What callers of the protocol see to: identifiers are new, numbers and references
    unused, texts and amounts fit their columns, the accounts of the legs exist, time
    does not go back, windows are not negative, a list of references names none twice, and
    totals stay within the precision of [Decimal]. *)
Definition lchecked (cp : lcall * plan) (r : ledger_repo) : Prop :=
  match cp.1 with
  | LCreateAccount u _ num name _ cur =>
      mem_knows_id r u = false /\ accounts_by_number r !! num = None /\
      fits_column 64 num && fits_column 128 name && fits_column 3 (py_upper cur) = true
  | LCreateEntry u now ids ref desc ps _ =>
      mem_knows_id r u = false /\ entries_by_ref r !! ref = None /\
      fits_column 128 ref && fits_column 255 desc = true /\
      Forall (fun p => valid_dto p /\ fits_numeric (p_amount p) = true /\ is_Some (accounts r !! p_account_id p)) ps /\
      NoDup (jp_id <$> (postings r ++ materialize u now ids ps)) /\
      Forall (fun p => jp_created_at p <= now) (postings r)
  | LListAccounts _ limit offset => 0 <= limit /\ 0 <= offset
  | LGetEntriesByReferences refs => NoDup refs
  | LGetAggregates a => forall dir, fits (acct_units dir a (postings r))
  | _ => True
  end.

Definition header (e : JournalEntryEntity) : EntryRow :=
  mkEntryRow (je_id e) (je_reference_id e) (je_description e) (je_posted_at e) (je_is_flagged e).

Record lsim (r : ledger_repo) (t : sql_ledger) : Prop := {
  ls_wf : mem_wf r;
  ls_ok : tables_ok t;
  ls_numbers u a : accounts r !! u = Some a -> accounts_by_number r !! account_number a = Some u;
  ls_accounts a : a ∈ t_accounts t <-> accounts r !! acc_id a = Some a;
  ls_entries m : m ∈ t_entries t <-> exists e, entries r !! er_id m = Some e /\ header e = m;
  ls_legs u e : entries r !! u = Some e -> je_postings e = filter (fun p => jp_journal_entry_id p = u) (postings r);
  ls_log : t_postings t = store_posting <$> postings r;
  ls_valid : Forall valid_posting (postings r);
  ls_order : StronglySorted (fun p q => oldest_first p q = true) (t_postings t)
}.

Lemma lsim_empty : lsim mem_empty sql_ledger_empty.
Proof.
  constructor; [apply mem_wf_empty|apply tables_ok_empty|cbn..].
  - intros u a H. by rewrite lookup_empty in H.
  - intros a. rewrite lookup_empty. set_solver.
  - intros n. split; [set_solver|]. intros (e & H & _). by rewrite lookup_empty in H.
  - intros u e H. by rewrite lookup_empty in H.
  - done.
  - constructor.
  - constructor.
Qed.

Lemma account_to_entity_id (o : option LedgerAccountEntity) : account_to_entity <$> o = o.
Proof. destruct o as [[]|]; done. Qed.

Lemma accounts_to_entity_id (l : list LedgerAccountEntity) : account_to_entity <$> l = l.
Proof. induction l as [|[] l IH]; [done|]. rewrite fmap_cons, IH. done. Qed.

Lemma posting_to_entity_id (ps : list JournalPostingEntity) : posting_to_entity <$> ps = ps.
Proof. induction ps as [|[] ps IH]; [done|]. rewrite fmap_cons, IH. done. Qed.

Lemma store_eqv p : valid_posting p -> posting_eqv p (store_posting p).
Proof. intros Hp. repeat split. by apply valid_amount_d4. Qed.

Lemma stores_eqv ps : Forall valid_posting ps -> Forall2 posting_eqv ps (store_posting <$> ps).
Proof. intros Hps. apply Forall2_fmap_self. eapply Forall_impl; [done|]. apply store_eqv. Qed.

(** Stored rows in any order. *)
Lemma rows_eqv ps rows : Forall valid_posting ps -> rows ≡ₚ store_posting <$> ps ->
  exists ps', ps ≡ₚ ps' /\ Forall2 posting_eqv ps' rows.
Proof.
  intros Hv (ps' & -> & Hp)%Permutation_map_inv. exists ps'. split; [done|]. apply stores_eqv. by rewrite <-Hp.
Qed.

(** A header and its rows read back as the stored entry. *)
Lemma load_entry p r t u e : lsim r t -> entries r !! u = Some e -> entry_eqv e (entry_to_entity p t (header e)).
Proof.
  intros Hs He. destruct (wf_entry_key _ (ls_wf _ _ Hs) _ _ He) as [Hu _]. do 5 (split; [done|]).
  cbn. rewrite posting_to_entity_id, (ls_log _ _ Hs), (ls_legs _ _ Hs _ _ He), Hu, filter_fmap.
  set (ps := filter _ (postings r)). destruct (rows_eqv ps (arrange p (store_posting <$> ps))) as (ps' & Hp & Hps);
    [apply Forall_filter, (ls_valid _ _ Hs)|apply arrange_perm|]. by exists ps'.
Qed.

Lemma lsim_header r t u e : lsim r t -> entries r !! u = Some e -> header e ∈ t_entries t /\ er_id (header e) = u.
Proof.
  intros Hs He. destruct (wf_entry_key _ (ls_wf _ _ Hs) _ _ He) as [Hu _]. split; [|done].
  apply (ls_entries _ _ Hs). exists e. cbn. by rewrite Hu.
Qed.

(** A query for one entry by an attribute that describes at most one. *)
Lemma select_entry p r t (P : EntryRow -> Prop) `{!forall m, Decision (P m)} (o : option JournalEntryEntity) : lsim r t ->
  (forall e, o = Some e -> entries r !! je_id e = Some e) ->
  (forall u e, entries r !! u = Some e -> P (header e) <-> o = Some e) ->
  exists f, (let? model := scalar_one_or_none (filter P (t_entries t)) in Ok (entry_to_entity p t <$> model))%py = Ok f /\
    option_Forall2 entry_eqv o f.
Proof.
  intros Hs Ho HP. rewrite (scalar_exact _ _ (header <$> o)).
  - eexists. split; [done|]. destruct o as [e|]; constructor. by apply (load_entry p r _ (je_id e)), Ho.
  - apply (NoDup_fmap_1 er_id), (tk_entries _ (ls_ok _ _ Hs)).
  - intros m Hm. apply (ls_entries _ _ Hs) in Hm as (e & He & <-). rewrite (HP _ _ He). split; [by intros ->|].
    destruct o as [e'|]; [|done]. cbn. intros [= Hh]. f_equal. assert (je_id e' = je_id e) as Hid by congruence.
    pose proof (Ho _ eq_refl) as He'. cbn in He. rewrite Hid, He in He'. congruence.
  - intros m. destruct o as [e|]; [|done]. intros [= <-]. by eapply lsim_header, Ho.
Qed.

Lemma select_account r t (P : LedgerAccountEntity -> Prop) `{!forall a, Decision (P a)} (o : option LedgerAccountEntity) :
  lsim r t -> (forall a, o = Some a -> accounts r !! acc_id a = Some a) ->
  (forall u a, accounts r !! u = Some a -> P a <-> o = Some a) ->
  (let? model := scalar_one_or_none (filter P (t_accounts t)) in Ok (account_to_entity <$> model))%py = Ok o.
Proof.
  intros Hs Ho HP. rewrite (scalar_exact _ _ o); [cbn; by rewrite account_to_entity_id|..].
  - apply (NoDup_fmap_1 acc_id), (tk_accounts _ (ls_ok _ _ Hs)).
  - intros a Ha. apply (ls_accounts _ _ Hs) in Ha. by apply (HP (acc_id a)).
  - intros a Ha. by apply (ls_accounts _ _ Hs), Ho.
Qed.

(** The aggregate of the database is the exact total of the in-memory log. *)
Lemma sum_case_units r t dir a : lsim r t ->
  default d0 (sum_case dir (filter (fun p => jp_account_id p = a) (t_postings t))) = d4 (acct_units dir a (postings r)).
Proof.
  intros Hs. rewrite (ls_log _ _ Hs), filter_fmap. unfold acct_units. cbn [jp_account_id store_posting].
  generalize (filter (fun p => jp_account_id p = a) (postings r)). intros ps.
  transitivity (d4 (Zsum ((fun p => if decide (jp_direction p = dir) then scaled4 (jp_amount p) else 0) <$> (store_posting <$> ps)))).
  { by destruct ps. }
  f_equal. induction ps as [|p ps IH]; [done|]. rewrite filter_cons, !fmap_cons. unfold Zsum in *. cbn [foldr].
  rewrite IH, scaled4_store. cbn [jp_direction store_posting]. by case_decide.
Qed.

(** ** Each call answers alike and preserves the simulation *)

Definition lagrees (cp : lcall * plan) (r : ledger_repo) (t : sql_ledger) : Prop :=
  same_answer (lrun_memory cp r).1 (lrun_sql cp t).1 /\ lsim (lrun_memory cp r).2 (lrun_sql cp t).2.

Lemma lagrees_get_account p r t a : lsim r t -> lagrees (LGetAccount a, p) r t.
Proof.
  intros Hs. split; [|done]. cbn. unfold sqll_get_account_by_id, mem_get_account_by_id.
  rewrite (select_account r _ _ (accounts r !! a)); [constructor|done|..].
  - intros x Hx. by rewrite (wf_acc_key _ (ls_wf _ _ Hs) _ _ Hx).
  - intros u x Hx. rewrite (wf_acc_key _ (ls_wf _ _ Hs) _ _ Hx). split; [by intros <-|].
    intros Ha. rewrite <-(wf_acc_key _ (ls_wf _ _ Hs) _ _ Ha). symmetry. exact (wf_acc_key _ (ls_wf _ _ Hs) _ _ Hx).
Qed.

Lemma number_exact r t n a : lsim r t ->
  mem_get_account_by_number r n = Some a <-> accounts r !! acc_id a = Some a /\ account_number a = n.
Proof.
  intros Hs. unfold mem_get_account_by_number. split.
  - destruct (accounts_by_number r !! n) as [u|] eqn:E; [|done]. intros Ha.
    destruct (wf_num _ (ls_wf _ _ Hs) _ _ E) as (a' & Ha' & Hn). assert (a' = a) as -> by congruence.
    by rewrite (wf_acc_key _ (ls_wf _ _ Hs) _ _ Ha).
  - intros [Ha <-]. by rewrite (ls_numbers _ _ Hs _ _ Ha).
Qed.

Lemma lagrees_get_number p r t n : lsim r t -> lagrees (LGetAccountByNumber n, p) r t.
Proof.
  intros Hs. split; [|done]. cbn. unfold sqll_get_account_by_number.
  rewrite (select_account r _ _ (mem_get_account_by_number r n)); [constructor|done|..].
  - intros x Hx. by apply (number_exact _ t) in Hx as [? _].
  - intros u x Hx. rewrite (number_exact _ t) by done.
    rewrite (wf_acc_key _ (ls_wf _ _ Hs) _ _ Hx). naive_solver.
Qed.

Lemma reference_exact r t ref e : lsim r t ->
  mem_get_journal_entry_by_reference r ref = Some e <-> entries r !! je_id e = Some e /\ je_reference_id e = ref.
Proof.
  intros Hs. unfold mem_get_journal_entry_by_reference. split.
  - destruct (entries_by_ref r !! ref) as [u|] eqn:E; [|done]. intros He.
    destruct (wf_ref _ (ls_wf _ _ Hs) _ _ E) as (e' & He' & Hn). assert (e' = e) as -> by congruence.
    by rewrite (proj1 (wf_entry_key _ (ls_wf _ _ Hs) _ _ He)).
  - intros [He <-]. by rewrite (proj2 (wf_entry_key _ (ls_wf _ _ Hs) _ _ He)).
Qed.

Lemma lagrees_get_entry p r t u : lsim r t -> lagrees (LGetEntry u, p) r t.
Proof.
  intros Hs. split; [|done]. cbn. unfold sqll_get_journal_entry_by_id, mem_get_journal_entry_by_id.
  destruct (select_entry p r t (fun m => er_id m = u) (entries r !! u) Hs) as (f & -> & Hf); [..|by constructor].
  - intros e He. by rewrite (proj1 (wf_entry_key _ (ls_wf _ _ Hs) _ _ He)).
  - intros u' e He. cbn. rewrite (proj1 (wf_entry_key _ (ls_wf _ _ Hs) _ _ He)). split; [by intros <-|].
    intros H. rewrite <-(proj1 (wf_entry_key _ (ls_wf _ _ Hs) _ _ H)).
    symmetry. exact (proj1 (wf_entry_key _ (ls_wf _ _ Hs) _ _ He)).
Qed.

Lemma lagrees_get_reference p r t ref : lsim r t -> lagrees (LGetEntryByReference ref, p) r t.
Proof.
  intros Hs. split; [|done]. cbn. unfold sqll_get_journal_entry_by_reference.
  destruct (select_entry p r t (fun m => er_reference_id m = ref) (mem_get_journal_entry_by_reference r ref) Hs)
    as (f & -> & Hf); [..|by constructor].
  - intros e He. by apply (reference_exact _ t) in He as [? _].
  - intros u e He. cbn. rewrite (reference_exact _ t) by done.
    rewrite (proj1 (wf_entry_key _ (ls_wf _ _ Hs) _ _ He)). naive_solver.
Qed.

(** The stored entries behind a list of rows. *)
Lemma load_rows p r t rows : lsim r t -> (forall m, m ∈ rows -> m ∈ t_entries t) ->
  let es := omap (fun m => entries r !! er_id m) rows in
  je_id <$> es = er_id <$> rows /\ Forall2 entry_eqv es (entry_to_entity p t <$> rows).
Proof.
  intros Hs. induction rows as [|m rows IH]; intros Hrows; [by repeat constructor|].
  destruct IH as [IH1 IH2]; [set_solver|]. destruct (proj1 (ls_entries _ _ Hs m) (Hrows m ltac:(set_solver))) as (e & He & <-).
  cbn in *. rewrite He. cbn. split; [by f_equal|].
  constructor; [by eapply load_entry|done].
Qed.

Lemma omap_refs_sublist r t refs : lsim r t ->
  sublist (je_reference_id <$> omap (mem_get_journal_entry_by_reference r) refs) refs.
Proof.
  intros Hs. induction refs as [|ref refs IH]; [done|]. cbn.
  destruct (mem_get_journal_entry_by_reference r ref) as [e|] eqn:E; cbn; [|by constructor].
  apply (reference_exact _ t) in E as [_ ->]; [|done]. by constructor.
Qed.

Lemma lagrees_get_references p r t refs : lsim r t -> NoDup refs -> lagrees (LGetEntriesByReferences refs, p) r t.
Proof.
  intros Hs Hnd. split; [|done]. cbn. rewrite mem_law_references.
  set (rows := arrange p (filter (fun e => er_reference_id e ∈ refs) (t_entries t))).
  assert (rows ≡ₚ filter (fun e => er_reference_id e ∈ refs) (t_entries t)) as Hrows by apply arrange_perm.
  assert (sqll_get_journal_entries_by_references p refs t = entry_to_entity p t <$> rows) as ->.
  { destruct refs; [|done]. cbn. rewrite filter_none in Hrows; [by apply Permutation_nil_r in Hrows as ->|].
    apply Forall_forall. intros m _ Hm. by apply elem_of_nil in Hm. }
  destruct (load_rows p r t rows Hs) as [Hids Heqv]; [intros m Hm; rewrite Hrows in Hm; by apply list_elem_of_filter in Hm as [_ Hm]|]. cbn in *.
  econstructor; [|exact Heqv]. apply NoDup_Permutation.
  - apply (NoDup_fmap_1 je_reference_id). eapply sublist_NoDup; [exact Hnd|]. by eapply omap_refs_sublist.
  - apply (NoDup_fmap_1 je_id). rewrite Hids, Hrows. apply NoDup_filter_fmap, (tk_entries _ (ls_ok _ _ Hs)).
  - intros e. rewrite !list_elem_of_omap. setoid_rewrite Hrows. setoid_rewrite list_elem_of_filter.
    setoid_rewrite (reference_exact r t); [|done]. setoid_rewrite (ls_entries r t Hs). split.
    + intros (ref & Href & He & <-). exists (header e). cbn. naive_solver.
    + intros (m & (Href & e' & He' & <-) & He). cbn in *. assert (e' = e) as -> by congruence. eauto.
Qed.

Lemma lagrees_get_postings p r t a : lsim r t -> lagrees (LGetPostings a, p) r t.
Proof.
  intros Hs. split; [|done]. cbn. unfold sqll_get_postings_by_account_id. rewrite posting_to_entity_id.
  destruct (order_by_spec oldest_first jp_created_at p (filter (fun x => jp_account_id x = a) (t_postings t))) as [Hp Ho]; [done|].
  assert (in_order jp_created_at (filter (fun x => jp_account_id x = a) (t_postings t))) as Hlog.
  { by apply (sorted_in_order oldest_first), StronglySorted_filter, (ls_order _ _ Hs). }
  pose proof (in_order_keys jp_created_at _ _ Hlog Ho ltac:(by rewrite Hp)) as Hkeys.
  rewrite (ls_log _ _ Hs), filter_fmap in *. cbn [jp_account_id store_posting] in *.
  unfold mem_get_postings_by_account_id. set (ps := filter _ (postings r)) in *.
  destruct (rows_eqv ps _ ltac:(apply Forall_filter, (ls_valid _ _ Hs)) Hp) as (ps' & Hperm & Heqv).
  econstructor; [exact Hperm| |exact Heqv].
  transitivity (jp_created_at <$> (store_posting <$> ps)); [by rewrite <-list_fmap_compose|]. rewrite Hkeys.
  symmetry. clear -Heqv. induction Heqv as [|x y l l' Hxy _ IH]; [done|]. rewrite !fmap_cons, IH. f_equal. apply Hxy.
Qed.

Lemma lagrees_list_accounts p r t d l o : lsim r t -> 0 <= l -> 0 <= o -> lagrees (LListAccounts d l o, p) r t.
Proof.
  intros Hs Hl Ho. split; [|done]. cbn. unfold sqll_list_accounts, mem_list_accounts, window_rows.
  rewrite (proj2 (Z.ltb_ge _ _) Hl), (proj2 (Z.ltb_ge _ _) Ho). cbn.
  rewrite accounts_to_entity_id.
  assert (forall a b, newest_first a b = (- acc_created_at a <=? - acc_created_at b)) as Hleb
    by (intros a b; unfold newest_first; destruct (Z.leb_spec (acc_created_at b) (acc_created_at a)), (Z.leb_spec (- acc_created_at a) (- acc_created_at b)); done || lia).
  destruct (order_by_spec newest_first (fun a => - acc_created_at a) p (t_accounts t) Hleb) as [Hp1 Hi1].
  destruct (order_by_spec newest_first (fun a => - acc_created_at a) d ((map_to_list (accounts r)).*2) Hleb) as [Hp2 Hi2].
  constructor. rewrite py_slicez_nonneg by lia. unfold py_slice. rewrite Z2Nat.inj_add, <-take_drop_commute by lia.
  constructor; [|done|done]. rewrite Hp1, Hp2. apply NoDup_Permutation.
  - apply (NoDup_fmap_1 acc_id). assert (acc_id <$> (map_to_list (accounts r)).*2 = (map_to_list (accounts r)).*1) as ->;
      [|apply NoDup_fst_map_to_list]. rewrite <-list_fmap_compose. apply list_fmap_ext. intros i [u x] Hx%list_elem_of_lookup_2.
    apply elem_of_map_to_list in Hx. cbn. exact (wf_acc_key _ (ls_wf _ _ Hs) _ _ Hx).
  - apply (NoDup_fmap_1 acc_id), (tk_accounts _ (ls_ok _ _ Hs)).
  - intros a. rewrite (ls_accounts _ _ Hs), list_elem_of_fmap. split.
    + intros ([u x] & -> & Hx%elem_of_map_to_list). cbn. by rewrite (wf_acc_key _ (ls_wf _ _ Hs) _ _ Hx).
    + intros Ha. exists (acc_id a, a). split; [done|]. by apply elem_of_map_to_list.
Qed.

Lemma lagrees_get_aggregates p r t a : lsim r t -> (forall dir, fits (acct_units dir a (postings r))) ->
  lagrees (LGetAggregates a, p) r t.
Proof.
  intros Hs Hf. unfold lagrees. cbn. unfold mem_get_account_balance_aggregates. rewrite aggregates_split. cbn.
  split; [|done]. rewrite !(sum_case_units r) by done.
  constructor; (apply posting_total_units; [by eapply ls_valid|done]).
Qed.

Lemma agrees_create_account p r t u now num name ty cur : lsim r t ->
  lchecked (LCreateAccount u now num name ty cur, p) r -> lagrees (LCreateAccount u now num name ty cur, p) r t.
Proof.
  intros Hs (Hid & Hnum & Hfit). pose proof (call_ok (LCreateAccount u now num name ty cur, p) t (ls_ok _ _ Hs)) as Hok.
  destruct (mem_knows_id_false _ _ Hid) as (Hacc & _).
  unfold lagrees. cbn in *. unfold sqll_create_account in *. rewrite Hfit in *. cbn [negb] in *.
  assert (existsb (fun a => bool_decide (acc_id a = u) || bool_decide (account_number a = num)) (t_accounts t) = false) as E.
  { apply existsb_keys. split; intros (a & Ha & Hin%(ls_accounts _ _ Hs))%list_elem_of_fmap; [congruence|].
    pose proof (ls_numbers _ _ Hs _ _ Hin). congruence. }
  rewrite E in *. cbn in *. split; [constructor|].
  constructor; cbn; try apply Hs; [by apply mem_wf_create_account; [apply Hs|..]|done|..].
  - intros u' a. rewrite lookup_insert. case_decide as Eu.
    + intros [= <-]. subst u'. cbn. by rewrite lookup_insert_eq.
    + intros Ha. rewrite lookup_insert_ne; [by eapply ls_numbers|].
      intros Heq. pose proof (ls_numbers _ _ Hs _ _ Ha). congruence.
  - intros a. rewrite elem_of_app, (ls_accounts _ _ Hs), list_elem_of_singleton, lookup_insert. case_decide as Eu.
    + split; [intros [H| ->]; [congruence|done]|]. intros [= <-]. by right.
    + split; [intros [H| ->]; done|]. by left.
Qed.

Lemma flush_postings_succeed ps t :
  Forall (fun p => fits_numeric (jp_amount p) = true /\ jp_account_id p ∈ acc_id <$> t_accounts t) ps ->
  NoDup (jp_id <$> (t_postings t ++ ps)) -> exists t', flush_postings ps t = Ok t'.
Proof.
  intros Hps. revert t Hps. induction ps as [|p ps IH]; intros t Hps Hnd; [by eexists|].
  apply Forall_cons in Hps as [[Hfit Hacc] Hps]. cbn. unfold flush_posting. rewrite Hfit. cbn [negb].
  rewrite bool_decide_false, bool_decide_false by (naive_solver || (rewrite fmap_app, fmap_cons in Hnd;
    apply NoDup_app in Hnd as (_ & Hd & _); intros Hin; by apply (Hd _ Hin); left)).
  cbn. apply IH; [done|]. cbn. by rewrite <-app_assoc, !fmap_app in *.
Qed.

(** The legs of a new entry belong to it and to no other. *)
Lemma legs_apart r t u : lsim r t -> mem_knows_id r u = false ->
  Forall (fun p => jp_journal_entry_id p <> u) (postings r).
Proof.
  intros Hs (_ & He & _)%mem_knows_id_false. apply Forall_forall. intros p Hp Hu.
  apply (wf_log _ (ls_wf _ _ Hs)) in Hp as (u' & e' & He' & Hp). rewrite (ls_legs _ _ Hs _ _ He') in Hp.
  apply list_elem_of_filter in Hp as [Hp _]. congruence.
Qed.

Lemma materialize_known r t u now ids ps : lsim r t ->
  Forall (fun p => valid_dto p /\ fits_numeric (p_amount p) = true /\ is_Some (accounts r !! p_account_id p)) ps ->
  Forall (fun p => fits_numeric (jp_amount p) = true /\ jp_account_id p ∈ acc_id <$> t_accounts t) (materialize u now ids ps).
Proof.
  intros Hs Hps. unfold materialize. revert ids. induction Hps as [|p ps (_ & Hf & a & Ha) _ IH]; intros ids; [constructor|].
  rewrite imap_cons. constructor; [|apply (IH (fun i => ids (S i)))]. split; [done|]. cbn.
  pose proof (wf_acc_key _ (ls_wf _ _ Hs) _ _ Ha) as Hid. rewrite <-Hid.
  apply list_elem_of_fmap. exists a. split; [done|]. apply (ls_accounts _ _ Hs). by rewrite Hid.
Qed.

Lemma store_ids (ps : list JournalPostingEntity) : jp_id <$> (store_posting <$> ps) = jp_id <$> ps.
Proof. by rewrite <-list_fmap_compose. Qed.

(** The legs of one entry carry one instant. *)
Lemma materialize_time u now ids ps : Forall (fun p => jp_created_at p = now) (store_posting <$> materialize u now ids ps).
Proof.
  unfold materialize. revert ids. induction ps as [|p ps IH]; intros ids; [constructor|].
  rewrite imap_cons, fmap_cons. constructor; [done|]. apply (IH (fun i => ids (S i))).
Qed.

Lemma same_time_sorted now ps : Forall (fun p => jp_created_at p = now) ps ->
  StronglySorted (fun p q => oldest_first p q = true) ps.
Proof.
  induction 1 as [|p ps Hp Hps IH]; constructor; [done|].
  eapply Forall_impl; [exact Hps|]. intros q Hq. cbn in *. unfold oldest_first. apply Z.leb_le. lia.
Qed.

(** With the declarations respected, both flushes succeed. *)
Lemma create_entry_stored p r t u now ids ref desc ps fl : lsim r t -> lchecked (LCreateEntry u now ids ref desc ps fl, p) r ->
  sqll_create_journal_entry u now ids ref desc ps fl t =
  (Ok (mkEntry u ref desc now (materialize u now ids ps) fl),
   mkSqlLedger (t_accounts t) (t_entries t ++ [mkEntryRow u ref desc now fl])
     (t_postings t ++ (store_posting <$> materialize u now ids ps))).
Proof.
  intros Hs (Hid & Href & Hfit & Hps & Hnd & _). unfold sqll_create_journal_entry.
  destruct (mem_knows_id_false _ _ Hid) as (_ & He & _).
  set (m := mkEntryRow u ref desc now fl). set (t1 := mkSqlLedger (t_accounts t) (t_entries t ++ [m]) (t_postings t)).
  assert (flush_header m t = Ok t1) as E.
  { unfold flush_header. cbn [m er_reference_id er_description er_id]. rewrite Hfit. cbn [negb].
    rewrite (proj2 (existsb_keys _ _ _ _ _)); [done|].
    split; intros (n & Hn & (e & Hin & <-)%(ls_entries _ _ Hs))%list_elem_of_fmap; cbn in *; [congruence|].
    destruct (wf_entry_key _ (ls_wf _ _ Hs) _ _ Hin) as [_ H]. congruence. }
  rewrite E. cbn [rbind]. destruct (flush_header_ok _ _ _ (ls_ok _ _ Hs) E) as (Hok & Hin & _).
  destruct (flush_postings_succeed (materialize u now ids ps) t1) as [t2 Ht2].
  - by apply (materialize_known r t).
  - cbn. by rewrite (ls_log _ _ Hs), fmap_app, store_ids, <-fmap_app.
  - rewrite Ht2. by destruct (flush_postings_ok _ _ _ _ Hok Hin (materialize_entry _ _ _ _) Ht2) as [_ ->].
Qed.

Lemma agrees_create_entry p r t u now ids ref desc ps fl : lsim r t ->
  lchecked (LCreateEntry u now ids ref desc ps fl, p) r -> lagrees (LCreateEntry u now ids ref desc ps fl, p) r t.
Proof.
  intros Hs Hc. pose proof (call_ok (LCreateEntry u now ids ref desc ps fl, p) t (ls_ok _ _ Hs)) as Hok.
  pose proof (create_entry_stored _ _ _ _ _ _ _ _ _ _ Hs Hc) as E. destruct Hc as (Hid & Href & _ & Hps & _ & Hnow).
  destruct (mem_knows_id_false _ _ Hid) as (_ & He & _).
  unfold lagrees. cbn in *. rewrite E in *. cbn in *. split; [constructor; by constructor|].
  constructor; cbn; [by apply mem_wf_create_journal_entry; [apply Hs|..]|done|apply Hs|apply Hs|..].
  - intros n. rewrite elem_of_app, (ls_entries _ _ Hs), list_elem_of_singleton.
    setoid_rewrite lookup_insert. case_decide as Eu; [|naive_solver].
    split; [intros [(e & H & _)| ->]; [congruence|naive_solver]|]. intros (e & [= <-] & <-). by right.
  - intros u' e. rewrite lookup_insert, filter_app. case_decide as Eu.
    + intros [= <-]. cbn. rewrite filter_none by (subst u'; by eapply legs_apart). symmetry. apply filter_all.
      subst u'. apply materialize_entry.
    + intros H. rewrite (filter_none _ (materialize _ _ _ _)), app_nil_r; [by eapply ls_legs|].
      eapply Forall_impl; [apply materialize_entry|]. intros x ->. done.
  - by rewrite fmap_app, (ls_log _ _ Hs).
  - apply Forall_app. split; [apply Hs|]. apply materialize_valid. eapply Forall_impl; [exact Hps|]. by intros x [? _].
  - apply StronglySorted_app_le; [apply Hs|..].
    + by eapply same_time_sorted, materialize_time.
    + rewrite (ls_log _ _ Hs). intros x q (p' & -> & Hp)%list_elem_of_fmap Hq. unfold oldest_first. cbn. apply Z.leb_le.
      rewrite (proj1 (Forall_forall _ _) (materialize_time u now ids ps) _ Hq). by apply (proj1 (Forall_forall _ _) Hnow).
Qed.

Lemma call_agrees c r t : lsim r t -> lchecked c r -> lagrees c r t.
Proof.
  intros Hs Hc. destruct c as [[] p]; cbn [lchecked fst] in Hc; [by apply agrees_create_account|by apply lagrees_get_account
    |by apply lagrees_get_number|destruct Hc; by apply lagrees_list_accounts|by apply agrees_create_entry|by apply lagrees_get_entry
    |by apply lagrees_get_reference|by apply lagrees_get_references|by apply lagrees_get_postings|by apply lagrees_get_aggregates].
Qed.

(** C6: The persistent ledger refines the in-memory one.  For every session of calls of
    the repository protocol, whatever order the database hands rows out in, and whose
    callers see to [lchecked] (new identifiers, unused numbers and references, texts and
    amounts within their columns, existing accounts, times that do not go back, windows
    that are not negative, distinct references in a list, totals within the precision of
    [Decimal]), the two repositories answer each call alike: the same accounts, the same
    entries with the same legs, pages of accounts newest first and the postings of an
    account oldest first up to the order of equal times, the same set of entries for a
    list of references, and the balance aggregates the database sums equal as numbers to
    the ones accumulated in the precision of [Decimal]. *)
Theorem ledger_sql_refines_memory (cs : list (lcall * plan)) (Hc : session_ok lrun_memory lchecked cs mem_empty) :
  Forall2 same_answer (session lrun_memory cs mem_empty) (session lrun_sql cs sql_ledger_empty).
Proof.
  apply (session_refines lrun_memory lrun_sql lchecked same_answer lsim); [|apply lsim_empty|done].
  intros c r t. apply call_agrees.
Qed.

Definition ex_session : list (lcall * plan) := (., plan_rev) <$>
  [LCreateAccount 1 10 "CASH" "Cash" ASSET "usd"; LCreateAccount 2 11 "REV" "Revenue" REVENUE "usd";
   LCreateEntry 3 12 (fun i => 100 + Z.of_nat i) "ref-1" "sale" [mkPosting 1 (mkDec 105 (-1)) DEBIT; mkPosting 2 (mkDec 105 (-1)) CREDIT] false;
   LCreateEntry 4 12 (fun i => 200 + Z.of_nat i) "ref-2" "sale" [mkPosting 1 (mkDec 2 0) DEBIT; mkPosting 2 (mkDec 2 0) CREDIT] true;
   LGetAccountByNumber "REV"; LGetEntriesByReferences ["ref-2"; "none"; "ref-1"]; LGetPostings 1; LGetAggregates 1; LListAccounts plan_id 10 0].

Lemma ledger_sql_refines_memory_witness :
  session_ok lrun_memory lchecked ex_session mem_empty /\
  Forall2 same_answer (session lrun_memory ex_session mem_empty) (session lrun_sql ex_session sql_ledger_empty).
Proof.
  assert (session_ok lrun_memory lchecked ex_session mem_empty) as Hc.
  { unfold ex_session. cbn [fmap list_fmap session_ok lchecked fst]. repeat match goal with |- _ /\ _ => split end;
      match goal with
      | |- True => exact I
      | |- _ <= _ => lia
      | |- _ = _ => vm_compute; reflexivity
      | |- NoDup _ => refine (bool_decide_unpack _ _); vm_compute; exact I
      | |- Forall _ (postings _) => refine (bool_decide_unpack _ _); vm_compute; exact I
      | |- Forall _ _ => repeat apply Forall_cons_2;
          [split; [split; vm_compute; reflexivity|split; [vm_compute; reflexivity|eexists; vm_compute; reflexivity]]..|apply Forall_nil_2]
      | |- forall dir, _ => intros []; vm_compute; reflexivity
      end. }
  split; [exact Hc|]. exact (ledger_sql_refines_memory ex_session Hc).
Defined.

(** The answers of that session, from a database that hands rows out backwards: the
    amounts come back with four places, the two postings of one instant swapped. *)
Example ex_session_answers :
  drop 6 (session lrun_sql ex_session sql_ledger_empty) =
  [LPostings [mkPostingEntity 200 4 1 (d4 20000) DEBIT 12; mkPostingEntity 100 3 1 (d4 105000) DEBIT 12];
   LTotals (d4 125000) (d4 0);
   LAccounts (Ok [mkAccount 2 "REV" "Revenue" REVENUE "USD" true 11; mkAccount 1 "CASH" "Cash" ASSET "USD" true 10])].
Proof. vm_compute. reflexivity. Qed.

(** Why callers check the reference first: the in-memory repository files a second
    entry under a used reference and still counts the legs of the first, while the
    database refuses it. *)
Example used_reference_differs :
  let cs := (., plan_id) <$> [LCreateAccount 1 0 "A" "A" ASSET "usd"; LCreateEntry 2 0 (fun _ => 100) "ref" "first" [mkPosting 1 (mkDec 5 0) DEBIT] false;
             LCreateEntry 3 0 (fun _ => 101) "ref" "second" [mkPosting 1 (mkDec 7 0) DEBIT] false;
             LGetEntryByReference "ref"; LGetAggregates 1] in
  drop 3 (session lrun_memory cs mem_empty) =
    [LEntry (Ok (Some (mkEntry 3 "ref" "second" 0 [mkPostingEntity 101 3 1 (mkDec 7 0) DEBIT 0] false))); LTotals (d4 120000) (d4 0)] /\
  drop 2 (session lrun_sql cs sql_ledger_empty) =
    [LEntry (Raise IntegrityError); LEntry (Ok (Some (mkEntry 2 "ref" "first" 0 [mkPostingEntity 100 2 1 (d4 50000) DEBIT 0] false)));
     LTotals (d4 50000) (d4 0)].
Proof. split; vm_compute; reflexivity. Qed.
