(* ===== verification/SqlStores.v ===== *)
(** The other persistent repositories: products and orders
    ([SqlAlchemyProductRepository], [SqlAlchemyOrderRepository]), the transactional
    outbox ([SqlAlchemyOutboxRepository]) and the reconciliation batches
    ([SqlAlchemyReconciliationRepository]), each over the table its model declares
    ([app/models/product.py], [order.py], [outbox.py], [reconciliation.py]).

    As in [SqlLedgerRepo], the database keeps the declarations as PostgreSQL does, the
    order of the rows of a query is a [plan] where [ORDER BY] leaves it open, and a refused
    statement leaves the tables alone.  The in-memory repositories are those of [Commerce] and [Uow].
    [stores_refine_memory]: with the callers' obligations, the two implementations of
    each protocol answer alike over any session, up to the order of equal timestamps. *)

From Stdlib Require Import QArith.
From S2P Require Import Prelude PyDecimal Ledger Uow Commerce Sql SqlLedgerRepo.

Local Open Scope Z_scope.

(** ** Products *)

Record product_table : Type := mkProductTable { q_products : list ProductEntity; q_product_seq : Z }.

Definition product_to_entity (m : ProductEntity) : ProductEntity :=
  mkProduct (pd_id m) (pd_name m) (pd_stock m) (pd_price m).

(** [create]; the sequence moves on even when the insertion fails. *)
Definition sqlp_create (name : string) (stock : Z) (price : Q) (t : product_table) : result ProductEntity * product_table :=
  let id := q_product_seq t + 1 in
  let model := mkProduct id name stock price in
  if negb (fits_column 100 name && fits_integer stock) then (Raise SQLAlchemyError, mkProductTable (q_products t) id)
  else match table_insert pd_id model (q_products t) with
       | Raise e => (Raise e, mkProductTable (q_products t) id)
       | Ok rows => (Ok (product_to_entity model), mkProductTable rows id)
       end.

(** [get_by_id], [get_by_id_with_lock] *)
Definition sqlp_get_by_id (product_id : Z) (t : product_table) : result (option ProductEntity) :=
  (let? model := scalar_one_or_none (filter (fun m => pd_id m = product_id) (q_products t)) in
   Ok (product_to_entity <$> model))%py.
Definition sqlp_get_by_id_with_lock (product_id : Z) (t : product_table) : result (option ProductEntity) :=
  (let? model := scalar_one_or_none (filter (fun m => pd_id m = product_id) (q_products t)) in
   Ok (product_to_entity <$> model))%py.

(** [deduct_stock_pessimistic]: the row stays locked until the transaction ends, so
    the check and the update see the same row. *)
Definition sqlp_deduct_stock_pessimistic (product_id quantity : Z) (t : product_table)
  : result ProductEntity * product_table :=
  match scalar_one_or_none (filter (fun m => pd_id m = product_id) (q_products t)) with
  | Raise e => (Raise e, t)
  | Ok None => (Raise ProductNotFoundException, t)
  | Ok (Some model) =>
      if pd_stock model <? quantity then (Raise InsufficientStockException, t)
      else
        let model := mkProduct (pd_id model) (pd_name model) (pd_stock model - quantity) (pd_price model) in
        if negb (fits_integer (pd_stock model)) then (Raise SQLAlchemyError, t)
        else (Ok (product_to_entity model), mkProductTable (table_update pd_id model (q_products t)) (q_product_seq t))
  end.

(** [list_all]: [ORDER BY id] *)
Definition id_leb (a b : ProductEntity) : bool := pd_id a <=? pd_id b.
Definition sqlp_list_all (p : plan) (t : product_table) : list ProductEntity :=
  product_to_entity <$> order_by id_leb p (q_products t).

Inductive pcall : Type :=
  | PCreate (name : string) (stock : Z) (price : Q)
  | PGet (product_id : Z)
  | PGetLocked (product_id : Z)
  | PDeduct (product_id quantity : Z)
  | PList.

Inductive panswer : Type :=
  | POne (p : result (option ProductEntity))
  | PMany (ps : list ProductEntity).

Definition some_of {A} (r : result A) : result (option A) := rbind r (fun a => Ok (Some a)).

Definition prun_memory (cp : pcall * plan) (r : product_repo) : panswer * product_repo :=
  match cp.1 with
  | PCreate n s p => let '(e, r') := pd_create n s p r in (POne (Ok (Some e)), r')
  | PGet i => (POne (Ok (pd_get_by_id i r)), r)
  | PGetLocked i => (POne (Ok (pd_get_by_id_with_lock i r)), r)
  | PDeduct i q => let '(e, r') := deduct_stock_pessimistic i q r in (POne (some_of e), r')
  | PList => (PMany (pd_list_all r), r)
  end.

Definition prun_sql (cp : pcall * plan) (t : product_table) : panswer * product_table :=
  match cp.1 with
  | PCreate n s p => let '(e, t') := sqlp_create n s p t in (POne (some_of e), t')
  | PGet i => (POne (sqlp_get_by_id i t), t)
  | PGetLocked i => (POne (sqlp_get_by_id_with_lock i t), t)
  | PDeduct i q => let '(e, t') := sqlp_deduct_stock_pessimistic i q t in (POne (some_of e), t')
  | PList => (PMany (sqlp_list_all cp.2 t), t)
  end.

Definition pok (cp : pcall * plan) (r : product_repo) : Prop :=
  match cp.1 with
  | PCreate name stock _ => fits_column 100 name = true /\ fits_integer stock = true
  | PDeduct _ quantity => 0 <= quantity
  | _ => True
  end.

(** ** Orders *)

(** The orders and the users they may refer to. *)
Record order_table : Type := mkOrderTable { q_orders : list OrderEntity; q_user_ids : list Z }.

Definition order_to_entity (m : OrderEntity) : OrderEntity :=
  mkOrder (or_id m) (or_user_id m) (or_total_amount m) (or_status m) (or_created_at m).

(** [create]; the database fills in [created_at]. *)
Definition sqlo_create (now generated : Z) (user_id : Z) (total_amount : Q) (status : string) (order_id : option Z)
  (t : order_table) : result OrderEntity * order_table :=
  let model := mkOrder (default generated order_id) user_id total_amount status now in
  if negb (fits_column 20 status) then (Raise SQLAlchemyError, t)
  else if bool_decide (user_id ∉ q_user_ids t) then (Raise IntegrityError, t)
  else match table_insert or_id model (q_orders t) with
       | Raise e => (Raise e, t)
       | Ok rows => (Ok (order_to_entity model), mkOrderTable rows (q_user_ids t))
       end.

Definition sqlo_get_by_id (order_id : Z) (t : order_table) : result (option OrderEntity) :=
  (let? model := scalar_one_or_none (filter (fun m => or_id m = order_id) (q_orders t)) in
   Ok (order_to_entity <$> model))%py.

(** [list_by_user_id] *)
Definition sqlo_list_by_user_id (p : plan) (user_id limit offset : Z) (t : order_table) : result (list OrderEntity) :=
  (let? models := window_rows limit offset (order_by order_leb p (filter (fun o => or_user_id o = user_id) (q_orders t))) in
   Ok (order_to_entity <$> models))%py.

Inductive ocall : Type :=
  | OCreate (now generated user_id : Z) (total_amount : Q) (status : string) (order_id : option Z)
  | OGet (order_id : Z)
  | OList (user_id limit offset : Z).

Inductive oanswer : Type :=
  | OOne (o : result (option OrderEntity))
  | OMany (os : result (list OrderEntity)).

Definition orun_memory (cp : ocall * plan) (r : order_repo) : oanswer * order_repo :=
  match cp.1 with
  | OCreate now g u a s i => let '(o, r') := or_create now g u a s i r in (OOne (Ok (Some o)), r')
  | OGet i => (OOne (Ok (or_get_by_id i r)), r)
  | OList u l o => (OMany (Ok (or_list_by_user_id u l o r)), r)
  end.

Definition orun_sql (cp : ocall * plan) (t : order_table) : oanswer * order_table :=
  match cp.1 with
  | OCreate now g u a s i => let '(o, t') := sqlo_create now g u a s i t in (OOne (some_of o), t')
  | OGet i => (OOne (sqlo_get_by_id i t), t)
  | OList u l o => (OMany (sqlo_list_by_user_id cp.2 u l o t), t)
  end.

Definition ook (user_ids : list Z) (cp : ocall * plan) (r : order_repo) : Prop :=
  match cp.1 with
  | OCreate _ g u _ s i => dict_get r (default g i) = None /\ u ∈ user_ids /\ fits_column 20 s = true
  | OList _ l o => 0 <= l /\ 0 <= o
  | _ => True
  end.

(** ** Outbox *)

Definition event_to_entity (m : OutboxEvent) : OutboxEvent :=
  mkOutboxEvent (ob_id m) (ob_event_type m) (ob_aggregate_type m) (ob_aggregate_id m) (ob_payload m) (ob_status m)
    (ob_retry_count m) (ob_created_at m) (ob_published_at m).

(** [create] of an entity *)
Definition sqlx_create (event : OutboxEvent) (t : list OutboxEvent) : result OutboxEvent * list OutboxEvent :=
  if negb (fits_column 100 (ob_event_type event) && fits_column 50 (ob_aggregate_type event)) then (Raise SQLAlchemyError, t)
  else match table_insert ob_id event t with
       | Raise e => (Raise e, t)
       | Ok rows => (Ok (event_to_entity event), rows)
       end.

(** [record_event] *)
Definition sqlx_record_event (eid now : Z) (event_type aggregate_type : string) (aggregate_id : Z)
  (payload : LedgerTransferCompletedEvent) (t : list OutboxEvent) : result OutboxEvent * list OutboxEvent :=
  sqlx_create (mkOutboxEvent eid event_type aggregate_type aggregate_id payload PENDING 0 now None) t.

(** [get_pending_events], [list_recent_events] *)
Definition sqlx_get_pending_events (p : plan) (batch_size : Z) (t : list OutboxEvent) : result (list OutboxEvent) :=
  (let? models := window_rows batch_size 0 (order_by created_leb p (filter (fun e => ob_status e = PENDING) t)) in
   Ok (event_to_entity <$> models))%py.

Definition recent_leb (a b : OutboxEvent) : bool := ob_created_at b <=? ob_created_at a.
Definition sqlx_list_recent_events (p : plan) (limit : Z) (t : list OutboxEvent) : result (list OutboxEvent) :=
  (let? models := window_rows limit 0 (order_by recent_leb p t) in Ok (event_to_entity <$> models))%py.

(** [mark_published], [mark_failed]: the status of a failed event changes only when it
    has no attempt left. *)
Definition sqlx_mark_published (event_id : Z) (status : outbox_status) (now : Z) (t : list OutboxEvent)
  : option OutboxEvent * list OutboxEvent :=
  match table_get ob_id event_id t with
  | None => (None, t)
  | Some m =>
      let m := mkOutboxEvent (ob_id m) (ob_event_type m) (ob_aggregate_type m) (ob_aggregate_id m) (ob_payload m) status
                 (ob_retry_count m) (ob_created_at m) (Some now) in
      (Some (event_to_entity m), table_update ob_id m t)
  end.

Definition sqlx_mark_failed (event_id max_retries : Z) (t : list OutboxEvent) : option OutboxEvent * list OutboxEvent :=
  match table_get ob_id event_id t with
  | None => (None, t)
  | Some m =>
      let retries := ob_retry_count m + 1 in
      let status := if max_retries <=? retries then FAILED else ob_status m in
      let m := mkOutboxEvent (ob_id m) (ob_event_type m) (ob_aggregate_type m) (ob_aggregate_id m) (ob_payload m) status
                 retries (ob_created_at m) (ob_published_at m) in
      (Some (event_to_entity m), table_update ob_id m t)
  end.

Definition sqlx_get_by_id (event_id : Z) (t : list OutboxEvent) : option OutboxEvent :=
  event_to_entity <$> table_get ob_id event_id t.

Inductive xcall : Type :=
  | XCreate (event : OutboxEvent)
  | XRecord (eid now : Z) (event_type aggregate_type : string) (aggregate_id : Z) (payload : LedgerTransferCompletedEvent)
  | XPending (batch_size : Z)
  | XPublished (event_id : Z) (status : outbox_status) (now : Z)
  | XFailed (event_id max_retries : Z)
  | XGet (event_id : Z)
  | XRecent (limit : Z).

Inductive xanswer : Type :=
  | XOne (e : result (option OutboxEvent))
  | XMany (es : result (list OutboxEvent)).

Definition xrun_memory (cp : xcall * plan) (r : outbox_repo) : xanswer * outbox_repo :=
  match cp.1 with
  | XCreate e => (XOne (Ok (Some e)), ob_create e r)
  | XRecord eid now ty agg aid pl => let '(e, r') := ob_record_event eid now ty agg aid pl r in (XOne (Ok (Some e)), r')
  | XPending n => (XMany (Ok (ob_get_pending_events (Z.to_nat n) r)), r)
  | XPublished i s now => let '(e, r') := ob_mark_published i s now r in (XOne (Ok e), r')
  | XFailed i n => let '(e, r') := ob_mark_failed i n r in (XOne (Ok e), r')
  | XGet i => (XOne (Ok (ob_get_by_id i r)), r)
  | XRecent n => (XMany (Ok (ob_list_recent_events (Z.to_nat n) r)), r)
  end.

Definition xrun_sql (cp : xcall * plan) (t : list OutboxEvent) : xanswer * list OutboxEvent :=
  match cp.1 with
  | XCreate e => let '(e', t') := sqlx_create e t in (XOne (some_of e'), t')
  | XRecord eid now ty agg aid pl => let '(e, t') := sqlx_record_event eid now ty agg aid pl t in (XOne (some_of e), t')
  | XPending n => (XMany (sqlx_get_pending_events cp.2 n t), t)
  | XPublished i s now => let '(e, t') := sqlx_mark_published i s now t in (XOne (Ok e), t')
  | XFailed i n => let '(e, t') := sqlx_mark_failed i n t in (XOne (Ok e), t')
  | XGet i => (XOne (Ok (sqlx_get_by_id i t)), t)
  | XRecent n => (XMany (sqlx_list_recent_events cp.2 n t), t)
  end.

(** A failure is reported of an event that is still pending. *)
Definition xok (cp : xcall * plan) (r : outbox_repo) : Prop :=
  match cp.1 with
  | XCreate e => dict_get r (ob_id e) = None /\ fits_column 100 (ob_event_type e) && fits_column 50 (ob_aggregate_type e) = true
  | XRecord eid _ ty agg _ _ => dict_get r eid = None /\ fits_column 100 ty && fits_column 50 agg = true
  | XPending n | XRecent n => 0 <= n
  | XFailed i _ => forall e, dict_get r i = Some e -> ob_status e = PENDING
  | _ => True
  end.

(** ** Products, orders and events: the same answers *)

Lemma product_to_entity_id m : product_to_entity m = m.
Proof. by destruct m. Qed.
Lemma order_to_entity_id m : order_to_entity m = m.
Proof. by destruct m. Qed.
Lemma event_to_entity_id m : event_to_entity m = m.
Proof. by destruct m. Qed.

(** A conversion that copies every column copies lists and options of rows. *)
Lemma copies_list {A} (f : A -> A) (l : list A) : (forall x, f x = x) -> f <$> l = l.
Proof. intros Hf. rewrite <-(list_fmap_id l) at 2. apply list_fmap_ext. intros _ x _. apply Hf. Qed.
Lemma copies_option {A} (f : A -> A) (o : option A) : (forall x, f x = x) -> f <$> o = o.
Proof. intros Hf. destruct o as [x|]; [|done]. cbn. by rewrite Hf. Qed.
#[local] Hint Resolve product_to_entity_id order_to_entity_id event_to_entity_id : core.

(** Where the window of a query is not negative it is Python's slice. *)
Lemma window_nonneg {A} (limit offset : Z) (rows : list A) : 0 <= limit -> 0 <= offset ->
  window_rows limit offset rows = Ok (take (Z.to_nat limit) (drop (Z.to_nat offset) rows)).
Proof.
  intros Hl Ho. unfold window_rows. by rewrite (proj2 (Z.ltb_ge _ _) Hl), (proj2 (Z.ltb_ge _ _) Ho).
Qed.

Record psim (r : product_repo) (t : product_table) : Prop := {
  ps_holds : holds pd_id (q_products t) (pd_store r);
  ps_seq : q_product_seq t = pd_current_id r;
  ps_bound : Forall (fun p => pd_id p <= pd_current_id r /\ fits_integer (pd_stock p) = true) (q_products t);
  ps_order : StronglySorted (fun a b => id_leb a b = true) (q_products t)
}.

Lemma psim_new r t p : psim r t -> pd_id p = pd_current_id r + 1 -> dict_get (pd_store r) (pd_id p) = None.
Proof.
  intros Hs Hid. apply dict_get_None. rewrite (holds_keys _ _ _ (ps_holds _ _ Hs)).
  intros (x & Hx & Hin)%list_elem_of_fmap. pose proof (proj1 (Forall_forall _ _) (ps_bound _ _ Hs) x Hin) as [? _]. lia.
Qed.

Lemma pagrees_create pl r t n s p : psim r t -> pok (PCreate n s p, pl) r ->
  (prun_memory (PCreate n s p, pl) r).1 = (prun_sql (PCreate n s p, pl) t).1 /\
  psim (prun_memory (PCreate n s p, pl) r).2 (prun_sql (PCreate n s p, pl) t).2.
Proof.
  intros Hs [Hn Hst]. cbn. unfold sqlp_create. rewrite Hn, Hst, (ps_seq _ _ Hs). cbn [andb negb].
  set (m := mkProduct _ _ _ _).
  destruct (holds_insert pd_id _ _ m (ps_holds _ _ Hs) (psim_new r t m Hs eq_refl)) as [-> Hh]. cbn. split; [done|].
  constructor; cbn; [exact Hh|done|..].
  - apply Forall_app. split; [|apply Forall_singleton; cbn; split; [lia|done]].
    eapply Forall_impl; [exact (ps_bound _ _ Hs)|]. intros x [? ?]. split; [lia|done].
  - apply StronglySorted_app_le; [apply Hs|by repeat constructor|]. intros x y Hx ->%list_elem_of_singleton.
    pose proof (proj1 (Forall_forall _ _) (ps_bound _ _ Hs) x Hx) as [? _]. unfold id_leb. apply Z.leb_le. cbn. lia.
Qed.

(** Updating a row in place keeps the order of the table. *)
Lemma sorted_update (R : ProductEntity -> ProductEntity -> Prop) m t : (forall a b c d, pd_id a = pd_id c -> pd_id b = pd_id d -> R a b -> R c d) ->
  StronglySorted R t -> StronglySorted R (table_update pd_id m t).
Proof.
  intros HR. unfold table_update. induction 1 as [|x t Ht IH Hx]; [constructor|]. rewrite fmap_cons. constructor; [exact IH|].
  apply Forall_fmap. eapply Forall_impl; [exact Hx|]. intros y Hy. cbn.
  apply (HR x y); [by case_decide|by case_decide|done].
Qed.

Lemma pagrees_deduct pl r t i q : psim r t -> 0 <= q ->
  (prun_memory (PDeduct i q, pl) r).1 = (prun_sql (PDeduct i q, pl) t).1 /\
  psim (prun_memory (PDeduct i q, pl) r).2 (prun_sql (PDeduct i q, pl) t).2.
Proof.
  intros Hs Hq. cbn. unfold sqlp_deduct_stock_pessimistic, deduct_stock_pessimistic.
  rewrite (holds_scalar pd_id _ _ i (ps_holds _ _ Hs)).
  destruct (dict_get (pd_store r) i) as [p|] eqn:E; [|done]. destruct (Z.ltb_spec (pd_stock p) q) as [|Hle]; [done|].
  pose proof (dict_get_elem _ _ _ E) as Hin. rewrite (proj1 (ps_holds _ _ Hs)) in Hin.
  apply list_elem_of_fmap in Hin as (x & [= -> <-] & Hin).
  pose proof (proj1 (Forall_forall _ _) (ps_bound _ _ Hs) p Hin) as [Hb Hf].
  set (m := mkProduct _ _ _ _). assert (fits_integer (pd_stock m) = true) as Hfm.
  { unfold fits_integer, m in *. cbn. apply andb_true_iff in Hf as [H1 H2]. apply Z.leb_le in H1. apply Z.ltb_lt in H2.
    apply andb_true_iff. split; [apply Z.leb_le|apply Z.ltb_lt]; lia. }
  rewrite Hfm. cbn. split; [done|]. constructor; cbn.
  - by eapply (holds_update pd_id _ _ m); [apply Hs|].
  - apply Hs.
  - apply Forall_fmap. eapply Forall_impl; [exact (ps_bound _ _ Hs)|]. intros y Hy. cbn. by case_decide.
  - apply sorted_update; [|apply Hs]. unfold id_leb. intros a b c d -> ->. done.
Qed.

Lemma pstep c r t : psim r t -> pok c r ->
  (prun_memory c r).1 = (prun_sql c t).1 /\ psim (prun_memory c r).2 (prun_sql c t).2.
Proof.
  intros Hs Hc. destruct c as [[n s p|i|i|i q|] pl]; [by apply pagrees_create|..|by apply pagrees_deduct|];
    cbn; unfold sqlp_get_by_id, sqlp_get_by_id_with_lock, sqlp_list_all;
    rewrite ?(holds_scalar pd_id _ _ i (ps_holds _ _ Hs)); cbn; rewrite ?copies_option by auto; split; try done.
  rewrite copies_list by auto. rewrite (order_by_unique _ pd_id), stable_sort_id by (done || apply Hs). unfold pd_list_all. by rewrite (holds_rows _ _ _ (ps_holds _ _ Hs)).
Qed.

Definition osim (user_ids : list Z) (r : order_repo) (t : order_table) : Prop :=
  holds or_id (q_orders t) r /\ q_user_ids t = user_ids.

Lemma ostep ids c r t : osim ids r t -> ook ids c r ->
  (orun_memory c r).1 = (orun_sql c t).1 /\ osim ids (orun_memory c r).2 (orun_sql c t).2.
Proof.
  intros [Hh Hu] Hc. destruct c as [[now g u a s i|i|u l o] pl]; cbn in *.
  - destruct Hc as (Hnew & Hin & Hf). unfold sqlo_create. rewrite Hf, Hu, bool_decide_false by auto. cbn [negb].
    set (m := mkOrder _ _ _ _ _). destruct (holds_insert or_id _ _ m Hh Hnew) as [-> Hh']. cbn. by rewrite order_to_entity_id.
  - unfold sqlo_get_by_id. rewrite (holds_scalar or_id _ _ i Hh). cbn. by rewrite copies_option.
  - unfold sqlo_list_by_user_id, or_list_by_user_id. rewrite window_nonneg by lia. cbn. rewrite copies_list by auto.
    split; [|done]. rewrite (order_by_unique _ or_id) by (done || apply NoDup_filter_fmap, Hh).
    rewrite py_slicez_nonneg by lia. unfold py_slice. rewrite (holds_rows _ _ _ Hh).
    do 2 f_equal. rewrite Z2Nat.inj_add by lia. by rewrite take_drop_commute.
Qed.

(** One event, or a page of events in the order of their creation. *)
Inductive same_events : xanswer -> xanswer -> Prop :=
  | SameEvent e : same_events (XOne e) (XOne e)
  | SamePending l l' : same_page ob_created_at l l' -> same_events (XMany (Ok l)) (XMany (Ok l'))
  | SameRecent l l' : same_page (fun e => - ob_created_at e) l l' -> same_events (XMany (Ok l)) (XMany (Ok l')).

(** The first rows of two orders of the same rows. *)
Lemma first_rows {A} (leb : A -> A -> bool) (key : A -> Z) p rows n : (forall a b, leb a b = (key a <=? key b)) ->
  same_page key (take n (stable_sort leb rows)) (take n (order_by leb p rows)).
Proof.
  intros Hleb. destruct (order_by_spec leb key p rows Hleb) as [Hp Ho], (order_by_spec leb key plan_id rows Hleb) as [Hp' Ho'].
  apply (SamePage key 0); [|done|done]. by rewrite Hp.
Qed.

Lemma xstep c r t : holds ob_id t r -> xok c r ->
  same_events (xrun_memory c r).1 (xrun_sql c t).1 /\ holds ob_id (xrun_sql c t).2 (xrun_memory c r).2.
Proof.
  intros Hh Hc. destruct c as [[e|eid now ty agg aid pl|n|i s now|i n|i|n] p]; cbn in *.
  - destruct Hc as [Hnew Hf]. unfold sqlx_create. rewrite Hf. cbn [negb].
    destruct (holds_insert ob_id _ _ e Hh Hnew) as [-> Hh']. cbn. rewrite event_to_entity_id. by split; [constructor|].
  - destruct Hc as [Hnew Hf]. unfold sqlx_record_event, sqlx_create. cbn [ob_event_type ob_aggregate_type]. rewrite Hf. cbn [negb].
    set (e := mkOutboxEvent _ _ _ _ _ _ _ _ _).
    destruct (holds_insert ob_id _ _ e Hh Hnew) as [-> Hh']. cbn. rewrite ?event_to_entity_id. by split; [constructor|].
  - unfold sqlx_get_pending_events, ob_get_pending_events. rewrite window_nonneg by lia. cbn. rewrite copies_list by auto.
    rewrite (holds_rows _ _ _ Hh). split; [|done]. by apply SamePending, first_rows.
  - unfold sqlx_mark_published, ob_mark_published. rewrite (holds_get ob_id _ _ i Hh).
    destruct (dict_get r i) as [e|] eqn:E; [|by split; [constructor|]]. cbn. split; [constructor|].
    destruct (holds_key ob_id _ _ _ _ Hh E). by eapply (holds_update ob_id _ _ (mkOutboxEvent _ _ _ _ _ _ _ _ _)).
  - unfold sqlx_mark_failed, ob_mark_failed. rewrite (holds_get ob_id _ _ i Hh).
    destruct (dict_get r i) as [e|] eqn:E; [|by split; [constructor|]]. rewrite (Hc e) by done. cbn. split; [constructor|].
    destruct (holds_key ob_id _ _ _ _ Hh E). by eapply (holds_update ob_id _ _ (mkOutboxEvent _ _ _ _ _ _ _ _ _)).
  - unfold sqlx_get_by_id. rewrite (holds_get ob_id _ _ i Hh), copies_option by auto. by split; [constructor|].
  - unfold sqlx_list_recent_events, ob_list_recent_events. rewrite window_nonneg by lia. cbn. rewrite copies_list by auto.
    rewrite (holds_rows _ _ _ Hh). split; [|done]. apply SameRecent. apply (first_rows recent_leb). intros a b. unfold recent_leb.
    destruct (Z.leb_spec (ob_created_at b) (ob_created_at a)), (Z.leb_spec (- ob_created_at a) (- ob_created_at b)); done || lia.
Qed.

(** ** Reconciliation batches *)

(** [ReconciliationBatchModel]; the items are rows of their own. *)
Record BatchRow : Type := mkBatchRow {
  br_id : Z;
  br_batch_reference : string;
  br_gateway_name : string;
  br_total_records : nat;
  br_matched_records : nat;
  br_discrepancy_records : nat;
  br_status : string;
  br_created_at : Z
}.

Record batch_table : Type := mkBatchTable { q_batches : list BatchRow; q_items : list ReconciliationItem }.

(** The row of an item: the batch it belongs to, amounts with four places. *)
Definition store_item (b_id : Z) (i : ReconciliationItem) : ReconciliationItem :=
  mkRecItem (ri_id i) b_id (ri_reference_id i) (d4 (scaled4 (ri_external_amount i)))
    ((fun a => d4 (scaled4 a)) <$> ri_internal_amount i) (ri_discrepancy_type i) (ri_resolution_status i) (ri_compensating_id i).

Definition item_fits (i : ReconciliationItem) : bool :=
  fits_column 128 (ri_reference_id i) && fits_numeric (ri_external_amount i) &&
  match ri_internal_amount i with Some a => fits_numeric a | None => true end.

(** [_to_entity] *)
Definition batch_to_entity (p : plan) (t : batch_table) (m : BatchRow) : ReconciliationBatch :=
  mkRecBatch (br_id m) (br_batch_reference m) (br_gateway_name m) (br_total_records m) (br_matched_records m)
    (br_discrepancy_records m) (br_status m) (br_created_at m)
    ((fun i => mkRecItem (ri_id i) (ri_batch_id i) (ri_reference_id i) (ri_external_amount i) (ri_internal_amount i)
                 (ri_discrepancy_type i) (ri_resolution_status i) (ri_compensating_id i))
     <$> arrange p (filter (fun i => ri_batch_id i = br_id m) (q_items t))).

(** [get_batch_by_id], [get_batch_by_reference] *)
Definition sqlr_get_batch_by_id (p : plan) (batch_id : Z) (t : batch_table) : result (option ReconciliationBatch) :=
  (let? model := scalar_one_or_none (filter (fun m => br_id m = batch_id) (q_batches t)) in
   Ok (batch_to_entity p t <$> model))%py.
Definition sqlr_get_batch_by_reference (p : plan) (ref : string) (t : batch_table) : result (option ReconciliationBatch) :=
  (let? model := scalar_one_or_none (filter (fun m => br_batch_reference m = ref) (q_batches t)) in
   Ok (batch_to_entity p t <$> model))%py.

(** The flush of a header with its items. *)
Definition flush_batch (m : BatchRow) (items : list ReconciliationItem) (t : batch_table) : result batch_table :=
  if negb (fits_column 64 (br_batch_reference m) && fits_column 64 (br_gateway_name m) && fits_column 32 (br_status m) &&
           forallb item_fits items) then Raise SQLAlchemyError
  else if existsb (fun n => bool_decide (br_id n = br_id m) || bool_decide (br_batch_reference n = br_batch_reference m)) (q_batches t)
  then Raise IntegrityError
  else if negb (bool_decide (NoDup (ri_id <$> (q_items t ++ items)))) then Raise IntegrityError
  else Ok (mkBatchTable (q_batches t ++ [m]) (q_items t ++ (store_item (br_id m) <$> items))).

(** [create_batch]: flush, then reload the batch with its items. *)
Definition sqlr_create_batch (p : plan) (b_id ts : Z) (batch_reference gateway_name : string) (total matched discrepancy : nat)
  (status : string) (items : list ReconciliationItem) (t : batch_table) : result ReconciliationBatch * batch_table :=
  match flush_batch (mkBatchRow b_id batch_reference gateway_name total matched discrepancy status ts) items t with
  | Raise e => (Raise e, t)
  | Ok t' =>
      (rbind (sqlr_get_batch_by_id p b_id t') (fun b => match b with Some b => Ok b | None => Raise SQLAlchemyError end), t')
  end.

Inductive rcall : Type :=
  | RCreate (b_id ts : Z) (batch_reference gateway_name : string) (total matched discrepancy : nat) (status : string)
      (items : list ReconciliationItem)
  | RGet (batch_id : Z)
  | RGetByReference (ref : string).

Definition ranswer : Type := result (option ReconciliationBatch).

Definition rrun_memory (cp : rcall * plan) (r : recon_repo) : ranswer * recon_repo :=
  match cp.1 with
  | RCreate b ts ref gw n m d st items => let '(x, r') := rc_create_batch b ts ref gw n m d st items r in (Ok (Some x), r')
  | RGet b => (Ok (rc_get_batch_by_id r b), r)
  | RGetByReference ref => (Ok (rc_get_batch_by_reference r ref), r)
  end.

Definition rrun_sql (cp : rcall * plan) (t : batch_table) : ranswer * batch_table :=
  match cp.1 with
  | RCreate b ts ref gw n m d st items => let '(x, t') := sqlr_create_batch cp.2 b ts ref gw n m d st items t in (some_of x, t')
  | RGet b => (sqlr_get_batch_by_id cp.2 b t, t)
  | RGetByReference ref => (sqlr_get_batch_by_reference cp.2 ref t, t)
  end.

Definition item_eqv (i j : ReconciliationItem) : Prop :=
  ri_id i = ri_id j /\ ri_batch_id i = ri_batch_id j /\ ri_reference_id i = ri_reference_id j /\
  deq (ri_external_amount i) (ri_external_amount j) /\ option_Forall2 deq (ri_internal_amount i) (ri_internal_amount j) /\
  ri_discrepancy_type i = ri_discrepancy_type j /\ ri_resolution_status i = ri_resolution_status j /\
  ri_compensating_id i = ri_compensating_id j.

Definition batch_header (b : ReconciliationBatch) : BatchRow :=
  mkBatchRow (rb_id b) (rb_batch_reference b) (rb_gateway_name b) (rb_total_records b) (rb_matched_records b)
    (rb_discrepancy_records b) (rb_status b) (rb_created_at b).

Definition batch_eqv (a b : ReconciliationBatch) : Prop :=
  batch_header a = batch_header b /\ exists items, rb_items a ≡ₚ items /\ Forall2 item_eqv items (rb_items b).

Inductive same_batch : ranswer -> ranswer -> Prop :=
  | SameBatch a b : option_Forall2 batch_eqv a b -> same_batch (Ok a) (Ok b).

Definition item_exact (i : ReconciliationItem) : Prop :=
  item_fits i = true /\ has_4_places (ri_external_amount i) = true /\
  match ri_internal_amount i with Some a => has_4_places a = true | None => True end.

(** New identifiers and reference, texts and amounts within their columns. *)
Definition rok (cp : rcall * plan) (r : recon_repo) : Prop :=
  match cp.1 with
  | RCreate b _ ref gw _ _ _ st items =>
      rc_batches r !! b = None /\ rc_by_reference r !! ref = None /\
      fits_column 64 ref && fits_column 64 gw && fits_column 32 st = true /\ Forall item_exact items /\
      NoDup (ri_id <$> items) /\
      forall u x i, rc_batches r !! u = Some x -> i ∈ rb_items x -> ri_id i ∉ ri_id <$> items
  | _ => True
  end.

Record rsim (r : recon_repo) (t : batch_table) : Prop := {
  rs_key u b : rc_batches r !! u = Some b -> rb_id b = u;
  rs_ref ref u : rc_by_reference r !! ref = Some u <-> exists b, rc_batches r !! u = Some b /\ rb_batch_reference b = ref;
  rs_rows m : m ∈ q_batches t <-> exists b, rc_batches r !! br_id m = Some b /\ batch_header b = m;
  rs_nodup : NoDup (q_batches t);
  rs_item_ids : NoDup (ri_id <$> q_items t);
  rs_items u b : rc_batches r !! u = Some b -> Forall2 item_eqv (rb_items b) (filter (fun i => ri_batch_id i = u) (q_items t));
  rs_parent : Forall (fun i => is_Some (rc_batches r !! ri_batch_id i)) (q_items t)
}.

Lemma batch_items_id (l : list ReconciliationItem) :
  (fun i => mkRecItem (ri_id i) (ri_batch_id i) (ri_reference_id i) (ri_external_amount i) (ri_internal_amount i)
              (ri_discrepancy_type i) (ri_resolution_status i) (ri_compensating_id i)) <$> l = l.
Proof. apply copies_list. by intros []. Qed.

Lemma load_batch p r t u b : rsim r t -> rc_batches r !! u = Some b -> batch_eqv b (batch_to_entity p t (batch_header b)).
Proof.
  intros Hs Hb. split; [done|]. cbn. rewrite batch_items_id, (rs_key _ _ Hs _ _ Hb).
  destruct (Permutation_Forall2 (symmetry (arrange_perm p (filter (fun i => ri_batch_id i = u) (q_items t))))
    (proj2 (Forall2_flip _ _ _) (rs_items _ _ Hs _ _ Hb))) as (items & Hp & Hi).
  exists items. split; [done|]. by apply (proj1 (Forall2_flip item_eqv _ _)).
Qed.

Lemma select_batch p r t (P : BatchRow -> Prop) `{!forall m, Decision (P m)} (o : option ReconciliationBatch) : rsim r t ->
  (forall b, o = Some b -> rc_batches r !! rb_id b = Some b) ->
  (forall u b, rc_batches r !! u = Some b -> P (batch_header b) <-> o = Some b) ->
  exists f, (let? model := scalar_one_or_none (filter P (q_batches t)) in Ok (batch_to_entity p t <$> model))%py = Ok f /\
    option_Forall2 batch_eqv o f.
Proof.
  intros Hs Ho HP. rewrite (scalar_exact _ _ (batch_header <$> o)).
  - eexists. split; [done|]. destruct o as [b|]; constructor. by eapply load_batch, Ho.
  - apply (rs_nodup _ _ Hs).
  - intros n Hn. apply (rs_rows _ _ Hs) in Hn as (b & Hb & <-). rewrite (HP _ _ Hb). split; [by intros ->|].
    destruct o as [b'|]; [|done]. cbn. intros [= Hid Hrest]. f_equal.
    pose proof (Ho _ eq_refl) as Hb'. cbn in Hb. rewrite Hid, Hb in Hb'. congruence.
  - intros n. destruct o as [b|]; [|done]. intros [= <-]. apply (rs_rows _ _ Hs). exists b. split; [by apply Ho|done].
Qed.

Lemma rget p r t b : rsim r t -> same_batch (Ok (rc_get_batch_by_id r b)) (sqlr_get_batch_by_id p b t).
Proof.
  intros Hs. unfold rc_get_batch_by_id, sqlr_get_batch_by_id.
  destruct (select_batch p r t (fun m => br_id m = b) (rc_batches r !! b) Hs) as (f & -> & Hf); [..|by constructor].
  - intros x Hx. by rewrite (rs_key _ _ Hs _ _ Hx).
  - intros u x Hx. cbn. rewrite (rs_key _ _ Hs _ _ Hx). split; [by intros <-|].
    intros Hb. rewrite <-(rs_key _ _ Hs _ _ Hb). symmetry. exact (rs_key _ _ Hs _ _ Hx).
Qed.

Lemma batch_reference_exact r t ref b : rsim r t ->
  rc_get_batch_by_reference r ref = Some b <-> rc_batches r !! rb_id b = Some b /\ rb_batch_reference b = ref.
Proof.
  intros Hs. unfold rc_get_batch_by_reference. split.
  - destruct (rc_by_reference r !! ref) as [u|] eqn:E; [|done]. intros Hb.
    apply (rs_ref _ _ Hs) in E as (b' & Hb' & Hr). assert (b' = b) as -> by congruence. by rewrite (rs_key _ _ Hs _ _ Hb).
  - intros [Hb Hr]. rewrite (proj2 (rs_ref _ _ Hs ref (rb_id b))) by eauto. done.
Qed.

Lemma rget_reference p r t ref : rsim r t ->
  same_batch (Ok (rc_get_batch_by_reference r ref)) (sqlr_get_batch_by_reference p ref t).
Proof.
  intros Hs. unfold sqlr_get_batch_by_reference.
  destruct (select_batch p r t (fun m => br_batch_reference m = ref) (rc_get_batch_by_reference r ref) Hs) as (f & -> & Hf);
    [..|by constructor].
  - intros x Hx. by apply (batch_reference_exact _ t) in Hx as [? _].
  - intros u x Hx. cbn. rewrite (batch_reference_exact _ t) by done. rewrite (rs_key _ _ Hs _ _ Hx). naive_solver.
Qed.

Definition place_item (b_id : Z) (i : ReconciliationItem) : ReconciliationItem :=
  mkRecItem (ri_id i) b_id (ri_reference_id i) (ri_external_amount i) (ri_internal_amount i) (ri_discrepancy_type i)
    (ri_resolution_status i) (ri_compensating_id i).

Lemma stored_items_eqv b items : Forall item_exact items -> Forall2 item_eqv (place_item b <$> items) (store_item b <$> items).
Proof.
  induction 1 as [|i items (_ & He & Hi) _ IH]; [constructor|]. rewrite !fmap_cons. constructor; [|done].
  repeat split; cbn; [by unfold has_4_places in He|].
  destruct (ri_internal_amount i) as [a|]; constructor. by unfold has_4_places in Hi.
Qed.

(** An item of the table is an item of the batch the dictionary holds. *)
Lemma stored_item r t i : rsim r t -> i ∈ q_items t ->
  exists b j, rc_batches r !! ri_batch_id i = Some b /\ j ∈ rb_items b /\ ri_id j = ri_id i.
Proof.
  intros Hs Hi. destruct (proj1 (Forall_forall _ _) (rs_parent _ _ Hs) i Hi) as [b Hb]. exists b.
  assert (i ∈ filter (fun k => ri_batch_id k = ri_batch_id i) (q_items t)) as [n Hn]%list_elem_of_lookup
    by by apply list_elem_of_filter.
  destruct (Forall2_lookup_r _ _ _ _ _ (rs_items _ _ Hs _ _ Hb) Hn) as (j & Hj & Hij).
  exists j. split; [done|]. split; [by eapply list_elem_of_lookup_2|]. apply Hij.
Qed.

Lemma flush_batch_ok p r t b ts ref gw n m d st items : rsim r t -> rok (RCreate b ts ref gw n m d st items, p) r ->
  flush_batch (mkBatchRow b ref gw n m d st ts) items t =
  Ok (mkBatchTable (q_batches t ++ [mkBatchRow b ref gw n m d st ts]) (q_items t ++ (store_item b <$> items))).
Proof.
  intros Hs (Hid & Href & Hf & Hex & Hnd & Hnew). unfold flush_batch.
  cbn [br_batch_reference br_gateway_name br_status br_id]. rewrite Hf. cbn [andb].
  assert (forallb item_fits items = true) as ->.
  { apply forallb_forall. intros i Hi%list_elem_of_In. apply (proj1 (Forall_forall _ _) Hex i Hi). }
  cbn [negb]. rewrite (proj2 (existsb_keys _ _ _ _ _)).
  - rewrite bool_decide_true; [done|]. rewrite fmap_app. apply NoDup_app. split; [apply (rs_item_ids _ _ Hs)|]. split; [|done].
    intros k (i & -> & Hi)%list_elem_of_fmap. destruct (stored_item r t i Hs Hi) as (x & j & Hx & Hj & <-). by eapply Hnew.
  - split; intros (k & Hk & (x & Hx & <-)%(rs_rows _ _ Hs))%list_elem_of_fmap; cbn in *; [congruence|].
    assert (rc_by_reference r !! ref = Some (rb_id x)); [|congruence]. apply (rs_ref _ _ Hs). by exists x.
Qed.

Lemma rsim_create p r t b ts ref gw n m d st items : rsim r t -> rok (RCreate b ts ref gw n m d st items, p) r ->
  rsim (rc_create_batch b ts ref gw n m d st items r).2
    (mkBatchTable (q_batches t ++ [mkBatchRow b ref gw n m d st ts]) (q_items t ++ (store_item b <$> items))).
Proof.
  intros Hs Hok. pose proof Hok as (Hid & Href & _ & Hex & Hnd & Hnew). unfold rc_create_batch. cbn [snd].
  constructor; cbn.
  - intros u x. rewrite lookup_insert. case_decide as E; [intros [= <-]; done|apply (rs_key _ _ Hs)].
  - intros ref' u. setoid_rewrite lookup_insert. case_decide as Er; case_decide as Eb; subst.
    + split; [|naive_solver]. intros _. eexists. split; [done|done].
    + split; [naive_solver|]. intros (x & Hx & Hr). assert (rc_by_reference r !! ref' = Some u); [|congruence].
      apply (rs_ref _ _ Hs). eauto.
    + rewrite (rs_ref _ _ Hs). split; [intros (x & Hx & _); congruence|]. intros (x & [= <-] & Hr). done.
    + apply (rs_ref _ _ Hs).
  - intros k. rewrite elem_of_app, (rs_rows _ _ Hs), list_elem_of_singleton. setoid_rewrite lookup_insert.
    case_decide as E; [|naive_solver]. split.
    + intros [(x & Hx & _)| ->]; [congruence|]. eexists. split; [done|done].
    + intros (x & [= <-] & <-). by right.
  - apply NoDup_snoc; [apply (rs_nodup _ _ Hs)|]. intros (x & Hx & _)%(rs_rows _ _ Hs). cbn in Hx. congruence.
  - rewrite fmap_app, <-(list_fmap_compose (store_item b)). apply NoDup_app. split; [apply (rs_item_ids _ _ Hs)|]. split; [|done].
    intros k (i & -> & Hi)%list_elem_of_fmap. destruct (stored_item r t i Hs Hi) as (x & j & Hx & Hj & <-).
    intros Hin. by eapply Hnew.
  - intros u x. rewrite lookup_insert, filter_app, filter_fmap. cbn [ri_batch_id store_item]. case_decide as E.
    + intros [= <-]. subst u. cbn. rewrite filter_none; [|].
      * rewrite (filter_all (fun _ => b = b)) by (by apply Forall_forall). by apply stored_items_eqv.
      * eapply Forall_impl; [exact (rs_parent _ _ Hs)|]. intros i [x Hx] Hi. congruence.
    + intros Hx. rewrite (filter_none (fun _ => b = u)), fmap_nil, app_nil_r by (by apply Forall_forall).
      by apply (rs_items _ _ Hs).
  - apply Forall_app. split.
    + eapply Forall_impl; [exact (rs_parent _ _ Hs)|]. intros i Hi. rewrite lookup_insert. by case_decide.
    + apply Forall_fmap, Forall_forall. intros i _. cbn. by rewrite lookup_insert_eq.
Qed.

Lemma rstep c r t : rsim r t -> rok c r ->
  same_batch (rrun_memory c r).1 (rrun_sql c t).1 /\ rsim (rrun_memory c r).2 (rrun_sql c t).2.
Proof.
  intros Hs Hc. destruct c as [[b ts ref gw n m d st items|b|ref] p]; [|by split; [apply rget|]|by split; [apply rget_reference|]].
  pose proof (rsim_create p r t b ts ref gw n m d st items Hs Hc) as Hs'.
  unfold rrun_memory, rrun_sql, sqlr_create_batch. cbn [fst snd]. rewrite (flush_batch_ok p r t b ts ref gw n m d st items Hs Hc).
  pose proof (rget p _ _ b Hs') as Hg. unfold rc_get_batch_by_id in Hg. unfold rc_create_batch in *. cbn [fst snd rc_batches] in *.
  rewrite lookup_insert_eq in Hg. split; [|exact Hs'].
  inversion Hg as [x f Hf E1 E2]. subst x. inversion Hf as [y g Hy E3 E4|]; subst. cbn. by do 2 constructor.
Qed.

(** C13: The persistent repositories refine the in-memory ones.  Over any session of
    calls whose callers meet their obligations (new identifiers, known users, texts
    and numbers within their columns, windows that are not negative, and failures
    reported only of events that are pending: [failed_after_published_differs] shows the
    two repositories part on others), whatever order the database hands rows out in,
    products and orders are answered alike call by call, outbox events alike up to the
    order among equal creation times (the answers are pages of the same events in the
    order of creation), and reconciliation batches alike up to the writing of their
    amounts and the order of their items. *)
Theorem stores_refine_memory (pcs : list (pcall * plan)) (ocs : list (ocall * plan)) (xcs : list (xcall * plan))
  (rcs : list (rcall * plan)) (user_ids : list Z)
  (Hp : session_ok prun_memory pok pcs (mkProducts [] 0)) (Ho : session_ok orun_memory (ook user_ids) ocs [])
  (Hx : session_ok xrun_memory xok xcs []) (Hr : session_ok rrun_memory rok rcs (mkReconRepo ∅ ∅)) :
  session prun_sql pcs (mkProductTable [] 0) = session prun_memory pcs (mkProducts [] 0) /\
  session orun_sql ocs (mkOrderTable [] user_ids) = session orun_memory ocs [] /\
  Forall2 same_events (session xrun_memory xcs []) (session xrun_sql xcs []) /\
  Forall2 same_batch (session rrun_memory rcs (mkReconRepo ∅ ∅)) (session rrun_sql rcs (mkBatchTable [] [])).
Proof.
  split; [symmetry; apply list_eq_Forall2|split; [symmetry; apply list_eq_Forall2|split]].
  - apply (session_refines prun_memory prun_sql pok eq psim); [intros c s t; apply pstep| |done].
    constructor; cbn; [apply holds_nil|done|apply Forall_nil_2|apply SSorted_nil].
  - apply (session_refines orun_memory orun_sql (ook user_ids) eq (osim user_ids)); [intros c s t; apply ostep| |done].
    split; [apply holds_nil|done].
  - apply (session_refines xrun_memory xrun_sql xok same_events (fun r t => holds ob_id t r)); [intros c s t; apply xstep| |done].
    apply holds_nil.
  - apply (session_refines rrun_memory rrun_sql rok same_batch rsim); [intros c s t; apply rstep| |done].
    constructor; cbn; [|..|apply NoDup_nil_2|apply NoDup_nil_2| |apply Forall_nil_2].
    + intros u b Hb. by rewrite lookup_empty in Hb.
    + intros ref u. rewrite lookup_empty. split; [done|]. intros (b & Hb & _). by rewrite lookup_empty in Hb.
    + intros k. split; [by intros ?%elem_of_nil|]. intros (b & Hb & _). by rewrite lookup_empty in Hb.
    + intros u b Hb. by rewrite lookup_empty in Hb.
Qed.

Definition ex_payload : LedgerTransferCompletedEvent := transfer_event_create 7 "ref-1" 1 2 (d4 300000) "USD" d0 5.
Definition ex_pcs : list (pcall * plan) := (., plan_rev) <$>
  [PCreate "pen" 10 (3 # 2); PDeduct 1 3; PDeduct 1 20; PGetLocked 1; PDeduct 2 1; PList].
Definition ex_ocs : list (ocall * plan) := (., plan_rev) <$>
  [OCreate 5 77 1 (9 # 1) "pending" None; OGet 77; OCreate 6 70 1 (8 # 1) "paid" None; OList 1 10 0].
Definition ex_xcs : list (xcall * plan) := (., plan_rev) <$>
  [XRecord 7 1 "ledger.transfer.completed.v1" "ledger.transfers.v1" 1 ex_payload; XPending 5; XFailed 7 3; XPublished 7 PUBLISHED 9; XRecent 5].
Definition ex_rcs : list (rcall * plan) := (., plan_rev) <$>
  [RCreate 1 4 "batch-1" "STRIPE" 1 0 1 "COMPLETED" [mkRecItem 11 0 "lost" (mkDec 7 0) None MISSING_IN_LEDGER UNRESOLVED None];
   RGet 1; RGetByReference "batch-1"; RGet 2].

Lemma stores_refine_memory_witness :
  session prun_sql ex_pcs (mkProductTable [] 0) = session prun_memory ex_pcs (mkProducts [] 0) /\
  session orun_sql ex_ocs (mkOrderTable [] [1]) = session orun_memory ex_ocs [] /\
  Forall2 same_events (session xrun_memory ex_xcs []) (session xrun_sql ex_xcs []) /\
  Forall2 same_batch (session rrun_memory ex_rcs (mkReconRepo ∅ ∅)) (session rrun_sql ex_rcs (mkBatchTable [] [])).
Proof.
  apply (stores_refine_memory ex_pcs ex_ocs ex_xcs ex_rcs [1]).
  - unfold ex_pcs. cbn [fmap list_fmap session_ok pok fst]. repeat split; lia.
  - unfold ex_ocs. cbn [fmap list_fmap session_ok ook fst]. repeat split; try lia; by left.
  - unfold ex_xcs. cbn [fmap list_fmap session_ok xok fst]. repeat split; try lia. by intros e [= <-].
  - unfold ex_rcs. cbn [fmap list_fmap session_ok rok fst]. repeat split.
    + apply Forall_cons_2; [|apply Forall_nil_2]. split; [vm_compute; reflexivity|]. split; [vm_compute; reflexivity|exact I].
    + refine (bool_decide_unpack _ _). vm_compute. exact I.
    + intros u x i H. cbn [rc_batches] in H. by rewrite lookup_empty in H.
Defined.

(** What the batch comes back with: its amount has four places. *)
Example ex_batch_amount :
  session rrun_sql ex_rcs (mkBatchTable [] []) !! 1%nat =
  Some (Ok (Some (mkRecBatch 1 "batch-1" "STRIPE" 1 0 1 "COMPLETED" 4
    [mkRecItem 11 1 "lost" (d4 70000) None MISSING_IN_LEDGER UNRESOLVED None]))).
Proof. vm_compute. reflexivity. Qed.

(** A failure reported of an event that was already published: in memory it is
    pending again and will be sent once more; in the database it stays published. *)
Example failed_after_published_differs :
  let cs := (., plan_id) <$> [XRecord 7 1 "e" "a.b" 1 ex_payload; XPublished 7 PUBLISHED 9; XFailed 7 3; XPending 5] in
  (fun a => match a with XMany (Ok es) => Some (length es) | _ => None end) <$> drop 3 (session xrun_memory cs []) = [Some 1%nat] /\
  (fun a => match a with XMany (Ok es) => Some (length es) | _ => None end) <$> drop 3 (session xrun_sql cs []) = [Some 0%nat].
Proof. split; vm_compute; reflexivity. Qed.

(** A taken order identifier: the dictionary replaces the order, the table refuses it. *)
Example taken_order_id_differs :
  let cs := (., plan_id) <$> [OCreate 5 77 1 (9 # 1) "pending" None; OCreate 6 78 2 (1 # 1) "paid" (Some 77); OGet 77] in
  (fun a => match a with OOne (Ok (Some o)) => Some (or_user_id o) | _ => None end) <$> drop 2 (session orun_memory cs []) = [Some 2] /\
  (fun a => match a with OOne (Ok (Some o)) => Some (or_user_id o) | _ => None end) <$> drop 2 (session orun_sql cs (mkOrderTable [] [1; 2])) = [Some 1].
Proof. split; vm_compute; reflexivity. Qed.
