(* ===== verification/SqlUow.v ===== *)
(** The production unit of work ([SqlAlchemyUnitOfWork] of [app/core/unit_of_work.py])
    over the tables of the persistent repositories.

    The database is the committed state of the tables; an open session works on its own
    copy, which a commit publishes and a rollback or a close drops.  One unit of work
    runs at a time.  [k_open] counts the sessions that were opened and not closed.
    [block] is [async with uow: body] for a body given as the sequence of what it does.

    [block_atomic]: what a block publishes is exactly the work before its last commit,
    whatever follows, and no way out of it leaves the session open;
    [sql_uow_refines_memory]: on blocks that commit their work, write nothing after and
    assign to no stored object, the in-memory unit of work with its shallow snapshots
    leaves the same stores. *)

From S2P Require Import Prelude PyDecimal Ledger Uow Commerce Sql SqlUserRepo SqlLedgerRepo SqlStores.

Local Open Scope Z_scope.
Local Open Scope py_scope.

(** ** The session *)

Section Session.
Context {DB : Type}.

Record sql_uow : Type := mkSqlUow {
  k_db : DB;
  k_session : option DB;
  k_open : nat
}.

(** [__init__] *)
Definition new_uow (db : DB) : sql_uow := mkSqlUow db None 0.

(** [__aenter__] *)
Definition k_aenter : M sql_uow () := fun k => (Ok (), mkSqlUow (k_db k) (Some (k_db k)) (S (k_open k))).

(** The repository properties: a call on one of the repositories of the open session. *)
Definition on_session {A} (call : DB -> result A * DB) : M sql_uow A := fun k =>
  match k_session k with
  | None => (Raise PyRuntimeError, k)
  | Some tx => let '(r, tx') := call tx in (r, mkSqlUow (k_db k) (Some tx') (k_open k))
  end.

(** [commit], [rollback]; [fails] is an exception of the driver. *)
Definition k_commit (fails : option exc) : M sql_uow () := fun k =>
  match k_session k with
  | None => (Raise PyRuntimeError, k)
  | Some tx => match fails with
               | Some e => (Raise e, k)
               | None => (Ok (), mkSqlUow tx (Some tx) (k_open k))
               end
  end.

Definition k_rollback (fails : option exc) : M sql_uow () := fun k =>
  match k_session k with
  | None => (Raise PyRuntimeError, k)
  | Some _ => match fails with
              | Some e => (Raise e, k)
              | None => (Ok (), mkSqlUow (k_db k) (Some (k_db k)) (k_open k))
              end
  end.

(** [if self.session is not None: await self.session.close(); ...]: when the driver
    raises in [close], the attributes are not reset. *)
Definition k_close (fails : option exc) : M sql_uow () := fun k =>
  match k_session k with
  | None => (Ok (), k)
  | Some _ => match fails with
              | Some e => (Raise e, k)
              | None => (Ok (), mkSqlUow (k_db k) None (k_open k - 1))
              end
  end.

(** [__aexit__] *)
Definition k_aexit (raised : bool) (rollback_fails close_fails : option exc) : M sql_uow () :=
  finally (if raised then k_rollback rollback_fails else ret ()) (k_close close_fails).

(** [async with uow: body]; an exception of [__aexit__] replaces the one of the body. *)
Definition async_with {A} (rollback_fails close_fails : option exc) (body : M sql_uow A) : M sql_uow A :=
  k_aenter ;;;
  fun k => match body k with
           | (Ok a, k') => (k_aexit false rollback_fails close_fails ;;; ret a) k'
           | (Raise e, k') => (k_aexit true rollback_fails close_fails ;;; raise e) k'
           end.

(** ** What a body does *)

Inductive act : Type :=
  | AWrite (f : DB -> DB)
  | ACommit (fails : option exc)
  | ARollback
  | AThrow (e : exc).

Fixpoint body_of (acts : list act) : M sql_uow () :=
  match acts with
  | [] => ret ()
  | AWrite f :: acts' => on_session (fun tx => (Ok (), f tx)) ;;; body_of acts'
  | ACommit fails :: acts' => k_commit fails ;;; body_of acts'
  | ARollback :: acts' => k_rollback None ;;; body_of acts'
  | AThrow e :: _ => raise e
  end.

Definition block (acts : list act) (rollback_fails close_fails : option exc) : M sql_uow () :=
  async_with rollback_fails close_fails (body_of acts).

(** What the acts publish: [db] is the committed state so far, [tx] the session's copy. *)
Fixpoint published (acts : list act) (db tx : DB) : DB :=
  match acts with
  | [] => db
  | AWrite f :: acts' => published acts' db (f tx)
  | ACommit None :: acts' => published acts' tx tx
  | ACommit (Some _) :: _ => db
  | ARollback :: acts' => published acts' db db
  | AThrow _ :: _ => db
  end.

(** How the body ends. *)
Fixpoint outcome (acts : list act) : option exc :=
  match acts with
  | [] => None
  | ACommit (Some e) :: _ => Some e
  | AThrow e :: _ => Some e
  | _ :: acts' => outcome acts'
  end.

Lemma body_run acts db tx n : exists tx',
  body_of acts (mkSqlUow db (Some tx) n) =
  (match outcome acts with None => Ok () | Some e => Raise e end, mkSqlUow (published acts db tx) (Some tx') n).
Proof.
  revert db tx. induction acts as [|[f|[e|]| |e] acts IH]; intros db tx; cbn; try by eexists.
  all: apply IH.
Qed.

Lemma block_run acts db :
  block acts None None (new_uow db) =
  (match outcome acts with None => Ok () | Some e => Raise e end, mkSqlUow (published acts db db) None 0).
Proof.
  unfold block, async_with, bind at 1, k_aenter, new_uow. cbn [k_db k_open]. destruct (body_run acts db db 1) as [tx ->].
  by destruct (outcome acts).
Qed.

(** C7: A block is atomic.  From a closed unit of work, [async with uow] publishes
    exactly the work done before the last commit that succeeded, nothing of what came
    after it or of a body that raised before committing; the body's exception comes out
    unless the rollback itself fails, or the close does; and whatever happens, a failing
    rollback included, the session is closed: none is left open, and the next call outside
    a block raises.  Only a close that fails leaves the session behind, with the same
    database. *)
Theorem block_atomic (acts : list act) (rollback_fails close_fails : option exc) (db : DB) (n : nat) :
  let '(r, k) := block acts rollback_fails close_fails (mkSqlUow db None n) in
  k_db k = published acts db db /\
  match close_fails with
  | None =>
      k = mkSqlUow (published acts db db) None n /\
      r = match outcome acts with
          | None => Ok ()
          | Some e => Raise (default e rollback_fails)
          end /\
      k_commit None k = (Raise PyRuntimeError, k) /\
      forall A (call : DB -> result A * DB), on_session call k = (Raise PyRuntimeError, k)
  | Some e => r = Raise e /\ is_Some (k_session k) /\ k_open k = S n
  end.
Proof.
  unfold block, async_with, bind at 1, k_aenter. cbn [k_db k_open]. destruct (body_run acts db db (S n)) as [tx ->].
  destruct (outcome acts) as [e|], rollback_fails as [e'|], close_fails as [e''|]; cbn; rewrite ?Nat.sub_0_r; done.
Qed.

End Session.
Arguments sql_uow : clear implicits.
Arguments act : clear implicits.

(** ** Against the in-memory unit of work

    The snapshot of [InMemoryUnitOfWork] copies the dictionaries, not the objects in them.
    The repositories of the ledger, the outbox, the batches, the products, the orders and
    the posts put a new object in the dictionary for every change, so their part of the
    state is a value ([stores] of [Uow]); the repository of the users assigns to the
    attributes of the object it holds, so its dictionary maps an identifier to an object of
    the heap, which no snapshot copies. *)

Section Memory.
Context {L X E : Type}.

Record shelves : Type := mkShelves {
  sh_stores : stores L X;
  sh_users : list (Z * nat);
  sh_objects : gmap nat E
}.

Record mem_uow : Type := mkMemUow {
  mu_live : shelves;
  mu_snapshot : option (stores L X * list (Z * nat))
}.

(** [__aenter__], [commit], [rollback], [__aexit__] of [InMemoryUnitOfWork] *)
Definition mu_aenter (u : mem_uow) : mem_uow := mkMemUow (mu_live u) (Some (sh_stores (mu_live u), sh_users (mu_live u))).
Definition mu_commit (u : mem_uow) : mem_uow := mkMemUow (mu_live u) None.
Definition mu_rollback (u : mem_uow) : mem_uow :=
  match mu_snapshot u with
  | Some (st, us) => mkMemUow (mkShelves st us (sh_objects (mu_live u))) (mu_snapshot u)
  | None => u
  end.
Definition mu_aexit (raised : bool) (u : mem_uow) : mem_uow := mu_commit (if raised then mu_rollback u else u).

Definition mem_act (a : act shelves) (u : mem_uow) : result () * mem_uow :=
  match a with
  | AWrite f => (Ok (), mkMemUow (f (mu_live u)) (mu_snapshot u))
  | ACommit None => (Ok (), mu_commit u)
  | ACommit (Some e) => (Raise e, u)
  | ARollback => (Ok (), mu_rollback u)
  | AThrow e => (Raise e, u)
  end.

Fixpoint mem_body (acts : list (act shelves)) : M mem_uow () := fun u =>
  match acts with
  | [] => (Ok (), u)
  | a :: acts' => match mem_act a u with
                  | (Ok _, u') => mem_body acts' u'
                  | (Raise e, u') => (Raise e, u')
                  end
  end.

Definition mem_block (acts : list (act shelves)) : M mem_uow () := fun u =>
  let '(r, u') := mem_body acts (mu_aenter u) in (r, mu_aexit (negb (is_ok r)) u').

(** What a reader finds: the values, and the users with what their objects hold. *)
Definition contents (us : list (Z * nat)) (objs : gmap nat E) : list (Z * option E) := prod_map id (objs !!.) <$> us.
Definition tables : Type := stores L X * list (Z * option E).
Definition tables_of (m : shelves) : tables := (sh_stores m, contents (sh_users m) (sh_objects m)).

(** Every user of the dictionary is an object of the heap. *)
Definition shelves_wf (m : shelves) : Prop := Forall (fun '(_, o) => is_Some (sh_objects m !! o)) (sh_users m).

(** A write in memory and the write of the tables it corresponds to, one that assigns to
    no object that was there before; the other acts as they are.  The in-memory commit
    cannot fail. *)
Inductive act_matches : act shelves -> act tables -> Prop :=
  | MatchWrite f g :
      (forall m, shelves_wf m -> shelves_wf (f m) /\ tables_of (f m) = g (tables_of m) /\ sh_objects m ⊆ sh_objects (f m)) ->
      act_matches (AWrite f) (AWrite g)
  | MatchCommit : act_matches (ACommit None) (ACommit None)
  | MatchRollback : act_matches ARollback ARollback
  | MatchThrow e : act_matches (AThrow e) (AThrow e).

(** A change of the values, and a new user, are such writes. *)
Lemma stores_write_matches (f : stores L X -> stores L X) :
  act_matches (AWrite (fun m => mkShelves (f (sh_stores m)) (sh_users m) (sh_objects m))) (AWrite (fun t => (f t.1, t.2))).
Proof. by constructor. Qed.

Lemma contents_grow us objs objs' : objs ⊆ objs' -> Forall (fun '(_, o) => is_Some (objs !! o)) us ->
  contents us objs' = contents us objs.
Proof.
  intros Hsub Hus. unfold contents. apply list_fmap_ext. intros i [k o] Hi. unfold prod_map. cbn. f_equal.
  destruct (proj1 (Forall_lookup _ _) Hus _ _ Hi) as [e He]. rewrite He. by eapply lookup_weaken.
Qed.

Lemma new_user_matches (k : Z) (e : E) :
  act_matches
    (AWrite (fun m => let o := fresh (dom (sh_objects m)) in
                      mkShelves (sh_stores m) (sh_users m ++ [(k, o)]) (<[o := e]> (sh_objects m))))
    (AWrite (fun t => (t.1, t.2 ++ [(k, Some e)]))).
Proof.
  constructor. intros m Hm. set (o := fresh _).
  assert (sh_objects m !! o = None) as Ho by (apply not_elem_of_dom, is_fresh).
  assert (sh_objects m ⊆ <[o := e]> (sh_objects m)) as Hsub by by apply insert_subseteq.
  split; [|split; [|done]].
  - apply Forall_app. split; [|apply Forall_singleton; exists e; apply lookup_insert_eq].
    eapply Forall_impl; [exact Hm|]. intros [k' o'] [e' He']. cbn. exists e'. by eapply lookup_weaken.
  - unfold tables_of. cbn. f_equal. unfold contents at 1. rewrite fmap_app. fold (contents (sh_users m) (<[o := e]> (sh_objects m))).
    rewrite (contents_grow _ _ _ Hsub Hm). cbn. by rewrite lookup_insert_eq.
Qed.

(** The body commits what it writes, and writes nothing after a commit. *)
Fixpoint tidy {DB} (committed dirty : bool) (acts : list (act DB)) : bool :=
  match acts with
  | [] => negb dirty
  | AWrite _ :: acts' => negb committed && tidy committed true acts'
  | ACommit None :: acts' => tidy true false acts'
  | ARollback :: acts' => tidy committed false acts'
  | ACommit (Some _) :: _ | AThrow _ :: _ => true
  end.

(** Where a block stands: [db] is what the database has published; the snapshot, while
    there is one, reads as [db]. *)
Record stands (committed dirty : bool) (db : tables) (u : mem_uow) : Prop := {
  sd_wf : shelves_wf (mu_live u);
  sd_live : committed = true \/ dirty = false -> tables_of (mu_live u) = db;
  sd_snapshot : match mu_snapshot u with
                | None => committed = true
                | Some (st, us) =>
                    committed = false /\ Forall (fun '(_, o) => is_Some (sh_objects (mu_live u) !! o)) us /\
                    (st, contents us (sh_objects (mu_live u))) = db
                end
}.

Lemma stands_write committed dirty db u f : stands committed dirty db u -> committed = false ->
  shelves_wf (f (mu_live u)) -> sh_objects (mu_live u) ⊆ sh_objects (f (mu_live u)) ->
  stands committed true db (mkMemUow (f (mu_live u)) (mu_snapshot u)).
Proof.
  intros [Hwf _ Hs] -> Hwf' Hsub. split; cbn; [done|by intros []|].
  destruct (mu_snapshot u) as [[st us]|]; [|done]. destruct Hs as (_ & Hus & <-). split; [done|].
  rewrite (contents_grow _ _ _ Hsub Hus). split; [|done]. eapply Forall_impl; [exact Hus|].
  intros [k o] [e He]. exists e. by eapply lookup_weaken.
Qed.

Lemma stands_rollback committed dirty db u : stands committed dirty db u -> 
  stands committed false db (mu_rollback u) /\ tables_of (mu_live (mu_rollback u)) = db.
Proof.
  intros Hst. pose proof Hst as [Hwf Hl Hs]. unfold mu_rollback.
  destruct (mu_snapshot u) as [[st us]|] eqn:Esn; [|subst committed; split; [split; auto; by rewrite Esn|by apply Hl; left]].
  destruct Hs as (-> & Hus & Hdb). cbn. split; [|done]. by split; cbn.
Qed.

Lemma mem_body_run acts sacts committed dirty db (u : mem_uow) : Forall2 act_matches acts sacts ->
  tidy committed dirty acts = true -> stands committed dirty db u ->
  let '(r, u') := mem_body acts u in
  r = match outcome sacts with None => Ok () | Some e => Raise e end /\
  tables_of (mu_live (mu_aexit (negb (is_ok r)) u')) = published sacts db (tables_of (mu_live u)).
Proof.
  intros Hm. revert committed dirty db u. induction Hm as [|a sa acts sacts Ha _ IH]; intros committed dirty db u Ht Hs.
  - cbn in *. split; [done|]. apply Hs. right. by destruct dirty.
  - destruct Ha as [f g Hfg| | |e]; cbn in *.
    + apply andb_true_iff in Ht as [Hc%negb_true_iff Ht]. destruct (Hfg _ (sd_wf _ _ _ _ Hs)) as (Hwf & Hg & Hsub).
      specialize (IH _ _ _ _ Ht (stands_write _ _ _ _ f Hs Hc Hwf Hsub)). cbn in IH. by rewrite Hg in IH.
    + apply (IH true false (tables_of (mu_live u)) (mu_commit u) Ht). split; cbn; [apply Hs|done|done].
    + destruct (stands_rollback _ _ _ _ Hs) as [Hs' Hl]. specialize (IH _ _ _ _ Ht Hs'). by rewrite Hl in IH.
    + split; [done|]. apply (stands_rollback _ _ _ _ Hs).
Qed.

(** C8: On blocks that commit what they write, write nothing after a commit and assign to
    no object stored before them, the unit of work over a database and the in-memory one
    with its shallow snapshots end alike: the same exception or none, and the same stores
    for the next block.  Writes of the ledger, the outbox, the batches, the products, the
    orders and the posts are of this kind, and so are new users; the assignments of
    [update_user] are not ([rollback_keeps_updated_user]). *)
Theorem sql_uow_refines_memory (acts : list (act shelves)) (sacts : list (act tables)) (m : shelves)
  (Hm : Forall2 act_matches acts sacts) (Hwf : shelves_wf m) (Ht : tidy false false acts = true) :
  let '(r, u) := mem_block acts (mkMemUow m None) in
  let '(r', k) := block sacts None None (new_uow (tables_of m)) in
  r = r' /\ tables_of (mu_live u) = k_db k /\ mu_snapshot u = None /\ k_session k = None.
Proof.
  pose proof (block_run sacts (tables_of m)) as Hk.
  assert (stands false false (tables_of m) (mu_aenter (mkMemUow m None))) as Hs by by split; cbn.
  pose proof (mem_body_run acts sacts false false _ _ Hm Ht Hs) as Hu.
  unfold mem_block. destruct (mem_body acts _) as [r u']; destruct Hu as [Hr Hl]. rewrite Hk, Hl. by subst r.
Qed.
End Memory.
Arguments shelves : clear implicits.
Arguments mem_uow : clear implicits.
Arguments mkShelves {_ _ _} _ _ _.
Arguments mkMemUow {_ _ _} _ _.

(** ** The repositories of one session *)

(** The tables of the seven repositories. *)
Record database : Type := mkDatabase {
  db_users : sql_repo;
  db_products : product_table;
  db_orders : order_table;
  db_outbox : list OutboxEvent;
  db_ledger : sql_ledger;
  db_batches : batch_table
}.

(** The properties of the unit of work: users and posts share their tables. *)
Definition uow_users {A} (call : sql_repo -> result A * sql_repo) : M (sql_uow database) A :=
  on_session (fun d => let '(r, t) := call (db_users d) in
    (r, mkDatabase t (db_products d) (db_orders d) (db_outbox d) (db_ledger d) (db_batches d))).
Definition uow_posts {A} (call : sql_repo -> result A * sql_repo) : M (sql_uow database) A :=
  on_session (fun d => let '(r, t) := call (db_users d) in
    (r, mkDatabase t (db_products d) (db_orders d) (db_outbox d) (db_ledger d) (db_batches d))).
Definition uow_products {A} (call : product_table -> result A * product_table) : M (sql_uow database) A :=
  on_session (fun d => let '(r, t) := call (db_products d) in
    (r, mkDatabase (db_users d) t (db_orders d) (db_outbox d) (db_ledger d) (db_batches d))).
Definition uow_orders {A} (call : order_table -> result A * order_table) : M (sql_uow database) A :=
  on_session (fun d => let '(r, t) := call (db_orders d) in
    (r, mkDatabase (db_users d) (db_products d) t (db_outbox d) (db_ledger d) (db_batches d))).
Definition uow_outbox {A} (call : list OutboxEvent -> result A * list OutboxEvent) : M (sql_uow database) A :=
  on_session (fun d => let '(r, t) := call (db_outbox d) in
    (r, mkDatabase (db_users d) (db_products d) (db_orders d) t (db_ledger d) (db_batches d))).
Definition uow_ledger {A} (call : sql_ledger -> result A * sql_ledger) : M (sql_uow database) A :=
  on_session (fun d => let '(r, t) := call (db_ledger d) in
    (r, mkDatabase (db_users d) (db_products d) (db_orders d) (db_outbox d) t (db_batches d))).
Definition uow_reconciliation {A} (call : batch_table -> result A * batch_table) : M (sql_uow database) A :=
  on_session (fun d => let '(r, t) := call (db_batches d) in
    (r, mkDatabase (db_users d) (db_products d) (db_orders d) (db_outbox d) (db_ledger d) t)).

Definition empty_database : database :=
  mkDatabase sql_init (mkProductTable [] 0) (mkOrderTable [] []) [] sql_ledger_empty (mkBatchTable [] []).

(** The settlement of a sale: an account, its entry and an outbox event in one block. *)
Definition sale (posting_ids : nat -> Z) (commits : bool) : M (sql_uow database) () :=
  async_with None None
    (uow_ledger (sqll_create_account 1 0 "CASH" "Cash" ASSET "usd") ;;;
     uow_ledger (sqll_create_account 2 0 "REV" "Revenue" REVENUE "usd") ;;;
     uow_outbox (sqlx_record_event 9 1 "sale" "ledger.sales" 1 ex_payload) ;;;
     uow_ledger (sqll_create_journal_entry 3 1 posting_ids "ref-1" "sale" [mkPosting 1 (d4 50000) DEBIT; mkPosting 2 (d4 50000) CREDIT] false) ;;;
     (if commits then k_commit None else ret ())).

Definition sizes (k : sql_uow database) : nat * nat * nat * nat :=
  (length (t_accounts (db_ledger (k_db k))), length (t_entries (db_ledger (k_db k))),
   length (t_postings (db_ledger (k_db k))), length (db_outbox (k_db k))).

(** Committed, everything is there; with two legs under one identifier the entry is
    refused and nothing of the block remains; without the commit nothing does either. *)
Example sale_runs :
  let run ids c := sale ids c (new_uow empty_database) in
  ((run Z.of_nat true).1, sizes (run Z.of_nat true).2) = (Ok (), (2, 1, 2, 1)%nat) /\
  ((run (fun _ => 5) true).1, sizes (run (fun _ => 5) true).2) = (Raise IntegrityError, (0, 0, 0, 0)%nat) /\
  ((run Z.of_nat false).1, sizes (run Z.of_nat false).2) = (Ok (), (0, 0, 0, 0)%nat).
Proof. repeat split; vm_compute; reflexivity. Qed.

(** ** Where the two units of work part *)

Definition ex_stores (n : Z) : stores Z () := mkStores n [] (mkReconRepo ∅ ∅) ().
(** Users hold their age. *)
Definition ex_shelves : shelves Z () Z := mkShelves (ex_stores 0) [(1, 0%nat)] {[0%nat := 30]}.
Definition grown (n : Z) (s : stores Z ()) : stores Z () := mkStores (st_ledger s + n) (st_outbox s) (st_recon s) (st_other s).
Definition add (n : Z) : act (shelves Z () Z) := AWrite (fun m => mkShelves (grown n (sh_stores m)) (sh_users m) (sh_objects m)).
Definition add_sql (n : Z) : act (tables (L:=Z) (X:=()) (E:=Z)) := AWrite (fun t => (grown n t.1, t.2)).
Definition left_memory (acts : list (act (shelves Z () Z))) : Z * list (Z * option Z) :=
  let t := tables_of (mu_live (mem_block acts (mkMemUow ex_shelves None)).2) in (st_ledger t.1, t.2).
Definition left_sql (acts : list (act (tables (L:=Z) (X:=()) (E:=Z)))) : Z * list (Z * option Z) :=
  let t := k_db (block acts None None (new_uow (tables_of ex_shelves))).2 in (st_ledger t.1, t.2).

(** Work that is never committed stays in memory and is lost in the database; work
    after a commit survives an exception in memory only. *)
Example uncommitted_work_differs :
  ((left_memory [add 1]).1, (left_sql [add_sql 1]).1) = (1, 0) /\
  ((left_memory [add 1; ACommit None; add 1; AThrow PyValueError]).1, (left_sql [add_sql 1; ACommit None; add_sql 1; AThrow PyValueError]).1) = (2, 1) /\
  ((left_memory [add 1; ACommit None; add 1]).1, (left_sql [add_sql 1; ACommit None; add_sql 1]).1) = (2, 1).
Proof. repeat split; vm_compute; reflexivity. Qed.

(** An assignment to the user's object and an exception: the database takes it back, the
    memory does not. *)
Example rollback_keeps_updated_user :
  (left_memory [AWrite (fun m => mkShelves (sh_stores m) (sh_users m) (<[0%nat := 31]> (sh_objects m))); AThrow PyValueError]).2 = [(1, Some 31)] /\
  (left_sql [AWrite (fun t => (t.1, [(1, Some 31)])); AThrow PyValueError]).2 = [(1, Some 30)].
Proof. split; vm_compute; reflexivity. Qed.

(** A block inside a block of the same unit of work: the inner one replaces the outer
    session and closes its own, so the outer session is never closed, and the outer
    block can no longer commit. *)
Example nested_block_leaks_session :
  let '(r, k) := async_with None None (async_with None None (ret ()) ;;; k_commit None) (new_uow (ex_stores 0)) in
  r = Raise PyRuntimeError /\ k_session k = None /\ k_open k = 1%nat.
Proof. vm_compute. done. Qed.

(** A committed block with a new user, and one that raises before its commit. *)
Lemma sql_uow_refines_memory_witness :
  let user := AWrite (fun m : shelves Z () Z => let o := fresh (dom (sh_objects m)) in
    mkShelves (sh_stores m) (sh_users m ++ [(2, o)]) (<[o := 40]> (sh_objects m))) in
  let user_sql := AWrite (fun t : tables => (t.1, t.2 ++ [(2, Some 40)])) in
  (left_memory [add 1; user; ACommit None; AThrow PyValueError] = left_sql [add_sql 1; user_sql; ACommit None; AThrow PyValueError] /\
   left_sql [add_sql 1; user_sql; ACommit None; AThrow PyValueError] = (1, [(1, Some 30); (2, Some 40)])) /\
  left_memory [add 1; user; AThrow PyValueError] = (0, [(1, Some 30)]).
Proof.
  intros user user_sql. assert (shelves_wf ex_shelves) as Hwf by (repeat constructor; by eexists).
  assert (forall l sl, Forall2 act_matches l sl -> tidy false false l = true -> left_memory l = left_sql sl) as T.
  { intros l sl Hm Ht. pose proof (sql_uow_refines_memory l sl ex_shelves Hm Hwf Ht) as H. unfold left_memory, left_sql.
    destruct (mem_block l _) as [r u], (block sl _ _ _) as [r' k]. destruct H as (_ & H & _). cbn [snd] in *. rewrite H. reflexivity. }
  split; [split|].
  - apply T; [|reflexivity]. repeat (apply List.Forall2_cons; [first [apply (stores_write_matches (grown 1))|apply (new_user_matches 2 40)|apply MatchCommit|apply MatchThrow]|]). apply List.Forall2_nil.
  - vm_compute. reflexivity.
  - rewrite (T [add 1; user; AThrow PyValueError] [add_sql 1; user_sql; AThrow PyValueError]); [vm_compute; reflexivity| |reflexivity].
    repeat (apply List.Forall2_cons; [first [apply (stores_write_matches (grown 1))|apply (new_user_matches 2 40)|apply MatchCommit|apply MatchThrow]|]). apply List.Forall2_nil.
Defined.
