(* ===== verification/Lifecycle.v ===== *)
(** The process around the endpoints: graceful shutdown ([app/core/lifecycle.py]), the
    middleware that every request passes ([app/core/middleware.py], [app/core/context.py],
    the request metrics of [app/core/metrics.py]), the health probes
    ([app/services/health_service.py], [app/routers/health_router.py]), the sessions of a
    request and the pools behind them ([app/core/database.py], [app/core/redis.py]) and
    the order of start-up and shutdown ([app/main.py]).

    Times are microseconds.  A request is a task that the event loop suspends between
    the two halves of [dispatch]; a trace of events is one interleaving of the tasks.
    While [wait_for_drain] sleeps, other tasks run: the environment says, for every
    sleep, how late the loop wakes up and which events happened. *)

From S2P Require Import Prelude.

Local Open Scope Z_scope.

(** ** [ShutdownManager] *)

Record ShutdownManager : Type := mkManager {
  is_shutting_down : bool;
  in_flight_requests : Z;
  shutdown_timeout : Z;
  drain_event : bool
}.

Definition new_manager (timeout : Z) : ShutdownManager := mkManager false 0 timeout false.

Definition increment_in_flight (m : ShutdownManager) : ShutdownManager :=
  mkManager (is_shutting_down m) (in_flight_requests m + 1) (shutdown_timeout m) (drain_event m).

Definition decrement_in_flight (m : ShutdownManager) : ShutdownManager :=
  let n := Z.max 0 (in_flight_requests m - 1) in
  mkManager (is_shutting_down m) n (shutdown_timeout m)
    (if (n =? 0) && is_shutting_down m then true else drain_event m).

Definition initiate_shutdown (m : ShutdownManager) : ShutdownManager :=
  if is_shutting_down m then m
  else mkManager true (in_flight_requests m) (shutdown_timeout m)
         (if in_flight_requests m =? 0 then true else drain_event m).

(** [reset], for test isolation. *)
Definition reset_manager (m : ShutdownManager) : ShutdownManager := mkManager false 0 (shutdown_timeout m) false.

(** ** Request metrics *)

Definition is_digit (c : ascii) : bool := let n := nat_of_ascii c in ((48 <=? n) && (n <=? 57))%nat.
Definition is_hex (c : ascii) : bool :=
  let n := nat_of_ascii c in is_digit c || ((97 <=? n) && (n <=? 102))%nat || ((65 <=? n) && (n <=? 70))%nat.

Fixpoint span_while (f : ascii -> bool) (l : list ascii) : nat :=
  match l with [] => O | c :: l' => if f c then S (span_while f l') else O end.

(** [re.sub]: a matcher gives the length of the match at a position, and the leftmost
    matches that do not overlap are replaced. *)
Fixpoint sub_fuel (fuel : nat) (matches : list ascii -> option nat) (by_ : list ascii) (l : list ascii) : list ascii :=
  match fuel, l with
  | S fuel', c :: l' =>
      match matches l with
      | Some (S n) => by_ ++ sub_fuel fuel' matches by_ (drop n l')
      | _ => c :: sub_fuel fuel' matches by_ l'
      end
  | _, _ => []
  end.
Definition re_sub (matches : list ascii -> option nat) (by_ : string) (s : list ascii) : list ascii :=
  sub_fuel (length s) matches (chars by_) s.

(** [/\d+] *)
Definition integer_id (l : list ascii) : option nat :=
  match l with
  | c :: l' => if bool_decide (c = "/"%char) then
                 match span_while is_digit l' with O => None | n => Some (S n) end
               else None
  | [] => None
  end.
(** [/[0-9a-fA-F]{24,64}] *)
Definition hex_id (l : list ascii) : option nat :=
  match l with
  | c :: l' => if bool_decide (c = "/"%char) then
                 let n := span_while is_hex l' in
                 if (24 <=? n)%nat then Some (S (Nat.min n 64)) else None
               else None
  | [] => None
  end.
(** A UUID: groups of 8, 4, 4, 4 and 12 hexadecimal digits. *)
Fixpoint hex_groups (sizes : list nat) (l : list ascii) : bool :=
  match sizes with
  | [] => true
  | n :: rest =>
      (n <=? span_while is_hex (take n l))%nat &&
      match rest with
      | [] => true
      | _ => match drop n l with c :: l' => bool_decide (c = "-"%char) && hex_groups rest l' | [] => false end
      end
  end.
Definition uuid_id (l : list ascii) : option nat :=
  match l with
  | c :: l' => if bool_decide (c = "/"%char) && hex_groups [8; 4; 4; 4; 12]%nat l' then Some 37%nat else None
  | [] => None
  end.
(** [\{[a-zA-Z0-9_]+\}] *)
Definition route_param (l : list ascii) : option nat :=
  match l with
  | c :: l' => if bool_decide (c = "{"%char) then
                 match span_while is_word_char l' with
                 | O => None
                 | n => match drop n l' with d :: _ => if bool_decide (d = "}"%char) then Some (S (S n)) else None | [] => None end
                 end
               else None
  | [] => None
  end.

(** [normalize_path]: the template of the matched route, or else the raw path with its
    identifiers taken out. *)
Definition normalize_path (route : option string) (raw_path : string) : string :=
  match route with
  | Some route_path => if bool_decide (route_path = "") then
                         of_chars (re_sub integer_id "/:id" (re_sub hex_id "/:id" (re_sub uuid_id "/:id" (chars raw_path))))
                       else of_chars (re_sub route_param ":id" (chars route_path))
  | None => of_chars (re_sub integer_id "/:id" (re_sub hex_id "/:id" (re_sub uuid_id "/:id" (chars raw_path))))
  end.

(** The labels of a request counter, and [PrometheusMetrics]. *)
Definition label : Type := string * string * Z.
Record request_metrics : Type := mkMetrics {
  http_requests_in_flight : Z;
  http_requests_total : gmap label Z;
  http_request_duration : gmap label (list Z)
}.
Definition new_metrics : request_metrics := mkMetrics 0 ∅ ∅.

(** ** The middleware *)

Record request : Type := mkRequest {
  rq_method : string;
  rq_route : option string;
  rq_path : string;
  rq_correlation_header : option string;
  rq_request_id_header : option string
}.

Record response : Type := mkResponse { status_code : Z; headers : list (string * string) }.

(** A non-empty string is true. *)
Definition truthy (s : option string) : bool := match s with Some s => negb (bool_decide (s = "")) | None => false end.

(** The identifier a request is known by: the client's, or a new one. *)
Definition correlation_of (rq : request) (fresh : string) : string :=
  let incoming_id := if truthy (rq_correlation_header rq) then rq_correlation_header rq else rq_request_id_header rq in
  match incoming_id with
  | Some s => if bool_decide (py_strip s = "") then fresh else py_strip s
  | None => fresh
  end.

(** What [dispatch] holds while its task is suspended. *)
Record frame : Type := mkFrame { fr_request : request; fr_correlation : string; fr_span : option (string * string); fr_start : Z }.

Record http_state : Type := mkHttp {
  manager : ShutdownManager;
  metrics : request_metrics;
  frames : gmap nat frame;
  correlation_ctx : gmap nat string;
  lost : list nat  (** tasks whose [dispatch] raised before its [try]; no state of the code *)
}.

Definition http_init (timeout : Z) : http_state := mkHttp (new_manager timeout) new_metrics ∅ ∅ [].

Definition security_headers : list (string * string) :=
  [("X-Content-Type-Options", "nosniff"); ("X-Frame-Options", "DENY");
   ("Strict-Transport-Security", "max-age=31536000; includeSubDomains");
   ("Referrer-Policy", "strict-origin-when-cross-origin"); ("X-XSS-Protection", "0")].

Definition set_headers (hs : list (string * string)) (h : list (string * string)) : list (string * string) :=
  foldl (fun h kv => dict_set h kv.1 kv.2) h hs.

(** The headers written on a response. *)
Definition decorate (shutting_down : bool) (process_time : string) (fr : frame) (r : response) : response :=
  mkResponse (status_code r)
    (set_headers security_headers
       (set_headers (match fr_span fr with
                     | Some (trace_id, span_id) => [("traceparent", "00-" +:+ trace_id +:+ "-" +:+ span_id +:+ "-01")]
                     | None => []
                     end)
          (set_headers [("X-Process-Time-Ms", process_time); ("X-Request-ID", fr_correlation fr);
                        ("X-Correlation-ID", fr_correlation fr)]
             (set_headers (if shutting_down then [("Connection", "close")] else []) (headers r))))).

(** [dispatch] up to [await call_next]: the counters move first; then, before the [try]
    begins, the headers, the tracer, [request.url] and the log are used, and an exception
    there ([prelude], with whether the identifier was bound by then) leaves at once. *)
Definition dispatch_begin (task : nat) (rq : request) (fresh : string) (span : option (string * string)) (now : Z)
  (prelude : option (bool * exc)) (st : http_state) : result () * http_state :=
  let manager := increment_in_flight (manager st) in
  let metrics := mkMetrics (http_requests_in_flight (metrics st) + 1) (http_requests_total (metrics st)) (http_request_duration (metrics st)) in
  let cid := correlation_of rq fresh in
  let bound := <[task := cid]> (correlation_ctx st) in
  match prelude with
  | Some (was_bound, e) =>
      (Raise e, mkHttp manager metrics (frames st) (if was_bound : bool then bound else correlation_ctx st) (task :: lost st))
  | None => (Ok (), mkHttp manager metrics (<[task := mkFrame rq cid span now]> (frames st)) bound (lost st))
  end.

(** The rest of [dispatch], the [finally] block included: the application answered, or
    raised an exception, which goes on. *)
Definition dispatch_end (task : nat) (fr : frame) (outcome : result response) (process_time : string) (now : Z)
  (st : http_state) : result response * http_state :=
  let answer := match outcome with
                | Ok r => Ok (decorate (is_shutting_down (manager st)) process_time fr r)
                | Raise e => Raise e
                end in
  let status := match outcome with Ok r => status_code r | Raise _ => 500 end in
  let lbl := (rq_method (fr_request fr), normalize_path (rq_route (fr_request fr)) (rq_path (fr_request fr)), status) in
  let total := http_requests_total (metrics st) in
  let durations := http_request_duration (metrics st) in
  (answer,
   mkHttp (decrement_in_flight (manager st))
     (mkMetrics (http_requests_in_flight (metrics st) - 1) (<[lbl := default 0 (total !! lbl) + 1]> total)
        (<[lbl := default [] (durations !! lbl) ++ [now - fr_start fr]]> durations))
     (delete task (frames st)) (delete task (correlation_ctx st)) (lost st)).

(** ** Interleavings *)

Inductive event : Type :=
  | EvBegin (task : nat) (rq : request) (fresh : string) (span : option (string * string)) (now : Z) (prelude : option (bool * exc))
  | EvEnd (task : nat) (outcome : result response) (process_time : string) (now : Z)
  | EvSignal.

(** One event; a task begins once and ends once. *)
Definition step (ev : event) (st : http_state) : http_state :=
  match ev with
  | EvBegin task rq fresh span now prelude =>
      match frames st !! task with None => (dispatch_begin task rq fresh span now prelude st).2 | Some _ => st end
  | EvEnd task outcome process_time now =>
      match frames st !! task with Some fr => (dispatch_end task fr outcome process_time now st).2 | None => st end
  | EvSignal => mkHttp (initiate_shutdown (manager st)) (metrics st) (frames st) (correlation_ctx st) (lost st)
  end.

Definition run_events (evs : list event) (st : http_state) : http_state := foldl (fun st ev => step ev st) st evs.

(** ** [wait_for_drain]

    [env i] is what the [i]-th sleep brings: how much later than asked the loop wakes
    the waiter, and the events of the other tasks meanwhile. *)

Definition environment : Type := nat -> Z * list event.

Definition sleep_duration (timeout elapsed : Z) : Z := Z.min 100000 (Z.max 1000 (timeout - elapsed)).

Record drain_result : Type := mkDrain { drained : bool; slept : nat; elapsed_time : Z; drain_state : http_state }.

(** The polling loop; [None] when the fuel is out. *)
Fixpoint drain_loop (fuel : nat) (env : environment) (timeout : Z) (i : nat) (elapsed : Z) (st : http_state)
  : option drain_result :=
  match fuel with
  | O => None
  | S fuel' =>
      if 0 <? in_flight_requests (manager st) then
        if timeout <=? elapsed then Some (mkDrain false i elapsed st)
        else let '(late, evs) := env i in
             drain_loop fuel' env timeout (S i) (elapsed + sleep_duration timeout elapsed + late) (run_events evs st)
      else Some (mkDrain true i elapsed st)
  end.

Definition wait_for_drain (fuel : nat) (env : environment) (timeout : option Z) (st : http_state) : option drain_result :=
  let effective_timeout := default (shutdown_timeout (manager st)) timeout in
  let st := step EvSignal st in
  if in_flight_requests (manager st) =? 0 then Some (mkDrain true 0 0 st)
  else drain_loop fuel env effective_timeout 0 0 st.

(** ** Health probes *)

(** A dependency as a probe meets it within its time limit. *)
Inductive dependency : Type :=
  | Disabled
  | Answers (truthy_answer : bool)
  | TimesOut
  | Fails (exception_name : string).

Record readiness : Type := mkReadiness { rd_status : string; rd_checks : list (string * string) }.

(** [check_readiness]; the answer of [SELECT 1] is not looked at, that of [PING] is. *)
Definition check_readiness (session redis : dependency) : bool * readiness :=
  let '(database, db_healthy) :=
    match session with
    | Disabled => ("disabled", true)
    | Answers _ => ("healthy", true)
    | TimesOut => ("unhealthy: query timed out", false)
    | Fails name => ("unhealthy: " +:+ name, false)
    end in
  let '(cache, redis_healthy) :=
    match redis with
    | Disabled => ("disabled", true)
    | Answers true => ("healthy", true)
    | Answers false => ("unhealthy: ping returned falsy", false)
    | TimesOut => ("unhealthy: ping timed out", false)
    | Fails name => ("unhealthy: " +:+ name, false)
    end in
  let all_healthy := db_healthy && redis_healthy in
  (all_healthy, mkReadiness (if all_healthy then "ready" else "unready") [("database", database); ("redis", cache)]).

(** [readiness_probe]: status code and body. *)
Inductive probe_body : Type :=
  | Draining (in_flight : Z)
  | Checked (r : readiness).

Definition readiness_probe (m : ShutdownManager) (session redis : dependency) : Z * probe_body :=
  if is_shutting_down m then (503, Draining (in_flight_requests m))
  else let '(is_ready, payload) := check_readiness session redis in
       (if is_ready then 200 else 503, Checked payload).

(** [HealthCheckService]: the startup flag, and the two probes that consult nothing else. *)
Record HealthCheckService : Type := mkHealth { start_time : Z; started : bool }.
Definition set_started (b : bool) (h : HealthCheckService) : HealthCheckService := mkHealth (start_time h) b.
Definition check_startup (now : Z) (h : HealthCheckService) : bool * (string * Z) :=
  let uptime := now - start_time h in
  if started h then (true, ("started", uptime)) else (false, ("starting", uptime)).
Definition startup_probe (now : Z) (h : HealthCheckService) : Z * (string * Z) :=
  let '(is_started, payload) := check_startup now h in (if is_started then 200 else 503, payload).
Definition check_liveness (pid threads : Z) : string * Z * Z := ("alive", pid, threads).

(** ** The session of a request *)

(** What the endpoint does to the generator, and what commit does. *)
Inductive ending : Type :=
  | Completes
  | Throws (e : exc)
  | Cancelled.

Inductive session_action : Type := Commit | Rollback | Close.

(** [get_db_session]: the actions on the session in order, and how the generator ends.
    A cancellation is no [Exception]. *)
Definition get_db_session (body commit rollback : ending) : list session_action * ending :=
  let handler e := match rollback with Completes => ([Rollback; Close], Throws e) | other => ([Rollback; Close], other) end in
  match body with
  | Completes =>
      match commit with
      | Completes => ([Commit; Close], Completes)
      | Throws e => let '(acts, out) := handler e in (Commit :: acts, out)
      | Cancelled => ([Commit; Close], Cancelled)
      end
  | Throws e => handler e
  | Cancelled => ([Close], Cancelled)
  end.

(** [_build_engine_and_pool_kwargs] *)
Record db_settings : Type := mkDbSettings {
  db_statement_timeout_ms : Z; db_idle_in_transaction_timeout_ms : Z; db_lock_timeout_ms : Z;
  db_pool_pre_ping : bool; db_pool_recycle : Z; db_pool_size : Z; db_max_overflow : Z;
  db_replica_pool_size : Z; db_replica_max_overflow : Z; db_pool_timeout : Z
}.
Inductive connect_args : Type :=
  | ServerSettings (statement_timeout idle_timeout lock_timeout : Z)
  | SqliteArgs
  | NoArgs.
Record pool_kwargs : Type := mkPoolKwargs { pk_pre_ping : bool; pk_recycle : Z; pk_limits : option (Z * Z * Z) }.

Definition build_engine_and_pool_kwargs (settings : db_settings) (url : string) (is_replica : bool) : connect_args * pool_kwargs :=
  let args := if py_startswith url "postgresql" then
                ServerSettings (db_statement_timeout_ms settings) (db_idle_in_transaction_timeout_ms settings) (db_lock_timeout_ms settings)
              else if py_startswith url "sqlite" then SqliteArgs else NoArgs in
  let is_sqlite_memory := py_in ":memory:" url || py_in "mode=memory" url in
  let limits := if is_sqlite_memory then None
                else Some (if is_replica then db_replica_pool_size settings else db_pool_size settings,
                           if is_replica then db_replica_max_overflow settings else db_max_overflow settings,
                           db_pool_timeout settings) in
  (args, mkPoolKwargs (db_pool_pre_ping settings) (db_pool_recycle settings) limits).

(** [replica_url]: the primary's when unset. *)
Definition replica_url (database_url : string) (read_replica_url : option string) : string :=
  if truthy read_replica_url then default database_url read_replica_url else database_url.

(** ** The Redis client of the process *)

Inductive client : Type := Server (id : nat) | Fake (id : nat).

Record redis_pool : Type := mkRedisPool {
  rp_client : option client;
  rp_pool : bool;
  rp_is_fallback : bool;
  rp_fallback_loop : option nat;
  rp_next : nat
}.
Definition redis_pool_init : redis_pool := mkRedisPool None false false None 0.

(** [init_redis_pool]: the server when it answers the ping, else a store in memory.
    The pool was created before the ping, unless its address is bad. *)
Definition init_redis_pool (address_ok ping_ok fake_ok : bool) (loop : nat) (p : redis_pool) : result () * redis_pool :=
  if address_ok && ping_ok then (Ok (), mkRedisPool (Some (Server (rp_next p))) true false (rp_fallback_loop p) (S (rp_next p)))
  else if fake_ok then (Ok (), mkRedisPool (Some (Fake (rp_next p))) false true (Some loop) (S (rp_next p)))
  else (Raise RedisError, mkRedisPool (rp_client p) (address_ok || rp_pool p) (rp_is_fallback p) (rp_fallback_loop p) (rp_next p)).

(** [close_redis_pool]: errors of the client and of the pool are logged. *)
Definition close_redis_pool (p : redis_pool) : redis_pool :=
  mkRedisPool None false false (rp_fallback_loop p) (rp_next p).

(** [get_redis] on the event loop [loop]; [closed] tells which loops are closed. *)
Definition get_redis (address_ok ping_ok fake_ok : bool) (closed : nat -> bool) (loop : nat) (p : redis_pool)
  : result client * redis_pool :=
  let stale := match rp_client p, rp_fallback_loop p with
               | Some _, Some l => negb (l =? loop)%nat || closed l
               | _, _ => true
               end in
  let p := if rp_is_fallback p && stale
           then mkRedisPool (Some (Fake (rp_next p))) (rp_pool p) (rp_is_fallback p) (Some loop) (S (rp_next p)) else p in
  match rp_client p with
  | Some c => (Ok c, p)
  | None =>
      match init_redis_pool address_ok ping_ok fake_ok loop p with
      | (Raise e, p) => (Raise e, p)
      | (Ok _, p) => match rp_client p with Some c => (Ok c, p) | None => (Raise PyRuntimeError, p) end
      end
  end.

(** ** Start-up and shutdown *)

Inductive stage : Type :=
  | VerifyDatabase | InitRedis | InitRabbitMQ | InitKafka | RegisterHandlers | SeedBloomFilter | InitTracer | RegisterSignals
  | WaitForDrain | ShutdownTracer | CloseKafka | CloseRabbitMQ | CloseRedis | DisposePrimary | DisposeReplica.

#[global] Instance stage_eq_dec : EqDecision stage.
Proof. solve_decision. Defined.

Definition startup_stages : list stage :=
  [VerifyDatabase; InitRedis; InitRabbitMQ; InitKafka; RegisterHandlers; SeedBloomFilter; InitTracer; RegisterSignals].
Definition shutdown_stages : list stage :=
  [WaitForDrain; ShutdownTracer; CloseKafka; CloseRabbitMQ; CloseRedis; DisposePrimary; DisposeReplica].

(** Stages run one after the other; an exception ends the sequence. *)
Fixpoint run_stages (outcome : stage -> result ()) (l : list stage) : list stage * result () :=
  match l with
  | [] => ([], Ok ())
  | s :: l' => match outcome s with
               | Ok _ => let '(done_, res) := run_stages outcome l' in (s :: done_, res)
               | Raise e => ([s], Raise e)
               end
  end.

(** [lifespan]: the stages that were started, and whether the application served. *)
Definition lifespan (outcome : stage -> result ()) : list stage * bool * result () :=
  match run_stages outcome startup_stages with
  | (started_, Raise e) => (started_, false, Raise e)
  | (started_, Ok _) => let '(stopped, res) := run_stages outcome shutdown_stages in (started_ ++ stopped, true, res)
  end.

(** ** Accounting of requests *)

(** The label under which the end of a request is counted. *)
Definition end_label (st : http_state) (ev : event) : list label :=
  match ev with
  | EvEnd task outcome _ _ =>
      match frames st !! task with
      | Some fr => [(rq_method (fr_request fr), normalize_path (rq_route (fr_request fr)) (rq_path (fr_request fr)),
                     match outcome with Ok r => status_code r | Raise _ => 500 end)]
      | None => []
      end
  | _ => []
  end.

Fixpoint ended_labels (evs : list event) (st : http_state) : list label :=
  match evs with [] => [] | ev :: evs' => end_label st ev ++ ended_labels evs' (step ev st) end.

Definition label_count (lbl : label) (ls : list label) : nat := length (filter (fun l => l = lbl) ls).

(** The requests the counters hold: those under way, and those lost. *)
Definition held (st : http_state) : nat := (size (frames st) + length (lost st))%nat.

Lemma held_zero st : held st = 0%nat <-> frames st = ∅ /\ lost st = [].
Proof.
  unfold held. split.
  - intros H. split; [apply map_size_empty_inv; lia|apply nil_length_inv; lia].
  - intros [-> ->]. by rewrite map_size_empty.
Qed.

(** What holds between events: the counter, the gauge and the tasks agree. *)
Record accounted (st : http_state) : Prop := {
  acc_manager : in_flight_requests (manager st) = Z.of_nat (held st);
  acc_gauge : http_requests_in_flight (metrics st) = Z.of_nat (held st);
  acc_ctx task fr : frames st !! task = Some fr -> correlation_ctx st !! task = Some (fr_correlation fr);
  acc_stray task : is_Some (correlation_ctx st !! task) -> is_Some (frames st !! task) \/ task ∈ lost st;
  acc_event : drain_event (manager st) = true -> is_shutting_down (manager st) = true;
  acc_idle : is_shutting_down (manager st) = true -> held st = 0%nat -> drain_event (manager st) = true
}.

Lemma accounted_init timeout : accounted (http_init timeout).
Proof. constructor; cbn; try done. intros task. rewrite lookup_empty. by intros []. Qed.

Lemma step_accounted ev st : accounted st -> accounted (step ev st).
Proof.
  intros [Hm Hg Hc Hst He Hi]. destruct ev as [task rq fresh span now [[b e]|]|task outcome pt now|]; cbn [step].
  - destruct (frames st !! task) as [fr|] eqn:E; [by constructor|].
    constructor; cbn; unfold held in *; cbn; [lia|lia| | |done|lia].
    + intros t fr Ht. destruct b; [|auto]. rewrite lookup_insert_ne; [auto|]. intros <-. congruence.
    + intros t Ht. rewrite elem_of_cons. destruct b; [|naive_solver]. rewrite lookup_insert in Ht. case_decide; naive_solver.
  - destruct (frames st !! task) as [fr|] eqn:E; [by constructor|].
    constructor; cbn; unfold held in *; cbn; rewrite ?map_size_insert_None by done; [lia|lia| | |done|lia].
    + intros t fr. rewrite !lookup_insert. case_decide; [by intros [= <-]|auto].
    + intros t. rewrite !lookup_insert. case_decide; [eauto|auto].
  - destruct (frames st !! task) as [fr|] eqn:E; [|by constructor].
    assert (size (frames st) = S (size (delete task (frames st)))) as Hsz
      by (rewrite map_size_delete_Some by eauto; assert (size (frames st) <> 0%nat) by (intros H0%map_size_empty_inv; by rewrite H0 in E); lia).
    constructor; cbn; unfold held in *; cbn; [lia|lia| | | |].
    + intros t fr'. rewrite !lookup_delete. case_decide; [done|auto].
    + intros t. rewrite !lookup_delete. case_decide; [intros []; done|auto].
    + case_match eqn:E'; [|done]. intros _. by apply andb_true_iff in E' as [_ ?].
    + intros Hs H. rewrite Hs, andb_true_r. case_match eqn:E'; [done|]. apply Z.eqb_neq in E'. lia.
  - unfold initiate_shutdown. destruct (is_shutting_down (manager st)) eqn:E; constructor; cbn; try done; try by rewrite E.
    intros _ H. change (held st = 0%nat) in H. rewrite Hm, H. done.
Qed.

Lemma run_accounted evs st : accounted st -> accounted (run_events evs st).
Proof. revert st. induction evs as [|ev evs IH]; intros st H; [done|]. by apply IH, step_accounted. Qed.

Lemma step_totals ev st lbl :
  default 0 (http_requests_total (metrics (step ev st)) !! lbl) =
    default 0 (http_requests_total (metrics st) !! lbl) + Z.of_nat (label_count lbl (end_label st ev)) /\
  length (default [] (http_request_duration (metrics (step ev st)) !! lbl)) =
    (length (default [] (http_request_duration (metrics st) !! lbl)) + label_count lbl (end_label st ev))%nat.
Proof.
  destruct ev as [task rq fresh span now [[b e]|]|task outcome pt now|]; cbn [step end_label].
  - destruct (frames st !! task); cbn; lia.
  - destruct (frames st !! task); cbn; lia.
  - destruct (frames st !! task) as [fr|]; [|cbn; lia]. cbn [dispatch_end snd metrics http_requests_total http_request_duration].
    set (l := (_, _, _)). clearbody l. unfold label_count. rewrite !lookup_insert, filter_cons.
    destruct (decide (l = lbl)) as [->|]; [rewrite !decide_True by done|rewrite !decide_False by done; cbn; by rewrite Z.add_0_r, Nat.add_0_r].
    cbn [default from_option Datatypes.id]. by rewrite length_app.
  - cbn. lia.
Qed.

Lemma run_totals evs st lbl :
  default 0 (http_requests_total (metrics (run_events evs st)) !! lbl) =
    default 0 (http_requests_total (metrics st) !! lbl) + Z.of_nat (label_count lbl (ended_labels evs st)) /\
  length (default [] (http_request_duration (metrics (run_events evs st)) !! lbl)) =
    (length (default [] (http_request_duration (metrics st) !! lbl)) + label_count lbl (ended_labels evs st))%nat.
Proof.
  revert st. induction evs as [|ev evs IH]; intros st; [cbn; lia|]. cbn [run_events foldl ended_labels].
  destruct (IH (step ev st)) as [H1 H2], (step_totals ev st lbl) as [H3 H4]. unfold run_events in H1, H2.
  unfold label_count in *. rewrite filter_app, length_app. lia.
Qed.

(** C16: whatever the interleaving of requests that begin, answer or raise, and of
    termination signals, the in-flight counter that draining waits for and the gauge
    that is exported both equal the number of requests under way plus the number of
    requests lost: those whose [dispatch] raised between the increment and its [try],
    which nothing takes out again ([lost_request_blocks_drain]).  Each request under way
    has its own correlation identifier bound in its task, and no task that ended, lost
    ones apart, has one; and each counter and each histogram has one sample per request
    that ended under its label, failures counted as 500. *)
Theorem request_accounting timeout evs :
  let st := run_events evs (http_init timeout) in
  in_flight_requests (manager st) = Z.of_nat (size (frames st) + length (lost st)) /\
  http_requests_in_flight (metrics st) = Z.of_nat (size (frames st) + length (lost st)) /\
  (Forall (fun ev => match ev with EvBegin _ _ _ _ _ (Some _) => False | _ => True end) evs -> lost st = []) /\
  (forall task, task ∉ lost st -> correlation_ctx st !! task = fr_correlation <$> frames st !! task) /\
  (forall lbl, default 0 (http_requests_total (metrics st) !! lbl) =
                 Z.of_nat (label_count lbl (ended_labels evs (http_init timeout))) /\
               length (default [] (http_request_duration (metrics st) !! lbl)) =
                 label_count lbl (ended_labels evs (http_init timeout))).
Proof.
  intros st. subst st. destruct (run_accounted evs _ (accounted_init timeout)) as [H1 H2 H3 H4 _ _].
  split; [done|]. split; [done|]. split; [|split].
  - generalize (http_init timeout) (eq_refl : lost (http_init timeout) = []). clear. intros st Hst H. revert st Hst.
    induction H as [|ev evs Hev _ IH]; intros st Hst; [done|]. apply IH.
    destruct ev as [task rq fresh span now [[b e]|]|task outcome pt now|]; cbn [step]; [done|by destruct (frames st !! task)..|done].
  - intros task Htask. destruct (frames _ !! task) as [fr|] eqn:E; [by apply H3|]. cbn.
    apply eq_None_not_Some. intros [Hs|Hs]%H4; [by destruct Hs; congruence|done].
  - intros lbl. apply (run_totals evs (http_init timeout) lbl).
Qed.

(** ** Draining ends *)

(** Rounds that the loop can still need before the timeout. *)
Definition rounds_left (timeout elapsed : Z) : nat :=
  if timeout <=? elapsed then 1 else S (S (Z.to_nat ((timeout - elapsed) / 100000))).

Lemma rounds_decrease timeout elapsed late : elapsed < timeout -> 0 <= late ->
  (rounds_left timeout (elapsed + sleep_duration timeout elapsed + late) < rounds_left timeout elapsed)%nat.
Proof.
  intros Hlt Hlate. unfold rounds_left, sleep_duration. rewrite (proj2 (Z.leb_gt timeout elapsed)) by lia.
  set (rem := timeout - elapsed). assert (0 < rem) as Hrem by (subst rem; lia).
  case_match eqn:E; [lia|]. apply Z.leb_gt in E.
  assert (100000 <= rem) as Hbig by (subst rem; lia).
  rewrite (Z.max_r 1000), Z.min_l by lia.
  assert ((timeout - (elapsed + 100000 + late)) / 100000 <= (rem - 100000) / 100000) as H
    by (apply Z.div_le_mono; subst rem; lia).
  replace (rem - 100000) with (rem + (-1) * 100000) in H by lia. rewrite Z.div_add in H by lia.
  assert (1 <= rem / 100000) by (apply Z.div_le_lower_bound; lia).
  rewrite (Z.max_r 1000), Z.min_l in * by lia. lia.
Qed.

(** When a loop that started with [st] at [elapsed] returns. *)
Lemma drain_loop_ends env timeout lateness :
  (forall i, 0 <= (env i).1 <= lateness) -> forall fuel i elapsed st,
  (rounds_left timeout elapsed <= fuel)%nat -> accounted st -> 0 <= elapsed ->
  elapsed <= Z.max 0 (timeout + 1000 + lateness) ->
  exists d, drain_loop fuel env timeout i elapsed st = Some d /\
    (slept d < i + rounds_left timeout elapsed)%nat /\
    drain_state d = run_events (concat ((fun k => (env k).2) <$> seq i (slept d - i))) st /\ (i <= slept d)%nat /\
    (drained d = true <-> frames (drain_state d) = ∅ /\ lost (drain_state d) = []) /\
    (drained d = false -> timeout <= elapsed_time d) /\
    elapsed_time d <= Z.max 0 (timeout + 1000 + lateness).
Proof.
  intros Henv. induction fuel as [|fuel IH]; intros i elapsed st Hfuel Hacc H0 Hup.
  { unfold rounds_left in Hfuel. case_match; lia. }
  assert (0 < rounds_left timeout elapsed)%nat as Hpos by (unfold rounds_left; case_match; lia).
  cbn [drain_loop]. rewrite (acc_manager _ Hacc). case_match eqn:E.
  - apply Z.ltb_lt in E. case_match eqn:E'.
    + apply Z.leb_le in E'. eexists; split; [done|]. cbn. rewrite Nat.sub_diag. cbn.
      split; [lia|]. split; [done|]. split; [done|]. split; [|done]. rewrite <-held_zero. split; [done|lia].
    + apply Z.leb_gt in E'. specialize (Henv i) as Hi. destruct (env i) as [late evs] eqn:Ei. cbn in Hi.
      pose proof (rounds_decrease timeout elapsed late E') as Hdec.
      assert (0 <= sleep_duration timeout elapsed <= Z.max 1000 (timeout - elapsed)) as Hsl by (unfold sleep_duration; lia).
      destruct (IH (S i) (elapsed + sleep_duration timeout elapsed + late) (run_events evs st)) as (d & -> & H1 & H2 & H3 & H4 & H5 & H6);
        [lia|by apply run_accounted|lia|lia|].
      exists d. split; [done|]. split; [lia|]. split; [|split; [lia|done]].
      replace (slept d - i)%nat with (S (slept d - S i)) by lia. cbn. rewrite Ei. cbn.
      rewrite H2. unfold run_events. by rewrite foldl_app.
  - apply Z.ltb_ge in E. eexists; split; [done|]. cbn. rewrite Nat.sub_diag. cbn.
    split; [lia|]. split; [done|]. split; [done|]. split; [|done]. rewrite <-held_zero. split; [lia|done].
Qed.

Lemma signal_shuts_down st : is_shutting_down (manager (step EvSignal st)) = true.
Proof. cbn. unfold initiate_shutdown. by destruct (is_shutting_down (manager st)) eqn:E. Qed.

Lemma shutdown_stays evs st : is_shutting_down (manager st) = true ->
  is_shutting_down (manager (run_events evs st)) = true.
Proof.
  revert st. induction evs as [|ev evs IH]; intros st H; [done|]. apply IH.
  destruct ev as [task rq fresh span now [[b e]|]|task outcome pt now|]; cbn [step]; [by destruct (frames st !! task)..|apply signal_shuts_down].
Qed.

(** C17: draining is bounded and tells the truth.  Whatever requests begin and end while
    it sleeps, and however late (by at most [lateness] a time) the loop wakes it, the
    wait returns within [timeout / 0.1 s + 2] rounds and within the timeout, plus one
    millisecond, plus one lateness; it returns true exactly when no request is under
    way at that moment and none was lost, and false only once the timeout has passed;
    and from then on the readiness probe answers 503 whatever the dependencies say. *)
Theorem drain_is_bounded env timeout lateness evs t0 :
  (forall i, 0 <= (env i).1 <= lateness) -> 0 <= timeout ->
  let st := run_events evs (http_init t0) in
  exists d, wait_for_drain (rounds_left timeout 0) env (Some timeout) st = Some d /\
    (slept d <= Z.to_nat (timeout / 100000) + 1)%nat /\
    elapsed_time d <= timeout + 1000 + lateness /\
    drain_state d = run_events (EvSignal :: concat ((fun k => (env k).2) <$> seq 0 (slept d))) st /\
    (drained d = true <-> frames (drain_state d) = ∅ /\ lost (drain_state d) = []) /\
    (drained d = false -> timeout <= elapsed_time d) /\
    (forall session redis, (readiness_probe (manager (drain_state d)) session redis).1 = 503).
Proof.
  intros Henv Ht st. subst st. set (st := run_events evs (http_init t0)). pose proof (Henv 0%nat) as Hl.
  assert (accounted (step EvSignal st)) as Hacc by apply step_accounted, run_accounted, accounted_init.
  pose proof (signal_shuts_down st) as Hsig.
  assert (forall d, is_shutting_down (manager (drain_state d)) = true ->
    forall session redis, (readiness_probe (manager (drain_state d)) session redis).1 = 503) as Hprobe
    by (intros d Hd session redis; unfold readiness_probe; by rewrite Hd).
  unfold wait_for_drain. cbn [default from_option Datatypes.id]. rewrite (acc_manager _ Hacc). case_match eqn:E.
  - eexists; split; [done|]. cbn [slept elapsed_time drained drain_state].
    split; [lia|]. split; [lia|]. split; [done|]. apply Z.eqb_eq in E.
    split; [|split; [done|intros session redis; unfold readiness_probe; by rewrite Hsig]].
    rewrite <-held_zero. split; [lia|done].
  - destruct (drain_loop_ends env timeout lateness Henv (rounds_left timeout 0) 0 0 (step EvSignal st))
      as (d & -> & H1 & H2 & _ & H3 & H4 & H5); [done|done|lia|lia|].
    exists d. split; [done|]. rewrite Nat.sub_0_r in H2. split; [|split; [lia|split; [exact H2|split; [done|split; [done|]]]]].
    + unfold rounds_left in H1. rewrite Z.sub_0_r in H1. case_match; lia.
    + apply Hprobe. rewrite H2. by apply shutdown_stays.
Qed.

Definition demo_request : request := mkRequest "GET" None "/orders/42" (Some "  ") (Some "client-7").
Definition demo_env : environment :=
  fun i => if (i =? 1)%nat then (300, [EvEnd 0 (Raise PyRuntimeError) "1.00" 9]) else (0, []).

Lemma drain_is_bounded_witness :
  exists d, wait_for_drain (rounds_left 250000 0) demo_env (Some 250000)
              (run_events [EvBegin 0 demo_request "uuid-1" None 0 None] (http_init 30000000)) = Some d /\
    drained d = true /\ elapsed_time d <= 250000 + 1000 + 300.
Proof.
  destruct (drain_is_bounded demo_env 250000 300 [EvBegin 0 demo_request "uuid-1" None 0 None] 30000000)
    as (d & E & _ & Hup & Hst & Hdr & _); [|lia|].
  - intros i. unfold demo_env. destruct (i =? 1)%nat; cbn; lia.
  - exists d. split; [exact E|]. split; [|exact Hup]. vm_compute in E. by injection E as <-.
Defined.

(** A request whose [dispatch] raises before the [try], as [request.url] does of a
    malformed [Host], is counted for ever: with nothing under way the wait runs into its
    timeout. *)
Example lost_request_blocks_drain :
  let st := run_events [EvBegin 0 demo_request "uuid-1" None 0 (Some (true, PyValueError))] (http_init 30000000) in
  frames st = ∅ /\ in_flight_requests (manager st) = 1 /\ http_requests_in_flight (metrics st) = 1 /\
  drained <$> wait_for_drain (rounds_left 250000 0) (fun _ => (0, [])) (Some 250000) st = Some false.
Proof. by vm_compute. Qed.

(** A request that arrives after the counter has reached zero is served: the middleware
    does not refuse it, and the drain event stays set although a request is under way. *)
Example event_outlives_drain :
  let st := run_events [EvSignal; EvBegin 0 demo_request "uuid-1" None 0 None] (http_init 30000000) in
  drain_event (manager st) = true /\ in_flight_requests (manager st) = 1.
Proof. by vm_compute. Qed.

(** ** What a response carries *)

Fixpoint header_of (hs : list (string * string)) (k : string) : option string :=
  match hs with
  | [] => None
  | (k', v) :: hs' => match header_of hs' k with
                      | Some w => Some w
                      | None => if decide (k' = k) then Some v else None
                      end
  end.

Lemma get_set_headers hs h k : dict_get (set_headers hs h) k =
  match header_of hs k with Some v => Some v | None => dict_get h k end.
Proof.
  revert h. induction hs as [|[k' v] hs IH]; intros h; [done|]. unfold set_headers in *. cbn [foldl header_of].
  rewrite IH, dict_get_set. destruct (header_of hs k); [done|]. cbn [fst snd]. by case_decide.
Qed.

Lemma header_of_other hs k : k ∉ hs.*1 -> header_of hs k = None.
Proof.
  induction hs as [|[k' v] hs IH]; [done|]. rewrite fmap_cons, not_elem_of_cons. intros [Hk Hin]. cbn in *.
  rewrite IH by done. by rewrite decide_False by congruence.
Qed.

(** Every answer of the application leaves with the five security headers, the
    correlation identifier twice, the time it took, its trace context when there is a
    valid one, and a request to close the connection when the process is shutting down;
    other headers are as the application set them.  An exception leaves with none. *)
Theorem response_headers task fr outcome process_time now st :
  match (dispatch_end task fr outcome process_time now st).1 with
  | Raise e => outcome = Raise e
  | Ok r => exists r0, outcome = Ok r0 /\ status_code r = status_code r0 /\
      (forall k v, (k, v) ∈ security_headers -> dict_get (headers r) k = Some v) /\
      dict_get (headers r) "X-Request-ID" = Some (fr_correlation fr) /\
      dict_get (headers r) "X-Correlation-ID" = Some (fr_correlation fr) /\
      dict_get (headers r) "X-Process-Time-Ms" = Some process_time /\
      (forall t s, fr_span fr = Some (t, s) ->
         dict_get (headers r) "traceparent" = Some ("00-" +:+ t +:+ "-" +:+ s +:+ "-01")) /\
      (is_shutting_down (manager st) = true -> dict_get (headers r) "Connection" = Some "close") /\
      (forall k, k ∉ security_headers.*1 ++ ["traceparent"; "X-Process-Time-Ms"; "X-Request-ID"; "X-Correlation-ID"; "Connection"] ->
         dict_get (headers r) k = dict_get (headers r0) k)
  end.
Proof.
  destruct outcome as [r0|e]; cbn [dispatch_end fst]; [|done]. exists r0. split; [done|]. split; [done|].
  unfold decorate. cbn [headers]. split; [|split; [|split; [|split; [|split; [|split]]]]].
  - intros k v Hkv. rewrite get_set_headers. unfold security_headers in *.
    repeat (apply elem_of_cons in Hkv as [[= -> ->]|Hkv]; [done|]). by apply not_elem_of_nil in Hkv.
  - rewrite !get_set_headers. by destruct (fr_span fr) as [[]|].
  - rewrite !get_set_headers. by destruct (fr_span fr) as [[]|].
  - rewrite !get_set_headers. by destruct (fr_span fr) as [[]|].
  - intros t s ->. by rewrite !get_set_headers.
  - intros ->. rewrite !get_set_headers. by destruct (fr_span fr) as [[]|].
  - intros k Hk. apply not_elem_of_app in Hk as [Hk1 Hk2]. rewrite !get_set_headers.
    rewrite (header_of_other security_headers) by done. rewrite !header_of_other; [done|..];
      destruct (fr_span fr) as [[]|], (is_shutting_down (manager st)); set_solver.
Qed.

(** The correlation identifier is never empty nor padded, provided fresh ones are not;
    a client's [X-Correlation-ID] comes first.  A blank one still hides a good
    [X-Request-ID]. *)
Lemma correlation_nonempty rq fresh : py_strip fresh = fresh -> fresh <> "" ->
  correlation_of rq fresh <> "" /\ py_strip (correlation_of rq fresh) = correlation_of rq fresh.
Proof.
  intros Hs Hne. unfold correlation_of. case_match; [|done]. case_bool_decide; [done|].
  split; [done|apply py_strip_idemp].
Qed.

Example blank_header_hides_request_id : correlation_of demo_request "uuid-1" = "uuid-1".
Proof. by vm_compute. Qed.

(** ** Probes, sessions and stages *)

(** The pod takes traffic exactly when it is not draining and neither dependency is
    down; a draining pod does not even ask them. *)
Lemma readiness_exact m session redis :
  (readiness_probe m session redis).1 = 200 <->
  is_shutting_down m = false /\ (session = Disabled \/ exists b, session = Answers b) /\
  (redis = Disabled \/ redis = Answers true).
Proof.
  unfold readiness_probe. destruct (is_shutting_down m); [cbn; naive_solver|].
  destruct session as [|b| |n], redis as [|[]| |n']; cbn; split; intros H; try discriminate; eauto 8; naive_solver.
Qed.

(** The session of a request is closed exactly once, last, however the request ends;
    its work is committed exactly when the endpoint completed and the commit did; and
    an exception of either, but not a cancellation, rolls it back first. *)
Theorem session_lifecycle body commit rollback :
  let '(actions, outcome) := get_db_session body commit rollback in
  (exists acts, actions = acts ++ [Close] /\ Close ∉ acts) /\
  (outcome = Completes <-> body = Completes /\ commit = Completes) /\
  (Commit ∈ actions <-> body = Completes) /\
  (Rollback ∈ actions <-> exists e, body = Throws e \/ body = Completes /\ commit = Throws e) /\
  (forall e, body = Throws e -> rollback = Completes -> outcome = Throws e).
Proof.
  destruct body as [|e|], commit as [|e'|], rollback as [|e''|]; cbn;
    (split; [match goal with |- exists acts, ?a = _ /\ _ => exists (removelast a) end; split; [done|set_solver]|]);
    (split; [naive_solver|]); (split; [set_solver|]); (split; [|naive_solver]);
    rewrite ?elem_of_cons, elem_of_nil; naive_solver.
Qed.

(** A client is shared by all requests of one loop: once obtained, the same one comes
    back until the pool is closed; and a fallback store never outlives its loop. *)
Lemma redis_client_shared a1 p1 f1 a2 p2 f2 closed loop p c p' :
  get_redis a1 p1 f1 closed loop p = (Ok c, p') -> closed loop = false ->
  get_redis a2 p2 f2 closed loop p' = (Ok c, p') /\
  (rp_is_fallback p' = true -> rp_fallback_loop p' = Some loop).
Proof.
  intros H Hc. assert (rp_client p' = Some c /\ (rp_is_fallback p' = true -> rp_fallback_loop p' = Some loop)) as [H1 H2].
  { revert H. unfold get_redis. destruct p as [[c0|] pool fb fl next]; cbn.
    - destruct fb; cbn.
      + destruct fl as [l|]; cbn; [|by intros [= <- <-]]. destruct (Nat.eqb_spec l loop) as [->|]; cbn; [|by intros [= <- <-]].
        rewrite Hc. cbn. by intros [= <- <-].
      + by intros [= <- <-].
    - destruct fb; cbn; [by intros [= <- <-]|]. unfold init_redis_pool. destruct (a1 && p1), f1; cbn; by intros [= <- <-]. }
  split; [|done]. unfold get_redis. rewrite H1. destruct (rp_is_fallback p') eqn:E; cbn; [|by rewrite H1].
  rewrite H2 by done. rewrite Nat.eqb_refl, Hc. cbn. by rewrite H1.
Qed.

Lemma run_stages_prefix outcome l : exists rest, l = (run_stages outcome l).1 ++ rest /\
  ((run_stages outcome l).2 = Ok () -> rest = []).
Proof.
  induction l as [|s l (rest & IH & Hok)]; [by exists []|]. cbn. destruct (outcome s) as [u|e]; [|by exists l].
  destruct (run_stages outcome l) as [done_ res]. cbn in *. exists rest. by rewrite IH at 1.
Qed.

(** Nothing is closed before draining has finished, and nothing is closed at all when
    start-up failed: the connections that were opened stay open. *)
Lemma lifespan_order outcome :
  let '(stages, served, res) := lifespan outcome in
  (exists rest, startup_stages ++ shutdown_stages = stages ++ rest) /\
  (served = false -> forall s, s ∈ shutdown_stages -> s ∉ stages).
Proof.
  unfold lifespan. destruct (run_stages_prefix outcome startup_stages) as (r1 & E1 & O1).
  destruct (run_stages outcome startup_stages) as [s1 [[]|e]]; cbn [fst snd] in *.
  - rewrite (O1 eq_refl), app_nil_r in E1. subst s1. destruct (run_stages_prefix outcome shutdown_stages) as (r2 & E2 & O2).
    destruct (run_stages outcome shutdown_stages) as [s2 res]. cbn [fst snd] in *. split; [|done].
    exists r2. by rewrite <-app_assoc, <-E2.
  - split; [exists (r1 ++ shutdown_stages); by rewrite app_assoc, <-E1|].
    intros _ s Hs Hin. assert (s ∈ startup_stages) as Hs' by (rewrite E1; set_solver).
    unfold startup_stages, shutdown_stages in *. set_solver.
Qed.

(** One stage that raises on the way down leaves every later resource open. *)
Example failing_close_leaks_pools :
  let outcome s := if decide (s = CloseKafka) then Raise PyTimeoutError else Ok () in
  exists stages, lifespan outcome = (stages, true, Raise PyTimeoutError) /\ last stages = Some CloseKafka /\
    DisposePrimary ∉ stages.
Proof. eexists. split; [vm_compute; reflexivity|]. split; [done|]. set_solver. Qed.

(** ** Labels of raw paths

    The substitutions work segment by segment: a match starts at a slash and ends
    before the next one. *)

Definition path_of (segments : list (list ascii)) : list ascii := concat ((cons "/"%char) <$> segments).
Definition no_slash (s : list ascii) : Prop := "/"%char ∉ s.
Definition at_boundary (rest : list ascii) : Prop := rest = [] \/ exists r, rest = "/"%char :: r.

Record segment_matcher (m : list ascii -> option nat) : Prop := {
  sm_start c l : c <> "/"%char -> m (c :: l) = None;
  sm_local s rest : no_slash s -> at_boundary rest -> m ("/"%char :: s ++ rest) = m ("/"%char :: s);
  sm_length s n : m ("/"%char :: s) = Some (S n) -> (n <= length s)%nat
}.

Definition seg_sub (m : list ascii -> option nat) (s : list ascii) : list ascii :=
  match m ("/"%char :: s) with Some (S n) => chars ":id" ++ drop n s | _ => s end.

Lemma path_boundary segs : at_boundary (path_of segs).
Proof. destruct segs as [|s segs]; [by left|right]. by eexists. Qed.

Lemma sub_skip m by_ s rest k : segment_matcher m -> no_slash s ->
  sub_fuel (length s + k) m by_ (s ++ rest) = s ++ sub_fuel k m by_ rest.
Proof.
  intros Hm. unfold no_slash. induction s as [|c s IH]; [done|]. rewrite not_elem_of_cons. intros [Hc Hs].
  cbn. rewrite (sm_start _ Hm) by done. by rewrite IH.
Qed.

Lemma sub_path m fuel segs : segment_matcher m -> Forall no_slash segs -> (length (path_of segs) <= fuel)%nat ->
  sub_fuel fuel m (chars "/:id") (path_of segs) = path_of (seg_sub m <$> segs).
Proof.
  intros Hm Hs. revert fuel. induction Hs as [|s segs Hns _ IH]; intros fuel Hf; [by destruct fuel|].
  change (path_of (s :: segs)) with ("/"%char :: s ++ path_of segs) in *. cbn in Hf. rewrite length_app in Hf.
  destruct fuel as [|fuel]; [lia|]. cbn [sub_fuel]. rewrite (sm_local _ Hm) by (done || apply path_boundary).
  rewrite fmap_cons. change (path_of (?a :: ?b)) with ("/"%char :: a ++ path_of b). unfold seg_sub at 1.
  assert (forall t, no_slash t -> (length t <= length s)%nat ->
    sub_fuel fuel m (chars "/:id") (t ++ path_of segs) = t ++ path_of (seg_sub m <$> segs)) as Hrest.
  { intros t Ht Hlt. replace fuel with (length t + (fuel - length t))%nat by lia. rewrite sub_skip by done.
    rewrite IH by lia. done. }
  destruct (m ("/"%char :: s)) as [[|n]|] eqn:E; [by rewrite Hrest| |by rewrite Hrest].
  pose proof (sm_length _ Hm _ _ E) as Hn. rewrite drop_app_le by done. rewrite Hrest; [by rewrite <-app_assoc| |].
  - intros H. apply Hns. by apply (subseteq_drop n).
  - rewrite length_drop. lia.
Qed.

Lemma span_boundary f s rest : f "/"%char = false -> at_boundary rest -> span_while f (s ++ rest) = span_while f s.
Proof.
  intros Hf Hr. induction s as [|c s IH]; cbn; [|by rewrite IH]. destruct Hr as [->|[r ->]]; cbn; by rewrite ?Hf.
Qed.

Lemma span_length f s : (span_while f s <= length s)%nat.
Proof. induction s as [|c s IH]; cbn; [lia|]. destruct (f c); lia. Qed.

Lemma span_all f s : forallb f s = true -> span_while f s = length s.
Proof. induction s as [|c s IH]; cbn; [done|]. destruct (f c); cbn; [|done]. intros H. by rewrite IH. Qed.

Lemma integer_matcher : segment_matcher integer_id.
Proof.
  constructor.
  - intros c l Hc. cbn. by rewrite bool_decide_false.
  - intros s rest _ Hr. cbn. by rewrite span_boundary.
  - intros s n. cbn. pose proof (span_length is_digit s). destruct (span_while is_digit s); [done|]. intros [= <-]. lia.
Qed.

Lemma hex_matcher : segment_matcher hex_id.
Proof.
  constructor.
  - intros c l Hc. cbn -[Nat.leb]. by rewrite bool_decide_false.
  - intros s rest _ Hr. unfold hex_id. by rewrite span_boundary.
  - intros s n. unfold hex_id. rewrite bool_decide_true by done. pose proof (span_length is_hex s).
    case_match; [|done]. intros [= <-]. lia.
Qed.

Lemma hex_groups_length sizes s : sizes <> [] -> hex_groups sizes s = true ->
  (sum_list sizes + length sizes <= S (length s))%nat.
Proof.
  revert s. induction sizes as [|n sizes IH]; intros s; [done|]. intros _. cbn [hex_groups sum_list length].
  intros [Hn Hr]%andb_true_iff. apply Nat.leb_le in Hn. pose proof (span_length is_hex (take n s)) as Hsp.
  rewrite length_take in Hsp. destruct sizes as [|n' sizes]; [cbn; lia|].
  destruct (drop n s) as [|c l'] eqn:E; [done|]. apply andb_true_iff in Hr as [_ Hr].
  specialize (IH l' ltac:(done) Hr). apply (f_equal length) in E. rewrite length_drop in E. cbn in E, IH |- *. lia.
Qed.

Lemma hex_groups_local sizes s rest : no_slash s -> at_boundary rest -> hex_groups sizes (s ++ rest) = hex_groups sizes s.
Proof.
  revert s. induction sizes as [|n sizes IH]; intros s Hs Hr; [done|]. cbn [hex_groups].
  destruct (decide (n <= length s)%nat) as [Hle|Hgt].
  - rewrite take_app_le, drop_app_le by done. f_equal. destruct sizes as [|n' sizes]; [done|].
    destruct (drop n s) as [|c l'] eqn:E; cbn [app].
    + destruct Hr as [->|[r ->]]; [done|]. by rewrite bool_decide_false.
    + f_equal. apply IH; [|done]. intros H. apply Hs. apply (subseteq_drop n). rewrite E. by right.
  - pose proof (span_length is_hex s). rewrite take_app_ge, (take_ge s n) by lia.
    assert (at_boundary (take (n - length s) rest)) as Hr'.
    { destruct Hr as [->|[r ->]]; [left; by rewrite take_nil|]. destruct (n - length s)%nat; [by left|]. right. by eexists. }
    rewrite span_boundary by done. by rewrite (proj2 (Nat.leb_gt n (span_while is_hex s))) by lia.
Qed.

Lemma uuid_matcher : segment_matcher uuid_id.
Proof.
  constructor.
  - intros c l Hc. unfold uuid_id. by rewrite bool_decide_false.
  - intros s rest Hs Hr. unfold uuid_id. by rewrite hex_groups_local.
  - intros s n. unfold uuid_id. rewrite bool_decide_true by done. cbn [andb]. case_match eqn:E; [|done].
    intros [= <-]. apply hex_groups_length in E; [|done]. cbn in E. lia.
Qed.

Definition normalize_segment (s : list ascii) : list ascii := seg_sub integer_id (seg_sub hex_id (seg_sub uuid_id s)).

Lemma seg_sub_no_slash m s : no_slash s -> no_slash (seg_sub m s).
Proof.
  unfold no_slash, seg_sub. intros Hs. destruct (m _) as [[|n]|]; try done. intros [H|H]%elem_of_app.
  - revert H. cbn. set_solver.
  - apply Hs. by apply (subseteq_drop n).
Qed.

Lemma re_sub_path m segs : segment_matcher m -> Forall no_slash segs ->
  re_sub m "/:id" (path_of segs) = path_of (seg_sub m <$> segs) /\ Forall no_slash (seg_sub m <$> segs).
Proof.
  intros Hm Hs. split; [by apply sub_path|]. apply Forall_fmap. apply (Forall_impl _ _ _ Hs). intros s. apply seg_sub_no_slash.
Qed.

Lemma normalize_segmentwise segs : Forall no_slash segs ->
  normalize_path None (of_chars (path_of segs)) = of_chars (path_of (normalize_segment <$> segs)).
Proof.
  intros Hs. unfold normalize_path. rewrite chars_of_chars.
  destruct (re_sub_path _ _ uuid_matcher Hs) as [-> H1]. destruct (re_sub_path _ _ hex_matcher H1) as [-> H2].
  destruct (re_sub_path _ _ integer_matcher H2) as [-> _]. by rewrite <-!list_fmap_compose.
Qed.

(** A numeric identifier, and a word of a route. *)
Definition identifier (s : list ascii) : bool := forallb is_digit s && (0 <? length s)%nat && (length s <=? 64)%nat.
Definition literal (s : list ascii) : Prop := no_slash s /\ match s with c :: _ => is_hex c = false | [] => True end.

Lemma digit_hex c : is_digit c = true -> is_hex c = true.
Proof. unfold is_hex. by intros ->. Qed.

Lemma digits_hex s : forallb is_digit s = true -> forallb is_hex s = true.
Proof.
  intros H. apply forallb_forall. intros c Hc. by apply digit_hex, (proj1 (forallb_forall _ _) H).
Qed.

Lemma digits_no_groups n m sizes s : forallb is_digit s = true -> hex_groups (n :: m :: sizes) s = false.
Proof.
  intros Hs. cbn [hex_groups]. destruct (drop n s) as [|c l] eqn:E; [apply andb_false_r|].
  assert (c ∈ s) as Hc by (apply (subseteq_drop n); rewrite E; left).
  apply list_elem_of_In, (proj1 (forallb_forall _ _) Hs) in Hc.
  rewrite (bool_decide_false (c = "-"%char)); [apply andb_false_r|]. intros ->. done.
Qed.

Lemma normalize_identifier s : identifier s = true -> normalize_segment s = chars ":id".
Proof.
  unfold identifier. rewrite !andb_true_iff, Nat.ltb_lt, Nat.leb_le. intros [[Hd Hpos] Hlen].
  unfold normalize_segment. assert (seg_sub uuid_id s = s) as ->.
  { unfold seg_sub, uuid_id. by rewrite digits_no_groups, andb_false_r. }
  unfold seg_sub at 2, hex_id. rewrite bool_decide_true, (span_all is_hex) by (done || by apply digits_hex).
  destruct (24 <=? length s)%nat eqn:E.
  - rewrite Nat.min_l, drop_ge by done. by vm_compute.
  - unfold seg_sub, integer_id. rewrite bool_decide_true, (span_all is_digit) by done.
    destruct (length s) as [|n] eqn:El; [lia|]. by rewrite drop_ge, app_nil_r by lia.
Qed.

Lemma normalize_literal s : literal s -> normalize_segment s = s.
Proof.
  intros [_ Hs]. assert (span_while is_hex s = 0%nat /\ span_while is_digit s = 0%nat) as [H1 H2].
  { destruct s as [|c s]; [done|]. cbn. rewrite Hs. destruct (is_digit c) eqn:E; [by rewrite digit_hex in Hs|done]. }
  unfold normalize_segment. assert (seg_sub uuid_id s = s) as ->.
  { unfold seg_sub, uuid_id. cbn [hex_groups]. destruct s as [|c s]; [done|]. cbn [take span_while]. by rewrite Hs. }
  assert (seg_sub hex_id s = s) as -> by (unfold seg_sub, hex_id; by rewrite H1).
  unfold seg_sub, integer_id. by rewrite H2.
Qed.

(** The labels of unmatched paths do not multiply with numeric identifiers: when
    every segment of a path is either a word that does not start with a hexadecimal
    digit or a number of at most 64 digits, each number becomes [:id] and each word
    stays, so all the paths that differ only in their numbers share one label. *)
Theorem identifiers_share_a_label segs :
  Forall (fun s => identifier s = true \/ literal s) segs ->
  normalize_path None (of_chars (path_of segs)) =
    of_chars (path_of ((fun s => if identifier s then chars ":id" else s) <$> segs)).
Proof.
  intros Hs. rewrite normalize_segmentwise.
  - f_equal. f_equal. apply list_fmap_ext. intros i s Hi. rewrite Forall_lookup in Hs.
    destruct (identifier s) eqn:E; [by apply normalize_identifier|]. destruct (Hs i s Hi) as [?|?]; [congruence|].
    by apply normalize_literal.
  - apply (Forall_impl _ _ _ Hs). intros s [Hid|[? _]]; [|done]. unfold identifier in Hid.
    rewrite !andb_true_iff in Hid. destruct Hid as [[Hd _] _]. intros Hin%list_elem_of_In.
    by apply (proj1 (forallb_forall _ _) Hd) in Hin.
Qed.

Lemma identifiers_share_a_label_witness :
  normalize_path None "/orders/42/items/7" = normalize_path None "/orders/918273/items/1".
Proof.
  transitivity "/orders/:id/items/:id".
  - refine (identifiers_share_a_label (chars <$> ["orders"; "42"; "items"; "7"]) _).
    repeat (constructor; [first [by left | right; split; [|done]; unfold no_slash; cbn; set_solver]|]). constructor.
  - symmetry. refine (identifiers_share_a_label (chars <$> ["orders"; "918273"; "items"; "1"]) _).
    repeat (constructor; [first [by left | right; split; [|done]; unfold no_slash; cbn; set_solver]|]). constructor.
Defined.

(** A segment that only starts with digits is cut in two, and the tail stays in the
    label; so does the tail of a long hexadecimal identifier. *)
Example identifier_tails_stay :
  normalize_path None "/items/12ab" = "/items/:idab" /\ normalize_path None "/items/7-of-9" = "/items/:id-of-9" /\
  normalize_path None "/u/123e4567-e89b-12d3-a456-426614174000/x" = "/u/:id/x" /\
  normalize_path (Some "/orders/{order_id}") "/orders/5" = "/orders/:id" /\
  normalize_path (Some "/files/{name:path}") "/files/a" = "/files/{name:path}".
Proof. by vm_compute. Qed.
