(* ===== verification/LedgerApi.v ===== *)
(** The ledger's HTTP interface ([app/routers/ledger_router.py]): every endpoint over
    the services it is given, in the state they share.

    The state is the world of the transfer service (the unit of work over the stores,
    the Redis servers, the fraud engine, the position in the stream of generated ids)
    together with the messages handed to Kafka.  One request runs at a time.  The
    endpoints of the domain service run in a request session ([get_db_session]), which
    takes everything back when the endpoint raises; the others open the unit of work
    themselves.  Payloads and query parameters are checked as their schemas declare;
    a refused one raises [PydanticValidationError].

    [books_stay_balanced]: no sequence of requests within the precision of [Decimal],
    failing ones included, unbalances the ledger or rewrites its history
    ([oversized_entry_unbalances]: a larger entry does); [failed_request_changes_nothing]:
    a request that raises anything but a Redis error leaves every store as it was. *)

From S2P Require Import Prelude PyDecimal Money Ledger LedgerDomain Redis DistLock Uow OutboxRelay Fraud LedgerTransfer.
From S2P Require Import Reconciliation Guards Sql SqlLedgerRepo.
From stdpp Require Import pretty.

Local Open Scope Z_scope.
Local Open Scope py_scope.

(** ** Requests and responses *)

Definition between (lo hi : nat) (s : string) : bool := (lo <=? String.length s)%nat && (String.length s <=? hi)%nat.
Definition positive4 (d : decimal) : bool := dltb d0 d && has_4_places d.

(** [JournalEntryCreateDTO], [FundTransferRequestDTO], [EvaluateFraudRequestDTO],
    [ReconciliationBatchRequestDTO]: the declared constraints. *)
Definition entry_valid (d : JournalEntryCreateDTO) : bool :=
  between 1 128 (jec_reference_id d) && between 1 255 (jec_description d) && (2 <=? length (jec_postings d))%nat &&
  forallb (fun p => positive4 (p_amount p)) (jec_postings d).

Definition transfer_valid (q : transfer_request) : bool :=
  positive4 (t_amount q) && dleb d0 (fee_amount q) && has_4_places (fee_amount q) &&
  between 1 128 (t_reference_id q) && between 1 255 (t_description q) &&
  match exchange_rate q with Some r => dltb d0 r | None => true end.

Definition item_valid (i : SettlementItemDTO) : bool :=
  between 1 128 (si_reference_id i) && dltb d0 (si_amount i) && between 3 3 (si_currency i).

Definition feed_valid (batch_reference gateway_name : string) (items : list SettlementItemDTO) : bool :=
  between 1 64 batch_reference && between 1 64 gateway_name && (1 <=? length items)%nat && forallb item_valid items.

Record PendingOutboxEventResponse : Type := mkPending {
  po_id : Z; po_event_type : string; po_topic : string; po_partition_key : Z; po_status : outbox_status;
  po_retry_count : Z; po_created_at : Z; po_payload : LedgerTransferCompletedEvent }.

Record ActiveLockInfo : Type := mkLockInfo { lk_key : string; lk_resource : string; lk_ttl_ms : Z }.

Inductive api_request : Type :=
  | PostAccount (payload : LedgerAccountCreate)
  | GetAccount (account_id : Z)
  | GetBalance (account_id : Z)
  | PostEntry (payload : JournalEntryCreateDTO)
  | GetEntry (entry_id : Z)
  | PostTransfer (payload : transfer_request)
  | GetFxRates
  | GetLocks
  | PostRelay (batch_size : Z)
  | GetPending (limit : Z)
  | PostBlacklist (account_id : Z) (reason : string)
  | GetVelocity (account_id window_seconds : Z)
  | PostEvaluate (source_account_id destination_account_id : Z) (amount : decimal) (currency : string)
  | PostReconciliation (batch_reference gateway_name : string) (items : list SettlementItemDTO) (auto_compensate : bool)
  | GetBatch (batch_id : Z).

Inductive api_response : Type :=
  | RAccount (a : LedgerAccountResponse)
  | RBalance (b : AccountBalanceResponse)
  | REntry (e : JournalEntryResponseDTO)
  | RTransfer (t : FundTransferResponseDTO)
  | RRates (rates : gmap string decimal)
  | RLocks (status : string) (active_locks_count : nat) (locks : list ActiveLockInfo)
  | RRelay (status : string) (dispatched_count : nat) (message : string)
  | RPending (total_pending : nat) (events : list PendingOutboxEventResponse)
  | RBlacklisted (account_id : Z) (is_blacklisted : bool) (message : string)
  | RVelocity (account_id window_seconds transfer_count : Z) (cumulative_amount : decimal)
  | RAssessment (r : FraudAssessmentResult)
  | RBatch (b : ReconciliationSummaryDTO).

(** The [status_code] each route declares for success. *)
Definition success_status (q : api_request) : Z :=
  match q with
  | PostAccount _ | PostEntry _ | PostTransfer _ | PostReconciliation _ _ _ _ => 201
  | _ => 200
  end.

Section Api.
Context {L X : Type} {Repo : LedgerRepo L}.
Context {D RI RL RF : Type} {Srv : RedisServer RI (idem_val D)} {LSrv : RedisServer RL string} {FS : FraudStore RF}.
(** What the transfer service is given, as in [LedgerTransfer]. *)
Variables (dump : FundTransferResponseDTO -> D) (validate : D -> option FundTransferResponseDTO)
  (data_mentions : D -> bool) (uuid_at clock mono : nat -> Z) (token_at : nat -> string) (others : nat -> RL -> RL)
  (redis_up : nat -> bool) (idem_fails : idem_cmd -> nat -> option fault)
  (lock_set_fails lock_eval_fails : nat -> string -> option fault).
(** The digits of [uuid4().hex], Kafka's acknowledgements and the relay's clock, the
    registered exchange rates, and the Redis commands KEYS and PTTL. *)
Variables (hex_at : nat -> string) (ack : nat -> bool) (relay_now : nat -> Z) (fx : fx_service)
  (r_keys : string -> RL -> list string) (r_pttl : Z -> string -> RL -> Z).

Abbreviation world := (world (L:=L) (X:=X) (RI:=RI) (RL:=RL) (RF:=RF)).

Record app : Type := mkApp { a_world : world; a_sent : list message; a_sends : nat }.

Definition set_world (a : app) (w : world) : app := mkApp w (a_sent a) (a_sends a).
Definition a_stores (a : app) : stores L X := u_live (w_uow (a_world a)).
Definition a_log (a : app) : list JournalPostingEntity := all_postings (st_ledger (a_stores a)).

(** ** The services behind the endpoints *)

(** A call of the domain service in the request's session: commit on return, roll
    back on any exception. *)
Definition in_session {A} (m : M (dstate (R:=L)) A) : M app A := fun a =>
  let w := a_world a in
  let put l t := set_world a (mkWorld (w_uow (set_ledger w l 0)) (w_idem w) (w_lock w) (w_fraud w) t) in
  match m (mkDState (w_ledger w) (w_tick w)) with
  | (Ok x, s) => (Ok x, put (d_repo s) (d_tick s))
  | (Raise e, s) => (Raise e, put (w_ledger w) (d_tick s))
  end.

Definition on_world {A} (m : M world A) : M app A := fun a =>
  let '(r, w) := m (a_world a) in (r, set_world a w).

Definition on_relay {A} (m : M (OutboxRelay.rstate L X) A) : M app A := fun a =>
  let w := a_world a in
  let '(r, s) := m (mkRl (w_uow w) (a_sent a) (a_sends a)) in
  (r, mkApp (set_uow w (rl_uow s)) (rl_log s) (rl_sends s)).

Definition on_recon {A} (m : M (Reconciliation.rstate (L:=L) (X:=X)) A) : M app A := fun a =>
  let w := a_world a in
  let '(r, s) := m (mkR (w_uow w) (w_tick w)) in
  (r, set_world a (mkWorld (rs_uow s) (w_idem w) (w_lock w) (w_fraud w) (rs_tick s))).

Definition on_fraud {A} (f : fraud_service RF -> A * fraud_service RF) : M app A := fun a =>
  let w := a_world a in
  let '(x, f') := f (w_fraud w) in
  (Ok x, set_world a (mkWorld (w_uow w) (w_idem w) (w_lock w) f' (w_tick w))).

Definition check_payload (valid : bool) : M app () := raise_if (negb valid) PydanticValidationError.

(** [AsyncDistributedLock.get_active_locks] *)
Definition get_active_locks (pattern : string) (now : Z) (rd : RL) : list ActiveLockInfo :=
  (fun k => mkLockInfo k (removeprefix k "lock:") (r_pttl now k rd)) <$> r_keys pattern rd.

(** ** Endpoints *)

Definition create_ledger_account_endpoint (payload : LedgerAccountCreate) : M app LedgerAccountResponse :=
  check_payload (account_create_valid payload) ;;;
  in_session (ds_create_account uuid_at clock payload).

Definition get_ledger_account_endpoint (account_id : Z) : M app LedgerAccountResponse :=
  in_session (ds_get_account account_id).

Definition get_account_balance_endpoint (account_id : Z) : M app AccountBalanceResponse :=
  in_session (ds_get_account_balance account_id).

Definition create_journal_entry_endpoint (payload : JournalEntryCreateDTO) : M app JournalEntryResponseDTO :=
  check_payload (entry_valid payload) ;;;
  in_session (record_journal_entry uuid_at clock payload).

Definition get_journal_entry_endpoint (entry_id : Z) : M app JournalEntryResponseDTO :=
  in_session (ds_get_journal_entry entry_id).

Definition transfer_funds_endpoint (payload : transfer_request) : M app FundTransferResponseDTO :=
  check_payload (transfer_valid payload) ;;;
  on_world (transfer_funds dump validate data_mentions uuid_at clock mono token_at others redis_up idem_fails lock_set_fails lock_eval_fails payload).

Definition get_fx_rates_endpoint : M app (gmap string decimal) := ret (fx_get_supported_rates fx).

Definition get_ledger_locks_status_endpoint : M app api_response :=
  gets (fun a =>
    let locks := match w_lock (a_world a) with
      | Some l => get_active_locks "lock:account:*" (mono (l_n l)) (l_rd l)
      | None => []
      end in
    RLocks "active" (length locks) locks).

Definition trigger_ledger_outbox_relay_endpoint (batch_size : Z) : M app api_response :=
  check_payload ((1 <=? batch_size) && (batch_size <=? 500)) ;;;
  let! dispatched := on_relay (publish_pending_events ack relay_now (Z.to_nat batch_size)) in
  ret (RRelay "SUCCESS" dispatched
         ("Successfully relayed " +:+ pretty dispatched +:+ " ledger event(s) to Kafka.")).

Definition pending_response (e : OutboxEvent) : PendingOutboxEventResponse :=
  mkPending (ob_id e) (ob_event_type e) (ob_aggregate_type e) (ob_aggregate_id e) (ob_status e) (ob_retry_count e)
    (ob_created_at e) (ob_payload e).

Definition get_pending_ledger_outbox_events_endpoint (limit : Z) : M app api_response :=
  check_payload ((1 <=? limit) && (limit <=? 100)) ;;;
  let! raw_events := on_relay (get_pending_audit_events (Z.to_nat limit)) in
  let events := pending_response <$> raw_events in
  ret (RPending (length events) events).

Definition blacklist_account_endpoint (account_id : Z) (reason : string) : M app api_response :=
  check_payload (between 0 255 reason) ;;;
  let! t := gets (fun a => w_tick (a_world a)) in
  on_fraud (fun f => ((), blacklist_account (redis_up t) account_id f)) ;;;
  ret (RBlacklisted account_id true ("Account '" +:+ uuid_str account_id +:+ "' has been added to the fraud blacklist.")).

Definition get_account_velocity_endpoint (account_id window_seconds : Z) : M app api_response :=
  check_payload ((1 <=? window_seconds) && (window_seconds <=? 86400)) ;;;
  let! t := gets (fun a => w_tick (a_world a)) in
  let! '(count, cumulative_amount) :=
    on_fraud (fun f => get_account_velocity (redis_up t) (clock t) account_id window_seconds f) in
  ret (RVelocity account_id window_seconds count cumulative_amount).

Definition evaluate_fraud_endpoint (source destination : Z) (amount : decimal) (currency : string)
  : M app FraudAssessmentResult :=
  check_payload (dltb d0 amount && between 3 3 currency) ;;;
  let! t := gets (fun a => w_tick (a_world a)) in
  on_fraud (fun f => evaluate_transfer (redis_up t) (clock t) source destination amount f).

Definition run_reconciliation_endpoint (batch_reference gateway_name : string) (items : list SettlementItemDTO)
  (auto_compensate : bool) : M app ReconciliationSummaryDTO :=
  check_payload (feed_valid batch_reference gateway_name items) ;;;
  on_recon (reconcile_settlement_feed uuid_at clock hex_at batch_reference gateway_name items auto_compensate).

Definition get_reconciliation_batch_endpoint (batch_id : Z) : M app ReconciliationSummaryDTO :=
  let! batch := on_recon (get_reconciliation_batch batch_id) in
  match batch with
  | None => raise (HTTPException 404)
  | Some batch => ret batch
  end.

(** The router: one request. *)
Definition respond {A} (wrap : A -> api_response) (m : M app A) : M app api_response := let! x := m in ret (wrap x).

Definition route (q : api_request) : M app api_response :=
  match q with
  | PostAccount payload => respond RAccount (create_ledger_account_endpoint payload)
  | GetAccount a => respond RAccount (get_ledger_account_endpoint a)
  | GetBalance a => respond RBalance (get_account_balance_endpoint a)
  | PostEntry payload => respond REntry (create_journal_entry_endpoint payload)
  | GetEntry e => respond REntry (get_journal_entry_endpoint e)
  | PostTransfer payload => respond RTransfer (transfer_funds_endpoint payload)
  | GetFxRates => respond RRates get_fx_rates_endpoint
  | GetLocks => get_ledger_locks_status_endpoint
  | PostRelay n => trigger_ledger_outbox_relay_endpoint n
  | GetPending n => get_pending_ledger_outbox_events_endpoint n
  | PostBlacklist a reason => blacklist_account_endpoint a reason
  | GetVelocity a n => get_account_velocity_endpoint a n
  | PostEvaluate s d amt cur => respond RAssessment (evaluate_fraud_endpoint s d amt cur)
  | PostReconciliation b g items auto => respond RBatch (run_reconciliation_endpoint b g items auto)
  | GetBatch b => respond RBatch (get_reconciliation_batch_endpoint b)
  end.

(** Requests one after the other. *)
Fixpoint serve (qs : list api_request) (a : app) : list (result api_response) * app :=
  match qs with
  | [] => ([], a)
  | q :: qs' => let '(r, a') := route q a in let '(rs, a'') := serve qs' a' in (r :: rs, a'')
  end.

(** ** What one request does to the stores *)

(** When [sz] holds the log gains valid, balanced legs at its end; a raise of anything
    but a Redis error leaves every store alone; the outbox keeps each event under its own identifier. *)
Record step_ok {A} (sz : Prop) (a : app) (r : result A) (a' : app) : Prop := {
  st_grow : sz -> exists legs, a_log a' = a_log a ++ legs /\ Forall valid_posting legs /\ trial_balance legs = 0;
  st_fail : forall x, r = Raise x -> x <> RedisError -> a_stores a' = a_stores a;
  st_wf : ob_wf (st_outbox (a_stores a)) -> ob_wf (st_outbox (a_stores a'))
}.

Definition safe {A} (sz : Prop) (m : M app A) (a : app) : Prop := step_ok sz a (m a).1 (m a).2.

(** An endpoint that stores nothing. *)
Definition quiet {A} (m : M app A) : Prop := forall a, a_stores (m a).2 = a_stores a.

Lemma step_same {A} sz a (r : result A) a' : a_stores a' = a_stores a -> step_ok sz a r a'.
Proof.
  intros H. split; [intros _|done|by rewrite H]. exists []. unfold a_log. by rewrite H, app_nil_r.
Qed.

Lemma quiet_safe {A} sz (m : M app A) a : quiet m -> safe sz m a.
Proof. intros H. apply step_same, H. Qed.

Lemma quiet_ret {A} (x : A) : quiet (ret x).
Proof. done. Qed.
Lemma quiet_raise {A} e : quiet (raise (A:=A) e).
Proof. done. Qed.
Lemma quiet_gets {A} (f : app -> A) : quiet (gets f).
Proof. done. Qed.
Lemma quiet_bind {A B} (m : M app A) (k : A -> M app B) : quiet m -> (forall x, quiet (k x)) -> quiet (bind m k).
Proof.
  intros Hm Hk a. unfold bind. specialize (Hm a). destruct (m a) as [[x|e] a1]; [|done]. cbn in Hm. by rewrite Hk.
Qed.
Lemma quiet_check b : quiet (check_payload b).
Proof. by destruct b. Qed.
Lemma quiet_fraud {A} (f : fraud_service RF -> A * fraud_service RF) : quiet (on_fraud f).
Proof. intros a. unfold on_fraud. by destruct (f _). Qed.
Lemma quiet_session {A} (m : M (dstate (R:=L)) A) : (forall s, d_repo (m s).2 = d_repo s) -> quiet (in_session m).
Proof.
  intros Hm a. unfold in_session. specialize (Hm (mkDState (w_ledger (a_world a)) (w_tick (a_world a)))).
  destruct (m _) as [[x|e] s]; cbn in *; rewrite ?Hm; unfold a_stores, w_ledger; by destruct (u_live (w_uow (a_world a))).
Qed.
Lemma quiet_pending n : quiet (on_relay (get_pending_audit_events n)).
Proof. done. Qed.
Lemma quiet_batch b : quiet (on_recon (get_reconciliation_batch b)).
Proof. done. Qed.
Create HintDb quiet.
#[local] Hint Resolve quiet_ret quiet_raise quiet_gets quiet_check quiet_fraud quiet_pending quiet_batch : quiet.
Ltac quiet_solve := repeat first [apply quiet_bind; [|intros ?] | progress auto with quiet | case_match].

(** Composition of an endpoint that stores with steps that do not. *)
Lemma safe_respond {A B} sz (wrap : A -> B) (m : M app A) a : safe sz m a -> safe sz (let! x := m in ret (wrap x)) a.
Proof.
  unfold safe, bind. destruct (m a) as [[x|e] a1]; intros [Hg Hf Hw]; split; try done.
  intros y [= ->] Hne. by apply (Hf y).
Qed.

Lemma safe_check {A} sz valid (m : M app A) a : (valid = true -> safe sz m a) -> safe sz (check_payload valid ;;; m) a.
Proof.
  intros Hm. destruct valid; [by apply Hm|]. by apply step_same.
Qed.

(** A call of the domain service: its log, and the rollback when it raises. *)
Lemma safe_session {A} (sz : Prop) (m : M (dstate (R:=L)) A) a :
  (sz -> exists legs, all_postings (d_repo (m (mkDState (w_ledger (a_world a)) (w_tick (a_world a)))).2) = a_log a ++ legs /\
     Forall valid_posting legs /\ trial_balance legs = 0) -> safe sz (in_session m) a.
Proof.
  intros Hlog. unfold safe, in_session. destruct (m _) as [[x|e] s]; cbn in *.
  - split; [exact Hlog|done|done].
  - apply step_same. unfold a_stores, w_ledger. cbn. by destruct (u_live (w_uow (a_world a))).
Qed.

Lemma entry_valid_spec d : entry_valid d = true -> entry_create_valid d.
Proof.
  unfold entry_valid, entry_create_valid, between. rewrite !andb_true_iff, !Nat.leb_le, forallb_forall.
  intros [[[Hr Hd] Hn] Hp]. repeat split; try lia. apply Forall_forall. intros p Hp'.
  specialize (Hp p (proj1 (list_elem_of_In _ _) Hp')). unfold positive4 in Hp. apply andb_true_iff in Hp. exact Hp.
Qed.

(** The totals of the legs of this request stay within the precision of [Decimal]. *)
Definition sized (q : api_request) (a : app) : Prop :=
  match q with
  | PostEntry p => fits (units DEBIT (jec_postings p)) /\ fits (units CREDIT (jec_postings p))
  | PostTransfer req => amounts_fit req (st_ledger (a_stores a))
  | _ => True
  end.

Lemma safe_accounts sz payload a : safe sz (create_ledger_account_endpoint payload) a.
Proof.
  apply safe_check. intros _. apply safe_session. intros _.
  exact (ds_exec_log uuid_at clock (mkDState (w_ledger (a_world a)) (w_tick (a_world a))) (CmdCreateAccount payload) I).
Qed.

Lemma safe_entries payload a : safe (sized (PostEntry payload) a) (create_journal_entry_endpoint payload) a.
Proof.
  apply safe_check. intros Hv. apply safe_session. intros Hs.
  apply (ds_exec_log uuid_at clock (mkDState (w_ledger (a_world a)) (w_tick (a_world a))) (CmdRecord payload)).
  split; [by apply entry_valid_spec|exact Hs].
Qed.

Lemma safe_transfers payload a : safe (sized (PostTransfer payload) a) (transfer_funds_endpoint payload) a.
Proof.
  apply safe_check. intros _. unfold safe, on_world.
  pose proof (transfer_stores dump validate data_mentions uuid_at clock mono token_at others redis_up idem_fails lock_set_fails lock_eval_fails payload (a_world a)) as H.
  pose proof (transfer_cases dump validate data_mentions uuid_at clock mono token_at others redis_up idem_fails lock_set_fails lock_eval_fails payload (a_world a)) as Hc.
  destruct (transfer_funds _ _ _ _ _ _ _ _ _ _ _ _ payload (a_world a)) as [r w]; cbn in H |- *.
  destruct H as [Hu|(Hpre & flag & resp & Hex)]; [by apply step_same|].
  split; [intros Hs; exact (proj1 (executed_balanced _ _ _ _ _ Hpre Hs Hex))| |].
  - intros x -> Hne. unfold a_stores. cbn.
    destruct Hc as [(y & [= ->] & _ & Hw)|[(? & ? & [=] & _)|(_ & _ & w1 & _ & [(y & [= ->] & Hl & _ & _ & ->)|(f & rs & _ & _ & Hr)])]].
    + by destruct Hw as [->|[-> _]].
    + destruct (cleanup_uow data_mentions clock idem_fails payload y w1) as [E _]. by rewrite E.
    + destruct (w_idem (a_world a)), (idem_fails CmdComplete (w_tick w1)); destruct Hr as [[= ->] _]; done.
  - destruct Hex as (s & d & fx0 & legs & e & _ & _ & _ & _ & Hp & _). destruct (pe_outbox _ _ _ _ _ _ _ Hp) as (ev & Hev & _).
    cbn. unfold a_stores at 2. cbn. rewrite Hev. intros Hwf. by apply ob_wf_set.
Qed.

Lemma safe_relay sz n a : ob_wf (st_outbox (a_stores a)) -> safe sz (trigger_ledger_outbox_relay_endpoint n) a.
Proof.
  intros Hwf. apply safe_check. intros _. apply safe_respond. unfold safe, on_relay.
  destruct (publish_run ack relay_now (Z.to_nat n) (mkRl (w_uow (a_world a)) (a_sent a) (a_sends a)) Hwf) as (s & -> & R & _).
  destruct R as [_ _ _ _ Rw Rl _ _]. cbn in *. split; [intros _|done|done].
  exists []. unfold a_log, a_stores. cbn. by rewrite Rl, app_nil_r.
Qed.

Lemma safe_reconciliation sz b g items auto a : safe sz (run_reconciliation_endpoint b g items auto) a.
Proof.
  apply safe_check. intros _. unfold safe, on_recon.
  pose proof (reconcile_stores uuid_at clock hex_at b g items auto (mkR (w_uow (a_world a)) (w_tick (a_world a)))) as H.
  destruct (reconcile_settlement_feed _ _ _ _ _ _ _ _) as [[sm|x] s]; cbn in *.
  - destruct H as [Hlegs Ho]. split; [intros _; exact Hlegs|done|]. unfold a_stores. cbn. by rewrite Ho.
  - apply step_same. exact H.
Qed.

Lemma quiet_reads : 
  (forall i, quiet (get_ledger_account_endpoint i)) /\ (forall i, quiet (get_account_balance_endpoint i)) /\
  (forall i, quiet (get_journal_entry_endpoint i)).
Proof.
  split; [|split]; intros i; apply quiet_session; intros s.
  - unfold ds_get_account. by destruct (get_account_by_id _ _).
  - unfold ds_get_account_balance. destruct (get_account_by_id _ _); [|done].
    destruct (get_account_balance_aggregates _ _). by destruct (debit_normal _).
  - unfold ds_get_journal_entry. by destruct (get_journal_entry_by_id _ _).
Qed.

Lemma route_safe q a : ob_wf (st_outbox (a_stores a)) -> safe (sized q a) (route q) a.
Proof.
  intros Hwf. destruct quiet_reads as (Q1 & Q2 & Q3).
  destruct q; cbn [route];
    first [apply safe_respond; by (apply safe_accounts || apply safe_entries || apply safe_transfers || apply safe_reconciliation)
          |by apply safe_relay
          |apply quiet_safe; unfold respond, get_fx_rates_endpoint, get_ledger_locks_status_endpoint,
             get_pending_ledger_outbox_events_endpoint, blacklist_account_endpoint, get_account_velocity_endpoint,
             evaluate_fraud_endpoint, get_reconciliation_batch_endpoint; by quiet_solve].
Qed.

(** ** Properties *)

Definition books (a : app) : Prop :=
  Forall valid_posting (a_log a) /\ trial_balance (a_log a) = 0 /\ ob_wf (st_outbox (a_stores a)).

Fixpoint sized_session (qs : list api_request) (a : app) : Prop :=
  match qs with
  | [] => True
  | q :: qs' => sized q a /\ sized_session qs' (route q a).2
  end.

Lemma route_books q a : books a -> sized q a -> books (route q a).2 /\ a_log a `prefix_of` a_log (route q a).2.
Proof.
  intros (Hv & Ht & Hwf) Hs. destruct (route_safe q a Hwf) as [Hg _ Hw]. destruct (Hg Hs) as (legs & Hlog & Hlv & Hlt).
  split; [|by exists legs]. split; [|split; [|by apply Hw]].
  - rewrite Hlog. by apply Forall_app.
  - rewrite Hlog, trial_balance_app. lia.
Qed.

(** C4: Over any sequence of HTTP requests to the ledger (accounts, entries, transfers,
    relays to Kafka, blacklisting, reconciliations and all the reads) whose entries and
    transfers stay within the 28 digits of [Decimal] ([sized_session]: the totals of a
    posted entry, the charge of a transfer and its converted amount are below
    10^24 units of currency), whatever each of them answers, the log of postings only
    grows at its end, every leg in it is a positive amount of four places, and the debits
    of the whole ledger equal its credits to the last place. *)
Theorem books_stay_balanced (qs : list api_request) (a : app) (Hb : books a) (Hs : sized_session qs a) :
  let a' := (serve qs a).2 in
  a_log a `prefix_of` a_log a' /\ Forall valid_posting (a_log a') /\ all_units DEBIT (a_log a') = all_units CREDIT (a_log a').
Proof.
  enough (a_log a `prefix_of` a_log (serve qs a).2 /\ books (serve qs a).2) as [Hp (Hv & Ht & _)].
  { split; [done|]. split; [done|]. unfold trial_balance in Ht. lia. }
  revert a Hb Hs. induction qs as [|q qs IH]; intros a Hb Hs; [done|]. destruct Hs as [Hq Hs].
  destruct (route_books q a Hb Hq) as [Hb' Hp]. cbn. destruct (route q a) as [r a1]. cbn in *.
  destruct (IH a1 Hb' Hs) as [Hp' Hb'']. destruct (serve qs a1) as [rs a2]. cbn in *. split; [by etrans|done].
Qed.

(** A request that raises anything but a Redis error, at whatever point, leaves the
    ledger, the outbox, the reconciliation batches and every other store as they were.
    The exception is the transfer that was committed before Redis refused its completed
    record ([committed_but_reported_failed]). *)
Theorem failed_request_changes_nothing (q : api_request) (a : app) (x : exc)
  (Hwf : ob_wf (st_outbox (a_stores a))) (Hx : (route q a).1 = Raise x) (Hne : x <> RedisError) :
  a_stores (route q a).2 = a_stores a.
Proof. exact (st_fail _ _ _ _ (route_safe q a Hwf) x Hx Hne). Qed.

(** Reads, simulations and refused payloads store nothing even when they succeed. *)
Definition is_write (q : api_request) : bool :=
  match q with
  | PostAccount _ | PostEntry _ | PostTransfer _ | PostRelay _ | PostReconciliation _ _ _ _ => true
  | _ => false
  end.

Lemma other_requests_store_nothing q a : is_write q = false -> a_stores (route q a).2 = a_stores a.
Proof.
  destruct quiet_reads as (Q1 & Q2 & Q3). destruct q; cbn [is_write route]; intros Hq; try done; revert a;
    match goal with |- forall a, a_stores (?m a).2 = _ => change (quiet m) end;
    unfold respond, get_fx_rates_endpoint, get_ledger_locks_status_endpoint,
      get_pending_ledger_outbox_events_endpoint, blacklist_account_endpoint, get_account_velocity_endpoint,
      evaluate_fraud_endpoint, get_reconciliation_batch_endpoint; by quiet_solve.
Qed.
End Api.
Arguments app : clear implicits.
Arguments mkApp {_ _ _ _ _} _ _ _.

(** ** An afternoon of requests *)

Definition ex_api_app : app ledger_repo () (gmap string (idem_val FundTransferResponseDTO * Z))
    (gmap string (string * Z)) ref_fraud := mkApp ex_world [] 0.

Definition ex_serve : list api_request -> _ :=
  serve (X:=()) (D:=FundTransferResponseDTO) id Some (fun _ => false) (fun n => 1000 + Z.of_nat n) (fun n => 1000 * Z.of_nat n)
    (fun n => 1000 * Z.of_nat n) (fun _ => "tok") (fun _ rd => rd) (fun _ => true) (fun _ _ => None) (fun _ _ => None) (fun _ _ => None) (fun _ => "0a1b2c3d") (fun _ => true)
    (fun n => Z.of_nat n) (fx_init None) (fun _ rd => (map_to_list rd).*1) (fun _ _ _ => 0).

Definition ex_route : api_request -> _ :=
  route (X:=()) (D:=FundTransferResponseDTO) id Some (fun _ => false)
    (fun n => 1000 + Z.of_nat n) (fun n => 1000 * Z.of_nat n) (fun n => 1000 * Z.of_nat n) (fun _ => "tok")
    (fun _ rd => rd) (fun _ => true) (fun _ _ => None) (fun _ _ => None) (fun _ _ => None) (fun _ => "0a1b2c3d") (fun _ => true) (fun n => Z.of_nat n) (fx_init None)
    (fun _ rd => (map_to_list rd).*1) (fun _ _ _ => 0).

Definition ex_requests : list api_request :=
  [PostTransfer (ex_req 2 300000); PostEntry (mkEntryCreate "pay-1" "wages" [mkPosting 1 (d4 50000) CREDIT; mkPosting 3 (d4 50000) DEBIT]);
   PostEntry (mkEntryCreate "pay-2" "wrong" [mkPosting 1 (d4 50000) CREDIT; mkPosting 3 (d4 50001) DEBIT]);
   PostReconciliation "batch-1" "stripe" [mkItem "lost" (d4 70000) "USD"] true;
   PostRelay 10; GetPending 10; GetBalance 1; GetBatch 5].

Lemma ex_books : books ex_api_app.
Proof.
  split; [|split].
  - repeat (apply Forall_cons_2; [split; vm_compute; reflexivity|]). apply Forall_nil_2.
  - vm_compute. reflexivity.
  - split; [apply NoDup_nil_2|apply Forall_nil_2].
Qed.

Lemma books_stay_balanced_witness :
  let a' := (ex_serve ex_requests ex_api_app).2 in
  all_units DEBIT (a_log a') = all_units CREDIT (a_log a') /\ length (a_log a') = 8%nat.
Proof.
  split; [|vm_compute; reflexivity].
  apply (books_stay_balanced (X:=()) (D:=FundTransferResponseDTO) id Some (fun _ => false) (fun n => 1000 + Z.of_nat n)
    (fun n => 1000 * Z.of_nat n) (fun n => 1000 * Z.of_nat n) (fun _ => "tok") (fun _ rd => rd) (fun _ => true) (fun _ _ => None) (fun _ _ => None) (fun _ _ => None)
    (fun _ => "0a1b2c3d") (fun _ => true) (fun n => Z.of_nat n) (fx_init None) (fun _ rd => (map_to_list rd).*1)
    (fun _ _ _ => 0) ex_requests ex_api_app ex_books).
  unfold ex_requests. cbn [sized_session sized]. split; [apply ex_amounts_fit; by left|].
  repeat split; vm_compute; reflexivity.
Defined.

(** An entry of more than 28 digits: one debit of 10^28 units, credits of 10^28 and of 1.
    The sum of the credits is rounded to 28 digits, so the entry passes for balanced and is
    filed, and the ledger is off by one unit. *)
Example oversized_entry_unbalances :
  let entry := mkEntryCreate "huge" "huge" [mkPosting 1 (d4 (10 ^ 28)) DEBIT; mkPosting 3 (d4 (10 ^ 28)) CREDIT; mkPosting 3 (d4 1) CREDIT] in
  let '(r, a') := ex_route (PostEntry entry) ex_api_app in
  entry_valid entry = true /\ is_ok r = true /\ trial_balance (a_log a') = -1.
Proof. vm_compute. repeat split. Qed.

(** What those requests are answered: the unbalanced entry is refused, the lost
    settlement is compensated, the transfer's event is relayed and no longer pending. *)
Example ex_answers :
  let rs := (ex_serve ex_requests ex_api_app).1 in
  rs !! 2%nat = Some (Raise UnbalancedJournalEntryException) /\
  rs !! 4%nat = Some (Ok (RRelay "SUCCESS" 1 "Successfully relayed 1 ledger event(s) to Kafka.")) /\
  rs !! 5%nat = Some (Ok (RPending 0 [])) /\ rs !! 7%nat = Some (Raise (HTTPException 404)).
Proof. repeat split; vm_compute; reflexivity. Qed.

(** A refused transfer, and the stores after it. *)
Lemma failed_request_changes_nothing_witness :
  let run := ex_route (PostTransfer (ex_req 2 2000000)) ex_api_app in
  run.1 = Raise InsufficientFundsException /\ a_stores run.2 = a_stores ex_api_app.
Proof.
  split; [vm_compute; reflexivity|].
  apply (failed_request_changes_nothing (X:=()) (D:=FundTransferResponseDTO) id Some (fun _ => false)
    (fun n => 1000 + Z.of_nat n) (fun n => 1000 * Z.of_nat n) (fun n => 1000 * Z.of_nat n) (fun _ => "tok")
    (fun _ rd => rd) (fun _ => true) (fun _ _ => None) (fun _ _ => None) (fun _ _ => None) (fun _ => "0a1b2c3d") (fun _ => true) (fun n => Z.of_nat n) (fx_init None)
    (fun _ rd => (map_to_list rd).*1) (fun _ _ _ => 0) (PostTransfer (ex_req 2 2000000)) ex_api_app
    InsufficientFundsException); [exact (proj2 (proj2 ex_books))|vm_compute; reflexivity|discriminate].
Defined.

(** A compensated reference longer than 114 characters does not fit the reference
    column: the payload allows 128, and the compensating entry adds 14. *)
Lemma long_reference_overflows reference_id hex : String.length hex = 8%nat -> (114 < String.length reference_id)%nat ->
  fits_column 128 ("comp-" +:+ reference_id +:+ "-" +:+ hex) = false.
Proof.
  intros Hh Hr. unfold fits_column. apply Nat.leb_gt.
  assert (forall s t, String.length (s +:+ t) = (String.length s + String.length t)%nat) as Happ.
  { intros s t. induction s as [|c s IH]; [done|]. cbn. by rewrite <-IH. }
  rewrite !Happ, Hh. cbn. lia.
Qed.
