(* ===== verification/Profiling.v ===== *)
(** The load generator and its statistics: [app/services/profiling_service.py], with the
    endpoints of [app/routers/profiling_router.py].

    Durations are rational numbers of milliseconds or seconds.  The tasks of a scenario
    are workers that draw a ticket from a shared counter under a lock, take a permit of
    the semaphore, send one request and put down its latency; what the event loop and the
    server do is the schedule, a list of pairs of a worker and what happened to it.

    [percentiles_ordered]: the reported figures are in order and between the extremes;
    [benchmark_completes]: under every schedule the run ends, after a known number of
    steps, with every request counted once. *)

From Stdlib Require Import QArith Qround Lqa.
From S2P Require Import Prelude Rounding.

Local Open Scope Z_scope.

(** ** Percentiles *)

Record PercentileStats : Type := mkStats {
  p50 : Q; p90 : Q; p95 : Q; p99 : Q; min_latency_ms : Q; max_latency_ms : Q; mean_latency_ms : Q }.

Definition at_index (l : list Q) (i : Z) : Q := default 0%Q (l !! Z.to_nat i).

(** [_interpolate] *)
Definition rank_of (n : Z) (percentile : Q) : Q := (percentile / 100 * inject_Z (n - 1))%Q.

Definition interpolate (sorted_latencies : list Q) (percentile : Q) : Q :=
  let n := Z.of_nat (length sorted_latencies) in
  if n =? 1 then at_index sorted_latencies 0
  else
    let rank := rank_of n percentile in
    let lower_idx := Qfloor rank in
    let upper_idx := Qceiling rank in
    let fraction := (rank - inject_Z lower_idx)%Q in
    (at_index sorted_latencies lower_idx +
     fraction * (at_index sorted_latencies upper_idx - at_index sorted_latencies lower_idx))%Q.

Definition Qsum (l : list Q) : Q := foldr Qplus 0%Q l.

(** [calculate_percentiles] *)
Definition calculate_percentiles (latencies_ms : list Q) : PercentileStats :=
  match latencies_ms with
  | [] => mkStats 0 0 0 0 0 0 0
  | _ =>
      let sorted_latencies := stable_sort Qle_bool latencies_ms in
      let n := Z.of_nat (length sorted_latencies) in
      mkStats (round_to 3 (interpolate sorted_latencies 50)) (round_to 3 (interpolate sorted_latencies 90))
        (round_to 3 (interpolate sorted_latencies 95)) (round_to 3 (interpolate sorted_latencies 99))
        (round_to 3 (at_index sorted_latencies 0)) (round_to 3 (at_index sorted_latencies (n - 1)))
        (round_to 3 (Qsum sorted_latencies / inject_Z n))
  end.

(** ** One scenario *)

(** Where a worker is: about to draw a ticket, waiting for a permit, with a request
    under way since some time, or out of its loop. *)
Inductive worker : Type := Ready | Waiting | InFlight (started : Q) | Finished.

Record bench : Type := mkBench {
  b_counter : nat;
  b_permits : nat;
  b_workers : list worker;
  b_latencies : list Q;
  b_successful : nat;
  b_failed : nat
}.

(** What happens to a worker, with the clock in seconds. *)
Inductive happening : Type :=
  | Ticket
  | Acquire (t : Q)
  | Reply (t : Q) (status_code : Z)
  | Failure (t : Q).

Definition effective_concurrency (concurrency total_requests : nat) : nat := Nat.max 1 (Nat.min concurrency total_requests).

Definition bench_start (concurrency total_requests : nat) : bench :=
  let n := effective_concurrency concurrency total_requests in
  mkBench 0 n (replicate n Ready) [] 0 0.

(** The end of a request: the latency, the counters, the permit. *)
Definition complete (i : nat) (t0 t : Q) (success : bool) (b : bench) : bench :=
  mkBench (b_counter b) (S (b_permits b)) (<[i := Ready]> (b_workers b))
    (b_latencies b ++ [(t - t0) * 1000])%Q
    (if success then S (b_successful b) else b_successful b) (if success then b_failed b else S (b_failed b)).

(** One step of [_worker]; [None] when that cannot happen now. *)
Definition worker_step (total_requests : nat) (i : nat) (h : happening) (b : bench) : option bench :=
  match b_workers b !! i, h with
  | Some Ready, Ticket =>
      if (total_requests <=? b_counter b)%nat
      then Some (mkBench (b_counter b) (b_permits b) (<[i := Finished]> (b_workers b)) (b_latencies b) (b_successful b) (b_failed b))
      else Some (mkBench (S (b_counter b)) (b_permits b) (<[i := Waiting]> (b_workers b)) (b_latencies b) (b_successful b) (b_failed b))
  | Some Waiting, Acquire t =>
      match b_permits b with
      | O => None
      | S k => Some (mkBench (b_counter b) k (<[i := InFlight t]> (b_workers b)) (b_latencies b) (b_successful b) (b_failed b))
      end
  | Some (InFlight t0), Reply t status_code =>
      Some (complete i t0 t ((200 <=? status_code) && (status_code <? 400)) b)
  | Some (InFlight t0), Failure t => Some (complete i t0 t false b)
  | _, _ => None
  end.

Fixpoint run_schedule (total_requests : nat) (s : list (nat * happening)) (b : bench) : option bench :=
  match s with
  | [] => Some b
  | (i, h) :: s' => worker_step total_requests i h b ≫= run_schedule total_requests s'
  end.

(** [asyncio.gather] has returned. *)
Definition all_finished (b : bench) : bool :=
  forallb (fun w => match w with Finished => true | _ => false end) (b_workers b).

Record BenchmarkResult : Type := mkResult {
  br_endpoint : string; br_method : string; br_concurrency : nat; br_total_requests : nat; br_successful_requests : nat;
  br_failed_requests : nat; br_error_rate_pct : Q; br_duration_seconds : Q; br_requests_per_second : Q;
  br_latency_stats : PercentileStats; br_sla_passed : bool }.

Definition Qmax (x y : Q) : Q := if Qle_bool x y then y else x.

(** The figures after the run; the division by no requests raises. *)
Definition summarize (endpoint method : string) (concurrency total_requests : nat) (max_p95_ms wall : Q) (b : bench)
  : result BenchmarkResult :=
  let total_duration := Qmax wall (1 # 10000) in
  if (total_requests =? 0)%nat then Raise PyZeroDivisionError
  else
    let total := inject_Z (Z.of_nat total_requests) in
    let error_rate := round_to 2 (inject_Z (Z.of_nat (b_failed b)) / total * 100)%Q in
    let rps := round_to 2 (total / total_duration)%Q in
    let latency_stats := calculate_percentiles (b_latencies b) in
    Ok (mkResult endpoint (py_upper method) (effective_concurrency concurrency total_requests) total_requests
          (b_successful b) (b_failed b) error_rate (round_to 3 total_duration) rps latency_stats
          (Qle_bool (p95 latency_stats) max_p95_ms && negb (Qle_bool (1 # 10) error_rate))).

(** [run_scenario] under a schedule that lets every worker finish, taking [wall] seconds. *)
Definition run_scenario (has_app : bool) (endpoint method : string) (concurrency total_requests : nat) (max_p95_ms : Q)
  (schedule : list (nat * happening)) (wall : Q) : option (result BenchmarkResult) :=
  if negb has_app then Some (Raise PyValueError)
  else match run_schedule total_requests schedule (bench_start concurrency total_requests) with
       | Some b => if all_finished b then Some (summarize endpoint method concurrency total_requests max_p95_ms wall b) else None
       | None => None
       end.

(** ** The suite *)

Record BenchmarkReport : Type := mkReport {
  rp_timestamp : Z; rp_overall_status : string; rp_total_requests : nat; rp_total_duration_seconds : Q; rp_average_rps : Q;
  rp_scenarios : list BenchmarkResult }.

Definition make_report (timestamp : Z) (elapsed : Q) (scenarios : list BenchmarkResult) : BenchmarkReport :=
  let total_duration := round_to 3 elapsed in
  let total_reqs := sum_list_with br_total_requests scenarios in
  mkReport timestamp (if forallb br_sla_passed scenarios then "PASS" else "FAIL") total_reqs total_duration
    (round_to 2 (inject_Z (Z.of_nat total_reqs) / Qmax total_duration (1 # 10000)))%Q scenarios.

(** The three measured scenarios: path and the bound on the 95th percentile. *)
Definition suite : list (string * Q) :=
  [("/catalog/items/keyset?limit=20", 150%Q); ("/health/liveness", 100%Q); ("/metrics", 100%Q)].

Definition schedule_of : Type := (list (nat * happening) * Q)%type.

(** [run_full_profile_suite]: a warm-up request, then the scenarios in turn; the report
    is kept.  [loads] gives the schedule and the duration of each run. *)
Fixpoint run_suite (has_app : bool) (concurrency requests_per_scenario : nat) (todo : list (string * Q)) (loads : list schedule_of)
  : option (result (list BenchmarkResult)) :=
  match todo, loads with
  | [], _ => Some (Ok [])
  | (endpoint, bound) :: todo', (schedule, wall) :: loads' =>
      match run_scenario has_app endpoint "GET" concurrency requests_per_scenario bound schedule wall with
      | Some (Ok r) =>
          match run_suite has_app concurrency requests_per_scenario todo' loads' with
          | Some (Ok rs) => Some (Ok (r :: rs))
          | other => other
          end
      | Some (Raise e) => Some (Raise e)
      | None => None
      end
  | _ :: _, [] => None
  end.

Definition run_full_profile_suite (has_app : bool) (concurrency requests_per_scenario : nat) (warm_up : schedule_of) (loads : list schedule_of)
  (timestamp : Z) (elapsed : Q) (latest : option BenchmarkReport) : option (result BenchmarkReport * option BenchmarkReport) :=
  match run_scenario has_app "/catalog/items/keyset?limit=20" "GET" 1 1 100 (fst warm_up) (snd warm_up) with
  | None => None
  | Some (Raise e) => Some (Raise e, latest)
  | Some (Ok _) =>
      match run_suite has_app concurrency requests_per_scenario suite loads with
      | None => None
      | Some (Raise e) => Some (Raise e, latest)
      | Some (Ok scenarios) =>
          let report := make_report timestamp elapsed scenarios in Some (Ok report, Some report)
      end
  end.

(** [trigger_run_profile], [get_latest_benchmark_report] *)
Definition trigger_run_profile (concurrency requests_per_scenario : Z) (warm_up : schedule_of) (loads : list schedule_of)
  (timestamp : Z) (elapsed : Q) (latest : option BenchmarkReport) : option (result BenchmarkReport * option BenchmarkReport) :=
  if negb ((1 <=? concurrency) && (concurrency <=? 100) && (10 <=? requests_per_scenario) && (requests_per_scenario <=? 500))
  then Some (Raise PydanticValidationError, latest)
  else run_full_profile_suite true (Z.to_nat concurrency) (Z.to_nat requests_per_scenario) warm_up loads timestamp elapsed latest.

Definition get_latest_benchmark_report (latest : option BenchmarkReport) : BenchmarkReport + string * string :=
  match latest with
  | Some r => inl r
  | None => inr ("NO_BENCHMARKS_RECORDED", "No load test has been executed yet. Trigger POST /observability/benchmarks/run-profile to generate baseline.")
  end.

(** ** Percentiles are in order *)

Lemma sorted_lookup {A} (R : A -> A -> Prop) (l : list A) i j x y : StronglySorted R l ->
  l !! i = Some x -> l !! j = Some y -> (i < j)%nat -> R x y.
Proof.
  intros Hs. revert i j. induction Hs as [|a l Hs IH Hall]; intros [|i] [|j] Hx Hy Hij; simplify_eq/=; try lia.
  - by eapply Forall_lookup_1 in Hall.
  - eapply IH; [done..|lia].
Qed.

Definition ascending (l : list Q) : Prop := StronglySorted (fun x y => Qle_bool x y = true) l.

Lemma ascending_sort l : ascending (stable_sort Qle_bool l).
Proof.
  apply stable_sort_sorted.
  - intros x y. destruct (Qlt_le_dec y x) as [Hlt|Hle]; [right|left]; apply Qle_bool_iff; [by apply Qlt_le_weak|done].
  - intros x y z Hxy Hyz. apply Qle_bool_iff in Hxy, Hyz. apply Qle_bool_iff. by eapply Qle_trans.
Qed.

Section Sorted.
Context (l : list Q) (Hl : ascending l).
Abbreviation n := (Z.of_nat (length l)).

Lemma at_index_elem i : 0 <= i < n -> at_index l i ∈ l.
Proof.
  intros Hi. unfold at_index. destruct (lookup_lt_is_Some_2 l (Z.to_nat i)) as [x Hx]; [lia|].
  rewrite Hx. by eapply list_elem_of_lookup_2.
Qed.

Lemma at_index_mono i j : 0 <= i -> i <= j -> j < n -> (at_index l i <= at_index l j)%Q.
Proof.
  intros Hi Hij Hj. unfold at_index.
  destruct (lookup_lt_is_Some_2 l (Z.to_nat i)) as [x Hx]; [lia|].
  destruct (lookup_lt_is_Some_2 l (Z.to_nat j)) as [y Hy]; [lia|].
  rewrite Hx, Hy. cbn [default]. destruct (decide (i = j)) as [->|Hne]; [simplify_eq; apply Qle_refl|].
  apply Qle_bool_iff. by apply (sorted_lookup _ _ _ _ _ _ Hl Hx Hy); lia.
Qed.

Lemma at_index_bounds x : x ∈ l -> (at_index l 0 <= x <= at_index l (n - 1))%Q.
Proof.
  intros [i Hi]%list_elem_of_lookup_1. pose proof (lookup_lt_Some _ _ _ Hi).
  assert (x = at_index l (Z.of_nat i)) as -> by (unfold at_index; by rewrite Nat2Z.id, Hi).
  split; apply at_index_mono; lia.
Qed.

(** The value at a rank, and that it lies between its neighbours and grows with the rank. *)
Definition at_rank (r : Q) : Q :=
  (at_index l (Qfloor r) + (r - inject_Z (Qfloor r)) * (at_index l (Qceiling r) - at_index l (Qfloor r)))%Q.

Definition rank_in (r : Q) : Prop := (0 <= r /\ r <= inject_Z (n - 1))%Q.

Lemma rank_indices r : rank_in r ->
  0 <= Qfloor r /\ Qfloor r <= Qceiling r /\ Qceiling r < n /\ (inject_Z (Qfloor r) <= r /\ r < inject_Z (Qfloor r) + 1)%Q.
Proof.
  intros [H0 Hn]. apply Qfloor_resp_le in H0. change (Qfloor 0) with 0 in H0.
  apply Qceiling_resp_le in Hn. rewrite Qceiling_Z in Hn.
  assert (Qfloor r <= Qceiling r) by (rewrite Zle_Qle; eapply Qle_trans; [apply Qfloor_le|apply Qle_ceiling]).
  split_and!; try lia; [apply Qfloor_le|]. pose proof (Qlt_floor r) as Hlt. by rewrite inject_Z_plus in Hlt.
Qed.

Lemma at_rank_between r : rank_in r -> (at_index l (Qfloor r) <= at_rank r /\ at_rank r <= at_index l (Qceiling r))%Q.
Proof.
  intros Hr. destruct (rank_indices r Hr) as (H0 & Hfc & Hc & Hlo & Hhi).
  pose proof (at_index_mono _ _ H0 Hfc Hc) as Hd. unfold at_rank. split; nra.
Qed.

Lemma at_rank_mono r s : rank_in r -> rank_in s -> (r <= s -> at_rank r <= at_rank s)%Q.
Proof.
  intros Hr Hs Hle.
  destruct (rank_indices r Hr) as (H0 & Hfc & Hc & Hlo & Hhi). destruct (rank_indices s Hs) as (H0' & Hfc' & Hc' & Hlo' & Hhi').
  pose proof (Qfloor_resp_le _ _ Hle) as Hff. pose proof (Qceiling_resp_le _ _ Hle) as Hcc.
  destruct (decide (Qfloor r = Qfloor s)) as [He|Hne].
  - unfold at_rank. rewrite <-He in *.
    pose proof (at_index_mono _ _ H0 Hfc Hc) as Hd. pose proof (at_index_mono (Qceiling r) (Qceiling s) ltac:(lia) Hcc Hc') as Hd'. nra.
  - eapply Qle_trans; [apply at_rank_between, Hr|]. eapply Qle_trans; [|apply at_rank_between, Hs].
    apply at_index_mono; [lia| |lia].
    destruct (Qlt_le_dec (inject_Z (Qfloor s)) r) as [Hlt|Hge].
    + apply Qlt_le_weak, Qfloor_resp_le in Hlt. rewrite Qfloor_Z in Hlt. lia.
    + apply Qceiling_resp_le in Hge. by rewrite Qceiling_Z in Hge.
Qed.

(** A percentage as a rank. *)
Lemma rank_of_in p : 0 < n -> (0 <= p /\ p <= 100 -> rank_in (rank_of n p))%Q.
Proof.
  intros Hn [Hp Hp']. assert (0 <= inject_Z (n - 1))%Q by (change 0%Q with (inject_Z 0); rewrite <-Zle_Qle; lia).
  assert (p / 100 == p * (1 # 100))%Q as E by (unfold Qdiv; reflexivity).
  unfold rank_in, rank_of. rewrite E. split; nra.
Qed.

Lemma rank_of_mono p q : 0 < n -> (p <= q -> rank_of n p <= rank_of n q)%Q.
Proof.
  intros Hn Hpq. assert (0 <= inject_Z (n - 1))%Q by (change 0%Q with (inject_Z 0); rewrite <-Zle_Qle; lia).
  unfold rank_of. apply Qmult_le_compat_r; [|done]. by apply Qmult_le_compat_r.
Qed.

Lemma interpolate_mono p q : 0 < n -> (0 <= p -> p <= q -> q <= 100 -> interpolate l p <= interpolate l q)%Q.
Proof.
  intros Hn Hp Hpq Hq. unfold interpolate. destruct (Z.eqb_spec n 1); [apply Qle_refl|].
  apply at_rank_mono; [apply rank_of_in; try done; split; try done; by eapply Qle_trans..|by apply rank_of_mono].
Qed.

Lemma interpolate_bounds p : 0 < n -> (0 <= p /\ p <= 100 -> at_index l 0 <= interpolate l p /\ interpolate l p <= at_index l (n - 1))%Q.
Proof.
  intros Hn Hp. unfold interpolate. destruct (Z.eqb_spec n 1) as [E|E].
  { rewrite E. split; apply Qle_refl. }
  pose proof (rank_of_in p Hn Hp) as Hr. destruct (rank_indices _ Hr) as (H0 & Hfc & Hc & _).
  destruct (at_rank_between _ Hr) as [Hlo Hhi].
  split; [eapply Qle_trans; [|exact Hlo]|eapply Qle_trans; [exact Hhi|]]; apply at_index_mono; lia.
Qed.

Lemma Qsum_bounds lo hi (k : list Q) : (forall x, x ∈ k -> lo <= x <= hi)%Q ->
  (lo * inject_Z (Z.of_nat (length k)) <= Qsum k /\ Qsum k <= hi * inject_Z (Z.of_nat (length k)))%Q.
Proof.
  induction k as [|x k IH]; intros Hk; [split; change (inject_Z (Z.of_nat (length []))) with 0%Q; cbn [Qsum foldr]; lra|].
  destruct IH as [IH1 IH2]; [set_solver|]. destruct (Hk x) as [H1 H2]; [left|].
  cbn [Qsum foldr length] in *. rewrite Nat2Z.inj_succ. unfold Z.succ. rewrite inject_Z_plus. change (inject_Z 1) with 1%Q. fold (Qsum k). lra.
Qed.

Lemma mean_bounds : 0 < n -> (at_index l 0 <= Qsum l / inject_Z n /\ Qsum l / inject_Z n <= at_index l (n - 1))%Q.
Proof.
  intros Hn. assert (0 < inject_Z n)%Q as Hpos by (change 0%Q with (inject_Z 0); rewrite <-Zlt_Qlt; lia).
  destruct (Qsum_bounds (at_index l 0) (at_index l (n - 1)) l at_index_bounds) as [H1 H2].
  split; [by apply Qle_shift_div_l|by apply Qle_shift_div_r].
Qed.

End Sorted.

Lemma nonempty_length {A} (l : list A) : l <> [] -> 0 < Z.of_nat (length l).
Proof. destruct l; [done|cbn; lia]. Qed.

(** The reported latencies are in order: minimum, median, 90th, 95th and 99th
    percentile, maximum; the mean lies between the extremes, and so does every latency
    that was measured, at the precision reported.  This holds of any list, also an
    empty one. *)
Theorem percentiles_ordered latencies_ms : let st := calculate_percentiles latencies_ms in
  (min_latency_ms st <= p50 st /\ p50 st <= p90 st /\ p90 st <= p95 st /\ p95 st <= p99 st /\ p99 st <= max_latency_ms st)%Q /\
  (min_latency_ms st <= mean_latency_ms st /\ mean_latency_ms st <= max_latency_ms st)%Q /\
  (forall x, x ∈ latencies_ms -> min_latency_ms st <= round_to 3 x /\ round_to 3 x <= max_latency_ms st)%Q.
Proof.
  intros st. destruct (decide (latencies_ms = [])) as [->|Hne].
  { cbn. repeat split; try apply Qle_refl; set_solver. }
  set (l := stable_sort Qle_bool latencies_ms). pose proof (ascending_sort latencies_ms : ascending l) as Hl.
  assert (l ≡ₚ latencies_ms) as Hp by apply stable_sort_perm.
  assert (0 < Z.of_nat (length l)) as Hn by (rewrite Hp; by apply nonempty_length).
  assert (st = mkStats (round_to 3 (interpolate l 50)) (round_to 3 (interpolate l 90)) (round_to 3 (interpolate l 95))
    (round_to 3 (interpolate l 99)) (round_to 3 (at_index l 0)) (round_to 3 (at_index l (Z.of_nat (length l) - 1)))
    (round_to 3 (Qsum l / inject_Z (Z.of_nat (length l))))) as -> by (by destruct latencies_ms).
  cbn [min_latency_ms p50 p90 p95 p99 max_latency_ms mean_latency_ms].
  split_and!; [| | | | | | |intros x Hx; split]; apply round_to_mono; try done;
    try (apply interpolate_mono; done); try (apply interpolate_bounds; try done; split; done); try by apply mean_bounds.
  all: apply at_index_bounds; [done|by rewrite Hp].
Qed.

(** ** Every run ends with every request counted *)

Lemma sum_insert {A} (f : A -> nat) (l : list A) i x y : l !! i = Some y ->
  (sum_list_with f (<[i := x]> l) + f y = sum_list_with f l + f x)%nat.
Proof.
  revert i. induction l as [|a l IH]; intros [|i] Hi; simplify_eq/=; [lia|].
  specialize (IH i Hi). lia.
Qed.

Lemma sum_all {A} (f : A -> nat) k (l : list A) : (forall x, x ∈ l -> f x <= k)%nat -> (sum_list_with f l <= k * length l)%nat.
Proof.
  induction l as [|a l IH]; intros Hl; [cbn; lia|].
  pose proof (Hl a ltac:(left)). assert (sum_list_with f l <= k * length l)%nat by (apply IH; set_solver). cbn. lia.
Qed.

Lemma sum_replicate {A} (f : A -> nat) k (x : A) : sum_list_with f (replicate k x) = (k * f x)%nat.
Proof. induction k as [|k IH]; [done|]. cbn. rewrite IH. lia. Qed.

(** The steps a worker has ahead without drawing again, and the roles of the workers. *)
Definition weight (w : worker) : nat := match w with Ready => 1 | Waiting => 3 | InFlight _ => 2 | Finished => 0 end.
Definition is_waiting (w : worker) : nat := match w with Waiting => 1 | _ => 0 end.
Definition is_in_flight (w : worker) : nat := match w with InFlight _ => 1 | _ => 0 end.
Definition is_finished (w : worker) : nat := match w with Finished => 1 | _ => 0 end.

Definition steps_left (total : nat) (b : bench) : nat := 3 * (total - b_counter b) + sum_list_with weight (b_workers b).
Definition in_flight (b : bench) : nat := sum_list_with is_in_flight (b_workers b).

Section Run.
Context (total workers : nat).

Record sound (b : bench) : Prop := {
  s_answered : (b_successful b + b_failed b = length (b_latencies b))%nat;
  s_drawn : (b_counter b = length (b_latencies b) + sum_list_with is_waiting (b_workers b) + in_flight b)%nat;
  s_limit : (b_counter b <= total)%nat;
  s_permits : (b_permits b + in_flight b = workers)%nat;
  s_workers : length (b_workers b) = workers;
  s_finished : (0 < sum_list_with is_finished (b_workers b))%nat -> b_counter b = total
}.

Lemma sound_move i w x b : sound b -> b_workers b !! i = Some w ->
  forall b', b_workers b' = <[i := x]> (b_workers b) ->
  (b_successful b' + b_failed b' = length (b_latencies b'))%nat -> (b_counter b' <= total)%nat ->
  (b_counter b' + length (b_latencies b) + is_waiting w + is_in_flight w = b_counter b + length (b_latencies b') + is_waiting x + is_in_flight x)%nat ->
  (b_permits b' + is_in_flight x = b_permits b + is_in_flight w)%nat ->
  (b_counter b = total \/ x = Finished -> b_counter b' = total) ->
  sound b' /\ (steps_left total b' + weight w + 3 * b_counter b' = steps_left total b + weight x + 3 * b_counter b)%nat.
Proof.
  intros [Ha Hd Hl Hp Hw Hf] Hi b' Hb' Ha' Hl' Hd' Hp' Hf'.
  pose proof (sum_insert weight _ i x w Hi) as H1. pose proof (sum_insert is_waiting _ i x w Hi) as H2.
  pose proof (sum_insert is_in_flight _ i x w Hi) as H3. pose proof (sum_insert is_finished _ i x w Hi) as H4.
  unfold in_flight, steps_left in *. split; [constructor; unfold in_flight; rewrite ?Hb'|rewrite Hb'; lia]; try lia.
  - by rewrite length_insert.
  - intros Hpos. apply Hf'. destruct x; cbn in *; [left; apply Hf; lia..|by right].
Qed.

Ltac solve_move := rewrite ?length_app; cbn; solve [lia | case_match; lia | intros [?|?]; first [lia | done]].

Lemma worker_step_sound i h b b' : sound b -> worker_step total i h b = Some b' ->
  sound b' /\ steps_left total b = S (steps_left total b').
Proof.
  intros Hb Hs. pose proof Hb as [Ha Hd Hl Hp Hw Hf]. unfold worker_step in Hs.
  destruct (b_workers b !! i) as [w|] eqn:Hi; [|done].
  assert (forall x, b_workers b' = <[i := x]> (b_workers b) -> _) as Hmove by (intros x; exact (sound_move i w x b Hb Hi b')).
  destruct w as [| |t0|]; destruct h as [|t|t code|t]; try done.
  - destruct (Nat.leb_spec total (b_counter b)); simplify_eq;
      (edestruct Hmove; [reflexivity|cbn in *; solve_move..|]); split; [done|cbn in *; lia|done|cbn in *; lia].
  - destruct (b_permits b) as [|k] eqn:Hk; [done|]. simplify_eq.
    edestruct Hmove; [reflexivity|cbn in *; solve_move..|]. split; [done|cbn in *; lia].
  - simplify_eq. edestruct Hmove; [reflexivity|cbn in *; solve_move..|]. split; [done|cbn in *; lia].
  - simplify_eq. edestruct Hmove; [reflexivity|cbn in *; solve_move..|]. split; [done|cbn in *; lia].
Qed.

Lemma run_schedule_sound s b b' : sound b -> run_schedule total s b = Some b' ->
  sound b' /\ steps_left total b = (length s + steps_left total b')%nat.
Proof.
  revert b. induction s as [|[i h] s IH]; intros b Hb Hs; cbn in Hs; [by simplify_eq|].
  apply bind_Some in Hs as (b1 & H1 & Hs). destruct (worker_step_sound _ _ _ _ Hb H1) as [Hb1 E].
  destruct (IH b1 Hb1 Hs) as [Hb' E']. split; [done|]. cbn [length]. lia.
Qed.

(** The permits are as many as the workers, so none of them ever waits for one. *)
Lemma sound_progress i w b : sound b -> b_workers b !! i = Some w -> w <> Finished ->
  exists h b', worker_step total i h b = Some b'.
Proof.
  intros [_ _ _ Hp Hw _] Hi Hne. unfold worker_step. rewrite Hi. destruct w as [| |t0|]; [| | |done].
  - exists Ticket. case_match; eauto.
  - exists (Acquire 0). destruct (b_permits b) eqn:Hk; [|eauto]. exfalso.
    pose proof (sum_insert is_in_flight _ i (InFlight 0) Waiting Hi) as Hsum. unfold in_flight in Hp. cbn in Hsum.
    assert (sum_list_with is_in_flight (<[i := InFlight 0]> (b_workers b)) <= 1 * workers)%nat; [|lia].
    rewrite <-Hw, <-(length_insert (b_workers b) i (InFlight 0)). apply sum_all. intros []; cbn; lia.
  - exists (Failure 0). eauto.
Qed.

Lemma finished_counts b : all_finished b = true ->
  sum_list_with weight (b_workers b) = 0%nat /\ sum_list_with is_waiting (b_workers b) = 0%nat /\ in_flight b = 0%nat /\
  sum_list_with is_finished (b_workers b) = length (b_workers b).
Proof.
  unfold all_finished, in_flight. induction (b_workers b) as [|w l IH]; [done|].
  cbn. intros [Hw Hl]%andb_prop. destruct w; try done. destruct (IH Hl) as (-> & -> & -> & ->). done.
Qed.
End Run.

Lemma sound_start concurrency total : sound total (effective_concurrency concurrency total) (bench_start concurrency total).
Proof.
  unfold bench_start. constructor; unfold in_flight; cbn; rewrite ?sum_replicate; cbn; try lia. by rewrite length_replicate.
Qed.

(** C39: The load generator under every schedule of its workers and of the answers: at
    most as many requests are under way as it has workers, a worker that has not
    finished can always go on (the semaphore never makes it wait), and the run takes at
    most three steps a request and one a worker.  When [gather] returns it has taken
    exactly that many, and every request was sent once and counted as one success or
    one failure, with one latency. *)
Theorem benchmark_completes concurrency total_requests s b :
  run_schedule total_requests s (bench_start concurrency total_requests) = Some b ->
  let workers := effective_concurrency concurrency total_requests in
  (in_flight b <= workers)%nat /\
  (forall i w, b_workers b !! i = Some w -> w <> Finished -> exists h b', worker_step total_requests i h b = Some b') /\
  (length s <= 3 * total_requests + workers)%nat /\
  (all_finished b = true -> length s = (3 * total_requests + workers)%nat /\
     (b_successful b + b_failed b = total_requests)%nat /\ length (b_latencies b) = total_requests).
Proof.
  intros Hs workers. destruct (run_schedule_sound _ workers _ _ _ (sound_start _ _) Hs) as [Hb E].
  assert (steps_left total_requests (bench_start concurrency total_requests) = 3 * total_requests + workers)%nat as E0.
  { unfold steps_left. cbn. rewrite sum_replicate. cbn. fold workers. lia. }
  rewrite E0 in E. pose proof Hb as [Ha Hd Hl Hp Hw Hf].
  split_and!; [lia|by eauto using sound_progress|lia|]. intros Hall.
  destruct (finished_counts b Hall) as (H1 & H2 & H3 & H4).
  assert (b_counter b = total_requests) as Hc by (apply Hf; rewrite H4, Hw; unfold workers, effective_concurrency; lia).
  unfold steps_left in E. lia.
Qed.

Definition ex_schedule : list (nat * happening) :=
  [(0%nat, Ticket); (1%nat, Ticket); (1%nat, Acquire 0); (0%nat, Acquire 0); (1%nat, Reply (1 # 100) 200); (1%nat, Ticket);
   (0%nat, Failure (2 # 100)); (0%nat, Ticket); (1%nat, Acquire (1 # 100)); (1%nat, Reply (4 # 100) 500); (1%nat, Ticket)].

Definition ex_end : bench := mkBench 3 2 [Finished; Finished] [((1 # 100) - 0) * 1000; ((2 # 100) - 0) * 1000; ((4 # 100) - (1 # 100)) * 1000]%Q 1 2.

Lemma benchmark_completes_witness : run_schedule 3 ex_schedule (bench_start 2 3) = Some ex_end /\
  length ex_schedule = 11%nat /\ (b_successful ex_end + b_failed ex_end = 3)%nat.
Proof.
  assert (run_schedule 3 ex_schedule (bench_start 2 3) = Some ex_end) as Hs by reflexivity.
  destruct (benchmark_completes 2 3 ex_schedule ex_end Hs) as (_ & _ & _ & Hall).
  destruct (Hall ltac:(reflexivity)) as (Hlen & Hsum & _). split; [exact Hs|]. split; [exact Hlen|exact Hsum].
Defined.

Example ex_result : run_scenario true "/health/liveness" "get" 2 3 100 ex_schedule (1 # 2) =
  Some (Ok (mkResult "/health/liveness" "GET" 2 3 1 2 (6667 # 100) (500 # 1000) (600 # 100)
    (mkStats (20000 # 1000) (28000 # 1000) (29000 # 1000) (29800 # 1000) (10000 # 1000) (30000 # 1000) (20000 # 1000)) false)).
Proof. reflexivity. Qed.

(** A scenario of no requests ends in a division by zero after its only worker has finished. *)
Example no_requests_raises :
  run_scenario true "/metrics" "GET" 25 0 100 [(0%nat, Ticket)] 1 = Some (Raise PyZeroDivisionError).
Proof. reflexivity. Qed.
