(* ===== verification/Redaction.v ===== *)
(** Redaction of log events: [app/core/logging.py].

    A log event is a dictionary of Python values; lists and dictionaries are looked into,
    everything else (strings, numbers, tuples, objects) is one value.  A dictionary is the
    list of its items with distinct keys.  The processors of structlog are parameters, and
    so is the text of a key that is not a string.

    [sensitive_name] says which keys are to be hidden without the code's tables, and
    [redaction_exact] that the chain hides their values and nothing else, at any depth of
    dictionaries and lists.  Keys are ASCII. *)

From S2P Require Import Prelude SecurityAudit.

Inductive key : Type := KStr (s : string) | KObject (n : Z).

Inductive value : Type :=
  | VStr (s : string)
  | VObject (n : Z)
  | VTuple (l : list value)
  | VList (l : list value)
  | VDict (items : list (key * value)).

(** [SENSITIVE_KEY_NAMES], [SENSITIVE_SUFFIXES], [REDACTED_STR] *)
Definition SENSITIVE_KEY_NAMES : list string :=
  ["password"; "token"; "secret"; "authorization"; "credit_card"; "access_token"; "refresh_token"; "api_key"; "client_secret";
   "private_key"; "auth_token"; "user_password"].
Definition SENSITIVE_SUFFIXES : list string := ["_password"; "_secret"; "_token"; "_key"; "_credit_card"].
Definition REDACTED_STR : string := "[REDACTED]".

(** [s.replace("-", "_")] *)
Definition dashes_to_underscores (s : string) : string :=
  of_chars ((fun c => if decide (c = "-"%char) then "_"%char else c) <$> chars s).

(** [is_sensitive_key] *)
Definition is_sensitive_key (k : string) : bool :=
  let key_clean := dashes_to_underscores (py_lower k) in
  bool_decide (key_clean ∈ SENSITIVE_KEY_NAMES) || existsb (py_endswith key_clean) SENSITIVE_SUFFIXES.

(** The test of [scrub_data]: [isinstance(k, str) and is_sensitive_key(k)]. *)
Definition hides (k : key) : bool := match k with KStr s => is_sensitive_key s | KObject _ => false end.

(** [scrub_data] *)
Fixpoint scrub_data (val : value) : value :=
  match val with
  | VDict items => VDict (map (fun '(k, v) => (k, if hides k then VStr REDACTED_STR else scrub_data v)) items)
  | VList l => VList (map scrub_data l)
  | _ => val
  end.

Inductive processor : Type :=
  merge_contextvars | add_log_level | TimeStamper | StackInfoRenderer | format_exc_info | redact_sensitive_data.
Inductive renderer : Type := JSONRenderer | ConsoleRenderer.

(** [get_processors] *)
Definition get_processors (environment : string) (force_json : bool) : list processor * renderer :=
  ([merge_contextvars; add_log_level; TimeStamper; StackInfoRenderer; format_exc_info; redact_sensitive_data],
   if bool_decide (py_lower environment = "production") || force_json then JSONRenderer else ConsoleRenderer).

Section Chain.
(** [str(key)] of the other keys, and what structlog's processors do. *)
Context (str_of : Z -> string) (structlog : processor -> list (key * value) -> list (key * value)).

Definition key_str (k : key) : string := match k with KStr s => s | KObject n => str_of n end.

(** [redact_sensitive_data_processor] *)
Definition redact_item (item : key * value) : key * value :=
  let '(k, val) := item in
  if is_sensitive_key (key_str k) then (k, VStr REDACTED_STR)
  else match val with
       | VDict _ | VList _ => (k, scrub_data val)
       | _ => (k, val)
       end.

Definition redact_sensitive_data_processor (event_dict : list (key * value)) : list (key * value) := redact_item <$> event_dict.

Definition apply_processor (event_dict : list (key * value)) (p : processor) : list (key * value) :=
  match p with redact_sensitive_data => redact_sensitive_data_processor event_dict | _ => structlog p event_dict end.

(** What reaches the renderer. *)
Definition log_chain (environment : string) (force_json : bool) (event_dict : list (key * value)) : list (key * value) :=
  foldl apply_processor event_dict (get_processors environment force_json).1.

(** What structlog's own processors make of the event. *)
Definition prepared (event_dict : list (key * value)) : list (key * value) :=
  foldl apply_processor event_dict [merge_contextvars; add_log_level; TimeStamper; StackInfoRenderer; format_exc_info].

(** ** What the log may depend on *)

(** How a character of a key is read: capitals as small letters, a dash as an underscore. *)
Inductive reads_as : ascii -> ascii -> Prop :=
  | reads_capital c d : (65 <= nat_of_ascii c <= 90)%nat -> nat_of_ascii d = (nat_of_ascii c + 32)%nat -> reads_as c d
  | reads_dash : reads_as "-" "_"
  | reads_same c : ~ (65 <= nat_of_ascii c <= 90)%nat -> c <> "-"%char -> reads_as c c.

(** The names to hide: the five words themselves, and every name whose last part is a
    password, a secret, a token, a key or a credit card.  (The other entries of the code's
    table end in one of these parts.) *)
Definition sensitive_name (k : string) : Prop :=
  exists name, Forall2 reads_as (chars k) (chars name) /\
    (name ∈ ["password"; "token"; "secret"; "authorization"; "credit_card"] \/
     exists first last, name = first +:+ "_" +:+ last /\ last ∈ ["password"; "secret"; "token"; "key"; "credit_card"]).
(** Inside a value only text keys can be sensitive. *)
Definition sensitive_key (k : key) : Prop := match k with KStr s => sensitive_name s | KObject _ => False end.

(** Equal up to the values of sensitive keys. *)
Inductive agree : value -> value -> Prop :=
  | agree_same v : agree v v
  | agree_list l l' : Forall2 agree l l' -> agree (VList l) (VList l')
  | agree_dict d d' : Forall2 (fun x y => x.1 = y.1 /\ (sensitive_key x.1 \/ agree x.2 y.2)) d d' -> agree (VDict d) (VDict d').

Definition agree_items (d d' : list (key * value)) : Prop :=
  Forall2 (fun x y => x.1 = y.1 /\ (sensitive_name (key_str x.1) \/ agree x.2 y.2)) d d'.

(** What the log shows of an item: the key, and the mark in place of a sensitive value. *)
Definition shown (x y : key * value) : Prop :=
  y.1 = x.1 /\ (sensitive_name (key_str x.1) -> y.2 = VStr "[REDACTED]") /\ (~ sensitive_name (key_str x.1) -> agree x.2 y.2).

(** *** The test of the code is the specification *)

Definition read_char (c : ascii) : ascii := if decide (lower_ascii c = "-"%char) then "_"%char else lower_ascii c.

Lemma reads_as_read c d : reads_as c d <-> d = read_char c.
Proof.
  split.
  - intros [c' d' Hc Hd| |c' Hc Hd]; unfold read_char, lower_ascii, is_upper.
    + rewrite !(proj2 (Nat.leb_le _ _)) by lia. cbn [andb]. rewrite decide_False.
      * apply (f_equal ascii_of_nat) in Hd. by rewrite ascii_nat_embedding in Hd.
      * intros E. apply (f_equal nat_of_ascii) in E. rewrite nat_ascii_embedding in E by lia. change (nat_of_ascii "-"%char) with 45%nat in E. lia.
    + reflexivity.
    + destruct (Nat.leb_spec 65 (nat_of_ascii c')), (Nat.leb_spec (nat_of_ascii c') 90); cbn [andb]; try lia; by rewrite decide_False.
  - intros ->. unfold read_char, lower_ascii, is_upper.
    destruct (Nat.leb_spec 65 (nat_of_ascii c)), (Nat.leb_spec (nat_of_ascii c) 90); cbn [andb];
      [rewrite decide_False|destruct (decide (c = "-"%char)) as [->|]; [apply reads_dash|apply reads_same; [lia|done]]..].
    + apply reads_capital; [lia|]. rewrite nat_ascii_embedding; lia.
    + intros E. apply (f_equal nat_of_ascii) in E. rewrite nat_ascii_embedding in E by lia. change (nat_of_ascii "-"%char) with 45%nat in E. lia.
Qed.
Lemma reads_as_all l l' : Forall2 reads_as l l' <-> l' = read_char <$> l.
Proof.
  split.
  - induction 1 as [|c d l l' Hc _ IH]; [done|]. cbn. f_equal; [by apply reads_as_read|done].
  - intros ->. induction l as [|c l IH]; constructor; [by apply reads_as_read|done].
Qed.
Lemma key_clean_reads k name : Forall2 reads_as (chars k) (chars name) <-> name = dashes_to_underscores (py_lower k).
Proof.
  rewrite reads_as_all. unfold dashes_to_underscores, py_lower. rewrite chars_of_chars, <-list_fmap_compose.
  change ((fun c => if decide (c = "-"%char) then "_"%char else c) ∘ lower_ascii) with read_char. split.
  - intros <-. by rewrite of_chars_chars.
  - intros ->. by rewrite chars_of_chars.
Qed.
Lemma starts_with_iff p s : starts_with p s = true <-> exists r, s = p ++ r.
Proof.
  revert s. induction p as [|a p IH]; intros s; [cbn; split; [by eexists|done]|]. destruct s as [|b s]; [cbn; split; [done|by intros (r & ?)]|].
  cbn. rewrite andb_true_iff, bool_decide_eq_true, IH. split; [intros [-> (r & ->)]; by exists r|intros (r & [= -> ->]); eauto].
Qed.
Lemma endswith_iff s suffix : py_endswith s suffix = true <-> exists first, s = first +:+ suffix.
Proof.
  unfold py_endswith. rewrite starts_with_iff. split.
  - intros (r & Hr). apply (f_equal (@rev _)) in Hr. rewrite rev_app_distr, !rev_involutive in Hr. exists (of_chars (rev r)).
    apply (f_equal of_chars) in Hr. rewrite of_chars_chars in Hr. rewrite Hr. rewrite <-(of_chars_chars (_ +:+ _)). by rewrite chars_app, chars_of_chars.
  - intros (r & ->). exists (rev (chars r)). by rewrite chars_app, rev_app_distr.
Qed.

Lemma is_sensitive_key_spec k : is_sensitive_key k = true <-> sensitive_name k.
Proof.
  unfold is_sensitive_key, sensitive_name. set (name := dashes_to_underscores (py_lower k)).
  assert ((exists n, Forall2 reads_as (chars k) (chars n) /\
    (n ∈ ["password"; "token"; "secret"; "authorization"; "credit_card"] \/
     exists first last, n = first +:+ "_" +:+ last /\ last ∈ ["password"; "secret"; "token"; "key"; "credit_card"])) <->
    (name ∈ ["password"; "token"; "secret"; "authorization"; "credit_card"] \/
     exists first last, name = first +:+ "_" +:+ last /\ last ∈ ["password"; "secret"; "token"; "key"; "credit_card"])) as ->.
  { split; [intros (n & ->%key_clean_reads & H); exact H|intros H; exists name; split; [by apply key_clean_reads|exact H]]. }
  rewrite orb_true_iff, bool_decide_eq_true, existsb_exists. generalize name. clear name. intros name.
  assert ((exists sfx, In sfx SENSITIVE_SUFFIXES /\ py_endswith name sfx = true) <->
    exists first last, name = first +:+ "_" +:+ last /\ last ∈ ["password"; "secret"; "token"; "key"; "credit_card"]) as Hsfx.
  { split.
    - intros (sfx & Hin & (first & ->)%endswith_iff). exists first. unfold SENSITIVE_SUFFIXES in Hin. cbn in Hin.
      destruct Hin as [<-|[<-|[<-|[<-|[<-|[]]]]]]; [exists "password"|exists "secret"|exists "token"|exists "key"|exists "credit_card"]; (split; [done|by apply (bool_decide_unpack _)]).
    - intros (first & last & -> & Hl). exists ("_" +:+ last). split; [|apply endswith_iff; by exists first].
      rewrite !elem_of_cons in Hl. destruct Hl as [->|[->|[->|[->|[->|[]%elem_of_nil]]]]]; cbn; tauto. }
  rewrite Hsfx. split; [|intros [H|H]; [left; rewrite !elem_of_cons in H; destruct H as [->|[->|[->|[->|[->|[]%elem_of_nil]]]]]; by apply (bool_decide_unpack _)|by right]].
  intros [H|H]; [|by right]. unfold SENSITIVE_KEY_NAMES in H. rewrite !elem_of_cons in H.
  destruct H as [->|[->|[->|[->|[->|[->|[->|[->|[->|[->|[->|[->|[]%elem_of_nil]]]]]]]]]]]]; first [left; by apply (bool_decide_unpack _)|right].
  - exists "access", "token". split; [done|by apply (bool_decide_unpack _)].
  - exists "refresh", "token". split; [done|by apply (bool_decide_unpack _)].
  - exists "api", "key". split; [done|by apply (bool_decide_unpack _)].
  - exists "client", "secret". split; [done|by apply (bool_decide_unpack _)].
  - exists "private", "key". split; [done|by apply (bool_decide_unpack _)].
  - exists "auth", "token". split; [done|by apply (bool_decide_unpack _)].
  - exists "user", "password". split; [done|by apply (bool_decide_unpack _)].
Qed.
Lemma hides_spec k : hides k = true <-> sensitive_key k.
Proof. destruct k; [apply is_sensitive_key_spec|done]. Qed.

Section ValueInd.
Context (P : value -> Prop) (Hs : forall s, P (VStr s)) (Ho : forall n, P (VObject n)) (Ht : forall l, P (VTuple l))
  (Hl : forall l, Forall P l -> P (VList l)) (Hd : forall d, Forall (fun x => P x.2) d -> P (VDict d)).

Fixpoint value_induction (v : value) : P v :=
  match v with
  | VStr s => Hs s
  | VObject n => Ho n
  | VTuple l => Ht l
  | VList l => Hl l ((fix go l := match l return Forall P l with [] => Forall_nil_2 _ | x :: l' => Forall_cons_2 _ _ _ (value_induction x) (go l') end) l)
  | VDict d => Hd d ((fix go d := match d return Forall (fun x => P x.2) d with
      [] => Forall_nil_2 _ | x :: d' => Forall_cons_2 _ _ _ (value_induction x.2) (go d') end) d)
  end.
End ValueInd.

(** Mapping two lists gives the same exactly when the elements correspond. *)
Lemma map_eq_Forall2 {A B} (f : A -> B) (R : A -> A -> Prop) (l l' : list A) :
  Forall (fun x => forall y, f x = f y <-> R x y) l -> map f l = map f l' <-> Forall2 R l l'.
Proof.
  intros Hl. revert l'. induction Hl as [|x l Hx Hl IH]; intros [|y l']; cbn; split; intros H; try done.
  - inversion H.
  - inversion H.
  - injection H as H1 H2. constructor; [by apply Hx|by apply IH].
  - inversion H; subst. f_equal; [by apply Hx|by apply IH].
Qed.

Lemma Forall2_diag {A} (R : A -> A -> Prop) (l : list A) : (forall x, R x x) -> Forall2 R l l.
Proof. intros HR. induction l; constructor; done. Qed.

Lemma hidden_item_exact k v v' : (forall w, scrub_data v = scrub_data w <-> agree v w) ->
  forall k', (k, if hides k then VStr REDACTED_STR else scrub_data v) = (k', if hides k' then VStr REDACTED_STR else scrub_data v') <->
  k = k' /\ (sensitive_key k \/ agree v v').
Proof.
  intros IH k'. rewrite <-hides_spec. split.
  - intros [= <- H]. split; [done|]. destruct (hides k); [by left|right]. by apply IH.
  - intros [<- [Hk|Hv]]; [by rewrite Hk|]. f_equal. destruct (hides k); [done|by apply IH].
Qed.

Lemma scrub_exact v w : scrub_data v = scrub_data w <-> agree v w.
Proof.
  revert w. induction v as [s|n|l|l IH|d IH] using value_induction; intros w.
  1-3: destruct w; cbn; (split; [intros [= ]; subst; constructor|inversion 1; subst; try done]).
  - destruct w as [| | |l'|]; try (cbn; split; [done|inversion 1]).
    transitivity (map scrub_data l = map scrub_data l'); [cbn; split; [by intros [=]|by intros ->]|].
    rewrite (map_eq_Forall2 _ agree) by done. split; [by constructor|].
    inversion 1; subst; [apply Forall2_diag, agree_same|done].
  - destruct w as [| | | |d']; try (cbn; split; [done|inversion 1]).
    set (f := fun '(k, v) => (k, if hides k then VStr REDACTED_STR else scrub_data v)).
    transitivity (map f d = map f d').
    { change (VDict (map f d) = VDict (map f d') <-> map f d = map f d'). split; [by intros [=]|by intros ->]. }
    rewrite (map_eq_Forall2 f (fun x y => x.1 = y.1 /\ (sensitive_key x.1 \/ agree x.2 y.2))).
    + split; [by constructor|]. inversion 1; subst; [|done]. apply Forall2_diag. split; [done|right; apply agree_same].
    + eapply Forall_impl; [exact IH|]. intros [k v] Hv [k' v']. by apply hidden_item_exact.
Qed.

(** The shortcut of the processor for values without parts changes nothing. *)
Lemma redact_item_scrub k v : redact_item (k, v) = (k, if is_sensitive_key (key_str k) then VStr REDACTED_STR else scrub_data v).
Proof. cbn. by destruct (is_sensitive_key _), v. Qed.

Lemma processor_exact d d' :
  redact_sensitive_data_processor d = redact_sensitive_data_processor d' <-> agree_items d d'.
Proof.
  apply (map_eq_Forall2 redact_item). apply Forall_forall. intros [k v] _ [k' v']. rewrite !redact_item_scrub. cbn.
  rewrite <-is_sensitive_key_spec. split.
  - intros [= <- H]. split; [done|]. destruct (is_sensitive_key _); [by left|right]. by apply scrub_exact.
  - intros [<- [Hk|Hv]]; [by rewrite Hk|]. f_equal. destruct (is_sensitive_key _); [done|by apply scrub_exact].
Qed.

Lemma scrub_idemp v : scrub_data (scrub_data v) = scrub_data v.
Proof.
  induction v as [s|n|l|l IH|d IH] using value_induction; try done.
  - cbn. f_equal. rewrite map_map. apply map_ext_Forall, IH.
  - cbn [scrub_data]. f_equal. rewrite map_map. apply map_ext_Forall. eapply Forall_impl; [exact IH|]. intros [k v] Hv. cbn in *.
    destruct (hides k); [done|]. by rewrite Hv.
Qed.
Lemma redact_shows d : Forall2 shown d (redact_sensitive_data_processor d).
Proof.
  induction d as [|[k v] d IH]; [constructor|]. constructor; [|exact IH]. rewrite redact_item_scrub. unfold shown. cbn [fst snd].
  rewrite <-is_sensitive_key_spec. destruct (is_sensitive_key _); split_and!; try done.
  intros _. apply scrub_exact. by rewrite scrub_idemp.
Qed.

(** structlog's processors add and take away keys of their own (the context, the level, the
    time, stack and exception): they do not look at other values. *)
Hypothesis law_structlog : forall p d d', agree_items d d' -> agree_items (structlog p d) (structlog p d').

Lemma prepared_agree d d' : agree_items d d' -> agree_items (prepared d) (prepared d').
Proof. intros H. unfold prepared. cbn. by do 5 apply law_structlog. Qed.

(** C40: What the log shows.  The renderer receives the items that structlog's own
    processors prepared, in their order, with the mark in place of the value of every
    sensitive key, whatever its case and with dashes for underscores, and with the other
    values unchanged except below their own sensitive keys, at every depth of dictionaries
    and lists.  Two events that differ only in the values of sensitive keys are logged
    alike, so no output depends on such a value; and two prepared events that are logged
    alike differ in nothing else, so nothing else is lost.  structlog's processors are
    assumed not to copy the value of a sensitive key elsewhere. *)
Theorem redaction_exact environment force_json environment' force_json' e e' :
  Forall2 shown (prepared e) (log_chain environment force_json e) /\
  (agree_items e e' -> log_chain environment force_json e = log_chain environment' force_json' e') /\
  (log_chain environment force_json e = log_chain environment' force_json' e' <-> agree_items (prepared e) (prepared e')).
Proof.
  split; [apply redact_shows|]. split; [|apply processor_exact]. intros H. by apply processor_exact, prepared_agree.
Qed.

End Chain.

(** ** Examples *)

Definition ex_event (secret : value) : list (key * value) :=
  [(KStr "event", VStr "login"); (KStr "User-Password", secret);
   (KStr "request", VDict [(KStr "X-API-KEY", secret); (KStr "headers", VList [VDict [(KStr "Authorization", secret); (KStr "host", VStr "h")]])])].

Example ex_redacted : redact_sensitive_data_processor (fun _ => "") (ex_event (VStr "s3cret")) =
  [(KStr "event", VStr "login"); (KStr "User-Password", VStr REDACTED_STR);
   (KStr "request", VDict [(KStr "X-API-KEY", VStr REDACTED_STR);
      (KStr "headers", VList [VDict [(KStr "Authorization", VStr REDACTED_STR); (KStr "host", VStr "h")]])])].
Proof. reflexivity. Qed.

(** A dictionary inside a tuple is not looked into, and the national identifier that the
    application encrypts in its tables is no sensitive key; a cache key is one. *)
Example tuples_are_not_scrubbed : forall s,
  redact_sensitive_data_processor (fun _ => "") [(KStr "args", VTuple [VDict [(KStr "password", VStr s)]])] =
  [(KStr "args", VTuple [VDict [(KStr "password", VStr s)]])].
Proof. reflexivity. Qed.

Example identifiers_are_shown : is_sensitive_key "nid_number" = false /\ is_sensitive_key "passwd" = false /\
  is_sensitive_key "cache_key" = true.
Proof. repeat split; reflexivity. Qed.

(** ** Witness *)

(** A level and a time added to the event. *)
Definition ex_structlog (p : processor) (d : list (key * value)) : list (key * value) :=
  match p with
  | add_log_level => d ++ [(KStr "level", VStr "info")]
  | TimeStamper => d ++ [(KStr "timestamp", VStr "2024-01-01T00:00:00Z")]
  | _ => d
  end.
Lemma ex_structlog_law p d d' : agree_items (fun _ => "") d d' -> agree_items (fun _ => "") (ex_structlog p d) (ex_structlog p d').
Proof.
  intros H. destruct p; cbn; try done; (apply Forall2_app; [done|]); (constructor; [split; [done|right; apply agree_same]|constructor]).
Qed.

Lemma redaction_exact_witness :
  log_chain (fun _ => "") ex_structlog "production" false (ex_event (VStr "s3cret")) =
  log_chain (fun _ => "") ex_structlog "test" false (ex_event (VStr "other")).
Proof.
  apply (proj1 (proj2 (redaction_exact (fun _ => "") ex_structlog ex_structlog_law "production" false "test" false
    (ex_event (VStr "s3cret")) (ex_event (VStr "other"))))).
  apply processor_exact. reflexivity.
Defined.
