(* ===== verification/Json.v ===== *)
(** JSON documents as Python's [json] module reads them: a [dict] is the list of its items
    with distinct keys; a number with a fraction is its text. *)

From S2P Require Import Prelude.

Local Open Scope Z_scope.

Inductive json : Type :=
  | JNull | JBool (b : bool) | JInt (z : Z) | JFloat (text : string) | JStr (s : string) | JList (l : list json)
  | JDict (items : list (string * json)).

Definition get_item (j : json) (k : string) : option json := match j with JDict d => dict_get d k | _ => None end.
Definition list_of (j : option json) : list json := match j with Some (JList l) => l | _ => [] end.

(** [bool(x)] *)
Definition truthy (j : json) : bool :=
  match j with
  | JNull => false
  | JBool b => b
  | JInt z => negb (z =? 0)
  | JFloat t => bool_decide (t <> "0.0" /\ t <> "-0.0")
  | JStr s => bool_decide (s <> "")
  | JList l => match l with [] => false | _ => true end
  | JDict d => match d with [] => false | _ => true end
  end.
