(* ===== verification/Dashboard.v ===== *)
(** Dashboards as code: [app/services/dashboard_service.py].

    The specification is a JSON document ([json.load] is Python's); a [dict] is the list
    of its items with distinct keys.  Reading the file is a parameter: no file, text that
    is no JSON, or a document.  In Python [True] and [False] are integers, and so they are
    here where the code asks [isinstance(x, int)].

    [validation_exact]: the validator accepts exactly the documents that its rules
    describe. *)

From S2P Require Import Prelude Json.

Local Open Scope Z_scope.

(** [DashboardValidationError] by the rule that is violated. *)
Inductive DashboardValidationError : Type :=
  | NotFound | MalformedJson | RootNotObject | PayloadNotObject | InvalidSchemaVersion | EmptyTitle | NoPanels
  | PanelNotObject (idx : nat) | InvalidPanelId (idx : nat) | DuplicatePanelId (panel_id : Z) | EmptyPanelTitle (panel_id : Z)
  | InvalidPanelType (panel_id : Z) | NoTargets (panel_id : Z) | TargetNotObject (panel_id : Z) (t_idx : nat)
  | EmptyExpr (panel_id : Z) (t_idx : nat) | UnbalancedParentheses (expr : string) | MissingRange (expr : string)
  | MissingSignals (missing : list string).

Inductive checked (A : Type) : Type := Good (a : A) | Bad (e : DashboardValidationError).
Arguments Good {A} a.
Arguments Bad {A} e.

Definition cbind {A B} (r : checked A) (f : A -> checked B) : checked B := match r with Good a => f a | Bad e => Bad e end.

(** ** Loading *)

(** What is on disk: no file, text that is no JSON, a document. *)
Definition file : Type := option (option json).

Definition is_object (j : json) : bool := match j with JDict _ => true | _ => false end.

(** [load_dashboard_json]; the state is the cached document.  The caller gets a copy. *)
Definition load_dashboard_json (force_reload : bool) (disk : file) (cache : option json) : checked json * option json :=
  match cache, force_reload with
  | Some data, false => (Good data, cache)
  | _, _ => match disk with
            | None => (Bad NotFound, cache)
            | Some None => (Bad MalformedJson, cache)
            | Some (Some data) => if is_object data then (Good data, Some data) else (Bad RootNotObject, cache)
            end
  end.

(** ** Validation *)

(** [isinstance(x, int)], and a string that is not empty. *)
Definition int_of (j : option json) : option Z :=
  match j with Some (JInt z) => Some z | Some (JBool b) => Some (Z.b2z b) | _ => None end.
Definition text_of (j : option json) : option string :=
  match j with Some (JStr s) => if decide (s = "") then None else Some s | _ => None end.
Definition items_of (j : option json) : option (list json) :=
  match j with Some (JList (x :: l)) => Some (x :: l) | _ => None end.

Definition count (c : ascii) (s : string) : nat := length (filter (fun d => d = c) (chars s)).

Definition is_digit (c : ascii) : bool := let n := nat_of_ascii c in ((48 <=? n) && (n <=? 57))%nat.
Definition range_units : list ascii := ["s"%char; "m"%char; "h"%char; "d"%char; "w"%char; "y"%char].

(** [_PROMQL_RANGE_REGEX]: a bracket, digits, a unit, a bracket. *)
Fixpoint range_tail (seen : bool) (l : list ascii) : bool :=
  match l with
  | c :: l' => if is_digit c then range_tail true l'
               else seen && bool_decide (c ∈ range_units) && match l' with d :: _ => bool_decide (d = "]"%char) | [] => false end
  | [] => false
  end.
Fixpoint range_search (l : list ascii) : bool :=
  match l with
  | [] => false
  | c :: l' => (bool_decide (c = "["%char) && range_tail false l') || range_search l'
  end.

Record signals : Type := mkSignals { traffic : bool; error_rate : bool; latency : bool; saturation : bool }.

(** The signals one query shows. *)
Definition shows_error_rate (e : string) : bool := py_in "http_requests_total" (py_lower e) && py_in "5.." (py_lower e).
Definition shows_traffic (e : string) : bool := py_in "http_requests_total" (py_lower e) && negb (py_in "5.." (py_lower e)).
Definition shows_latency (e : string) : bool :=
  py_in "histogram_quantile" (py_lower e) && py_in "http_request_duration_seconds" (py_lower e).
Definition shows_saturation (e : string) : bool := py_in "http_requests_in_flight" (py_lower e).

Definition detect (g : signals) (expr : string) : signals :=
  let expr_lower := py_lower expr in
  let g := if py_in "http_requests_total" expr_lower && py_in "5.." expr_lower
           then mkSignals (traffic g) true (latency g) (saturation g)
           else if py_in "http_requests_total" expr_lower then mkSignals true (error_rate g) (latency g) (saturation g) else g in
  let g := if py_in "histogram_quantile" expr_lower && py_in "http_request_duration_seconds" expr_lower
           then mkSignals (traffic g) (error_rate g) true (saturation g) else g in
  if py_in "http_requests_in_flight" expr_lower then mkSignals (traffic g) (error_rate g) (latency g) true else g.

Definition check_target (panel_id : Z) (t_idx : nat) (target : json) (g : signals) : checked signals :=
  match target with
  | JDict t =>
      match text_of (dict_get t "expr") with
      | None => Bad (EmptyExpr panel_id t_idx)
      | Some expr =>
          if decide (py_strip expr = "") then Bad (EmptyExpr panel_id t_idx)
          else if negb (count "(" expr =? count ")" expr)%nat then Bad (UnbalancedParentheses expr)
          else if (py_in "rate(" expr || py_in "increase(" expr) && negb (range_search (chars expr)) then Bad (MissingRange expr)
          else Good (detect g expr)
      end
  | _ => Bad (TargetNotObject panel_id t_idx)
  end.

Fixpoint check_targets (panel_id : Z) (t_idx : nat) (targets : list json) (g : signals) : checked signals :=
  match targets with
  | [] => Good g
  | target :: targets' => cbind (check_target panel_id t_idx target g) (check_targets panel_id (S t_idx) targets')
  end.

Definition check_panel (idx : nat) (panel : json) (seen_panel_ids : list Z) (g : signals) : checked (Z * signals) :=
  match panel with
  | JDict p =>
      match int_of (dict_get p "id") with
      | None => Bad (InvalidPanelId idx)
      | Some panel_id =>
          if bool_decide (panel_id ∈ seen_panel_ids) then Bad (DuplicatePanelId panel_id)
          else match text_of (dict_get p "title"), text_of (dict_get p "type"), items_of (dict_get p "targets") with
               | None, _, _ => Bad (EmptyPanelTitle panel_id)
               | _, None, _ => Bad (InvalidPanelType panel_id)
               | _, _, None => Bad (NoTargets panel_id)
               | Some _, Some _, Some targets => cbind (check_targets panel_id 0 targets g) (fun g' => Good (panel_id, g'))
               end
      end
  | _ => Bad (PanelNotObject idx)
  end.

Fixpoint check_panels (idx : nat) (panels : list json) (seen_panel_ids : list Z) (g : signals) : checked signals :=
  match panels with
  | [] => Good g
  | panel :: panels' =>
      cbind (check_panel idx panel seen_panel_ids g) (fun '(panel_id, g') => check_panels (S idx) panels' (panel_id :: seen_panel_ids) g')
  end.

Definition missing_signals (g : signals) : list string :=
  (if traffic g then [] else ["traffic"]) ++ (if error_rate g then [] else ["error_rate"]) ++
  (if latency g then [] else ["latency"]) ++ (if saturation g then [] else ["saturation"]).

(** [validate_dashboard_schema] of a given document *)
Definition validate_dashboard_schema (dashboard : json) : checked bool :=
  match dashboard with
  | JDict data =>
      match int_of (dict_get data "schemaVersion") with
      | None => Bad InvalidSchemaVersion
      | Some schema_version =>
          if schema_version <? 36 then Bad InvalidSchemaVersion
          else match text_of (dict_get data "title") with
               | None => Bad EmptyTitle
               | Some title =>
                   if decide (py_strip title = "") then Bad EmptyTitle
                   else match items_of (dict_get data "panels") with
                        | None => Bad NoPanels
                        | Some panels =>
                            cbind (check_panels 0 panels [] (mkSignals false false false false)) (fun g =>
                            match missing_signals g with [] => Good true | missing => Bad (MissingSignals missing) end)
                        end
               end
      end
  | _ => Bad PayloadNotObject
  end.

(** [export_dashboard_json] *)
Definition export_dashboard_json (disk : file) (cache : option json) : checked json * option json :=
  let '(r, cache') := load_dashboard_json false disk cache in
  (cbind r (fun data => cbind (validate_dashboard_schema data) (fun _ => Good data)), cache').

(** [get_validation_summary] *)
Record panel_summary : Type := mkPanelSummary { ps_id : option json; ps_title : option json; ps_type : option json; target_count : nat }.
Record validation_summary : Type := mkSummary {
  vs_status : string; vs_title : option json; vs_uid : option json; vs_schema_version : option json; panel_count : nat;
  vs_panels : list panel_summary }.

Definition summarize_panel (p : json) : panel_summary :=
  mkPanelSummary (get_item p "id") (get_item p "title") (get_item p "type") (length (list_of (get_item p "targets"))).

Definition get_validation_summary (disk : file) (cache : option json) : checked validation_summary * option json :=
  let '(r, cache') := load_dashboard_json false disk cache in
  (cbind r (fun data => cbind (validate_dashboard_schema data) (fun is_valid =>
     let panels := list_of (get_item data "panels") in
     Good (mkSummary (if is_valid then "valid" else "invalid") (get_item data "title") (get_item data "uid")
             (get_item data "schemaVersion") (length panels) (summarize_panel <$> panels)))), cache').

(** ** The rules *)

(** A lookback range somewhere in the query, such as "[5m]". *)
Definition has_range (l : list ascii) : Prop := exists a digits u b,
  l = a ++ "["%char :: digits ++ u :: "]"%char :: b /\ digits <> [] /\ Forall (fun c => is_digit c = true) digits /\ u ∈ range_units.

Definition promql_ok (e : string) : Prop :=
  py_strip e <> "" /\ count "(" e = count ")" e /\
  (py_in "rate(" e = true \/ py_in "increase(" e = true -> has_range (chars e)).

Definition target_ok (t : json) (e : string) : Prop := exists d, t = JDict d /\ dict_get d "expr" = Some (JStr e) /\ promql_ok e.

Definition panel_ok (p : json) (info : Z * list string) : Prop := exists d title type targets,
  p = JDict d /\ int_of (dict_get d "id") = Some info.1 /\
  dict_get d "title" = Some (JStr title) /\ title <> "" /\ dict_get d "type" = Some (JStr type) /\ type <> "" /\
  dict_get d "targets" = Some (JList targets) /\ targets <> [] /\ Forall2 target_ok targets info.2.

Definition dashboard_ok (j : json) : Prop := exists d version title panels infos,
  j = JDict d /\ int_of (dict_get d "schemaVersion") = Some version /\ 36 <= version /\
  dict_get d "title" = Some (JStr title) /\ py_strip title <> "" /\
  dict_get d "panels" = Some (JList panels) /\ panels <> [] /\ Forall2 panel_ok panels infos /\ NoDup infos.*1 /\
  let exprs := concat infos.*2 in
  (exists e, e ∈ exprs /\ shows_traffic e = true) /\ (exists e, e ∈ exprs /\ shows_error_rate e = true) /\
  (exists e, e ∈ exprs /\ shows_latency e = true) /\ (exists e, e ∈ exprs /\ shows_saturation e = true).

(** ** The validator follows them *)

Lemma text_of_Some j s : text_of j = Some s <-> j = Some (JStr s) /\ s <> "".
Proof. destruct j as [[]|]; cbn; try case_decide; naive_solver. Qed.

Lemma items_of_Some j l : items_of j = Some l <-> j = Some (JList l) /\ l <> [].
Proof. destruct j as [[| | | | |[]|]|]; cbn; naive_solver. Qed.

Lemma digit_unit c : c ∈ range_units -> is_digit c = false.
Proof. revert c. apply Forall_forall. repeat constructor. Qed.

Lemma range_tail_spec seen l : range_tail seen l = true <-> exists digits u b,
  l = digits ++ u :: "]"%char :: b /\ (seen = true \/ digits <> []) /\ Forall (fun c => is_digit c = true) digits /\ u ∈ range_units.
Proof.
  revert seen. induction l as [|c l IH]; intros seen; cbn.
  { split; [done|]. intros ([] & ? & ? & ? & _); done. }
  destruct (is_digit c) eqn:Hc.
  - rewrite IH. split.
    + intros (ds & u & b & -> & _ & Hds & Hu). exists (c :: ds), u, b. split_and!; [done|by right|by constructor|done].
    + intros ([|c' ds] & u & b & E & _ & Hds & Hu); simplify_eq/=; [by rewrite (digit_unit _ Hu) in Hc|].
      exists ds, u, b. inversion Hds; subst. split_and!; [done|by left|done|done].
  - split.
    + intros H. destruct seen; [|done]. cbn in H. destruct l as [|d l]; [by rewrite andb_false_r in H|].
      apply andb_prop in H as [H1%bool_decide_eq_true H2%bool_decide_eq_true]. subst d.
      exists [], c, l. split_and!; [done|by left|constructor|done].
    + intros ([|c' ds] & u & b & E & Hs & Hds & Hu); simplify_eq/=; [|inversion Hds; congruence].
      destruct Hs as [->|?]; [|done]. by rewrite !bool_decide_true.
Qed.

Lemma range_search_spec l : range_search l = true <-> has_range l.
Proof.
  induction l as [|c l IH]; cbn.
  { split; [done|]. intros ([] & ? & ? & ? & ? & _); done. }
  rewrite orb_true_iff, andb_true_iff, bool_decide_eq_true, range_tail_spec, IH. split.
  - intros [[-> (ds & u & b & -> & Hne & Hds & Hu)]|(a & ds & u & b & -> & Hr)].
    + exists [], ds, u, b. destruct Hne as [?|?]; done.
    + by exists (c :: a), ds, u, b.
  - intros ([|c' a] & ds & u & b & E & Hne & Hds & Hu); simplify_eq/=.
    + left. split; [done|]. exists ds, u, b. by split_and!; [|right| |].
    + right. by exists a, ds, u, b.
Qed.

Lemma check_target_spec pid k t g g' : check_target pid k t g = Good g' <-> exists e, target_ok t e /\ g' = detect g e.
Proof.
  unfold target_ok, promql_ok. destruct t as [| | | | | |d]; cbn; try naive_solver.
  destruct (text_of (dict_get d "expr")) as [e|] eqn:He.
  - apply text_of_Some in He as [He Hne]. split.
    + intros H. case_decide; [done|]. destruct (Nat.eqb_spec (count "(" e) (count ")" e)); [|done]. cbn in H.
      exists e. destruct ((py_in "rate(" e || py_in "increase(" e) && negb (range_search (chars e))) eqn:Hr; [done|].
      simplify_eq. split; [|done]. exists d. split_and!; try done. intros Hin. apply range_search_spec.
      destruct (range_search (chars e)); [done|]. rewrite andb_true_r in Hr. apply orb_false_iff in Hr. naive_solver congruence.
    + intros (e' & (d' & [= <-] & He' & Hs & Hc & Hr) & ->). rewrite He in He'. simplify_eq.
      rewrite decide_False by done. rewrite Hc, Nat.eqb_refl. cbn.
      destruct (py_in "rate(" e' || py_in "increase(" e') eqn:Hin; [|done].
      apply orb_true_iff in Hin. by rewrite (proj2 (range_search_spec _) (Hr Hin)).
  - split; [done|]. intros (e & (d' & [= <-] & He' & Hs & _) & _). rewrite He' in He. cbn in He. by case_decide; subst.
Qed.

Lemma cbind_Good {A B} (r : checked A) (f : A -> checked B) b : cbind r f = Good b <-> exists a, r = Good a /\ f a = Good b.
Proof. destruct r; cbn; naive_solver. Qed.

Lemma check_targets_spec pid k ts g g' :
  check_targets pid k ts g = Good g' <-> exists es, Forall2 target_ok ts es /\ g' = foldl detect g es.
Proof.
  revert k g. induction ts as [|t ts IH]; intros k g; cbn.
  { split; [intros [= ->]; by exists []|]. intros (es & Hes & ->). by inversion Hes. }
  rewrite cbind_Good. split.
  - intros (g1 & (e & He & ->)%check_target_spec & (es & Hes & ->)%IH). exists (e :: es). by split; [constructor|].
  - intros (es & Hes & ->). inversion Hes as [|? e ? es' He Hes']; subst. exists (detect g e).
    split; [apply check_target_spec; by exists e|]. apply IH. by exists es'.
Qed.

Lemma check_panel_spec k p seen g i g' :
  check_panel k p seen g = Good (i, g') <-> (i ∉ seen) /\ exists es, panel_ok p (i, es) /\ g' = foldl detect g es.
Proof.
  unfold panel_ok. destruct p as [| | | | | |d]; try (cbn; naive_solver). cbn [check_panel].
  destruct (int_of (dict_get d "id")) as [pid|] eqn:Hid; [|split; [done|]; intros (_ & es & (d' & ? & ? & ? & [= <-] & E & _) & _); cbn in E; congruence].
  case_bool_decide as Hseen; [split; [done|]; intros (? & es & (d' & ? & ? & ? & [= <-] & E & _) & _); cbn in E; congruence|].
  split.
  - intros H. destruct (text_of (dict_get d "title")) as [ti|] eqn:Hti; [|done].
    destruct (text_of (dict_get d "type")) as [ty|] eqn:Hty; [|done].
    destruct (items_of (dict_get d "targets")) as [ts|] eqn:Hts; [|done].
    apply cbind_Good in H as (g1 & (es & Hes & ->)%check_targets_spec & [= <- <-]).
    apply text_of_Some in Hti as [? ?], Hty as [? ?]. apply items_of_Some in Hts as [? ?].
    split; [done|]. exists es. split; [|done]. by exists d, ti, ty, ts.
  - intros (_ & es & (d' & ti & ty & ts & [= <-] & E & Hti & Hti0 & Hty & Hty0 & Hts & Hts0 & Hes) & ->). cbn in E, Hes.
    rewrite Hid in E. simplify_eq.
    rewrite (proj2 (text_of_Some _ ti)), (proj2 (text_of_Some _ ty)), (proj2 (items_of_Some _ ts)) by done.
    apply cbind_Good. exists (foldl detect g es). split; [|done]. apply check_targets_spec. by exists es.
Qed.

Lemma check_panels_spec k ps seen g g' : check_panels k ps seen g = Good g' <->
  exists infos, Forall2 panel_ok ps infos /\ NoDup infos.*1 /\ (forall i, i ∈ infos.*1 -> i ∉ seen) /\
    g' = foldl detect g (concat infos.*2).
Proof.
  revert k seen g. induction ps as [|p ps IH]; intros k seen g; cbn.
  { split; [intros [= ->]; exists []; split_and!; [constructor|constructor|set_solver|done]|].
    intros (infos & Hi & _ & _ & ->). by inversion Hi. }
  rewrite cbind_Good. split.
  - intros ([i g1] & (Hi & es & Hp & ->)%check_panel_spec & (infos & Hps & Hnd & Hnew & ->)%IH).
    exists ((i, es) :: infos). split_and!; [by constructor| | |by rewrite <-foldl_app].
    + cbn. constructor; [|done]. intros Hin. apply (Hnew i Hin). left.
    + cbn. intros j [->|Hj]%elem_of_cons; [done|]. specialize (Hnew j Hj). set_solver.
  - intros (infos & Hi & Hnd & Hnew & ->). inversion Hi as [|? [i es] ? infos' Hp Hps]; subst. cbn in *.
    apply NoDup_cons in Hnd as [Hn1 Hnd]. exists (i, foldl detect g es). split.
    + apply check_panel_spec. split; [apply Hnew; left|by exists es].
    + apply IH. exists infos'. split_and!; try done; [|by rewrite foldl_app]. intros j Hj [->|Hs]%elem_of_cons; [done|].
      apply (Hnew j); [by right|done].
Qed.

Lemma detect_eq g e : detect g e = mkSignals (traffic g || shows_traffic e) (error_rate g || shows_error_rate e)
  (latency g || shows_latency e) (saturation g || shows_saturation e).
Proof.
  unfold detect, shows_traffic, shows_error_rate, shows_latency, shows_saturation. cbv zeta.
  destruct g as [[] [] [] []], (py_in "http_requests_total" (py_lower e)), (py_in "5.." (py_lower e)),
    (py_in "histogram_quantile" (py_lower e)), (py_in "http_request_duration_seconds" (py_lower e)),
    (py_in "http_requests_in_flight" (py_lower e)); reflexivity.
Qed.

Lemma detect_all g es : foldl detect g es =
  mkSignals (traffic g || existsb shows_traffic es) (error_rate g || existsb shows_error_rate es)
    (latency g || existsb shows_latency es) (saturation g || existsb shows_saturation es).
Proof.
  revert g. induction es as [|e es IH]; intros g; cbn; [by destruct g; rewrite !orb_false_r|].
  by rewrite IH, detect_eq; cbn; rewrite !orb_assoc.
Qed.

Lemma existsb_elem {A} (f : A -> bool) (l : list A) : existsb f l = true <-> exists x, x ∈ l /\ f x = true.
Proof. rewrite existsb_exists. setoid_rewrite list_elem_of_In. done. Qed.

Lemma no_missing_signals es : missing_signals (foldl detect (mkSignals false false false false) es) = [] <->
  (exists e, e ∈ es /\ shows_traffic e = true) /\ (exists e, e ∈ es /\ shows_error_rate e = true) /\
  (exists e, e ∈ es /\ shows_latency e = true) /\ (exists e, e ∈ es /\ shows_saturation e = true).
Proof.
  rewrite <-!existsb_elem, detect_all. unfold missing_signals. cbn.
  destruct (existsb shows_traffic es), (existsb shows_error_rate es), (existsb shows_latency es), (existsb shows_saturation es);
    cbn; naive_solver.
Qed.

(** The validator accepts a document exactly when it is an object with an integer
    [schemaVersion] of at least 36, a title that is not blank and panels that are
    objects with distinct integer ids, each with a title, a type and at least one query,
    all queries having as many opening as closing parentheses and a range where they use
    [rate] or [increase], and the four signals are each shown by some query. *)
Theorem validation_exact j : validate_dashboard_schema j = Good true <-> dashboard_ok j.
Proof.
  unfold dashboard_ok. destruct j as [| | | | | |d]; try (cbn; naive_solver). cbn [validate_dashboard_schema]. split.
  - intros H. destruct (int_of (dict_get d "schemaVersion")) as [v|] eqn:Hv; [|done].
    destruct (Z.ltb_spec v 36); [done|]. destruct (text_of (dict_get d "title")) as [ti|] eqn:Hti; [|done]. case_decide; [done|].
    destruct (items_of (dict_get d "panels")) as [ps|] eqn:Hps; [|done].
    apply cbind_Good in H as (g & (infos & Hi & Hnd & _ & ->)%check_panels_spec & Hm).
    destruct (missing_signals _) eqn:Hmiss in Hm; [|done]. apply no_missing_signals in Hmiss.
    apply text_of_Some in Hti as [? ?]. apply items_of_Some in Hps as [? ?]. by exists d, v, ti, ps, infos.
  - intros (d' & v & ti & ps & infos & [= <-] & Hv & Hv36 & Hti & Hstrip & Hps & Hne & Hi & Hnd & Hsig). rewrite Hv.
    rewrite (proj2 (Z.ltb_ge v 36)) by done. rewrite (proj2 (text_of_Some _ ti)) by (split; [done|by intros ->]).
    rewrite decide_False by done. rewrite (proj2 (items_of_Some _ ps)) by done. apply cbind_Good.
    exists (foldl detect (mkSignals false false false false) (concat infos.*2)). split.
    + apply check_panels_spec. exists infos. split_and!; try done. set_solver.
    + by rewrite (proj2 (no_missing_signals _) Hsig).
Qed.

(** What is exported is what the file said, valid, and it stays available from the
    cache when the file is gone. *)
Lemma export_valid disk cache data cache' : export_dashboard_json disk cache = (Good data, cache') ->
  dashboard_ok data /\ cache' = Some data /\ forall disk', export_dashboard_json disk' cache' = (Good data, cache').
Proof.
  unfold export_dashboard_json. destruct (load_dashboard_json false disk cache) as [r c] eqn:Hload.
  intros [= H <-]. apply cbind_Good in H as (data' & -> & H). apply cbind_Good in H as (b & Hv & [= ->]).
  assert (b = true) as ->.
  { destruct b; [done|]. exfalso. revert Hv. unfold validate_dashboard_schema, cbind. by repeat case_match. }
  assert (c = Some data) as ->. { revert Hload. unfold load_dashboard_json. repeat case_match; naive_solver. }
  split; [by apply validation_exact|]. split; [done|]. intros disk'. cbn. by rewrite Hv.
Qed.

(** ** Examples *)

Definition ex_panel (id : json) (expr : string) : json :=
  JDict [("id", id); ("title", JStr "t"); ("type", JStr "stat"); ("targets", JList [JDict [("expr", JStr expr)]])].
Definition ex_dashboard (id : json) : json := JDict [("schemaVersion", JInt 39); ("title", JStr "Golden"); ("panels", JList
  [ex_panel id "sum(rate(http_requests_total[5m]))"; ex_panel (JInt 2) "rate(http_requests_total{status=~'5..'}[5m])";
   ex_panel (JInt 3) "histogram_quantile(0.95, rate(http_request_duration_seconds_bucket[5m]))";
   ex_panel (JInt 4) "http_requests_in_flight"])].

Example ex_valid : validate_dashboard_schema (ex_dashboard (JInt 1)) = Good true.
Proof. reflexivity. Qed.
Example ex_duplicate : validate_dashboard_schema (ex_dashboard (JInt 4)) = Bad (DuplicatePanelId 4).
Proof. reflexivity. Qed.

(** There is no check of the UID (the document above has none), a boolean passes as an
    id, and parentheses are only counted. *)
Example boolean_id_accepted : validate_dashboard_schema (ex_dashboard (JBool true)) = Good true.
Proof. reflexivity. Qed.
Example reversed_parentheses_accepted :
  check_target 1 0 (JDict [("expr", JStr ")http_requests_in_flight(")]) (mkSignals false false false false) =
  Good (mkSignals false false false true).
Proof. reflexivity. Qed.
