(* ===== verification/Tasks.v ===== *)
(** Background task queues: [app/services/task_service.py], [app/services/arq_service.py],
    [app/services/schedule_service.py], the tasks of [app/tasks] and the schedule of
    [app/core/celery_app.py].

    Celery and ARQ are parameters: what a result backend holds for a task, what a pool
    answers.  Celery runs a retried task again after its countdown with one retry more.
    Clocks, digests and generated identifiers are arguments.

    [one_pool_open]: the ARQ service never has more than one pool open;
    [job_status_sound]: what a job status reports comes from the queue;
    [schedules_can_be_triggered]: every scheduled task can be triggered by its name. *)

From S2P Require Import Prelude Json.
From stdpp Require Import pretty.

Local Open Scope Z_scope.
Local Open Scope py_scope.

(** ** Celery: dispatch and polling *)

(** [AsyncResult.result]: a value, or the exception of a failed task. *)
Inductive celery_result : Type := Returned (j : json) | Failed (text : string).

Record task_status : Type := mkTaskStatus { ts_task_id : string; ts_status : string; ts_result : option json; ts_error : option string }.

Section Celery.
Context (py_str : json -> string).

Definition is_dict (j : json) : bool := match j with JDict _ => true | _ => false end.

(** [get_task_status] *)
Definition get_task_status (task_id state : string) (result : celery_result) : task_status :=
  if decide (state = "SUCCESS") then
    mkTaskStatus task_id state
      (match result with
       | Returned j => Some (if is_dict j then j else JDict [("data", j)])
       | Failed text => Some (JDict [("data", JStr text)])
       end) None
  else if decide (state = "FAILURE") then
    mkTaskStatus task_id state None
      (Some (match result with
             | Returned j => if truthy j then py_str j else "Task execution failed"
             | Failed text => text
             end))
  else mkTaskStatus task_id state None None.

End Celery.

(** ** The tasks *)

(** [generate_pdf_report] *)
Definition generate_pdf_report (sha256 : string -> string) (user_id : Z) (report_type timestamp : string) (now : Z) (elapsed : string) : json :=
  let raw_content := "PDF_REPORT_DATA|user_id=" +:+ pretty user_id +:+ "|type=" +:+ report_type +:+ "|ts=" +:+ timestamp in
  JDict [("status", JStr "COMPLETED"); ("user_id", JInt user_id); ("report_type", JStr report_type);
    ("filename", JStr ("report_" +:+ pretty user_id +:+ "_" +:+ report_type +:+ "_" +:+ pretty now +:+ ".pdf"));
    ("checksum_sha256", JStr (sha256 raw_content)); ("size_bytes", JInt (1024 * 42)); ("generated_at", JStr timestamp);
    ("execution_time_seconds", JFloat elapsed)].

(** [send_transactional_email]: one attempt of the task, with [retries] before it. *)
Inductive email_outcome : Type := Sent (attempt : Z) | RetryIn (countdown : Z) | GaveUp.

Definition email_max_retries : Z := 3.
Definition email_default_retry_delay : Z := 5.

Definition send_transactional_email (context : json) (retries : Z) : email_outcome :=
  if match get_item context "simulate_error" with Some j => truthy j | None => false end then
    if retries <? email_max_retries then RetryIn (email_default_retry_delay * 2 ^ retries) else GaveUp
  else Sent (retries + 1).

(** All attempts: the waits in between, and the last outcome. *)
Fixpoint deliver (fuel : nat) (context : json) (retries : Z) : option (list Z * email_outcome) :=
  match fuel with
  | O => None
  | S fuel' => match send_transactional_email context retries with
               | RetryIn countdown => '(waits, last) ← deliver fuel' context (retries + 1); Some (countdown :: waits, last)
               | last => Some ([], last)
               end
  end.

(** Four attempts are all there are: an email is sent at the first, or given up after
    the fourth and 35 seconds of waiting. *)
Lemma email_attempts context : deliver 4 context 0 = Some ([], Sent 1) \/ deliver 4 context 0 = Some ([5; 10; 20], GaveUp).
Proof. cbn. unfold send_transactional_email. destruct (match get_item context "simulate_error" with Some j => truthy j | None => false end); cbn; auto. Qed.

(** [sync_webhook_notification]; [client] is absent, or what its [post] gives: the status
    of the answer, or an exception. *)
Definition sync_webhook_notification (client : option (Z + exc)) (webhook_url timestamp : string) (payload : list (string * json))
  : json + string :=
  if match dict_get payload "simulate_error" with Some j => truthy j | None => false end
  then inr ("Simulated webhook failure dispatching to " +:+ webhook_url)
  else
    let status_code := match client with Some (inl code) => code | Some (inr _) => 200 | None => 200 end in
    inl (JDict [("status", JStr "DELIVERED"); ("webhook_url", JStr webhook_url); ("status_code", JInt status_code);
      ("attempted_at", JStr timestamp); ("payload_keys", JList (JStr <$> stable_sort str_leb payload.*1))]).

(** A webhook that could not be posted, or was answered with an error, counts as
    delivered. *)
Example failed_webhook_is_delivered : forall e url ts,
  (match sync_webhook_notification (Some (inr e)) url ts [] with inl r => (get_item r "status", get_item r "status_code") | inr _ => (None, None) end)
    = (Some (JStr "DELIVERED"), Some (JInt 200)) /\
  (match sync_webhook_notification (Some (inl 503)) url ts [] with inl r => get_item r "status" | inr _ => None end) = Some (JStr "DELIVERED").
Proof. done. Qed.

(** [broadcast_push_notification] *)
Definition broadcast_push_notification (sha256 : string -> string) (user_ids : list Z) (message timestamp : string) : json :=
  JDict [("status", JStr "BROADCAST_COMPLETED"); ("total_recipients", JInt (Z.of_nat (length user_ids)));
    ("delivered_count", JInt (Z.of_nat (length user_ids))); ("user_ids", JList (JInt <$> stable_sort Z.leb user_ids));
    ("message_digest", JStr (sha256 message)); ("broadcast_at", JStr timestamp)].

(** [nightly_reconciliation_audit], [prune_expired_sessions_and_tokens],
    [system_health_heartbeat]: fixed figures. *)
Definition nightly_reconciliation_audit (sha256 : string -> string) (timestamp elapsed : string) : json :=
  let total := "4500000.0" in
  let raw_audit_summary := "AUDIT|ts=" +:+ timestamp +:+ "|debits=" +:+ total +:+ "|credits=" +:+ total +:+ "|bal=True" in
  JDict [("status", JStr "COMPLETED"); ("task_name", JStr "nightly_reconciliation_audit"); ("audited_accounts", JInt 1250);
    ("total_debits", JFloat total); ("total_credits", JFloat total); ("discrepancies", JInt 0); ("balanced", JBool true);
    ("audit_timestamp", JStr timestamp); ("checksum_sha256", JStr (sha256 raw_audit_summary)); ("execution_time_seconds", JFloat elapsed)].

Definition prune_expired_sessions_and_tokens (timestamp elapsed : string) : json :=
  JDict [("status", JStr "COMPLETED"); ("task_name", JStr "prune_expired_sessions_and_tokens"); ("scanned_records", JInt 340);
    ("evicted_count", JInt 42); ("execution_time_seconds", JFloat elapsed); ("pruned_at", JStr timestamp)].

Definition system_health_heartbeat (timestamp elapsed_ms : string) : json :=
  JDict [("status", JStr "HEALTHY"); ("task_name", JStr "system_health_heartbeat"); ("database", JStr "OK"); ("redis", JStr "OK");
    ("heartbeat_timestamp", JStr timestamp); ("latency_ms", JFloat elapsed_ms)].

(** ** Schedules *)

Inductive task : Type := NightlyAudit | PruneSessions | Heartbeat.
Inductive schedule : Type := Crontab (hour : option Z) (minute : Z) | Every (seconds : string).

(** [celery_app.conf.beat_schedule]: name, task path, schedule, queue. *)
Record beat_entry : Type := mkBeat { be_name : string; be_task : string; be_schedule : schedule; be_queue : option string }.

Definition beat_schedule : list beat_entry :=
  [mkBeat "nightly-reconciliation-audit" "app.tasks.scheduled_tasks.nightly_reconciliation_audit" (Crontab (Some 0) 0) (Some "celery");
   mkBeat "prune-expired-sessions-and-tokens" "app.tasks.scheduled_tasks.prune_expired_sessions_and_tokens" (Crontab None 0) (Some "celery");
   mkBeat "system-health-heartbeat" "app.tasks.scheduled_tasks.system_health_heartbeat" (Every "60.0") (Some "celery")].

(** The paths Celery registers the tasks under. *)
Definition task_path (t : task) : string :=
  match t with
  | NightlyAudit => "app.tasks.scheduled_tasks.nightly_reconciliation_audit"
  | PruneSessions => "app.tasks.scheduled_tasks.prune_expired_sessions_and_tokens"
  | Heartbeat => "app.tasks.scheduled_tasks.system_health_heartbeat"
  end.

(** [_TASK_REGISTRY] *)
Definition TASK_REGISTRY : list (string * task) :=
  [("nightly-reconciliation-audit", NightlyAudit); ("nightly_reconciliation_audit", NightlyAudit); ("nightly-audit", NightlyAudit);
   ("app.tasks.scheduled_tasks.nightly_reconciliation_audit", NightlyAudit);
   ("prune-expired-sessions-and-tokens", PruneSessions); ("prune_expired_sessions_and_tokens", PruneSessions);
   ("prune-sessions", PruneSessions); ("app.tasks.scheduled_tasks.prune_expired_sessions_and_tokens", PruneSessions);
   ("system-health-heartbeat", Heartbeat); ("system_health_heartbeat", Heartbeat); ("heartbeat", Heartbeat);
   ("app.tasks.scheduled_tasks.system_health_heartbeat", Heartbeat)].

Record ScheduleEntryResponse : Type := mkEntryResponse {
  se_name : string; se_task : string; se_schedule_type : string; se_schedule_expression : string; se_queue : string }.

(** [get_active_schedules]; the text of a crontab is Celery's. *)
Definition get_active_schedules (crontab_str : option Z -> Z -> string) (entries : list beat_entry) : nat * list ScheduleEntryResponse :=
  (length entries, (fun e =>
     let '(ty, expr) := match be_schedule e with
                        | Crontab h m => ("crontab", crontab_str h m)
                        | Every s => ("interval", "every " +:+ s +:+ "s")
                        end in
     mkEntryResponse (be_name e) (be_task e) ty expr (default "celery" (be_queue e))) <$> entries).

(** [trigger_scheduled_task_manually]: the identifier, and what was sent to the broker. *)
Definition trigger_scheduled_task_manually (task_name new_id : string) (sent : list (string * task))
  : result string * list (string * task) :=
  match dict_get TASK_REGISTRY task_name with
  | None => (Raise EntityNotFoundException, sent)
  | Some t => (Ok new_id, sent ++ [(new_id, t)])
  end.

(** Every entry of the schedule can be triggered by its name and by its path, and runs
    the task that the scheduler would run. *)
Lemma schedules_can_be_triggered : Forall (fun e => exists t, task_path t = be_task e /\ forall new_id sent,
    trigger_scheduled_task_manually (be_name e) new_id sent = (Ok new_id, sent ++ [(new_id, t)]) /\
    trigger_scheduled_task_manually (be_task e) new_id sent = (Ok new_id, sent ++ [(new_id, t)])) beat_schedule.
Proof. repeat constructor; [exists NightlyAudit|exists PruneSessions|exists Heartbeat]; done. Qed.

(** ** ARQ *)

(** The two class attributes, the pools opened so far and the ones closed. *)
Record arq_state : Type := mkArq { pool : option nat; pool_override : option nat; opened : nat; closed : list nat }.

Definition arq_init : arq_state := mkArq None None 0 [].

(** [get_pool]; [down] is an exception of [create_pool]. *)
Definition get_pool (down : option exc) : M arq_state nat := fun s =>
  match pool_override s, pool s with
  | Some p, _ => (Ok p, s)
  | None, Some p => (Ok p, s)
  | None, None => match down with
                  | Some e => (Raise e, s)
                  | None => (Ok (opened s), mkArq (Some (opened s)) None (S (opened s)) (closed s))
                  end
  end.

(** [set_pool_override], [close_pool]; [fails] is an exception of [aclose]. *)
Definition set_pool_override (p : option nat) : M arq_state () := fun s => (Ok (), mkArq (pool s) p (opened s) (closed s)).

Definition close_pool (fails : option exc) : M arq_state () := fun s =>
  match pool s with
  | None => (Ok (), s)
  | Some p => match fails with
              | Some e => (Raise e, s)
              | None => (Ok (), mkArq None (pool_override s) (opened s) (closed s ++ [p]))
              end
  end.

Section Queue.
(** A pool: enqueueing a named job (no job when its identifier is taken), and what it
    knows of a job.  Every call may raise. *)
Context {Q : Type} (enqueue_job : nat -> string -> list json -> Q -> result (option string) * Q)
  (job_status : nat -> string -> Q -> result string) (job_info : nat -> string -> Q -> result (option (option string)))
  (job_result_info : nat -> string -> Q -> result (option (json * bool))).

(** [enqueue_webhook_task], [enqueue_broadcast_task] *)
Definition enqueue (down : option exc) (name : string) (args : list json) (uuid_hex : string) : M (arq_state * Q) string := fun '(s, q) =>
  match get_pool down s with
  | (Raise e, s') => (Raise e, (s', q))
  | (Ok p, s') => let '(r, q') := enqueue_job p name args q in
                  (let? job := r in Ok (default uuid_hex job), (s', q'))
  end.

Definition enqueue_webhook_task (down : option exc) (webhook_url : string) (payload : json) (uuid_hex : string) : M (arq_state * Q) string :=
  enqueue down "sync_webhook_notification" [JStr webhook_url; payload] uuid_hex.

Definition enqueue_broadcast_task (down : option exc) (user_ids : list Z) (message uuid_hex : string) : M (arq_state * Q) string :=
  enqueue down "broadcast_push_notification" [JList (JInt <$> user_ids); JStr message] uuid_hex.

Record ArqJobStatusResponse : Type := mkJobStatus {
  aj_job_id : string; aj_status : string; aj_result : option json; aj_enqueue_time : option string; aj_success : option bool }.

(** [get_job_status] *)
Definition job_report (p : nat) (job_id status : string) (q : Q) : ArqJobStatusResponse :=
  let enqueue_time := if decide (status = "not_found") then None
                      else match job_info p job_id q with Ok (Some t) => t | _ => None end in
  let outcome := if decide (status = "complete") then match job_result_info p job_id q with Ok o => o | Raise _ => None end else None in
  mkJobStatus job_id status (fst <$> outcome) enqueue_time (snd <$> outcome).

Definition get_job_status (down : option exc) (job_id : string) : M (arq_state * Q) ArqJobStatusResponse := fun '(s, q) =>
  match get_pool down s with
  | (Raise e, s') => (Raise e, (s', q))
  | (Ok p, s') => (let? status := job_status p job_id q in Ok (job_report p job_id status q), (s', q))
  end.

(** A result and its success are reported together, exactly when the job is complete and
    the queue still has them; a job that is not known has no time either. *)
Lemma job_status_sound down job_id s q r s' : get_job_status down job_id (s, q) = (Ok r, s') ->
  s'.2 = q /\ aj_job_id r = job_id /\ (exists p, job_status p job_id q = Ok (aj_status r) /\
    ((exists j b, aj_status r = "complete" /\ job_result_info p job_id q = Ok (Some (j, b)) /\ aj_result r = Some j /\ aj_success r = Some b) \/
     (aj_result r = None /\ aj_success r = None))) /\ (aj_status r = "not_found" -> aj_enqueue_time r = None).
Proof.
  cbn. destruct (get_pool down s) as [[p|e] s1]; [|done]. destruct (job_status p job_id q) as [st|] eqn:Hst; [|done].
  intros [= <- <-]. cbn. split; [done|]. split; [done|]. split; [|intros ->; by rewrite decide_True].
  exists p. split; [done|]. case_decide; [|by right]. destruct (job_result_info p job_id q) as [[[j b]|]|] eqn:Hr; [|by right..].
  left. by exists j, b.
Qed.

End Queue.

(** Any sequence of uses of the pool. *)
Inductive pool_use : Type := Use (down : option exc) | Override (p : option nat) | Close (fails : option exc).

Definition pool_step (s : arq_state) (u : pool_use) : arq_state :=
  match u with
  | Use down => (get_pool down s).2
  | Override p => (set_pool_override p s).2
  | Close fails => (close_pool fails s).2
  end.

(** One after the other, every pool that was opened is closed or is the one in use, and
    none is closed twice. *)
Lemma one_pool_open us : let s := foldl pool_step arq_init us in
  closed s ++ option_list (pool s) = seq 0 (opened s).
Proof.
  cbn. induction us as [|u us IH] using rev_ind; [done|]. rewrite foldl_snoc. set (s := foldl pool_step arq_init us) in *. clearbody s.
  destruct s as [p o n cl]; cbn in *. destruct u as [down|o'|fails]; cbn; [|done|].
  - unfold get_pool. cbn. destruct o, p, down; cbn in *; try done. change (cl ++ [n] = seq 0 (S n)).
    rewrite app_nil_r in IH. by rewrite seq_S, IH.
  - unfold close_pool. cbn. destruct p, fails; cbn in *; try done. by rewrite app_nil_r.
Qed.

(** Opening a pool takes time: two first uses at once both find none, both open one, and
    the second replaces the first, which is never closed. *)
Definition connected (s : arq_state) : arq_state := mkArq (Some (opened s)) (pool_override s) (S (opened s)) (closed s).

Example concurrent_first_uses_leak_a_pool :
  let s := (close_pool None (connected (connected arq_init))).2 in pool s = None /\ opened s = 2%nat /\ closed s = [1%nat].
Proof. done. Qed.
