(* ===== verification/DatabaseAdmin.v ===== *)
(** Statement timeouts and the reaper of hanging queries:
    [app/services/database_admin_service.py].

    A session is the list of what was sent to it.  What the server does with a statement
    is a parameter: it answers, [asyncio.wait_for] gives up first, the driver raises with
    some text, or anything else is raised.  A rollback or commit may raise too.

    [execute_outcomes]: every failing statement is followed by exactly one rollback, and
    the timeout exception is raised exactly for the two kinds of timeout. *)

From S2P Require Import Prelude.
From stdpp Require Import pretty.

Local Open Scope Z_scope.

Inductive action : Type := SetTimeout (ms : Z) | Execute (sql : string) | Rollback | Commit.

(** What a statement does: [DriverError] is [OperationalError] or [DBAPIError]. *)
Inductive answer (A : Type) : Type := Rows (a : A) | WaitTimedOut | DriverError (text : string) | OtherError (e : exc).
Arguments Rows {A} a.
Arguments WaitTimedOut {A}.
Arguments DriverError {A} text.
Arguments OtherError {A} e.

(** What leaves [execute_with_custom_timeout]. *)
Inductive failure : Type := QueryTimeout (sql : string) (timeout_ms : Z) | Driver (text : string) | Other (e : exc).

Definition cancelled_by_server (text : string) : bool :=
  py_in "canceling statement due to statement timeout" (py_lower text) || py_in "querycancelederror" (py_lower text).

Section Execute.
Context (default_timeout_ms : Z) (postgresql : bool) (rollback_fails : option exc).

(** The [except] clauses; an exception of the rollback replaces the first one. *)
Definition rolled_back {A} (f : failure) (log : list action) : (A + failure) * list action :=
  (inr (match rollback_fails with Some e => Other e | None => f end), log ++ [Rollback]).

Definition handle {A} (sql : string) (timeout_ms : Z) (r : answer A) (log : list action) : (A + failure) * list action :=
  match r with
  | Rows a => (inl a, log)
  | WaitTimedOut => rolled_back (QueryTimeout sql timeout_ms) log
  | DriverError text => if cancelled_by_server text then rolled_back (QueryTimeout sql timeout_ms) log else rolled_back (Driver text) log
  | OtherError e => rolled_back (Other e) log
  end.

(** [execute_with_custom_timeout]; [set_answer] is what setting the timeout does. *)
Definition execute_with_custom_timeout {A} (sql_query : string) (timeout_ms : option Z) (set_answer : answer ()) (query_answer : answer A)
  (log : list action) : (A + failure) * list action :=
  let effective_timeout_ms := default default_timeout_ms timeout_ms in
  let run log := handle sql_query effective_timeout_ms query_answer (log ++ [Execute sql_query]) in
  if postgresql then
    match handle sql_query effective_timeout_ms set_answer (log ++ [SetTimeout effective_timeout_ms]) with
    | (inl _, log') => run log'
    | (inr f, log') => (inr f, log')
    end
  else run log.

(** [simulate_hanging_query]; durations are the text Python prints. *)
Record SimulateHangingQueryResponse : Type := mkSimulate { sh_status : string; sh_executed_query : string; sh_cancelled : bool }.

Definition simulate_hanging_query {A} (duration : string) (timeout_ms : option Z) (set_answer : answer ()) (query_answer : answer A)
  (log : list action) : (SimulateHangingQueryResponse + failure) * list action :=
  let effective_timeout_ms := default default_timeout_ms timeout_ms in
  let sql_query := "SELECT pg_sleep(" +:+ duration +:+ ")" in
  match execute_with_custom_timeout sql_query (Some effective_timeout_ms) set_answer query_answer log with
  | (inl _, log') => (inl (mkSimulate "completed" sql_query false), log')
  | (inr f, log') => (inr f, log')
  end.

(** Whether a statement ran into one of the two timeouts, or failed at all. *)
Definition timed_out {A} (r : answer A) : bool :=
  match r with WaitTimedOut => true | DriverError text => cancelled_by_server text | _ => false end.
Definition answered {A} (r : answer A) : bool := match r with Rows _ => true | _ => false end.

(** The statement whose answer decides: the setting of the timeout when it fails. *)
Definition deciding {A} (set_answer : answer ()) (query_answer : answer A) : bool * bool :=
  if postgresql && negb (answered set_answer) then (false, timed_out set_answer) else (answered query_answer, timed_out query_answer).

Lemma handle_spec {A} sql ms (r : answer A) log :
  (handle sql ms r log).2 = log ++ (if answered r then [] else [Rollback]) /\
  (answered r = true <-> exists a, (handle sql ms r log).1 = inl a /\ r = Rows a) /\
  ((handle sql ms r log).1 = inr (QueryTimeout sql ms) <-> timed_out r = true /\ rollback_fails = None).
Proof.
  unfold handle, rolled_back. destruct r as [a| |text|e]; cbn; rewrite ?app_nil_r.
  - naive_solver.
  - destruct rollback_fails; naive_solver.
  - destruct (cancelled_by_server text), rollback_fails; cbn; naive_solver.
  - destruct rollback_fails; naive_solver.
Qed.

(** The whole behaviour: rows when every statement is answered, with nothing rolled
    back; otherwise exactly one rollback, after everything else, and the timeout
    exception with the effective limit exactly when a statement timed out and the
    rollback went through. *)
Theorem execute_outcomes {A} (sql_query : string) timeout_ms set_answer (query_answer : answer A) log :
  let '(r, log') := execute_with_custom_timeout sql_query timeout_ms set_answer query_answer log in
  let '(ok, timeout) := deciding set_answer query_answer in
  exists sent, not (Rollback ∈ sent) /\ log' = log ++ sent ++ (if ok then [] else [Rollback]) /\
    (ok = true <-> exists a, r = inl a /\ query_answer = Rows a) /\
    (r = inr (QueryTimeout sql_query (default default_timeout_ms timeout_ms)) <-> timeout = true /\ rollback_fails = None).
Proof.
  unfold execute_with_custom_timeout, deciding. set (ms := default default_timeout_ms timeout_ms). destruct postgresql; cbn.
  - destruct (handle sql_query ms set_answer (log ++ [SetTimeout ms])) as [x log1] eqn:Hs.
    destruct (handle_spec sql_query ms set_answer (log ++ [SetTimeout ms])) as (L1 & O1 & T1). rewrite Hs in L1, O1, T1. cbn in L1, O1, T1.
    destruct x as [[]|f].
    + assert (answered set_answer = true) as Ha. { destruct set_answer as [[]| |tx|e]; cbn in *; try done; unfold rolled_back in Hs; by repeat case_match. }
      rewrite Ha in *. cbn. destruct (handle sql_query ms query_answer (log1 ++ [Execute sql_query])) as [y log2] eqn:Hq.
      destruct (handle_spec sql_query ms query_answer (log1 ++ [Execute sql_query])) as (L2 & O2 & T2). rewrite Hq in L2, O2, T2. cbn in L2, O2, T2.
      exists [SetTimeout ms; Execute sql_query]. split; [set_solver|]. split; [by rewrite L2, L1, app_nil_r, <-!app_assoc|]. naive_solver.
    + assert (answered set_answer = false) as Ha. { destruct (answered set_answer); [|done]. destruct (proj1 O1 eq_refl) as (? & ? & _). done. }
      rewrite Ha in *. cbn. exists [SetTimeout ms]. split; [set_solver|]. split; [by rewrite L1, <-!app_assoc|]. naive_solver.
  - destruct (handle sql_query ms query_answer (log ++ [Execute sql_query])) as [y log2] eqn:Hq.
    destruct (handle_spec sql_query ms query_answer (log ++ [Execute sql_query])) as (L2 & O2 & T2). rewrite Hq in L2, O2, T2. cbn in L2, O2, T2.
    exists [Execute sql_query]. split; [set_solver|]. split; [by rewrite L2, <-!app_assoc|]. naive_solver.
Qed.

(** ** The reaper *)

Record hanging : Type := mkHanging { hg_pid : Z; hg_query : string; hg_age_sec : Z; hg_terminated : bool }.
Record KillHangingQueriesResponse : Type := mkKill { terminated_count : nat; target_max_age_seconds : Z; kq_details : list string }.

Definition detail (r : hanging) : string :=
  "PID " +:+ pretty (hg_pid r) +:+ " terminated (Age: " +:+ pretty (hg_age_sec r) +:+ "s, Query: " +:+
  of_chars (take 60 (chars (hg_query r))) +:+ "...)".

Definition count_rows (acc : nat * list string) (r : hanging) : nat * list string :=
  if hg_terminated r then (S acc.1, acc.2 ++ [detail r]) else acc.

(** [kill_hanging_queries]: the rows the statement on [pg_stat_activity] returns, and an
    exception of the commit; every exception is swallowed, but for one of the rollback. *)
Definition kill_hanging_queries (max_age_seconds : Z) (query_answer : answer (list hanging)) (commit_fails : option exc) (log : list action)
  : (KillHangingQueriesResponse + exc) * list action :=
  let reap := "SELECT pid, query, age, pg_terminate_backend(pid) FROM pg_stat_activity" in
  let answer_with c d log' := (inl (mkKill c max_age_seconds d), log') in
  if postgresql then
    let undo c d log' := match rollback_fails with Some e => (inr e, log' ++ [Rollback]) | None => answer_with c d (log' ++ [Rollback]) end in
    match query_answer with
    | Rows rows =>
        let '(c, d) := foldl count_rows (0%nat, []) rows in
        match commit_fails with
        | None => answer_with c d (log ++ [Execute reap; Commit])
        | Some _ => undo c d (log ++ [Execute reap; Commit])
        end
    | _ => undo 0%nat [] (log ++ [Execute reap])
    end
  else answer_with 0%nat ["SQLite dialect does not support remote backend process termination. Scanned age > " +:+
                          pretty max_age_seconds +:+ "s."] log.

Lemma count_rows_all rows acc : foldl count_rows acc rows =
  ((acc.1 + length (filter (fun r => hg_terminated r = true) rows))%nat, acc.2 ++ (detail <$> filter (fun r => hg_terminated r = true) rows)).
Proof.
  revert acc. induction rows as [|r rows IH]; intros [c d]; [cbn; by rewrite Nat.add_0_r, app_nil_r|].
  cbn [foldl]. rewrite IH, filter_cons. unfold count_rows. destruct (hg_terminated r) eqn:Hr.
  - rewrite decide_True by done. cbn. rewrite <-app_assoc. f_equal. lia.
  - by rewrite decide_False.
Qed.

(** The answer counts and names exactly the backends that were terminated, also when the
    commit fails (the termination is no part of the transaction), and the session is
    left committed or rolled back. *)
Theorem reaper_reports_terminated max_age rows commit_fails log :
  postgresql = true -> rollback_fails = None ->
  let gone := filter (fun r => hg_terminated r = true) rows in
  let '(r, log') := kill_hanging_queries max_age (Rows rows) commit_fails log in
  r = inl (mkKill (length gone) max_age (detail <$> gone)) /\
  last log' = Some (match commit_fails with None => Commit | Some _ => Rollback end).
Proof.
  intros Hp Hr. unfold kill_hanging_queries. rewrite Hp, Hr, count_rows_all. cbn.
  destruct commit_fails; cbn; (split; [done|]); rewrite ?last_snoc; [done|].
  by rewrite (last_app (log) [_; _]).
Qed.

End Execute.

Lemma reaper_reports_terminated_witness :
  kill_hanging_queries true None 10 (Rows [mkHanging 7 "SELECT pg_sleep(99)" 42 true; mkHanging 8 "VACUUM" 11 false]) None [] =
  (inl (mkKill 1 10 ["PID 7 terminated (Age: 42s, Query: SELECT pg_sleep(99)...)"]),
   [Execute "SELECT pid, query, age, pg_terminate_backend(pid) FROM pg_stat_activity"; Commit]).
Proof.
  pose proof (reaper_reports_terminated true None 10 [mkHanging 7 "SELECT pg_sleep(99)" 42 true; mkHanging 8 "VACUUM" 11 false] None []
    eq_refl eq_refl) as H.
  vm_compute in H. destruct H as [H _]. vm_compute. exact (f_equal (fun r => (r, _)) H).
Defined.

(** A server's message about a cancelled statement is a timeout; the case does not
    matter. *)
Example ex_cancelled : execute_with_custom_timeout 5000 true None "SELECT pg_sleep(9)" (Some 100) (Rows ())
    (DriverError (A:=()) "QueryCanceledError: canceling statement") [] =
  (inr (QueryTimeout "SELECT pg_sleep(9)" 100), [SetTimeout 100; Execute "SELECT pg_sleep(9)"; Rollback]).
Proof. reflexivity. Qed.
